(* ===== verification/_CoqProject ===== *)
-Q . S2P
Prelude.v
Bytes.v
Text.v
Float.v
Bn254.v
AggTask.v
AggState.v
AggPersist.v
AggBackend.v
AggService.v
AggDurable.v
GossipDedup.v
GossipStore.v
SigWeight.v
AggSig.v
PeerManager.v
Handshake.v
JobCore.v
Hex.v
Http.v
TangleExtract.v
Router.v
EvmLog.v
TangleProducer.v
TangleConsumer.v
ConfigCache.v
AggConsumer.v
AggClient.v
EvmExtract.v
EvmPolling.v
EvmConsumer.v
X402Config.v
X402Quotes.v
X402Gateway.v
X402Http.v
AuthTypes.v
AuthStore.v
AuthPaseto.v
AuthProxy.v
AuthOauth.v
AuthExamples.v
Pow.v
JobQuote.v
Pricing.v
PricingToml.v
PricingRpc.v
PricingExamples.v
TeeTypes.v
TeeExchange.v
TeeAttest.v
TeeNitro.v
TeeRuntime.v
TeeExamples.v
Webhooks.v
WebhookNotify.v
LocalDb.v
Shell.v
Disk.v
TlsEnvelope.v
Sources.v
Upgrade.v
UpgradeFetch.v
UpgradeChain.v
UpgradeWatch.v
Launch.v
RunnerConfig.v
Runner.v
ExecProfile.v
SshDeploy.v
SshExact.v
Infra.v
DeployTracker.v
DeployUpdate.v
Metadata.v
ManagerHandler.v
UpgradeChannels.v
