(* ===== verification/Prelude.v ===== *)
(** * Verification of the Tangle Blueprint SDK

    The SDK (a workspace of Rust crates under [src/crates]) lets operators run
    services whose results are settled on a chain.  Four things make up its core
    logic, and are the subject of this development.

    The first is the job pipeline.  A producer follows the chain and turns
    events into job calls, a router hands each call to the handlers registered
    for it, and a consumer submits the results.  Calls also come from a payment
    gateway, where a client pays for a job over HTTP.

    The second is how operators agree on a result and prove it: they sign an
    output, the signatures are collected, deduplicated and weighed, and once a
    threshold is reached one aggregated BLS signature is handed to the chain.
    There are two implementations of this, a service that operators post their
    signatures to and a gossip protocol between operators; both use the
    signatures of [src/crates/crypto/bn254].  Below the gossip protocol is a
    peer-to-peer layer that admits peers by a handshake.  The aggregating
    consumer joins the two: it is the end of the pipeline for jobs whose results
    need a quorum, and the client of the aggregation service.

    The third is what stands between a service and its users: the proxy that
    authenticates requests, the engine that quotes prices, attestation and
    sealed secrets for services in trusted environments, webhooks and the
    local database.

    The fourth is the manager that an operator runs: it follows the chain,
    fetches the binaries that blueprints register, starts and ends services,
    and replaces their binaries when a new version is published.  It can also
    place services on machines it rents: it then maps requirements to a
    provider's instances, runs containers there over SSH, tracks them until
    they are ended, and updates them in place.  The binary it starts is a
    blueprint, whose runner drives the pipeline above.

    ** Files

    - [Prelude]: results, machine integers ([u32], [u64], [U256] with wrapping
      and saturating operations), durations, maps and their traversals, bounded
      iteration, the tactics and the [blueprint] hint database.
    - [Bytes], [Text]: the parts of the standard library the code uses on byte
      slices (endian conversions, casts, UTF-8) and on strings (trimming,
      splitting, parsing and printing numbers).
    - [Float]: rounding of the [f64] and [f32] values the code computes with.
    - [Bn254]: [crypto/bn254/src/lib.rs] and [aggregation.rs].  Both
      hash-to-curve loops, [sign], [verify], [sign_tangle], [verify_tangle],
      [aggregate], [verify_aggregate], over the class [Bn254] of curve
      operations (the [ark-bn254] groups and pairing, the hash functions).
    - [AggTask]: [TaskState] of [tangle-aggregation-svc/src/state.rs]: signer
      bitmap, count and stake thresholds, expiry, the signer queries.
    - [AggState]: [AggregationState] of the same file, the table of tasks with
      every operation on it, the abstract quorum collector it implements, and
      its runs as a step relation.
    - [AggPersist]: [persistence.rs], the stored form of a task and the two
      conversions, and [snapshot] and [restore] of the table.
    - [AggBackend]: the [PersistenceBackend] trait, its contract
      [DurableBackend], and the backends [NoPersistence] and [FilePersistence].
    - [AggService]: [service.rs] and the handlers of [api.rs]: the service over
      any backend, with its roll-back paths.
    - [AggDurable]: the theorems about the service, proved against
      [DurableBackend] and discharged for [FilePersistence].
    - [GossipDedup]: [gossip-primitives/src/dedup.rs], over the class
      [LruCache] with its laws.
    - [GossipStore]: [gossip-primitives/src/store.rs].
    - [SigWeight]: [agg-sig-gossip/src/signature_weight.rs].
    - [AggSig]: [agg-sig-gossip/src/protocol.rs], [protocol_state.rs],
      [malicious.rs], [aggregator_selection.rs] and [messages.rs]: the protocol
      state, every message handler, result building and the main loop.
    - [PeerManager]: [networking/src/discovery/peers.rs] and [utils.rs]: active,
      verified and banned peers, key links, the whitelist and its indices.
    - [Handshake]: [networking/src/blueprint_protocol]: handshake messages, the
      handlers of requests, responses, gossip and connections, rate limits.
    - [JobCore]: [core/src]: job identifiers, metadata values and maps, job
      calls, job results and the conversion of what a handler returns.
    - [TangleExtract]: [tangle-extra/src/extract/mod.rs] and [layers.rs]: the
      extractors, compact argument decoding (with the encoder of
      [cli/src/command/jobs/helpers.rs]) and the submission layer.
    - [Router]: [router/src]: registration, dispatch, layers and contexts, and
      the table of registrations it implements.
    - [EvmLog]: logs and words of the chain, stable sorting by a key.
    - [TangleProducer]: [tangle-extra/src/producer.rs]: event decoding, the poll
      with its retries and its cursor, the job stream.
    - [TangleConsumer]: [tangle-extra/src/consumer.rs], and the composition of
      producer, router, layer and consumer.
    - [ConfigCache]: [tangle-extra/src/cache.rs].
    - [AggConsumer]: the pure part of [tangle-extra/src/aggregating_consumer.rs]
      and [aggregation.rs]: thresholds, task requests, messages, bitmaps.
    - [AggClient]: [tangle-aggregation-svc/src/client.rs] and the effectful part
      of the aggregating consumer, in a monad that records every request.
    - [EvmExtract], [EvmPolling], [EvmConsumer]: [evm-extra/src]: calls from
      logs, extractors and filters; the polling producers; the consumers.
    - [X402Config], [X402Quotes], [X402Gateway], [X402Http]: [x402/src]:
      configuration and its validation; quotes and payments; authorisation, the
      replay guard and the paid request; price tags and HTTP endpoints.
    - [Hex], [Http]: hexadecimal text; header names, values and maps.
    - [AuthTypes], [AuthStore], [AuthPaseto], [AuthProxy], [AuthOauth]:
      [auth/src]: identifiers, credentials and header validation; the stored
      models over a database whose calls may fail; access tokens; the challenge,
      verification and exchange endpoints and the proxied request; assertions
      and their grants.  [AuthExamples] has their runs.
    - [Pow], [JobQuote], [Pricing], [PricingToml], [PricingRpc]:
      [pricing-engine/src] and [tangle-extra/src/job_quote.rs]: proofs of work,
      EIP-712 quotes, prices with curves, price files, both RPC calls.
      [PricingExamples] has their runs.
    - [TeeTypes], [TeeExchange], [TeeAttest], [TeeNitro], [TeeRuntime]:
      [tee/src] and the start of the runner: configuration, key-exchange
      sessions and sealed secrets, attestation of tokens and of Nitro documents,
      backends and their registry.  [TeeExamples] has their runs.
    - [Webhooks], [WebhookNotify]: [webhooks/src]: the gateway; subscriptions,
      callbacks and dead letters.
    - [LocalDb]: [stores/local-database/src/lib.rs].
    - [Shell]: how a POSIX shell reads a command line, and the commands that
      [blueprint-remote-providers/src/deployment/secure_commands.rs] and
      [secure_ssh.rs] build and check.
    - [SshDeploy], [SshExact]: [deployment/ssh], in a monad that
      records every command run, file copied and pause: connections, hardening
      scripts, native and container deployments, health checks, metrics, logs
      and fleets; then what a deployment runs, command by command.
    - [Infra]: [blueprint-remote-providers/src/infra] and [core/remote.rs]:
      providers, resources to instances, costs, and the
      provisioner over any cloud adapter.
    - [DeployTracker]: [deployment/tracker] and [monitoring/health.rs].
    - [DeployUpdate]: [deployment/update_manager.rs], [error_recovery.rs]: the
      strategies, rollback, retries and transactions.
    - [Disk]: a host with files, faults and servers, the monad [Fetch] over it
      with its triples, and the helpers of [manager/src/sdk/utils.rs] and
      [blueprint/native.rs]; the digest gate of [sources/remote.rs].
    - [TlsEnvelope]: [auth/src/tls_envelope.rs]: the sealed form of the TLS
      assets that the proxy stores, and the key file it is sealed under.
    - [Sources]: [manager/src/sources]: the fetchers, archives and manifests.
    - [Upgrade], [UpgradeFetch], [UpgradeChain], [UpgradeWatch],
      [UpgradeChannels]: [manager/src/upgrade]: state and local authorisations;
      the fetch of a version; the view of the contract; the watcher and the
      local API; the channels between the watcher and the event handler.
    - [Launch]: the order of sources, arguments, environment and attempts of a
      launch ([protocol/tangle/event_handler.rs], [sources/mod.rs]).
    - [RunnerConfig]: [runner/src/config.rs]: the settings and the environment
      that a blueprint reads at its start.
    - [Runner]: [runner/src/lib.rs], [metrics_server.rs], [tangle/config.rs] and
      [blueprint-faas/src/core.rs]: registration, the start of a blueprint and
      its main loop over producers, router, cloud functions and consumers.
    - [ExecProfile]: [clients/tangle/src/blueprint_metadata.rs].
    - [Metadata]: [protocol/tangle/metadata.rs].
    - [ManagerHandler]: the event handler, and the manager as a step relation.

    ** How the model corresponds to the code

    A struct is a record with the struct's fields, an enum an inductive type
    with its variants, a function that takes [&mut self] a function that also
    returns the new state, [Result] is [result] of [Prelude], a panic is
    [None] or a constructor of its own.  [HashMap] and [HashSet] are [gmap] and
    [gset]; where the code iterates over one, the order is the one [map_to_list]
    or [elements] yields, and the theorems do not depend on it unless they say
    so.  Integers are [Z]; wrapping, saturation and the 256-bit bitmap are
    written out where the code can reach them.  An arithmetic overflow of a
    plain [+] or [sum] is the wrap-around of a release build.

    Time is explicit.  Every reading of the clock is an argument of the
    operation, and an operation that reads the clock once per map entry takes a
    function from keys to readings.  [Instant] is a number of nanoseconds.  A
    monotonic and a wall clock reading that belong together form a [Clock].

    Each operation is one atomic step.  This is what the locks of the code
    give: the mutating operations of the service hold its [mutation_lock], the
    task table has one [RwLock], and the gossip protocol is a single task.  Its
    main loop is a function of the sequence of events that [tokio::select!]
    delivers, so a theorem about all sequences covers every schedule.  Where
    code suspends in the middle of an operation and others may run, the model
    has one step per part: a paid request of the gateway is authorised, takes
    its quote, draws its number and is sent in steps of their own
    ([gateway_step]), a token request looks its assertion up and records it in
    two steps that overlapping requests may interleave ([oauth_begin],
    [oauth_finish]), a cached look-up fetches and stores separately.  A pass of
    the upgrade watcher is an exception: it waits between services, and is one
    step here, so an approval made during a pass is one made before or after it.  Streams and sinks are functions of the sequence of
    polls, each with the answers that are ready then ([Attempt], [Oracle]);
    a request to a remote service is answered by an arbitrary function of the
    history so far ([Remote]).

    Code outside the repository is a parameter: curve arithmetic and pairing
    ([Bn254]), text codecs ([TextCodec]), JSON ([TableJson]), the [lru] crate
    ([LruCache]), the wire codec, the network and the hash functions of the
    gossip protocol ([Environment], [Wire]), key types, [secp256k1] recovery
    and [libp2p] ([KeyType], [EvmCrypto], [Libp2p]), contract ABI coding
    ([StringAbi], [SolEvent], [MessageAbi]), decimal arithmetic
    ([DecimalOps]), signature recovery and the payment headers of the gateway
    ([DelegatedAuth], [PaymentHeaders]), JSON texts ([JsonText], [AuthzJson],
    [ManifestJson], [ArtifactJson]), tokens and certificates ([JwtLib] and the
    classes of [TeeNitro]), digests ([Hasher], [Digests]), archives and the tools
    the manager calls ([Archives], [Tools]), the quoting of shell arguments
    ([ShellEscape]), the machines and clouds that deployments use
    ([RemoteWorld], [CloudAdapter], [CleanupWorld], [UpdateAdapter]), texts of
    numbers ([NumberText]), encryption and base64 ([Chacha], [Base64]), the texts
    of settings ([SettingsText]), what surrounds a runner ([RunnerWorld]), the platform and the network
    ([Platform], [Net]), and the events of the contract ([VersionEvents],
    [SourcesAbi]).  Each class has its documented laws in a
    second class where a theorem needs them, and an instance that satisfies
    them, which the witnesses use.

    ** What the theorems show

    - Signatures ([Bn254]): signing followed by verification succeeds, valid
      signatures aggregate to a valid signature (for both schemes), and the
      unbounded hash-to-curve loop ends.
    - Tasks ([AggTask], [AggState]): [add_signature] on every branch; bitmap,
      signer and non-signer lists describe one split of the operators; the
      stake threshold is exact as long as the stakes fit; reachable tables are
      well formed; signatures are never lost or replaced; submitting a
      signature refines a quorum collector that counts signers and knows no
      bitmap.
    - Durability ([AggPersist], [AggBackend], [AggDurable]): stored tasks read
      back as the same tasks, their times to 2 ms, inconsistent records are
      refused, each request is atomic with respect to memory and storage
      whatever storage call fails, a restart recovers the table but for tasks
      that a failed cleanup was removing, and what the service hands out for
      the chain is a met threshold with a valid aggregate (for the Tangle
      scheme, unless signatures or keys cancel to the identity).  A file whose
      existence cannot be asked reads as empty: [stat_error_loses_tasks].
    - Gossip ([GossipDedup], [GossipStore]): no duplicate within the
      time-to-live, no rejection without cause, collection does not change
      answers, exact sender index, bounded store, eviction of the oldest.
    - Protocol ([SigWeight], [AggSig]): thresholds are monotone and quorums
      intersect; a result of [run] is backed by a quorum and verifies, the
      recorded signatures are valid, messages only move the state forward, and
      the only panic is a second [run].
    - Network ([PeerManager], [Handshake]): a ban lasts exactly as long as it
      says, emitted events describe the state, whitelist indices round-trip;
      messages reach the protocols only from peers that presented a whitelisted
      key, and within a rate limit that is neither exceeded nor stricter than
      stated.
    - Jobs ([JobCore], [TangleExtract], [Router], [TangleProducer],
      [TangleConsumer]): identifiers and encodings round-trip; dispatch refines
      a table of registrations; the job stream is exactly the jobs logged on the
      chain from the block where it starts, once and in order, whatever requests
      fail (a start at block 0 begins at most nine blocks behind the head), and
      it makes progress when the node answers; what handlers return for a job is submitted under
      that job's service and call.
    - Polling ([EvmExtract], [EvmPolling], [EvmConsumer]): every log becomes one
      call, blocks are delivered once and in order as long as no request for
      logs fails, and all confirmed blocks are delivered in the end.
    - Aggregating consumer ([ConfigCache], [AggConsumer], [AggClient]): cached
      operators are never older than the last invalidation; the task asked for
      enforces the configured threshold; the signed message binds its context;
      the service accepts the signature the consumer sends; whatever services
      answer, only results handed out by a service reach the chain, and the
      submission ends; what counts as settled is spelled out by [settled].
    - Payments ([X402Config] to [X402Http]): only authorised requests reach the
      runner, each paid for once and under a number of its own, not
      necessarily in the order of the numbers; the replay guard refuses exactly the nonces in
      use; every priced job is offered in every token; the dry run agrees with
      the paid request.

    - Authentication ([AuthProxy], [AuthOauth]): forwarded requests carry a
      valid credential and only its headers; keys and tokens that are issued
      work; an assertion that was exchanged is refused from then on, except by
      requests that had already looked it up ([overlapping_exchanges]); a
      refusal has one of nine reasons.
    - Prices ([Pow], [JobQuote], [PricingToml], [PricingRpc]): a search for work
      ends; digests bind their fields; price files round-trip and are
      chargeable; a quote is signed for exactly the terms of its request.
    - Trusted execution ([TeeExchange], [TeeAttest], [TeeNitro], [TeeRuntime]):
      sessions are used once and bounded, sealed secrets arrive, tokens and
      documents are accepted only from their trusted signers.
    - Runner ([RunnerConfig], [Runner], [TlsEnvelope]): a blueprint reads from
      its environment what the manager wrote there; it serves only once it is
      registered and never in a dry run; what the router answers to a call goes
      to every consumer, in order; a run ends well only after registering, its
      loop ends only with an error, and then the spawned shutdown task is woken
      and calls the handler when it is next polled; a sealed text opens to what was sealed, under
      the key that was written first.
    - Webhooks and database: accepted requests are authentic, a subscriber sees
      the events of its job, callbacks are retried and kept; the database
      refines a map whatever writes fail, until an update panics and poisons
      its lock, as long as its file is not its own temporary file and can be
      read when it is opened.
    - Manager ([Sources], [Upgrade] to [UpgradeChannels], [Launch],
      [ExecProfile], [Metadata], [ManagerHandler]): a fetched binary has the
      digests registered, an upgrade those in force on chain, whatever servers
      and disk do; metadata is what the contract anchors; the search for an
      event ends with the newest; authorisations survive a restart; the watcher
      queues only swaps that the policy allows; sources are tried in a fixed
      order that a TEE requirement restricts; every running service was
      launched from the metadata the manager was answered with, and is followed; the two tasks of the manager
      never block each other while a pass fits its channel.

    - Remote deployments ([Shell], [SshDeploy], [SshExact], [Infra],
      [DeployTracker], [DeployUpdate]): every command that leaves the client
      passed the checks, also after a reconnection, a shell reads an escaped command as the words meant,
      and a deployment runs exactly its stated sequence, whatever the machine
      answers; a provision asks for exactly the mapped instance; a tracked
      record ends once it is cleaned up, and survives a restart; an update by a
      strategy that checks the new deployment leaves a healthy service active
      whatever fails, and a canary ends.

    Some theorems state what the code does where a reader may expect something
    else: operators beyond index 255, wrapping stake sums, the scope of the
    default time-to-live, messages received at one instant, rounding of
    percentage thresholds, relayed shares, equivocation, unauthenticated
    reports and completion messages below the threshold; handshakes presented
    by another peer, verification that outlives a ban or a connection, the
    address in a handshake response, and the locking of logged interactions;
    the job index that the consumer never sees, the aggregation strategy that is
    never used, the first blocks and the failed ranges that polling skips,
    consumers that fail or close early, cache entries and their time-to-live;
    assertions in their last second, the default policy of the gateway, payments
    for disabled jobs, and the call numbers of paid calls; digests that the
    GitHub source does not compare, upgrades that leave a service down,
    attestations that an approval does not check, restart policies and log lines
    that a deployment drops, replacements that a tracker does not record, results
    of cloud functions that no consumer sees, failures of background services
    that the runner passes over, and the others that the files
    state beside the definitions they concern.

    ** Bounds and fuel

    The loop of [hash_to_curve] has no bound in the code.  The model iterates
    it at most [P_MOD] times, the size of the field: by then every [x] has been
    tried, and [hash_to_curve_terminates] shows that this is enough.  The
    iteration is by binary recursion on the bound, so that it evaluates.
    [hash_to_curve_tangle] has the code's own bound of 256.  The retry loop of
    [poll_for_jobs] and the loop of [evm_poll_next] run for as many rounds as
    the environment gives answers, and [producer_live] and [polling_live] say how many are
    enough; the waiting loops of the client run over the readings of the clock,
    and [submission_terminates] shows that they end with the first one past the
    timeout.  The scan of the chain's logs has one round for each window of
    10000 blocks up to the head, the reading of a file one for each buffer and
    one for its end, and a download four attempts; [scan_windows_newest] and
    [digest_loop_quiet] show that these are enough.  The rollout of a canary
    has [CANARY_FUEL] = 101 rounds: [canary_ends] shows that a hundred are enough
    whenever the step is not zero.  The
    wait for captured registration inputs has [CAPTURE_ROUNDS] rounds, which
    [captured] shows to cover the code's timeout.  All other loops are structural: over maps, lists of events or
    lists of messages.

    ** What is not modelled

    Point, key and signature serialisation (only calls into [arkworks]), HTTP
    routing, logging and metrics, the [tokio] tasks around the cleanup worker,
    the settlement middleware of the x402 library and its machine payment
    protocol, TLS and the certificate authority of the proxy, the runtimes of
    the manager (virtual machines, containers, cgroups, network interfaces) and
    its bridge, and the other crates of the workspace: the adapters of the single clouds and their
    GPU and Kubernetes variants, service discovery, tunnels and the log server
    of the remote providers, chain clients and contract bindings, monitoring servers, most of the command-line
    tools and the vendored template generator are input and output.  The
    keystore, the peer-to-peer aggregation strategy and the round-based adapter
    are thin layers over the libraries they adapt. *)

From Stdlib Require Import ZArith Lia.
From stdpp Require Import base gmap sets list sorting strings fin_maps numbers relations.

#[local] Open Scope Z_scope.

(** ** Results: Rust's [Result<A, E>] *)

Inductive result (E A : Type) : Type :=
| Ok (a : A)
| Err (e : E).
Arguments Ok {E A} a.
Arguments Err {E A} e.

#[global] Instance result_ret E : MRet (result E) := λ A, Ok.
#[global] Instance result_bind E : MBind (result E) :=
  λ A B f m, match m with Ok a => f a | Err e => Err e end.
#[global] Instance result_fmap E : FMap (result E) :=
  λ A B f m, match m with Ok a => Ok (f a) | Err e => Err e end.

(** [Result::map_err] *)
Definition map_err {E F A} (f : E → F) (r : result E A) : result F A :=
  match r with Ok a => Ok a | Err e => Err (f e) end.

(** [Option::ok_or] *)
Definition ok_or {E A} (o : option A) (e : E) : result E A :=
  match o with Some a => Ok a | None => Err e end.

(** [Result::ok] *)
Definition result_ok {E A} (r : result E A) : option A :=
  match r with Ok a => Some a | Err _ => None end.

Definition is_Ok {E A} (r : result E A) : Prop := ∃ a, r = Ok a.

(** [iter.map(f).collect::<Result<Vec<_>, _>>()]: stops at the first error. *)
Fixpoint traverse {E A B} (f : A → result E B) (l : list A) : result E (list B) :=
  match l with
  | [] => Ok []
  | x :: l => y ← f x; ys ← traverse f l; Ok (y :: ys)
  end.

(** A loop whose body may fail, as [for x in l { s = f(s, x)?; }]. *)
Fixpoint try_fold {E S A} (f : S → A → result E S) (s : S) (l : list A) : result E S :=
  match l with
  | [] => Ok s
  | x :: l => s' ← f s x; try_fold f s' l
  end.

(** ** Machine integers, release semantics (arithmetic wraps) *)

Definition u32_max : Z := 2 ^ 32 - 1.
Definition u64_max : Z := 2 ^ 64 - 1.
Definition u128_max : Z := 2 ^ 128 - 1.
Definition u32_wrap (x : Z) : Z := x mod 2 ^ 32.
Definition u64_wrap (x : Z) : Z := x mod 2 ^ 64.
Definition u64_sat_add (x y : Z) : Z := Z.min (x + y) u64_max.
Definition u64_sat_mul (x y : Z) : Z := Z.min (x * y) u64_max.
Definition u64_sat_sub (x y : Z) : Z := Z.max 0 (x - y).
Definition u32_sat_add (x y : Z) : Z := Z.min (x + y) u32_max.

Definition is_u32 (x : Z) : Prop := 0 ≤ x < 2 ^ 32.
Definition is_u64 (x : Z) : Prop := 0 ≤ x < 2 ^ 64.

(** [Iterator::sum::<u64>()]: a left fold of wrapping additions. *)
Definition sum_u64 (l : list Z) : Z := foldl (λ acc x, u64_wrap (acc + x)) 0 l.

(** The mathematical sum the wrapped one approximates. *)
Definition sumZ (l : list Z) : Z := foldr Z.add 0 l.

(** 256-bit unsigned words: [<<] keeps the low 256 bits, [>>], [|] and [&] are
    bitwise. *)
Definition u256_shl (x s : Z) : Z := Z.shiftl x s mod 2 ^ 256.
Definition u256_shr (x s : Z) : Z := Z.shiftr x s.
Definition u256_or (x y : Z) : Z := Z.lor x y.
Definition u256_and (x y : Z) : Z := Z.land x y.

(** ** Time: [Instant] and [Duration] in nanoseconds *)

Abbreviation Instant := Z (only parsing).
Abbreviation Duration := Z (only parsing).
Abbreviation Byte8 := Z (only parsing).

Definition from_secs (s : Z) : Duration := s * 1000000000.
Definition from_millis (s : Z) : Duration := s * 1000000.
Definition as_secs (d : Duration) : Z := d / 1000000000.
Definition as_millis (d : Duration) : Z := d / 1000000.

(** [Instant::elapsed] at [now], and [Instant::duration_since]: both saturate
    at zero. *)
Definition elapsed (now t : Instant) : Duration := Z.max 0 (now - t).

(** ** Tactics *)

(** Invert equations between results and options, then close what is false. *)
Ltac inv_ok :=
  repeat match goal with
  | H : Ok _ = Ok _ |- _ => injection H as H; try subst
  | H : Err _ = Err _ |- _ => injection H as H; try subst
  | H : Ok _ = Err _ |- _ => discriminate H
  | H : Err _ = Ok _ |- _ => discriminate H
  | H : is_Ok (Err _) |- _ => destruct H; discriminate
  end.

(** Case on the guard at the head of a hypothesis and discard error branches. *)
Ltac step_in H :=
  match type of H with
  | context [if ?b then _ else _] => let E := fresh "Hg" in destruct b eqn:E
  | context [match ?o with _ => _ end] => let E := fresh "Hm" in destruct o eqn:E
  end; simpl in H; simplify_eq/=.

Ltac steps_in H := repeat (step_in H; try discriminate).

(** Linear arithmetic with division and remainder by constants. *)
Ltac div_lia := Z.to_euclidean_division_equations; lia.

(** Turn boolean comparisons of integers into propositions. *)
Ltac to_prop :=
  repeat match goal with
  | H : context [Z.leb _ _ = true] |- _ => rewrite Z.leb_le in H
  | H : context [Z.leb _ _ = false] |- _ => rewrite Z.leb_gt in H
  | H : context [Z.ltb _ _ = true] |- _ => rewrite Z.ltb_lt in H
  | H : context [Z.ltb _ _ = false] |- _ => rewrite Z.ltb_ge in H
  | H : context [Z.eqb _ _ = true] |- _ => rewrite Z.eqb_eq in H
  | H : context [Z.eqb _ _ = false] |- _ => rewrite Z.eqb_neq in H
  | H : negb _ = true |- _ => apply negb_true_iff in H
  | H : negb _ = false |- _ => apply negb_false_iff in H
  | H : _ && _ = true |- _ => apply andb_true_iff in H as [? ?]
  | H : _ || _ = false |- _ => apply orb_false_iff in H as [? ?]
  end.

(** ** Integers *)

Create HintDb blueprint discriminated.

Lemma u64_wrap_small x : is_u64 x → u64_wrap x = x.
Proof. intros ?. unfold u64_wrap. by apply Z.mod_small. Qed.

Lemma u32_wrap_small x : is_u32 x → u32_wrap x = x.
Proof. intros ?. unfold u32_wrap. by apply Z.mod_small. Qed.

Lemma u64_wrap_is_u64 x : is_u64 (u64_wrap x).
Proof. apply Z.mod_pos_bound. lia. Qed.

Lemma u32_wrap_is_u32 x : is_u32 (u32_wrap x).
Proof. apply Z.mod_pos_bound. lia. Qed.

Lemma u64_wrap_add_l x y : u64_wrap (u64_wrap x + y) = u64_wrap (x + y).
Proof. unfold u64_wrap. by rewrite Zplus_mod_idemp_l. Qed.

#[export] Hint Resolve u64_wrap_is_u64 u32_wrap_is_u32 : blueprint.

Lemma sum_u64_foldl l a :
  foldl (λ acc x, u64_wrap (acc + x)) (u64_wrap a) l = u64_wrap (a + sumZ l).
Proof.
  revert a. induction l as [|x l IH]; intros a; simpl.
  - by rewrite Z.add_0_r.
  - rewrite u64_wrap_add_l, IH. f_equal. unfold sumZ. lia.
Qed.

Lemma sum_u64_spec l : sum_u64 l = u64_wrap (sumZ l).
Proof. exact (sum_u64_foldl l 0). Qed.

Lemma sumZ_cons x l : sumZ (x :: l) = x + sumZ l.
Proof. done. Qed.

Lemma sumZ_app l k : sumZ (l ++ k) = sumZ l + sumZ k.
Proof. induction l; simpl; lia. Qed.

Lemma sumZ_nonneg l : Forall (λ x, 0 ≤ x) l → 0 ≤ sumZ l.
Proof. induction 1; simpl; lia. Qed.

#[export] Instance sumZ_proper : Proper ((≡ₚ) ==> (=)) sumZ.
Proof. intros l k. induction 1; simpl; lia. Qed.

#[export] Instance sum_u64_proper : Proper ((≡ₚ) ==> (=)) sum_u64.
Proof. intros l k Hl. by rewrite !sum_u64_spec, Hl. Qed.

(** ** 256-bit bitmaps *)

Lemma land_1_testbit x : Z.land x 1 = Z.b2z (Z.testbit x 0).
Proof.
  rewrite Z.bit0_odd. change 1 with (Z.ones 1) at 1. rewrite Z.land_ones by lia.
  rewrite Z.pow_1_r, Zmod_odd. by destruct (Z.odd x).
Qed.

Lemma u256_bit_test b i :
  0 ≤ i → Z.eqb (u256_and (u256_shr b i) 1) 1 = Z.testbit b i.
Proof.
  intros Hi. unfold u256_and, u256_shr. rewrite land_1_testbit.
  rewrite Z.shiftr_spec by lia. rewrite Z.add_0_l. by destruct (Z.testbit b i).
Qed.

Lemma u256_shl1_testbit i j :
  0 ≤ i → 0 ≤ j →
  Z.testbit (u256_shl 1 i) j = bool_decide (i = j ∧ j < 256).
Proof.
  intros Hi Hj. unfold u256_shl. rewrite Z.shiftl_1_l.
  destruct (decide (j < 256)) as [Hlt|Hge].
  - rewrite Z.mod_pow2_bits_low by lia.
    destruct (decide (i = j)) as [->|Hne].
    + rewrite Z.pow2_bits_true by lia. by rewrite bool_decide_eq_true_2.
    + rewrite Z.pow2_bits_false by lia. by rewrite bool_decide_eq_false_2 by lia.
  - rewrite Z.mod_pow2_bits_high by lia.
    by rewrite bool_decide_eq_false_2 by lia.
Qed.

Lemma u256_set_testbit b i j :
  0 ≤ i → 0 ≤ j →
  Z.testbit (u256_or b (u256_shl 1 i)) j = (Z.testbit b j || bool_decide (i = j ∧ j < 256)).
Proof. intros. unfold u256_or. by rewrite Z.lor_spec, u256_shl1_testbit. Qed.

Lemma bounded_testbit b n :
  0 ≤ n → 0 ≤ b → b < 2 ^ n ↔ ∀ j, n ≤ j → Z.testbit b j = false.
Proof.
  intros Hn Hb. split.
  - intros Hlt j Hj. destruct (decide (b = 0)) as [->|]; [apply Z.bits_0|].
    apply Z.bits_above_log2; [done|].
    enough (Z.log2 b < n) by lia. apply Z.log2_lt_pow2; lia.
  - intros Hbits. destruct (decide (b = 0)) as [->|]; [apply Z.pow_pos_nonneg; lia|].
    apply Z.log2_lt_pow2; [lia|]. apply Z.nle_gt. intros Hle.
    specialize (Hbits _ Hle). rewrite Z.bit_log2 in Hbits by lia. done.
Qed.

Lemma u256_shl1_high i : 256 ≤ i → u256_shl 1 i = 0.
Proof.
  intros Hi. unfold u256_shl. rewrite Z.shiftl_1_l.
  replace i with ((i - 256) + 256) by lia. rewrite Z.pow_add_r by lia.
  by rewrite Z.mod_mul by lia.
Qed.

(** ** Maps: [HashMap::retain] and [HashMap::keys] *)

Section retain.
  Context {K A : Type} `{Countable K}.
  Implicit Types (m : gmap K A) (f : K → A → bool).

Definition retain (f : K → A → bool) (m : gmap K A) : gmap K A :=
  filter (λ p, f p.1 p.2 = true) m.

Definition keys (m : gmap K A) : list K := (map_to_list m).*1.

Definition values (m : gmap K A) : list A := (map_to_list m).*2.

Lemma retain_lookup_Some f m k x :
  retain f m !! k = Some x ↔ m !! k = Some x ∧ f k x = true.
Proof. unfold retain. by rewrite map_lookup_filter_Some. Qed.

Lemma retain_lookup f m k :
  retain f m !! k = (m !! k) ≫= λ x, if f k x then Some x else None.
Proof.
  apply option_eq. intros x. rewrite retain_lookup_Some.
  destruct (m !! k) as [y|]; simpl; [|intuition congruence].
  destruct (f k y) eqn:E; intuition congruence.
Qed.

Lemma retain_true f m : (∀ k x, m !! k = Some x → f k x = true) → retain f m = m.
Proof.
  intros Hf. apply map_eq. intros k. rewrite retain_lookup.
  destruct (m !! k) as [x|] eqn:E; simpl; [|done]. by rewrite (Hf k x).
Qed.

Lemma retain_size_le f m : (size (retain f m) ≤ size m)%nat.
Proof. apply map_subseteq_size. apply map_filter_subseteq. Qed.

Lemma retain_size f m :
  size m = (size (retain f m) + size (retain (λ k x, negb (f k x)) m))%nat.
Proof.
  rewrite <-map_size_disj_union.
  - f_equal. apply map_eq. intros k. apply option_eq. intros x.
    rewrite lookup_union_Some.
    + rewrite !retain_lookup_Some. destruct (f k x) eqn:E; simpl; intuition congruence.
    + apply map_disjoint_spec. intros j y z.
      rewrite !retain_lookup_Some. intros [? ?] [? ?]. simplify_eq. by to_prop; congruence.
  - apply map_disjoint_spec. intros j y z.
    rewrite !retain_lookup_Some. intros [? ?] [? ?]. simplify_eq. by to_prop; congruence.
Qed.

Lemma retain_size_eq f m : size (retain f m) = size m → retain f m = m.
Proof.
  intros Hs. pose proof (retain_size f m) as Hsz.
  assert (retain (λ k x, negb (f k x)) m = ∅) as He by (apply map_size_empty_iff; lia).
  apply retain_true. intros k x Hk. destruct (f k x) eqn:E; [done|].
  assert (retain (λ k x, negb (f k x)) m !! k = Some x) as Hx.
  { apply retain_lookup_Some. by rewrite E. }
  by rewrite He, lookup_empty in Hx.
Qed.

Lemma retain_insert f m k x :
  m !! k = None →
  retain f (<[k:=x]> m) = if f k x then <[k:=x]> (retain f m) else retain f m.
Proof.
  intros Hk. unfold retain. destruct (f k x) eqn:E.
  - by rewrite map_filter_insert_True.
  - rewrite map_filter_insert_False by (simpl; congruence). by rewrite delete_id.
Qed.

Lemma elem_of_keys m k : k ∈ keys m ↔ is_Some (m !! k).
Proof.
  unfold keys. rewrite list_elem_of_fmap. split.
  - intros ([k' x] & -> & Hx). apply elem_of_map_to_list in Hx. by exists x.
  - intros [x Hx]. exists (k, x). split; [done|]. by apply elem_of_map_to_list.
Qed.

Lemma keys_NoDup m : NoDup (keys m).
Proof. apply NoDup_fst_map_to_list. Qed.

Lemma keys_length m : length (keys m) = size m.
Proof. unfold keys. by rewrite length_fmap, length_map_to_list. Qed.

Lemma keys_insert m k x : m !! k = None → keys (<[k:=x]> m) ≡ₚ k :: keys m.
Proof.
  intros Hk. unfold keys. by rewrite (map_to_list_insert m k x Hk).
Qed.

Lemma values_insert m k x : m !! k = None → values (<[k:=x]> m) ≡ₚ x :: values m.
Proof.
  intros Hk. unfold values. by rewrite (map_to_list_insert m k x Hk).
Qed.

Lemma keys_elements_dom m : keys m ≡ₚ elements (dom m).
Proof.
  apply NoDup_Permutation; [apply keys_NoDup|apply NoDup_elements|].
  intros k. by rewrite elem_of_keys, elem_of_elements, elem_of_dom.
Qed.

End retain.

(** Distinct keys never weigh more than the whole map. *)
Lemma sum_default_le `{Countable K} (m : gmap K Z) (ks : list K) :
  NoDup ks → (∀ k x, m !! k = Some x → 0 ≤ x) →
  sumZ ((λ k, default 0 (m !! k)) <$> ks) ≤ sumZ (values m).
Proof.
  intros Hnd. revert m. induction Hnd as [|k ks Hk Hnd IH]; intros m Hpos.
  - apply sumZ_nonneg. apply list.Forall_forall. intros x.
    unfold values. rewrite list_elem_of_fmap. intros ([k y] & -> & Hy).
    apply elem_of_map_to_list in Hy. eauto.
  - rewrite fmap_cons, sumZ_cons. destruct (m !! k) as [x|] eqn:E; simpl.
    + assert (values m ≡ₚ x :: values (delete k m)) as ->.
      { rewrite <-values_insert by apply lookup_delete_eq. by rewrite insert_delete_id. }
      rewrite sumZ_cons.
      assert (sumZ ((λ k0, default 0 (m !! k0)) <$> ks)
              = sumZ ((λ k0, default 0 (delete k m !! k0)) <$> ks)) as ->.
      { f_equal. apply list_fmap_ext. intros i k0 Hi.
        apply list_elem_of_lookup_2 in Hi. rewrite lookup_delete_ne; [done|]. by intros <-. }
      specialize (IH (delete k m)). apply Zplus_le_compat_l, IH.
      intros k0 y. rewrite lookup_delete_Some. intros [_ ?]. eauto.
    + by apply IH.
Qed.

#[export] Hint Resolve keys_NoDup : blueprint.

Lemma filter_all {A} (P : A → Prop) `{∀ x, Decision (P x)} (l : list A) :
  (∀ x, x ∈ l → P x) → filter P l = l.
Proof.
  induction l as [|x l IH]; intros HP; [done|].
  rewrite filter_cons, decide_True by (apply HP; by left).
  rewrite IH; [done|]. intros y Hy. apply HP. by right.
Qed.

Lemma fmap_filter_NoDup {A B} (f : A → B) (P : A → Prop) `{∀ x, Decision (P x)} (l : list A) :
  NoDup (f <$> l) → NoDup (f <$> filter P l).
Proof.
  induction l as [|x l IH]; [done|]. rewrite fmap_cons, filter_cons. intros [Hx Hnd]%list.NoDup_cons.
  case_decide; [|by apply IH]. rewrite fmap_cons. apply list.NoDup_cons. split; [|by apply IH].
  intros (y & Heq & [_ Hy]%list_elem_of_filter)%list_elem_of_fmap. apply Hx.
  rewrite Heq. by apply list_elem_of_fmap_2.
Qed.

(** ** Reachability *)

Lemma rtc_invariant {A} (R : relation A) (P : A → Prop) x y :
  (∀ y z, P y → R y z → P z) → P x → rtc R x y → P y.
Proof. intros HP Hx Hr. induction Hr as [|x1 x2 x3 H _ IH]; [done|]. apply IH. by eapply HP. Qed.

(** ** Bounded loops *)

(** A loop body returns the next state, or [inr] of the result.  The bound is
    binary, so that a loop with a huge bound still runs. *)
Fixpoint iter_until {A B} (step : A → A + B) (n : positive) (a : A) : A + B :=
  match n with
  | xH => step a
  | xO n =>
      match iter_until step n a with
      | inl a => iter_until step n a
      | inr b => inr b
      end
  | xI n =>
      match step a with
      | inl a =>
          match iter_until step n a with
          | inl a => iter_until step n a
          | inr b => inr b
          end
      | inr b => inr b
      end
  end.

Fixpoint iter_upto {A B} (step : A → A + B) (n : nat) (a : A) : A + B :=
  match n with
  | O => inl a
  | S n => match step a with inl a => iter_upto step n a | inr b => inr b end
  end.

Lemma iter_upto_add {A B} (step : A → A + B) n m a :
  iter_upto step (n + m) a =
  match iter_upto step n a with inl a => iter_upto step m a | inr b => inr b end.
Proof. revert a. induction n as [|n IH]; intros a; simpl; [done|]. destruct (step a); [apply IH|done]. Qed.

Lemma iter_until_upto {A B} (step : A → A + B) n a :
  iter_until step n a = iter_upto step (Pos.to_nat n) a.
Proof.
  revert a. induction n as [n IH|n IH|]; intros a; cbn [iter_until].
  - rewrite Pos2Nat.inj_xI. simpl. destruct (step a) as [a'|]; [|done].
    rewrite Nat.add_0_r, iter_upto_add, IH. destruct (iter_upto step _ a'); [apply IH|done].
  - rewrite Pos2Nat.inj_xO. simpl. rewrite Nat.add_0_r, iter_upto_add, IH.
    destruct (iter_upto step _ a); [apply IH|done].
  - rewrite Pos2Nat.inj_1. simpl. by destruct (step a).
Qed.

(** A loop that has not stopped after [n] rounds passed through every round. *)
Lemma iter_upto_running {A B} (step : A → A + B) n a a' k :
  iter_upto step n a = inl a' → (k < n)%nat →
  ∃ x y, iter_upto step k a = inl x ∧ step x = inl y.
Proof.
  intros Hn Hk. replace n with (k + S (n - k - 1))%nat in Hn by lia.
  rewrite iter_upto_add in Hn. destruct (iter_upto step k a) as [x|] eqn:E; [|done].
  simpl in Hn. destruct (step x) as [y|] eqn:Es; [|done]. by exists x, y.
Qed.

(** A stopped loop stopped in one round. *)
Lemma iter_upto_stopped {A B} (step : A → A + B) n a b :
  iter_upto step n a = inr b →
  ∃ k x, (k < n)%nat ∧ iter_upto step k a = inl x ∧ step x = inr b.
Proof.
  revert a. induction n as [|n IH]; intros a Hn; simpl in Hn; [done|].
  destruct (step a) as [a'|b'] eqn:Es.
  - destruct (IH a' Hn) as (k & x & Hk & Hi & Hx). exists (S k), x. simpl. rewrite Es.
    split; [lia|done].
  - injection Hn as ->. exists 0%nat, a. split; [lia|done].
Qed.

(** ** Traversals *)

Lemma Forall2_elem_of_r {A B} (P : A → B → Prop) l k y :
  Forall2 P l k → y ∈ k → ∃ x, x ∈ l ∧ P x y.
Proof.
  intros HF [i Hi]%list_elem_of_lookup_1.
  destruct (Forall2_lookup_r _ _ _ _ _ HF Hi) as (x & Hx & HP).
  exists x. split; [by eapply list_elem_of_lookup_2|done].
Qed.

Lemma traverse_Ok_Forall2 {E A B} (f : A → result E B) l k :
  traverse f l = Ok k ↔ Forall2 (λ x y, f x = Ok y) l k.
Proof.
  revert k. induction l as [|x l IH]; intros k; simpl; split.
  - intros [= <-]. constructor.
  - by inversion_clear 1.
  - destruct (f x) as [y|] eqn:Ef; simpl; [|done].
    destruct (traverse f l) as [ys|]; simpl; [|done].
    intros [= <-]. constructor; [done|]. by apply IH.
  - inversion_clear 1 as [|? y ? ys Hy Hys]. rewrite Hy. simpl.
    by rewrite (proj2 (IH _) Hys).
Qed.

Lemma traverse_is_Ok {E A B} (f : A → result E B) l :
  (∀ x, x ∈ l → is_Ok (f x)) → is_Ok (traverse f l).
Proof.
  induction l as [|x l IH]; intros Hf; simpl; [by eexists|].
  destruct (Hf x) as [y ->]; [by left|]. simpl.
  destruct IH as [ys ->]; [set_solver|]. by eexists.
Qed.

(** [iter over a HashMap.map(|(k, v)| Ok((k, f(v)?))).collect::<Result<HashMap<_, _>>>()] *)
Definition map_traverse `{Countable K} {E A B} (f : A → result E B) (m : gmap K A)
    : result E (gmap K B) :=
  list_to_map <$> traverse (λ p, b ← f p.2; Ok (p.1, b)) (map_to_list m).

Lemma map_traverse_Ok `{Countable K} {E A B} (f : A → result E B) (m : gmap K A) m' :
  map_traverse f m = Ok m' →
  dom m' = dom m ∧ ∀ k a, m !! k = Some a → ∃ b, f a = Ok b ∧ m' !! k = Some b.
Proof.
  unfold map_traverse. intros Hm.
  destruct (traverse _ (map_to_list m)) as [l|] eqn:Ht; simpl in Hm; [|done].
  injection Hm as <-. apply traverse_Ok_Forall2 in Ht.
  assert (l.*1 = (map_to_list m).*1) as Hfst.
  { clear -Ht. induction Ht as [|[k a] [k' b] ?? Hh ? IH]; [done|]. simpl in Hh.
    destruct (f a); simpl in Hh; simplify_eq. rewrite !fmap_cons. by f_equal. }
  assert (NoDup l.*1) as Hnd by (rewrite Hfst; apply NoDup_fst_map_to_list).
  split.
  - apply set_eq. intros k. rewrite dom_list_to_map_L, elem_of_list_to_set, Hfst.
    by rewrite elem_of_dom, <-elem_of_keys.
  - intros k a Hk. apply elem_of_map_to_list in Hk.
    apply list_elem_of_lookup_1 in Hk as [i Hi].
    destruct (Forall2_lookup_l _ _ _ _ _ Ht Hi) as ([k' b] & Hl & Hb). simpl in Hb.
    destruct (f a) as [b'|] eqn:Ef; simpl in Hb; simplify_eq.
    exists b. split; [done|]. apply elem_of_list_to_map_1; [done|].
    by eapply list_elem_of_lookup_2.
Qed.

Lemma map_traverse_is_Ok `{Countable K} {E A B} (f : A → result E B) (m : gmap K A) :
  (∀ k a, m !! k = Some a → is_Ok (f a)) → is_Ok (map_traverse f m).
Proof.
  intros Hf. unfold map_traverse.
  destruct (traverse_is_Ok (λ p, b ← f p.2; Ok (p.1, b)) (map_to_list m)) as [l ->].
  - intros [k a] Hx. apply elem_of_map_to_list in Hx. simpl.
    destruct (Hf _ _ Hx) as [b ->]. by eexists.
  - by eexists.
Qed.

(** ** Sorted lists of integers *)

Lemma seqZ_sorted m n : StronglySorted Z.le (seqZ m n).
Proof.
  destruct (decide (n ≤ 0)) as [Hn|Hn]; [rewrite seqZ_nil by done; constructor|].
  remember (Z.to_nat n) as k eqn:Hk. revert m n Hn Hk.
  induction k as [|k IH]; intros m n Hn Hk; [lia|].
  rewrite seqZ_cons by lia. constructor.
  - destruct (decide (Z.pred n ≤ 0)); [rewrite seqZ_nil by done; constructor|].
    apply IH; lia.
  - apply list.Forall_forall. intros x Hx%elem_of_seqZ. lia.
Qed.

Lemma filter_sorted {A} (R : relation A) (P : A → Prop) `{!∀ x, Decision (P x)} l :
  StronglySorted R l → StronglySorted R (filter P l).
Proof.
  induction 1 as [|x l Hl IH Hx]; [constructor|].
  rewrite filter_cons. case_decide; [|done]. constructor; [done|].
  apply list.Forall_forall. intros y Hy%list_elem_of_filter.
  rewrite list.Forall_forall in Hx. by apply Hx, Hy.
Qed.

Lemma div_ge_iff a b c : 0 < b → c ≤ a / b ↔ c * b ≤ a.
Proof.
  intros Hb. split; intros H.
  - pose proof (Z.mul_div_le a b Hb). nia.
  - apply Z.div_le_lower_bound; lia.
Qed.
