(* ===== verification/Bytes.v ===== *)
(** * Byte strings and fixed-width integers

    What the Rust standard library gives for byte slices and integer types:
    big- and little-endian conversions, [as] casts between integer types, slices,
    fixed-size arrays and UTF-8 validation.  A byte is a [Z] between 0 and 255,
    a byte string a list of them; a Rust [str] is the list of its bytes. *)

From Stdlib Require Import ZArith Lia.
From stdpp Require Import base gmap sets list sorting strings fin_maps numbers relations.
From S2P Require Import Prelude.

#[local] Open Scope Z_scope.

Definition is_byte (b : Byte8) : Prop := 0 ≤ b < 256.

(** [uN::to_be_bytes] and the like: [n] bytes, most significant first *)
Fixpoint to_be_bytes (n : nat) (x : Z) : list Byte8 :=
  match n with O => [] | S n => to_be_bytes n (x / 256) ++ [x mod 256] end.

(** [uN::from_be_bytes] of an array of any length *)
Definition from_be_bytes (l : list Byte8) : Z := foldl (λ acc b, acc * 256 + b) 0 l.

Definition to_le_bytes (n : nat) (x : Z) : list Byte8 := reverse (to_be_bytes n x).
Definition from_le_bytes (l : list Byte8) : Z := from_be_bytes (reverse l).

(** [&data[i..j]] for [i <= j <= data.len()] *)
Definition slice (l : list Byte8) (i j : Z) : list Byte8 :=
  take (Z.to_nat (j - i)) (drop (Z.to_nat i) l).

(** [data.len()] *)
Definition zlen {A} (l : list A) : Z := Z.of_nat (length l).

(** [<[u8; n]>::try_from(slice)]: the slice must have exactly [n] bytes *)
Definition try_into_array (n : nat) (l : list Byte8) : option (list Byte8) :=
  if bool_decide (length l = n) then Some l else None.

(** ** Integer types and casts *)

Record IntTy := mkIntTy { int_bits : Z; int_signed : bool }.

Definition in_range (t : IntTy) (x : Z) : Prop :=
  if int_signed t then - 2 ^ (int_bits t - 1) ≤ x < 2 ^ (int_bits t - 1)
  else 0 ≤ x < 2 ^ int_bits t.

(** [x as t]: reduction modulo the width, read in two's complement when signed *)
Definition cast (t : IntTy) (x : Z) : Z :=
  let m := x mod 2 ^ int_bits t in
  if int_signed t && (2 ^ (int_bits t - 1) <=? m) then m - 2 ^ int_bits t else m.

(** ** UTF-8 *)

Definition byte_in (lo hi b : Byte8) : bool := (lo <=? b) && (b <=? hi).
Definition utf8_cont (b : Byte8) : bool := byte_in 128 191 b.

(** [core::str::from_utf8(l).is_ok()]: the table of well-formed byte sequences
    of the Unicode standard *)
Fixpoint utf8_valid (l : list Byte8) : bool :=
  match l with
  | [] => true
  | b0 :: l1 =>
    if b0 <? 128 then utf8_valid l1
    else match l1 with
    | [] => false
    | b1 :: l2 =>
      if byte_in 194 223 b0 then utf8_cont b1 && utf8_valid l2
      else match l2 with
      | [] => false
      | b2 :: l3 =>
        if byte_in 224 239 b0 then
          (if b0 =? 224 then byte_in 160 191 b1
           else if b0 =? 237 then byte_in 128 159 b1 else utf8_cont b1)
          && utf8_cont b2 && utf8_valid l3
        else match l3 with
        | [] => false
        | b3 :: l4 =>
          byte_in 240 244 b0
          && (if b0 =? 240 then byte_in 144 191 b1
              else if b0 =? 244 then byte_in 128 143 b1 else utf8_cont b1)
          && utf8_cont b2 && utf8_cont b3 && utf8_valid l4
        end
      end
    end
  end.

(** [core::str::from_utf8] *)
Definition from_utf8 (l : list Byte8) : option (list Byte8) :=
  if utf8_valid l then Some l else None.

(** The bytes of a string literal *)
Definition str_bytes (s : string) : list Byte8 :=
  (λ a, Z.of_N (Ascii.N_of_ascii a)) <$> String.list_ascii_of_string s.

(** ** Lemmas *)

Lemma zlen_nonneg {A} (l : list A) : 0 ≤ zlen l.
Proof. unfold zlen. lia. Qed.

Lemma zlen_app {A} (l k : list A) : zlen (l ++ k) = zlen l + zlen k.
Proof. unfold zlen. rewrite length_app. lia. Qed.

Lemma length_to_be_bytes n x : length (to_be_bytes n x) = n.
Proof. revert x. induction n as [|n IH]; intros x; simpl; [done|]. rewrite length_app, IH. simpl. lia. Qed.

Lemma length_to_le_bytes n x : length (to_le_bytes n x) = n.
Proof. unfold to_le_bytes. by rewrite length_reverse, length_to_be_bytes. Qed.

Lemma to_be_bytes_byte n x : Forall is_byte (to_be_bytes n x).
Proof.
  revert x. induction n as [|n IH]; intros x; simpl; [constructor|].
  apply Forall_app; split; [apply IH|]. constructor; [|constructor]. unfold is_byte. div_lia.
Qed.

Lemma to_be_bytes_inj n x y :
  0 ≤ x < 256 ^ Z.of_nat n → 0 ≤ y < 256 ^ Z.of_nat n → to_be_bytes n x = to_be_bytes n y → x = y.
Proof.
  revert x y. induction n as [|n IH]; intros x y Hx Hy H; simpl in *; [lia|].
  apply app_inj_2 in H as [H Hm]; [|done]. injection Hm as Hm.
  rewrite Nat2Z.inj_succ, Z.pow_succ_r in Hx, Hy by lia.
  apply IH in H; [|split; [apply Z.div_pos|apply Z.div_lt_upper_bound]; lia..].
  rewrite (Z.div_mod x 256), (Z.div_mod y 256) by lia. by rewrite H, Hm.
Qed.

Lemma from_be_bytes_snoc l b : from_be_bytes (l ++ [b]) = from_be_bytes l * 256 + b.
Proof. unfold from_be_bytes. by rewrite foldl_app. Qed.

Lemma from_to_be_bytes n x : from_be_bytes (to_be_bytes n x) = x mod 256 ^ Z.of_nat n.
Proof.
  revert x. induction n as [|n IH]; intros x; cbn [to_be_bytes].
  - by rewrite Z.mod_1_r.
  - rewrite from_be_bytes_snoc, IH, Nat2Z.inj_succ, Z.pow_succ_r by lia.
    rewrite (Z.rem_mul_r x 256) by lia. lia.
Qed.

Lemma from_to_be_bytes_small n x :
  0 ≤ x < 256 ^ Z.of_nat n → from_be_bytes (to_be_bytes n x) = x.
Proof. intros. rewrite from_to_be_bytes. by apply Z.mod_small. Qed.

Lemma to_from_be_bytes l :
  Forall is_byte l → to_be_bytes (length l) (from_be_bytes l) = l.
Proof.
  induction l as [|b l IH] using rev_ind; intros H; [done|].
  apply Forall_app in H as [Hl Hb]. inversion_clear Hb as [|? ? Hb' _].
  rewrite length_app, Nat.add_comm, from_be_bytes_snoc. cbn [length Nat.add to_be_bytes].
  unfold is_byte in Hb'. rewrite Z.div_add_l, (Z.div_small b), Z.add_0_r by lia.
  rewrite IH by done. f_equal. f_equal. rewrite Z.add_comm, Z.mod_add by lia. by apply Z.mod_small.
Qed.

Lemma from_be_bytes_bound l :
  Forall is_byte l → 0 ≤ from_be_bytes l < 256 ^ zlen l.
Proof.
  unfold zlen. induction l as [|b l IH] using rev_ind; intros H; [done|].
  apply Forall_app in H as [Hl Hb]. inversion_clear Hb as [|? ? Hb' _]. unfold is_byte in Hb'.
  rewrite length_app, from_be_bytes_snoc, Nat2Z.inj_add. simpl (Z.of_nat (length [b])).
  rewrite Z.pow_add_r by lia. specialize (IH Hl). lia.
Qed.

Lemma from_to_le_bytes n x : from_le_bytes (to_le_bytes n x) = x mod 256 ^ Z.of_nat n.
Proof. unfold from_le_bytes, to_le_bytes. by rewrite reverse_involutive, from_to_be_bytes. Qed.

Lemma to_from_le_bytes l : Forall is_byte l → to_le_bytes (length l) (from_le_bytes l) = l.
Proof.
  intros H. unfold from_le_bytes, to_le_bytes. rewrite <-(length_reverse l) at 1.
  rewrite to_from_be_bytes by by apply Forall_reverse. by rewrite reverse_involutive.
Qed.

Lemma try_into_array_some n l k : try_into_array n l = Some k ↔ length l = n ∧ k = l.
Proof. unfold try_into_array. case_bool_decide; naive_solver. Qed.

Lemma slice_app_l l k j : zlen l = j → slice (l ++ k) 0 j = l.
Proof.
  unfold slice, zlen. intros <-. rewrite Z.sub_0_r, Nat2Z.id. by rewrite drop_0, take_app_length.
Qed.

(** A slice that starts after [l]. *)
Lemma slice_app_r l k i j :
  zlen l = i → slice (l ++ k) i j = slice k 0 (j - i).
Proof.
  unfold slice, zlen. intros <-. by rewrite Nat2Z.id, Z.sub_0_r, drop_app_length, drop_0.
Qed.

Lemma slice_shift l k i j :
  zlen l ≤ i → slice (l ++ k) i j = slice k (i - zlen l) (j - zlen l).
Proof.
  unfold slice, zlen. intros H. f_equal; [f_equal; lia|].
  rewrite drop_app_ge by lia. f_equal. lia.
Qed.

Lemma slice_cat l i j k : 0 ≤ i ≤ j → j ≤ k → slice l i j ++ slice l j k = slice l i k.
Proof.
  intros Hi Hk. unfold slice. replace (Z.to_nat j) with (Z.to_nat i + Z.to_nat (j - i))%nat by lia.
  rewrite <-drop_drop, take_take_drop. f_equal. lia.
Qed.

Lemma slice_all l j : j = zlen l → slice l 0 j = l.
Proof. intros ->. unfold slice, zlen. rewrite Z.sub_0_r, Nat2Z.id, drop_0. by apply take_ge. Qed.

(** The slice that a prefix of known length leaves. *)
Lemma slice_mid l k r i j :
  zlen l = i → zlen l + zlen k = j → slice (l ++ k ++ r) i j = k.
Proof. intros Hi Hj. rewrite slice_app_r by done. apply slice_app_l. lia. Qed.

Lemma length_slice l i j : 0 ≤ i ≤ j → j ≤ zlen l → zlen (slice l i j) = j - i.
Proof. unfold slice, zlen. intros. rewrite length_take, length_drop. lia. Qed.

Lemma slice_byte l i j : Forall is_byte l → Forall is_byte (slice l i j).
Proof. intros H. by apply Forall_take, Forall_drop. Qed.

(** ** Casts *)

Lemma cast_in_range t x : 0 < int_bits t → in_range t x → cast t x = x.
Proof.
  intros Hb. unfold cast, in_range. destruct t as [w s]; simpl in *.
  assert (2 ^ w = 2 * 2 ^ (w - 1)) as Hw
    by (rewrite <-Z.pow_succ_r by lia; f_equal; lia).
  pose proof (Z.pow_pos_nonneg 2 (w - 1) ltac:(lia) ltac:(lia)).
  destruct s; simpl; [|intros; by apply Z.mod_small].
  intros Hx. destruct (decide (0 ≤ x)).
  - rewrite Z.mod_small by lia. destruct (Z.leb_spec (2 ^ (w - 1)) x); lia.
  - assert (x mod 2 ^ w = x + 2 ^ w) as ->.
    { rewrite <-(Z.mod_add x 1) by lia. rewrite Z.mul_1_l. apply Z.mod_small. lia. }
    destruct (Z.leb_spec (2 ^ (w - 1)) (x + 2 ^ w)); lia.
Qed.

Lemma cast_mod t x m : 0 ≤ int_bits t ≤ m → cast t (x mod 2 ^ m) = cast t x.
Proof.
  intros H. unfold cast.
  assert (x mod 2 ^ m mod 2 ^ int_bits t = x mod 2 ^ int_bits t) as ->; [|done].
  apply Z.mod_mod_divide.
  exists (2 ^ (m - int_bits t)). rewrite <-Z.pow_add_r by lia. f_equal. lia.
Qed.

(** ** Bit operations as arithmetic *)

Lemma lor_add k hi lo : 0 ≤ k → 0 ≤ lo < 2 ^ k → Z.lor (Z.shiftl hi k) lo = hi * 2 ^ k + lo.
Proof.
  intros Hk Hlo. rewrite <-Z.shiftl_mul_pow2 by done.
  assert (Z.land (Z.shiftl hi k) lo = 0) as H0; [|pose proof (Z.add_lor_land (Z.shiftl hi k) lo); lia].
  apply Z.bits_inj'. intros n Hn. rewrite Z.land_spec, Z.bits_0.
  destruct (decide (n < k)); [by rewrite Z.shiftl_spec_low|].
  rewrite <-(Z.mod_small lo (2 ^ k)) by done. rewrite Z.mod_pow2_bits_high by lia. apply andb_false_r.
Qed.

Lemma land_ones_mod a k : 0 ≤ k → Z.land a (2 ^ k - 1) = a mod 2 ^ k.
Proof. intros. rewrite <-Z.land_ones by done. f_equal. rewrite Z.ones_equiv. lia. Qed.

(** A property of bytes that is checked for each of them. *)
Lemma byte_check (P : Z → bool) b : forallb P (seqZ 0 256) = true → is_byte b → P b = true.
Proof.
  intros HP Hb. rewrite forallb_forall in HP. apply HP.
  apply list_elem_of_In, elem_of_seqZ. unfold is_byte in Hb. lia.
Qed.

(** Visible ASCII is UTF-8. *)
Lemma ascii_utf8 l : Forall (λ b, 0 ≤ b < 128) l → utf8_valid l = true.
Proof.
  induction 1 as [|b l Hb _ IH]; simpl; [done|]. by destruct (Z.ltb_spec b 128); [|lia].
Qed.

#[export] Hint Resolve to_be_bytes_byte zlen_nonneg slice_byte : blueprint.
