(* ===== verification/Text.v ===== *)
(** * Text

    The string operations of the Rust standard library that the components use,
    and the unambiguity of texts whose parts are separated by colons. *)

From Stdlib Require Import ZArith Lia Ascii.
From stdpp Require Import base gmap sets list sorting strings pretty fin_maps numbers relations.
From S2P Require Import Prelude.

#[local] Open Scope Z_scope.

(** ** Operations *)

(** [str::trim_end_matches] of one character *)
Fixpoint trim_end_matches (c : ascii) (s : string) : string :=
  match s with
  | EmptyString => EmptyString
  | String a s =>
      match trim_end_matches c s with
      | EmptyString => if bool_decide (a = c) then EmptyString else String a EmptyString
      | t => String a t
      end
  end.

(** [str::contains] *)
Fixpoint contains (needle hay : string) : bool :=
  String.prefix needle hay ||
  match hay with EmptyString => false | String _ hay => contains needle hay end.

(** [str::to_ascii_lowercase] *)
Definition ascii_lower (a : ascii) : ascii :=
  let n := N_of_ascii a in
  if ((65 <=? n) && (n <=? 90))%N then ascii_of_N (n + 32) else a.
Fixpoint to_ascii_lowercase (s : string) : string :=
  match s with
  | EmptyString => EmptyString
  | String a s => String (ascii_lower a) (to_ascii_lowercase s)
  end.

(** [str::to_ascii_uppercase] *)
Definition ascii_upper (a : ascii) : ascii :=
  let n := N_of_ascii a in if ((97 <=? n) && (n <=? 122))%N then ascii_of_N (n - 32) else a.
Fixpoint to_ascii_uppercase (s : string) : string :=
  match s with EmptyString => EmptyString | String a s => String (ascii_upper a) (to_ascii_uppercase s) end.

(** The characters [str::trim] removes, among ASCII ones *)
Definition is_whitespace (a : ascii) : bool :=
  let n := N_of_ascii a in ((n =? 32) || ((9 <=? n) && (n <=? 13)))%N.

(** [str::trim] *)
Fixpoint trim_start (s : string) : string :=
  match s with
  | EmptyString => EmptyString
  | String a s' => if is_whitespace a then trim_start s' else s
  end.
Fixpoint trim_end (s : string) : string :=
  match s with
  | EmptyString => EmptyString
  | String a s =>
      match trim_end s with
      | EmptyString => if is_whitespace a then EmptyString else String a EmptyString
      | t => String a t
      end
  end.
Definition trim (s : string) : string := trim_end (trim_start s).

(** [str::strip_prefix] *)
Fixpoint strip_prefix (p s : string) : option string :=
  match p, s with
  | EmptyString, _ => Some s
  | String a p, String b s => if bool_decide (a = b) then strip_prefix p s else None
  | _, EmptyString => None
  end.

(** [str::trim_start_matches] of one character; of a pattern, at most [fuel] times *)
Fixpoint trim_start_char (c : ascii) (s : string) : string :=
  match s with
  | EmptyString => EmptyString
  | String a s' => if bool_decide (a = c) then trim_start_char c s' else s
  end.
Fixpoint trim_start_upto (fuel : nat) (p s : string) : string :=
  match fuel, strip_prefix p s with S fuel, Some rest => trim_start_upto fuel p rest | _, _ => s end.
Definition trim_start_matches (p s : string) : string := trim_start_upto (String.length s) p s.

(** [str::ends_with] *)
Definition ends_with (p s : string) : bool :=
  let n := (String.length s - String.length p)%nat in
  (String.length p <=? String.length s)%nat && bool_decide (String.substring n (String.length p) s = p).

(** The characters of a string *)
Fixpoint chars (s : string) : list ascii :=
  match s with EmptyString => [] | String a s => a :: chars s end.

(** [char::is_ascii_digit], [char::is_ascii_hexdigit], [char::is_control] *)
Definition is_digit (a : ascii) : bool := let n := N_of_ascii a in ((48 <=? n) && (n <=? 57))%N.
Definition is_hexdigit (a : ascii) : bool :=
  let n := N_of_ascii a in
  (((48 <=? n) && (n <=? 57)) || ((97 <=? n) && (n <=? 102)) || ((65 <=? n) && (n <=? 70)))%N.
Definition is_control (a : ascii) : bool := let n := N_of_ascii a in ((n <? 32) || (n =? 127))%N.

Definition digit_value (a : ascii) : Z := Z.of_N (N_of_ascii a) - 48.

(** The digits of a number that is not above [max], most significant first *)
Fixpoint parse_digits (max acc : Z) (s : string) : option Z :=
  match s with
  | EmptyString => Some acc
  | String a s =>
      if is_digit a then
        let acc := acc * 10 + digit_value a in
        if max <? acc then None else parse_digits max acc s
      else None
  end.

(** [str::parse::<u64>]: digits, after an optional plus sign *)
Definition parse_u64 (s : string) : option Z :=
  match s with
  | EmptyString => None
  | String a s' =>
      if bool_decide (a = "+"%char) then
        match s' with EmptyString => None | _ => parse_digits u64_max 0 s' end
      else parse_digits u64_max 0 s
  end.

(** [str::parse::<u32>] *)
Definition parse_u32 (s : string) : option Z := x ← parse_u64 s; if x <=? u32_max then Some x else None.

(** [str::split] at a character *)
Fixpoint split_char (c : ascii) (s : string) : list string :=
  match s with
  | EmptyString => [EmptyString]
  | String a s =>
      if bool_decide (a = c) then EmptyString :: split_char c s
      else match split_char c s with [] => [String a EmptyString] | p :: ps => String a p :: ps end
  end.

(** [str::rsplit_once] at a character: at its last occurrence *)
Fixpoint rsplit_once (c : ascii) (s : string) : option (string * string) :=
  match s with
  | EmptyString => None
  | String a s =>
      match rsplit_once c s with
      | Some (x, y) => Some (String a x, y)
      | None => if bool_decide (a = c) then Some (EmptyString, s) else None
      end
  end.

(** [Path::file_stem] and [Path::extension] of a file name with an extension *)
Definition split_extension (name : string) : option (string * string) :=
  match name with
  | EmptyString => None
  | String a s => match rsplit_once "." s with Some (x, y) => Some (String a x, y) | None => None end
  end.

Lemma append_assoc s t u : (s +:+ t) +:+ u = s +:+ (t +:+ u).
Proof. induction s as [|a s IH]; [done|]. exact (f_equal (String a) IH). Qed.
Lemma chars_app s t : chars (s +:+ t) = chars s ++ chars t.
Proof. induction s as [|a s IH]; [done|]. change (String a s +:+ t) with (String a (s +:+ t)). cbn [chars app]. by f_equal. Qed.

Definition lacks (c : ascii) (s : string) : Prop := Forall (λ a, a ≠ c) (chars s).

Lemma strip_prefix_some p s r : strip_prefix p s = Some r ↔ s = p +:+ r.
Proof.
  revert s. induction p as [|a p IH]; intros s; cbn.
  - split; [by intros [= ->]|by intros ->].
  - destruct s as [|b s]; cbn; [done|]. case_bool_decide as Hab; [subst|].
    + rewrite IH. split; [by intros ->|by intros [= ->]].
    + split; [done|]. by intros [= -> _].
Qed.

Lemma rsplit_once_lacks c s : lacks c s → rsplit_once c s = None.
Proof.
  unfold lacks. induction s as [|a s IH]; simpl; [done|]. intros H. inversion H as [|? ? Ha Hs]; subst.
  rewrite IH by done. by rewrite bool_decide_eq_false_2.
Qed.

Lemma rsplit_once_app c s s' : lacks c s' → rsplit_once c (s +:+ String c s') = Some (s, s').
Proof.
  intros H. induction s as [|a s IH].
  - change (rsplit_once c (String c s') = Some (EmptyString, s')). simpl.
    rewrite rsplit_once_lacks by done. by rewrite bool_decide_eq_true_2.
  - change (rsplit_once c (String a (s +:+ String c s')) = Some (String a s, s')). simpl. by rewrite IH.
Qed.

Lemma split_char_lacks c s : lacks c s → split_char c s = [s].
Proof.
  unfold lacks. induction s as [|a s IH]; cbn; [done|]. intros [Ha Hs]%Forall_cons.
  by rewrite bool_decide_false, (IH Hs).
Qed.

Lemma split_char_app c s s' : lacks c s → split_char c (s +:+ String c s') = s :: split_char c s'.
Proof.
  unfold lacks. induction s as [|a s IH]; intros Hl.
  - change ("" +:+ String c s') with (String c s'). cbn. by rewrite bool_decide_true.
  - apply Forall_cons in Hl as [Ha Hs]. change (String a s +:+ String c s') with (String a (s +:+ String c s')).
    cbn. by rewrite bool_decide_false, (IH Hs).
Qed.

(** *** Decimal numbers *)

Lemma pretty_N_go_lacks c x s : is_digit c = false → lacks c s → lacks c (pretty_N_go x s).
Proof.
  intros Hc. revert s. induction (N.lt_wf_0 x) as [x _ IH]; intros s Hs.
  assert (x = 0 ∨ 0 < x)%N as [->|Hx] by lia; [by rewrite pretty_N_go_0|].
  rewrite pretty_N_go_step by done. apply IH; [by apply N.div_lt|].
  apply Forall_cons. split; [|done]. intros <-. revert Hc. unfold pretty_N_char.
  by repeat case_match.
Qed.

Lemma pretty_lacks c x : 0 ≤ x → is_digit c = false → lacks c (pretty x).
Proof.
  intros Hx Hc. destruct x as [|p|p]; [|unfold pretty, pretty_Z, pretty, pretty_positive, pretty, pretty_N|lia].
  - apply Forall_singleton. by intros <-.
  - rewrite decide_False by lia. apply pretty_N_go_lacks; [done|constructor].
Qed.

Lemma pretty_digits x : 0 ≤ x → Forall (λ a, is_digit a = true) (chars (pretty x)).
Proof.
  intros Hx. apply list.Forall_forall. intros a Ha. destruct (is_digit a) eqn:Hd; [done|].
  pose proof (pretty_lacks a x Hx Hd) as Hl. unfold lacks in Hl. rewrite list.Forall_forall in Hl. by destruct (Hl a Ha).
Qed.

Lemma parse_pretty_go max x s :
  Z.of_N x ≤ max → parse_digits max 0 (pretty_N_go x s) = parse_digits max (Z.of_N x) s.
Proof.
  revert s. induction (N.lt_wf_0 x) as [x _ IH]; intros s Hs.
  assert (x = 0 ∨ 0 < x)%N as [->|Hx] by lia; [by rewrite pretty_N_go_0|].
  rewrite pretty_N_go_step by done.
  pose proof (N.div_mod x 10 ltac:(lia)) as Hdm. pose proof (N.mod_lt x 10 ltac:(lia)) as Hm.
  assert (x / 10 < x)%N as Hlt by (apply N.div_lt; lia).
  rewrite IH by lia. cbn [parse_digits].
  assert (is_digit (pretty_N_char (x mod 10)) = true ∧ digit_value (pretty_N_char (x mod 10)) = Z.of_N (x mod 10))
    as [-> ->].
  { revert Hm. generalize (x mod 10)%N as d. intros d Hd.
    destruct (decide (d = 0 ∨ d = 1 ∨ d = 2 ∨ d = 3 ∨ d = 4)%N); [naive_solver|].
    assert (d = 5 ∨ d = 6 ∨ d = 7 ∨ d = 8 ∨ d = 9)%N by lia. naive_solver. }
  replace (Z.of_N (x / 10) * 10 + Z.of_N (x mod 10)) with (Z.of_N x) by lia.
  by rewrite (proj2 (Z.ltb_ge _ _) Hs).
Qed.

(** Reading back a printed number *)
Lemma parse_digits_pretty max x : 0 ≤ x ≤ max → parse_digits max 0 (pretty x) = Some x.
Proof.
  intros Hx. destruct x as [|p|p]; [|unfold pretty, pretty_Z, pretty, pretty_positive, pretty, pretty_N|lia].
  - change (parse_digits max 0 "0" = Some 0). cbn [parse_digits]. change (is_digit "0"%char) with true. change (0 * 10 + digit_value "0"%char) with 0. destruct (Z.ltb_spec max 0); [lia|done].
  - rewrite decide_False by lia. by rewrite parse_pretty_go by lia.
Qed.

Lemma parse_digits_range max acc s x : 0 ≤ acc ≤ max → parse_digits max acc s = Some x → 0 ≤ x ≤ max.
Proof.
  revert acc. induction s as [|a s IH]; intros acc Ha; cbn [parse_digits]; [by intros [= <-]|].
  destruct (is_digit a) eqn:Hd; [|done]. destruct (Z.ltb_spec max (acc * 10 + digit_value a)) as [|Hm]; [done|]. apply IH.
  split; [|done]. unfold digit_value, is_digit in *. apply andb_prop in Hd as [Hd%N.leb_le _]. lia.
Qed.

Lemma parse_u64_pretty x : is_u64 x → parse_u64 (pretty x) = Some x.
Proof.
  intros Hx. pose proof (parse_digits_pretty u64_max x ltac:(unfold is_u64, u64_max in *; lia)) as Hp.
  pose proof (pretty_lacks "+"%char x ltac:(unfold is_u64 in Hx; lia) eq_refl) as Hplus.
  unfold parse_u64. destruct (pretty x) as [|a s] eqn:Hs.
  - destruct x; done.
  - apply Forall_cons in Hplus as [Hplus _]. by rewrite bool_decide_false.
Qed.

(** ** Colons *)

Fixpoint no_colon (s : string) : Prop :=
  match s with
  | EmptyString => True
  | String c s => c ≠ ":"%char ∧ no_colon s
  end.

Lemma pretty_N_go_no_colon x s : no_colon s → no_colon (pretty_N_go x s).
Proof.
  revert s. induction (N.lt_wf_0 x) as [x _ IH]; intros s Hs.
  assert (x = 0 ∨ 0 < x)%N as [->|Hx] by lia; [by rewrite pretty_N_go_0|].
  rewrite pretty_N_go_step by done. apply IH; [by apply N.div_lt|].
  split; [|done]. unfold pretty_N_char. by repeat case_match.
Qed.

Lemma pretty_Z_no_colon (x : Z) : no_colon (pretty x).
Proof.
  destruct x as [|p|p]; unfold pretty, pretty_Z; [by split|..].
  - unfold pretty, pretty_positive, pretty, pretty_N. case_decide; [by split|].
    by apply pretty_N_go_no_colon.
  - split; [done|]. unfold pretty, pretty_positive, pretty, pretty_N. case_decide; [by split|].
    by apply pretty_N_go_no_colon.
Qed.

Lemma colon_split a a' b b' :
  no_colon a → no_colon a' → a +:+ ":" +:+ b = a' +:+ ":" +:+ b' → a = a' ∧ b = b'.
Proof.
  revert a'. induction a as [|c a IH]; intros [|c' a'] Ha Ha' Heq; simpl in *.
  - by simplify_eq.
  - destruct Ha' as [Hc _]. simplify_eq.
  - destruct Ha as [Hc _]. simplify_eq.
  - injection Heq as -> Heq. destruct Ha as [_ Ha], Ha' as [_ Ha'].
    destruct (IH a' Ha Ha' Heq) as [-> ->]. done.
Qed.

Lemma no_colon_app a b : no_colon (a +:+ ":" +:+ b) → False.
Proof. induction a as [|c a IH]; cbn; [by intros [? _]|]. intros [_ Ha]. by apply IH. Qed.

(** Splitting at the last colon *)
Lemma colon_split_last a a' b b' :
  no_colon b → no_colon b' → a +:+ ":" +:+ b = a' +:+ ":" +:+ b' → a = a' ∧ b = b'.
Proof.
  intros Hb Hb'. revert a'. induction a as [|c a IH]; intros [|c' a'] Heq; simpl in Heq.
  - by simplify_eq.
  - exfalso. injection Heq as _ Heq. change (b = a' +:+ ":" +:+ b') in Heq. rewrite Heq in Hb.
    by eapply no_colon_app.
  - exfalso. injection Heq as _ Heq. change (a +:+ ":" +:+ b = b') in Heq. rewrite <-Heq in Hb'.
    by eapply no_colon_app.
  - injection Heq as -> Heq. by destruct (IH a' Heq) as [-> ->].
Qed.
