(* ===== verification/Float.v ===== *)
(** * Floating point

    Numbers of IEEE 754 at their width and the operations of the Rust standard library
    on them that the components use. *)

From Stdlib Require Import ZArith Lia SpecFloat.
From stdpp Require Import base strings pretty numbers.
From S2P Require Import Prelude.

#[local] Open Scope Z_scope.

Abbreviation f64 := spec_float (only parsing).
Abbreviation f32 := spec_float (only parsing).

Definition f64_mul : f64 → f64 → f64 := SFmul 53 1024.
Definition f64_add : f64 → f64 → f64 := SFadd 53 1024.
Definition f64_sub : f64 → f64 → f64 := SFsub 53 1024.
Definition f64_div : f64 → f64 → f64 := SFdiv 53 1024.
Definition f32_mul : f32 → f32 → f32 := SFmul 24 128.

(** [n as f64] for a natural number *)
Definition f64_of (n : Z) : f64 := binary_normalize 53 1024 n 0 false.
Definition f32_of (n : Z) : f32 := binary_normalize 24 128 n 0 false.

Definition f64_zero : f64 := S754_zero false.
Definition f64_one : f64 := f64_of 1.

Definition is_nan (x : f64) : bool := match x with S754_nan => true | _ => false end.
Definition is_infinite (x : f64) : bool := match x with S754_infinity _ => true | _ => false end.

(** [f64::clamp], [f64::max] with zero *)
Definition f64_clamp (x lo hi : f64) : f64 := if SFltb x lo then lo else if SFltb hi x then hi else x.
Definition f64_max0 (x : f64) : f64 := if is_nan x then f64_zero else if SFltb x f64_zero then f64_zero else x.

(** The integers below and above a finite number *)
Definition float_floor (s : bool) (m : positive) (e : Z) : Z :=
  let v := if s then Z.neg m else Z.pos m in if 0 <=? e then v * 2 ^ e else v / 2 ^ (- e).
Definition float_ceil (s : bool) (m : positive) (e : Z) : Z :=
  let v := if s then Z.neg m else Z.pos m in if 0 <=? e then v * 2 ^ e else - (- v / 2 ^ (- e)).

(** A cast to [u64] saturates, and takes not-a-number to zero. *)
Definition float_as_u64 (round : bool → positive → Z → Z) (x : f64) : Z :=
  match x with
  | S754_zero _ | S754_nan | S754_infinity true => 0
  | S754_infinity false => u64_max
  | S754_finite s m e => Z.max 0 (Z.min u64_max (round s m e))
  end.
Definition floor_as_u64 : f64 → Z := float_as_u64 float_floor.
Definition ceil_as_u64 : f64 → Z := float_as_u64 float_ceil.

(** A cast to [u32] *)
Definition float_as_u32 (x : spec_float) : Z := Z.min u32_max (float_as_u64 (λ s m e, if s then 0 else float_floor s m e) x).

(** The nearest integer to a quotient, halves to the even one *)
Definition div_half_even (n d : Z) : Z :=
  let q := n / d in
  match Z.compare (2 * (n mod d)) d with
  | Lt => q
  | Gt => q + 1
  | Eq => if Z.even q then q else q + 1
  end.
(** [format!("{:.2}")] of a positive finite number *)
Definition fixed2 (m : positive) (e : Z) : string :=
  let n := if 0 <=? e then Z.pos m * 2 ^ e * 100 else div_half_even (Z.pos m * 100) (2 ^ (- e)) in
  pretty (n / 100) +:+ "." +:+ pretty (n / 10 mod 10) +:+ pretty (n mod 10).
Example fixed2_half : fixed2 3 (-1) = "1.50"%string.
Proof. reflexivity. Qed.
Example fixed2_even : fixed2 5 (-3) = "0.62"%string.
Proof. reflexivity. Qed.
