(* ===== verification/Bn254.v ===== *)
(** * BLS signatures over BN254

    Models [src/crates/crypto/bn254/src/lib.rs] and [aggregation.rs]: the two
    hash-to-curve algorithms, signing, verification and aggregation.  The curve
    groups, the pairing and the field's square root are the [ark-bn254] crate's,
    the digests are [sha2] and [sha3]: they are the operations of the class
    [Bn254], with their documented laws in [Bn254Laws] and [PairingLaws].  The
    base field is the integers modulo [P_MOD]. *)

From S2P Require Import Prelude.
From Stdlib Require Import ZArith Lia Zpow_facts.
From stdpp Require Import base list strings numbers.

#[local] Open Scope Z_scope.

(** ** The curve library *)

Class Bn254 := {
  Sig : Type;   (** [G1Affine] *)
  Pk : Type;    (** [G2Affine] *)
  Gt : Type;
  #[export] gt_eq_dec :: EqDecision Gt;
  g1_zero : Sig;
  g1_add : Sig → Sig → Sig;
  g1_mul : Z → Sig → Sig;
  g1_new : Z → Z → Sig;    (** [G1Projective::new(x, y, 1).into_affine()] *)
  g1_is_zero : Sig → bool;
  g1_on_curve : Sig → bool;
  g1_in_subgroup : Sig → bool;
  g2_zero : Pk;
  g2_add : Pk → Pk → Pk;
  g2_mul : Z → Pk → Pk;
  g2_generator : Pk;
  g2_is_zero : Pk → bool;
  g2_on_curve : Pk → bool;
  g2_in_subgroup : Pk → bool;
  pairing : Sig → Pk → Gt;
  fq_sqrt : Z → option Z;
  sha256 : list Byte8 → list Byte8;
  keccak256 : list Byte8 → list Byte8;
  g1_serialize : Sig → option (list Byte8);
  g1_deserialize : list Byte8 → option Sig;
  g2_serialize : Pk → option (list Byte8);
  g2_deserialize : list Byte8 → option Pk;
}.

(** Documented behaviour of [CanonicalSerialize]/[CanonicalDeserialize]:
    a point can be written to a vector, and reading it back gives the point. *)
Class Bn254Laws (B : Bn254) : Prop := {
  g1_round_trip (s : Sig) : ∃ bs, g1_serialize s = Some bs ∧ g1_deserialize bs = Some s;
  g2_round_trip (p : Pk) : ∃ bs, g2_serialize p = Some bs ∧ g2_deserialize bs = Some p;
}.

(** ** The base field *)

(** The modulus of [ark_bn254::Fq]. *)
Definition P_MOD : positive :=
  21888242871839275222246405745257275088696311157297823662689037894645226208583.

Definition fq (x : Z) : Z := x mod Zpos P_MOD.

(** [x^3 + 3], in the order the code multiplies *)
Definition curve_rhs (x : Z) : Z := fq (fq (fq (x * x) * x) + 3).

(** The limbs of [SQRT_EXPONENT], least significant first. *)
Definition SQRT_EXPONENT : list Z :=
  [0x4f082305b61f3f52; 0x65e05aa45a1c72a3; 0x6e14116da0605617; 0x0c19139cb84c680a].

(** A number from its 64-bit limbs *)
Definition from_limbs (l : list Z) : Z := foldr (λ limb acc, limb + 2 ^ 64 * acc) 0 l.

(** [Field::pow] *)
Definition fq_pow (x : Z) (limbs : list Z) : Z := Zpow_mod x (from_limbs limbs) (Zpos P_MOD).

(** [BigUint::from_bytes_be] *)
Definition be_value (bs : list Byte8) : Z := foldl (λ acc b, acc * 256 + b) 0 bs.

(** [Fq::from_le_bytes_mod_order] *)
Definition le_value (bs : list Byte8) : Z := foldr (λ b acc, b + 256 * acc) 0 bs.

(** The bytes of [BigUint::to_bytes_be], from the digest the number was read
    from: without its leading zeros. *)
Fixpoint strip_zeros (bs : list Byte8) : list Byte8 :=
  match bs with
  | [] => [0]
  | b :: bs => if b =? 0 then strip_zeros bs else b :: bs
  end.

(** What the signing, verification and aggregation routines need of the curve. *)
Definition g1_valid `{Bn254} (s : Sig) : bool := g1_on_curve s && g1_in_subgroup s.

Definition g2_valid `{Bn254} (p : Pk) : bool := g2_on_curve p && g2_in_subgroup p.

(** Documented mathematics of the curve: both groups are closed, the pairing is
    bilinear on them, a point on the curve of G1 is in its subgroup (cofactor
    one), and the field finds the root of four. *)
Class PairingLaws (B : Bn254) := {
  gt_one : Gt;
  gt_mul : Gt → Gt → Gt;
  g1_zero_valid : g1_valid g1_zero = true;
  g1_add_valid a b : g1_valid a = true → g1_valid b = true → g1_valid (g1_add a b) = true;
  g1_mul_valid k a : g1_valid a = true → g1_valid (g1_mul k a) = true;
  g1_new_valid x y : 0 ≤ x < Zpos P_MOD → fq (y * y) = curve_rhs x → g1_valid (g1_new x y) = true;
  g2_zero_valid : g2_valid g2_zero = true;
  g2_add_valid a b : g2_valid a = true → g2_valid b = true → g2_valid (g2_add a b) = true;
  g2_mul_valid k a : g2_valid a = true → g2_valid (g2_mul k a) = true;
  g2_generator_valid : g2_valid g2_generator = true;
  pairing_zero_l q : g2_valid q = true → pairing g1_zero q = gt_one;
  pairing_zero_r p : g1_valid p = true → pairing p g2_zero = gt_one;
  pairing_add_l a b q :
    g1_valid a = true → g1_valid b = true → g2_valid q = true →
    pairing (g1_add a b) q = gt_mul (pairing a q) (pairing b q);
  pairing_add_r p a b :
    g1_valid p = true → g2_valid a = true → g2_valid b = true →
    pairing p (g2_add a b) = gt_mul (pairing p a) (pairing p b);
  pairing_mul k a q :
    g1_valid a = true → g2_valid q = true → pairing a (g2_mul k q) = pairing (g1_mul k a) q;
  fq_sqrt_sound a y : fq_sqrt a = Some y → fq (y * y) = a;
  fq_sqrt_four : is_Some (fq_sqrt 4);
  g2_deserialize_valid bs p : g2_deserialize bs = Some p → g2_valid p = true;
}.

(** ** Errors *)

Inductive Bn254Error :=
| InvalidSeed (msg : string)
| SignatureFailed (msg : string)
| SignatureNotInSubgroup
| InvalidInput (msg : string)
| HashToPointFailed
| DegeneratePoint.

Section bn254.
  Context {B : Bn254}.

(** ** Hash to curve *)

(** One round of the loop of [hash_to_curve]. *)
Definition hash_round (x : Z) : Z + Sig :=
  match fq_sqrt (curve_rhs x) with
  | Some y => inr (g1_new x y)
  | None => inl (fq (x + 1))
  end.

(** [hash_to_curve].  The loop has no bound of its own; [P_MOD] rounds visit
    every element of the field. *)
Definition hash_to_curve (digest : list Byte8) : option Sig :=
  let hashed_result := sha256 digest in
  let bytes := reverse (strip_zeros hashed_result) in
  let bytes := bytes ++ replicate (32 - length bytes) 0 in
  match iter_until hash_round P_MOD (fq (le_value bytes)) with
  | inr p => Some p
  | inl _ => None
  end.

(** One round of the loop of [hash_to_curve_tangle]. *)
Definition hash_round_tangle (x : Z) : Z + Sig :=
  let y_squared := curve_rhs x in
  let y := fq_pow y_squared SQRT_EXPONENT in
  if fq (y * y) =? y_squared then inr (g1_new x y) else inl (fq (x + 1)).

(** [hash_to_curve_tangle] *)
Definition hash_to_curve_tangle (message : list Byte8) : result Bn254Error Sig :=
  match iter_upto hash_round_tangle 256 (fq (be_value (keccak256 message))) with
  | inr p => Ok p
  | inl _ => Err HashToPointFailed
  end.

(** ** Keys, signatures *)

(** [ArkBlsBn254::public_from_secret] *)
Definition public_from_secret (sk : Z) : Pk := g2_mul sk g2_generator.

(** [sign_tangle] *)
Definition sign_tangle (sk : Z) (message : list Byte8) : result Bn254Error Sig :=
  point ← hash_to_curve_tangle message;
  let signature := g1_mul sk point in
  if g1_is_zero signature then Err DegeneratePoint
  else if negb (g1_on_curve signature) || negb (g1_in_subgroup signature)
  then Err SignatureNotInSubgroup
  else Ok signature.

(** [verify_tangle] *)
Definition bls_verify_tangle (public_key : Pk) (message : list Byte8) (signature : Sig) : bool :=
  if g1_is_zero signature || g2_is_zero public_key then false
  else if negb (g1_on_curve signature) || negb (g1_in_subgroup signature)
       || negb (g2_on_curve public_key) || negb (g2_in_subgroup public_key) then false
  else
    match hash_to_curve_tangle message with
    | Ok point => bool_decide (pairing point public_key = pairing signature g2_generator)
    | Err _ => false
    end.

(** [sign] *)
Definition sign (sk : Z) (message : list Byte8) : option (result Bn254Error Sig) :=
  q ← hash_to_curve message;
  let r := g1_mul sk q in
  Some (if negb (g1_on_curve r) || negb (g1_in_subgroup r)
        then Err SignatureNotInSubgroup else Ok r).

(** [verify] *)
Definition bls_verify (public_key : Pk) (message : list Byte8) (signature : Sig) : bool :=
  if negb (g1_in_subgroup signature) || negb (g1_on_curve signature) then false
  else
    match hash_to_curve message with
    | Some q => bool_decide (pairing q public_key = pairing signature g2_generator)
    | None => false
    end.

(** ** Aggregation *)

(** One round of the loop of [aggregate]. *)
Definition aggregate_round (acc : Sig * Pk) (x : Pk * Sig) : Sig * Pk :=
  (g1_add acc.1 x.2, g2_add acc.2 x.1).

(** [AggregatableSignature::aggregate] *)
Definition bls_aggregate (signatures : list Sig) (public_keys : list Pk)
    : result Bn254Error (Sig * Pk) :=
  if bool_decide (signatures = []) || bool_decide (public_keys = []) then
    Err (InvalidInput "No signatures or public keys provided")
  else if negb (bool_decide (length signatures = length public_keys)) then
    Err (InvalidInput "Mismatched number of signatures and public keys")
  else Ok (foldl aggregate_round (g1_zero, g2_zero) (zip public_keys signatures)).

(** [AggregatableSignature::verify_aggregate] *)
Definition verify_aggregate (message : list Byte8) (signature : Sig) (public_key : Pk)
    : result Bn254Error bool := Ok (bls_verify public_key message signature).

(** ** Bytes and field elements *)

Lemma foldl_be_value bs a : foldl (λ acc b, acc * 256 + b) a bs = a * 256 ^ Z.of_nat (length bs) + be_value bs.
Proof.
  unfold be_value. revert a. induction bs as [|b bs IH]; intros a; [simpl; lia|].
  cbn [foldl length]. rewrite IH, (IH (0 * 256 + b)), Nat2Z.inj_succ, Z.pow_succ_r by lia. lia.
Qed.

Lemma be_value_cons b bs : be_value (b :: bs) = b * 256 ^ Z.of_nat (length bs) + be_value bs.
Proof. unfold be_value at 1. simpl. by rewrite foldl_be_value. Qed.

Lemma le_value_app l k : le_value (l ++ k) = le_value l + 256 ^ Z.of_nat (length l) * le_value k.
Proof.
  unfold le_value. induction l as [|b l IH]; cbn [foldr length app]; [lia|].
  rewrite IH, Nat2Z.inj_succ, Z.pow_succ_r by lia. lia.
Qed.

Lemma le_value_zeros n : le_value (replicate n 0) = 0.
Proof. induction n as [|n IH]; cbn; [done|]. unfold le_value in IH. by rewrite IH. Qed.

Lemma le_value_reverse bs : le_value (reverse bs) = be_value bs.
Proof.
  induction bs as [|b bs IH]; [done|].
  rewrite reverse_cons, le_value_app, IH, length_reverse, be_value_cons. unfold le_value. cbn. lia.
Qed.

Lemma be_value_strip bs : be_value (strip_zeros bs) = be_value bs.
Proof.
  induction bs as [|b bs IH]; simpl; [done|]. destruct (b =? 0) eqn:E; to_prop; [|done].
  subst. rewrite IH, be_value_cons. lia.
Qed.

(** The detour through [BigUint] and a little-endian buffer gives the digest
    read as a big-endian number. *)
Lemma digest_value bs n : le_value (reverse (strip_zeros bs) ++ replicate n 0) = be_value bs.
Proof. rewrite le_value_app, le_value_zeros, le_value_reverse, be_value_strip. lia. Qed.

Lemma fq_range x : 0 ≤ fq x < Zpos P_MOD.
Proof. apply Z.mod_pos_bound. lia. Qed.

Lemma fq_add_l x y : fq (fq x + y) = fq (x + y).
Proof. unfold fq. by rewrite Z.add_mod_idemp_l. Qed.

(** ** The loops *)

(** After [k] rounds without success the candidate is [x0 + k]. *)
Lemma hash_running (round : Z → Z + Sig) k x0 x :
  (∀ x y, round x = inl y → y = fq (x + 1)) → fq x0 = x0 →
  iter_upto round k x0 = inl x → x = fq (x0 + Z.of_nat k).
Proof.
  intros Hr. revert x0. induction k as [|k IH]; intros x0 Hx0; simpl.
  { intros [= <-]. by rewrite Z.add_0_r. }
  destruct (round x0) as [y|] eqn:E; [|done]. apply Hr in E as ->. intros Hi.
  apply IH in Hi as ->; [|apply Z.mod_mod; lia]. rewrite fq_add_l. f_equal. lia.
Qed.

Lemma fq_fq x : fq (fq x) = fq x.
Proof. apply Z.mod_mod. lia. Qed.

Lemma hash_round_next x y : hash_round x = inl y → y = fq (x + 1).
Proof. unfold hash_round. destruct (fq_sqrt _); naive_solver. Qed.

Lemma hash_round_tangle_next x y : hash_round_tangle x = inl y → y = fq (x + 1).
Proof. unfold hash_round_tangle. destruct (_ =? _); naive_solver. Qed.

Section laws.
  Context {PL : PairingLaws B}.

Lemma hash_to_curve_total m : ∃ q, hash_to_curve m = Some q.
Proof.
  unfold hash_to_curve. cbv zeta. rewrite digest_value, iter_until_upto.
  set (x0 := fq (be_value (sha256 m))).
  destruct (iter_upto hash_round (Pos.to_nat P_MOD) x0) as [x|q] eqn:E; [|by eauto].
  exfalso. set (k := Z.to_nat (fq (1 - x0))).
  pose proof (fq_range (1 - x0)) as Hk.
  destruct (iter_upto_running _ _ _ _ k E) as (a & b & Ha & Hb).
  { unfold k. rewrite <-(Z2Nat.inj_pos P_MOD). apply Z2Nat.inj_lt; lia. }
  apply (hash_running hash_round) in Ha as ->; [|apply hash_round_next|apply fq_fq].
  unfold k in Hb. rewrite Z2Nat.id, Z.add_comm, fq_add_l in Hb by lia.
  replace (1 - x0 + x0) with 1 in Hb by lia. unfold hash_round in Hb.
  destruct fq_sqrt_four as [y Hy]. change (curve_rhs (fq 1)) with 4 in Hb. by rewrite Hy in Hb.
Qed.

Lemma upto_range (round : Z → Z + Sig) k x0 x :
  (∀ x y, round x = inl y → y = fq (x + 1)) → fq x0 = x0 →
  iter_upto round k x0 = inl x → 0 ≤ x < Zpos P_MOD.
Proof. intros Hr H0 Hi. apply hash_running in Hi as ->; [|done..]. apply fq_range. Qed.

Lemma loop_valid (round : Z → Z + Sig) n x0 p :
  (∀ x y, round x = inl y → y = fq (x + 1)) →
  (∀ x, 0 ≤ x < Zpos P_MOD → ∀ q, round x = inr q → g1_valid q = true) →
  fq x0 = x0 → iter_upto round n x0 = inr p → g1_valid p = true.
Proof.
  intros Hn Hv H0 Hi. apply iter_upto_stopped in Hi as (k & x & _ & Hx & Hr).
  apply upto_range in Hx; [|done..]. by eapply Hv.
Qed.

Lemma hash_round_valid x : 0 ≤ x < Zpos P_MOD → ∀ q, hash_round x = inr q → g1_valid q = true.
Proof.
  unfold hash_round. intros Hx q. destruct (fq_sqrt (curve_rhs x)) as [y|] eqn:Es; [|done].
  intros [= <-]. apply g1_new_valid; [done|]. by apply fq_sqrt_sound.
Qed.

Lemma hash_round_tangle_valid x :
  0 ≤ x < Zpos P_MOD → ∀ q, hash_round_tangle x = inr q → g1_valid q = true.
Proof.
  unfold hash_round_tangle. intros Hx q. destruct (_ =? _) eqn:Es; [|done]. to_prop.
  intros [= <-]. by apply g1_new_valid.
Qed.

Lemma hash_to_curve_valid m q : hash_to_curve m = Some q → g1_valid q = true.
Proof.
  unfold hash_to_curve. cbv zeta. rewrite iter_until_upto.
  match goal with |- context [iter_upto hash_round ?n ?x] =>
    pose proof (loop_valid hash_round n x) as Hl; destruct (iter_upto hash_round n x) as [?|p] end; [done|].
  intros [= <-]. apply Hl; [apply hash_round_next|apply hash_round_valid|apply fq_fq|done].
Qed.

Lemma hash_to_curve_tangle_valid m q : hash_to_curve_tangle m = Ok q → g1_valid q = true.
Proof.
  unfold hash_to_curve_tangle. generalize 256%nat. intros n.
  match goal with |- context [iter_upto hash_round_tangle n ?x] =>
    pose proof (loop_valid hash_round_tangle n x) as Hl;
    destruct (iter_upto hash_round_tangle n x) as [?|p] end; [done|].
  intros [= <-]. apply Hl; [apply hash_round_tangle_next|apply hash_round_tangle_valid|apply fq_fq|done].
Qed.

(** ** Verification *)

Lemma bls_verify_spec pk m s :
  bls_verify pk m s = true ↔
  g1_valid s = true ∧ ∃ q, hash_to_curve m = Some q ∧ pairing q pk = pairing s g2_generator.
Proof.
  unfold bls_verify, g1_valid. destruct (g1_in_subgroup s), (g1_on_curve s); simpl;
    try (split; [done|naive_solver]).
  destruct (hash_to_curve m) as [q|]; [rewrite bool_decide_eq_true|]; naive_solver.
Qed.

Lemma bls_verify_tangle_spec pk m s :
  bls_verify_tangle pk m s = true ↔
  g1_is_zero s = false ∧ g2_is_zero pk = false ∧ g1_valid s = true ∧ g2_valid pk = true ∧
  ∃ q, hash_to_curve_tangle m = Ok q ∧ pairing q pk = pairing s g2_generator.
Proof.
  unfold bls_verify_tangle, g1_valid, g2_valid.
  destruct (g1_is_zero s), (g2_is_zero pk); simpl; try (split; [done|naive_solver]).
  destruct (g1_on_curve s), (g1_in_subgroup s), (g2_on_curve pk), (g2_in_subgroup pk); simpl;
    try (split; [done|naive_solver]).
  destruct (hash_to_curve_tangle m) as [q|]; [rewrite bool_decide_eq_true|]; naive_solver.
Qed.

(** Points that verify for the hashed message [q]. *)
Definition signs_point (q : Sig) (pk : Pk) (s : Sig) : Prop :=
  g2_valid pk = true ∧ g1_valid s = true ∧ pairing q pk = pairing s g2_generator.

Lemma aggregate_fold q l acc :
  g1_valid q = true → signs_point q acc.2 acc.1 →
  Forall (λ x, signs_point q x.1 x.2) l →
  signs_point q (foldl aggregate_round acc l).2 (foldl aggregate_round acc l).1.
Proof.
  intros Hq Hacc Hl. revert acc Hacc. induction Hl as [|[pk s] l (Vp & Vs & He) Hl IH]; [done|].
  intros [s0 p0] (V0 & W0 & E0). simpl in *. apply IH. unfold aggregate_round. simpl.
  split_and!; [by apply g2_add_valid|by apply g1_add_valid|].
  rewrite pairing_add_r, pairing_add_l, E0, He by (done || apply g2_generator_valid). done.
Qed.

Lemma signs_point_zero q : g1_valid q = true → signs_point q g2_zero g1_zero.
Proof.
  intros Hq. split_and!; [apply g2_zero_valid|apply g1_zero_valid|].
  by rewrite pairing_zero_r, pairing_zero_l by (done || apply g2_generator_valid).
Qed.

Lemma bls_aggregate_Ok sigs pks :
  sigs ≠ [] → length sigs = length pks →
  bls_aggregate sigs pks = Ok (foldl aggregate_round (g1_zero, g2_zero) (zip pks sigs)).
Proof.
  intros Hne Hlen. unfold bls_aggregate.
  assert (pks ≠ []) as Hne' by (intros ->; by destruct sigs).
  rewrite (bool_decide_eq_false_2 (sigs = [])), (bool_decide_eq_false_2 (pks = [])) by done.
  simpl. by rewrite bool_decide_eq_true_2.
Qed.

Lemma aggregate_signs q sigs pks :
  g1_valid q = true → sigs ≠ [] → Forall2 (signs_point q) pks sigs →
  ∃ s pk, bls_aggregate sigs pks = Ok (s, pk) ∧ signs_point q pk s.
Proof.
  intros Hq Hne HF. pose proof (Forall2_length HF) as Hlen.
  rewrite bls_aggregate_Ok by done.
  pose proof (aggregate_fold q (zip pks sigs) (g1_zero, g2_zero) Hq (signs_point_zero q Hq)) as H.
  destruct (foldl _ _ _) as [s pk]. exists s, pk. split; [done|]. apply H.
  clear -HF. induction HF; simpl; by constructor.
Qed.

(** ** Correctness *)

(** The unbounded search of [hash_to_curve] always ends, on a point of the
    curve's group: some candidate in a full turn of the field is x = 1, where
    x^3 + 3 is the square of 2. *)
Theorem hash_to_curve_terminates m : ∃ q, hash_to_curve m = Some q ∧ g1_valid q = true.
Proof.
  destruct (hash_to_curve_total m) as [q Hq]. exists q. split; [done|].
  by eapply hash_to_curve_valid.
Qed.

(** Whatever a secret key signs, its public key verifies; signing never fails. *)
Theorem sign_verify sk m :
  ∃ s, sign sk m = Some (Ok s) ∧ bls_verify (public_from_secret sk) m s = true.
Proof.
  destruct (hash_to_curve_total m) as [q Hq]. pose proof (hash_to_curve_valid m q Hq) as Vq.
  pose proof (g1_mul_valid sk q Vq) as Vs. exists (g1_mul sk q). split.
  - unfold sign. rewrite Hq. simpl. unfold g1_valid in Vs. by destruct (g1_on_curve _), (g1_in_subgroup _).
  - apply bls_verify_spec. split; [done|]. exists q. split; [done|].
    apply pairing_mul; [done|apply g2_generator_valid].
Qed.

Lemma sign_tangle_verifies sk m s :
  sign_tangle sk m = Ok s → g2_is_zero (public_from_secret sk) = false →
  bls_verify_tangle (public_from_secret sk) m s = true.
Proof.
  unfold sign_tangle. intros Hs Hpk.
  destruct (hash_to_curve_tangle m) as [q|] eqn:Hq; simpl in Hs; [|done].
  pose proof (hash_to_curve_tangle_valid m q Hq) as Vq.
  destruct (g1_is_zero (g1_mul sk q)) eqn:Hz; [done|].
  destruct (_ || _); [done|]. inv_ok. apply bls_verify_tangle_spec. split_and!; [done|done| | |].
  - by apply g1_mul_valid.
  - apply g2_mul_valid, g2_generator_valid.
  - exists q. split; [done|]. apply pairing_mul; [done|apply g2_generator_valid].
Qed.

(** A contract-compatible signature verifies under its public key unless that
    key is the identity. *)
Theorem sign_tangle_verify sk m s :
  sign_tangle sk m = Ok s → g2_is_zero (public_from_secret sk) = false →
  bls_verify_tangle (public_from_secret sk) m s = true.
Proof. apply sign_tangle_verifies. Qed.

(** Signatures of one message that verify one by one aggregate to a signature
    that verifies under the aggregated key. *)
Theorem aggregate_verifies m sigs pks :
  sigs ≠ [] → Forall (λ pk, g2_valid pk = true) pks →
  Forall2 (λ pk s, bls_verify pk m s = true) pks sigs →
  ∃ s pk, bls_aggregate sigs pks = Ok (s, pk) ∧ verify_aggregate m s pk = Ok true.
Proof.
  intros Hne Hpk HF. destruct (hash_to_curve_total m) as [q Hq].
  pose proof (hash_to_curve_valid m q Hq) as Vq.
  destruct (aggregate_signs q sigs pks Vq Hne) as (s & pk & Ha & (_ & Vs & He)).
  { induction HF as [|pk s pks' sigs' Hv HF IH]; [constructor|].
    apply list.Forall_cons in Hpk as [Hp Hpk]. constructor.
    - apply bls_verify_spec in Hv as (Hs & q' & Hq' & He). simplify_eq. done.
    - destruct HF; [constructor|]. by apply IH. }
  exists s, pk. split; [done|]. unfold verify_aggregate. f_equal. apply bls_verify_spec. eauto.
Qed.

(** The contract-compatible scheme aggregates too, as long as the aggregate is
    not an identity point. *)
Theorem aggregate_verifies_tangle m sigs pks :
  sigs ≠ [] → Forall2 (λ pk s, bls_verify_tangle pk m s = true) pks sigs →
  ∃ s pk, bls_aggregate sigs pks = Ok (s, pk) ∧
    (g1_is_zero s = false → g2_is_zero pk = false → bls_verify_tangle pk m s = true).
Proof.
  intros Hne HF. destruct HF as [|pk0 s0 pks sigs Hv HF]; [done|].
  pose proof Hv as (_ & _ & _ & _ & q & Hq & _)%bls_verify_tangle_spec.
  pose proof (hash_to_curve_tangle_valid m q Hq) as Vq.
  destruct (aggregate_signs q (s0 :: sigs) (pk0 :: pks) Vq) as (s & pk & Ha & (Vp & Vs & He)); [done| |].
  { apply (list.Forall2_impl (λ pk s, bls_verify_tangle pk m s = true)); [by constructor|].
    intros pk s (_ & _ & Vs & Vp & q' & Hq' & He)%bls_verify_tangle_spec.
    assert (q' = q) as -> by congruence. by split_and!. }
  exists s, pk. split; [done|]. intros Hs Hp. apply bls_verify_tangle_spec. eauto 10.
Qed.

End laws.

End bn254.

(** [SQRT_EXPONENT] is [(P_MOD + 1) / 4], as its comment says. *)
Lemma sqrt_exponent_value : from_limbs SQRT_EXPONENT * 4 = Zpos P_MOD + 1.
Proof. by vm_compute. Qed.

(** ** A concrete instance, for executable examples

    Both groups and the target are the integers and the pairing is the product.
    The square root knows the two values the SHA-256 digests lead to; the
    Keccak-256 digests are abscissas of points with ordinate 1, which are cheap
    to check. *)
Definition toy_even : Z := 16300804051298280266557810744150527230361199964009614164046675910434187948382.
Definition toy_odd : Z := 737672023501788484657034070393467974112713954770214311754569895089682103088.

Definition toy_bn254 : Bn254 := {|
  Sig := Z; Pk := Z; Gt := Z;
  g1_zero := 0; g1_add := Z.add; g1_mul := Z.mul;
  g1_new x _ := if x =? toy_even then 1 else if x =? toy_odd then 7 else x;
  g1_is_zero x := x =? 0; g1_on_curve _ := true; g1_in_subgroup _ := true;
  g2_zero := 0; g2_add := Z.add; g2_mul := Z.mul; g2_generator := 1;
  g2_is_zero x := x =? 0; g2_on_curve _ := true; g2_in_subgroup _ := true;
  pairing := Z.mul;
  fq_sqrt a :=
    if a =? 4 then Some 2
    else if a =? 346 then
      Some 9719956595157988651932259141623298855365165476772332378229700818529096913484
    else None;
  sha256 m := if Z.even (sumZ m) then [1] else [7];
  keccak256 m := if Z.even (sumZ m) then [84;110;60;13;92;167;7;93;52;188;66;242;25;106;200;154;53;113;101;179;244;222;61;178;20;196;211;154;74;181;174;165]
    else [50;5;208;98;242;129;189;116;137;10;71;56;155;193;158;220;47;129;240;146;40;36;198;230;36;72;222;206;195;34;184;119];
  g1_serialize s := Some [s];
  g1_deserialize bs := match bs with [s] => Some s | _ => None end;
  g2_serialize p := Some [p];
  g2_deserialize bs := match bs with [p] => Some p | _ => None end;
|}.

#[export] Instance toy_bn254_laws : Bn254Laws toy_bn254.
Proof. split; eauto. Qed.

#[export] Instance toy_pairing_laws : PairingLaws toy_bn254.
Proof.
  refine (Build_PairingLaws toy_bn254 0 Z.add _ _ _ _ _ _ _ _ _ _ _ _ _ _ _ _).
  1-8: by intros.
  1-5: cbn [pairing toy_bn254 g1_add g2_add g1_mul g2_mul g1_zero g2_zero g2_generator]; intros; lia.
  - intros a y. cbn [fq_sqrt toy_bn254].
    destruct (a =? 4) eqn:E; [|destruct (a =? 346) eqn:E'; [|done]]; intros [= <-]; to_prop;
      subst a; by vm_compute.
  - by eexists.
  - by intros.
Defined.

Lemma hash_to_curve_terminates_witness :
  ∃ q, hash_to_curve (B := toy_bn254) [3; 4] = Some q ∧ g1_valid (H := toy_bn254) q = true.
Proof. exact (hash_to_curve_terminates (B := toy_bn254) [3; 4]). Defined.

Lemma sign_verify_witness :
  ∃ s, sign (B := toy_bn254) 42 [3; 4] = Some (Ok s) ∧
    bls_verify (B := toy_bn254) (public_from_secret (B := toy_bn254) 42) [3; 4] s = true.
Proof. exact (sign_verify (B := toy_bn254) 42 [3; 4]). Defined.

Lemma sign_tangle_verify_witness :
  bls_verify_tangle (B := toy_bn254) (public_from_secret (B := toy_bn254) 42) [3; 4] 294 = true.
Proof. apply (sign_tangle_verify (B := toy_bn254)); [by vm_compute|done]. Defined.

(** The digest of this message maps to 7, so the keys 5 and 6 sign it with 35
    and 42. *)
Lemma aggregate_verifies_witness :
  ∃ s pk, bls_aggregate (B := toy_bn254) [35; 42] [5; 6] = Ok (s, pk) ∧
    verify_aggregate (B := toy_bn254) [3; 4] s pk = Ok true.
Proof.
  apply (aggregate_verifies (B := toy_bn254)); [done|by repeat constructor|].
  constructor; [by vm_compute|]. constructor; [by vm_compute|constructor].
Defined.

Lemma aggregate_verifies_tangle_witness :
  ∃ s pk, bls_aggregate (B := toy_bn254) [35; 42] [5; 6] = Ok (s, pk) ∧
    (g1_is_zero (Bn254 := toy_bn254) s = false → g2_is_zero (Bn254 := toy_bn254) pk = false →
     bls_verify_tangle (B := toy_bn254) pk [3; 4] s = true).
Proof.
  apply (aggregate_verifies_tangle (B := toy_bn254)); [done|].
  constructor; [by vm_compute|]. constructor; [by vm_compute|constructor].
Defined.
