(* ===== verification/AggTask.v ===== *)
(** * One aggregation task: [TaskState] of the aggregation service

    Models [src/crates/tangle-aggregation-svc/src/state.rs] up to [TaskState]
    and the threshold and scheme types of [types.rs].  A [HashMap] is a [gmap],
    [u32]/[u64] are integers with their wrap-around written out, [U256] is a
    256-bit word, and every [Instant::now()] is an argument of the operation
    that reads the clock. *)

From S2P Require Import Prelude Bn254.
From Stdlib Require Import ZArith Lia.
From stdpp Require Import base gmap sets list sorting strings fin_maps numbers.

#[local] Open Scope Z_scope.

(** ** Data *)

Inductive ThresholdType :=
| Count (n : Z)
| StakeWeighted (bps : Z).

#[export] Instance ThresholdType_eq_dec : EqDecision ThresholdType.
Proof. solve_decision. Defined.

Definition ThresholdType_default : ThresholdType := Count 1.

Inductive Bn254SignatureScheme :=
| ArkworksSha256
| TangleKeccak256.

#[export] Instance Bn254SignatureScheme_eq_dec : EqDecision Bn254SignatureScheme.
Proof. solve_decision. Defined.

Section task_state.
  Context {B : Bn254}.

Record TaskState := mkTaskState {
  service_id : Z;
  call_id : Z;
  output : list Byte8;
  message : list Byte8;
  signature_scheme : Bn254SignatureScheme;
  operator_count : Z;
  threshold_type : ThresholdType;
  signer_bitmap : Z;
  signatures : gmap Z Sig;
  public_keys : gmap Z Pk;
  operator_stakes : gmap Z Z;
  total_stake : Z;
  submitted : bool;
  submitted_at : option Instant;
  created_at : Instant;
  expires_at : option Instant;
}.

(** [TaskState::with_message_config] *)
Definition with_message_config (now : Instant) (service_id call_id : Z)
    (output message : list Byte8) (signature_scheme : Bn254SignatureScheme)
    (operator_count : Z) (threshold_type : ThresholdType)
    (operator_stakes : option (gmap Z Z)) (ttl : option Duration) : TaskState :=
  let expires_at := (λ d, now + d) <$> ttl in
  let '(stakes, total_stake) :=
    match operator_stakes with
    | Some stakes => (stakes, sum_u64 (values stakes))
    | None =>
        (list_to_map ((λ i, (i, 1)) <$> seqZ 0 operator_count), operator_count)
    end in
  {| service_id := service_id; call_id := call_id;
     output := output; message := message;
     signature_scheme := signature_scheme;
     operator_count := operator_count;
     threshold_type := threshold_type;
     signer_bitmap := 0;
     signatures := ∅; public_keys := ∅;
     operator_stakes := stakes; total_stake := total_stake;
     submitted := false; submitted_at := None;
     created_at := now; expires_at := expires_at |}.

(** [TaskState::with_config] *)
Definition with_config (now : Instant) (service_id call_id : Z) (output : list Byte8)
    (operator_count : Z) (threshold_type : ThresholdType)
    (operator_stakes : option (gmap Z Z)) (ttl : option Duration) : TaskState :=
  with_message_config now service_id call_id output output ArkworksSha256
    operator_count threshold_type operator_stakes ttl.

(** [TaskState::new] *)
Definition task_new (now : Instant) (service_id call_id : Z) (output : list Byte8)
    (operator_count threshold : Z) : TaskState :=
  with_config now service_id call_id output operator_count (Count threshold) None None.

(** [TaskState::is_expired] *)
Definition is_expired (now : Instant) (t : TaskState) : bool :=
  match expires_at t with
  | Some e => e <? now
  | None => false
  end.

(** [TaskState::time_remaining] *)
Definition time_remaining (now : Instant) (t : TaskState) : option Duration :=
  e ← expires_at t; if now <? e then Some (e - now) else None.

(** [TaskState::has_signed] *)
Definition has_signed (t : TaskState) (operator_index : Z) : bool :=
  u256_and (u256_shr (signer_bitmap t) operator_index) 1 =? 1.

(** The assignments at the end of [TaskState::add_signature]. *)
Definition record_signature (t : TaskState) (operator_index : Z)
    (signature : Sig) (public_key : Pk) : TaskState :=
  {| service_id := service_id t; call_id := call_id t;
     output := output t; message := message t;
     signature_scheme := signature_scheme t;
     operator_count := operator_count t;
     threshold_type := threshold_type t;
     signer_bitmap := u256_or (signer_bitmap t) (u256_shl 1 operator_index);
     signatures := <[operator_index := signature]> (signatures t);
     public_keys := <[operator_index := public_key]> (public_keys t);
     operator_stakes := operator_stakes t; total_stake := total_stake t;
     submitted := submitted t; submitted_at := submitted_at t;
     created_at := created_at t; expires_at := expires_at t |}.

(** [TaskState::add_signature] *)
Definition add_signature (now : Instant) (t : TaskState) (operator_index : Z)
    (signature : Sig) (public_key : Pk) : result string TaskState :=
  if operator_count t <=? operator_index then Err "Operator index out of bounds"
  else if has_signed t operator_index then Err "Operator already signed"
  else if is_expired now t then Err "Task has expired"
  else Ok (record_signature t operator_index signature public_key).

(** [TaskState::signature_count] *)
Definition signature_count (t : TaskState) : Z := Z.of_nat (size (signatures t)).

(** The stake the task records for one operator, [0] when it records none. *)
Definition stake_of (t : TaskState) (i : Z) : Z := default 0 (operator_stakes t !! i).

(** [TaskState::signed_stake] *)
Definition signed_stake (t : TaskState) : Z :=
  sum_u64 (stake_of t <$> keys (signatures t)).

(** [TaskState::signed_stake_bps] *)
Definition signed_stake_bps (t : TaskState) : Z :=
  if total_stake t =? 0 then 0
  else u32_wrap (u64_wrap (signed_stake t * 10000) / total_stake t).

(** [TaskState::threshold_met] *)
Definition threshold_met (t : TaskState) : bool :=
  match threshold_type t with
  | Count n => n <=? signature_count t
  | StakeWeighted bps => bps <=? signed_stake_bps t
  end.

(** [TaskState::threshold_value] *)
Definition threshold_value (t : TaskState) : Z :=
  match threshold_type t with
  | Count n => n
  | StakeWeighted bps => bps
  end.

(** [TaskState::get_non_signers] *)
Definition get_non_signers (t : TaskState) : list Z :=
  filter (λ i, has_signed t i = false) (seqZ 0 (operator_count t)).

(** [TaskState::get_signers] *)
Definition get_signers (t : TaskState) : list Z :=
  merge_sort Z.le (keys (signatures t)).

(** [TaskState::get_signatures_for_aggregation] *)
Definition get_signatures_for_aggregation (t : TaskState) : list Sig * list Pk :=
  foldl (λ '(sigs, pks) idx,
      match signatures t !! idx, public_keys t !! idx with
      | Some sig, Some pk => (sigs ++ [sig], pks ++ [pk])
      | _, _ => (sigs, pks)
      end)
    ([], []) (get_signers t).

(** ** Well-formedness *)

(** The stake of a set of operators, computed without overflow. *)
Definition stake_total (t : TaskState) (ops : list Z) : Z := sumZ (stake_of t <$> ops).

Record task_wf (t : TaskState) : Prop := {
  wf_count : is_u32 (operator_count t);
  wf_bitmap : 0 ≤ signer_bitmap t < 2 ^ 256;
  wf_bits i : 0 ≤ i < 256 → Z.testbit (signer_bitmap t) i = bool_decide (i ∈ dom (signatures t));
  wf_pair : dom (public_keys t) = dom (signatures t);
  wf_index i : i ∈ dom (signatures t) → 0 ≤ i < operator_count t;
  wf_total : total_stake t = u64_wrap (sumZ (values (operator_stakes t)));
  wf_submitted : submitted t = true → is_Some (submitted_at t);
}.


(** ** The signer bitmap *)

Lemma has_signed_testbit t i : 0 ≤ i → has_signed t i = Z.testbit (signer_bitmap t) i.
Proof. apply u256_bit_test. Qed.

Lemma has_signed_wf t i :
  task_wf t → 0 ≤ i < 256 → has_signed t i = bool_decide (i ∈ dom (signatures t)).
Proof. intros Hwf Hi. rewrite has_signed_testbit by lia. by apply wf_bits. Qed.

Lemma has_signed_high t i : task_wf t → 256 ≤ i → has_signed t i = false.
Proof.
  intros Hwf Hi. rewrite has_signed_testbit by lia.
  destruct (wf_bitmap _ Hwf) as [Hb0 Hb1].
  by apply (proj1 (bounded_testbit _ 256 ltac:(lia) Hb0) Hb1).
Qed.

Lemma record_signature_signed t i s p j :
  0 ≤ i → 0 ≤ j →
  has_signed (record_signature t i s p) j = (has_signed t j || bool_decide (i = j ∧ j < 256)).
Proof. intros. rewrite !has_signed_testbit by done. by apply u256_set_testbit. Qed.

Lemma unit_stakes_values n :
  values (list_to_map ((λ i, (i, 1)) <$> seqZ 0 n) : gmap Z Z) ≡ₚ (λ _, 1) <$> seqZ 0 n.
Proof.
  unfold values. rewrite map_to_list_to_map.
  - by rewrite <-list_fmap_compose.
  - rewrite <-list_fmap_compose. change (fst ∘ (λ i : Z, (i, 1))) with (λ i : Z, i).
    rewrite list_fmap_id. apply NoDup_seqZ.
Qed.

Lemma sumZ_ones (l : list Z) : sumZ ((λ _, 1) <$> l) = Z.of_nat (length l).
Proof.
  induction l as [|x l IH]; [done|].
  rewrite fmap_cons, sumZ_cons, IH, length_cons. lia.
Qed.

(** ** Preservation of the invariant *)

Lemma with_message_config_wf now sid cid out msg sch n th st ttl :
  is_u32 n → task_wf (with_message_config now sid cid out msg sch n th st ttl).
Proof.
  intros Hn. unfold with_message_config.
  destruct st as [st|]; split; simpl; try set_solver; try done.
  - intros i Hi. by rewrite Z.testbit_0_l, dom_empty_L.
  - by rewrite sum_u64_spec.
  - intros i Hi. by rewrite Z.testbit_0_l, dom_empty_L.
  - rewrite unit_stakes_values, sumZ_ones, length_seqZ.
    rewrite Z2Nat.id by apply Hn. rewrite u64_wrap_small; [done|].
    unfold is_u32, is_u64 in *. lia.
Qed.

Lemma record_signature_wf t i s p :
  task_wf t → 0 ≤ i < operator_count t → task_wf (record_signature t i s p).
Proof.
  intros Hwf Hi. destruct Hwf as [Hc [Hb0 Hb1] Hbits Hpair Hidx Htot Hsub].
  split; simpl; try done.
  - assert (0 ≤ u256_or (signer_bitmap t) (u256_shl 1 i)) as Hpos.
    { apply Z.lor_nonneg. split; [done|]. apply Z.mod_pos_bound. lia. }
    split; [done|]. apply bounded_testbit; [lia|done|].
    intros j Hj. rewrite u256_set_testbit by lia.
    rewrite bool_decide_eq_false_2 by lia. rewrite orb_false_r.
    by apply (proj1 (bounded_testbit _ 256 ltac:(lia) Hb0) Hb1).
  - intros j Hj. rewrite u256_set_testbit, Hbits by lia.
    apply eq_bool_prop_intro. rewrite orb_True, !bool_decide_spec, dom_insert_L.
    set_solver by lia.
  - by rewrite !dom_insert_L, Hpair.
  - intros j. rewrite dom_insert_L, elem_of_union, elem_of_singleton.
    intros [->|?]; [done|]. by apply Hidx.
Qed.

Lemma add_signature_Ok_inv now t i s p t' :
  add_signature now t i s p = Ok t' →
  i < operator_count t ∧ has_signed t i = false ∧ is_expired now t = false ∧
  t' = record_signature t i s p.
Proof. unfold add_signature. intros H. steps_in H. inv_ok. by to_prop. Qed.

Lemma add_signature_wf now t i s p t' :
  0 ≤ i → task_wf t → add_signature now t i s p = Ok t' → task_wf t'.
Proof.
  intros Hi Hwf (? & ? & ? & ->)%add_signature_Ok_inv. by apply record_signature_wf.
Qed.

(** ** The signers, in order *)

Lemma get_signers_perm t : get_signers t ≡ₚ keys (signatures t).
Proof. apply merge_sort_Permutation. Qed.

Lemma get_signers_bitmap t :
  task_wf t → operator_count t ≤ 256 →
  get_signers t = filter (λ i, has_signed t i = true) (seqZ 0 (operator_count t)).
Proof.
  intros Hwf Hn. apply (StronglySorted_unique Z.le).
  - apply (StronglySorted_merge_sort _).
  - apply filter_sorted, seqZ_sorted.
  - rewrite get_signers_perm. apply NoDup_Permutation.
    + apply keys_NoDup.
    + apply list.NoDup_filter, NoDup_seqZ.
    + intros i. rewrite elem_of_keys, list_elem_of_filter, elem_of_seqZ, <-elem_of_dom.
      split.
      * intros Hi. pose proof (wf_index _ Hwf i Hi). split; [|lia].
        rewrite has_signed_wf by (done || lia). by apply bool_decide_eq_true.
      * intros [Hs Hi]. rewrite has_signed_wf in Hs by (done || lia).
        by apply bool_decide_eq_true in Hs.
Qed.

Lemma non_signers_length t :
  task_wf t → operator_count t ≤ 256 →
  Z.of_nat (length (get_non_signers t)) = operator_count t - signature_count t.
Proof.
  intros Hwf Hn.
  pose proof (filter_app_complement (λ i, has_signed t i = true) (seqZ 0 (operator_count t))) as Hp.
  apply Permutation_length in Hp. rewrite length_app, length_seqZ in Hp.
  rewrite <-get_signers_bitmap, get_signers_perm, keys_length in Hp by done.
  assert (get_non_signers t = filter (λ x, has_signed t x ≠ true) (seqZ 0 (operator_count t))) as ->.
  { apply list_filter_iff. intros i. by rewrite not_true_iff_false. }
  destruct (wf_count _ Hwf). unfold signature_count. lia.
Qed.

Lemma fold_aggregation t idxs sigs pks :
  (∀ i, i ∈ idxs → i ∈ dom (signatures t) ∧ i ∈ dom (public_keys t)) →
  foldl (λ '(sigs, pks) idx,
      match signatures t !! idx, public_keys t !! idx with
      | Some sig, Some pk => (sigs ++ [sig], pks ++ [pk])
      | _, _ => (sigs, pks)
      end) (sigs, pks) idxs
  = (sigs ++ omap (λ i, signatures t !! i) idxs, pks ++ omap (λ i, public_keys t !! i) idxs).
Proof.
  revert sigs pks. induction idxs as [|i idxs IH]; intros sigs pks Hin; simpl.
  - by rewrite !app_nil_r.
  - destruct (Hin i) as [[s Hs]%elem_of_dom [p Hp]%elem_of_dom]; [by left|].
    rewrite Hs, Hp, IH by set_solver. by rewrite <-!app_assoc.
Qed.

Lemma aggregation_inputs t :
  task_wf t →
  get_signatures_for_aggregation t =
    (omap (λ i, signatures t !! i) (get_signers t),
     omap (λ i, public_keys t !! i) (get_signers t)).
Proof.
  intros Hwf. unfold get_signatures_for_aggregation. rewrite fold_aggregation; [done|].
  intros i Hi. rewrite get_signers_perm, elem_of_keys, <-elem_of_dom in Hi.
  by rewrite (wf_pair _ Hwf).
Qed.

Lemma omap_total_length {A} (f : Z → option A) (l : list Z) :
  (∀ i, i ∈ l → is_Some (f i)) → length (omap f l) = length l.
Proof.
  induction l as [|i l IH]; intros Hf; [done|]. cbn.
  destruct (Hf i) as [x ->]; [by left|]. cbn. f_equal. apply IH. set_solver.
Qed.

Lemma omap_total_lookup {A} (f : Z → option A) (l : list Z) k i :
  (∀ j, j ∈ l → is_Some (f j)) → l !! k = Some i → omap f l !! k = f i.
Proof.
  revert k. induction l as [|j l IH]; intros k Hf Hk; [done|]. cbn.
  destruct (Hf j) as [x Hx]; [by left|]. rewrite Hx.
  destruct k as [|k]; cbn in *; [by simplify_eq|]. apply IH; [set_solver|done].
Qed.

(** ** Stake arithmetic *)

(** The stakes are such that no computation of the task overflows [u64]. *)
Definition stakes_fit (t : TaskState) : Prop :=
  (∀ i x, operator_stakes t !! i = Some x → 0 ≤ x) ∧
  sumZ (values (operator_stakes t)) * 10000 < 2 ^ 64.

Lemma stake_of_nonneg t i : stakes_fit t → 0 ≤ stake_of t i.
Proof.
  intros [Hpos _]. unfold stake_of.
  destruct (operator_stakes t !! i) as [x|] eqn:E; simpl; eauto with lia.
Qed.

Lemma stake_total_nonneg t ops : stakes_fit t → 0 ≤ stake_total t ops.
Proof.
  intros Hfit. apply sumZ_nonneg, Forall_fmap, list.Forall_forall.
  intros i _. by apply stake_of_nonneg.
Qed.

Lemma stake_total_bound t ops :
  stakes_fit t → NoDup ops → stake_total t ops ≤ sumZ (values (operator_stakes t)).
Proof. intros [Hpos _] Hnd. by apply sum_default_le. Qed.

Lemma total_stake_exact t :
  task_wf t → stakes_fit t → total_stake t = sumZ (values (operator_stakes t)).
Proof.
  intros Hwf Hfit. rewrite (wf_total _ Hwf). apply u64_wrap_small.
  pose proof (stake_total_bound t [] Hfit ltac:(constructor)) as H.
  destruct Hfit. unfold stake_total in H. simpl in H. unfold is_u64. lia.
Qed.

Lemma signed_stake_exact t :
  stakes_fit t → signed_stake t = stake_total t (keys (signatures t)).
Proof.
  intros Hfit. unfold signed_stake. rewrite sum_u64_spec. apply u64_wrap_small.
  pose proof (stake_total_bound t (keys (signatures t)) Hfit ltac:(auto with blueprint)).
  pose proof (stake_total_nonneg t (keys (signatures t)) Hfit).
  unfold stake_total in *. destruct Hfit. unfold is_u64. lia.
Qed.

Lemma signed_stake_bps_exact t :
  task_wf t → stakes_fit t → total_stake t ≠ 0 →
  signed_stake_bps t = stake_total t (keys (signatures t)) * 10000 / total_stake t ∧
  0 ≤ signed_stake_bps t ≤ 10000.
Proof.
  intros Hwf Hfit Hnz. unfold signed_stake_bps.
  rewrite (proj2 (Z.eqb_neq _ _) Hnz), signed_stake_exact by done.
  rewrite total_stake_exact in * by done.
  set (S := sumZ (values (operator_stakes t))) in *.
  set (s := stake_total t (keys (signatures t))).
  assert (0 ≤ s ≤ S) as Hs.
  { split; [by apply stake_total_nonneg|]. apply stake_total_bound; auto with blueprint. }
  destruct Hfit as [_ HS]. fold S in HS.
  rewrite u64_wrap_small by (unfold is_u64; lia).
  assert (0 ≤ s * 10000 / S ≤ 10000).
  { split; [apply Z.div_pos; lia|]. apply Z.div_le_upper_bound; lia. }
  rewrite u32_wrap_small by (unfold is_u32; lia). done.
Qed.

(** ** Correctness of the task operations *)

(** What [add_signature] changes and what it leaves alone. *)
Definition signed_by (t t' : TaskState) (i : Z) (s : Sig) (p : Pk) : Prop :=
  signatures t' = <[i := s]> (signatures t) ∧
  public_keys t' = <[i := p]> (public_keys t) ∧
  (∀ j, is_u32 j → has_signed t' j = (has_signed t j || (i =? j))) ∧
  signature_count t' = signature_count t + 1 ∧
  operator_count t' = operator_count t ∧ threshold_type t' = threshold_type t ∧
  operator_stakes t' = operator_stakes t ∧ total_stake t' = total_stake t ∧
  submitted t' = submitted t ∧ expires_at t' = expires_at t ∧
  output t' = output t ∧ message t' = message t.

Lemma record_signature_signed_by t i s p :
  task_wf t → is_u32 i → operator_count t ≤ 256 → i < operator_count t →
  has_signed t i = false → (i ∉ dom (signatures t)) ∧ signed_by t (record_signature t i s p) i s p.
Proof.
  intros Hwf Hi Hn Hlt Hns. unfold is_u32 in Hi.
  rewrite has_signed_wf in Hns by (done || lia). apply bool_decide_eq_false in Hns.
  split; [done|]. unfold signed_by. split_and!; try done.
  - intros j Hj. unfold is_u32 in Hj. rewrite record_signature_signed by lia.
    f_equal. apply eq_bool_prop_intro. rewrite bool_decide_spec, Is_true_true, Z.eqb_eq. lia.
  - unfold signature_count. simpl. rewrite map_size_insert_None; [lia|].
    by apply not_elem_of_dom.
Qed.

(** [add_signature] on every branch, for a service of at most 256 operators:
    it accepts exactly an in-range operator that has not signed a live task,
    and then adds that operator's signature, key and bit and nothing else. *)
Theorem add_signature_correct now t i s p :
  task_wf t → is_u32 i → operator_count t ≤ 256 →
  match add_signature now t i s p with
  | Ok t' =>
      i < operator_count t ∧ (i ∉ dom (signatures t)) ∧ is_expired now t = false ∧
      task_wf t' ∧ signed_by t t' i s p
  | Err e =>
      (e = "Operator index out of bounds" ∧ operator_count t ≤ i) ∨
      (e = "Operator already signed" ∧ i ∈ dom (signatures t)) ∨
      (e = "Task has expired" ∧ i < operator_count t ∧ (i ∉ dom (signatures t)) ∧
       is_expired now t = true)
  end.
Proof.
  intros Hwf Hi Hn. unfold add_signature. pose proof Hi as [Hi0 _].
  destruct (operator_count t <=? i) eqn:Hc; to_prop; [by left|].
  destruct (has_signed t i) eqn:Hd.
  { right; left. rewrite has_signed_wf in Hd by (done || lia).
    by apply bool_decide_eq_true in Hd. }
  destruct (record_signature_signed_by t i s p) as [Hfresh Hby]; [done..|].
  destruct (is_expired now t) eqn:He; [by right; right|].
  split_and!; try done. by apply record_signature_wf.
Qed.

(** The signers reported to the chain: the sorted signer list, the bitmap and
    the non-signer list describe the same split of the operator set. *)
Theorem signers_partition t :
  task_wf t → operator_count t ≤ 256 →
  StronglySorted Z.le (get_signers t) ∧ NoDup (get_signers t) ∧
  (∀ i, i ∈ get_signers t ↔ 0 ≤ i < operator_count t ∧ has_signed t i = true) ∧
  (∀ i, i ∈ get_non_signers t ↔ 0 ≤ i < operator_count t ∧ has_signed t i = false) ∧
  get_signers t ++ get_non_signers t ≡ₚ seqZ 0 (operator_count t) ∧
  signature_count t = Z.of_nat (length (get_signers t)).
Proof.
  intros Hwf Hn. rewrite get_signers_bitmap by done. unfold get_non_signers.
  split_and!.
  - apply filter_sorted, seqZ_sorted.
  - apply list.NoDup_filter, NoDup_seqZ.
  - intros i. rewrite list_elem_of_filter, elem_of_seqZ. naive_solver lia.
  - intros i. rewrite list_elem_of_filter, elem_of_seqZ. naive_solver lia.
  - rewrite <-(filter_app_complement (λ i, has_signed t i = true) (seqZ 0 (operator_count t))) at 3.
    apply Permutation_app_head. erewrite list_filter_iff; [done|].
    intros i. by rewrite not_true_iff_false.
  - rewrite <-get_signers_bitmap by done. unfold signature_count.
    by rewrite get_signers_perm, keys_length.
Qed.

(** The vectors handed to BLS aggregation have one signature and one key per
    signer, in increasing operator order, the k-th of each belonging to the
    k-th signer. *)
Theorem aggregation_aligned t :
  task_wf t →
  let '(sigs, pks) := get_signatures_for_aggregation t in
  length sigs = length (get_signers t) ∧ length pks = length (get_signers t) ∧
  ∀ k i, get_signers t !! k = Some i →
    sigs !! k = signatures t !! i ∧ pks !! k = public_keys t !! i.
Proof.
  intros Hwf. rewrite aggregation_inputs by done.
  assert (∀ i, i ∈ get_signers t → is_Some (signatures t !! i)) as Hs.
  { intros i. by rewrite get_signers_perm, elem_of_keys. }
  assert (∀ i, i ∈ get_signers t → is_Some (public_keys t !! i)) as Hp.
  { intros i Hi. apply elem_of_dom. rewrite (wf_pair _ Hwf). by apply elem_of_dom, Hs. }
  split_and!; [by apply omap_total_length..|].
  intros k i Hk. split.
  - by apply (omap_total_lookup (λ i, signatures t !! i)).
  - by apply (omap_total_lookup (λ i, public_keys t !! i)).
Qed.

Lemma stake_threshold_iff t bps :
  task_wf t → stakes_fit t → total_stake t ≠ 0 → threshold_type t = StakeWeighted bps →
  (threshold_met t = true) ↔
  bps * sumZ (values (operator_stakes t)) ≤ stake_total t (get_signers t) * 10000.
Proof.
  intros Hwf Hfit Hnz Hth. unfold threshold_met. rewrite Hth, Z.leb_le.
  destruct (signed_stake_bps_exact t) as [-> _]; [done..|].
  unfold stake_total. rewrite get_signers_perm.
  rewrite total_stake_exact in * by done. apply div_ge_iff.
  pose proof (stake_total_bound t [] Hfit ltac:(constructor)) as H. cbn in H. lia.
Qed.

(** When the stakes fit in [u64], a stake-weighted threshold is met exactly
    when the signers hold at least [bps] basis points of the total stake. *)
Theorem stake_threshold_exact t bps :
  task_wf t → stakes_fit t → total_stake t ≠ 0 → threshold_type t = StakeWeighted bps →
  (threshold_met t = true) ↔
  bps * sumZ (values (operator_stakes t)) ≤ stake_total t (get_signers t) * 10000.
Proof. apply stake_threshold_iff. Qed.

(** A met threshold stays met as further signatures arrive. *)
Theorem threshold_met_monotone now t i s p t' :
  task_wf t → stakes_fit t → is_u32 i → operator_count t ≤ 256 →
  threshold_met t = true → add_signature now t i s p = Ok t' →
  threshold_met t' = true.
Proof.
  intros Hwf Hfit Hi Hn Hmet Hadd.
  pose proof (add_signature_wf _ _ _ _ _ _ (proj1 Hi) Hwf Hadd) as Hwf'.
  apply add_signature_Ok_inv in Hadd as (Hlt & Hns & _ & ->).
  destruct (record_signature_signed_by t i s p) as [Hfresh Hs]; [done..|].
  set (t' := record_signature t i s p) in *. clearbody t'.
  destruct Hs as (Hsig & _ & _ & Hcnt & _ & Hth & Hst & Htot & _).
  unfold threshold_met in *. rewrite Hth. destruct (threshold_type t) as [n|bps].
  { rewrite Z.leb_le in *. lia. }
  rewrite Z.leb_le in *. apply Z.le_trans with (signed_stake_bps t); [done|].
  destruct (decide (total_stake t = 0)) as [Hz|Hnz].
  { unfold signed_stake_bps. by rewrite Htot, Hz. }
  assert (stakes_fit t') as Hfit' by (unfold stakes_fit; by rewrite Hst).
  rewrite (proj1 (signed_stake_bps_exact t Hwf Hfit Hnz)).
  rewrite (proj1 (signed_stake_bps_exact t' Hwf' Hfit' ltac:(by rewrite Htot))), Htot.
  apply Z.div_le_mono.
  { pose proof (stake_total_bound t [] Hfit ltac:(constructor)) as H. cbn in H.
    rewrite total_stake_exact in * by done. lia. }
  assert (stake_total t' (keys (signatures t')) = stake_of t i + stake_total t (keys (signatures t))) as ->.
  { unfold stake_total. rewrite Hsig, keys_insert by by apply not_elem_of_dom.
    rewrite fmap_cons, sumZ_cons. unfold stake_of. by rewrite Hst. }
  pose proof (stake_of_nonneg t i Hfit). lia.
Qed.

End task_state.

(** ** Executable examples *)

(** Three operators holding 50, 30 and 20, two of which have signed. *)
Definition demo_stakes : gmap Z Z := {[0 := 50; 1 := 30; 2 := 20]}.

Definition demo_task : TaskState (B := toy_bn254) :=
  record_signature (B := toy_bn254)
    (record_signature (B := toy_bn254)
      (with_message_config (B := toy_bn254) 0 1 100 [1; 2; 3] [1; 2; 3] ArkworksSha256 3
         (StakeWeighted 6700) (Some demo_stakes) (Some (from_secs 60)))
      0 7 17)
    1 8 18.

Lemma demo_task_wf : task_wf (B := toy_bn254) demo_task.
Proof.
  apply record_signature_wf; [|done]. apply record_signature_wf; [|done].
  by apply with_message_config_wf.
Qed.

Lemma demo_stakes_fit : stakes_fit (B := toy_bn254) demo_task.
Proof.
  split; [|by vm_compute]. change (map_Forall (λ _ x, 0 ≤ x) demo_stakes). by apply (bool_decide_unpack _).
Qed.

Lemma add_signature_correct_witness :
  match add_signature (B := toy_bn254) 5 demo_task 2 9 19 with
  | Ok t' =>
      2 < 3 ∧ (2 ∉ dom (signatures (B := toy_bn254) demo_task)) ∧
      is_expired (B := toy_bn254) 5 demo_task = false ∧
      task_wf (B := toy_bn254) t' ∧ signed_by (B := toy_bn254) demo_task t' 2 9 19
  | Err _ => False
  end.
Proof. exact (add_signature_correct (B := toy_bn254) 5 demo_task 2 9 19 demo_task_wf ltac:(done) ltac:(done)). Defined.

Lemma signers_partition_witness :
  get_signers (B := toy_bn254) demo_task ++ get_non_signers (B := toy_bn254) demo_task ≡ₚ seqZ 0 3.
Proof.
  exact (proj1 (proj2 (proj2 (proj2 (proj2
    (signers_partition (B := toy_bn254) demo_task demo_task_wf ltac:(done))))))).
Defined.

Lemma aggregation_aligned_witness :
  ∀ k i, [0; 1] !! k = Some i →
    [7; 8] !! k = signatures (B := toy_bn254) demo_task !! i ∧
    [17; 18] !! k = public_keys (B := toy_bn254) demo_task !! i.
Proof. exact (proj2 (proj2 (aggregation_aligned (B := toy_bn254) demo_task demo_task_wf))). Defined.

Lemma stake_threshold_exact_witness :
  (threshold_met (B := toy_bn254) demo_task = true) ↔ 6700 * 100 ≤ 80 * 10000.
Proof.
  exact (stake_threshold_exact (B := toy_bn254) demo_task 6700
           demo_task_wf demo_stakes_fit ltac:(done) eq_refl).
Defined.

Lemma threshold_met_monotone_witness :
  threshold_met (B := toy_bn254) (record_signature (B := toy_bn254) demo_task 2 9 19) = true.
Proof.
  exact (threshold_met_monotone (B := toy_bn254) 5 demo_task 2 9 19 _
           demo_task_wf demo_stakes_fit ltac:(done) ltac:(done) eq_refl eq_refl).
Defined.

(** ** Limits of the representation *)

(** The bitmap has 256 bits: an operator with index 256 or more is accepted as
    a signer any number of times, since its bit is never set.  The second
    signature replaces the first. *)
Theorem wide_index_resigns {B : Bn254} now t i s p s' p' :
  task_wf t → 256 ≤ i → i < operator_count t → is_expired now t = false →
  ∃ t1 t2,
    add_signature now t i s p = Ok t1 ∧ add_signature now t1 i s' p' = Ok t2 ∧
    signer_bitmap t2 = signer_bitmap t ∧ signatures t2 !! i = Some s' ∧
    signature_count t2 = signature_count t1 ∧
    (i ∈ get_non_signers t2) ∧ (i ∈ get_signers t2).
Proof.
  intros Hwf Hi Hc He. pose (t1 := record_signature t i s p).
  pose (t2 := record_signature t1 i s' p').
  assert (task_wf t1) as Hwf1 by (apply record_signature_wf; [done|lia]).
  assert (task_wf t2) as Hwf2 by (apply record_signature_wf; [done|simpl; lia]).
  exists t1, t2. unfold add_signature. rewrite !has_signed_high by done.
  rewrite (proj2 (Z.leb_gt _ _) Hc). change (operator_count t1) with (operator_count t).
  rewrite (proj2 (Z.leb_gt _ _) Hc). change (is_expired now t1) with (is_expired now t).
  rewrite He. split_and!; try done.
  - simpl. rewrite !u256_shl1_high by done. unfold u256_or. by rewrite !Z.lor_0_r.
  - simpl. by rewrite lookup_insert_eq.
  - unfold signature_count. simpl. by rewrite insert_insert_eq, !map_size_insert.
  - unfold get_non_signers. rewrite list_elem_of_filter, elem_of_seqZ.
    rewrite has_signed_high by done. simpl. lia.
  - rewrite get_signers_perm, elem_of_keys. simpl. rewrite lookup_insert_eq. by eexists.
Qed.

Definition wide_task : TaskState (B := toy_bn254) :=
  task_new (B := toy_bn254) 0 1 2 [] 300 2.

Lemma wide_index_resigns_witness :
  ∃ t1 t2,
    add_signature (B := toy_bn254) 1 wide_task 256 7 8 = Ok t1 ∧
    add_signature (B := toy_bn254) 1 t1 256 9 10 = Ok t2 ∧
    signer_bitmap t2 = 0 ∧ signatures t2 !! 256 = Some 9 ∧
    signature_count t2 = signature_count t1 ∧
    (256 ∈ get_non_signers t2) ∧ (256 ∈ get_signers t2).
Proof.
  apply (wide_index_resigns (B := toy_bn254) 1 wide_task 256 7 8 9 10); [|done..].
  by apply with_message_config_wf.
Defined.

(** Three operators whose stakes add up to [2^64 + 1]. *)
Definition wrap_task : TaskState (B := toy_bn254) :=
  with_message_config (B := toy_bn254) 0 1 2 [] [] ArkworksSha256 3 (StakeWeighted 10000)
    (Some {[0 := 2 ^ 63; 1 := 2 ^ 63; 2 := 1]}) None.

(** The stake total is summed modulo [2^64]: with stakes [2^63], [2^63] and [1]
    the recorded total is [1], and the third operator alone meets a 100%
    threshold. *)
Theorem stake_wrap_unsafe :
  task_wf (B := toy_bn254) wrap_task ∧
  (∃ t, add_signature (B := toy_bn254) 1 wrap_task 2 7 8 = Ok t ∧
        signature_count t = 1 ∧ total_stake t = 1 ∧ threshold_met t = true ∧
        10000 * sumZ (values (operator_stakes t)) > 2 ^ 63 * (stake_total t (get_signers t) * 10000)).
Proof.
  split; [by apply with_message_config_wf|]. eexists. split; [reflexivity|].
  by split_and!.
Qed.
