(* ===== verification/AggState.v ===== *)
(** * The aggregation state manager: [AggregationState]

    Models the in-memory task table of
    [src/crates/tangle-aggregation-svc/src/state.rs] with every operation that
    reads or writes it.  The table sits behind one [RwLock], so each operation
    is one atomic function on the table.  Where an operation reads the clock
    more than once each reading is an argument of its own; where it reads it
    once per visited entry the readings are a function of the entry's key. *)

From S2P Require Import Prelude Bn254 AggTask.
From Stdlib Require Import ZArith Lia.
From stdpp Require Import base gmap sets list sorting strings fin_maps numbers relations.

#[local] Open Scope Z_scope.

(** ** Data *)

(** [types.rs]: [TaskId], with the equality and hashing it derives. *)
Record TaskId := mkTaskId { tid_service_id : Z; tid_call_id : Z }.

#[export] Instance TaskId_eq_dec : EqDecision TaskId.
Proof. solve_decision. Defined.

#[export] Instance TaskId_countable : Countable TaskId.
Proof.
  refine (inj_countable' (λ i, (tid_service_id i, tid_call_id i))
            (λ p, mkTaskId p.1 p.2) _); by intros [].
Defined.

Record TaskConfig := mkTaskConfig {
  cfg_threshold_type : ThresholdType;
  cfg_operator_stakes : option (gmap Z Z);
  cfg_ttl : option Duration;
}.

Definition TaskConfig_default : TaskConfig := mkTaskConfig (Count 1) None None.

Record TaskStatus := mkTaskStatus {
  st_signatures_collected : Z;
  st_threshold_required : Z;
  st_threshold_type : ThresholdType;
  st_threshold_met : bool;
  st_signer_bitmap : Z;
  st_signed_stake_bps : Z;
  st_submitted : bool;
  st_is_expired : bool;
  st_time_remaining_secs : option Z;
}.

Record TaskCounts := mkTaskCounts {
  c_total : Z; c_pending : Z; c_ready : Z; c_submitted : Z; c_expired : Z;
}.

Definition TaskCounts_default : TaskCounts := mkTaskCounts 0 0 0 0 0.

Section agg_state.
  Context {B : Bn254}.

Abbreviation AggregationState := (gmap TaskId TaskState).

Record TaskForAggregation := mkTaskForAggregation {
  fa_service_id : Z;
  fa_call_id : Z;
  fa_output : list Byte8;
  fa_signer_bitmap : Z;
  fa_non_signer_indices : list Z;
  fa_signatures : list Sig;
  fa_public_keys : list Pk;
}.

(** ** Operations *)

(** The [same_context] test of [init_task_with_message_config]. *)
Definition same_context (existing state : TaskState) : bool :=
  bool_decide (output existing = output state) &&
  bool_decide (message existing = message state) &&
  bool_decide (signature_scheme existing = signature_scheme state) &&
  bool_decide (operator_count existing = operator_count state) &&
  bool_decide (threshold_type existing = threshold_type state) &&
  bool_decide (operator_stakes existing = operator_stakes state).

(** [AggregationState::init_task_with_message_config] *)
Definition init_task_with_message_config (now : Instant) (tasks : AggregationState)
    (service_id call_id : Z) (output message : list Byte8)
    (signature_scheme : Bn254SignatureScheme) (operator_count : Z) (config : TaskConfig)
    : result string AggregationState :=
  let task_id := mkTaskId service_id call_id in
  let state :=
    with_message_config now service_id call_id output message signature_scheme
      operator_count (cfg_threshold_type config) (cfg_operator_stakes config)
      (cfg_ttl config) in
  match tasks !! task_id with
  | Some existing =>
      if same_context existing state then Ok tasks
      else Err "Task initialization conflicts with existing context"
  | None => Ok (<[task_id := state]> tasks)
  end.

(** [AggregationState::init_task_with_config] *)
Definition init_task_with_config (now : Instant) (tasks : AggregationState)
    (service_id call_id : Z) (output : list Byte8) (operator_count : Z)
    (config : TaskConfig) : result string AggregationState :=
  init_task_with_message_config now tasks service_id call_id output output
    ArkworksSha256 operator_count config.

(** [AggregationState::init_task] *)
Definition init_task (now : Instant) (tasks : AggregationState) (service_id call_id : Z)
    (output : list Byte8) (operator_count threshold : Z) : result string AggregationState :=
  init_task_with_config now tasks service_id call_id output operator_count
    (mkTaskConfig (Count threshold) None None).

(** [AggregationState::get_task_output] *)
Definition get_task_output (tasks : AggregationState) (service_id call_id : Z)
    : option (list Byte8) :=
  output <$> tasks !! mkTaskId service_id call_id.

(** [AggregationState::get_task_signature_context] *)
Definition get_task_signature_context (tasks : AggregationState) (service_id call_id : Z)
    : option (list Byte8 * Bn254SignatureScheme) :=
  (λ t, (message t, signature_scheme t)) <$> tasks !! mkTaskId service_id call_id.

(** [AggregationState::submit_signature]; the expiry is tested at [now] and
    again, inside [add_signature], at [now']. *)
Definition submit_signature (now now' : Instant) (tasks : AggregationState)
    (service_id call_id operator_index : Z) (signature : Sig) (public_key : Pk)
    : result string (AggregationState * (Z * bool)) :=
  let task_id := mkTaskId service_id call_id in
  task ← ok_or (tasks !! task_id) "Task not found"%string;
  if submitted task then Err "Task already submitted to chain"
  else if is_expired now task then Err "Task has expired"
  else
    task' ← add_signature now' task operator_index signature public_key;
    Ok (<[task_id := task']> tasks, (signature_count task', threshold_met task')).

(** [AggregationState::get_status] *)
Definition get_status (now now' : Instant) (tasks : AggregationState)
    (service_id call_id : Z) : option TaskStatus :=
  (λ t, {| st_signatures_collected := signature_count t;
           st_threshold_required := threshold_value t;
           st_threshold_type := threshold_type t;
           st_threshold_met := threshold_met t;
           st_signer_bitmap := signer_bitmap t;
           st_signed_stake_bps := signed_stake_bps t;
           st_submitted := submitted t;
           st_is_expired := is_expired now t;
           st_time_remaining_secs := as_secs <$> time_remaining now' t |})
    <$> tasks !! mkTaskId service_id call_id.

(** [AggregationState::get_for_aggregation] *)
Definition get_for_aggregation (now : Instant) (tasks : AggregationState)
    (svc_id cid : Z) : option TaskForAggregation :=
  task ← tasks !! mkTaskId svc_id cid;
  if negb (threshold_met task) || submitted task || is_expired now task then None
  else
    let '(sigs, pks) := get_signatures_for_aggregation task in
    Some {| fa_service_id := service_id task; fa_call_id := call_id task;
            fa_output := output task; fa_signer_bitmap := signer_bitmap task;
            fa_non_signer_indices := get_non_signers task;
            fa_signatures := sigs; fa_public_keys := pks |}.

(** The two assignments of [mark_submitted]. *)
Definition set_submitted (t : TaskState) (at_ : Instant) : TaskState :=
  {| service_id := service_id t; call_id := call_id t;
     output := output t; message := message t;
     signature_scheme := signature_scheme t;
     operator_count := operator_count t; threshold_type := threshold_type t;
     signer_bitmap := signer_bitmap t;
     signatures := signatures t; public_keys := public_keys t;
     operator_stakes := operator_stakes t; total_stake := total_stake t;
     submitted := true; submitted_at := Some at_;
     created_at := created_at t; expires_at := expires_at t |}.

(** [AggregationState::mark_submitted] *)
Definition mark_submitted (now : Instant) (tasks : AggregationState) (service_id call_id : Z)
    : result string AggregationState :=
  let task_id := mkTaskId service_id call_id in
  task ← ok_or (tasks !! task_id) "Task not found"%string;
  Ok (<[task_id := set_submitted task now]> tasks).

(** [AggregationState::remove_task] *)
Definition remove_task (tasks : AggregationState) (service_id call_id : Z)
    : AggregationState * bool :=
  let task_id := mkTaskId service_id call_id in
  (delete task_id tasks, bool_decide (is_Some (tasks !! task_id))).

(** [AggregationState::cleanup_expired] *)
Definition cleanup_expired (now : TaskId → Instant) (tasks : AggregationState)
    : AggregationState * Z :=
  let kept := retain (λ id task, negb (is_expired (now id) task)) tasks in
  (kept, Z.of_nat (size tasks) - Z.of_nat (size kept)).

(** The grace test shared by the submitted-task cleanups. *)
Definition within_grace (now : Instant) (retention : Duration) (task : TaskState) : bool :=
  match submitted_at task with
  | Some at_ => elapsed now at_ <? retention
  | None => false
  end.

(** [AggregationState::cleanup_submitted_after] *)
Definition cleanup_submitted_after (now : TaskId → Instant) (retention : Duration)
    (tasks : AggregationState) : AggregationState * Z :=
  let kept := retain (λ id task, negb (submitted task) || within_grace (now id) retention task) tasks in
  (kept, Z.of_nat (size tasks) - Z.of_nat (size kept)).

(** [AggregationState::cleanup_submitted] *)
Definition cleanup_submitted (now : TaskId → Instant) (tasks : AggregationState)
    : AggregationState * Z := cleanup_submitted_after now 0 tasks.

(** [AggregationState::cleanup_with_submitted_retention] *)
Definition cleanup_with_submitted_retention (now : TaskId → Instant) (retention : Duration)
    (tasks : AggregationState) : AggregationState * Z :=
  let kept := retain (λ id task,
      if submitted task then within_grace (now id) retention task
      else negb (is_expired (now id) task)) tasks in
  (kept, Z.of_nat (size tasks) - Z.of_nat (size kept)).

(** [AggregationState::cleanup] *)
Definition cleanup (now : TaskId → Instant) (tasks : AggregationState)
    : AggregationState * Z := cleanup_with_submitted_retention now 0 tasks.

(** [AggregationState::task_count] *)
Definition task_count (tasks : AggregationState) : Z := Z.of_nat (size tasks).

(** The body of the loop of [AggregationState::task_counts]. *)
Definition count_task (now : Instant) (task : TaskState) (c : TaskCounts) : TaskCounts :=
  let c := mkTaskCounts (c_total c + 1) (c_pending c) (c_ready c) (c_submitted c) (c_expired c) in
  if is_expired now task then
    mkTaskCounts (c_total c) (c_pending c) (c_ready c) (c_submitted c) (c_expired c + 1)
  else if submitted task then
    mkTaskCounts (c_total c) (c_pending c) (c_ready c) (c_submitted c + 1) (c_expired c)
  else if threshold_met task then
    mkTaskCounts (c_total c) (c_pending c) (c_ready c + 1) (c_submitted c) (c_expired c)
  else
    mkTaskCounts (c_total c) (c_pending c + 1) (c_ready c) (c_submitted c) (c_expired c).

(** [AggregationState::task_counts] *)
Definition task_counts (now : TaskId → Instant) (tasks : AggregationState) : TaskCounts :=
  map_fold (λ id task c, count_task (now id) task c) TaskCounts_default tasks.

(** ** The state machine *)

(** Every stored task is well formed and filed under its own identifier. *)
Definition state_wf (tasks : AggregationState) : Prop :=
  ∀ id t, tasks !! id = Some t → task_wf t ∧ id = mkTaskId (service_id t) (call_id t).

(** One mutating operation on the table.  Arguments of machine-integer type
    are in range; clocks are arbitrary. *)
Inductive agg_step (st st' : AggregationState) : Prop :=
| step_init now sid cid out msg sch n cfg :
    is_u32 n →
    init_task_with_message_config now st sid cid out msg sch n cfg = Ok st' →
    agg_step st st'
| step_submit now now' sid cid i s p r :
    is_u32 i →
    submit_signature now now' st sid cid i s p = Ok (st', r) →
    agg_step st st'
| step_mark now sid cid :
    mark_submitted now st sid cid = Ok st' → agg_step st st'
| step_remove sid cid :
    (remove_task st sid cid).1 = st' → agg_step st st'
| step_cleanup_expired now :
    (cleanup_expired now st).1 = st' → agg_step st st'
| step_cleanup_submitted now retention :
    (cleanup_submitted_after now retention st).1 = st' → agg_step st st'
| step_cleanup_all now retention :
    (cleanup_with_submitted_retention now retention st).1 = st' → agg_step st st'.

Lemma set_submitted_wf t now : task_wf t → task_wf (set_submitted t now).
Proof. intros []. by split. Qed.

Lemma init_cases now st sid cid out msg sch n cfg st' :
  init_task_with_message_config now st sid cid out msg sch n cfg = Ok st' →
  let fresh := with_message_config now sid cid out msg sch n (cfg_threshold_type cfg)
                 (cfg_operator_stakes cfg) (cfg_ttl cfg) in
  (st !! mkTaskId sid cid = None ∧ st' = <[mkTaskId sid cid := fresh]> st) ∨
  (∃ t, st !! mkTaskId sid cid = Some t ∧ same_context t fresh = true ∧ st' = st).
Proof.
  intros H fresh. unfold init_task_with_message_config in H. fold fresh in H.
  destruct (st !! mkTaskId sid cid) as [t|] eqn:E; [|left; by inv_ok].
  destruct (same_context t fresh) eqn:Hs; inv_ok. right. by exists t.
Qed.

Lemma submit_cases now now' st sid cid i s p st' r :
  submit_signature now now' st sid cid i s p = Ok (st', r) →
  ∃ t t', st !! mkTaskId sid cid = Some t ∧ submitted t = false ∧
    is_expired now t = false ∧ add_signature now' t i s p = Ok t' ∧
    st' = <[mkTaskId sid cid := t']> st ∧ r = (signature_count t', threshold_met t').
Proof.
  unfold submit_signature. intros H.
  destruct (st !! mkTaskId sid cid) as [t|] eqn:E; simpl in H; [|done].
  destruct (submitted t) eqn:Hs; [done|]. destruct (is_expired now t) eqn:He; [done|].
  destruct (add_signature now' t i s p) as [t'|] eqn:Ha; simpl in H; [|done].
  inv_ok. simplify_eq. by exists t, t'.
Qed.

Lemma mark_cases now st sid cid st' :
  mark_submitted now st sid cid = Ok st' →
  ∃ t, st !! mkTaskId sid cid = Some t ∧ st' = <[mkTaskId sid cid := set_submitted t now]> st.
Proof.
  unfold mark_submitted. intros H.
  destruct (st !! mkTaskId sid cid) as [t|] eqn:E; simpl in H; [|done]. inv_ok. by exists t.
Qed.

(** What may happen to one entry of the table in one step. *)
Inductive entry_step (id : TaskId) : option TaskState → option TaskState → Prop :=
| entry_same o : entry_step id o o
| entry_gone o : entry_step id o None
| entry_new t :
    task_wf t → id = mkTaskId (service_id t) (call_id t) → signatures t = ∅ →
    entry_step id None (Some t)
| entry_signed now t i s p t' :
    is_u32 i → submitted t = false → add_signature now t i s p = Ok t' →
    entry_step id (Some t) (Some t')
| entry_marked now t : entry_step id (Some t) (Some (set_submitted t now)).

Lemma retain_entry (f : TaskId → TaskState → bool) (st : AggregationState) id :
  entry_step id (st !! id) (retain f st !! id).
Proof.
  rewrite retain_lookup. destruct (st !! id) as [t|]; simpl; [|constructor].
  destruct (f id t); constructor.
Qed.

Lemma step_entry st st' id : agg_step st st' → entry_step id (st !! id) (st' !! id).
Proof.
  intros Hs. destruct Hs as [now sid cid out msg sch n cfg Hn H | now now' sid cid i s p r Hi H
                            |now sid cid H|sid cid H|now H|now r H|now r H].
  - apply init_cases in H as [[Hnone ->]|(t & _ & _ & ->)]; [|constructor].
    destruct (decide (id = mkTaskId sid cid)) as [->|Hne].
    + rewrite lookup_insert_eq, Hnone. apply entry_new; try done.
      * by apply with_message_config_wf.
      * unfold with_message_config. by destruct (cfg_operator_stakes cfg).
      * unfold with_message_config. by destruct (cfg_operator_stakes cfg).
    + rewrite lookup_insert_ne by done. constructor.
  - apply submit_cases in H as (t & t' & Ht & Hs & _ & Ha & -> & _).
    destruct (decide (id = mkTaskId sid cid)) as [->|Hne].
    + rewrite lookup_insert_eq, Ht. by eapply entry_signed.
    + rewrite lookup_insert_ne by done. constructor.
  - apply mark_cases in H as (t & Ht & ->).
    destruct (decide (id = mkTaskId sid cid)) as [->|Hne].
    + rewrite lookup_insert_eq, Ht. constructor.
    + rewrite lookup_insert_ne by done. constructor.
  - subst st'. simpl. destruct (decide (id = mkTaskId sid cid)) as [->|Hne].
    + rewrite lookup_delete_eq. constructor.
    + rewrite lookup_delete_ne by done. constructor.
  - subst st'. apply retain_entry.
  - subst st'. apply retain_entry.
  - subst st'. apply retain_entry.
Qed.

Lemma add_signature_ids now t i s p t' :
  add_signature now t i s p = Ok t' → service_id t' = service_id t ∧ call_id t' = call_id t.
Proof. by intros (_ & _ & _ & ->)%add_signature_Ok_inv. Qed.

Lemma agg_step_wf st st' : state_wf st → agg_step st st' → state_wf st'.
Proof.
  intros Hwf Hs id t' Ht'. pose proof (step_entry _ _ id Hs) as He. rewrite Ht' in He.
  inversion He as [o E1 E2 | |t Hw Hid _ E1 E2|now t i s p t1 Hi _ Ha E1 E2|now t E1 E2]; subst.
  - by apply Hwf.
  - done.
  - destruct (Hwf id t) as [Hw ->]; [done|].
    destruct (add_signature_ids _ _ _ _ _ _ Ha) as [-> ->].
    split; [|done]. by eapply add_signature_wf; [apply Hi|..].
  - destruct (Hwf id t) as [Hw ->]; [done|]. split; [by apply set_submitted_wf|done].
Qed.

(** How a stored task changes over time: its context is fixed, its signers only
    grow, and once it is submitted nothing is added to it. *)
Record task_evolves (t t' : TaskState) : Prop := {
  ev_context : same_context t t' = true;
  ev_stake : total_stake t' = total_stake t;
  ev_expires : expires_at t' = expires_at t;
  ev_created : created_at t' = created_at t;
  ev_signers : dom (signatures t) ⊆ dom (signatures t');
  ev_values : operator_count t ≤ 256 → signatures t ⊆ signatures t';
  ev_submitted :
    submitted t = true →
    submitted t' = true ∧ signatures t' = signatures t ∧ public_keys t' = public_keys t ∧
    signer_bitmap t' = signer_bitmap t;
}.

Lemma same_context_spec t t' :
  same_context t t' = true ↔
  output t = output t' ∧ message t = message t' ∧ signature_scheme t = signature_scheme t' ∧
  operator_count t = operator_count t' ∧ threshold_type t = threshold_type t' ∧
  operator_stakes t = operator_stakes t'.
Proof. unfold same_context. rewrite !andb_true_iff, !bool_decide_eq_true. tauto. Qed.

#[export] Instance task_evolves_refl : Reflexive task_evolves.
Proof. intros t. split; try done. by apply same_context_spec. Qed.

#[export] Instance task_evolves_trans : Transitive task_evolves.
Proof.
  intros t1 t2 t3 [C1 S1 E1 R1 D1 V1 B1] [C2 S2 E2 R2 D2 V2 B2].
  rewrite same_context_spec in *. split; try congruence.
  - rewrite same_context_spec. naive_solver congruence.
  - set_solver.
  - intros Hn. transitivity (signatures t2); [by apply V1|]. apply V2.
    destruct C1 as (_ & _ & _ & <- & _). done.
  - intros Hsub. destruct (B1 Hsub) as (Hs2 & <- & <- & <-). by apply B2.
Qed.

Lemma entry_evolves id t t' :
  task_wf t → entry_step id (Some t) (Some t') → task_evolves t t'.
Proof.
  intros Hwf He. inversion He as [o E1 E2| | |now t0 i s p t1 Hi Hs Ha E1 E2|now t0 E1 E2]; subst.
  - done.
  - apply add_signature_Ok_inv in Ha as (Hlt & Hns & _ & ->).
    split; simpl; try done; try congruence.
    + by apply same_context_spec.
    + rewrite dom_insert_L. set_solver.
    + intros Hn. apply insert_subseteq. apply not_elem_of_dom.
      destruct Hi as [Hi _]. rewrite has_signed_wf in Hns by (done || lia).
      by apply bool_decide_eq_false in Hns.
  - split; simpl; try done. by apply same_context_spec.
Qed.

(** Steps that keep the entry [id]. *)
Definition kept_step (id : TaskId) (st st' : AggregationState) : Prop :=
  agg_step st st' ∧ is_Some (st' !! id).

Lemma history_evolves id st st' t :
  state_wf st → st !! id = Some t → rtc (kept_step id) st st' →
  state_wf st' ∧ ∃ t', st' !! id = Some t' ∧ task_evolves t t'.
Proof.
  intros Hwf Ht Hr. revert t Hwf Ht.
  induction Hr as [st|st st1 st2 [Hstep [t1 Ht1]] _ IH]; intros t Hwf Ht.
  { split; [done|]. exists t. by split. }
  pose proof (agg_step_wf _ _ Hwf Hstep) as Hwf1.
  destruct (IH t1 Hwf1 Ht1) as (Hwf2 & t2 & Ht2 & He). split; [done|].
  exists t2. split; [done|]. transitivity t1; [|done].
  eapply entry_evolves; [by apply (Hwf id)|].
  rewrite <-Ht, <-Ht1. by apply step_entry.
Qed.

(** ** Correctness *)

(** C37. Whatever sequence of operations built the table, every task in it is well
    formed and is stored under its own service and call. *)
Theorem agg_reachable_wf st : rtc agg_step ∅ st → state_wf st.
Proof.
  intros Hr. assert (state_wf (∅ : AggregationState)) as H0.
  { intros id t. by rewrite lookup_empty. }
  induction Hr; eauto using agg_step_wf.
Qed.

(** Over any run in which a task is kept, its context never changes, signatures
    are never lost or replaced, and a submitted task is frozen. *)
Theorem task_history id st st' t :
  state_wf st → st !! id = Some t → rtc (kept_step id) st st' →
  ∃ t', st' !! id = Some t' ∧ task_evolves t t'.
Proof. intros Hwf Ht Hr. by eapply history_evolves. Qed.

(** Initialisation may be retried: after it succeeded, and after any later
    operations that keep the task, the same request succeeds again and changes
    nothing. *)
Theorem init_retry_safe now now2 st st1 st2 sid cid out msg sch n cfg :
  state_wf st → is_u32 n →
  init_task_with_message_config now st sid cid out msg sch n cfg = Ok st1 →
  rtc (kept_step (mkTaskId sid cid)) st1 st2 →
  init_task_with_message_config now2 st2 sid cid out msg sch n cfg = Ok st2.
Proof.
  intros Hwf Hn Hinit Hr.
  assert (state_wf st1) as Hwf1 by (by eapply agg_step_wf, step_init).
  assert (∃ t, st1 !! mkTaskId sid cid = Some t ∧
     same_context t (with_message_config now2 sid cid out msg sch n (cfg_threshold_type cfg)
                       (cfg_operator_stakes cfg) (cfg_ttl cfg)) = true) as (t & Ht & Hc).
  { apply init_cases in Hinit as [[_ ->]|(t & Ht & Hc & ->)].
    - eexists. rewrite lookup_insert_eq. split; [done|]. apply same_context_spec.
      unfold with_message_config. by destruct (cfg_operator_stakes cfg).
    - exists t. split; [done|]. rewrite same_context_spec in *. revert Hc.
      unfold with_message_config. by destruct (cfg_operator_stakes cfg). }
  destruct (history_evolves _ _ _ _ Hwf1 Ht Hr) as (_ & t' & Ht' & He).
  unfold init_task_with_message_config. rewrite Ht'.
  apply ev_context in He. rewrite same_context_spec in *.
  rewrite (proj2 (same_context_spec _ _)); [done|]. naive_solver congruence.
Qed.

(** A task is handed out for aggregation exactly when its threshold is met and
    it is neither submitted nor expired; it then carries one signature and one
    key per counted signer, and the operators left out are the rest. *)
Theorem get_for_aggregation_correct now st sid cid :
  state_wf st →
  match get_for_aggregation now st sid cid with
  | Some r => ∃ t,
      st !! mkTaskId sid cid = Some t ∧ threshold_met t = true ∧ submitted t = false ∧
      is_expired now t = false ∧ fa_service_id r = sid ∧ fa_call_id r = cid ∧
      fa_output r = output t ∧ fa_signer_bitmap r = signer_bitmap t ∧
      Z.of_nat (length (fa_signatures r)) = signature_count t ∧
      Z.of_nat (length (fa_public_keys r)) = signature_count t ∧
      (operator_count t ≤ 256 →
       Z.of_nat (length (fa_non_signer_indices r)) = operator_count t - signature_count t)
  | None => ∀ t, st !! mkTaskId sid cid = Some t →
      threshold_met t = false ∨ submitted t = true ∨ is_expired now t = true
  end.
Proof.
  intros Hwf. unfold get_for_aggregation.
  destruct (st !! mkTaskId sid cid) as [t|] eqn:E; simpl; [|done].
  destruct (Hwf _ _ E) as [Ht [= Hsid Hcid]].
  destruct (negb (threshold_met t) || submitted t || is_expired now t) eqn:Hb.
  { intros ? [= <-]. rewrite !orb_true_iff, negb_true_iff in Hb. tauto. }
  to_prop. rewrite aggregation_inputs by done. exists t. simpl.
  rewrite !omap_total_length.
  - rewrite get_signers_perm, keys_length. split_and!; try done.
    intros Hn. pose proof (wf_count _ Ht) as [Hc _].
    pose proof (non_signers_length t Ht Hn). lia.
  - intros i Hi. rewrite get_signers_perm, elem_of_keys in Hi.
    apply elem_of_dom. rewrite (wf_pair _ Ht). by apply elem_of_dom.
  - intros i. by rewrite get_signers_perm, elem_of_keys.
Qed.

(** Cleanup reports how many tasks it dropped, never touches a task that is
    still collecting signatures, and keeps a submitted task for its grace
    period. *)
Theorem cleanup_correct now retention st :
  let '(st', removed) := cleanup_with_submitted_retention now retention st in
  removed = Z.of_nat (size st) - Z.of_nat (size st') ∧ 0 ≤ removed ∧
  (∀ id t, st' !! id = Some t → st !! id = Some t) ∧
  (∀ id t, st !! id = Some t →
     (st' !! id = Some t ↔
      (submitted t = false ∧ is_expired (now id) t = false) ∨
      (submitted t = true ∧ ∃ at_, submitted_at t = Some at_ ∧ elapsed (now id) at_ < retention))).
Proof.
  unfold cleanup_with_submitted_retention. set (f := λ id task, if submitted task then _ else _).
  pose proof (retain_size_le f st). split_and!; [done|lia| |].
  - intros id t. rewrite retain_lookup_Some. tauto.
  - intros id t Ht. rewrite retain_lookup_Some. unfold f, within_grace.
    destruct (submitted t).
    + destruct (submitted_at t) as [at_|]; [|naive_solver].
      rewrite Z.ltb_lt. naive_solver.
    + rewrite negb_true_iff. naive_solver.
Qed.

(** Tasks that [get_for_aggregation] would return at that reading of the clock. *)
Definition ready (now : Instant) (t : TaskState) : bool :=
  negb (is_expired now t) && negb (submitted t) && threshold_met t.

(** The statistics partition the table, and the ready count is the number of
    tasks that can be aggregated. *)
Theorem task_counts_correct now st :
  let c := task_counts now st in
  c_total c = task_count st ∧
  c_total c = c_pending c + c_ready c + c_submitted c + c_expired c ∧
  c_ready c = task_count (retain (λ id t, ready (now id) t) st) ∧
  c_expired c = task_count (retain (λ id t, is_expired (now id) t) st).
Proof.
  unfold task_counts, task_count. cbv zeta. induction st as [|id t st Hid Hfst IH] using map_first_key_ind.
  { done. }
  rewrite map_fold_insert_first_key by done.
  rewrite !retain_insert, map_size_insert_None by done.
  destruct IH as (I1 & I2 & I3 & I4).
  set (c := map_fold _ _ _) in *. unfold count_task, ready in *.
  destruct (is_expired (now id) t), (submitted t), (threshold_met t); simpl;
    rewrite ?map_size_insert_None by (rewrite retain_lookup, Hid; done); lia.
Qed.

(** ** Abstract specification: a quorum collector

    A task is a set of signers over a finite operator set, with a quorum
    predicate stated on exact integers; there are no bitmaps, no signature
    maps and no machine arithmetic. *)

Record SpecTask := mkSpecTask {
  sp_operators : Z;
  sp_threshold : ThresholdType;
  sp_stakes : gmap Z Z;
  sp_deadline : option Instant;
  sp_signers : gset Z;
  sp_closed : bool;
}.

Definition spec_stake (sp : SpecTask) (X : gset Z) : Z :=
  sumZ ((λ i, default 0 (sp_stakes sp !! i)) <$> elements X).

Definition quorum (sp : SpecTask) : bool :=
  match sp_threshold sp with
  | Count n => n <=? Z.of_nat (size (sp_signers sp))
  | StakeWeighted bps =>
      let total := sumZ (values (sp_stakes sp)) in
      if total =? 0 then bps <=? 0
      else bps * total <=? spec_stake sp (sp_signers sp) * 10000
  end.

Definition spec_sign (sp : SpecTask) (i : Z) : SpecTask :=
  mkSpecTask (sp_operators sp) (sp_threshold sp) (sp_stakes sp) (sp_deadline sp)
    ({[i]} ∪ sp_signers sp) (sp_closed sp).

Definition spec_submit (now : Instant) (spec : gmap TaskId SpecTask) (id : TaskId) (i : Z)
    : result string (gmap TaskId SpecTask * (Z * bool)) :=
  sp ← ok_or (spec !! id) "Task not found"%string;
  if sp_closed sp then Err "Task already submitted to chain"
  else if (match sp_deadline sp with Some e => e <? now | None => false end)
  then Err "Task has expired"
  else if sp_operators sp <=? i then Err "Operator index out of bounds"
  else if bool_decide (i ∈ sp_signers sp) then Err "Operator already signed"
  else let sp' := spec_sign sp i in
       Ok (<[id := sp']> spec, (Z.of_nat (size (sp_signers sp')), quorum sp')).

Definition abs_task (t : TaskState) : SpecTask :=
  mkSpecTask (operator_count t) (threshold_type t) (operator_stakes t) (expires_at t)
    (dom (signatures t)) (submitted t).

Definition abs_state (st : AggregationState) : gmap TaskId SpecTask := abs_task <$> st.

Definition abs_result (r : AggregationState * (Z * bool)) : gmap TaskId SpecTask * (Z * bool) :=
  (abs_state r.1, r.2).

(** The tasks the 256-bit bitmap and the 64-bit stake arithmetic can represent. *)
Definition task_small (t : TaskState) : Prop := operator_count t ≤ 256 ∧ stakes_fit t.

Lemma threshold_met_quorum t : task_wf t → stakes_fit t → threshold_met t = quorum (abs_task t).
Proof.
  intros Hwf Hfit. unfold threshold_met, quorum, signature_count. simpl.
  destruct (threshold_type t) as [n|bps]; [by rewrite size_dom|].
  rewrite <-total_stake_exact by done.
  destruct (total_stake t =? 0) eqn:Hz; to_prop.
  { unfold signed_stake_bps. by rewrite Hz. }
  rewrite (proj1 (signed_stake_bps_exact t Hwf Hfit Hz)).
  apply eq_bool_prop_intro. rewrite !Is_true_true, !Z.leb_le.
  assert (0 < total_stake t).
  { pose proof (stake_total_bound t [] Hfit ltac:(constructor)) as H. cbn in H.
    rewrite total_stake_exact in * by done. lia. }
  rewrite div_ge_iff by done. unfold spec_stake, stake_total. simpl.
  by rewrite <-keys_elements_dom.
Qed.

(** C13. Submitting a signature to a well-formed table implements submitting it to
    the quorum collector: same verdict, same error, same count and quorum flag,
    and the tables stay related.  The code reads the clock twice; the collector
    reads it once, at one of the two times.  The task, if there is one, has at
    most 256 operators and stakes whose total times 10000 fits 64 bits
    ([task_small]): beyond that the code does not refine the collector
    ([wide_index_resigns], [stake_wrap_unsafe]). *)
Theorem submit_signature_refines now now' st sid cid i s p :
  state_wf st → is_u32 i →
  (∀ t, st !! mkTaskId sid cid = Some t → task_small t) →
  ∃ time, (time = now ∨ time = now') ∧
    abs_result <$> submit_signature now now' st sid cid i s p
    = spec_submit time (abs_state st) (mkTaskId sid cid) i.
Proof.
  intros Hwf Hi Hsmall. unfold submit_signature, spec_submit, abs_state.
  setoid_rewrite lookup_fmap.
  destruct (st !! mkTaskId sid cid) as [t|] eqn:E; simpl; [|by eauto].
  destruct (Hwf _ _ E) as [Ht _]. destruct (Hsmall t eq_refl) as [Hn Hfit].
  destruct (submitted t); [by eauto|]. change (∃ time, (time = now ∨ time = now') ∧
    abs_result <$> (if is_expired now t then Err "Task has expired"%string else
      task' ← add_signature now' t i s p; Ok (<[mkTaskId sid cid := task']> st, (signature_count task', threshold_met task')))
    = if is_expired time t then Err "Task has expired"%string else
      if operator_count t <=? i then Err "Operator index out of bounds"%string
      else if bool_decide (i ∈ dom (signatures t)) then Err "Operator already signed"%string
      else Ok (<[mkTaskId sid cid := spec_sign (abs_task t) i]> (abs_task <$> st),
        (Z.of_nat (size ({[i]} ∪ dom (signatures t))), quorum (spec_sign (abs_task t) i)))).
  destruct (is_expired now t) eqn:He; [exists now; rewrite He; by eauto|].
  unfold add_signature. destruct (operator_count t <=? i) eqn:Hc; [exists now; rewrite He; by eauto|]. to_prop.
  rewrite has_signed_wf by (done || (destruct Hi; lia)).
  case_bool_decide as Hd; [exists now; rewrite He; by eauto|].
  destruct (is_expired now' t) eqn:He'; [exists now'; rewrite He'; by eauto|].
  exists now. rewrite He. split; [by left|]. simpl.
  set (t' := record_signature t i s p).
  assert (abs_task t' = spec_sign (abs_task t) i) as <-.
  { unfold abs_task, spec_sign. simpl. by rewrite dom_insert_L. }
  unfold abs_result, abs_state. simpl. rewrite fmap_insert, threshold_met_quorum.
  - assert (size ({[i]} ∪ dom (signatures t)) = size (signatures t')) as ->; [|done].
    by rewrite <-(dom_insert_L (signatures t) i s), size_dom.
  - apply record_signature_wf; [done|]. destruct Hi; lia.
  - done.
Qed.

End agg_state.

(** ** Concrete runs *)

Definition demo_state : gmap TaskId (TaskState (B := toy_bn254)) :=
  {[ mkTaskId 1 100 := demo_task ]}.

Lemma demo_state_wf : state_wf (B := toy_bn254) demo_state.
Proof.
  intros id t. unfold demo_state. rewrite lookup_singleton_Some. intros [<- <-].
  split; [apply demo_task_wf|done].
Qed.

Definition demo_cfg : TaskConfig :=
  mkTaskConfig (StakeWeighted 6700) (Some demo_stakes) (Some (from_secs 60)).

Definition demo_init (now : Instant) (st : gmap TaskId (TaskState (B := toy_bn254))) :=
  init_task_with_message_config (B := toy_bn254) now st 1 100 [1; 2; 3] [1; 2; 3]
    ArkworksSha256 3 demo_cfg.

Definition demo_init_state : gmap TaskId (TaskState (B := toy_bn254)) :=
  default ∅ (result_ok (demo_init 0 ∅)).

Definition demo_signed_state : gmap TaskId (TaskState (B := toy_bn254)) :=
  match submit_signature (B := toy_bn254) 5 6 demo_init_state 1 100 0 7 17 with
  | Ok (st, _) => st | Err _ => ∅ end.

Lemma demo_step : kept_step (B := toy_bn254) (mkTaskId 1 100) demo_init_state demo_signed_state.
Proof.
  split; [|by vm_compute; eexists].
  eapply (step_submit (B := toy_bn254) _ _ 5 6 1 100 0 7 17 (1, false)); [done|]. by vm_compute.
Qed.

Lemma demo_init_wf : state_wf (B := toy_bn254) demo_init_state.
Proof.
  apply (agg_step_wf ∅); [by intros id t; rewrite lookup_empty|].
  by apply (step_init (B := toy_bn254) _ _ 0 1 100 [1; 2; 3] [1; 2; 3] ArkworksSha256 3 demo_cfg).
Qed.

Lemma agg_reachable_wf_witness : state_wf (B := toy_bn254) demo_signed_state.
Proof.
  apply (agg_reachable_wf (B := toy_bn254)).
  eapply rtc_l; [|apply rtc_once, demo_step].
  by apply (step_init (B := toy_bn254) _ _ 0 1 100 [1; 2; 3] [1; 2; 3] ArkworksSha256 3 demo_cfg).
Defined.

Lemma task_history_witness :
  ∃ t', demo_signed_state !! mkTaskId 1 100 = Some t' ∧
    task_evolves (B := toy_bn254)
      (with_message_config (B := toy_bn254) 0 1 100 [1; 2; 3] [1; 2; 3] ArkworksSha256 3
         (StakeWeighted 6700) (Some demo_stakes) (Some (from_secs 60))) t'.
Proof.
  apply (task_history (B := toy_bn254) (mkTaskId 1 100) demo_init_state).
  - apply demo_init_wf.
  - done.
  - apply rtc_once, demo_step.
Defined.

Lemma init_retry_safe_witness : demo_init 9 demo_signed_state = Ok demo_signed_state.
Proof.
  apply (init_retry_safe (B := toy_bn254) 0 9 ∅ demo_init_state).
  - intros id t. by rewrite lookup_empty.
  - done.
  - done.
  - apply rtc_once, demo_step.
Defined.

Lemma get_for_aggregation_correct_witness :
  ∃ r t, get_for_aggregation (B := toy_bn254) 5 demo_state 1 100 = Some r ∧
    demo_state !! mkTaskId 1 100 = Some t ∧
    Z.of_nat (length (fa_signatures (B := toy_bn254) r)) = signature_count (B := toy_bn254) t.
Proof.
  pose proof (get_for_aggregation_correct (B := toy_bn254) 5 demo_state 1 100 demo_state_wf) as H.
  destruct (get_for_aggregation _ _ _ _) as [r|] eqn:E; [|by vm_compute in E].
  destruct H as (t & Ht & _ & _ & _ & _ & _ & _ & _ & Hl & _). by exists r, t.
Defined.

Lemma submit_signature_refines_witness :
  ∃ time, (time = 5 ∨ time = 7) ∧
    abs_result (B := toy_bn254) <$> submit_signature (B := toy_bn254) 5 7 demo_state 1 100 2 9 19
    = spec_submit time (abs_state (B := toy_bn254) demo_state) (mkTaskId 1 100) 2.
Proof.
  apply (submit_signature_refines (B := toy_bn254) 5 7 demo_state 1 100 2 9 19).
  - apply demo_state_wf.
  - done.
  - intros t. unfold demo_state. rewrite lookup_singleton_eq. intros [= <-].
    split; [done|apply demo_stakes_fit].
Defined.
