(* ===== verification/AggPersist.v ===== *)
(** * Persisted task states

    Models the conversions of
    [src/crates/tangle-aggregation-svc/src/persistence.rs] between [TaskState]
    and [PersistedTaskState], and [AggregationState::snapshot] and [restore] of
    [state.rs].  Hexadecimal text and the [U256] text formats come from the
    [hex] and [ruint] crates and are parameters with their documented laws.
    A monotonic instant is converted to wall-clock milliseconds through a pair
    of readings ([Instant::now], [SystemTime::now]), and every such pair is an
    argument. *)

From S2P Require Import Prelude Bn254 AggTask AggState.
From Stdlib Require Import ZArith Lia Ascii.
From stdpp Require Import base gmap sets list sorting strings pretty fin_maps numbers relations.

#[local] Open Scope Z_scope.

(** ** Text encodings of the [hex] and [ruint] crates *)

Class TextCodec := {
  hex_encode : list Byte8 → string;
  hex_decode : string → option (list Byte8);
  (** the digits [format!("{:x}", _)] prints *)
  u256_hex_digits : Z → string;
  (** [U256::from_str_radix(_, 16)] *)
  u256_from_hex : string → option Z;
}.

Class TextCodecLaws (C : TextCodec) : Prop := {
  hex_round_trip bs : hex_decode (hex_encode bs) = Some bs;
  u256_round_trip x : 0 ≤ x < 2 ^ 256 → u256_from_hex (u256_hex_digits x) = Some x;
}.

(** [str::strip_prefix("0x").unwrap_or(s)] *)
Definition strip_0x (s : string) : string :=
  match s with
  | String "0"%char (String "x"%char rest) => rest
  | _ => s
  end.

(** ** Errors *)

(** Messages the program formats are written out; the text of an error that
    comes from a library is represented by a short tag. *)
Inductive PersistenceError :=
| Io (msg : string)
| Serialization (msg : string)
| NotFound (id : TaskId)
| Backend (msg : string).

(** The [Display] text derived by [thiserror]. *)
Definition display_persistence_error (e : PersistenceError) : string :=
  match e with
  | Io msg => "IO error: " +:+ msg
  | Serialization msg => "Serialization error: " +:+ msg
  | NotFound id =>
      "Task not found: TaskId { service_id: " +:+ pretty (tid_service_id id) +:+
      ", call_id: " +:+ pretty (tid_call_id id) +:+ " }"
  | Backend msg => "Backend error: " +:+ msg
  end.

(** [missing_entry] *)
Definition missing_entry (kind : string) (index : Z) : PersistenceError :=
  Serialization ("missing " +:+ kind +:+ " for operator " +:+ pretty index).

(** The prefix of the messages about one task. *)
Definition task_text (sid cid : Z) : string :=
  "task " +:+ pretty sid +:+ ":" +:+ pretty cid.

(** ** Clocks *)

(** One pair of readings of the monotonic and the wall clock. *)
Record Clock := mkClock { mono : Instant; wall_ms : Z }.

(** The instants the platform can represent: [i64] seconds. *)
Definition instant_repr (i : Instant) : bool :=
  (- 2 ^ 63 * 1000000000 <=? i) && (i <? 2 ^ 63 * 1000000000).

Definition instant_checked (i : Instant) : option Instant :=
  if instant_repr i then Some i else None.

(** [instant_to_millis] *)
Definition instant_to_millis (c : Clock) (instant : Instant) : Z :=
  if mono c <=? instant then
    u64_sat_add (wall_ms c) (u64_wrap (as_millis (instant - mono c)))
  else u64_sat_sub (wall_ms c) (u64_wrap (as_millis (mono c - instant))).

(** [millis_to_instant] *)
Definition millis_to_instant (c : Clock) (timestamp_ms : Z) : Instant :=
  if wall_ms c <=? timestamp_ms then
    default (mono c) (instant_checked (mono c + from_millis (timestamp_ms - wall_ms c)))
  else
    default (mono c) (instant_checked (mono c - from_millis (wall_ms c - timestamp_ms))).

(** The readings taken by one conversion in either direction. *)
Record Clocks := mkClocks {
  ck_new : Instant;        (** [with_message_config] *)
  ck_add : Instant;        (** [add_signature] *)
  ck_submitted : Clock;
  ck_fallback : Instant;   (** [Instant::now()] for a missing submission time *)
  ck_created : Clock;
  ck_expires : Clock;
}.

(** ** Data *)

Inductive PersistedThresholdType :=
| PCount (n : Z)
| PStakeWeighted (n : Z).

Definition persist_threshold (t : ThresholdType) : PersistedThresholdType :=
  match t with Count n => PCount n | StakeWeighted n => PStakeWeighted n end.

Definition restore_threshold (t : PersistedThresholdType) : ThresholdType :=
  match t with PCount n => Count n | PStakeWeighted n => StakeWeighted n end.

Record PersistedTaskState := mkPersisted {
  p_service_id : Z;
  p_call_id : Z;
  p_output : list Byte8;
  p_message : list Byte8;
  p_signature_scheme : Bn254SignatureScheme;
  p_operator_count : Z;
  p_threshold_type : PersistedThresholdType;
  p_signer_bitmap : string;
  p_signatures : gmap Z string;
  p_public_keys : gmap Z string;
  p_operator_stakes : gmap Z Z;
  p_total_stake : Z;
  p_submitted : bool;
  p_submitted_at_ms : option Z;
  p_created_at_ms : Z;
  p_expires_at_ms : option Z;
}.

Section persist.
  Context {B : Bn254} {C : TextCodec}.

Abbreviation AggregationState := (gmap TaskId TaskState).

(** ** Points and words *)

(** [encode_point], on a signature and on a public key *)
Definition encode_signature (s : Sig) : result PersistenceError string :=
  match g1_serialize s with
  | Some bs => Ok ("0x" +:+ hex_encode bs)
  | None => Err (Serialization "serialize")
  end.

Definition encode_public_key (p : Pk) : result PersistenceError string :=
  match g2_serialize p with
  | Some bs => Ok ("0x" +:+ hex_encode bs)
  | None => Err (Serialization "serialize")
  end.

(** [decode_bytes] *)
Definition decode_bytes (value : string) : result PersistenceError (list Byte8) :=
  ok_or (hex_decode (strip_0x value)) (Serialization "hex").

(** [decode_signature] *)
Definition decode_signature (value : string) : result PersistenceError Sig :=
  bs ← decode_bytes value; ok_or (g1_deserialize bs) (Serialization "deserialize").

(** [decode_public_key] *)
Definition decode_public_key (value : string) : result PersistenceError Pk :=
  bs ← decode_bytes value; ok_or (g2_deserialize bs) (Serialization "deserialize").

(** [parse_u256] *)
Definition parse_u256 (value : string) : result PersistenceError Z :=
  ok_or (u256_from_hex (strip_0x value)) (Serialization "radix").

(** ** [TryFrom<&TaskState> for PersistedTaskState] *)
Definition persist_task_state (k : Clocks) (task : TaskState)
    : result PersistenceError PersistedTaskState :=
  sigs ← map_traverse encode_signature (signatures task);
  pks ← map_traverse encode_public_key (public_keys task);
  Ok {| p_service_id := service_id task;
        p_call_id := call_id task;
        p_output := output task;
        p_message := message task;
        p_signature_scheme := signature_scheme task;
        p_operator_count := operator_count task;
        p_threshold_type := persist_threshold (threshold_type task);
        p_signer_bitmap := "0x" +:+ u256_hex_digits (signer_bitmap task);
        p_signatures := sigs;
        p_public_keys := pks;
        p_operator_stakes := operator_stakes task;
        p_total_stake := total_stake task;
        p_submitted := submitted task;
        p_submitted_at_ms := instant_to_millis (ck_submitted k) <$> submitted_at task;
        p_created_at_ms := instant_to_millis (ck_created k) (created_at task);
        p_expires_at_ms := instant_to_millis (ck_expires k) <$> expires_at task |}.

(** The loop of [TryFrom<PersistedTaskState>] that replays the signatures. *)
Definition replay_signature (k : Clocks) (persisted : PersistedTaskState)
    (task : TaskState) (index : Z) : result PersistenceError TaskState :=
  sig_text ← ok_or (p_signatures persisted !! index) (missing_entry "signature" index);
  signature ← decode_signature sig_text;
  pk_text ← ok_or (p_public_keys persisted !! index) (missing_entry "public key" index);
  public_key ← decode_public_key pk_text;
  map_err Serialization (add_signature (ck_add k) task index signature public_key).

(** The assignments that end [TryFrom<PersistedTaskState>]. *)
Definition restore_times (k : Clocks) (persisted : PersistedTaskState) (task : TaskState)
    : TaskState :=
  {| service_id := service_id task; call_id := call_id task;
     output := output task; message := message task;
     signature_scheme := signature_scheme task;
     operator_count := operator_count task; threshold_type := threshold_type task;
     signer_bitmap := signer_bitmap task;
     signatures := signatures task; public_keys := public_keys task;
     operator_stakes := operator_stakes task; total_stake := total_stake task;
     submitted := p_submitted persisted;
     submitted_at :=
       match p_submitted_at_ms persisted with
       | Some ms => Some (millis_to_instant (ck_submitted k) ms)
       | None => if p_submitted persisted then Some (ck_fallback k) else None
       end;
     created_at := millis_to_instant (ck_created k) (p_created_at_ms persisted);
     expires_at := millis_to_instant (ck_expires k) <$> p_expires_at_ms persisted |}.

(** ** [TryFrom<PersistedTaskState> for TaskState] *)
Definition restore_task_state (k : Clocks) (persisted : PersistedTaskState)
    : result PersistenceError TaskState :=
  bitmap ← parse_u256 (p_signer_bitmap persisted);
  let task :=
    with_message_config (ck_new k) (p_service_id persisted) (p_call_id persisted)
      (p_output persisted) (p_message persisted) (p_signature_scheme persisted)
      (p_operator_count persisted) (restore_threshold (p_threshold_type persisted))
      (Some (p_operator_stakes persisted)) None in
  if negb (total_stake task =? p_total_stake persisted) then
    Err (Serialization (task_text (service_id task) (call_id task) +:+ " has inconsistent total stake"))
  else if negb (bool_decide (size (p_signatures persisted) = size (p_public_keys persisted))) then
    Err (Serialization (task_text (service_id task) (call_id task) +:+
      " has an incomplete signature/public-key pair"))
  else
    let indices := merge_sort Z.le (keys (p_signatures persisted)) in
    task ← try_fold (replay_signature k persisted) task indices;
    if negb (signer_bitmap task =? bitmap) then
      Err (Serialization (task_text (service_id task) (call_id task) +:+
        " has an inconsistent signer bitmap"))
    else Ok (restore_times k persisted task).

(** [AggregationState::snapshot] *)
Definition snapshot (k : TaskId → Clocks) (tasks : AggregationState)
    : result PersistenceError (list PersistedTaskState) :=
  traverse (λ p, persist_task_state (k p.1) p.2) (map_to_list tasks).

(** The identifier a persisted task is stored under. *)
Definition persisted_id (p : PersistedTaskState) : TaskId :=
  mkTaskId (p_service_id p) (p_call_id p).

(** The loop of [AggregationState::restore]. *)
Definition restore_one (k : TaskId → Clocks) (recovered : AggregationState)
    (persisted : PersistedTaskState) : result PersistenceError AggregationState :=
  task ← restore_task_state (k (persisted_id persisted)) persisted;
  let task_id := mkTaskId (service_id task) (call_id task) in
  match recovered !! task_id with
  | Some _ =>
      Err (Serialization ("duplicate persisted task " +:+ pretty (tid_service_id task_id) +:+
             "/" +:+ pretty (tid_call_id task_id)))
  | None => Ok (<[task_id := task]> recovered)
  end.

(** [AggregationState::restore]: the new table, or the error that leaves the
    old one in place *)
Definition restore (k : TaskId → Clocks) (persisted : list PersistedTaskState)
    : result PersistenceError AggregationState :=
  try_fold (restore_one k) ∅ persisted.

(** ** Time conversion *)

(** The two clocks advance together: the wall clock is the monotonic clock
    shifted by [off], in whole milliseconds, and both are well inside the
    machine ranges. *)
Definition coherent (off : Z) (c : Clock) : Prop :=
  wall_ms c = (mono c + off) / 1000000 ∧
  0 ≤ mono c + off < 2 ^ 62 * 1000000 ∧ - 2 ^ 62 * 1000000000 ≤ mono c < 2 ^ 62 * 1000000000.

(** An instant after the Unix epoch and in the machine range. *)
Definition plausible (off : Z) (i : Instant) : Prop :=
  0 ≤ i + off < 2 ^ 62 * 1000000 ∧ - 2 ^ 62 * 1000000000 ≤ i < 2 ^ 62 * 1000000000.

Lemma instant_to_millis_exact off c i :
  coherent off c → plausible off i →
  (i + off) / 1000000 - 1 ≤ instant_to_millis c i ≤ (i + off) / 1000000 + 1 ∧
  i + off - 2000000 < instant_to_millis c i * 1000000 < i + off + 1000000.
Proof.
  intros (Hw & Hm & _) [Hi _]. unfold instant_to_millis, as_millis.
  unfold u64_sat_add, u64_sat_sub, u64_max.
  destruct (mono c <=? i) eqn:E; to_prop.
  - rewrite u64_wrap_small by (unfold is_u64; div_lia). rewrite Z.min_l by div_lia. div_lia.
  - rewrite u64_wrap_small by (unfold is_u64; div_lia). rewrite Z.max_r by div_lia. div_lia.
Qed.

Lemma millis_to_instant_exact off c ms :
  coherent off c → -1 ≤ ms ≤ 2 ^ 63 →
  - 2 ^ 62 * 1000000001 ≤ ms * 1000000 - off < 2 ^ 62 * 1000000001 →
  ms * 1000000 ≤ millis_to_instant c ms + off < (ms + 1) * 1000000.
Proof.
  intros (Hw & Hm & Hr) Hms Hoff. unfold millis_to_instant, from_millis, instant_checked.
  destruct (wall_ms c <=? ms) eqn:E; to_prop.
  - assert (instant_repr (mono c + (ms - wall_ms c) * 1000000) = true) as ->; [|simpl; div_lia].
    unfold instant_repr. rewrite andb_true_iff, Z.leb_le, Z.ltb_lt. div_lia.
  - assert (instant_repr (mono c - (wall_ms c - ms) * 1000000) = true) as ->; [|simpl; div_lia].
    unfold instant_repr. rewrite andb_true_iff, Z.leb_le, Z.ltb_lt. div_lia.
Qed.

(** Saving an instant and reading it back, at any later time and in any later
    process, is accurate to two milliseconds. *)
Lemma time_round_trip off c c' i :
  coherent off c → coherent off c' → plausible off i →
  Z.abs (millis_to_instant c' (instant_to_millis c i) - i) < 2000000.
Proof.
  intros Hc Hc' Hi. destruct (instant_to_millis_exact off c i) as [Ha Hb]; [done..|].
  destruct Hi as [Hi1 Hi2].
  pose proof (millis_to_instant_exact off c' (instant_to_millis c i) Hc') as Hd.
  div_lia.
Qed.

(** ** Encodings *)

Lemma strip_0x_prefix s : strip_0x ("0x" +:+ s) = s.
Proof. done. Qed.

Section laws.
  Context {BL : Bn254Laws B} {CL : TextCodecLaws C}.

Lemma encode_signature_total s : ∃ v, encode_signature s = Ok v ∧ decode_signature v = Ok s.
Proof.
  destruct (g1_round_trip s) as (bs & Hs & Hd). unfold encode_signature. rewrite Hs.
  eexists. split; [done|]. unfold decode_signature, decode_bytes.
  rewrite strip_0x_prefix, hex_round_trip. simpl. by rewrite Hd.
Qed.

Lemma encode_public_key_total p : ∃ v, encode_public_key p = Ok v ∧ decode_public_key v = Ok p.
Proof.
  destruct (g2_round_trip p) as (bs & Hs & Hd). unfold encode_public_key. rewrite Hs.
  eexists. split; [done|]. unfold decode_public_key, decode_bytes.
  rewrite strip_0x_prefix, hex_round_trip. simpl. by rewrite Hd.
Qed.

(** The persisted tables decode to the task's. *)
Definition tables_agree (p : PersistedTaskState) (t : TaskState) : Prop :=
  dom (p_signatures p) = dom (signatures t) ∧ dom (p_public_keys p) = dom (public_keys t) ∧
  (∀ i s, signatures t !! i = Some s →
     ∃ v, p_signatures p !! i = Some v ∧ decode_signature v = Ok s) ∧
  (∀ i q, public_keys t !! i = Some q →
     ∃ v, p_public_keys p !! i = Some v ∧ decode_public_key v = Ok q).

(** The record written for a task, given its encoded tables. *)
Definition persisted_with (k : Clocks) (t : TaskState) (sigs pks : gmap Z string) : PersistedTaskState :=
  mkPersisted (service_id t) (call_id t) (output t) (message t) (signature_scheme t)
    (operator_count t) (persist_threshold (threshold_type t))
    ("0x" +:+ u256_hex_digits (signer_bitmap t)) sigs pks
    (operator_stakes t) (total_stake t) (submitted t)
    (instant_to_millis (ck_submitted k) <$> submitted_at t)
    (instant_to_millis (ck_created k) (created_at t))
    (instant_to_millis (ck_expires k) <$> expires_at t).

Lemma persist_total k t :
  ∃ sigs pks, persist_task_state k t = Ok (persisted_with k t sigs pks) ∧
    tables_agree (persisted_with k t sigs pks) t.
Proof.
  unfold persist_task_state.
  destruct (map_traverse_is_Ok encode_signature (signatures t)) as [sigs Hs].
  { intros i s _. destruct (encode_signature_total s) as (v & Hv & _). by exists v. }
  destruct (map_traverse_is_Ok encode_public_key (public_keys t)) as [pks Hp].
  { intros i s _. destruct (encode_public_key_total s) as (v & Hv & _). by exists v. }
  rewrite Hs, Hp. simpl. exists sigs, pks. split; [done|].
  apply map_traverse_Ok in Hs as [Hds Hs], Hp as [Hdp Hp].
  unfold tables_agree. simpl. split_and!; [done..| |].
  - intros i s Hi. destruct (Hs i s Hi) as (v & Hv & Hl). exists v. split; [done|].
    destruct (encode_signature_total s) as (v' & Hv' & Hd). congruence.
  - intros i q Hi. destruct (Hp i q Hi) as (v & Hv & Hl). exists v. split; [done|].
    destruct (encode_public_key_total q) as (v' & Hv' & Hd). congruence.
Qed.

End laws.

(** ** Replaying the signatures *)

(** The task with its signer tables replaced. *)
Definition with_signers (t : TaskState) (bm : Z) (sigs : gmap Z Sig) (pks : gmap Z Pk) : TaskState :=
  {| service_id := service_id t; call_id := call_id t;
     output := output t; message := message t;
     signature_scheme := signature_scheme t;
     operator_count := operator_count t; threshold_type := threshold_type t;
     signer_bitmap := bm; signatures := sigs; public_keys := pks;
     operator_stakes := operator_stakes t; total_stake := total_stake t;
     submitted := submitted t; submitted_at := submitted_at t;
     created_at := created_at t; expires_at := expires_at t |}.

Lemma wf_bitmap_unique t t' :
  task_wf t → task_wf t' → dom (signatures t) = dom (signatures t') →
  signer_bitmap t = signer_bitmap t'.
Proof.
  intros Hwf Hwf' Hd. apply Z.bits_inj'. intros i Hi.
  destruct (decide (i < 256)) as [Hlt|Hge].
  - by rewrite !wf_bits, Hd by (done || lia).
  - rewrite <-!has_signed_testbit by lia. by rewrite !has_signed_high by (done || lia).
Qed.

Lemma replay_one k p t t0 i :
  task_wf t → tables_agree p t → task_wf t0 →
  operator_count t0 = operator_count t → expires_at t0 = None →
  i ∈ dom (signatures t) → (i ∉ dom (signatures t0)) →
  ∃ s q, signatures t !! i = Some s ∧ public_keys t !! i = Some q ∧
    replay_signature k p t0 i = Ok (record_signature t0 i s q).
Proof.
  intros Hwf (_ & _ & Hs & Hp) Hwf0 Hn He Hi Hfresh.
  pose proof (wf_index _ Hwf i Hi) as Hr.
  pose proof Hi as [s Hsi]%elem_of_dom.
  rewrite <-(wf_pair _ Hwf) in Hi. apply elem_of_dom in Hi as [q Hqi].
  destruct (Hs i s Hsi) as (v & Hv & Hdv). destruct (Hp i q Hqi) as (w & Hw & Hdw).
  exists s, q. split_and!; [done..|]. unfold replay_signature.
  rewrite Hv. simpl. rewrite Hdv. simpl. rewrite Hw. simpl. rewrite Hdw. simpl.
  unfold add_signature. rewrite (proj2 (Z.leb_gt _ _)) by lia.
  unfold is_expired. rewrite He.
  assert (has_signed t0 i = false) as ->; [|done].
  destruct (decide (i < 256)); [|by apply has_signed_high; [|lia]].
  rewrite has_signed_wf by (done || lia). by apply bool_decide_eq_false.
Qed.

Lemma replay_all k p t l t0 :
  task_wf t → tables_agree p t → task_wf t0 →
  operator_count t0 = operator_count t → expires_at t0 = None → NoDup l →
  (∀ i, i ∈ l → i ∈ dom (signatures t) ∧ (i ∉ dom (signatures t0))) →
  ∃ t1, try_fold (replay_signature k p) t0 l = Ok t1 ∧ task_wf t1 ∧
    t1 = with_signers t0 (signer_bitmap t1) (signatures t1) (public_keys t1) ∧
    (∀ i, signatures t1 !! i = if decide (i ∈ l) then signatures t !! i else signatures t0 !! i) ∧
    (∀ i, public_keys t1 !! i = if decide (i ∈ l) then public_keys t !! i else public_keys t0 !! i).
Proof.
  intros Hwf Hag. revert t0. induction l as [|j l IH]; intros t0 Hwf0 Hn He Hnd Hl.
  { exists t0. simpl. split_and!; try done. by destruct t0. }
  apply NoDup_cons in Hnd as [Hj Hnd]. destruct (Hl j) as [Hj1 Hj2]; [by left|].
  destruct (replay_one k p t t0 j) as (s & q & Hs & Hq & Hrep); [done..|].
  set (t0' := record_signature t0 j s q) in *.
  destruct (IH t0') as (t1 & Hf & Hw1 & Heq & Hsig & Hpk); try done.
  { apply record_signature_wf; [done|]. rewrite Hn. by apply (wf_index _ Hwf). }
  { intros i Hi. destruct (Hl i) as [? ?]; [by right|]. split; [done|].
    simpl. rewrite dom_insert_L. assert (i ≠ j) by congruence. set_solver. }
  exists t1. cbn [try_fold]. rewrite Hrep. split_and!; [done|done|by rewrite Heq at 1| |].
  - intros i. rewrite Hsig. destruct (decide (i = j)) as [->|Hne].
    + rewrite decide_False, decide_True by (done || by left). simpl. by rewrite lookup_insert_eq.
    + rewrite (decide_ext (i ∈ j :: l) (i ∈ l)) by set_solver.
      simpl. by rewrite lookup_insert_ne.
  - intros i. rewrite Hpk. destruct (decide (i = j)) as [->|Hne].
    + rewrite decide_False, decide_True by (done || by left). simpl. by rewrite lookup_insert_eq.
    + rewrite (decide_ext (i ∈ j :: l) (i ∈ l)) by set_solver.
      simpl. by rewrite lookup_insert_ne.
Qed.

Lemma replay_Ok_inv k p t0 l t1 :
  try_fold (replay_signature k p) t0 l = Ok t1 → task_wf t0 → Forall (λ i, 0 ≤ i) l →
  task_wf t1 ∧ dom (signatures t1) = dom (signatures t0) ∪ list_to_set l ∧
  t1 = with_signers t0 (signer_bitmap t1) (signatures t1) (public_keys t1).
Proof.
  revert t0. induction l as [|i l IH]; intros t0 Hf Hwf Hpos; simpl in Hf.
  { inv_ok. split_and!; [done|set_solver|by destruct t1]. }
  apply Forall_cons in Hpos as [Hi Hpos].
  destruct (replay_signature k p t0 i) as [t0'|] eqn:Hr; simpl in Hf; [|done].
  unfold replay_signature in Hr.
  destruct (p_signatures p !! i) as [sv|]; simpl in Hr; [|done].
  destruct (decode_signature sv) as [s|]; simpl in Hr; [|done].
  destruct (p_public_keys p !! i) as [qv|]; simpl in Hr; [|done].
  destruct (decode_public_key qv) as [q|]; simpl in Hr; [|done].
  destruct (add_signature (ck_add k) t0 i s q) as [t'|] eqn:Ha; simpl in Hr; [|done].
  inv_ok. destruct (IH t0' Hf) as (Hw & Hd & He); [by eapply add_signature_wf|done|].
  apply add_signature_Ok_inv in Ha as (_ & _ & _ & ->).
  split_and!; [done| |by rewrite He at 1].
  rewrite Hd. simpl. rewrite dom_insert_L. set_solver.
Qed.

(** ** Restoring *)

(** The task with its three times replaced. *)
Definition restamp (t : TaskState) (sub : option Instant) (cre : Instant) (exp : option Instant)
    : TaskState :=
  {| service_id := service_id t; call_id := call_id t;
     output := output t; message := message t;
     signature_scheme := signature_scheme t;
     operator_count := operator_count t; threshold_type := threshold_type t;
     signer_bitmap := signer_bitmap t; signatures := signatures t;
     public_keys := public_keys t;
     operator_stakes := operator_stakes t; total_stake := total_stake t;
     submitted := submitted t; submitted_at := sub;
     created_at := cre; expires_at := exp |}.

(** Within two milliseconds. *)
Definition close (a b : Instant) : Prop := Z.abs (b - a) < 2000000.

(** [t'] is [t] after a restart: identical but for the clock conversion. *)
Record task_restored (t t' : TaskState) : Prop := {
  tr_frame : t' = restamp t (submitted_at t') (created_at t') (expires_at t');
  tr_submitted : option_Forall2 close (submitted_at t) (submitted_at t');
  tr_created : close (created_at t) (created_at t');
  tr_expires : option_Forall2 close (expires_at t) (expires_at t');
}.

Definition clocks_coherent (off : Z) (k : Clocks) : Prop :=
  coherent off (ck_submitted k) ∧ coherent off (ck_created k) ∧ coherent off (ck_expires k).

Definition times_plausible (off : Z) (t : TaskState) : Prop :=
  (∀ i, submitted_at t = Some i → plausible off i) ∧ plausible off (created_at t) ∧
  (∀ i, expires_at t = Some i → plausible off i).

(** *** Accuracy of times

    [acc] says whether the clocks are known to run together, at which offset.  If
    they are not, nothing is said about the values of the times, only that each is
    there exactly when it was. *)

(** The error of one conversion to storage and back *)
Definition ROUND : Z := 2000000.

Definition within (acc : option Z) (d : Z) (a b : Instant) : Prop :=
  match acc with Some _ => Z.abs (b - a) ≤ d | None => True end.
Definition clocks_ok (acc : option Z) (k : Clocks) : Prop :=
  match acc with Some off => clocks_coherent off k | None => True end.
Definition times_ok (acc : option Z) (t : TaskState) : Prop :=
  match acc with Some off => times_plausible off t | None => True end.

(** [t'] is [t], its times up to [d] *)
Record task_near (acc : option Z) (d : Z) (t t' : TaskState) : Prop := {
  tn_frame : t' = restamp t (submitted_at t') (created_at t') (expires_at t');
  tn_submitted : option_Forall2 (within acc d) (submitted_at t) (submitted_at t');
  tn_created : within acc d (created_at t) (created_at t');
  tn_expires : option_Forall2 (within acc d) (expires_at t) (expires_at t');
}.

Lemma within_refl acc d a : 0 ≤ d → within acc d a a.
Proof. intros Hd. destruct acc; [|done]. cbn. lia. Qed.
Lemma within_sym acc d a b : within acc d a b → within acc d b a.
Proof. destruct acc; [|done]. cbn. lia. Qed.
Lemma within_trans acc d d' a b c : within acc d a b → within acc d' b c → within acc (d + d') a c.
Proof. destruct acc; [|done]. cbn. lia. Qed.
Lemma within_mono acc d d' a b : d ≤ d' → within acc d a b → within acc d' a b.
Proof. destruct acc; [|done]. cbn. lia. Qed.

Lemma task_near_refl acc d t : 0 ≤ d → task_near acc d t t.
Proof.
  intros Hd. split; [by destruct t|..|]; [|by apply within_refl|].
  - destruct (submitted_at t); constructor. by apply within_refl.
  - destruct (expires_at t); constructor. by apply within_refl.
Qed.
Lemma task_near_sym acc d t t' : task_near acc d t t' → task_near acc d t' t.
Proof.
  intros [Hf Hs Hc He]. split; [rewrite Hf; by destruct t|..|].
  - destruct Hs; constructor. by apply within_sym.
  - by apply within_sym.
  - destruct He; constructor. by apply within_sym.
Qed.
Lemma task_near_trans acc d d' t t1 t2 : task_near acc d t t1 → task_near acc d' t1 t2 → task_near acc (d + d') t t2.
Proof.
  intros [Hf Hs Hc He] [Hf' Hs' Hc' He']. split; [rewrite Hf', Hf at 1; done|..|].
  - destruct Hs; inversion Hs'; constructor. by eapply within_trans.
  - by eapply within_trans.
  - destruct He; inversion He'; constructor. by eapply within_trans.
Qed.
Lemma task_near_mono acc d d' t t' : d ≤ d' → task_near acc d t t' → task_near acc d' t t'.
Proof.
  intros Hd [Hf Hs Hc He]. split; [done|..|].
  - destruct Hs; constructor. by eapply within_mono.
  - by eapply within_mono.
  - destruct He; constructor. by eapply within_mono.
Qed.
Lemma task_near_wf acc d t t' : task_wf t → task_near acc d t t' → task_wf t'.
Proof.
  intros Hwf [Hf Hs _ _]. rewrite Hf. destruct Hwf. split; simpl; try done.
  intros Hsub. destruct (wf_submitted Hsub) as [i Hi]. rewrite Hi in Hs. inversion Hs. by eexists.
Qed.
Lemma task_near_id acc d t t' : task_near acc d t t' → service_id t' = service_id t ∧ call_id t' = call_id t.
Proof. intros [-> _ _ _]. done. Qed.

Section laws.
  Context {BL : Bn254Laws B} {CL : TextCodecLaws C}.

(** What comes back from storage, field by field. *)
Lemma restore_persisted_eq k k' t p :
  task_wf t → persist_task_state k t = Ok p →
  restore_task_state k' p =
    Ok (restamp t
          (millis_to_instant (ck_submitted k') ∘ instant_to_millis (ck_submitted k) <$> submitted_at t)
          (millis_to_instant (ck_created k') (instant_to_millis (ck_created k) (created_at t)))
          (millis_to_instant (ck_expires k') ∘ instant_to_millis (ck_expires k) <$> expires_at t)).
Proof.
  intros Hwf Hp.
  destruct (persist_total k t) as (sigs & pks & Hp' & Hag).
  assert (p = persisted_with k t sigs pks) as -> by congruence. clear Hp' Hp.
  set (p := persisted_with k t sigs pks) in *. pose proof Hag as (Hds & Hdp & _).
  unfold restore_task_state. change (p_signer_bitmap p) with ("0x" +:+ u256_hex_digits (signer_bitmap t)).
  unfold parse_u256. rewrite strip_0x_prefix, u256_round_trip by apply Hwf. simpl ok_or. cbn [mbind result_bind].
  set (t0 := with_message_config _ _ _ _ _ _ _ _ _ _).
  assert (task_wf t0) as Hwf0.
  { apply with_message_config_wf. apply Hwf. }
  assert (total_stake t0 = p_total_stake p) as Htot.
  { rewrite (wf_total _ Hwf0). simpl. by rewrite (wf_total _ Hwf). }
  rewrite Htot, Z.eqb_refl. simpl negb. cbv iota.
  rewrite bool_decide_eq_true_2; simpl negb; cbv iota.
  2:{ rewrite <-(size_dom (p_signatures p)), <-(size_dom (p_public_keys p)).
      by rewrite Hds, Hdp, (wf_pair _ Hwf). }
  set (l := merge_sort Z.le (keys (p_signatures p))).
  assert (∀ i, i ∈ l ↔ i ∈ dom (signatures t)) as Hl.
  { intros i. unfold l. rewrite merge_sort_Permutation, elem_of_keys, <-elem_of_dom. by rewrite Hds. }
  destruct (replay_all k' p t l t0) as (t1 & Hf & Hw1 & He1 & Hs1 & Hq1); try done.
  { unfold l. rewrite merge_sort_Permutation. apply keys_NoDup. }
  { intros i Hi. split; [by apply Hl|]. set_solver. }
  assert (signatures t1 = signatures t) as Esig.
  { apply map_eq. intros i. rewrite Hs1. case_decide as Hi; [done|]. simpl.
    rewrite lookup_empty. symmetry. apply not_elem_of_dom. by rewrite <-Hl. }
  assert (public_keys t1 = public_keys t) as Epk.
  { apply map_eq. intros i. rewrite Hq1. case_decide as Hi; [done|]. simpl.
    rewrite lookup_empty. symmetry. apply not_elem_of_dom. by rewrite (wf_pair _ Hwf), <-Hl. }
  assert (signer_bitmap t1 = signer_bitmap t) as Ebm.
  { apply wf_bitmap_unique; [done..|]. by rewrite Esig. }
  rewrite Hf. cbn [mbind result_bind]. rewrite Ebm, Z.eqb_refl. simpl negb. cbv iota.
  f_equal. rewrite He1, Esig, Epk, Ebm. unfold restore_times, restamp. simpl. f_equal.
  - by destruct (threshold_type t).
  - exact Htot.
  - destruct (submitted_at t) as [i|] eqn:Es; simpl; [done|].
    destruct (submitted t) eqn:Esub; [|done].
    destruct (wf_submitted _ Hwf Esub). congruence.
  - by destruct (expires_at t).
Qed.

Lemma restore_persisted off k k' t p :
  task_wf t → clocks_coherent off k → clocks_coherent off k' → times_plausible off t →
  persist_task_state k t = Ok p → ∃ t', restore_task_state k' p = Ok t' ∧ task_restored t t'.
Proof.
  intros Hwf (K1 & K2 & K3) (L1 & L2 & L3) (P1 & P2 & P3) Hp.
  eexists. split; [by eapply restore_persisted_eq|]. split; simpl; [done|..].
  - destruct (submitted_at t) as [i|]; constructor. by eapply time_round_trip; eauto.
  - by eapply time_round_trip.
  - destruct (expires_at t) as [i|]; constructor. by eapply time_round_trip; eauto.
Qed.

Lemma restore_persisted_near acc k k' t p :
  task_wf t → clocks_ok acc k → clocks_ok acc k' → times_ok acc t → persist_task_state k t = Ok p →
  ∃ t', restore_task_state k' p = Ok t' ∧ task_near acc ROUND t t'.
Proof.
  intros Hwf Hk Hk' Ht Hp. destruct acc as [off|].
  - destruct (restore_persisted off k k' t p Hwf Hk Hk' Ht Hp) as (t' & Hr & [Hf Hs Hc He]).
    exists t'. split; [done|]. unfold close in *. unfold ROUND.
    split; [done| |cbn; lia|].
    + destruct Hs; constructor. cbn. lia.
    + destruct He; constructor. cbn. lia.
  - eexists. split; [by eapply restore_persisted_eq|]. split; [done| |done|].
    + cbn. destruct (submitted_at t); by constructor.
    + cbn. destruct (expires_at t); by constructor.
Qed.

Lemma restore_fold k' rec ps :
  NoDup (persisted_id <$> ps) →
  (∀ p, p ∈ ps → rec !! persisted_id p = None ∧
     ∃ t', restore_task_state (k' (persisted_id p)) p = Ok t' ∧
       persisted_id p = mkTaskId (service_id t') (call_id t')) →
  ∃ rec', try_fold (restore_one k') rec ps = Ok rec' ∧
    (∀ id, (id ∉ persisted_id <$> ps) → rec' !! id = rec !! id) ∧
    (∀ p, p ∈ ps → ∃ t', restore_task_state (k' (persisted_id p)) p = Ok t' ∧
       rec' !! persisted_id p = Some t').
Proof.
  revert rec. induction ps as [|p ps IH]; intros rec Hnd Hl.
  { exists rec. split_and!; [done|done|]. intros p Hin. by apply not_elem_of_nil in Hin. }
  rewrite fmap_cons in Hnd. apply NoDup_cons in Hnd as [Hid Hnd].
  destruct (Hl p) as (Hnone & t' & Ht' & Hid'); [by left|].
  destruct (IH (<[persisted_id p := t']> rec) Hnd) as (rec' & Hf & Hout & Hin).
  { intros q Hq. destruct (Hl q) as (Hni & Hex); [by right|].
    split; [|done]. rewrite lookup_insert_ne; [done|]. intros Heq.
    apply Hid. rewrite Heq. by apply list_elem_of_fmap_2. }
  assert (restore_one k' rec p = Ok (<[persisted_id p := t']> rec)) as Hone.
  { unfold restore_one. rewrite Ht'. cbn. by rewrite <-Hid', Hnone. }
  exists rec'. cbn [try_fold]. rewrite Hone. split_and!; [done| |].
  - intros i. rewrite fmap_cons, not_elem_of_cons. intros [Hne Hi].
    rewrite Hout by done. by rewrite lookup_insert_ne.
  - intros q. rewrite elem_of_cons. intros [->|Hq]; [|by apply Hin].
    exists t'. split; [done|]. rewrite Hout by done. by rewrite lookup_insert_eq.
Qed.

(** Restoring records, one per live task, in any order. *)
Lemma restore_records (R : TaskState → TaskState → Prop) k' (st : AggregationState) ps :
  NoDup (persisted_id <$> ps) →
  (∀ id, id ∈ persisted_id <$> ps ↔ is_Some (st !! id)) →
  (∀ p t, p ∈ ps → st !! persisted_id p = Some t →
     ∃ t', restore_task_state (k' (persisted_id p)) p = Ok t' ∧
       persisted_id p = mkTaskId (service_id t') (call_id t') ∧ R t t') →
  ∃ st', restore k' ps = Ok st' ∧ ∀ id, option_Forall2 R (st !! id) (st' !! id).
Proof.
  intros Hnd Hdom Hex.
  destruct (restore_fold k' ∅ ps Hnd) as (st' & Hf & Hout & Hin).
  { intros p Hp. split; [apply lookup_empty|].
    destruct (proj1 (Hdom (persisted_id p))) as [t Ht]; [by apply list_elem_of_fmap_2|].
    destruct (Hex p t Hp Ht) as (t' & ? & ? & _). by exists t'. }
  exists st'. split; [done|]. intros id. destruct (st !! id) as [t|] eqn:E.
  - assert (id ∈ persisted_id <$> ps) as (p & -> & Hp)%list_elem_of_fmap by (apply Hdom; by exists t).
    destruct (Hin p Hp) as (t' & Ht' & ->). destruct (Hex p t Hp E) as (u & Hu & _ & Hr).
    constructor. congruence.
  - rewrite Hout, lookup_empty; [constructor|]. rewrite Hdom, E. by intros [].
Qed.

Lemma persist_Ok_id k t p :
  persist_task_state k t = Ok p → persisted_id p = mkTaskId (service_id t) (call_id t).
Proof.
  intros Hp. destruct (persist_total k t) as (sigs & pks & Hp' & _).
  by assert (p = persisted_with k t sigs pks) as -> by congruence.
Qed.

(** A snapshot always succeeds and holds one record per task. *)
Lemma snapshot_total k st :
  state_wf st → ∃ ps, snapshot k st = Ok ps ∧ NoDup (persisted_id <$> ps) ∧
    (∀ id, id ∈ persisted_id <$> ps ↔ is_Some (st !! id)) ∧
    (∀ p, p ∈ ps → ∃ t, st !! persisted_id p = Some t ∧ persist_task_state (k (persisted_id p)) t = Ok p).
Proof.
  intros Hwf. unfold snapshot.
  destruct (traverse_is_Ok (λ p, persist_task_state (k p.1) p.2) (map_to_list st)) as [ps Hps].
  { intros [id t] _. destruct (persist_total (k id) t) as (sigs & pks & Hp & _). by eexists. }
  exists ps. split; [done|]. apply traverse_Ok_Forall2 in Hps.
  assert (persisted_id <$> ps = (map_to_list st).*1) as Hids.
  { assert (∀ id t, (id, t) ∈ map_to_list st → id = mkTaskId (service_id t) (call_id t)) as Hids.
    { intros id t Hin%elem_of_map_to_list. by destruct (Hwf id t Hin). }
    induction Hps as [|[id t] p l ps Hp _ IH]; [done|]. rewrite !fmap_cons. simpl in *. f_equal.
    - rewrite (persist_Ok_id _ _ _ Hp). symmetry. apply Hids. by left.
    - apply IH. intros i u Hin. apply Hids. by right. }
  rewrite Hids. split_and!; [apply NoDup_fst_map_to_list| |].
  - intros id. change ((map_to_list st).*1) with (keys st). apply elem_of_keys.
  - intros p Hp. destruct (Forall2_elem_of_r _ _ _ _ Hps Hp) as ([id t] & Hin & Hpt).
    apply elem_of_map_to_list in Hin.
    simpl in Hpt. exists t. rewrite (persist_Ok_id _ _ _ Hpt).
    destruct (Hwf id t Hin) as [_ <-]. done.
Qed.

Lemma snapshot_restore_rel (R : TaskState → TaskState → Prop) k k' st :
  state_wf st → (∀ t t', R t t' → service_id t' = service_id t ∧ call_id t' = call_id t) →
  (∀ id t p, st !! id = Some t → persist_task_state (k id) t = Ok p →
     ∃ t', restore_task_state (k' (persisted_id p)) p = Ok t' ∧ R t t') →
  ∃ ps st', snapshot k st = Ok ps ∧ restore k' ps = Ok st' ∧
    ∀ id, option_Forall2 R (st !! id) (st' !! id).
Proof.
  intros Hwf HR Hex. destruct (snapshot_total k st Hwf) as (ps & Hs & Hnd & Hdom & Hall).
  destruct (restore_records R k' st ps Hnd Hdom) as (st' & Hr & Hst').
  { intros p t Hp Ht. destruct (Hall p Hp) as (u & Hu & Hpu). simplify_eq.
    destruct (Hex _ _ _ Ht Hpu) as (t' & Ht' & Hr). exists t'. split_and!; [done| |done].
    rewrite (persist_Ok_id _ _ _ Hpu). by destruct (HR _ _ Hr) as [-> ->]. }
  by exists ps, st'.
Qed.

Lemma snapshot_restore_near acc k k' st :
  state_wf st → (∀ id, clocks_ok acc (k id)) → (∀ id, clocks_ok acc (k' id)) →
  (∀ id t, st !! id = Some t → times_ok acc t) →
  ∃ ps st', snapshot k st = Ok ps ∧ restore k' ps = Ok st' ∧
    ∀ id, option_Forall2 (task_near acc ROUND) (st !! id) (st' !! id).
Proof.
  intros Hwf Hk Hk' Ht. apply snapshot_restore_rel; [done|intros ? ?; apply task_near_id|]. intros id t p Hid Hp.
  eapply restore_persisted_near; [by apply (Hwf id)|apply Hk|apply Hk'|by eapply Ht|done].
Qed.

(** A task written to storage and read back after a restart is the same task:
    same signers, same bitmap, same stakes, same submission flag, and times
    accurate to two milliseconds. *)
Theorem persist_round_trip off k k' t :
  task_wf t → clocks_coherent off k → clocks_coherent off k' → times_plausible off t →
  ∃ p t', persist_task_state k t = Ok p ∧ restore_task_state k' p = Ok t' ∧ task_restored t t'.
Proof.
  intros Hwf Hk Hk' Hpl. destruct (persist_total k t) as (sigs & pks & Hp & _).
  destruct (restore_persisted off k k' t _ Hwf Hk Hk' Hpl Hp) as (t' & Ht' & Hr). by eauto.
Qed.

(** Snapshotting the whole table and restoring it gives back every task and no
    other. *)
Theorem snapshot_restore off k k' st :
  state_wf st → (∀ id, clocks_coherent off (k id)) → (∀ id, clocks_coherent off (k' id)) →
  (∀ id t, st !! id = Some t → times_plausible off t) →
  ∃ ps st', snapshot k st = Ok ps ∧ restore k' ps = Ok st' ∧
    ∀ id, option_Forall2 task_restored (st !! id) (st' !! id).
Proof.
  intros Hwf Hk Hk' Hpl.
  apply snapshot_restore_rel; [done|by intros t t' [-> _ _ _]|]. intros id t p Ht Hp.
  eapply restore_persisted; [by apply (Hwf id)|apply Hk|apply Hk'|by eapply Hpl|done].
Qed.

End laws.

(** Whatever is found in storage, a record that is accepted becomes a
    well-formed task with exactly the recorded signers, whose bitmap and total
    stake are the recorded ones. *)
Theorem restore_validates k p t :
  is_u32 (p_operator_count p) → (∀ i, i ∈ dom (p_signatures p) → is_u32 i) →
  restore_task_state k p = Ok t →
  task_wf t ∧ dom (signatures t) = dom (p_signatures p) ∧
  parse_u256 (p_signer_bitmap p) = Ok (signer_bitmap t) ∧
  total_stake t = p_total_stake p ∧ submitted t = p_submitted p.
Proof.
  intros Hn Hi Hr. unfold restore_task_state in Hr.
  destruct (parse_u256 (p_signer_bitmap p)) as [bm|] eqn:Hbm; simpl in Hr; [|done].
  set (t0 := with_message_config _ _ _ _ _ _ _ _ _ _) in Hr.
  change (sum_u64 (values (p_operator_stakes p))) with (total_stake t0) in Hr.
  destruct (total_stake t0 =? p_total_stake p) eqn:Htot; simpl in Hr; [|done].
  case_bool_decide as Hsz; simpl in Hr; [|done].
  set (l := merge_sort Z.le (keys (p_signatures p))) in Hr.
  destruct (try_fold (replay_signature k p) t0 l) as [t1|] eqn:Hf; simpl in Hr; [|done].
  destruct (signer_bitmap t1 =? bm) eqn:Hb; simpl in Hr; [|done]. inv_ok. to_prop.
  assert (∀ i, i ∈ l ↔ i ∈ dom (p_signatures p)) as Hl.
  { intros i. unfold l. by rewrite merge_sort_Permutation, elem_of_keys, <-elem_of_dom. }
  destruct (replay_Ok_inv k p t0 l t1) as (Hw & Hd & He); [done| | |].
  { by apply with_message_config_wf. }
  { apply list.Forall_forall. intros i Hil. apply Hi. by apply Hl. }
  assert (total_stake t1 = p_total_stake p) as Htot1 by (by rewrite He).
  split_and!; simpl; try done; [|set_solver|by rewrite Hb].
  destruct Hw. split; simpl; try done.
  intros Hsub. rewrite Hsub. destruct (p_submitted_at_ms p); by eexists.
Qed.

(** ** Tables that are restored *)

(** The numbers of a record are those of their types. *)
Definition typed_record (p : PersistedTaskState) : Prop :=
  is_u32 (p_operator_count p) ∧ ∀ i, i ∈ dom (p_signatures p) → is_u32 i.

(** One operation on the table, [restore] included, on whatever storage holds *)
Inductive table_step (st st' : AggregationState) : Prop :=
| table_op : agg_step st st' → table_step st st'
| table_restore k ps : Forall typed_record ps → restore k ps = Ok st' → table_step st st'.

Lemma restore_fold_wf k ps st st' :
  Forall typed_record ps → state_wf st → try_fold (restore_one k) st ps = Ok st' → state_wf st'.
Proof.
  intros Hps. revert st. induction Hps as [|p ps [Hn Hi] _ IH]; intros st Hwf H; cbn [try_fold] in H; [by inv_ok|].
  destruct (restore_one k st p) as [st1|] eqn:Hone; cbn in H; [|done]. apply (IH st1); [|done].
  unfold restore_one in Hone. destruct (restore_task_state _ p) as [t|] eqn:Ht; cbn in Hone; [|done].
  destruct (st !! _); [done|]. inv_ok. apply restore_validates in Ht as (Hw & _); [|done..].
  intros id u. rewrite lookup_insert_Some. intros [[<- <-]|[_ Hu]]; [done|by apply Hwf].
Qed.

(** Every table that operations and restores reach is well formed. *)
Theorem table_reachable_wf st : rtc table_step ∅ st → state_wf st.
Proof.
  intros Hr. assert (state_wf (∅ : AggregationState)) as H0 by (intros id t; by rewrite lookup_empty).
  revert H0. induction Hr as [|s1 s2 s3 [Hs|k ps Hps Hs] _ IH]; intros Hwf; [done|..]; apply IH.
  - by eapply agg_step_wf.
  - eapply restore_fold_wf; [done| |done]. intros id t. by rewrite lookup_empty.
Qed.

End persist.

(** ** A concrete text codec, for executable examples *)

Fixpoint pos_text (p : positive) : string :=
  match p with
  | xH => EmptyString
  | xO p => String "0"%char (pos_text p)
  | xI p => String "1"%char (pos_text p)
  end.

Fixpoint text_pos (s : string) : option positive :=
  match s with
  | EmptyString => Some xH
  | String "0"%char s => xO <$> text_pos s
  | String "1"%char s => xI <$> text_pos s
  | _ => None
  end.

Lemma text_pos_text p : text_pos (pos_text p) = Some p.
Proof. induction p as [p IH|p IH|]; simpl; try rewrite IH; done. Qed.

Definition toy_codec : TextCodec := {|
  hex_encode bs := pos_text (encode bs);
  hex_decode s := text_pos s ≫= decode;
  u256_hex_digits x := pos_text (encode x);
  u256_from_hex s := text_pos s ≫= decode;
|}.

#[export] Instance toy_codec_laws : TextCodecLaws toy_codec.
Proof.
  split; intros; simpl; rewrite text_pos_text; simpl; by rewrite decode_encode.
Qed.

Definition demo_clock (now : Instant) : Clock := mkClock now ((now + 1700000000000000000) / 1000000).

Definition demo_clocks (now : Instant) : Clocks :=
  mkClocks now now (demo_clock now) now (demo_clock now) (demo_clock now).

Lemma demo_clocks_coherent now :
  0 ≤ now < 1000000000000 → clocks_coherent 1700000000000000000 (demo_clocks now).
Proof. intros Hn. unfold clocks_coherent, coherent. simpl. lia. Qed.

Lemma demo_task_plausible : times_plausible (B := toy_bn254) 1700000000000000000 demo_task.
Proof.
  split_and!; [done|unfold plausible; simpl; lia|]. intros i [= <-].
  unfold plausible, from_secs. lia.
Qed.

Lemma persist_round_trip_witness :
  ∃ p t', persist_task_state (B := toy_bn254) (C := toy_codec) (demo_clocks 5) demo_task = Ok p ∧
    restore_task_state (B := toy_bn254) (C := toy_codec) (demo_clocks 999) p = Ok t' ∧
    task_restored (B := toy_bn254) demo_task t'.
Proof.
  apply (persist_round_trip (B := toy_bn254) (C := toy_codec) 1700000000000000000).
  - apply demo_task_wf.
  - by apply demo_clocks_coherent.
  - by apply demo_clocks_coherent.
  - apply demo_task_plausible.
Defined.

Lemma snapshot_restore_witness :
  ∃ ps st',
    snapshot (B := toy_bn254) (C := toy_codec) (λ _, demo_clocks 5) demo_state = Ok ps ∧
    restore (B := toy_bn254) (C := toy_codec) (λ _, demo_clocks 999) ps = Ok st' ∧
    ∀ id, option_Forall2 (task_restored (B := toy_bn254)) (demo_state !! id) (st' !! id).
Proof.
  apply (snapshot_restore (B := toy_bn254) (C := toy_codec) 1700000000000000000).
  - apply demo_state_wf.
  - intros _. by apply demo_clocks_coherent.
  - intros _. by apply demo_clocks_coherent.
  - intros id t. unfold demo_state. rewrite lookup_singleton_Some. intros [_ <-].
    apply demo_task_plausible.
Defined.

Definition demo_persisted : PersistedTaskState :=
  match persist_task_state (B := toy_bn254) (C := toy_codec) (demo_clocks 5) demo_task with
  | Ok p => p
  | Err _ => mkPersisted 0 0 [] [] ArkworksSha256 0 (PCount 0) "" ∅ ∅ ∅ 0 false None 0 None
  end.

Lemma restore_validates_witness :
  ∃ t, restore_task_state (B := toy_bn254) (C := toy_codec) (demo_clocks 7) demo_persisted = Ok t ∧
    task_wf (B := toy_bn254) t ∧ dom (signatures t) = dom (p_signatures demo_persisted).
Proof.
  destruct (restore_task_state (B := toy_bn254) (C := toy_codec) (demo_clocks 7) demo_persisted)
    as [t|] eqn:E; [|by vm_compute in E].
  exists t. split; [done|].
  destruct (restore_validates (B := toy_bn254) (C := toy_codec) (demo_clocks 7) demo_persisted t)
    as (H1 & H2 & _); [done| |done|done].
  assert (dom (p_signatures demo_persisted) = {[0; 1]}) as -> by (by vm_compute).
  intros i. rewrite elem_of_union, !elem_of_singleton. by intros [->| ->].
Defined.
