(* ===== verification/AggBackend.v ===== *)
(** * Persistence backends

    Models the [PersistenceBackend] trait of
    [src/crates/tangle-aggregation-svc/src/persistence.rs] as a class of
    state-passing operations, the contract the service relies on
    ([DurableBackend]), and the two implementations: [NoPersistence] and
    [FilePersistence].  The file is one text, or absent; each call of the file
    system may fail, and which ones do is part of the backend's state.  JSON
    printing and parsing are the [serde_json] crate's. *)

From S2P Require Import Prelude Text Bn254 AggTask AggState AggPersist.
From Stdlib Require Import ZArith Lia Ascii.
From stdpp Require Import base gmap sets list sorting strings pretty fin_maps numbers.

#[local] Open Scope Z_scope.

(** ** The trait *)

Class PersistenceBackend (S : Type) := {
  save_task : PersistedTaskState → S → result PersistenceError unit * S;
  load_task : TaskId → S → result PersistenceError (option PersistedTaskState) * S;
  delete_task : TaskId → S → result PersistenceError unit * S;
  load_all_tasks : S → result PersistenceError (list PersistedTaskState) * S;
  flush : S → result PersistenceError unit * S;
}.

(** [PersistenceBackend::task_exists], a provided method *)
Definition task_exists {S} `{!PersistenceBackend S} (id : TaskId) (s : S)
    : result PersistenceError bool * S :=
  let '(r, s) := load_task id s in ((λ o, bool_decide (is_Some o)) <$> r, s).

(** What a durable backend promises: it holds a map from task identifiers to
    records; each operation either takes effect completely or reports an error
    and leaves the map alone. *)
Class DurableBackend (S : Type) `{!PersistenceBackend S} := {
  store_ok : S → Prop;
  stored : S → gmap TaskId PersistedTaskState;
  save_spec p s : store_ok s →
    let '(r, s') := save_task p s in
    store_ok s' ∧
    stored s' = match r with Ok _ => <[persisted_id p := p]> (stored s) | Err _ => stored s end;
  load_spec id s : store_ok s →
    let '(r, s') := load_task id s in
    store_ok s' ∧ stored s' = stored s ∧
    match r with Ok o => o = stored s !! id | Err _ => True end;
  delete_spec id s : store_ok s →
    let '(r, s') := delete_task id s in
    store_ok s' ∧
    stored s' = match r with Ok _ => delete id (stored s) | Err _ => stored s end;
  load_all_spec s : store_ok s →
    let '(r, s') := load_all_tasks s in
    store_ok s' ∧ stored s' = stored s ∧
    match r with Ok l => l ≡ₚ values (stored s) | Err _ => True end;
  flush_spec s : store_ok s →
    let '(r, s') := flush s in store_ok s' ∧ stored s' = stored s;
}.

(** ** [NoPersistence] *)

Record NoPersistence := mkNoPersistence {}.

#[export] Instance no_persistence_backend : PersistenceBackend NoPersistence := {|
  save_task _ s := (Ok tt, s);
  load_task _ s := (Ok None, s);
  delete_task _ s := (Ok tt, s);
  load_all_tasks s := (Ok [], s);
  flush s := (Ok tt, s);
|}.

(** ** [FilePersistence] *)

(** [serde_json] on the table of records *)
Class TableJson := {
  json_print : gmap string PersistedTaskState → option string;
  json_parse : string → option (gmap string PersistedTaskState);
}.

Class TableJsonLaws (J : TableJson) : Prop := {
  json_round_trip m txt : json_print m = Some txt → txt ≠ "" ∧ json_parse txt = Some m;
}.

(** The file, and the outcome ([true]: failure) of each coming call of the file
    system: [stats] for the calls that ask whether the file exists, [faults] for
    the others. *)
Record FilePersistence := mkFile { file : option string; faults : list bool; stats : list bool }.

(** One call of the file system. *)
Definition fs_call (s : FilePersistence) : result PersistenceError unit * FilePersistence :=
  match faults s with
  | true :: fs => (Err (Io "io"), mkFile (file s) fs (stats s))
  | false :: fs => (Ok tt, mkFile (file s) fs (stats s))
  | [] => (Ok tt, s)
  end.

(** [Path::exists], which answers no when the call fails *)
Definition path_exists (s : FilePersistence) : bool * FilePersistence :=
  (negb (default false (List.hd_error (stats s))) && bool_decide (is_Some (file s)),
   mkFile (file s) (faults s) (tail (stats s))).

(** [FilePersistence::task_key] *)
Definition task_key (id : TaskId) : string :=
  pretty (tid_service_id id) +:+ ":" +:+ pretty (tid_call_id id).

Section file.
  Context {J : TableJson}.

(** [FilePersistence::read_all] *)
Definition read_all (s : FilePersistence)
    : result PersistenceError (gmap string PersistedTaskState) * FilePersistence :=
  let '(found, s) := path_exists s in
  if negb found then (Ok ∅, s)
  else
    match fs_call s with
    | (Err e, s) => (Err e, s)
    | (Ok _, s) =>
        match file s with
        | None => (Err (Io "io"), s)
        | Some contents =>
            if bool_decide (contents = "") then (Ok ∅, s)
            else (ok_or (json_parse contents) (Serialization "json"), s)
        end
    end.

(** [FilePersistence::write_all]: the parent directory, the temporary file and
    the rename are three calls of the file system; the target changes only with
    the last. *)
Definition write_all (tasks : gmap string PersistedTaskState) (s : FilePersistence)
    : result PersistenceError unit * FilePersistence :=
  match fs_call s with
  | (Err e, s) => (Err e, s)
  | (Ok _, s) =>
      match json_print tasks with
      | None => (Err (Serialization "json"), s)
      | Some contents =>
          match fs_call s with
          | (Err e, s) => (Err e, s)
          | (Ok _, s) =>
              match fs_call s with
              | (Err e, s) => (Err e, s)
              | (Ok _, s) => (Ok tt, mkFile (Some contents) (faults s) (stats s))
              end
          end
      end
  end.

#[export] Instance file_backend : PersistenceBackend FilePersistence := {|
  save_task p s :=
    match read_all s with
    | (Err e, s) => (Err e, s)
    | (Ok tasks, s) => write_all (<[task_key (persisted_id p) := p]> tasks) s
    end;
  load_task id s :=
    match read_all s with
    | (Err e, s) => (Err e, s)
    | (Ok tasks, s) => (Ok (tasks !! task_key id), s)
    end;
  delete_task id s :=
    match read_all s with
    | (Err e, s) => (Err e, s)
    | (Ok tasks, s) => write_all (delete (task_key id) tasks) s
    end;
  load_all_tasks s :=
    match read_all s with
    | (Err e, s) => (Err e, s)
    | (Ok tasks, s) => (Ok (values tasks), s)
    end;
  flush s := (Ok tt, s);
|}.

(** ** Keys are unambiguous *)

#[export] Instance task_key_inj : Inj (=) (=) task_key.
Proof.
  intros [s c] [s' c'] Heq. unfold task_key in Heq. simpl in Heq.
  apply colon_split in Heq as [Hs Hc]; [|apply pretty_Z_no_colon..].
  apply (inj pretty) in Hs, Hc. by subst.
Qed.

(** ** [FilePersistence] is durable *)

(** Every record sits under the key of its own identifier. *)
Definition keyed (m : gmap string PersistedTaskState) : Prop :=
  ∀ k p, m !! k = Some p → k = task_key (persisted_id p).

Definition by_id (m : gmap string PersistedTaskState) : gmap TaskId PersistedTaskState :=
  list_to_map ((λ p, (persisted_id p, p)) <$> values m).

(** The table the file denotes. *)
Definition file_table (s : FilePersistence) : option (gmap string PersistedTaskState) :=
  match file s with
  | None => Some ∅
  | Some contents => if bool_decide (contents = "") then Some ∅ else json_parse contents
  end.

(** No coming question whether the file exists fails. *)
Definition file_ok (s : FilePersistence) : Prop :=
  (∃ m, file_table s = Some m ∧ keyed m) ∧ Forall (λ b, b = false) (stats s).

Definition file_stored (s : FilePersistence) : gmap TaskId PersistedTaskState :=
  by_id (default ∅ (file_table s)).

Lemma keyed_ids_NoDup m : keyed m → NoDup ((λ p, (persisted_id p, p)) <$> values m).*1.
Proof.
  intros Hk. rewrite <-list_fmap_compose. unfold values, compose. simpl.
  rewrite <-list_fmap_compose.
  apply NoDup_fmap_2_strong; [|apply NoDup_map_to_list].
  intros [k p] [k' p'] Hp%elem_of_map_to_list Hp'%elem_of_map_to_list. unfold compose. simpl.
  intros Heq. pose proof (Hk k p Hp) as E1. pose proof (Hk k' p' Hp') as E2.
  assert (k = k') by congruence. congruence.
Qed.

Lemma by_id_lookup m id : keyed m → by_id m !! id = m !! task_key id.
Proof.
  intros Hk. apply option_eq. intros p. unfold by_id.
  rewrite <-elem_of_list_to_map by by apply keyed_ids_NoDup.
  rewrite list_elem_of_fmap. unfold values. split.
  - intros (q & [= -> ->] & ([k q'] & -> & Hq%elem_of_map_to_list)%list_elem_of_fmap).
    simpl in *. by rewrite <-(Hk _ _ Hq).
  - intros Hp. exists p. pose proof (Hk _ _ Hp) as ->%(inj task_key). split; [done|].
    apply list_elem_of_fmap. exists (task_key (persisted_id p), p).
    split; [done|]. by apply elem_of_map_to_list.
Qed.

Lemma by_id_values m : keyed m → values m ≡ₚ values (by_id m).
Proof.
  intros Hk. unfold by_id, values at 2. rewrite map_to_list_to_map by by apply keyed_ids_NoDup.
  rewrite <-list_fmap_compose. unfold compose. simpl. by rewrite list_fmap_id.
Qed.

Lemma by_id_insert m p :
  keyed m → keyed (<[task_key (persisted_id p) := p]> m) ∧
  by_id (<[task_key (persisted_id p) := p]> m) = <[persisted_id p := p]> (by_id m).
Proof.
  intros Hk. assert (keyed (<[task_key (persisted_id p) := p]> m)) as Hk'.
  { intros k q. rewrite lookup_insert_Some. intros [[<- <-]|[_ ?]]; [done|]. by apply Hk. }
  split; [done|]. apply map_eq. intros id. rewrite by_id_lookup by done.
  destruct (decide (id = persisted_id p)) as [->|Hne].
  - by rewrite !lookup_insert_eq.
  - rewrite !lookup_insert_ne, by_id_lookup; [done..|congruence|].
    intros Heq%(inj task_key). congruence.
Qed.

Lemma by_id_delete m id :
  keyed m → keyed (delete (task_key id) m) ∧ by_id (delete (task_key id) m) = delete id (by_id m).
Proof.
  intros Hk. assert (keyed (delete (task_key id) m)) as Hk'.
  { intros k q. rewrite lookup_delete_Some. intros [_ ?]. by apply Hk. }
  split; [done|]. apply map_eq. intros i. rewrite by_id_lookup by done.
  destruct (decide (i = id)) as [->|Hne].
  - by rewrite !lookup_delete_eq.
  - rewrite !lookup_delete_ne, by_id_lookup; [done..|congruence|].
    intros Heq%(inj task_key). congruence.
Qed.

Lemma fs_call_same s : file (fs_call s).2 = file s ∧ stats (fs_call s).2 = stats s.
Proof. unfold fs_call. by destruct (faults s) as [|[] ?]. Qed.

Lemma file_ok_same s s' :
  file s' = file s → Forall (λ b, b = false) (stats s') → file_ok s → file_ok s' ∧ file_stored s' = file_stored s.
Proof. unfold file_ok, file_stored, file_table. intros -> Hs [? _]. done. Qed.

Lemma read_all_spec s :
  file_ok s → let '(r, s') := read_all s in
  file s' = file s ∧ file_ok s' ∧ match r with Ok m => file_table s = Some m ∧ keyed m | Err _ => True end.
Proof.
  intros Hok. pose proof Hok as [(m & Hm & Hk) Hst]. unfold read_all, path_exists.
  assert (Forall (λ b, b = false) (tail (stats s)) ∧ default false (List.hd_error (stats s)) = false) as [Hst' Hd]
    by (by destruct Hst).
  set (s1 := mkFile (file s) (faults s) (tail (stats s))).
  destruct (file_ok_same s s1 eq_refl Hst' Hok) as [Hok1 _]. rewrite Hd. cbn [negb andb].
  destruct (file s) as [c|] eqn:Ef; cycle 1.
  { rewrite bool_decide_false by (by intros []). cbn [negb]. split; [done|]. split; [done|]. unfold file_table in *. rewrite Ef in *. naive_solver. }
  rewrite bool_decide_true by (by eexists). cbn [negb]. destruct (fs_call_same s1) as [Hf Hs].
  destruct (fs_call s1) as [[u|e] s2]; cbn in Hf, Hs.
  - rewrite Hf. cbn [file s1]. destruct (file_ok_same s1 s2) as [Hok2 _]; [done|by rewrite Hs|done|].
    unfold file_table in *. rewrite Ef in *. case_bool_decide; (split; [done|]; split; [done|]); [naive_solver|]. by rewrite Hm.
  - split; [done|]. split; [|done]. by apply (file_ok_same s1 s2); [|rewrite Hs|].
Qed.

Context {JL : TableJsonLaws J}.

Lemma write_all_spec m s :
  keyed m → file_ok s → let '(r, s') := write_all m s in
  file_ok s' ∧ file_table s' = match r with Ok _ => Some m | Err _ => file_table s end.
Proof.
  intros Hk Hs. unfold write_all.
  assert (∀ s', file s' = file s → stats s' = stats s → file_ok s' ∧ file_table s' = file_table s) as Hsame.
  { intros s' Hf Hst. split; [apply (file_ok_same s s'); [done|rewrite Hst; apply Hs|done]|]. unfold file_table. by rewrite Hf. }
  destruct (fs_call_same s) as [Hf1 Hs1]. destruct (fs_call s) as [[[]|e] s1]; cbn in Hf1, Hs1; [|by apply Hsame].
  destruct (json_print m) as [txt|] eqn:Hp; [|by apply Hsame].
  destruct (fs_call_same s1) as [Hf2 Hs2]. destruct (fs_call s1) as [[[]|e] s2]; cbn in Hf2, Hs2; [|apply Hsame; congruence].
  destruct (fs_call_same s2) as [Hf3 Hs3]. destruct (fs_call s2) as [[[]|e] s3]; cbn in Hf3, Hs3; [|apply Hsame; congruence].
  apply json_round_trip in Hp as [Hne Hp].
  assert (file_table (mkFile (Some txt) (faults s3) (stats s3)) = Some m) as Ht
    by (unfold file_table; cbn; by rewrite bool_decide_eq_false_2).
  split; [|done]. split; [by exists m|]. cbn. rewrite Hs3, Hs2, Hs1. apply Hs.
Qed.

Lemma file_update_spec (f : gmap string PersistedTaskState → gmap string PersistedTaskState)
    (g : gmap TaskId PersistedTaskState → gmap TaskId PersistedTaskState) s :
  (∀ m, keyed m → keyed (f m) ∧ by_id (f m) = g (by_id m)) → file_ok s →
  let '(r, s') :=
    match read_all s with
    | (Err e, s) => (Err e, s)
    | (Ok tasks, s) => write_all (f tasks) s
    end in
  file_ok s' ∧
  file_stored s' = match r with Ok _ => g (file_stored s) | Err _ => file_stored s end.
Proof.
  intros Hf Hs. pose proof (read_all_spec s Hs) as Hr. unfold file_stored.
  destruct (read_all s) as [[m|e] s1]; destruct Hr as (Hfile & Hok1 & Hr).
  - destruct Hr as [Hm Hk]. destruct (Hf m Hk) as [Hk' Hg].
    pose proof (write_all_spec (f m) s1 Hk' Hok1) as Hw. destruct (write_all (f m) s1) as [[u|e] s2];
      destruct Hw as [Hok2 ->]; (split; [done|]); [by rewrite Hm|]. unfold file_table. by rewrite Hfile.
  - split; [done|]. unfold file_table. by rewrite Hfile.
Qed.

Lemma read_all_stored s :
  file_ok s → let '(r, s') := read_all s in
  file_ok s' ∧ file_stored s' = file_stored s ∧ ∀ m, r = Ok m → keyed m ∧ file_stored s = by_id m.
Proof.
  intros Hs. pose proof (read_all_spec s Hs) as Hr. unfold file_stored.
  destruct (read_all s) as [r s1]; destruct Hr as (Hfile & Hok1 & Hr). split_and!; [done|unfold file_table; by rewrite Hfile|].
  intros m ->. destruct Hr as [-> Hk]. done.
Qed.

#[export] Instance file_durable : DurableBackend FilePersistence.
Proof.
  refine {| store_ok := file_ok; stored := file_stored |}.
  - intros p s Hs. exact (file_update_spec _ _ s (λ m Hk, by_id_insert m p Hk) Hs).
  - intros id s Hs. cbn [load_task load_all_tasks file_backend]. pose proof (read_all_stored s Hs) as Hr.
    destruct (read_all s) as [[m|e] s1]; destruct Hr as (Hok & Hst & Hr); simpl; [|by split_and!]. split; [done|]. split; [done|].
    destruct (Hr m eq_refl) as [Hk ->]. by rewrite by_id_lookup.
  - intros id s Hs. exact (file_update_spec _ _ s (λ m Hk, by_id_delete m id Hk) Hs).
  - intros s Hs. cbn [load_task load_all_tasks file_backend]. pose proof (read_all_stored s Hs) as Hr.
    destruct (read_all s) as [[m|e] s1]; destruct Hr as (Hok & Hst & Hr); simpl; [|by split_and!]. split; [done|]. split; [done|].
    destruct (Hr m eq_refl) as [Hk ->]. by apply by_id_values.
  - intros s Hs. done.
Defined.

End file.

(** ** Guarantees through the interface *)

(** A record saved successfully is the one loaded afterwards, no other record
    changes, and a failed save changes nothing: the keys built from service and
    call identifiers never collide. *)
Theorem file_save_load {J : TableJson} {JL : TableJsonLaws J} p id (s : FilePersistence) :
  file_ok s →
  let '(r, s1) := save_task p s in
  let '(r2, s2) := load_task id s1 in
  file_ok s2 ∧
  match r, r2 with
  | Ok _, Ok o => o = if decide (id = persisted_id p) then Some p else file_stored s !! id
  | Err _, Ok o => o = file_stored s !! id
  | _, Err _ => True
  end.
Proof.
  intros Hs. pose proof (save_spec p s Hs) as H1.
  destruct (save_task p s) as [r s1]. destruct H1 as [Hok1 Hst1].
  pose proof (load_spec id s1 Hok1) as H2.
  destruct (load_task id s1) as [r2 s2]. destruct H2 as (Hok2 & _ & Hl).
  split; [done|]. destruct r as [u|e], r2 as [o|e2]; try done; rewrite Hl, Hst1; [|done].
  case_decide as Hd; [subst id; apply lookup_insert_eq|by apply lookup_insert_ne].
Qed.

(** ** Executable instances *)

#[export] Instance PersistedThresholdType_eq_dec : EqDecision PersistedThresholdType.
Proof. solve_decision. Defined.

#[export] Instance PersistedThresholdType_countable : Countable PersistedThresholdType.
Proof.
  refine (inj_countable'
    (λ t, match t with PCount n => inl n | PStakeWeighted n => inr n end)
    (λ s, match s with inl n => PCount n | inr n => PStakeWeighted n end) _); by intros [].
Defined.

#[export] Instance Bn254SignatureScheme_countable : Countable Bn254SignatureScheme.
Proof.
  refine (inj_countable'
    (λ t, match t with ArkworksSha256 => true | TangleKeccak256 => false end)
    (λ b, if (b : bool) then ArkworksSha256 else TangleKeccak256) _); by intros [].
Defined.

#[export] Instance PersistedTaskState_eq_dec : EqDecision PersistedTaskState.
Proof. solve_decision. Defined.

(** The fields are encoded one after the other, so that the encoding stays
    linear in the size of the record. *)
#[export] Instance PersistedTaskState_countable : Countable PersistedTaskState.
Proof.
  refine (inj_countable
    (λ p, [encode (p_service_id p); encode (p_call_id p); encode (p_output p); encode
          (p_message p); encode (p_signature_scheme p); encode (p_operator_count p);
          encode (p_threshold_type p); encode (p_signer_bitmap p); encode (p_signatures
          p); encode (p_public_keys p); encode (p_operator_stakes p); encode
          (p_total_stake p); encode (p_submitted p); encode (p_submitted_at_ms p); encode
          (p_created_at_ms p); encode (p_expires_at_ms p)])
    (λ l, match l with
          | [x0; x1; x2; x3; x4; x5; x6; x7; x8; x9; x10; x11; x12; x13; x14; x15] =>
            x0 ← decode x0; x1 ← decode x1; x2 ← decode x2; x3 ← decode x3;
            x4 ← decode x4; x5 ← decode x5; x6 ← decode x6; x7 ← decode x7;
            x8 ← decode x8; x9 ← decode x9; x10 ← decode x10; x11 ← decode x11;
            x12 ← decode x12; x13 ← decode x13; x14 ← decode x14; x15 ← decode x15;
              Some (mkPersisted x0 x1 x2 x3 x4 x5 x6 x7 x8 x9 x10 x11 x12 x13 x14 x15)
          | _ => None
          end) _).
  intros []. cbn. by rewrite !decode_encode.
Defined.

(** A table printed as the text of its encoding. *)
Definition toy_json : TableJson := {|
  json_print m := Some (String "j"%char (pos_text (encode m)));
  json_parse txt := match txt with String "j"%char txt => text_pos txt ≫= decode | _ => None end;
|}.

#[export] Instance toy_json_laws : TableJsonLaws toy_json.
Proof.
  split. intros m txt [= <-]. split; [done|]. simpl.
  rewrite text_pos_text. simpl. by rewrite decode_encode.
Qed.

Lemma file_ok_empty {J : TableJson} fs : file_ok (mkFile None fs []).
Proof. split; [|constructor]. exists ∅. split; [done|]. intros k p. by rewrite lookup_empty. Qed.

(** When the question whether the file exists fails once, the file is taken to be
    absent: the next save succeeds and writes a table with its own record only. *)
Theorem stat_error_loses_tasks {J : TableJson} {JL : TableJsonLaws J} p c bs :
  json_print {[task_key (persisted_id p) := p]} = Some c →
  ∀ old, save_task p (mkFile (Some old) [] (true :: bs)) = (Ok tt, mkFile (Some c) [] bs).
Proof. intros Hp old. cbn. unfold write_all. cbn. by rewrite insert_empty, Hp. Qed.

Lemma file_save_load_witness :
  let s := mkFile None [false; false; false; false] [] in
  let '(r, s1) := save_task (PersistenceBackend := file_backend (J := toy_json)) demo_persisted s in
  let '(r2, s2) :=
    load_task (PersistenceBackend := file_backend (J := toy_json)) (mkTaskId 1 100) s1 in
  r = Ok tt ∧ r2 = Ok (Some demo_persisted).
Proof.
  pose proof (file_save_load (J := toy_json) demo_persisted (mkTaskId 1 100)
                (mkFile None [false; false; false; false] []) (file_ok_empty _)) as H.
  cbv zeta. destruct (save_task _ _) as [r s1] eqn:E1. destruct (load_task _ _) as [r2 s2] eqn:E2.
  destruct H as [_ H].
  assert (r = Ok tt) as ->.
  { change r with (r, s1).1. rewrite <-E1. done. }
  destruct r2 as [o|e]; [by rewrite H|].
  exfalso. assert ((Err e : result PersistenceError (option PersistedTaskState), s2).1 = Err e) as Hx by done.
  rewrite <-E2 in Hx. assert (s1 = (Ok tt : result PersistenceError unit, s1).2) as Es by done.
  rewrite <-E1 in Es. rewrite Es in Hx. by vm_compute in Hx.
Defined.
