(* ===== verification/AggService.v ===== *)
(** * The aggregation service

    Models [src/crates/tangle-aggregation-svc/src/service.rs] and the request
    handlers of [api.rs]: the task table behind its persistence backend, with
    the roll-back paths taken when the backend fails.  All mutating entry
    points hold [mutation_lock], so the service is a sequential state machine;
    the backend is any instance of the [PersistenceBackend] class. *)

From S2P Require Import Prelude Bn254 AggTask AggState AggPersist AggBackend.
From Stdlib Require Import ZArith Lia.
From stdpp Require Import base gmap sets list sorting strings pretty fin_maps numbers relations.

#[local] Open Scope Z_scope.

(** ** Data *)

Inductive ServiceError :=
| TaskNotFound
| TaskAlreadyExists
| TaskExpired
| InvalidSignature
| InvalidPublicKey
| VerificationFailed
| OutputMismatch
| AggregationFailed (msg : string)
| Other (msg : string).

(** The [Display] text derived by [thiserror]. *)
Definition display_service_error (e : ServiceError) : string :=
  match e with
  | TaskNotFound => "Task not found"
  | TaskAlreadyExists => "Task already exists"
  | TaskExpired => "Task has expired"
  | InvalidSignature => "Invalid signature format"
  | InvalidPublicKey => "Invalid public key format"
  | VerificationFailed => "Signature verification failed"
  | OutputMismatch => "Output mismatch: submitted output does not match task output"
  | AggregationFailed msg => "Aggregation failed: " +:+ msg
  | Other msg => msg
  end.

(** [AggregationService::persistence_error] *)
Definition persistence_error (e : PersistenceError) : ServiceError :=
  Other ("persistence error: " +:+ display_persistence_error e).

Record ServiceConfig := mkServiceConfig {
  verify_on_submit : bool;
  validate_output : bool;
  default_task_ttl : option Duration;
  cleanup_interval : option Duration;
  auto_cleanup_submitted : bool;
  submitted_task_retention : Duration;
}.

Definition ServiceConfig_default : ServiceConfig :=
  mkServiceConfig true true (Some (from_secs 3600)) (Some (from_secs 60)) true (from_secs 120).

Definition ServiceConfig_minimal : ServiceConfig :=
  mkServiceConfig false false None None false 0.

Inductive CleanupKind := All | Expired | Submitted.

Record SubmitSignatureRequest := mkSubmit {
  rq_service_id : Z;
  rq_call_id : Z;
  rq_operator_index : Z;
  rq_output : list Byte8;
  rq_signature : list Byte8;
  rq_public_key : list Byte8;
}.

Record SubmitSignatureResponse := mkSubmitResponse {
  rs_accepted : bool;
  rs_signatures_collected : Z;
  rs_threshold_required : Z;
  rs_threshold_met : bool;
  rs_error : option string;
}.

Record GetStatusResponse := mkGetStatusResponse {
  gs_exists : bool;
  gs_signatures_collected : Z;
  gs_threshold_required : Z;
  gs_threshold_met : bool;
  gs_signer_bitmap : Z;
  gs_signed_stake_bps : option Z;
  gs_submitted : bool;
  gs_is_expired : option bool;
  gs_time_remaining_secs : option Z;
}.

Record AggregatedResultResponse := mkAggregated {
  ar_service_id : Z;
  ar_call_id : Z;
  ar_output : list Byte8;
  ar_signer_bitmap : Z;
  ar_non_signer_indices : list Z;
  ar_aggregated_signature : list Byte8;
  ar_aggregated_pubkey : list Byte8;
}.

Record ServiceStats := mkServiceStats {
  total_tasks : Z; pending_tasks : Z; ready_tasks : Z; submitted_tasks : Z; expired_tasks : Z;
}.

(** *** Requests and responses of the HTTP API *)

Record OperatorStake := mkOperatorStake { os_operator_index : Z; os_stake : Z }.

Inductive ThresholdConfig :=
| CountConfig (required_signers : Z)
| StakeWeightedConfig (threshold_bps : Z) (operator_stakes : list OperatorStake).

Record InitTaskRequest := mkInitTask {
  it_service_id : Z;
  it_call_id : Z;
  it_operator_count : Z;
  it_threshold : ThresholdConfig;
  it_output : list Byte8;
  it_message : list Byte8;
  it_signature_scheme : Bn254SignatureScheme;
}.

Record InitTaskResponse := mkInitTaskResponse { it_success : bool; it_error : option string }.

Record GetStatusRequest := mkGetStatus { gr_service_id : Z; gr_call_id : Z }.

(** The status codes the handlers return. *)
Inductive StatusCode := OK_200 | BAD_REQUEST_400 | NOT_FOUND_404.

(** The clock readings of one service operation, in the order it takes them. *)
Record OpClocks := mkOpClocks {
  oc_before : TaskId → Clocks;   (** the snapshot taken first *)
  oc_status : Instant;           (** [get_status], expiry *)
  oc_status' : Instant;          (** [get_status], time remaining *)
  oc_now : Instant;              (** the state operation *)
  oc_now' : Instant;             (** the state operation, second reading *)
  oc_each : TaskId → Instant;    (** cleanup, one reading per task *)
  oc_after : TaskId → Clocks;    (** the snapshot that is persisted *)
  oc_restore : TaskId → Clocks;  (** the roll-back *)
}.

(** [u64::to_be_bytes] *)
Definition u64_to_be_bytes (x : Z) : list Byte8 :=
  (λ i, Z.shiftr x (8 * i) mod 256) <$> [7; 6; 5; 4; 3; 2; 1; 0].

Section service.
  Context {B : Bn254} {C : TextCodec} {S : Type} {PB : PersistenceBackend S}.

Abbreviation AggregationState := (gmap TaskId TaskState).

Record AggregationService := mkService {
  state : AggregationState;
  config : ServiceConfig;
  persistence : S;
}.

Definition set_state (svc : AggregationService) (st : AggregationState) : AggregationService :=
  mkService st (config svc) (persistence svc).

Definition set_persistence (svc : AggregationService) (s : S) : AggregationService :=
  mkService (state svc) (config svc) s.

(** [create_signing_message] *)
Definition create_signing_message (service_id call_id : Z) (output : list Byte8) : list Byte8 :=
  u64_to_be_bytes service_id ++ u64_to_be_bytes call_id ++ keccak256 output.

(** ** Construction *)

(** [AggregationService::with_persistence] *)
Definition with_persistence (k : TaskId → Clocks) (cfg : ServiceConfig) (s : S)
    : result ServiceError AggregationService :=
  let '(r, s) := load_all_tasks s in
  persisted ← map_err persistence_error r;
  st ← map_err persistence_error (restore k persisted);
  Ok (mkService st cfg s).

(** ** Persistence helpers *)

Definition find_persisted (l : list PersistedTaskState) (sid cid : Z) : option PersistedTaskState :=
  List.find (λ p, (p_service_id p =? sid) && (p_call_id p =? cid)) l.

(** [AggregationService::persist_task] *)
Definition persist_task (k : TaskId → Clocks) (svc : AggregationService) (sid cid : Z)
    : result ServiceError unit * AggregationService :=
  match snapshot k (state svc) with
  | Err e => (Err (persistence_error e), svc)
  | Ok tasks =>
      match find_persisted tasks sid cid with
      | None => (Err TaskNotFound, svc)
      | Some task =>
          match save_task task (persistence svc) with
          | (Err e, s) => (Err (persistence_error e), set_persistence svc s)
          | (Ok _, s) =>
              let '(r, s) := flush s in (map_err persistence_error r, set_persistence svc s)
          end
      end
  end.

(** [AggregationService::restore_persisted_task] *)
Definition restore_persisted_task (svc : AggregationService)
    (before : list PersistedTaskState) (id : TaskId) : AggregationService :=
  let '(r, s) :=
    match find_persisted before (tid_service_id id) (tid_call_id id) with
    | Some task => save_task task (persistence svc)
    | None => delete_task id (persistence svc)
    end in
  match r with
  | Err _ => set_persistence svc s
  | Ok _ => set_persistence svc (flush s).2
  end.

(** [AggregationService::restore_persisted_tasks] *)
Definition restore_persisted_tasks (svc : AggregationService) (tasks : list PersistedTaskState)
    : AggregationService :=
  let s := foldl (λ s task, (save_task task s).2) (persistence svc) tasks in
  set_persistence svc (flush s).2.

(** [AggregationService::restore_snapshot] *)
Definition restore_snapshot (k : TaskId → Clocks) (svc : AggregationService)
    (before : list PersistedTaskState) : AggregationService :=
  match restore k before with
  | Ok st => set_state svc st
  | Err _ => svc
  end.

(** The tail shared by the mutating operations: persist the task, and roll
    memory and storage back when that fails. *)
Definition persist_or_rollback {A} (k : OpClocks) (svc : AggregationService)
    (before : list PersistedTaskState) (sid cid : Z) (a : A)
    : result ServiceError A * AggregationService :=
  match persist_task (oc_after k) svc sid cid with
  | (Ok _, svc) => (Ok a, svc)
  | (Err e, svc) =>
      let svc := restore_persisted_task svc before (mkTaskId sid cid) in
      (Err e, restore_snapshot (oc_restore k) svc before)
  end.

(** ** Mutating operations *)

(** [AggregationService::init_task_with_message_config] *)
Definition init_task_with_message_config (k : OpClocks) (svc : AggregationService)
    (sid cid : Z) (output message : list Byte8) (scheme : Bn254SignatureScheme)
    (operator_count : Z) (cfg : TaskConfig) : result ServiceError unit * AggregationService :=
  match snapshot (oc_before k) (state svc) with
  | Err e => (Err (persistence_error e), svc)
  | Ok before =>
      match AggState.init_task_with_message_config (oc_now k) (state svc) sid cid output
              message scheme operator_count cfg with
      | Err e => (Err (Other e), svc)
      | Ok st => persist_or_rollback k (set_state svc st) before sid cid tt
      end
  end.

(** [AggregationService::init_task_with_config] *)
Definition init_task_with_config (k : OpClocks) (svc : AggregationService) (sid cid : Z)
    (output : list Byte8) (operator_count : Z) (cfg : TaskConfig)
    : result ServiceError unit * AggregationService :=
  init_task_with_message_config k svc sid cid output
    (create_signing_message sid cid output) ArkworksSha256 operator_count cfg.

(** [AggregationService::init_task] *)
Definition init_task (k : OpClocks) (svc : AggregationService) (sid cid : Z)
    (output : list Byte8) (operator_count threshold : Z)
    : result ServiceError unit * AggregationService :=
  init_task_with_config k svc sid cid output operator_count
    (mkTaskConfig (Count threshold) None (default_task_ttl (config svc))).

(** The output test of [AggregationService::submit_signature]. *)
Definition check_output (svc : AggregationService) (req : SubmitSignatureRequest)
    : result ServiceError unit :=
  if validate_output (config svc) then
    expected ← ok_or (get_task_output (state svc) (rq_service_id req) (rq_call_id req)) TaskNotFound;
    if bool_decide (rq_output req = expected) then Ok tt else Err OutputMismatch
  else Ok tt.

(** The signature test of [AggregationService::submit_signature]. *)
Definition check_signature (svc : AggregationService) (req : SubmitSignatureRequest)
    (signature : Sig) (public_key : Pk) : result ServiceError unit :=
  if verify_on_submit (config svc) then
    '(message, scheme) ←
      ok_or (get_task_signature_context (state svc) (rq_service_id req) (rq_call_id req)) TaskNotFound;
    let verified :=
      match scheme with
      | ArkworksSha256 => bls_verify public_key message signature
      | TangleKeccak256 => bls_verify_tangle public_key message signature
      end in
    if negb verified then Err VerificationFailed else Ok tt
  else Ok tt.

(** The part of [AggregationService::submit_signature] before it persists: the
    checks, then the state operation. *)
Definition accept_signature (k : OpClocks) (svc : AggregationService)
    (req : SubmitSignatureRequest)
    : result ServiceError (AggregationState * SubmitSignatureResponse) :=
  _ ← check_output svc req;
  signature ← ok_or (g1_deserialize (rq_signature req)) InvalidSignature;
  public_key ← ok_or (g2_deserialize (rq_public_key req)) InvalidPublicKey;
  _ ← check_signature svc req signature public_key;
  status ← ok_or (AggState.get_status (oc_status k) (oc_status' k) (state svc)
                    (rq_service_id req) (rq_call_id req)) TaskNotFound;
  if st_is_expired status then Err TaskExpired
  else
    '(st, (count, met)) ←
      map_err Other (AggState.submit_signature (oc_now k) (oc_now' k) (state svc)
        (rq_service_id req) (rq_call_id req) (rq_operator_index req) signature public_key);
    Ok (st, mkSubmitResponse true count (st_threshold_required status) met None).

(** [AggregationService::submit_signature] *)
Definition submit_signature (k : OpClocks) (svc : AggregationService)
    (req : SubmitSignatureRequest)
    : result ServiceError SubmitSignatureResponse * AggregationService :=
  match snapshot (oc_before k) (state svc) with
  | Err e => (Err (persistence_error e), svc)
  | Ok before =>
      match accept_signature k svc req with
      | Err e => (Err e, svc)
      | Ok (st, resp) =>
          persist_or_rollback k (set_state svc st) before
            (rq_service_id req) (rq_call_id req) resp
      end
  end.

(** [AggregationService::mark_submitted] *)
Definition mark_submitted (k : OpClocks) (svc : AggregationService) (sid cid : Z)
    : result ServiceError unit * AggregationService :=
  match snapshot (oc_before k) (state svc) with
  | Err e => (Err (persistence_error e), svc)
  | Ok before =>
      match AggState.mark_submitted (oc_now k) (state svc) sid cid with
      | Err e => (Err (Other e), svc)
      | Ok st => persist_or_rollback k (set_state svc st) before sid cid tt
      end
  end.

(** [AggregationService::remove_task] *)
Definition remove_task (k : OpClocks) (svc : AggregationService) (sid cid : Z)
    : bool * AggregationService :=
  match snapshot (oc_before k) (state svc) with
  | Err _ => (false, svc)
  | Ok before =>
      if negb (bool_decide (is_Some (AggState.get_status (oc_status k) (oc_status' k) (state svc) sid cid)))
      then (false, svc)
      else
        let id := mkTaskId sid cid in
        match delete_task id (persistence svc) with
        | (Err _, s) => (false, restore_persisted_task (set_persistence svc s) before id)
        | (Ok _, s) =>
            match flush s with
            | (Err _, s) => (false, restore_persisted_task (set_persistence svc s) before id)
            | (Ok _, s) =>
                let '(st, existed) := AggState.remove_task (state svc) sid cid in
                (existed, mkService st (config svc) s)
            end
        end
  end.

(** The deletion loop of [cleanup_with_persistence]: the tasks processed so
    far, the one in hand included, are re-saved when a deletion fails. *)
Fixpoint delete_removed (s : S) (seen todo : list PersistedTaskState)
    : result (PersistenceError * list PersistedTaskState) unit * S :=
  match todo with
  | [] => (Ok tt, s)
  | task :: todo =>
      match delete_task (persisted_id task) s with
      | (Err e, s) => (Err (e, seen ++ [task]), s)
      | (Ok _, s) => delete_removed s (seen ++ [task]) todo
      end
  end.

(** The state operation selected by a [CleanupKind]. *)
Definition cleanup_state (k : OpClocks) (svc : AggregationService) (kind : CleanupKind)
    : AggregationState * Z :=
  match kind with
  | All => cleanup_with_submitted_retention (oc_each k) (submitted_task_retention (config svc)) (state svc)
  | Expired => AggState.cleanup_expired (oc_each k) (state svc)
  | Submitted => cleanup_submitted_after (oc_each k) (submitted_task_retention (config svc)) (state svc)
  end.

(** [AggregationService::cleanup_with_persistence] *)
Definition cleanup_with_persistence (k : OpClocks) (svc : AggregationService) (kind : CleanupKind)
    : result ServiceError Z * AggregationService :=
  match snapshot (oc_before k) (state svc) with
  | Err e => (Err (persistence_error e), svc)
  | Ok before =>
      let '(st, removed) := cleanup_state k svc kind in
      let svc := set_state svc st in
      if removed =? 0 then (Ok 0, svc)
      else
        match snapshot (oc_after k) st with
        | Err e => (Err (persistence_error e), restore_snapshot (oc_restore k) svc before)
        | Ok after =>
            let remaining := persisted_id <$> after in
            let removed_tasks := filter (λ p, persisted_id p ∉ remaining) before in
            match delete_removed (persistence svc) [] removed_tasks with
            | (Err (e, seen), s) =>
                let svc := restore_persisted_tasks (set_persistence svc s) seen in
                (Err (persistence_error e), restore_snapshot (oc_restore k) svc before)
            | (Ok _, s) =>
                match flush s with
                | (Err e, s) =>
                    let svc := restore_persisted_tasks (set_persistence svc s) removed_tasks in
                    (Err (persistence_error e), restore_snapshot (oc_restore k) svc before)
                | (Ok _, s) => (Ok removed, set_persistence svc s)
                end
            end
        end
  end.

(** [AggregationService::cleanup], [cleanup_expired], [cleanup_submitted] *)
Definition cleanup_by (k : OpClocks) (svc : AggregationService) (kind : CleanupKind)
    : Z * AggregationService :=
  match cleanup_with_persistence k svc kind with
  | (Ok removed, svc) => (removed, svc)
  | (Err _, svc) => (0, svc)
  end.

(** One tick of the worker of [AggregationService::start_cleanup_worker]. *)
Definition cleanup_tick (k : OpClocks) (svc : AggregationService)
    : result ServiceError Z * AggregationService :=
  if auto_cleanup_submitted (config svc) then cleanup_with_persistence k svc All
  else cleanup_with_persistence k svc Expired.

(** ** Queries *)

(** [AggregationService::get_status] *)
Definition get_status (now now' : Instant) (svc : AggregationService) (sid cid : Z)
    : GetStatusResponse :=
  match AggState.get_status now now' (state svc) sid cid with
  | Some st =>
      {| gs_exists := true;
         gs_signatures_collected := st_signatures_collected st;
         gs_threshold_required := st_threshold_required st;
         gs_threshold_met := st_threshold_met st;
         gs_signer_bitmap := st_signer_bitmap st;
         gs_signed_stake_bps := Some (st_signed_stake_bps st);
         gs_submitted := st_submitted st;
         gs_is_expired := Some (st_is_expired st);
         gs_time_remaining_secs := st_time_remaining_secs st |}
  | None =>
      {| gs_exists := false; gs_signatures_collected := 0; gs_threshold_required := 0;
         gs_threshold_met := false; gs_signer_bitmap := 0; gs_signed_stake_bps := None;
         gs_submitted := false; gs_is_expired := None; gs_time_remaining_secs := None |}
  end.

(** [AggregationService::get_aggregated_result] *)
Definition get_aggregated_result (now : Instant) (svc : AggregationService) (sid cid : Z)
    : option AggregatedResultResponse :=
  task ← get_for_aggregation now (state svc) sid cid;
  '(agg_sig, agg_pk) ← result_ok (bls_aggregate (fa_signatures task) (fa_public_keys task));
  sig_bytes ← g1_serialize agg_sig;
  pk_bytes ← g2_serialize agg_pk;
  Some {| ar_service_id := fa_service_id task; ar_call_id := fa_call_id task;
          ar_output := fa_output task; ar_signer_bitmap := fa_signer_bitmap task;
          ar_non_signer_indices := fa_non_signer_indices task;
          ar_aggregated_signature := sig_bytes; ar_aggregated_pubkey := pk_bytes |}.

(** [AggregationService::get_stats] *)
Definition get_stats (now : TaskId → Instant) (svc : AggregationService) : ServiceStats :=
  let c := task_counts now (state svc) in
  mkServiceStats (c_total c) (c_pending c) (c_ready c) (c_submitted c) (c_expired c).

(** ** HTTP handlers *)

(** The threshold of a request, with the stakes collected into a map: the last
    entry for an index wins. *)
Definition threshold_of_request (c : ThresholdConfig) : ThresholdType * option (gmap Z Z) :=
  match c with
  | CountConfig n => (Count n, None)
  | StakeWeightedConfig bps stakes =>
      (StakeWeighted bps,
       Some (foldl (λ m x, <[os_operator_index x := os_stake x]> m) ∅ stakes))
  end.

(** [api::init_task] *)
Definition api_init_task (k : OpClocks) (svc : AggregationService) (req : InitTaskRequest)
    : InitTaskResponse * AggregationService :=
  let '(threshold_type, operator_stakes) := threshold_of_request (it_threshold req) in
  let cfg := mkTaskConfig threshold_type operator_stakes (cfg_ttl TaskConfig_default) in
  let '(r, svc) :=
    if bool_decide (it_message req = []) then
      init_task_with_config k svc (it_service_id req) (it_call_id req) (it_output req)
        (it_operator_count req) cfg
    else
      init_task_with_message_config k svc (it_service_id req) (it_call_id req) (it_output req)
        (it_message req) (it_signature_scheme req) (it_operator_count req) cfg in
  match r with
  | Ok _ => (mkInitTaskResponse true None, svc)
  | Err e => (mkInitTaskResponse false (Some (display_service_error e)), svc)
  end.

(** [api::submit_signature] *)
Definition api_submit_signature (k : OpClocks) (svc : AggregationService)
    (req : SubmitSignatureRequest)
    : StatusCode * SubmitSignatureResponse * AggregationService :=
  match submit_signature k svc req with
  | (Ok response, svc) => (OK_200, response, svc)
  | (Err e, svc) =>
      (BAD_REQUEST_400, mkSubmitResponse false 0 0 false (Some (display_service_error e)), svc)
  end.

(** [api::get_status] *)
Definition api_get_status (now now' : Instant) (svc : AggregationService) (req : GetStatusRequest)
    : GetStatusResponse := get_status now now' svc (gr_service_id req) (gr_call_id req).

(** [api::get_aggregated] *)
Definition api_get_aggregated (now : Instant) (svc : AggregationService) (req : GetStatusRequest)
    : StatusCode * option AggregatedResultResponse :=
  match get_aggregated_result now svc (gr_service_id req) (gr_call_id req) with
  | Some result => (OK_200, Some result)
  | None => (NOT_FOUND_404, None)
  end.

(** [api::mark_submitted]; the body is the success flag and the error text *)
Definition api_mark_submitted (k : OpClocks) (svc : AggregationService) (req : GetStatusRequest)
    : StatusCode * (bool * option string) * AggregationService :=
  match mark_submitted k svc (gr_service_id req) (gr_call_id req) with
  | (Ok _, svc) => (OK_200, (true, None), svc)
  | (Err e, svc) => (BAD_REQUEST_400, (false, Some (display_service_error e)), svc)
  end.

(** ** Acceptance of a signature *)

(** The verification the scheme of a task prescribes. *)
Definition verifies (t : TaskState) (pk : Pk) (s : Sig) : bool :=
  match signature_scheme t with
  | ArkworksSha256 => bls_verify pk (message t) s
  | TangleKeccak256 => bls_verify_tangle pk (message t) s
  end.

(** Exactly what must hold of a request for it to be accepted, and the task
    and response that result. *)
Definition acceptable (k : OpClocks) (svc : AggregationService) (req : SubmitSignatureRequest)
    (t t' : TaskState) (s : Sig) (pk : Pk) : Prop :=
  state svc !! mkTaskId (rq_service_id req) (rq_call_id req) = Some t ∧
  (validate_output (config svc) = true → rq_output req = output t) ∧
  g1_deserialize (rq_signature req) = Some s ∧ g2_deserialize (rq_public_key req) = Some pk ∧
  (verify_on_submit (config svc) = true → verifies t pk s = true) ∧
  is_expired (oc_status k) t = false ∧ submitted t = false ∧ is_expired (oc_now k) t = false ∧
  add_signature (oc_now' k) t (rq_operator_index req) s pk = Ok t'.

Lemma accept_signature_spec k svc req st resp :
  accept_signature k svc req = Ok (st, resp) ↔
  ∃ t t' s pk, acceptable k svc req t t' s pk ∧
    st = <[mkTaskId (rq_service_id req) (rq_call_id req) := t']> (state svc) ∧
    resp = mkSubmitResponse true (signature_count t') (threshold_value t) (threshold_met t') None.
Proof.
  unfold accept_signature, acceptable, check_output, check_signature, get_task_output,
    get_task_signature_context, AggState.get_status, AggState.submit_signature, verifies.
  destruct (state svc !! mkTaskId (rq_service_id req) (rq_call_id req)) as [t|] eqn:Et; simpl.
  2:{ split; [|naive_solver].
      destruct (validate_output (config svc)); simpl; [done|].
      destruct (g1_deserialize _); simpl; [|done]. destruct (g2_deserialize _); simpl; [|done].
      by destruct (verify_on_submit (config svc)). }
  split.
  - intros H.
    destruct (validate_output (config svc)) eqn:Hv; [case_bool_decide as Ho; [|done]|]; simpl in H;
      (destruct (g1_deserialize _) as [s|] eqn:Hs; simpl in H; [|done]);
      (destruct (g2_deserialize _) as [pk|] eqn:Hp; simpl in H; [|done]);
      (destruct (verify_on_submit (config svc)) eqn:Hw; simpl in H);
      try (destruct (signature_scheme t) eqn:Hsch; simpl in H);
      try (destruct (bls_verify _ _ _) eqn:Hb; simpl in H; [|done]);
      try (destruct (bls_verify_tangle _ _ _) eqn:Hb; simpl in H; [|done]);
      (destruct (is_expired (oc_status k) t) eqn:He; [done|]);
      (destruct (submitted t) eqn:Hsub; simpl in H; [done|]);
      (destruct (is_expired (oc_now k) t) eqn:He'; simpl in H; [done|]);
      (destruct (add_signature _ _ _ _ _) as [t'|] eqn:Ha; simpl in H; [|done]);
      inv_ok; simplify_eq; exists t, t', s, pk; rewrite ?Hsch; by split_and!.
  - intros (t0 & t' & s & pk & (Ht0 & Ho & Hs & Hp & Hv & He & Hsub & He' & Ha) & -> & ->).
    injection Ht0 as <-. rewrite Hs, Hp, He, Hsub, He'. simpl.
    destruct (validate_output (config svc)); [rewrite bool_decide_eq_true_2 by auto|]; simpl;
      (destruct (verify_on_submit (config svc)); [|simpl; by rewrite Ha]); simpl;
      destruct (signature_scheme t); rewrite Hv by done; simpl; by rewrite Ha.
Qed.

End service.
