(* ===== verification/AggDurable.v ===== *)
(** * Durability and safety of the aggregation service

    Theorems about [AggService] over any backend that meets the
    [DurableBackend] contract of [AggBackend] and whose [flush] cannot fail, as
    [FilePersistence]: every request leaves memory and storage describing the
    same tasks; a failed request changes nothing but recorded times, by at most
    the 2 ms that its roll-back loses; a restart recovers the table, where only
    tasks of failed cleanups may be missing; and an aggregated result carries a
    valid signature, unless the Tangle scheme meets the identity. *)

From S2P Require Import Prelude Bn254 AggTask AggState AggPersist AggBackend AggService.
From Stdlib Require Import ZArith Lia.
From stdpp Require Import base gmap sets list sorting strings fin_maps numbers relations.

#[local] Open Scope Z_scope.

(** [flush] has nothing left to do, as when writes are already flushed. *)
Class FlushTotal (S : Type) `{!PersistenceBackend S} : Prop :=
  flush_total (s : S) : (flush s).1 = Ok tt.

#[export] Instance file_flush_total `{J : TableJson} : FlushTotal FilePersistence.
Proof. by intros s. Qed.

Section durable.
  Context {B : Bn254} {C : TextCodec} {BL : Bn254Laws B} {CL : TextCodecLaws C}.
  Context {S : Type} {PB : PersistenceBackend S} {DB : DurableBackend S} {FT : FlushTotal S}.

Abbreviation AggregationState := (gmap TaskId TaskState).

Section accuracy.
  (** Whether the clocks run together, and at which offset *)
  Context (acc : option Z).

(** ** Records of tasks *)

(** [p] is what writing [t] stores, up to [d] in the recorded times. *)
Definition record_of (d : Z) (t : TaskState) (p : PersistedTaskState) : Prop :=
  ∃ k t0, task_wf t0 ∧ clocks_ok acc k ∧ times_ok acc t0 ∧ task_near acc d t0 t ∧ persist_task_state k t0 = Ok p.

Lemma record_of_persist d k t p :
  0 ≤ d → task_wf t → clocks_ok acc k → times_ok acc t → persist_task_state k t = Ok p → record_of d t p.
Proof. intros Hd Hwf Hk Ht Hp. exists k, t. split_and!; try done. by apply task_near_refl. Qed.

Lemma record_of_near d d' t t' p : record_of d t p → task_near acc d' t t' → record_of (d + d') t' p.
Proof. intros (k & t0 & ? & ? & ? & Hn & ?) Hn'. exists k, t0. split_and!; try done. by eapply task_near_trans. Qed.

Lemma record_of_mono d d' t p : d ≤ d' → record_of d t p → record_of d' t p.
Proof. intros Hd (k & t0 & ? & ? & ? & Hn & ?). exists k, t0. split_and!; try done. by eapply task_near_mono. Qed.

Lemma record_of_id d t p : record_of d t p → persisted_id p = mkTaskId (service_id t) (call_id t).
Proof.
  intros (k & t0 & _ & _ & _ & Hn & Hp). rewrite (persist_Ok_id _ _ _ Hp).
  by destruct (task_near_id _ _ _ _ Hn) as [-> ->].
Qed.

(** A record reads back as the task it records. *)
Lemma record_of_restore d k t p :
  clocks_ok acc k → record_of d t p →
  ∃ t', restore_task_state k p = Ok t' ∧ task_near acc (d + ROUND) t t' ∧ record_of ROUND t' p.
Proof.
  intros Hk (k0 & t0 & Hwf & Hk0 & Ht0 & Hn & Hp).
  destruct (restore_persisted_near acc k0 k t0 p) as (t' & Ht' & Hn'); [done..|].
  exists t'. split_and!; [done| |by exists k0, t0]. eapply task_near_trans; [|done]. by apply task_near_sym.
Qed.

(** ** Tables and storage *)

(** The same tasks, their times up to [d] *)
Definition tables_near (d : Z) (st st' : AggregationState) : Prop :=
  ∀ id, option_Forall2 (task_near acc d) (st !! id) (st' !! id).

Definition timed (st : AggregationState) : Prop := ∀ id t, st !! id = Some t → times_ok acc t.

(** Storage holds records of the table's tasks and of no others; only tasks in
    [lost] may have no record. *)
Definition synced (d : Z) (lost : gset TaskId) (st : AggregationState) (s : S) : Prop := ∀ id,
  match stored s !! id with
  | Some p => ∃ t, st !! id = Some t ∧ record_of d t p
  | None => st !! id = None ∨ id ∈ lost
  end.

Definition svc_ok (d : Z) (lost : gset TaskId) (svc : AggregationService) : Prop :=
  0 ≤ d ∧ state_wf (state svc) ∧ store_ok (persistence svc) ∧ synced d lost (state svc) (persistence svc).

Lemma tables_near_refl d st : 0 ≤ d → tables_near d st st.
Proof. intros Hd id. destruct (st !! id) as [t|]; constructor. by apply task_near_refl. Qed.

Lemma tables_near_lookup d st st' id t' :
  tables_near d st st' → st' !! id = Some t' → ∃ t, st !! id = Some t ∧ task_near acc d t t'.
Proof. intros Hn Ht'. specialize (Hn id). rewrite Ht' in Hn. inversion Hn as [t ? ? Heq|]; subst. by exists t. Qed.

Lemma tables_near_wf d st st' : state_wf st → tables_near d st st' → state_wf st'.
Proof.
  intros Hwf Hn id t' Ht'. destruct (tables_near_lookup _ _ _ _ _ Hn Ht') as (t & Ht & Hs).
  destruct (Hwf id t Ht) as [Hw ->]. split; [by eapply task_near_wf|].
  by destruct (task_near_id _ _ _ _ Hs) as [-> ->].
Qed.

Lemma synced_near d d' lost st st' s : synced d lost st s → tables_near d' st st' → synced (d + d') lost st' s.
Proof.
  intros Hs Hn id. specialize (Hs id). specialize (Hn id). destruct (stored s !! id) as [p|].
  - destruct Hs as (t & Ht & Hr). rewrite Ht in Hn. inversion Hn as [? t' Hn' Heq|]; subst.
    exists t'. split; [done|]. by eapply record_of_near.
  - destruct Hs as [Hs|Hs]; [|by right]. rewrite Hs in Hn. inversion Hn. by left.
Qed.

Lemma synced_mono d d' lost lost' st s : d ≤ d' → lost ⊆ lost' → synced d lost st s → synced d' lost' st s.
Proof.
  intros Hd Hl Hs id. specialize (Hs id). destruct (stored s !! id) as [p|].
  - destruct Hs as (t & Ht & Hr). exists t. split; [done|]. by eapply record_of_mono.
  - destruct Hs as [|]; [by left|right; set_solver].
Qed.

Lemma svc_ok_mono d d' lost lost' svc : d ≤ d' → lost ⊆ lost' → svc_ok d lost svc → svc_ok d' lost' svc.
Proof. intros Hd Hl (? & ? & ? & ?). split_and!; [lia|done..|]. by eapply synced_mono. Qed.

(** Storing the record of one task keeps table and storage in step. *)
Lemma synced_insert d lost st s s' id t p :
  synced d lost st s → stored s' = <[id := p]> (stored s) → record_of d t p → synced d lost (<[id := t]> st) s'.
Proof.
  intros Hs Hst Hr i. rewrite Hst. destruct (decide (i = id)) as [->|Hne].
  - rewrite !lookup_insert_eq. by exists t.
  - rewrite !lookup_insert_ne by done. apply Hs.
Qed.

Lemma synced_same d lost st s s' : synced d lost st s → stored s' = stored s → synced d lost st s'.
Proof. intros Hs He id. rewrite He. apply Hs. Qed.

(** Deleting the record of a task that is gone, or that may be lost *)
Lemma synced_delete d lost st s s' id :
  synced d lost st s → stored s' = delete id (stored s) → st !! id = None ∨ id ∈ lost → synced d lost st s'.
Proof.
  intros Hs Hst Hid i. rewrite Hst. destruct (decide (i = id)) as [->|Hne].
  - by rewrite lookup_delete_eq.
  - rewrite lookup_delete_ne by done. apply Hs.
Qed.

(** ** Snapshots *)

Lemma find_persisted_spec ps sid cid p :
  find_persisted ps sid cid = Some p → p ∈ ps ∧ persisted_id p = mkTaskId sid cid.
Proof.
  intros [Hin Heq]%List.find_some. rewrite andb_true_iff, !Z.eqb_eq in Heq.
  split; [by apply list_elem_of_In|]. unfold persisted_id. by destruct Heq as [-> ->].
Qed.

Lemma find_persisted_None ps sid cid :
  find_persisted ps sid cid = None → mkTaskId sid cid ∉ persisted_id <$> ps.
Proof.
  intros Hn (p & Heq & Hp)%list_elem_of_fmap. rewrite list_elem_of_In in Hp.
  pose proof (List.find_none _ _ Hn p Hp) as Hf. simpl in Hf.
  unfold persisted_id in Heq. injection Heq as -> ->. by rewrite !Z.eqb_refl in Hf.
Qed.

(** The entry of a snapshot for one identifier. *)
Lemma snapshot_find k st ps sid cid :
  state_wf st → snapshot k st = Ok ps →
  match find_persisted ps sid cid with
  | Some p => ∃ t, st !! mkTaskId sid cid = Some t ∧ task_wf t ∧
      persist_task_state (k (mkTaskId sid cid)) t = Ok p ∧ persisted_id p = mkTaskId sid cid
  | None => st !! mkTaskId sid cid = None
  end.
Proof.
  intros Hwf Hs. destruct (snapshot_total k st Hwf) as (ps' & Hs' & _ & Hdom & Hall).
  assert (ps' = ps) as -> by congruence.
  destruct (find_persisted ps sid cid) as [p|] eqn:Ef.
  - apply find_persisted_spec in Ef as [Hp Hid]. destruct (Hall p Hp) as (t & Ht & Hpt).
    rewrite <-Hid. exists t. split_and!; [done| |done..]. by apply (Hwf (persisted_id p)).
  - apply find_persisted_None in Ef. destruct (st !! mkTaskId sid cid) eqn:E; [|done].
    exfalso. apply Ef. apply Hdom. rewrite E. by eexists.
Qed.

(** Rolling memory back to a snapshot. *)
Lemma restore_snapshot_spec k k' st (svc : AggregationService (S := S)) ps :
  state_wf st → timed st → (∀ id, clocks_ok acc (k id)) → (∀ id, clocks_ok acc (k' id)) → snapshot k st = Ok ps →
  let svc' := restore_snapshot k' svc ps in
  tables_near ROUND st (state svc') ∧ persistence svc' = persistence svc ∧ config svc' = config svc.
Proof.
  intros Hwf Ht Hk Hk' Hs. destruct (snapshot_restore_near acc k k' st) as (ps' & st' & Hs' & Hr & Hf); [done..|].
  assert (ps' = ps) as -> by congruence. unfold restore_snapshot. by rewrite Hr.
Qed.

(** ** Persisting one task *)

(** The error is the backend's, from storing a record of the task. *)
Definition save_failed (svc : AggregationService (S := S)) (t : TaskState) (e : ServiceError) : Prop :=
  ∃ k p e', persist_task_state k t = Ok p ∧ (save_task p (persistence svc)).1 = Err e' ∧ e = persistence_error e'.

Lemma persist_task_spec k (svc : AggregationService (S := S)) sid cid t :
  state_wf (state svc) → store_ok (persistence svc) → state svc !! mkTaskId sid cid = Some t →
  let '(r, svc') := persist_task k svc sid cid in
  state svc' = state svc ∧ config svc' = config svc ∧ store_ok (persistence svc') ∧
  match r with
  | Ok _ => ∃ p, persist_task_state (k (mkTaskId sid cid)) t = Ok p ∧
      stored (persistence svc') = <[mkTaskId sid cid := p]> (stored (persistence svc))
  | Err e => stored (persistence svc') = stored (persistence svc) ∧ save_failed svc t e
  end.
Proof.
  intros Hwf Hok Ht. unfold persist_task.
  destruct (snapshot_total k (state svc) Hwf) as (ps & Hs & _). rewrite Hs.
  pose proof (snapshot_find k (state svc) ps sid cid Hwf Hs) as Hf.
  destruct (find_persisted ps sid cid) as [p|]; [|congruence].
  destruct Hf as (t' & Ht' & _ & Hp & Hid). assert (t' = t) as -> by congruence.
  pose proof (save_spec p (persistence svc) Hok) as Hsave.
  destruct (save_task p (persistence svc)) as [[u|e] s1] eqn:Esave; destruct Hsave as [Hok1 Hst1].
  2:{ split_and!; [done..|]. exists (k (mkTaskId sid cid)), p, e. by rewrite Esave. }
  pose proof (flush_spec s1 Hok1) as Hfl. pose proof (flush_total s1) as Hft.
  destruct (flush s1) as [r s2]. simpl in Hft. subst r. destruct Hfl as [Hok2 Hst2].
  simpl. split_and!; [done..|]. exists p. split; [done|]. by rewrite Hst2, Hst1, Hid.
Qed.

Lemma flush_synced d lost st s :
  store_ok s → synced d lost st s → store_ok (flush s).2 ∧ synced d lost st (flush s).2.
Proof.
  intros H1 H2. pose proof (flush_spec s H1) as Hfl. destruct (flush s) as [r s2].
  destruct Hfl as [? He]. split; [done|]. by eapply synced_same.
Qed.

(** Saving a record of a live task *)
Lemma save_synced d lost st s p t :
  store_ok s → synced d lost st s → st !! persisted_id p = Some t → record_of d t p →
  store_ok (save_task p s).2 ∧ synced d lost st (save_task p s).2.
Proof.
  intros Hok Hsy Ht Hr. pose proof (save_spec p s Hok) as Hs. destruct (save_task p s) as [[u|e] s1]; destruct Hs as [Hok1 Hst1].
  - split; [done|]. rewrite <-(insert_id st _ t Ht). by eapply synced_insert.
  - split; [done|]. by eapply synced_same.
Qed.

(** Re-writing the old record of one task, or deleting it if there was none,
    whether or not the write succeeds. *)
Lemma restore_persisted_task_spec d lost k st (svc : AggregationService (S := S)) ps sid cid :
  0 ≤ d → state_wf st → timed st → (∀ id, clocks_ok acc (k id)) → store_ok (persistence svc) →
  synced d lost st (persistence svc) → snapshot k st = Ok ps →
  let svc' := restore_persisted_task svc ps (mkTaskId sid cid) in
  state svc' = state svc ∧ config svc' = config svc ∧
  store_ok (persistence svc') ∧ synced d lost st (persistence svc').
Proof.
  intros Hd Hwf Ht Hk Hok Hsy Hs. pose proof (snapshot_find k st ps sid cid Hwf Hs) as Hf.
  unfold restore_persisted_task. simpl. destruct (find_persisted ps sid cid) as [p|].
  - destruct Hf as (t & Hid & Hw & Hp & Hpid).
    assert (record_of d t p) as Hr by (eapply record_of_persist; eauto).
    rewrite <-Hpid in Hid. destruct (save_synced d lost st _ p t Hok Hsy Hid Hr) as [Hok1 Hsy1].
    destruct (save_task p (persistence svc)) as [[u|e] s1]; simpl in *; [|done].
    by destruct (flush_synced d lost st s1 Hok1 Hsy1).
  - pose proof (delete_spec (mkTaskId sid cid) (persistence svc) Hok) as Hdel.
    destruct (delete_task _ (persistence svc)) as [[u|e] s1]; destruct Hdel as [Hok1 Hst1]; simpl.
    + assert (synced d lost st s1) as Hsy1 by (eapply synced_delete; eauto).
      by destruct (flush_synced d lost st s1 Hok1 Hsy1).
    + split_and!; [done..|]. by eapply synced_same.
Qed.

(** ** One mutating request *)

(** The clocks that a request reads for its snapshots *)
Definition op_ok (k : OpClocks) : Prop := ∀ id,
  clocks_ok acc (oc_before k id) ∧ clocks_ok acc (oc_after k id) ∧ clocks_ok acc (oc_restore k id).

Lemma op_ok_clocks k : op_ok k →
  (∀ id, clocks_ok acc (oc_before k id)) ∧ (∀ id, clocks_ok acc (oc_after k id)) ∧ (∀ id, clocks_ok acc (oc_restore k id)).
Proof. intros Hk. split_and!; intros id; apply Hk. Qed.

(** A request on task [id] either replaced it by [t'] in memory and in storage,
    or failed and changed neither. *)
Definition outcome {A} (d : Z) (lost : gset TaskId) (svc : AggregationService (S := S)) (id : TaskId)
    (t' : TaskState) (r : result ServiceError A) (svc' : AggregationService (S := S)) : Prop :=
  config svc' = config svc ∧
  match r with
  | Ok _ => state svc' = <[id := t']> (state svc) ∧ (times_ok acc t' → svc_ok d lost svc')
  | Err _ => tables_near ROUND (state svc) (state svc') ∧ svc_ok (d + ROUND) lost svc'
  end.

Lemma persist_or_rollback_spec {A} d lost k (svc : AggregationService (S := S)) ps sid cid t' (a : A) :
  svc_ok d lost svc → timed (state svc) → op_ok k → snapshot (oc_before k) (state svc) = Ok ps →
  state_wf (<[mkTaskId sid cid := t']> (state svc)) →
  let '(r, svc') :=
    persist_or_rollback k (set_state svc (<[mkTaskId sid cid := t']> (state svc))) ps sid cid a in
  outcome d lost svc (mkTaskId sid cid) t' r svc' ∧
  match r with Ok a' => a' = a | Err e => save_failed svc t' e end.
Proof.
  intros (Hd & Hwf & Hok & Hsy) Ht Hk Hs Hwf'. unfold persist_or_rollback. pose proof (op_ok_clocks k Hk) as (Hkb & Hka & Hkr).
  set (svc1 := set_state svc _).
  pose proof (persist_task_spec (oc_after k) svc1 sid cid t' Hwf' Hok (lookup_insert_eq _ _ _)) as Hp.
  destruct (persist_task (oc_after k) svc1 sid cid) as [[u|e] svc2];
    destruct Hp as (Hst & Hcfg & Hok2 & Hp).
  - destruct Hp as (p & Hp & Hsto). split; [|done]. split_and!; [done|by rewrite Hst|]. intros Ht'.
    split_and!; [done|by rewrite Hst|done|]. rewrite Hst. eapply synced_insert; [done..|].
    eapply record_of_persist; [done| |apply Hka|done..]. apply (Hwf' (mkTaskId sid cid)), lookup_insert_eq.
  - destruct Hp as [Hp Hfail].
    assert (synced d lost (state svc) (persistence svc2)) as Hsy2 by (by eapply synced_same).
    destruct (restore_persisted_task_spec d lost (oc_before k) (state svc) svc2 ps sid cid) as (Hst3 & Hcfg3 & Hok3 & Hsy3);
      [done..|].
    set (svc3 := restore_persisted_task svc2 ps (mkTaskId sid cid)) in *.
    destruct (restore_snapshot_spec (oc_before k) (oc_restore k) (state svc) svc3 ps) as (Hf & Hp4 & Hcfg4);
      [done..|].
    set (svc4 := restore_snapshot (oc_restore k) svc3 ps) in *. split; [|done].
    split_and!; [rewrite Hcfg4, Hcfg3, Hcfg; done|done|].
    split_and!; [unfold ROUND; lia|exact (tables_near_wf _ _ _ Hwf Hf)|by rewrite Hp4|]. rewrite Hp4. by eapply synced_near.
Qed.

(** What fails before anything is stored changes nothing. *)
Lemma outcome_nothing {A} d lost svc id t' e : svc_ok d lost svc → outcome (A := A) d lost svc id t' (Err e) svc.
Proof.
  intros Hok. split; [done|]. split; [apply tables_near_refl; unfold ROUND; lia|].
  eapply svc_ok_mono; [|done|done]. unfold ROUND. lia.
Qed.

Lemma init_outcome d lost k (svc : AggregationService (S := S)) sid cid out msg sch n cfg :
  svc_ok d lost svc → timed (state svc) → op_ok k → is_u32 n →
  let '(r, svc') := init_task_with_message_config k svc sid cid out msg sch n cfg in
  let fresh := with_message_config (oc_now k) sid cid out msg sch n (cfg_threshold_type cfg)
                 (cfg_operator_stakes cfg) (cfg_ttl cfg) in
  ∃ t', outcome d lost svc (mkTaskId sid cid) t' r svc' ∧ same_context t' fresh = true ∧
    (t' = fresh ∨ state svc !! mkTaskId sid cid = Some t').
Proof.
  intros Hok Ht Hk Hn. pose proof Hok as (Hd & Hwf & Hsto & Hsy). unfold init_task_with_message_config.
  destruct (snapshot_total (oc_before k) (state svc) Hwf) as (ps & Hs & _). rewrite Hs.
  set (fresh := with_message_config _ _ _ _ _ _ _ _ _ _).
  assert (same_context fresh fresh = true) as Hself by (by apply same_context_spec).
  destruct (AggState.init_task_with_message_config _ _ _ _ _ _ _ _ _) as [st|e] eqn:Hi.
  2:{ exists fresh. split_and!; [by apply outcome_nothing|done|by left]. }
  assert (state_wf st) as Hwf' by (eapply agg_step_wf; [done|by eapply step_init]).
  apply init_cases in Hi as [[Hnone ->]|(t & Hl & Hctx & ->)].
  - pose proof (persist_or_rollback_spec d lost k svc ps sid cid fresh tt Hok Ht Hk Hs Hwf') as H.
    fold fresh. destruct (persist_or_rollback _ _ _ _ _ _) as [r svc']. destruct H as [H _].
    exists fresh. split_and!; [done|done|by left].
  - pose proof (persist_or_rollback_spec d lost k svc ps sid cid t tt Hok Ht Hk Hs) as H.
    rewrite insert_id in H by done. specialize (H Hwf').
    destruct (persist_or_rollback _ _ _ _ _ _) as [r svc']. destruct H as [H _].
    exists t. split_and!; [done|done|by right].
Qed.

(** Signing does not touch the times of a task. *)
Lemma add_signature_times now t i s pk t' : add_signature now t i s pk = Ok t' → times_ok acc t → times_ok acc t'.
Proof. intros (_ & _ & _ & ->)%add_signature_Ok_inv Ht. exact Ht. Qed.

Lemma submit_outcome d lost k (svc : AggregationService (S := S)) req :
  svc_ok d lost svc → timed (state svc) → op_ok k → is_u32 (rq_operator_index req) →
  let id := mkTaskId (rq_service_id req) (rq_call_id req) in
  let '(r, svc') := submit_signature k svc req in
  match r with
  | Ok resp => ∃ t t' s pk, acceptable k svc req t t' s pk ∧ config svc' = config svc ∧
      state svc' = <[id := t']> (state svc) ∧ svc_ok d lost svc' ∧
      resp = mkSubmitResponse true (signature_count t') (threshold_value t) (threshold_met t') None
  | Err e => config svc' = config svc ∧ svc_ok (d + ROUND) lost svc' ∧
      ((svc' = svc ∧ ∀ t t' s pk, ¬ acceptable k svc req t t' s pk) ∨
       (tables_near ROUND (state svc) (state svc') ∧
        ∃ t t' s pk, acceptable k svc req t t' s pk ∧ save_failed svc t' e))
  end.
Proof.
  intros Hok Hti Hk Hn. pose proof Hok as (Hd & Hwf & Hsto & Hsy). unfold submit_signature.
  destruct (snapshot_total (oc_before k) (state svc) Hwf) as (ps & Hs & _). rewrite Hs.
  destruct (accept_signature k svc req) as [[st resp]|e] eqn:Ha.
  2:{ split_and!; [done|eapply svc_ok_mono; [|done|done]; unfold ROUND; lia|]. left. split; [done|]. intros t t' s pk Hacc.
      assert (∃ v, accept_signature k svc req = Ok v) as [v Hv]; [|congruence].
      eexists (_, _). apply accept_signature_spec. by exists t, t', s, pk. }
  apply accept_signature_spec in Ha as (t & t' & s & pk & Hacc & -> & ->).
  pose proof Hacc as (Ht & _ & _ & _ & _ & _ & Hsub & He & Hadd).
  assert (state_wf (<[mkTaskId (rq_service_id req) (rq_call_id req) := t']> (state svc))) as Hwf'.
  { eapply agg_step_wf; [done|]. eapply (step_submit _ _ (oc_now k) (oc_now' k)
      (rq_service_id req) (rq_call_id req)); [done|]. unfold AggState.submit_signature.
    rewrite Ht. simpl. rewrite Hsub, He, Hadd. done. }
  pose proof (persist_or_rollback_spec d lost k svc ps _ _ t'
    (mkSubmitResponse true (signature_count t') (threshold_value t) (threshold_met t') None) Hok Hti Hk Hs Hwf') as H.
  destruct (persist_or_rollback _ _ _ _ _ _) as [[resp|e] svc']; destruct H as [(Hcfg & H1 & H2) Hr].
  - exists t, t', s, pk. split_and!; try done. apply H2. eapply add_signature_times; [done|]. by eapply Hti.
  - split_and!; [done..|]. right. split; [done|]. by exists t, t', s, pk.
Qed.

Lemma mark_outcome d lost k (svc : AggregationService (S := S)) sid cid :
  svc_ok d lost svc → timed (state svc) → op_ok k →
  let '(r, svc') := mark_submitted k svc sid cid in
  match r with
  | Ok _ => ∃ t, state svc !! mkTaskId sid cid = Some t ∧
      outcome d lost svc (mkTaskId sid cid) (set_submitted t (oc_now k)) r svc'
  | Err _ => config svc' = config svc ∧ svc_ok (d + ROUND) lost svc' ∧ tables_near ROUND (state svc) (state svc')
  end.
Proof.
  intros Hok Ht Hk. pose proof Hok as (Hd & Hwf & Hsto & Hsy). unfold mark_submitted.
  destruct (snapshot_total (oc_before k) (state svc) Hwf) as (ps & Hs & _). rewrite Hs.
  destruct (AggState.mark_submitted _ _ _ _) as [st|e] eqn:Hm.
  2:{ split_and!; [done|eapply svc_ok_mono; [|done|done]|apply tables_near_refl]; unfold ROUND; lia. }
  assert (state_wf st) as Hwf' by (eapply agg_step_wf; [done|by eapply step_mark]).
  apply mark_cases in Hm as (t & Hl & ->).
  pose proof (persist_or_rollback_spec d lost k svc ps sid cid (set_submitted t (oc_now k)) tt Hok Ht Hk Hs Hwf') as H.
  destruct (persist_or_rollback _ _ _ _ _ _) as [[u|e] svc']; destruct H as [H _]; [by exists t|by destruct H as (? & ? & ?)].
Qed.

Lemma remove_outcome d lost k (svc : AggregationService (S := S)) sid cid :
  svc_ok d lost svc → timed (state svc) → op_ok k →
  let '(b, svc') := remove_task k svc sid cid in
  config svc' = config svc ∧ svc_ok d lost svc' ∧
  state svc' = if b then delete (mkTaskId sid cid) (state svc) else state svc.
Proof.
  intros Hok Ht Hk. pose proof Hok as (Hd & Hwf & Hsto & Hsy). pose proof (op_ok_clocks k Hk) as (Hkb & Hka & Hkr). unfold remove_task.
  destruct (snapshot_total (oc_before k) (state svc) Hwf) as (ps & Hs & _). rewrite Hs.
  unfold AggState.get_status. destruct (state svc !! mkTaskId sid cid) as [t|] eqn:Et; simpl; [|done].
  rewrite bool_decide_eq_true_2 by (by eexists). simpl.
  pose proof (delete_spec (mkTaskId sid cid) (persistence svc) Hsto) as Hdel.
  destruct (delete_task _ (persistence svc)) as [[u|e] s1]; destruct Hdel as [Hok1 Hst1].
  - pose proof (flush_spec s1 Hok1) as Hfl. pose proof (flush_total s1) as Hft.
    destruct (flush s1) as [r s2]. simpl in Hft. subst r. destruct Hfl as [Hok2 Hst2]. simpl.
    split_and!; [done| |done]. split_and!; [done| |done|]; simpl.
    + eapply agg_step_wf; [done|]. by apply (step_remove _ _ sid cid).
    + intros id. rewrite Hst2, Hst1. destruct (decide (id = mkTaskId sid cid)) as [->|Hne].
      * rewrite !lookup_delete_eq. by left.
      * rewrite !lookup_delete_ne by done. apply Hsy.
  - assert (synced d lost (state svc) s1) as Hsy1 by (by eapply synced_same).
    destruct (restore_persisted_task_spec d lost (oc_before k) (state svc) (set_persistence svc s1) ps sid cid)
      as (Hst & Hcfg & Hok2 & Hsy2); [done..|].
    split_and!; [done| |done]. split_and!; [done|by rewrite Hst|done|by rewrite Hst].
Qed.

(** ** Cleanup *)

(** The tasks that a cleanup would remove *)
Definition dropped (k : OpClocks) (svc : AggregationService (S := S)) (kind : CleanupKind) : gset TaskId :=
  dom (state svc) ∖ dom (cleanup_state k svc kind).1.

Lemma delete_removed_spec d lost todo seen s st :
  store_ok s → synced d lost st s → (∀ p, p ∈ todo → persisted_id p ∈ lost) →
  let '(r, s') := delete_removed s seen todo in
  store_ok s' ∧ synced d lost st s' ∧
  match r with
  | Ok _ => ∀ id, stored s' !! id =
      if decide (id ∈ persisted_id <$> todo) then None else stored s !! id
  | Err (_, failed) => ∀ p, p ∈ failed → p ∈ seen ++ todo
  end.
Proof.
  revert seen s. induction todo as [|p todo IH]; intros seen s Hok Hsy Hlost; cbn [delete_removed].
  { split_and!; [done..|]. intros id. by rewrite decide_False by apply not_elem_of_nil. }
  pose proof (delete_spec (persisted_id p) s Hok) as Hd.
  destruct (delete_task (persisted_id p) s) as [[u|e] s1]; destruct Hd as [Hok1 Hst1].
  - assert (synced d lost st s1) as Hsy1 by (eapply synced_delete; [done..|]; right; apply Hlost; by left).
    specialize (IH (seen ++ [p]) s1 Hok1 Hsy1 (λ q Hq, Hlost q (list_elem_of_further _ _ _ Hq))).
    destruct (delete_removed s1 (seen ++ [p]) todo) as [[v|[e failed]] s2];
      destruct IH as (Hok2 & Hso2 & Hr); split_and!; try done.
    + intros id. rewrite Hr, Hst1, fmap_cons. destruct (decide (id = persisted_id p)) as [->|Hne].
      * rewrite lookup_delete_eq. repeat case_decide; done || set_solver.
      * rewrite lookup_delete_ne by done.
        rewrite (decide_ext (id ∈ persisted_id p :: (persisted_id <$> todo)) (id ∈ persisted_id <$> todo)); [done|].
        set_solver.
    + intros q Hq. apply Hr in Hq. by rewrite <-app_assoc in Hq.
  - split_and!; [done|by eapply synced_same|]. intros q. set_solver.
Qed.

(** Re-saving records of live tasks never stores anything else. *)
Lemma restore_persisted_tasks_spec d lost st (svc : AggregationService (S := S)) ps :
  store_ok (persistence svc) → synced d lost st (persistence svc) →
  (∀ p, p ∈ ps → ∃ t, st !! persisted_id p = Some t ∧ record_of d t p) →
  let svc' := restore_persisted_tasks svc ps in
  state svc' = state svc ∧ config svc' = config svc ∧
  store_ok (persistence svc') ∧ synced d lost st (persistence svc').
Proof.
  intros Hok Hsy Hps. unfold restore_persisted_tasks. simpl.
  assert (∀ s, store_ok s → synced d lost st s →
    store_ok (foldl (λ s task, (save_task task s).2) s ps) ∧
    synced d lost st (foldl (λ s task, (save_task task s).2) s ps)) as Hfold.
  { clear Hok Hsy. induction ps as [|p ps IH]; [done|]. intros s Hok Hsy. simpl.
    destruct (Hps p) as (t & Ht & Hr); [by left|]. destruct (save_synced d lost st s p t Hok Hsy Ht Hr).
    apply IH; [intros q Hq; apply Hps; by right|done..]. }
  destruct (Hfold _ Hok Hsy) as [Hok1 Hsy1]. by destruct (flush_synced _ _ _ _ Hok1 Hsy1).
Qed.

Lemma cleanup_state_retain k (svc : AggregationService (S := S)) kind :
  ∃ f, (cleanup_state k svc kind).1 = retain f (state svc) ∧
    (cleanup_state k svc kind).2 =
      Z.of_nat (size (state svc)) - Z.of_nat (size (retain f (state svc))) ∧
    agg_step (state svc) (cleanup_state k svc kind).1.
Proof.
  destruct kind; eexists; (split; [done|]); (split; [done|]).
  - by eapply step_cleanup_all.
  - by eapply step_cleanup_expired.
  - by eapply step_cleanup_submitted.
Qed.

Lemma cleanup_outcome d lost k (svc : AggregationService (S := S)) kind :
  svc_ok d lost svc → timed (state svc) → op_ok k →
  let '(r, svc') := cleanup_with_persistence k svc kind in
  config svc' = config svc ∧
  match r with
  | Ok n => state svc' = (cleanup_state k svc kind).1 ∧ n = (cleanup_state k svc kind).2 ∧ svc_ok d lost svc'
  | Err _ => tables_near ROUND (state svc) (state svc') ∧ svc_ok (d + ROUND) (lost ∪ dropped k svc kind) svc'
  end.
Proof.
  intros (Hd & Hwf & Hsto & Hsy) Ht Hk. pose proof (op_ok_clocks k Hk) as (Hkb & Hka & Hkr). unfold cleanup_with_persistence, dropped.
  destruct (snapshot_total (oc_before k) (state svc) Hwf) as (ps & Hs & _ & Hdom & Hall). rewrite Hs.
  destruct (cleanup_state_retain k svc kind) as (f & Hst & Hn & Hstep).
  pose proof (agg_step_wf _ _ Hwf Hstep) as Hwf'.
  destruct (cleanup_state k svc kind) as [st n]. simpl in *.
  destruct (n =? 0) eqn:Hz; to_prop.
  { assert (st = state svc) as ->.
    { rewrite Hst. apply retain_size_eq. pose proof (retain_size_le f (state svc)). lia. }
    by split_and!. }
  destruct (snapshot_total (oc_after k) st Hwf') as (ps' & Hs' & _ & Hdom' & _). rewrite Hs'.
  set (gone := filter _ ps). set (lost' := lost ∪ _).
  assert (∀ id, id ∈ persisted_id <$> gone ↔ is_Some (state svc !! id) ∧ st !! id = None) as Hiff.
  { intros id. unfold gone. rewrite list_elem_of_fmap, <-Hdom. setoid_rewrite list_elem_of_filter.
    rewrite list_elem_of_fmap. rewrite eq_None_not_Some, <-Hdom'. naive_solver. }
  assert (∀ p, p ∈ gone → (∃ t, state svc !! persisted_id p = Some t ∧ record_of d t p) ∧ persisted_id p ∈ lost') as Hgone.
  { intros p Hp. pose proof (proj1 (Hiff (persisted_id p)) (list_elem_of_fmap_2 _ _ _ Hp)) as [Hin Hout]. split.
    - apply list_elem_of_filter in Hp as [_ Hp]. destruct (Hall p Hp) as (t & Hl & Hpt). exists t. split; [done|].
      eapply record_of_persist; [done|by apply (Hwf (persisted_id p))|apply Hkb|by eapply Ht|done].
    - unfold lost'. rewrite elem_of_union, elem_of_difference, elem_of_dom, not_elem_of_dom. by right. }
  assert (synced d lost' (state svc) (persistence svc)) as Hsy' by (apply (synced_mono d d lost lost'); [lia|unfold lost'; set_solver|done]).
  pose proof (delete_removed_spec d lost' gone [] (persistence svc) (state svc) Hsto Hsy' (λ p Hp, proj2 (Hgone p Hp))) as Hdel.
  destruct (delete_removed (persistence svc) [] gone) as [[u|[e failed]] s1]; destruct Hdel as (Hok1 & Hso1 & Hdel).
  - pose proof (flush_spec s1 Hok1) as Hfl. pose proof (flush_total s1) as Hft.
    destruct (flush s1) as [r s2]. simpl in Hft. subst r. destruct Hfl as [Hok2 Hst2].
    split_and!; [done..|]. split_and!; [done..|]. intros id. simpl. rewrite Hst2, Hdel. specialize (Hiff id). specialize (Hsy id).
    rewrite Hst, retain_lookup in Hiff |- *. case_decide as Hin; [by apply Hiff in Hin as [_ ->]; left|].
    destruct (stored (persistence svc) !! id) as [p|].
    + destruct Hsy as (t & Hl & Hr). rewrite Hl in *. simpl in *. destruct (f id t); [by exists t|]. exfalso. apply Hin, Hiff. by split; [eexists|].
    + destruct Hsy as [->|]; [by left|by right].
  - destruct (restore_persisted_tasks_spec d lost' (state svc) (set_persistence (set_state svc st) s1) failed Hok1 Hso1)
      as (Hst3 & Hcfg3 & Hok3 & Hso3); [intros p Hp; apply Hgone; by apply Hdel|].
    set (svc3 := restore_persisted_tasks _ _) in *.
    destruct (restore_snapshot_spec (oc_before k) (oc_restore k) (state svc) svc3 ps)
      as (Hf & Hp4 & Hcfg4); [done..|].
    split_and!; [by rewrite Hcfg4, Hcfg3|done|].
    split_and!; [unfold ROUND; lia|exact (tables_near_wf _ _ _ Hwf Hf)|by rewrite Hp4|]. rewrite Hp4. by eapply synced_near.
Qed.

(** ** Restart *)

(** The tasks that have a record *)
Definition recorded (st : AggregationState) (s : S) : AggregationState :=
  filter (λ x, is_Some (stored s !! x.1)) st.

Lemma recorded_lookup st s id : recorded st s !! id = if decide (is_Some (stored s !! id)) then st !! id else None.
Proof.
  unfold recorded. case_decide as Hd.
  - apply option_eq. intros t. rewrite map_lookup_filter_Some. naive_solver.
  - apply map_lookup_filter_None. by right.
Qed.

(** Every stored record is filed under its own identifier and records a task. *)
Lemma synced_record d lost st s i p :
  state_wf st → synced d lost st s → stored s !! i = Some p →
  i = persisted_id p ∧ ∃ t, st !! i = Some t ∧ record_of d t p.
Proof.
  intros Hwf Hsy Hp. pose proof (Hsy i) as Hi. rewrite Hp in Hi. destruct Hi as (t & Ht & Hr).
  destruct (Hwf i t) as [_ Hid]; [done|]. split; [by rewrite (record_of_id d t p Hr)|by exists t].
Qed.

Lemma synced_values d lost st s :
  state_wf st → synced d lost st s →
  NoDup (persisted_id <$> values (stored s)) ∧
  (∀ id, id ∈ persisted_id <$> values (stored s) ↔ is_Some (recorded st s !! id)) ∧
  (∀ p, p ∈ values (stored s) → stored s !! persisted_id p = Some p ∧
     ∃ t, st !! persisted_id p = Some t ∧ record_of d t p).
Proof.
  intros Hwf Hsy.
  assert (persisted_id <$> values (stored s) = (map_to_list (stored s)).*1) as Hids.
  { unfold values. rewrite <-list_fmap_compose. apply list_fmap_ext. intros n [i p] Hn.
    apply list_elem_of_lookup_2, elem_of_map_to_list in Hn. simpl.
    by destruct (synced_record d lost st s i p Hwf Hsy Hn) as [-> _]. }
  rewrite Hids. split_and!; [apply NoDup_fst_map_to_list| |].
  - intros id. change (map_to_list (stored s)).*1 with (keys (stored s)). rewrite elem_of_keys, recorded_lookup.
    specialize (Hsy id). destruct (stored s !! id) as [p|]; [|rewrite decide_False by (by intros []); split; by intros []].
    rewrite decide_True by (by eexists). destruct Hsy as (t & -> & _). split; by eexists.
  - intros p ([i q] & -> & Hq%elem_of_map_to_list)%list_elem_of_fmap. simpl.
    by destruct (synced_record d lost st s i q Hwf Hsy Hq) as [<- ?].
Qed.

(** What a restart finds: the tasks of the service, but for lost ones *)
Definition recovers (d : Z) (lost : gset TaskId) (st st' : AggregationState) : Prop := ∀ id,
  match st' !! id with
  | Some t' => ∃ t, st !! id = Some t ∧ task_near acc d t t'
  | None => st !! id = None ∨ id ∈ lost
  end.

Lemma restart_outcome d lost k cfg (svc : AggregationService (S := S)) :
  svc_ok d lost svc → (∀ id, clocks_ok acc (k id)) →
  match with_persistence k cfg (persistence svc) with
  | Ok svc' => recovers (d + ROUND) lost (state svc) (state svc') ∧ svc_ok (d + ROUND) lost svc' ∧ config svc' = cfg
  | Err e => ∃ e', (load_all_tasks (persistence svc)).1 = Err e' ∧ e = persistence_error e'
  end.
Proof.
  intros (Hd & Hwf & Hok & Hsy) Hk. unfold with_persistence.
  pose proof (load_all_spec (persistence svc) Hok) as Hl.
  destruct (load_all_tasks (persistence svc)) as [[l|e] s1]; destruct Hl as (Hok1 & Hst1 & Hl); simpl.
  2:{ by exists e. }
  destruct (synced_values _ _ _ _ Hwf Hsy) as (Hnd & Hdom & Hall).
  set (R := λ t t', task_near acc (d + ROUND) t t' ∧
    ∀ p, stored (persistence svc) !! mkTaskId (service_id t) (call_id t) = Some p → record_of ROUND t' p).
  destruct (restore_records R k (recorded (state svc) (persistence svc)) l) as (st' & Hr & Hf).
  - by rewrite Hl.
  - intros id. by rewrite Hl.
  - intros p t Hp Ht. rewrite Hl in Hp. destruct (Hall p Hp) as (Hsp & t0 & Ht0 & Hr).
    rewrite recorded_lookup, decide_True in Ht by (by eexists). assert (t0 = t) as -> by congruence.
    destruct (record_of_restore d (k (persisted_id p)) t p (Hk _) Hr) as (t' & Hres & Hnear & Hrec).
    exists t'. split_and!; [done| |split; [done|]].
    + rewrite (record_of_id _ _ _ Hr). by destruct (task_near_id _ _ _ _ Hnear) as [-> ->].
    + intros q. rewrite <-(record_of_id _ _ _ Hr), Hsp. by intros [= <-].
  - rewrite Hr. simpl.
    assert (∀ id, match stored (persistence svc) !! id with
      | Some p => ∃ t t', state svc !! id = Some t ∧ st' !! id = Some t' ∧ task_near acc (d + ROUND) t t' ∧ record_of ROUND t' p
      | None => st' !! id = None ∧ (state svc !! id = None ∨ id ∈ lost) end) as Hcase.
    { intros id. specialize (Hf id). specialize (Hsy id). rewrite recorded_lookup in Hf. destruct (stored (persistence svc) !! id) as [p|] eqn:Hp.
      - rewrite decide_True in Hf by (by eexists). destruct Hsy as (t & Ht & _). rewrite Ht in Hf.
        inversion Hf as [? t' [Hn Hrec] Heq|]; subst. exists t, t'. split_and!; try done. apply Hrec.
        by destruct (Hwf _ _ Ht) as [_ <-].
      - rewrite decide_False in Hf by (by intros []). by inversion Hf. }
    split_and!; [..|done].
    + intros id. specialize (Hcase id). destruct (stored (persistence svc) !! id).
      * destruct Hcase as (t & t' & ? & -> & ? & _). by exists t.
      * by destruct Hcase as [-> ?].
    + split_and!; [unfold ROUND; lia| |done|]; simpl.
      * intros id t' Ht'. specialize (Hcase id). destruct (stored (persistence svc) !! id) as [p|]; [|destruct Hcase; congruence].
        destruct Hcase as (t & t1 & Ht & Ht1 & Hn & _). assert (t1 = t') as -> by congruence.
        destruct (Hwf _ _ Ht) as [Hw ->]. split; [by eapply task_near_wf|]. by destruct (task_near_id _ _ _ _ Hn) as [-> ->].
      * intros id. rewrite Hst1. specialize (Hcase id). destruct (stored (persistence svc) !! id) as [p|].
        -- destruct Hcase as (t & t' & _ & Ht' & _ & Hrec). exists t'. split; [done|]. eapply record_of_mono; [|done]. lia.
        -- destruct Hcase as [-> _]. by left.
Qed.

(** ** The service as a state machine *)

Definition failed {E A} (r : result E A) : bool := match r with Ok _ => false | Err _ => true end.

(** One request, one cleanup, or a restart.  Each may fail: which storage
    operations fail is up to the backend.  [moved] says whether the step may move
    the times of tasks, as a roll-back and a restart do; [l] are the tasks whose
    removal was under way when a cleanup failed. *)
Inductive svc_step : bool → gset TaskId → relation (AggregationService (S := S)) :=
| svc_init svc k sid cid out msg sch n cfg r svc' :
    op_ok k → is_u32 n → init_task_with_message_config k svc sid cid out msg sch n cfg = (r, svc') →
    svc_step (failed r) ∅ svc svc'
| svc_submit svc k req r svc' :
    op_ok k → is_u32 (rq_operator_index req) → submit_signature k svc req = (r, svc') → svc_step (failed r) ∅ svc svc'
| svc_mark svc k sid cid r svc' : op_ok k → mark_submitted k svc sid cid = (r, svc') → svc_step (failed r) ∅ svc svc'
| svc_remove svc k sid cid b svc' : op_ok k → remove_task k svc sid cid = (b, svc') → svc_step false ∅ svc svc'
| svc_cleanup svc k kind r svc' :
    op_ok k → cleanup_with_persistence k svc kind = (r, svc') →
    svc_step (failed r) (if failed r then dropped k svc kind else ∅) svc svc'
| svc_restart svc k cfg svc' :
    (∀ id, clocks_ok acc (k id)) → with_persistence k cfg (persistence svc) = Ok svc' → svc_step true ∅ svc svc'.

(** What a step leaves *)
Definition slack (b : bool) : Z := if b then ROUND else 0.

Lemma svc_step_ok d lost b l svc svc' :
  svc_ok d lost svc → timed (state svc) → svc_step b l svc svc' → timed (state svc') →
  svc_ok (d + slack b) (lost ∪ l) svc'.
Proof.
  intros Hok Ht Hstep Ht'.
  assert (∀ d' lost', d' ≤ d + slack b → lost' ⊆ lost ∪ l → svc_ok d' lost' svc' → svc_ok (d + slack b) (lost ∪ l) svc') as Hup
    by (intros; by eapply svc_ok_mono).
  destruct Hstep as [svc k sid cid out msg sch n cfg r svc' Hk Hn H|svc k req r svc' Hk Hn H|svc k sid cid r svc' Hk H
    |svc k sid cid r svc' Hk H|svc k kind r svc' Hk H|svc k cfg svc' Hk H].
  - pose proof (init_outcome d lost k svc sid cid out msg sch n cfg Hok Ht Hk Hn) as Ho. rewrite H in Ho.
    destruct Ho as (t & [_ Ho] & _). destruct r; destruct Ho as [Hst Ho]; cbn [failed slack] in *.
    + apply (Hup d lost); [lia|set_solver|]. apply Ho. apply (Ht' (mkTaskId sid cid)). by rewrite Hst, lookup_insert_eq.
    + apply (Hup (d + ROUND) lost); [lia|set_solver|done].
  - pose proof (submit_outcome d lost k svc req Hok Ht Hk Hn) as Ho. cbv zeta in Ho. rewrite H in Ho. destruct r; cbn [failed slack] in *.
    + destruct Ho as (? & ? & ? & ? & _ & _ & _ & Ho & _). apply (Hup d lost); [lia|set_solver|done].
    + destruct Ho as (_ & Ho & _). apply (Hup (d + ROUND) lost); [lia|set_solver|done].
  - pose proof (mark_outcome d lost k svc sid cid Hok Ht Hk) as Ho. rewrite H in Ho. destruct r; cbn [failed slack] in *.
    + destruct Ho as (t & Hl & _ & Hst & Ho). apply (Hup d lost); [lia|set_solver|]. apply Ho.
      apply (Ht' (mkTaskId sid cid)). by rewrite Hst, lookup_insert_eq.
    + destruct Ho as (_ & Ho & _). apply (Hup (d + ROUND) lost); [lia|set_solver|done].
  - pose proof (remove_outcome d lost k svc sid cid Hok Ht Hk) as Ho. rewrite H in Ho. destruct Ho as (_ & Ho & _).
    cbn [slack] in *. apply (Hup d lost); [lia|set_solver|done].
  - pose proof (cleanup_outcome d lost k svc kind Hok Ht Hk) as Ho. rewrite H in Ho. destruct r; cbn [failed slack] in *.
    + destruct Ho as (_ & _ & _ & Ho). apply (Hup d lost); [lia|set_solver|done].
    + destruct Ho as (_ & _ & Ho). apply (Hup (d + ROUND) (lost ∪ dropped k svc kind)); [lia|done|done].
  - pose proof (restart_outcome d lost k cfg svc Hok Hk) as Ho. rewrite H in Ho. destruct Ho as (_ & Ho & _).
    cbn [slack] in *. apply (Hup (d + ROUND) lost); [lia|set_solver|done].
Qed.

(** A service over an empty store. *)
Definition fresh_service (svc : AggregationService (S := S)) : Prop :=
  state svc = ∅ ∧ store_ok (persistence svc) ∧ stored (persistence svc) = ∅.

Lemma fresh_service_ok svc : fresh_service svc → svc_ok 0 ∅ svc ∧ timed (state svc).
Proof.
  intros (Hst & Hok & Hsto). split; [split_and!; [done| |done|]|].
  - intros id t. by rewrite Hst, lookup_empty.
  - intros id. rewrite Hst, Hsto, !lookup_empty. by left.
  - intros id t. by rewrite Hst, lookup_empty.
Qed.

(** A run: [n] of its steps may have moved times, and the cleanups that failed
    were removing the tasks in [lost]. *)
Inductive svc_run (svc : AggregationService (S := S)) : nat → gset TaskId → AggregationService (S := S) → Prop :=
| run_start : svc_run svc 0 ∅ svc
| run_step n lost b l svc1 svc2 :
    svc_run svc n lost svc1 → svc_step b l svc1 svc2 → timed (state svc2) →
    svc_run svc (n + Nat.b2n b) (lost ∪ l) svc2.

Lemma run_ok svc n lost svc' :
  fresh_service svc → svc_run svc n lost svc' → svc_ok (ROUND * Z.of_nat n) lost svc' ∧ timed (state svc').
Proof.
  intros Hf. induction 1 as [|n lost b l svc1 svc2 Hr [IH Ht] Hs Ht2]; [by apply fresh_service_ok|].
  split; [|done]. eapply svc_ok_mono; [|reflexivity|by eapply svc_step_ok]. unfold slack. destruct b; cbn [Nat.b2n]; lia.
Qed.

End accuracy.

(** ** Durability *)

(** C1. A service over a backend that meets its contract and whose [flush] cannot
    fail, as a file whose existence can be asked.  After any sequence of requests,
    cleanups and restarts from an empty store, whichever storage operations failed
    on the way, a restart either cannot read the store, and says so, or finds the
    tasks of the running service and no other, with the same context, signers, keys,
    bitmap, stakes and submission flag, and with their three times.  Of the tasks
    only those can be missing that a failed cleanup was removing.  If the monotonic
    and the wall clock run together ([Some off]) the times are right to two
    milliseconds, and two more for each request or cleanup that failed and each
    restart before; if not ([None]), each time is there exactly when it was. *)
Theorem service_recovers acc svc n lost svc' k cfg :
  fresh_service svc → svc_run acc svc n lost svc' → (∀ id, clocks_ok acc (k id)) →
  match with_persistence k cfg (persistence svc') with
  | Ok svc'' => recovers acc (ROUND * (Z.of_nat n + 1)) lost (state svc') (state svc'')
  | Err e => ∃ e', (load_all_tasks (persistence svc')).1 = Err e' ∧ e = persistence_error e'
  end.
Proof.
  intros Hf Hr Hk. destruct (run_ok acc _ _ _ _ Hf Hr) as [Hok _].
  pose proof (restart_outcome acc _ _ k cfg svc' Hok Hk) as H.
  replace (ROUND * (Z.of_nat n + 1)) with (ROUND * Z.of_nat n + ROUND) by lia.
  destruct (with_persistence _ _ _); [by destruct H|done].
Qed.

(** C2. From any state in which storage describes memory ([svc_ok], true in every
    run), over a backend that meets its contract and whose [flush] cannot fail: a
    submitted signature is accepted exactly when the request is acceptable and
    storage takes the record; the reply describes the updated task, which is then
    both in memory and in storage, and no other task changes.  A request that is not
    acceptable changes nothing at all.  One that storage refuses leaves every task
    as it was in memory, its times up to the two milliseconds of the roll-back, and
    the records of storage in step with it. *)
Theorem submit_signature_atomic acc d lost k svc req :
  svc_ok acc d lost svc → timed acc (state svc) → op_ok acc k → is_u32 (rq_operator_index req) →
  let '(r, svc') := submit_signature k svc req in
  match r with
  | Ok resp => ∃ t t' s pk, acceptable k svc req t t' s pk ∧
      state svc' = <[mkTaskId (rq_service_id req) (rq_call_id req) := t']> (state svc) ∧ svc_ok acc d lost svc' ∧
      resp = mkSubmitResponse true (signature_count t') (threshold_value t) (threshold_met t') None
  | Err e =>
      (svc' = svc ∧ ∀ t t' s pk, ¬ acceptable k svc req t t' s pk) ∨
      (tables_near acc ROUND (state svc) (state svc') ∧ svc_ok acc (d + ROUND) lost svc' ∧
       ∃ t t' s pk, acceptable k svc req t t' s pk ∧ save_failed svc t' e)
  end.
Proof.
  intros Hok Ht Hk Hn. pose proof (submit_outcome acc d lost k svc req Hok Ht Hk Hn) as Ho. cbv zeta in Ho.
  destruct (submit_signature k svc req) as [[resp|e] svc'].
  - destruct Ho as (t & t' & s & pk & ? & _ & ? & ? & ?). by exists t, t', s, pk.
  - destruct Ho as (_ & ? & [?|[? ?]]); [by left|by right].
Qed.

(** Creating a task, marking it submitted and removing it are atomic too: on
    success the one task changes in memory and in storage, on failure none. *)
Theorem task_mutations_atomic acc d lost k svc sid cid out msg sch n cfg :
  svc_ok acc d lost svc → timed acc (state svc) → op_ok acc k → is_u32 n →
  (let '(r, svc') := init_task_with_message_config k svc sid cid out msg sch n cfg in
   ∃ t, outcome acc d lost svc (mkTaskId sid cid) t r svc' ∧
     same_context t (with_message_config (oc_now k) sid cid out msg sch n (cfg_threshold_type cfg)
                       (cfg_operator_stakes cfg) (cfg_ttl cfg)) = true) ∧
  (let '(r, svc') := mark_submitted k svc sid cid in
   match r with
   | Ok _ => ∃ t, state svc !! mkTaskId sid cid = Some t ∧
       outcome acc d lost svc (mkTaskId sid cid) (set_submitted t (oc_now k)) r svc'
   | Err _ => svc_ok acc (d + ROUND) lost svc' ∧ tables_near acc ROUND (state svc) (state svc')
   end) ∧
  (let '(b, svc') := remove_task k svc sid cid in
   svc_ok acc d lost svc' ∧ state svc' = if b then delete (mkTaskId sid cid) (state svc) else state svc).
Proof.
  intros Hok Ht Hk Hn. split_and!.
  - pose proof (init_outcome acc d lost k svc sid cid out msg sch n cfg Hok Ht Hk Hn) as Ho.
    destruct (init_task_with_message_config _ _ _ _ _ _ _ _ _) as [r svc'].
    destruct Ho as (t & ? & ? & _). by exists t.
  - pose proof (mark_outcome acc d lost k svc sid cid Hok Ht Hk) as Ho.
    destruct (mark_submitted k svc sid cid) as [[u|e] svc']; [done|]. by destruct Ho as (_ & ? & ?).
  - pose proof (remove_outcome acc d lost k svc sid cid Hok Ht Hk) as Ho.
    destruct (remove_task k svc sid cid) as [b svc']. by destruct Ho as (_ & ? & ?).
Qed.

(** Cleanup removes exactly the tasks the retention policy drops, in memory and
    in storage; when storage fails it restores every task in memory, and at most
    records of the tasks it was removing are missing from storage. *)
Theorem cleanup_durable acc d lost k svc kind :
  svc_ok acc d lost svc → timed acc (state svc) → op_ok acc k →
  let '(r, svc') := cleanup_with_persistence k svc kind in
  match r with
  | Ok n => svc_ok acc d lost svc' ∧ state svc' = (cleanup_state k svc kind).1 ∧
      n = Z.of_nat (size (state svc)) - Z.of_nat (size (state svc'))
  | Err _ => tables_near acc ROUND (state svc) (state svc') ∧ svc_ok acc (d + ROUND) (lost ∪ dropped k svc kind) svc'
  end.
Proof.
  intros Hok Ht Hk. pose proof (cleanup_outcome acc d lost k svc kind Hok Ht Hk) as Ho.
  destruct (cleanup_state_retain k svc kind) as (f & H1 & H2 & _).
  destruct (cleanup_with_persistence k svc kind) as [[n|e] svc'].
  - destruct Ho as (_ & Hst & -> & ?). split_and!; [done..|]. by rewrite Hst, H1, H2.
  - by destruct Ho as (_ & ?).
Qed.

(** ** Expiry *)

(** Without a statement about times there is nothing to ask of the clocks. *)
Lemma untimed st k : timed None st ∧ op_ok None k.
Proof. done. Qed.

Lemma init_expiry d lost k (svc : AggregationService (S := S)) sid cid out msg sch n cfg svc' :
  svc_ok None d lost svc → is_u32 n → state svc !! mkTaskId sid cid = None →
  init_task_with_message_config k svc sid cid out msg sch n cfg = (Ok tt, svc') →
  ∃ t, state svc' !! mkTaskId sid cid = Some t ∧
    expires_at t = (λ d, oc_now k + d) <$> cfg_ttl cfg.
Proof.
  intros Hok Hn Hnone Hi. destruct (untimed (state svc) k) as [Ht Hk].
  pose proof (init_outcome None d lost k svc sid cid out msg sch n cfg Hok Ht Hk Hn) as Ho.
  rewrite Hi in Ho. destruct Ho as (t & (_ & Hst & _) & _ & [->|Hl]); [|congruence].
  eexists. rewrite Hst, lookup_insert_eq. split; [done|]. unfold with_message_config.
  by destruct (cfg_operator_stakes cfg).
Qed.

(** The configured default time-to-live applies to tasks created through
    [AggregationService::init_task], and not to those created over HTTP, which
    never expire. *)
Theorem default_ttl_scope d lost k svc svc' req sid cid out n threshold :
  svc_ok None d lost svc →
  (is_u32 (it_operator_count req) →
   state svc !! mkTaskId (it_service_id req) (it_call_id req) = None →
   api_init_task k svc req = (mkInitTaskResponse true None, svc') →
   ∃ t, state svc' !! mkTaskId (it_service_id req) (it_call_id req) = Some t ∧
     ∀ now, is_expired now t = false) ∧
  (is_u32 n → state svc !! mkTaskId sid cid = None →
   init_task k svc sid cid out n threshold = (Ok tt, svc') →
   ∃ t, state svc' !! mkTaskId sid cid = Some t ∧
     expires_at t = (λ d, oc_now k + d) <$> default_task_ttl (config svc)).
Proof.
  intros Hok. split.
  - intros Hn Hnone Hapi. unfold api_init_task in Hapi.
    destruct (threshold_of_request (it_threshold req)) as [th st].
    set (cfg := mkTaskConfig th st None) in *. unfold init_task_with_config in Hapi.
    assert (∃ msg sch, init_task_with_message_config k svc (it_service_id req) (it_call_id req)
              (it_output req) msg sch (it_operator_count req) cfg = (Ok tt, svc')) as (msg & sch & Hi).
    { case_bool_decide.
      - eexists _, _. destruct (init_task_with_message_config _ _ _ _ _ _ _ _ _) as [[[]|e] s1] eqn:E in Hapi;
          simplify_eq. exact E.
      - eexists _, _. destruct (init_task_with_message_config _ _ _ _ _ _ _ _ _) as [[[]|e] s1] eqn:E in Hapi;
          simplify_eq. exact E. }
    destruct (init_expiry _ _ _ _ _ _ _ _ _ _ _ _ Hok Hn Hnone Hi) as (t & Ht & He).
    exists t. split; [done|]. intros now. unfold is_expired. by rewrite He.
  - intros Hn Hnone Hi. exact (init_expiry _ _ _ _ _ _ _ _ _ _ _ _ Hok Hn Hnone Hi).
Qed.

(** ** Safety of the aggregate *)

Section safety.
  Context {PL : PairingLaws B}.

(** Every stored signature verifies under the key stored with it. *)
Definition task_verified (t : TaskState) : Prop :=
  ∀ i s pk, signatures t !! i = Some s → public_keys t !! i = Some pk →
    verifies t pk s = true ∧ g2_valid pk = true.

Definition all_verified (st : AggregationState) : Prop :=
  ∀ id t, st !! id = Some t → task_verified t.

Lemma all_verified_insert st id t :
  all_verified st → task_verified t → all_verified (<[id := t]> st).
Proof. intros Hv Ht i u. rewrite lookup_insert_Some. intros [[_ <-]|[_ Hu]]; eauto. Qed.

Lemma task_verified_near acc d t t' : task_verified t → task_near acc d t t' → task_verified t'.
Proof. by intros Hv [-> _ _ _]. Qed.

Lemma all_verified_near acc d st st' : all_verified st → tables_near acc d st st' → all_verified st'.
Proof.
  intros Hv Hf id t' Ht'. destruct (tables_near_lookup _ _ _ _ _ _ Hf Ht') as (t & Ht & Hn).
  eapply task_verified_near; [exact (Hv id t Ht)|exact Hn].
Qed.

Lemma all_verified_recovers acc d lost st st' : all_verified st → recovers acc d lost st st' → all_verified st'.
Proof.
  intros Hv Hf id t' Ht'. specialize (Hf id). rewrite Ht' in Hf. destruct Hf as (t & Ht & Hn).
  eapply task_verified_near; [exact (Hv id t Ht)|exact Hn].
Qed.

Lemma accepted_verified k (svc : AggregationService (S := S)) req t t' s pk :
  verify_on_submit (config svc) = true → all_verified (state svc) →
  acceptable k svc req t t' s pk → task_verified t'.
Proof.
  intros Hcfg Hv (Ht & _ & _ & Hpk & Hver & _ & _ & _ & Hadd).
  apply add_signature_Ok_inv in Hadd as (_ & _ & _ & ->).
  intros i s' pk'. simpl. rewrite !lookup_insert_Some.
  intros [[Hi Hs]|[Hi Hs]] [[Hj Hp]|[Hj Hp]]; try congruence.
  - subst. split; [by apply Hver|by eapply g2_deserialize_valid].
  - exact (Hv _ _ Ht i s' pk' Hs Hp).
Qed.

Lemma fresh_verified now sid cid out msg sch n th st ttl :
  task_verified (with_message_config now sid cid out msg sch n th st ttl).
Proof.
  intros i s pk Hs. exfalso. unfold with_message_config in Hs. by destruct st.
Qed.

Lemma svc_step_verified d lost b l svc svc' :
  svc_ok None d lost svc → verify_on_submit (config svc) = true → all_verified (state svc) →
  svc_step None b l svc svc' → all_verified (state svc').
Proof.
  intros Hok Hcfg Hv Hstep.
  destruct Hstep as [svc k sid cid out msg sch n cfg r svc' Hk Hn H|svc k req r svc' Hk Hn H|svc k sid cid r svc' Hk H
    |svc k sid cid r svc' Hk H|svc k kind r svc' Hk H|svc k cfg svc' Hk H]; try pose proof (proj1 (untimed (state svc) k)) as Ht.
  - pose proof (init_outcome None d lost k svc sid cid out msg sch n cfg Hok Ht Hk Hn) as Ho. rewrite H in Ho.
    destruct Ho as (t & [_ Ho] & _ & Hc). destruct r; destruct Ho as [Hst _]; [|by eapply all_verified_near].
    rewrite Hst. apply all_verified_insert; [done|]. destruct Hc as [->|Hc]; [apply fresh_verified|by eapply Hv].
  - pose proof (submit_outcome None d lost k svc req Hok Ht Hk Hn) as Ho. cbv zeta in Ho. rewrite H in Ho. destruct r.
    + destruct Ho as (t & t' & s & pk & Ha & _ & Hst & _). rewrite Hst.
      apply all_verified_insert; [done|]. by eapply accepted_verified.
    + destruct Ho as (_ & _ & [[-> _]|[? _]]); [done|]. by eapply all_verified_near.
  - pose proof (mark_outcome None d lost k svc sid cid Hok Ht Hk) as Ho. rewrite H in Ho. destruct r.
    + destruct Ho as (t & Hl & _ & Hst & _). rewrite Hst. apply all_verified_insert; [done|]. exact (Hv _ _ Hl).
    + destruct Ho as (_ & _ & ?). by eapply all_verified_near.
  - pose proof (remove_outcome None d lost k svc sid cid Hok Ht Hk) as Ho. rewrite H in Ho.
    destruct Ho as (_ & _ & ->). destruct r; [|done]. intros id t. rewrite lookup_delete_Some. intros [_ Hl]. by eapply Hv.
  - pose proof (cleanup_outcome None d lost k svc kind Hok Ht Hk) as Ho. rewrite H in Ho. destruct r.
    + destruct Ho as (_ & -> & _). destruct (cleanup_state_retain k svc kind) as (f & -> & _).
      intros id t [Hl _]%retain_lookup_Some. by eapply Hv.
    + destruct Ho as (_ & ? & _). by eapply all_verified_near.
  - pose proof (restart_outcome None d lost k cfg svc Hok Hk) as Ho. rewrite H in Ho.
    destruct Ho as (Hf & _). by eapply all_verified_recovers.
Qed.

(** Steps of a service that verifies what it is given. *)
Definition verifying_step (svc svc' : AggregationService (S := S)) : Prop :=
  verify_on_submit (config svc) = true ∧ ∃ b l, svc_step None b l svc svc'.

Lemma reachable_verified svc svc' :
  fresh_service svc → rtc verifying_step svc svc' → state_wf (state svc') ∧ all_verified (state svc').
Proof.
  intros Hf Hr.
  assert (all_verified (state svc)) as Hv by (destruct Hf as [-> _]; intros id t; by rewrite lookup_empty).
  apply (fresh_service_ok None) in Hf as [Hok _]. revert Hok. generalize 0 (∅ : gset TaskId).
  induction Hr as [s1|s1 s2 s3 [Hc (b & l & Hs)] Hr IH]; intros d lost Hok; [by destruct Hok as (_ & ? & _)|].
  eapply IH; [by eapply svc_step_verified|by eapply svc_step_ok].
Qed.

(** The keys and signatures handed to aggregation, pair by pair. *)
Lemma aggregation_Forall2 t (P : Pk → Sig → Prop) :
  task_wf t →
  (∀ i s pk, signatures t !! i = Some s → public_keys t !! i = Some pk → P pk s) →
  Forall2 P (get_signatures_for_aggregation t).2 (get_signatures_for_aggregation t).1.
Proof.
  intros Hwf HP. rewrite aggregation_inputs by done. simpl.
  assert (∀ i, i ∈ get_signers t → is_Some (signatures t !! i) ∧ is_Some (public_keys t !! i)) as Hl.
  { intros i. rewrite get_signers_perm, elem_of_keys. intros Hi. split; [done|].
    apply elem_of_dom. rewrite (wf_pair _ Hwf). by apply elem_of_dom. }
  induction (get_signers t) as [|i l IH]; [constructor|].
  destruct (Hl i) as [[s Hs] [pk Hpk]]; [by left|]. cbn. rewrite Hs, Hpk.
  constructor; [by eapply HP|]. apply IH. intros j Hj. apply Hl. by right.
Qed.

Lemma verified_aggregates t sigs pks s pk :
  bls_aggregate sigs pks = Ok (s, pk) →
  Forall2 (λ pk s, verifies t pk s = true ∧ g2_valid pk = true) pks sigs →
  match signature_scheme t with
  | ArkworksSha256 => bls_verify pk (message t) s = true
  | TangleKeccak256 => bls_verify_tangle pk (message t) s = negb (g1_is_zero s || g2_is_zero pk)
  end.
Proof.
  intros Ha HF. assert (sigs ≠ []) as Hne by (by intros ->).
  unfold verifies in HF. destruct (signature_scheme t).
  - destruct (hash_to_curve_total (message t)) as [q Hq].
    destruct (aggregate_signs q sigs pks) as (s' & pk' & Ha' & (_ & Vs & He)); [|done| |].
    + by eapply hash_to_curve_valid.
    + eapply list.Forall2_impl; [exact HF|]. intros x y [Hv Hp].
      apply bls_verify_spec in Hv as (Hy & q' & Hq' & He). simplify_eq. done.
    + rewrite Ha in Ha'. injection Ha' as -> ->. apply bls_verify_spec. eauto.
  - destruct HF as [|pk0 s0 pks sigs [Hv Hp] HF]; [done|].
    pose proof Hv as (_ & _ & _ & _ & q & Hq & _)%bls_verify_tangle_spec.
    destruct (aggregate_signs q (s0 :: sigs) (pk0 :: pks)) as (s' & pk' & Ha' & (Vp & Vs & He)); [|done| |].
    + by eapply hash_to_curve_tangle_valid.
    + apply (list.Forall2_impl (λ pk s, bls_verify_tangle pk (message t) s = true ∧ g2_valid pk = true));
        [by constructor|].
      intros x y [(_ & _ & Vs & Vp & q' & Hq' & He)%bls_verify_tangle_spec _].
      assert (q' = q) as -> by congruence. by split_and!.
    + rewrite Ha in Ha'. injection Ha' as -> ->. unfold bls_verify_tangle at 1.
      destruct (g1_is_zero s') eqn:Hs, (g2_is_zero pk') eqn:Hpk; cbn [orb negb]; try done.
      by assert (bls_verify_tangle pk' (message t) s' = true) as Hvt by (apply bls_verify_tangle_spec; eauto 10);
        unfold bls_verify_tangle in Hvt; rewrite Hs, Hpk in Hvt.
Qed.

(** C3. What the service hands out for submission to the chain.  In any state that a
    service which verifies signatures reaches from an empty store, through requests,
    cleanups and restarts that may each fail, an aggregated result belongs to a live,
    unsubmitted task whose threshold is met, names the operators that have not
    signed, and carries an aggregated signature that verifies, under the aggregated
    key, for the task's message.  There is one exception: keys are not tied to
    operators, and where the keys or signatures of a task in the contract's scheme
    sum up to the identity, the contract's algorithm rejects the aggregate. *)
Theorem aggregated_result_valid svc svc' now sid cid r :
  fresh_service svc → rtc verifying_step svc svc' →
  get_aggregated_result now svc' sid cid = Some r →
  ∃ t s pk, state svc' !! mkTaskId sid cid = Some t ∧
    threshold_met t = true ∧ submitted t = false ∧ is_expired now t = false ∧
    ar_output r = output t ∧ ar_signer_bitmap r = signer_bitmap t ∧
    ar_non_signer_indices r = get_non_signers t ∧
    g1_deserialize (ar_aggregated_signature r) = Some s ∧
    g2_deserialize (ar_aggregated_pubkey r) = Some pk ∧
    match signature_scheme t with
    | ArkworksSha256 => bls_verify pk (message t) s = true
    | TangleKeccak256 => bls_verify_tangle pk (message t) s = negb (g1_is_zero s || g2_is_zero pk)
    end.
Proof.
  intros Hf Hr Hres. destruct (reachable_verified _ _ Hf Hr) as [Hwf Hv].
  unfold get_aggregated_result, get_for_aggregation in Hres.
  destruct (state svc' !! mkTaskId sid cid) as [t|] eqn:Et; simpl in Hres; [|done].
  destruct (threshold_met t) eqn:Hmet; simpl in Hres; [|done].
  destruct (submitted t) eqn:Hsub; simpl in Hres; [done|].
  destruct (is_expired now t) eqn:Hexp; simpl in Hres; [done|].
  pose proof (aggregation_Forall2 t _ (proj1 (Hwf _ _ Et)) (Hv _ _ Et)) as HF.
  destruct (get_signatures_for_aggregation t) as [sigs pks]. simpl in Hres, HF.
  destruct (bls_aggregate sigs pks) as [[s pk]|] eqn:Ha; simpl in Hres; [|done].
  destruct (g1_round_trip s) as (bs & Hbs & Hds). destruct (g2_round_trip pk) as (bp & Hbp & Hdp).
  rewrite Hbs, Hbp in Hres. simpl in Hres. injection Hres as <-. simpl.
  exists t, s, pk. split_and!; try done. by eapply verified_aggregates.
Qed.

End safety.

End durable.

(** ** A run over a file, with failing writes *)

#[local] Existing Instance toy_bn254.
#[local] Existing Instance toy_codec.
#[local] Existing Instance toy_json.

Definition demo_op (now : Instant) : OpClocks :=
  mkOpClocks (λ _, demo_clocks now) now now now now (λ _, now) (λ _, demo_clocks now) (λ _, demo_clocks now).

(** The clocks of the demonstration run together at this offset. *)
Definition demo_acc : option Z := Some 1700000000000000000.

Lemma demo_op_ok now : 0 ≤ now < 1000000000000 → op_ok demo_acc (demo_op now).
Proof. intros Hn id. split_and!; by apply demo_clocks_coherent. Qed.

(** The times of the tasks of a table *)
Definition times_of (st : gmap TaskId TaskState) : list (option Instant * Instant * option Instant) :=
  (λ x, (submitted_at x.2, created_at x.2, expires_at x.2)) <$> map_to_list st.
Lemma timed_of off st :
  Forall (λ x, (∀ i, x.1.1 = Some i → plausible off i) ∧ plausible off x.1.2 ∧ ∀ i, x.2 = Some i → plausible off i) (times_of st) →
  timed (Some off) st.
Proof.
  rewrite list.Forall_forall. intros H id t Ht. apply elem_of_map_to_list in Ht.
  exact (H _ (list_elem_of_fmap_2 _ _ _ Ht)).
Qed.

(** The second write to the file fails once. *)
Definition demo_svc : AggregationService (S := FilePersistence) :=
  mkService ∅ ServiceConfig_default
    (mkFile None [false; false; false; false; true] []).

Lemma demo_svc_fresh : fresh_service demo_svc.
Proof. split_and!; [done|apply file_ok_empty|reflexivity]. Qed.

Definition demo_request (i key : Z) : SubmitSignatureRequest :=
  mkSubmit 1 100 i [1; 2; 3] [key] [key].

Definition demo_created := (init_task (demo_op 0) demo_svc 1 100 [1; 2; 3] 3 1).2.

Definition demo_failed := (submit_signature (demo_op 5) demo_created (demo_request 0 17)).2.

Definition demo_signed := (submit_signature (demo_op 6) demo_failed (demo_request 0 17)).2.

(** A task of the demonstration has plausible times. *)
Lemma demo_timed st :
  times_of st = [(None, 0, Some 3600000000000)] ∨ times_of st = [(None, 5, Some 3599999000005)] ∨ times_of st = [] →
  timed demo_acc st.
Proof.
  intros Ht. apply timed_of. destruct Ht as [->|[->| ->]]; [apply Forall_singleton..|by constructor];
    (split_and!; [done|done|intros i [= <-]; done]).
Qed.

Lemma demo_create_step : svc_step demo_acc false ∅ demo_svc demo_created.
Proof.
  apply (svc_init demo_acc demo_svc (demo_op 0) 1 100 [1; 2; 3] (create_signing_message 1 100 [1; 2; 3]) ArkworksSha256 3
    (mkTaskConfig (Count 1) None (Some (from_secs 3600))) (Ok tt)); [by apply demo_op_ok|done|by vm_compute].
Qed.

Lemma demo_failed_step : svc_step demo_acc true ∅ demo_created demo_failed.
Proof.
  apply (svc_submit demo_acc demo_created (demo_op 5) (demo_request 0 17) (Err (Other "persistence error: IO error: io")));
    [by apply demo_op_ok|done|by vm_compute].
Qed.

Lemma demo_signed_step : svc_step demo_acc false ∅ demo_failed demo_signed.
Proof.
  apply (svc_submit demo_acc demo_failed (demo_op 6) (demo_request 0 17) (Ok (mkSubmitResponse true 1 1 true None)));
    [by apply demo_op_ok|done|by vm_compute].
Qed.

Lemma demo_created_timed : timed demo_acc (state demo_created).
Proof. apply demo_timed. left. by vm_compute. Qed.

Lemma demo_run : svc_run demo_acc demo_svc 1 ∅ demo_signed.
Proof.
  assert (timed demo_acc (state demo_failed) ∧ timed demo_acc (state demo_signed)) as [Ht1 Ht2]
    by (split; apply demo_timed; right; left; by vm_compute).
  assert (∀ X : gset TaskId, X ∪ ∅ = X) as Hu by (intros X; set_solver).
  pose proof (run_step _ _ _ _ _ _ _ _ (run_start demo_acc demo_svc) demo_create_step demo_created_timed) as H1.
  pose proof (run_step _ _ _ _ _ _ _ _ H1 demo_failed_step Ht1) as H2.
  pose proof (run_step _ _ _ _ _ _ _ _ H2 demo_signed_step Ht2) as H3. by rewrite !Hu in H3.
Qed.

Lemma demo_created_ok : svc_ok demo_acc 0 ∅ demo_created.
Proof.
  destruct (fresh_service_ok demo_acc _ demo_svc_fresh) as [Hok Ht].
  pose proof (svc_step_ok _ _ _ _ _ _ _ Hok Ht demo_create_step demo_created_timed) as H.
  by replace (∅ ∪ ∅ : gset TaskId) with (∅ : gset TaskId) in H by set_solver.
Qed.

(** A step whatever the clocks do *)
Lemma svc_step_any acc b l svc svc' : svc_step (S := FilePersistence) acc b l svc svc' → svc_step None b l svc svc'.
Proof. intros []; by econstructor. Qed.

Lemma demo_verifying_run : rtc verifying_step demo_svc demo_signed.
Proof.
  apply (rtc_l _ _ demo_created); [split; [done|]; eexists _, _; eapply svc_step_any, demo_create_step|].
  apply (rtc_l _ _ demo_failed); [split; [by vm_compute|]; eexists _, _; eapply svc_step_any, demo_failed_step|].
  apply rtc_once. split; [by vm_compute|]. eexists _, _. eapply svc_step_any, demo_signed_step.
Qed.

Lemma service_recovers_witness :
  ∃ svc, with_persistence (λ _, demo_clocks 900) ServiceConfig_default (persistence demo_signed) = Ok svc ∧
    recovers demo_acc (ROUND * 2) ∅ (state demo_signed) (state svc).
Proof.
  pose proof (service_recovers demo_acc demo_svc 1 ∅ demo_signed (λ _, demo_clocks 900) ServiceConfig_default
                demo_svc_fresh demo_run (λ _, demo_clocks_coherent 900 ltac:(done))) as H.
  destruct (with_persistence _ _ _) as [svc|e] eqn:E.
  - exists svc. exact (conj eq_refl H).
  - exfalso. by vm_compute in E.
Defined.

(** The first attempt fails in storage and changes nothing but times; the second
    one is accepted. *)
Lemma submit_signature_atomic_witness :
  (submit_signature (demo_op 5) demo_created (demo_request 0 17)).1 =
    Err (Other "persistence error: IO error: io") ∧
  tables_near demo_acc ROUND (state demo_created) (state demo_failed) ∧ svc_ok demo_acc ROUND ∅ demo_failed.
Proof.
  pose proof (submit_signature_atomic demo_acc 0 ∅ (demo_op 5) demo_created (demo_request 0 17) demo_created_ok
    demo_created_timed (demo_op_ok 5 ltac:(done)) ltac:(done)) as H.
  assert ((submit_signature (demo_op 5) demo_created (demo_request 0 17)).1 =
    Err (Other "persistence error: IO error: io")) as E by (by vm_compute).
  assert (times_of (state demo_failed) ≠ times_of (state demo_created)) as Hne by (by vm_compute).
  unfold demo_failed in *. destruct (submit_signature (demo_op 5) demo_created (demo_request 0 17)) as [r svc']. simpl in E. subst r.
  destruct H as [[-> _]|(Hn & Hok & _)]; [by destruct Hne|]. exact (conj eq_refl (conj Hn Hok)).
Defined.

Lemma task_mutations_atomic_witness :
  let '(r, svc') := init_task_with_message_config (demo_op 0) demo_svc 1 100 [1; 2; 3] [9] TangleKeccak256 3
                      TaskConfig_default in
  ∃ t, outcome demo_acc 0 ∅ demo_svc (mkTaskId 1 100) t r svc' ∧
    same_context t (with_message_config 0 1 100 [1; 2; 3] [9] TangleKeccak256 3 (Count 1) None None) = true.
Proof.
  destruct (fresh_service_ok demo_acc _ demo_svc_fresh) as [Hok Ht].
  exact (proj1 (task_mutations_atomic demo_acc 0 ∅ (demo_op 0) demo_svc 1 100 [1; 2; 3] [9] TangleKeccak256 3
                  TaskConfig_default Hok Ht (demo_op_ok 0 ltac:(done)) ltac:(done))).
Defined.

Lemma cleanup_durable_witness :
  let '(r, svc') := cleanup_with_persistence (demo_op 900000000000) demo_created All in
  match r with
  | Ok n => svc_ok demo_acc 0 ∅ svc' ∧ state svc' = (cleanup_state (demo_op 900000000000) demo_created All).1 ∧
      n = Z.of_nat (size (state demo_created)) - Z.of_nat (size (state svc'))
  | Err _ => tables_near demo_acc ROUND (state demo_created) (state svc') ∧
      svc_ok demo_acc ROUND (∅ ∪ dropped (demo_op 900000000000) demo_created All) svc'
  end.
Proof.
  exact (cleanup_durable demo_acc 0 ∅ (demo_op 900000000000) demo_created All demo_created_ok demo_created_timed
    (demo_op_ok 900000000000 ltac:(done))).
Defined.

Definition demo_init_request : InitTaskRequest :=
  mkInitTask 1 100 3 (CountConfig 2) [1; 2; 3] [] ArkworksSha256.

Lemma default_ttl_scope_witness :
  ∃ t, state (api_init_task (demo_op 0) demo_svc demo_init_request).2 !! mkTaskId 1 100 = Some t ∧
    ∀ now, is_expired now t = false.
Proof.
  apply (proj1 (default_ttl_scope 0 ∅ (demo_op 0) demo_svc
    (api_init_task (demo_op 0) demo_svc demo_init_request).2 demo_init_request 1 100 [] 3 2
    (proj1 (fresh_service_ok None _ demo_svc_fresh)))); [done|done|].
  destruct (api_init_task (demo_op 0) demo_svc demo_init_request) as [r svc'] eqn:E. simpl.
  f_equal. assert ((r, svc').1 = r) as <- by done. rewrite <-E. by vm_compute.
Defined.

Lemma aggregated_result_valid_witness :
  ∃ r t s pk, get_aggregated_result 7 demo_signed 1 100 = Some r ∧
    state demo_signed !! mkTaskId 1 100 = Some t ∧ threshold_met t = true ∧
    g1_deserialize (ar_aggregated_signature r) = Some s ∧
    g2_deserialize (ar_aggregated_pubkey r) = Some pk ∧ signature_scheme t = ArkworksSha256 ∧
    bls_verify pk (message t) s = true.
Proof.
  destruct (get_aggregated_result 7 demo_signed 1 100) as [r|] eqn:E; [|by vm_compute in E].
  destruct (aggregated_result_valid demo_svc demo_signed 7 1 100 r demo_svc_fresh demo_verifying_run E)
    as (t & s & pk & Ht & Hm & _ & _ & _ & _ & _ & Hs & Hp & Hv).
  exists r, t, s, pk.
  assert (signature_scheme t = ArkworksSha256) as Hsch.
  { assert (signature_scheme <$> (state demo_signed !! mkTaskId 1 100) = Some ArkworksSha256) as Hx
      by (by vm_compute). rewrite Ht in Hx. by injection Hx. }
  rewrite Hsch in Hv. exact (conj eq_refl (conj Ht (conj Hm (conj Hs (conj Hp (conj Hsch Hv)))))).
Defined.

(** Two operators with opposite keys: both signatures are valid and accepted, the
    threshold is met, and the aggregate that is handed out is the identity, which
    the contract's algorithm rejects. *)
Definition cancel_request (i key : Z) : SubmitSignatureRequest :=
  mkSubmit 1 100 i [1; 2; 3]
    [key * match hash_to_curve_tangle [9] with Ok p => p | Err _ => 0 end] [key].
Definition cancel_svc : AggregationService (S := FilePersistence) := mkService ∅ ServiceConfig_default (mkFile None [] []).
Definition cancel_created :=
  (init_task_with_message_config (demo_op 0) cancel_svc 1 100 [1; 2; 3] [9] TangleKeccak256 3
     (mkTaskConfig (Count 2) None None)).2.
Definition cancel_first := submit_signature (demo_op 1) cancel_created (cancel_request 0 5).
Definition cancel_second := submit_signature (demo_op 2) cancel_first.2 (cancel_request 1 (-5)).

Lemma opposite_keys_cancel :
  cancel_second.1 = Ok (mkSubmitResponse true 2 2 true None) ∧
  ∃ r, get_aggregated_result 3 cancel_second.2 1 100 = Some r ∧
    ar_aggregated_signature r = [0] ∧ ar_aggregated_pubkey r = [0] ∧ bls_verify_tangle 0 [9] 0 = false.
Proof. split; [by vm_compute|]. eexists. split; [by vm_compute|]. by vm_compute. Qed.
