(* ===== verification/GossipDedup.v ===== *)
(** * Message deduplication

    Models [src/crates/networking/extensions/gossip-primitives/src/dedup.rs]:
    the bounded, expiring cache of message hashes and the gossip manager around
    it.  The cache is the [lru] crate's [LruCache], a parameter given by the
    class [LruCache] with its documented behaviour in [LruLaws]: an ordered list
    of entries, most recently used first. *)

From S2P Require Import Prelude.
From Stdlib Require Import ZArith Lia.
From stdpp Require Import base gmap sets list sorting fin_maps numbers relations.

#[local] Open Scope Z_scope.

(** A 32-byte hash. *)
Abbreviation MessageHash := (list Z) (only parsing).

(** ** The cache library *)

Class LruCache (V : Type) := {
  lru : Type;
  lru_new : nat → lru;
  lru_get : MessageHash → lru → option V * lru;          (** [get]: promotes *)
  lru_write : MessageHash → V → lru → lru;               (** through [get_mut]: promotes *)
  lru_put : MessageHash → V → lru → lru;
  lru_pop : MessageHash → lru → lru;
  lru_iter : lru → list (MessageHash * V);               (** most recent first *)
  lru_clear : lru → lru;
  lru_capacity : lru → nat;
}.

Section assoc.
  Context {V : Type}.
  Implicit Types l : list (MessageHash * V).

(** The first entry of a key, and the list without a key. *)
Definition entry_of (h : MessageHash) l : option V :=
  snd <$> List.find (λ p, bool_decide (p.1 = h)) l.

Definition without (h : MessageHash) l : list (MessageHash * V) := filter (λ p, p.1 ≠ h) l.

Lemma entry_of_Some h l v : entry_of h l = Some v → (h, v) ∈ l.
Proof.
  unfold entry_of. intros ([k w] & Hf & ->)%fmap_Some.
  apply List.find_some in Hf as [Hin Heq]. apply bool_decide_eq_true in Heq. simpl in *.
  subst. by apply list_elem_of_In.
Qed.

Lemma entry_of_None h l : entry_of h l = None ↔ h ∉ l.*1.
Proof.
  unfold entry_of. rewrite fmap_None. split.
  - intros Hn ([k v] & -> & Hin)%list_elem_of_fmap. rewrite list_elem_of_In in Hin.
    apply (List.find_none _ _ Hn) in Hin. by rewrite bool_decide_eq_true_2 in Hin.
  - intros Hn. destruct (List.find _ l) as [[k v]|] eqn:E; [|done]. exfalso. apply Hn.
    apply List.find_some in E as [Hin Heq]. apply bool_decide_eq_true in Heq. simpl in Heq. subst.
    apply list_elem_of_fmap. exists (h, v). split; [done|]. by apply list_elem_of_In.
Qed.

Lemma entry_of_NoDup h l v : NoDup l.*1 → (h, v) ∈ l → entry_of h l = Some v.
Proof.
  intros Hnd Hin. destruct (entry_of h l) as [w|] eqn:E.
  - apply entry_of_Some in E. f_equal. induction l as [|[k u] l IH]; [by apply not_elem_of_nil in Hin|].
    rewrite fmap_cons in Hnd. apply NoDup_cons in Hnd as [Hk Hnd]. simpl in Hk.
    assert (∀ x, (k, x) ∈ l → False) as Hno.
    { intros x Hx. apply Hk. apply list_elem_of_fmap. by exists (k, x). }
    rewrite elem_of_cons in Hin, E. destruct Hin as [Hin|Hin], E as [E|E]; simplify_eq; eauto; naive_solver.
  - apply entry_of_None in E. exfalso. apply E. apply list_elem_of_fmap. by exists (h, v).
Qed.

Lemma without_keys h l k : k ∈ (without h l).*1 ↔ k ∈ l.*1 ∧ k ≠ h.
Proof.
  unfold without. rewrite !list_elem_of_fmap. setoid_rewrite list_elem_of_filter. naive_solver.
Qed.

Lemma without_NoDup h l : NoDup l.*1 → NoDup (without h l).*1.
Proof. apply fmap_filter_NoDup. Qed.

Lemma without_absent h l : (h ∉ l.*1) → without h l = l.
Proof.
  unfold without. induction l as [|[k v] l IH]; [done|]. rewrite fmap_cons, not_elem_of_cons. simpl.
  intros [Hne Hn]. rewrite filter_cons, decide_True by (by apply not_eq_sym). by rewrite IH.
Qed.

Lemma without_length h l v : (h, v) ∈ l → (S (length (without h l)) ≤ length l)%nat.
Proof.
  unfold without. induction l as [|[k w] l IH]; [by intros ?%not_elem_of_nil|].
  rewrite elem_of_cons, filter_cons. intros [Heq|Hin].
  - simplify_eq/=. rewrite decide_False by (by intros ?). pose proof (length_filter (λ p, p.1 ≠ k) l). lia.
  - specialize (IH Hin). case_decide; simpl; lia.
Qed.

(** An entry moves up when another key is taken out. *)
Lemma without_lookup k l i h v :
  l !! i = Some (h, v) → h ≠ k → ∃ j, (j ≤ i)%nat ∧ without k l !! j = Some (h, v).
Proof.
  unfold without. revert i. induction l as [|[x w] l IH]; intros i Hi Hne; [done|].
  rewrite filter_cons. destruct i as [|i]; simpl in Hi.
  - simplify_eq. rewrite decide_True by done. exists 0%nat. split; [lia|done].
  - destruct (IH i Hi Hne) as (j & Hj & Hl). case_decide.
    + exists (S j). split; [lia|done].
    + exists j. split; [lia|done].
Qed.

End assoc.

(** Documented behaviour of [LruCache]. *)
Class LruLaws {V} (L : LruCache V) : Prop := {
  iter_new n : lru_iter (lru_new n) = [];
  capacity_new n : lru_capacity (lru_new n) = n;
  get_result h c : (lru_get h c).1 = entry_of h (lru_iter c);
  get_iter h c : lru_iter (lru_get h c).2 =
    match entry_of h (lru_iter c) with
    | Some v => (h, v) :: without h (lru_iter c)
    | None => lru_iter c
    end;
  write_iter h v c : is_Some (entry_of h (lru_iter c)) →
    lru_iter (lru_write h v c) = (h, v) :: without h (lru_iter c);
  put_iter h v c : lru_iter (lru_put h v c) =
    take (lru_capacity c) ((h, v) :: without h (lru_iter c));
  pop_iter h c : lru_iter (lru_pop h c) = without h (lru_iter c);
  clear_iter c : lru_iter (lru_clear c) = [];
  capacity_get h c : lru_capacity (lru_get h c).2 = lru_capacity c;
  capacity_write h v c : lru_capacity (lru_write h v c) = lru_capacity c;
  capacity_put h v c : lru_capacity (lru_put h v c) = lru_capacity c;
  capacity_pop h c : lru_capacity (lru_pop h c) = lru_capacity c;
  capacity_clear c : lru_capacity (lru_clear c) = lru_capacity c;
}.

(** ** Data *)

Record GossipConfig := mkGossipConfig {
  max_seen_messages : nat;
  message_ttl : Duration;
  enable_stats : bool;
}.

Definition GossipConfig_default : GossipConfig := mkGossipConfig (Z.to_nat 10000) (from_secs 300) true.

Definition GossipConfig_for_testing : GossipConfig := mkGossipConfig 100 (from_secs 30) true.

Record CacheEntry := mkCacheEntry { first_seen : Instant; seen_count : Z }.

Record GossipStats := mkGossipStats {
  messages_processed : Z;
  duplicates_rejected : Z;
  messages_regossiped : Z;
  send_failures : Z;
}.

Section dedup.
  Context {L : LruCache CacheEntry}.

Record DeduplicationCache := mkDedup { cache : lru; ttl : Duration }.

(** [DeduplicationCache::new] *)
Definition dedup_new (capacity : nat) (ttl : Duration) : DeduplicationCache :=
  mkDedup (lru_new (if bool_decide (capacity = O) then 1 else capacity)) ttl.

(** [DeduplicationCache::should_process] *)
Definition should_process (now : Instant) (d : DeduplicationCache) (h : MessageHash)
    : bool * DeduplicationCache :=
  match lru_get h (cache d) with
  | (Some entry, c) =>
      if ttl d <? elapsed now (first_seen entry) then (true, mkDedup (lru_pop h c) (ttl d))
      else (false, mkDedup c (ttl d))
  | (None, c) => (true, mkDedup c (ttl d))
  end.

(** [u32::saturating_add] by one *)
Definition count_up (n : Z) : Z := Z.min (n + 1) (2 ^ 32 - 1).

(** [DeduplicationCache::mark_seen] *)
Definition mark_seen (now : Instant) (d : DeduplicationCache) (h : MessageHash)
    : DeduplicationCache :=
  match lru_get h (cache d) with
  | (Some entry, c) =>
      mkDedup (lru_write h (mkCacheEntry (first_seen entry) (count_up (seen_count entry))) c) (ttl d)
  | (None, c) => mkDedup (lru_put h (mkCacheEntry now 1) c) (ttl d)
  end.

(** [DeduplicationCache::check_and_mark]; the expiry is tested at [now] and a
    new entry is stamped [now']. *)
Definition check_and_mark (now now' : Instant) (d : DeduplicationCache) (h : MessageHash)
    : bool * DeduplicationCache :=
  match lru_get h (cache d) with
  | (Some entry, c) =>
      if ttl d <? elapsed now (first_seen entry) then
        (true, mkDedup (lru_write h (mkCacheEntry now' 1) c) (ttl d))
      else
        (false, mkDedup (lru_write h (mkCacheEntry (first_seen entry) (count_up (seen_count entry))) c)
                  (ttl d))
  | (None, c) => (true, mkDedup (lru_put h (mkCacheEntry now' 1) c) (ttl d))
  end.

(** [DeduplicationCache::len] and [is_empty] *)
Definition dedup_len (d : DeduplicationCache) : nat := length (lru_iter (cache d)).

Definition dedup_is_empty (d : DeduplicationCache) : bool := bool_decide (dedup_len d = O).

(** [DeduplicationCache::clear] *)
Definition dedup_clear (d : DeduplicationCache) : DeduplicationCache :=
  mkDedup (lru_clear (cache d)) (ttl d).

(** [DeduplicationCache::gc]; each entry's age is read when it is visited *)
Definition dedup_gc (now : MessageHash → Instant) (d : DeduplicationCache) : DeduplicationCache :=
  let expired :=
    filter (λ p, (ttl d <? elapsed (now p.1) (first_seen p.2)) = true) (lru_iter (cache d)) in
  mkDedup (foldl (λ c p, lru_pop p.1 c) (cache d) expired) (ttl d).

(** ** [GossipManager] *)

Record GossipManager := mkManager {
  gm_cache : DeduplicationCache;
  gm_config : GossipConfig;
  gm_stats : option GossipStats;
}.

(** [GossipManager::new] *)
Definition manager_new (config : GossipConfig) : GossipManager :=
  mkManager (dedup_new (max_seen_messages config) (message_ttl config)) config
    (if enable_stats config then Some (mkGossipStats 0 0 0 0) else None).

(** The statistics, when they are kept, after an update. *)
Definition update_stats (f : GossipStats → GossipStats) (m : GossipManager) : GossipManager :=
  mkManager (gm_cache m) (gm_config m) (f <$> gm_stats m).

(** [GossipManager::should_process] *)
Definition manager_should_process (now : Instant) (m : GossipManager) (h : MessageHash)
    : bool * GossipManager :=
  let '(b, d) := should_process now (gm_cache m) h in (b, mkManager d (gm_config m) (gm_stats m)).

(** [GossipManager::mark_processed] *)
Definition mark_processed (now : Instant) (m : GossipManager) (h : MessageHash) : GossipManager :=
  update_stats (λ s, mkGossipStats (u64_wrap (messages_processed s + 1)) (duplicates_rejected s)
                       (messages_regossiped s) (send_failures s))
    (mkManager (mark_seen now (gm_cache m) h) (gm_config m) (gm_stats m)).

(** [GossipManager::record_duplicate] *)
Definition record_duplicate : GossipManager → GossipManager :=
  update_stats (λ s, mkGossipStats (messages_processed s) (u64_wrap (duplicates_rejected s + 1))
                       (messages_regossiped s) (send_failures s)).

(** [GossipManager::record_regossip] *)
Definition record_regossip : GossipManager → GossipManager :=
  update_stats (λ s, mkGossipStats (messages_processed s) (duplicates_rejected s)
                       (u64_wrap (messages_regossiped s + 1)) (send_failures s)).

(** [GossipManager::record_send_failure] *)
Definition record_send_failure : GossipManager → GossipManager :=
  update_stats (λ s, mkGossipStats (messages_processed s) (duplicates_rejected s)
                       (messages_regossiped s) (u64_wrap (send_failures s + 1))).

(** [GossipManager::gc] *)
Definition manager_gc (now : MessageHash → Instant) (m : GossipManager) : GossipManager :=
  mkManager (dedup_gc now (gm_cache m)) (gm_config m) (gm_stats m).

(** ** The cache as a state machine *)

Lemma elapsed_le now t d : 0 ≤ d → (d <? elapsed now t) = false ↔ now ≤ t + d.
Proof. intros Hd. unfold elapsed. rewrite Z.ltb_ge. lia. Qed.

(** Keys are distinct and the cache is within its capacity. *)
Definition cache_wf (d : DeduplicationCache) : Prop :=
  NoDup (lru_iter (cache d)).*1 ∧ (dedup_len d ≤ lru_capacity (cache d))%nat ∧
  (1 ≤ lru_capacity (cache d))%nat ∧ 0 ≤ ttl d.

(** One call of [check_and_mark]: the time of the test, the stamp, the hash. *)
Record CheckEvent := mkCheck { ev_now : Instant; ev_stamp : Instant; ev_hash : MessageHash }.

Definition run_checks (d : DeduplicationCache) (evs : list CheckEvent) : DeduplicationCache :=
  foldl (λ d e, (check_and_mark (ev_now e) (ev_stamp e) d (ev_hash e)).2) d evs.

Context {LL : LruLaws L}.

(** What one call does, on the entries. *)
Lemma check_and_mark_cases now now' d h :
  cache_wf d →
  let '(b, d') := check_and_mark now now' d h in
  cache_wf d' ∧ ttl d' = ttl d ∧ lru_capacity (cache d') = lru_capacity (cache d) ∧
  match entry_of h (lru_iter (cache d)) with
  | Some e =>
      b = (ttl d <? elapsed now (first_seen e)) ∧
      lru_iter (cache d') =
        (h, if b then mkCacheEntry now' 1
            else mkCacheEntry (first_seen e) (count_up (seen_count e))) :: without h (lru_iter (cache d))
  | None =>
      b = true ∧ lru_iter (cache d') =
        take (lru_capacity (cache d)) ((h, mkCacheEntry now' 1) :: lru_iter (cache d))
  end.
Proof.
  intros (Hnd & Hlen & Hcap & Httl). unfold check_and_mark.
  pose proof (get_result h (cache d)) as Hg. pose proof (get_iter h (cache d)) as Hi.
  pose proof (capacity_get h (cache d)) as Hc.
  destruct (lru_get h (cache d)) as [o c]. simpl in *. rewrite Hg in *.
  destruct (entry_of h (lru_iter (cache d))) as [e|] eqn:E.
  - assert (∀ v, lru_iter (lru_write h v c) = (h, v) :: without h (lru_iter (cache d))) as Hw.
    { intros v. rewrite write_iter.
      - rewrite Hi. f_equal. unfold without. rewrite filter_cons, decide_False by (by intros ?).
        rewrite list_filter_filter. apply list_filter_iff. naive_solver.
      - rewrite Hi. unfold entry_of. simpl. rewrite bool_decide_eq_true_2 by done. by eexists. }
    assert (∀ v, cache_wf (mkDedup (lru_write h v c) (ttl d))) as Hwf.
    { intros v. unfold cache_wf, dedup_len. simpl. rewrite Hw, capacity_write, Hc. simpl.
      pose proof (without_length h _ e (entry_of_Some _ _ _ E)). unfold dedup_len in Hlen.
      split_and!; [|lia|lia|done]. apply NoDup_cons. split; [|by apply without_NoDup].
      rewrite without_keys. naive_solver. }
    destruct (ttl d <? elapsed now (first_seen e)) eqn:Ht; simpl;
      (split_and!; [done|done|by rewrite capacity_write|done|]); apply Hw.
  - apply entry_of_None in E as Hn. simpl.
    assert (lru_iter (lru_put h (mkCacheEntry now' 1) c) =
      take (lru_capacity (cache d)) ((h, mkCacheEntry now' 1) :: lru_iter (cache d))) as Hp.
    { rewrite put_iter, Hc, Hi. by rewrite without_absent. }
    split_and!; [|done|by rewrite capacity_put|done|done].
    unfold cache_wf, dedup_len. simpl. rewrite Hp, capacity_put, Hc. split_and!; [|rewrite length_take; lia|lia|done].
    rewrite fmap_take. eapply sublist_NoDup; [|apply sublist_take]. simpl. by constructor.
Qed.

Lemma dedup_new_wf capacity t : 0 ≤ t → cache_wf (dedup_new capacity t).
Proof.
  intros Ht. unfold cache_wf, dedup_len, dedup_new. simpl. rewrite iter_new, capacity_new. simpl.
  split_and!; [constructor|lia|case_bool_decide; lia|done].
Qed.

Lemma run_checks_wf evs d :
  cache_wf d → cache_wf (run_checks d evs) ∧ ttl (run_checks d evs) = ttl d ∧
  lru_capacity (cache (run_checks d evs)) = lru_capacity (cache d).
Proof.
  revert d. induction evs as [|e evs IH]; intros d Hwf; [done|]. unfold run_checks. simpl.
  pose proof (check_and_mark_cases (ev_now e) (ev_stamp e) d (ev_hash e) Hwf) as H.
  destruct (check_and_mark _ _ _ _) as [b d']. simpl. destruct H as (Hwf' & Ht & Hc & _).
  destruct (IH d' Hwf') as (? & ? & ?). unfold run_checks in *. split_and!; congruence.
Qed.

(** The hash [h] sits at most [n] places from the front with stamp [t]. *)
Definition sits (d : DeduplicationCache) (h : MessageHash) (t : Instant) (n : nat) : Prop :=
  ∃ i e, (i ≤ n)%nat ∧ lru_iter (cache d) !! i = Some (h, e) ∧ first_seen e = t.

Lemma sits_entry d h t n :
  cache_wf d → sits d h t n → ∃ e, entry_of h (lru_iter (cache d)) = Some e ∧ first_seen e = t.
Proof.
  intros (Hnd & _) (i & e & _ & Hi & He). exists e. split; [|done].
  apply entry_of_NoDup; [done|]. by eapply list_elem_of_lookup_2.
Qed.

(** A call on any hash pushes [h] back by at most one place, and does not
    re-stamp it while it is alive. *)
Lemma sits_step d h t n now now' k :
  cache_wf d → sits d h t n → now ≤ t + ttl d → (S n < lru_capacity (cache d))%nat →
  sits (check_and_mark now now' d k).2 h t (S n).
Proof.
  intros Hwf Hs Ht Hn. pose proof (sits_entry _ _ _ _ Hwf Hs) as (e0 & He0 & Ht0).
  pose proof (check_and_mark_cases now now' d k Hwf) as H.
  destruct (check_and_mark now now' d k) as [b d']. destruct H as (_ & _ & _ & H). simpl.
  destruct Hs as (i & e & Hi & Hl & He). destruct Hwf as (_ & _ & _ & Httl).
  destruct (decide (h = k)) as [->|Hne].
  - rewrite He0 in H. destruct H as (-> & Hd').
    assert ((ttl d <? elapsed now (first_seen e0)) = false) as Hb by (apply elapsed_le; lia).
    rewrite Hb in Hd'. exists 0%nat. eexists. rewrite Hd'. split_and!; [lia|done|done].
  - destruct (entry_of k (lru_iter (cache d))) as [ek|].
    + destruct H as (_ & Hd'). destruct (without_lookup k _ i h e Hl Hne) as (j & Hj & Hlj).
      exists (S j), e. rewrite Hd'. split_and!; [lia|done|done].
    + destruct H as (_ & Hd'). exists (S i), e. rewrite Hd', lookup_take_lt by lia.
      split_and!; [lia|done|done].
Qed.

Lemma sits_run evs d h t n :
  cache_wf d → sits d h t n → Forall (λ e, ev_now e ≤ t + ttl d) evs →
  (n + length evs < lru_capacity (cache d))%nat →
  sits (run_checks d evs) h t (n + length evs).
Proof.
  revert d n. induction evs as [|e evs IH]; intros d n Hwf Hs Hev Hn; simpl.
  { by rewrite Nat.add_0_r. }
  apply list.Forall_cons in Hev as [He Hev]. simpl in Hn.
  pose proof (sits_step d h t n (ev_now e) (ev_stamp e) (ev_hash e) Hwf Hs He ltac:(lia)) as Hs'.
  pose proof (check_and_mark_cases (ev_now e) (ev_stamp e) d (ev_hash e) Hwf) as H.
  unfold run_checks in *. simpl. destruct (check_and_mark _ _ _ _) as [b d']. simpl in *.
  destruct H as (Hwf' & Ht & Hc & _). replace (n + S (length evs))%nat with (S n + length evs)%nat by lia.
  apply IH; [done|done|by rewrite Ht|rewrite Hc; lia].
Qed.

Lemma check_and_mark_sits now now' d h d' :
  cache_wf d → check_and_mark now now' d h = (true, d') → sits d' h now' 0.
Proof.
  intros Hwf Hc. pose proof (check_and_mark_cases now now' d h Hwf) as H. rewrite Hc in H.
  destruct H as (_ & _ & _ & H). destruct Hwf as (_ & _ & Hcap & _).
  exists 0%nat. destruct (entry_of h (lru_iter (cache d))) as [e|].
  - destruct H as (_ & ->). eexists. split_and!; [lia|done|done].
  - destruct H as (_ & ->). destruct (lru_capacity (cache d)); [lia|].
    eexists. split_and!; [lia|done|done].
Qed.

(** ** Guarantees *)

(** C34. No duplicate gets through: once a hash is accepted, it is rejected for the
    whole time-to-live, as long as fewer calls than the capacity come between. *)
Theorem dedup_window now0 stamp d h d1 evs now now' :
  cache_wf d → check_and_mark now0 stamp d h = (true, d1) →
  Forall (λ e, ev_now e ≤ stamp + ttl d) evs →
  (length evs < lru_capacity (cache d))%nat → now ≤ stamp + ttl d →
  (check_and_mark now now' (run_checks d1 evs) h).1 = false.
Proof.
  intros Hwf Hacc Hev Hlen Hnow.
  pose proof (check_and_mark_sits _ _ _ _ _ Hwf Hacc) as Hs.
  pose proof (check_and_mark_cases now0 stamp d h Hwf) as H. rewrite Hacc in H.
  destruct H as (Hwf1 & Ht1 & Hc1 & _).
  pose proof (sits_run evs d1 h stamp 0 Hwf1 Hs ltac:(by rewrite Ht1) ltac:(rewrite Hc1; lia)) as Hs2.
  destruct (run_checks_wf evs d1 Hwf1) as (Hwf2 & Ht2 & _).
  destruct (sits_entry _ _ _ _ Hwf2 Hs2) as (e & He & Hfs).
  pose proof (check_and_mark_cases now now' _ h Hwf2) as H.
  destruct (check_and_mark now now' (run_checks d1 evs) h) as [b d3]. simpl.
  destruct H as (_ & _ & _ & H). rewrite He in H. destruct H as [-> _].
  destruct Hwf as (_ & _ & _ & Httl). apply elapsed_le; rewrite Ht2, Ht1; [done|]. lia.
Qed.

(** Every entry of the cache was put there by a call for its hash. *)
Lemma run_checks_entry evs d0 h e :
  cache_wf d0 → lru_iter (cache d0) = [] →
  entry_of h (lru_iter (cache (run_checks d0 evs))) = Some e →
  ∃ ev, ev ∈ evs ∧ ev_hash ev = h ∧ ev_stamp ev = first_seen e.
Proof.
  intros Hwf Hnil. revert e. induction evs as [|ev evs IH] using rev_ind; intros e He.
  { unfold run_checks in He. simpl in He. by rewrite Hnil in He. }
  unfold run_checks in He. rewrite foldl_app in He. fold (run_checks d0 evs) in He. simpl in He.
  destruct (run_checks_wf evs d0 Hwf) as (Hwf1 & _ & _).
  set (d1 := run_checks d0 evs) in *.
  pose proof (check_and_mark_cases (ev_now ev) (ev_stamp ev) d1 (ev_hash ev) Hwf1) as H.
  destruct (check_and_mark _ _ d1 _) as [b d2]. simpl in He. destruct H as (Hwf2 & _ & _ & H).
  assert (∀ e', (h, e') ∈ lru_iter (cache d1) → first_seen e' = first_seen e →
    ∃ ev0, ev0 ∈ evs ++ [ev] ∧ ev_hash ev0 = h ∧ ev_stamp ev0 = first_seen e) as Hold.
  { intros e' Hin Heq. destruct (IH e') as (ev0 & Hin0 & Hh & Hst).
    - apply entry_of_NoDup; [by destruct Hwf1|done].
    - exists ev0. split_and!; [set_solver|done|congruence]. }
  apply entry_of_Some in He.
  destruct (entry_of (ev_hash ev) (lru_iter (cache d1))) as [e1|] eqn:E1.
  - destruct H as (-> & Hit). rewrite Hit, elem_of_cons in He. destruct He as [He|He].
    + injection He as Hh ->. simpl in *. destruct (_ <? _); simpl in *.
      * exists ev. set_solver.
      * apply (Hold e1); [|done]. rewrite Hh. by apply entry_of_Some.
    + unfold without in He. apply list_elem_of_filter in He as [_ He]. by apply (Hold e).
  - destruct H as (-> & Hit). rewrite Hit in He. apply elem_of_take in He as (i & Hi & _).
    apply list_elem_of_lookup_2 in Hi. rewrite elem_of_cons in Hi. destruct Hi as [Hi|Hi].
    + injection Hi as Hh ->. exists ev. set_solver.
    + by apply (Hold e).
Qed.

(** Nothing is rejected without reason: a rejected hash was stamped by an
    earlier call for the same hash, no longer ago than the time-to-live. *)
Theorem dedup_reject_sound capacity t evs now now' h :
  0 ≤ t →
  (check_and_mark now now' (run_checks (dedup_new capacity t) evs) h).1 = false →
  ∃ ev, ev ∈ evs ∧ ev_hash ev = h ∧ now ≤ ev_stamp ev + t.
Proof.
  intros Ht Hrej. pose proof (dedup_new_wf capacity t Ht) as Hwf.
  destruct (run_checks_wf evs _ Hwf) as (Hwf1 & Httl & _).
  set (d1 := run_checks (dedup_new capacity t) evs) in *.
  pose proof (check_and_mark_cases now now' d1 h Hwf1) as H.
  destruct (check_and_mark now now' d1 h) as [b d2]. simpl in Hrej. subst b.
  destruct H as (_ & _ & _ & H).
  destruct (entry_of h (lru_iter (cache d1))) as [e|] eqn:E; [|by destruct H].
  destruct H as [Hb _]. symmetry in Hb. rewrite Httl in Hb. simpl in Hb. apply elapsed_le in Hb; [|done].
  unfold d1 in E. apply run_checks_entry in E as (ev & Hin & Hh & Hst); [|done|apply iter_new].
  exists ev. split_and!; [done|done|lia].
Qed.

(** [should_process] followed by [mark_seen] decides and stores exactly what
    the atomic [check_and_mark] does. *)
Theorem two_step_equivalent now stamp d h :
  cache_wf d →
  let '(b, d1) := should_process now d h in
  (check_and_mark now stamp d h).1 = b ∧
  (b = true →
   lru_iter (cache (mark_seen stamp d1 h)) = lru_iter (cache (check_and_mark now stamp d h).2)).
Proof.
  intros Hwf. pose proof (check_and_mark_cases now stamp d h Hwf) as H.
  destruct Hwf as (Hnd & Hlen & Hcap & Httl). unfold dedup_len in Hlen.
  unfold should_process. pose proof (get_result h (cache d)) as Hg. pose proof (get_iter h (cache d)) as Hi.
  pose proof (capacity_get h (cache d)) as Hc. destruct (lru_get h (cache d)) as [o c]. simpl in *.
  destruct (check_and_mark now stamp d h) as [b d']. destruct H as (_ & _ & _ & H). rewrite Hg.
  destruct (entry_of h (lru_iter (cache d))) as [e|] eqn:E; simpl.
  - destruct H as (Hb & Hd'). destruct (ttl d <? elapsed now (first_seen e)) eqn:Ht; subst b; [|done].
    split; [done|]. intros _. rewrite Hd'. unfold mark_seen. simpl.
    pose proof (get_result h (lru_pop h c)) as Hg2. pose proof (get_iter h (lru_pop h c)) as Hi2.
    pose proof (capacity_get h (lru_pop h c)) as Hc2. destruct (lru_get h (lru_pop h c)) as [o2 c2]. simpl in *.
    assert (lru_iter (lru_pop h c) = without h (lru_iter (cache d))) as Hpop.
    { rewrite pop_iter, Hi. unfold without. rewrite filter_cons, decide_False by (by intros ?).
      rewrite list_filter_filter. apply list_filter_iff. naive_solver. }
    assert (entry_of h (lru_iter (lru_pop h c)) = None) as Hnone.
    { apply entry_of_None. rewrite Hpop, without_keys. naive_solver. }
    rewrite Hg2, Hnone in *. simpl. rewrite put_iter, Hc2, capacity_pop, Hc, Hi2, Hpop.
    rewrite without_absent by (rewrite without_keys; naive_solver).
    pose proof (without_length h _ e (entry_of_Some _ _ _ E)).
    by rewrite take_ge by (simpl; lia).
  - destruct H as (-> & Hd'). split; [done|]. intros _. rewrite Hd'. unfold mark_seen. simpl.
    pose proof (get_result h c) as Hg2. pose proof (get_iter h c) as Hi2.
    pose proof (capacity_get h c) as Hc2. destruct (lru_get h c) as [o2 c2]. simpl in *.
    rewrite Hi, E in *. subst o2. simpl. rewrite put_iter, Hc2, Hc, Hi2.
    rewrite without_absent; [done|]. by apply entry_of_None.
Qed.

(** ** Garbage collection *)

Lemma pop_all_iter ks c :
  lru_iter (foldl (λ c (p : MessageHash * CacheEntry), lru_pop p.1 c) c ks) =
  filter (λ p, p.1 ∉ ks.*1) (lru_iter c).
Proof.
  revert c. induction ks as [|[k v] ks IH]; intros c; simpl.
  { symmetry. apply filter_all. intros p _. apply not_elem_of_nil. }
  rewrite IH, pop_iter. unfold without. rewrite list_filter_filter. apply list_filter_iff.
  intros p. rewrite not_elem_of_cons. tauto.
Qed.

Lemma pop_all_capacity ks c :
  lru_capacity (foldl (λ c (p : MessageHash * CacheEntry), lru_pop p.1 c) c ks) = lru_capacity c.
Proof.
  revert c. induction ks as [|p ks IH]; intros c; simpl; [done|]. rewrite IH. apply capacity_pop.
Qed.

(** [gc] keeps exactly the entries that are still alive. *)
Lemma gc_iter now d :
  NoDup (lru_iter (cache d)).*1 →
  lru_iter (cache (dedup_gc now d)) =
  filter (λ p, (ttl d <? elapsed (now p.1) (first_seen p.2)) = false) (lru_iter (cache d)).
Proof.
  intros Hnd. unfold dedup_gc. simpl. rewrite pop_all_iter.
  assert (∀ l, l ⊆ lru_iter (cache d) →
    filter (λ p, p.1 ∉ (filter (λ p, (ttl d <? elapsed (now p.1) (first_seen p.2)) = true)
                          (lru_iter (cache d))).*1) l =
    filter (λ p, (ttl d <? elapsed (now p.1) (first_seen p.2)) = false) l) as H; [|by apply H].
  induction l as [|[k e] l IH]; intros Hl; [done|]. rewrite !filter_cons.
  assert (l ⊆ lru_iter (cache d)) as Hl' by set_solver. rewrite IH by done.
  assert ((k, e) ∈ lru_iter (cache d)) as Hin by set_solver.
  destruct (ttl d <? elapsed (now k) (first_seen e)) eqn:E.
  - rewrite decide_False, decide_False; [done|simpl; congruence|]. intros Hn. apply Hn. simpl.
    apply list_elem_of_fmap. exists (k, e). split; [done|]. by apply list_elem_of_filter.
  - rewrite decide_True, decide_True; [done|done|]. simpl.
    intros ([k' e'] & Hk & [Ht Hin']%list_elem_of_filter)%list_elem_of_fmap. simpl in *. subst k'.
    pose proof (entry_of_NoDup k _ e Hnd Hin). pose proof (entry_of_NoDup k _ e' Hnd Hin'). congruence.
Qed.

(** Garbage collection never changes an answer: whatever the cache would say
    about a hash later on, it says the same after a collection. *)
Theorem gc_transparent g now now' d h :
  cache_wf d → g ≤ now →
  (check_and_mark now now' (dedup_gc (λ _, g) d) h).1 = (check_and_mark now now' d h).1.
Proof.
  intros Hwf Hg. pose proof Hwf as (Hnd & Hlen & Hcap & Httl).
  pose proof (gc_iter (λ _, g) d Hnd) as Hgc.
  pose proof (pop_all_capacity (filter (λ p, (ttl d <? elapsed g (first_seen p.2)) = true)
    (lru_iter (cache d))) (cache d)) as Hc.
  change (lru_capacity (cache (dedup_gc (λ _, g) d)) = lru_capacity (cache d)) in Hc.
  assert (cache_wf (dedup_gc (λ _, g) d)) as Hwf'.
  { unfold cache_wf, dedup_len. rewrite Hgc, Hc. split_and!; [|etrans; [apply length_filter|done]|done|done].
    by apply fmap_filter_NoDup. }
  pose proof (check_and_mark_cases now now' d h Hwf) as H1.
  pose proof (check_and_mark_cases now now' _ h Hwf') as H2.
  destruct (check_and_mark now now' d h) as [b1 d1], (check_and_mark now now' (dedup_gc _ d) h) as [b2 d2].
  simpl. destruct H1 as (_ & _ & _ & H1), H2 as (_ & _ & _ & H2). rewrite Hgc in H2.
  destruct (entry_of h (lru_iter (cache d))) as [e|] eqn:E.
  - destruct H1 as [-> _]. apply entry_of_Some in E as Hin.
    destruct (ttl d <? elapsed g (first_seen e)) eqn:Eg.
    + rewrite (proj2 (entry_of_None h _)) in H2.
      * destruct H2 as [-> _]. symmetry. rewrite Z.ltb_lt in *. unfold elapsed in *. lia.
      * intros ([k e'] & -> & [Ht Hin']%list_elem_of_filter)%list_elem_of_fmap. simpl in *.
        pose proof (entry_of_NoDup k _ e' Hnd Hin'). congruence.
    + rewrite (entry_of_NoDup h _ e) in H2; [by destruct H2 as [-> _]| |by apply list_elem_of_filter].
      by apply fmap_filter_NoDup.
  - destruct H1 as [-> _]. rewrite (proj2 (entry_of_None h _)) in H2; [by destruct H2|].
    apply entry_of_None in E. intros ([k e'] & -> & [Ht Hin']%list_elem_of_filter)%list_elem_of_fmap.
    apply E. apply list_elem_of_fmap. by exists (k, e').
Qed.

End dedup.

(** ** A list as an LRU cache *)

#[export] Instance list_lru {V} : LruCache V := {|
  lru := nat * list (MessageHash * V);
  lru_new n := (n, []);
  lru_get h c :=
    match entry_of h c.2 with
    | Some v => (Some v, (c.1, (h, v) :: without h c.2))
    | None => (None, c)
    end;
  lru_write h v c := (c.1, (h, v) :: without h c.2);
  lru_put h v c := (c.1, take c.1 ((h, v) :: without h c.2));
  lru_pop h c := (c.1, without h c.2);
  lru_iter c := c.2;
  lru_clear c := (c.1, []);
  lru_capacity c := c.1;
|}.

#[export] Instance list_lru_laws {V} : LruLaws (@list_lru V).
Proof.
  split; intros; simpl; try done; destruct (entry_of h c.2); done.
Qed.

(** Two hashes through a cache of three. *)
Definition demo_dedup : DeduplicationCache := dedup_new 3 (from_secs 10).

Lemma demo_dedup_wf : cache_wf demo_dedup.
Proof. by apply dedup_new_wf. Qed.

Lemma dedup_window_witness :
  (check_and_mark 900 900
     (run_checks (check_and_mark 5 6 demo_dedup [1]).2 [mkCheck 7 7 [2]; mkCheck 8 8 [1]]) [1]).1 = false.
Proof.
  apply (dedup_window 5 6 demo_dedup [1]); [apply demo_dedup_wf|done| |simpl; lia|done].
  by repeat constructor.
Defined.

Lemma dedup_reject_sound_witness :
  ∃ ev, ev ∈ [mkCheck 5 6 [1]; mkCheck 7 7 [2]] ∧ ev_hash ev = [1] ∧ 900 ≤ ev_stamp ev + from_secs 10.
Proof. by apply (dedup_reject_sound 3 (from_secs 10) _ 900 900). Defined.

Lemma two_step_equivalent_witness :
  (check_and_mark 5 6 demo_dedup [1]).1 = true ∧
  lru_iter (cache (mark_seen 6 (should_process 5 demo_dedup [1]).2 [1])) =
  lru_iter (cache (check_and_mark 5 6 demo_dedup [1]).2).
Proof.
  destruct (two_step_equivalent 5 6 demo_dedup [1] demo_dedup_wf) as [H1 H2].
  split; [exact H1|by apply H2].
Defined.

Lemma gc_transparent_witness :
  (check_and_mark 50 50 (dedup_gc (λ _, 20) (check_and_mark 5 6 demo_dedup [1]).2) [1]).1 =
  (check_and_mark 50 50 (check_and_mark 5 6 demo_dedup [1]).2 [1]).1.
Proof.
  apply (gc_transparent 20 50 50); [|done].
  exact (proj1 (check_and_mark_cases 5 6 demo_dedup [1] demo_dedup_wf)).
Defined.
