(* ===== verification/GossipStore.v ===== *)
(** * The gossip message store

    Models [src/crates/networking/extensions/gossip-primitives/src/store.rs]:
    the primary table keyed by hash, the per-sender index and the insertion
    order used for eviction.  A [HashMap] is a [gmap]; the [BTreeMap] ordered by
    [Instant] is a [gmap] read in increasing key order.  The three tables have
    their own locks; each operation is modelled as one step. *)

From S2P Require Import Prelude.
From Stdlib Require Import ZArith Lia.
From stdpp Require Import base gmap sets list sorting fin_maps numbers relations.

#[local] Open Scope Z_scope.

Abbreviation MessageHash := (list Z) (only parsing).
Abbreviation PeerId := (list Z) (only parsing).

Record StoreConfig := mkStoreConfig { max_messages : Z; index_by_sender : bool }.

Definition StoreConfig_default : StoreConfig := mkStoreConfig 10000 true.

Record StoreStats := mkStoreStats {
  total_messages : Z; processed_messages : Z; unprocessed_messages : Z; unique_senders : Z;
}.

Section store.
  Context {M : Type}.

Record MessageEntry := mkEntry {
  me_message : M;
  me_hash : MessageHash;
  me_sender : option PeerId;
  received_at : Instant;
  me_processed : bool;
}.

(** [MessageEntry::new] *)
Definition entry_new (now : Instant) (message : M) (hash : MessageHash) (sender : option PeerId)
    : MessageEntry := mkEntry message hash sender now false.

(** [MessageEntry::mark_processed] *)
Definition entry_mark_processed (e : MessageEntry) : MessageEntry :=
  mkEntry (me_message e) (me_hash e) (me_sender e) (received_at e) true.

(** [MessageEntry::age] *)
Definition entry_age (now : Instant) (e : MessageEntry) : Duration := elapsed now (received_at e).

Record MessageStore := mkStore {
  messages : gmap MessageHash MessageEntry;
  by_sender : gmap PeerId (list MessageHash);
  insertion_order : gmap Instant MessageHash;
  store_config : StoreConfig;
}.

(** [MessageStore::new] *)
Definition store_new (config : StoreConfig) : MessageStore := mkStore ∅ ∅ ∅ config.

(** The times of the insertion order, oldest first. *)
Definition order_times (s : MessageStore) : list Instant :=
  merge_sort Z.le (keys (insertion_order s)).

(** Removing one message from the primary table and the sender index, as
    [maybe_evict] and [remove_older_than] do. *)
Definition drop_message (s : MessageStore) (h : MessageHash) : MessageStore :=
  match messages s !! h with
  | Some entry =>
      mkStore (delete h (messages s))
        (match me_sender entry with
         | Some sender => alter (filter (λ x, x ≠ h)) sender (by_sender s)
         | None => by_sender s
         end)
        (insertion_order s) (store_config s)
  | None => s
  end.

(** Removing times from the insertion order. *)
Definition drop_times (s : MessageStore) (ts : list Instant) : MessageStore :=
  mkStore (messages s) (by_sender s) (foldl (λ m t, delete t m) (insertion_order s) ts) (store_config s).

(** Removing the messages filed under some times, and the times. *)
Definition drop_oldest (s : MessageStore) (ts : list Instant) : MessageStore :=
  drop_times (foldl drop_message s (omap (λ t, insertion_order s !! t) ts)) ts.

(** [MessageStore::maybe_evict] *)
Definition maybe_evict (s : MessageStore) : MessageStore :=
  if Z.of_nat (size (messages s)) <? max_messages (store_config s) then s
  else
    let to_evict := Z.max (max_messages (store_config s) / 10) 1 in
    drop_oldest s (take (Z.to_nat to_evict) (order_times s)).

(** [MessageStore::insert] *)
Definition store_insert (s : MessageStore) (entry : MessageEntry) : bool * MessageStore :=
  let s := maybe_evict s in
  match messages s !! me_hash entry with
  | Some _ => (false, s)
  | None =>
      let by_sender' :=
        if index_by_sender (store_config s) then
          match me_sender entry with
          | Some peer_id =>
              <[peer_id := default [] (by_sender s !! peer_id) ++ [me_hash entry]]> (by_sender s)
          | None => by_sender s
          end
        else by_sender s in
      (true, mkStore (<[me_hash entry := entry]> (messages s)) by_sender'
               (<[received_at entry := me_hash entry]> (insertion_order s)) (store_config s))
  end.

(** [MessageStore::get] *)
Definition store_get (s : MessageStore) (h : MessageHash) : option MessageEntry := messages s !! h.

(** [MessageStore::contains] *)
Definition store_contains (s : MessageStore) (h : MessageHash) : bool :=
  bool_decide (is_Some (messages s !! h)).

(** [MessageStore::get_by_sender] *)
Definition get_by_sender (s : MessageStore) (sender : PeerId) : list MessageEntry :=
  match by_sender s !! sender with
  | Some hashes => omap (λ h, messages s !! h) hashes
  | None => []
  end.

(** [MessageStore::get_unprocessed] *)
Definition get_unprocessed (s : MessageStore) : list MessageEntry :=
  filter (λ e, me_processed e = false) (values (messages s)).

(** [MessageStore::mark_processed] *)
Definition store_mark_processed (s : MessageStore) (h : MessageHash) : bool * MessageStore :=
  match messages s !! h with
  | Some e =>
      (true, mkStore (<[h := entry_mark_processed e]> (messages s)) (by_sender s) (insertion_order s)
               (store_config s))
  | None => (false, s)
  end.

(** [MessageStore::remove] *)
Definition store_remove (s : MessageStore) (h : MessageHash) : option MessageEntry * MessageStore :=
  match messages s !! h with
  | Some entry => (Some entry, drop_times (drop_message s h) [received_at entry])
  | None => (None, s)
  end.

(** [MessageStore::len] and [is_empty] *)
Definition store_len (s : MessageStore) : Z := Z.of_nat (size (messages s)).

Definition store_is_empty (s : MessageStore) : bool := store_len s =? 0.

(** [MessageStore::clear] *)
Definition store_clear (s : MessageStore) : MessageStore := mkStore ∅ ∅ ∅ (store_config s).

(** [MessageStore::remove_older_than] *)
Definition remove_older_than (now : Instant) (max_age : Duration) (s : MessageStore) : MessageStore :=
  drop_oldest s (filter (λ t, t < now - max_age) (order_times s)).

(** [MessageStore::stats] *)
Definition store_stats (s : MessageStore) : StoreStats :=
  let processed := Z.of_nat (length (filter (λ e, me_processed e = true) (values (messages s)))) in
  mkStoreStats (store_len s) processed (store_len s - processed) (Z.of_nat (size (by_sender s))).

(** ** Invariant *)

(** Messages are filed under their hash; the sender index lists exactly the
    stored messages of each sender; the insertion order only names stored
    messages, at their time. *)
Record index_wf (s : MessageStore) : Prop := {
  wf_hash h e : messages s !! h = Some e → me_hash e = h;
  wf_index p h :
    h ∈ default [] (by_sender s !! p) ↔
    index_by_sender (store_config s) = true ∧ ∃ e, messages s !! h = Some e ∧ me_sender e = Some p;
  wf_index_NoDup p : NoDup (default [] (by_sender s !! p));
}.

Record store_wf (s : MessageStore) : Prop := {
  wf_core : index_wf s;
  wf_order t h :
    insertion_order s !! t = Some h → ∃ e, messages s !! h = Some e ∧ received_at e = t;
}.

(** Every stored message is in the insertion order. *)
Definition ordered (s : MessageStore) : Prop :=
  ∀ h e, messages s !! h = Some e → insertion_order s !! received_at e = Some h.

Lemma store_new_wf cfg : store_wf (store_new cfg).
Proof.
  split; [split|]; simpl; intros.
  - by rewrite lookup_empty in *.
  - rewrite lookup_empty. simpl. setoid_rewrite lookup_empty. set_solver.
  - rewrite lookup_empty. constructor.
  - by rewrite lookup_empty in *.
Qed.

(** ** Dropping messages *)

Lemma drop_message_lookup s h i :
  messages (drop_message s h) !! i = if decide (i = h) then None else messages s !! i.
Proof.
  unfold drop_message. destruct (messages s !! h) as [e|] eqn:E; simpl; case_decide as Hd; subst.
  - apply lookup_delete_eq.
  - by apply lookup_delete_ne.
  - done.
  - done.
Qed.

Lemma drop_message_frame s h :
  insertion_order (drop_message s h) = insertion_order s ∧
  store_config (drop_message s h) = store_config s.
Proof. unfold drop_message. by destruct (messages s !! h). Qed.

Lemma drop_message_index s h p :
  index_wf s →
  default [] (by_sender (drop_message s h) !! p) =
  filter (λ x, x ≠ h) (default [] (by_sender s !! p)).
Proof.
  intros Hwf. unfold drop_message.
  assert ((h ∉ default [] (by_sender s !! p)) →
    default [] (by_sender s !! p) = filter (λ x, x ≠ h) (default [] (by_sender s !! p))) as Hall.
  { intros Hn. symmetry. apply filter_all. by intros x Hx ->. }
  destruct (messages s !! h) as [e|] eqn:E; simpl.
  - destruct (me_sender e) as [q|] eqn:Eq.
    + destruct (decide (p = q)) as [->|Hne].
      * rewrite lookup_alter_eq. by destruct (by_sender s !! q).
      * rewrite lookup_alter_ne by done. apply Hall. rewrite (wf_index _ Hwf).
        intros (_ & e' & He' & Hs). congruence.
    + apply Hall. rewrite (wf_index _ Hwf). intros (_ & e' & He' & Hs). congruence.
  - apply Hall. rewrite (wf_index _ Hwf). intros (_ & e' & He' & Hs). congruence.
Qed.

Lemma drop_message_wf s h : index_wf s → index_wf (drop_message s h).
Proof.
  intros Hwf. destruct (drop_message_frame s h) as [_ Hcfg]. split.
  - intros i e. rewrite drop_message_lookup. case_decide; [done|]. apply (wf_hash _ Hwf).
  - intros p i. rewrite drop_message_index, list_elem_of_filter, (wf_index _ Hwf), Hcfg by done.
    rewrite drop_message_lookup. case_decide; naive_solver.
  - intros p. rewrite drop_message_index by done. apply list.NoDup_filter, (wf_index_NoDup _ Hwf).
Qed.

Lemma drop_messages_spec hs s :
  index_wf s →
  index_wf (foldl drop_message s hs) ∧
  insertion_order (foldl drop_message s hs) = insertion_order s ∧
  store_config (foldl drop_message s hs) = store_config s ∧
  ∀ i, messages (foldl drop_message s hs) !! i = if decide (i ∈ hs) then None else messages s !! i.
Proof.
  revert s. induction hs as [|h hs IH]; intros s Hwf; cbn [foldl].
  { split_and!; [done..|]. intros i. by rewrite decide_False by apply not_elem_of_nil. }
  destruct (IH (drop_message s h) (drop_message_wf s h Hwf)) as (? & Ho & Hc & Hm).
  destruct (drop_message_frame s h) as [Ho' Hc'].
  split_and!; [done|congruence|congruence|]. intros i. rewrite Hm, drop_message_lookup.
  destruct (decide (i = h)) as [->|Hne].
  - rewrite (decide_True (P := h ∈ h :: hs)) by (by left). by case_decide.
  - by rewrite (decide_ext (i ∈ h :: hs) (i ∈ hs)) by set_solver.
Qed.

Lemma drop_times_lookup ts (m : gmap Instant MessageHash) t :
  foldl (λ m t, delete t m) m ts !! t = if decide (t ∈ ts) then None else m !! t.
Proof.
  revert m. induction ts as [|x ts IH]; intros m; cbn [foldl].
  { by rewrite decide_False by apply not_elem_of_nil. }
  rewrite IH. destruct (decide (t = x)) as [->|Hne].
  - rewrite (decide_True (P := x ∈ x :: ts)) by (by left). case_decide; [done|apply lookup_delete_eq].
  - rewrite (decide_ext (t ∈ x :: ts) (t ∈ ts)) by set_solver. by rewrite lookup_delete_ne.
Qed.

(** The message filed under a time is dropped exactly when the time is. *)
Lemma drop_oldest_spec ts s :
  store_wf s →
  let s' := drop_oldest s ts in
  store_wf s' ∧ store_config s' = store_config s ∧
  (∀ t, insertion_order s' !! t = if decide (t ∈ ts) then None else insertion_order s !! t) ∧
  (∀ h e, messages s' !! h = Some e ↔
     messages s !! h = Some e ∧ ∀ t, t ∈ ts → insertion_order s !! t ≠ Some h).
Proof.
  intros [Hwf Hord]. simpl. unfold drop_oldest.
  set (hs := omap (λ t, insertion_order s !! t) ts).
  destruct (drop_messages_spec hs s Hwf) as (Hwf' & Ho & Hc & Hm).
  assert (∀ h, h ∈ hs ↔ ∃ t, t ∈ ts ∧ insertion_order s !! t = Some h) as Hhs.
  { intros h. unfold hs. by rewrite list_elem_of_omap. }
  assert (∀ h e, messages (foldl drop_message s hs) !! h = Some e ↔
     messages s !! h = Some e ∧ ∀ t, t ∈ ts → insertion_order s !! t ≠ Some h) as Hmsg.
  { intros h e. rewrite Hm. case_decide as Hd; rewrite Hhs in Hd; naive_solver. }
  assert (∀ t, insertion_order (drop_times (foldl drop_message s hs) ts) !! t =
     if decide (t ∈ ts) then None else insertion_order s !! t) as Htimes.
  { intros t. simpl. by rewrite Ho, drop_times_lookup. }
  split_and!; [|done|done|done]. split; [by destruct Hwf'|].
  intros t h. rewrite Htimes. case_decide as Hd; [done|]. intros Ht.
  destruct (Hord t h Ht) as (e & He & Hre). exists e. split; [|done]. simpl. apply Hmsg.
  split; [done|]. intros t' Hin Ht'. destruct (Hord t' h Ht') as (e' & He' & Hre').
  assert (t = t') as -> by congruence. done.
Qed.

Lemma drop_oldest_ordered ts s : store_wf s → ordered s → ordered (drop_oldest s ts).
Proof.
  intros Hwf Hord h e He. destruct (drop_oldest_spec ts s Hwf) as (_ & _ & Ht & Hm).
  apply Hm in He as [He Hn]. rewrite Ht. specialize (Hord h e He).
  rewrite decide_False; [done|]. intros Hin. by apply (Hn _ Hin).
Qed.

(** ** Every operation keeps the invariant *)

Lemma maybe_evict_wf s :
  store_wf s → store_wf (maybe_evict s) ∧ store_config (maybe_evict s) = store_config s.
Proof.
  intros Hwf. unfold maybe_evict. destruct (_ <? _); [done|].
  by destruct (drop_oldest_spec (take (Z.to_nat (Z.max (max_messages (store_config s) / 10) 1)) (order_times s)) s Hwf)
    as (? & ? & _).
Qed.

Lemma maybe_evict_sub s h e :
  store_wf s → messages (maybe_evict s) !! h = Some e → messages s !! h = Some e.
Proof.
  intros Hwf. unfold maybe_evict. destruct (_ <? _); [done|]. intros He.
  by apply (proj2 (proj2 (proj2 (drop_oldest_spec _ s Hwf)))) in He as [? _].
Qed.

Lemma store_insert_wf s entry : store_wf s → store_wf (store_insert s entry).2.
Proof.
  intros Hwf0. unfold store_insert. destruct (maybe_evict_wf s Hwf0) as [[Hwf Hord] _].
  set (s1 := maybe_evict s) in *. clearbody s1. clear Hwf0 s.
  destruct (messages s1 !! me_hash entry) as [e0|] eqn:E; simpl; [done|].
  assert (∀ p, me_hash entry ∉ default [] (by_sender s1 !! p)) as Hnew.
  { intros p. rewrite (wf_index _ Hwf). naive_solver. }
  split; [split|]; simpl.
  - intros h e. rewrite lookup_insert_Some. intros [[<- <-]|[_ He]]; [done|]. by apply (wf_hash _ Hwf).
  - intros p h. pose proof (wf_index _ Hwf p h) as Hi.
    setoid_rewrite lookup_insert_Some.
    destruct (index_by_sender (store_config s1)) eqn:Ex; [|naive_solver].
    destruct (me_sender entry) as [q|] eqn:Eq.
    + destruct (decide (p = q)) as [->|Hne].
      * rewrite lookup_insert_eq. simpl. rewrite elem_of_app, list_elem_of_singleton, Hi.
        destruct (decide (h = me_hash entry)) as [->|]; naive_solver.
      * rewrite lookup_insert_ne by done. rewrite Hi.
        destruct (decide (h = me_hash entry)) as [->|]; naive_solver.
    + rewrite Hi. destruct (decide (h = me_hash entry)) as [->|]; naive_solver.
  - intros p. pose proof (wf_index_NoDup _ Hwf p) as Hnd.
    destruct (index_by_sender (store_config s1)); [|done].
    destruct (me_sender entry) as [q|]; [|done].
    destruct (decide (p = q)) as [->|Hne]; [|by rewrite lookup_insert_ne].
    rewrite lookup_insert_eq. simpl. apply NoDup_app. split_and!; [done| |apply NoDup_singleton].
    intros x Hx. rewrite list_elem_of_singleton. intros ->. by apply (Hnew q).
  - intros t h. rewrite lookup_insert_Some. intros [[<- <-]|[Hne Ht]].
    + exists entry. by rewrite lookup_insert_eq.
    + destruct (Hord t h Ht) as (e & He & Hr). exists e. rewrite lookup_insert_ne; [done|].
      intros <-. congruence.
Qed.

Lemma store_mark_processed_wf s h : store_wf s → store_wf (store_mark_processed s h).2.
Proof.
  intros [Hwf Hord]. unfold store_mark_processed.
  destruct (messages s !! h) as [e|] eqn:E; simpl; [|done].
  assert (∀ i x, <[h := entry_mark_processed e]> (messages s) !! i = Some x →
    ∃ y, messages s !! i = Some y ∧ me_hash x = me_hash y ∧ me_sender x = me_sender y ∧
      received_at x = received_at y) as Hback.
  { intros i x. rewrite lookup_insert_Some. intros [[<- <-]|[_ Hx]]; [by exists e|by exists x]. }
  assert (∀ i y, messages s !! i = Some y →
    ∃ x, <[h := entry_mark_processed e]> (messages s) !! i = Some x ∧ me_hash x = me_hash y ∧
      me_sender x = me_sender y ∧ received_at x = received_at y) as Hfwd.
  { intros i y Hy. destruct (decide (i = h)) as [->|Hne].
    - rewrite lookup_insert_eq. eexists. split; [done|]. by simplify_eq.
    - rewrite lookup_insert_ne by done. by exists y. }
  split; [split|]; simpl.
  - intros i x Hx. destruct (Hback i x Hx) as (y & Hy & -> & _). by apply (wf_hash _ Hwf).
  - intros p i. rewrite (wf_index _ Hwf p i). split; intros [? (x & Hx & Hs)]; split; try done.
    + destruct (Hfwd i x Hx) as (y & Hy & _ & Hsy & _). exists y. by rewrite Hsy.
    + destruct (Hback i x Hx) as (y & Hy & _ & Hsy & _). exists y. by rewrite <-Hsy.
  - apply (wf_index_NoDup _ Hwf).
  - intros t i Ht. destruct (Hord t i Ht) as (y & Hy & Hr).
    destruct (Hfwd i y Hy) as (x & Hx & _ & _ & Hrx). exists x. split; [done|congruence].
Qed.

Lemma store_remove_wf s h : store_wf s → store_wf (store_remove s h).2.
Proof.
  intros [Hwf Hord]. unfold store_remove. destruct (messages s !! h) as [e|] eqn:E; simpl; [|done].
  destruct (drop_message_wf s h Hwf). destruct (drop_message_frame s h) as [Ho Hc].
  split; [by split|]. simpl. rewrite Ho. intros t i. rewrite lookup_delete_Some. intros [Hne Ht].
  destruct (Hord t i Ht) as (e' & He' & Hr). exists e'. rewrite drop_message_lookup.
  rewrite decide_False; [done|]. intros ->. congruence.
Qed.

(** ** The store as a state machine *)

Inductive store_step (s s' : MessageStore) : Prop :=
| st_insert entry : (store_insert s entry).2 = s' → store_step s s'
| st_mark h : (store_mark_processed s h).2 = s' → store_step s s'
| st_remove h : (store_remove s h).2 = s' → store_step s s'
| st_older now max_age : remove_older_than now max_age s = s' → store_step s s'
| st_clear : store_clear s = s' → store_step s s'.

Lemma store_step_wf s s' : store_wf s → store_step s s' → store_wf s'.
Proof.
  intros Hwf [e <-|h <-|h <-|now age <-|<-].
  - by apply store_insert_wf.
  - by apply store_mark_processed_wf.
  - by apply store_remove_wf.
  - by apply (drop_oldest_spec _ s Hwf).
  - apply store_new_wf.
Qed.

Lemma store_reachable cfg s : rtc store_step (store_new cfg) s → store_wf s.
Proof.
  apply rtc_invariant; [apply store_step_wf|apply store_new_wf].
Qed.

Lemma store_step_config s s' : store_wf s → store_step s s' → store_config s' = store_config s.
Proof.
  intros Hwf [e <-|h <-|h <-|now age <-|<-]; [..|done].
  - unfold store_insert. pose proof (proj2 (maybe_evict_wf s Hwf)).
    by destruct (messages (maybe_evict s) !! me_hash e).
  - unfold store_mark_processed. by destruct (messages s !! h).
  - unfold store_remove. destruct (messages s !! h); [|done]. simpl. apply drop_message_frame.
  - by apply (drop_oldest_spec _ s Hwf).
Qed.

(** ** Size *)

Lemma keys_delete_size (ts : list Instant) (m : gmap Instant MessageHash) :
  NoDup ts → (∀ t, t ∈ ts → is_Some (m !! t)) →
  size m = (size (foldl (λ m t, delete t m) m ts) + length ts)%nat.
Proof.
  revert m. induction ts as [|t ts IH]; intros m Hnd Hin; simpl; [lia|].
  apply NoDup_cons in Hnd as [Ht Hnd]. destruct (Hin t) as [h Hh]; [by left|].
  rewrite Nat.add_succ_r, <-IH
    by (try done; intros x Hx; rewrite lookup_delete_ne by congruence; apply Hin; by right).
  rewrite map_size_delete_Some by (by exists h).
  assert (size m ≠ 0%nat); [|lia]. apply map_size_ne_0_lookup. by exists t, h.
Qed.

(** When no message is missing from the insertion order, it has one time per
    message. *)
Lemma ordered_size s : store_wf s → ordered s → size (insertion_order s) = size (messages s).
Proof.
  intros [Hwf Hord] Hall.
  set (l := (λ x : MessageHash * MessageEntry, (received_at x.2, x.1)) <$> map_to_list (messages s)).
  assert (NoDup l.*1) as Hnd.
  { unfold l. rewrite <-list_fmap_compose. apply NoDup_fmap_2_strong; [|apply NoDup_map_to_list].
    intros [h e] [h' e'] He He'. apply elem_of_map_to_list in He, He'. unfold compose. simpl. intros Heq.
    pose proof (Hall h e He) as H1. pose proof (Hall h' e' He') as H2. rewrite Heq in H1. simplify_eq. done. }
  assert (insertion_order s = list_to_map l) as ->.
  { apply map_eq. intros t. apply option_eq. intros h.
    rewrite <-elem_of_list_to_map by done. unfold l. rewrite list_elem_of_fmap. split.
    - intros Ht. destruct (Hord t h Ht) as (e & He & <-). exists (h, e). split; [done|].
      by apply elem_of_map_to_list.
    - intros ([h' e] & [= -> ->] & He%elem_of_map_to_list). by apply Hall. }
  rewrite <-length_map_to_list, map_to_list_to_map by done. unfold l.
  by rewrite length_fmap, length_map_to_list.
Qed.

Lemma order_times_spec s : NoDup (order_times s) ∧ (∀ t, t ∈ order_times s ↔ is_Some (insertion_order s !! t)) ∧
  length (order_times s) = size (insertion_order s) ∧ StronglySorted Z.le (order_times s).
Proof.
  unfold order_times. split_and!.
  - rewrite merge_sort_Permutation. apply keys_NoDup.
  - intros t. by rewrite merge_sort_Permutation, elem_of_keys.
  - by rewrite merge_sort_Permutation, keys_length.
  - apply StronglySorted_merge_sort; apply _.
Qed.

Lemma drop_oldest_size ts s :
  store_wf s → ordered s → NoDup ts → (∀ t, t ∈ ts → is_Some (insertion_order s !! t)) →
  size (messages s) = (size (messages (drop_oldest s ts)) + length ts)%nat.
Proof.
  intros Hwf Hord Hnd Hin. pose proof (drop_oldest_spec ts s Hwf) as (Hwf' & _).
  rewrite <-(ordered_size s), <-(ordered_size (drop_oldest s ts)) by (done || by apply drop_oldest_ordered).
  unfold drop_oldest at 1. simpl.
  pose proof (drop_messages_spec (omap (λ t, insertion_order s !! t) ts) s (wf_core _ Hwf)) as (_ & -> & _).
  by apply keys_delete_size.
Qed.

(** ** Guarantees *)

(** The sender index is exact in every reachable state: asking for a sender's
    messages returns each stored message of that sender once, and no other. *)
Theorem sender_index_exact cfg s p :
  rtc store_step (store_new cfg) s → index_by_sender (store_config s) = true →
  NoDup (get_by_sender s p) ∧
  ∀ e, e ∈ get_by_sender s p ↔ store_get s (me_hash e) = Some e ∧ me_sender e = Some p.
Proof.
  intros Hr Hidx. apply store_reachable in Hr as [Hwf _].
  pose proof (wf_index _ Hwf p) as Hi. pose proof (wf_index_NoDup _ Hwf p) as Hnd.
  unfold get_by_sender, store_get.
  assert (∀ l : list MessageHash, NoDup l → NoDup (omap (λ h, messages s !! h) l)) as Homap.
  { induction l as [|h l IH]; intros Hl; [constructor|]. apply NoDup_cons in Hl as [Hh Hl]. cbn.
    destruct (messages s !! h) as [e|] eqn:E; [|by apply IH]. apply NoDup_cons. split; [|by apply IH].
    intros (h' & Hin & He)%list_elem_of_omap. apply (wf_hash _ Hwf) in E, He. congruence. }
  destruct (by_sender s !! p) as [hs|]; simpl in *.
  - split; [by apply Homap|]. intros e. rewrite list_elem_of_omap. split.
    + intros (h & Hh & He). pose proof (wf_hash _ Hwf _ _ He) as <-. apply Hi in Hh as (_ & e' & He' & Hs).
      by simplify_eq.
    + intros [He Hs]. exists (me_hash e). split; [|done]. apply Hi. eauto.
  - split; [constructor|]. intros e. split; [by intros ?%not_elem_of_nil|]. intros [He Hs].
    exfalso. apply (not_elem_of_nil (me_hash e)). apply Hi. eauto.
Qed.

Lemma drop_at_capacity s :
  store_wf s → ordered s → max_messages (store_config s) ≤ store_len s →
  store_len (maybe_evict s) =
    Z.max 0 (store_len s - Z.max (max_messages (store_config s) / 10) 1).
Proof.
  intros Hwf Hord Hfull. unfold store_len in *. unfold maybe_evict.
  rewrite (proj2 (Z.ltb_ge _ _)) by done. set (n := Z.max _ 1).
  destruct (order_times_spec s) as (Hnd & Hin & Hlen & _).
  set (ts := take (Z.to_nat n) (order_times s)).
  assert (length ts = Nat.min (Z.to_nat n) (size (messages s))) as Hlt.
  { unfold ts. by rewrite length_take, Hlen, ordered_size. }
  assert (∀ t, t ∈ ts → is_Some (insertion_order s !! t)) as Hts.
  { intros t [i [Hi _]]%elem_of_take. apply Hin. by eapply list_elem_of_lookup_2. }
  assert (NoDup ts) as Hndt by (eapply sublist_NoDup; [done|apply sublist_take]).
  pose proof (drop_oldest_size ts s Hwf Hord Hndt Hts) as Hsz. lia.
Qed.

(** Steps in which no two stored messages share a receive time. *)
Definition distinct_step (s s' : MessageStore) : Prop :=
  (∃ entry, insertion_order s !! received_at entry = None ∧ (store_insert s entry).2 = s') ∨
  (∃ h, (store_mark_processed s h).2 = s') ∨ (∃ h, (store_remove s h).2 = s') ∨
  (∃ now max_age, remove_older_than now max_age s = s') ∨ store_clear s = s'.

Lemma distinct_step_step s s' : distinct_step s s' → store_step s s'.
Proof.
  intros [(e & _ & H)|[[h H]|[[h H]|[(now & age & H)|H]]]];
    [by eapply st_insert|by eapply st_mark|by eapply st_remove|by eapply st_older|by apply st_clear].
Qed.

Lemma distinct_step_ordered s s' : store_wf s → ordered s → distinct_step s s' → ordered s'.
Proof.
  intros Hwf Hord [(entry & Hfresh & <-)|[[h <-]|[[h <-]|[(now & age & <-)|<-]]]].
  - unfold store_insert. destruct (messages (maybe_evict s) !! me_hash entry) eqn:E; simpl.
    { unfold maybe_evict. destruct (_ <? _); [done|]. by apply drop_oldest_ordered. }
    intros h e. simpl. rewrite lookup_insert_Some. intros [[<- <-]|[Hne He]].
    { by rewrite lookup_insert_eq. }
    pose proof (maybe_evict_sub s h e Hwf He) as He0. pose proof (Hord h e He0) as Ho.
    rewrite lookup_insert_ne by (intros Heq; rewrite Heq in Hfresh; congruence).
    unfold maybe_evict in *. destruct (_ <? _); [done|].
    by apply (drop_oldest_ordered _ s Hwf Hord).
  - unfold store_mark_processed. destruct (messages s !! h) as [e|] eqn:E; [|done]. intros i x. simpl.
    rewrite lookup_insert_Some. intros [[<- <-]|[_ Hx]]; [|by apply Hord]. simpl. by apply Hord.
  - unfold store_remove. destruct (messages s !! h) as [e|] eqn:E; [|done]. intros i x. simpl.
    rewrite drop_message_lookup. case_decide as Hd; [done|]. intros Hx.
    rewrite (proj1 (drop_message_frame s h)). rewrite lookup_delete_ne; [by apply Hord|].
    intros Heq. pose proof (Hord h e E). pose proof (Hord i x Hx). congruence.
  - by apply drop_oldest_ordered.
  - intros h e. simpl. by rewrite lookup_empty.
Qed.

Lemma distinct_reachable cfg s :
  rtc distinct_step (store_new cfg) s → store_wf s ∧ ordered s.
Proof.
  apply (rtc_invariant _ (λ s, store_wf s ∧ ordered s)).
  - intros s1 s2 [Hwf Hord] Hs. split; [|by eapply distinct_step_ordered].
    eapply store_step_wf; [done|]. by apply distinct_step_step.
  - split; [apply store_new_wf|]. intros h e. simpl. by rewrite lookup_empty.
Qed.

(** When no two messages were received at the same instant, eviction at
    capacity takes a tenth of the capacity, at least one message,
    and only the oldest: everything evicted is older than everything kept. *)
Theorem evicts_oldest cfg s :
  rtc distinct_step (store_new cfg) s → max_messages (store_config s) ≤ store_len s →
  store_len (maybe_evict s) =
    Z.max 0 (store_len s - Z.max (max_messages (store_config s) / 10) 1) ∧
  ∀ h e h' e', messages s !! h = Some e → messages (maybe_evict s) !! h = None →
    messages (maybe_evict s) !! h' = Some e' → received_at e < received_at e'.
Proof.
  intros [Hwf Hord]%distinct_reachable Hfull. split; [by apply drop_at_capacity|].
  unfold store_len in *. unfold maybe_evict.
  rewrite (proj2 (Z.ltb_ge _ _)) by done. set (n := Z.max _ 1).
  destruct (order_times_spec s) as (_ & Hin & _ & Hsort).
  set (ts := take (Z.to_nat n) (order_times s)).
  destruct (drop_oldest_spec ts s Hwf) as (_ & _ & Ht & Hm). intros h e h' e' He Hgone Hkept.
    apply Hm in Hkept as [He' Hkept].
    pose proof (Hord h e He) as Hoe. pose proof (Hord h' e' He') as Hoe'.
    assert (received_at e ∈ ts) as Hte.
    { destruct (decide (received_at e ∈ ts)) as [|Hn]; [done|]. exfalso.
      assert (messages (drop_oldest s ts) !! h = Some e) as Hx; [|congruence].
      apply Hm. split; [done|]. intros t Htt Hoh. destruct (wf_order _ Hwf t h Hoh) as (e0 & He0 & <-).
      simplify_eq. done. }
    assert (received_at e' ∈ drop (Z.to_nat n) (order_times s)) as Hte'.
    { assert (received_at e' ∈ order_times s) as Hx by (apply Hin; by eexists).
      rewrite <-(take_drop (Z.to_nat n) (order_times s)), elem_of_app in Hx.
      destruct Hx as [Hx|]; [|done]. exfalso. by apply (Hkept _ Hx). }
    assert (received_at e ≤ received_at e') as Hle.
    { rewrite <-(take_drop (Z.to_nat n) (order_times s)) in Hsort.
      exact (StronglySorted_app_1_elem_of _ _ _ _ _ Hsort Hte Hte'). }
    assert (received_at e ≠ received_at e') as Hne; [|lia]. intros Heq.
    rewrite Heq in Hte. by apply (Hkept _ Hte).
Qed.

(** ** Capacity *)

Lemma map_size_insert_le (m : gmap MessageHash MessageEntry) k x : (size (<[k := x]> m) ≤ S (size m))%nat.
Proof. rewrite map_size_insert. destruct (m !! k); unfold id; lia. Qed.

Lemma sub_size (m m' : gmap MessageHash MessageEntry) :
  (∀ h, is_Some (m !! h) → is_Some (m' !! h)) → (size m ≤ size m')%nat.
Proof.
  intros H. rewrite <-!(size_dom (D := gset MessageHash)). apply subseteq_size. intros h.
  rewrite !elem_of_dom. apply H.
Qed.

Lemma drop_oldest_lt ts s t h :
  store_wf s → t ∈ ts → insertion_order s !! t = Some h →
  (size (messages (drop_oldest s ts)) < size (messages s))%nat.
Proof.
  intros Hwf Hin Ht. destruct (drop_oldest_spec ts s Hwf) as (_ & _ & _ & Hm).
  destruct (wf_order _ Hwf t h Ht) as (e & He & _).
  rewrite <-!(size_dom (D := gset MessageHash)). apply subset_size. split.
  - intros i. rewrite !elem_of_dom. intros [x Hx]. exists x. by apply Hm in Hx as [? _].
  - intros Hsub. assert (h ∈ dom (messages s)) as Hd by (apply elem_of_dom; by exists e).
    apply Hsub, elem_of_dom in Hd as [x Hx]. apply Hm in Hx as [_ Hx]. by apply (Hx t).
Qed.

(** Within capacity, and below it when the insertion order is empty. *)
Definition within (n : Z) (s : MessageStore) : Prop :=
  store_len s ≤ n ∧ (insertion_order s = ∅ → store_len s < n).

Lemma evict_makes_room s :
  store_wf s → within (Z.max 1 (max_messages (store_config s))) s →
  store_len (maybe_evict s) < Z.max 1 (max_messages (store_config s)).
Proof.
  intros Hwf [Hle Hempty]. unfold store_len in *. unfold maybe_evict.
  destruct (_ <? _) eqn:E; to_prop; [lia|]. destruct (order_times_spec s) as (_ & Hin & _).
  set (n := Z.to_nat _). assert (1 ≤ n)%nat as Hn by lia.
  destruct (order_times s) as [|t ts] eqn:Et.
  - assert (insertion_order s = ∅) as Hno.
    { apply map_empty. intros t. apply eq_None_not_Some. rewrite <-Hin. apply not_elem_of_nil. }
    specialize (Hempty Hno). pose proof (drop_oldest_spec (take n []) s Hwf) as (_ & _ & _ & Hm).
    assert (size (messages (drop_oldest s (take n []))) ≤ size (messages s))%nat; [|lia].
    apply sub_size. intros h [e He]. exists e. by apply Hm in He as [? _].
  - destruct (proj1 (Hin t)) as [h Hh]; [by left|].
    assert (t ∈ take n (t :: ts)) as Htk by (destruct n; [lia|by left]).
    pose proof (drop_oldest_lt _ s t h Hwf Htk Hh). lia.
Qed.

Lemma store_step_within s s' :
  store_wf s → store_step s s' →
  within (Z.max 1 (max_messages (store_config s))) s →
  within (Z.max 1 (max_messages (store_config s))) s'.
Proof.
  intros Hwf Hstep Hin. set (n := Z.max 1 _) in *. unfold within.
  destruct Hstep as [entry <-|h <-|h <-|now age <-|<-].
  - pose proof (evict_makes_room s Hwf Hin) as Hroom. fold n in Hroom. unfold store_insert, store_len in *.
    destruct (messages (maybe_evict s) !! me_hash entry) as [e0|] eqn:E; simpl; [lia|].
    pose proof (map_size_insert_le (messages (maybe_evict s)) (me_hash entry) entry).
    split; [lia|]. intros Hno. by apply insert_non_empty in Hno.
  - unfold store_mark_processed. destruct (messages s !! h) as [e|] eqn:E; [|done]. destruct Hin as [Hle He].
    unfold store_len in *. simpl. rewrite map_size_insert_Some by (by eexists). done.
  - unfold store_remove. destruct (messages s !! h) as [e|] eqn:E; [|done]. destruct Hin as [Hle _].
    cbn [snd].
    assert (store_len (drop_times (drop_message s h) [received_at e]) < n) as Hlt; [|lia].
    unfold store_len in *. simpl. unfold drop_message. rewrite E. simpl.
    rewrite map_size_delete_Some by (by eexists).
    assert (size (messages s) ≠ 0%nat) by (apply map_size_ne_0_lookup; by exists h, e). lia.
  - unfold remove_older_than. set (ts := filter _ _). destruct ts as [|t ts'] eqn:Ets.
    + destruct (drop_oldest_spec [] s Hwf) as (_ & _ & Ht & Hm). destruct Hin as [Hle Hemp].
      assert (store_len (drop_oldest s []) ≤ store_len s) as Hsz.
      { unfold store_len. apply inj_le, sub_size. intros h [e He]. exists e. by apply Hm in He as [? _]. }
      split; [lia|]. intros Hno. apply Hemp in Hno. lia.
    + assert (t ∈ order_times s) as Htin.
      { assert (t ∈ ts) as Hx by (rewrite Ets; by left). unfold ts in Hx. by apply list_elem_of_filter in Hx as [_ ?]. }
      apply order_times_spec in Htin as [h Hh].
      pose proof (drop_oldest_lt (t :: ts') s t h Hwf ltac:(by left) Hh) as Hlt.
      destruct Hin as [Hle _]. unfold store_len in *. lia.
  - unfold store_len. simpl. rewrite map_size_empty. lia.
Qed.

(** The store never holds more than its configured maximum (one message at
    least), whatever is inserted, removed or expired. *)
Theorem store_bounded cfg s :
  rtc store_step (store_new cfg) s → store_len s ≤ Z.max 1 (max_messages cfg).
Proof.
  intros Hr.
  assert (store_wf s ∧ store_config s = cfg ∧ within (Z.max 1 (max_messages cfg)) s)
    as (_ & _ & ? & _); [|done].
  revert Hr. apply (rtc_invariant _ (λ s, store_wf s ∧ store_config s = cfg ∧
    within (Z.max 1 (max_messages cfg)) s)).
  - intros s1 s2 (Hwf & Hcfg & Hw) Hs.
    split_and!; [by eapply store_step_wf|by rewrite (store_step_config _ _ Hwf Hs)|].
    rewrite <-Hcfg in Hw |- *. by eapply store_step_within.
  - split_and!; [apply store_new_wf|done|]. unfold within, store_len. simpl. rewrite map_size_empty. lia.
Qed.

End store.

(** ** Concrete runs *)

Definition demo_entry (h t : Z) : MessageEntry (M := Z) := mkEntry h [h] (Some [7]) t false.

Definition demo_store : MessageStore (M := Z) :=
  (store_insert (store_insert (store_new (mkStoreConfig 2 true)) (demo_entry 1 5)).2 (demo_entry 2 6)).2.

Lemma demo_store_distinct : rtc distinct_step (store_new (mkStoreConfig 2 true)) demo_store.
Proof.
  eapply rtc_l; [left; exists (demo_entry 1 5); split; [done|reflexivity]|].
  apply rtc_once. left. exists (demo_entry 2 6). by split.
Qed.

Lemma demo_store_steps : rtc store_step (store_new (mkStoreConfig 2 true)) demo_store.
Proof. eapply rtc_subrel; [|apply demo_store_distinct]. apply distinct_step_step. Qed.

Lemma sender_index_exact_witness :
  NoDup (get_by_sender demo_store [7]) ∧
  ∀ e, e ∈ get_by_sender demo_store [7] ↔ store_get demo_store (me_hash e) = Some e ∧ me_sender e = Some [7].
Proof. exact (sender_index_exact (mkStoreConfig 2 true) demo_store [7] demo_store_steps eq_refl). Defined.

Lemma evicts_oldest_witness : store_len (maybe_evict demo_store) = 1.
Proof. exact (proj1 (evicts_oldest (mkStoreConfig 2 true) demo_store demo_store_distinct ltac:(done))). Defined.

Lemma store_bounded_witness : store_len demo_store ≤ 2.
Proof. exact (store_bounded (mkStoreConfig 2 true) demo_store demo_store_steps). Defined.

(** The insertion order is keyed by receive time: of two messages received at
    the same instant it keeps one, and the other outlives every expiry. *)
Theorem same_instant_never_expires :
  let s0 := store_new (M := Z) (mkStoreConfig 100 true) in
  let s := (store_insert (store_insert s0 (demo_entry 1 5)).2 (demo_entry 2 5)).2 in
  store_len s = 2 ∧
  ∀ now max_age, store_contains (remove_older_than now max_age s) [1] = true.
Proof.
  cbv zeta. split; [by vm_compute|]. intros now age.
  set (s := (store_insert _ _).2).
  assert (store_wf s) as Hwf by (by do 2 apply store_insert_wf; apply store_new_wf).
  unfold store_contains, remove_older_than. apply bool_decide_eq_true. exists (demo_entry 1 5).
  apply (drop_oldest_spec _ s Hwf). split; [by vm_compute|]. intros t _.
  assert (insertion_order s = {[5 := [2]]}) as -> by (by vm_compute).
  rewrite lookup_singleton_Some. by intros [_ ?].
Qed.

(** At capacity, inserting a message that is already stored first evicts, and
    may evict that very message: it is then reported as new. *)
Theorem duplicate_reported_new :
  store_contains demo_store [1] = true ∧ (store_insert demo_store (demo_entry 1 9)).1 = true.
Proof. by vm_compute. Qed.
