(* ===== verification/SigWeight.v ===== *)
(** * Weights of the signature aggregation protocol

    Models [src/crates/networking/extensions/agg-sig-gossip/src/signature_weight.rs]:
    the [SignatureWeight] trait as a class with its two provided methods, and
    its three implementations.  A peer identifier is opaque and is represented
    by an integer; weights are [u64] with saturating sums. *)

From S2P Require Import Prelude.
From Stdlib Require Import ZArith Lia.
From stdpp Require Import base gmap sets list fin_maps fin_sets numbers.

#[local] Open Scope Z_scope.

Abbreviation PeerId := Z (only parsing).

(** ** The trait *)

Class SignatureWeight (W : Type) := {
  weight : W → PeerId → Z;
  total_weight : W → Z;
  threshold_weight : W → Z;
}.

(** [SignatureWeight::calculate_weight] *)
Definition calculate_weight {W} `{!SignatureWeight W} (w : W) (participants : gset PeerId) : Z :=
  foldl (λ acc id, u64_sat_add acc (weight w id)) 0 (elements participants).

(** [SignatureWeight::meets_threshold] *)
Definition meets_threshold {W} `{!SignatureWeight W} (w : W) (participants : gset PeerId) : bool :=
  threshold_weight w <=? calculate_weight w participants.

(** ** [EqualWeight] *)

Record EqualWeight := mkEqualWeight { total_participants : Z; threshold_percentage : Z }.

(** [EqualWeight::new]; [None] is the panic of its assertion *)
Definition EqualWeight_new (total_participants threshold_percentage : Z) : option EqualWeight :=
  if threshold_percentage <=? 100 then Some (mkEqualWeight total_participants threshold_percentage)
  else None.

#[export] Instance equal_weight : SignatureWeight EqualWeight := {|
  weight _ _ := 1;
  total_weight w := total_participants w;
  threshold_weight w := u64_sat_mul (total_participants w) (threshold_percentage w) / 100;
|}.

(** ** [CustomWeight] *)

Record CustomWeight := mkCustomWeight { cw_weights : gmap PeerId Z; cw_threshold : Z }.

#[export] Instance custom_weight : SignatureWeight CustomWeight := {|
  weight w id := default 0 (cw_weights w !! id);
  total_weight w := foldl (λ acc x, u64_sat_add acc x) 0 (values (cw_weights w));
  threshold_weight w := cw_threshold w;
|}.

(** ** [DynamicWeight] *)

Inductive DynamicWeight := Equal (w : EqualWeight) | Custom (w : CustomWeight).

#[export] Instance dynamic_weight : SignatureWeight DynamicWeight := {|
  weight w id := match w with Equal w => weight w id | Custom w => weight w id end;
  total_weight w := match w with Equal w => total_weight w | Custom w => total_weight w end;
  threshold_weight w := match w with Equal w => threshold_weight w | Custom w => threshold_weight w end;
|}.

(** ** Sums *)

Lemma sat_fold l a :
  0 ≤ a ≤ u64_max → Forall (λ x, 0 ≤ x) l →
  foldl (λ acc x, u64_sat_add acc x) a l = Z.min u64_max (a + sumZ l).
Proof.
  intros Ha Hl. revert a Ha. induction Hl as [|x l Hx Hl IH]; intros a Ha; simpl; [lia|].
  rewrite IH; unfold u64_sat_add in *; [|lia]. pose proof (sumZ_nonneg l Hl). lia.
Qed.

Section weight_laws.
  Context {W : Type} `{!SignatureWeight W} (w : W).
  (** Weights are unsigned. *)
  Hypothesis weight_nonneg : ∀ id, 0 ≤ weight w id.

Definition exact_weight (s : gset PeerId) : Z := sumZ (weight w <$> elements s).

Lemma exact_weight_nonneg s : 0 ≤ exact_weight s.
Proof.
  unfold exact_weight. induction (elements s) as [|x l IH]; cbn; [lia|].
  pose proof (weight_nonneg x). unfold sumZ in IH. lia.
Qed.

Lemma calculate_weight_exact s : calculate_weight w s = Z.min u64_max (exact_weight s).
Proof.
  unfold calculate_weight, exact_weight.
  assert (∀ l a, foldl (λ acc id, u64_sat_add acc (weight w id)) a l =
    foldl (λ acc x, u64_sat_add acc x) a (weight w <$> l)) as ->.
  { intros l. induction l as [|x l IH]; intros a; [done|]. cbn. apply IH. }
  rewrite sat_fold; [done|unfold u64_max; lia|].
  apply list.Forall_forall. intros x (id & -> & _)%list_elem_of_fmap. apply weight_nonneg.
Qed.

Lemma sumZ_fmap_perm (l k : list PeerId) : l ≡ₚ k → sumZ (weight w <$> l) = sumZ (weight w <$> k).
Proof. intros Hp. induction Hp; cbn; unfold sumZ in *; lia. Qed.

Lemma exact_weight_union s1 s2 :
  s1 ## s2 → exact_weight (s1 ∪ s2) = exact_weight s1 + exact_weight s2.
Proof.
  intros Hd. unfold exact_weight.
  rewrite (sumZ_fmap_perm _ _ (elements_disj_union s1 s2 Hd)), fmap_app. apply sumZ_app.
Qed.

Lemma exact_weight_mono s1 s2 : s1 ⊆ s2 → exact_weight s1 ≤ exact_weight s2.
Proof.
  intros Hs. rewrite (union_difference_L s1 s2 Hs), exact_weight_union by set_solver.
  pose proof (exact_weight_nonneg (s2 ∖ s1)). lia.
Qed.

Lemma calculate_weight_mono s1 s2 :
  s1 ⊆ s2 → calculate_weight w s1 ≤ calculate_weight w s2.
Proof. intros Hs. rewrite !calculate_weight_exact. apply exact_weight_mono in Hs. lia. Qed.

End weight_laws.

Definition custom_ok (w : CustomWeight) : Prop :=
  map_Forall (λ _ x, 0 ≤ x) (cw_weights w) ∧ sumZ (values (cw_weights w)) ≤ u64_max.

Lemma custom_nonneg w : custom_ok w → ∀ id, 0 ≤ weight w id.
Proof.
  intros [Hp _] id. simpl. destruct (cw_weights w !! id) as [x|] eqn:E; simpl; [|lia]. by apply (Hp id).
Qed.

Lemma custom_exact_le w s :
  custom_ok w → exact_weight w s ≤ sumZ (values (cw_weights w)).
Proof.
  intros [Hp _]. unfold exact_weight. simpl.
  apply (sum_default_le (cw_weights w)); [apply NoDup_elements|exact Hp].
Qed.

(** ** Guarantees *)

(** Growing a set of signers never loses a threshold it met. *)
Theorem threshold_monotone (w : DynamicWeight) s1 s2 :
  match w with Custom c => custom_ok c | Equal _ => True end →
  s1 ⊆ s2 → meets_threshold w s1 = true → meets_threshold w s2 = true.
Proof.
  intros Hok Hs Hm. unfold meets_threshold in *. rewrite Z.leb_le in *.
  etrans; [exact Hm|]. apply calculate_weight_mono; [|done].
  intros id. destruct w as [e|c]; simpl; [lia|]. by apply custom_nonneg.
Qed.

(** Two quorums share a participant whenever the threshold is more than half of
    the total weight. *)
Theorem quorums_intersect (w : CustomWeight) s1 s2 :
  custom_ok w → total_weight w < 2 * threshold_weight w →
  meets_threshold w s1 = true → meets_threshold w s2 = true →
  ∃ id, id ∈ s1 ∧ id ∈ s2.
Proof.
  intros Hok Hth H1 H2. pose proof (custom_nonneg w Hok) as Hpos.
  unfold meets_threshold in *. rewrite Z.leb_le in *.
  rewrite !calculate_weight_exact in * by done.
  assert (total_weight w = sumZ (values (cw_weights w))) as Htot.
  { simpl. rewrite sat_fold; [destruct Hok; lia|unfold u64_max; lia|].
    apply list.Forall_forall. intros x ([k y] & -> & Hx%elem_of_map_to_list)%list_elem_of_fmap.
    destruct Hok as [Hp _]. by apply (Hp k). }
  destruct (decide (s1 ## s2)) as [Hd|Hnd].
  - pose proof (custom_exact_le w (s1 ∪ s2) Hok) as Hle. rewrite exact_weight_union in Hle by done. lia.
  - destruct (decide (set_Exists (λ id, id ∈ s2) s1)) as [(id & ? & ?)|Hno]; [by exists id|].
    exfalso. apply Hnd. intros id Hi1 Hi2. apply Hno. by exists id.
Qed.

(** The equal-weight threshold is a number of signers: the percentage of the
    participants, rounded down. *)
Theorem equal_threshold_exact (w : EqualWeight) s :
  0 ≤ total_participants w → 0 ≤ threshold_percentage w →
  total_participants w * threshold_percentage w ≤ u64_max → Z.of_nat (size s) ≤ u64_max →
  (meets_threshold w s = true) ↔
  total_participants w * threshold_percentage w < 100 * (Z.of_nat (size s) + 1).
Proof.
  intros Hn Hp Hmul Hsz. unfold meets_threshold. rewrite Z.leb_le, calculate_weight_exact by (simpl; lia).
  assert (exact_weight w s = Z.of_nat (size s)) as ->.
  { unfold exact_weight. change (size s) with (length (elements s)). induction (elements s) as [|x l IH]; cbn -[Z.of_nat]; [done|].
    unfold sumZ in IH. simpl in IH. lia. }
  simpl. unfold u64_sat_mul. rewrite (Z.min_r u64_max), (Z.min_l (_ * _)) by done.
  pose proof (Z.div_mod (total_participants w * threshold_percentage w) 100 ltac:(lia)).
  pose proof (Z.mod_pos_bound (total_participants w * threshold_percentage w) 100 ltac:(lia)). lia.
Qed.

(** Rounding down lets a set below the configured percentage through: two
    signers out of four meet a 67 percent threshold. *)
Theorem equal_threshold_rounds_down :
  ∃ w, EqualWeight_new 4 67 = Some w ∧ meets_threshold w {[1; 2]} = true ∧ 2 * 100 < 67 * 4.
Proof. eexists. split; [done|]. by vm_compute. Qed.

(** ** Witnesses *)

Definition demo_weights : CustomWeight := mkCustomWeight {[1 := 40; 2 := 35; 3 := 25]} 60.

Lemma demo_weights_ok : custom_ok demo_weights.
Proof. split; [by apply (bool_decide_unpack _)|by vm_compute]. Qed.

Lemma threshold_monotone_witness : meets_threshold (Custom demo_weights) {[1; 2; 3]} = true.
Proof.
  apply (threshold_monotone (Custom demo_weights) {[1; 2]}); [apply demo_weights_ok|set_solver|done].
Defined.

Lemma quorums_intersect_witness : ∃ id, id ∈ ({[1; 2]} : gset Z) ∧ id ∈ ({[1; 3]} : gset Z).
Proof. by apply (quorums_intersect demo_weights _ _ demo_weights_ok). Defined.

Lemma equal_threshold_exact_witness :
  (meets_threshold (mkEqualWeight 3 67) {[1; 2]} = true) ↔
  3 * 67 < 100 * (Z.of_nat (size ({[1; 2]} : gset Z)) + 1).
Proof. by apply (equal_threshold_exact (mkEqualWeight 3 67) {[1; 2]}). Defined.
