(* ===== verification/AggSig.v ===== *)
(** * The signature aggregation gossip protocol

    Models [src/crates/networking/extensions/agg-sig-gossip/src]: [protocol.rs]
    (the protocol and its main loop), [protocol_state.rs], [messages.rs],
    [malicious.rs] and [aggregator_selection.rs].  The signature trait is the
    class [AggregatableSignature], instantiated by [Bn254]; weights come from
    [SigWeight], the re-gossip cache from [GossipDedup].  The network is a
    function telling which sends fail, and the messages sent so far; the wire
    codec and the [SipHash] of [DefaultHasher] are parameters.  The main loop
    consumes a sequence of events: drained messages, threshold checks and the
    timeout. *)

From S2P Require Import Prelude Bn254 GossipDedup SigWeight.
From Stdlib Require Import ZArith Lia.
From stdpp Require Import base gmap sets list strings sorting fin_maps fin_sets numbers relations.

#[local] Open Scope Z_scope.

(** ** The signature trait *)

(** [KeyType] and [AggregatableSignature], as far as the protocol uses them;
    errors are represented by their text. *)
Class AggregatableSignature := {
  Signature : Type;
  Public : Type;
  Secret : Type;
  AggregatedSignature : Type;
  AggregatedPublic : Type;
  as_sign : Secret → list Byte8 → result string Signature;
  as_verify : Public → list Byte8 → Signature → bool;
  as_aggregate : list Signature → list Public → result string (AggregatedSignature * AggregatedPublic);
  as_verify_aggregate : list Byte8 → AggregatedSignature → AggregatedPublic → result string bool;
  as_to_bytes : Public → list Byte8;
}.

Inductive AggregationError :=
| ThresholdNotMet (got need : Z)
| SerializationError (msg : string)
| KeyNotFound
| NetworkError (msg : string)
| Protocol (msg : string)
| Timeout
| SigningError (msg : string)
| MissingData.

Inductive ProtocolRound := Initialization | SignatureCollection | Completion.

#[export] Instance ProtocolRound_eq_dec : EqDecision ProtocolRound.
Proof. solve_decision. Defined.

Section protocol.
  Context {S : AggregatableSignature} {W : Type} `{!SignatureWeight W} {L : LruCache CacheEntry}.

(** ** Messages *)

Inductive MaliciousEvidence :=
| InvalidSignature (signature : Signature) (message : list Byte8)
| Equivocation (signature1 signature2 : Signature) (message1 message2 : list Byte8).

Record AggregationResult := mkResult {
  res_message : list Byte8;
  res_signature : AggregatedSignature;
  res_contributors : gset PeerId;
  res_total_weight : option Z;
  res_malicious : gset PeerId;
}.

Inductive AggSigMessage :=
| SignatureShare (signer_id : PeerId) (signature : Signature) (message : list Byte8)
| MaliciousReport (operator : PeerId) (evidence : MaliciousEvidence)
| ProtocolComplete (result : AggregationResult).

(** ** The environment *)

Class Environment := {
  (** [DefaultHasher] on a key and a context *)
  default_hasher : list Byte8 → list Byte8 → Z;
  (** the network service: the outcome of sending a message *)
  net_send : AggSigMessage → result AggregationError unit;
  (** the wire codec *)
  codec_deserialize : list Byte8 → result AggregationError AggSigMessage;
  blake3_256 : list Byte8 → list Byte8;
}.

Context {Env : Environment}.

(** ** State *)

Record AggregationState := mkState {
  signatures_by_message : gmap (list Byte8) (gset PeerId);
  seen_signatures : gmap PeerId (Signature * list Byte8);
  local_message : list Byte8;
  malicious : gset PeerId;
  round : ProtocolRound;
  verified_completion : option AggregationResult;
}.

(** [AggregationState::new] *)
Definition state_new : AggregationState := mkState ∅ ∅ [] ∅ Initialization None.

(** The transitions the assertion of [try_transition_to] allows. *)
Definition is_valid_transition (old new : ProtocolRound) : bool :=
  match old, new with
  | Initialization, SignatureCollection => true
  | Initialization, Completion => true
  | SignatureCollection, Completion => true
  | _, _ => false
  end.

(** [AggregationState::try_transition_to]; [None] is its panic *)
Definition try_transition_to (st : AggregationState) (new_round : ProtocolRound)
    : option (bool * AggregationState) :=
  if bool_decide (round st = new_round) then Some (false, st)
  else if is_valid_transition (round st) new_round then
    Some (true, mkState (signatures_by_message st) (seen_signatures st) (local_message st)
                  (malicious st) new_round (verified_completion st))
  else None.

(** [AggregationState::is_completed] *)
Definition is_completed (st : AggregationState) : bool := bool_decide (round st = Completion).

(** ** Aggregator selection *)

(** [a / b] in [f64] for positive [u16] values: a mantissa of 53 bits rounded
    to nearest, ties to even, and the exponent [e] of the value [m / 2^e]. *)
Definition f64_div (a b : Z) : Z * Z :=
  let e0 := 52 - (Z.log2 a - Z.log2 b) in
  let e := if a * 2 ^ e0 <? b * 2 ^ 52 then e0 + 1 else e0 in
  let q := a * 2 ^ e / b in
  let r := a * 2 ^ e mod b in
  (if (b <? 2 * r) || ((2 * r =? b) && Z.odd q) then q + 1 else q, e).

(** [(ratio * u64::MAX as f64) as u64]: [u64::MAX] converts to 2^64, the product
    is exact and the cast truncates and saturates. *)
Definition selection_threshold (target total : Z) : Z :=
  if total <=? target then u64_max
  else let '(m, e) := f64_div target total in Z.min u64_max (m * 2 ^ 64 / 2 ^ e).

(** [AggregatorSelector::new] *)
Definition selector_new (target_aggregators : Z) : Z := Z.max target_aggregators 1.

(** [AggregatorSelector::is_aggregator] *)
Definition selects (target : Z) (peer_id : PeerId) (keys : gmap PeerId Public)
    (message_context : list Byte8) : bool :=
  if bool_decide (keys = ∅) then false
  else
    match keys !! peer_id with
    | None => false
    | Some public_key =>
        default_hasher (as_to_bytes public_key) message_context <?
        selection_threshold target (Z.min (Z.of_nat (size keys)) 65535)
    end.

(** [AggregatorSelector::select_aggregators] *)
Definition select_aggregators (target : Z) (keys : gmap PeerId Public)
    (message_context : list Byte8) : gset PeerId :=
  filter (λ id, selects target id keys message_context = true) (dom keys).

(** ** The protocol *)

Record SignatureAggregationProtocol := mkProtocol {
  state : AggregationState;
  weight_scheme : W;
  aggregator_selector : Z;
  participant_public_keys : gmap PeerId Public;
  dedup_cache : DeduplicationCache;
  local_peer_id : PeerId;
  local_signing_key : Secret;
  sent : list AggSigMessage;
}.

(** [SignatureAggregationProtocol::new] *)
Definition protocol_new (num_aggregators : Z) (w : W) (keys : gmap PeerId Public)
    (local : PeerId) (key : Secret) : SignatureAggregationProtocol :=
  mkProtocol state_new w (selector_new num_aggregators) keys
    (dedup_new (Nat.max (size keys) 100 * 10) (from_secs 300)) local key [].

Definition set_state (p : SignatureAggregationProtocol) (st : AggregationState)
    : SignatureAggregationProtocol :=
  mkProtocol st (weight_scheme p) (aggregator_selector p) (participant_public_keys p)
    (dedup_cache p) (local_peer_id p) (local_signing_key p) (sent p).

Definition set_dedup (p : SignatureAggregationProtocol) (d : DeduplicationCache)
    : SignatureAggregationProtocol :=
  mkProtocol (state p) (weight_scheme p) (aggregator_selector p) (participant_public_keys p)
    d (local_peer_id p) (local_signing_key p) (sent p).

(** [send_message] *)
Definition send_message (p : SignatureAggregationProtocol) (m : AggSigMessage)
    : result AggregationError unit * SignatureAggregationProtocol :=
  match net_send m with
  | Ok _ =>
      (Ok tt, mkProtocol (state p) (weight_scheme p) (aggregator_selector p)
                (participant_public_keys p) (dedup_cache p) (local_peer_id p)
                (local_signing_key p) (sent p ++ [m]))
  | Err e => (Err e, p)
  end.

(** [has_seen_signature_for_message] *)
Definition has_seen_signature_for_message (p : SignatureAggregationProtocol) (id : PeerId)
    (message : list Byte8) : bool :=
  bool_decide (id ∈ default ∅ (signatures_by_message (state p) !! message)).

(** [add_signature] *)
Definition add_signature (p : SignatureAggregationProtocol) (id : PeerId)
    (signature : Signature) (message : list Byte8) : SignatureAggregationProtocol :=
  let st := state p in
  set_state p
    (mkState (<[message := default ∅ (signatures_by_message st !! message) ∪ {[id]}]> (signatures_by_message st))
       (<[id := (signature, message)]> (seen_signatures st)) (local_message st) (malicious st)
       (round st) (verified_completion st)).

(** The insertion into the set of malicious participants. *)
Definition add_malicious (p : SignatureAggregationProtocol) (id : PeerId)
    : SignatureAggregationProtocol :=
  let st := state p in
  set_state p (mkState (signatures_by_message st) (seen_signatures st) (local_message st)
                 (malicious st ∪ {[id]}) (round st) (verified_completion st)).

(** [mark_participant_malicious] *)
Definition mark_participant_malicious (p : SignatureAggregationProtocol) (id : PeerId)
    (evidence : MaliciousEvidence) : result AggregationError unit * SignatureAggregationProtocol :=
  send_message (add_malicious p id) (MaliciousReport id evidence).

(** [verify_signature] *)
Definition verify_signature (id : PeerId) (signature : Signature) (message : list Byte8)
    (keys : gmap PeerId Public) : bool :=
  match keys !! id with
  | Some public_key => as_verify public_key message signature
  | None => false
  end.

(** [check_for_equivocation] *)
Definition check_for_equivocation (p : SignatureAggregationProtocol) (id : PeerId)
    (new_message : list Byte8) (new_signature : Signature) : option MaliciousEvidence :=
  match seen_signatures (state p) !! id with
  | Some (old_signature, old_message) =>
      if bool_decide (old_message ≠ new_message) then
        Some (Equivocation old_signature new_signature old_message new_message)
      else None
  | None => None
  end.

(** [handle_signature_share]; [now] and [now'] are the readings of the
    re-gossip cache.  The outcome of the equivocation check is not used. *)
Definition handle_signature_share (now now' : Instant) (p : SignatureAggregationProtocol)
    (sender_id signer_id : PeerId) (signature : Signature) (message : list Byte8)
    : result AggregationError unit * SignatureAggregationProtocol :=
  if has_seen_signature_for_message p signer_id message then (Ok tt, p)
  else if negb (verify_signature signer_id signature message (participant_public_keys p)) then
    mark_participant_malicious p sender_id (InvalidSignature signature message)
  else
    let _ := check_for_equivocation p signer_id message signature in
    let p := add_signature p sender_id signature message in
    let '(fresh, d) := check_and_mark now now' (dedup_cache p) (blake3_256 message) in
    let p := set_dedup p d in
    if fresh then send_message p (SignatureShare signer_id signature message)
    else (Ok tt, p).

(** [verify_malicious_evidence] *)
Definition verify_malicious_evidence (operator : PeerId) (evidence : MaliciousEvidence)
    (keys : gmap PeerId Public) : result AggregationError bool :=
  match evidence with
  | InvalidSignature signature message =>
      operator_key ← ok_or (keys !! operator) KeyNotFound;
      Ok (negb (as_verify operator_key message signature))
  | Equivocation signature1 signature2 message1 message2 =>
      operator_key ← ok_or (keys !! operator) KeyNotFound;
      if bool_decide (message1 = message2) then Ok false
      else Ok (as_verify operator_key message1 signature1 && as_verify operator_key message2 signature2)
  end.

(** [handle_malicious_report] *)
Definition handle_malicious_report (p : SignatureAggregationProtocol) (operator : PeerId)
    (evidence : MaliciousEvidence) : result AggregationError unit * SignatureAggregationProtocol :=
  match verify_malicious_evidence operator evidence (participant_public_keys p) with
  | Err e => (Err e, p)
  | Ok true => (Ok tt, add_malicious p operator)
  | Ok false => (Ok tt, p)
  end.

(** ** Thresholds and results *)

(** [check_threshold] *)
Definition check_threshold (p : SignatureAggregationProtocol) (message : list Byte8)
    : result AggregationError (option (gset PeerId)) :=
  match signatures_by_message (state p) !! message with
  | Some contributors =>
      let honest := filter (λ id, id ∉ malicious (state p)) contributors in
      let total := calculate_weight (weight_scheme p) honest in
      if total <? threshold_weight (weight_scheme p) then
        if bool_decide (round (state p) = Completion) then
          Err (ThresholdNotMet total (threshold_weight (weight_scheme p)))
        else Ok None
      else Ok (Some contributors)
  | None => Ok None
  end.

(** [collect_signatures_and_public_keys] *)
Definition collect_signatures_and_public_keys (p : SignatureAggregationProtocol)
    (contributors : gset PeerId) : result AggregationError (list Signature * list Public) :=
  let honest := filter (λ id, id ∉ malicious (state p)) (elements contributors) in
  let signatures := omap (λ id, fst <$> seen_signatures (state p) !! id) honest in
  let public_keys := omap (λ id, participant_public_keys p !! id) honest in
  if bool_decide (signatures = []) then Err MissingData else Ok (signatures, public_keys).

(** [aggregate_and_verify] *)
Definition aggregate_and_verify (p : SignatureAggregationProtocol) (message : list Byte8)
    (contributors : gset PeerId) (maybe_aggregated : option AggregatedSignature)
    : result AggregationError (option AggregationResult) :=
  '(signatures, public_keys) ← collect_signatures_and_public_keys p contributors;
  match as_aggregate signatures public_keys with
  | Ok (aggregated_sig, aggregated_pub) =>
      let sig_to_verify := default aggregated_sig maybe_aggregated in
      if negb (default false (result_ok (as_verify_aggregate message sig_to_verify aggregated_pub)))
      then Ok None
      else Ok (Some (mkResult message sig_to_verify contributors
                       (Some (calculate_weight (weight_scheme p) contributors))
                       (malicious (state p))))
  | Err e => Err (Protocol ("Failed to aggregate: " +:+ e))
  end.

(** [build_result]; the round is only logged *)
Definition build_result (p : SignatureAggregationProtocol) (message : list Byte8)
    : result AggregationError (option AggregationResult) :=
  threshold_met ← check_threshold p message;
  match threshold_met with
  | None => Ok None
  | Some contributors => aggregate_and_verify p message contributors None
  end.

(** [verify_result] *)
Definition verify_result (p : SignatureAggregationProtocol) (r : AggregationResult)
    : result AggregationError unit :=
  o ← aggregate_and_verify p (res_message r) (res_contributors r) (Some (res_signature r));
  match o with
  | None => Err MissingData
  | Some _ => _ ← check_threshold p (res_message r); Ok tt
  end.

(** [handle_protocol_complete]; [None] is the panic of [try_transition_to] *)
Definition handle_protocol_complete (p : SignatureAggregationProtocol) (r : AggregationResult)
    : option (result AggregationError unit * SignatureAggregationProtocol) :=
  if is_completed (state p) then Some (Ok tt, p)
  else
    match verify_result p r with
    | Err e => Some (Err e, p)
    | Ok _ =>
        '(_, st) ← try_transition_to (state p) Completion;
        Some (Ok tt, set_state p (mkState (signatures_by_message st) (seen_signatures st)
                                    (local_message st) (malicious st) (round st) (Some r)))
    end.

(** [handle_message]: a message from the network, with the sender of its routing
    and the clock readings of its handling. *)
Record ProtocolMessage := mkProtocolMessage {
  pm_sender : PeerId; pm_payload : list Byte8; pm_now : Instant; pm_now' : Instant;
}.

Definition handle_message (p : SignatureAggregationProtocol) (pm : ProtocolMessage)
    : option (result AggregationError unit * SignatureAggregationProtocol) :=
  match codec_deserialize (pm_payload pm) with
  | Err e => Some (Err e, p)
  | Ok (SignatureShare signer_id signature message) =>
      Some (handle_signature_share (pm_now pm) (pm_now' pm) p (pm_sender pm) signer_id signature message)
  | Ok (MaliciousReport operator evidence) => Some (handle_malicious_report p operator evidence)
  | Ok (ProtocolComplete r) => handle_protocol_complete p r
  end.

(** ** The main loop *)

(** [is_aggregator] *)
Definition is_aggregator (p : SignatureAggregationProtocol) : bool :=
  selects (aggregator_selector p) (local_peer_id p) (participant_public_keys p) (local_message (state p)).

(** The loop of [get_highest_weight_message], over the entries in the order the
    map yields them. *)
Definition highest_weight (w : W) (l : list (list Byte8 * gset PeerId)) : list Byte8 * Z :=
  foldl (λ '(best, highest) '(message, contributors),
      let x := calculate_weight w contributors in
      if highest <? x then (message, x) else (best, highest)) ([], 0) l.

(** [get_highest_weight_message] *)
Definition get_highest_weight_message (p : SignatureAggregationProtocol) : list Byte8 * Z :=
  highest_weight (weight_scheme p) (map_to_list (signatures_by_message (state p))).

(** [sign_and_broadcast] *)
Definition sign_and_broadcast (p : SignatureAggregationProtocol) (message : list Byte8)
    : result AggregationError unit * SignatureAggregationProtocol :=
  match as_sign (local_signing_key p) message with
  | Err e => (Err (SigningError ("Failed to sign message: " +:+ e)), p)
  | Ok signature =>
      let id := local_peer_id p in
      send_message (add_signature p id signature message) (SignatureShare id signature message)
  end.

(** [send_completion_message] *)
Definition send_completion_message (p : SignatureAggregationProtocol) (r : AggregationResult)
    : result AggregationError unit * SignatureAggregationProtocol :=
  send_message p (ProtocolComplete r).

(** How a round of the loop ends. *)
Inductive Flow :=
| Continue (p : SignatureAggregationProtocol)
| Return (r : result AggregationError AggregationResult) (p : SignatureAggregationProtocol)
| Panic.

Inductive Event :=
| Messages (l : list ProtocolMessage)
| CheckTick
| TimedOut.

(** The loop draining the message queue: errors are logged and dropped. *)
Fixpoint drain (p : SignatureAggregationProtocol) (l : list ProtocolMessage)
    : option SignatureAggregationProtocol :=
  match l with
  | [] => Some p
  | pm :: l => '(_, p) ← handle_message p pm; drain p l
  end.

(** The branch of the message poll. *)
Definition on_messages (p : SignatureAggregationProtocol) (l : list ProtocolMessage) : Flow :=
  match drain p l with
  | None => Panic
  | Some p =>
      if negb (bool_decide (l = [])) && is_aggregator p then
        let '(message, highest) := get_highest_weight_message p in
        if threshold_weight (weight_scheme p) <=? highest then
          match build_result p message with
          | Ok (Some r) => Return (Ok r) (send_completion_message p r).2
          | _ => Continue p
          end
        else Continue p
      else Continue p
  end.

(** The branch of the threshold check, for the message being signed. *)
Definition on_check (p : SignatureAggregationProtocol) (message : list Byte8) : Flow :=
  match round (state p) with
  | SignatureCollection =>
      if negb (is_aggregator p) then Continue p
      else
        let '(highest_message, _) := get_highest_weight_message p in
        match build_result p highest_message with
        | Ok (Some r) => Return (Ok r) (send_completion_message p r).2
        | _ => Continue p
        end
  | Completion =>
      match build_result p message with
      | Ok (Some r) => Return (Ok r) p
      | Ok None => Return (Err (ThresholdNotMet 0 0)) p
      | Err e => Return (Err e) p
      end
  | Initialization => Continue p
  end.

(** The branch of the timeout. *)
Definition on_timeout (p : SignatureAggregationProtocol) (message : list Byte8) : Flow :=
  match try_transition_to (state p) Completion with
  | None => Panic
  | Some (_, st) =>
      let p := set_state p st in
      match build_result p message with
      | Ok (Some r) => Return (Ok r) p
      | _ => Return (Err Timeout) p
      end
  end.

(** The loop of [run]. *)
Fixpoint run_loop (p : SignatureAggregationProtocol) (message : list Byte8) (evs : list Event) : Flow :=
  match evs with
  | [] => Continue p
  | ev :: evs =>
      match
        match ev with
        | Messages l => on_messages p l
        | CheckTick => on_check p message
        | TimedOut => on_timeout p message
        end
      with
      | Continue p => run_loop p message evs
      | flow => flow
      end
  end.

(** [run], on the events that reach its loop *)
Definition run (p : SignatureAggregationProtocol) (message : list Byte8) (evs : list Event) : Flow :=
  let st := state p in
  let st := mkState (signatures_by_message st) (seen_signatures st) message (malicious st)
              (round st) (verified_completion st) in
  match try_transition_to st SignatureCollection with
  | None => Panic
  | Some (_, st) =>
      let p := set_state p st in
      match sign_and_broadcast p message with
      | (Err e, p) => Return (Err e) p
      | (Ok _, p) => run_loop p message evs
      end
  end.

(** ** Results are backed by a quorum *)

(** The contributors of a message that are not known to be malicious. *)
Definition honest_contributors (p : SignatureAggregationProtocol) (message : list Byte8) : gset PeerId :=
  filter (λ id, id ∉ malicious (state p)) (default ∅ (signatures_by_message (state p) !! message)).

(** A result the protocol may return: its contributors are the ones recorded
    for its message, the honest ones carry the threshold, and its signature is
    the aggregate of their signatures and verifies under the aggregate of their
    keys. *)
Definition result_backed (p : SignatureAggregationProtocol) (r : AggregationResult) : Prop :=
  signatures_by_message (state p) !! res_message r = Some (res_contributors r) ∧
  threshold_weight (weight_scheme p) ≤
    calculate_weight (weight_scheme p) (honest_contributors p (res_message r)) ∧
  ∃ sigs pks apk,
    collect_signatures_and_public_keys p (res_contributors r) = Ok (sigs, pks) ∧
    as_aggregate sigs pks = Ok (res_signature r, apk) ∧
    as_verify_aggregate (res_message r) (res_signature r) apk = Ok true.

Lemma check_threshold_Some p m c :
  check_threshold p m = Ok (Some c) →
  signatures_by_message (state p) !! m = Some c ∧
  threshold_weight (weight_scheme p) ≤ calculate_weight (weight_scheme p) (honest_contributors p m).
Proof.
  unfold check_threshold, honest_contributors.
  destruct (signatures_by_message (state p) !! m) as [c'|]; simpl; [|done].
  destruct (_ <? _) eqn:E; [by case_bool_decide|]. to_prop. by intros [= <-].
Qed.

Lemma aggregate_and_verify_Some p m c o r :
  aggregate_and_verify p m c o = Ok (Some r) →
  res_message r = m ∧ res_contributors r = c ∧
  ∃ sigs pks asig apk, collect_signatures_and_public_keys p c = Ok (sigs, pks) ∧
    as_aggregate sigs pks = Ok (asig, apk) ∧ res_signature r = default asig o ∧
    as_verify_aggregate m (res_signature r) apk = Ok true.
Proof.
  unfold aggregate_and_verify. intros H.
  destruct (collect_signatures_and_public_keys p c) as [[sigs pks]|] eqn:Ec; simpl in H; [|done].
  destruct (as_aggregate sigs pks) as [[asig apk]|] eqn:Ea; simpl in H; [|done].
  destruct (as_verify_aggregate m (default asig o) apk) as [[]|] eqn:Ev; simpl in H; try done.
  injection H as <-. split_and!; [done|done|]. exists sigs, pks, asig, apk. split_and!; done.
Qed.

Lemma build_result_backed p m r : build_result p m = Ok (Some r) → result_backed p r.
Proof.
  unfold build_result. intros H.
  destruct (check_threshold p m) as [[c|]|] eqn:Ec; simpl in H; try done.
  apply check_threshold_Some in Ec as [Hc Hw].
  apply aggregate_and_verify_Some in H as (Hm & Hcon & sigs & pks & asig & apk & Hcol & Hagg & Hs & Hv).
  simpl in Hs. subst. split_and!; [done|done|]. exists sigs, pks, apk. by split_and!.
Qed.

Lemma send_message_frame p m :
  state (send_message p m).2 = state p ∧ weight_scheme (send_message p m).2 = weight_scheme p ∧
  participant_public_keys (send_message p m).2 = participant_public_keys p.
Proof. unfold send_message. by destruct (net_send m). Qed.

Lemma result_backed_send p m r : result_backed p r → result_backed (send_message p m).2 r.
Proof.
  destruct (send_message_frame p m) as (Hs & Hw & Hk).
  unfold result_backed, honest_contributors, collect_signatures_and_public_keys. by rewrite Hs, Hw, Hk.
Qed.

Lemma on_messages_Return p l r p' : on_messages p l = Return (Ok r) p' → result_backed p' r.
Proof.
  unfold on_messages. destruct (drain p l) as [q|]; [|done]. destruct (_ && _); [|done].
  destruct (get_highest_weight_message q) as [m h]. destruct (_ <=? _); [|done].
  destruct (build_result q m) as [[r'|]|] eqn:E; try done. intros [= <- <-].
  by apply result_backed_send, (build_result_backed q m).
Qed.

Lemma on_check_Return p m r p' : on_check p m = Return (Ok r) p' → result_backed p' r.
Proof.
  unfold on_check. destruct (round (state p)); [done| |].
  - destruct (negb (is_aggregator p)); [done|]. destruct (get_highest_weight_message p) as [hm h].
    destruct (build_result p hm) as [[r'|]|] eqn:E; try done. intros [= <- <-].
    by apply result_backed_send, (build_result_backed p hm).
  - destruct (build_result p m) as [[r'|]|] eqn:E; try done. intros [= <- <-].
    by apply (build_result_backed p m).
Qed.

Lemma on_timeout_Return p m r p' : on_timeout p m = Return (Ok r) p' → result_backed p' r.
Proof.
  unfold on_timeout. destruct (try_transition_to (state p) Completion) as [[b st]|]; [|done].
  destruct (build_result (set_state p st) m) as [[r'|]|] eqn:E; try done. intros [= <- <-].
  by apply (build_result_backed _ m).
Qed.

Lemma run_loop_Return evs p m r p' : run_loop p m evs = Return (Ok r) p' → result_backed p' r.
Proof.
  revert p. induction evs as [|ev evs IH]; intros p H; simpl in H; [done|].
  destruct ev as [l| |].
  - destruct (on_messages p l) as [q|r' q|] eqn:E; [by apply (IH q)| |done].
    injection H as -> ->. by eapply on_messages_Return.
  - destruct (on_check p m) as [q|r' q|] eqn:E; [by apply (IH q)| |done].
    injection H as -> ->. by eapply on_check_Return.
  - destruct (on_timeout p m) as [q|r' q|] eqn:E; [by apply (IH q)| |done].
    injection H as -> ->. by eapply on_timeout_Return.
Qed.

(** C4. Whatever messages arrive and however the loop is scheduled, a result that
    [run] returns is backed by a quorum and its aggregated signature verifies. *)
Theorem run_result_sound p m evs r p' :
  run p m evs = Return (Ok r) p' → result_backed p' r.
Proof.
  unfold run. destruct (try_transition_to _ _) as [[b st]|]; [|done].
  destruct (sign_and_broadcast _ _) as [[u|e] q]; [|done]. apply run_loop_Return.
Qed.

(** ** Rounds move forward *)

Lemma try_transition_Completion st :
  ∃ b st', try_transition_to st Completion = Some (b, st') ∧ round st' = Completion ∧
    signatures_by_message st' = signatures_by_message st ∧ seen_signatures st' = seen_signatures st ∧
    malicious st' = malicious st ∧ verified_completion st' = verified_completion st.
Proof.
  unfold try_transition_to. case_bool_decide as Hr; [by exists false, st|].
  destruct (round st) eqn:E; simpl; [| |done]; eexists _, _; split_and!; done.
Qed.

Lemma handle_message_total p pm : ∃ r p', handle_message p pm = Some (r, p').
Proof.
  unfold handle_message. destruct (codec_deserialize _) as [[id s m|op ev|r]|e]; [..|by eauto].
  - destruct (handle_signature_share _ _ _ _ _ _ _) as [r p']. by eauto.
  - destruct (handle_malicious_report _ _ _) as [r p']. by eauto.
  - unfold handle_protocol_complete. destruct (is_completed (state p)); [by eauto|].
    destruct (verify_result p r); [|by eauto].
    destruct (try_transition_Completion (state p)) as (b & st' & -> & _). simpl. by eauto.
Qed.

Lemma drain_total l p : ∃ p', drain p l = Some p'.
Proof.
  revert p. induction l as [|pm l IH]; intros p; simpl; [by eauto|].
  destruct (handle_message_total p pm) as (r & p' & ->). simpl. apply IH.
Qed.

Lemma run_loop_no_panic evs p m : run_loop p m evs ≠ Panic.
Proof.
  revert p. induction evs as [|ev evs IH]; intros p; simpl; [done|]. destruct ev as [l| |].
  - destruct (on_messages p l) as [q|r q|] eqn:E; [apply IH|done|]. exfalso. revert E.
    unfold on_messages. destruct (drain_total l p) as [p' ->]. destruct (_ && _); [|done].
    destruct (get_highest_weight_message p') as [hm h]. destruct (_ <=? _); [|done].
    by destruct (build_result p' hm) as [[|]|].
  - destruct (on_check p m) as [q|r q|] eqn:E; [apply IH|done|]. exfalso. revert E.
    unfold on_check. destruct (round (state p)); [done| |by destruct (build_result p m) as [[|]|]].
    destruct (negb _); [done|]. destruct (get_highest_weight_message p) as [hm h].
    by destruct (build_result p hm) as [[|]|].
  - destruct (on_timeout p m) as [q|r q|] eqn:E; [apply IH|done|]. exfalso. revert E.
    unfold on_timeout. destruct (try_transition_Completion (state p)) as (b & st' & -> & _).
    by destruct (build_result (set_state p st') m) as [[|]|].
Qed.

(** The round assertion fails exactly when [run] is called on a protocol that
    has already completed: no sequence of messages makes it panic. *)
Theorem run_panics_iff p m evs : run p m evs = Panic ↔ round (state p) = Completion.
Proof.
  unfold run, try_transition_to. simpl. destruct (round (state p)) eqn:E; simpl.
  - destruct (sign_and_broadcast _ _) as [[u|e] q]; split; try done.
    intros H. by apply run_loop_no_panic in H.
  - destruct (sign_and_broadcast _ _) as [[u|e] q]; split; try done.
    intros H. by apply run_loop_no_panic in H.
  - done.
Qed.

(** ** What one message may change *)

Definition round_rank (r : ProtocolRound) : Z :=
  match r with Initialization => 0 | SignatureCollection => 1 | Completion => 2 end.

Definition contributors (p : SignatureAggregationProtocol) (m : list Byte8) : gset PeerId :=
  default ∅ (signatures_by_message (state p) !! m).

(** Knowledge only grows: suspicions and contributions are never withdrawn, the
    round never goes back, and a recorded completion is final. *)
Record advances (p p' : SignatureAggregationProtocol) : Prop := {
  adv_keys : participant_public_keys p' = participant_public_keys p;
  adv_weights : weight_scheme p' = weight_scheme p;
  adv_malicious : malicious (state p) ⊆ malicious (state p');
  adv_contributors m : contributors p m ⊆ contributors p' m;
  adv_round : round_rank (round (state p)) ≤ round_rank (round (state p'));
  adv_completion :
    round (state p) = Completion → verified_completion (state p') = verified_completion (state p);
}.

#[export] Instance advances_refl : Reflexive advances.
Proof. by split. Qed.

#[export] Instance advances_trans : Transitive advances.
Proof.
  intros p1 p2 p3 [K1 W1 M1 C1 R1 V1] [K2 W2 M2 C2 R2 V2].
  split; [by rewrite K2|by rewrite W2|by etrans|intros m; exact (transitivity (C1 m) (C2 m))|by etrans|].
  intros Hc. rewrite V2; [by apply V1|]. rewrite Hc in R1. simpl in R1.
  by destruct (round (state p2)).
Qed.

Lemma contributors_add p id s m m' :
  contributors (add_signature p id s m) m' =
  if decide (m' = m) then contributors p m ∪ {[id]} else contributors p m'.
Proof.
  unfold contributors. simpl. case_decide as Hd; subst.
  - by rewrite lookup_insert_eq.
  - by rewrite lookup_insert_ne.
Qed.

Lemma advances_add_signature p id s m : advances p (add_signature p id s m).
Proof.
  split; simpl; try done. intros m'. rewrite contributors_add. case_decide; subst; set_solver.
Qed.

Lemma advances_add_malicious p id : advances p (add_malicious p id).
Proof. split; simpl; try done. set_solver. Qed.

Lemma advances_same p q r :
  advances p q → state r = state q → participant_public_keys r = participant_public_keys q →
  weight_scheme r = weight_scheme q → advances p r.
Proof.
  intros [K W' M C R V] Hs Hk Hw. split; unfold contributors in *; rewrite ?Hs, ?Hk, ?Hw; try done.
Qed.

Lemma advances_send p q m : advances p q → advances p (send_message q m).2.
Proof. intros H. destruct (send_message_frame q m) as (? & ? & ?). by eapply advances_same. Qed.

Lemma share_advances now now' p sender signer s m :
  advances p (handle_signature_share now now' p sender signer s m).2.
Proof.
  unfold handle_signature_share. destruct (has_seen_signature_for_message _ _ _); [done|].
  destruct (negb _).
  - apply advances_send, advances_add_malicious.
  - cbv zeta. destruct (check_and_mark _ _ _ _) as [[] d].
    + apply advances_send. by eapply advances_same; [apply (advances_add_signature p sender s m)|..].
    + by eapply advances_same; [apply (advances_add_signature p sender s m)|..].
Qed.

Lemma handle_message_advances p pm r p' : handle_message p pm = Some (r, p') → advances p p'.
Proof.
  unfold handle_message. destruct (codec_deserialize _) as [[id s m|op ev|res]|e].
  - intros H. injection H as H. change p' with (r, p').2. rewrite <-H. apply share_advances.
  - unfold handle_malicious_report. destruct (verify_malicious_evidence _ _ _) as [[]|]; intros [= <- <-];
      [apply advances_add_malicious|done|done].
  - unfold handle_protocol_complete. destruct (is_completed (state p)) eqn:Ec; [by intros [= <- <-]|].
    destruct (verify_result p res); [|by intros [= <- <-]].
    destruct (try_transition_Completion (state p)) as (b & st' & -> & Hr & Hsig & Hseen & Hmal & _). simpl.
    intros [= <- <-]. split; unfold contributors; simpl; rewrite ?Hsig, ?Hmal, ?Hr; try done.
    + by destruct (round (state p)).
    + intros Hc. unfold is_completed in Ec. by rewrite bool_decide_eq_true_2 in Ec.
  - by intros [= <- <-].
Qed.

(** However many messages are handled, in whatever order, a node never forgets
    a contributor or a suspicion, never moves back a round, and never replaces
    a recorded completion. *)
Theorem messages_only_advance l p p' : drain p l = Some p' → advances p p'.
Proof.
  revert p. induction l as [|pm l IH]; intros p H; simpl in H; [by injection H as ->|].
  destruct (handle_message p pm) as [[r q]|] eqn:E; simpl in H; [|done].
  transitivity q; [by eapply handle_message_advances|by apply IH].
Qed.

(** ** Stored signatures *)

(** Every recorded contributor has a signature on file, and every signature on
    file verifies under some participant's key for the message it is filed
    with. *)
Definition store_valid (p : SignatureAggregationProtocol) : Prop :=
  (∀ m id, id ∈ contributors p m → is_Some (seen_signatures (state p) !! id)) ∧
  (∀ id s m, seen_signatures (state p) !! id = Some (s, m) →
     ∃ signer, verify_signature signer s m (participant_public_keys p) = true).

Lemma store_valid_same p q :
  signatures_by_message (state q) = signatures_by_message (state p) →
  seen_signatures (state q) = seen_signatures (state p) →
  participant_public_keys q = participant_public_keys p → store_valid p → store_valid q.
Proof. intros H1 H2 H3. unfold store_valid, contributors. by rewrite H1, H2, H3. Qed.

Lemma store_valid_add p id signer s m :
  store_valid p → verify_signature signer s m (participant_public_keys p) = true →
  store_valid (add_signature p id s m).
Proof.
  intros [Hc Hs] Hv. split.
  - intros m' i. rewrite contributors_add. simpl. destruct (decide (i = id)) as [->|Hne].
    + intros _. rewrite lookup_insert_eq. by eexists.
    + rewrite lookup_insert_ne by done. case_decide; [|apply Hc]. subst. intros Hi.
      apply (Hc m). set_solver.
  - intros i s' m'. simpl. rewrite lookup_insert_Some. intros [[<- [= <- <-]]|[_ Hi]]; [by exists signer|].
    by apply (Hs i).
Qed.

Lemma store_valid_send p m : store_valid p → store_valid (send_message p m).2.
Proof.
  destruct (send_message_frame p m) as (Hs & _ & Hk). apply store_valid_same; by rewrite ?Hs.
Qed.

Lemma handle_message_valid p pm r p' : store_valid p → handle_message p pm = Some (r, p') → store_valid p'.
Proof.
  intros Hok. unfold handle_message. destruct (codec_deserialize _) as [[id s m|op ev|res]|e].
  - intros H. injection H as H. change p' with (r, p').2. rewrite <-H. clear H.
    unfold handle_signature_share. destruct (has_seen_signature_for_message _ _ _); [done|].
    destruct (verify_signature id s m (participant_public_keys p)) eqn:Ev; simpl.
    + destruct (check_and_mark _ _ _ _) as [[] d].
      * apply store_valid_send. eapply store_valid_same; [..|by eapply store_valid_add]; done.
      * eapply store_valid_same; [..|by eapply store_valid_add]; done.
    + apply store_valid_send. by eapply store_valid_same.
  - unfold handle_malicious_report. destruct (verify_malicious_evidence _ _ _) as [[]|]; intros [= <- <-];
      [by eapply store_valid_same|done|done].
  - unfold handle_protocol_complete. destruct (is_completed (state p)); [by intros [= <- <-]|].
    destruct (verify_result p res); [|by intros [= <- <-]].
    destruct (try_transition_Completion (state p)) as (b & st' & -> & Hr & Hsig & Hseen & Hmal & _). simpl.
    intros [= <- <-]. by eapply store_valid_same.
  - by intros [= <- <-].
Qed.

Lemma drain_valid l p p' : store_valid p → drain p l = Some p' → store_valid p'.
Proof.
  revert p. induction l as [|pm l IH]; intros p Hok H; simpl in H; [by injection H as <-|].
  destruct (handle_message p pm) as [[r q]|] eqn:E; simpl in H; [|done].
  apply (IH q); [|done]. by eapply handle_message_valid.
Qed.

(** The protocol in which a round of the loop leaves off. *)
Definition flow_protocol (f : Flow) : option SignatureAggregationProtocol :=
  match f with Continue p | Return _ p => Some p | Panic => None end.

Lemma run_loop_valid evs p m p' :
  store_valid p → flow_protocol (run_loop p m evs) = Some p' → store_valid p'.
Proof.
  revert p. induction evs as [|ev evs IH]; intros p Hok H; simpl in H; [by injection H as <-|].
  assert (∀ q, flow_protocol (match ev with
      | Messages l => on_messages p l | CheckTick => on_check p m | TimedOut => on_timeout p m end) = Some q →
    store_valid q) as Hev.
  { intros q. destruct ev as [l| |].
    - unfold on_messages. destruct (drain p l) as [p1|] eqn:E; [|done].
      pose proof (drain_valid l p p1 Hok E) as Hok1. destruct (_ && _); [|by intros [= <-]].
      destruct (get_highest_weight_message p1) as [hm h]. destruct (_ <=? _); [|by intros [= <-]].
      destruct (build_result p1 hm) as [[r'|]|]; intros [= <-]; [by apply store_valid_send|done|done].
    - unfold on_check. destruct (round (state p)); [by intros [= <-]| |].
      + destruct (negb _); [by intros [= <-]|]. destruct (get_highest_weight_message p) as [hm h].
        destruct (build_result p hm) as [[r'|]|]; intros [= <-]; [by apply store_valid_send|done|done].
      + by destruct (build_result p m) as [[r'|]|]; intros [= <-].
    - unfold on_timeout. destruct (try_transition_Completion (state p)) as (b & st' & -> & _ & Hsig & Hseen & _).
      assert (store_valid (set_state p st')) by (by eapply store_valid_same).
      by destruct (build_result (set_state p st') m) as [[r'|]|]; intros [= <-]. }
  destruct (match ev with Messages l => on_messages p l | CheckTick => on_check p m | TimedOut => on_timeout p m end)
    as [q|r q|]; simpl in *; [|by apply Hev|done]. apply (IH q); [by apply Hev|done].
Qed.

(** C14. Only valid signatures are ever kept: at every point of a run of a fresh
    protocol, each recorded contributor has a signature on file, and each
    signature on file is a participant's valid signature of its message. *)
Theorem stored_signatures_valid p m evs p' :
  state p = state_new →
  (∀ s, as_sign (local_signing_key p) m = Ok s →
     verify_signature (local_peer_id p) s m (participant_public_keys p) = true) →
  flow_protocol (run p m evs) = Some p' → store_valid p'.
Proof.
  intros Hst Hkey. unfold run, try_transition_to. rewrite Hst. simpl.
  set (p1 := set_state p _).
  assert (store_valid p1) as Hok1.
  { split; [intros m' id|intros id s m']; unfold contributors; simpl; by rewrite lookup_empty. }
  unfold sign_and_broadcast. change (local_signing_key p1) with (local_signing_key p).
  destruct (as_sign (local_signing_key p) m) as [s|e] eqn:Es; [|by intros [= <-]].
  set (p2 := add_signature p1 _ s m). set (msg := SignatureShare _ s m).
  assert (store_valid p2) as Hok2 by (eapply store_valid_add; [done|by apply Hkey]).
  pose proof (store_valid_send p2 msg Hok2) as Hok3.
  destruct (send_message p2 msg) as [[u|e] p3]; [by apply run_loop_valid|by intros [= <-]].
Qed.

(** ** Choosing the message with the highest weight *)

(** Whatever order the map yields its entries in, the chosen weight is the
    largest, and the chosen message carries it. *)
Theorem highest_weight_max w l :
  let '(m, h) := highest_weight w l in
  (∀ m' c', (m', c') ∈ l → calculate_weight w c' ≤ h) ∧
  ((m, h) = ([], 0) ∨ ∃ c, (m, c) ∈ l ∧ calculate_weight w c = h).
Proof.
  induction l as [|[m c] l IH] using rev_ind.
  { simpl. split; [by intros ? ? ?%not_elem_of_nil|by left]. }
  unfold highest_weight in *. rewrite foldl_app. simpl. destruct (foldl _ _ l) as [bm bh].
  destruct IH as [Hmax Hatt]. destruct (bh <? calculate_weight w c) eqn:E; to_prop; split.
  - intros m' c' [Hin|Hin]%elem_of_app; [pose proof (Hmax _ _ Hin); lia|].
    apply list_elem_of_singleton in Hin. by simplify_eq.
  - right. exists c. split; [set_solver|done].
  - intros m' c' [Hin|Hin]%elem_of_app; [by apply (Hmax m')|].
    apply list_elem_of_singleton in Hin. simplify_eq. lia.
  - destruct Hatt as [?|(c' & Hin & Hw)]; [by left|right]. exists c'. split; [set_solver|done].
Qed.

(** ** Behaviour of single handlers *)

(** A relayed share is filed under the node that relayed it: the sender is
    recorded as a contributor with the signer's signature, and the signer is
    not recorded. *)
Theorem relayed_share_filed_under_sender now now' p sender signer s m :
  sender ≠ signer → (signer ∉ contributors p m) →
  verify_signature signer s m (participant_public_keys p) = true →
  let p' := (handle_signature_share now now' p sender signer s m).2 in
  sender ∈ contributors p' m ∧ (signer ∉ contributors p' m) ∧
  seen_signatures (state p') !! sender = Some (s, m).
Proof.
  intros Hne Hnew Hv. unfold handle_signature_share, has_seen_signature_for_message.
  fold (contributors p m). rewrite bool_decide_eq_false_2 by done. rewrite Hv. simpl.
  set (p1 := add_signature p sender s m).
  assert (∀ q, state q = state p1 → sender ∈ contributors q m ∧ (signer ∉ contributors q m) ∧
    seen_signatures (state q) !! sender = Some (s, m)) as Hq.
  { intros q Hst. unfold contributors. rewrite Hst. fold (contributors p1 m). unfold p1.
    rewrite contributors_add, decide_True by done. simpl. rewrite lookup_insert_eq. set_solver. }
  destruct (check_and_mark _ _ _ _) as [[] d]; apply Hq; [|done].
  by destruct (send_message_frame (set_dedup p1 d) (SignatureShare signer s m)) as (-> & _).
Qed.

(** Signing two messages is noticed and not acted upon: the check produces
    valid evidence, the signature counts for the second message as it did for
    the first, and the signer is not marked. *)
Theorem equivocation_unpunished now now' p id s s0 m m0 :
  seen_signatures (state p) !! id = Some (s0, m0) → m0 ≠ m → (id ∉ contributors p m) →
  verify_signature id s0 m0 (participant_public_keys p) = true →
  verify_signature id s m (participant_public_keys p) = true →
  let p' := (handle_signature_share now now' p id id s m).2 in
  (∃ ev, check_for_equivocation p id m s = Some ev ∧
     verify_malicious_evidence id ev (participant_public_keys p) = Ok true) ∧
  malicious (state p') = malicious (state p) ∧ id ∈ contributors p' m.
Proof.
  intros Hseen Hne Hnew Hv0 Hv. split.
  - unfold check_for_equivocation. rewrite Hseen, bool_decide_eq_true_2 by done. eexists. split; [done|].
    unfold verify_signature in *. simpl. destruct (participant_public_keys p !! id); [|done]. simpl.
    rewrite bool_decide_eq_false_2 by done. by rewrite Hv0, Hv.
  - unfold handle_signature_share, has_seen_signature_for_message.
    fold (contributors p m). rewrite bool_decide_eq_false_2 by done. rewrite Hv. simpl.
    set (p1 := add_signature p id s m).
    assert (∀ q, state q = state p1 → malicious (state q) = malicious (state p) ∧ id ∈ contributors q m) as Hq.
    { intros q Hst. unfold contributors. rewrite Hst. split; [done|]. fold (contributors p1 m). unfold p1.
      rewrite contributors_add, decide_True by done. set_solver. }
    destruct (check_and_mark _ _ _ _) as [[] d]; apply Hq; [|done].
    by destruct (send_message_frame (set_dedup p1 d) (SignatureShare id s m)) as (-> & _).
Qed.

(** A report is believed whenever it shows some byte string that is not a
    signature of the accused: any participant can have any other one marked. *)
Theorem report_frames_anyone p operator pk s m :
  participant_public_keys p !! operator = Some pk → as_verify pk m s = false →
  let '(r, p') := handle_malicious_report p operator (InvalidSignature s m) in
  r = Ok tt ∧ operator ∈ malicious (state p') ∧
  ∀ m', operator ∉ honest_contributors p' m'.
Proof.
  intros Hk Hv. unfold handle_malicious_report, verify_malicious_evidence.
  rewrite Hk. simpl. rewrite Hv. simpl. split_and!; [done|set_solver|].
  intros m'. unfold honest_contributors. simpl. rewrite elem_of_filter. set_solver.
Qed.

(** A completion message is accepted on a valid aggregate alone: the weight of
    its contributors is not compared with the threshold, and the next check
    ends the run with an error if the node's own message is short of it. *)
Theorem completion_ignores_threshold p r m w :
  round (state p) = SignatureCollection →
  is_Ok (aggregate_and_verify p (res_message r) (res_contributors r) (Some (res_signature r))) →
  aggregate_and_verify p (res_message r) (res_contributors r) (Some (res_signature r)) ≠ Ok None →
  w = calculate_weight (weight_scheme p) (honest_contributors p m) →
  w < threshold_weight (weight_scheme p) → is_Some (signatures_by_message (state p) !! m) →
  ∃ p', handle_protocol_complete p r = Some (Ok tt, p') ∧ round (state p') = Completion ∧
    on_check p' m = Return (Err (ThresholdNotMet w (threshold_weight (weight_scheme p)))) p'.
Proof.
  intros Hr [o Ho] Hne -> Hw [c Hc].
  assert (verify_result p r = Ok tt) as Hver.
  { unfold verify_result. rewrite Ho. simpl. destruct o as [o|]; [|by rewrite Ho in Hne].
    unfold check_threshold. destruct (signatures_by_message (state p) !! res_message r); simpl; [|done].
    destruct (_ <? _); [|done]. by rewrite bool_decide_eq_false_2 by congruence. }
  unfold handle_protocol_complete, is_completed, try_transition_to. rewrite Hr. simpl. rewrite Hver. simpl.
  eexists. split_and!; [done|done|]. unfold on_check. simpl.
  unfold build_result, check_threshold. simpl. rewrite Hc. simpl.
  unfold honest_contributors in Hw. rewrite Hc in Hw. simpl in Hw.
  rewrite (proj2 (Z.ltb_lt _ _)) by done. simpl. unfold honest_contributors. by rewrite Hc.
Qed.

(** ** Aggregator selection *)

Lemma f64_div_exponent a b : 1 ≤ a < b → 53 ≤ (f64_div a b).2.
Proof.
  intros Hab. unfold f64_div. simpl.
  pose proof (Z.log2_le_mono a b ltac:(lia)) as Hl.
  destruct (decide (Z.log2 a = Z.log2 b)) as [Heq|Hne].
  - rewrite Heq. replace (52 - (Z.log2 b - Z.log2 b)) with 52 by lia.
    rewrite (proj2 (Z.ltb_lt (a * 2 ^ 52) (b * 2 ^ 52))) by lia. lia.
  - destruct (_ <? _); lia.
Qed.

(** The quotient is within half a unit of its last place. *)
Lemma f64_div_rounds a b :
  1 ≤ a < b → let '(m, e) := f64_div a b in
  2 * Z.abs (m * b - a * 2 ^ e) ≤ b ∧ 53 ≤ e.
Proof.
  intros Hab. pose proof (f64_div_exponent a b Hab) as He.
  unfold f64_div in *. simpl in He |- *. set (e := if _ <? _ then _ else _) in *.
  split; [|done]. set (x := a * 2 ^ e).
  pose proof (Z.div_mod x b ltac:(lia)) as Hdm. pose proof (Z.mod_pos_bound x b ltac:(lia)) as Hmb.
  set (q := x / b) in *. set (r := x mod b) in *.
  destruct ((b <? 2 * r) || ((2 * r =? b) && Z.odd q)) eqn:E.
  - assert (b ≤ 2 * r) as Hr.
    { rewrite orb_true_iff, andb_true_iff, Z.ltb_lt, Z.eqb_eq in E. lia. }
    lia.
  - assert (2 * r ≤ b) as Hr by (rewrite orb_false_iff, Z.ltb_ge in E; lia). lia.
Qed.

(** The selection threshold is the share [target / total] of the hash range, up
    to the rounding of the floating-point division: a participant is chosen
    with that probability. *)
Theorem selection_threshold_accurate target total :
  1 ≤ target < total → total ≤ 65535 →
  Z.abs (selection_threshold target total * total - target * 2 ^ 64) ≤ 1025 * total.
Proof.
  intros Ht Hn. unfold selection_threshold. rewrite (proj2 (Z.leb_gt _ _)) by lia.
  pose proof (f64_div_rounds target total Ht) as H. destruct (f64_div target total) as [m e].
  destruct H as [Hr He].
  assert (∃ k, 0 ≤ k ∧ e = 53 + k) as (k & Hk & ->) by (exists (e - 53); lia).
  rewrite Z.pow_add_r in * by lia. set (K := 2 ^ k) in *.
  assert (1 ≤ K) as HK by (pose proof (Z.pow_pos_nonneg 2 k); lia).
  pose proof (Z.div_mod (m * 2 ^ 64) (2 ^ 53 * K) ltac:(lia)) as Hdm.
  pose proof (Z.mod_pos_bound (m * 2 ^ 64) (2 ^ 53 * K) ltac:(lia)) as Hmb.
  set (T := m * 2 ^ 64 / (2 ^ 53 * K)) in *. set (R := (m * 2 ^ 64) mod (2 ^ 53 * K)) in *.
  assert (Z.abs (T * total - target * 2 ^ 64) ≤ 1025 * total) as HT.
  { assert (m * 2 ^ 11 = K * T + R / 2 ^ 53 ∧ 0 ≤ R / 2 ^ 53 < K) as [HmT HR].
    { assert (R mod 2 ^ 53 = 0) as HR0.
      { apply Z.mod_divide; [lia|]. exists (m * 2 ^ 11 - K * T). lia. }
      pose proof (Z.div_mod R (2 ^ 53) ltac:(lia)). lia. }
    set (R' := R / 2 ^ 53) in *.
    assert (K * Z.abs (T * total - target * 2 ^ 64) ≤ K * (1025 * total)) as HKK; [|nia].
    assert (K * (T * total - target * 2 ^ 64) = 2 ^ 11 * (m * total - target * (2 ^ 53 * K)) - R' * total) as HE.
    { nia. }
    assert (2 * Z.abs (m * total - target * (2 ^ 53 * K)) ≤ total) as Hr' by done.
    set (D := m * total - target * (2 ^ 53 * K)) in *.
    assert (0 ≤ R' * total ≤ K * total) by nia.
    assert (Z.abs (K * (T * total - target * 2 ^ 64)) ≤ 1024 * total + K * total) as HA by lia.
    rewrite Z.abs_mul, (Z.abs_eq K) in HA by lia. nia. }
  unfold u64_max. destruct (decide (T ≤ 2 ^ 64 - 1)); [rewrite Z.min_r by lia; lia|].
  rewrite Z.min_l by lia. nia.
Qed.

(** ** Re-gossiping *)

Context {LL : LruLaws L}.

(** Shares are forwarded once per message and not once per signer: after one
    share of a message has been forwarded, the next valid share of that message
    is kept and not forwarded, whoever signed it. *)
Theorem second_share_not_forwarded now1 now1' now2 now2' p sender1 signer1 s1 sender2 signer2 s2 m :
  cache_wf (dedup_cache p) →
  (check_and_mark now1 now1' (dedup_cache p) (blake3_256 m)).1 = true →
  now2 ≤ now1' + ttl (dedup_cache p) →
  (signer1 ∉ contributors p m) → verify_signature signer1 s1 m (participant_public_keys p) = true →
  let p1 := (handle_signature_share now1 now1' p sender1 signer1 s1 m).2 in
  (signer2 ∉ contributors p1 m) → verify_signature signer2 s2 m (participant_public_keys p) = true →
  let p2 := (handle_signature_share now2 now2' p1 sender2 signer2 s2 m).2 in
  sent p2 = sent p1 ∧ sender2 ∈ contributors p2 m.
Proof.
  intros Hwf Hfresh Hnow Hn1 Hv1. cbv zeta.
  destruct (check_and_mark now1 now1' (dedup_cache p) (blake3_256 m)) as [b d1] eqn:E1. simpl in Hfresh. subst b.
  assert (∃ q, (handle_signature_share now1 now1' p sender1 signer1 s1 m).2 = q ∧ dedup_cache q = d1 ∧
    participant_public_keys q = participant_public_keys p) as (q & -> & Hd & Hk).
  { eexists. split; [done|]. unfold handle_signature_share, has_seen_signature_for_message.
    fold (contributors p m). rewrite bool_decide_eq_false_2 by done. rewrite Hv1. simpl. rewrite E1.
    unfold send_message. by destruct (net_send _). }
  intros Hn2 Hv2. unfold handle_signature_share, has_seen_signature_for_message.
  fold (contributors q m). rewrite bool_decide_eq_false_2 by done. rewrite Hk, Hv2. simpl. rewrite Hd.
  pose proof (check_and_mark_cases now1 now1' _ (blake3_256 m) Hwf) as Hc. rewrite E1 in Hc.
  destruct Hc as (Hwf1 & Httl & _).
  destruct (sits_entry d1 _ _ _ Hwf1 (check_and_mark_sits _ _ _ _ _ Hwf E1)) as (e & He & Hfs).
  pose proof (check_and_mark_cases now2 now2' d1 (blake3_256 m) Hwf1) as Hc. rewrite He in Hc.
  destruct (check_and_mark now2 now2' d1 (blake3_256 m)) as [b d2]. destruct Hc as (_ & _ & _ & Hb & _).
  assert (b = false) as ->.
  { rewrite Hb. apply elapsed_le; [by destruct Hwf1 as (_ & _ & _ & ?)|]. rewrite Httl. lia. }
  split; [done|]. change (sender2 ∈ contributors (add_signature q sender2 s2 m) m).
  rewrite contributors_add, decide_True by done. set_solver.
Qed.

End protocol.

(** ** [ArkBlsBn254] as a signature scheme *)

#[export] Instance bn254_scheme `{B : Bn254} : AggregatableSignature := {|
  Signature := Sig;
  Public := Pk;
  Secret := Z;
  AggregatedSignature := Sig;
  AggregatedPublic := Pk;
  as_sign sk m :=
    match sign sk m with Some (Ok s) => Ok s | _ => Err "SignatureFailed"%string end;
  as_verify := bls_verify;
  as_aggregate sigs pks := map_err (λ _, "InvalidInput"%string) (bls_aggregate sigs pks);
  as_verify_aggregate m s pk := map_err (λ _, "InvalidInput"%string) (verify_aggregate m s pk);
  as_to_bytes pk := default [] (g2_serialize pk);
|}.

(** ** Runs of three nodes *)

#[local] Existing Instance toy_bn254.

Definition demo_keys : gmap Z Z := {[1 := 5; 2 := 6; 3 := 7]}.

(** The signature of a key on the message [0], which maps to the point 1. *)
Definition demo_message : list Byte8 := [0].

(** A payload is the sender-independent pair of a signer and its signature; a
    payload of three numbers is a completion by one contributor. *)
Definition demo_codec (bs : list Byte8) : result AggregationError AggSigMessage :=
  match bs with
  | [signer; s] => Ok (SignatureShare signer s demo_message)
  | [signer; s; _] => Ok (ProtocolComplete (mkResult demo_message s {[signer]} None ∅))
  | _ => Err (SerializationError "bincode")
  end.

#[local] Instance demo_env : Environment := {|
  default_hasher _ _ := 0;
  net_send _ := Ok tt;
  codec_deserialize := demo_codec;
  blake3_256 bs := bs;
|}.

Definition demo_protocol : SignatureAggregationProtocol (W := EqualWeight) :=
  protocol_new 3 (mkEqualWeight 3 100) demo_keys 1 5.

Definition demo_run (evs : list Event) : Flow :=
  run demo_protocol demo_message evs.

Definition demo_share (sender signer s : Z) : ProtocolMessage := mkProtocolMessage sender [signer; s] 1 1.

Definition demo_direct : list ProtocolMessage := [demo_share 2 2 6; demo_share 3 3 7].

Definition demo_relayed : list ProtocolMessage := [demo_share 2 3 7; demo_share 2 2 6; demo_share 3 3 7].

(** What a run came to: the signature it returned, whether it timed out, and
    the contributors it knows when it goes on. *)
Definition demo_signature (f : Flow (S := bn254_scheme) (W := EqualWeight)) : option Z :=
  match f with Return (Ok r) _ => Some (res_signature r) | _ => None end.

Definition demo_timed_out (f : Flow (S := bn254_scheme) (W := EqualWeight)) : bool :=
  match f with Return (Err Timeout) _ => true | _ => false end.

Definition demo_contributors (f : Flow (S := bn254_scheme) (W := EqualWeight)) : option (gset Z) :=
  match f with Continue p => Some (contributors p demo_message) | _ => None end.

(** Three honest nodes, all of whose signatures arrive: if each share arrives
    from its signer the run succeeds, and if one share is first relayed by
    another node the three contributors are known but the aggregate does not
    verify, and the run times out. *)
Theorem relay_breaks_aggregation :
  demo_signature (demo_run [Messages demo_direct]) = Some 18 ∧
  bool_decide (demo_contributors (demo_run [Messages demo_relayed]) = Some {[1; 2; 3]}) = true ∧
  demo_timed_out (demo_run [Messages demo_relayed; CheckTick; TimedOut]) = true.
Proof. by vm_compute. Qed.

(** ** Witnesses *)

Lemma run_result_sound_witness :
  match demo_run [Messages demo_direct] with
  | Return (Ok r) p => result_backed p r ∧ res_signature r = 18
  | _ => False
  end.
Proof.
  assert (demo_signature (demo_run [Messages demo_direct]) = Some 18) as Hs by (by vm_compute).
  destruct (demo_run [Messages demo_direct]) as [p|[r|[| | | | | | |]] p|] eqn:E; try discriminate Hs.
  split; [|injection Hs as Hs; exact Hs].
  exact (run_result_sound demo_protocol demo_message
           [Messages demo_direct] r p E).
Defined.

Lemma messages_only_advance_witness :
  match drain demo_protocol demo_relayed with
  | Some p => advances demo_protocol p
  | None => False
  end.
Proof.
  destruct (drain_total demo_relayed demo_protocol) as [p E]. rewrite E.
  exact (messages_only_advance demo_relayed demo_protocol p E).
Defined.

Lemma stored_signatures_valid_witness :
  match flow_protocol (demo_run [Messages demo_relayed]) with
  | Some p => store_valid p
  | None => False
  end.
Proof.
  destruct (flow_protocol (demo_run [Messages demo_relayed])) as [p|] eqn:E.
  - apply (stored_signatures_valid demo_protocol demo_message
             [Messages demo_relayed] p); [done| |exact E].
    intros s Hs. assert (s = 5) as -> by (vm_compute in Hs; by injection Hs). by vm_compute.
  - assert (match flow_protocol (demo_run [Messages demo_relayed]) with Some _ => true | None => false end
              = true) as H by (by vm_compute).
    by rewrite E in H.
Defined.

Lemma relayed_share_filed_under_sender_witness :
  2 ∈ contributors (handle_signature_share 1 1 demo_protocol 2 3 7 demo_message).2
        demo_message.
Proof.
  apply (relayed_share_filed_under_sender 1 1 demo_protocol 2 3 7 demo_message);
    [done|set_solver|by vm_compute].
Defined.

(** Node 2 has signed the message [0]. *)
Definition demo_one_share : SignatureAggregationProtocol (W := EqualWeight) :=
  (handle_signature_share 1 1 demo_protocol 2 2 6 demo_message).2.

Lemma equivocation_unpunished_witness :
  malicious (state (handle_signature_share 2 2 demo_one_share 2 2 6 [2]).2) =
  malicious (state demo_one_share).
Proof.
  apply (equivocation_unpunished 2 2 demo_one_share 2 6 6 [2] demo_message);
    [by vm_compute|done| |by vm_compute|by vm_compute].
  by apply (bool_decide_eq_false_1 (2 ∈ contributors demo_one_share [2])).
Defined.

Lemma report_frames_anyone_witness :
  2 ∈ malicious (state (handle_malicious_report demo_one_share 2 (InvalidSignature 9 demo_message)).2).
Proof.
  pose proof (report_frames_anyone demo_one_share 2 6 9 demo_message ltac:(by vm_compute) ltac:(by vm_compute)) as H.
  destruct (handle_malicious_report _ _ _) as [r p]. by destruct H as (_ & ? & _).
Defined.

(** Node 1 has only its own signature, and receives a completion naming itself. *)
Definition demo_lonely : SignatureAggregationProtocol (W := EqualWeight) :=
  add_signature (set_state demo_protocol
    (mkState ∅ ∅ demo_message ∅ SignatureCollection None)) 1 5 demo_message.

Definition demo_completion : AggregationResult := mkResult demo_message 5 {[1]} None ∅.

Lemma completion_ignores_threshold_witness :
  ∃ p', handle_protocol_complete demo_lonely demo_completion = Some (Ok tt, p') ∧
    round (state p') = Completion ∧
    on_check p' demo_message =
      Return (Err (ThresholdNotMet 1 (threshold_weight (weight_scheme demo_lonely)))) p'.
Proof.
  assert (match aggregate_and_verify demo_lonely demo_message {[1]} (Some 5) with
          | Ok (Some _) => true | _ => false end = true) as H by (by vm_compute).
  apply (completion_ignores_threshold demo_lonely demo_completion demo_message 1).
  - done.
  - change (is_Ok (aggregate_and_verify demo_lonely demo_message {[1]} (Some 5))).
    destruct (aggregate_and_verify _ _ _ _); [by eexists|done].
  - change (aggregate_and_verify demo_lonely demo_message {[1]} (Some 5) ≠ Ok None). intros E. by rewrite E in H.
  - by vm_compute.
  - by vm_compute.
  - by vm_compute; eexists.
Defined.

Lemma selection_threshold_accurate_witness :
  Z.abs (selection_threshold 3 7 * 7 - 3 * 2 ^ 64) ≤ 1025 * 7.
Proof. by apply (selection_threshold_accurate 3 7). Defined.

Lemma second_share_not_forwarded_witness :
  sent (handle_signature_share 2 2 demo_one_share 3 3 7 demo_message).2 =
  sent demo_one_share.
Proof.
  apply (second_share_not_forwarded 1 1 2 2 demo_protocol 2 2 6 3 3 7 demo_message).
  - apply dedup_new_wf. done.
  - by vm_compute.
  - by vm_compute.
  - set_solver.
  - by vm_compute.
  - by apply (bool_decide_eq_false_1 (3 ∈ contributors demo_one_share demo_message)).
  - by vm_compute.
Defined.
