(* ===== verification/PeerManager.v ===== *)
(** * Peers, bans and the whitelist

    Models [src/crates/networking/src/discovery/peers.rs], the address
    derivations of [discovery/utils.rs] and [AllowedKeys] of [service.rs].  The
    concurrent maps ([DashMap], [DashSet]) are [gmap] and [gset] and each
    operation is one step; the one place where a guard into a map is held
    while the map is written is modelled with the guard.  The broadcast channel
    is the list of events offered to it.  A hash set of keys enters as the list
    its iteration yields.  The signature scheme is the trait [KeyType]; the
    [libsecp256k1], [keccak] and [libp2p] crates are parameters. *)

From S2P Require Import Prelude.
From Stdlib Require Import ZArith Lia.
From stdpp Require Import base gmap sets list sorting strings countable fin_maps numbers relations.

#[local] Open Scope Z_scope.

Abbreviation PeerId := Z (only parsing).
Abbreviation Address := (list Z) (only parsing).

(** ** Parameters *)

(** The part of the [KeyType] trait the network uses. *)
Class KeyType := {
  kt_public : Type;
  kt_secret : Type;
  kt_signature : Type;
  #[export] kt_public_eq_dec :: EqDecision kt_public;
  #[export] kt_public_countable :: Countable kt_public;
  kt_public_from_secret : kt_secret → kt_public;
  kt_sign_with_secret : kt_secret → list Byte8 → result string kt_signature;
  kt_verify : kt_public → list Byte8 → kt_signature → bool;
  kt_public_to_bytes : kt_public → list Byte8;
  kt_signature_to_bytes : kt_signature → list Byte8;
  kt_signature_from_bytes : list Byte8 → result string kt_signature;
}.

(** [keccak256] and the [libsecp256k1] calls. *)
Class EvmCrypto := {
  secp_signature : Type;
  keccak_256 : list Byte8 → list Byte8;
  recovery_id_parse : Z → option Z;
  parse_overflowing_slice : list Byte8 → option secp_signature;
  secp_recover : list Byte8 → secp_signature → Z → option (list Byte8); (** serialized, 65 bytes *)
  parse_compressed : list Byte8 → option (list Byte8);                  (** serialized, 65 bytes *)
}.

(** Opaque types of [libp2p], and the bytes of a peer identifier. *)
Class Libp2p := {
  multiaddr : Type;
  #[export] multiaddr_eq_dec :: EqDecision multiaddr;
  #[export] multiaddr_countable :: Countable multiaddr;
  identify_info_ty : Type;
  peer_id_to_bytes : PeerId → list Byte8;
}.

(** [let mut a = [0u8; n]; a[..bs.len()].copy_from_slice(bs)]: panics when the
    bytes do not fit. *)
Definition copy_into (n : nat) (bs : list Byte8) : option (list Byte8) :=
  if (length bs <=? n)%nat then Some (bs ++ replicate (n - length bs) 0) else None.

Section addresses.
Context {C : EvmCrypto}.

(** [secp256k1_ecdsa_recover] *)
Definition secp256k1_ecdsa_recover (sig msg : list Byte8) : result string (list Byte8) :=
  let v := nth 64 sig 0 in
  rid ← ok_or (recovery_id_parse (if 26 <? v then v - 27 else v)) "Bad V";
  s ← ok_or (parse_overflowing_slice (take 64 sig)) "Bad RS";
  pubkey ← ok_or (secp_recover msg s rid) "Bad Signature";
  Ok (take 64 (drop 1 pubkey)).

(** [get_address_from_pubkey] *)
Definition get_address_from_pubkey (pubkey : list Byte8) : Address :=
  take 20 (drop 12 (keccak_256 pubkey)).

(** [get_address_from_compressed_pubkey]; [None] is a panic *)
Definition get_address_from_compressed_pubkey (pubkey : list Byte8) : option Address :=
  pk ← copy_into 33 pubkey;
  decompressed ← parse_compressed pk;
  Some (take 20 (drop 12 (keccak_256 (take 64 (drop 1 decompressed))))).

End addresses.

(** ** Verification keys *)

Inductive VerificationIdentifierKey `{K : KeyType} :=
| EvmAddress (address : Address)
| InstancePublicKey (public_key : kt_public).

Inductive AllowedKeys `{K : KeyType} :=
| EvmAddresses (addresses : list Address)
| InstancePublicKeys (keys : list kt_public).

#[export] Instance VerificationIdentifierKey_eq_dec `{K : KeyType} : EqDecision VerificationIdentifierKey.
Proof. solve_decision. Defined.

#[export] Instance VerificationIdentifierKey_countable `{K : KeyType} : Countable VerificationIdentifierKey.
Proof.
  refine (inj_countable'
    (λ k, match k with EvmAddress a => inl a | InstancePublicKey p => inr p end)
    (λ s, match s with inl a => EvmAddress a | inr p => InstancePublicKey p end) _).
  by intros [].
Defined.

(** [VerificationIdentifierKey::verify]; [None] is a panic *)
Definition key_verify `{K : KeyType, C : EvmCrypto} (key : VerificationIdentifierKey)
    (msg signature : list Byte8) : option (result string bool) :=
  match key with
  | EvmAddress address =>
      sig ← copy_into 65 signature;
      Some (pubkey ← secp256k1_ecdsa_recover sig (keccak_256 msg);
            Ok (bool_decide (get_address_from_pubkey pubkey = address)))
  | InstancePublicKey public_key =>
      Some (s ← kt_signature_from_bytes signature; Ok (kt_verify public_key msg s))
  end.

(** [VerificationIdentifierKey::to_bytes] *)
Definition key_to_bytes `{K : KeyType} (key : VerificationIdentifierKey) : list Byte8 :=
  match key with
  | EvmAddress address => address
  | InstancePublicKey public_key => kt_public_to_bytes public_key
  end.

(** ** Peer records *)

Section peers.
Context {K : KeyType} {L : Libp2p}.

Record PeerInfo := mkPeerInfo {
  addresses : gset multiaddr;
  identify_info : option identify_info_ty;
  last_seen : Z;
  ping_latency : option Duration;
  successes : Z;
  failures : Z;
  average_response_time : option Duration;
}.

(** [PeerInfo::default], at wall-clock time [now] *)
Definition PeerInfo_default (now : Z) : PeerInfo := mkPeerInfo ∅ None now None 0 0 None.

Inductive PeerEvent :=
| PeerUpdated (peer_id : PeerId) (info : PeerInfo)
| PeerRemoved (peer_id : PeerId) (reason : string)
| PeerBanned (peer_id : PeerId) (reason : string) (expires_at : option Instant)
| PeerUnbanned (peer_id : PeerId).

Record PeerManager := mkPeerManager {
  peers : gmap PeerId PeerInfo;
  verified_peers : gset PeerId;
  verification_id_keys_to_peer_ids : gmap VerificationIdentifierKey PeerId;
  banned_peers : gmap PeerId (option Instant);
  whitelisted_keys : list VerificationIdentifierKey;
  events : list PeerEvent;
}.

(** [AllowedKeys] as verification keys, in iteration order *)
Definition allowed_to_keys (allowed_keys : AllowedKeys) : list VerificationIdentifierKey :=
  match allowed_keys with
  | EvmAddresses l => EvmAddress <$> l
  | InstancePublicKeys l => InstancePublicKey <$> l
  end.

(** [PeerManager::new] *)
Definition peer_manager_new (allowed_keys : AllowedKeys) : PeerManager :=
  mkPeerManager ∅ ∅ ∅ ∅ (allowed_to_keys allowed_keys) [].

(** Field updates *)
Definition set_peers (m : PeerManager) v :=
  mkPeerManager v (verified_peers m) (verification_id_keys_to_peer_ids m) (banned_peers m)
    (whitelisted_keys m) (events m).
Definition set_banned (m : PeerManager) v :=
  mkPeerManager (peers m) (verified_peers m) (verification_id_keys_to_peer_ids m) v
    (whitelisted_keys m) (events m).
Definition set_whitelist (m : PeerManager) v :=
  mkPeerManager (peers m) (verified_peers m) (verification_id_keys_to_peer_ids m) (banned_peers m)
    v (events m).
Definition set_links (m : PeerManager) v :=
  mkPeerManager (peers m) (verified_peers m) v (banned_peers m) (whitelisted_keys m) (events m).

(** [event_tx.send] *)
Definition emit (m : PeerManager) (ev : PeerEvent) : PeerManager :=
  mkPeerManager (peers m) (verified_peers m) (verification_id_keys_to_peer_ids m) (banned_peers m)
    (whitelisted_keys m) (events m ++ [ev]).

(** ** The whitelist *)

(** [clear_whitelisted_keys] *)
Definition clear_whitelisted_keys (m : PeerManager) : PeerManager := set_whitelist m [].

(** [insert_whitelisted_keys] *)
Definition insert_whitelisted_keys (m : PeerManager) (keys : AllowedKeys) : PeerManager :=
  set_whitelist m (whitelisted_keys m ++ allowed_to_keys keys).

(** One round of [run_allowed_keys_updater] *)
Definition update_allowed_keys (m : PeerManager) (keys : AllowedKeys) : PeerManager :=
  insert_whitelisted_keys (clear_whitelisted_keys m) keys.

(** [is_key_whitelisted] *)
Definition is_key_whitelisted (m : PeerManager) (key : VerificationIdentifierKey) : bool :=
  bool_decide (key ∈ whitelisted_keys m).

(** [Iterator::position] *)
Fixpoint position {A} (f : A → bool) (l : list A) : option nat :=
  match l with
  | [] => None
  | x :: l => if f x then Some O else S <$> position f l
  end.

(** [get_key_position_in_whitelist] *)
Definition get_key_position_in_whitelist (m : PeerManager) (key : VerificationIdentifierKey) : option nat :=
  position (λ k, bool_decide (k = key)) (whitelisted_keys m).

(** [get_key_from_whitelist_index] *)
Definition get_key_from_whitelist_index (m : PeerManager) (index : nat) : option VerificationIdentifierKey :=
  whitelisted_keys m !! index.

(** [get_peer_id_from_verification_id_key] *)
Definition get_peer_id_from_verification_id_key (m : PeerManager) (key : VerificationIdentifierKey)
    : option PeerId :=
  verification_id_keys_to_peer_ids m !! key.

(** [get_peer_id_from_whitelist_index] *)
Definition get_peer_id_from_whitelist_index (m : PeerManager) (index : nat) : option PeerId :=
  whitelisted_keys m !! index ≫= get_peer_id_from_verification_id_key m.

(** [get_whitelist_index_from_peer_id] *)
Definition get_whitelist_index_from_peer_id (m : PeerManager) (peer_id : PeerId) : option nat :=
  position (λ k, bool_decide (get_peer_id_from_verification_id_key m k = Some peer_id))
    (whitelisted_keys m).

(** [link_peer_id_to_verification_id_key] *)
Definition link_peer_id_to_verification_id_key (m : PeerManager) (peer_id : PeerId)
    (key : VerificationIdentifierKey) : PeerManager :=
  set_links m (<[key := peer_id]> (verification_id_keys_to_peer_ids m)).

(** [remove_peer_id_from_verification_id_key] *)
Definition remove_peer_id_from_verification_id_key (m : PeerManager) (peer_id : PeerId) : PeerManager :=
  set_links m (retain (λ _ id, negb (bool_decide (id = peer_id))) (verification_id_keys_to_peer_ids m)).

(** ** Active peers *)

(** [DashMap::insert] while a guard into the map may be held: it blocks for
    ever when the guard is on the shard of its key. *)
Definition guarded_insert {A} (guard : option PeerId) (k : PeerId) (v : A) (m : gmap PeerId A)
    : option (gmap PeerId A) :=
  if bool_decide (guard = Some k) then None else Some (<[k := v]> m).

(** [update_peer], with the guard its caller holds *)
Definition update_peer_guarded (guard : option PeerId) (now : Z) (m : PeerManager) (peer_id : PeerId)
    (info : PeerInfo) : option PeerManager :=
  let info := mkPeerInfo (addresses info) (identify_info info) now (ping_latency info)
                (successes info) (failures info) (average_response_time info) in
  ps ← guarded_insert guard peer_id info (peers m);
  Some (emit (set_peers m ps) (PeerUpdated peer_id info)).

(** [update_peer], called without a guard: it returns *)
Definition update_peer (now : Z) (m : PeerManager) (peer_id : PeerId) (info : PeerInfo) : PeerManager :=
  default m (update_peer_guarded None now m peer_id info).

(** [remove_peer] *)
Definition remove_peer (m : PeerManager) (peer_id : PeerId) (reason : string) : PeerManager :=
  match peers m !! peer_id with
  | Some _ => emit (set_peers m (delete peer_id (peers m))) (PeerRemoved peer_id reason)
  | None => m
  end.

(** [verify_peer] and [is_peer_verified] *)
Definition verify_peer (m : PeerManager) (peer_id : PeerId) : PeerManager :=
  mkPeerManager (peers m) ({[peer_id]} ∪ verified_peers m) (verification_id_keys_to_peer_ids m)
    (banned_peers m) (whitelisted_keys m) (events m).

Definition is_peer_verified (m : PeerManager) (peer_id : PeerId) : bool :=
  bool_decide (peer_id ∈ verified_peers m).

(** [get_peer_info], [get_peers] and [peer_count] *)
Definition get_peer_info (m : PeerManager) (peer_id : PeerId) : option PeerInfo := peers m !! peer_id.

Definition get_peers (m : PeerManager) : gmap PeerId PeerInfo := peers m.

Definition peer_count (m : PeerManager) : nat := size (peers m).

Definition ALPHA : Z := 5.

(** The average [update_average_time] stores *)
Definition next_average (average : option Duration) (duration : Duration) : Duration :=
  match average with
  | None => duration
  | Some avg =>
      if duration <? avg then avg - (avg - duration) / ALPHA
      else avg + (duration - avg) / ALPHA
  end.

(** [update_average_time] *)
Definition update_average_time (info : PeerInfo) (duration : Duration) : PeerInfo :=
  mkPeerInfo (addresses info) (identify_info info) (last_seen info) (ping_latency info)
    (successes info) (failures info) (Some (next_average (average_response_time info) duration)).

(** [log_success] and [log_failure]: the guard of [get_mut] is alive during
    the call of [update_peer]; [None] is a call that never returns. *)
Definition log_success (now : Z) (m : PeerManager) (peer_id : PeerId) (duration : Duration)
    : option PeerManager :=
  match peers m !! peer_id with
  | Some info =>
      let info := mkPeerInfo (addresses info) (identify_info info) (last_seen info) (ping_latency info)
                    (u32_wrap (successes info + 1)) (failures info) (average_response_time info) in
      let info := update_average_time info duration in
      update_peer_guarded (Some peer_id) now (set_peers m (<[peer_id := info]> (peers m))) peer_id info
  | None => Some m
  end.

Definition log_failure (now : Z) (m : PeerManager) (peer_id : PeerId) (duration : Duration)
    : option PeerManager :=
  match peers m !! peer_id with
  | Some info =>
      let info := mkPeerInfo (addresses info) (identify_info info) (last_seen info) (ping_latency info)
                    (successes info) (u32_wrap (failures info + 1)) (average_response_time info) in
      let info := update_average_time info duration in
      update_peer_guarded (Some peer_id) now (set_peers m (<[peer_id := info]> (peers m))) peer_id info
  | None => Some m
  end.

(** ** Bans *)

(** [ban_peer] *)
Definition ban_peer (now : Instant) (m : PeerManager) (peer_id : PeerId) (reason : string)
    (duration : option Duration) : PeerManager :=
  let expires_at := (λ d, now + d) <$> duration in
  let m := remove_peer m peer_id "banned" in
  let m := set_banned m (<[peer_id := expires_at]> (banned_peers m)) in
  emit m (PeerBanned peer_id reason expires_at).

(** [ban_peer_with_default_duration] *)
Definition ban_peer_with_default_duration (now : Instant) (m : PeerManager) (peer : PeerId)
    (reason : string) : PeerManager :=
  ban_peer now m peer reason (Some (from_secs (60 * 60))).

(** [unban_peer] *)
Definition unban_peer (m : PeerManager) (peer_id : PeerId) : PeerManager :=
  match banned_peers m !! peer_id with
  | Some _ => emit (set_banned m (delete peer_id (banned_peers m))) (PeerUnbanned peer_id)
  | None => m
  end.

(** A ban that has run out at [now] *)
Definition ban_expired (now : Instant) (expires_at : option Instant) : bool :=
  match expires_at with Some expiry => expiry <=? now | None => false end.

(** [is_banned] *)
Definition is_banned (now : Instant) (m : PeerManager) (peer_id : PeerId) : bool * PeerManager :=
  match banned_peers m !! peer_id with
  | Some entry =>
      if ban_expired now entry then (false, set_banned m (delete peer_id (banned_peers m)))
      else (true, m)
  | None => (false, m)
  end.

(** One round of [run_ban_cleanup] *)
Definition ban_cleanup (now : Instant) (m : PeerManager) : PeerManager :=
  let to_unban := (filter (λ e, ban_expired now e.2 = true) (map_to_list (banned_peers m))).*1 in
  foldl unban_peer m to_unban.

(** [handle_nonwhitelisted_peer] *)
Definition handle_nonwhitelisted_peer (now : Instant) (m : PeerManager) (peer : PeerId) : PeerManager :=
  ban_peer now (remove_peer m peer "non-whitelisted") peer "non-whitelisted" None.

(** ** Sequences of operations *)

Inductive PeerOp :=
| OpUpdate (wall : Z) (peer_id : PeerId) (info : PeerInfo)
| OpRemove (peer_id : PeerId) (reason : string)
| OpVerify (peer_id : PeerId)
| OpBan (now : Instant) (peer_id : PeerId) (reason : string) (duration : option Duration)
| OpUnban (peer_id : PeerId)
| OpIsBanned (now : Instant) (peer_id : PeerId)
| OpBanCleanup (now : Instant)
| OpNonWhitelisted (now : Instant) (peer_id : PeerId)
| OpLink (peer_id : PeerId) (key : VerificationIdentifierKey)
| OpUnlink (peer_id : PeerId)
| OpAllowedKeys (keys : AllowedKeys).

Definition run_op (m : PeerManager) (op : PeerOp) : PeerManager :=
  match op with
  | OpUpdate wall id info => update_peer wall m id info
  | OpRemove id reason => remove_peer m id reason
  | OpVerify id => verify_peer m id
  | OpBan now id reason d => ban_peer now m id reason d
  | OpUnban id => unban_peer m id
  | OpIsBanned now id => (is_banned now m id).2
  | OpBanCleanup now => ban_cleanup now m
  | OpNonWhitelisted now id => handle_nonwhitelisted_peer now m id
  | OpLink id key => link_peer_id_to_verification_id_key m id key
  | OpUnlink id => remove_peer_id_from_verification_id_key m id
  | OpAllowedKeys keys => update_allowed_keys m keys
  end.

Definition run_ops (m : PeerManager) (ops : list PeerOp) : PeerManager := foldl run_op m ops.

(** An operation that reads the monotonic clock no later than [now]. *)
Definition op_by (now : Instant) (op : PeerOp) : Prop :=
  match op with
  | OpBan t _ _ _ | OpIsBanned t _ | OpBanCleanup t | OpNonWhitelisted t _ => t ≤ now
  | _ => True
  end.

(** An operation that neither bans nor unbans [p]. *)
Definition op_spares (p : PeerId) (op : PeerOp) : Prop :=
  match op with
  | OpBan _ id _ _ | OpUnban id | OpNonWhitelisted _ id => id ≠ p
  | _ => True
  end.

Lemma remove_peer_banned m id r : banned_peers (remove_peer m id r) = banned_peers m.
Proof. unfold remove_peer. by destruct (peers m !! id). Qed.

Lemma unban_peer_banned m id : banned_peers (unban_peer m id) = delete id (banned_peers m).
Proof.
  unfold unban_peer. destruct (banned_peers m !! id) eqn:E; [done|]. by rewrite delete_id.
Qed.

Lemma unban_all_lookup l m p :
  banned_peers (foldl unban_peer m l) !! p = if decide (p ∈ l) then None else banned_peers m !! p.
Proof.
  revert m. induction l as [|id l IH]; intros m; cbn [foldl]; [by rewrite decide_False by set_solver|].
  rewrite IH, unban_peer_banned. destruct (decide (p ∈ l)); [by rewrite decide_True by set_solver|].
  destruct (decide (id = p)) as [->|].
  - by rewrite lookup_delete_eq, decide_True by set_solver.
  - by rewrite lookup_delete_ne, decide_False by set_solver.
Qed.

Lemma ban_cleanup_lookup now m p :
  banned_peers (ban_cleanup now m) !! p =
  match banned_peers m !! p with
  | Some e => if ban_expired now e then None else Some e
  | None => None
  end.
Proof.
  unfold ban_cleanup. rewrite unban_all_lookup.
  assert (p ∈ (filter (λ e, ban_expired now e.2 = true) (map_to_list (banned_peers m))).*1 ↔
          ∃ e, banned_peers m !! p = Some e ∧ ban_expired now e = true) as Hin.
  { rewrite list_elem_of_fmap. setoid_rewrite list_elem_of_filter. split.
    - intros ([p' e] & -> & He & Hin%elem_of_map_to_list). eauto.
    - intros (e & He & Hx). exists (p, e). by rewrite elem_of_map_to_list. }
  case_decide as Hd; rewrite Hin in Hd; [by destruct Hd as (e & -> & ->)|].
  destruct (banned_peers m !! p) as [e|] eqn:E; [|done].
  destruct (ban_expired now e) eqn:Hx; [|done]. destruct Hd; eauto.
Qed.

(** The answer of [is_banned] *)
Lemma is_banned_spec now m p :
  (is_banned now m p).1 =
  match banned_peers m !! p with Some e => negb (ban_expired now e) | None => false end.
Proof. unfold is_banned. destruct (banned_peers m !! p) as [e|]; [|done]. by destruct (ban_expired now e). Qed.

Lemma ban_expired_mono t now e : t ≤ now → ban_expired t e = true → ban_expired now e = true.
Proof. destruct e as [x|]; simpl; [|done]. rewrite !Z.leb_le. lia. Qed.

Lemma is_banned_lookup t m q p :
  banned_peers (is_banned t m q).2 !! p =
  match banned_peers m !! p with
  | Some e => if bool_decide (p = q) && ban_expired t e then None else Some e
  | None => None
  end.
Proof.
  unfold is_banned. destruct (decide (p = q)) as [->|Hne].
  - rewrite bool_decide_true by done. destruct (banned_peers m !! q) as [e|] eqn:E; [|simpl; by rewrite E].
    destruct (ban_expired t e); simpl; [by rewrite lookup_delete_eq|by rewrite E].
  - rewrite bool_decide_false by done. destruct (banned_peers m !! q) as [e|] eqn:E.
    + destruct (ban_expired t e); simpl; [rewrite lookup_delete_ne by congruence|];
        by destruct (banned_peers m !! p).
    + simpl. by destruct (banned_peers m !! p).
Qed.

(** Bookkeeping never changes whether a peer counts as banned. *)
Lemma run_op_ban now m op p :
  op_by now op → op_spares p op →
  (is_banned now (run_op m op) p).1 = (is_banned now m p).1.
Proof.
  rewrite !is_banned_spec. destruct op; simpl; intros Hby Hsp; try done.
  - by rewrite remove_peer_banned.
  - by rewrite lookup_insert_ne, remove_peer_banned by done.
  - by rewrite unban_peer_banned, lookup_delete_ne by done.
  - rewrite is_banned_lookup. destruct (banned_peers m !! p) as [e|]; [|done].
    destruct (bool_decide _); [|done]. simpl. destruct (ban_expired now0 e) eqn:E; [|done].
    by rewrite (ban_expired_mono now0 now).
  - rewrite ban_cleanup_lookup. destruct (banned_peers m !! p) as [e|]; [|done].
    destruct (ban_expired now0 e) eqn:E; [|done]. by rewrite (ban_expired_mono now0 now).
  - by rewrite lookup_insert_ne, !remove_peer_banned by done.
Qed.

(** A ban lasts exactly as long as it says: whatever else the manager does
    meanwhile, a peer banned at [now0] is reported as banned until its
    duration is over and not afterwards, and for ever without a duration. *)
Theorem ban_lasts now0 m p reason duration ops now :
  Forall (λ op, op_by now op ∧ op_spares p op) ops →
  (is_banned now (run_ops (ban_peer now0 m p reason duration) ops) p).1 =
  match duration with Some d => now <? now0 + d | None => true end.
Proof.
  intros Hops.
  assert ((is_banned now (ban_peer now0 m p reason duration) p).1 =
          match duration with Some d => now <? now0 + d | None => true end) as Hb.
  { rewrite is_banned_spec. simpl. rewrite lookup_insert_eq.
    destruct duration as [d|]; simpl; [|done]. by rewrite <-Z.ltb_antisym. }
  rewrite <-Hb. clear Hb. generalize (ban_peer now0 m p reason duration).
  induction Hops as [|op ops [H1 H2] _ IH]; intros m'; [done|].
  unfold run_ops in *. cbn [foldl]. by rewrite IH, run_op_ban.
Qed.

(** ** The subscriber's view *)

Definition apply_event (s : gmap PeerId PeerInfo * gmap PeerId (option Instant)) (ev : PeerEvent) :=
  match ev with
  | PeerUpdated id info => (<[id := info]> s.1, s.2)
  | PeerRemoved id _ => (delete id s.1, s.2)
  | PeerBanned id _ e => (s.1, <[id := e]> s.2)
  | PeerUnbanned id => (s.1, delete id s.2)
  end.

(** What a subscriber that saw every event knows. *)
Definition replay (evs : list PeerEvent) := foldl apply_event (∅, ∅) evs.

(** The view is exact on peers, and on bans but for some that have run out. *)
Record view_ok (now : Instant) (m : PeerManager) : Prop := {
  vo_peers : (replay (events m)).1 = peers m;
  vo_banned p e : banned_peers m !! p = Some e → (replay (events m)).2 !! p = Some e;
  vo_extra p e : (replay (events m)).2 !! p = Some e → banned_peers m !! p = None → ban_expired now e = true;
}.

Lemma replay_snoc evs ev : replay (evs ++ [ev]) = apply_event (replay evs) ev.
Proof. unfold replay. by rewrite foldl_app. Qed.

Lemma remove_peer_view now m id r : view_ok now m → view_ok now (remove_peer m id r).
Proof.
  intros [H1 H2 H3]. unfold remove_peer. destruct (peers m !! id); [|done].
  split; simpl; rewrite ?replay_snoc; simpl; [by rewrite H1|apply H2|apply H3].
Qed.

Lemma update_peer_view now wall m id info : view_ok now m → view_ok now (update_peer wall m id info).
Proof.
  intros [H1 H2 H3]. split; simpl; rewrite ?replay_snoc; simpl; [by rewrite H1|apply H2|apply H3].
Qed.

Lemma ban_peer_view now t m id r d : view_ok now m → view_ok now (ban_peer t m id r d).
Proof.
  intros [H1 H2 H3]%(remove_peer_view now m id "banned").
  split; simpl; rewrite ?replay_snoc; simpl; [by rewrite H1|intros p e|intros p e];
    (destruct (decide (id = p)) as [->|]; [by rewrite !lookup_insert_eq|rewrite !lookup_insert_ne by done]).
  - apply H2.
  - apply H3.
Qed.

Lemma unban_peer_view now m id : view_ok now m → view_ok now (unban_peer m id).
Proof.
  intros [H1 H2 H3]. unfold unban_peer. destruct (banned_peers m !! id) eqn:E; [|done].
  split; simpl; rewrite ?replay_snoc; simpl; [by rewrite H1|intros p e|intros p e];
    (destruct (decide (id = p)) as [->|]; [by rewrite !lookup_delete_eq|rewrite !lookup_delete_ne by done]).
  - apply H2.
  - apply H3.
Qed.

Lemma is_banned_view now t m q : t ≤ now → view_ok now m → view_ok now (is_banned t m q).2.
Proof.
  intros Ht [H1 H2 H3].
  assert (events (is_banned t m q).2 = events m ∧ peers (is_banned t m q).2 = peers m) as [He Hp].
  { unfold is_banned. destruct (banned_peers m !! q) as [e|]; [|done]. by destruct (ban_expired t e). }
  split; rewrite ?He, ?Hp; [done|intros p e|intros p e]; rewrite is_banned_lookup.
  - destruct (banned_peers m !! p) as [e'|] eqn:E; [|done].
    destruct (bool_decide _ && _); [done|]. intros [= ->]. by apply H2.
  - intros Hr. destruct (banned_peers m !! p) as [e'|] eqn:E; [|intros _; by eapply H3].
    destruct (bool_decide _ && ban_expired t e') eqn:Hx; [|done]. intros _.
    apply andb_true_iff in Hx as [_ Hx]. pose proof (H2 _ _ E). simplify_eq.
    by eapply ban_expired_mono.
Qed.

Lemma run_op_view now m op : op_by now op → view_ok now m → view_ok now (run_op m op).
Proof.
  intros Hby Hv. destruct op; simpl in *.
  - by apply update_peer_view.
  - by apply remove_peer_view.
  - by destruct Hv.
  - by apply ban_peer_view.
  - by apply unban_peer_view.
  - by apply is_banned_view.
  - unfold ban_cleanup. generalize (filter (λ e, ban_expired now0 e.2 = true)
      (map_to_list (banned_peers m))).*1. intros l. revert m Hv.
    induction l as [|id l IH]; intros m Hv; [done|]. by apply IH, unban_peer_view.
  - by apply ban_peer_view, remove_peer_view.
  - by destruct Hv.
  - by destruct Hv.
  - by destruct Hv.
Qed.

(** A subscriber that receives every event knows the active peers exactly, and
    every ban; it may still list a ban that ran out and was dropped silently,
    and no other. *)
Theorem events_describe_state keys ops now :
  Forall (op_by now) ops →
  let m := run_ops (peer_manager_new keys) ops in
  (replay (events m)).1 = peers m ∧
  (∀ p e, banned_peers m !! p = Some e → (replay (events m)).2 !! p = Some e) ∧
  (∀ p e, (replay (events m)).2 !! p = Some e → banned_peers m !! p = None → ban_expired now e = true).
Proof.
  intros Hops m. assert (view_ok now m) as [H1 H2 H3]; [|done].
  subst m. assert (view_ok now (peer_manager_new keys)) as Hv by (by split).
  revert Hv. generalize (peer_manager_new keys). unfold run_ops.
  induction Hops as [|op ops H _ IH]; intros m Hv; [done|]. by apply IH, run_op_view.
Qed.

(** ** Whitelist indices *)

Lemma position_Some {A} (f : A → bool) l i :
  position f l = Some i ↔
  (∃ x, l !! i = Some x ∧ f x = true) ∧ ∀ j y, (j < i)%nat → l !! j = Some y → f y = false.
Proof.
  revert i. induction l as [|x l IH]; intros i; simpl; [naive_solver|].
  destruct (f x) eqn:Hx.
  - split.
    + intros [= <-]. split; [eauto|lia].
    + intros [_ H]. destruct i as [|i]; [done|]. specialize (H O x ltac:(lia) eq_refl). congruence.
  - rewrite fmap_Some. setoid_rewrite IH. split.
    + intros (k & [Hk Hlt] & ->). split; [done|]. intros [|j] y Hj Hy; simpl in Hy; [congruence|].
      apply (Hlt j); [lia|done].
    + destruct i as [|i]; intros [(y & Hy & Hfy) Hlt]; simpl in *; [congruence|].
      exists i. split; [|done]. split; [eauto|]. intros j z Hj Hz. apply (Hlt (S j)); [lia|done].
Qed.

(** The keys come from a hash set: no key is listed twice. *)
Definition allowed_ok (keys : AllowedKeys) : Prop := NoDup (allowed_to_keys keys).

Definition op_allowed_ok (op : PeerOp) : Prop :=
  match op with OpAllowedKeys keys => allowed_ok keys | _ => True end.

Lemma run_op_whitelist m op :
  op_allowed_ok op → NoDup (whitelisted_keys m) → NoDup (whitelisted_keys (run_op m op)).
Proof.
  intros Hop Hm.
  assert (∀ m id r, whitelisted_keys (remove_peer m id r) = whitelisted_keys m) as Hr.
  { intros m' id r. unfold remove_peer. by destruct (peers m' !! id). }
  assert (∀ m id, whitelisted_keys (unban_peer m id) = whitelisted_keys m) as Hu.
  { intros m' id. unfold unban_peer. by destruct (banned_peers m' !! id). }
  destruct op; simpl; rewrite ?Hr, ?Hu; try done.
  - unfold is_banned. destruct (banned_peers m !! peer_id) as [e|]; [|done]. by destruct (ban_expired now e).
  - unfold ban_cleanup. generalize (filter (λ e, ban_expired now e.2 = true)
      (map_to_list (banned_peers m))).*1. intros l. clear Hop. revert m Hm.
    induction l as [|id l IH]; intros m Hm; [done|]. apply IH. by rewrite Hu.
Qed.

(** Keys and whitelist indices determine each other, and so do peers and
    indices as long as no peer is linked to two keys. *)
Theorem whitelist_index_round_trip keys ops :
  allowed_ok keys → Forall op_allowed_ok ops →
  let m := run_ops (peer_manager_new keys) ops in
  (∀ key i, get_key_position_in_whitelist m key = Some i ↔ get_key_from_whitelist_index m i = Some key) ∧
  (∀ key, is_key_whitelisted m key = true ↔ is_Some (get_key_position_in_whitelist m key)) ∧
  ((∀ k1 k2 p, verification_id_keys_to_peer_ids m !! k1 = Some p →
               verification_id_keys_to_peer_ids m !! k2 = Some p → k1 = k2) →
   ∀ p i, get_whitelist_index_from_peer_id m p = Some i ↔ get_peer_id_from_whitelist_index m i = Some p).
Proof.
  intros Hk Hops m. assert (NoDup (whitelisted_keys m)) as Hnd.
  { subst m. assert (NoDup (whitelisted_keys (peer_manager_new keys))) as Hm by done.
    revert Hm. generalize (peer_manager_new keys). unfold run_ops.
    induction Hops as [|op ops H _ IH]; intros m Hm; [done|]. by apply IH, run_op_whitelist. }
  assert (∀ key i, get_key_position_in_whitelist m key = Some i ↔
                   whitelisted_keys m !! i = Some key) as Hpos.
  { intros key i. unfold get_key_position_in_whitelist. rewrite position_Some. split.
    - intros [(x & Hx & ->%bool_decide_eq_true) _]. done.
    - intros Hi. split; [exists key; by rewrite bool_decide_true|].
      intros j y Hj Hy. apply bool_decide_eq_false. intros ->.
      pose proof (NoDup_lookup _ _ _ _ Hnd Hi Hy). lia. }
  split; [done|]. split.
  - intros key. unfold is_key_whitelisted. rewrite bool_decide_eq_true, list_elem_of_lookup.
    unfold is_Some. by setoid_rewrite Hpos.
  - intros Hinj p i. unfold get_whitelist_index_from_peer_id, get_peer_id_from_whitelist_index,
      get_peer_id_from_verification_id_key. rewrite position_Some, bind_Some. split.
    + intros [(x & Hx & Hp%bool_decide_eq_true) _]. eauto.
    + intros (x & Hx & Hp). split; [exists x; by rewrite bool_decide_true|].
      intros j y Hj Hy. apply bool_decide_eq_false. intros Hy'.
      pose proof (Hinj _ _ _ Hp Hy') as ->. pose proof (NoDup_lookup _ _ _ _ Hnd Hx Hy). lia.
Qed.

(** The indices depend on the order in which the hash set of allowed keys is
    iterated: two nodes with the same set may number the same key differently. *)
Theorem whitelist_order_unstable k1 k2 :
  k1 ≠ k2 →
  [k1; k2] ≡ₚ [k2; k1] ∧
  get_key_position_in_whitelist (peer_manager_new (InstancePublicKeys [k1; k2])) (InstancePublicKey k1) = Some O ∧
  get_key_position_in_whitelist (peer_manager_new (InstancePublicKeys [k2; k1])) (InstancePublicKey k1) = Some 1%nat.
Proof.
  intros Hne. split; [apply Permutation_swap|]. unfold get_key_position_in_whitelist. simpl.
  by rewrite !(bool_decide_true (InstancePublicKey k1 = _)), bool_decide_false by congruence.
Qed.

(** ** Response times *)

(** The moving average lies between its previous value and the new sample, and
    covers a fifth of the distance, rounded down. *)
Theorem average_between avg d :
  Z.min avg d ≤ next_average (Some avg) d ≤ Z.max avg d ∧
  Z.abs (next_average (Some avg) d - avg) = Z.abs (d - avg) / ALPHA.
Proof.
  unfold next_average, ALPHA. destruct (Z.ltb_spec d avg).
  - replace (Z.abs (d - avg)) with (avg - d) by lia. div_lia.
  - replace (Z.abs (d - avg)) with (d - avg) by lia. div_lia.
Qed.

(** Logging an interaction with a known peer never returns: the entry is
    locked while the same entry is written. *)
Theorem log_blocks now m p d :
  (log_success now m p d = None ↔ is_Some (get_peer_info m p)) ∧
  (log_failure now m p d = None ↔ is_Some (get_peer_info m p)).
Proof.
  unfold log_success, log_failure, update_peer_guarded, guarded_insert, get_peer_info.
  destruct (peers m !! p); rewrite ?bool_decide_true by done; simpl;
    (split; split; [|done..|]); try done; intros [? ?]; done.
Qed.

End peers.

(** ** Instances and concrete runs *)

(** Keys are numbers, a signature is the key followed by the message. *)
Definition toy_keys : KeyType := {|
  kt_public := Z; kt_secret := Z; kt_signature := list Z;
  kt_public_from_secret sk := sk;
  kt_sign_with_secret sk m := Ok (sk :: m);
  kt_verify pk m s := bool_decide (s = pk :: m);
  kt_public_to_bytes pk := [2; pk];
  kt_signature_to_bytes s := s;
  kt_signature_from_bytes bs := Ok bs;
|}.

Definition toy_libp2p : Libp2p := {|
  multiaddr := Z; identify_info_ty := unit; peer_id_to_bytes p := [p];
|}.

#[local] Existing Instance toy_keys.
#[local] Existing Instance toy_libp2p.

Definition demo_manager : PeerManager :=
  update_peer 0 (peer_manager_new (InstancePublicKeys [11; 12; 13])) 7 (PeerInfo_default 0).

Definition demo_ops : list PeerOp :=
  [OpUpdate 3 8 (PeerInfo_default 0); OpLink 8 (InstancePublicKey 12); OpBan 2 9 "spam" (Some 3);
   OpIsBanned 6 9; OpBanCleanup 7; OpNonWhitelisted 8 8].

Lemma ban_lasts_witness :
  (is_banned 9 (run_ops (ban_peer 1 demo_manager 7 "test" (Some 10)) demo_ops) 7).1 = (9 <? 1 + 10).
Proof.
  apply (ban_lasts 1 demo_manager 7 "test" (Some 10) demo_ops 9).
  repeat (apply Forall_cons; split; [split; simpl; first [exact I|lia|discriminate]|]). apply Forall_nil_2.
Defined.

Lemma events_describe_state_witness :
  let m := run_ops (peer_manager_new (InstancePublicKeys [11; 12])) demo_ops in
  (replay (events m)).1 = peers m.
Proof.
  refine (proj1 (events_describe_state (InstancePublicKeys [11; 12]) demo_ops 9 _)).
  repeat (apply Forall_cons; split; [simpl; first [exact I|lia]|]). apply Forall_nil_2.
Defined.

Lemma whitelist_index_round_trip_witness :
  get_key_position_in_whitelist (run_ops (peer_manager_new (InstancePublicKeys [11; 12])) demo_ops)
    (InstancePublicKey 12) = Some 1%nat.
Proof.
  apply (whitelist_index_round_trip (K := toy_keys) (L := toy_libp2p) (InstancePublicKeys (K := toy_keys) [11; 12]) demo_ops); [|repeat constructor|reflexivity].
  apply (bool_decide_unpack _). vm_compute. exact I.
Defined.

Lemma whitelist_order_unstable_witness :
  get_key_position_in_whitelist (peer_manager_new (InstancePublicKeys [12; 11])) (InstancePublicKey 11) = Some 1%nat.
Proof. apply (whitelist_order_unstable (K := toy_keys) (L := toy_libp2p) 11 12). discriminate. Defined.
