(* ===== verification/Handshake.v ===== *)
(** * The blueprint protocol: handshakes, rate limits and delivery

    Models [src/crates/networking/src/blueprint_protocol]: the messages of
    [mod.rs], the behaviour of [behaviour.rs] and the event handlers of
    [handler.rs], over the peer manager of [PeerManager].  The [libp2p]
    behaviours below it are the requests and responses handed to them; a
    response channel knows whether it is still open.  Every clock reading of a
    handler is an argument.  The codec of protocol messages ([bincode]) is a
    parameter.  A panic is [None]. *)

From S2P Require Import Prelude Bytes PeerManager.
From Stdlib Require Import ZArith Lia.
From stdpp Require Import base gmap sets list sorting strings fin_maps numbers relations.

#[local] Open Scope Z_scope.

(** ** Messages *)

Record HandshakeMessage := mkHandshakeMessage { hs_sender : PeerId; hs_timestamp : Z }.

(** [HandshakeMessage::MAX_AGE], in milliseconds *)
Definition MAX_AGE : Z := 30000.

(** [HandshakeMessage::new], at [now] milliseconds after the epoch *)
Definition handshake_message_new (now : Z) (sender : PeerId) : HandshakeMessage :=
  mkHandshakeMessage sender now.

(** [HandshakeMessage::is_expired]: [saturating_sub] on [u128] *)
Definition handshake_is_expired (now : Z) (msg : HandshakeMessage) (max_age : Z) : bool :=
  max_age <? Z.max 0 (now - hs_timestamp msg).

(** [HandshakeMessage::to_bytes] *)
Definition handshake_to_bytes `{L : Libp2p} (msg : HandshakeMessage) (other : PeerId) : list Byte8 :=
  peer_id_to_bytes (hs_sender msg) ++ peer_id_to_bytes other ++ to_be_bytes 16 (hs_timestamp msg).

Record MessageRouting := mkRouting {
  message_id : Z;
  round_id : Z;
  routing_sender : PeerId;
  recipient : option PeerId;
}.

Record ProtocolMessage := mkProtocolMessage {
  pm_protocol : string;
  pm_routing : MessageRouting;
  pm_payload : list Byte8;
}.

Section behaviour.
Context {K : KeyType} {C : EvmCrypto} {L : Libp2p}.

Inductive InstanceMessageRequest :=
| HandshakeRequest (key : VerificationIdentifierKey) (signature : kt_signature) (msg : HandshakeMessage)
| ProtocolRequest (protocol : string) (payload : list Byte8) (metadata : option (list Byte8)).

Inductive InstanceMessageResponse :=
| HandshakeResponse (key : VerificationIdentifierKey) (signature : kt_signature) (msg : HandshakeMessage)
| SuccessResponse (protocol : string) (data : option (list Byte8))
| ErrorResponse (code : Z) (message : string).

(** The codec, and the [{:?}] form of a response. *)
Class Wire := {
  decode_protocol_message : list Byte8 → result string ProtocolMessage;
  debug_response : InstanceMessageResponse → string;
}.
Context {W : Wire}.

(** [ResponseChannel]: where the response goes, and whether it is still open *)
Record ResponseChannel := mkChannel { channel_peer : PeerId; channel_open : bool }.

Record BlueprintProtocolBehaviour := mkBehaviour {
  requests : list (PeerId * InstanceMessageRequest);
  responses : list (PeerId * InstanceMessageResponse);
  explicit_peers : gset PeerId;
  blueprint_protocol_name : string;
  peer_manager : PeerManager;
  local_peer_id : PeerId;
  instance_key_pair : kt_secret;
  inbound_handshakes : gmap PeerId Instant;
  outbound_handshakes : gmap PeerId Instant;
  delivered : list ProtocolMessage;      (** what went through [protocol_message_sender] *)
  receiver_alive : bool;
  use_address_for_handshake_verification : bool;
  peer_request_rates : gmap PeerId (Instant * Z);
  peer_rate_cleanup : Instant;
}.

(** [BlueprintProtocolBehaviour::new] *)
Definition behaviour_new (now : Instant) (local : PeerId) (secret : kt_secret) (manager : PeerManager)
    (name : string) (use_address : bool) : BlueprintProtocolBehaviour :=
  mkBehaviour [] [] ∅ name manager local secret ∅ ∅ [] true use_address ∅ now.

(** Field updates *)
Definition set_manager (b : BlueprintProtocolBehaviour) (m : PeerManager) :=
  mkBehaviour (requests b) (responses b) (explicit_peers b) (blueprint_protocol_name b) m
    (local_peer_id b) (instance_key_pair b) (inbound_handshakes b) (outbound_handshakes b)
    (delivered b) (receiver_alive b) (use_address_for_handshake_verification b)
    (peer_request_rates b) (peer_rate_cleanup b).
Definition set_handshakes (b : BlueprintProtocolBehaviour) (inb outb : gmap PeerId Instant) :=
  mkBehaviour (requests b) (responses b) (explicit_peers b) (blueprint_protocol_name b) (peer_manager b)
    (local_peer_id b) (instance_key_pair b) inb outb
    (delivered b) (receiver_alive b) (use_address_for_handshake_verification b)
    (peer_request_rates b) (peer_rate_cleanup b).
Definition set_rates (b : BlueprintProtocolBehaviour) (rates : gmap PeerId (Instant * Z)) (cleanup : Instant) :=
  mkBehaviour (requests b) (responses b) (explicit_peers b) (blueprint_protocol_name b) (peer_manager b)
    (local_peer_id b) (instance_key_pair b) (inbound_handshakes b) (outbound_handshakes b)
    (delivered b) (receiver_alive b) (use_address_for_handshake_verification b) rates cleanup.
Definition set_io (b : BlueprintProtocolBehaviour) (reqs : list (PeerId * InstanceMessageRequest))
    (resps : list (PeerId * InstanceMessageResponse)) (expl : gset PeerId) (msgs : list ProtocolMessage) :=
  mkBehaviour reqs resps expl (blueprint_protocol_name b) (peer_manager b)
    (local_peer_id b) (instance_key_pair b) (inbound_handshakes b) (outbound_handshakes b)
    msgs (receiver_alive b) (use_address_for_handshake_verification b)
    (peer_request_rates b) (peer_rate_cleanup b).

(** [send_request] *)
Definition send_request (b : BlueprintProtocolBehaviour) (peer : PeerId) (request : InstanceMessageRequest)
    : BlueprintProtocolBehaviour :=
  set_io b (requests b ++ [(peer, request)]) (responses b) (explicit_peers b) (delivered b).

(** [send_response]: a closed channel gives the response back *)
Definition send_response (b : BlueprintProtocolBehaviour) (channel : ResponseChannel)
    (response : InstanceMessageResponse)
    : result InstanceMessageResponse unit * BlueprintProtocolBehaviour :=
  if channel_open channel then
    (Ok tt, set_io b (requests b) (responses b ++ [(channel_peer channel, response)])
              (explicit_peers b) (delivered b))
  else (Err response, b).

(** [protocol_message_sender.send], whose failure is only logged *)
Definition deliver (b : BlueprintProtocolBehaviour) (msg : ProtocolMessage) : BlueprintProtocolBehaviour :=
  if receiver_alive b then
    set_io b (requests b) (responses b) (explicit_peers b) (delivered b ++ [msg])
  else b.

(** ** Handshakes *)

(** [sign_handshake] *)
Definition sign_handshake (key_pair : kt_secret) (peer : PeerId) (msg : HandshakeMessage)
    : option kt_signature :=
  result_ok (kt_sign_with_secret key_pair (handshake_to_bytes msg peer)).

(** [send_handshake], at [now] milliseconds after the epoch; the address of an
    unparsable key panics *)
Definition send_handshake (now : Z) (b : BlueprintProtocolBehaviour) (peer : PeerId)
    : option BlueprintProtocolBehaviour :=
  let public_key := kt_public_from_secret (instance_key_pair b) in
  let msg := handshake_message_new now (local_peer_id b) in
  match sign_handshake (instance_key_pair b) peer msg with
  | Some signature =>
      key ← (if use_address_for_handshake_verification b then
               EvmAddress <$> get_address_from_compressed_pubkey (kt_public_to_bytes public_key)
             else Some (InstancePublicKey public_key));
      Some (send_request b peer (HandshakeRequest key signature msg))
  | None => Some b
  end.

(** [verify_handshake] *)
Definition verify_handshake (now : Z) (b : BlueprintProtocolBehaviour) (msg : HandshakeMessage)
    (key : VerificationIdentifierKey) (signature : kt_signature)
    : option (result InstanceMessageResponse unit) :=
  if handshake_is_expired now msg MAX_AGE then
    Some (Err (ErrorResponse 400 "Handshake message expired"))
  else
    valid ← key_verify key (handshake_to_bytes msg (local_peer_id b)) (kt_signature_to_bytes signature);
    Some (valid ← map_err (λ e, ErrorResponse 400 ("Invalid handshake signature: " +:+ e)) valid;
          if negb valid then Err (ErrorResponse 400 "Invalid handshake signature") else Ok tt).

(** [handle_handshake] *)
Definition handle_handshake (now : Z) (b : BlueprintProtocolBehaviour) (msg : HandshakeMessage)
    (key : VerificationIdentifierKey) (signature : kt_signature)
    : option (result InstanceMessageResponse unit * BlueprintProtocolBehaviour) :=
  r ← verify_handshake now b msg key signature;
  Some match r with
       | Ok _ => (Ok tt, set_manager b (link_peer_id_to_verification_id_key (peer_manager b) (hs_sender msg) key))
       | Err e => (Err e, b)
       end.

(** [handle_handshake_failure] *)
Definition handle_handshake_failure (wall : Z) (now : Instant) (b : BlueprintProtocolBehaviour)
    (peer : PeerId) (reason : string) : BlueprintProtocolBehaviour :=
  match get_peer_info (peer_manager b) peer with
  | Some info =>
      let info := mkPeerInfo (addresses info) (identify_info info) (last_seen info) (ping_latency info)
                    (successes info) (u32_wrap (failures info + 1)) (average_response_time info) in
      let m := update_peer wall (peer_manager b) peer info in
      set_manager b (if 3 <=? failures info then ban_peer now m peer reason (Some (from_secs 300)) else m)
  | None => b
  end.

(** [complete_handshake] *)
Definition complete_handshake (b : BlueprintProtocolBehaviour) (peer : PeerId)
    (key : VerificationIdentifierKey) : BlueprintProtocolBehaviour :=
  let b := set_handshakes b (delete peer (inbound_handshakes b)) (delete peer (outbound_handshakes b)) in
  let b := set_manager b (link_peer_id_to_verification_id_key (peer_manager b) peer key) in
  set_manager b (verify_peer (peer_manager b) peer).

Definition INBOUND_HANDSHAKE_TIMEOUT : Duration := from_secs 30.
Definition OUTBOUND_HANDSHAKE_TIMEOUT : Duration := from_secs 30.

(** The pending handshakes older than [timeout] *)
Definition expired_handshakes (now : Instant) (timeout : Duration) (m : gmap PeerId Instant) : list PeerId :=
  (filter (λ e, timeout < elapsed now e.2) (map_to_list m)).*1.

(** [check_expired_handshakes] *)
Definition check_expired_handshakes (now : Instant) (b : BlueprintProtocolBehaviour)
    : BlueprintProtocolBehaviour :=
  set_handshakes b
    (foldl (λ m p, delete p m) (inbound_handshakes b)
       (expired_handshakes now INBOUND_HANDSHAKE_TIMEOUT (inbound_handshakes b)))
    (foldl (λ m p, delete p m) (outbound_handshakes b)
       (expired_handshakes now OUTBOUND_HANDSHAKE_TIMEOUT (outbound_handshakes b))).

(** ** Rate limits *)

Definition RATE_LIMIT_WINDOW : Duration := from_secs 10.
Definition RATE_LIMIT_MAX_REQUESTS : Z := 100.
Definition RATE_CLEANUP_INTERVAL : Duration := from_secs 60.

(** [check_peer_rate_limit] *)
Definition check_peer_rate_limit (now : Instant) (b : BlueprintProtocolBehaviour) (peer : PeerId)
    : bool * BlueprintProtocolBehaviour :=
  let '(rates, cleanup) :=
    if RATE_CLEANUP_INTERVAL <? elapsed now (peer_rate_cleanup b) then
      (retain (λ _ e, elapsed now e.1 <? RATE_LIMIT_WINDOW) (peer_request_rates b), now)
    else (peer_request_rates b, peer_rate_cleanup b) in
  let entry := default (now, 0) (rates !! peer) in
  if RATE_LIMIT_WINDOW <? elapsed now entry.1 then
    (true, set_rates b (<[peer := (now, 1)]> rates) cleanup)
  else
    let count := u32_wrap (entry.2 + 1) in
    (negb (RATE_LIMIT_MAX_REQUESTS <? count), set_rates b (<[peer := (entry.1, count)]> rates) cleanup).

(** ** Event handlers *)

(** The clock readings of one event: wall-clock milliseconds for messages,
    wall-clock time of a peer update, and the monotonic readings. *)
Record HsClocks := mkHsClocks {
  hk_verify : Z;        (** [is_expired] *)
  hk_new : Z;           (** [HandshakeMessage::new] *)
  hk_wall : Z;          (** [update_peer] *)
  hk_insert : Instant;  (** pending handshakes *)
  hk_ban : Instant;
  hk_rate : Instant;
  hk_check : Instant;   (** [check_expired_handshakes] *)
}.

(** The handlers of one arm say whether they fall through to the end of the
    function ([true]) or return before it. *)
Definition flow : Type := bool * BlueprintProtocolBehaviour.

(** The verification key put into a handshake response *)
Definition response_key (b : BlueprintProtocolBehaviour) : VerificationIdentifierKey :=
  let public_key := kt_public_from_secret (instance_key_pair b) in
  if use_address_for_handshake_verification b then
    EvmAddress (drop 12 (keccak_256 (kt_public_to_bytes public_key)))
  else InstancePublicKey public_key.

Definition on_handshake_request (k : HsClocks) (b : BlueprintProtocolBehaviour) (peer : PeerId)
    (channel : ResponseChannel) (key : VerificationIdentifierKey) (signature : kt_signature)
    (msg : HandshakeMessage) : option flow :=
  if negb (is_key_whitelisted (peer_manager b) key) then
    Some (false, set_manager b (handle_nonwhitelisted_peer (hk_ban k) (peer_manager b) peer))
  else
    verified ← verify_handshake (hk_verify k) b msg key signature;
    Some match verified with
    | Ok _ =>
        let b := set_handshakes b (<[peer := hk_insert k]> (inbound_handshakes b)) (outbound_handshakes b) in
        let b := set_manager b (link_peer_id_to_verification_id_key (peer_manager b) peer key) in
        let handshake_msg := handshake_message_new (hk_new k) (local_peer_id b) in
        match sign_handshake (instance_key_pair b) peer handshake_msg with
        | None => (false, b)
        | Some signature =>
            match send_response b channel (HandshakeResponse (response_key b) signature handshake_msg) with
            | (Err _, b) => (false, b)
            | (Ok _, b) => (true, complete_handshake b peer key)
            end
        end
    | Err e =>
        (true, (send_response b channel (ErrorResponse 400 ("Invalid handshake: " +:+ debug_response e))).2)
    end.

Definition on_handshake_response (k : HsClocks) (b : BlueprintProtocolBehaviour) (peer : PeerId)
    (key : VerificationIdentifierKey) (signature : kt_signature) (msg : HandshakeMessage) : option flow :=
  if is_peer_verified (peer_manager b) peer then Some (false, b)
  else
    let b := set_handshakes b (inbound_handshakes b) (delete peer (outbound_handshakes b)) in
    if negb (is_key_whitelisted (peer_manager b) key) then
      Some (false, set_manager b (handle_nonwhitelisted_peer (hk_ban k) (peer_manager b) peer))
    else
      verified ← verify_handshake (hk_verify k) b msg key signature;
      Some match verified with
      | Ok _ => (true, complete_handshake b peer key)
      | Err _ =>
          let b := set_handshakes b (inbound_handshakes b) (delete peer (outbound_handshakes b)) in
          (true, handle_handshake_failure (hk_wall k) (hk_ban k) b peer "Invalid handshake verification")
      end.

Definition on_protocol_request (k : HsClocks) (b : BlueprintProtocolBehaviour) (peer : PeerId)
    (channel : ResponseChannel) (payload : list Byte8) : flow :=
  if bool_decide (peer = local_peer_id b) then (false, b)
  else if negb (is_peer_verified (peer_manager b) peer) then
    (false, (send_response b channel (ErrorResponse 403 "Handshake required")).2)
  else
    match check_peer_rate_limit (hk_rate k) b peer with
    | (false, b) => (false, b)
    | (true, b) =>
        match decode_protocol_message payload with
        | Err e => (false, (send_response b channel (ErrorResponse 400 ("Invalid protocol message: " +:+ e))).2)
        | Ok msg => (true, deliver b msg)
        end
    end.

(** [request_response::Event] *)
Inductive RequestResponseEvent :=
| MessageRequest (peer : PeerId) (request : InstanceMessageRequest) (channel : ResponseChannel)
| MessageResponse (peer : PeerId) (response : InstanceMessageResponse)
| OtherEvent.

(** [handle_request_response_event] *)
Definition handle_request_response_event (k : HsClocks) (b : BlueprintProtocolBehaviour)
    (event : RequestResponseEvent) : option BlueprintProtocolBehaviour :=
  '(through, b) ←
    match event with
    | MessageRequest peer (HandshakeRequest key signature msg) channel =>
        on_handshake_request k b peer channel key signature msg
    | MessageResponse peer (HandshakeResponse key signature msg) =>
        on_handshake_response k b peer key signature msg
    | MessageRequest peer (ProtocolRequest _ payload _) channel =>
        Some (on_protocol_request k b peer channel payload)
    | MessageResponse peer (ErrorResponse _ _) => Some (is_peer_verified (peer_manager b) peer, b)
    | MessageResponse _ (SuccessResponse _ _) | OtherEvent => Some (true, b)
    end;
  Some (if through : bool then check_expired_handshakes (hk_check k) b else b).

(** [gossipsub::Event] *)
Inductive GossipEvent :=
| GossipMessage (propagation_source : PeerId) (data : list Byte8)
| OtherGossip.

(** [handle_gossipsub_event] *)
Definition handle_gossipsub_event (k : HsClocks) (b : BlueprintProtocolBehaviour) (event : GossipEvent)
    : BlueprintProtocolBehaviour :=
  match event with
  | GossipMessage source data =>
      if negb (is_peer_verified (peer_manager b) source) then b
      else
        match check_peer_rate_limit (hk_rate k) b source with
        | (false, b) => b
        | (true, b) =>
            match decode_protocol_message data with Err _ => b | Ok msg => deliver b msg end
        end
  | OtherGossip => b
  end.

(** [FromSwarm] *)
Inductive SwarmEvent :=
| ConnectionEstablished (peer_id : PeerId) (other_established : nat)
| ConnectionClosed (peer_id : PeerId) (remaining_established : nat)
| OtherSwarm.

(** [on_swarm_event] *)
Definition on_swarm_event (k : HsClocks) (b : BlueprintProtocolBehaviour) (event : SwarmEvent)
    : option BlueprintProtocolBehaviour :=
  match event with
  | ConnectionEstablished peer O =>
      b ← (if negb (is_peer_verified (peer_manager b) peer) then
             b ← send_handshake (hk_new k) b peer;
             Some (set_handshakes b (inbound_handshakes b) (<[peer := hk_insert k]> (outbound_handshakes b)))
           else Some b);
      Some (set_io b (requests b) (responses b) ({[peer]} ∪ explicit_peers b) (delivered b))
  | ConnectionClosed peer O =>
      let b := set_handshakes b (delete peer (inbound_handshakes b)) (delete peer (outbound_handshakes b)) in
      let b := if is_peer_verified (peer_manager b) peer
               then set_manager b (remove_peer (peer_manager b) peer "connection closed") else b in
      let b := set_io b (requests b) (responses b) (explicit_peers b ∖ {[peer]}) (delivered b) in
      Some (set_manager b (remove_peer_id_from_verification_id_key (peer_manager b) peer))
  | _ => Some b
  end.

(** ** The rate limit *)

(** The times at which a sequence of calls accepts a request of [p]. *)
Fixpoint accepted_times (p : PeerId) (b : BlueprintProtocolBehaviour) (calls : list (Instant * PeerId))
    : list Instant :=
  match calls with
  | [] => []
  | (now, q) :: calls =>
      let '(ok, b') := check_peer_rate_limit now b q in
      (if ok && bool_decide (q = p) then [now] else []) ++ accepted_times p b' calls
  end.

(** The behaviour after a sequence of calls. *)
Definition rate_run (b : BlueprintProtocolBehaviour) (calls : list (Instant * PeerId))
    : BlueprintProtocolBehaviour :=
  foldl (λ b c, (check_peer_rate_limit c.1 b c.2).2) b calls.

(** How many of the times [l] lie in [[x, y)], and from [x] on. *)
Definition count_in (x y : Instant) (l : list Instant) : Z :=
  Z.of_nat (length (filter (λ t, x ≤ t < y) l)).

Definition count_from (x : Instant) (l : list Instant) : Z :=
  Z.of_nat (length (filter (λ t, x ≤ t) l)).

Lemma count_in_app x y l k : count_in x y (l ++ k) = count_in x y l + count_in x y k.
Proof. unfold count_in. rewrite filter_app, length_app. lia. Qed.

Lemma count_from_app x l k : count_from x (l ++ k) = count_from x l + count_from x k.
Proof. unfold count_from. rewrite filter_app, length_app. lia. Qed.

Lemma count_in_one x y t : count_in x y [t] = if decide (x ≤ t < y) then 1 else 0.
Proof. unfold count_in. rewrite filter_cons, filter_nil. by case_decide. Qed.

Lemma count_from_one x t : count_from x [t] = if decide (x ≤ t) then 1 else 0.
Proof. unfold count_from. rewrite filter_cons, filter_nil. by case_decide. Qed.

Lemma count_from_none x l : Forall (λ t, t < x) l → count_from x l = 0.
Proof.
  induction 1 as [|t l Ht _ IH]; [done|].
  change (t :: l) with ([t] ++ l). rewrite count_from_app, count_from_one, IH.
  rewrite decide_False by lia. done.
Qed.

(** The times of an interval split at [z]. *)
Lemma count_in_split x y z l : count_in x y l ≤ count_in x z l + count_from z l.
Proof.
  induction l as [|t l IH]; [done|]. change (t :: l) with ([t] ++ l).
  rewrite !count_in_app, count_from_app, !count_in_one, count_from_one. repeat case_decide; lia.
Qed.

Lemma count_in_from x y w l : w ≤ x → count_in x y l ≤ count_from w l.
Proof.
  intros Hx. induction l as [|t l IH]; [done|]. change (t :: l) with ([t] ++ l).
  rewrite count_in_app, count_from_app, count_in_one, count_from_one. repeat case_decide; lia.
Qed.

Lemma count_from_mono x y l : x ≤ y → count_from y l ≤ count_from x l.
Proof.
  intros Hx. induction l as [|t l IH]; [done|]. change (t :: l) with ([t] ++ l).
  rewrite !count_from_app, !count_from_one. repeat case_decide; lia.
Qed.

(** What holds of the accepted times [h] of [p] after calls up to time [now]:
    [w] starts the last window of [p], which may have been dropped since. *)
Record window_ok (p : PeerId) (h : list Instant) (now : Instant) (n : Z)
    (b : BlueprintProtocolBehaviour) (w : Instant) : Prop := {
  wo_entry : match peer_request_rates b !! p with
             | Some (s, c) => s = w ∧ count_from w h = Z.min c 100 ∧ 0 ≤ c ≤ n ∧
                              Forall (λ t, t ≤ w + RATE_LIMIT_WINDOW) h
             | None => count_from w h ≤ 100 ∧
                       ∃ s, s ≤ now ∧ w + RATE_LIMIT_WINDOW ≤ s ∧ Forall (λ t, t < s) h
             end;
  wo_now : w ≤ now;
  wo_times : Forall (λ t, t ≤ now) h;
  wo_before t0 : w - RATE_LIMIT_WINDOW < t0 → count_in t0 w h ≤ 100;
  wo_bound t0 : count_in t0 (t0 + RATE_LIMIT_WINDOW) h ≤ 200;
}.

(** No two cleanups share a time with calls before them. *)
Definition cleanup_ok (now : Instant) (b : BlueprintProtocolBehaviour) : Prop :=
  elapsed now (peer_rate_cleanup b) ≤ RATE_CLEANUP_INTERVAL.

(** A new window of [p] opens at [now]. *)
Lemma open_window p h now n b' w :
  count_from w h ≤ 100 → w + RATE_LIMIT_WINDOW ≤ now → Forall (λ t, t < now) h → 1 ≤ n →
  (∀ t0, count_in t0 (t0 + RATE_LIMIT_WINDOW) h ≤ 200) →
  peer_request_rates b' !! p = Some (now, 1) →
  window_ok p (h ++ [now]) now n b' now.
Proof.
  intros Hc Hw Hh Hn Hb Hr. assert (0 < RATE_LIMIT_WINDOW) by done.
  split.
  - rewrite Hr. split_and!; [done| |lia..|].
    + rewrite count_from_app, count_from_none, count_from_one by done. by rewrite decide_True by lia.
    + apply Forall_app. split; [|constructor; [lia|done]]. eapply Forall_impl; [exact Hh|simpl; lia].
  - lia.
  - apply Forall_app. split; [|constructor; [lia|done]]. eapply Forall_impl; [exact Hh|simpl; lia].
  - intros t0 Ht0. rewrite count_in_app, count_in_one, decide_False by lia.
    pose proof (count_in_from t0 now w h). lia.
  - intros t0. rewrite count_in_app, count_in_one. specialize (Hb t0). case_decide; [|lia].
    pose proof (count_in_from t0 (t0 + RATE_LIMIT_WINDOW) w h). lia.
Qed.

(** The rates after the periodic cleanup. *)
Definition cleaned (now : Instant) (b : BlueprintProtocolBehaviour) : gmap PeerId (Instant * Z) :=
  if RATE_CLEANUP_INTERVAL <? elapsed now (peer_rate_cleanup b)
  then retain (λ _ e, elapsed now e.1 <? RATE_LIMIT_WINDOW) (peer_request_rates b)
  else peer_request_rates b.

Definition cleaned_at (now : Instant) (b : BlueprintProtocolBehaviour) : Instant :=
  if RATE_CLEANUP_INTERVAL <? elapsed now (peer_rate_cleanup b) then now else peer_rate_cleanup b.

Lemma check_peer_rate_limit_unfold now b q :
  check_peer_rate_limit now b q =
  let entry := default (now, 0) (cleaned now b !! q) in
  if RATE_LIMIT_WINDOW <? elapsed now entry.1 then
    (true, set_rates b (<[q := (now, 1)]> (cleaned now b)) (cleaned_at now b))
  else
    let count := u32_wrap (entry.2 + 1) in
    (negb (RATE_LIMIT_MAX_REQUESTS <? count),
     set_rates b (<[q := (entry.1, count)]> (cleaned now b)) (cleaned_at now b)).
Proof.
  unfold check_peer_rate_limit, cleaned, cleaned_at.
  by destruct (RATE_CLEANUP_INTERVAL <? elapsed now (peer_rate_cleanup b)).
Qed.

Lemma cleaned_window p h now now' n b w :
  now ≤ now' → cleanup_ok now b → window_ok p h now n b w →
  window_ok p h now' n (set_rates b (cleaned now' b) (cleaned_at now' b)) w.
Proof.
  intros Hle Hcl [He Hw Ht Hbf Hbd].
  assert (Forall (λ t, t ≤ now') h) by (eapply Forall_impl; [exact Ht|simpl; lia]).
  split; [|lia|done..]. simpl. unfold cleaned.
  destruct (Z.ltb_spec RATE_CLEANUP_INTERVAL (elapsed now' (peer_rate_cleanup b))) as [Hgt|_].
  - assert (now < now') by (unfold cleanup_ok, elapsed in *; lia).
    assert (Forall (λ t, t < now') h) by (eapply Forall_impl; [exact Ht|simpl; lia]).
    rewrite retain_lookup. destruct (peer_request_rates b !! p) as [[s c]|] eqn:E; simpl.
    + destruct He as (-> & Hc & Hcn & Hfw).
      destruct (Z.ltb_spec (elapsed now' w) RATE_LIMIT_WINDOW) as [Hlt|Hge]; [done|].
      split; [lia|]. exists now'. split_and!; [lia| |done].
      unfold elapsed in Hge. assert (0 < RATE_LIMIT_WINDOW) by done. lia.
    + destruct He as (Hc & s & Hs & Hws & Hfs). split; [done|]. exists s. split_and!; [lia|done..].
  - destruct (peer_request_rates b !! p) as [[s c]|]; [done|].
    destruct He as (Hc & s & Hs & Hws & Hfs). split; [done|]. exists s. split_and!; [lia|done..].
Qed.

(** A request of [p] is counted in its window. *)
Lemma bump_window p h now n b b' w c :
  window_ok p h now n b w → peer_request_rates b !! p = Some (w, c) →
  elapsed now w ≤ RATE_LIMIT_WINDOW → peer_request_rates b' !! p = Some (w, c + 1) →
  window_ok p (h ++ if 100 <? c + 1 then [] else [now]) now (n + 1) b' w.
Proof.
  intros [He Hw Ht Hbf Hbd] Hr Hin Hr'. rewrite Hr in He. destruct He as (_ & Hc & Hcn & Hfw).
  unfold elapsed in Hin. destruct (Z.ltb_spec 100 (c + 1)).
  - rewrite app_nil_r. split; [rewrite Hr'|done..]. split_and!; [done|lia..|done].
  - assert (∀ P : Z → Prop, P now → Forall P h → Forall P (h ++ [now])) as Hsnoc
      by (intros P ??; apply Forall_app; by repeat constructor).
    split; [rewrite Hr'|done|by apply Hsnoc|intros t0|intros t0].
    + split_and!; [done| |lia..|apply Hsnoc; [lia|done]].
      rewrite count_from_app, count_from_one, decide_True by lia. lia.
    + intros Ht0. rewrite count_in_app, count_in_one, decide_False by lia. specialize (Hbf t0 Ht0). lia.
    + rewrite count_in_app, count_in_one. specialize (Hbd t0). case_decide; [|lia].
      pose proof (count_in_split t0 (t0 + RATE_LIMIT_WINDOW) w h). specialize (Hbf t0 ltac:(lia)). lia.
Qed.

Lemma rate_step p h now now' n b w q :
  now ≤ now' → 0 ≤ n < u32_max → cleanup_ok now b → window_ok p h now n b w →
  let '(ok, b') := check_peer_rate_limit now' b q in
  cleanup_ok now' b' ∧
  ∃ w', window_ok p (h ++ if ok && bool_decide (q = p) then [now'] else []) now' (n + 1) b' w'.
Proof.
  intros Hle Hn Hcl Hwin. assert (0 < RATE_LIMIT_WINDOW) by done. rewrite check_peer_rate_limit_unfold.
  pose proof (cleaned_window _ _ _ _ _ _ _ Hle Hcl Hwin) as Hwin'.
  assert (∀ r, cleanup_ok now' (set_rates b r (cleaned_at now' b))) as Hcl'.
  { intros r. unfold cleanup_ok, cleaned_at. simpl.
    destruct (Z.ltb_spec RATE_CLEANUP_INTERVAL (elapsed now' (peer_rate_cleanup b))); [|done].
    unfold elapsed. by rewrite Z.sub_diag. }
  clear Hwin Hcl Hle. destruct (decide (q = p)) as [->|Hne].
  - destruct (cleaned now' b !! p) as [[s c]|] eqn:E; cbn [default id fst snd].
    + pose proof Hwin' as [He _ _ _ Hbd]. simpl in He. rewrite E in He. destruct He as (-> & Hc & Hcn & Hfw).
      destruct (Z.ltb_spec RATE_LIMIT_WINDOW (elapsed now' w)) as [Hgt|Hin]; cbv beta iota.
      * rewrite bool_decide_true by done. split; [apply Hcl'|]. exists now'. unfold elapsed in Hgt.
        apply (open_window _ _ _ _ _ w); [lia|lia| |lia|exact Hbd|apply lookup_insert_eq].
        eapply Forall_impl; [exact Hfw|]. simpl. lia.
      * assert (u32_wrap (c + 1) = c + 1) as -> by (apply Z.mod_small; unfold u32_max in Hn; lia).
        rewrite bool_decide_true, andb_true_r by done. split; [apply Hcl'|]. exists w.
        unfold RATE_LIMIT_MAX_REQUESTS.
        pose proof (bump_window _ _ _ _ _ (set_rates b (<[p:=(w, c + 1)]> (cleaned now' b)) (cleaned_at now' b))
          _ c Hwin' E Hin) as Hb. destruct (100 <? c + 1); apply Hb, lookup_insert_eq.
    + destruct Hwin' as [He _ _ _ Hbd]. simpl in He. rewrite E in He.
      destruct He as (Hc & s & Hs & Hws & Hfs).
      unfold elapsed. rewrite Z.sub_diag. cbn. rewrite bool_decide_true by done.
      split; [apply Hcl'|]. exists now'.
      apply (open_window _ _ _ _ _ w); [lia|lia| |lia|exact Hbd|apply lookup_insert_eq].
      eapply Forall_impl; [exact Hfs|]. simpl. lia.
  - destruct Hwin' as [He Hw Ht Hbf Hbd]; simpl in He.
    assert (∀ v, ∃ w', window_ok p (h ++ []) now' (n + 1)
                         (set_rates b (<[q := v]> (cleaned now' b)) (cleaned_at now' b)) w') as Hv.
    { intros v. exists w. rewrite app_nil_r. split; [|done..]. simpl.
      rewrite lookup_insert_ne by done. destruct (cleaned now' b !! p) as [[s c]|]; [|done].
      destruct He as (-> & Hc & Hcn & Hfw). split_and!; [done|done|lia..|done]. }
    cbv zeta. destruct (RATE_LIMIT_WINDOW <? _); cbv beta iota; rewrite bool_decide_false, andb_false_r by done; (split; [apply Hcl'|apply Hv]).
Qed.

(** Calls in order of time, from [now] on, and the time of the last one. *)
Fixpoint nondecreasing (now : Instant) (calls : list (Instant * PeerId)) : Prop :=
  match calls with [] => True | c :: calls => now ≤ c.1 ∧ nondecreasing c.1 calls end.

Definition last_time (now : Instant) (calls : list (Instant * PeerId)) : Instant :=
  foldl (λ _ c, c.1) now calls.

Lemma rate_run_window calls p h now n b w :
  nondecreasing now calls → 0 ≤ n → n + Z.of_nat (length calls) ≤ u32_max →
  cleanup_ok now b → window_ok p h now n b w →
  cleanup_ok (last_time now calls) (rate_run b calls) ∧
  ∃ w', window_ok p (h ++ accepted_times p b calls) (last_time now calls)
          (n + Z.of_nat (length calls)) (rate_run b calls) w'.
Proof.
  revert h now n b w. induction calls as [|[t q] calls IH]; intros h now n b w Hnd Hn Hlen Hcl Hwin.
  - simpl. rewrite app_nil_r, Z.add_0_r. eauto.
  - destruct Hnd as [Ht Hnd]. simpl in *.
    pose proof (rate_step p h now t n b w q Ht ltac:(lia) Hcl Hwin) as Hs.
    destruct (check_peer_rate_limit t b q) as [ok b'] eqn:E. destruct Hs as [Hcl' [w' Hwin']].
    destruct (IH _ t (n + 1) b' w' Hnd ltac:(lia) ltac:(lia) Hcl' Hwin') as [Hcl'' [w'' Hw'']].
    unfold rate_run, last_time in *. simpl. rewrite ?E. simpl. split; [done|]. exists w''.
    rewrite app_assoc. replace (n + Z.of_nat (S (length calls))) with (n + 1 + Z.of_nat (length calls)) by lia. done.
Qed.

(** Nothing is known before the first call. *)
Lemma fresh_window p b :
  peer_request_rates b = ∅ →
  cleanup_ok (peer_rate_cleanup b) b ∧
  window_ok p [] (peer_rate_cleanup b) 0 b (peer_rate_cleanup b - RATE_LIMIT_WINDOW).
Proof.
  intros Hr. assert (0 < RATE_LIMIT_WINDOW) by done. split.
  - unfold cleanup_ok, elapsed. by rewrite Z.sub_diag.
  - split; rewrite ?Hr, ?lookup_empty; try done; [|lia].
    split; [done|]. exists (peer_rate_cleanup b). split_and!; [lia|lia|done].
Qed.

(** C38. The limit holds: in any interval of one window's length, at most two
    windows' worth of requests of a peer are accepted, whatever the other
    peers do and however the periodic cleanup falls. *)
Theorem rate_limit_bound b calls p t0 :
  peer_request_rates b = ∅ → nondecreasing (peer_rate_cleanup b) calls →
  Z.of_nat (length calls) ≤ u32_max →
  count_in t0 (t0 + RATE_LIMIT_WINDOW) (accepted_times p b calls) ≤ 2 * RATE_LIMIT_MAX_REQUESTS.
Proof.
  intros Hr Hnd Hlen. destruct (fresh_window p b Hr) as [Hcl Hwin].
  destruct (rate_run_window calls p [] _ 0 b _ Hnd ltac:(lia) ltac:(lia) Hcl Hwin) as [_ [w Hw]].
  apply (wo_bound _ _ _ _ _ _ Hw).
Qed.

(** The limit is no stricter: a peer is turned away only when as many of its
    requests as the limit allows were accepted within the last window. *)
Theorem rate_limit_rejects b calls p now :
  peer_request_rates b = ∅ → nondecreasing (peer_rate_cleanup b) calls →
  Z.of_nat (length calls) < u32_max → last_time (peer_rate_cleanup b) calls ≤ now →
  (check_peer_rate_limit now (rate_run b calls) p).1 = false →
  RATE_LIMIT_MAX_REQUESTS ≤ count_from (now - RATE_LIMIT_WINDOW) (accepted_times p b calls).
Proof.
  intros Hr Hnd Hlen Hnow Hrej. destruct (fresh_window p b Hr) as [Hcl Hwin].
  destruct (rate_run_window calls p [] _ 0 b _ Hnd ltac:(lia) ltac:(lia) Hcl Hwin) as [Hcl' [w Hw]].
  pose proof (cleaned_window _ _ _ _ _ _ _ Hnow Hcl' Hw) as [He _ _ _ _]. simpl in He.
  rewrite check_peer_rate_limit_unfold in Hrej.
  destruct (cleaned now (rate_run b calls) !! p) as [[s c]|]; cbn [default id fst snd] in Hrej.
  - destruct He as (-> & Hc & Hcn & _).
    destruct (Z.ltb_spec RATE_LIMIT_WINDOW (elapsed now w)) as [|Hin]; [done|]. cbn [fst] in Hrej.
    rewrite negb_false_iff in Hrej. apply Z.ltb_lt in Hrej.
    unfold u32_wrap, RATE_LIMIT_MAX_REQUESTS in *. rewrite Z.mod_small in Hrej by (unfold u32_max in Hlen; lia).
    transitivity (count_from w (accepted_times p b calls)); [lia|].
    apply count_from_mono. unfold elapsed in Hin. lia.
  - unfold elapsed in Hrej. by rewrite Z.sub_diag in Hrej.
Qed.

(** ** Runs of the behaviour *)

(** What reaches the behaviour: events of the [libp2p] behaviours, and calls
    other parts of the service make on the shared peer manager. *)
Inductive NetEvent :=
| EvMessage (e : RequestResponseEvent)
| EvGossip (e : GossipEvent)
| EvSwarm (e : SwarmEvent)
| EvManager (op : PeerOp).

Definition handle_event (k : HsClocks) (b : BlueprintProtocolBehaviour) (ev : NetEvent)
    : option BlueprintProtocolBehaviour :=
  match ev with
  | EvMessage e => handle_request_response_event k b e
  | EvGossip e => Some (handle_gossipsub_event k b e)
  | EvSwarm e => on_swarm_event k b e
  | EvManager op => Some (set_manager b (run_op (peer_manager b) op))
  end.

Definition handle_events (b : BlueprintProtocolBehaviour) (evs : list (HsClocks * NetEvent))
    : option BlueprintProtocolBehaviour :=
  foldl (λ ob e, b ← ob; handle_event e.1 b e.2) (Some b) evs.

(** Only handshakes verify peers: nothing else calls [verify_peer]. *)
Definition ordinary (ev : NetEvent) : Prop :=
  match ev with EvManager (OpVerify _) => False | _ => True end.

(** [ev] is a handshake of [p] that proves possession of a whitelisted key. *)
Definition authenticates (k : HsClocks) (b : BlueprintProtocolBehaviour) (p : PeerId) (ev : NetEvent) : Prop :=
  ∃ key signature msg,
    (ev = EvMessage (MessageResponse p (HandshakeResponse key signature msg)) ∨
     ∃ ch, ev = EvMessage (MessageRequest p (HandshakeRequest key signature msg) ch)) ∧
    is_key_whitelisted (peer_manager b) key = true ∧
    hk_verify k ≤ hs_timestamp msg + MAX_AGE ∧
    key_verify key (handshake_to_bytes msg (local_peer_id b)) (kt_signature_to_bytes signature) = Some (Ok true).

(** [ev] is a request or a gossip message of [p] that carries [m]. *)
Definition carries (p : PeerId) (m : ProtocolMessage) (ev : NetEvent) : Prop :=
  ∃ payload, decode_protocol_message payload = Ok m ∧
    (ev = EvGossip (GossipMessage p payload) ∨
     ∃ proto meta ch, ev = EvMessage (MessageRequest p (ProtocolRequest proto payload meta) ch)).

Definition verified (b : BlueprintProtocolBehaviour) : gset PeerId := verified_peers (peer_manager b).

Lemma verify_handshake_Ok now b msg key signature u :
  verify_handshake now b msg key signature = Some (Ok u) →
  now ≤ hs_timestamp msg + MAX_AGE ∧
  key_verify key (handshake_to_bytes msg (local_peer_id b)) (kt_signature_to_bytes signature) = Some (Ok true).
Proof.
  unfold verify_handshake, handshake_is_expired.
  destruct (Z.ltb_spec MAX_AGE (Z.max 0 (now - hs_timestamp msg))) as [|Hage]; [done|].
  destruct (key_verify _ _ _) as [[[]|e]|]; simpl; intros H; simplify_eq/=. split; [lia|done].
Qed.

(** The peer manager verifies only on request. *)
Lemma remove_peer_verified m p r : verified_peers (remove_peer m p r) = verified_peers m.
Proof. unfold remove_peer. by destruct (peers m !! p). Qed.

Lemma unban_peer_verified m p : verified_peers (unban_peer m p) = verified_peers m.
Proof. unfold unban_peer. by destruct (banned_peers m !! p). Qed.

Lemma handle_nonwhitelisted_verified now m p :
  verified_peers (handle_nonwhitelisted_peer now m p) = verified_peers m.
Proof. unfold handle_nonwhitelisted_peer. simpl. by rewrite !remove_peer_verified. Qed.

Lemma run_op_verified m op :
  verified_peers (run_op m op) =
  match op with OpVerify p => {[p]} ∪ verified_peers m | _ => verified_peers m end.
Proof.
  destruct op; simpl; rewrite ?remove_peer_verified, ?unban_peer_verified; try done.
  - unfold is_banned. destruct (banned_peers m !! peer_id) as [e|]; [|done]. by destruct (ban_expired now e).
  - unfold ban_cleanup. generalize (filter (λ e, ban_expired now e.2 = true)
      (map_to_list (banned_peers m))).*1. intros l. revert m.
    induction l as [|id l IH]; intros m; [done|]. simpl. by rewrite IH, unban_peer_verified.
Qed.

Lemma check_peer_rate_limit_frame now b p :
  verified (check_peer_rate_limit now b p).2 = verified b ∧
  delivered (check_peer_rate_limit now b p).2 = delivered b.
Proof. rewrite check_peer_rate_limit_unfold. cbv zeta. by destruct (RATE_LIMIT_WINDOW <? _). Qed.

Lemma send_response_frame b ch r :
  verified (send_response b ch r).2 = verified b ∧ delivered (send_response b ch r).2 = delivered b.
Proof. unfold send_response. by destruct (channel_open ch). Qed.

Lemma deliver_verified b m : verified (deliver b m) = verified b.
Proof. unfold deliver. by destruct (receiver_alive b). Qed.

Lemma handle_handshake_failure_frame wall now b p r :
  verified (handle_handshake_failure wall now b p r) = verified b ∧
  delivered (handle_handshake_failure wall now b p r) = delivered b.
Proof.
  unfold handle_handshake_failure, verified. destruct (get_peer_info _ _); [|done]. simpl.
  destruct (3 <=? _); [|done]. simpl. by rewrite remove_peer_verified.
Qed.

(** What each arm does to the verified peers and the delivered messages. *)
Lemma on_handshake_request_frame k b peer ch key signature msg through b' :
  on_handshake_request k b peer ch key signature msg = Some (through, b') →
  delivered b' = delivered b ∧
  (verified b' = verified b ∨
   verified b' = {[peer]} ∪ verified b ∧
   authenticates k b peer (EvMessage (MessageRequest peer (HandshakeRequest key signature msg) ch))).
Proof.
  unfold on_handshake_request. destruct (is_key_whitelisted (peer_manager b) key) eqn:Hk; simpl.
  - destruct (verify_handshake _ _ _ _ _) as [[u|e]|] eqn:Hv; simpl; intros H; simplify_eq.
    + apply verify_handshake_Ok in Hv as [Hage Hver].
      assert (authenticates k b peer (EvMessage (MessageRequest peer (HandshakeRequest key signature msg) ch)))
        as Ha by (exists key, signature, msg; split_and!; [right; eauto|done..]).
      destruct (sign_handshake _ _ _) as [s|]; simplify_eq/=; [|by split; [|left]].
      unfold send_response in H. destruct (channel_open ch); simplify_eq/=; [by split; [|right]|by split; [|left]].
    + destruct (send_response_frame b ch (ErrorResponse 400 ("Invalid handshake: " +:+ debug_response e)))
        as [? ?]. by split; [|left].
  - intros [= <- <-]. split; [done|left]. apply handle_nonwhitelisted_verified.
Qed.

Lemma on_handshake_response_frame k b peer key signature msg through b' :
  on_handshake_response k b peer key signature msg = Some (through, b') →
  delivered b' = delivered b ∧
  (verified b' = verified b ∨
   verified b' = {[peer]} ∪ verified b ∧
   authenticates k b peer (EvMessage (MessageResponse peer (HandshakeResponse key signature msg)))).
Proof.
  unfold on_handshake_response.
  destruct (is_peer_verified (peer_manager b) peer); [intros [= <- <-]; by split; [|left]|].
  simpl. destruct (is_key_whitelisted (peer_manager b) key) eqn:Hk; simpl.
  - destruct (verify_handshake _ _ _ _ _) as [[u|e]|] eqn:Hv; simpl; intros H; simplify_eq.
    + apply verify_handshake_Ok in Hv as [Hage Hver]. simpl. split; [done|right].
      split; [done|]. exists key, signature, msg. split_and!; [by left|done..].
    + match goal with |- context [handle_handshake_failure ?w ?n ?b' ?p ?r] =>
        destruct (handle_handshake_failure_frame w n b' p r) as [-> ->] end. by split; [|left].
  - intros [= <- <-]. split; [done|left]. apply handle_nonwhitelisted_verified.
Qed.

(** A message got through for [p]. *)
Definition delivers (k : HsClocks) (b b' : BlueprintProtocolBehaviour) (p : PeerId) (payload : list Byte8) : Prop :=
  ∃ m, decode_protocol_message payload = Ok m ∧ delivered b' = delivered b ++ [m] ∧
    p ∈ verified b ∧ (check_peer_rate_limit (hk_rate k) b p).1 = true.

Lemma deliver_decoded k b b1 p payload m :
  check_peer_rate_limit (hk_rate k) b p = (true, b1) → is_peer_verified (peer_manager b) p = true →
  decode_protocol_message payload = Ok m →
  verified (deliver b1 m) = verified b ∧
  (delivered (deliver b1 m) = delivered b ∨ delivers k b (deliver b1 m) p payload).
Proof.
  intros Hc Hv Hm. pose proof (check_peer_rate_limit_frame (hk_rate k) b p) as [H1 H2].
  rewrite Hc in H1, H2. simpl in *. split; [by rewrite deliver_verified|].
  unfold deliver. destruct (receiver_alive b1); [right|by left].
  exists m. split_and!; [done|simpl; by rewrite H2|by apply bool_decide_eq_true in Hv|by rewrite Hc].
Qed.

Lemma on_protocol_request_frame k b peer ch payload through b' :
  on_protocol_request k b peer ch payload = (through, b') →
  verified b' = verified b ∧ (delivered b' = delivered b ∨ delivers k b b' peer payload).
Proof.
  unfold on_protocol_request. destruct (bool_decide _); [intros [= <- <-]; by split; [|left]|].
  destruct (is_peer_verified (peer_manager b) peer) eqn:Hv; simpl.
  - destruct (check_peer_rate_limit (hk_rate k) b peer) as [ok b1] eqn:Hc.
    pose proof (check_peer_rate_limit_frame (hk_rate k) b peer) as [H1 H2]. rewrite Hc in H1, H2. simpl in *.
    destruct ok; [|intros [= <- <-]; by split; [|left]].
    destruct (decode_protocol_message payload) as [m|e] eqn:Hm; intros [= <- <-].
    + by apply deliver_decoded.
    + match goal with |- context [send_response ?b ?c ?r] => destruct (send_response_frame b c r) as [-> ->] end.
      by split; [|left].
  - intros [= <- <-].
    match goal with |- context [send_response ?b ?c ?r] => destruct (send_response_frame b c r) as [-> ->] end.
    by split; [|left].
Qed.

Lemma handle_gossipsub_event_frame k b e :
  verified (handle_gossipsub_event k b e) = verified b ∧
  (delivered (handle_gossipsub_event k b e) = delivered b ∨
   ∃ p payload, e = GossipMessage p payload ∧ delivers k b (handle_gossipsub_event k b e) p payload).
Proof.
  destruct e as [p payload|]; simpl; [|by split; [|left]].
  destruct (is_peer_verified (peer_manager b) p) eqn:Hv; simpl; [|by split; [|left]].
  destruct (check_peer_rate_limit (hk_rate k) b p) as [ok b1] eqn:Hc.
  pose proof (check_peer_rate_limit_frame (hk_rate k) b p) as [H1 H2]. rewrite Hc in H1, H2. simpl in *.
  destruct ok; [|by split; [|left]].
  destruct (decode_protocol_message payload) as [m|e] eqn:Hm; [|by split; [|left]].
  destruct (deliver_decoded k b b1 p payload m Hc Hv Hm) as [? [?|?]]; split; [done|by left|done|right; eauto].
Qed.

Lemma on_swarm_event_frame k b e b' :
  on_swarm_event k b e = Some b' → verified b' = verified b ∧ delivered b' = delivered b.
Proof.
  destruct e as [p [|n]|p [|n]|]; simpl; intros H; try (by simplify_eq).
  - destruct (is_peer_verified (peer_manager b) p); simpl in H; [by simplify_eq|].
    destruct (send_handshake (hk_new k) b p) as [b1|] eqn:Hs; simpl in H; [|done]. simplify_eq.
    unfold send_handshake in Hs. destruct (sign_handshake _ _ _); [|by simplify_eq].
    destruct (if use_address_for_handshake_verification b then _ else _); by simplify_eq/=.
  - simplify_eq. destruct (is_peer_verified (peer_manager b) p); [|done].
    split; [|done]. unfold verified. simpl. apply remove_peer_verified.
Qed.

(** One event verifies a peer only on a valid handshake of that peer. *)
Lemma handle_event_verified k b ev b' :
  ordinary ev → handle_event k b ev = Some b' →
  verified b' = verified b ∨ ∃ p, verified b' = {[p]} ∪ verified b ∧ authenticates k b p ev.
Proof.
  intros Ho H. destruct ev as [e|e|e|op]; simpl in H.
  - unfold handle_request_response_event in H.
    match type of H with context [mbind _ ?o] => destruct o as [[through b1]|] eqn:E end; [|done].
    simpl in H. assert (verified b' = verified b1) as -> by (destruct through; by simplify_eq). clear H.
    destruct e as [p [] ch|p []|]; simplify_eq/=; try (by left).
    + apply on_handshake_request_frame in E as [_ [?|[? ?]]]; [by left|right; eauto].
    + left. by eapply on_protocol_request_frame.
    + apply on_handshake_response_frame in E as [_ [?|[? ?]]]; [by left|right; eauto].
  - simplify_eq. left. apply handle_gossipsub_event_frame.
  - left. by apply (on_swarm_event_frame k b e).
  - simplify_eq. left. unfold verified. simpl. rewrite run_op_verified. by destruct op.
Qed.

(** One event delivers at most one message, from a verified peer within its
    rate limit. *)
Lemma handle_event_delivered k b ev b' :
  handle_event k b ev = Some b' →
  delivered b' = delivered b ∨
  ∃ p m, delivered b' = delivered b ++ [m] ∧ carries p m ev ∧ p ∈ verified b ∧
    (check_peer_rate_limit (hk_rate k) b p).1 = true.
Proof.
  intros H. destruct ev as [e|e|e|op]; simpl in H.
  - unfold handle_request_response_event in H.
    match type of H with context [mbind _ ?o] => destruct o as [[through b1]|] eqn:E end; [|done].
    simpl in H. assert (delivered b' = delivered b1) as -> by (destruct through; by simplify_eq). clear H.
    destruct e as [p [] ch|p []|]; simplify_eq/=; try (by left).
    + apply on_handshake_request_frame in E as [? _]. by left.
    + apply on_protocol_request_frame in E as [_ [?|(m & Hm & ? & ? & ?)]]; [by left|right].
      exists p, m. split_and!; [done| |done..]. exists payload. split; [done|right; eauto].
    + apply on_handshake_response_frame in E as [? _]. by left.
  - simplify_eq. destruct (handle_gossipsub_event_frame k b e) as [_ [?|(p & payload & -> & m & Hm & ? & ? & ?)]];
      [by left|right]. exists p, m. split_and!; [done| |done..]. exists payload. split; [done|by left].
  - left. by apply (on_swarm_event_frame k b e).
  - simplify_eq. by left.
Qed.

Lemma handle_events_snoc b evs e :
  handle_events b (evs ++ [e]) = (b' ← handle_events b evs; handle_event e.1 b' e.2).
Proof. unfold handle_events. by rewrite foldl_app. Qed.

(** In a run, [p] was authenticated by one of the events [evs]. *)
Definition authenticated (b : BlueprintProtocolBehaviour) (evs : list (HsClocks * NetEvent)) (p : PeerId) : Prop :=
  ∃ before k ev after b1,
    evs = before ++ (k, ev) :: after ∧ handle_events b before = Some b1 ∧ authenticates k b1 p ev.

Lemma authenticated_app b evs evs' p : authenticated b evs p → authenticated b (evs ++ evs') p.
Proof.
  intros (before & k & ev & after & b1 & -> & H). exists before, k, ev, (after ++ evs'), b1.
  by rewrite <-app_assoc.
Qed.

Lemma verified_authenticated b evs b' p :
  verified b = ∅ → Forall (λ e, ordinary e.2) evs → handle_events b evs = Some b' →
  p ∈ verified b' → authenticated b evs p.
Proof.
  intros Hb. revert b'. induction evs as [|[k ev] evs IH] using rev_ind; intros b' Ho H Hp.
  - injection H as <-. rewrite Hb in Hp. set_solver.
  - apply Forall_app in Ho as [Ho [Ho1 _]%list.Forall_cons].
    rewrite handle_events_snoc in H. destruct (handle_events b evs) as [b1|] eqn:E; [|done]. simpl in H.
    destruct (handle_event_verified k b1 ev b' Ho1 H) as [Hv|(q & Hv & Ha)]; rewrite Hv in Hp.
    + by apply authenticated_app, (IH b1).
    + apply elem_of_union in Hp as [Hp|Hp]; [apply elem_of_singleton in Hp as ->|by apply authenticated_app, (IH b1)].
      exists evs, k, ev, [], b1. done.
Qed.

(** C15. Protocols only hear authenticated peers: in any run of a node that starts
    with no verified peer, every message handed to the protocols was carried
    by an event of a peer that earlier presented a whitelisted key with a
    fresh signature, valid for this node. *)
Theorem delivery_authenticated b evs b' m :
  verified b = ∅ → delivered b = [] → Forall (λ e, ordinary e.2) evs →
  handle_events b evs = Some b' → m ∈ delivered b' →
  ∃ before k ev after p,
    evs = before ++ (k, ev) :: after ∧ carries p m ev ∧ authenticated b before p.
Proof.
  intros Hv Hd. revert b'. induction evs as [|[k ev] evs IH] using rev_ind; intros b' Ho H Hm.
  - injection H as <-. rewrite Hd in Hm. set_solver.
  - apply Forall_app in Ho as [Ho _]. rewrite handle_events_snoc in H.
    destruct (handle_events b evs) as [b1|] eqn:E; [|done]. simpl in H.
    assert (m ∈ delivered b1 → ∃ before k' ev' after p,
      evs ++ [(k, ev)] = before ++ (k', ev') :: after ∧ carries p m ev' ∧ authenticated b before p) as Hold.
    { intros Hm1. destruct (IH b1 Ho eq_refl Hm1) as (before & k' & ev' & after & p & -> & H1 & H2).
      exists before, k', ev', (after ++ [(k, ev)]), p. by rewrite <-app_assoc. }
    destruct (handle_event_delivered k b1 ev b' H) as [Hd'|(p & m' & Hd' & Hc & Hp & _)];
      rewrite Hd' in Hm; [by apply Hold|].
    apply elem_of_app in Hm as [Hm|Hm]; [by apply Hold|].
    apply list_elem_of_singleton in Hm as ->.
    exists evs, k, ev, [], p. split_and!; [done..|]. by apply (verified_authenticated b evs b1).
Qed.

(** ** What a handshake proves *)

(** The signed bytes bind sender, receiver and time: two handshakes with the
    same bytes are the same, as long as the bytes of a peer identifier are
    self-delimiting (a multihash states its own length). *)
Theorem handshake_bytes_bind msg msg' other other' :
  (∀ p q x y, peer_id_to_bytes p ++ x = peer_id_to_bytes q ++ y → p = q) →
  0 ≤ hs_timestamp msg ≤ u128_max → 0 ≤ hs_timestamp msg' ≤ u128_max →
  handshake_to_bytes msg other = handshake_to_bytes msg' other' → msg = msg' ∧ other = other'.
Proof.
  intros Hp Ht Ht' H. unfold handshake_to_bytes in H. pose proof (Hp _ _ _ _ H) as Hs.
  rewrite Hs in H. apply app_inv_head in H. pose proof (Hp _ _ _ _ H) as Ho.
  rewrite Ho in H. apply app_inv_head, to_be_bytes_inj in H; [|unfold u128_max in *; lia..].
  destruct msg, msg'. simpl in *. by subst.
Qed.

(** The sender named in a handshake is not compared with the peer it comes
    from: whoever presents a fresh handshake of a whitelisted key becomes
    verified, and takes over the key. *)
Theorem handshake_from_anyone k b peer key signature msg :
  is_peer_verified (peer_manager b) peer = false → is_key_whitelisted (peer_manager b) key = true →
  verify_handshake (hk_verify k) b msg key signature = Some (Ok tt) →
  ∃ b', handle_event k b (EvMessage (MessageResponse peer (HandshakeResponse key signature msg))) = Some b' ∧
    peer ∈ verified b' ∧ get_peer_id_from_verification_id_key (peer_manager b') key = Some peer.
Proof.
  intros Hp Hk Hv. simpl. unfold handle_request_response_event, on_handshake_response.
  rewrite Hp. simpl. rewrite Hk. simpl.
  change (verify_handshake (hk_verify k) (set_handshakes b _ _) msg key signature)
    with (verify_handshake (hk_verify k) b msg key signature). rewrite Hv. simpl.
  eexists. split; [done|]. split; [unfold verified; simpl; set_solver|]. apply lookup_insert_eq.
Qed.

(** A handshake dated in the future stays fresh for as long as it is ahead of
    the clock, and [MAX_AGE] more. *)
Theorem handshake_fresh_iff now msg :
  handshake_is_expired now msg MAX_AGE = false ↔ now ≤ hs_timestamp msg + MAX_AGE.
Proof. unfold handshake_is_expired, MAX_AGE. rewrite Z.ltb_ge. lia. Qed.

(** Verification is for ever: no event revokes it, and the messages of a
    banned peer are still handed to the protocols. *)
Theorem verification_survives_ban k b p reason now m payload :
  p ∈ verified b → receiver_alive b = true → decode_protocol_message payload = Ok m →
  (check_peer_rate_limit (hk_rate k) b p).1 = true →
  let b1 := set_manager b (ban_peer now (peer_manager b) p reason None) in
  (is_banned (hk_rate k) (peer_manager b1) p).1 = true ∧
  ∃ b2, handle_event k b1 (EvGossip (GossipMessage p payload)) = Some b2 ∧ delivered b2 = delivered b ++ [m].
Proof.
  intros Hv Hr Hm Hc b1. split.
  - rewrite is_banned_spec. simpl. by rewrite lookup_insert_eq.
  - eexists. split; [done|]. simpl. unfold is_peer_verified. simpl.
    rewrite remove_peer_verified, bool_decide_true by done. simpl.
    rewrite check_peer_rate_limit_unfold in Hc |- *. cbv zeta in *.
    change (cleaned (hk_rate k) b1) with (cleaned (hk_rate k) b).
    destruct (RATE_LIMIT_WINDOW <? _); cbn [fst] in Hc.
    + rewrite Hm. unfold deliver. simpl. by rewrite Hr.
    + rewrite Hc, Hm. unfold deliver. simpl. by rewrite Hr.
Qed.

(** After a disconnection the key of a peer is unlinked but the peer stays
    verified, so that reconnecting starts no handshake and the link is not
    restored. *)
Theorem reconnect_loses_link k k' b p key :
  p ∈ verified b → get_peer_id_from_verification_id_key (peer_manager b) key = Some p →
  ∃ b1 b2, handle_event k b (EvSwarm (ConnectionClosed p O)) = Some b1 ∧
    handle_event k' b1 (EvSwarm (ConnectionEstablished p O)) = Some b2 ∧
    p ∈ verified b2 ∧ requests b2 = requests b ∧
    get_peer_id_from_verification_id_key (peer_manager b2) key = None.
Proof.
  intros Hv Hk. simpl. unfold verified in *.
  assert (is_peer_verified (peer_manager b) p = true) as -> by (by apply bool_decide_eq_true).
  do 2 eexists. split; [done|]. simpl.
  assert (p ∈ verified_peers (remove_peer (peer_manager b) p "connection closed")) as Hv'
    by (by rewrite remove_peer_verified).
  unfold is_peer_verified. simpl. rewrite bool_decide_true by done. simpl.
  split_and!; [done..|]. unfold get_peer_id_from_verification_id_key in *. simpl.
  rewrite retain_lookup.
  assert (verification_id_keys_to_peer_ids (remove_peer (peer_manager b) p "connection closed") !! key = Some p)
    as -> by (unfold remove_peer; by destruct (peers (peer_manager b) !! p)).
  simpl. by rewrite bool_decide_true.
Qed.

(** With addresses as keys, the address in a handshake response is not the one
    in a handshake request: it hashes the compressed key.  An initiator whose
    whitelist holds the responder's address bans the responder for ever. *)
Theorem address_response_banned k a b addr signature msg :
  let public_key := kt_public_to_bytes (kt_public_from_secret (instance_key_pair b)) in
  use_address_for_handshake_verification b = true →
  get_address_from_compressed_pubkey public_key = Some addr → addr ≠ drop 12 (keccak_256 public_key) →
  whitelisted_keys (peer_manager a) = [EvmAddress addr] →
  is_peer_verified (peer_manager a) (local_peer_id b) = false →
  ∃ a', handle_event k a (EvMessage (MessageResponse (local_peer_id b)
          (HandshakeResponse (response_key b) signature msg))) = Some a' ∧
    (local_peer_id b ∉ verified a') ∧
    ∀ now, (is_banned now (peer_manager a') (local_peer_id b)).1 = true.
Proof.
  intros pk Hu Ha Hne Hw Hv. simpl. unfold handle_request_response_event, on_handshake_response, response_key.
  rewrite Hv, Hu. simpl. unfold is_key_whitelisted. simpl. rewrite Hw.
  rewrite bool_decide_false by (rewrite list_elem_of_singleton; intros [= Heq]; by apply Hne).
  simpl. eexists. split; [done|]. split.
  - unfold verified. simpl. rewrite !remove_peer_verified. by apply bool_decide_eq_false in Hv.
  - intros now. rewrite is_banned_spec. simpl. by rewrite lookup_insert_eq.
Qed.

(** Failed handshakes: a known peer is given three attempts, the third bans
    and removes it for five minutes; an unknown peer is not recorded. *)
Theorem handshake_failure_correct wall now b p reason :
  let b' := handle_handshake_failure wall now b p reason in
  match get_peer_info (peer_manager b) p with
  | None => b' = b
  | Some info =>
      0 ≤ failures info < u32_max →
      (failures info + 1 < 3 →
       failures <$> get_peer_info (peer_manager b') p = Some (failures info + 1) ∧
       banned_peers (peer_manager b') = banned_peers (peer_manager b)) ∧
      (3 ≤ failures info + 1 →
       get_peer_info (peer_manager b') p = None ∧
       ∀ t, (is_banned t (peer_manager b') p).1 = (t <? now + from_secs 300))
  end.
Proof.
  unfold handle_handshake_failure. destruct (get_peer_info (peer_manager b) p) as [info|] eqn:Hi; [|done].
  intros Hf. simpl. unfold u32_wrap. rewrite Z.mod_small by (unfold u32_max in Hf; lia).
  destruct (Z.leb_spec 3 (failures info + 1)); (split; [intros Hlt|intros Hge]); try lia.
  - split.
    + unfold get_peer_info. simpl. unfold remove_peer. simpl. rewrite lookup_insert_eq. simpl.
      apply lookup_delete_eq.
    + intros t. rewrite is_banned_spec. simpl. rewrite lookup_insert_eq. simpl. by rewrite <-Z.ltb_antisym.
  - unfold get_peer_info. simpl. by rewrite lookup_insert_eq.
Qed.

(** Pending handshakes are dropped exactly when they are older than the
    timeout. *)
Theorem expired_handshakes_dropped now b p t :
  let b' := check_expired_handshakes now b in
  (inbound_handshakes b' !! p = Some t ↔
   inbound_handshakes b !! p = Some t ∧ elapsed now t ≤ INBOUND_HANDSHAKE_TIMEOUT) ∧
  (outbound_handshakes b' !! p = Some t ↔
   outbound_handshakes b !! p = Some t ∧ elapsed now t ≤ OUTBOUND_HANDSHAKE_TIMEOUT).
Proof.
  assert (∀ l (m : gmap PeerId Instant), foldl (λ m p, delete p m) m l !! p =
            if decide (p ∈ l) then None else m !! p) as Hdel.
  { induction l as [|q l IH]; intros m; cbn [foldl]; [by rewrite decide_False by set_solver|]. rewrite IH.
    destruct (decide (p ∈ l)); [by rewrite decide_True by set_solver|].
    destruct (decide (q = p)) as [->|]; [by rewrite lookup_delete_eq, decide_True by set_solver|].
    by rewrite lookup_delete_ne, decide_False by set_solver. }
  assert (∀ timeout (m : gmap PeerId Instant),
    foldl (λ m p, delete p m) m (expired_handshakes now timeout m) !! p = Some t ↔
    m !! p = Some t ∧ elapsed now t ≤ timeout) as H; [|split; apply H].
  intros timeout m. rewrite Hdel. unfold expired_handshakes.
  case_decide as Hin; rewrite list_elem_of_fmap in Hin; setoid_rewrite list_elem_of_filter in Hin.
  - destruct Hin as ([q s] & -> & Hs & Hm%elem_of_map_to_list). simpl in *. split; [done|].
    intros [Hm' ?]. simplify_eq. lia.
  - split; [|tauto]. intros Hm. split; [done|]. apply Z.le_ngt. intros Hgt. apply Hin.
    exists (p, t). by rewrite elem_of_map_to_list.
Qed.

End behaviour.

(** ** Concrete runs *)

Definition toy_evm : EvmCrypto := {|
  secp_signature := list Z;
  keccak_256 m := replicate 12 0 ++ take 20 (m ++ replicate 20 0);
  recovery_id_parse v := if v <? 4 then Some v else None;
  parse_overflowing_slice bs := Some bs;
  secp_recover _ s _ := Some (4 :: s);
  parse_compressed bs := Some (4 :: 9 :: bs ++ replicate 30 0);
|}.

#[local] Existing Instance toy_keys.
#[local] Existing Instance toy_libp2p.
#[local] Existing Instance toy_evm.

Definition toy_wire : Wire := {|
  decode_protocol_message bs := Ok (mkProtocolMessage "demo" (mkRouting 0 0 2 None) bs);
  debug_response _ := "error";
|}.

#[local] Existing Instance toy_wire.

Definition demo_clocks (t : Z) : HsClocks := mkHsClocks t t t t t t t.

(** A node with identifier 1 and key 11 that lets key 12 in. *)
Definition demo_node : BlueprintProtocolBehaviour :=
  behaviour_new 0 1 11 (peer_manager_new (InstancePublicKeys [12])) "/demo/1.0.0" false.

Definition demo_key : VerificationIdentifierKey := InstancePublicKey 12.

Definition demo_hello : HandshakeMessage := mkHandshakeMessage 2 1000.

Definition demo_hello_signature : list Z := 12 :: handshake_to_bytes demo_hello 1.

Definition demo_events : list (HsClocks * NetEvent) :=
  [(demo_clocks 1000, EvSwarm (ConnectionEstablished 2 0));
   (demo_clocks 1001, EvMessage (MessageRequest 2
      (HandshakeRequest demo_key demo_hello_signature demo_hello) (mkChannel 2 true)));
   (demo_clocks 1002, EvGossip (GossipMessage 2 [5; 6]))].

Definition demo_after : BlueprintProtocolBehaviour := default demo_node (handle_events demo_node demo_events).

Lemma demo_node_run : handle_events demo_node demo_events = Some demo_after.
Proof. vm_compute. reflexivity. Qed.

Lemma delivery_authenticated_witness :
  ∃ before k ev after p,
    demo_events = before ++ (k, ev) :: after ∧
    carries p (mkProtocolMessage "demo" (mkRouting 0 0 2 None) [5; 6]) ev ∧ authenticated demo_node before p.
Proof.
  apply (delivery_authenticated demo_node demo_events demo_after).
  - reflexivity.
  - reflexivity.
  - repeat constructor.
  - exact demo_node_run.
  - apply list_elem_of_lookup. exists O. vm_compute. reflexivity.
Defined.

Lemma handshake_bytes_bind_witness : demo_hello = mkHandshakeMessage 2 1000 ∧ 1 = 1.
Proof.
  apply (handshake_bytes_bind (L := toy_libp2p) demo_hello (mkHandshakeMessage 2 1000) 1 1).
  - by intros p q x y [= ->].
  - vm_compute. split; discriminate.
  - vm_compute. split; discriminate.
  - reflexivity.
Defined.

(** The handshake of peer 2, presented by peer 66. *)
Lemma handshake_from_anyone_witness :
  ∃ b', handle_event (demo_clocks 1001) demo_node (EvMessage (MessageResponse 66
          (HandshakeResponse demo_key demo_hello_signature demo_hello))) = Some b' ∧
    66 ∈ verified b' ∧ get_peer_id_from_verification_id_key (peer_manager b') demo_key = Some 66.
Proof.
  apply (handshake_from_anyone (demo_clocks 1001) demo_node 66 demo_key
           demo_hello_signature demo_hello); vm_compute; reflexivity.
Defined.

Lemma demo_after_verified : 2 ∈ verified demo_after.
Proof. apply (bool_decide_unpack _). vm_compute. exact I. Qed.

Lemma verification_survives_ban_witness :
  ∃ b2, handle_event (demo_clocks 1003)
          (set_manager demo_after (ban_peer 1002 (peer_manager demo_after) 2 "spam" None))
          (EvGossip (GossipMessage 2 [7])) = Some b2 ∧
        delivered b2 = delivered demo_after ++ [mkProtocolMessage "demo" (mkRouting 0 0 2 None) [7]].
Proof.
  apply (verification_survives_ban (demo_clocks 1003) demo_after 2 "spam" 1002
           (mkProtocolMessage "demo" (mkRouting 0 0 2 None) [7]) [7] demo_after_verified);
    vm_compute; reflexivity.
Defined.

Lemma reconnect_loses_link_witness :
  ∃ b1 b2, handle_event (demo_clocks 2000) demo_after (EvSwarm (ConnectionClosed 2 O)) = Some b1 ∧
    handle_event (demo_clocks 3000) b1 (EvSwarm (ConnectionEstablished 2 O)) = Some b2 ∧
    2 ∈ verified b2 ∧ requests b2 = requests demo_after ∧
    get_peer_id_from_verification_id_key (peer_manager b2) demo_key = None.
Proof.
  apply (reconnect_loses_link (demo_clocks 2000) (demo_clocks 3000) demo_after 2 demo_key demo_after_verified).
  vm_compute. reflexivity.
Defined.

(** Two nodes that know each other by address. *)
Definition demo_responder : BlueprintProtocolBehaviour :=
  behaviour_new 0 2 12 (peer_manager_new (EvmAddresses [])) "/demo/1.0.0" true.

Definition demo_address : Address :=
  default [] (get_address_from_compressed_pubkey (@kt_public_to_bytes toy_keys 12)).

Definition demo_initiator : BlueprintProtocolBehaviour :=
  behaviour_new 0 1 11 (peer_manager_new (EvmAddresses [demo_address])) "/demo/1.0.0" true.

Lemma address_response_banned_witness :
  ∃ a', handle_event (demo_clocks 5) demo_initiator (EvMessage (MessageResponse 2
          (HandshakeResponse (response_key demo_responder) [] demo_hello))) = Some a' ∧
    (2 ∉ verified a') ∧ ∀ now, (is_banned now (peer_manager a') 2).1 = true.
Proof.
  apply (address_response_banned (demo_clocks 5) demo_initiator demo_responder demo_address [] demo_hello).
  - reflexivity.
  - vm_compute. reflexivity.
  - vm_compute. discriminate.
  - reflexivity.
  - reflexivity.
Defined.

Definition demo_calls : list (Instant * PeerId) := replicate 100 (3, 7) ++ [(4, 8)].

Lemma rate_limit_bound_witness :
  count_in 0 (0 + RATE_LIMIT_WINDOW) (accepted_times 7 demo_node demo_calls) ≤ 2 * RATE_LIMIT_MAX_REQUESTS.
Proof.
  apply (rate_limit_bound demo_node demo_calls 7 0).
  - reflexivity.
  - vm_compute. repeat split; discriminate.
  - vm_compute. discriminate.
Defined.

Lemma rate_limit_rejects_witness :
  RATE_LIMIT_MAX_REQUESTS ≤ count_from (5 - RATE_LIMIT_WINDOW) (accepted_times 7 demo_node demo_calls).
Proof.
  apply (rate_limit_rejects demo_node demo_calls 7 5).
  - reflexivity.
  - vm_compute. repeat split; discriminate.
  - vm_compute. reflexivity.
  - vm_compute. discriminate.
  - vm_compute. reflexivity.
Defined.
