(* ===== verification/JobCore.v ===== *)
(** * Job calls and results ([core/src/job], [core/src/metadata.rs])

    Job identifiers and their conversions, metadata values and maps, calls and
    results of jobs.  [Keccak] stands for the [tiny-keccak] crate. *)

From Stdlib Require Import ZArith Lia.
From stdpp Require Import base gmap sets list sorting strings fin_maps numbers relations countable.
From S2P Require Import Prelude Bytes.

#[local] Open Scope Z_scope.

(** ** Job identifiers *)

Record JobId := mkJobId { limb0 : Z; limb1 : Z; limb2 : Z; limb3 : Z }.

#[export] Instance JobId_eq_dec : EqDecision JobId.
Proof. solve_decision. Defined.

#[export] Instance JobId_countable : Countable JobId.
Proof.
  refine (inj_countable' (λ j, (limb0 j, limb1 j, limb2 j, limb3 j))
    (λ p, let '(a, b, c, d) := p in mkJobId a b c d) _). by intros [].
Defined.

(** [JobId::ZERO], also [MIN] and the default *)
Definition JobId_ZERO : JobId := mkJobId 0 0 0 0.
(** [JobId::MAX] *)
Definition JobId_MAX : JobId := mkJobId u64_max u64_max u64_max u64_max.

Definition u64_ty : IntTy := mkIntTy 64 false.

(** [impl From<$ty> for JobId] for the types of at most 64 bits *)
Definition JobId_from_number (value : Z) : JobId := mkJobId 0 0 0 (cast u64_ty value).
(** [impl From<JobId> for $ty] for the types of at most 64 bits *)
Definition number_from_JobId (ty : IntTy) (id : JobId) : Z := cast ty (limb3 id).
(** [impl From<u128> for JobId], [impl From<i128> for JobId] *)
Definition JobId_from_wide (value : Z) : JobId :=
  mkJobId 0 0 (cast u64_ty (Z.shiftr value 64)) (cast u64_ty value).
(** [impl From<JobId> for u128], [impl From<JobId> for i128] *)
Definition wide_from_JobId (ty : IntTy) (id : JobId) : Z :=
  cast ty (Z.lor (Z.shiftl (limb2 id) 64) (limb3 id)).

(** [impl From<[u8; 32]> for JobId] *)
Definition JobId_from_array (value : list Byte8) : JobId :=
  mkJobId (from_le_bytes (slice value 0 8)) (from_le_bytes (slice value 8 16))
          (from_le_bytes (slice value 16 24)) (from_le_bytes (slice value 24 32)).

(** [impl From<JobId> for [u8; 32]] *)
Definition array_from_JobId (id : JobId) : list Byte8 :=
  to_le_bytes 8 (limb0 id) ++ to_le_bytes 8 (limb1 id)
    ++ to_le_bytes 8 (limb2 id) ++ to_le_bytes 8 (limb3 id).

(** [impl From<JobId> for Vec<u8>] *)
Definition vec_from_JobId (id : JobId) : list Byte8 := array_from_JobId id.

(** [impl From<()> for JobId] *)
Definition JobId_from_unit (_ : unit) : JobId := JobId_ZERO.

(** Keccak-256 of the [tiny-keccak] crate: 32 bytes *)
Class Keccak := {
  tiny_keccak256 : list Byte8 → list Byte8;
}.

(** [impl From<&[u8]> for JobId], also from strings and vectors *)
Definition JobId_from_bytes `{Keccak} (value : list Byte8) : JobId :=
  JobId_from_array (tiny_keccak256 value).
Definition JobId_from_str `{Keccak} (value : string) : JobId := JobId_from_bytes (str_bytes value).

(** One lower-case hexadecimal digit, as the byte of its character *)
Definition hex_digit (d : Z) : Byte8 := if d <? 10 then 48 + d else 87 + d.
(** [{byte:02x}] *)
Definition hex02 (b : Byte8) : list Byte8 := [hex_digit (b / 16); hex_digit (b mod 16)].

(** [impl Display for JobId]: [{limb:016x}] for each limb *)
Definition JobId_display (id : JobId) : list Byte8 :=
  mjoin ((λ limb, mjoin (hex02 <$> to_be_bytes 8 limb)) <$> [limb0 id; limb1 id; limb2 id; limb3 id]).
(** [impl From<JobId> for String] *)
Definition string_from_JobId (id : JobId) : list Byte8 := mjoin (hex02 <$> array_from_JobId id).

(** Every limb is a [u64]. *)
Definition JobId_wf (id : JobId) : Prop :=
  is_u64 (limb0 id) ∧ is_u64 (limb1 id) ∧ is_u64 (limb2 id) ∧ is_u64 (limb3 id).

(** ** Metadata *)

Record MetadataValue := mkMetadataValue { mv_inner : list Byte8; mv_sensitive : bool }.

#[export] Instance MetadataValue_eq_dec : EqDecision MetadataValue.
Proof. solve_decision. Defined.

(** [MetadataValue::from_bytes], [from_str] and the conversions from byte strings *)
Definition mv_from_bytes (value : list Byte8) : MetadataValue := mkMetadataValue value false.
(** [MetadataValue::from_sensitive_bytes], [from_sensitive_str] *)
Definition mv_from_sensitive (value : list Byte8) : MetadataValue := mkMetadataValue value true.
Definition mv_len (v : MetadataValue) : Z := zlen (mv_inner v).
Definition mv_is_empty (v : MetadataValue) : bool := bool_decide (mv_inner v = []).
Definition mv_to_str (v : MetadataValue) : option (list Byte8) := from_utf8 (mv_inner v).

(** [impl From<$t> for MetadataValue]: big-endian bytes, [n] the size of the type *)
Definition mv_from_number (n : nat) (value : Z) : MetadataValue := mv_from_bytes (to_be_bytes n value).
(** [impl TryFrom<&MetadataValue> for $t], [n] bytes, signed or not *)
Definition mv_try_number (n : nat) (signed : bool) (v : MetadataValue) : option Z :=
  bytes ← try_into_array n (mv_inner v);
  Some (cast (mkIntTy (8 * Z.of_nat n) signed) (from_be_bytes bytes)).

Definition mv_from_u64 : Z → MetadataValue := mv_from_number 8.
Definition mv_try_u64 : MetadataValue → option Z := mv_try_number 8 false.

(** [is_visible_ascii] *)
Definition is_visible_ascii (b : Byte8) : bool := (32 <=? b) && (b <? 127) || (b =? 9).

(** [{b:x}]: hexadecimal without padding *)
Definition hex_byte (b : Byte8) : list Byte8 :=
  if b <? 16 then [hex_digit b] else [hex_digit (b / 16); hex_digit (b mod 16)].

(** One round of the loop of [MetadataValue::fmt]: [from] is the start of the
    segment not yet written, [None] a formatting error *)
Definition debug_step (bytes : list Byte8) (st : option (Z * list Byte8)) (ib : Z * Byte8)
    : option (Z * list Byte8) :=
  '(from, out) ← st;
  let '(i, b) := ib in
  if negb (is_visible_ascii b) || (b =? 34) then
    out ← (if from =? i then Some out
           else s ← from_utf8 (slice bytes from i); Some (out ++ s));
    Some (i + 1, out ++ (if b =? 34 then [92; 34] else 92 :: 120 :: hex_byte b))
  else Some (from, out).

Definition enumerate {A} (l : list A) : list (Z * A) :=
  imap (λ i x, (Z.of_nat i, x)) l.

(** [impl fmt::Debug for MetadataValue] *)
Definition mv_debug (v : MetadataValue) : option (list Byte8) :=
  if mv_sensitive v then Some (str_bytes "Sensitive")
  else
    let bytes := mv_inner v in
    '(from, out) ← foldl (debug_step bytes) (Some (0, [34])) (enumerate bytes);
    out ← (if from =? zlen bytes then Some out
           else s ← from_utf8 (slice bytes from (zlen bytes)); Some (out ++ s));
    Some (out ++ [34]).

(** [MetadataMap<MetadataValue>] *)
Abbreviation MetadataMap := (gmap string MetadataValue).

(** [MetadataMap::insert], with the value it returns *)
Definition metadata_insert (key : string) (value : MetadataValue) (m : MetadataMap)
    : option MetadataValue * MetadataMap := (m !! key, <[key := value]> m).
(** [MetadataMap::remove] *)
Definition metadata_remove (key : string) (m : MetadataMap)
    : option MetadataValue * MetadataMap := (m !! key, delete key m).
(** [MetadataMap::extend]: the entries of [other] win *)
Definition metadata_extend (m other : MetadataMap) : MetadataMap := other ∪ m.

(** ** Calls and results *)

Section job.
  (** [Extensions], a map from types to values of those types, is a parameter. *)
  Context {Ext : Type} {ext_new : Ext}.

(** [call::Parts] *)
Record Parts := mkParts { job_id : JobId; metadata : MetadataMap; extensions : Ext }.
Record JobCall := mkJobCall { head : Parts; body : list Byte8 }.

(** [Parts::new] *)
Definition parts_new (id : JobId) : Parts := mkParts id ∅ ext_new.
(** [Parts::with_metadata], [Parts::with_extensions] *)
Definition with_metadata (m : MetadataMap) (p : Parts) : Parts :=
  mkParts (job_id p) m (extensions p).
Definition with_extensions (e : Ext) (p : Parts) : Parts := mkParts (job_id p) (metadata p) e.
(** [JobCall::empty], [JobCall::new], [JobCall::from_parts], [JobCall::into_parts] *)
Definition job_call_empty : JobCall := mkJobCall (parts_new JobId_ZERO) [].
Definition job_call_new (id : JobId) (b : list Byte8) : JobCall := mkJobCall (parts_new id) b.
Definition job_call_from_parts (p : Parts) (b : list Byte8) : JobCall := mkJobCall p b.
Definition job_call_into_parts (c : JobCall) : Parts * list Byte8 := (head c, body c).
(** [JobCall::map] *)
Definition job_call_map (f : list Byte8 → list Byte8) (c : JobCall) : JobCall :=
  mkJobCall (head c) (f (body c)).

End job.
Arguments Parts Ext : clear implicits.
Arguments JobCall Ext : clear implicits.

(** [JobResult<Bytes, Error>]; [result::Parts] only holds metadata *)
Inductive JobResult (E : Type) :=
| JobOk (head : MetadataMap) (body : list Byte8)
| JobErr (e : E).
Arguments JobOk {E} head body.
Arguments JobErr {E} e.

Section job_result.
  Context {E : Type}.

Definition job_result_new (b : list Byte8) : JobResult E := JobOk ∅ b.
Definition job_result_empty : JobResult E := JobOk ∅ [].
(** [JobResult::metadata] *)
Definition job_result_metadata (r : JobResult E) : option MetadataMap :=
  match r with JobOk m _ => Some m | JobErr _ => None end.
(** [JobResult::metadata_mut], an update of the metadata if there is any *)
Definition update_metadata (f : MetadataMap → MetadataMap) (r : JobResult E) : JobResult E :=
  match r with JobOk m b => JobOk (f m) b | JobErr e => JobErr e end.

(** *** Conversions into results ([IntoJobResult], [IntoJobResultParts])

    A value a job returns, as the tree of the implementations that convert it. *)
Inductive IntoResult :=
| IRVoid                                      (* Void *)
| IRBytes (b : list Byte8)                    (* (), strings, byte strings *)
| IRNone                                      (* Option<T> *)
| IRSome (v : IntoResult)
| IROk (v : IntoResult)                       (* Result<T, E> *)
| IRErr (e : E)
| IRJobResult (r : JobResult E)               (* JobResult *)
| IRMetadata (m : MetadataMap)                (* MetadataMap and result::Parts *)
| IRParts (m : MetadataMap) (v : IntoResult)  (* (Parts, R), (JobResult::Ok, R) *)
| IRTemplateErr (e : E) (v : IntoResult)      (* (JobResult::Err, R) *)
| IRTuple (ps : list (result E MetadataMap)) (v : IntoResult). (* (T1, .., R) *)

(** [IntoJobResultParts::into_job_result_parts] of a part that gives metadata or
    fails to *)
Definition into_parts (r : JobResult E) (p : result E MetadataMap) : result E (JobResult E) :=
  match r with
  | JobErr _ => Ok r
  | JobOk _ _ => m ← p; Ok (update_metadata (λ m0, metadata_extend m0 m) r)
  end.

(** [IntoJobResult::into_job_result] *)
Fixpoint into_job_result (v : IntoResult) : option (JobResult E) :=
  match v with
  | IRVoid | IRNone => None
  | IRBytes b => Some (job_result_new b)
  | IRSome v | IROk v => into_job_result v
  | IRErr e | IRTemplateErr e _ => Some (JobErr e)
  | IRJobResult r => Some r
  | IRMetadata m => Some (JobOk m [])
  | IRParts m v =>
      r ← into_job_result v; Some (update_metadata (λ m0, metadata_extend m0 m) r)
  | IRTuple ps v =>
      r ← into_job_result v;
      Some (match try_fold into_parts r ps with Ok r => r | Err e => JobErr e end)
  end.

End job_result.

(** ** Job identifiers: theorems *)

Lemma cast_u64 x : cast u64_ty x = x mod 2 ^ 64.
Proof. done. Qed.

Lemma number_round_trip ty x :
  0 < int_bits ty ≤ 64 → in_range ty x → number_from_JobId ty (JobId_from_number x) = x.
Proof.
  intros Hb Hx. unfold number_from_JobId, JobId_from_number. simpl.
  rewrite cast_u64, cast_mod by lia. apply cast_in_range; [lia|done].
Qed.

(** The two limbs of a 128-bit number put together again *)
Lemma wide_limbs x :
  Z.lor (Z.shiftl (Z.shiftr x 64 mod 2 ^ 64) 64) (x mod 2 ^ 64) = x mod 2 ^ 128.
Proof.
  apply Z.bits_inj'. intros n Hn. rewrite Z.lor_spec, Z.shiftl_spec by done.
  destruct (decide (n < 64)).
  - rewrite Z.testbit_neg_r, (Z.mod_pow2_bits_low x 64), (Z.mod_pow2_bits_low x 128) by lia. done.
  - rewrite (Z.mod_pow2_bits_high x 64) by lia. rewrite orb_false_r.
    destruct (decide (n < 128)).
    + rewrite !Z.mod_pow2_bits_low, Z.shiftr_spec by lia. f_equal. lia.
    + by rewrite !Z.mod_pow2_bits_high by lia.
Qed.

Lemma wide_round_trip s x :
  in_range (mkIntTy 128 s) x → wide_from_JobId (mkIntTy 128 s) (JobId_from_wide x) = x.
Proof.
  intros Hx. unfold wide_from_JobId, JobId_from_wide. cbn [limb2 limb3].
  rewrite !cast_u64, wide_limbs, cast_mod by (simpl; lia). apply cast_in_range; [simpl; lia|done].
Qed.

Lemma array_from_JobId_from_array l :
  length l = 32%nat → Forall is_byte l → array_from_JobId (JobId_from_array l) = l.
Proof.
  intros Hl Hb. unfold array_from_JobId, JobId_from_array. cbn [limb0 limb1 limb2 limb3].
  assert (∀ i j, 0 ≤ i → j = i + 8 → j ≤ 32 →
    to_le_bytes 8 (from_le_bytes (slice l i j)) = slice l i j) as H.
  { intros i j Hi Hj Hj'. assert (length (slice l i j) = 8%nat) as <-.
    { apply Nat2Z.inj. change (zlen (slice l i j) = 8). rewrite length_slice; unfold zlen; lia. }
    apply to_from_le_bytes. by apply slice_byte. }
  rewrite (H 0 8), (H 8 16), (H 16 24), (H 24 32) by lia.
  rewrite !slice_cat by lia. apply slice_all. unfold zlen. lia.
Qed.

Lemma le_limb x : is_u64 x → from_le_bytes (to_le_bytes 8 x) = x.
Proof. intros H. rewrite from_to_le_bytes. by apply Z.mod_small. Qed.

Lemma JobId_from_array_from_JobId id :
  JobId_wf id → JobId_from_array (array_from_JobId id) = id.
Proof.
  destruct id as [a b c d]. intros (Ha & Hb & Hc & Hd). simpl in *.
  unfold JobId_from_array, array_from_JobId. cbn [limb0 limb1 limb2 limb3].
  assert (∀ x, zlen (to_le_bytes 8 x) = 8) as Hz by (intros; unfold zlen; by rewrite length_to_le_bytes).
  f_equal.
  - by rewrite slice_app_l, le_limb.
  - rewrite (slice_mid (to_le_bytes 8 a)), le_limb; solve [done | rewrite ?zlen_app, ?Hz; lia].
  - rewrite (app_assoc (to_le_bytes 8 a)), slice_mid, le_limb; solve [done | rewrite ?zlen_app, ?Hz; lia].
  - rewrite (app_assoc (to_le_bytes 8 a)), (app_assoc (_ ++ _)).
    rewrite slice_app_r, slice_all, le_limb; solve [done | rewrite ?zlen_app, ?Hz; lia].
Qed.

(** Identifiers convert to every integer type and back without loss, and
    identifiers and 32-byte arrays are in bijection. *)
Theorem job_id_round_trips :
  (∀ ty x, 0 < int_bits ty ≤ 64 → in_range ty x → number_from_JobId ty (JobId_from_number x) = x) ∧
  (∀ s x, in_range (mkIntTy 128 s) x → wide_from_JobId (mkIntTy 128 s) (JobId_from_wide x) = x) ∧
  (∀ l, length l = 32%nat → Forall is_byte l → array_from_JobId (JobId_from_array l) = l) ∧
  (∀ id, JobId_wf id → JobId_from_array (array_from_JobId id) = id).
Proof.
  split_and!; auto using number_round_trip, wide_round_trip, array_from_JobId_from_array,
    JobId_from_array_from_JobId.
Qed.

(** The text of an identifier depends on how it is asked for: [Display] writes
    each limb most significant digit first, the conversion to [String] writes
    its bytes in memory order. *)
Lemma display_differs_from_string :
  JobId_display (JobId_from_number 1) ≠ string_from_JobId (JobId_from_number 1).
Proof. vm_compute. discriminate. Qed.

(** ** Metadata: theorems *)

Lemma metadata_number_round_trip n s x :
  (0 < n)%nat → in_range (mkIntTy (8 * Z.of_nat n) s) x →
  mv_try_number n s (mv_from_number n x) = Some x.
Proof.
  intros Hn Hx. unfold mv_try_number, mv_from_number, try_into_array. cbn [mv_inner mv_from_bytes].
  rewrite length_to_be_bytes. rewrite bool_decide_true by done. cbn. f_equal.
  rewrite from_to_be_bytes. change 256 with (2 ^ 8). rewrite <-Z.pow_mul_r by lia.
  rewrite cast_mod by (simpl; lia). apply cast_in_range; [simpl; lia|done].
Qed.

Lemma mv_u64_round_trip x : is_u64 x → mv_try_u64 (mv_from_u64 x) = Some x.
Proof. intros Hx. apply (metadata_number_round_trip 8 false); [lia|exact Hx]. Qed.

(** A value of another length is no number. *)
Lemma mv_try_number_length n s v : mv_try_number n s v = None ↔ length (mv_inner v) ≠ n.
Proof.
  unfold mv_try_number, try_into_array. case_bool_decide; cbn; naive_solver.
Qed.

(** What a byte of a value is printed as *)
Definition debug_escape (b : Byte8) : list Byte8 :=
  if b =? 34 then [92; 34] else if is_visible_ascii b then [b] else 92 :: 120 :: hex_byte b.

Lemma is_visible_ascii_ascii b : is_visible_ascii b = true → 0 ≤ b < 128.
Proof. unfold is_visible_ascii. intros H. apply orb_true_iff in H as [H|H]; to_prop; lia. Qed.

(** The segment that starts at [from] has been left as it is. *)
Lemma plain_segment seg :
  Forall (λ b, is_visible_ascii b = true ∧ b ≠ 34) seg →
  from_utf8 seg = Some seg ∧ mjoin (debug_escape <$> seg) = seg.
Proof.
  intros H. split.
  - unfold from_utf8. rewrite ascii_utf8; [done|]. eapply Forall_impl; [|exact H].
    intros b [Hb _]. by apply is_visible_ascii_ascii.
  - induction H as [|b seg [Hb H34] _ IH]; [done|]. cbn -[mjoin].
    change (debug_escape b ++ mjoin (debug_escape <$> seg) = b :: seg). rewrite IH.
    unfold debug_escape. apply Z.eqb_neq in H34. by rewrite H34, Hb.
Qed.

Lemma debug_loop rest done_ seg :
  Forall (λ b, is_visible_ascii b = true ∧ b ≠ 34) seg →
  let bytes := done_ ++ seg ++ rest in
  ∃ done' seg',
    done_ ++ seg ++ rest = done' ++ seg' ∧
    Forall (λ b, is_visible_ascii b = true ∧ b ≠ 34) seg' ∧
    foldl (debug_step bytes) (Some (zlen done_, 34 :: mjoin (debug_escape <$> done_)))
      (imap (λ i x, (Z.of_nat (i + length (done_ ++ seg)), x)) rest)
    = Some (zlen done', 34 :: mjoin (debug_escape <$> done')).
Proof.
  revert done_ seg. induction rest as [|b rest IH]; intros done_ seg Hs; cbn -[debug_step].
  { exists done_, seg. by rewrite app_nil_r. }
  assert (Hshift : ∀ k : list Byte8, length k = S (length (done_ ++ seg)) →
    imap ((λ i x, (Z.of_nat (i + length (done_ ++ seg)), x)) ∘ S) rest
    = imap (λ i x, (Z.of_nat (i + length k), x)) rest).
  { intros k Hk. apply imap_ext. intros i x _. simpl. do 2 f_equal. lia. }
  unfold debug_step at 2. cbn [mbind option_bind].
  destruct (negb (is_visible_ascii b) || (b =? 34)) eqn:Hb.
  - specialize (IH (done_ ++ seg ++ [b]) [] (Forall_nil_2 _)).
    rewrite !app_nil_r, <-!app_assoc in IH. simpl in IH.
    rewrite <-(Hshift (done_ ++ seg ++ [b])) in IH by (rewrite !length_app; simpl; lia).
    destruct IH as (done' & seg' & Hsplit & Hs' & Hf). exists done', seg'.
    split; [done|]. split; [done|]. rewrite <-Hf. f_equal.
    destruct (plain_segment seg Hs) as [Hu Hj].
    assert (Hout : (if zlen done_ =? Z.of_nat (length (done_ ++ seg))
        then Some (34 :: mjoin (debug_escape <$> done_))
        else s ← from_utf8 (slice (done_ ++ seg ++ b :: rest) (zlen done_) (Z.of_nat (length (done_ ++ seg))));
             Some ((34 :: mjoin (debug_escape <$> done_)) ++ s))
      = Some (34 :: mjoin (debug_escape <$> done_) ++ seg)).
    { destruct (Z.eqb_spec (zlen done_) (Z.of_nat (length (done_ ++ seg)))) as [He|He].
      - destruct seg; [by rewrite app_nil_r|]. unfold zlen in He. rewrite length_app in He. simpl in He. lia.
      - rewrite slice_mid; [|done|unfold zlen; rewrite length_app; lia]. rewrite Hu. done. }
    setoid_rewrite Hout. cbn. f_equal. f_equal.
    + unfold zlen. rewrite !length_app. simpl. lia.
    + rewrite !fmap_app, !join_app, Hj. simpl. rewrite <-app_assoc. do 3 f_equal.
      rewrite app_nil_r. unfold debug_escape. destruct (b =? 34); [done|].
      rewrite orb_false_r in Hb. by rewrite negb_true_iff in Hb; rewrite Hb.
  - apply orb_false_iff in Hb as [Hv Hq]. apply negb_false_iff in Hv. apply Z.eqb_neq in Hq.
    specialize (IH done_ (seg ++ [b])). rewrite <-!app_assoc in IH. simpl in IH.
    rewrite <-(Hshift (done_ ++ seg ++ [b])) in IH by (rewrite !length_app; simpl; lia).
    apply IH. apply Forall_app; split; [done|]. by constructor.
Qed.

(** The debug output of a value escapes it byte by byte and never fails; that
    of a sensitive value does not depend on its contents. *)
Theorem debug_output v :
  mv_debug v = Some (if mv_sensitive v then str_bytes "Sensitive"
                     else 34 :: mjoin (debug_escape <$> mv_inner v) ++ [34]).
Proof.
  unfold mv_debug. destruct (mv_sensitive v); [done|]. set (bytes := mv_inner v).
  destruct (debug_loop bytes [] [] (Forall_nil_2 _)) as (done' & seg' & Hsplit & Hs & Hf).
  simpl in Hsplit, Hf. unfold enumerate.
  replace (imap (λ i x, (Z.of_nat (i + 0), x)) bytes) with (imap (λ i x, (Z.of_nat i, x)) bytes) in Hf
    by (apply imap_ext; intros; do 2 f_equal; lia).
  cbn [zlen length] in Hf. change (Z.of_nat 0) with 0 in Hf. change (zlen []) with 0 in Hf.
  setoid_rewrite Hf. cbn [mbind option_bind].
  destruct (plain_segment seg' Hs) as [Hu Hj].
  rewrite Hsplit, fmap_app, join_app, Hj.
  destruct (Z.eqb_spec (zlen done') (zlen (done' ++ seg'))) as [He|He].
  - rewrite zlen_app in He. destruct seg'; [by rewrite !app_nil_r|]. unfold zlen in He. simpl in He. lia.
  - rewrite slice_app_r, slice_all by (rewrite ?zlen_app; lia). rewrite Hu. done.
Qed.
