(* ===== verification/Hex.v ===== *)
(** * Hexadecimal text

    Bytes as text, two digits to the byte ([hex::encode] and the [{:x}] format),
    and that the text determines the bytes. *)

From Stdlib Require Import ZArith Lia Ascii.
From stdpp Require Import base gmap sets list sorting strings pretty fin_maps numbers relations.
From S2P Require Import Prelude Bytes Text JobCore.

#[local] Open Scope Z_scope.

(** A string of bytes below 256, and [hex::encode] *)
Definition byte_ascii (b : Byte8) : ascii := ascii_of_N (Z.to_N b).
Definition string_of_bytes (l : list Byte8) : string := foldr (λ b s, String (byte_ascii b) s) EmptyString l.
Definition hex_encode (l : list Byte8) : string := string_of_bytes (mjoin (hex02 <$> l)).

Lemma byte_ascii_inj b b' : is_byte b → is_byte b' → byte_ascii b = byte_ascii b' → b = b'.
Proof.
  unfold is_byte, byte_ascii. intros Hb Hb' Heq.
  apply (f_equal N_of_ascii) in Heq. rewrite !N_ascii_embedding in Heq by lia. lia.
Qed.

Lemma hex_digit_byte d : 0 ≤ d < 16 → is_byte (hex_digit d) ∧ byte_ascii (hex_digit d) ≠ ":"%char.
Proof.
  intros Hd. unfold is_byte, byte_ascii, hex_digit. split; [destruct (_ <? _); lia|].
  intros Heq. apply (f_equal N_of_ascii) in Heq. revert Heq.
  destruct (Z.ltb_spec d 10); rewrite N_ascii_embedding by lia; cbn; lia.
Qed.

Lemma hex_digit_inj d d' : 0 ≤ d < 16 → 0 ≤ d' < 16 → hex_digit d = hex_digit d' → d = d'.
Proof. unfold hex_digit. destruct (Z.ltb_spec d 10), (Z.ltb_spec d' 10); lia. Qed.

Lemma byte_nibbles b : is_byte b → 0 ≤ b / 16 < 16 ∧ 0 ≤ b mod 16 < 16.
Proof.
  unfold is_byte. intros Hb. split; [|by apply Z.mod_pos_bound].
  split; [apply Z.div_pos; lia|apply Z.div_lt_upper_bound; lia].
Qed.

(** The text of bytes in hexadecimal has no colon and determines the bytes. *)
Lemma hex_encode_cons b l :
  hex_encode (b :: l)
  = String (byte_ascii (hex_digit (b / 16))) (String (byte_ascii (hex_digit (b mod 16))) (hex_encode l)).
Proof. done. Qed.

Lemma hex_encode_no_colon l : Forall is_byte l → no_colon (hex_encode l).
Proof.
  induction 1 as [|b l Hb Hl IH]; [done|]. rewrite hex_encode_cons. destruct (byte_nibbles b Hb).
  split; [by apply hex_digit_byte|]. split; [by apply hex_digit_byte|done].
Qed.

Lemma hex_encode_inj l l' : Forall is_byte l → Forall is_byte l' → hex_encode l = hex_encode l' → l = l'.
Proof.
  intros Hl. revert l'. induction Hl as [|b l Hb Hl IH]; intros [|b' l'] Hl' Heq; [done..|].
  apply Forall_cons in Hl' as [Hb' Hl']. rewrite !hex_encode_cons in Heq. injection Heq as Hhi Hlo Heq.
  destruct (byte_nibbles b Hb) as [Hd Hm], (byte_nibbles b' Hb') as [Hd' Hm'].
  apply byte_ascii_inj, hex_digit_inj in Hhi; [|by try apply hex_digit_byte..].
  apply byte_ascii_inj, hex_digit_inj in Hlo; [|by try apply hex_digit_byte..].
  rewrite (IH l') by done. f_equal. rewrite (Z.div_mod b 16), (Z.div_mod b' 16) by lia. congruence.
Qed.

(** The bytes of a text determine it. *)
Lemma str_bytes_inj s s' : str_bytes s = str_bytes s' → s = s'.
Proof.
  unfold str_bytes. intros Heq. apply list_fmap_eq_inj in Heq.
  - rewrite <-(String.string_of_list_ascii_of_string s), <-(String.string_of_list_ascii_of_string s'). by rewrite Heq.
  - intros a a' Ha. apply N2Z.inj in Ha. rewrite <-(ascii_N_embedding a), <-(ascii_N_embedding a'). by rewrite Ha.
Qed.
