(* ===== verification/Http.v ===== *)
(** * Headers and hexadecimal input

    The header maps of the HTTP servers, and [hex::decode]. *)

From Stdlib Require Import ZArith Lia Ascii.
From stdpp Require Import base gmap sets list sorting strings pretty fin_maps numbers relations.
From S2P Require Import Prelude Bytes Text JobCore Hex.

#[local] Open Scope Z_scope.

(** Header maps: each name has its values in order *)
Abbreviation HeaderMap := (gmap string (list (list Byte8))).

(** [HeaderMap::get] and [HeaderValue::to_str] *)
Definition header_get (h : HeaderMap) (name : string) : option (list Byte8) := h !! name ≫= list.head.
Definition header_to_str (v : list Byte8) : option string :=
  if forallb is_visible_ascii v then Some (string_of_bytes v) else None.

(** ** [hex::decode] *)

(** The value of a digit of either case *)
Definition hex_value (a : ascii) : option Z :=
  let n := Z.of_N (N_of_ascii a) in
  if (48 <=? n) && (n <=? 57) then Some (n - 48)
  else if (97 <=? n) && (n <=? 102) then Some (n - 87)
  else if (65 <=? n) && (n <=? 70) then Some (n - 55)
  else None.
Fixpoint decode_hex (s : string) : option (list Byte8) :=
  match s with
  | EmptyString => Some []
  | String a s =>
      match s with
      | EmptyString => None
      | String b s => hi ← hex_value a; lo ← hex_value b; l ← decode_hex s; Some (hi * 16 + lo :: l)
      end
  end.

Lemma hex_value_digit d : 0 ≤ d < 16 → hex_value (byte_ascii (hex_digit d)) = Some d.
Proof.
  intros Hd. assert (d ∈ seqZ 0 16) as Hin by (apply elem_of_seqZ; lia). clear Hd.
  revert d Hin. apply list.Forall_forall. by repeat constructor.
Qed.

Lemma decode_hex_encode l : Forall is_byte l → decode_hex (hex_encode l) = Some l.
Proof.
  induction 1 as [|b l Hb Hl IH]; [done|]. rewrite hex_encode_cons. destruct (byte_nibbles b Hb) as [Hd Hm].
  cbn [decode_hex]. rewrite !hex_value_digit by done. cbn [mbind option_bind]. rewrite IH. cbn. f_equal. f_equal.
  rewrite (Z.div_mod b 16) at 3 by lia. lia.
Qed.
