(* ===== verification/TangleExtract.v ===== *)
(** * Extractors and the submission layer ([tangle-extra/src/extract], [layers.rs])

    How the fields of a job call are read back from its metadata, how the body
    is decoded into an argument, and the layer that copies the call and service
    identifiers of a call to its result.  The compact length code is the one
    [cli/src/command/jobs/helpers.rs] writes arguments with.  [SolValue] stands
    for the ABI codec of [alloy-sol-types]. *)

From Stdlib Require Import ZArith Lia.
From stdpp Require Import base gmap sets list sorting strings fin_maps numbers relations.
From S2P Require Import Prelude Bytes JobCore.

#[local] Open Scope Z_scope.

(** ** Metadata extractors *)

Definition CallId_KEY : string := "X-TANGLE-CALL-ID".
Definition ServiceId_KEY : string := "X-TANGLE-SERVICE-ID".
Definition JobIndex_KEY : string := "X-TANGLE-JOB-INDEX".
Definition BlockNumber_KEY : string := "X-TANGLE-BLOCK-NUMBER".
Definition BlockHash_KEY : string := "X-TANGLE-BLOCK-HASH".
Definition Timestamp_KEY : string := "X-TANGLE-TIMESTAMP".
Definition Caller_KEY : string := "X-TANGLE-CALLER".

(** The two variants that every rejection of the module has *)
Inductive Rejection := MissingMetadata | InvalidMetadata.

Section extract.
  Context {Ext : Type}.

(** The body shared by the extractors of a [u64] *)
Definition extract_u64 (key : string) (parts : Parts Ext) : result Rejection Z :=
  raw ← ok_or (metadata parts !! key) MissingMetadata;
  ok_or (mv_try_u64 raw) InvalidMetadata.

(** The body shared by the extractors of a byte array *)
Definition extract_array (n : nat) (key : string) (parts : Parts Ext)
    : result Rejection (list Byte8) :=
  raw ← ok_or (metadata parts !! key) MissingMetadata;
  ok_or (try_into_array n (mv_inner raw)) InvalidMetadata.

Definition CallId_try_from : Parts Ext → result Rejection Z := extract_u64 CallId_KEY.
Definition ServiceId_try_from : Parts Ext → result Rejection Z := extract_u64 ServiceId_KEY.
Definition BlockNumber_try_from : Parts Ext → result Rejection Z := extract_u64 BlockNumber_KEY.
Definition Timestamp_try_from : Parts Ext → result Rejection Z := extract_u64 Timestamp_KEY.
Definition BlockHash_try_from : Parts Ext → result Rejection (list Byte8) :=
  extract_array 32 BlockHash_KEY.
Definition Caller_try_from : Parts Ext → result Rejection (list Byte8) :=
  extract_array 20 Caller_KEY.

(** The job index is the first byte of its value, whatever follows. *)
Definition JobIndex_try_from (parts : Parts Ext) : result Rejection Z :=
  raw ← ok_or (metadata parts !! JobIndex_KEY) MissingMetadata;
  ok_or (hd_error (mv_inner raw)) InvalidMetadata.

(** [OptionalFromJobCallParts::from_job_call_parts] *)
Definition optional_from {A} (r : result Rejection A) : result Rejection (option A) :=
  match r with
  | Ok value => Ok (Some value)
  | Err MissingMetadata => Ok None
  | Err err => Err err
  end.

(** ** The submission layer *)

Context {E : Type}.

(** [TangleSubmissionService::call] with its future run to the end: [service]
    gives the result of the wrapped service *)
Definition submission_call {F} (service : JobCall Ext → result F (option (JobResult E)))
    (call : JobCall Ext) : result F (option (JobResult E)) :=
  match CallId_try_from (head call), ServiceId_try_from (head call) with
  | Ok call_id, Ok service_id =>
      r ← service call;
      Ok (match r with
          | Some (JobOk m b) =>
              Some (JobOk (<[ServiceId_KEY := mv_from_u64 service_id]>
                            (<[CallId_KEY := mv_from_u64 call_id]> m)) b)
          | Some (JobErr e) => Some (JobErr e)
          | None => None
          end)
  | _, _ => Ok None
  end.

End extract.

(** ** The compact length code *)

(** [decode_compact_length]: the length and the bytes it took *)
Definition decode_compact_length (data : list Byte8) : option (Z * Z) :=
  match data with
  | [] => None
  | first :: rest =>
    if first <? 128 then Some (first, 1)
    else if first <? 192 then
      match rest with
      | b1 :: _ => Some (Z.lor (Z.shiftl (Z.land first 63) 8) b1, 2)
      | _ => None
      end
    else if first <? 224 then
      match rest with
      | b1 :: b2 :: _ =>
          Some (Z.lor (Z.lor (Z.shiftl (Z.land first 31) 16) (Z.shiftl b1 8)) b2, 3)
      | _ => None
      end
    else if first <? 240 then
      match rest with
      | b1 :: b2 :: b3 :: _ =>
          Some (Z.lor (Z.lor (Z.lor (Z.shiftl (Z.land first 15) 24) (Z.shiftl b1 16))
                 (Z.shiftl b2 8)) b3, 4)
      | _ => None
      end
    else
      match rest with
      | b1 :: b2 :: b3 :: b4 :: _ =>
          Some (Z.lor (Z.lor (Z.lor (Z.shiftl b1 24) (Z.shiftl b2 16)) (Z.shiftl b3 8)) b4, 5)
      | _ => None
      end
  end.

(** [x as u8] *)
Definition as_u8 (x : Z) : Byte8 := x mod 256.

(** [encode_compact_length] of the command-line tool, what it appends *)
Definition encode_compact_length (len : Z) : list Byte8 :=
  if len <? 128 then [as_u8 len]
  else if len <? 16384 then [Z.lor 128 (as_u8 (Z.shiftr len 8)); as_u8 (Z.land len 255)]
  else if len <? 2097152 then
    [Z.lor 192 (as_u8 (Z.shiftr len 16)); as_u8 (Z.land (Z.shiftr len 8) 255);
     as_u8 (Z.land len 255)]
  else if len <? 268435456 then
    [Z.lor 224 (as_u8 (Z.shiftr len 24)); as_u8 (Z.land (Z.shiftr len 16) 255);
     as_u8 (Z.land (Z.shiftr len 8) 255); as_u8 (Z.land len 255)]
  else
    [240; as_u8 (Z.land (Z.shiftr len 24) 255); as_u8 (Z.land (Z.shiftr len 16) 255);
     as_u8 (Z.land (Z.shiftr len 8) 255); as_u8 (Z.land len 255)].

(** [read_compact_length] of the command-line tool: the length and the cursor
    behind it, [None] an error *)
Definition read_compact_length (bytes : list Byte8) (cursor : Z) : option (Z * Z) :=
  let at_ (i : Z) := default 0 (bytes !! Z.to_nat (cursor + i)) in
  if zlen bytes <=? cursor then None
  else
    let first := at_ 0 in
    if Z.land first 128 =? 0 then Some (first, cursor + 1)
    else if Z.land first 192 =? 128 then
      if zlen bytes <? cursor + 2 then None
      else Some (Z.lor (Z.shiftl (Z.land first 63) 8) (at_ 1), cursor + 2)
    else if Z.land first 224 =? 192 then
      if zlen bytes <? cursor + 3 then None
      else Some (Z.lor (Z.lor (Z.shiftl (Z.land first 31) 16) (Z.shiftl (at_ 1) 8)) (at_ 2), cursor + 3)
    else
      if zlen bytes <? cursor + 4 then None
      else Some (Z.lor (Z.lor (Z.lor (Z.shiftl (Z.land first 15) 24) (Z.shiftl (at_ 1) 16))
                   (Z.shiftl (at_ 2) 8)) (at_ 3), cursor + 4).

(** [try_decode_compact_string] *)
Definition try_decode_compact_string (data : list Byte8) : option (list Byte8) :=
  '(len, header_size) ← decode_compact_length data;
  let string_end := header_size + len in
  if zlen data <? string_end then None
  else from_utf8 (slice data header_size string_end).

(** [try_decode_compact_single_string_struct] *)
Definition try_decode_compact_single_string_struct (data : list Byte8) : option (list Byte8) :=
  '(field_count, header_size) ← decode_compact_length data;
  if negb (field_count =? 1) then None
  else try_decode_compact_string (drop (Z.to_nat header_size) data).

(** [looks_like_abi_encoded] *)
Definition looks_like_abi_encoded (data : list Byte8) : bool :=
  if zlen data <? 64 then false
  else forallb (Z.eqb 0) (take 31 data) && (default 0 (data !! 31%nat) =? 32).

(** ** Job arguments *)

(** The ABI codec of a type: decoding with and without the outer offset, the
    name of the Solidity type, and the encodings of a string and of the
    one-tuple of a string *)
Class SolValue (T : Type) := {
  abi_decode : list Byte8 → option T;
  abi_decode_sequence : list Byte8 → option T;
  SOL_NAME : string;
}.

Class StringAbi := {
  abi_encode_string : list Byte8 → list Byte8;
  abi_encode_string_tuple : list Byte8 → list Byte8;
}.

Section arg.
  Context `{SolValue T} `{StringAbi}.

(** [a.or_else(b)] on decoding attempts *)
Definition or_else {A} (a b : option A) : option A := match a with Some x => Some x | None => b end.

Definition is_paren (a : Ascii.ascii) : bool := Ascii.eqb a (Ascii.ascii_of_N 40).

(** [try_decode_compact] *)
Definition try_decode_compact (data : list Byte8) : option T :=
  let name := String.list_ascii_of_string SOL_NAME in
  if match name with a :: _ => is_paren a | [] => false end || negb (existsb is_paren name) then
    or_else
      (s ← try_decode_compact_single_string_struct data; abi_decode (abi_encode_string_tuple s))
      (if bool_decide (SOL_NAME = "string") then
         s ← try_decode_compact_string data; abi_decode (abi_encode_string s)
       else None)
  else None.

(** [TangleArg::from_job_call]: [None] is [AbiDecodeError] *)
Definition tangle_arg_from_job_call {Ext} (call : JobCall Ext) : option T :=
  let body := body call in
  if looks_like_abi_encoded body then
    or_else (abi_decode body) (or_else (abi_decode_sequence body) (try_decode_compact body))
  else
    or_else (try_decode_compact body) (or_else (abi_decode body) (abi_decode_sequence body)).

End arg.

(** ** The length code: theorems *)

(** The arithmetic content of the bit operations of the code *)
Ltac bits_arith :=
  unfold as_u8;
  repeat match goal with
  | |- context [Z.land ?a 255] => change 255 with (2 ^ 8 - 1); rewrite (land_ones_mod a 8) by lia
  | |- context [Z.land ?a 63] => change 63 with (2 ^ 6 - 1); rewrite (land_ones_mod a 6) by lia
  | |- context [Z.land ?a 31] => change 31 with (2 ^ 5 - 1); rewrite (land_ones_mod a 5) by lia
  | |- context [Z.land ?a 15] => change 15 with (2 ^ 4 - 1); rewrite (land_ones_mod a 4) by lia
  | |- context [Z.shiftr ?a ?k] => rewrite (Z.shiftr_div_pow2 a k) by lia
  end.

Lemma be2 a b : is_byte b → Z.lor (Z.shiftl a 8) b = a * 256 + b.
Proof. intros H. rewrite lor_add by (unfold is_byte in H; lia). lia. Qed.

Lemma be3 a b c : is_byte b → is_byte c →
  Z.lor (Z.lor (Z.shiftl a 16) (Z.shiftl b 8)) c = a * 65536 + b * 256 + c.
Proof.
  unfold is_byte. intros Hb Hc.
  rewrite (lor_add 16) by (rewrite ?Z.shiftl_mul_pow2 by lia; lia).
  rewrite Z.shiftl_mul_pow2 by lia. replace (a * 2 ^ 16 + b * 2 ^ 8) with (Z.shiftl (a * 256 + b) 8)
    by (rewrite Z.shiftl_mul_pow2 by lia; lia).
  rewrite lor_add by lia. lia.
Qed.

Lemma be4 a b c d : is_byte b → is_byte c → is_byte d →
  Z.lor (Z.lor (Z.lor (Z.shiftl a 24) (Z.shiftl b 16)) (Z.shiftl c 8)) d
  = a * 16777216 + b * 65536 + c * 256 + d.
Proof.
  unfold is_byte. intros Hb Hc Hd.
  rewrite (lor_add 24) by (rewrite ?Z.shiftl_mul_pow2 by lia; lia).
  replace (a * 2 ^ 24 + Z.shiftl b 16) with (Z.shiftl (a * 256 + b) 16)
    by (rewrite !Z.shiftl_mul_pow2 by lia; lia).
  rewrite be3 by (unfold is_byte; lia). lia.
Qed.

(** Tagging the top byte and removing the tag again *)
Lemma tag6 x : 0 ≤ x < 64 → Z.lor 128 x = 128 + x ∧ Z.land (128 + x) 63 = x.
Proof.
  intros. change (Z.lor 128 x) with (Z.lor (Z.shiftl 2 6) x). rewrite lor_add by lia. split; [lia|].
  bits_arith. simpl. div_lia.
Qed.
Lemma tag5 x : 0 ≤ x < 32 → Z.lor 192 x = 192 + x ∧ Z.land (192 + x) 31 = x.
Proof.
  intros. change (Z.lor 192 x) with (Z.lor (Z.shiftl 6 5) x). rewrite lor_add by lia. split; [lia|].
  bits_arith. simpl. div_lia.
Qed.
Lemma tag4 x : 0 ≤ x < 16 → Z.lor 224 x = 224 + x ∧ Z.land (224 + x) 15 = x.
Proof.
  intros. change (Z.lor 224 x) with (Z.lor (Z.shiftl 14 4) x). rewrite lor_add by lia. split; [lia|].
  bits_arith. simpl. div_lia.
Qed.

Lemma as_u8_byte x : is_byte (as_u8 x).
Proof. unfold is_byte, as_u8. div_lia. Qed.

Lemma as_u8_land x : as_u8 (Z.land x 255) = x mod 256.
Proof. bits_arith. simpl. div_lia. Qed.

Lemma shr8 x k : 0 ≤ k → as_u8 (Z.shiftr x k) = x / 2 ^ k mod 256.
Proof. intros. unfold as_u8. by rewrite Z.shiftr_div_pow2. Qed.

Lemma decode_encode_length len rest :
  0 ≤ len < 2 ^ 32 →
  decode_compact_length (encode_compact_length len ++ rest)
  = Some (len, zlen (encode_compact_length len)).
Proof.
  intros Hlen. unfold encode_compact_length. rewrite !as_u8_land, !shr8, !Z.shiftr_div_pow2 by lia.
  destruct (Z.ltb_spec len 128); [|destruct (Z.ltb_spec len 16384);
    [|destruct (Z.ltb_spec len 2097152); [|destruct (Z.ltb_spec len 268435456)]]].
  - unfold as_u8. rewrite Z.mod_small by lia. cbn -[Z.ltb]. by destruct (Z.ltb_spec len 128); [|lia].
  - assert (0 ≤ len / 2 ^ 8 < 64) as Hr by div_lia. rewrite (Z.mod_small (len / 2 ^ 8)) by lia.
    destruct (tag6 _ Hr) as [-> Hl]. cbn -[Z.ltb Z.lor Z.shiftl Z.land Z.div Z.modulo Z.pow].
    destruct (Z.ltb_spec (128 + len / 2 ^ 8) 128); [lia|].
    destruct (Z.ltb_spec (128 + len / 2 ^ 8) 192); [|lia]. rewrite Hl, be2 by (unfold is_byte; div_lia).
    do 2 f_equal. div_lia.
  - assert (0 ≤ len / 2 ^ 16 < 32) as Hr by div_lia. rewrite (Z.mod_small (len / 2 ^ 16)) by lia.
    destruct (tag5 _ Hr) as [-> Hl]. cbn -[Z.ltb Z.lor Z.shiftl Z.land Z.div Z.modulo Z.pow].
    destruct (Z.ltb_spec (192 + len / 2 ^ 16) 128); [lia|].
    destruct (Z.ltb_spec (192 + len / 2 ^ 16) 192); [lia|].
    destruct (Z.ltb_spec (192 + len / 2 ^ 16) 224); [|lia].
    rewrite Hl, be3 by (unfold is_byte; div_lia). do 2 f_equal. div_lia.
  - assert (0 ≤ len / 2 ^ 24 < 16) as Hr by div_lia. rewrite (Z.mod_small (len / 2 ^ 24)) by lia.
    destruct (tag4 _ Hr) as [-> Hl]. cbn -[Z.ltb Z.lor Z.shiftl Z.land Z.div Z.modulo Z.pow].
    destruct (Z.ltb_spec (224 + len / 2 ^ 24) 128); [lia|].
    destruct (Z.ltb_spec (224 + len / 2 ^ 24) 192); [lia|].
    destruct (Z.ltb_spec (224 + len / 2 ^ 24) 224); [lia|].
    destruct (Z.ltb_spec (224 + len / 2 ^ 24) 240); [|lia].
    rewrite Hl, be4 by (unfold is_byte; div_lia). do 2 f_equal. div_lia.
  - cbn -[Z.lor Z.shiftl Z.land Z.div Z.modulo Z.pow].
    rewrite be4 by (unfold is_byte; div_lia). do 2 f_equal. div_lia.
Qed.

(** What the command-line tool writes for a length below [2^32] is read back,
    with the bytes it took, whatever follows. *)
Theorem compact_length_round_trip len rest :
  0 ≤ len < 2 ^ 32 →
  decode_compact_length (encode_compact_length len ++ rest)
  = Some (len, zlen (encode_compact_length len)).
Proof. apply decode_encode_length. Qed.

Lemma compact_length_round_trip_witness :
  0 ≤ 70000 < 2 ^ 32 ∧ decode_compact_length (encode_compact_length 70000 ++ [7]) = Some (70000, 3).
Proof. split; [lia|]. apply (compact_length_round_trip 70000 [7]). lia. Defined.

Lemma encode_compact_length_size len : 1 ≤ zlen (encode_compact_length len) ≤ 5.
Proof. unfold encode_compact_length. repeat case_match; unfold zlen; simpl; lia. Qed.

(** The encoding of a string: its length, then its bytes *)
Definition encode_compact_string (s : list Byte8) : list Byte8 :=
  encode_compact_length (zlen s) ++ s.

Lemma compact_string_round_trip s rest :
  zlen s < 2 ^ 32 → utf8_valid s = true →
  try_decode_compact_string (encode_compact_string s ++ rest) = Some s.
Proof.
  intros Hs Hu. unfold try_decode_compact_string, encode_compact_string. rewrite <-app_assoc.
  rewrite decode_encode_length by (pose proof (zlen_nonneg s); lia). cbn [mbind option_bind].
  destruct (Z.ltb_spec (zlen (encode_compact_length (zlen s) ++ s ++ rest))
    (zlen (encode_compact_length (zlen s)) + zlen s)) as [Hlt|_].
  { rewrite !zlen_app in Hlt. pose proof (zlen_nonneg rest). lia. }
  rewrite slice_mid by lia. unfold from_utf8. by rewrite Hu.
Qed.

(** The first byte tells a compact string from an ABI encoding. *)
Lemma compact_string_not_abi s : zlen s < 2 ^ 32 → looks_like_abi_encoded (encode_compact_string s) = false.
Proof.
  intros Hs. unfold looks_like_abi_encoded. case_match eqn:Hlen; [done|].
  assert (∃ b rest, encode_compact_length (zlen s) = b :: rest ∧ (b = 0 → zlen s = 0)) as (b & rest & He & H0).
  { unfold encode_compact_length. pose proof (zlen_nonneg s).
    repeat case_match; eexists _, _; (split; [reflexivity|]); to_prop.
    - unfold as_u8. rewrite Z.mod_small; lia.
    - intros [? _]%Z.lor_eq_0_iff; lia.
    - intros [? _]%Z.lor_eq_0_iff; lia.
    - intros [? _]%Z.lor_eq_0_iff; lia.
    - done. }
  unfold encode_compact_string in *. apply Z.ltb_ge in Hlen. rewrite zlen_app in Hlen.
  rewrite He. cbn -[Z.eqb]. destruct (Z.eqb_spec 0 b) as [<-|]; [|done].
  pose proof (encode_compact_length_size (zlen s)). specialize (H0 eq_refl). lia.
Qed.

(** Only the one-character string of the NUL character can be mistaken for a
    struct of one string. *)
Lemma compact_string_not_struct s :
  zlen s < 2 ^ 32 → s ≠ [0] → Forall is_byte s →
  try_decode_compact_single_string_struct (encode_compact_string s) = None.
Proof.
  intros Hs Hne Hb. unfold try_decode_compact_single_string_struct, encode_compact_string.
  rewrite decode_encode_length by (pose proof (zlen_nonneg s); lia). cbn [mbind option_bind].
  destruct (Z.eqb_spec (zlen s) 1) as [H1|]; [|done]. cbn [negb].
  destruct s as [|c [|]]; [done| |unfold zlen in H1; simpl in H1; lia].
  rewrite H1. change (drop _ _) with [c]. inversion_clear Hb as [|? ? Hc _]. unfold is_byte in Hc.
  unfold try_decode_compact_string. cbn -[Z.ltb].
  repeat (case_match; try done). cbn -[Z.ltb]. simplify_eq/=. destruct (Z.ltb_spec (zlen [c]) (1 + c)); [done|].
  unfold zlen in *. simpl in *. assert (c = 0) by lia. congruence.
Qed.

Section arg_theorems.
  Context `{SolValue T} `{StringAbi} (inject : list Byte8 → T).
  Hypothesis name_string : SOL_NAME = "string".
  Hypothesis abi_string : ∀ s, abi_decode (abi_encode_string s) = Some (inject s).

(** A string argument written by the command-line tool reaches the job as it
    was given. *)
Lemma string_argument_round_trip {Ext} (parts : Parts Ext) s :
  zlen s < 2 ^ 32 → utf8_valid s = true → Forall is_byte s → s ≠ [0] →
  tangle_arg_from_job_call (mkJobCall parts (encode_compact_string s)) = Some (inject s).
Proof.
  intros Hs Hu Hb Hne. unfold tangle_arg_from_job_call. cbn [body].
  rewrite compact_string_not_abi by done. unfold try_decode_compact. rewrite name_string.
  rewrite compact_string_not_struct by done. cbn [mbind option_bind or_else].
  pose proof (compact_string_round_trip s [] Hs Hu) as Hr. rewrite app_nil_r in Hr.
  cbn. rewrite Hr. cbn. by rewrite abi_string.
Qed.

End arg_theorems.

(** ** Extractors and layer: theorems *)

Section extract_theorems.
  Context {Ext E : Type}.

Lemma extract_u64_inserted (parts : Parts Ext) key x :
  is_u64 x → metadata parts !! key = Some (mv_from_u64 x) → extract_u64 key parts = Ok x.
Proof. intros Hx Hm. unfold extract_u64. rewrite Hm. cbn. by rewrite mv_u64_round_trip. Qed.

Lemma extract_array_inserted (parts : Parts Ext) n key l :
  length l = n → metadata parts !! key = Some (mv_from_bytes l) → extract_array n key parts = Ok l.
Proof.
  intros Hl Hm. unfold extract_array, try_into_array. rewrite Hm. cbn [ok_or mbind result_bind mv_from_bytes mv_inner].
  by rewrite bool_decide_true.
Qed.

(** The layer never changes the body of a result, passes errors through, and
    runs no service for a call without both identifiers; a result that it lets
    through carries exactly the identifiers of its call. *)
Lemma submission_call_spec {F} (service : JobCall Ext → result F (option (JobResult E))) call :
  submission_call service call
  = match CallId_try_from (head call), ServiceId_try_from (head call) with
    | Ok call_id, Ok service_id =>
        option_map (update_metadata (λ m, <[ServiceId_KEY := mv_from_u64 service_id]>
                                            (<[CallId_KEY := mv_from_u64 call_id]> m)))
        <$> service call
    | _, _ => Ok None
    end.
Proof.
  unfold submission_call. destruct (CallId_try_from (head call)), (ServiceId_try_from (head call)); try done.
  by destruct (service call) as [[[m b|e]|]|].
Qed.

End extract_theorems.
