(* ===== verification/Router.v ===== *)
(** * Job router ([router/src/job_id_router.rs], [routing.rs], [boxed.rs])

    The table from job identifiers to handlers, with the routes that are always
    called and the fallback, and the service that calls the matching handlers
    and collects their results.  A handler is a route, a function from a call to
    a future, or a job that still lacks its context.  Futures are a parameter;
    what they return and in which order they finish is given to the operation
    that awaits them. *)

From Stdlib Require Import ZArith Lia.
From stdpp Require Import base gmap sets list sorting strings fin_maps numbers relations.
From S2P Require Import Prelude Bytes JobCore.

#[local] Open Scope Z_scope.

Section router.
  Context {Ext Fut : Type}.

(** [Route]: a cloneable service, called once *)
Abbreviation Route := (JobCall Ext → Fut).

Inductive Handler (Ctx : Type) :=
| HRoute (route : Route)
| HBoxed (into_route : Ctx → Route).
Arguments HRoute {Ctx} route.
Arguments HBoxed {Ctx} into_route.

Record JobIdRouter (Ctx : Type) := mkRouter {
  routes : gmap Z (Handler Ctx);
  job_to_route_id : gmap JobId Z;
  prev_route_id : Z;
  always_routes : list (Handler Ctx);
  fallback : option (Handler Ctx);
}.
Arguments mkRouter {Ctx}.
Arguments routes {Ctx}.
Arguments job_to_route_id {Ctx}.
Arguments prev_route_id {Ctx}.
Arguments always_routes {Ctx}.
Arguments fallback {Ctx}.

(** [JobIdRouter::default] *)
Definition router_default {Ctx} : JobIdRouter Ctx := mkRouter ∅ ∅ 0 [] None.

(** [Handler::layer] *)
Definition handler_layer {Ctx} (layer : Route → Route) (h : Handler Ctx) : Handler Ctx :=
  match h with
  | HRoute route => HRoute (layer route)
  | HBoxed into_route => HBoxed (λ ctx, layer (into_route ctx))
  end.

(** Calling a handler with a context *)
Definition call_handler {Ctx} (h : Handler Ctx) (call : JobCall Ext) (context : Ctx) : Fut :=
  match h with
  | HRoute route => route call
  | HBoxed into_route => into_route context call
  end.

(** [JobIdRouter::next_route_id]: [None] is the panic at [u32::MAX] routes *)
Definition next_route_id {Ctx} (r : JobIdRouter Ctx) : option (Z * JobIdRouter Ctx) :=
  let next_id := prev_route_id r + 1 in
  if u32_max <? next_id then None
  else Some (next_id, mkRouter (routes r) (job_to_route_id r) next_id (always_routes r) (fallback r)).

(** [JobIdRouter::route] and [JobIdRouter::route_service]: they differ in the
    kind of handler only *)
Definition add_route {Ctx} (id : JobId) (h : Handler Ctx) (r : JobIdRouter Ctx)
    : option (JobIdRouter Ctx) :=
  '(rid, r) ← next_route_id r;
  Some (mkRouter (<[rid := h]> (routes r)) (<[id := rid]> (job_to_route_id r))
          (prev_route_id r) (always_routes r) (fallback r)).

Definition route {Ctx} (id : JobId) (job : Ctx → Route) : JobIdRouter Ctx → option (JobIdRouter Ctx) :=
  add_route id (HBoxed job).
Definition route_service {Ctx} (id : JobId) (service : Route)
    : JobIdRouter Ctx → option (JobIdRouter Ctx) :=
  add_route id (HRoute service).

(** [JobIdRouter::always]: a fallback set before is dropped *)
Definition always {Ctx} (job : Ctx → Route) (r : JobIdRouter Ctx) : JobIdRouter Ctx :=
  mkRouter (routes r) (job_to_route_id r) (prev_route_id r)
    (always_routes r ++ [HBoxed job]) None.

(** [JobIdRouter::fallback] *)
Definition set_fallback {Ctx} (job : Ctx → Route) (r : JobIdRouter Ctx) : JobIdRouter Ctx :=
  mkRouter (routes r) (job_to_route_id r) (prev_route_id r) (always_routes r) (Some (HBoxed job)).

(** [JobIdRouter::layer] *)
Definition layer {Ctx} (l : Route → Route) (r : JobIdRouter Ctx) : JobIdRouter Ctx :=
  mkRouter (handler_layer l <$> routes r) (job_to_route_id r) (prev_route_id r)
    (handler_layer l <$> always_routes r) (handler_layer l <$> fallback r).

(** [JobIdRouter::has_routes] *)
Definition has_routes {Ctx} (r : JobIdRouter Ctx) : bool := negb (bool_decide (routes r = ∅)).

(** [JobIdRouter::with_context] *)
Definition give_context {Ctx Ctx2} (context : Ctx) (h : Handler Ctx) : Handler Ctx2 :=
  match h with
  | HRoute route => HRoute route
  | HBoxed into_route => HRoute (into_route context)
  end.

Definition with_context {Ctx Ctx2} (context : Ctx) (r : JobIdRouter Ctx) : JobIdRouter Ctx2 :=
  mkRouter (give_context context <$> routes r) (job_to_route_id r) (prev_route_id r)
    (give_context context <$> always_routes r) (give_context context <$> fallback r).

(** [JobIdRouter::call_always_routes]: [None] gives the call and context back *)
Definition call_always_routes {Ctx} (r : JobIdRouter Ctx) (call : JobCall Ext) (context : Ctx)
    : option (list Fut) :=
  if bool_decide (always_routes r = []) then None
  else Some ((λ h, call_handler h call context) <$> always_routes r).

(** Outcome of the routing functions: the futures of the handlers called, the
    call given back, or the panic of a route that is missing from the table *)
Inductive Routed := Matched (futures : list Fut) | NotMatched | RoutePanic.

(** [JobIdRouter::call_with_context] *)
Definition table_call_with_context {Ctx} (r : JobIdRouter Ctx) (call : JobCall Ext) (context : Ctx)
    : Routed :=
  match job_to_route_id r !! job_id (head call) with
  | None =>
      match call_always_routes r call context with
      | Some futures => Matched futures
      | None => NotMatched
      end
  | Some rid =>
      match routes r !! rid with
      | None => RoutePanic
      | Some handler =>
          let matched := call_handler handler call context in
          match call_always_routes r call context with
          | Some futures => Matched (matched :: futures)
          | None => Matched [matched]
          end
      end
  end.

(** [JobIdRouter::call_fallback] *)
Definition call_fallback {Ctx} (r : JobIdRouter Ctx) (call : JobCall Ext) (context : Ctx)
    : option Fut :=
  h ← fallback r; Some (call_handler h call context).

(** [Router::call_with_context] *)
Definition call_with_context {Ctx} (r : JobIdRouter Ctx) (call : JobCall Ext) (context : Ctx)
    : Routed :=
  match table_call_with_context r call context with
  | NotMatched =>
      match call_fallback r call context with
      | Some future => Matched [future]
      | None => NotMatched
      end
  | outcome => outcome
  end.

(** The loop of [Router::call] over the futures in the order they finish *)
Fixpoint collect_results {E F} (items : list (result F (option (JobResult E))))
    : result F (list (JobResult E)) :=
  match items with
  | [] => Ok []
  | Ok (Some job) :: items => results ← collect_results items; Ok (job :: results)
  | Ok None :: items => collect_results items
  | Err e :: _ => Err e
  end.

(** [<Router<()> as Service>::call]: [complete] awaits the futures, the outer
    option is the panic *)
Definition router_call {E F} (complete : list Fut → list (result F (option (JobResult E))))
    (r : JobIdRouter unit) (call : JobCall Ext) : option (result F (option (list (JobResult E)))) :=
  match call_with_context r call tt with
  | Matched futures => Some (Some <$> collect_results (complete futures))
  | NotMatched => Some (Ok None)
  | RoutePanic => None
  end.

End router.
Arguments Handler : clear implicits.
Arguments JobIdRouter : clear implicits.
Arguments HRoute {Ext Fut Ctx} route.
Arguments HBoxed {Ext Fut Ctx} into_route.
Arguments routes {Ext Fut Ctx} _.
Arguments job_to_route_id {Ext Fut Ctx} _.
Arguments prev_route_id {Ext Fut Ctx} _.
Arguments always_routes {Ext Fut Ctx} _.
Arguments fallback {Ext Fut Ctx} _.
Arguments mkRouter {Ext Fut Ctx}.
Arguments Routed : clear implicits.
Arguments Matched {Fut} futures.
Arguments NotMatched {Fut}.
Arguments RoutePanic {Fut}.

(** ** Specification: what a sequence of registrations means *)

Section spec.
  Context {Ext Fut Ctx : Type}.

Inductive Registration :=
| RRoute (id : JobId) (job : Ctx → JobCall Ext → Fut)
| RService (id : JobId) (service : JobCall Ext → Fut)
| RAlways (job : Ctx → JobCall Ext → Fut)
| RFallback (job : Ctx → JobCall Ext → Fut).

Definition register (r : JobIdRouter Ext Fut Ctx) (g : Registration)
    : option (JobIdRouter Ext Fut Ctx) :=
  match g with
  | RRoute id job => route id job r
  | RService id service => route_service id service r
  | RAlways job => Some (always job r)
  | RFallback job => Some (set_fallback job r)
  end.

(** Building a router by a chain of registrations *)
Fixpoint build (r : JobIdRouter Ext Fut Ctx) (gs : list Registration)
    : option (JobIdRouter Ext Fut Ctx) :=
  match gs with
  | [] => Some r
  | g :: gs => r ← register r g; build r gs
  end.

(** The handler last registered for an identifier *)
Definition spec_route (gs : list Registration) (id : JobId) : option (Handler Ext Fut Ctx) :=
  foldl (λ acc g, match g with
    | RRoute i job => if decide (i = id) then Some (HBoxed job) else acc
    | RService i service => if decide (i = id) then Some (HRoute service) else acc
    | _ => acc
    end) None gs.

(** The handlers that are always called, in the order of registration *)
Definition spec_always (gs : list Registration) : list (Handler Ext Fut Ctx) :=
  omap (λ g, match g with RAlways job => Some (HBoxed job) | _ => None end) gs.

Definition spec_fallback (gs : list Registration) : option (Handler Ext Fut Ctx) :=
  foldl (λ acc g, match g with RFallback job => Some (HBoxed job) | _ => acc end) None gs.

(** The handlers a call with this identifier reaches: its own and those that
    are always called, or the fallback when there are none *)
Definition spec_handlers (gs : list Registration) (id : JobId) : list (Handler Ext Fut Ctx) :=
  match option_list (spec_route gs id) ++ spec_always gs with
  | [] => option_list (spec_fallback gs)
  | hs => hs
  end.

Definition is_route (g : Registration) : bool :=
  match g with RRoute _ _ | RService _ _ => true | _ => false end.

(** How a router relates to the registrations that built it *)
Record represents (r : JobIdRouter Ext Fut Ctx) (gs : list Registration) : Prop := {
  rep_route id : (job_to_route_id r !! id ≫= λ rid, routes r !! rid) = spec_route gs id;
  rep_dom id rid : job_to_route_id r !! id = Some rid → is_Some (routes r !! rid);
  rep_ids rid : is_Some (routes r !! rid) → rid ≤ prev_route_id r;
  rep_targets id rid : job_to_route_id r !! id = Some rid → rid ≤ prev_route_id r;
  rep_always : always_routes r = spec_always gs;
  rep_fallback : spec_always gs = [] → fallback r = spec_fallback gs;
  rep_count : prev_route_id r = Z.of_nat (length (List.filter is_route gs));
}.

Lemma spec_route_snoc gs g id :
  spec_route (gs ++ [g]) id
  = match g with
    | RRoute i job => if decide (i = id) then Some (HBoxed job) else spec_route gs id
    | RService i service => if decide (i = id) then Some (HRoute service) else spec_route gs id
    | _ => spec_route gs id
    end.
Proof. unfold spec_route. by rewrite foldl_app. Qed.

Lemma spec_fallback_snoc gs g :
  spec_fallback (gs ++ [g])
  = match g with RFallback job => Some (HBoxed job) | _ => spec_fallback gs end.
Proof. unfold spec_fallback. by rewrite foldl_app. Qed.

Lemma represents_default : represents router_default [].
Proof.
  split; try done; intros; simpl in *; rewrite ?lookup_empty in *; try done.
Qed.

(** Adding a route, of either kind *)
Lemma represents_add_route r gs g id h r' :
  is_route g = true →
  (∀ i, spec_route (gs ++ [g]) i = if decide (id = i) then Some h else spec_route gs i) →
  represents r gs → add_route id h r = Some r' → represents r' (gs ++ [g]).
Proof.
  intros Hg Hs Hr Ha. unfold add_route, next_route_id in Ha. case_match; [done|].
  cbn in Ha. simplify_eq.
  assert (Hnew : ∀ rid, rid = prev_route_id r + 1 → routes r !! rid = None).
  { intros rid ->. destruct (routes r !! (prev_route_id r + 1)) eqn:Hl; [|done].
    pose proof (rep_ids _ _ Hr (prev_route_id r + 1)) as Hi. rewrite Hl in Hi. specialize (Hi ltac:(eauto)). lia. }
  assert (Halw : spec_always (gs ++ [g]) = spec_always gs).
  { unfold spec_always. rewrite omap_app. destruct g; by rewrite ?app_nil_r. }
  assert (Hfb : spec_fallback (gs ++ [g]) = spec_fallback gs).
  { rewrite spec_fallback_snoc. by destruct g. }
  split; cbn.
  - intros i. rewrite Hs. destruct (decide (id = i)) as [->|Hne].
    + rewrite lookup_insert_eq. cbn. by rewrite lookup_insert_eq.
    + rewrite lookup_insert_ne by done. rewrite <-(rep_route _ _ Hr).
      destruct (job_to_route_id r !! i) as [rid|] eqn:Hi; [|done]. cbn.
      rewrite lookup_insert_ne; [done|]. pose proof (rep_targets _ _ Hr _ _ Hi). lia.
  - intros i rid. destruct (decide (id = i)) as [->|Hne].
    + rewrite lookup_insert_eq. intros [= <-]. rewrite lookup_insert_eq. eauto.
    + rewrite lookup_insert_ne by done. intros Hi. pose proof (rep_targets _ _ Hr _ _ Hi).
      rewrite lookup_insert_ne by lia. by eapply rep_dom.
  - intros rid. destruct (decide (rid = prev_route_id r + 1)) as [->|]; [lia|].
    rewrite lookup_insert_ne by done. intros Hi. pose proof (rep_ids _ _ Hr _ Hi). lia.
  - intros i rid. destruct (decide (id = i)) as [->|Hne].
    + rewrite lookup_insert_eq. intros [= <-]. lia.
    + rewrite lookup_insert_ne by done. intros Hi. pose proof (rep_targets _ _ Hr _ _ Hi). lia.
  - rewrite Halw. apply Hr.
  - rewrite Halw, Hfb. apply Hr.
  - rewrite List.filter_app, length_app. cbn. rewrite Hg. cbn. rewrite (rep_count _ _ Hr). lia.
Qed.

Lemma represents_register r gs g r' :
  represents r gs → register r g = Some r' → represents r' (gs ++ [g]).
Proof.
  intros Hr Hg. destruct g as [id job|id service|job|job]; simpl in Hg.
  - eapply (represents_add_route r gs (RRoute id job)); try done. intros i. by rewrite spec_route_snoc.
  - eapply (represents_add_route r gs (RService id service)); try done. intros i. by rewrite spec_route_snoc.
  - simplify_eq. split; simpl; try apply Hr.
    + intros i. rewrite spec_route_snoc. apply Hr.
    + unfold spec_always. rewrite omap_app. cbn. f_equal. apply Hr.
    + unfold spec_always. rewrite omap_app. cbn. by destruct (omap _ gs).
    + rewrite List.filter_app. cbn. rewrite app_nil_r. apply Hr.
  - simplify_eq. split; simpl; try apply Hr.
    + intros i. rewrite spec_route_snoc. apply Hr.
    + unfold spec_always. rewrite omap_app. cbn. rewrite app_nil_r. apply Hr.
    + by rewrite spec_fallback_snoc.
    + rewrite List.filter_app. cbn. rewrite app_nil_r. apply Hr.
Qed.

Lemma represents_build r gs0 gs r' :
  represents r gs0 → build r gs = Some r' → represents r' (gs0 ++ gs).
Proof.
  revert r gs0. induction gs as [|g gs IH]; intros r gs0 Hr Hb; simpl in Hb.
  - simplify_eq. by rewrite app_nil_r.
  - destruct (register r g) as [r1|] eqn:Hg; [|done]. cbn in Hb.
    rewrite cons_middle, app_assoc. eapply IH; [|done]. by eapply represents_register.
Qed.

(** Registration fails only when the identifiers of routes run out. *)
Lemma build_total r gs :
  0 ≤ prev_route_id r →
  prev_route_id r + Z.of_nat (length (List.filter is_route gs)) ≤ u32_max → is_Some (build r gs).
Proof.
  revert r. induction gs as [|g gs IH]; intros r H0 Hle; simpl; [eauto|].
  assert (Hn : ∀ id h, is_route g = true → ∃ r', add_route id h r = Some r' ∧ prev_route_id r' = prev_route_id r + 1).
  { intros id h Hg. unfold add_route, next_route_id. simpl in Hle. rewrite Hg in Hle. simpl in Hle.
    destruct (Z.ltb_spec u32_max (prev_route_id r + 1)); [lia|]. cbn. eauto. }
  destruct g as [id job|id service|job|job]; simpl in *.
  - unfold route. destruct (Hn id (HBoxed job) eq_refl) as (r' & -> & Hp). cbn. apply IH; lia.
  - unfold route_service. destruct (Hn id (HRoute service) eq_refl) as (r' & -> & Hp). cbn. apply IH; lia.
  - apply IH; done.
  - apply IH; done.
Qed.

(** What a call reaches, in a router that represents its registrations *)
Lemma call_represented r gs call ctx :
  represents r gs →
  call_with_context r call ctx
  = match spec_handlers gs (job_id (head call)) with
    | [] => NotMatched
    | hs => Matched ((λ h, call_handler h call ctx) <$> hs)
    end.
Proof.
  intros Hr. unfold call_with_context, table_call_with_context, spec_handlers, call_always_routes, call_fallback.
  rewrite <-(rep_route _ _ Hr), (rep_always _ _ Hr).
  destruct (job_to_route_id r !! job_id (head call)) as [rid|] eqn:Hj; cbn.
  - destruct (rep_dom _ _ Hr _ _ Hj) as [h ->]. cbn. case_bool_decide as Ha; [by rewrite Ha|done].
  - case_bool_decide as Ha.
    + rewrite Ha, (rep_fallback _ _ Hr) by done. by destruct (spec_fallback gs).
    + by destruct (spec_always gs).
Qed.

(** C16. A router built by any chain of fewer than [2^32] routes exists, never
    panics, and calls exactly the handler last registered for the identifier
    followed by the handlers that are always called, or the last fallback when
    there are none of these; without a fallback the call is ignored. *)
Theorem router_dispatch gs call ctx :
  Z.of_nat (length (List.filter is_route gs)) ≤ u32_max →
  ∃ r, build router_default gs = Some r ∧
    call_with_context r call ctx
    = match spec_handlers gs (job_id (head call)) with
      | [] => NotMatched
      | hs => Matched ((λ h, call_handler h call ctx) <$> hs)
      end.
Proof.
  intros Hn. destruct (build_total router_default gs) as [r Hb]; [done|simpl; lia|].
  exists r. split; [done|]. apply call_represented.
  eapply (represents_build _ []); [apply represents_default|done].
Qed.

End spec.

(** ** Contexts, layers and results *)

Section router_theorems.
  Context {Ext Fut : Type}.

Lemma call_give_context {Ctx Ctx2} (ctx : Ctx) (ctx2 : Ctx2) (h : Handler Ext Fut Ctx) call :
  call_handler (give_context ctx h) call ctx2 = call_handler h call ctx.
Proof. by destruct h. Qed.

Lemma call_handler_layer {Ctx} (ctx : Ctx) l (h : Handler Ext Fut Ctx) call :
  call_handler (handler_layer l h) call ctx = l (λ c, call_handler h c ctx) call.
Proof. by destruct h. Qed.

(** The handlers a call with this identifier reaches in a router *)
Definition reached {Ctx} (r : JobIdRouter Ext Fut Ctx) (id : JobId) : list (Handler Ext Fut Ctx) :=
  match option_list (job_to_route_id r !! id ≫= λ rid, routes r !! rid) ++ always_routes r with
  | [] => option_list (fallback r)
  | hs => hs
  end.

(** No identifier leads to a missing route. *)
Definition table_ok {Ctx} (r : JobIdRouter Ext Fut Ctx) : Prop :=
  ∀ id rid, job_to_route_id r !! id = Some rid → is_Some (routes r !! rid).

Lemma built_table_ok {Ctx} gs (r : JobIdRouter Ext Fut Ctx) :
  build router_default gs = Some r → table_ok r.
Proof. intros Hb id rid. eapply rep_dom, (represents_build _ []); [apply represents_default|done]. Qed.

Lemma call_reached {Ctx} (r : JobIdRouter Ext Fut Ctx) call ctx :
  table_ok r →
  call_with_context r call ctx
  = match reached r (job_id (head call)) with
    | [] => NotMatched
    | hs => Matched ((λ h, call_handler h call ctx) <$> hs)
    end.
Proof.
  intros Hok. unfold call_with_context, table_call_with_context, reached, call_always_routes, call_fallback.
  destruct (job_to_route_id r !! job_id (head call)) as [rid|] eqn:Hj; cbn.
  - destruct (Hok _ _ Hj) as [h ->]. cbn. case_bool_decide as Ha; [by rewrite Ha|done].
  - case_bool_decide as Ha; [rewrite Ha; by destruct (fallback r)|by destruct (always_routes r)].
Qed.

(** Changing every handler of a router *)
Definition map_handlers {Ctx Ctx2} (f : Handler Ext Fut Ctx → Handler Ext Fut Ctx2)
    (r : JobIdRouter Ext Fut Ctx) : JobIdRouter Ext Fut Ctx2 :=
  mkRouter (f <$> routes r) (job_to_route_id r) (prev_route_id r)
    (f <$> always_routes r) (f <$> fallback r).

Lemma call_map_handlers {Ctx Ctx2} (f : Handler Ext Fut Ctx → Handler Ext Fut Ctx2) r call ctx2 :
  table_ok r →
  call_with_context (map_handlers f r) call ctx2
  = match reached r (job_id (head call)) with
    | [] => NotMatched
    | hs => Matched ((λ h, call_handler (f h) call ctx2) <$> hs)
    end.
Proof.
  intros Hok.
  assert (Hr : reached (map_handlers f r) (job_id (head call)) = f <$> reached r (job_id (head call))).
  { unfold reached. cbn.
    assert (option_list (job_to_route_id r !! job_id (head call) ≫= λ rid, (f <$> routes r) !! rid)
      = f <$> option_list (job_to_route_id r !! job_id (head call) ≫= λ rid, routes r !! rid)) as ->.
    { destruct (job_to_route_id r !! _) as [rid|]; [|done]. cbn. rewrite lookup_fmap.
      by destruct (routes r !! rid). }
    rewrite <-fmap_app. destruct (option_list _ ++ always_routes r); [|done]. by destruct (fallback r). }
  rewrite call_reached, Hr.
  - destruct (reached r _) as [|h hs]; [done|]. cbn. do 2 f_equal. by rewrite <-list_fmap_compose.
  - intros id rid Hj. cbn in *. rewrite lookup_fmap. apply fmap_is_Some. by eapply Hok.
Qed.

Lemma table_ok_layer {Ctx} l (r : JobIdRouter Ext Fut Ctx) : table_ok r → table_ok (layer l r).
Proof. intros Hok id rid Hj. cbn in *. rewrite lookup_fmap. apply fmap_is_Some. by eapply Hok. Qed.

Lemma call_given_context {Ctx} (r : JobIdRouter Ext Fut Ctx) ctx call :
  table_ok r →
  call_with_context (with_context (Ctx2 := unit) ctx r) call tt = call_with_context r call ctx.
Proof.
  intros Hb. change (with_context ctx r) with (map_handlers (Ctx2 := unit) (give_context ctx) r).
  rewrite call_map_handlers, call_reached by done.
  destruct (reached r _) as [|h hs]; [done|]. f_equal. apply list_fmap_ext.
  intros. apply call_give_context.
Qed.

(** Providing the context of a router when it is built or with every call makes
    no difference. *)
Theorem with_context_equivalent {Ctx} gs (r : JobIdRouter Ext Fut Ctx) ctx call :
  build router_default gs = Some r →
  call_with_context (with_context (Ctx2 := unit) ctx r) call tt = call_with_context r call ctx.
Proof. intros Hb%built_table_ok. by apply call_given_context. Qed.

(** A layer wraps every handler that a call reaches: routes, routes that are
    always called, and the fallback. *)
Lemma layer_wraps {Ctx} gs (r : JobIdRouter Ext Fut Ctx) l ctx call :
  build router_default gs = Some r →
  call_with_context (layer l r) call ctx
  = match spec_handlers gs (job_id (head call)) with
    | [] => NotMatched
    | hs => Matched ((λ h, l (λ c, call_handler h c ctx) call) <$> hs)
    end.
Proof.
  intros Hb. change (layer l r) with (map_handlers (handler_layer l) r).
  rewrite call_map_handlers by by eapply built_table_ok.
  assert (reached r (job_id (head call)) = spec_handlers gs (job_id (head call))) as ->.
  { assert (represents r gs) as Hr by (eapply (represents_build _ []); [apply represents_default|done]).
    unfold reached, spec_handlers. rewrite (rep_route _ _ Hr), (rep_always _ _ Hr).
    destruct (option_list _ ++ spec_always gs) eqn:Ha; [|done].
    apply app_nil in Ha as [_ Ha]. by rewrite (rep_fallback _ _ Hr). }
  destruct (spec_handlers gs _) as [|h hs]; [done|]. f_equal. apply list_fmap_ext.
  intros. apply call_handler_layer.
Qed.

Lemma collect_results_ok {E F} (items : list (result F (option (JobResult E)))) l :
  collect_results items = Ok l ↔
  Forall is_Ok items ∧ l = omap (λ i, match i with Ok o => o | Err _ => None end) items.
Proof.
  revert l. induction items as [|[[j|]|e] items IH]; intros l; simpl.
  - split; [by intros [= <-]|naive_solver].
  - destruct (collect_results items) as [l'|e] eqn:Hc; cbn.
    + destruct (IH l') as [IH1 _]. destruct (IH1 eq_refl) as [Hok ->]. split.
      * intros [= <-]. split; [|done]. constructor; [by eexists|done].
      * by intros [_ ->].
    + split; [done|]. intros [Hok _]. inversion_clear Hok as [|? ? _ Hok'].
      destruct (IH (omap (λ i, match i with Ok o => o | Err _ => None end) items)) as [_ IH2].
      by specialize (IH2 (conj Hok' eq_refl)).
  - rewrite IH. split; intros [H ->]; (split; [|done]); [constructor; [by eexists|done]|by inversion_clear H].
  - split; [done|]. intros [H _]. inversion_clear H as [|? ? [? He] _]. done.
Qed.

(** The service answers with the results of the handlers in the order they
    finish, leaving out those that return nothing; one failing handler makes
    the whole call fail. *)
Lemma router_call_results {E F} complete (r : JobIdRouter Ext Fut unit) call futures
    (items : list (result F (option (JobResult E)))) :
  call_with_context r call tt = Matched futures → complete futures = items →
  (∀ l, router_call complete r call = Some (Ok (Some l)) ↔
     Forall is_Ok items ∧ l = omap (λ i, match i with Ok o => o | Err _ => None end) items) ∧
  (¬ Forall is_Ok items → ∃ e, router_call complete r call = Some (Err e)).
Proof.
  intros Hc <-. unfold router_call. rewrite Hc. split.
  - intros l. rewrite <-collect_results_ok. destruct (collect_results _); cbn; naive_solver.
  - intros Hn. destruct (collect_results (complete futures)) as [l|e] eqn:Hr; cbn; [|eauto].
    apply collect_results_ok in Hr as [? _]. done.
Qed.

End router_theorems.

(** A job on identifier 7 that is replaced, a service on 8 and a fallback, with
    lists of numbers as futures *)
Definition example_registrations : list (@Registration unit (list Z) Z) :=
  [RRoute (JobId_from_number 7) (λ ctx _, [ctx; 1]);
   RFallback (λ ctx _, [ctx; 9]);
   RRoute (JobId_from_number 7) (λ ctx _, [ctx; 2]);
   RService (JobId_from_number 8) (λ _, [3])].

Definition example_call (id : Z) : JobCall unit := mkJobCall (mkParts (JobId_from_number id) ∅ tt) [].

Lemma router_dispatch_witness :
  Z.of_nat (length (List.filter is_route example_registrations)) ≤ u32_max ∧
  ∃ r, build router_default example_registrations = Some r ∧
    call_with_context r (example_call 7) 5 = Matched [[5; 2]].
Proof.
  split; [vm_compute; done|].
  apply (router_dispatch example_registrations (example_call 7) 5). vm_compute. done.
Defined.

Lemma with_context_equivalent_witness :
  ∃ r, build router_default example_registrations = Some r ∧
    call_with_context (with_context (Ctx2 := unit) 5 r) (example_call 9) tt
    = call_with_context r (example_call 9) 5.
Proof.
  destruct (build router_default example_registrations) as [r|] eqn:Hb; [|by vm_compute in Hb].
  exists r. split; [done|]. by apply (with_context_equivalent example_registrations r 5 (example_call 9)).
Defined.
