(* ===== verification/EvmLog.v ===== *)
(** * Event logs and 256-bit words

    The parts of [alloy] that the producers read: logs with their topics, data
    and position in the chain, and the conversion of a 256-bit word to [u64],
    which panics when the word does not fit. *)

From Stdlib Require Import ZArith Lia.
From stdpp Require Import base gmap sets list sorting strings fin_maps numbers relations.
From S2P Require Import Prelude Bytes.

#[local] Open Scope Z_scope.

Record Log := mkLog {
  log_address : list Byte8;
  topics : list (list Byte8);
  log_data : list Byte8;
  block_number : option Z;
  block_hash : option (list Byte8);
  block_timestamp : option Z;
  log_index : option Z;
}.

(** [U256::from_be_bytes(word).to::<u64>()]: [None] is the panic *)
Definition word_to_u64 (word : list Byte8) : option Z :=
  let x := from_be_bytes word in if u64_max <? x then None else Some x.

(** The 32-byte word of a number and of an address *)
Definition word (x : Z) : list Byte8 := to_be_bytes 32 x.
Definition address_word (a : list Byte8) : list Byte8 := replicate 12 0 ++ a.

(** ** Stable sorting by a key, as [sort_by_key] *)

Section sort.
  Context {A : Type} (key : A → Z * Z).

(** The order of pairs of integers *)
Definition key_leb (p q : Z * Z) : bool :=
  (p.1 <? q.1) || ((p.1 =? q.1) && (p.2 <=? q.2)).

Fixpoint insert_by_key (x : A) (l : list A) : list A :=
  match l with
  | [] => [x]
  | y :: l' => if key_leb (key x) (key y) then x :: l else y :: insert_by_key x l'
  end.

Definition sort_by_key (l : list A) : list A := foldr insert_by_key [] l.

Definition key_le (x y : A) : Prop := key_leb (key x) (key y) = true.

Lemma key_leb_spec p q : key_leb p q = true ↔ p.1 < q.1 ∨ p.1 = q.1 ∧ p.2 ≤ q.2.
Proof. unfold key_leb. rewrite orb_true_iff, andb_true_iff, Z.ltb_lt, Z.eqb_eq, Z.leb_le. done. Qed.

Lemma key_leb_total p q : key_leb p q = false → key_leb q p = true.
Proof.
  intros H. apply key_leb_spec. destruct (key_leb p q) eqn:E; [done|].
  destruct (decide (key_leb p q = true)) as [Ht|Hf]; [congruence|]. rewrite key_leb_spec in Hf. lia.
Qed.

#[local] Instance key_le_trans : Transitive key_le.
Proof. intros x y z. unfold key_le. rewrite !key_leb_spec. lia. Qed.

Lemma insert_by_key_perm x l : insert_by_key x l ≡ₚ x :: l.
Proof.
  induction l as [|y l IH]; simpl; [done|]. case_match; [done|]. rewrite IH. apply perm_swap.
Qed.

Lemma sort_by_key_perm l : sort_by_key l ≡ₚ l.
Proof. induction l as [|x l IH]; simpl; [done|]. by rewrite insert_by_key_perm, IH. Qed.

Lemma insert_by_key_sorted x l : Sorted key_le l → Sorted key_le (insert_by_key x l).
Proof.
  induction 1 as [|y l Hl IH Hy]; simpl; [by repeat constructor|].
  destruct (key_leb (key x) (key y)) eqn:E; [by repeat constructor|].
  constructor; [done|]. apply key_leb_total in E. destruct l as [|z l]; simpl in *.
  - by constructor.
  - inversion_clear Hy. case_match; by constructor.
Qed.

Lemma sort_by_key_sorted l : StronglySorted key_le (sort_by_key l).
Proof.
  apply Sorted_StronglySorted; [apply _|].
  induction l as [|x l IH]; simpl; [constructor|]. by apply insert_by_key_sorted.
Qed.

(** Sorting any arrangement of a list that is sorted with distinct keys gives
    the list back. *)
Lemma sort_by_key_unique l k :
  StronglySorted key_le k → NoDup (key <$> k) → l ≡ₚ k → sort_by_key l = k.
Proof.
  intros Hk Hnd Hl. eapply StronglySorted_unique_strong; [| |done|by rewrite sort_by_key_perm].
  - intros x y Hx Hy Hxy Hyx. rewrite sort_by_key_perm, Hl in Hx.
    assert (key x = key y) as He.
    { unfold key_le in *. rewrite key_leb_spec in Hxy, Hyx. destruct (key x), (key y); simpl in *. f_equal; lia. }
    apply list_elem_of_lookup in Hx as [i Hi], Hy as [j Hj].
    assert (i = j) as ->; [|congruence].
    eapply NoDup_lookup; [exact Hnd| |]; rewrite list_lookup_fmap; [by rewrite Hi|].
    rewrite Hj. simpl. by rewrite He.
  - apply sort_by_key_sorted.
Qed.

End sort.

(** ** Words *)

Lemma word_to_u64_word x : is_u64 x → word_to_u64 (word x) = Some x.
Proof.
  intros Hx. unfold word_to_u64, word. unfold is_u64 in Hx.
  rewrite from_to_be_bytes_small by (simpl; lia).
  destruct (Z.ltb_spec u64_max x); [unfold u64_max in *; lia|done].
Qed.

Lemma zlen_word x : zlen (word x) = 32.
Proof. unfold zlen, word. by rewrite length_to_be_bytes. Qed.
