(* ===== verification/TangleProducer.v ===== *)
(** * Tangle job producer ([tangle-extra/src/producer.rs])

    The stream of job calls read from the logs of the Tangle contract: decoding
    of the two submission events, the poll with its retries and its cursor, and
    the stream that buffers what a poll returns.  The answers of the RPC node
    are arguments: an [Attempt] holds those of one round of the retry loop. *)

From Stdlib Require Import ZArith Lia.
From stdpp Require Import base gmap sets list sorting strings fin_maps numbers relations.
From S2P Require Import Prelude Bytes JobCore TangleExtract EvmLog.

#[local] Open Scope Z_scope.

Definition MAX_LOG_RANGE_BLOCKS : Z := 10.

Inductive ProducerError := Client (msg : string) | Decoding (msg : string).

(** Code that may panic ([None]) or fail with a [ProducerError] *)
Definition Decoded (A : Type) : Type := option (result ProducerError A).

#[export] Instance decoded_bind : MBind Decoded := λ A B f m,
  match m with
  | Some (Ok a) => f a
  | Some (Err e) => Some (Err e)
  | None => None
  end.
#[export] Instance decoded_ret : MRet Decoded := λ A a, Some (Ok a).

Definition or_panic {A} (o : option A) : Decoded A := Ok <$> o.
Definition decoding {A} (msg : string) : Decoded A := Some (Err (Decoding msg)).
Definition or_decoding {A} (o : option A) (msg : string) : Decoded A :=
  Some (ok_or o (Decoding msg)).
Definition ensure (b : bool) (msg : string) : Decoded unit := if b then Some (Ok tt) else decoding msg.

(** ** Decoding *)

Record JobSubmittedEvent := mkEvent {
  ev_service_id : Z;
  ev_call_id : Z;
  ev_job_index : Z;
  ev_caller : list Byte8;
  ev_inputs : list Byte8;
  ev_block_number : Z;
  ev_block_hash : list Byte8;
}.

(** The two event signatures, as the numbers of their 32 bytes *)
Definition JOB_SUBMITTED_SIG : list Byte8 :=
  word 0xde37cc48d21778e1c9a075c4e41c5aff6918c3ea6151221f0af3ce8121a29db5.
Definition JOB_SUBMITTED_FROM_QUOTE_SIG : list Byte8 :=
  word 0xb707259a8a1604adca251fecf84eb283329cd45175690dcb8ff1cf52a6252422.

(** [read_u64_topic] *)
Definition read_u64_topic (topic : list Byte8) : Decoded Z := or_panic (word_to_u64 topic).

(** The inputs whose offset is the word at [at_]: the code shared by both
    decoders.  [offset + 32] wraps around, and a slice whose end lies before its
    start panics. *)
Definition decode_inputs (name : string) (data : list Byte8) (at_ : Z) : Decoded (list Byte8) :=
  offset ← or_panic (word_to_u64 (slice data at_ (at_ + 32)));
  let start := u64_wrap (offset + 32) in
  _ ← ensure (start <=? zlen data) (name +:+ " inputs offset out of range");
  _ ← or_panic (if offset <=? start then Some tt else None);
  inputs_len ← or_panic (word_to_u64 (slice data offset start));
  let end_ := start + inputs_len in
  _ ← ensure (end_ <=? u64_max) (name +:+ " inputs length overflow");
  _ ← ensure (end_ <=? zlen data) (name +:+ " inputs length exceeds log data");
  Some (Ok (slice data start end_)).

Definition decode_job_index (data : list Byte8) : Decoded Z :=
  x ← or_panic (word_to_u64 (slice data 0 32));
  _ ← ensure (x <=? 255) "job index out of range";
  Some (Ok x).

(** The address in the low 20 bytes of the second word *)
Definition decode_caller (data : list Byte8) : list Byte8 := slice (slice data 32 64) 12 32.

(** [decode_job_submitted_data] *)
Definition decode_job_submitted_data (data : list Byte8)
    : Decoded (Z * list Byte8 * list Byte8) :=
  _ ← ensure (96 <=? zlen data) "JobSubmitted data too short for fixed fields";
  job_index ← decode_job_index data;
  inputs ← decode_inputs "JobSubmitted" data 64;
  Some (Ok (job_index, decode_caller data, inputs)).

(** The checks on the topics that both decoders start with *)
Definition decode_topics (name : string) (sig : list Byte8) (log : Log) : Decoded (Z * Z) :=
  match topics log with
  | [] => decoding ("not a " +:+ name +:+ " log")
  | topic0 :: rest =>
      _ ← ensure (bool_decide (topic0 = sig)) ("not a " +:+ name +:+ " log");
      match rest with
      | topic1 :: topic2 :: _ =>
          service_id ← read_u64_topic topic1;
          call_id ← read_u64_topic topic2;
          Some (Ok (service_id, call_id))
      | _ => decoding "topic list length mismatch"
      end
  end.

(** [decode_job_submitted] *)
Definition decode_job_submitted (log : Log) : Decoded JobSubmittedEvent :=
  '(service_id, call_id) ← decode_topics "JobSubmitted" JOB_SUBMITTED_SIG log;
  '(job_index, caller, inputs) ← decode_job_submitted_data (log_data log);
  job_index ← match topics log !! 3%nat with
              | Some topic3 => x ← read_u64_topic topic3; Some (Ok (as_u8 x))
              | None => Some (Ok job_index)
              end;
  bn ← or_decoding (block_number log) "log missing block number";
  bh ← or_decoding (block_hash log) "log missing block hash";
  Some (Ok (mkEvent service_id call_id job_index caller inputs bn bh)).

(** [decode_job_submitted_from_quote] *)
Definition decode_job_submitted_from_quote (log : Log) : Decoded JobSubmittedEvent :=
  '(service_id, call_id) ← decode_topics "JobSubmittedFromQuote" JOB_SUBMITTED_FROM_QUOTE_SIG log;
  let data := log_data log in
  _ ← ensure (160 <=? zlen data) "JobSubmittedFromQuote data too short";
  job_index ← decode_job_index data;
  inputs ← decode_inputs "JobSubmittedFromQuote" data 128;
  bn ← or_decoding (block_number log) "log missing block number";
  bh ← or_decoding (block_hash log) "log missing block hash";
  Some (Ok (mkEvent service_id call_id job_index (decode_caller data) inputs bn bh)).

(** Both decoders in turn, as in [poll_for_jobs] *)
Definition decode_event (log : Log) : Decoded JobSubmittedEvent :=
  match decode_job_submitted log with
  | Some (Err _) => decode_job_submitted_from_quote log
  | d => d
  end.

(** [job_submitted_to_call] *)
Definition job_submitted_to_call (event : JobSubmittedEvent) (bn : Z) (bh : list Byte8)
    (timestamp : Z) : JobCall unit :=
  let m := <[CallId_KEY := mv_from_u64 (ev_call_id event)]> (∅ : MetadataMap) in
  let m := <[ServiceId_KEY := mv_from_u64 (ev_service_id event)]> m in
  let m := <[JobIndex_KEY := mv_from_bytes [ev_job_index event]]> m in
  let m := <[BlockNumber_KEY := mv_from_u64 bn]> m in
  let m := <[BlockHash_KEY := mv_from_bytes bh]> m in
  let m := <[Timestamp_KEY := mv_from_u64 timestamp]> m in
  let m := <[Caller_KEY := mv_from_bytes (ev_caller event)]> m in
  mkJobCall (mkParts (JobId_from_number (ev_job_index event)) m tt) (ev_inputs event).

(** ** Retries *)

Definition RPC_RETRY_BASE_DELAY_MS : Z := 250.
Definition RPC_RETRY_MAX_DELAY_MS : Z := 5000.

(** [rpc_retry_delay] *)
Definition rpc_retry_delay (attempt : Z) : Duration :=
  let capped := Z.min (Z.max attempt 1) (RPC_RETRY_MAX_DELAY_MS / RPC_RETRY_BASE_DELAY_MS) in
  from_millis (RPC_RETRY_BASE_DELAY_MS * capped).

(** The failure counters of [poll_for_jobs], [u32] *)
Record Failures := mkFailures {
  block_number_failures : Z;
  get_logs_failures : Z;
  block_fetch_failures : Z;
}.

(** ** One round of the retry loop *)

(** What the node answers: the block number, the logs of a range of blocks of
    the contract, and the timestamp of a block, if the node has it *)
Record Attempt := mkAttempt {
  rpc_block_number : result unit Z;
  rpc_get_logs : Z → Z → result unit (list Log);
  rpc_get_block : Z → result unit (option Z);
}.

Record ProducerPollResult := mkPollResult {
  pr_jobs : list (JobCall unit);
  pr_last_block : Z;
  pr_last_log_index : option Z;
}.

(** How a round ends: another round after a delay, a result, or a panic *)
Inductive Round := Again (f : Failures) (delay : Duration) | Return_ (r : ProducerPollResult) | Panic.

Definition log_key (log : Log) : Z * Z := (default 0 (block_number log), default 0 (log_index log)).

(** The closure that drops logs up to the cursor *)
Definition after_cursor (effective_from_block last_index : Z) (log : Log) : bool :=
  let bn := default 0 (block_number log) in
  if bn <? effective_from_block then false
  else if effective_from_block <? bn then true
  else last_index <? default 0 (log_index log).

(** [effective_from_block] *)
Definition effective_from (from_block latest_block : Z) : Z :=
  if from_block =? 0 then u64_sat_sub latest_block (u64_sat_sub MAX_LOG_RANGE_BLOCKS 1)
  else from_block.

(** [to_block] *)
Definition range_end (effective_from_block latest_block : Z) : Z :=
  Z.min latest_block (u64_sat_add effective_from_block (u64_sat_sub MAX_LOG_RANGE_BLOCKS 1)).

(** The next cursor *)
Definition next_cursor (filtered : list Log) (from to : Z) (from_log_index : option Z)
    : Z * option Z :=
  match last filtered with
  | Some log => (default to (block_number log), log_index log)
  | None => if to =? from then (from, from_log_index) else (to, None)
  end.

(** The loop over the logs; the timestamps seen so far are cached, [Err] holds
    the counters and the delay of the retry *)
Fixpoint build_jobs (a : Attempt) (service_id : Z) (f : Failures) (timestamps : gmap Z Z)
    (logs : list Log) : option (result (Failures * Duration) (list (JobCall unit))) :=
  match logs with
  | [] => Some (Ok [])
  | log :: logs =>
    match decode_event log with
    | None => None
    | Some (Err _) => build_jobs a service_id f timestamps logs
    | Some (Ok event) =>
      if negb (ev_service_id event =? service_id) then build_jobs a service_id f timestamps logs
      else
        let bn := ev_block_number event in
        let push f timestamps ts :=
          match build_jobs a service_id f timestamps logs with
          | Some (Ok jobs) => Some (Ok (job_submitted_to_call event bn (ev_block_hash event) ts :: jobs))
          | r => r
          end in
        let retry :=
          let n := u32_wrap (block_fetch_failures f + 1) in
          Some (Err (mkFailures (block_number_failures f) (get_logs_failures f) n, rpc_retry_delay n)) in
        match block_timestamp log with
        | Some ts => push f (<[bn := ts]> timestamps) ts
        | None =>
          match timestamps !! bn with
          | Some ts => push f timestamps ts
          | None =>
            match rpc_get_block a bn with
            | Ok (Some ts) =>
                push (mkFailures (block_number_failures f) (get_logs_failures f) 0)
                  (<[bn := ts]> timestamps) ts
            | Ok None | Err _ => retry
            end
          end
        end
    end
  end.

(** One round of ['poll_loop] *)
Definition poll_round (a : Attempt) (service_id from_block : Z) (from_log_index : option Z)
    (f : Failures) : Round :=
  match rpc_block_number a with
  | Err _ =>
      let n := u32_wrap (block_number_failures f + 1) in
      Again (mkFailures n (get_logs_failures f) (block_fetch_failures f)) (rpc_retry_delay n)
  | Ok latest_block =>
    let f := mkFailures 0 (get_logs_failures f) (block_fetch_failures f) in
    let from := effective_from from_block latest_block in
    if latest_block <? from then Again f (from_millis 250)
    else
      let to := range_end from latest_block in
      match rpc_get_logs a from to with
      | Err _ =>
          let n := u32_wrap (get_logs_failures f + 1) in
          Again (mkFailures 0 n (block_fetch_failures f)) (rpc_retry_delay n)
      | Ok logs =>
        let f := mkFailures 0 0 (block_fetch_failures f) in
        let logs := sort_by_key log_key logs in
        let filtered := match from_log_index with
                        | Some last_index => List.filter (after_cursor from last_index) logs
                        | None => logs
                        end in
        let '(last_block, last_log_index) := next_cursor filtered from to from_log_index in
        match build_jobs a service_id f ∅ filtered with
        | None => Panic
        | Some (Err (f, delay)) => Again f delay
        | Some (Ok jobs) => Return_ (mkPollResult jobs last_block last_log_index)
        end
      end
  end.

(** [poll_for_jobs] over the rounds of its loop: [PollWaiting] when it is still
    retrying at the end of them, with the counters it has reached *)
Inductive Polled := PollWaiting (f : Failures) | PollReturned (r : ProducerPollResult) | PollPanic.

Fixpoint poll_loop (service_id from_block : Z) (from_log_index : option Z) (f : Failures)
    (attempts : list Attempt) : Polled :=
  match attempts with
  | [] => PollWaiting f
  | a :: attempts =>
      match poll_round a service_id from_block from_log_index f with
      | Again f _ => poll_loop service_id from_block from_log_index f attempts
      | Return_ r => PollReturned r
      | Panic => PollPanic
      end
  end.

(** [poll_for_jobs] from its start *)
Definition poll_for_jobs (service_id from_block : Z) (from_log_index : option Z)
    (attempts : list Attempt) : Polled :=
  poll_loop service_id from_block from_log_index (mkFailures 0 0 0) attempts.

(** ** The stream *)

Record ProducerState := mkProducerState {
  last_block : Z;
  last_log_index : option Z;
  buffer : list (JobCall unit);
  (* the block and log index that a running poll started from, and its counters *)
  poll_future : option (Z * option Z * Failures);
}.

(** [ProducerState::new], [TangleProducer::new], [TangleProducer::from_block] *)
Definition producer_state_new (start_block : Z) : ProducerState :=
  mkProducerState start_block None [] None.

(** [Poll<Option<Result<JobCall, ProducerError>>>]: the stream never ends *)
Inductive StreamPoll := Ready (job : JobCall unit) | Pending | Panicked.

(** [TangleProducer::poll_next].  Every time the future is polled it takes one
    element of [polls], the rounds it went through since; when none is left it
    is pending. *)
Fixpoint poll_next (service_id : Z) (st : ProducerState) (polls : list (list Attempt))
    : StreamPoll * ProducerState * list (list Attempt) :=
  match buffer st with
  | job :: rest =>
      (Ready job, mkProducerState (last_block st) (last_log_index st) rest (poll_future st), polls)
  | [] =>
    (* without a running poll the first round of the loop starts one *)
    let '(from, index, f) :=
      default (last_block st, last_log_index st, mkFailures 0 0 0) (poll_future st) in
    let running f := mkProducerState (last_block st) (last_log_index st) [] (Some (from, index, f)) in
    match polls with
    | [] => (Pending, running f, [])
    | attempts :: polls =>
      match poll_loop service_id from index f attempts with
      | PollWaiting f => (Pending, running f, polls)
      | PollPanic => (Panicked, running f, polls)
      | PollReturned r =>
        match pr_jobs r with
        | job :: rest =>
            (Ready job, mkProducerState (pr_last_block r) (pr_last_log_index r) rest None, polls)
        | [] =>
            poll_next service_id
              (mkProducerState (pr_last_block r) (pr_last_log_index r) [] None) polls
        end
      end
    end
  end.

(** ** Decoding: theorems *)

(** The data of [JobSubmitted] as Solidity encodes it *)
Definition encode_submitted (job_index : Z) (caller inputs padding : list Byte8) : list Byte8 :=
  word job_index ++ address_word caller ++ word 96 ++ word (zlen inputs) ++ inputs ++ padding.

(** The data of [JobSubmittedFromQuote]: the operators and the price lie between
    the caller and the inputs *)
Definition encode_from_quote (job_index price : Z) (caller operators inputs padding : list Byte8)
    : list Byte8 :=
  word job_index ++ address_word caller ++ word 160 ++ word price
    ++ word (160 + zlen operators) ++ operators ++ word (zlen inputs) ++ inputs ++ padding.

(** Binding after a computation that succeeds *)
Lemma decoded_bind_ok {A B} (f : A → Decoded B) m a : m = Some (Ok a) → (m ≫= f) = f a.
Proof. by intros ->. Qed.

Ltac bind_step lem := erewrite (decoded_bind_ok _ _ _ lem); cbv beta.

Lemma ensure_true b msg : b = true → ensure b msg = Some (Ok tt).
Proof. by intros ->. Qed.

(** Reading the inputs that start behind [pre], given where their offset is *)
Lemma decode_inputs_ok name data at_ pre inputs post :
  data = pre ++ word (zlen inputs) ++ inputs ++ post →
  slice data at_ (at_ + 32) = word (zlen pre) → zlen data ≤ u64_max →
  decode_inputs name data at_ = Some (Ok inputs).
Proof.
  intros -> Hat Hlen. unfold decode_inputs. rewrite Hat.
  rewrite !zlen_app, zlen_word in Hlen. rewrite !zlen_app, zlen_word.
  pose proof (zlen_nonneg pre). pose proof (zlen_nonneg inputs). pose proof (zlen_nonneg post).
  assert (is_u64 (zlen pre)) by (unfold is_u64, u64_max in *; lia).
  assert (is_u64 (zlen inputs)) by (unfold is_u64, u64_max in *; lia).
  rewrite word_to_u64_word by done. cbn [or_panic fmap option_fmap option_map mbind decoded_bind].
  rewrite u64_wrap_small by (unfold is_u64, u64_max in *; lia).
  rewrite ensure_true by (apply Z.leb_le; lia). cbn [mbind decoded_bind].
  destruct (Z.leb_spec (zlen pre) (zlen pre + 32)); [|lia]. cbn [or_panic fmap option_fmap option_map mbind decoded_bind].
  rewrite slice_mid by (rewrite ?zlen_word; lia). rewrite word_to_u64_word by done.
  cbn [or_panic fmap option_fmap option_map mbind decoded_bind].
  rewrite !ensure_true by (apply Z.leb_le; lia). cbn [mbind decoded_bind]. do 2 f_equal.
  rewrite app_assoc. rewrite slice_mid; [done|rewrite zlen_app, zlen_word; lia..].
Qed.

Lemma decode_header job_index caller rest :
  0 ≤ job_index < 256 → length caller = 20%nat →
  let data := word job_index ++ address_word caller ++ rest in
  decode_job_index data = Some (Ok job_index) ∧ decode_caller data = caller.
Proof.
  intros Hj Hc data.
  assert (zlen (address_word caller) = 32) as Ha
    by (unfold zlen, address_word; rewrite length_app, length_replicate; lia).
  split; unfold data.
  - unfold decode_job_index. rewrite slice_app_l by apply zlen_word.
    rewrite word_to_u64_word by (unfold is_u64; lia). cbn [or_panic fmap option_fmap option_map mbind decoded_bind].
    by rewrite ensure_true by (apply Z.leb_le; lia).
  - unfold decode_caller. rewrite slice_mid by (rewrite ?zlen_word; lia).
    unfold address_word. rewrite slice_app_r by done. apply slice_all. unfold zlen. lia.
Qed.

Lemma read_u64_topic_word x : is_u64 x → read_u64_topic (word x) = Some (Ok x).
Proof. intros H. unfold read_u64_topic. by rewrite (word_to_u64_word x H). Qed.

Lemma decode_topics_ok name sig log sid cid more :
  topics log = sig :: word sid :: word cid :: more → is_u64 sid → is_u64 cid →
  decode_topics name sig log = Some (Ok (sid, cid)).
Proof.
  intros Ht Hs Hc. unfold decode_topics. rewrite Ht.
  bind_step (ensure_true (bool_decide (sig = sig)) ("not a " +:+ name +:+ " log") (bool_decide_eq_true_2 _ eq_refl)).
  bind_step (read_u64_topic_word sid Hs). by bind_step (read_u64_topic_word cid Hc).
Qed.

Lemma or_decoding_some {A} (a : A) o msg : o = Some a → or_decoding o msg = Some (Ok a).
Proof. by intros ->. Qed.

(** The event of a log that encodes it *)
Definition log_of_submitted (e : JobSubmittedEvent) (padding : list Byte8) (log : Log) : Prop :=
  topics log = [JOB_SUBMITTED_SIG; word (ev_service_id e); word (ev_call_id e)] ∧
  log_data log = encode_submitted (ev_job_index e) (ev_caller e) (ev_inputs e) padding ∧
  block_number log = Some (ev_block_number e) ∧ block_hash log = Some (ev_block_hash e).

Definition log_of_quote (e : JobSubmittedEvent) (price : Z) (operators padding : list Byte8) (log : Log) : Prop :=
  topics log = [JOB_SUBMITTED_FROM_QUOTE_SIG; word (ev_service_id e); word (ev_call_id e)] ∧
  log_data log = encode_from_quote (ev_job_index e) price (ev_caller e) operators (ev_inputs e) padding ∧
  block_number log = Some (ev_block_number e) ∧ block_hash log = Some (ev_block_hash e).

(** The identifiers of an event at their widths *)
Definition event_wf (e : JobSubmittedEvent) : Prop :=
  is_u64 (ev_service_id e) ∧ is_u64 (ev_call_id e) ∧ 0 ≤ ev_job_index e < 256 ∧
  length (ev_caller e) = 20%nat.

Lemma encode_submitted_inputs j c i p :
  zlen c = 20 → zlen (encode_submitted j c i p) ≤ u64_max →
  decode_inputs "JobSubmitted" (encode_submitted j c i p) 64 = Some (Ok i).
Proof.
  intros Hc Hlen. assert (zlen (address_word c) = 32) as Ha
    by (unfold zlen, address_word in *; rewrite length_app, length_replicate; lia).
  eapply (decode_inputs_ok _ _ _ (word j ++ address_word c ++ word 96) i p); [|..|done].
  - unfold encode_submitted. by rewrite <-!app_assoc.
  - unfold encode_submitted. rewrite (app_assoc (word j)).
    rewrite slice_mid by (rewrite ?zlen_app, ?zlen_word; lia).
    f_equal. rewrite !zlen_app, !zlen_word. lia.
Qed.

Lemma encode_quote_inputs j pr c o i p :
  zlen c = 20 → zlen (encode_from_quote j pr c o i p) ≤ u64_max →
  decode_inputs "JobSubmittedFromQuote" (encode_from_quote j pr c o i p) 128 = Some (Ok i).
Proof.
  intros Hc Hlen. assert (zlen (address_word c) = 32) as Ha
    by (unfold zlen, address_word in *; rewrite length_app, length_replicate; lia).
  eapply (decode_inputs_ok _ _ _
    (word j ++ address_word c ++ word 160 ++ word pr ++ word (160 + zlen o) ++ o) i p); [|..|done].
  - unfold encode_from_quote. by rewrite <-!app_assoc.
  - unfold encode_from_quote.
    rewrite (app_assoc (word j)), (app_assoc (word j ++ _)), (app_assoc ((word j ++ _) ++ _)).
    rewrite slice_mid by (rewrite ?zlen_app, ?zlen_word; lia).
    f_equal. rewrite !zlen_app, !zlen_word. lia.
Qed.

Lemma sig_neq : JOB_SUBMITTED_FROM_QUOTE_SIG ≠ JOB_SUBMITTED_SIG.
Proof. vm_compute. discriminate. Qed.

Lemma decode_submitted_ok e padding log :
  event_wf e → log_of_submitted e padding log → zlen (log_data log) ≤ u64_max →
  decode_event log = Some (Ok e).
Proof.
  intros (Hs & Hc & Hj & Hcl) (Ht & Hd & Hb & Hh) Hlen.
  assert (zlen (ev_caller e) = 20) as Hz by (unfold zlen; lia).
  unfold decode_event, decode_job_submitted.
  rewrite (decoded_bind_ok _ _ _ (decode_topics_ok "JobSubmitted" _ log _ _ [] Ht Hs Hc)). cbv beta iota.
  assert (decode_job_submitted_data (log_data log) = Some (Ok (ev_job_index e, ev_caller e, ev_inputs e))) as Hdd.
  { unfold decode_job_submitted_data. rewrite Hd in *.
    destruct (decode_header (ev_job_index e) (ev_caller e)
      (word 96 ++ word (zlen (ev_inputs e)) ++ ev_inputs e ++ padding) Hj Hcl) as [H1 H2].
    rewrite (decoded_bind_ok _ _ tt); cycle 1.
    { apply ensure_true, Z.leb_le. unfold encode_submitted. rewrite !zlen_app, !zlen_word.
      unfold zlen, address_word. rewrite !length_app, length_replicate. lia. }
    rewrite (decoded_bind_ok _ _ _ H1), (decoded_bind_ok _ _ _ (encode_submitted_inputs _ _ _ _ Hz Hlen)).
    unfold encode_submitted. by rewrite H2. }
  rewrite (decoded_bind_ok _ _ _ Hdd). cbv beta iota. rewrite Ht. cbn [lookup list_lookup].
  rewrite (decoded_bind_ok _ _ (ev_job_index e)) by done.
  rewrite (decoded_bind_ok _ _ _ (or_decoding_some _ _ _ Hb)), (decoded_bind_ok _ _ _ (or_decoding_some _ _ _ Hh)).
  by destruct e.
Qed.

Lemma decode_quote_ok e price operators padding log :
  event_wf e → log_of_quote e price operators padding log → zlen (log_data log) ≤ u64_max →
  decode_event log = Some (Ok e).
Proof.
  intros (Hs & Hc & Hj & Hcl) (Ht & Hd & Hb & Hh) Hlen.
  assert (zlen (ev_caller e) = 20) as Hz by (unfold zlen; lia).
  unfold decode_event.
  assert (decode_job_submitted log = decoding "not a JobSubmitted log") as ->.
  { unfold decode_job_submitted, decode_topics. rewrite Ht.
    rewrite bool_decide_eq_false_2 by apply sig_neq. done. }
  cbv beta iota delta [decoding]. unfold decode_job_submitted_from_quote.
  rewrite (decoded_bind_ok _ _ _ (decode_topics_ok "JobSubmittedFromQuote" _ log _ _ [] Ht Hs Hc)). cbv beta iota.
  rewrite Hd in *.
  destruct (decode_header (ev_job_index e) (ev_caller e)
    (word 160 ++ word price ++ word (160 + zlen operators) ++ operators
       ++ word (zlen (ev_inputs e)) ++ ev_inputs e ++ padding) Hj Hcl) as [H1 H2].
  rewrite (decoded_bind_ok _ _ tt); cycle 1.
  { apply ensure_true, Z.leb_le. unfold encode_from_quote. rewrite !zlen_app, !zlen_word.
    unfold zlen, address_word. rewrite !length_app, length_replicate. lia. }
  rewrite (decoded_bind_ok _ _ _ H1), (decoded_bind_ok _ _ _ (encode_quote_inputs _ _ _ _ _ _ Hz Hlen)).
  rewrite (decoded_bind_ok _ _ _ (or_decoding_some _ _ _ Hb)), (decoded_bind_ok _ _ _ (or_decoding_some _ _ _ Hh)).
  unfold encode_from_quote. rewrite H2. by destruct e.
Qed.

(** Both kinds of submission events decode to what was submitted, whatever the
    operators, the price and the padding around the inputs. *)
Theorem submission_round_trip e log :
  event_wf e → zlen (log_data log) ≤ u64_max →
  ((∃ padding, log_of_submitted e padding log) ∨
   (∃ price operators padding, log_of_quote e price operators padding log)) →
  decode_event log = Some (Ok e).
Proof.
  intros He Hl [[p H]|(pr & o & p & H)]; [by eapply decode_submitted_ok|by eapply decode_quote_ok].
Qed.

(** Every field of a job call made from an event is read back by its extractor. *)
Lemma job_call_extracts e bn bh ts :
  event_wf e → is_u64 bn → is_u64 ts → length bh = 32%nat →
  let parts := head (job_submitted_to_call e bn bh ts) in
  CallId_try_from parts = Ok (ev_call_id e) ∧ ServiceId_try_from parts = Ok (ev_service_id e) ∧
  JobIndex_try_from parts = Ok (ev_job_index e) ∧ BlockNumber_try_from parts = Ok bn ∧
  BlockHash_try_from parts = Ok bh ∧ Timestamp_try_from parts = Ok ts ∧
  Caller_try_from parts = Ok (ev_caller e) ∧
  number_from_JobId (mkIntTy 8 false) (job_id parts) = ev_job_index e.
Proof.
  intros (Hs & Hc & Hj & Hcl) Hbn Hts Hbh parts. unfold parts, job_submitted_to_call. cbn [head job_id].
  split_and!.
  - by apply extract_u64_inserted.
  - by apply extract_u64_inserted.
  - done.
  - by apply extract_u64_inserted.
  - by apply extract_array_inserted.
  - by apply extract_u64_inserted.
  - by apply extract_array_inserted.
  - apply number_round_trip; [simpl; lia|]. unfold in_range. simpl. lia.
Qed.

Lemma decoded_bind_inv {A B} (f : A → Decoded B) m b :
  (m ≫= f) = Some (Ok b) → ∃ a, m = Some (Ok a) ∧ f a = Some (Ok b).
Proof. destruct m as [[a|e]|]; naive_solver. Qed.

Lemma or_decoding_inv {A} (o : option A) msg a : or_decoding o msg = Some (Ok a) → o = Some a.
Proof. unfold or_decoding. destruct o; naive_solver. Qed.

Ltac decoded_inv H :=
  let a := fresh "a" in let Ha := fresh "Ha" in
  apply decoded_bind_inv in H as (a & Ha & H).

(** The block of an event is that of its log. *)
Lemma decode_event_block log e :
  decode_event log = Some (Ok e) → block_number log = Some (ev_block_number e).
Proof.
  unfold decode_event. intros H.
  assert (decode_job_submitted log = Some (Ok e) ∨ decode_job_submitted_from_quote log = Some (Ok e)) as [Hd|Hd]
    by (destruct (decode_job_submitted log) as [[|]|]; auto); clear H.
  - unfold decode_job_submitted in Hd. decoded_inv Hd. destruct a as [sid cid].
    decoded_inv Hd. destruct a as [[ji c] i]. decoded_inv Hd. decoded_inv Hd. decoded_inv Hd.
    injection Hd as <-. by apply or_decoding_inv in Ha2.
  - unfold decode_job_submitted_from_quote in Hd. decoded_inv Hd. destruct a as [sid cid].
    decoded_inv Hd. decoded_inv Hd. decoded_inv Hd. decoded_inv Hd. decoded_inv Hd.
    injection Hd as <-. by apply or_decoding_inv in Ha3.
Qed.

(** ** The stream over a chain *)

(** The position of a log in its block *)
Definition index_of (log : Log) : Z := default 0 (log_index log).

Section chain.
  (** The logs of the contract in each block, and the time of each block *)
  Context (chain : Z → list Log) (ts : Z → Z).

(** Logs know their position, blocks list them in order, and no log makes the
    decoder panic. *)
Record chain_ok : Prop := {
  chain_pos n log : log ∈ chain n → block_number log = Some n ∧ is_Some (log_index log);
  chain_sorted n : StronglySorted (λ x y, index_of x < index_of y) (chain n);
  chain_time n log : log ∈ chain n → block_timestamp log = None ∨ block_timestamp log = Some (ts n);
  chain_decodes n log : log ∈ chain n → decode_event log ≠ None;
}.

(** The logs of the blocks [from..to], in order *)
Definition blocks (from to : Z) : list Log := mjoin (chain <$> seqZ from (to - from + 1)).

(** Answers of the node are errors or the truth, in any order. *)
Definition honest (a : Attempt) : Prop :=
  (∀ h, rpc_block_number a = Ok h → is_u64 h) ∧
  (∀ from to logs, rpc_get_logs a from to = Ok logs → logs ≡ₚ blocks from to) ∧
  (∀ n t, rpc_get_block a n = Ok (Some t) → t = ts n).

(** The job call a log gives rise to *)
Definition job_of (service_id : Z) (log : Log) : option (JobCall unit) :=
  match decode_event log with
  | Some (Ok e) =>
      if ev_service_id e =? service_id then
        Some (job_submitted_to_call e (ev_block_number e) (ev_block_hash e) (ts (ev_block_number e)))
      else None
  | _ => None
  end.

(** The logs from block [b0] up to a cursor *)
Definition logs_upto (b0 : Z) (c : Z * option Z) : list Log :=
  blocks b0 (c.1 - 1) ++
  match c.2 with
  | None => []
  | Some i => List.filter (λ log, index_of log <=? i) (chain c.1)
  end.

Hypothesis Hchain : chain_ok.

Lemma blocks_split from mid to :
  from ≤ mid + 1 → mid ≤ to → blocks from to = blocks from mid ++ blocks (mid + 1) to.
Proof.
  intros H1 H2. unfold blocks. rewrite <-join_app, <-fmap_app. do 2 f_equal.
  replace (to - from + 1) with ((mid - from + 1) + (to - (mid + 1) + 1)) by lia.
  rewrite seqZ_app by lia. do 2 f_equal; lia.
Qed.

Lemma blocks_one n : blocks n n = chain n.
Proof. unfold blocks. replace (n - n + 1) with 1 by lia.
  rewrite seqZ_cons, seqZ_nil by lia. cbn. by rewrite app_nil_r. Qed.

Lemma blocks_nil from to : to < from → blocks from to = [].
Proof. intros. unfold blocks. by rewrite seqZ_nil by lia. Qed.

Lemma blocks_snoc from to : from ≤ to → blocks from to = blocks from (to - 1) ++ chain to.
Proof.
  intros. rewrite (blocks_split from (to - 1) to) by lia.
  replace (to - 1 + 1) with to by lia. by rewrite blocks_one.
Qed.

Lemma elem_of_blocks log from to : log ∈ blocks from to ↔ ∃ n, from ≤ n ≤ to ∧ log ∈ chain n.
Proof.
  unfold blocks. rewrite list_elem_of_join. setoid_rewrite list_elem_of_fmap. setoid_rewrite elem_of_seqZ.
  split; [intros (l & Hl & n & -> & Hn)|intros (n & Hn & Hl)]; [exists n; split; [lia|done]|].
  eexists. split; [done|]. exists n. split; [done|lia].
Qed.

Lemma chain_key n log : log ∈ chain n → log_key log = (n, index_of log).
Proof. intros H. unfold log_key, index_of. by destruct (chain_pos Hchain n log H) as [-> _]. Qed.

(** ** Sorting *)

(** Logs in the order of their positions *)
Definition before (x y : Log) : Prop :=
  (log_key x).1 < (log_key y).1 ∨ (log_key x).1 = (log_key y).1 ∧ (log_key x).2 < (log_key y).2.

Lemma chain_before n : StronglySorted before (chain n).
Proof.
  assert (∀ l, (∀ x, x ∈ l → x ∈ chain n) → StronglySorted (λ x y, index_of x < index_of y) l →
    StronglySorted before l) as H; [|by apply H; [|apply chain_sorted]].
  intros l Hl. induction 1 as [|x l Hs IH Hx]; constructor.
  - apply IH. intros y Hy. apply Hl. by right.
  - rewrite Forall_forall in *. intros y Hy. unfold before.
    rewrite (chain_key n x), (chain_key n y) by (apply Hl; by constructor). right. split; [done|]. by apply Hx.
Qed.

Lemma blocks_before from to : StronglySorted before (blocks from to).
Proof.
  destruct (decide (to < from)); [rewrite blocks_nil by lia; constructor|].
  replace to with (from + Z.of_nat (Z.to_nat (to - from))) by lia.
  induction (Z.to_nat (to - from)) as [|k IH].
  - replace (from + Z.of_nat 0) with from by lia. rewrite blocks_one. apply chain_before.
  - rewrite blocks_snoc by lia. replace (from + Z.of_nat (S k) - 1) with (from + Z.of_nat k) by lia.
    apply StronglySorted_app_2; [|done|apply chain_before].
    intros x y [m [Hm Hx]]%elem_of_blocks Hy. unfold before.
    rewrite (chain_key m x Hx), (chain_key _ y Hy). simpl. lia.
Qed.

Lemma before_sorted l : StronglySorted before l → StronglySorted (key_le log_key) l ∧ NoDup (log_key <$> l).
Proof.
  induction 1 as [|x l _ [IH1 IH2] Hx]; [split; constructor|]. rewrite Forall_forall in Hx. split.
  - constructor; [done|]. rewrite Forall_forall. intros y Hy%Hx. unfold key_le, before in *.
    rewrite key_leb_spec. lia.
  - cbn. constructor; [|done]. intros (y & He & Hy)%list_elem_of_fmap. apply Hx in Hy.
    unfold before in Hy. rewrite He in Hy. lia.
Qed.

(** Sorting the logs the node returns restores their order in the chain. *)
Lemma sort_blocks from to l : l ≡ₚ blocks from to → sort_by_key log_key l = blocks from to.
Proof. intros Hl. destruct (before_sorted _ (blocks_before from to)). by apply sort_by_key_unique. Qed.

(** ** Cursors *)

Lemma bool_filter_all {A} (f : A → bool) l : (∀ x, x ∈ l → f x = true) → List.filter f l = l.
Proof.
  induction l as [|x l IH]; intros H; simpl; [done|]. rewrite H by left. f_equal. apply IH. intros y Hy.
  apply H. by right.
Qed.

Lemma bool_filter_none {A} (f : A → bool) l : (∀ x, x ∈ l → f x = false) → List.filter f l = [].
Proof.
  induction l as [|x l IH]; intros H; simpl; [done|]. rewrite H by left. apply IH. intros y Hy.
  apply H. by right.
Qed.

(** A block splits at any index. *)
Lemma chain_split n i :
  List.filter (λ log, index_of log <=? i) (chain n) ++ List.filter (λ log, i <? index_of log) (chain n)
  = chain n.
Proof.
  pose proof (chain_sorted Hchain n) as Hs. induction Hs as [|x l _ IH Hx]; [done|]. simpl.
  rewrite Forall_forall in Hx.
  destruct (Z.leb_spec (index_of x) i), (Z.ltb_spec i (index_of x)); try lia.
  - simpl. by rewrite IH.
  - rewrite bool_filter_none; [simpl; f_equal|].
    + apply bool_filter_all. intros y Hy%Hx. apply Z.ltb_lt. lia.
    + intros y Hy%Hx. apply Z.leb_gt. lia.
Qed.

(** What the filter of a poll keeps of the range it fetched *)
Lemma filter_range from to i :
  from ≤ to →
  List.filter (after_cursor from i) (blocks from to)
  = List.filter (λ log, i <? index_of log) (chain from) ++ blocks (from + 1) to.
Proof.
  intros Hle. rewrite (blocks_split from from to) by lia. rewrite blocks_one, List.filter_app. f_equal.
  - apply List.filter_ext_in. intros x Hx%list_elem_of_In. unfold after_cursor.
    destruct (chain_pos Hchain _ _ Hx) as [-> _]. simpl. by rewrite Z.ltb_irrefl.
  - apply bool_filter_all. intros x (m & Hm & Hx)%elem_of_blocks. unfold after_cursor.
    destruct (chain_pos Hchain _ _ Hx) as [-> _]. simpl.
    destruct (Z.ltb_spec m from), (Z.ltb_spec from m); try done; lia.
Qed.

(** The logs behind a cursor that a poll of the range up to [to] returns *)
Definition fresh_logs (c : Z * option Z) (to : Z) : list Log :=
  match c.2 with
  | Some i => List.filter (after_cursor c.1 i) (blocks c.1 to)
  | None => blocks c.1 to
  end.

(** Cursor and fresh logs together are the whole range. *)
Lemma upto_fresh b0 c to :
  b0 ≤ c.1 ≤ to → logs_upto b0 c ++ fresh_logs c to = blocks b0 to.
Proof.
  intros Hc. destruct c as [b [i|]]; unfold logs_upto, fresh_logs; simpl in *.
  - rewrite filter_range by lia. rewrite <-app_assoc, (app_assoc (List.filter _ _)), chain_split.
    rewrite (blocks_split b0 (b - 1) to) by lia. f_equal. replace (b - 1 + 1) with b by lia.
    rewrite (blocks_split b b to) by lia. by rewrite blocks_one.
  - rewrite app_nil_r, (blocks_split b0 (b - 1) to) by lia. f_equal. f_equal. lia.
Qed.

Lemma last_sorted_max n x y : last (chain n) = Some x → y ∈ chain n → index_of y ≤ index_of x.
Proof.
  intros Hl Hy. apply last_Some in Hl as [l Hl]. rewrite Hl in Hy.
  apply elem_of_app in Hy as [Hy|Hy%list_elem_of_singleton]; [|by subst].
  pose proof (chain_sorted Hchain n) as Hs. rewrite Hl in Hs.
  apply (StronglySorted_app_1_elem_of _ _ _ y x) in Hs; [simpl in Hs; lia|done|by left].
Qed.

(** The position of the last log covers the whole range. *)
Lemma upto_last b0 to x :
  last (blocks b0 to) = Some x →
  ∃ m i, block_number x = Some m ∧ log_index x = Some i ∧ b0 ≤ m ≤ to ∧
    logs_upto b0 (m, Some i) = blocks b0 to.
Proof.
  destruct (decide (to < b0)); [by rewrite blocks_nil by lia|].
  replace to with (b0 + Z.of_nat (Z.to_nat (to - b0))) by lia. generalize (Z.to_nat (to - b0)) as k.
  induction k as [|k IH]; intros Hl.
  - replace (b0 + Z.of_nat 0) with b0 in * by lia. rewrite blocks_one in Hl.
    destruct (chain_pos Hchain b0 x) as [Hb [i Hi]]; [by apply last_Some_elem_of|].
    exists b0, i. split_and!; [done..|lia|lia|]. unfold logs_upto. simpl. rewrite blocks_nil, blocks_one by lia.
    apply bool_filter_all. intros y Hy%(last_sorted_max _ x); [|done]. apply Z.leb_le. unfold index_of at 2 in Hy.
    rewrite Hi in Hy. done.
  - set (b := b0 + Z.of_nat (S k)) in *. rewrite blocks_snoc in Hl |- * by lia.
    replace (b - 1) with (b0 + Z.of_nat k) in * by lia.
    rewrite last_app in Hl. destruct (last (chain b)) as [z|] eqn:Hz.
    + injection Hl as ->. destruct (chain_pos Hchain b x) as [Hb [i Hi]]; [by apply last_Some_elem_of|].
      exists b, i. split_and!; [done..|lia|lia|]. unfold logs_upto. simpl.
      replace (b - 1) with (b0 + Z.of_nat k) by lia. f_equal.
      apply bool_filter_all. intros y Hy%(last_sorted_max _ x); [|done]. apply Z.leb_le. unfold index_of at 2 in Hy.
      rewrite Hi in Hy. done.
    + apply last_None in Hz. rewrite Hz, app_nil_r. destruct (IH Hl) as (m & i & ? & ? & ? & ?).
      exists m, i. split_and!; try done; lia.
Qed.

(** After a poll the cursor covers the whole range it fetched, and never lies
    before the block it started from. *)
Lemma next_cursor_covers b0 c to :
  b0 ≤ c.1 ≤ to →
  let c' := next_cursor (fresh_logs c to) c.1 to c.2 in
  logs_upto b0 c' = blocks b0 to ∧ c.1 ≤ c'.1 ≤ to ∧ (fresh_logs c to = [] → c'.1 = to).
Proof.
  intros Hc c'. pose proof (upto_fresh b0 c to Hc) as Hu. subst c'. unfold next_cursor.
  destruct (last (fresh_logs c to)) as [x|] eqn:Hl.
  - assert (last (blocks b0 to) = Some x) as Hb by by rewrite <-Hu, last_app, Hl.
    destruct (upto_last _ _ _ Hb) as (m & i & Hm & Hi & Hr & Hup). rewrite Hm, Hi. simpl.
    split; [done|]. split; [|intros He; by rewrite He in Hl]. split; [|lia].
    assert (x ∈ blocks c.1 to) as (m' & Hm' & Hx)%elem_of_blocks.
    { apply last_Some_elem_of in Hl. unfold fresh_logs in Hl. destruct c as [b [j|]]; simpl in *; [|done].
      apply list_elem_of_In, List.filter_In in Hl as [Hl _]. by apply list_elem_of_In. }
    destruct (chain_pos Hchain _ _ Hx) as [Hx' _]. rewrite Hm in Hx'. simplify_eq. lia.
  - apply last_None in Hl. rewrite Hl, app_nil_r in Hu. destruct (Z.eqb_spec to c.1) as [->|Hne]; simpl.
    + split_and!; [|lia|lia|done]. rewrite <-Hu. by destruct c.
    + split_and!; [|lia|lia|done]. unfold logs_upto. simpl. rewrite app_nil_r.
      assert (chain to = []) as Hto.
      { assert (∀ x, x ∉ chain to) as Hno; [|by apply elem_of_nil_inv].
        intros x Hx. assert (x ∈ fresh_logs c to); [|rewrite Hl in *; by apply not_elem_of_nil in H].
        assert (x ∈ blocks (c.1 + 1) to) as Hx' by (apply elem_of_blocks; exists to; split; [lia|done]).
        unfold fresh_logs. destruct c as [b [j|]]; simpl in *.
        - rewrite filter_range by lia. apply elem_of_app. by right.
        - rewrite (blocks_split b b to) by lia. apply elem_of_app. by right. }
      rewrite (blocks_snoc b0 to) by lia. by rewrite Hto, app_nil_r.
Qed.

(** ** Polls *)

Lemma build_jobs_honest a sid f tm logs :
  honest a → (∀ x, x ∈ logs → ∃ n, x ∈ chain n) → (∀ n t, tm !! n = Some t → t = ts n) →
  match build_jobs a sid f tm logs with
  | None => False
  | Some (Ok jobs) => jobs = omap (job_of sid) logs
  | Some (Err _) => True
  end.
Proof.
  intros Ha. revert f tm. induction logs as [|x logs IH]; intros f tm Hl Ht; [done|].
  assert (Hl' : ∀ y, y ∈ logs → ∃ n, y ∈ chain n) by (intros y Hy; apply Hl; by right).
  destruct (Hl x ltac:(left)) as [n Hx]. cbn [build_jobs omap list_omap]. unfold job_of at 1.
  destruct (decode_event x) as [[e|err]|] eqn:Hd; [|by apply IH|by eapply chain_decodes].
  destruct (Z.eqb_spec (ev_service_id e) sid); cbn [negb]; [|by apply IH].
  assert (ev_block_number e = n) as <-.
  { apply decode_event_block in Hd. destruct (chain_pos Hchain _ _ Hx) as [Hn _]. congruence. }
  assert (Hpush : ∀ f tm, (∀ n t, tm !! n = Some t → t = ts n) →
    match (match build_jobs a sid f tm logs with
      | Some (Ok jobs) => Some (Ok (job_submitted_to_call e (ev_block_number e) (ev_block_hash e)
                                     (ts (ev_block_number e)) :: jobs))
      | r => r
      end) with
    | None => False
    | Some (Ok jobs) => jobs = job_submitted_to_call e (ev_block_number e) (ev_block_hash e)
                                 (ts (ev_block_number e)) :: omap (job_of sid) logs
    | Some (Err _) => True
    end).
  { intros f' tm' Ht'. specialize (IH f' tm' Hl' Ht').
    destruct (build_jobs a sid f' tm' logs) as [[jobs|]|]; [by subst|done..]. }
  assert (Hins : ∀ t, t = ts (ev_block_number e) →
    ∀ n t', <[ev_block_number e := t]> tm !! n = Some t' → t' = ts n).
  { intros t -> n t'. destruct (decide (ev_block_number e = n)) as [<-|].
    - rewrite lookup_insert_eq. naive_solver.
    - rewrite lookup_insert_ne by done. apply Ht. }
  destruct (block_timestamp x) as [t|] eqn:Hbt.
  - destruct (chain_time Hchain _ _ Hx) as [Hc|Hc]; [congruence|].
    assert (t = ts (ev_block_number e)) as -> by congruence. apply Hpush. by apply Hins.
  - destruct (tm !! ev_block_number e) as [t|] eqn:Htm.
    + rewrite (Ht _ _ Htm). by apply Hpush.
    + destruct (rpc_get_block a (ev_block_number e)) as [[t|]|] eqn:Hb; try done.
      destruct Ha as (_ & _ & Hg). rewrite (Hg _ _ Hb). apply Hpush. by apply Hins.
Qed.

Lemma fresh_in_chain c to x : x ∈ fresh_logs c to → ∃ n, x ∈ chain n.
Proof.
  intros Hx. assert (x ∈ blocks c.1 to) as (m & _ & Hm)%elem_of_blocks; [|eauto].
  unfold fresh_logs in Hx. destruct (c.2); [|done].
  apply list_elem_of_In, List.filter_In in Hx as [Hx _]. by apply list_elem_of_In.
Qed.

(** What a completed poll gives, of the logs behind the cursor [c] up to a block
    that lies at most nine blocks ahead *)
Definition completed (sid : Z) (c : Z * option Z) (r : ProducerPollResult) (h : Z) : Prop :=
  let to := Z.min h (c.1 + 9) in
  is_u64 h ∧ c.1 ≤ h ∧ pr_jobs r = omap (job_of sid) (fresh_logs c to) ∧
  (pr_last_block r, pr_last_log_index r) = next_cursor (fresh_logs c to) c.1 to c.2.

(** The round of a poll of an honest node: it never panics, and what it returns
    are the jobs of exactly the logs behind the cursor, from the block the poll
    really starts at. *)
Lemma poll_round_spec a sid b i f :
  honest a → is_u64 b →
  match poll_round a sid b i f with
  | Again _ _ => True
  | Panic => False
  | Return_ r => ∃ h, rpc_block_number a = Ok h ∧ completed sid (effective_from b h, i) r h
  end.
Proof.
  intros Ha Hu. unfold poll_round. destruct (rpc_block_number a) as [h|] eqn:Hh; [|done].
  pose proof (proj1 Ha _ Hh) as Hhu.
  assert (is_u64 (effective_from b h)) as He.
  { unfold effective_from, u64_sat_sub, MAX_LOG_RANGE_BLOCKS, is_u64 in *. destruct (b =? 0); lia. }
  remember (effective_from b h, i) as c eqn:Hce.
  assert (effective_from b h = c.1 ∧ i = c.2) as [Hb ->] by by subst. rewrite Hb in *. clear Hce.
  destruct (Z.ltb_spec h c.1) as [|Hle]; [done|].
  assert (range_end c.1 h = Z.min h (c.1 + 9)) as ->.
  { unfold range_end, u64_sat_add, u64_sat_sub, MAX_LOG_RANGE_BLOCKS, is_u64, u64_max in *. lia. }
  set (to := Z.min h (c.1 + 9)). assert (c.1 ≤ to) by lia.
  destruct (rpc_get_logs a c.1 to) as [logs|] eqn:Hlogs; [|done].
  rewrite (sort_blocks c.1 to) by by apply Ha.
  assert ((match c.2 with Some i => List.filter (after_cursor c.1 i) (blocks c.1 to) | None => blocks c.1 to end)
    = fresh_logs c to) as -> by done.
  destruct (next_cursor (fresh_logs c to) c.1 to c.2) as [b' i'] eqn:Hn.
  pose proof (build_jobs_honest a sid (mkFailures 0 0 (block_fetch_failures f)) ∅ (fresh_logs c to) Ha
    (fresh_in_chain c to) (λ n t H, ltac:(by rewrite lookup_empty in H))) as Hj.
  destruct (build_jobs _ _ _ _ _) as [[jobs|[f' d]]|]; [|done..].
  exists h. split; [done|]. rewrite Hb. destruct c. by split_and!.
Qed.

Lemma effective_from_pos b h : 0 < b → effective_from b h = b.
Proof. intros. unfold effective_from. destruct (Z.eqb_spec b 0); [lia|done]. Qed.

Lemma poll_loop_spec attempts sid b i f :
  Forall honest attempts → is_u64 b →
  match poll_loop sid b i f attempts with
  | PollWaiting _ => True
  | PollPanic => False
  | PollReturned r => ∃ a h, a ∈ attempts ∧ rpc_block_number a = Ok h ∧
      completed sid (effective_from b h, i) r h
  end.
Proof.
  intros Ha Hu. revert f. induction Ha as [|a attempts Ha Has IH]; intros f; [done|]. cbn [poll_loop].
  pose proof (poll_round_spec a sid b i f Ha Hu) as Hr.
  destruct (poll_round a sid b i f) as [f' d|r|]; [|..|done].
  - specialize (IH f'). destruct (poll_loop _ _ _ _ _); [done| |done].
    destruct IH as (a' & h & ? & ? & ?). exists a', h. split; [by right|done].
  - destruct Hr as (h & Hh & Hc). exists a, h. split; [by left|done].
Qed.

(** The cursor of a completed poll: it covers the range, stays at or behind
    the start of the poll, and the jobs are those of the logs in between. *)
Lemma completed_covers b0 sid c r h :
  0 ≤ b0 ≤ c.1 → completed sid c r h →
  let c' := (pr_last_block r, pr_last_log_index r) in
  let to := Z.min h (c.1 + 9) in
  logs_upto b0 c' = blocks b0 to ∧ c.1 ≤ c'.1 ≤ to ∧ is_u64 c'.1 ∧
  (fresh_logs c to = [] → c'.1 = to) ∧
  omap (job_of sid) (logs_upto b0 c') = omap (job_of sid) (logs_upto b0 c) ++ pr_jobs r.
Proof.
  intros Hb (Hu & Hle & Hj & Hc) c' to. fold to in Hj, Hc. unfold c'. rewrite Hc. fold to.
  assert (c.1 ≤ to ≤ h) as Hto by (unfold to; lia). clearbody to.
  destruct (next_cursor_covers b0 c to) as (H1 & H2 & H3); [lia|].
  split_and!; try done; try lia.
  - unfold is_u64 in *. lia.
  - by rewrite H1, Hj, <-omap_app, upto_fresh by lia.
Qed.

(** ** Runs of the stream *)

Definition cursor (st : ProducerState) : Z * option Z := (last_block st, last_log_index st).

(** The jobs returned so far, with those still in the buffer, are the jobs of
    the logs from block [s] up to the cursor. *)
Definition stream_inv (sid s : Z) (out : list (JobCall unit)) (st : ProducerState) : Prop :=
  out ++ buffer st = omap (job_of sid) (logs_upto s (cursor st)) ∧
  0 ≤ s ≤ last_block st ∧ 0 < last_block st ∧ is_u64 (last_block st) ∧
  match poll_future st with Some (from, index, _) => (from, index) = cursor st | None => True end.

(** A stream that starts from block 0 and has not yet seen a later block: it
    has returned nothing. *)
Definition stream_idle (out : list (JobCall unit)) (st : ProducerState) : Prop :=
  chain 0 = [] ∧ out = [] ∧ buffer st = [] ∧ cursor st = (0, None) ∧
  match poll_future st with Some (from, index, _) => (from, index) = (0, None) | None => True end.

Definition ready (p : StreamPoll) : list (JobCall unit) :=
  match p with Ready job => [job] | _ => [] end.

(** The first block of the stream: the start block, or for the start block 0
    the first of the ten blocks up to a height the node reported *)
Definition first_block (b0 : Z) (polls : list (list Attempt)) (s : Z) : Prop :=
  if b0 =? 0 then ∃ attempts a h, attempts ∈ polls ∧ a ∈ attempts ∧ rpc_block_number a = Ok h ∧
    s = Z.max 0 (h - 9)
  else s = b0.

(** What holds of a stream over its runs *)
Definition stream_ok (sid b0 : Z) (polls : list (list Attempt)) (out : list (JobCall unit))
    (st : ProducerState) : Prop :=
  (b0 = 0 ∧ stream_idle out st) ∨ ∃ s, first_block b0 polls s ∧ stream_inv sid s out st.

(** A completed poll of a stream that has passed block 0 *)
Lemma completed_inv sid s out b i fut r h :
  stream_inv sid s out (mkProducerState b i [] fut) → completed sid (effective_from b h, i) r h →
  stream_inv sid s out (mkProducerState (pr_last_block r) (pr_last_log_index r) (pr_jobs r) None).
Proof.
  intros (Ho & Hs & Hpos & Hu & _) Hc. cbn in *. rewrite effective_from_pos in Hc by done.
  destruct (completed_covers s sid (b, i) r h Hs Hc) as (_ & Hb' & Hu' & _ & Hj). cbn [fst snd] in *.
  unfold cursor in Ho. cbn in Ho. rewrite app_nil_r in Ho. rewrite <-Ho in Hj. clear Ho.
  split_and!; cbn; [|lia..|done|done]. unfold cursor. cbn. by rewrite Hj.
Qed.

(** The first completed poll of a stream that starts from block 0 *)
Lemma completed_idle sid r h :
  chain 0 = [] → completed sid (effective_from 0 h, None) r h →
  (h = 0 ∧ pr_jobs r = [] ∧ (pr_last_block r, pr_last_log_index r) = (0, None)) ∨
  stream_inv sid (Z.max 0 (h - 9)) [] (mkProducerState (pr_last_block r) (pr_last_log_index r) (pr_jobs r) None).
Proof.
  intros H0 Hc. assert (effective_from 0 h = Z.max 0 (h - 9)) as He
    by (unfold effective_from, u64_sat_sub, MAX_LOG_RANGE_BLOCKS; simpl; lia).
  rewrite He in Hc. clear He. set (e := Z.max 0 (h - 9)) in *.
  destruct (decide (h = 0)) as [->|Hh].
  - left. destruct Hc as (_ & _ & Hj & Hc). unfold fresh_logs in *. cbn [fst snd] in *.
    replace e with 0 in * by lia. replace (Z.min 0 (0 + 9)) with 0 in * by lia.
    rewrite blocks_one, H0 in *. done.
  - right. assert (0 < h) as Hpos by (destruct Hc as (Hu & _); unfold is_u64 in Hu; lia).
    destruct (completed_covers e sid (e, None) r h ltac:(simpl; lia) Hc) as (Hu & Hb & H64 & Hf & Hj).
    cbn [fst snd] in *. replace (Z.min h (e + 9)) with h in * by lia.
    assert (0 < pr_last_block r) as Hlb.
    { destruct (decide (pr_last_block r = 0)) as [Hz|]; [|lia]. exfalso.
      unfold logs_upto in Hu. cbn [fst snd] in Hu. rewrite Hz, (blocks_nil e) in Hu by lia.
      assert (blocks e h = []) as Hbl by (destruct (pr_last_log_index r); by rewrite ?H0 in Hu).
      unfold fresh_logs in Hf. cbn [fst snd] in Hf. specialize (Hf Hbl). lia. }
    split_and!; cbn; [|lia..|done|done]. unfold cursor. cbn. rewrite Hj. unfold logs_upto at 1. cbn.
    by rewrite blocks_nil by lia.
Qed.

(** The cursor a poll starts from is that of the stream. *)
Lemma poll_start sid b0 all out b i l fut :
  stream_ok sid b0 all out (mkProducerState b i l fut) →
  is_u64 b ∧ ∃ f, default (b, i, mkFailures 0 0 0) fut = (b, i, f).
Proof.
  intros Hinv. assert (is_u64 b ∧ match fut with Some (from, index, _) => (from, index) = (b, i) | None => True end)
    as [Hu Hf].
  { destruct Hinv as [(_ & _ & _ & _ & [= -> ->] & Hf)|(s & _ & _ & _ & _ & Hu & Hf)]; split; try done. }
  split; [done|]. destruct fut as [[[from index] f]|]; [|by eexists]. injection Hf as -> ->. by exists f.
Qed.

(** A poll that goes on leaves the stream as it is. *)
Lemma stream_ok_running sid b0 all out b i l fut f :
  stream_ok sid b0 all out (mkProducerState b i l fut) →
  stream_ok sid b0 all (out ++ []) (mkProducerState b i l (Some (b, i, f))).
Proof.
  rewrite app_nil_r. intros [(Hb & H0 & Ho & Hl & Hc & _)|(s & Hs & Ho & H1 & H2 & H3 & _)]; [left|right; exists s].
  all: by split_and!.
Qed.

Lemma stream_ok_pop sid b0 all out b i job l fut :
  stream_ok sid b0 all out (mkProducerState b i (job :: l) fut) →
  stream_ok sid b0 all (out ++ [job]) (mkProducerState b i l fut).
Proof.
  intros [(_ & _ & _ & [=] & _)|(s & Hs & Ho & H1)]. right. exists s. split; [done|].
  split; [|done]. cbn in *. by rewrite <-app_assoc.
Qed.

(** A poll that completes *)
Lemma stream_ok_completed sid b0 all out b i fut attempts a r h :
  attempts ∈ all → a ∈ attempts → rpc_block_number a = Ok h →
  stream_ok sid b0 all out (mkProducerState b i [] fut) → completed sid (effective_from b h, i) r h →
  stream_ok sid b0 all out (mkProducerState (pr_last_block r) (pr_last_log_index r) (pr_jobs r) None).
Proof.
  intros Hat Ha Hh [(-> & H0 & -> & _ & [= -> ->] & _)|(s & Hs & Hinv)] Hc.
  - destruct (completed_idle sid r h H0 Hc) as [(-> & Hj & Hcu)|Hinv]; [left|right].
    + split_and!; done.
    + exists (Z.max 0 (h - 9)). split; [|done]. by exists attempts, a, h.
  - right. exists s. split; [done|]. by eapply completed_inv.
Qed.

Lemma poll_next_ok all polls sid b0 out st :
  polls ⊆ all → Forall (Forall honest) polls → stream_ok sid b0 all out st →
  match poll_next sid st polls with
  | (p, st', polls') => p ≠ Panicked ∧ stream_ok sid b0 all (out ++ ready p) st' ∧
      Forall (Forall honest) polls' ∧ polls' ⊆ polls
  end.
Proof.
  intros Hall Hp. revert out st. induction Hp as [|attempts polls Ha Hp IH]; intros out st Hinv;
    destruct st as [b i [|job rest] fut]; cbn [poll_next buffer last_block last_log_index poll_future].
  1, 3: destruct (poll_start _ _ _ _ _ _ _ _ Hinv) as [Hu [f ->]].
  - split_and!; [done|by eapply stream_ok_running|done..].
  - pose proof (poll_loop_spec attempts sid b i f Ha Hu) as Hl.
    destruct (poll_loop sid b i f attempts) as [f'|r|]; [..|done].
    + split_and!; [done|by eapply stream_ok_running|done|set_solver].
    + destruct Hl as (a & h & Hin & Hh & Hc).
      assert (stream_ok sid b0 all out (mkProducerState (pr_last_block r) (pr_last_log_index r) (pr_jobs r) None)) as Hr
        by (eapply stream_ok_completed; [|done..]; apply Hall; by left).
      destruct (pr_jobs r) as [|job rest].
      * specialize (IH ltac:(set_solver) _ _ Hr). destruct (poll_next _ _ _) as [[p st'] polls'].
        destruct IH as (? & ? & ? & ?). split_and!; [done..|set_solver].
      * split_and!; [done|by apply stream_ok_pop|done|set_solver].
  - split_and!; [done|by apply stream_ok_pop|done..].
  - split_and!; [done|by apply stream_ok_pop|by constructor|done].
Qed.

(** [n] calls of [poll_next]: the jobs returned *)
Fixpoint drain (n : nat) (sid : Z) (st : ProducerState) (polls : list (list Attempt))
    : list (JobCall unit) * ProducerState * list (list Attempt) :=
  match n with
  | O => ([], st, polls)
  | S n =>
      let '(p, st, polls) := poll_next sid st polls in
      let '(out, st, polls) := drain n sid st polls in
      (ready p ++ out, st, polls)
  end.

Lemma drain_ok n all sid b0 out st polls :
  polls ⊆ all → Forall (Forall honest) polls → stream_ok sid b0 all out st →
  match drain n sid st polls with
  | (out', st', polls') => stream_ok sid b0 all (out ++ out') st'
  end.
Proof.
  revert out st polls. induction n as [|n IH]; intros out st polls Hall Hp Hinv; cbn [drain].
  - by rewrite app_nil_r.
  - pose proof (poll_next_ok all polls sid b0 out st Hall Hp Hinv) as Hn.
    destruct (poll_next sid st polls) as [[p st1] polls1]. destruct Hn as (_ & Hinv1 & Hp1 & Hsub).
    specialize (IH _ _ polls1 ltac:(set_solver) Hp1 Hinv1). destruct (drain n sid st1 polls1) as [[out2 st2] polls2].
    by rewrite app_assoc.
Qed.

Lemma stream_ok_new sid b0 polls :
  is_u64 b0 → (b0 = 0 → chain 0 = []) → stream_ok sid b0 polls [] (producer_state_new b0).
Proof.
  intros Hu H0. unfold stream_ok. destruct (decide (b0 = 0)) as [Hb|Hb]; [left|right; exists b0].
  { split; [done|]. subst. split_and!; try done; auto. }
  split; [unfold first_block; by destruct (Z.eqb_spec b0 0)|].
  split_and!; cbn; [|unfold is_u64 in Hu; lia..|done|done]. unfold logs_upto. cbn. by rewrite blocks_nil by lia.
Qed.

(** C6. However often the stream is polled, and whichever requests fail in between,
    what it has returned and buffered is exactly the sequence of jobs of the
    service in the logs from its first block up to its cursor: each once, in
    the order of the chain.  The first block is the start block; a producer that
    starts from 0, as [TangleProducer::new] does, begins nine blocks below a
    height the node reported, and before the node reports one above 0 it has
    returned nothing.  The chain is [chain_ok]: logs know their positions, come
    in order and do not make the decoder panic; the genesis block has none. *)
Theorem producer_exactly_once n sid b0 polls :
  is_u64 b0 → (b0 = 0 → chain 0 = []) → Forall (Forall honest) polls →
  match drain n sid (producer_state_new b0) polls with
  | (out, st, _) =>
      (b0 = 0 ∧ out ++ buffer st = [] ∧ cursor st = (0, None)) ∨
      ∃ s, first_block b0 polls s ∧ s ≤ (cursor st).1 ∧
        out ++ buffer st = omap (job_of sid) (logs_upto s (cursor st))
  end.
Proof.
  intros Hu H0 Hp. pose proof (drain_ok n polls sid b0 [] _ polls ltac:(done) Hp (stream_ok_new sid b0 polls Hu H0)) as Hd.
  destruct (drain _ _ _ _) as [[out st] rest]. cbn [app] in Hd.
  destruct Hd as [(-> & _ & -> & -> & -> & _)|(s & Hs & Ho & Hle & _)]; [by left|]. right. exists s. split; [done|]. split; [apply Hle|done].
Qed.

(** ** Progress *)

(** A node that answers every request, at height [H] or above *)
Definition responsive (H : Z) (a : Attempt) : Prop :=
  honest a ∧ (∃ h, rpc_block_number a = Ok h ∧ H ≤ h) ∧
  (∀ from to, is_Ok (rpc_get_logs a from to)) ∧
  (∀ n, ∃ t, rpc_get_block a n = Ok (Some t)).

Lemma build_jobs_responsive H a sid f tm logs :
  responsive H a → ∀ e, build_jobs a sid f tm logs ≠ Some (Err e).
Proof.
  intros (_ & _ & _ & Hg) e. revert f tm. induction logs as [|x logs IH]; intros f tm; [done|]. cbn [build_jobs].
  destruct (decode_event x) as [[ev|]|]; [|apply IH|done]. case_match; [apply IH|].
  destruct (block_timestamp x) as [t|]; [|destruct (tm !! _) as [t|]].
  - specialize (IH f (<[ev_block_number ev := t]> tm)). destruct (build_jobs _ _ _ _ _) as [[|]|]; try done; congruence.
  - specialize (IH f tm). destruct (build_jobs _ _ _ _ _) as [[|]|]; try done; congruence.
  - destruct (Hg (ev_block_number ev)) as [t ->].
    specialize (IH (mkFailures (block_number_failures f) (get_logs_failures f) 0) (<[ev_block_number ev := t]> tm)).
    destruct (build_jobs _ _ _ _ _) as [[|]|]; try done; congruence.
Qed.

(** A responsive node completes the poll in one round. *)
Lemma poll_responsive H a sid c f b0 :
  responsive H a → 0 < b0 ≤ c.1 → is_u64 c.1 → c.1 ≤ H →
  ∃ r h, poll_loop sid c.1 c.2 f [a] = PollReturned r ∧ H ≤ h ∧ completed sid c r h.
Proof.
  intros Ha Hb Hu Hle. pose proof (build_jobs_responsive H a sid) as Hj. pose proof Ha as (Hh & (h & Hbn & HH) & Hl & _).
  pose proof (poll_round_spec a sid c.1 c.2 f Hh Hu) as Hr. cbn [poll_loop].
  destruct (poll_round a sid c.1 c.2 f) as [f' d|r|] eqn:Hp; [|..|done].
  - exfalso. unfold poll_round in Hp. rewrite Hbn in Hp.
    rewrite effective_from_pos in Hp by lia. destruct (Z.ltb_spec h c.1); [lia|].
    destruct (Hl c.1 (range_end c.1 h)) as [logs Hlogs]. rewrite Hlogs in Hp.
    destruct (next_cursor _ _ _ _) as [b' i'].
    destruct (build_jobs _ _ _ _ _) as [[|[f1 d1]]|] eqn:Hbj; try done. by eapply Hj.
  - destruct Hr as (h' & Hh' & Hc). rewrite Hbn in Hh'. injection Hh' as <-.
    rewrite effective_from_pos in Hc by lia. exists r, h. by destruct c.
Qed.

Lemma drain_buffer l sid b i polls n :
  drain (length l + n) sid (mkProducerState b i l None) polls
  = match drain n sid (mkProducerState b i [] None) polls with
    | (out, st, polls) => (l ++ out, st, polls)
    end.
Proof.
  induction l as [|j l IH]; cbn [length Nat.add app].
  - destruct (drain _ _ _ _) as [[? ?] ?]; reflexivity.
  - cbn [drain]. destruct polls; cbn [poll_next buffer last_block last_log_index poll_future]; rewrite IH.
    all: destruct (drain n _ _ _) as [[? ?] ?]; reflexivity.
Qed.

(** A completed poll, seen from the calls of the stream: after its jobs have
    been returned the stream goes on from the new cursor. *)
Lemma drain_completed sid c a polls r n :
  poll_loop sid c.1 c.2 (mkFailures 0 0 0) [a] = PollReturned r →
  drain (length (pr_jobs r) + S n) sid (mkProducerState c.1 c.2 [] None) ([a] :: polls)
  = match drain (S n) sid (mkProducerState (pr_last_block r) (pr_last_log_index r) [] None) polls with
    | (out, st, polls) => (pr_jobs r ++ out, st, polls)
    end.
Proof.
  intros Hr. destruct (pr_jobs r) as [|j l] eqn:Hj.
  - cbn [length Nat.add app].
    assert (poll_next sid (mkProducerState c.1 c.2 [] None) ([a] :: polls)
      = poll_next sid (mkProducerState (pr_last_block r) (pr_last_log_index r) [] None) polls) as Hn.
    { cbn [poll_next buffer last_block last_log_index poll_future default id]. rewrite Hr, Hj. done. }
    cbn [drain]. rewrite Hn. destruct (poll_next _ _ polls) as [[? ?] ?].
    destruct (drain _ _ _ _) as [[? ?] ?]; reflexivity.
  - cbn [length Nat.add]. generalize (S n) as m. intros m. cbn [drain].
    assert (poll_next sid (mkProducerState c.1 c.2 [] None) ([a] :: polls)
      = (Ready j, mkProducerState (pr_last_block r) (pr_last_log_index r) l None, polls)) as ->.
    { cbn [poll_next buffer last_block last_log_index poll_future default id]. rewrite Hr, Hj. done. }
    rewrite drain_buffer. destruct (drain m _ _ _) as [[? ?] ?]; reflexivity.
Qed.

(** Two completed polls advance the cursor by nine blocks, unless the head of
    the chain is nearer. *)
Lemma two_polls_advance b0 sid c c1 c2 r1 r2 h1 h2 :
  0 < b0 ≤ c.1 → completed sid c r1 h1 → c1 = (pr_last_block r1, pr_last_log_index r1) →
  completed sid c1 r2 h2 → c2 = (pr_last_block r2, pr_last_log_index r2) →
  c.1 + 9 ≤ h1 → c1.1 + 9 ≤ h2 → c.1 + 9 ≤ c2.1.
Proof.
  intros Hb H1 -> H2 -> Hh1 Hh2.
  destruct (completed_covers b0 sid c r1 h1 ltac:(lia) H1) as (Hu1 & Hr1 & _ & He1 & _).
  set (c1 := (pr_last_block r1, pr_last_log_index r1)) in *.
  assert (0 < b0 ≤ c1.1) as Hb1 by lia.
  destruct (completed_covers b0 sid c1 r2 h2 ltac:(lia) H2) as (Hu2 & Hr2 & _ & He2 & _).
  rewrite (Z.min_r h1) in * by lia. rewrite (Z.min_r h2) in * by lia.
  pose proof (upto_fresh b0 c1 (c1.1 + 9) ltac:(lia)) as Hf. rewrite Hu1 in Hf.
  rewrite (blocks_split b0 (c.1 + 9) (c1.1 + 9)) in Hf by lia. apply app_inv_head in Hf.
  destruct (fresh_logs c1 (c1.1 + 9)) as [|x0 l] eqn:Hfl; [specialize (He2 eq_refl); lia|].
  destruct H2 as (_ & _ & _ & Hc2). rewrite (Z.min_r h2) in Hc2 by lia. rewrite Hfl, Hf in Hc2.
  rewrite Hf in Hfl. unfold next_cursor in Hc2.
  destruct (last (blocks (c.1 + 9 + 1) (c1.1 + 9))) as [x|] eqn:Hl; [|apply last_None in Hl; congruence].
  apply last_Some_elem_of, elem_of_blocks in Hl as (m & Hm & Hx).
  destruct (chain_pos Hchain _ _ Hx) as [Hxb _]. rewrite Hxb in Hc2. injection Hc2 as Hc2 _. cbn. lia.
Qed.

Lemma covered_prefix sid b0 H t l :
  H ≤ t → omap (job_of sid) (blocks b0 H) `prefix_of` omap (job_of sid) (blocks b0 t) ++ l.
Proof.
  intros Hle. destruct (decide (b0 ≤ H + 1)).
  - rewrite (blocks_split b0 H t), omap_app by lia. eexists. by rewrite <-app_assoc.
  - rewrite (blocks_nil b0 H) by lia. apply prefix_nil.
Qed.

Lemma producer_catches_up k sid b0 H c polls :
  0 < b0 ≤ c.1 → is_u64 c.1 → H ≤ c.1 + 9 * Z.of_nat k → (2 * k + 1 ≤ length polls)%nat →
  Forall (responsive H) polls →
  ∃ n, match drain (S n) sid (mkProducerState c.1 c.2 [] None) ((λ a, [a]) <$> polls) with
       | (out, _, _) => omap (job_of sid) (blocks b0 H)
                          `prefix_of` omap (job_of sid) (logs_upto b0 c) ++ out
       end.
Proof.
  revert c polls. induction k as [|k IH]; intros c polls Hb Hu HH Hlen Hp.
  all: destruct (decide (c.1 ≤ H)) as [Hle|Hgt]; [|exists 0%nat].
  all: try (destruct (drain _ _ _ _) as [[out ?] ?]; unfold logs_upto; rewrite omap_app, <-app_assoc;
    apply covered_prefix; lia).
  all: destruct polls as [|a1 polls]; [simpl in Hlen; lia|]; inversion_clear Hp as [|? ? Ha1 Hp1].
  all: destruct (poll_responsive H a1 sid c (mkFailures 0 0 0) b0 Ha1 Hb Hu Hle) as (r1 & h1 & Hr1 & Hh1 & Hc1).
  all: destruct (completed_covers b0 sid c r1 h1 ltac:(lia) Hc1) as (Hu1 & Hb1 & Hu1' & _ & Hj1).
  all: cbn [fmap list_fmap].
  all: assert (H ≤ Z.min h1 (c.1 + 9) → ∀ m, match drain (length (pr_jobs r1) + S m) sid (mkProducerState c.1 c.2 [] None)
      ([a1] :: ((λ a, [a]) <$> polls)) with (out, _, _) => omap (job_of sid) (blocks b0 H)
      `prefix_of` omap (job_of sid) (logs_upto b0 c) ++ out end) as Hdone.
  1, 3: intros Hmin m; rewrite (drain_completed sid c a1 _ r1) by done;
    destruct (drain _ _ _ _) as [[out ?] ?]; rewrite app_assoc, <-Hj1, Hu1; by apply covered_prefix.
  - exists (length (pr_jobs r1) + 0)%nat. rewrite <-Nat.add_succ_r. apply Hdone. lia.
  - destruct (decide (H ≤ Z.min h1 (c.1 + 9))) as [Hd|Hnd].
    { exists (length (pr_jobs r1) + 0)%nat. rewrite <-Nat.add_succ_r. by apply Hdone. }
    clear Hdone. set (c1 := (pr_last_block r1, pr_last_log_index r1)) in *.
    destruct polls as [|a2 polls]; [simpl in Hlen; lia|]. inversion_clear Hp1 as [|? ? Ha2 Hp2].
    destruct (poll_responsive H a2 sid c1 (mkFailures 0 0 0) b0 Ha2) as (r2 & h2 & Hr2 & Hh2 & Hc2); [lia|done|lia|].
    destruct (completed_covers b0 sid c1 r2 h2 ltac:(lia) Hc2) as (Hu2 & Hb2 & Hu2' & _ & Hj2).
    set (c2 := (pr_last_block r2, pr_last_log_index r2)) in *.
    assert (Hnext : ∀ m, drain (length (pr_jobs r1) + S (length (pr_jobs r2) + m)) sid (mkProducerState c.1 c.2 [] None)
        ([a1] :: ((λ a, [a]) <$> a2 :: polls))
      = match drain (S m) sid (mkProducerState c2.1 c2.2 [] None) ((λ a, [a]) <$> polls) with
        | (out, st, q) => (pr_jobs r1 ++ pr_jobs r2 ++ out, st, q) end).
    { intros m. rewrite (drain_completed sid c a1 _ r1) by done. rewrite <-Nat.add_succ_r.
      cbn [fmap list_fmap]. change (mkProducerState (pr_last_block r1) (pr_last_log_index r1) [] None)
        with (mkProducerState c1.1 c1.2 [] None).
      rewrite (drain_completed sid c1 a2 _ r2) by done. destruct (drain _ _ _ _) as [[? ?] ?]; reflexivity. }
    destruct (decide (H ≤ Z.min h2 (c1.1 + 9))) as [Hd2|Hnd2].
    + exists (length (pr_jobs r1) + (length (pr_jobs r2) + 0 + 1))%nat.
      replace (S (length (pr_jobs r1) + (length (pr_jobs r2) + 0 + 1)))%nat
        with (length (pr_jobs r1) + S (length (pr_jobs r2) + 1))%nat by lia.
      cbn [fmap list_fmap] in Hnext. rewrite Hnext.
      destruct (drain _ _ _ _) as [[out ?] ?]. rewrite !app_assoc, <-Hj1, <-Hj2, Hu2. by apply covered_prefix.
    + assert (c.1 + 9 ≤ c2.1) as Hadv.
      { eapply (two_polls_advance b0 sid c c1 c2 r1 r2 h1 h2); try done; lia. }
      destruct (IH c2 polls) as [n Hn]; [lia|done|lia|simpl in Hlen; lia|done|].
      exists (length (pr_jobs r1) + (length (pr_jobs r2) + n))%nat.
      replace (S (length (pr_jobs r1) + (length (pr_jobs r2) + n)))%nat
        with (length (pr_jobs r1) + S (length (pr_jobs r2) + n))%nat by lia.
      cbn [fmap list_fmap] in Hnext. rewrite Hnext.
      destruct (drain _ _ _ _) as [[out ?] ?]. by rewrite !app_assoc, <-Hj1, <-Hj2.
Qed.

(** C39. A producer made with [from_block] at a block after the genesis, on a
    chain whose logs know their positions and do not make the decoder panic
    ([chain_ok]), with a node that answers: every job from the start block up to
    [H] is returned; two polls for every nine blocks and one more are enough. *)
Theorem producer_live k sid b0 H polls :
  0 < b0 → is_u64 b0 → H ≤ b0 + 9 * Z.of_nat k → (2 * k + 1 ≤ length polls)%nat →
  Forall (responsive H) polls →
  ∃ n, match drain n sid (producer_state_new b0) ((λ a, [a]) <$> polls) with
       | (out, _, _) => omap (job_of sid) (blocks b0 H) `prefix_of` out
       end.
Proof.
  intros H0 Hu HH Hl Hp.
  destruct (producer_catches_up k sid b0 H (b0, None) polls) as [n Hn]; [simpl; lia|done..|].
  exists (S n). unfold producer_state_new. cbn [fst snd] in Hn. destruct (drain _ _ _ _) as [[out ?] ?].
  unfold logs_upto in Hn. cbn [fst snd] in Hn. by rewrite (blocks_nil b0 (b0 - 1)) in Hn by lia.
Qed.

End chain.

(** ** Boundaries *)

(** The delay between retries grows to five seconds and no further. *)
Lemma rpc_retry_delay_bounds n :
  from_millis RPC_RETRY_BASE_DELAY_MS ≤ rpc_retry_delay n ≤ from_millis RPC_RETRY_MAX_DELAY_MS ∧
  (∀ m, n ≤ m → rpc_retry_delay n ≤ rpc_retry_delay m).
Proof.
  unfold rpc_retry_delay, from_millis, RPC_RETRY_BASE_DELAY_MS, RPC_RETRY_MAX_DELAY_MS.
  change (5000 / 250) with 20. split; [lia|]. intros. lia.
Qed.

(** A producer that starts from block 0 does not start there: its first poll
    looks at the ten latest blocks only. *)
Lemma start_at_zero_skips latest :
  9 ≤ latest → effective_from 0 latest = latest - 9 ∧ range_end (effective_from 0 latest) latest = Z.min latest u64_max.
Proof.
  intros H. unfold effective_from, range_end, u64_sat_sub, u64_sat_add, MAX_LOG_RANGE_BLOCKS. simpl.
  rewrite Z.max_r by lia. split; lia.
Qed.

(** A submission log whose inputs offset exceeds [u64] is not reported as
    malformed: reading the offset panics. *)
Lemma oversized_offset_panics name data at_ :
  u64_max < from_be_bytes (slice data at_ (at_ + 32)) → decode_inputs name data at_ = None.
Proof.
  intros H. unfold decode_inputs, word_to_u64. destruct (Z.ltb_spec u64_max (from_be_bytes (slice data at_ (at_ + 32)))); [done|lia].
Qed.

(** ** Witnesses *)

Definition example_event : JobSubmittedEvent :=
  mkEvent 1 7 3 (replicate 20 171) [222; 173] 5 (replicate 32 1).

Definition example_log : Log :=
  mkLog [] [JOB_SUBMITTED_SIG; word 1; word 7]
    (encode_submitted 3 (replicate 20 171) [222; 173] (replicate 30 0))
    (Some 5) (Some (replicate 32 1)) None (Some 2).

Definition example_chain (n : Z) : list Log := if n =? 5 then [example_log] else [].

Definition example_attempt : Attempt :=
  mkAttempt (Ok 7) (λ from to, Ok (blocks example_chain from to)) (λ _, Ok (Some 100)).

Lemma submission_round_trip_witness :
  event_wf example_event ∧ zlen (log_data example_log) ≤ u64_max ∧
  decode_event example_log = Some (Ok example_event).
Proof.
  assert (event_wf example_event) as He by (unfold event_wf, is_u64; simpl; lia).
  assert (zlen (log_data example_log) ≤ u64_max) as Hz by (vm_compute; discriminate).
  split; [done|]. split; [done|]. apply (submission_round_trip example_event example_log He Hz).
  left. exists (replicate 30 0). done.
Defined.

Lemma example_chain_ok : chain_ok example_chain (λ _, 100).
Proof.
  assert (∀ n log, log ∈ example_chain n → n = 5 ∧ log = example_log) as Hl.
  { intros n log. unfold example_chain. destruct (Z.eqb_spec n 5); intros H; [|by apply not_elem_of_nil in H].
    by apply list_elem_of_singleton in H. }
  split.
  - intros n log [-> ->]%Hl. by vm_compute; eauto.
  - intros n. unfold example_chain. destruct (n =? 5); repeat constructor.
  - intros n log [-> ->]%Hl. by left.
  - intros n log [-> ->]%Hl. vm_compute. done.
Qed.

Lemma example_attempt_responsive : responsive example_chain (λ _, 100) 7 example_attempt.
Proof.
  split_and!; [split_and!| | |].
  - intros h [= <-]. unfold is_u64. lia.
  - intros from to logs [= <-]. done.
  - intros n t [= <-]. done.
  - exists 7. done.
  - intros from to. by eexists.
  - intros n. by eexists.
Qed.

Lemma example_polls_honest : Forall (Forall (honest example_chain (λ _, 100))) [[example_attempt]].
Proof. constructor; [constructor; [apply example_attempt_responsive|constructor]|constructor]. Qed.

Lemma producer_exactly_once_witness :
  chain_ok example_chain (λ _, 100) ∧ Forall (Forall (honest example_chain (λ _, 100))) [[example_attempt]] ∧
  example_chain 0 = [] ∧
  match drain 2 1 (producer_state_new 0) [[example_attempt]] with
  | (out, st, _) =>
      (0 = 0 ∧ out ++ buffer st = [] ∧ cursor st = (0, None)) ∨
      ∃ s, first_block 0 [[example_attempt]] s ∧ s ≤ (cursor st).1 ∧
        out ++ buffer st = omap (job_of (λ _, 100) 1) (logs_upto example_chain s (cursor st))
  end.
Proof.
  split; [apply example_chain_ok|]. split; [apply example_polls_honest|]. split; [done|].
  apply (producer_exactly_once example_chain (λ _, 100) example_chain_ok 2 1 0 [[example_attempt]]);
    [unfold is_u64; lia|done|apply example_polls_honest].
Defined.

(** The job of the example is returned, from the start block 4 and from 0. *)
Lemma example_drained :
  length (drain 1 1 (producer_state_new 4) [[example_attempt]]).1.1 = 1%nat ∧
  length (drain 1 1 (producer_state_new 0) [[example_attempt]]).1.1 = 1%nat.
Proof. by vm_compute. Qed.

Lemma producer_live_witness :
  Forall (responsive example_chain (λ _, 100) 7) [example_attempt; example_attempt; example_attempt] ∧
  ∃ n, match drain n 1 (producer_state_new 4) ((λ a, [a]) <$> [example_attempt; example_attempt; example_attempt]) with
       | (out, _, _) => omap (job_of (λ _, 100) 1) (blocks example_chain 4 7) `prefix_of` out
       end.
Proof.
  assert (Forall (responsive example_chain (λ _, 100) 7) [example_attempt; example_attempt; example_attempt]) as Hf
    by (do 3 (constructor; [apply example_attempt_responsive|]); constructor).
  split; [done|].
  apply (producer_live example_chain (λ _, 100) example_chain_ok 1 1 4 7); [lia|unfold is_u64; lia|lia|simpl; lia|done].
Defined.

Lemma example_jobs :
  length (omap (job_of (λ _, 100) 1) (blocks example_chain 4 7)) = 1%nat.
Proof. vm_compute. reflexivity. Qed.
