(* ===== verification/TangleConsumer.v ===== *)
(** * Tangle consumers ([tangle-extra/src/consumer.rs], and the sink of
    [aggregating_consumer.rs])

    The sinks that take job results and submit them to the contract.  Both
    consumers have the same machine: a queue of pending results and at most one
    submission in flight.  What a submission does is a parameter of the machine;
    its outcomes are the answers of the chain. *)

From Stdlib Require Import ZArith Lia.
From stdpp Require Import base gmap sets list sorting strings fin_maps numbers relations.
From S2P Require Import Prelude Bytes JobCore TangleExtract Router EvmLog TangleProducer.

#[local] Open Scope Z_scope.

Inductive ConsumerError :=
| ClientError (msg : string)
| MissingMetadataError (field : string)
| InvalidMetadataError (field : string)
| TransactionError (msg : string).

(** ** The sink *)

Section sink.
  Context {Item Error : Type}.

(** [State] *)
Inductive SinkState := WaitingForResult | ProcessingSubmission (item : Item).

(** The consumer: its queue and its state *)
Record Sink := mkSink { sink_buffer : list Item; sink_state : SinkState }.

Definition sink_new : Sink := mkSink [] WaitingForResult.

(** [Poll<Result<(), Error>>] *)
Inductive FlushPoll := FlushReady (r : result Error unit) | FlushPending.

(** Submissions that have finished, with their outcome *)
Abbreviation Finished := (list (Item * result Error unit)).

(** The loop of [poll_flush] from [WaitingForResult]: the queue is worked off
    until a submission is pending or fails.  [outcomes] are those of the
    submissions that finish during this call, in order; when none is left the
    submission is pending. *)
Fixpoint flush_queue (buffer : list Item) (outcomes : list (result Error unit))
    : FlushPoll * Sink * Finished :=
  match buffer with
  | [] => (FlushReady (Ok tt), mkSink [] WaitingForResult, [])
  | item :: buffer =>
    match outcomes with
    | [] => (FlushPending, mkSink buffer (ProcessingSubmission item), [])
    | Ok _ :: outcomes =>
        let '(p, s, done_) := flush_queue buffer outcomes in (p, s, (item, Ok tt) :: done_)
    | Err e :: _ => (FlushReady (Err e), mkSink buffer WaitingForResult, [(item, Err e)])
    end
  end.

(** [poll_flush] *)
Definition poll_flush (s : Sink) (outcomes : list (result Error unit))
    : FlushPoll * Sink * Finished :=
  match sink_state s with
  | WaitingForResult => flush_queue (sink_buffer s) outcomes
  | ProcessingSubmission item =>
    match outcomes with
    | [] => (FlushPending, s, [])
    | Ok _ :: outcomes =>
        let '(p, s, done_) := flush_queue (sink_buffer s) outcomes in (p, s, (item, Ok tt) :: done_)
    | Err e :: _ => (FlushReady (Err e), mkSink (sink_buffer s) WaitingForResult, [(item, Err e)])
    end
  end.

(** [poll_close]: it looks at the queue only *)
Definition poll_close (s : Sink) : bool := bool_decide (sink_buffer s = []).

(** [buffer.push_back(item)] of [start_send] *)
Definition push (item : Item) (s : Sink) : Sink := mkSink (sink_buffer s ++ [item]) (sink_state s).

(** *** Runs *)

Inductive SinkOp := Push (item : Item) | Flush (outcomes : list (result Error unit)).

Definition sink_step (s : Sink) (op : SinkOp) : Sink * Finished :=
  match op with
  | Push item => (push item s, [])
  | Flush outcomes => let '(_, s, done_) := poll_flush s outcomes in (s, done_)
  end.

Fixpoint sink_run (s : Sink) (ops : list SinkOp) : Sink * Finished :=
  match ops with
  | [] => (s, [])
  | op :: ops =>
      let '(s, d) := sink_step s op in
      let '(s, d') := sink_run s ops in (s, d ++ d')
  end.

(** The items a sink still holds, the one in flight first *)
Definition held (s : Sink) : list Item :=
  match sink_state s with ProcessingSubmission item => [item] | WaitingForResult => [] end ++ sink_buffer s.

Definition pushed (op : SinkOp) : list Item := match op with Push item => [item] | Flush _ => [] end.

Lemma flush_queue_held buffer outcomes :
  let '(_, s, done_) := flush_queue buffer outcomes in buffer = done_.*1 ++ held s.
Proof.
  revert outcomes. induction buffer as [|item buffer IH]; intros outcomes; [done|]. cbn [flush_queue].
  destruct outcomes as [|[[]|e] outcomes]; [done| |done].
  specialize (IH outcomes). destruct (flush_queue buffer outcomes) as [[p s] d]. cbn. by rewrite IH at 1.
Qed.

Lemma sink_step_held s op :
  let '(s', done_) := sink_step s op in held s ++ pushed op = done_.*1 ++ held s'.
Proof.
  destruct op as [item|outcomes]; cbn [sink_step pushed].
  - unfold held, push. cbn. by rewrite <-app_assoc.
  - rewrite app_nil_r. unfold poll_flush. destruct s as [buffer [|item]]; cbn [sink_state sink_buffer].
    + pose proof (flush_queue_held buffer outcomes) as H. by destruct (flush_queue _ _) as [[p s] d].
    + destruct outcomes as [|[[]|e] outcomes]; [done| |done].
      pose proof (flush_queue_held buffer outcomes) as H. destruct (flush_queue _ _) as [[p s] d].
      cbn. by rewrite H at 1.
Qed.

Lemma sink_run_held s ops :
  let '(s', done_) := sink_run s ops in held s ++ mjoin (pushed <$> ops) = done_.*1 ++ held s'.
Proof.
  revert s. induction ops as [|op ops IH]; intros s; cbn [sink_run fmap list_fmap].
  - cbn. by rewrite app_nil_r.
  - pose proof (sink_step_held s op) as H. destruct (sink_step s op) as [s1 d1].
    specialize (IH s1). destruct (sink_run s1 ops) as [s2 d2].
    change (mjoin (pushed op :: (pushed <$> ops))) with (pushed op ++ mjoin (pushed <$> ops)).
    by rewrite app_assoc, H, <-app_assoc, IH, fmap_app, <-app_assoc.
Qed.

(** Every result handed to a sink is submitted once, in the order the results
    came, or is still held: submissions are neither lost, repeated nor
    reordered, whatever their outcomes. *)
Theorem sink_fifo ops :
  let '(s, done_) := sink_run sink_new ops in mjoin (pushed <$> ops) = done_.*1 ++ held s.
Proof. pose proof (sink_run_held sink_new ops) as H. by destruct (sink_run _ _). Qed.

(** [poll_close] reports that the sink is closed while a submission is still in
    flight, and that it is not when nothing will ever flush it again. *)
Lemma close_ignores_submission item : poll_close (mkSink [] (ProcessingSubmission item)) = true.
Proof. done. Qed.

(** A submission that fails is not tried again: it has left the sink. *)
Lemma failed_submission_dropped item e :
  sink_run sink_new [Push item; Flush [Err e]] = (sink_new, [(item, Err e)]).
Proof. done. Qed.

(** A flush that reports success has emptied the sink, and did so without a
    failed submission. *)
Lemma flush_ok_empty s outcomes s' done_ :
  poll_flush s outcomes = (FlushReady (Ok tt), s', done_) →
  s' = sink_new ∧ Forall (λ p, p.2 = Ok tt) done_.
Proof.
  assert (Hq : ∀ buffer outcomes s' d, flush_queue buffer outcomes = (FlushReady (Ok tt), s', d) →
    s' = sink_new ∧ Forall (λ p, p.2 = Ok tt) d).
  { induction buffer as [|item buffer IH]; intros out s1 d H; cbn in H; [by simplify_eq|].
    destruct out as [|[[]|e] out]; [done| |done].
    destruct (flush_queue buffer out) as [[p s2] d2] eqn:Hf. simplify_eq.
    destruct (IH _ _ _ Hf) as [-> Hd]. split; [done|]. by constructor. }
  unfold poll_flush. destruct (sink_state s) as [|item]; [by apply Hq|].
  destruct outcomes as [|[[]|e] outcomes]; [done| |done].
  destruct (flush_queue (sink_buffer s) outcomes) as [[p s2] d2] eqn:Hf. intros [= -> -> <-].
  destruct (Hq _ _ _ _ Hf) as [-> Hd]. split; [done|]. by constructor.
Qed.

End sink.
Arguments SinkState : clear implicits.
Arguments Sink : clear implicits.
Arguments SinkOp : clear implicits.

(** ** The direct consumer *)

Record DerivedJobResult := mkDerived {
  dr_service_id : Z;
  dr_call_id : Z;
  dr_output : list Byte8;
}.

Section consumer.
  Context {E : Type}.

(** [TangleConsumer::start_send]: what it appends to the queue, if anything *)
Definition start_send (item : JobResult E) : result ConsumerError (option DerivedJobResult) :=
  match item with
  | JobErr _ => Ok None
  | JobOk m body =>
    match m !! CallId_KEY, m !! ServiceId_KEY with
    | Some call_id_raw, Some service_id_raw =>
        call_id ← ok_or (mv_try_u64 call_id_raw) (InvalidMetadataError "call_id");
        service_id ← ok_or (mv_try_u64 service_id_raw) (InvalidMetadataError "service_id");
        Ok (Some (mkDerived service_id call_id body))
    | _, _ => Ok None
    end
  end.

End consumer.

(** [submit_result] and [submit_direct_result], given the answer of the client:
    an error, or whether the transaction succeeded *)
Definition submit_result (dry_run : bool) (answer : result string bool) : result ConsumerError unit :=
  if dry_run then Ok tt
  else match answer with
  | Err _ => Err (TransactionError "Failed to submit result")
  | Ok true => Ok tt
  | Ok false => Err (TransactionError "Transaction reverted")
  end.

(** ** From the chain and back *)

Section pipeline.
  Context {Ctx E F : Type}.

(** A job, a service or a fallback as the router calls it: what its future
    returns *)
Abbreviation Outcome := (result F (option (JobResult E))).

(** The outputs a consumer derives from results *)
Definition derived (r : JobResult E) : option DerivedJobResult :=
  match start_send r with Ok d => d | Err _ => None end.

Lemma layered_result_derived (service : JobCall unit → Outcome) e bn bh ts m b :
  event_wf e →
  submission_call service (job_submitted_to_call e bn bh ts) = Ok (Some (JobOk m b)) →
  start_send (JobOk (E := E) m b) = Ok (Some (mkDerived (ev_service_id e) (ev_call_id e) b)).
Proof.
  intros (Hs & Hc & _) H. unfold submission_call in H.
  assert (CallId_try_from (head (job_submitted_to_call e bn bh ts)) = Ok (ev_call_id e)) as Hci
    by by apply extract_u64_inserted.
  assert (ServiceId_try_from (head (job_submitted_to_call e bn bh ts)) = Ok (ev_service_id e)) as Hsi
    by by apply extract_u64_inserted.
  rewrite Hci, Hsi in H. destruct (service _) as [[[m0 b0|]|]|]; try done. cbn in H. injection H as <- <-.
  unfold start_send. rewrite lookup_insert_ne, !lookup_insert_eq by done.
  by rewrite !mv_u64_round_trip.
Qed.

(** The output of a handler, if it has one *)
Definition output_of (o : Outcome) : option (list Byte8) :=
  match o with Ok (Some (JobOk _ b)) => Some b | _ => None end.

(** What the consumer derives from the layered outcome of a handler *)
Lemma layered_derived (service : JobCall unit → Outcome) e bn bh ts r :
  event_wf e → submission_call service (job_submitted_to_call e bn bh ts) = Ok (Some r) →
  is_Ok (start_send r) ∧
  derived r = mkDerived (ev_service_id e) (ev_call_id e)
              <$> output_of (service (job_submitted_to_call e bn bh ts)).
Proof.
  intros He H. unfold derived. destruct r as [m b|err].
  - rewrite (layered_result_derived service e bn bh ts m b He H). split; [by eexists|].
    rewrite submission_call_spec in H. repeat case_match; try done.
    destruct (service _) as [[[m0 b0|]|]|]; cbn in *; naive_solver.
  - split; [by eexists|]. rewrite submission_call_spec in H. repeat case_match; try done.
    destruct (service _) as [[[m0 b0|]|]|]; cbn in *; naive_solver.
Qed.

(** The outcome of every layered handler, as the consumer sees it *)
Lemma derived_outcomes e bn bh ts (services : list (JobCall unit → Outcome)) :
  event_wf e →
  let call := job_submitted_to_call e bn bh ts in
  let layered := (λ s, submission_call s call) <$> services in
  Forall is_Ok layered →
  omap (λ o, match o with Ok (Some r) => derived r | _ => None end) layered
  = mkDerived (ev_service_id e) (ev_call_id e) <$> omap (λ s, output_of (s call)) services.
Proof.
  intros He call layered. unfold layered. induction services as [|s services IH]; intros Hok; [done|].
  cbn [fmap list_fmap] in *. inversion_clear Hok as [|? ? [o Ho] Hok']. specialize (IH Hok').
  cbn [omap list_omap]. rewrite Ho. destruct o as [r|].
  - destruct (layered_derived s e bn bh ts r He Ho) as [_ ->]. fold call.
    destruct (output_of (s call)); cbn; by rewrite IH.
  - assert (output_of (s call) = None) as ->; [|done].
    rewrite submission_call_spec in Ho.
    assert (CallId_try_from (head call) = Ok (ev_call_id e)) as Hci by (apply extract_u64_inserted; [apply He|done]).
    assert (ServiceId_try_from (head call) = Ok (ev_service_id e)) as Hsi by (apply extract_u64_inserted; [apply He|done]).
    rewrite Hci, Hsi in Ho. by destruct (s call) as [[[]|]|].
Qed.

Lemma omap_results {A B} (g : A → option B) (items : list (result F (option A))) :
  omap g (omap (λ i, match i with Ok o => o | Err _ => None end) items)
  = omap (λ o, match o with Ok (Some r) => g r | _ => None end) items.
Proof.
  induction items as [|[[x|]|] items IH]; [done|..]; cbn [omap list_omap]; [|exact IH..].
  destruct (g x); by rewrite IH.
Qed.

(** C24. A job submitted on the chain, read by the producer, routed through a router
    with the submission layer, is answered on the chain under its own service
    and call: the consumer queues exactly the outputs of the handlers that the
    call reaches, and refuses none of the results. *)
Theorem pipeline_correct gs (r0 : JobIdRouter unit Outcome Ctx) ctx e bn bh ts complete results :
  event_wf e → build router_default gs = Some r0 → (∀ l, complete l ≡ₚ l) →
  let call := job_submitted_to_call e bn bh ts in
  router_call complete (with_context ctx (layer submission_call r0)) call = Some (Ok (Some results)) →
  Forall (λ r, is_Ok (start_send r)) results ∧
  omap derived results
  ≡ₚ mkDerived (ev_service_id e) (ev_call_id e)
     <$> omap (λ h, output_of (call_handler h call ctx)) (spec_handlers gs (job_id (head call))).
Proof.
  intros He Hb Hperm call Hr. unfold router_call in Hr.
  rewrite call_given_context in Hr by by eapply table_ok_layer, built_table_ok.
  rewrite (layer_wraps gs) in Hr by done.
  destruct (spec_handlers gs (job_id (head call))) as [|h hs] eqn:Hh; [done|].
  rewrite <-Hh in *. clear Hh h hs. set (handlers := spec_handlers gs (job_id (head call))) in *.
  set (layered := (λ h, submission_call (λ c, call_handler h c ctx) call) <$> handlers) in *.
  destruct (collect_results (complete layered)) as [l|] eqn:Hc; [|done]. cbn in Hr. injection Hr as ->.
  apply collect_results_ok in Hc as [Hok ->].
  assert (layered = (λ s, submission_call s call) <$> ((λ h, λ c, call_handler h c ctx) <$> handlers)) as Hl
    by (unfold layered; by rewrite <-list_fmap_compose).
  split.
  - apply Forall_forall. intros r (o & Ho & Hr)%list_elem_of_omap.
    destruct o as [[r'|]|]; [|done..]. injection Hr as ->. rewrite (Hperm layered) in Ho.
    apply list_elem_of_fmap in Ho as (h & Ho & _). symmetry in Ho. by eapply layered_derived.
  - rewrite omap_results, (Hperm layered).
    pose proof (derived_outcomes e bn bh ts ((λ h, λ c, call_handler h c ctx) <$> handlers) He) as Hd.
    cbn zeta in Hd. fold call in Hd. rewrite <-Hl in Hd. rewrite Hd by by rewrite <-(Hperm layered).
    f_equiv. clear. induction handlers as [|h hs IH]; [done|]. cbn [fmap list_fmap omap list_omap].
    destruct (output_of _); by rewrite IH.
Qed.

End pipeline.

(** ** Witness *)

(** A router with a job on identifier 3 that answers with the inputs of the call *)
Definition example_jobs : list (@Registration unit (result unit (option (JobResult unit))) Z) :=
  [RRoute (JobId_from_number 3) (λ _ c, Ok (Some (JobOk ∅ (body c))))].

Lemma pipeline_correct_witness :
  event_wf example_event ∧
  ∃ r0 results, build router_default example_jobs = Some r0 ∧
    router_call (λ l, l) (with_context (Ctx2 := unit) 5 (layer submission_call r0))
      (job_submitted_to_call example_event 5 [] 0) = Some (Ok (Some results)) ∧
    omap derived results ≡ₚ [mkDerived 1 7 [222; 173]].
Proof.
  assert (event_wf example_event) as He by (unfold event_wf, is_u64; cbn; lia). split; [done|].
  destruct (build router_default example_jobs) as [r0|] eqn:Hb; [|by vm_compute in Hb].
  destruct (router_call (λ l, l) (with_context (Ctx2 := unit) 5 (layer submission_call r0))
    (job_submitted_to_call example_event 5 [] 0)) as [[[results|]|]|] eqn:Hr;
    try (vm_compute in Hb; injection Hb as <-; vm_compute in Hr; discriminate).
  exists r0, results. split; [done|]. split; [done|].
  destruct (pipeline_correct example_jobs r0 5 example_event 5 [] 0 (λ l, l) results) as [_ Hd];
    [done|done|done|exact Hr|]. rewrite Hd. by vm_compute.
Defined.
