(* ===== verification/ConfigCache.v ===== *)
(** * Service configuration cache ([tangle-extra/src/cache.rs])

    Aggregation configurations, operator weights, operator lists and operator
    metadata, cached with a time-to-live and invalidated by contract events, and
    the service that follows these events.  Answers of the contract are
    arguments.  An operation that fetches is one step; [fetch_begin] and
    [fetch_commit] split it for the theorem about concurrent invalidation. *)

From Stdlib Require Import ZArith Lia.
From stdpp Require Import base gmap sets list sorting strings fin_maps numbers relations.
From S2P Require Import Prelude Bytes EvmLog.

#[local] Open Scope Z_scope.

Abbreviation Address := (list Byte8).

Definition DEFAULT_CACHE_TTL : Duration := from_secs 300.

(** [CacheError]; a poisoned lock needs a panic in another thread and is left out *)
Inductive CacheError := FetchError (msg : string).

Definition display_cache_error (e : CacheError) : string :=
  match e with FetchError m => "Failed to fetch from chain: " +:+ m end.

Record CacheEntry (T : Type) := mkEntry { ce_value : T; ce_cached_at : Instant }.
Arguments mkEntry {T}.
Arguments ce_value {T}.
Arguments ce_cached_at {T}.

(** [CacheEntry::is_expired] *)
Definition is_expired {T} (now : Instant) (ttl : Duration) (e : CacheEntry T) : bool :=
  ttl <? elapsed now (ce_cached_at e).

(** ** Operators *)

Inductive ThresholdKind := CountBased | StakeWeightedBased.

(** [AggregationConfig] of the client *)
Record AggregationConfig := mkAggConfig {
  ac_required : bool;
  ac_threshold_bps : Z;
  ac_threshold_type : ThresholdKind;
}.

Record OperatorWeights := mkWeights {
  ow_weights : gmap Address Z;
  ow_total_exposure : Z;
}.

(** The loop that takes operators in order until the weight is reached: the
    number taken *)
Fixpoint take_until (required accumulated : Z) (sorted : list Z) : Z :=
  match sorted with
  | [] => 0
  | w :: sorted =>
      let accumulated := accumulated + w in
      if required <=? accumulated then 1 else 1 + take_until required accumulated sorted
  end.

(** [sort_by(|a, b| b.cmp(a))] on weights: an insertion sort, largest first *)
Fixpoint insert_desc (x : Z) (l : list Z) : list Z :=
  match l with
  | [] => [x]
  | y :: l' => if y <=? x then x :: l else y :: insert_desc x l'
  end.
Definition sort_desc (l : list Z) : list Z := foldr insert_desc [] l.

(** [OperatorWeights::calculate_threshold_signers] *)
Definition calculate_threshold_signers (w : OperatorWeights) (threshold_bps : Z) : Z :=
  if bool_decide (ow_weights w = ∅) then 0
  else
    let required_weight := u64_wrap (ow_total_exposure w * threshold_bps) / 10000 in
    take_until required_weight 0 (sort_desc (map_to_list (ow_weights w)).*2).

Record ServiceOperators := mkOperators {
  so_operators : list Address;
  so_index_map : gmap Address Z;
}.

(** [ServiceOperators::new] *)
Definition service_operators_new (operators : list Address) : ServiceOperators :=
  mkOperators operators
    (foldl (λ m p, <[p.2 := p.1]> m) ∅ (imap (λ i a, (Z.of_nat i, a)) operators)).

(** [ServiceOperators::index_of] *)
Definition index_of_operator (so : ServiceOperators) (operator : Address) : option Z :=
  so_index_map so !! operator.

(** ** The cache *)

Section cache.
  (** [OperatorMetadata] of the client *)
  Context {OperatorMetadata : Type}.

Record ServiceConfigCache := mkCache {
  ttl : Duration;
  aggregation_configs : gmap (Z * Z) (CacheEntry AggregationConfig);
  operator_weights : gmap Z (CacheEntry OperatorWeights);
  service_operators : gmap Z (CacheEntry ServiceOperators);
  operator_metadata : gmap (Z * Address) (CacheEntry OperatorMetadata);
}.

(** [ServiceConfigCache::new], [with_default_ttl], [set_ttl] *)
Definition cache_new (t : Duration) : ServiceConfigCache := mkCache t ∅ ∅ ∅ ∅.
Definition cache_with_default_ttl : ServiceConfigCache := cache_new DEFAULT_CACHE_TTL.
Definition set_ttl (t : Duration) (c : ServiceConfigCache) : ServiceConfigCache :=
  mkCache t (aggregation_configs c) (operator_weights c) (service_operators c) (operator_metadata c).

(** Setters of the maps *)
Definition set_configs m (c : ServiceConfigCache) :=
  mkCache (ttl c) m (operator_weights c) (service_operators c) (operator_metadata c).
Definition set_weights m (c : ServiceConfigCache) :=
  mkCache (ttl c) (aggregation_configs c) m (service_operators c) (operator_metadata c).
Definition set_operators m (c : ServiceConfigCache) :=
  mkCache (ttl c) (aggregation_configs c) (operator_weights c) m (operator_metadata c).
Definition set_metadata m (c : ServiceConfigCache) :=
  mkCache (ttl c) (aggregation_configs c) (operator_weights c) (service_operators c) m.

(** The look-up that every getter starts with *)
Definition lookup_fresh `{Countable K} {T} (now : Instant) (t : Duration)
    (m : gmap K (CacheEntry T)) (k : K) : option T :=
  e ← m !! k; if is_expired now t e then None else Some (ce_value e).

(** A getter: the cached value, or what is fetched, which is then stored with
    the time [now'] *)
Definition get_or_fetch `{Countable K} {T} (now now' : Instant) (t : Duration)
    (m : gmap K (CacheEntry T)) (k : K) (fetch : result CacheError T)
    : result CacheError T * gmap K (CacheEntry T) :=
  match lookup_fresh now t m k with
  | Some v => (Ok v, m)
  | None =>
    match fetch with
    | Ok v => (Ok v, <[k := mkEntry v now']> m)
    | Err e => (Err e, m)
    end
  end.

(** [get_aggregation_config] *)
Definition get_aggregation_config (now now' : Instant) (c : ServiceConfigCache)
    (service_id job_index : Z) (fetch : result CacheError AggregationConfig)
    : result CacheError AggregationConfig * ServiceConfigCache :=
  let '(r, m) := get_or_fetch now now' (ttl c) (aggregation_configs c) (service_id, job_index) fetch in
  (r, set_configs m c).

(** [set_aggregation_config], [set_operator_weights] *)
Definition set_aggregation_config (now : Instant) (service_id job_index : Z) (v : AggregationConfig)
    (c : ServiceConfigCache) : ServiceConfigCache :=
  set_configs (<[(service_id, job_index) := mkEntry v now]> (aggregation_configs c)) c.
Definition set_operator_weights (now : Instant) (service_id : Z) (v : OperatorWeights)
    (c : ServiceConfigCache) : ServiceConfigCache :=
  set_weights (<[service_id := mkEntry v now]> (operator_weights c)) c.

(** [fetch_operator_weights], given the operators and, for each, whether it is
    active and its exposure *)
Definition fetch_operator_weights (operators : result CacheError (list Address))
    (info : Address → result unit (bool * Z)) : result CacheError OperatorWeights :=
  ops ← operators;
  Ok (foldl (λ w op,
        match info op with
        | Ok (true, bps) =>
            mkWeights (<[op := bps]> (ow_weights w)) (u64_wrap (ow_total_exposure w + bps))
        | Ok (false, _) | Err _ => w
        end) (mkWeights ∅ 0) ops).

(** [get_operator_weights] *)
Definition get_operator_weights (now now' : Instant) (c : ServiceConfigCache) (service_id : Z)
    (operators : result CacheError (list Address)) (info : Address → result unit (bool * Z))
    : result CacheError OperatorWeights * ServiceConfigCache :=
  let '(r, m) := get_or_fetch now now' (ttl c) (operator_weights c) service_id
                   (fetch_operator_weights operators info) in
  (r, set_weights m c).

(** [get_service_operators] *)
Definition get_service_operators (now now' : Instant) (c : ServiceConfigCache) (service_id : Z)
    (operators : result CacheError (list Address))
    : result CacheError ServiceOperators * ServiceConfigCache :=
  let '(r, m) := get_or_fetch now now' (ttl c) (service_operators c) service_id
                   (service_operators_new <$> operators) in
  (r, set_operators m c).

(** [get_operator_metadata] *)
Definition get_operator_metadata (now now' : Instant) (c : ServiceConfigCache)
    (blueprint_id : Z) (operator : Address) (fetch : result CacheError OperatorMetadata)
    : result CacheError OperatorMetadata * ServiceConfigCache :=
  let '(r, m) := get_or_fetch now now' (ttl c) (operator_metadata c) (blueprint_id, operator) fetch in
  (r, set_metadata m c).

(** [get_service_operator_metadata] *)
Definition get_service_operator_metadata (now now' : Instant) (c : ServiceConfigCache)
    (blueprint_id service_id : Z) (operators : result CacheError (list Address))
    (fetch : Address → result CacheError OperatorMetadata)
    : result CacheError (gmap Address OperatorMetadata) * ServiceConfigCache :=
  match get_service_operators now now' c service_id operators with
  | (Err e, c) => (Err e, c)
  | (Ok so, c) =>
      foldl (λ acc op,
        match acc with
        | (Err e, c) => (Err e, c)
        | (Ok result, c) =>
            match get_operator_metadata now now' c blueprint_id op (fetch op) with
            | (Ok md, c) => (Ok (<[op := md]> result), c)
            | (Err e, c) => (Err e, c)
            end
        end) (Ok ∅, c) (so_operators so)
  end.

(** [invalidate_service] *)
Definition invalidate_service (service_id : Z) (c : ServiceConfigCache) : ServiceConfigCache :=
  mkCache (ttl c) (retain (λ k _, negb (k.1 =? service_id)) (aggregation_configs c))
    (delete service_id (operator_weights c)) (delete service_id (service_operators c))
    (operator_metadata c).

(** [invalidate_aggregation_config] *)
Definition invalidate_aggregation_config (service_id job_index : Z) (c : ServiceConfigCache)
    : ServiceConfigCache :=
  set_configs (delete (service_id, job_index) (aggregation_configs c)) c.

(** [clear] *)
Definition cache_clear (c : ServiceConfigCache) : ServiceConfigCache :=
  mkCache (ttl c) ∅ ∅ ∅ (operator_metadata c).

(** [cleanup_expired] *)
Definition cleanup_expired (now : Instant) (c : ServiceConfigCache) : ServiceConfigCache :=
  mkCache (ttl c)
    (retain (λ _ e, negb (is_expired now (ttl c) e)) (aggregation_configs c))
    (retain (λ _ e, negb (is_expired now (ttl c) e)) (operator_weights c))
    (retain (λ _ e, negb (is_expired now (ttl c) e)) (service_operators c))
    (operator_metadata c).

(** [invalidate_operator_data] *)
Definition invalidate_operator_data (service_id : Z) (c : ServiceConfigCache) : ServiceConfigCache :=
  set_operators (delete service_id (service_operators c))
    (set_weights (delete service_id (operator_weights c)) c).

Inductive CacheInvalidationEvent :=
| OperatorJoined (service_id : Z) (operator : Address)
| OperatorLeft (service_id : Z) (operator : Address)
| ServiceTerminated (service_id : Z)
| ServiceActivated (service_id : Z).

Definition event_service (e : CacheInvalidationEvent) : Z :=
  match e with
  | OperatorJoined sid _ | OperatorLeft sid _ | ServiceTerminated sid | ServiceActivated sid => sid
  end.

(** [handle_event] *)
Definition handle_event (c : ServiceConfigCache) (e : CacheInvalidationEvent) : ServiceConfigCache :=
  match e with
  | OperatorJoined sid _ | OperatorLeft sid _ => invalidate_operator_data sid c
  | ServiceTerminated sid => invalidate_service sid c
  | ServiceActivated _ => c
  end.

(** *** Following the chain *)

Record CacheSyncService := mkSync {
  sync_cache : ServiceConfigCache;
  watched_services : option (list Z);
  sync_last_block : Z;
}.

(** [should_watch] *)
Definition should_watch (s : CacheSyncService) (service_id : Z) : bool :=
  match watched_services s with
  | Some services => bool_decide (service_id ∈ services)
  | None => true
  end.

(** [process_logs], [parse_log] a parameter: the cache and the number of events *)
Definition process_logs (parse_log : Log → option CacheInvalidationEvent) (s : CacheSyncService)
    (logs : list Log) : ServiceConfigCache * Z :=
  foldl (λ acc log,
    match parse_log log with
    | Some e => if should_watch s (event_service e) then (handle_event acc.1 e, acc.2 + 1) else acc
    | None => acc
    end) (sync_cache s, 0) logs.

(** [poll_and_sync], given the logs from [last_block] on *)
Definition poll_and_sync (parse_log : Log → option CacheInvalidationEvent) (s : CacheSyncService)
    (answer : result CacheError (list Log)) : result CacheError Z * CacheSyncService :=
  match answer with
  | Err e => (Err e, s)
  | Ok logs =>
      let '(c, count) := process_logs parse_log s logs in
      let last := match last logs with
                  | Some log => match block_number log with
                                | Some n => u64_wrap (n + 1)
                                | None => sync_last_block s
                                end
                  | None => sync_last_block s
                  end in
      (Ok count, mkSync c (watched_services s) last)
  end.

End cache.
Arguments ServiceConfigCache : clear implicits.
Arguments CacheSyncService : clear implicits.

(** ** How many operators reach a weight *)

Lemma insert_desc_perm x l : insert_desc x l ≡ₚ x :: l.
Proof.
  induction l as [|y l IH]; simpl; [done|]. case_match; [done|]. rewrite IH. apply perm_swap.
Qed.

Lemma sort_desc_perm l : sort_desc l ≡ₚ l.
Proof. induction l as [|x l IH]; simpl; [done|]. by rewrite insert_desc_perm, IH. Qed.

Lemma insert_desc_sorted x l : StronglySorted Z.ge l → StronglySorted Z.ge (insert_desc x l).
Proof.
  induction 1 as [|y l Hl IH Hy]; simpl; [repeat constructor|].
  destruct (Z.leb_spec y x).
  - constructor; [by constructor|]. constructor; [lia|]. eapply Forall_impl; [exact Hy|]. simpl. lia.
  - constructor; [done|]. rewrite insert_desc_perm. constructor; [lia|done].
Qed.

Lemma sort_desc_sorted l : StronglySorted Z.ge (sort_desc l).
Proof. induction l as [|x l IH]; simpl; [constructor|]. by apply insert_desc_sorted. Qed.

Lemma sumZ_take_le l n : Forall (λ x, 0 ≤ x) l → sumZ (take n l) ≤ sumZ l.
Proof.
  revert n. induction l as [|x l IH]; intros [|n] H; inversion_clear H as [|? ? Hx Hl]; cbn [take];
    rewrite ?sumZ_cons.
  - done.
  - done.
  - change (sumZ []) with 0. pose proof (sumZ_nonneg l Hl). lia.
  - specialize (IH n Hl). lia.
Qed.

(** Of all selections of a given size the first elements of a descending list
    of weights weigh most. *)
Lemma top_sum l s :
  Forall (λ x, 0 ≤ x) l → StronglySorted Z.ge l → s ⊆+ l → sumZ s ≤ sumZ (take (length s) l).
Proof.
  intros H0 Hl. revert s. induction Hl as [|x l Hl IH Hx]; intros s Hs.
  { apply submseteq_nil_r in Hs as ->. done. }
  inversion_clear H0 as [|? ? Hx0 Hl0].
  apply submseteq_cons_r in Hs as [Hs|(s' & Hs' & Hs)].
  - destruct s as [|y s]; [done|]. cbn [length take]. rewrite sumZ_cons.
    specialize (IH Hl0 _ Hs). cbn [length] in IH. rewrite sumZ_cons in *.
    assert (sumZ (take (S (length s)) l) ≤ x + sumZ (take (length s) l)); [|lia].
    destruct (decide (length s < length l)%nat) as [Hlt|Hge].
    + destruct (lookup_lt_is_Some_2 l (length s) Hlt) as [z Hz].
      erewrite take_S_r by done. rewrite sumZ_app, sumZ_cons. change (sumZ []) with 0.
      rewrite Forall_forall in Hx. specialize (Hx z ltac:(by eapply list_elem_of_lookup_2)). lia.
    + rewrite !take_ge by lia. lia.
  - rewrite Hs'. cbn [length take]. rewrite !sumZ_cons. specialize (IH Hl0 _ Hs). lia.
Qed.

Lemma take_until_spec required acc l :
  0 < required - acc ≤ sumZ l → Forall (λ x, 0 ≤ x) l →
  let k := take_until required acc l in
  1 ≤ k ≤ Z.of_nat (length l) ∧
  required ≤ acc + sumZ (take (Z.to_nat k) l) ∧ acc + sumZ (take (Z.to_nat (k - 1)) l) < required.
Proof.
  revert acc. induction l as [|w l IH]; intros acc Hr H0; [simpl in Hr; lia|].
  inversion_clear H0 as [|? ? Hw Hl]. cbn [take_until]. rewrite sumZ_cons in Hr.
  destruct (Z.leb_spec required (acc + w)) as [Hle|Hgt]; cbn zeta.
  - change (Z.to_nat 1) with 1%nat. change (Z.to_nat (1 - 1)) with 0%nat. cbn [take length].
    rewrite take_0, sumZ_cons. change (sumZ []) with 0. lia.
  - destruct (IH (acc + w) ltac:(lia) Hl) as (Hk & Hup & Hlow). cbn [length].
    set (k := take_until required (acc + w) l) in *.
    replace (Z.to_nat (1 + k)) with (S (Z.to_nat k)) by lia.
    replace (Z.to_nat (1 + k - 1)) with (S (Z.to_nat (k - 1))) by lia.
    cbn [take]. rewrite !sumZ_cons. lia.
Qed.

(** The count is exact: that many operators can reach the weight, and no
    smaller group of operators can. *)
Lemma take_until_minimal required weights :
  0 < required ≤ sumZ weights → Forall (λ x, 0 ≤ x) weights →
  let k := take_until required 0 (sort_desc weights) in
  1 ≤ k ≤ Z.of_nat (length weights) ∧
  (∃ s, s ⊆+ weights ∧ Z.of_nat (length s) = k ∧ required ≤ sumZ s) ∧
  (∀ s, s ⊆+ weights → Z.of_nat (length s) < k → sumZ s < required).
Proof.
  intros Hr H0 k. assert (Forall (λ x, 0 ≤ x) (sort_desc weights)) as H0' by by rewrite sort_desc_perm.
  destruct (take_until_spec required 0 (sort_desc weights)) as (Hk & Hup & Hlow);
    [rewrite sort_desc_perm; lia|done|]. fold k in Hk, Hup, Hlow.
  rewrite sort_desc_perm in Hk. split_and!; [lia|lia| |].
  - exists (take (Z.to_nat k) (sort_desc weights)). split_and!.
    + rewrite <-(sort_desc_perm weights) at 2. apply submseteq_take.
    + rewrite length_take, sort_desc_perm. lia.
    + lia.
  - intros s Hs Hlen. rewrite <-(sort_desc_perm weights) in Hs.
    pose proof (top_sum _ _ H0' (sort_desc_sorted weights) Hs).
    assert (sumZ (take (length s) (sort_desc weights)) ≤ sumZ (take (Z.to_nat (k - 1)) (sort_desc weights))); [|lia].
    replace (take (length s) (sort_desc weights))
      with (take (length s) (take (Z.to_nat (k - 1)) (sort_desc weights)))
      by (rewrite take_take; f_equal; lia).
    apply sumZ_take_le. by apply Forall_take.
Qed.

(** The count of [OperatorWeights] rounds the weight down: two of three equal
    operators are reported to be enough for 67%, which they are not. *)
Lemma threshold_signers_rounds_down :
  let w := mkWeights (list_to_map [([1], 1); ([2], 1); ([3], 1)]) 3 in
  calculate_threshold_signers w 6700 = 2 ∧ 2 * 10000 < 6700 * ow_total_exposure w.
Proof. vm_compute. done. Qed.

(** ** Operator indices *)

Lemma index_map_lookup (operators : list Address) (m : gmap Address Z) n (a : Address) :
  foldl (λ m p, <[p.2 := p.1]> m) m (imap (λ i x, (Z.of_nat (i + n), x)) operators) !! a
  = match last (List.filter (λ p, bool_decide (p.2 = a)) (imap (λ i x, (Z.of_nat (i + n), x)) operators)) with
    | Some p => Some p.1
    | None => m !! a
    end.
Proof.
  revert m n. induction operators as [|x operators IH]; intros m n; [done|]. cbn [imap foldl].
  assert (Hs : imap ((λ i x, (Z.of_nat (i + n), x)) ∘ S) operators
    = imap (λ i x, (Z.of_nat (i + S n), x)) operators)
    by (apply imap_ext; intros; simpl; do 2 f_equal; lia).
  cbn [List.filter]. rewrite Hs, IH. clear IH Hs. cbn [fst snd].
  destruct (last (List.filter _ (imap _ operators))) as [p|] eqn:Hl.
  - case_bool_decide; [|by rewrite Hl]. destruct (List.filter _ _) eqn:Hf; [done|]. by rewrite last_cons, Hl.
  - apply last_None in Hl. rewrite Hl. case_bool_decide; cbn.
    + subst. by rewrite lookup_insert_eq.
    + by rewrite lookup_insert_ne.
Qed.

(** Operators and their positions determine each other. *)
Theorem operator_index_correct (operators : list Address) (a : Address) i :
  NoDup operators →
  index_of_operator (service_operators_new operators) a = Some i
  ↔ 0 ≤ i ∧ operators !! Z.to_nat i = Some a.
Proof.
  intros Hnd. unfold index_of_operator, service_operators_new. cbn [so_index_map].
  pose proof (index_map_lookup operators ∅ 0 a) as Hl.
  assert (Hz : imap (λ i x, (Z.of_nat (i + 0), x)) operators = imap (λ i x, (Z.of_nat i, x)) operators)
    by (apply imap_ext; intros; do 2 f_equal; lia).
  rewrite Hz in Hl. rewrite Hl, lookup_empty. clear Hl Hz.
  assert (Hin : ∀ p, p ∈ List.filter (λ p, bool_decide (p.2 = a)) (imap (λ i x, (Z.of_nat i, x)) operators)
    ↔ ∃ j, p = (Z.of_nat j, a) ∧ operators !! j = Some a).
  { intros p. rewrite list_elem_of_In, List.filter_In, <-list_elem_of_In, bool_decide_eq_true, elem_of_lookup_imap.
    split; [intros [(j & x & -> & Hx) He]; simpl in He; subst; eauto|intros (j & -> & Hj); eauto 6]. }
  split.
  - destruct (last _) as [p|] eqn:Hl; [|done]. intros [= <-]. apply last_Some_elem_of, Hin in Hl as (j & -> & Hj).
    simpl. rewrite Nat2Z.id. split; [lia|done].
  - intros [Hi Ha]. destruct (last _) as [p|] eqn:Hl.
    + apply last_Some_elem_of, Hin in Hl as (j & -> & Hj). simpl. f_equal.
      pose proof (NoDup_lookup _ _ _ _ Hnd Ha Hj). lia.
    + apply last_None in Hl. assert ((Z.of_nat (Z.to_nat i), a) ∈ ([] : list (Z * Address))) as H0
        by (rewrite <-Hl; apply Hin; eauto). by apply not_elem_of_nil in H0.
Qed.

Lemma operator_index_correct_witness :
  NoDup [[1]; [2]; [3] : Address] ∧
  (index_of_operator (service_operators_new [[1]; [2]; [3]]) [2] = Some 1
   ↔ 0 ≤ 1 ∧ [[1]; [2]; [3]] !! Z.to_nat 1 = Some [2]).
Proof.
  assert (NoDup [[1]; [2]; [3] : Address]) as H by (apply (bool_decide_unpack _); vm_compute; exact I).
  split; [done|]. by apply (operator_index_correct [[1]; [2]; [3]] [2] 1).
Defined.

(** ** Freshness *)

Section freshness.
  Context {OperatorMetadata : Type}.
  Abbreviation Cache := (ServiceConfigCache OperatorMetadata).
  (** The operators of a service on the chain at each time *)
  Context (chain_operators : Z → Instant → list Address).

(** The operations on a cache, each with the time it starts and ends; [None]
    in a fetch of operators is a failure of the chain *)
Inductive CacheOp :=
| COConfig (sid job : Z) (fetch : result CacheError AggregationConfig)
| COWeights (sid : Z) (operators : result CacheError (list Address)) (info : Address → result unit (bool * Z))
| COOperators (sid : Z) (failed : option CacheError)
| COMetadata (bid : Z) (op : Address) (fetch : result CacheError OperatorMetadata)
| COEvent (e : CacheInvalidationEvent)
| COInvalidate (sid : Z)
| COInvalidateConfig (sid job : Z)
| COClear
| COCleanup.

(** What a fetch of operators at [now] answers *)
Definition answer_operators (sid : Z) (now : Instant) (failed : option CacheError)
    : result CacheError (list Address) :=
  match failed with Some e => Err e | None => Ok (chain_operators sid now) end.

Definition cache_step (now now' : Instant) (op : CacheOp) (c : Cache) : Cache :=
  match op with
  | COConfig sid job fetch => (get_aggregation_config now now' c sid job fetch).2
  | COWeights sid operators info => (get_operator_weights now now' c sid operators info).2
  | COOperators sid failed => (get_service_operators now now' c sid (answer_operators sid now' failed)).2
  | COMetadata bid op fetch => (get_operator_metadata now now' c bid op fetch).2
  | COEvent e => handle_event c e
  | COInvalidate sid => invalidate_service sid c
  | COInvalidateConfig sid job => invalidate_aggregation_config sid job c
  | COClear => cache_clear c
  | COCleanup => cleanup_expired now c
  end.

(** The service whose operator data an operation invalidates *)
Definition invalidates (op : CacheOp) (sid : Z) : bool :=
  match op with
  | COEvent (OperatorJoined s _) | COEvent (OperatorLeft s _) | COEvent (ServiceTerminated s)
  | COInvalidate s => s =? sid
  | COClear => true
  | _ => false
  end.

(** Runs, with the time reached and, for each service, the time of the last
    operation that invalidated its operators *)
Inductive cache_reach (t0 : Instant) (t : Duration) : Cache → Instant → (Z → Instant) → Prop :=
| reach_new : cache_reach t0 t (cache_new t) t0 (λ _, t0)
| reach_step c now0 inv op now now' :
    cache_reach t0 t c now0 inv → now0 ≤ now ≤ now' →
    cache_reach t0 t (cache_step now now' op c) now'
      (λ sid, if invalidates op sid then now else inv sid).

Lemma get_operators_cases now now' (c : Cache) sid answer r c' :
  get_service_operators now now' c sid answer = (r, c') →
  (∃ e, service_operators c !! sid = Some e ∧ is_expired now (ttl c) e = false ∧
     r = Ok (ce_value e) ∧ service_operators c' = service_operators c) ∨
  (∃ l, answer = Ok l ∧ r = Ok (service_operators_new l) ∧
     service_operators c' = <[sid := mkEntry (service_operators_new l) now']> (service_operators c)) ∨
  (∃ e, answer = Err e ∧ r = Err e ∧ service_operators c' = service_operators c).
Proof.
  unfold get_service_operators, get_or_fetch, lookup_fresh. intros H.
  destruct (service_operators c !! sid) as [e|] eqn:He; cbn in H.
  - destruct (is_expired now (ttl c) e) eqn:Hx; cbn in H.
    + destruct answer as [l|err]; cbn in H; simplify_eq; [right; left|right; right]; eauto.
    + simplify_eq. left. eauto.
  - destruct answer as [l|err]; cbn in H; simplify_eq; [right; left|right; right]; eauto.
Qed.

(** Every cached list is the one the chain had when it was stored, at or after
    the last invalidation. *)
Definition operators_inv (c : Cache) (t : Instant) (inv : Z → Instant) : Prop :=
  ∀ sid e, service_operators c !! sid = Some e →
    ce_value e = service_operators_new (chain_operators sid (ce_cached_at e)) ∧
    inv sid ≤ ce_cached_at e ≤ t.

(** An operation that keeps a part of the entries and invalidates no service it
    keeps entries of *)
Lemma operators_inv_sub (c c' : Cache) t inv t' inv' :
  operators_inv c t inv → t ≤ t' →
  (∀ sid e, service_operators c' !! sid = Some e → service_operators c !! sid = Some e ∧ inv' sid = inv sid) →
  operators_inv c' t' inv'.
Proof.
  intros H Ht Hsub sid e He. destruct (Hsub sid e He) as [He' ->]. destruct (H sid e He') as (? & ? & ?).
  split_and!; [done|lia|lia].
Qed.

Lemma reach_inv t0 t c now inv :
  cache_reach t0 t c now inv → operators_inv c now inv ∧ ttl c = t ∧ ∀ sid, inv sid ≤ now.
Proof.
  induction 1 as [|c now0 inv op now now' Hr (IH & Httl & Hinv) Hnow].
  { split_and!; [|done|done]. intros sid e He. cbn in He. by rewrite lookup_empty in He. }
  assert (Hle : ∀ sid, (if invalidates op sid then now else inv sid) ≤ now').
  { intros sid. specialize (Hinv sid). case_match; lia. }
  destruct op as [sid job f|sid ops info|sid failed|bid o f|e|sid|sid job| |]; cbn [cache_step].
  - unfold get_aggregation_config. destruct (get_or_fetch _ _ _ _ _ _) as [r m]. cbn. split_and!; [|done|done].
    eapply operators_inv_sub; [done|lia|]. cbn. auto.
  - unfold get_operator_weights. destruct (get_or_fetch _ _ _ _ _ _) as [r m]. cbn. split_and!; [|done|done].
    eapply operators_inv_sub; [done|lia|]. cbn. auto.
  - destruct (get_service_operators now now' c sid (answer_operators sid now' failed)) as [r c'] eqn:Hg. cbn.
    assert (ttl c' = ttl c) as Ht'.
    { unfold get_service_operators in Hg. destruct (get_or_fetch _ _ _ _ _ _). by simplify_eq. }
    split_and!; [|by rewrite Ht'|done].
    apply get_operators_cases in Hg as [(e & _ & _ & _ & Hs)|[(l & Hl & _ & Hs)|(e & _ & _ & Hs)]].
    + eapply operators_inv_sub; [done|lia|]. rewrite Hs. auto.
    + intros sid' e He. rewrite Hs in He. destruct (decide (sid = sid')) as [<-|].
      * rewrite lookup_insert_eq in He. simplify_eq. cbn. unfold answer_operators in Hl.
        destruct failed; [done|]. simplify_eq. specialize (Hinv sid). split_and!; [done|lia|lia].
      * rewrite lookup_insert_ne in He by done. destruct (IH sid' e He) as (? & ? & ?).
        cbn [invalidates]. split_and!; [done|lia|lia].
    + eapply operators_inv_sub; [done|lia|]. rewrite Hs. auto.
  - unfold get_operator_metadata. destruct (get_or_fetch _ _ _ _ _ _) as [r m]. cbn. split_and!; [|done|done].
    eapply operators_inv_sub; [done|lia|]. cbn. auto.
  - split_and!; [|by destruct e|done]. eapply operators_inv_sub; [done|lia|]. intros sid x Hx.
    destruct e as [s o|s o|s|s]; cbn in *; try (by split);
      (destruct (Z.eqb_spec s sid) as [->|]; [by rewrite lookup_delete_eq in Hx|by rewrite lookup_delete_ne in Hx]).
  - split_and!; [|done|done]. eapply operators_inv_sub; [done|lia|]. intros s x Hx. cbn in *.
    destruct (Z.eqb_spec sid s) as [->|]; [by rewrite lookup_delete_eq in Hx|by rewrite lookup_delete_ne in Hx].
  - split_and!; [|done|done]. eapply operators_inv_sub; [done|lia|]. cbn. auto.
  - split_and!; [|done|done]. eapply operators_inv_sub; [done|lia|]. intros s x Hx. cbn in Hx. by rewrite lookup_empty in Hx.
  - split_and!; [|done|done]. eapply operators_inv_sub; [done|lia|]. intros s x Hx. cbn in *.
    apply retain_lookup_Some in Hx as [Hx _]. done.
Qed.

(** The operators that the cache returns are those the chain had at a time
    within the time-to-live, and never older than the last event or request
    that invalidated them. *)
Theorem operators_fresh t0 t c now0 inv now now' sid failed so c' :
  0 ≤ t → cache_reach t0 t c now0 inv → now0 ≤ now ≤ now' →
  get_service_operators now now' c sid (answer_operators sid now' failed) = (Ok so, c') →
  ∃ τ, so = service_operators_new (chain_operators sid τ) ∧ now - t ≤ τ ≤ now' ∧ inv sid ≤ τ.
Proof.
  intros Ht Hr Hnow Hg. destruct (reach_inv _ _ _ _ _ Hr) as (Hi & Httl & Hinv). rewrite <-Httl in Ht |- *.
  apply get_operators_cases in Hg as [(e & He & Hx & Hso & _)|[(l & Hl & Hso & _)|(e & _ & ? & _)]]; [| |done].
  - destruct (Hi _ _ He) as (Hv & Hb). injection Hso as ->. exists (ce_cached_at e).
    unfold is_expired, elapsed in Hx. to_prop. split_and!; [done|lia..].
  - unfold answer_operators in Hl. destruct failed; [done|]. simplify_eq. exists now'.
    specialize (Hinv sid). split_and!; [done|lia..].
Qed.

End freshness.

(** A look-up that misses, fetches from the chain and stores what it fetched is
    not one step of the code.  An event that arrives between the fetch and the
    store removes nothing, and the outdated value is stored behind it. *)
Lemma concurrent_invalidation_lost (c : ServiceConfigCache unit) sid old t :
  service_operators c !! sid = None → 0 ≤ ttl c →
  let c := handle_event c (OperatorJoined sid [1]) in
  let c := set_operators (<[sid := mkEntry (service_operators_new old) t]> (service_operators c)) c in
  ∀ answer, (get_service_operators t t c sid answer).1 = Ok (service_operators_new old).
Proof.
  intros Hn Ht c1 c2 answer. unfold get_service_operators, get_or_fetch, lookup_fresh. cbn.
  rewrite lookup_insert_eq. cbn. unfold is_expired, elapsed. cbn. rewrite Z.sub_diag.
  by destruct (Z.ltb_spec (ttl c) (Z.max 0 0)); [lia|].
Qed.

(** Changing the time-to-live does change what becomes of entries that are
    already cached. *)
Lemma set_ttl_affects_entries :
  let c := set_operators {[ 1 := mkEntry (service_operators_new [[7]]) 0 ]} (cache_new (OperatorMetadata := unit) 100) in
  (get_service_operators 50 50 c 1 (Err (FetchError "down"))).1 = Ok (service_operators_new [[7]]) ∧
  (get_service_operators 50 50 (set_ttl 10 c) 1 (Err (FetchError "down"))).1 = Err (FetchError "down").
Proof. vm_compute. done. Qed.

(** Clearing the cache leaves the metadata of operators in it. *)
Lemma clear_keeps_metadata {M} (c : ServiceConfigCache M) :
  operator_metadata (cache_clear c) = operator_metadata c ∧
  ∀ sid, operator_metadata (invalidate_service sid c) = operator_metadata c.
Proof. done. Qed.

Definition example_operators (sid : Z) (t : Instant) : list Address :=
  if t <? 10 then [[1]] else [[1]; [2]].

Lemma operators_fresh_witness :
  cache_reach example_operators 0 100
    (cache_step (OperatorMetadata := unit) example_operators 5 6 (COOperators 1 None) (cache_new 100)) 6 (λ _, 0) ∧
  ∃ τ, service_operators_new [[1]] = service_operators_new (example_operators 1 τ) ∧ 20 - 100 ≤ τ ≤ 21 ∧ 0 ≤ τ.
Proof.
  assert (cache_reach example_operators 0 100
    (cache_step (OperatorMetadata := unit) example_operators 5 6 (COOperators 1 None) (cache_new 100)) 6 (λ _, 0)) as Hr
    by (apply (reach_step example_operators 0 100 _ 0 (λ _, 0) (COOperators 1 None) 5 6); [constructor|lia]).
  split; [done|].
  apply (operators_fresh example_operators 0 100 _ 6 (λ _, 0) 20 21 1 None (service_operators_new [[1]])
    (cache_step example_operators 5 6 (COOperators 1 None) (cache_new 100)) ltac:(lia) Hr ltac:(lia)).
  vm_compute. reflexivity.
Defined.
