(* ===== verification/AggConsumer.v ===== *)
(** * Aggregating consumer ([tangle-extra/src/aggregating_consumer.rs],
    [aggregation.rs], and the client of the aggregation service)

    The consumer that, for jobs whose results need the signatures of several
    operators, posts its own signature to the aggregation services and submits
    the aggregate to the chain once a threshold is met.  The services and the
    chain answer through arguments.  The queue of the consumer is the sink of
    [TangleConsumer]. *)

From Stdlib Require Import ZArith Lia.
From stdpp Require Import base gmap sets list sorting strings pretty fin_maps numbers relations.
From S2P Require Import Prelude Bytes JobCore TangleExtract AggTask AggService TangleProducer TangleConsumer ConfigCache.

#[local] Open Scope Z_scope.

(** ** Errors *)

Inductive AggregationError :=
| AggClientError (msg : string)
| AggThresholdNotMet (got need : Z)
| AggInvalidSignature
| ContractError (msg : string)
| MissingOperatorKey (index : Z).

(** [ClientError] of the aggregation service's client; an HTTP error carries its text *)
Inductive SvcClientError :=
| HttpError (msg : string)
| ServerError (msg : string)
| InvalidResponse (msg : string)
| SvcNotFound
| SvcThresholdNotMet (collected required : Z)
| AlreadySubmitted.

Inductive AggregatingConsumerError :=
| AcClient (msg : string)
| AcMissingMetadata (field : string)
| AcInvalidMetadata (field : string)
| AcTransaction (msg : string)
| AcAggregation (e : AggregationError)
| AcAggregationService (e : SvcClientError)
| AcBls (msg : string)
| AcAggregationNotConfigured.

(** The [Display] texts derived by [thiserror] *)
Definition display_aggregation_error (e : AggregationError) : string :=
  match e with
  | AggClientError m => "Client error: " +:+ m
  | AggThresholdNotMet g n => "Threshold not met: got " +:+ pretty g +:+ " signers, need " +:+ pretty n
  | AggInvalidSignature => "Invalid BLS signature"
  | ContractError m => "Contract call failed: " +:+ m
  | MissingOperatorKey i => "Missing BLS key for operator at index " +:+ pretty i
  end.
Definition display_client_error (e : SvcClientError) : string :=
  match e with
  | HttpError m => "HTTP error: " +:+ m
  | ServerError m => "Server error: " +:+ m
  | InvalidResponse m => "Invalid response: " +:+ m
  | SvcNotFound => "Task not found"
  | SvcThresholdNotMet c r => "Threshold not met: " +:+ pretty c +:+ "/" +:+ pretty r
  | AlreadySubmitted => "Aggregation task was already submitted to the chain"
  end.
Definition display_consumer_error (e : AggregatingConsumerError) : string :=
  match e with
  | AcClient m => "Client error: " +:+ m
  | AcMissingMetadata f => "Missing metadata: " +:+ f
  | AcInvalidMetadata f => "Invalid metadata: " +:+ f
  | AcTransaction m => "Transaction error: " +:+ m
  | AcAggregation e => "Aggregation error: " +:+ display_aggregation_error e
  | AcAggregationService e => "Aggregation service error: " +:+ display_client_error e
  | AcBls m => "BLS error: " +:+ m
  | AcAggregationNotConfigured =>
      "Aggregation required but not configured. Call with_aggregation_service() first."
  end.

(** ** Taking results *)

Record PendingJobResult := mkPending {
  pj_service_id : Z;
  pj_call_id : Z;
  pj_job_index : Z;
  pj_output : list Byte8;
}.

Section start_send.
  Context {E : Type}.

(** The job index in the metadata, as the consumer reads it: a [u64] of eight
    bytes that fits a [u8], and 0 otherwise *)
Definition metadata_job_index (m : MetadataMap) : Z :=
  match m !! JobIndex_KEY with
  | Some v => match mv_try_u64 v with
              | Some x => if x <=? 255 then x else 0
              | None => 0
              end
  | None => 0
  end.

(** [AggregatingConsumer::start_send]: what it appends to the queue, if anything *)
Definition agg_start_send (item : JobResult E) : result AggregatingConsumerError (option PendingJobResult) :=
  match item with
  | JobErr _ => Ok None
  | JobOk m body =>
    match m !! CallId_KEY, m !! ServiceId_KEY with
    | Some call_id_raw, Some service_id_raw =>
        let job_index := metadata_job_index m in
        call_id ← ok_or (mv_try_u64 call_id_raw) (AcInvalidMetadata "call_id");
        service_id ← ok_or (mv_try_u64 service_id_raw) (AcInvalidMetadata "service_id");
        Ok (Some (mkPending service_id call_id job_index body))
    | _, _ => Ok None
    end
  end.

End start_send.

(** ** Thresholds *)

(** [count_based] *)
Definition count_based (total threshold_bps : Z) : Z :=
  if total =? 0 then 1
  else
    let product := u64_wrap (total * threshold_bps) in
    let required := (product + 9999) / 10000 in
    let required := if required =? 0 then 1 else required in
    Z.max (Z.min required total) 1.

(** [integration::calculate_required_signers] *)
Definition calculate_required_signers (total_operators threshold_bps : Z) (kind : ThresholdKind)
    (operator_stakes : option (list Z)) : Z :=
  match kind, operator_stakes with
  | CountBased, _ | StakeWeightedBased, None => count_based total_operators threshold_bps
  | StakeWeightedBased, Some stakes =>
      if forallb (Z.eqb 0) stakes then count_based total_operators threshold_bps
      else
        let total_stake := sumZ stakes in
        if total_stake =? 0 then count_based total_operators threshold_bps
        else
          let required_stake := (total_stake * threshold_bps + 9999) / 10000 in
          let required_stake := if required_stake =? 0 then 1 else required_stake in
          let required_signers := take_until required_stake 0 (sort_desc stakes) in
          Z.max (Z.min required_signers (Z.max total_operators 1)) 1
  end.

Record AggregationTaskInit := mkTaskInit {
  ti_operator_count : Z;
  ti_threshold : ThresholdConfig;
  ti_operators : list Address;
}.

(** The stakes of the operators in the order of their indices *)
Definition stakes_of (weights : OperatorWeights) (operators : list Address) : list OperatorStake :=
  imap (λ i op, mkOperatorStake (Z.of_nat i) (default 0 (ow_weights weights !! op))) operators.

(** [prepare_aggregation_task], given what the cache answers *)
Definition prepare_aggregation_task (operators : result CacheError ServiceOperators)
    (weights : result CacheError OperatorWeights) (service_id : Z) (config : AggregationConfig)
    : result AggregatingConsumerError AggregationTaskInit :=
  operators ← map_err (λ e, AcClient (display_cache_error e)) operators;
  let ops := so_operators operators in
  if bool_decide (ops = []) then Err (AcClient ("No operators registered for service " +:+ pretty service_id))
  else
    let count := CountConfig (u32_wrap
      (calculate_required_signers (zlen ops) (ac_threshold_bps config) CountBased None)) in
    threshold ← match ac_threshold_type config with
      | CountBased => Ok count
      | StakeWeightedBased =>
          weights ← map_err (λ e, AcClient (display_cache_error e)) weights;
          if bool_decide (ow_weights weights = ∅) then Ok count
          else
            let stakes := stakes_of weights ops in
            if forallb (λ s, os_stake s =? 0) stakes then Ok count
            else Ok (StakeWeightedConfig (ac_threshold_bps config) stakes)
      end;
    Ok (mkTaskInit (u32_wrap (zlen ops)) threshold ops).

(** ** Signing messages *)

(** [integration::create_signing_message] *)
Definition integration_signing_message (keccak : list Byte8 → list Byte8)
    (service_id call_id : Z) (output : list Byte8) : list Byte8 :=
  to_be_bytes 8 service_id ++ to_be_bytes 8 call_id ++ keccak output.

(** The Solidity ABI encodings used by [tangle_signing_message]: of an array of
    addresses, and of the seven fields of the message *)
Class MessageAbi := {
  abi_keccak : list Byte8 → list Byte8;
  abi_encode_operators : list Address → list Byte8;
  abi_encode_message : list Byte8 → Z → Address → Z → Z → list Byte8 → list Byte8 → list Byte8;
}.

(** [tangle_signing_message] *)
Definition tangle_signing_message `{MessageAbi} (chain_id : Z) (tangle_address : Address)
    (service_id call_id : Z) (operators : list Address) (output : list Byte8) : list Byte8 :=
  abi_encode_message (str_bytes "TANGLE_BLS_AGG_v1") chain_id tangle_address service_id call_id
    (abi_keccak (abi_encode_operators operators)) (abi_keccak output).

(** ** Signer bitmaps ([SignerBitmap]) *)

Definition bitmap_from_indices (indices : list Z) : Z :=
  foldl (λ bitmap idx, u256_or bitmap (u256_shl 1 idx)) 0 indices.
Definition bitmap_is_signer (bitmap index : Z) : bool := u256_and (u256_shr bitmap index) 1 =? 1.
Definition bitmap_add_signer (bitmap index : Z) : Z := u256_or bitmap (u256_shl 1 index).
Definition bitmap_remove_signer (bitmap index : Z) : Z :=
  u256_and bitmap (Z.lxor (2 ^ 256 - 1) (u256_shl 1 index)).

(** One round of the loop of [count_signers] *)
Fixpoint count_loop (fuel : nat) (bitmap count : Z) : Z :=
  match fuel with
  | O => count
  | S fuel =>
      if bitmap <=? 0 then count
      else count_loop fuel (u256_shr bitmap 1) (if u256_and bitmap 1 =? 1 then count + 1 else count)
  end.

(** [SignerBitmap::count_signers]: a 256-bit word is zero after 256 shifts *)
Definition count_signers (bitmap : Z) : Z := count_loop 256 bitmap 0.

(** [G1Point::from_bytes], [G2Point::from_bytes] *)
Definition g1_from_bytes (bytes : list Byte8) : option (Z * Z) :=
  if negb (zlen bytes =? 64) then None
  else Some (from_be_bytes (slice bytes 0 32), from_be_bytes (slice bytes 32 64)).
Definition g2_from_bytes (bytes : list Byte8) : option (Z * Z * Z * Z) :=
  if negb (zlen bytes =? 128) then None
  else Some (from_be_bytes (slice bytes 0 32), from_be_bytes (slice bytes 32 64),
             from_be_bytes (slice bytes 64 96), from_be_bytes (slice bytes 96 128)).

(** ** The required number of signers *)

Lemma div_ceil_le a b n : 0 < b → (a + (b - 1)) / b ≤ n ↔ a ≤ n * b.
Proof.
  intros Hb. pose proof (div_ge_iff (a + (b - 1)) b (n + 1) Hb) as H.
  split; intros ?; [apply Z.nlt_ge; intros ?; assert (n + 1 ≤ (a + (b - 1)) / b); [apply H|]; nia|].
  apply Z.nlt_ge. intros ?. assert ((n + 1) * b ≤ a + (b - 1)); [apply H|]; nia.
Qed.

(** The count-based number is the least number of signers, at least one, that
    makes up the share of the operators. *)
Lemma count_based_least total bps n :
  0 < total < 2 ^ 32 → 0 ≤ bps ≤ 10000 → 1 ≤ n →
  count_based total bps ≤ n ↔ bps * total ≤ n * 10000.
Proof.
  intros Ht Hb Hn. unfold count_based. rewrite (proj2 (Z.eqb_neq total 0)) by lia.
  rewrite u64_wrap_small by (unfold is_u64; nia).
  pose proof (div_ceil_le (total * bps) 10000 n ltac:(lia)) as H.
  pose proof (div_ceil_le (total * bps) 10000 total ltac:(lia)) as H'.
  change (10000 - 1) with 9999 in *.
  assert (0 ≤ (total * bps + 9999) / 10000) by (apply Z.div_pos; nia).
  case_match; to_prop; nia.
Qed.

Lemma count_based_bounds total bps : 0 < total → 1 ≤ count_based total bps ≤ total.
Proof. intros Ht. unfold count_based. rewrite (proj2 (Z.eqb_neq total 0)) by lia. case_match; lia. Qed.

(** The stake-weighted number of signers is exact: that many operators can
    hold the share of the stake, and no smaller group can. *)
Theorem required_signers_minimal total bps stakes :
  0 < bps ≤ 10000 → total = zlen stakes → Forall (λ x, 0 ≤ x) stakes → 0 < sumZ stakes →
  let k := calculate_required_signers total bps StakeWeightedBased (Some stakes) in
  1 ≤ k ≤ total ∧
  (∃ s, s ⊆+ stakes ∧ zlen s = k ∧ bps * sumZ stakes ≤ sumZ s * 10000) ∧
  (∀ s, s ⊆+ stakes → zlen s < k → sumZ s * 10000 < bps * sumZ stakes).
Proof.
  intros Hb -> H0 Hs. unfold calculate_required_signers, zlen in *.
  assert (forallb (Z.eqb 0) stakes = false) as ->.
  { apply not_true_iff_false. intros H. rewrite forallb_forall in H.
    assert (sumZ stakes = 0); [|lia]. clear -H.
    induction stakes as [|x l IH]; [done|]. rewrite sumZ_cons, IH.
    - assert (0 =? x = true) by (apply H; by left). to_prop. lia.
    - intros y Hy. apply H. by right. }
  rewrite (proj2 (Z.eqb_neq _ _)) by lia.
  set (r := (sumZ stakes * bps + 9999) / 10000).
  pose proof (λ n, div_ceil_le (sumZ stakes * bps) 10000 n ltac:(lia)) as Hr.
  change (10000 - 1) with 9999 in Hr. fold r in Hr.
  assert (0 < r) by (apply Z.nle_gt; rewrite Hr; nia).
  assert (r ≤ sumZ stakes) by (rewrite Hr; nia).
  rewrite (proj2 (Z.eqb_neq r 0)) by lia.
  destruct (take_until_minimal r stakes) as (Hk & (s & Hsub & Hlen & Hsum) & Hlow); [lia|done|].
  rewrite Z.min_l, Z.max_l by lia. split_and!; [lia|lia| |].
  - exists s. split_and!; [done|done|]. apply Hr in Hsum. lia.
  - intros s' Hs' Hl. specialize (Hlow s' Hs' Hl). apply Z.nle_gt. intros Hc.
    assert (r ≤ sumZ s'); [apply Hr; lia|lia].
Qed.

Lemma required_signers_minimal_witness :
  calculate_required_signers 3 6700 StakeWeightedBased (Some [50; 30; 20]) = 2.
Proof.
  destruct (required_signers_minimal 3 6700 [50; 30; 20]) as (_ & _ & _);
    [lia|done|repeat constructor; lia|cbn; lia|]. by vm_compute.
Defined.

(** ** The threshold of a task *)

Definition weight_of (weights : OperatorWeights) (op : Address) : Z := default 0 (ow_weights weights !! op).

Definition stake_map (weights : OperatorWeights) (ops : list Address) : gmap Z Z :=
  foldl (λ m x, <[os_operator_index x := os_stake x]> m) ∅ (stakes_of weights ops).

Lemma stake_map_snoc w ops op :
  stake_map w (ops ++ [op]) = <[zlen ops := weight_of w op]> (stake_map w ops).
Proof.
  unfold stake_map, stakes_of. rewrite imap_app, foldl_app. cbn.
  rewrite Nat.add_0_r. done.
Qed.

Lemma stake_map_lookup w ops i :
  stake_map w ops !! i = if bool_decide (0 ≤ i < zlen ops)
    then weight_of w <$> ops !! Z.to_nat i else None.
Proof.
  induction ops as [|op ops IH] using rev_ind.
  { unfold zlen. cbn. rewrite bool_decide_eq_false_2 by lia. done. }
  rewrite stake_map_snoc. unfold zlen in *. rewrite length_app. cbn [length].
  destruct (decide (i = Z.of_nat (length ops))) as [->|Hne].
  - rewrite lookup_insert_eq, bool_decide_eq_true_2 by lia.
    rewrite lookup_app_r, Nat2Z.id, Nat.sub_diag by lia. done.
  - rewrite lookup_insert_ne, IH by done.
    case_bool_decide; [rewrite bool_decide_eq_true_2 by lia|by rewrite bool_decide_eq_false_2 by lia].
    by rewrite lookup_app_l by lia.
Qed.

Lemma stake_map_values w ops : values (stake_map w ops) ≡ₚ weight_of w <$> ops.
Proof.
  induction ops as [|op ops IH] using rev_ind; [done|].
  rewrite stake_map_snoc, values_insert, IH, fmap_app.
  - by rewrite Permutation_cons_append.
  - rewrite stake_map_lookup. unfold zlen. by rewrite bool_decide_eq_false_2 by lia.
Qed.

(** The job counts stake, and some operator has any *)
Definition by_stake (config : AggregationConfig) (weights : OperatorWeights) (ops : list Address) : bool :=
  match ac_threshold_type config with
  | CountBased => false
  | StakeWeightedBased => existsb (λ op, negb (weight_of weights op =? 0)) ops
  end.

(** The share of the operators, or of their stake, that the configuration of a
    job asks for, held by the operators with the given indices *)
Definition asked_threshold (config : AggregationConfig) (weights : OperatorWeights)
    (ops : list Address) (signers : list Z) : Prop :=
  let weight i := default 0 (weight_of weights <$> ops !! Z.to_nat i) in
  if by_stake config weights ops
  then ac_threshold_bps config * sumZ (weight_of weights <$> ops) ≤ sumZ (weight <$> signers) * 10000
  else ac_threshold_bps config * zlen ops ≤ zlen signers * 10000 ∧ 1 ≤ zlen signers.

(** The threshold of the task built from a request; a task keeps these fields
    for as long as it exists. *)
Definition task_asks {B : Bn254.Bn254} (init : AggregationTaskInit) (t : TaskState) : Prop :=
  let '(kind, stakes) := threshold_of_request (ti_threshold init) in
  ∃ now sid cid out msg sch,
    let t0 := with_message_config now sid cid out msg sch (ti_operator_count init) kind stakes None in
    threshold_type t = threshold_type t0 ∧ operator_stakes t = operator_stakes t0 ∧
    total_stake t = total_stake t0.

Lemma all_stakes_zero w ops :
  forallb (λ s, os_stake s =? 0) (stakes_of w ops) = negb (existsb (λ op, negb (weight_of w op =? 0)) ops).
Proof.
  assert (∀ f : nat → Z,
    forallb (λ s, os_stake s =? 0) (imap (λ i op, mkOperatorStake (f i) (weight_of w op)) ops)
    = negb (existsb (λ op, negb (weight_of w op =? 0)) ops)) as H; [|apply (H Z.of_nat)].
  induction ops as [|op ops IH]; intros f; [done|]. cbn. rewrite negb_orb, negb_involutive. f_equal.
  apply (IH (f ∘ S)).
Qed.

Lemma existsb_weight w ops :
  existsb (λ op, negb (weight_of w op =? 0)) ops = true → ∃ op, op ∈ ops ∧ weight_of w op ≠ 0.
Proof. intros (op & Hin & Hz)%existsb_exists. exists op. rewrite list_elem_of_In. to_prop. done. Qed.

Lemma sum_weights_nonneg w ops :
  map_Forall (λ _ x, 0 ≤ x < 2 ^ 16) (ow_weights w) →
  Forall (λ x, 0 ≤ x < 2 ^ 16) (weight_of w <$> ops).
Proof.
  intros H. apply Forall_fmap, list.Forall_forall. intros op _. cbn. unfold weight_of.
  destruct (ow_weights w !! op) as [x|] eqn:E; cbn; [by apply (H op)|lia].
Qed.

Lemma sumZ_upper (l : list Z) b : Forall (λ x, 0 ≤ x < b) l → 0 ≤ sumZ l ≤ Z.of_nat (length l) * b.
Proof. induction 1; [done|]. rewrite sumZ_cons. cbn [length]. lia. Qed.

Lemma sumZ_pos (l : list Z) b x : Forall (λ x, 0 ≤ x < b) l → x ∈ l → x ≠ 0 → 0 < sumZ l.
Proof.
  induction 1 as [|y l Hy Hl IH]; [by rewrite elem_of_nil|].
  pose proof (sumZ_upper l b Hl). rewrite sumZ_cons. intros [->|?]%elem_of_cons ?; [lia|].
  specialize (IH ltac:(done) ltac:(done)). lia.
Qed.

(** What [prepare_aggregation_task] asks the service for *)
Lemma prepare_spec ops w sid config init :
  prepare_aggregation_task (Ok ops) (Ok w) sid config = Ok init →
  let l := so_operators ops in
  l ≠ [] ∧ ti_operators init = l ∧ ti_operator_count init = u32_wrap (zlen l) ∧
  ti_threshold init = if by_stake config w l
    then StakeWeightedConfig (ac_threshold_bps config) (stakes_of w l)
    else CountConfig (u32_wrap (count_based (zlen l) (ac_threshold_bps config))).
Proof.
  unfold prepare_aggregation_task, by_stake. cbn. set (l := so_operators ops). intros H.
  case_bool_decide as Hl; [done|].
  destruct (ac_threshold_type config) eqn:Hk; cbn in H; [by simplify_eq|].
  case_bool_decide as Hw; cbn in H.
  - simplify_eq. split_and!; [done..|]. cbn. destruct (existsb _ l) eqn:He; [|done].
    apply existsb_weight in He as (op & _ & Ho). destruct Ho. unfold weight_of. by rewrite Hw, lookup_empty.
  - rewrite all_stakes_zero in H. by destruct (existsb _ l); cbn in H; simplify_eq.
Qed.

(** C23. The service enforces what the configuration of the job asks: a task
    created from the request the consumer prepares reports its threshold met
    exactly when its signers hold the share of the stake the configuration
    names, or the share of the operators when it counts operators or no
    operator has a weight. *)
Theorem consumer_threshold_enforced {B : Bn254.Bn254} ops w sid config init t :
  prepare_aggregation_task (Ok ops) (Ok w) sid config = Ok init →
  zlen (so_operators ops) < 2 ^ 32 → map_Forall (λ _ x, 0 ≤ x < 2 ^ 16) (ow_weights w) →
  0 ≤ ac_threshold_bps config ≤ 10000 →
  task_wf t → task_asks init t →
  threshold_met t = true ↔ asked_threshold config w (so_operators ops) (get_signers t).
Proof.
  intros (Hne & _ & Hcount & Hcase)%prepare_spec Hlen Hw Hb Hwf Hasks.
  unfold asked_threshold. set (l := so_operators ops) in *.
  assert (0 < zlen l) by (unfold zlen; destruct l; [done|cbn [length]; lia]).
  unfold task_asks in Hasks. rewrite Hcase in Hasks.
  destruct (by_stake config w l) eqn:Hby; cbn in Hasks; destruct Hasks as (_ & _ & _ & _ & _ & _ & Htype & Hstakes & Htotal).
  - fold (stake_map w l) in Hstakes.
    pose proof (sum_weights_nonneg w l Hw) as Hf.
    pose proof (sumZ_upper _ _ Hf) as Hup. rewrite length_fmap in Hup. fold (zlen l) in Hup.
    assert (0 < sumZ (weight_of w <$> l)).
    { unfold by_stake in Hby. destruct (ac_threshold_type config); [done|].
      destruct (existsb_weight _ _ Hby) as (op & Hop & Hnz). eapply sumZ_pos; [done| |done]. by apply list_elem_of_fmap_2. }
    assert (sumZ (values (operator_stakes t)) = sumZ (weight_of w <$> l)) as Hsum
      by by rewrite Hstakes, stake_map_values.
    assert (stakes_fit t) as Hfit.
    { split; [|rewrite Hsum; lia]. intros i x. rewrite Hstakes, stake_map_lookup.
      case_bool_decide; [|done]. destruct (l !! Z.to_nat i) as [op|] eqn:Ho; [|done]. cbn.
      intros [= <-]. rewrite list.Forall_forall in Hf. apply (Hf (weight_of w op)).
      apply list_elem_of_fmap_2. by eapply list_elem_of_lookup_2. }
    rewrite stake_threshold_iff; [|done|done| |exact Htype].
    2:{ rewrite total_stake_exact by done. lia. }
    rewrite Hsum. unfold stake_total.
    assert (stake_of t <$> get_signers t
            = (λ i, default 0 (weight_of w <$> l !! Z.to_nat i)) <$> get_signers t) as ->; [|done].
    apply list_fmap_ext. intros j i Hi. unfold stake_of. rewrite Hstakes, stake_map_lookup.
    assert (0 ≤ i).
    { assert (i ∈ get_signers t) as Hin by by eapply list_elem_of_lookup_2.
      rewrite get_signers_perm, elem_of_keys in Hin. apply elem_of_dom in Hin.
      by destruct (wf_index _ Hwf i Hin). }
    case_bool_decide; [done|]. rewrite lookup_ge_None_2; [done|]. unfold zlen in *. lia.
  - unfold threshold_met. rewrite Htype, Z.leb_le.
    assert (signature_count t = zlen (get_signers t)) as ->.
    { unfold signature_count, zlen. by rewrite get_signers_perm, keys_length. }
    pose proof (count_based_bounds (zlen l) (ac_threshold_bps config) ltac:(done)).
    rewrite u32_wrap_small by (unfold is_u32; lia).
    split.
    + intros Hc. split; [|lia]. by apply count_based_least; [lia..|].
    + intros [Hc ?]. by apply count_based_least; [lia..|].
Qed.

(** ** Signing messages *)

Lemma to_be_bytes_8 x : to_be_bytes 8 x = u64_to_be_bytes x.
Proof.
  unfold u64_to_be_bytes. cbn [to_be_bytes app fmap list_fmap].
  rewrite !Z.shiftr_div_pow2 by lia. rewrite !Z.div_div by lia. rewrite ?Z.div_1_r. done.
Qed.

(** The message the helper for peer-to-peer aggregation builds is the one
    the aggregation service signs by default. *)
Theorem signing_messages_agree {B : Bn254.Bn254} service_id call_id output :
  integration_signing_message Bn254.keccak256 service_id call_id output
  = create_signing_message service_id call_id output.
Proof. unfold integration_signing_message, create_signing_message. by rewrite !to_be_bytes_8. Qed.

(** What is known of the encodings: the hash has no collisions, the encodings
    have left inverses (the decoders of the ABI) *)
Class MessageAbiLaws `{MessageAbi} := {
  abi_keccak_inj x y : abi_keccak x = abi_keccak y → x = y;
  abi_decode_operators : list Byte8 → list Address;
  abi_operators_round_trip l : abi_decode_operators (abi_encode_operators l) = l;
  abi_decode_message : list Byte8 → list Byte8 * Z * Address * Z * Z * list Byte8 * list Byte8;
  abi_message_round_trip d c a s i o h :
    abi_decode_message (abi_encode_message d c a s i o h) = (d, c, a, s, i, o, h);
}.

(** A signature for the contract binds everything it is about: two messages
    are equal only when the chain, the contract, the service, the call, the
    operator set and the output are all equal. *)
Theorem tangle_message_binds `{MessageAbiLaws} c a s i ops out c' a' s' i' ops' out' :
  tangle_signing_message c a s i ops out = tangle_signing_message c' a' s' i' ops' out' →
  c = c' ∧ a = a' ∧ s = s' ∧ i = i' ∧ ops = ops' ∧ out = out'.
Proof.
  unfold tangle_signing_message. intros Heq%(f_equal abi_decode_message).
  rewrite !abi_message_round_trip in Heq. injection Heq as -> -> -> -> Ho Hh.
  apply abi_keccak_inj in Hh. apply abi_keccak_inj, (f_equal abi_decode_operators) in Ho.
  by rewrite !abi_operators_round_trip in Ho.
Qed.

(** ** Signer bitmaps *)

Lemma from_indices_testbit indices j :
  Forall (λ i, 0 ≤ i) indices → 0 ≤ j →
  Z.testbit (bitmap_from_indices indices) j = bool_decide (j ∈ indices ∧ j < 256).
Proof.
  intros Hi Hj. unfold bitmap_from_indices.
  assert (∀ b, Z.testbit (foldl (λ bitmap idx, u256_or bitmap (u256_shl 1 idx)) b indices) j
               = Z.testbit b j || bool_decide (j ∈ indices ∧ j < 256)) as H;
    [|rewrite H, Z.testbit_0_l; done].
  induction Hi as [|i indices Hi0 Hi IH]; intros b; cbn [foldl].
  - rewrite bool_decide_eq_false_2 by set_solver. by rewrite orb_false_r.
  - rewrite IH, u256_set_testbit by lia. rewrite <-orb_assoc. f_equal.
    repeat case_bool_decide; cbn; try done; set_solver.
Qed.

Lemma filter_shift b l :
  Forall (λ j, 0 ≤ j) l →
  List.filter (Z.testbit b) (Z.add 1 <$> l) = Z.succ <$> List.filter (Z.testbit (Z.shiftr b 1)) l.
Proof.
  induction 1 as [|j l Hj Hl IH]; [done|]. cbn [fmap list_fmap List.filter].
  rewrite Z.shiftr_spec by lia. replace (j + 1) with (1 + j) by lia.
  destruct (Z.testbit b (1 + j)); cbn [fmap list_fmap]; rewrite <-IH; [f_equal; lia|done].
Qed.

Lemma count_loop_spec n b c :
  0 ≤ b < 2 ^ Z.of_nat n →
  count_loop n b c = c + zlen (List.filter (Z.testbit b) (seqZ 0 (Z.of_nat n))).
Proof.
  revert b c. induction n as [|n IH]; intros b c Hb; cbn [count_loop]; [rewrite seqZ_nil by done; unfold zlen; cbn; lia|].
  rewrite Nat2Z.inj_succ, Z.pow_succ_r in Hb by lia. rewrite seqZ_cons by lia.
  assert (List.filter (Z.testbit b) (seqZ (Z.succ 0) (Z.pred (Z.of_nat (S n))))
    = Z.succ <$> List.filter (Z.testbit (Z.shiftr b 1)) (seqZ 0 (Z.of_nat n))) as Htail.
  { replace (Z.pred (Z.of_nat (S n))) with (Z.of_nat n) by lia.
    change (Z.succ 0) with (1 + 0). rewrite <-(fmap_add_seqZ 1 0 (Z.of_nat n)).
    apply filter_shift, list.Forall_forall. intros j ?%elem_of_seqZ. lia. }
  cbn [List.filter]. rewrite Htail. unfold u256_and, u256_shr. rewrite land_1_testbit.
  assert (∀ c, count_loop n (Z.shiftr b 1) c
    = c + zlen (List.filter (Z.testbit (Z.shiftr b 1)) (seqZ 0 (Z.of_nat n)))) as IH'.
  { intros c'. apply IH. rewrite Z.shiftr_div_pow2 by lia. change (2 ^ 1) with 2.
    split; [apply Z.div_pos; lia|apply Z.div_lt_upper_bound; lia]. }
  destruct (b <=? 0) eqn:Hz; to_prop.
  - assert (b = 0) as -> by lia. rewrite Z.testbit_0_l, Z.shiftr_0_l.
    assert (List.filter (Z.testbit 0) (seqZ 0 (Z.of_nat n)) = []) as ->; [|unfold zlen; cbn; lia].
    clear. induction (seqZ 0 (Z.of_nat n)) as [|j l IHl]; [done|]. cbn. by rewrite Z.testbit_0_l.
  - rewrite IH'. unfold zlen. destruct (Z.testbit b 0); cbn; rewrite length_fmap; lia.
Qed.

(** The bitmap the contract receives stands for the set of signers: of
    distinct indices below 256, exactly those are reported as signers, and
    their number is counted. *)
Theorem bitmap_correct indices :
  NoDup indices → Forall (λ i, 0 ≤ i < 256) indices →
  let b := bitmap_from_indices indices in
  (∀ i, 0 ≤ i → bitmap_is_signer b i = bool_decide (i ∈ indices)) ∧
  count_signers b = zlen indices ∧
  (∀ i, 0 ≤ i < 256 → bitmap_is_signer (bitmap_remove_signer b i) i = false).
Proof.
  intros Hnd Hi b.
  assert (Forall (λ i, 0 ≤ i) indices) as Hi0 by (eapply Forall_impl; [done|cbn; lia]).
  assert (∀ j, 0 ≤ j → Z.testbit b j = bool_decide (j ∈ indices)) as Hb.
  { intros j Hj. unfold b. rewrite from_indices_testbit by done. apply bool_decide_ext.
    rewrite list.Forall_forall in Hi. naive_solver lia. }
  assert (0 ≤ b) as Hpos.
  { unfold b, bitmap_from_indices. cut (∀ z, 0 ≤ z →
      0 ≤ foldl (λ bitmap idx, u256_or bitmap (u256_shl 1 idx)) z indices); [intros H; by apply H|].
    clear. induction indices as [|i l IH]; intros z Hz; [done|]. cbn. apply IH.
    unfold u256_or. apply Z.lor_nonneg. split; [done|]. unfold u256_shl. apply Z.mod_pos_bound. lia. }
  split_and!.
  - intros i Hge. unfold bitmap_is_signer. rewrite u256_bit_test by done. by apply Hb.
  - unfold count_signers. rewrite count_loop_spec.
    + change (Z.of_nat 256) with 256. unfold zlen. rewrite Z.add_0_l. f_equal.
      apply Permutation_length, NoDup_Permutation.
      * apply NoDup_ListNoDup, List.NoDup_filter, NoDup_ListNoDup, NoDup_seqZ.
      * done.
      * intros j. rewrite list_elem_of_In, filter_In, <-list_elem_of_In, elem_of_seqZ.
        split; [intros [? Ht]; rewrite Hb in Ht by lia; by apply bool_decide_eq_true in Ht|].
        intros Hj. rewrite list.Forall_forall in Hi. specialize (Hi j Hj). split; [lia|].
        rewrite Hb by lia. by apply bool_decide_eq_true.
    + split; [done|]. apply bounded_testbit; [lia|done|]. intros j Hj. rewrite Hb by lia.
      apply bool_decide_eq_false. intros Hin. rewrite list.Forall_forall in Hi. specialize (Hi j Hin). lia.
  - intros i Hr. unfold bitmap_is_signer, bitmap_remove_signer. rewrite u256_bit_test by lia.
    unfold u256_and. rewrite Z.land_spec, Z.lxor_spec, u256_shl1_testbit by lia.
    change (2 ^ 256 - 1) with (Z.ones 256). rewrite Z.ones_spec_low by lia.
    rewrite bool_decide_eq_true_2 by lia. by rewrite andb_false_r.
Qed.

Lemma bitmap_correct_witness :
  count_signers (bitmap_from_indices [1; 3; 7]) = 3 ∧ bitmap_is_signer (bitmap_from_indices [1; 3; 7]) 3 = true.
Proof.
  destruct (bitmap_correct [1; 3; 7]) as (Hs & Hc & _).
  - apply NoDup_ListNoDup. repeat constructor; cbn; lia.
  - repeat constructor; lia.
  - split; [exact Hc|]. rewrite Hs by lia. done.
Defined.

(** ** The job index of a result *)

(** The consumer never sees the job a result belongs to: the producer stores
    the index as one byte, which the consumer does not read back as an eight
    byte number, and the submission layer does not forward it at all.  A result
    of a handler that sets no such entry itself is looked up, and aggregated or
    not, under the configuration of job 0. *)
Theorem job_index_lost {E F} (service : JobCall unit → result F (option (JobResult E)))
    e bn bh ts m b m' b' p :
  let call := job_submitted_to_call e bn bh ts in
  service call = Ok (Some (JobOk m b)) → m !! JobIndex_KEY = None →
  submission_call service call = Ok (Some (JobOk m' b')) →
  agg_start_send (E := E) (JobOk m' b') = Ok (Some p) →
  pj_job_index p = 0 ∧ metadata_job_index (metadata (head call)) = 0.
Proof.
  intros call Hs Hm Hl Ha. split.
  - rewrite submission_call_spec, Hs in Hl.
    assert (m' !! JobIndex_KEY = None) as Hm'.
    { repeat case_match; try done. cbn in Hl. simplify_eq. by rewrite !lookup_insert_ne. }
    unfold agg_start_send in Ha.
    destruct (m' !! CallId_KEY) as [c|], (m' !! ServiceId_KEY) as [s|]; try done. cbn in Ha.
    destruct (mv_try_u64 c), (mv_try_u64 s); try done. cbn in Ha. simplify_eq. cbn. unfold metadata_job_index. by rewrite Hm'.
  - unfold metadata_job_index. cbn [call head metadata job_submitted_to_call].
    rewrite !lookup_insert_ne, lookup_insert_eq by done. done.
Qed.

(** ** Witnesses *)

Definition example_ops : list Address := [[1]; [2]; [3]].
Definition example_weights : OperatorWeights := mkWeights {[ [1] := 50; [2] := 30; [3] := 20 ]} 100.
Definition example_config : AggregationConfig := mkAggConfig true 6700 StakeWeightedBased.
Definition example_init : AggregationTaskInit :=
  mkTaskInit 3 (StakeWeightedConfig 6700 (stakes_of example_weights example_ops)) example_ops.
Definition example_task : TaskState (B := Bn254.toy_bn254) :=
  let t := with_message_config (B := Bn254.toy_bn254) 0 1 100 [] [] TangleKeccak256 3 (StakeWeighted 6700)
    (Some (stake_map example_weights example_ops)) None in
  record_signature (B := Bn254.toy_bn254) t 0 4 4.

Lemma consumer_threshold_enforced_witness :
  threshold_met (B := Bn254.toy_bn254) example_task = true ↔
  asked_threshold example_config example_weights example_ops
    (get_signers (B := Bn254.toy_bn254) example_task).
Proof.
  apply (consumer_threshold_enforced (service_operators_new example_ops) example_weights 1 example_config
    example_init).
  - by vm_compute.
  - by vm_compute.
  - cbn. apply map_Forall_insert_2; [lia|]. apply map_Forall_insert_2; [lia|].
    apply map_Forall_singleton. lia.
  - cbn. lia.
  - apply record_signature_wf; [|done]. by apply with_message_config_wf.
  - exists 0, 1, 100, [], [], TangleKeccak256. by vm_compute.
Defined.

(** A hash and encodings that satisfy the laws *)
#[local] Instance toy_abi : MessageAbi := {
  abi_keccak x := x;
  abi_encode_operators l := concat ((λ a, zlen a :: a) <$> l);
  abi_encode_message d c a s i o h := [c; s; i; zlen d; zlen a; zlen o] ++ d ++ a ++ o ++ h;
}.

Fixpoint toy_decode_operators (fuel : nat) (l : list Byte8) : list Address :=
  match fuel, l with
  | S fuel, n :: l => take (Z.to_nat n) l :: toy_decode_operators fuel (drop (Z.to_nat n) l)
  | _, _ => []
  end.

Lemma toy_operators_round_trip ops fuel :
  (length ops ≤ fuel)%nat → toy_decode_operators fuel (abi_encode_operators ops) = ops.
Proof.
  revert fuel. induction ops as [|a ops IH]; intros [|fuel] Hf; try done; cbn [length] in Hf; [lia|].
  cbn. unfold zlen. rewrite Nat2Z.id, take_app_length, drop_app_length. f_equal. apply IH. lia.
Qed.

Lemma toy_operators_length ops : (length ops ≤ length (abi_encode_operators ops))%nat.
Proof. induction ops as [|a ops IH]; [done|]. cbn in *. rewrite length_app. lia. Qed.

#[local] Instance toy_abi_laws : MessageAbiLaws.
Proof.
  refine {| abi_decode_operators := λ l, toy_decode_operators (length l) l;
    abi_decode_message := λ l, match l with
      | c :: s :: i :: n :: k :: j :: r =>
          let d := take (Z.to_nat n) r in let r := drop (Z.to_nat n) r in
          let a := take (Z.to_nat k) r in let r := drop (Z.to_nat k) r in
          (d, c, a, s, i, take (Z.to_nat j) r, drop (Z.to_nat j) r)
      | _ => ([], 0, [], 0, 0, [], [])
      end |}.
  - done.
  - intros l. apply toy_operators_round_trip, toy_operators_length.
  - intros d c a s i o h. cbn. unfold zlen. rewrite !Nat2Z.id.
    by repeat (rewrite take_app_length || rewrite drop_app_length).
Defined.

Lemma tangle_message_binds_witness :
  tangle_signing_message 1 [9] 2 3 [[1]; [2]] [7] = tangle_signing_message 1 [9] 2 3 [[1]; [2]] [7] ∧
  [[1]; [2]] = [[1]; [2]].
Proof.
  split; [done|].
  destruct (tangle_message_binds 1 [9] 2 3 [[1]; [2]] [7] 1 [9] 2 3 [[1]; [2]] [7]) as (_ & _ & _ & _ & H & _);
    [done|exact H].
Defined.

Lemma job_index_lost_witness :
  let service (c : JobCall unit) : result unit (option (JobResult unit)) := Ok (Some (JobOk ∅ [1])) in
  ev_job_index example_event = 3 ∧
  metadata_job_index (metadata (head (job_submitted_to_call example_event 5 [] 0))) = 0.
Proof.
  intros service. split; [done|].
  destruct (submission_call service (job_submitted_to_call example_event 5 [] 0))
    as [[[m' b'|]|]|] eqn:Hl; try (vm_compute in Hl; discriminate).
  destruct (agg_start_send (E := unit) (JobOk m' b')) as [[p|]|] eqn:Ha;
    try (vm_compute in Hl; injection Hl as <- <-; vm_compute in Ha; discriminate).
  by destruct (job_index_lost service example_event 5 [] 0 ∅ [1] m' b' p).
Defined.
