(* ===== verification/AggClient.v ===== *)
(** * Submitting results through the aggregation services

    Models [tangle-aggregation-svc/src/client.rs] and the submission path of
    [tangle-extra/src/aggregating_consumer.rs]: [submit_job_result] and what it
    calls.  The services and the chain are a class of remote ends; the model
    records the requests that were sent and what came back, in order. *)

From Stdlib Require Import ZArith Lia Ascii.
From stdpp Require Import base gmap sets list sorting strings pretty fin_maps numbers relations.
From S2P Require Import Prelude Text Bytes Bn254 AggTask AggState AggPersist AggService TangleConsumer ConfigCache AggConsumer.

#[local] Open Scope Z_scope.

(** ** The clients *)

(** A client is known by its base URL. *)
Definition client_new (base_url : string) : string := trim_end_matches "/"%char base_url.

Inductive ThresholdWaitResult :=
| Aggregated (r : AggregatedResultResponse)
| AlreadyOnChain.

(** A status code, and the body as far as it can be parsed *)
Record HttpReply (A : Type) := mkReply { http_status : Z; http_json : result string A }.
Arguments mkReply {A}.
Arguments http_status {A}.
Arguments http_json {A}.

(** [StatusCode::is_success] *)
Definition is_success (code : Z) : bool := (200 <=? code) && (code <? 300).

(** What an aggregated result is submitted as *)
Record AggregatedCall := mkCall {
  cl_service_id : Z;
  cl_call_id : Z;
  cl_output : list Byte8;
  cl_signer_bitmap : Z;
  cl_signature : Z * Z;
  cl_pubkey : Z * Z * Z * Z;
}.

(** The remote ends: a request fails with the text of the error, or is
    answered; [W] is their state. *)
Class Remote (W : Type) := {
  post_init : string → InitTaskRequest → W → result string (HttpReply InitTaskResponse) * W;
  post_submit : string → SubmitSignatureRequest → W → result string (HttpReply SubmitSignatureResponse) * W;
  post_status : string → GetStatusRequest → W → result string (HttpReply GetStatusResponse) * W;
  post_aggregate : string → GetStatusRequest → W
    → result string (HttpReply (option AggregatedResultResponse)) * W;
  (** the error text of the body *)
  post_mark : string → GetStatusRequest → W → result string (HttpReply (option string)) * W;
  eth_chain_id : W → result string Z * W;
  (** whether the transaction succeeded, and its hash *)
  submitAggregatedResult : AggregatedCall → W → result string (bool * string) * W;
  submitResult : Z → Z → list Byte8 → W → result string (bool * string) * W;
}.

(** What was sent, with what came back *)
Inductive Event :=
| EInit (c : string) (req : InitTaskRequest) (accepted : bool)
| ESubmit (c : string) (req : SubmitSignatureRequest) (r : option SubmitSignatureResponse)
| EFetched (c : string) (r : AggregatedResultResponse)
| EReported (c : string)
| EChain (call : AggregatedCall) (r : result string (bool * string))
| EDirect (service_id call_id : Z) (output : list Byte8) (r : result string (bool * string))
| EMark (c : string).

(** The coordinates of points of the curves *)
Class Coordinates `{Bn254} := {
  g1_xy : Sig → Z * Z;
  (** [x.c0], [x.c1], [y.c0], [y.c1] *)
  g2_xy : Pk → Z * Z * Z * Z;
}.

Section client.
  Context {W : Type} `{!Remote W}.

Record World := mkWorld { w_remote : W; w_trace : list Event }.

Definition M (A : Type) : Type := World → A * World.

#[export] Instance M_ret : MRet M := λ A a w, (a, w).
#[export] Instance M_bind : MBind M := λ A B f m w, let '(a, w) := m w in f a w.

(** Calling a remote end, and recording an event *)
Definition remote {A} (op : W → A * W) : M A := λ w,
  let '(a, r) := op (w_remote w) in (a, mkWorld r (w_trace w)).
Definition record (e : Event) : M unit := λ w, (tt, mkWorld (w_remote w) (w_trace w ++ [e])).

(** [send().await?.json().await?] *)
Definition json_body {A} (r : result string (HttpReply A)) : result SvcClientError A :=
  reply ← map_err HttpError r; map_err HttpError (http_json reply).

(** [AggregationServiceClient::init_task_with_message] *)
Definition init_task_with_message (c : string) (request : InitTaskRequest) : M (result SvcClientError unit) :=
  r ← remote (post_init c request);
  let answer :=
    response ← json_body r;
    if it_success response then Ok tt
    else Err (ServerError (default "Unknown error" (it_error response))) in
  _ ← record (EInit c request (match answer with Ok _ => true | Err _ => false end));
  mret answer.

(** [AggregationServiceClient::submit_signature] *)
Definition client_submit_signature (c : string) (request : SubmitSignatureRequest)
    : M (result SvcClientError SubmitSignatureResponse) :=
  r ← remote (post_submit c request);
  let answer :=
    response ← json_body r;
    if rs_accepted response then Ok response
    else Err (ServerError (default "Signature rejected" (rs_error response))) in
  _ ← record (ESubmit c request (result_ok answer));
  mret answer.

(** [AggregationServiceClient::get_status] *)
Definition client_get_status (c : string) (service_id call_id : Z) : M (result SvcClientError GetStatusResponse) :=
  r ← remote (post_status c (mkGetStatus service_id call_id));
  let answer :=
    response ← json_body r;
    if negb (gs_exists response) then Err SvcNotFound else Ok response in
  _ ← match answer with
      | Ok s => if gs_submitted s then record (EReported c) else mret tt
      | Err _ => mret tt
      end;
  mret answer.

(** [AggregationServiceClient::get_aggregated] *)
Definition get_aggregated (c : string) (service_id call_id : Z)
    : M (result SvcClientError (option AggregatedResultResponse)) :=
  r ← remote (post_aggregate c (mkGetStatus service_id call_id));
  let answer :=
    response ← map_err HttpError r;
    if http_status response =? 404 then Ok None
    else if negb (is_success (http_status response))
    then Err (ServerError ("Server returned " +:+ pretty (http_status response)))
    else map_err HttpError (http_json response) in
  _ ← match answer with Ok (Some a) => record (EFetched c a) | _ => mret tt end;
  mret answer.

(** [AggregationServiceClient::get_aggregated_or_submitted] *)
Definition get_aggregated_or_submitted (c : string) (service_id call_id : Z)
    : M (result SvcClientError ThresholdWaitResult) :=
  r ← get_aggregated c service_id call_id;
  match r with
  | Err e => mret (Err e)
  | Ok (Some a) => mret (Ok (Aggregated a))
  | Ok None =>
      r ← client_get_status c service_id call_id;
      mret (
        status ← r;
        if gs_submitted status then Ok AlreadyOnChain
        else Err (SvcThresholdNotMet (gs_signatures_collected status) (gs_threshold_required status)))
  end.

(** [AggregationServiceClient::mark_submitted]; the callers ignore the outcome *)
Definition client_mark_submitted (c : string) (service_id call_id : Z) : M (result SvcClientError unit) :=
  r ← remote (post_mark c (mkGetStatus service_id call_id));
  _ ← record (EMark c);
  mret (
    response ← map_err HttpError r;
    if negb (is_success (http_status response)) then
      error ← map_err HttpError (http_json response);
      Err (ServerError (default "Unknown error" error))
    else Ok tt).

(** One round of the loop of [wait_for_threshold_or_submitted]: the outcome, or
    [None] to sleep and go round again *)
Definition client_wait_round (c : string) (service_id call_id : Z) (expired : bool)
    : M (option (result SvcClientError ThresholdWaitResult)) :=
  if expired then
    r ← client_get_status c service_id call_id;
    mret (Some (
      status ← r;
      if gs_submitted status then Ok AlreadyOnChain
      else Err (SvcThresholdNotMet (gs_signatures_collected status) (gs_threshold_required status))))
  else
    r ← get_aggregated c service_id call_id;
    match r with
    | Err e => mret (Some (Err e))
    | Ok (Some a) => mret (Some (Ok (Aggregated a)))
    | Ok None =>
        r ← client_get_status c service_id call_id;
        mret match r with
             | Err e => Some (Err e)
             | Ok status => if gs_submitted status then Some (Ok AlreadyOnChain) else None
             end
    end.

(** [wait_for_threshold_or_submitted], for the readings of the clock in each
    round; [None] when it is still waiting after those rounds *)
Fixpoint wait_for_threshold_or_submitted (c : string) (service_id call_id : Z) (timeout : Duration)
    (clock : list Duration) : M (option (result SvcClientError ThresholdWaitResult)) :=
  match clock with
  | [] => mret None
  | t :: clock =>
      r ← client_wait_round c service_id call_id (timeout <? t);
      match r with
      | Some r => mret (Some r)
      | None => wait_for_threshold_or_submitted c service_id call_id timeout clock
      end
  end.

(** [wait_for_threshold] *)
Definition wait_for_threshold (c : string) (service_id call_id : Z) (timeout : Duration)
    (clock : list Duration) : M (option (result SvcClientError AggregatedResultResponse)) :=
  r ← wait_for_threshold_or_submitted c service_id call_id timeout clock;
  mret (option_map (λ r, w ← r; match w with Aggregated a => Ok a | AlreadyOnChain => Err AlreadySubmitted end) r).

(** ** The submission path of the consumer *)

Context {B : Bn254} {Co : @Coordinates B} {Abi : MessageAbi}.

Record AggregationServiceConfig := mkServices {
  clients : list string;
  bls_secret : Z;
  bls_public : Pk;
  operator_index : Z;
  wait_threshold : bool;
  threshold_timeout : Duration;
  poll_interval : Duration;
  submit_to_chain : bool;
}.

(** [AggregationServiceConfig::with_multiple_services], and [new] for one URL *)
Definition with_multiple_services (urls : list string) (secret : Z) (index : Z) : AggregationServiceConfig :=
  mkServices (client_new <$> urls) secret (public_from_secret secret) index false (from_secs 60)
    (from_secs 1) true.
Definition services_new (url : string) (secret index : Z) : AggregationServiceConfig :=
  with_multiple_services [url] secret index.
Definition add_service (url : string) (c : AggregationServiceConfig) : AggregationServiceConfig :=
  mkServices (clients c ++ [client_new url]) (bls_secret c) (bls_public c) (operator_index c)
    (wait_threshold c) (threshold_timeout c) (poll_interval c) (submit_to_chain c).

(** [Display] of the errors of the signature scheme: any text *)
Context (display_bls : Bn254Error → string).

(** One round of the loop over the services: initialise the task there, and
    only then send the signature *)
Definition submit_to_service (init : InitTaskRequest) (request : SubmitSignatureRequest) (c : string)
    : M (option SubmitSignatureResponse) :=
  r ← init_task_with_message c init;
  match r with
  | Err _ => mret None
  | Ok _ => r ← client_submit_signature c request; mret (result_ok r)
  end.

(** The loop: the last response received *)
Fixpoint submit_to_services (init : InitTaskRequest) (request : SubmitSignatureRequest)
    (cs : list string) (last_response : option SubmitSignatureResponse)
    : M (option SubmitSignatureResponse) :=
  match cs with
  | [] => mret last_response
  | c :: cs =>
      r ← submit_to_service init request c;
      submit_to_services init request cs (match r with Some _ => r | None => last_response end)
  end.

(** The inner loop of [wait_for_threshold_any_service]: every service in turn *)
Fixpoint poll_services (service_id call_id : Z) (cs : list string) : M (option ThresholdWaitResult) :=
  match cs with
  | [] => mret None
  | c :: cs =>
      r ← get_aggregated c service_id call_id;
      match r with
      | Ok (Some a) => mret (Some (Aggregated a))
      | _ =>
          r ← client_get_status c service_id call_id;
          match r with
          | Ok status => if gs_submitted status then mret (Some AlreadyOnChain)
                         else poll_services service_id call_id cs
          | Err _ => poll_services service_id call_id cs
          end
      end
  end.

(** The last check, after the time is up *)
Fixpoint poll_submitted (service_id call_id : Z) (cs : list string) : M bool :=
  match cs with
  | [] => mret false
  | c :: cs =>
      r ← client_get_status c service_id call_id;
      match r with
      | Ok status => if gs_submitted status then mret true else poll_submitted service_id call_id cs
      | Err _ => poll_submitted service_id call_id cs
      end
  end.

(** [wait_for_threshold_any_service] *)
Fixpoint wait_for_threshold_any_service (agg : AggregationServiceConfig) (service_id call_id : Z)
    (clock : list Duration) : M (option (result AggregatingConsumerError ThresholdWaitResult)) :=
  match clock with
  | [] => mret None
  | t :: clock =>
      if t <? threshold_timeout agg then
        r ← poll_services service_id call_id (clients agg);
        match r with
        | Some r => mret (Some (Ok r))
        | None => wait_for_threshold_any_service agg service_id call_id clock
        end
      else
        done ← poll_submitted service_id call_id (clients agg);
        mret (Some (if (done : bool) then Ok AlreadyOnChain
                    else Err (AcClient "Timeout waiting for aggregation threshold")))
  end.

Definition JOB_ALREADY_COMPLETED_SELECTOR : string := "0x0a55512f".

(** [is_job_already_completed] *)
Definition is_job_already_completed (e : AggregatingConsumerError) : bool :=
  let message := to_ascii_lowercase (display_consumer_error e) in
  contains "jobalreadycompleted" message || contains "job already completed" message
  || contains JOB_ALREADY_COMPLETED_SELECTOR message.

(** The calls of [mark_submitted] after a submission *)
Fixpoint mark_all (service_id call_id : Z) (cs : list string) : M unit :=
  match cs with
  | [] => mret tt
  | c :: cs => _ ← client_mark_submitted c service_id call_id; mark_all service_id call_id cs
  end.

Definition reverted (service_id call_id : Z) (tx_hash : string) : string :=
  "Transaction reverted for service " +:+ pretty service_id +:+ " call " +:+ pretty call_id
  +:+ ": tx_hash=" +:+ tx_hash.

(** [AggregatedResult::submit] *)
Definition submit_call (call : AggregatedCall) : M (result AggregationError unit) :=
  r ← remote (submitAggregatedResult call);
  _ ← record (EChain call r);
  mret match r with
       | Err e => Err (ContractError ("Failed to submit aggregated result: " +:+ e))
       | Ok (true, _) => Ok tt
       | Ok (false, tx_hash) => Err (ContractError (reverted (cl_service_id call) (cl_call_id call) tx_hash))
       end.

(** What is submitted for a result, with the coordinates of the key in the
    order of EIP-197 *)
Definition aggregated_call (service_id call_id : Z) (result : AggregatedResultResponse)
    (signature : Sig) (pubkey : Pk) : AggregatedCall :=
  let '(x0, x1, y0, y1) := g2_xy pubkey in
  mkCall service_id call_id (ar_output result) (ar_signer_bitmap result) (g1_xy signature) (x1, x0, y1, y0).

(** [submit_aggregated_to_chain_with_result] *)
Definition submit_aggregated_to_chain_with_result (dry_run : bool) (agg : AggregationServiceConfig)
    (service_id call_id : Z) (res : AggregatedResultResponse) : M (result AggregatingConsumerError unit) :=
  if dry_run then mret (Ok tt)
  else
    match g1_deserialize (ar_aggregated_signature res) with
    | None => mret (Err (AcBls "Invalid aggregated signature"))
    | Some signature =>
        match g2_deserialize (ar_aggregated_pubkey res) with
        | None => mret (Err (AcBls "Invalid aggregated pubkey"))
        | Some pubkey =>
            r ← submit_call (aggregated_call service_id call_id res signature pubkey);
            match r with
            | Err e => mret (Err (AcAggregation e))
            | Ok _ => _ ← mark_all service_id call_id (clients agg); mret (Ok tt)
            end
        end
    end.

(** [try_submit_aggregated_to_chain] *)
Fixpoint try_submit_aggregated_to_chain (dry_run : bool) (agg : AggregationServiceConfig)
    (service_id call_id : Z) (cs : list string) : M (result AggregatingConsumerError unit) :=
  match cs with
  | [] => mret (Err (AcClient "Aggregated result not available from any service"))
  | c :: cs =>
      r ← get_aggregated_or_submitted c service_id call_id;
      match r with
      | Ok AlreadyOnChain => mret (Ok tt)
      | Ok (Aggregated result) =>
          submit_aggregated_to_chain_with_result dry_run agg service_id call_id result
      | Err _ => try_submit_aggregated_to_chain dry_run agg service_id call_id cs
      end
  end.

(** The [match] on the outcome of a submission: losing the race is no error *)
Definition tolerate_race (r : result AggregatingConsumerError unit) : result AggregatingConsumerError unit :=
  match r with
  | Ok _ => Ok tt
  | Err e => if is_job_already_completed e then Ok tt else Err e
  end.

(** The requests for the services *)
Definition init_request (service_id call_id : Z) (output message : list Byte8)
    (init : AggregationTaskInit) : InitTaskRequest :=
  mkInitTask service_id call_id (ti_operator_count init) (ti_threshold init) output message TangleKeccak256.
Definition signature_request (agg : AggregationServiceConfig) (service_id call_id : Z) (output : list Byte8)
    (signature : list Byte8) (public_key : list Byte8) : SubmitSignatureRequest :=
  mkSubmit service_id call_id (operator_index agg) output signature public_key.

(** [to_bytes] of a point: its serialisation, which does not fail *)
Definition sig_bytes (s : Sig) : list Byte8 := default [] (g1_serialize s).
Definition pk_bytes (p : Pk) : list Byte8 := default [] (g2_serialize p).

(** What happens once the signature has been sent: [None] when it waits for
    longer than the given readings of the clock *)
Definition after_submission (dry_run : bool) (agg : AggregationServiceConfig) (service_id call_id : Z)
    (response : SubmitSignatureResponse) (clock : list Duration)
    : M (option (result AggregatingConsumerError unit)) :=
  if rs_threshold_met response then
    r ← try_submit_aggregated_to_chain dry_run agg service_id call_id (clients agg);
    mret (Some (tolerate_race r))
  else if wait_threshold agg then
    r ← wait_for_threshold_any_service agg service_id call_id clock;
    match r with
    | None => mret None
    | Some (Err e) => mret (Some (Err e))
    | Some (Ok AlreadyOnChain) => mret (Some (Ok tt))
    | Some (Ok (Aggregated result)) =>
        r ← submit_aggregated_to_chain_with_result dry_run agg service_id call_id result;
        mret (Some (tolerate_race r))
    end
  else mret (Some (Ok tt)).

(** [submit_aggregated_result], given what the cache answers *)
Definition submit_aggregated_result (dry_run : bool) (tangle_address : Address)
    (operators : result CacheError ServiceOperators) (weights : result CacheError OperatorWeights)
    (service_id call_id : Z) (output : list Byte8) (config : AggregationConfig)
    (agg : AggregationServiceConfig) (clock : list Duration)
    : M (option (result AggregatingConsumerError unit)) :=
  match prepare_aggregation_task operators weights service_id config with
  | Err e => mret (Some (Err e))
  | Ok init =>
      chain_id ← remote eth_chain_id;
      match chain_id with
      | Err e => mret (Some (Err (AcClient e)))
      | Ok chain_id =>
          let message := tangle_signing_message chain_id tangle_address service_id call_id
                           (ti_operators init) output in
          match sign_tangle (bls_secret agg) message with
          | Err e => mret (Some (Err (AcBls (display_bls e))))
          | Ok signature =>
              last_response ← submit_to_services (init_request service_id call_id output message init)
                (signature_request agg service_id call_id output (sig_bytes signature) (pk_bytes (bls_public agg)))
                (clients agg) None;
              match last_response with
              | None => mret (Some (Err (AcClient "Failed to submit to any aggregation service")))
              | Some response =>
                  if negb (submit_to_chain agg) then mret (Some (Ok tt))
                  else after_submission dry_run agg service_id call_id response clock
              end
          end
      end
  end.

(** [submit_direct_result] *)
Definition submit_direct_result (dry_run : bool) (service_id call_id : Z) (output : list Byte8)
    : M (result AggregatingConsumerError unit) :=
  if dry_run then mret (Ok tt)
  else
    r ← remote (submitResult service_id call_id output);
    _ ← record (EDirect service_id call_id output r);
    mret match r with
         | Err e => Err (AcTransaction ("Failed to submit result: " +:+ e))
         | Ok (true, _) => Ok tt
         | Ok (false, tx_hash) => Err (AcTransaction (reverted service_id call_id tx_hash))
         end.

(** The consumer, as far as [submit_job_result] depends on it *)
Record AggregatingConsumer (Strategy : Type) := mkConsumer {
  aggregation_config : option AggregationServiceConfig;
  aggregation_strategy : option Strategy;
}.
Arguments mkConsumer {Strategy}.
Arguments aggregation_config {Strategy}.
Arguments aggregation_strategy {Strategy}.

(** [with_aggregation_strategy], [with_aggregation_config] *)
Definition with_aggregation_strategy {S} (s : S) (c : AggregatingConsumer S) : AggregatingConsumer S :=
  mkConsumer (aggregation_config c) (Some s).
Definition with_aggregation_config {S} (a : AggregationServiceConfig) (c : AggregatingConsumer S)
    : AggregatingConsumer S := mkConsumer (Some a) (aggregation_strategy c).

(** [submit_job_result], as [poll_flush] calls it *)
Definition submit_job_result {S} (consumer : AggregatingConsumer S) (dry_run : bool) (tangle_address : Address)
    (config : result CacheError AggregationConfig)
    (operators : result CacheError ServiceOperators) (weights : result CacheError OperatorWeights)
    (p : PendingJobResult) (clock : list Duration) : M (option (result AggregatingConsumerError unit)) :=
  match config with
  | Err e => mret (Some (Err (AcClient (display_cache_error e))))
  | Ok config =>
      if ac_required config then
        match aggregation_config consumer with
        | None => mret (Some (Err AcAggregationNotConfigured))
        | Some agg =>
            submit_aggregated_result dry_run tangle_address operators weights (pj_service_id p)
              (pj_call_id p) (pj_output p) config agg clock
        end
      else
        r ← submit_direct_result dry_run (pj_service_id p) (pj_call_id p) (pj_output p);
        mret (Some r)
  end.

(** ** What a program sends *)

(** A program returns a value and appends events to the trace. *)
Definition emits {A} (m : M A) (Q : A → list Event → Prop) : Prop :=
  ∀ w, ∃ evs, w_trace (m w).2 = w_trace w ++ evs ∧ Q (m w).1 evs.

Lemma emits_ret {A} (a : A) (Q : A → list Event → Prop) : Q a [] → emits (mret a) Q.
Proof. intros H w. exists []. by rewrite app_nil_r. Qed.

Lemma emits_bind {A A'} (m : M A) (f : A → M A') Q :
  emits m (λ a e1, emits (f a) (λ b e2, Q b (e1 ++ e2))) → emits (m ≫= f) Q.
Proof.
  intros H w. unfold mbind, M_bind. destruct (H w) as (e1 & H1 & Hf). destruct (m w) as [a w1].
  destruct (Hf w1) as (e2 & H2 & HQ). exists (e1 ++ e2). cbn in *. rewrite H2, H1, app_assoc. done.
Qed.

Lemma emits_mono {A} (m : M A) (P Q : A → list Event → Prop) :
  emits m P → (∀ a e, P a e → Q a e) → emits m Q.
Proof. intros H HPQ w. destruct (H w) as (e & He & HP). eauto. Qed.

Lemma emits_remote {A} (op : W → A * W) (Q : A → list Event → Prop) : (∀ a, Q a []) → emits (remote op) Q.
Proof.
  intros H w. unfold remote. destruct (op (w_remote w)) as [a r]. exists []. by rewrite app_nil_r.
Qed.

Lemma emits_record e (Q : unit → list Event → Prop) : Q tt [e] → emits (record e) Q.
Proof. intros H w. by exists [e]. Qed.

(** Steps of the monad, leaving the calls of other programs to their lemmas *)
Ltac emit :=
  repeat match goal with
  | |- emits (mret _) _ => apply emits_ret; cbn
  | |- emits (_ ≫= _) _ => apply emits_bind
  | |- emits (remote _) _ => apply emits_remote; intros ?; cbn
  | |- emits (record _) _ => apply emits_record; cbn
  end.

(** Asking a service only leaves a trace of what it answers. *)
Definition quiet (e : Event) : Prop :=
  match e with EFetched _ _ | EReported _ => True | _ => False end.

(** What an outcome of a wait rests on *)
Definition grounds (o : ThresholdWaitResult) (evs : list Event) : Prop :=
  match o with
  | Aggregated a => ∃ c, EFetched c a ∈ evs
  | AlreadyOnChain => ∃ c, EReported c ∈ evs
  end.

Lemma grounds_app_r o e1 e2 : grounds o e2 → grounds o (e1 ++ e2).
Proof. destruct o; intros [c H]; exists c; apply elem_of_app; by right. Qed.

Lemma init_emits c req :
  emits (init_task_with_message c req)
    (λ r evs, evs = [EInit c req (match r with Ok _ => true | Err _ => false end)]).
Proof. unfold init_task_with_message. by emit. Qed.

Lemma submit_emits c req :
  emits (client_submit_signature c req) (λ r evs, evs = [ESubmit c req (result_ok r)]).
Proof. unfold client_submit_signature. by emit. Qed.

Lemma status_emits c sid cid :
  emits (client_get_status c sid cid)
    (λ r evs, Forall quiet evs ∧ ∀ s, r = Ok s → gs_submitted s = true → grounds AlreadyOnChain evs).
Proof.
  unfold client_get_status. emit. destruct (a ← json_body _; _) as [s|e] eqn:Hs;
    [destruct (gs_submitted s) eqn:Hg|]; emit; cbn; split; try (by repeat constructor); try congruence.
  intros ? _ _. exists c. by left.
Qed.

Lemma aggregated_emits c sid cid :
  emits (get_aggregated c sid cid)
    (λ r evs, Forall quiet evs ∧ ∀ a, r = Ok (Some a) → grounds (Aggregated a) evs).
Proof.
  unfold get_aggregated. emit. destruct (a ← map_err _ _; _) as [[s|]|e] eqn:Hs; emit; cbn;
    split; try (by repeat constructor); try congruence.
  intros ? [= <-]. exists c. by left.
Qed.

Lemma fetch_emits c sid cid :
  emits (get_aggregated_or_submitted c sid cid)
    (λ r evs, Forall quiet evs ∧ ∀ o, r = Ok o → grounds o evs).
Proof.
  unfold get_aggregated_or_submitted. emit. eapply emits_mono; [apply aggregated_emits|].
  intros [[a|]|e] evs [Hq Ha]; emit; rewrite ?app_nil_r.
  - split; [done|]. intros ? [= <-]. by apply Ha.
  - eapply emits_mono; [apply status_emits|]. intros [s|e] evs2 [Hq2 Hs]; emit; rewrite ?app_nil_r;
      (split; [by apply Forall_app|]); [|done].
    destruct (gs_submitted s) eqn:Hg; [|done]. intros ? [= <-]. apply grounds_app_r. by eapply Hs.
  - by split.
Qed.

Lemma poll_services_emits sid cid cs :
  emits (poll_services sid cid cs) (λ r evs, Forall quiet evs ∧ ∀ o, r = Some o → grounds o evs).
Proof.
  induction cs as [|c cs IH]; cbn [poll_services]; emit; [by split|].
  eapply emits_mono; [apply aggregated_emits|]. intros ra evs [Hq Ha].
  assert (emits (r ← client_get_status c sid cid;
      match r with
      | Ok status => if gs_submitted status then mret (Some AlreadyOnChain) else poll_services sid cid cs
      | Err _ => poll_services sid cid cs
      end) (λ r e2, Forall quiet (evs ++ e2) ∧ ∀ o, r = Some o → grounds o (evs ++ e2))) as Hrest.
  { emit. eapply emits_mono; [apply status_emits|]. intros rs evs2 [Hq2 Hs].
    assert (emits (poll_services sid cid cs)
      (λ b e3, Forall quiet (evs ++ evs2 ++ e3) ∧ ∀ o, b = Some o → grounds o (evs ++ evs2 ++ e3))) as Hgo.
    { eapply emits_mono; [apply IH|]. intros b e3 [Hq3 Hb]. split; [by rewrite !Forall_app|].
      intros o Ho. by apply grounds_app_r, grounds_app_r, Hb. }
    destruct rs as [s|e]; [|done]. destruct (gs_submitted s) eqn:Hg; [|done]. emit.
    split; [by rewrite !Forall_app|]. intros ? [= <-]. rewrite app_nil_r. apply grounds_app_r. by eapply Hs. }
  destruct ra as [[a|]|e]; [|exact Hrest..]. emit. rewrite app_nil_r. split; [done|].
  intros ? [= <-]. by apply Ha.
Qed.

Lemma poll_submitted_emits sid cid cs :
  emits (poll_submitted sid cid cs) (λ b evs, Forall quiet evs ∧ (b = true → grounds AlreadyOnChain evs)).
Proof.
  induction cs as [|c cs IH]; cbn [poll_submitted]; emit; [by split|].
  eapply emits_mono; [apply status_emits|]. intros rs evs [Hq Hs].
  assert (emits (poll_submitted sid cid cs)
    (λ b e2, Forall quiet (evs ++ e2) ∧ (b = true → grounds AlreadyOnChain (evs ++ e2)))) as Hgo.
  { eapply emits_mono; [apply IH|]. intros b e2 [Hq2 Hb]. rewrite Forall_app.
    split; [done|]. intros Ht. by apply grounds_app_r, Hb. }
  destruct rs as [s|e]; [|done]. destruct (gs_submitted s) eqn:Hg; [|done]. emit.
  rewrite app_nil_r. split; [done|]. intros _. by eapply Hs.
Qed.

Lemma wait_any_emits agg sid cid clock :
  emits (wait_for_threshold_any_service agg sid cid clock)
    (λ r evs, Forall quiet evs ∧ ∀ o, r = Some (Ok o) → grounds o evs).
Proof.
  induction clock as [|t clock IH]; cbn [wait_for_threshold_any_service]; emit; [by split|].
  destruct (t <? threshold_timeout agg); emit.
  - eapply emits_mono; [apply poll_services_emits|]. intros [o|] evs [Hq Hp]; emit.
    + rewrite app_nil_r. split; [done|]. intros ? [= <-]. by apply Hp.
    + eapply emits_mono; [apply IH|]. intros r e2 [Hq2 Hr]. rewrite Forall_app. split; [done|].
      intros o Ho. by apply grounds_app_r, Hr.
  - eapply emits_mono; [apply poll_submitted_emits|]. intros b evs [Hq Hp]; emit.
    rewrite app_nil_r. split; [done|]. destruct b; [|done]. intros ? [= <-]. by apply Hp.
Qed.

(** ** What reaches the chain *)

(** The result is on the chain, as far as the operator can know: its own
    transaction succeeded, a service reported the task submitted, or the chain
    refused the transaction because the job is complete. *)
Definition settled (evs : list Event) : Prop :=
  (∃ call h, EChain call (Ok (true, h)) ∈ evs) ∨ grounds AlreadyOnChain evs ∨
  (∃ call e, EChain call (Err e) ∈ evs ∧ is_job_already_completed
    (AcAggregation (ContractError ("Failed to submit aggregated result: " +:+ e))) = true) ∨
  (∃ call h, EChain call (Ok (false, h)) ∈ evs ∧ is_job_already_completed
    (AcAggregation (ContractError (reverted (cl_service_id call) (cl_call_id call) h))) = true).

(** Every transaction carries a result a service handed out, under the service
    and the call of the job; services are told only of a successful one. *)
Definition chain_safe (sid cid : Z) (evs : list Event) : Prop :=
  (∀ call r, EChain call r ∈ evs → ∃ c res s p, EFetched c res ∈ evs ∧
     g1_deserialize (ar_aggregated_signature res) = Some s ∧
     g2_deserialize (ar_aggregated_pubkey res) = Some p ∧ call = aggregated_call sid cid res s p) ∧
  (∀ c, EMark c ∈ evs → ∃ call h, EChain call (Ok (true, h)) ∈ evs).

(** No signature, and no direct result, is sent in this part. *)
Definition no_sends (e : Event) : Prop :=
  match e with EInit _ _ _ | ESubmit _ _ _ | EDirect _ _ _ _ => False | _ => True end.

Lemma quiet_no_sends evs : Forall quiet evs → Forall no_sends evs.
Proof. intros H. eapply Forall_impl; [exact H|]. by intros []. Qed.

Lemma quiet_chain_safe sid cid evs : Forall quiet evs → chain_safe sid cid evs.
Proof.
  intros H. rewrite list.Forall_forall in H. split; [intros call r Hin|intros c Hin]; by destruct (H _ Hin).
Qed.

Lemma mark_all_emits sid cid cs :
  emits (mark_all sid cid cs) (λ _ evs, Forall (λ e, ∃ c, e = EMark c) evs).
Proof.
  induction cs as [|c cs IH]; cbn [mark_all]; emit; [done|]. unfold client_mark_submitted. emit.
  eapply emits_mono; [apply IH|]. intros ? evs Hevs. cbn. constructor; [by exists c|done].
Qed.

Lemma settled_mono e1 e2 : e1 ⊆ e2 → settled e1 → settled e2.
Proof.
  intros Hsub [(call & h & H)|[[c H]|[(call & e & H & ?)|(call & h & H & ?)]]]; apply Hsub in H.
  - left. by exists call, h.
  - right; left. by exists c.
  - do 2 right; left. by exists call, e.
  - do 3 right. by exists call, h.
Qed.

(** Submitting a result that was fetched *)
Lemma with_result_emits dry_run agg sid cid c res e0 :
  EFetched c res ∈ e0 → Forall quiet e0 →
  emits (submit_aggregated_to_chain_with_result dry_run agg sid cid res)
    (λ r evs, Forall no_sends (e0 ++ evs) ∧ chain_safe sid cid (e0 ++ evs) ∧
      (dry_run = true → evs = []) ∧
      (dry_run = false → tolerate_race r = Ok tt → settled (e0 ++ evs))).
Proof.
  intros Hin Hq. unfold submit_aggregated_to_chain_with_result.
  assert (Forall no_sends e0) as Hn by by apply quiet_no_sends.
  assert (chain_safe sid cid e0) as Hs by by apply quiet_chain_safe.
  destruct dry_run; emit; [by rewrite app_nil_r|].
  destruct (g1_deserialize _) as [s|] eqn:H1; emit; [|by rewrite app_nil_r].
  destruct (g2_deserialize _) as [p|] eqn:H2; emit; [|by rewrite app_nil_r].
  set (call := aggregated_call sid cid res s p). unfold submit_call. emit.
  assert (∀ a marks, Forall (λ e, ∃ c, e = EMark c) marks → (marks = [] ∨ ∃ h, a = Ok (true, h)) →
    Forall no_sends (e0 ++ EChain call a :: marks) ∧ chain_safe sid cid (e0 ++ EChain call a :: marks)) as Hmain.
  { intros a' marks Hm Ha. split.
    - rewrite Forall_app, Forall_cons. split_and!; [done..|]. eapply Forall_impl; [exact Hm|]. by intros ? [? ->].
    - rewrite list.Forall_forall in Hm. unfold chain_safe. split.
      + intros call' r'. rewrite elem_of_app, elem_of_cons.
        intros [Ho|[Ho|Ho]]; [by apply Hs in Ho; setoid_rewrite elem_of_app; naive_solver| |by destruct (Hm _ Ho)].
        injection Ho as -> ->. exists c, res, s, p. rewrite elem_of_app. by eauto.
      + intros c'. rewrite elem_of_app, elem_of_cons. intros [Ho|[?|Ho]]; [|done|].
        * apply Hs in Ho. setoid_rewrite elem_of_app. naive_solver.
        * destruct Ha as [->|[h ->]]; [by apply elem_of_nil in Ho|].
          exists call, h. rewrite elem_of_app, elem_of_cons. by eauto. }
  assert (∀ a, EChain call a ∈ e0 ++ [EChain call a]) as Hself by (intros; rewrite elem_of_app; right; by left).
  destruct a as [[[] h]|e]; emit.
  - eapply emits_mono; [apply mark_all_emits|]. intros ? marks Hm. emit. rewrite app_nil_r.
    destruct (Hmain (Ok (true, h)) marks Hm ltac:(eauto)). split_and!; try done.
    intros _ _. left. exists call, h. rewrite elem_of_app. right. by left.
  - destruct (Hmain (Ok (false, h)) [] ltac:(done) ltac:(by left)). split_and!; try done.
    intros _ Hr. do 3 right. exists call, h. split; [done|]. by case_match.
  - destruct (Hmain (Err e) [] ltac:(done) ltac:(by left)). split_and!; try done.
    intros _ Hr. do 2 right; left. exists call, e. split; [done|]. by case_match.
Qed.

(** What follows the sending of the signature *)
Definition conclusion (dry_run : bool) (sid cid : Z) (r : option (result AggregatingConsumerError unit))
    (evs : list Event) : Prop :=
  Forall no_sends evs ∧ chain_safe sid cid evs ∧ (dry_run = true → Forall quiet evs) ∧
  (dry_run = false → r = Some (Ok tt) → settled evs).

Lemma conclude dry_run agg sid cid c res e0 :
  EFetched c res ∈ e0 → Forall quiet e0 →
  emits (submit_aggregated_to_chain_with_result dry_run agg sid cid res)
    (λ r evs, conclusion dry_run sid cid (Some (tolerate_race r)) (e0 ++ evs)).
Proof.
  intros Hin Hq. eapply emits_mono; [by eapply with_result_emits|].
  intros r evs (H1 & H2 & H3 & H4). split_and!; try done.
  - intros Hd. rewrite (H3 Hd), app_nil_r. done.
  - intros Hd [= Hr]. by apply H4.
Qed.

Lemma quiet_conclusion dry_run sid cid r evs :
  Forall quiet evs → (r = Some (Ok tt) → grounds AlreadyOnChain evs) → conclusion dry_run sid cid r evs.
Proof.
  intros Hq Hr. split_and!; [by apply quiet_no_sends|by apply quiet_chain_safe|done|].
  intros _ H. right. left. by apply Hr.
Qed.

Lemma try_submit_emits dry_run agg sid cid cs e0 :
  Forall quiet e0 →
  emits (try_submit_aggregated_to_chain dry_run agg sid cid cs)
    (λ r evs, conclusion dry_run sid cid (Some (tolerate_race r)) (e0 ++ evs)).
Proof.
  revert e0. induction cs as [|c cs IH]; intros e0 Hq; cbn [try_submit_aggregated_to_chain]; emit.
  - rewrite app_nil_r. by apply quiet_conclusion.
  - eapply emits_mono; [apply fetch_emits|]. intros [[res|]|e] evs [Hq2 Hf].
    + destruct (Hf _ eq_refl) as [c' Hc']. eapply emits_mono.
      * eapply (conclude dry_run agg sid cid c' res (e0 ++ evs)); [by apply elem_of_app; right|by apply Forall_app].
      * intros r e2 Hr. cbn in *. by rewrite app_assoc.
    + emit. rewrite app_nil_r. apply quiet_conclusion; [by apply Forall_app|].
      intros _. by apply grounds_app_r, Hf.
    + eapply emits_mono; [apply (IH (e0 ++ evs)); by apply Forall_app|]. intros r e2 Hr. cbn in *. by rewrite app_assoc.
Qed.

Lemma after_submission_emits dry_run agg sid cid resp clock :
  emits (after_submission dry_run agg sid cid resp clock)
    (λ r evs, conclusion dry_run sid cid r evs ∨
              (wait_threshold agg = false ∧ rs_threshold_met resp = false ∧ evs = [])).
Proof.
  unfold after_submission. destruct (rs_threshold_met resp); [|destruct (wait_threshold agg)]; emit; [..|by right].
  - eapply emits_mono; [by apply (try_submit_emits dry_run agg sid cid _ [])|]. intros r evs Hc. emit.
    left. by rewrite app_nil_r.
  - eapply emits_mono; [apply wait_any_emits|]. intros [[[res|]|e]|] evs [Hq Hw]; emit; rewrite ?app_nil_r.
    + destruct (Hw _ eq_refl) as [c Hc]. eapply emits_mono; [by eapply (conclude dry_run agg sid cid c res evs)|].
      intros r e2 Hr. emit. left. by rewrite app_nil_r.
    + left. apply quiet_conclusion; [done|]. intros _. by apply Hw.
    + left. by apply quiet_conclusion.
    + left. by apply quiet_conclusion.
Qed.

(** ** What reaches the services *)

(** A signature is sent to a service only right after that service has accepted
    the task it belongs to. *)
Definition sent_after_init (init : InitTaskRequest) (req : SubmitSignatureRequest) (evs : list Event) : Prop :=
  ∀ pre c req' r post, evs = pre ++ ESubmit c req' r :: post →
    req' = req ∧ ∃ pre', pre = pre' ++ [EInit c init true].

Lemma sent_app init req e1 e2 :
  sent_after_init init req e1 → sent_after_init init req e2 → sent_after_init init req (e1 ++ e2).
Proof.
  intros H1 H2 pre c req' r post Heq. apply app_eq_inv in Heq as [(k & -> & Hk)|(k & -> & Hk)].
  - destruct k as [|x k]; cbn in Hk.
    + destruct (H2 [] c req' r post) as [_ [pre' Hp]]; [done|]. by destruct pre'.
    + injection Hk as <- ->. by eapply H1.
  - destruct (H2 k c req' r post Hk) as [-> [pre' ->]]. split; [done|].
    exists (e1 ++ pre'). by rewrite app_assoc.
Qed.

Lemma no_sends_sent init req evs : Forall no_sends evs → sent_after_init init req evs.
Proof.
  intros H pre c req' r post ->. apply Forall_app in H as [_ H]. apply Forall_cons in H as [[] _].
Qed.

(** Events of the part of the trace before the last response *)
Definition send_event (e : Event) : Prop :=
  match e with EChain _ _ | EMark _ | EDirect _ _ _ _ => False | _ => True end.

Lemma send_events_safe e1 e2 sid cid :
  Forall send_event e1 → chain_safe sid cid e2 → chain_safe sid cid (e1 ++ e2).
Proof.
  rewrite list.Forall_forall. intros Hno [H1 H2]. split.
  - intros call r [Hin|Hin]%elem_of_app; [by destruct (Hno _ Hin)|].
    destruct (H1 _ _ Hin) as (c & res & s & p & Hf & H). exists c, res, s, p. split; [|done].
    apply elem_of_app. by right.
  - intros c [Hin|Hin]%elem_of_app; [by destruct (Hno _ Hin)|].
    destruct (H2 _ Hin) as (call & h & Hc). exists call, h. apply elem_of_app. by right.
Qed.

Definition sending (init : InitTaskRequest) (req : SubmitSignatureRequest) (evs : list Event) : Prop :=
  sent_after_init init req evs ∧ Forall send_event evs.

Lemma submit_to_services_emits init req cs last :
  emits (submit_to_services init req cs last)
    (λ r evs, sending init req evs ∧
      ∀ resp, r = Some resp → last = Some resp ∨ ∃ c, ESubmit c req (Some resp) ∈ evs).
Proof.
  revert last. induction cs as [|c cs IH]; intros last; cbn [submit_to_services]; emit.
  { split; [|naive_solver]. split; [by intros [|??] ????|done]. }
  unfold submit_to_service. emit. eapply emits_mono; [apply init_emits|]. intros r1 e1 ->.
  destruct r1 as [[]|e]; emit.
  - eapply emits_mono; [apply submit_emits|]. intros r2 e2 ->. emit.
    eapply emits_mono; [apply IH|]. intros r evs [[Hs Hn] Hr]. split; [split|].
    + apply (sent_app init req [EInit c init true; ESubmit c req (result_ok r2)] evs); [|done].
      intros pre c' req' r' post. destruct pre as [|x [|y [|? pre]]]; intros [=]; subst; try done.
      by split; [|exists []].
    + by repeat constructor.
    + intros resp Hresp. destruct (Hr resp Hresp) as [Hlast|[c' Hc']].
      * destruct r2 as [resp'|]; cbn in Hlast; [|by left]. injection Hlast as ->. right. exists c. set_solver.
      * right. exists c'. set_solver.
  - eapply emits_mono; [apply IH|]. intros r evs [[Hs Hn] Hr]. split; [split|].
    + apply (sent_app init req [EInit c init false] evs); [|done].
      intros pre c' req' r' post. by destruct pre as [|x [|y pre]]; intros [=].
    + by repeat constructor.
    + intros resp Hresp. destruct (Hr resp Hresp) as [|[c' Hc']]; [by left|]. right. exists c'. set_solver.
Qed.

(** The signature is for the message of the contract, and reaches a service
    only after the task. *)
Definition signed_and_sent (addr : Address) (ops : result CacheError ServiceOperators)
    (w : result CacheError OperatorWeights) (sid cid : Z) (out : list Byte8) (config : AggregationConfig)
    (agg : AggregationServiceConfig) (evs : list Event) : Prop :=
  ∃ init chain_id signature,
    let message := tangle_signing_message chain_id addr sid cid (ti_operators init) out in
    prepare_aggregation_task ops w sid config = Ok init ∧
    sign_tangle (bls_secret agg) message = Ok signature ∧
    sent_after_init (init_request sid cid out message init)
      (signature_request agg sid cid out (sig_bytes signature) (pk_bytes (bls_public agg))) evs.

Abbreviation Outcome := (option (result AggregatingConsumerError unit)).

Lemma submission_sends dry_run addr ops w sid cid out config agg clock :
  emits (submit_aggregated_result dry_run addr ops w sid cid out config agg clock)
    (λ (r : Outcome) evs, signed_and_sent addr ops w sid cid out config agg evs
       ∨ (evs = [] ∧ ∃ e, r = Some (Err e))).
Proof.
  unfold submit_aggregated_result.
  destruct (prepare_aggregation_task _ _ _ _) as [init|e] eqn:Hp; emit; [|by eauto].
  destruct a as [chain_id|e]; emit; [|by eauto].
  destruct (sign_tangle _ _) as [signature|e] eqn:Hsign; emit; [|by eauto].
  eapply emits_mono; [apply submit_to_services_emits|]. intros [resp|] e1 [[Hs Hn] _]; emit.
  - destruct (submit_to_chain agg); cbn [negb]; emit.
    + eapply emits_mono; [apply after_submission_emits|]. intros r e2 Hc. left.
      exists init, chain_id, signature. split_and!; [done..|]. apply sent_app; [done|].
      apply no_sends_sent. destruct Hc as [[? _]|(_ & _ & ->)]; [done|constructor].
    + left. exists init, chain_id, signature. by rewrite app_nil_r.
  - left. exists init, chain_id, signature. by rewrite app_nil_r.
Qed.

(** A success means the result is on the chain, or that waiting was not asked for. *)
Definition delivered (agg : AggregationServiceConfig) (r : Outcome) (evs : list Event) : Prop :=
  submit_to_chain agg = true → r = Some (Ok tt) →
  settled evs ∨
  (wait_threshold agg = false ∧
   ∃ c req resp, ESubmit c req (Some resp) ∈ evs ∧ rs_threshold_met resp = false).

Lemma send_events_quiet evs call r : Forall send_event evs → EChain call r ∉ evs.
Proof. rewrite list.Forall_forall. intros Hn Hin. by destruct (Hn _ Hin). Qed.

(** The paths that end before anything is submitted *)
Lemma ended_early agg r sid cid evs :
  Forall send_event evs → (submit_to_chain agg = false ∨ ∃ e, r = Some (Err e)) →
  chain_safe sid cid evs ∧ (∀ call r, EChain call r ∉ evs) ∧ delivered agg r evs.
Proof.
  intros Hn Hr. split_and!.
  - rewrite <-(app_nil_r evs). apply send_events_safe; [done|by apply quiet_chain_safe].
  - intros call r'. by apply send_events_quiet.
  - intros Hsub ->. by destruct Hr as [?|[? ?]]; congruence.
Qed.

Lemma submission_chain dry_run addr ops w sid cid out config agg clock :
  emits (submit_aggregated_result dry_run addr ops w sid cid out config agg clock)
    (λ (r : Outcome) evs, chain_safe sid cid evs ∧
      if dry_run then ∀ call r, EChain call r ∉ evs else delivered agg r evs).
Proof.
  assert (∀ (r : Outcome) evs, chain_safe sid cid evs ∧ (∀ call r, EChain call r ∉ evs) ∧ delivered agg r evs →
    chain_safe sid cid evs ∧ if dry_run then ∀ call r, EChain call r ∉ evs else delivered agg r evs) as Hif
    by (intros r evs (? & ? & ?); by destruct dry_run).
  unfold submit_aggregated_result.
  destruct (prepare_aggregation_task _ _ _ _) as [init|e]; emit; [|by apply Hif, ended_early; eauto].
  destruct a as [chain_id|e]; emit; [|by apply Hif, ended_early; eauto].
  destruct (sign_tangle _ _) as [signature|e]; emit; [|by apply Hif, ended_early; eauto].
  eapply emits_mono; [apply submit_to_services_emits|]. intros [resp|] e1 [[Hs Hn] Hlast]; emit.
  2:{ rewrite app_nil_r. apply Hif, ended_early; eauto. }
  destruct (submit_to_chain agg) eqn:Hsub; cbn [negb]; emit.
  2:{ rewrite app_nil_r. apply Hif, ended_early; eauto. }
  destruct (Hlast resp eq_refl) as [?|[c Hc]]; [done|].
  eapply emits_mono; [apply after_submission_emits|].
  intros r e2 [(Hns & Hsafe & Hdry & Hset)|(Hw & Hmet & ->)].
  - split; [by apply send_events_safe|]. destruct dry_run.
    + intros call r' [Hin|Hin]%elem_of_app; [by eapply send_events_quiet|].
      specialize (Hdry eq_refl). rewrite list.Forall_forall in Hdry. by destruct (Hdry _ Hin).
    + intros _ Hr. left. eapply settled_mono, Hset; [|done..]. set_solver.
  - rewrite app_nil_r. apply Hif. split_and!.
    + rewrite <-(app_nil_r e1). apply send_events_safe; [done|by apply quiet_chain_safe].
    + intros call r'. by apply send_events_quiet.
    + intros _ _. right. split; [done|]. by eexists c, _, resp.
Qed.

(** C7. Submitting a result that must be aggregated.  Whatever the services and
    the chain answer: the operator signs the message of the contract for this
    job and operator set, and sends its signature to a service only right after
    that service accepted a task with the same message; a transaction carries a
    result handed out by a service under this service and call, and services
    are told of it only when it succeeded.  A dry run sends no transaction.
    With [submit_to_chain] set and no dry run, a success is [settled]: the
    operator's own transaction succeeded, or a service reported the task as
    submitted, or the chain refused the transaction with a text that says the
    job is already completed; unless the configuration does not wait for the
    threshold and the service that took the signature had not reached it.
    Nothing is said of the chain when [submit_to_chain] is off. *)
Theorem aggregated_submission_safe dry_run addr ops w sid cid out config agg clock world :
  let '(r, world') := submit_aggregated_result dry_run addr ops w sid cid out config agg clock world in
  ∃ evs, w_trace world' = w_trace world ++ evs ∧
    (signed_and_sent addr ops w sid cid out config agg evs ∨ (evs = [] ∧ ∃ e, r = Some (Err e))) ∧
    chain_safe sid cid evs ∧
    (if dry_run then ∀ call r, EChain call r ∉ evs else delivered agg r evs).
Proof.
  destruct (submission_sends dry_run addr ops w sid cid out config agg clock world) as (e1 & H1 & Hs).
  destruct (submission_chain dry_run addr ops w sid cid out config agg clock world) as (e2 & H2 & Hc & Hd).
  destruct (submit_aggregated_result _ _ _ _ _ _ _ _ _ _ _) as [r world']. cbn in *.
  assert (e1 = e2) as -> by (rewrite H1 in H2; by apply app_inv_head in H2). by exists e2.
Qed.

(** ** Waiting *)

Lemma wait_any_returns agg sid cid clock world :
  Exists (λ t, threshold_timeout agg ≤ t) clock →
  (wait_for_threshold_any_service agg sid cid clock world).1 ≠ None.
Proof.
  intros H. revert world. induction clock as [|t clock IH]; intros world; [by apply Exists_nil in H|].
  cbn [wait_for_threshold_any_service]. apply Exists_cons in H.
  destruct (Z.ltb_spec t (threshold_timeout agg)); unfold mbind, M_bind.
  - destruct (poll_services _ _ _ _) as [[o|] w']; [done|]. apply IH. destruct H; [lia|done].
  - by destruct (poll_submitted _ _ _ _).
Qed.

(** The submission of a result always ends: once the time the operator is
    willing to wait has passed at one of the readings of the clock, whatever
    the services answered, it has returned. *)
Theorem submission_terminates {S} (consumer : AggregatingConsumer S) dry_run addr config ops w p clock world :
  (∀ agg, aggregation_config consumer = Some agg → Exists (λ t, threshold_timeout agg ≤ t) clock) →
  (submit_job_result consumer dry_run addr config ops w p clock world).1 ≠ None.
Proof.
  intros Hc. unfold submit_job_result. destruct config as [config|e]; [|done].
  destruct (ac_required config).
  2:{ unfold mbind, M_bind. by destruct (submit_direct_result _ _ _ _ _). }
  destruct (aggregation_config consumer) as [agg|]; [|done]. specialize (Hc agg eq_refl).
  unfold submit_aggregated_result. destruct (prepare_aggregation_task _ _ _ _) as [init|]; [|done].
  unfold mbind, M_bind. destruct (remote _ _) as [[chain|] w1]; [|done].
  destruct (sign_tangle _ _) as [signature|]; [|done].
  destruct (submit_to_services _ _ _ _ _) as [[resp|] w2]; [|done].
  destruct (submit_to_chain agg); [|done]. cbn [negb]. unfold after_submission, mbind, M_bind.
  destruct (rs_threshold_met resp); [by destruct (try_submit_aggregated_to_chain _ _ _ _ _ _)|].
  destruct (wait_threshold agg); [|done].
  pose proof (wait_any_returns agg (pj_service_id p) (pj_call_id p) clock w2 Hc).
  destruct (wait_for_threshold_any_service _ _ _ _ _) as [[[[res|]|]|] w3]; try done.
  by destruct (submit_aggregated_to_chain_with_result _ _ _ _ _ _).
Qed.

(** The strategy that [with_aggregation_strategy] configures is never used: a
    consumer configured only that way refuses every result that must be
    aggregated. *)
Theorem strategy_ignored {S} (s : S) dry_run addr config ops w p clock world :
  ac_required config = true →
  submit_job_result (with_aggregation_strategy s (mkConsumer None None)) dry_run addr (Ok config) ops w p clock world
  = (Some (Err AcAggregationNotConfigured), world).
Proof. intros H. unfold submit_job_result. cbn. by rewrite H. Qed.

End client.

(** ** The service and the consumer together *)

(** A service that holds the task the consumer asked for, created by this
    operator or by another, accepts the signature the consumer sends, unless
    the operator has signed before or the task is over: the bytes parse, the
    output is the task's, and the signature verifies for its message. *)
Theorem consumer_signature_accepted {B : Bn254} {BL : Bn254Laws B} {PL : PairingLaws B} {S : Type}
    (k : OpClocks) (svc : AggregationService (S := S)) now urls sk index sid cid out msg init t s :
  let agg := with_multiple_services urls sk index in
  let request := init_request sid cid out msg init in
  let '(kind, stakes) := threshold_of_request (it_threshold request) in
  state svc !! mkTaskId sid cid = Some t →
  same_context t (with_message_config now sid cid out msg TangleKeccak256 (it_operator_count request)
                    kind stakes None) = true →
  0 ≤ index < ti_operator_count init → has_signed t index = false → submitted t = false →
  expires_at t = None →
  sign_tangle sk msg = Ok s → g2_is_zero (public_from_secret sk) = false →
  ∃ st resp, accept_signature k svc
      (signature_request agg sid cid out (sig_bytes s) (pk_bytes (bls_public agg))) = Ok (st, resp) ∧
    rs_accepted resp = true ∧
    st !! mkTaskId sid cid = Some (record_signature t index s (public_from_secret sk)).
Proof.
  intros agg request. subst agg request. cbn [it_threshold it_operator_count init_request].
  destruct (threshold_of_request _) as [kind stakes].
  intros Ht Hctx Hi Hsigned Hsub Hexp Hs Hz.
  apply same_context_spec in Hctx as (Hout & Hmsg & Hsch & Hcount & _).
  assert (output t = out ∧ message t = msg ∧ signature_scheme t = TangleKeccak256 ∧
          operator_count t = ti_operator_count init) as (Hout' & Hmsg' & Hsch' & Hcount')
    by (rewrite Hout, Hmsg, Hsch, Hcount; by destruct stakes).
  destruct (g1_round_trip s) as (sb & Hsb & Hsd). destruct (g2_round_trip (public_from_secret sk)) as (pb & Hpb & Hpd).
  assert (add_signature (oc_now' k) t index s (public_from_secret sk)
          = Ok (record_signature t index s (public_from_secret sk))) as Hadd.
  { unfold add_signature, AggTask.is_expired. rewrite Hsigned, Hexp, Hcount'.
    rewrite (proj2 (Z.leb_gt _ _)) by lia. done. }
  set (t' := record_signature t index s (public_from_secret sk)) in *.
  exists (<[mkTaskId sid cid := t']> (state svc)),
    (mkSubmitResponse true (signature_count t') (threshold_value t) (threshold_met t') None).
  split; [|by rewrite lookup_insert_eq].
  apply accept_signature_spec. exists t, t', s, (public_from_secret sk). split; [|done]. unfold acceptable, AggTask.is_expired. rewrite Hexp. cbn. unfold sig_bytes, pk_bytes. rewrite Hsb, Hpb. cbn.
  split_and!; try done. intros _. unfold verifies. rewrite Hsch', Hmsg'. by apply sign_tangle_verifies.
Qed.

(** ** Two services that disagree *)

(** Two services accept every request; the first has seen the threshold, the
    second has not.  The chain accepts every transaction. *)
Definition demo_response (met : bool) : SubmitSignatureResponse := mkSubmitResponse true 1 1 met None.
Definition demo_status : GetStatusResponse :=
  mkGetStatusResponse true 1 1 true 1 None false None None.
Definition demo_result : AggregatedResultResponse := mkAggregated 1 7 [9] 1 [] [7] [42].

#[local] Instance demo_remote : Remote unit := {
  post_init _ _ w := (Ok (mkReply 200 (Ok (mkInitTaskResponse true None))), w);
  post_submit c _ w := (Ok (mkReply 200 (Ok (demo_response (bool_decide (c = "http://first")%string)))), w);
  post_status _ _ w := (Ok (mkReply 200 (Ok demo_status)), w);
  post_aggregate c _ w :=
    (Ok (mkReply (if bool_decide (c = "http://first")%string then 200 else 404) (Ok (Some demo_result))), w);
  post_mark _ _ w := (Ok (mkReply 200 (Ok None)), w);
  eth_chain_id w := (Ok 1, w);
  submitAggregatedResult _ w := (Ok (true, "0x1")%string, w);
  submitResult _ _ _ w := (Ok (true, "0x1")%string, w);
}.

#[local] Instance demo_coordinates : @Coordinates toy_bn254 :=
  Build_Coordinates toy_bn254 (λ s : Z, (s, s)) (λ p : Z, (p, p, p, p)).

#[local] Instance demo_abi : MessageAbi := {|
  abi_keccak := λ l, l; abi_encode_operators := λ l, concat l;
  abi_encode_message := λ d c a s i o h, d ++ [c] ++ a ++ [s; i] ++ o ++ h |}.

Definition demo_services (urls : list string) : AggregationServiceConfig (B := toy_bn254) :=
  with_multiple_services (B := toy_bn254) urls 42 0.

Definition demo_consumer (urls : list string) : AggregatingConsumer (B := toy_bn254) unit :=
  with_aggregation_config (B := toy_bn254) (demo_services urls) (mkConsumer (B := toy_bn254) unit None None).

Definition demo_run (urls : list string) : option (result AggregatingConsumerError unit) * World (W := unit) :=
  submit_job_result (B := toy_bn254) (λ _, ""%string) (demo_consumer urls) false [17]
    (Ok (mkAggConfig true 10000 CountBased)) (Ok (service_operators_new [[1]])) (Ok (mkWeights ∅ 0))
    (mkPending 1 7 0 [9]) [from_secs 60] (mkWorld tt []).

Definition reaches_chain (w : World (W := unit)) : bool :=
  existsb (λ e, match e with EChain _ _ => true | _ => false end) (w_trace w).

(** Only the response of the last service decides whether the result is
    submitted: the first service reports the threshold met and holds the
    aggregate, and the operator, set to submit, reports success and submits
    nothing; with the services in the other order it submits. *)
Theorem last_service_decides :
  (demo_run ["http://first"; "http://second"]).1 = Some (Ok tt) ∧
  reaches_chain (demo_run ["http://first"; "http://second"]).2 = false ∧
  (demo_run ["http://second"; "http://first"]).1 = Some (Ok tt) ∧
  reaches_chain (demo_run ["http://second"; "http://first"]).2 = true.
Proof. by vm_compute. Qed.

Lemma submission_terminates_witness : (demo_run ["http://first"]).1 ≠ None.
Proof.
  unfold demo_run.
  apply (submission_terminates (B := toy_bn254) (λ _, ""%string) (demo_consumer ["http://first"%string]) false [17]
    (Ok (mkAggConfig true 10000 CountBased)) (Ok (service_operators_new [[1]])) (Ok (mkWeights ∅ 0))
    (mkPending 1 7 0 [9]) [from_secs 60] (mkWorld tt [])).
  intros agg Hagg. injection Hagg as <-. apply Exists_cons. left. by vm_compute.
Defined.

(** A task for the message, created with a threshold of one of two operators *)
Definition demo_init : AggregationTaskInit := mkTaskInit 2 (CountConfig 1) [[1]; [2]].
Definition demo_task : TaskState (B := toy_bn254) :=
  with_message_config (B := toy_bn254) 0 1 7 [9] [3; 4] TangleKeccak256 2 (Count 1) None None.
Definition demo_service : AggregationService (B := toy_bn254) (S := unit) :=
  mkService {[ mkTaskId 1 7 := demo_task ]} ServiceConfig_default tt.
Definition demo_op_clocks : OpClocks :=
  mkOpClocks (λ _, demo_clocks 0) 0 0 0 0 (λ _, 0) (λ _, demo_clocks 0) (λ _, demo_clocks 0).

Lemma consumer_signature_accepted_witness :
  ∃ st resp, accept_signature (B := toy_bn254) demo_op_clocks demo_service
      (signature_request (B := toy_bn254) (demo_services []) 1 7 [9]
         (sig_bytes (B := toy_bn254) 294) (pk_bytes (B := toy_bn254) 42)) = Ok (st, resp) ∧
    rs_accepted resp = true.
Proof.
  destruct (consumer_signature_accepted (B := toy_bn254) demo_op_clocks demo_service 5 [] 42 0 1 7 [9] [3; 4]
    demo_init demo_task 294) as (st & resp & H & Hr & _); [by vm_compute..|].
  exists st, resp. split; [exact H|done].
Defined.
