(* ===== verification/EvmExtract.v ===== *)
(** * Job calls from EVM logs ([evm-extra/src/producer/mod.rs], [producer/tangle.rs],
    [extract/], [filters/])

    How the two EVM producers turn logs into job calls, what the extractors read
    back from them, and the filters in front of a job.  [SolEvent] stands for
    the decoder of an event type that [alloy-sol-types] derives. *)

From Stdlib Require Import ZArith Lia.
From stdpp Require Import base gmap sets list sorting strings fin_maps numbers relations.
From S2P Require Import Prelude Bytes JobCore TangleExtract EvmLog.

#[local] Open Scope Z_scope.

(** ** Metadata keys and extensions *)

Definition EvmServiceId_KEY : string := "X-EVM-SERVICE-ID".
Definition EvmCallId_KEY : string := "X-EVM-CALL-ID".
Definition EvmJobIndex_KEY : string := "X-EVM-JOB-INDEX".
Definition EvmCaller_KEY : string := "X-EVM-CALLER".
Definition EvmBlockNumber_KEY : string := "X-EVM-BLOCK-NUMBER".
Definition EvmBlockHash_KEY : string := "X-EVM-BLOCK-HASH".
Definition EvmBlockTimestamp_KEY : string := "X-EVM-BLOCK-TIMESTAMP".
Definition ContractAddress_KEY : string := "X-EVM-CONTRACT-ADDRESS".

(** The two types the producers put in the extensions: [Vec<Log>] and [Bytes] *)
Record EvmExt := mkEvmExt { ext_logs : option (list Log); ext_bytes : option (list Byte8) }.

Definition topic0 (log : Log) : option (list Byte8) := hd_error (topics log).

(** ** [logs_to_job_calls] *)

(** [BTreeMap::entry(k).or_insert(Vec::new()).push(log)] *)
Fixpoint entry_push (k : Z) (log : Log) (m : list (Z * list Log)) : list (Z * list Log) :=
  match m with
  | [] => [(k, [log])]
  | (k', logs) :: m' =>
      if k <? k' then (k, [log]) :: m
      else if k =? k' then (k', logs ++ [log]) :: m'
      else (k', logs) :: entry_push k log m'
  end.

(** The first loop: the logs of each block; a log without a block is skipped *)
Definition logs_by_block (logs : list Log) : list (Z * list Log) :=
  foldl (λ m log, match block_number log with Some n => entry_push n log m | None => m end) [] logs.

(** The metadata shared by the calls of a block, from its first log *)
Definition block_metadata (n : Z) (log0 : Log) : MetadataMap :=
  let m := <[EvmBlockNumber_KEY := mv_from_u64 n]> ∅ in
  let m := match block_hash log0 with Some h => <[EvmBlockHash_KEY := mv_from_bytes h]> m | None => m end in
  let m := match block_timestamp log0 with Some t => <[EvmBlockTimestamp_KEY := mv_from_u64 t]> m | None => m end in
  <[ContractAddress_KEY := mv_from_bytes (log_address log0)]> m.

(** The identifier of a call: the first topic, zero for an anonymous event *)
Definition event_id (log : Log) : JobId := JobId_from_array (default (replicate 32 0) (topic0 log)).

(** The second loop, for one block *)
Definition block_calls (e : Z * list Log) : list (JobCall EvmExt) :=
  let '(n, logs) := e in
  match logs with
  | [] => []
  | log0 :: _ =>
      (λ log, mkJobCall (mkParts (event_id log) (block_metadata n log0) (mkEvmExt (Some logs) None)) [])
      <$> logs
  end.

Definition logs_to_job_calls (logs : list Log) : list (JobCall EvmExt) :=
  mjoin (block_calls <$> logs_by_block logs).

(** ** [logs_to_tangle_job_calls] *)

Record TangleJobData := mkJobData {
  jd_service_id : Z; jd_call_id : Z; jd_job_index : Z; jd_caller : list Byte8; jd_inputs : list Byte8 }.

(** A type of event: the hash of its signature and its decoder *)
Class SolEvent (T : Type) := {
  SIGNATURE_HASH : list Byte8;
  decode_log : Log → option T;
}.

(** The body of the loop *)
Definition log_to_tangle_call `{SolEvent TangleJobData} (log : Log) : option (JobCall EvmExt) :=
  match block_number log with
  | None => None
  | Some n =>
    match decode_log log with
    | None => None
    | Some data =>
      let m := <[EvmBlockNumber_KEY := mv_from_u64 n]> ∅ in
      let m := match block_hash log with Some h => <[EvmBlockHash_KEY := mv_from_bytes h]> m | None => m end in
      let m := match block_timestamp log with Some t => <[EvmBlockTimestamp_KEY := mv_from_u64 t]> m | None => m end in
      let m := <[EvmServiceId_KEY := mv_from_u64 (jd_service_id data)]> m in
      let m := <[EvmCallId_KEY := mv_from_u64 (jd_call_id data)]> m in
      let m := <[EvmJobIndex_KEY := mv_from_u64 (jd_job_index data)]> m in
      let m := <[EvmCaller_KEY := mv_from_bytes (jd_caller data)]> m in
      Some (mkJobCall (mkParts (JobId_from_number (jd_job_index data)) m
                         (mkEvmExt (Some [log]) (Some (jd_inputs data)))) (jd_inputs data))
    end
  end.

Definition logs_to_tangle_job_calls `{SolEvent TangleJobData} (logs : list Log) : list (JobCall EvmExt) :=
  omap log_to_tangle_call logs.

(** ** Extractors *)

Abbreviation EvmParts := (Parts EvmExt).

Definition EvmServiceId_try_from : EvmParts → result Rejection Z := extract_u64 EvmServiceId_KEY.
Definition EvmCallId_try_from : EvmParts → result Rejection Z := extract_u64 EvmCallId_KEY.
Definition EvmBlockNumber_try_from : EvmParts → result Rejection Z := extract_u64 EvmBlockNumber_KEY.
Definition EvmBlockTimestamp_try_from : EvmParts → result Rejection Z := extract_u64 EvmBlockTimestamp_KEY.
Definition EvmBlockHash_try_from : EvmParts → result Rejection (list Byte8) := extract_array 32 EvmBlockHash_KEY.
Definition EvmCaller_try_from : EvmParts → result Rejection (list Byte8) := extract_array 20 EvmCaller_KEY.
Definition ContractAddress_try_from : EvmParts → result Rejection (list Byte8) :=
  extract_array 20 ContractAddress_KEY.

(** The job index, which must fit a [u8] *)
Definition EvmJobIndex_try_from (parts : EvmParts) : result Rejection Z :=
  x ← extract_u64 EvmJobIndex_KEY parts;
  if x <=? 255 then Ok x else Err InvalidMetadata.

Definition JobInputs_try_from (parts : EvmParts) : result Rejection (list Byte8) :=
  ok_or (ext_bytes (extensions parts)) MissingMetadata.

Inductive EventRejection := MissingBlockEvents | EventDecodingError.

Definition BlockEvents_try_from (parts : EvmParts) : result EventRejection (list Log) :=
  ok_or (ext_logs (extensions parts)) MissingBlockEvents.

Section events.
  Context {T : Type} `{!SolEvent T}.

(** The decoded events of the type among the logs of the call, in order;
    [topics()[0]] panics on a log without topics, which is [None] *)
Fixpoint decode_events (logs : list Log) : option (list T) :=
  match logs with
  | [] => Some []
  | log :: logs =>
      t ← topic0 log;
      rest ← decode_events logs;
      Some (if bool_decide (SIGNATURE_HASH = t)
            then match decode_log log with Some e => e :: rest | None => rest end
            else rest)
  end.

(** [Events::try_from]; the outer [None] is the panic *)
Definition Events_try_from (parts : EvmParts) : option (result EventRejection (list T)) :=
  match ext_logs (extensions parts) with
  | None => Some (Err MissingBlockEvents)
  | Some logs => events ← decode_events logs; Some (Ok events)
  end.

(** The closure of [find_map] *)
Definition decode_matching (log : Log) : option T :=
  if bool_decide (Some SIGNATURE_HASH = topic0 log) then decode_log log else None.

(** [Iterator::find_map] *)
Fixpoint find_map {A B} (f : A → option B) (l : list A) : option B :=
  match l with
  | [] => None
  | x :: l => match f x with Some y => Some y | None => find_map f l end
  end.

(** [FirstEvent::try_from], [LastEvent::try_from] *)
Definition FirstEvent_try_from (parts : EvmParts) : result EventRejection T :=
  logs ← ok_or (ext_logs (extensions parts)) MissingBlockEvents;
  ok_or (find_map decode_matching logs) EventDecodingError.
Definition LastEvent_try_from (parts : EvmParts) : result EventRejection T :=
  logs ← ok_or (ext_logs (extensions parts)) MissingBlockEvents;
  ok_or (find_map decode_matching (rev logs)) EventDecodingError.

End events.

(** ** Filters *)

Inductive MatchesError := MissingLogs | EmptyLogs | NotFound (expected : list Byte8).

(** The body shared by [MatchesContract::check] and [MatchesEvent::check] *)
Definition check_logs (test : Log → bool) (expected : list Byte8) (call : JobCall EvmExt)
    : result MatchesError (JobCall EvmExt) :=
  logs ← ok_or (ext_logs (extensions (head call))) MissingLogs;
  if bool_decide (logs = []) then Err EmptyLogs
  else if existsb test logs then Ok call
  else Err (NotFound expected).

Definition MatchesContract_check (address : list Byte8) : JobCall EvmExt → result MatchesError (JobCall EvmExt) :=
  check_logs (λ log, bool_decide (log_address log = address)) address.
Definition MatchesEvent_check (signature : list Byte8) : JobCall EvmExt → result MatchesError (JobCall EvmExt) :=
  check_logs (λ log, bool_decide (topic0 log = Some signature)) signature.

(** ** Grouping by block *)

(** The logs of one block, in the order they came *)
Definition logs_of (n : Z) (logs : list Log) : list Log :=
  List.filter (λ log, bool_decide (block_number log = Some n)) logs.

(** The blocks of a grouping come in increasing order, each with its logs. *)
Lemma entry_push_lookup k log m n l :
  StronglySorted Z.lt m.*1 →
  (n, l) ∈ entry_push k log m ↔
  (n ≠ k ∧ (n, l) ∈ m) ∨
  (n = k ∧ ((∃ l', (k, l') ∈ m ∧ l = l' ++ [log]) ∨ (k ∉ m.*1 ∧ l = [log]))).
Proof.
  induction m as [|[k' logs] m IH]; intros Hs.
  - cbn. rewrite list_elem_of_singleton. split.
    + intros [= -> ->]. right. split; [done|]. right. split; [apply not_elem_of_nil|done].
    + intros [[_ H]|[-> [(? & H & _)|[_ ->]]]]; [by apply elem_of_nil in H..|done].
  - cbn [fmap list_fmap fst] in Hs. apply StronglySorted_inv in Hs as [Hs Hlt].
    assert (∀ y l, (y, l) ∈ m → k' < y) as Hgt.
    { intros y ly Hin. rewrite list.Forall_forall in Hlt. apply Hlt.
      apply list_elem_of_fmap. by exists (y, ly). }
    assert (k' ∉ m.*1) as Hk' by (intros H; rewrite list.Forall_forall in Hlt; specialize (Hlt _ H); lia).
    cbn [entry_push]. destruct (Z.ltb_spec k k'); [|destruct (Z.eqb_spec k k') as [->|Hne]].
    + rewrite elem_of_cons. cbn [fmap list_fmap fst]. rewrite not_elem_of_cons.
      assert (k ∉ m.*1) by (intros H'; rewrite list.Forall_forall in Hlt; specialize (Hlt _ H'); lia).
      split.
      * intros [[= -> ->]|Hin]; [right; split; [done|]; right; split; [split; [lia|done]|done]|].
        left. split; [|done]. apply elem_of_cons in Hin as [[= -> ->]|Hin]; [lia|]. apply Hgt in Hin. lia.
      * intros [[? Hin]|[-> [(l' & Hin & ->)|[_ ->]]]]; [by right| |by left].
        apply elem_of_cons in Hin as [[= -> ->]|Hin]; [lia|]. apply Hgt in Hin. lia.
    + rewrite !elem_of_cons. cbn [fmap list_fmap fst]. rewrite not_elem_of_cons. split.
      * intros [[= -> ->]|Hin]; [right; split; [done|]; left; exists logs; split; [by left|done]|].
        left. split; [apply Hgt in Hin; lia|by right].
      * intros [[? [[= -> ->]|Hin]]|[-> [(l' & Hin & ->)|[[? _] _]]]]; [done|by right| |done].
        apply elem_of_cons in Hin as [[= ->]|Hin]; [by left|]. apply Hgt in Hin. lia.
    + rewrite !elem_of_cons, IH by done. cbn [fmap list_fmap fst]. rewrite not_elem_of_cons. split.
      * intros [[= -> ->]|[[? Hin]|[-> [(l' & Hin & ->)|[? ->]]]]].
        -- left. split; [lia|by left].
        -- left. split; [done|by right].
        -- right. split; [done|]. left. exists l'. split; [by right|done].
        -- right. split; [done|]. right. done.
      * intros [[? [[= -> ->]|Hin]]|[-> [(l' & Hin & ->)|[[? ?] ->]]]].
        -- by left.
        -- right; left. done.
        -- apply elem_of_cons in Hin as [[= -> ->]|Hin]; [done|]. right; right. split; [done|]. left. by exists l'.
        -- right; right. split; [done|]. by right.
Qed.

Lemma entry_push_keys k log m n : n ∈ (entry_push k log m).*1 ↔ n = k ∨ n ∈ m.*1.
Proof.
  induction m as [|[k' logs] m IH]; [set_solver|]. cbn [entry_push].
  destruct (Z.ltb_spec k k'); [set_solver|]. destruct (Z.eqb_spec k k') as [->|]; [set_solver|].
  cbn [fmap list_fmap fst]. rewrite !elem_of_cons, IH. naive_solver.
Qed.

Lemma entry_push_sorted k log m : StronglySorted Z.lt m.*1 → StronglySorted Z.lt (entry_push k log m).*1.
Proof.
  induction m as [|[k' logs] m IH]; intros Hs; [by repeat constructor|].
  cbn [fmap list_fmap fst] in Hs. pose proof Hs as Hs0. apply StronglySorted_inv in Hs as [Hs Hlt]. cbn [entry_push].
  destruct (Z.ltb_spec k k'); [|destruct (Z.eqb_spec k k') as [->|]]; cbn [fmap list_fmap fst].
  - constructor; [done|]. constructor; [done|]. eapply Forall_impl; [exact Hlt|]. cbn. lia.
  - by constructor.
  - constructor; [by apply IH|]. apply list.Forall_forall. intros y [->|Hy]%entry_push_keys; [lia|].
    rewrite list.Forall_forall in Hlt. by apply Hlt.
Qed.

Lemma logs_of_app n l k : logs_of n (l ++ k) = logs_of n l ++ logs_of n k.
Proof. unfold logs_of. apply List.filter_app. Qed.

(** The grouping: its keys ascend, and an entry holds all the logs of its block. *)
Lemma logs_by_block_spec logs :
  StronglySorted Z.lt (logs_by_block logs).*1 ∧
  ∀ n l, (n, l) ∈ logs_by_block logs ↔ l ≠ [] ∧ l = logs_of n logs.
Proof.
  unfold logs_by_block. induction logs as [|log logs [Hs Hl]] using rev_ind.
  { split; [constructor|]. intros n l. cbn. rewrite elem_of_nil. naive_solver. }
  rewrite foldl_app. cbn [foldl]. set (m := foldl _ [] logs) in *.
  assert (∀ n, logs_of n [log] = if bool_decide (block_number log = Some n) then [log] else []) as H1
    by (intros n; unfold logs_of; cbn; by case_bool_decide).
  destruct (block_number log) as [k|] eqn:Hk.
  - split; [by apply entry_push_sorted|]. intros n l. rewrite entry_push_lookup, logs_of_app, H1 by done.
    destruct (decide (n = k)) as [->|Hne].
    + rewrite bool_decide_eq_true_2 by done. split.
      * intros [[? _]|[_ [(l' & Hin & ->)|[Hnot ->]]]]; [done| |].
        -- apply Hl in Hin as [_ ->]. split; [by destruct (logs_of k logs)|done].
        -- split; [done|]. destruct (logs_of k logs) as [|x xs] eqn:Hx; [done|].
           destruct Hnot. apply list_elem_of_fmap. exists (k, x :: xs). split; [done|]. by apply Hl.
      * intros [_ ->]. right. split; [done|]. destruct (logs_of k logs) as [|x xs] eqn:Hx.
        -- right. split; [|done]. intros ([k' l'] & -> & Hin)%list_elem_of_fmap. cbn in *.
           apply Hl in Hin as [Hne ->]. by rewrite Hx in Hne.
        -- left. exists (x :: xs). split; [by apply Hl|done].
    + rewrite bool_decide_eq_false_2 by congruence. rewrite app_nil_r, <-Hl. naive_solver.
  - split; [done|]. intros n l. rewrite logs_of_app, H1, bool_decide_eq_false_2, app_nil_r by done. by apply Hl.
Qed.

Lemma mjoin_cons {A} (x : list A) l : mjoin (x :: l) = x ++ mjoin l.
Proof. done. Qed.

(** Every log with a block number becomes exactly one call, and nothing
    else does: the calls of the blocks follow each other in increasing order,
    those of a block in the order of its logs, each with the first topic as its
    identifier and all the logs of its block attached. *)
Theorem log_calls_correct logs :
  ∃ ns, StronglySorted Z.lt ns ∧ (∀ n, n ∈ ns ↔ ∃ log, log ∈ logs ∧ block_number log = Some n) ∧
    (λ c, (job_id (head c), ext_logs (extensions (head c)), body c)) <$> logs_to_job_calls logs
    = mjoin ((λ n, (λ log, (event_id log, Some (logs_of n logs), [])) <$> logs_of n logs) <$> ns).
Proof.
  destruct (logs_by_block_spec logs) as [Hs Hl]. exists (logs_by_block logs).*1. split_and!; [done| |].
  - intros n. rewrite list_elem_of_fmap. split.
    + intros ([n' l] & -> & Hin). apply Hl in Hin as [Hne Heq]. cbn. destruct l as [|log l]; [done|].
      assert (log ∈ logs_of n' logs) as Hlog by (rewrite <-Heq; by left).
      exists log. unfold logs_of in Hlog. rewrite list_elem_of_In, filter_In in Hlog.
      destruct Hlog as [Hin Hb]. rewrite list_elem_of_In. by apply bool_decide_eq_true in Hb.
    + intros (log & Hin & Hn). exists (n, logs_of n logs). split; [done|]. apply Hl. split; [|done].
      intros Hnil. assert (log ∈ logs_of n logs) as Hlog; [|by rewrite Hnil in Hlog; apply elem_of_nil in Hlog].
      unfold logs_of. rewrite list_elem_of_In, filter_In, <-list_elem_of_In.
      split; [done|]. by apply bool_decide_eq_true.
  - unfold logs_to_job_calls. clear Hs. revert Hl. generalize (logs_by_block logs) as m.
    intros m Hl. assert (Forall (λ e, e.2 ≠ [] ∧ e.2 = logs_of e.1 logs) m) as Hm.
    { apply list.Forall_forall. intros [n l] Hin. by apply Hl. }
    clear Hl. induction Hm as [|[n l] m [Hne Heq] Hm IH]; [done|]. cbn [fst snd] in *.
    rewrite !fmap_cons, !mjoin_cons, fmap_app, IH. cbn [fst]. f_equal. rewrite <-Heq.
    unfold block_calls. destruct l as [|log0 l]; [done|]. by rewrite <-list_fmap_compose.
Qed.

Lemma logs_of_block n logs : Forall (λ log, block_number log = Some n) logs → logs_of n logs = logs.
Proof.
  unfold logs_of. induction 1 as [|log logs Hn Hf IH]; [done|]. cbn. by rewrite bool_decide_eq_true_2, IH.
Qed.

Lemma logs_of_other n k logs : n ≠ k → Forall (λ log, block_number log = Some k) logs → logs_of n logs = [].
Proof.
  intros Hne. unfold logs_of. induction 1 as [|log logs Hk Hf IH]; [done|]. cbn.
  by rewrite bool_decide_eq_false_2 by congruence.
Qed.

(** Appending the logs of later blocks appends their calls. *)
Lemma logs_by_block_app_later l k n :
  Forall (λ log, block_number log = Some n) k → k ≠ [] → Forall (λ m, m < n) (logs_by_block l).*1 →
  logs_by_block (l ++ k) = logs_by_block l ++ [(n, k)].
Proof.
  intros Hk Hne Hlt. unfold logs_by_block in *. rewrite foldl_app. set (m := foldl _ [] l) in *. clearbody m.
  destruct k as [|x k]; [done|]. apply Forall_cons in Hk as [Hx Hk]. cbn [foldl]. rewrite Hx. clear Hne Hx.
  assert (entry_push n x m = m ++ [(n, [x])]) as ->.
  { induction m as [|[k' l'] m IH]; [done|]. cbn [fmap list_fmap fst] in Hlt. apply Forall_cons in Hlt as [Hk' Hlt].
    cbn. destruct (Z.ltb_spec n k'); [lia|]. destruct (Z.eqb_spec n k'); [lia|]. by rewrite IH. }
  change (x :: k) with ([x] ++ k). generalize [x] as acc. revert Hk.
  induction k as [|y k IH]; intros Hk acc; [by rewrite app_nil_r|].
  apply Forall_cons in Hk as [Hy Hk]. cbn [foldl]. rewrite Hy.
  assert (entry_push n y (m ++ [(n, acc)]) = m ++ [(n, acc ++ [y])]) as ->.
  { clear IH. induction m as [|[k' l'] m IHm].
    - cbn. rewrite Z.ltb_irrefl, Z.eqb_refl. done.
    - cbn [fmap list_fmap fst] in Hlt. apply Forall_cons in Hlt as [Hk' Hlt]. cbn.
      destruct (Z.ltb_spec n k'); [lia|]. destruct (Z.eqb_spec n k'); [lia|]. by rewrite IHm. }
  rewrite IH by done. by rewrite <-app_assoc.
Qed.

(** ** What the extractors read back *)

(** The extractors of a job read from a submitted job exactly what the chain
    logged: service, call, job index, caller, block and inputs. *)
Theorem evm_tangle_call_extracts `{SolEvent TangleJobData} log n data call :
  block_number log = Some n → is_u64 n → decode_log log = Some data →
  is_u64 (jd_service_id data) → is_u64 (jd_call_id data) → 0 ≤ jd_job_index data < 256 →
  length (jd_caller data) = 20%nat → log_to_tangle_call log = Some call →
  let parts := head call in
  EvmServiceId_try_from parts = Ok (jd_service_id data) ∧ EvmCallId_try_from parts = Ok (jd_call_id data) ∧
  EvmJobIndex_try_from parts = Ok (jd_job_index data) ∧ EvmCaller_try_from parts = Ok (jd_caller data) ∧
  EvmBlockNumber_try_from parts = Ok n ∧ JobInputs_try_from parts = Ok (jd_inputs data) ∧
  body call = jd_inputs data ∧ BlockEvents_try_from parts = Ok [log] ∧
  number_from_JobId (mkIntTy 8 false) (job_id parts) = jd_job_index data.
Proof.
  intros Hn Hnu Hd Hs Hc Hj Hl. unfold log_to_tangle_call. rewrite Hn, Hd. intros [= <-]. cbv zeta.
  assert (is_u64 (jd_job_index data)) by (unfold is_u64; lia).
  split_and!; try done.
  - apply extract_u64_inserted; [done|]. cbn. by (rewrite !lookup_insert_ne, lookup_insert_eq by done).
  - apply extract_u64_inserted; [done|]. cbn. by (rewrite !lookup_insert_ne, lookup_insert_eq by done).
  - unfold EvmJobIndex_try_from. rewrite (extract_u64_inserted _ _ (jd_job_index data)); [|done|].
    + cbn. destruct (Z.leb_spec (jd_job_index data) 255); [done|lia].
    + cbn. by (rewrite !lookup_insert_ne, lookup_insert_eq by done).
  - apply extract_array_inserted; [done|]. cbn. by rewrite lookup_insert_eq.
  - apply extract_u64_inserted; [done|]. cbn. rewrite !lookup_insert_ne by done.
    destruct (block_hash log), (block_timestamp log); by (rewrite ?lookup_insert_ne, lookup_insert_eq by done).
  - apply number_round_trip; [simpl; lia|]. unfold in_range. simpl. lia.
Qed.

(** ** Divergences *)

(** The contract address of a call is the one of the first log of its block, not
    of the log the call is for. *)
Lemma contract_address_of_first_log n log0 log :
  block_number log0 = Some n → block_number log = Some n → length (log_address log0) = 20%nat →
  ∃ c0 c, logs_to_job_calls [log0; log] = [c0; c] ∧ job_id (head c) = event_id log ∧
    ContractAddress_try_from (head c) = Ok (log_address log0).
Proof.
  intros H0 H1 Hl. do 2 eexists. split.
  { unfold logs_to_job_calls, logs_by_block. cbn. rewrite H0. cbn. rewrite H1, Z.ltb_irrefl, Z.eqb_refl. done. }
  split; [done|]. apply extract_array_inserted; [done|]. cbn. unfold block_metadata. by rewrite lookup_insert_eq.
Qed.

(** A filter for a contract lets a call through when any log of its block comes
    from that contract. *)
Lemma contract_filter_checks_block call logs a log :
  ext_logs (extensions (head call)) = Some logs → log ∈ logs → log_address log = a →
  MatchesContract_check a call = Ok call.
Proof.
  intros Hl Hin Ha. unfold MatchesContract_check, check_logs. rewrite Hl. cbn.
  rewrite bool_decide_eq_false_2 by (intros ->; by apply elem_of_nil in Hin).
  assert (existsb (λ log0, bool_decide (log_address log0 = a)) logs = true) as ->; [|done].
  apply existsb_exists. exists log. rewrite <-list_elem_of_In. split; [done|]. by apply bool_decide_eq_true.
Qed.

(** An anonymous event anywhere in the block makes the extraction of events
    panic, whatever the other logs are. *)
Lemma anonymous_event_panics {T} `{!SolEvent T} parts logs log :
  ext_logs (extensions parts) = Some logs → log ∈ logs → topics log = [] → Events_try_from (T := T) parts = None.
Proof.
  intros Hl Hin Ht. unfold Events_try_from. rewrite Hl.
  assert (decode_events (T := T) logs = None) as ->; [|done].
  clear Hl. induction logs as [|x logs IH]; [by apply elem_of_nil in Hin|].
  cbn. apply elem_of_cons in Hin as [<-|Hin].
  - unfold topic0. by rewrite Ht.
  - destruct (topic0 x); [|done]. cbn. by rewrite IH.
Qed.

(** ** Witness *)

Definition example_data : TangleJobData := mkJobData 1 7 3 (replicate 20 171) [222; 173].
#[local] Instance example_sol_event : SolEvent TangleJobData := {
  SIGNATURE_HASH := replicate 32 9; decode_log _ := Some example_data }.
Definition example_evm_log : Log := mkLog (replicate 20 1) [replicate 32 9] [] (Some 5) None None (Some 0).

Lemma evm_tangle_call_extracts_witness :
  ∃ call, log_to_tangle_call example_evm_log = Some call ∧ EvmJobIndex_try_from (head call) = Ok 3.
Proof.
  destruct (log_to_tangle_call example_evm_log) as [call|] eqn:Hc; [|by vm_compute in Hc].
  exists call. split; [done|].
  destruct (evm_tangle_call_extracts example_evm_log 5 example_data call) as (_ & _ & H & _);
    try done; unfold is_u64; cbn; lia.
Defined.
