(* ===== verification/EvmPolling.v ===== *)
(** * The EVM polling producers ([evm-extra/src/producer/polling.rs], [tangle.rs])

    Both producers are the same state machine over a block filter; they differ
    in the filter they ask for and in how they turn logs into calls.  The node
    and the clock answer through an oracle, one per round of the loop. *)

From Stdlib Require Import ZArith Lia.
From stdpp Require Import base gmap sets list sorting strings fin_maps numbers relations.
From S2P Require Import Prelude Bytes JobCore EvmLog TangleProducer EvmExtract.

#[local] Open Scope Z_scope.

(** ** Configuration *)

Inductive StartBlockSource := Genesis | Current (block : Z) | Custom (block : Z).

(** [StartBlockSource::number] *)
Definition start_number (s : StartBlockSource) : Z :=
  match s with Genesis => 0 | Current block | Custom block => block end.

Record PollingConfig := mkPolling {
  start_block : StartBlockSource;
  poll_interval : Duration;
  confirmations : Z;
  step : Z;
}.

Definition PollingConfig_default : PollingConfig := mkPolling (Current 0) (from_secs 1) 12 1.

(** [from_genesis], [from_current], [from_block] *)
Definition from_genesis : PollingConfig := mkPolling Genesis (from_secs 1) 12 1.
Definition from_current : PollingConfig := PollingConfig_default.
Definition from_block (block : Z) : PollingConfig := mkPolling (Custom block) (from_secs 1) 12 1.

(** The setters *)
Definition with_poll_interval (i : Duration) (c : PollingConfig) : PollingConfig :=
  mkPolling (start_block c) i (confirmations c) (step c).
Definition with_confirmations (n : Z) (c : PollingConfig) : PollingConfig :=
  mkPolling (start_block c) (poll_interval c) n (step c).
Definition with_step (n : Z) (c : PollingConfig) : PollingConfig :=
  mkPolling (start_block c) (poll_interval c) (confirmations c) n.

(** [TangleProducerConfig]: the contract, and the same parameters *)
Record TangleProducerConfig := mkTangleConfig { contract_address : list Byte8; tangle_polling : PollingConfig }.

(** [TangleProducerConfig::new], [from_genesis], [from_block] *)
Definition tangle_config (start : StartBlockSource) (address : list Byte8) : TangleProducerConfig :=
  mkTangleConfig address (mkPolling start (from_secs 1) 12 1000).

(** ** The producer *)

(** The filter of a request *)
Record Filter := mkFilter {
  f_address : option (list Byte8);
  f_event : option (list Byte8);
  f_from_block : option Z;
  f_to_block : option Z;
}.

(** The filter of the two producers for a range *)
Definition polling_filter (from to : Z) : Filter := mkFilter None None (Some from) (Some to).
Definition tangle_filter (address signature : list Byte8) (from to : Z) : Filter :=
  mkFilter (Some address) (Some signature) (Some from) (Some to).

Inductive PollingState :=
| FetchingBlockNumber
| FetchingLogs (f : Filter)
| Idle (d : Duration).

Section polling.
  Context {E Ext : Type} (range_filter : Z → Z → Filter) (convert : list Log → list (JobCall Ext)).

Record Producer := mkProducer {
  p_filter : Filter;
  p_config : PollingConfig;
  p_state : PollingState;
  p_buffer : list (JobCall Ext);
}.

Definition set_poll_state (s : PollingState) (p : Producer) : Producer :=
  mkProducer (p_filter p) (p_config p) s (p_buffer p).

(** The start of [new]: the current block is asked for when it is needed *)
Definition resolve_start (c : PollingConfig) (answer : result E Z) : result E PollingConfig :=
  match start_block c with
  | Current _ => n ← answer; Ok (mkPolling (Current n) (poll_interval c) (confirmations c) (step c))
  | _ => Ok c
  end.

(** [new] *)
Definition producer_new (c : PollingConfig) (answer : result E Z) : result E Producer :=
  c ← resolve_start c answer;
  let initial := u64_sat_sub (start_number (start_block c)) (confirmations c) in
  Ok (mkProducer (range_filter initial (u64_wrap (initial + step c))) c (Idle 1000) []).

(** What the futures answer when they are polled *)
Record Oracle := mkOracle {
  sleep_done : bool;
  block_ready : option (result E Z);
  logs_ready : Z → Z → option (result E (list Log));
}.

Inductive Poll := PollPending | PollReady (r : result E (JobCall Ext)).

(** The answer to a request for logs *)
Definition ask_logs (o : Oracle) (f : Filter) : option (result E (list Log)) :=
  logs_ready o (default 0 (f_from_block f)) (default 0 (f_to_block f)).

(** The range asked for next, given the current block: [None] when there is no
    new block with enough confirmations *)
Definition next_range (p : Producer) (current_block : Z) : option (Z * Z) :=
  let safe_block := u64_sat_sub current_block (confirmations (p_config p)) in
  let last_queried := default (start_number (start_block (p_config p))) (f_to_block (p_filter p)) in
  let next_from_block := u64_sat_add last_queried 1 in
  let proposed_to_block := u64_sat_add last_queried (step (p_config p)) in
  let next_to_block := Z.min proposed_to_block safe_block in
  if safe_block <? next_from_block then None else Some (next_from_block, next_to_block).

(** One round of the loop of [poll_next]; [None] goes round again *)
Definition poll_iter (p : Producer) (o : Oracle) : Producer * option Poll :=
  let idle := Idle (poll_interval (p_config p)) in
  match p_buffer p with
  | job :: rest => (mkProducer (p_filter p) (p_config p) (p_state p) rest, Some (PollReady (Ok job)))
  | [] =>
    match p_state p with
    | Idle _ => if sleep_done o then (set_poll_state FetchingBlockNumber p, None) else (p, Some PollPending)
    | FetchingBlockNumber =>
        match block_ready o with
        | None => (p, Some PollPending)
        | Some (Err e) => (set_poll_state idle p, Some (PollReady (Err e)))
        | Some (Ok current_block) =>
            match next_range p current_block with
            | None => (set_poll_state idle p, None)
            | Some (from, to) =>
                let f := range_filter from to in (mkProducer f (p_config p) (FetchingLogs f) [], None)
            end
        end
    | FetchingLogs f =>
        match ask_logs o f with
        | None => (p, Some PollPending)
        | Some (Ok logs) => (mkProducer (p_filter p) (p_config p) idle (convert logs), None)
        | Some (Err e) => (set_poll_state idle p, Some (PollReady (Err e)))
        end
    end
  end.

(** [poll_next], for the oracles of the rounds it goes through *)
Fixpoint evm_poll_next (p : Producer) (os : list Oracle) : option (Producer * Poll * list Oracle) :=
  match os with
  | [] => None
  | o :: os =>
      match poll_iter p o with
      | (p, Some r) => Some (p, r, os)
      | (p, None) => evm_poll_next p os
      end
  end.

(** ** Runs *)

(** A finished request: the range and the logs, unless it failed *)
Record Fetch := mkFetch { fetch_from : Z; fetch_to : Z; fetch_logs : option (list Log) }.

(** The request a round finishes *)
Definition finished (p : Producer) (o : Oracle) : list Fetch :=
  match p_buffer p, p_state p with
  | [], FetchingLogs f =>
      match ask_logs o f with
      | None => []
      | Some r => [mkFetch (default 0 (f_from_block f)) (default 0 (f_to_block f)) (result_ok r)]
      end
  | _, _ => []
  end.

Definition emitted (r : option Poll) : list (result E (JobCall Ext)) :=
  match r with Some (PollReady r) => [r] | _ => [] end.

(** The rounds of any number of calls: what is delivered and what is fetched *)
Fixpoint run (p : Producer) (os : list Oracle) : Producer * list (result E (JobCall Ext)) * list Fetch :=
  match os with
  | [] => (p, [], [])
  | o :: os =>
      let '(p', r) := poll_iter p o in
      let '(p'', items, fetches) := run p' os in
      (p'', emitted r ++ items, finished p o ++ fetches)
  end.

(** A call of [poll_next] is a run that delivers what it returns. *)
Lemma poll_next_run p os p' r rest :
  evm_poll_next p os = Some (p', r, rest) →
  ∃ used fetches, os = used ++ rest ∧ run p used = (p', emitted (Some r), fetches).
Proof.
  revert p. induction os as [|o os IH]; intros p H; [done|]. cbn in H.
  destruct (poll_iter p o) as [p1 [r1|]] eqn:Hi.
  - simplify_eq. exists [o], (finished p o ++ []). split; [done|]. cbn. rewrite Hi. by rewrite app_nil_r.
  - destruct (IH _ H) as (used & fetches & -> & Hr). exists (o :: used), (finished p o ++ fetches).
    split; [done|]. cbn. by rewrite Hi, Hr.
Qed.

Definition delivered_calls (items : list (result E (JobCall Ext))) : list (JobCall Ext) := omap result_ok items.

(** The range of a filter *)
Definition filter_range (f : Filter) : option (Z * Z) :=
  from ← f_from_block f; to ← f_to_block f; Some (from, to).

(** Requests that follow each other without a gap, from one block to another *)
Fixpoint contiguous (step from : Z) (fetches : list Fetch) (to : Z) : Prop :=
  match fetches with
  | [] => to = from - 1
  | f :: fetches =>
      fetch_from f = from ∧ from ≤ fetch_to f < from + step ∧ contiguous step (fetch_to f + 1) fetches to
  end.

Lemma contiguous_snoc st from fetches f :
  ∀ to, contiguous st from fetches to → fetch_from f = to + 1 → fetch_from f ≤ fetch_to f < fetch_from f + st →
  contiguous st from (fetches ++ [f]) (fetch_to f).
Proof.
  revert from. induction fetches as [|g fetches IH]; intros from to Hc Hf Ht; cbn in *.
  - subst. split_and!; try lia.
  - destruct Hc as (Hg & Hr & Hc). split_and!; [done|lia|lia|]. by eapply IH.
Qed.

(** The block the next request starts after *)
Definition cursor (p : Producer) : Z :=
  match p_state p with
  | FetchingLogs f => default 0 (f_from_block f) - 1
  | _ => default 0 (f_to_block (p_filter p))
  end.

Context (Hrange : ∀ from to, filter_range (range_filter from to) = Some (from, to)).

Lemma range_from from to : f_from_block (range_filter from to) = Some from.
Proof. specialize (Hrange from to). unfold filter_range in Hrange. destruct (f_from_block _), (f_to_block _); by simplify_eq/=. Qed.
Lemma range_to from to : f_to_block (range_filter from to) = Some to.
Proof. specialize (Hrange from to). unfold filter_range in Hrange. destruct (f_from_block _), (f_to_block _); by simplify_eq/=. Qed.

(** ** The invariant *)

(** The block numbers the node reports are far below the largest [u64]. *)
Definition oracle_ok (seen : Z → Prop) (o : Oracle) : Prop :=
  ∀ n, block_ready o = Some (Ok n) → 0 ≤ n < 2 ^ 63 ∧ seen n.

(** A block with enough confirmations when some block was the current one *)
Definition confirmed (c : PollingConfig) (seen : Z → Prop) (to : Z) : Prop :=
  ∃ n, seen n ∧ to ≤ n - confirmations c.

Record producer_inv (c : PollingConfig) (seen : Z → Prop) (first : Z) (p : Producer)
    (items : list (result E (JobCall Ext))) (fetches : list Fetch) : Prop := {
  pi_config : p_config p = c;
  pi_cursor : is_Some (f_to_block (p_filter p)) ∧ 0 ≤ default 0 (f_to_block (p_filter p)) < 2 ^ 63;
  pi_state : ∀ f, p_state p = FetchingLogs f → p_buffer p = [] ∧
    ∃ from to, f = range_filter from to ∧ p_filter p = f ∧ 0 ≤ from ≤ to ∧ to < from + step c ∧
      confirmed c seen to;
  pi_fetches : contiguous (step c) first fetches (cursor p);
  pi_safe : Forall (λ f, confirmed c seen (fetch_to f)) fetches;
  pi_calls : delivered_calls items ++ p_buffer p = mjoin (convert <$> omap fetch_logs fetches);
}.

Lemma poll_iter_inv c seen first p items fetches o :
  1 ≤ step c → 0 ≤ confirmations c → oracle_ok seen o → producer_inv c seen first p items fetches →
  let '(p', r) := poll_iter p o in
  producer_inv c seen first p' (items ++ emitted r) (fetches ++ finished p o).
Proof.
  intros Hstep Hconf Ho [Hc Hcu0 Hst Hf Hsafe Hcalls]. pose proof Hcu0 as [[to0 Hto0] Hcur].
  assert (∀ r : result E (JobCall Ext), delivered_calls (items ++ [r]) = delivered_calls items ++ omap result_ok [r]) as Hd
    by (intros r; apply omap_app).
  unfold poll_iter, finished. destruct (p_buffer p) as [|job rest] eqn:Hb; rewrite ?Hb in Hcalls.
  2:{ split; cbn; rewrite ?app_nil_r; try done.
      - intros f Hs. by destruct (Hst f Hs).
      - rewrite Hd. cbn. by rewrite <-app_assoc. }
  rewrite app_nil_r in Hcalls. destruct (p_state p) as [|f|d] eqn:Hs.
  - assert (cursor p = to0) as Hcp by (unfold cursor; by rewrite Hs, Hto0).
    rewrite Hcp in Hf. rewrite Hto0 in Hcur. cbn in Hcur.
    destruct (block_ready o) as [[current|e]|] eqn:Hbr; [destruct (next_range p current) as [[from to]|] eqn:Hn| |];
      rewrite ?app_nil_r.
    + unfold next_range in Hn. rewrite Hto0, Hc in Hn. cbn in Hn.
      specialize (Ho _ Hbr) as [Ho Hseen]. unfold u64_sat_sub, u64_sat_add, u64_max in Hn.
      destruct (Z.ltb_spec (Z.max 0 (current - confirmations c)) (Z.min (to0 + 1) (2 ^ 64 - 1))) as [|Hle]; [done|].
      injection Hn as <- <-. split; cbn; rewrite ?range_from, ?range_to, ?app_nil_r; cbn; try done.
      * split; [by eexists|lia].
      * intros f [= <-]. split; [done|]. do 2 eexists. split_and!; [done..|lia|lia|lia|].
        exists current. split; [done|lia].
      * replace (Z.min _ _ - 1) with to0 by lia. done.
    + split; cbn; rewrite ?app_nil_r; try done.
      * unfold cursor. cbn. by rewrite Hto0.
      * by rewrite Hb, app_nil_r.
    + split; cbn; rewrite ?app_nil_r; try done.
      * unfold cursor. cbn. by rewrite Hto0.
      * by rewrite Hd, Hb, !app_nil_r.
    + split; cbn; rewrite ?app_nil_r; try done; [by rewrite Hs|..]; [|by rewrite Hb, app_nil_r].
      unfold cursor. by rewrite Hs, Hto0.
  - destruct (Hst f eq_refl) as (_ & from & to & -> & Hpf & Hft & Hts & Hsf).
    assert (ask_logs o (range_filter from to) = logs_ready o from to) as ->
      by (unfold ask_logs; by rewrite range_from, range_to).
    assert (cursor p = from - 1) as Hcp by (unfold cursor; rewrite Hs, range_from; done).
    rewrite Hcp in Hf. rewrite Hpf, range_to in Hto0, Hcur. rewrite range_from, range_to. cbn in *.
    assert (∀ l, contiguous (step c) first (fetches ++ [mkFetch from to l]) to) as Hsn
      by (intros l; apply (contiguous_snoc (step c) first fetches (mkFetch from to l) (from - 1)); [done|cbn; lia..]).
    assert (∀ l, Forall (λ f, confirmed c seen (fetch_to f)) (fetches ++ [mkFetch from to l])) as Hsn'
      by (intros l; apply Forall_app; split; [done|by repeat constructor]).
    destruct (logs_ready o from to) as [[logs|e]|] eqn:Hl; cbn; rewrite ?app_nil_r.
    + split; cbn; try done.
      * unfold cursor. cbn. rewrite Hpf, range_to. apply Hsn.
      * rewrite omap_app, fmap_app. cbn. rewrite join_app. cbn. by rewrite !app_nil_r, Hcalls.
    + split; cbn; try done.
      * unfold cursor. cbn. rewrite Hpf, range_to. apply Hsn.
      * rewrite Hd, omap_app. cbn. by rewrite Hb, !app_nil_r.
    + split; cbn; rewrite ?app_nil_r; try done.
      * rewrite Hs. intros f [= <-]. eauto 10.
      * by rewrite Hcp.
      * by rewrite Hb, app_nil_r.
  - assert (cursor p = to0) as Hcp by (unfold cursor; by rewrite Hs, Hto0).
    rewrite Hcp in Hf. destruct (sleep_done o); cbn; rewrite ?app_nil_r.
    + split; cbn; rewrite ?app_nil_r; try done; [|by rewrite Hb, app_nil_r]. unfold cursor. cbn. by rewrite Hto0.
    + split; cbn; rewrite ?app_nil_r; try done; [by rewrite Hs|..]; [|by rewrite Hb, app_nil_r].
      unfold cursor. by rewrite Hs, Hto0.
Qed.
Lemma run_inv c seen first p items fetches os :
  1 ≤ step c → 0 ≤ confirmations c → Forall (oracle_ok seen) os → producer_inv c seen first p items fetches →
  let '(p', items', fetches') := run p os in
  producer_inv c seen first p' (items ++ items') (fetches ++ fetches').
Proof.
  intros Hs Hc Ho. revert p items fetches. induction Ho as [|o os Ho Hos IH]; intros p items fetches Hinv; cbn.
  - by rewrite !app_nil_r.
  - pose proof (poll_iter_inv c seen first p items fetches o Hs Hc Ho Hinv) as H.
    destruct (poll_iter p o) as [p' r]. specialize (IH _ _ _ H). destruct (run p' os) as [[p'' its] fs].
    by rewrite !app_assoc.
Qed.

(** The configuration after [new], and the last block of the range it starts with *)
Lemma new_inv c answer p0 seen :
  producer_new c answer = Ok p0 → 0 ≤ start_number (start_block (p_config p0)) < 2 ^ 62 → 0 ≤ step c < 2 ^ 62 →
  0 ≤ confirmations c →
  let initial := u64_sat_sub (start_number (start_block (p_config p0))) (confirmations c) in
  step (p_config p0) = step c ∧ confirmations (p_config p0) = confirmations c ∧
  producer_inv (p_config p0) seen (initial + step c + 1) p0 [] [].
Proof.
  unfold producer_new. intros H Hst Hs Hc.
  destruct (resolve_start c answer) as [c'|] eqn:Hr; [|done]. injection H as <-. cbn in *.
  assert (step c' = step c ∧ confirmations c' = confirmations c) as [-> ->].
  { unfold resolve_start in Hr. destruct (start_block c) eqn:Es; cbn in Hr; [by simplify_eq| |by simplify_eq].
    destruct answer; cbn in Hr; by simplify_eq. }
  set (initial := u64_sat_sub _ _). assert (0 ≤ initial < 2 ^ 62) by (unfold initial, u64_sat_sub; lia).
  rewrite u64_wrap_small by (unfold is_u64; lia). split_and!; [done..|].
  split; cbn; rewrite ?range_to; cbn; try done; [split; [by eexists|lia]|lia].
Qed.

(** ** Progress *)

(** A node and a clock that answer at once, the same current block each time *)
Definition responsive (current : Z) (o : Oracle) : Prop :=
  sleep_done o = true ∧ block_ready o = Some (Ok current) ∧
  ∀ from to, ∃ logs, logs_ready o from to = Some (Ok logs).

Lemma run_app p os1 os2 :
  run p (os1 ++ os2) =
  let '(p1, i1, f1) := run p os1 in let '(p2, i2, f2) := run p1 os2 in (p2, i1 ++ i2, f1 ++ f2).
Proof.
  revert p. induction os1 as [|o os1 IH]; intros p; cbn.
  - by destruct (run p os2) as [[p2 i2] f2].
  - destruct (poll_iter p o) as [p' r]. rewrite IH. destruct (run p' os1) as [[p1 i1] f1].
    destruct (run p1 os2) as [[p2 i2] f2]. by rewrite !app_assoc.
Qed.

Definition no_buffer (p : Producer) : Producer := mkProducer (p_filter p) (p_config p) (p_state p) [].

Lemma drain p o : (run p (replicate (length (p_buffer p)) o)).1.1 = no_buffer p.
Proof.
  destruct p as [f c st buffer]. cbn. induction buffer as [|job buffer IH]; [done|]. cbn.
  destruct (run _ _) as [[p' i] fs]. done.
Qed.

(** At rest: nothing buffered, waiting for the interval *)
Definition at_rest (p : Producer) : Prop := p_buffer p = [] ∧ ∃ d, p_state p = Idle d.

(** From any reachable state the producer comes to rest, with its cursor no
    further back. *)
Lemma comes_to_rest c seen first p items fetches current o :
  1 ≤ step c → 0 ≤ confirmations c → oracle_ok seen o → producer_inv c seen first p items fetches →
  responsive current o → p_state p ≠ FetchingBlockNumber →
  ∃ n, at_rest (run p (replicate n o)).1.1 ∧ cursor p ≤ cursor (run p (replicate n o)).1.1.
Proof.
  intros Hs Hc Ho Hinv (Hsl & Hbl & Hlg) Hst. destruct (p_state p) as [|f|d] eqn:Hp; [done| |].
  - destruct (pi_state _ _ _ _ _ _ Hinv f Hp) as (Hb & from & to & -> & Hpf & Hft & Hts & _).
    destruct (Hlg from to) as [logs Hlogs].
    set (p1 := mkProducer (p_filter p) (p_config p) (Idle (poll_interval (p_config p))) (convert logs)).
    assert (poll_iter p o = (p1, None)) as Hi.
    { unfold poll_iter, ask_logs. rewrite Hb, Hp, range_from, range_to. cbn. by rewrite Hlogs. }
    exists (S (length (convert logs))). cbn. rewrite Hi.
    pose proof (drain p1 o) as Hd. cbn in Hd. destruct (run p1 _) as [[p2 i2] f2]. cbn in *. subst p2.
    split; [by split; [|eexists]|]. unfold cursor. rewrite Hp, range_from. cbn. rewrite Hpf, range_to. cbn. lia.
  - exists (length (p_buffer p)). rewrite drain. split; [split; [done|]; by exists d|]. unfold cursor. cbn. by rewrite Hp.
Qed.

(** One interval takes the cursor as far as a request may reach. *)
Lemma cycle c seen first p items fetches current o :
  1 ≤ step c → 0 ≤ confirmations c → oracle_ok seen o → producer_inv c seen first p items fetches →
  responsive current o → at_rest p → cursor p < current - confirmations c →
  ∃ n, at_rest (run p (replicate n o)).1.1 ∧
    Z.min (cursor p + step c) (current - confirmations c) ≤ cursor (run p (replicate n o)).1.1.
Proof.
  intros Hs Hc Ho Hinv (Hsl & Hbl & Hlg) [Hb [d Hd]] Hlt.
  destruct (pi_cursor _ _ _ _ _ _ Hinv) as [[t Ht] Hr]. rewrite Ht in Hr. cbn in Hr.
  assert (cursor p = t) as Hcp by (unfold cursor; by rewrite Hd, Ht).
  pose proof (pi_config _ _ _ _ _ _ Hinv) as Hcfg. destruct (Ho _ Hbl) as [Hcur _].
  set (to := Z.min (t + step c) (current - confirmations c)).
  set (p1 := set_poll_state FetchingBlockNumber p).
  assert (next_range p1 current = Some (t + 1, to)) as Hn.
  { unfold next_range. cbn. rewrite Ht, Hcfg. cbn. unfold u64_sat_sub, u64_sat_add, u64_max, to.
    destruct (Z.ltb_spec (Z.max 0 (current - confirmations c)) (Z.min (t + 1) (2 ^ 64 - 1))); [lia|].
    do 2 f_equal; lia. }
  destruct (Hlg (t + 1) to) as [logs Hlogs].
  set (f := range_filter (t + 1) to).
  set (p2 := mkProducer f (p_config p) (FetchingLogs f) []).
  set (p3 := mkProducer f (p_config p) (Idle (poll_interval (p_config p))) (convert logs)).
  assert (poll_iter p o = (p1, None)) as H1 by (unfold poll_iter; by rewrite Hb, Hd, Hsl).
  assert (poll_iter p1 o = (p2, None)) as H2.
  { unfold poll_iter. cbn [p1 set_poll_state p_buffer p_state]. rewrite Hb, Hbl. fold p1. by rewrite Hn. }
  assert (poll_iter p2 o = (p3, None)) as H3.
  { unfold poll_iter, ask_logs. cbn. unfold f. rewrite range_from, range_to. cbn. by rewrite Hlogs. }
  exists (3 + length (convert logs))%nat. cbn. rewrite H1, H2, H3.
  pose proof (drain p3 o) as Hdr. cbn in Hdr. destruct (run p3 _) as [[p4 i4] f4]. cbn in *. subst p4.
  split; [by split; [|eexists]|]. rewrite Hcp. unfold cursor. cbn. unfold f. rewrite range_to. cbn. done.
Qed.

(** From the middle of asking for the block number too *)
Lemma leaves_block_number c seen first p items fetches current o :
  1 ≤ step c → 0 ≤ confirmations c → oracle_ok seen o → producer_inv c seen first p items fetches →
  responsive current o →
  ∃ n, p_state (run p (replicate n o)).1.1 ≠ FetchingBlockNumber ∧ cursor p ≤ cursor (run p (replicate n o)).1.1.
Proof.
  intros Hs Hc Ho Hinv (Hsl & Hbl & Hlg). destruct (p_state p) as [|f|d] eqn:Hp; [|exists 0%nat; cbn; by rewrite Hp..].
  destruct (pi_cursor _ _ _ _ _ _ Hinv) as [[t Ht] Hr]. rewrite Ht in Hr. cbn in Hr.
  destruct (Ho _ Hbl) as [Hcur _].
  exists (length (p_buffer p) + 1)%nat. rewrite replicate_add, run_app. pose proof (drain p o) as Hd.
  destruct (run p (replicate (length (p_buffer p)) o)) as [[p1 i1] f1]. cbn in Hd. subst p1. cbn.
  assert (cursor p = t) as -> by (unfold cursor; by rewrite Hp, Ht).
  assert (∀ n, next_range (no_buffer p) n = next_range p n) as Hnr by done.
  unfold poll_iter. cbn [no_buffer p_buffer p_state]. rewrite Hp, Hbl. fold (no_buffer p). rewrite Hnr.
  destruct (next_range p current) as [[from to]|] eqn:Hn; cbn.
  - split; [done|]. unfold cursor. cbn. rewrite range_from. cbn. unfold next_range in Hn. rewrite Ht in Hn. cbn in Hn.
    unfold u64_sat_add, u64_max in Hn. case_match; [done|]. injection Hn as <- <-. lia.
  - split; [done|]. unfold cursor. cbn. by rewrite Ht.
Qed.

Lemma reaches_current c seen first p items fetches current o :
  1 ≤ step c → 0 ≤ confirmations c → oracle_ok seen o → producer_inv c seen first p items fetches →
  responsive current o → at_rest p →
  ∃ n, let p' := (run p (replicate n o)).1.1 in
    current - confirmations c ≤ cursor p' ∧ p_buffer p' = [].
Proof.
  intros Hs Hc Ho Hinv Hresp Hrest.
  remember (Z.to_nat (current - confirmations c - cursor p)) as k eqn:Hk.
  revert p items fetches Hinv Hrest Hk. induction k as [k IH] using lt_wf_ind. intros p items fetches Hinv Hrest Hk.
  destruct (decide (current - confirmations c ≤ cursor p)) as [Hle|Hgt].
  { exists 0%nat. cbn. split; [done|by destruct Hrest]. }
  destruct (cycle c seen first p items fetches current o Hs Hc Ho Hinv Hresp Hrest) as (n1 & Hrest1 & Hcur1); [lia|].
  pose proof (run_inv c seen first p items fetches (replicate n1 o) Hs Hc) as Hinv1.
  destruct (run p (replicate n1 o)) as [[p1 i1] f1] eqn:Hrun. cbn in Hrest1, Hcur1.
  specialize (Hinv1 ltac:(by apply Forall_replicate) Hinv).
  destruct (IH (Z.to_nat (current - confirmations c - cursor p1)) ltac:(lia) p1 _ _ Hinv1 Hrest1 eq_refl) as (n2 & Hn2).
  exists (n1 + n2)%nat. rewrite replicate_add, run_app, Hrun.
  destruct (run p1 (replicate n2 o)) as [[p2 i2] f2]. done.
Qed.

Lemma reaches_current_anywhere c seen first p items fetches current o :
  1 ≤ step c → 0 ≤ confirmations c → oracle_ok seen o → producer_inv c seen first p items fetches →
  responsive current o →
  ∃ n, let p' := (run p (replicate n o)).1.1 in
    current - confirmations c ≤ cursor p' ∧ p_buffer p' = [].
Proof.
  intros Hs Hc Ho Hinv Hresp.
  destruct (leaves_block_number c seen first p items fetches current o Hs Hc Ho Hinv Hresp) as (n1 & Hst1 & _).
  pose proof (run_inv c seen first p items fetches (replicate n1 o) Hs Hc) as Hinv1.
  destruct (run p (replicate n1 o)) as [[p1 i1] f1] eqn:Hrun1. cbn in Hst1.
  specialize (Hinv1 ltac:(by apply Forall_replicate) Hinv).
  destruct (comes_to_rest c seen first p1 _ _ current o Hs Hc Ho Hinv1 Hresp Hst1) as (n2 & Hrest2 & _).
  pose proof (run_inv c seen first p1 (items ++ i1) (fetches ++ f1) (replicate n2 o) Hs Hc) as Hinv2.
  destruct (run p1 (replicate n2 o)) as [[p2 i2] f2] eqn:Hrun2. cbn in Hrest2.
  specialize (Hinv2 ltac:(by apply Forall_replicate) Hinv1).
  destruct (reaches_current c seen first p2 _ _ current o Hs Hc Ho Hinv2 Hresp Hrest2) as (n3 & Hn3).
  exists (n1 + (n2 + n3))%nat. rewrite !replicate_add, !run_app, Hrun1, run_app, Hrun2.
  by destruct (run p2 (replicate n3 o)) as [[p3 i3] f3].
Qed.

(** The producer makes progress: whatever the node answered so far, once it
    answers every request, all blocks with enough confirmations have been asked
    for and everything fetched has been delivered after finitely many rounds. *)
Theorem polling_live c answer p0 os current o :
  producer_new c answer = Ok p0 → 0 ≤ start_number (start_block (p_config p0)) < 2 ^ 62 → 1 ≤ step c < 2 ^ 62 →
  0 ≤ confirmations c → Forall (oracle_ok (λ _, True)) (o :: os) → responsive current o →
  ∃ n, let p' := (run p0 (os ++ replicate n o)).1.1 in
    current - confirmations c ≤ cursor p' ∧ p_buffer p' = [].
Proof.
  intros Hnew Hst Hs Hc [Ho Hos]%Forall_cons Hresp.
  destruct (new_inv c answer p0 (λ _, True) Hnew Hst ltac:(lia) Hc) as (Hs0 & Hc0 & Hinv).
  pose proof (run_inv _ _ _ _ _ _ os ltac:(rewrite Hs0; lia) ltac:(by rewrite Hc0) Hos Hinv) as Hrun.
  destruct (run p0 os) as [[p1 i1] f1] eqn:Hr.
  destruct (reaches_current_anywhere _ _ _ _ _ _ current o ltac:(rewrite Hs0; lia) ltac:(by rewrite Hc0) Ho Hrun Hresp)
    as (n & Hn). exists n. rewrite run_app, Hr. destruct (run p1 (replicate n o)) as [[p2 i2] f2]. cbn in *.
  by rewrite Hc0 in Hn.
Qed.

(** ** Delivery *)

(** What the polling producer delivers.  It asks for consecutive ranges of
    at most [step] blocks, starting after the range it was created with and
    never beyond the confirmed blocks; what it has delivered and still buffers
    is exactly the calls of the ranges that were fetched, in order, once. *)
Theorem polling_delivery c answer p0 os :
  producer_new c answer = Ok p0 → 0 ≤ start_number (start_block (p_config p0)) < 2 ^ 62 → 1 ≤ step c < 2 ^ 62 →
  0 ≤ confirmations c →
  let seen n := ∃ o, o ∈ os ∧ block_ready o = Some (Ok n) in
  Forall (oracle_ok seen) os →
  let first := u64_sat_sub (start_number (start_block (p_config p0))) (confirmations c) + step c + 1 in
  let '(p, items, fetches) := run p0 os in
  contiguous (step c) first fetches (cursor p) ∧
  Forall (λ f, ∃ n, seen n ∧ fetch_to f ≤ n - confirmations c) fetches ∧
  delivered_calls items ++ p_buffer p = mjoin (convert <$> omap fetch_logs fetches).
Proof.
  intros Hnew Hst Hs Hc seen Hos first.
  destruct (new_inv c answer p0 seen Hnew Hst ltac:(lia) Hc) as (Hs0 & Hc0 & Hinv).
  pose proof (run_inv _ _ _ _ _ _ os ltac:(rewrite Hs0; lia) ltac:(by rewrite Hc0) Hos Hinv) as Hrun.
  destruct (run p0 os) as [[p items] fetches]. destruct Hrun as [_ _ _ Hf Hsafe Hcalls]. cbn in *.
  rewrite Hs0 in Hf. split_and!; [done| |done]. eapply Forall_impl; [exact Hsafe|].
  intros f (n & Hn & Hle). exists n. by rewrite <-Hc0.
Qed.

End polling.

(** ** The polling producer over a chain *)

Section chain.
  Context {E : Type} (chain : Z → list Log).
  Context (Hchain : ∀ n, Forall (λ log, block_number log = Some n) (chain n)).

Abbreviation EvmOracle := (Oracle (E := E)).

(** Requests fail, or are answered with the logs of the blocks they ask for. *)
Definition answers_chain (o : EvmOracle) : Prop :=
  ∀ from to r, logs_ready o from to = Some r → result_ok r = None ∨ result_ok r = Some (blocks chain from to).

Lemma logs_to_job_calls_app_block a b :
  a ≤ b → logs_to_job_calls (blocks chain a b) = logs_to_job_calls (blocks chain a (b - 1)) ++ logs_to_job_calls (chain b).
Proof.
  intros Hab. rewrite blocks_snoc by done. unfold logs_to_job_calls.
  destruct (chain b) as [|x l] eqn:Hc; [by rewrite !app_nil_r|]. rewrite <-Hc.
  assert (Forall (λ m, m < b) (logs_by_block (blocks chain a (b - 1))).*1) as Hlt.
  { apply list.Forall_forall. intros n ([n' ls] & -> & Hin)%list_elem_of_fmap. cbn.
    apply logs_by_block_spec in Hin as [Hne ->]. destruct (logs_of n' _) as [|y ys] eqn:Hy; [done|].
    assert (y ∈ logs_of n' (blocks chain a (b - 1))) as Hyin by (rewrite Hy; by left).
    unfold logs_of in Hyin. rewrite list_elem_of_In, filter_In, <-list_elem_of_In in Hyin.
    destruct Hyin as [(n & Hn & Hin)%elem_of_blocks Hb]. apply bool_decide_eq_true in Hb.
    specialize (Hchain n). rewrite list.Forall_forall in Hchain. specialize (Hchain y Hin).
    assert (n = n') by congruence. lia. }
  rewrite (logs_by_block_app_later _ (chain b) b); [|done|by rewrite Hc|done].
  rewrite fmap_app, join_app. f_equal.
  pose proof (logs_by_block_app_later [] (chain b) b (Hchain b)) as H.
  rewrite app_nil_l in H. rewrite H; [done|by rewrite Hc|constructor].
Qed.

Lemma logs_to_job_calls_blocks a b :
  logs_to_job_calls (blocks chain a b) = mjoin ((λ n, logs_to_job_calls (chain n)) <$> seqZ a (b - a + 1)).
Proof.
  destruct (decide (a ≤ b)) as [Hab|]; [|rewrite blocks_nil, seqZ_nil by lia; done].
  remember (Z.to_nat (b - a)) as k eqn:Hk. revert b Hab Hk. induction k as [|k IH]; intros b Hab Hk.
  - assert (b = a) as -> by lia. rewrite blocks_one, Z.sub_diag, seqZ_cons, seqZ_nil by lia. cbn. by rewrite app_nil_r.
  - rewrite logs_to_job_calls_app_block, IH by lia.
    replace (b - a + 1) with ((b - 1 - a + 1) + 1) by lia.
    rewrite (seqZ_app a (b - 1 - a + 1) 1), fmap_app, join_app by lia. f_equal.
    replace (a + (b - 1 - a + 1)) with b by lia. rewrite seqZ_cons, seqZ_nil by lia. cbn. by rewrite app_nil_r.
Qed.

Lemma fetches_from_chain {Ext} rf convert (p : Producer (Ext := Ext)) (os : list EvmOracle) :
  Forall answers_chain os →
  Forall (λ f, fetch_logs f = None ∨ fetch_logs f = Some (blocks chain (fetch_from f) (fetch_to f)))
    (run rf convert p os).2.
Proof.
  intros Ho. revert p. induction Ho as [|o os Ho Hos IH]; intros p; cbn; [done|].
  destruct (poll_iter rf convert p o) as [p' r]. specialize (IH p').
  destruct (run rf convert p' os) as [[p'' its] fs]. apply Forall_app. split; [|done].
  unfold finished. destruct (p_buffer p); [|done]. destruct (p_state p) as [|f|]; [done| |done].
  unfold ask_logs. destruct (logs_ready o _ _) as [r'|] eqn:Hl; [|done]. apply Forall_singleton. cbn. by eapply Ho.
Qed.

Lemma contiguous_end st first fetches to : contiguous st first fetches to → first - 1 ≤ to.
Proof.
  revert first. induction fetches as [|g gs IH]; intros first H; cbn in H; [lia|].
  destruct H as (? & ? & H). apply IH in H. lia.
Qed.

Lemma served_blocks st first fetches to :
  contiguous st first fetches to →
  Forall (λ f, fetch_logs f = Some (blocks chain (fetch_from f) (fetch_to f))) fetches →
  mjoin (logs_to_job_calls <$> omap fetch_logs fetches)
  = mjoin ((λ n, logs_to_job_calls (chain n)) <$> seqZ first (to - first + 1)).
Proof.
  intros Hc Hf. revert first Hc. induction Hf as [|f fetches Hf Hfs IH]; intros first Hc; cbn in Hc.
  - subst to. rewrite seqZ_nil by lia. done.
  - destruct Hc as (Hfrom & Hr & Hc). specialize (IH _ Hc).
    pose proof (contiguous_end _ _ _ _ Hc).
    cbn [omap list_omap]. rewrite Hf, fmap_cons, mjoin_cons, IH, logs_to_job_calls_blocks, Hfrom.
    replace (to - first + 1) with ((fetch_to f - first + 1) + (to - (fetch_to f + 1) + 1)) by lia.
    rewrite (seqZ_app first (fetch_to f - first + 1)), fmap_app, join_app by lia.
    by replace (first + (fetch_to f - first + 1)) with (fetch_to f + 1) by lia.
Qed.
(** Against a chain, the polling producer delivers the calls of every block
    from the first it asks for up to its cursor, block by block, exactly once
    and in order, as long as no request for logs fails; the ranges that failed
    are exactly what is missing otherwise. *)
Theorem polling_exactly_once c (answer : result E Z) p0 (os : list EvmOracle) :
  producer_new polling_filter c answer = Ok p0 →
  0 ≤ start_number (start_block (p_config p0)) < 2 ^ 62 → 1 ≤ step c < 2 ^ 62 → 0 ≤ confirmations c →
  Forall (oracle_ok (λ _, True)) os → Forall answers_chain os →
  let first := u64_sat_sub (start_number (start_block (p_config p0))) (confirmations c) + step c + 1 in
  let '(p, items, fetches) := run polling_filter logs_to_job_calls p0 os in
  delivered_calls items ++ p_buffer p
  = mjoin ((λ n, logs_to_job_calls (chain n)) <$>
      mjoin ((λ f, if fetch_logs f then seqZ (fetch_from f) (fetch_to f - fetch_from f + 1) else []) <$> fetches)) ∧
  (Forall (λ f, fetch_logs f ≠ None) fetches →
   delivered_calls items ++ p_buffer p
   = mjoin ((λ n, logs_to_job_calls (chain n)) <$> seqZ first (cursor p - first + 1))).
Proof.
  intros Hnew Hst Hs Hc Hos Hans first.
  assert (∀ from to, filter_range (polling_filter from to) = Some (from, to)) as Hrange by done.
  destruct (new_inv polling_filter logs_to_job_calls Hrange c answer p0 (λ _, True) Hnew Hst ltac:(lia) Hc) as (Hs0 & Hc0 & Hinv).
  pose proof (run_inv polling_filter logs_to_job_calls Hrange _ _ _ _ _ _ os ltac:(rewrite Hs0; lia)
    ltac:(by rewrite Hc0) Hos Hinv) as Hrun.
  pose proof (fetches_from_chain polling_filter logs_to_job_calls p0 os Hans) as Hf.
  destruct (run _ _ p0 os) as [[p items] fetches]. destruct Hrun as [_ _ _ Hcont _ Hcalls]. cbn [app snd] in Hcont, Hcalls, Hf.
  rewrite Hs0 in Hcont. fold first in Hcont. split.
  - rewrite Hcalls. clear -Hf Hchain. induction Hf as [|f fetches Hf Hfs IH]; [done|].
    rewrite fmap_cons, mjoin_cons, fmap_app, join_app, <-IH. cbn [omap list_omap].
    destruct Hf as [->| ->]; [done|]. by rewrite fmap_cons, mjoin_cons, logs_to_job_calls_blocks.
  - intros Hok. rewrite Hcalls. eapply served_blocks; [exact Hcont|].
    clear -Hf Hok. induction Hf as [|f fetches [Hf|Hf] Hfs IH]; [done|..];
      apply Forall_cons in Hok as [Hne Hok]; [done|]. constructor; [done|by apply IH].
Qed.

End chain.

(** ** Divergences *)

(** A producer set to start at genesis never asks for the first blocks: the
    first range it asks for starts after block [step]. *)
Lemma genesis_skips_first_blocks (p0 : Producer (Ext := EvmExt)) :
  producer_new (E := unit) polling_filter from_genesis (Err tt) = Ok p0 → cursor p0 = 1 ∧
  ∀ current, next_range p0 current ≠ None → ∃ to, next_range p0 current = Some (2, to).
Proof.
  intros [= <-]. split; [done|]. intros current. unfold next_range. cbn. case_match; [done|]. eauto.
Qed.

(** A request for logs that fails is not repeated: the next request starts
    after the range that failed. *)
Lemma failed_range_skipped {E Ext} rf convert (p : Producer (Ext := Ext)) (o : Oracle (E := E)) from to e :
  p_buffer p = [] → p_state p = FetchingLogs (rf from to) → p_filter p = rf from to →
  f_from_block (rf from to) = Some from → f_to_block (rf from to) = Some to →
  logs_ready o from to = Some (Err e) →
  let '(p', r) := poll_iter rf convert p o in
  r = Some (PollReady (Err e)) ∧ cursor p' = to ∧
  ∀ current from' to', next_range p' current = Some (from', to') → from' = u64_sat_add to 1.
Proof.
  intros Hb Hs Hf H1 H2 Hl. unfold poll_iter, ask_logs. rewrite Hb, Hs, H1, H2. cbn. rewrite Hl. cbn.
  split; [done|]. unfold cursor. cbn. rewrite Hf, H2. split; [done|].
  intros current from' to'. unfold next_range. cbn. rewrite Hf, H2. cbn. case_match; [done|]. by intros [= <- _].
Qed.

(** A step of zero blocks never advances: the ranges asked for are empty. *)
Lemma zero_step_stalls {Ext} (p : Producer (Ext := Ext)) t current from to :
  step (p_config p) = 0 → f_to_block (p_filter p) = Some t → 0 ≤ t < 2 ^ 63 →
  next_range p current = Some (from, to) → from = t + 1 ∧ to = t.
Proof.
  intros Hs Ht Hr. unfold next_range. rewrite Ht, Hs. cbn. unfold u64_sat_sub, u64_sat_add, u64_max.
  case_match eqn:Hlt; [done|]. to_prop. intros [= <- <-]. lia.
Qed.

(** ** Witnesses *)

Definition example_chain_evm (n : Z) : list Log :=
  if n =? 5 then [mkLog (replicate 20 1) [replicate 32 9] [] (Some 5) None None (Some 0)] else [].

Definition example_oracle : Oracle (E := unit) :=
  mkOracle true (Some (Ok 20)) (λ from to, Some (Ok (blocks example_chain_evm from to))).

Definition example_producer : Producer (Ext := EvmExt) :=
  mkProducer (polling_filter 0 1) from_genesis (Idle 1000) [].

Lemma example_chain_evm_ok n : Forall (λ log, block_number log = Some n) (example_chain_evm n).
Proof. unfold example_chain_evm. destruct (Z.eqb_spec n 5) as [->|]; by repeat constructor. Qed.

Lemma polling_exactly_once_witness :
  let '(p, items, fetches) := run polling_filter logs_to_job_calls example_producer (replicate 20 example_oracle) in
  length (delivered_calls items) = 1%nat ∧
  delivered_calls items ++ p_buffer p
  = mjoin ((λ n, logs_to_job_calls (example_chain_evm n)) <$> seqZ 2 (cursor p - 2 + 1)).
Proof.
  pose proof (polling_exactly_once (E := unit) example_chain_evm example_chain_evm_ok from_genesis (Err tt)
    example_producer (replicate 20 example_oracle) eq_refl) as H.
  destruct (run polling_filter logs_to_job_calls example_producer (replicate 20 example_oracle))
    as [[p items] fetches] eqn:Hrun.
  destruct H as [_ H]; [cbn; lia|cbn; lia|cbn; lia| | |].
  - apply Forall_replicate. intros n [= <-]. split; [lia|done].
  - apply Forall_replicate. intros from to r [= <-]. by right.
  - vm_compute in Hrun. injection Hrun as <- <- <-. split; [done|]. apply H. by repeat constructor.
Defined.

Lemma polling_delivery_witness :
  let '(p, items, fetches) := run polling_filter logs_to_job_calls example_producer (replicate 20 example_oracle) in
  contiguous 1 2 fetches (cursor p).
Proof.
  pose proof (polling_delivery (E := unit) polling_filter logs_to_job_calls (λ _ _, eq_refl) from_genesis (Err tt)
    example_producer (replicate 20 example_oracle) eq_refl) as H.
  destruct (run polling_filter logs_to_job_calls example_producer (replicate 20 example_oracle)) as [[p items] fetches].
  destruct H as [H _]; [cbn; lia|cbn; lia|cbn; lia| |exact H].
  apply Forall_replicate. intros n [= <-]. split; [lia|]. exists example_oracle. split; [by left|done].
Defined.

Lemma polling_live_witness :
  ∃ n, 8 ≤ cursor (run polling_filter logs_to_job_calls example_producer ([] ++ replicate n example_oracle)).1.1.
Proof.
  destruct (polling_live (E := unit) polling_filter logs_to_job_calls (λ _ _, eq_refl) from_genesis (Err tt)
    example_producer [] 20 example_oracle eq_refl) as (n & Hn & _).
  - cbn. lia.
  - cbn. lia.
  - cbn. lia.
  - repeat constructor; intros; simplify_eq/=; lia.
  - split_and!; [done..|]. intros from to. by eexists.
  - exists n. exact Hn.
Defined.
