(* ===== verification/EvmConsumer.v ===== *)
(** * The EVM consumers ([evm-extra/src/consumer/mod.rs], [consumer/tangle.rs])

    The consumer of transaction requests and the one that submits job results
    to the Jobs contract.  The second resets its state after a failed
    submission and is the sink of [TangleConsumer]; the first does not, and has
    a machine of its own, in which polling a future that has already returned
    panics. *)

From Stdlib Require Import ZArith Lia.
From stdpp Require Import base gmap sets list sorting strings fin_maps numbers relations.
From S2P Require Import Prelude Bytes JobCore TangleExtract EvmLog EvmExtract TangleConsumer.

#[local] Open Scope Z_scope.

(** ** Sending a transaction *)

(** A receipt: whether the transaction succeeded, and its hash *)
Record Receipt := mkReceipt { rc_status : bool; rc_hash : string }.

Inductive TransportError := TransportFailed (msg : string) | PendingFailed (msg : string).

(** [send_transaction] and [send_submit_result], given what the node answers:
    the status of the receipt is only logged *)
Definition send_transaction (sent : result string unit) (receipt : result string Receipt)
    : result TransportError string :=
  match sent with
  | Err e => Err (TransportFailed e)
  | Ok _ => match receipt with
            | Err e => Err (PendingFailed e)
            | Ok r => Ok (rc_hash r)
            end
  end.

(** ** The consumer of transaction requests *)

Section evm_consumer.
  Context {Tx Error : Type}.

(** [State]: waiting, or holding a future, which may have returned already *)
Inductive EvmState := EvmWaiting | EvmProcessing (tx : Tx) | EvmReturned (tx : Tx).

Record EVMConsumer := mkEvm { evm_buffer : list Tx; evm_state : EvmState }.

Definition evm_new : EVMConsumer := mkEvm [] EvmWaiting.

(** [None] is a panic: a future polled after it returned *)
Abbreviation EvmPoll := (option (@FlushPoll Error)).

(** The loop of [poll_flush] from [WaitingForResult] *)
Fixpoint evm_flush_queue (buffer : list Tx) (outcomes : list (result Error unit))
    : EvmPoll * EVMConsumer * list (Tx * result Error unit) :=
  match buffer with
  | [] => (Some (FlushReady (Ok tt)), mkEvm [] EvmWaiting, [])
  | tx :: buffer =>
    match outcomes with
    | [] => (Some FlushPending, mkEvm buffer (EvmProcessing tx), [])
    | Ok _ :: outcomes =>
        let '(p, s, d) := evm_flush_queue buffer outcomes in (p, s, (tx, Ok tt) :: d)
    | Err e :: _ => (Some (FlushReady (Err e)), mkEvm buffer (EvmReturned tx), [(tx, Err e)])
    end
  end.

(** [EVMConsumer::poll_flush] *)
Definition evm_poll_flush (s : EVMConsumer) (outcomes : list (result Error unit))
    : EvmPoll * EVMConsumer * list (Tx * result Error unit) :=
  match evm_state s with
  | EvmWaiting => evm_flush_queue (evm_buffer s) outcomes
  | EvmReturned _ => (None, s, [])
  | EvmProcessing tx =>
    match outcomes with
    | [] => (Some FlushPending, s, [])
    | Ok _ :: outcomes =>
        let '(p, s, d) := evm_flush_queue (evm_buffer s) outcomes in (p, s, (tx, Ok tt) :: d)
    | Err e :: _ => (Some (FlushReady (Err e)), mkEvm (evm_buffer s) (EvmReturned tx), [(tx, Err e)])
    end
  end.

(** [EVMConsumer::poll_close]: an empty queue is enough *)
Definition evm_poll_close (s : EVMConsumer) (outcomes : list (result Error unit))
    : EvmPoll * EVMConsumer * list (Tx * result Error unit) :=
  if bool_decide (evm_buffer s = []) then (Some (FlushReady (Ok tt)), s, []) else evm_poll_flush s outcomes.

(** [EVMConsumer::start_send]: the body of the result is a transaction in JSON *)
Definition evm_start_send {F} (from_json : list Byte8 → result F Tx) (item : JobResult F) (s : EVMConsumer)
    : result F EVMConsumer :=
  match item with
  | JobErr e => Err e
  | JobOk _ body => tx ← from_json body; Ok (mkEvm (evm_buffer s ++ [tx]) (evm_state s))
  end.

End evm_consumer.

(** ** The consumer of job results *)

(** [TangleConsumer::start_send] of the EVM crate *)
Definition evm_tangle_start_send {E} (item : JobResult E) : result string (option DerivedJobResult) :=
  match item with
  | JobErr _ => Ok None
  | JobOk m body =>
    match m !! EvmServiceId_KEY, m !! EvmCallId_KEY with
    | Some service_id_raw, Some call_id_raw =>
        service_id ← ok_or (mv_try_u64 service_id_raw) "Invalid service_id"%string;
        call_id ← ok_or (mv_try_u64 call_id_raw) "Invalid call_id"%string;
        Ok (Some (mkDerived service_id call_id body))
    | _, _ => Ok None
    end
  end.

(** [TangleConsumer::poll_close] of the EVM crate *)
Definition evm_tangle_poll_close {Item Error} (s : Sink Item) (outcomes : list (result Error unit))
    : FlushPoll * Sink Item * list (Item * result Error unit) :=
  if bool_decide (sink_buffer s = []) then (FlushReady (Ok tt), s, []) else poll_flush s outcomes.

(** ** Behaviour *)

(** A transaction that was included and reverted counts as a success. *)
Lemma reverted_counts_as_success h : send_transaction (Ok tt) (Ok (mkReceipt false h)) = Ok h.
Proof. done. Qed.

Lemma evm_flush_queue_err {Tx Error} (buffer : list Tx) (outcomes : list (result Error unit)) e s d :
  evm_flush_queue buffer outcomes = (Some (FlushReady (Err e)), s, d) → ∃ tx, evm_state s = EvmReturned tx.
Proof.
  revert outcomes d. induction buffer as [|tx buffer IH]; intros out d H; cbn in H; [done|].
  destruct out as [|[[]|e'] out]; [done| |simplify_eq; by eexists].
  destruct (evm_flush_queue buffer out) as [[p s'] d'] eqn:Hf. simplify_eq. by eapply IH.
Qed.

(** One failed transaction ends the consumer of transaction requests: after a
    flush has reported the error, every further flush panics, and so does
    closing it unless nothing is queued. *)
Theorem evm_consumer_panics_after_error {Tx Error} (s : EVMConsumer (Tx := Tx)) (outcomes : list (result Error unit)) e s' d :
  evm_poll_flush s outcomes = (Some (FlushReady (Err e)), s', d) →
  ∀ later : list (result Error unit), (evm_poll_flush s' later).1.1 = None ∧
    (evm_buffer s' ≠ [] → (evm_poll_close s' later).1.1 = None).
Proof.
  intros H. assert (∃ tx, evm_state s' = EvmReturned tx) as [tx Htx].
  { unfold evm_poll_flush in H. destruct (evm_state s) as [|tx|tx] eqn:Hs; [by eapply evm_flush_queue_err| |done].
    destruct outcomes as [|[[]|e'] out]; [done| |simplify_eq; by eexists].
    destruct (evm_flush_queue (evm_buffer s) out) as [[p s1] d1] eqn:Hf. simplify_eq.
    by eapply evm_flush_queue_err. }
  intros later. assert (evm_poll_flush s' later = (None, s', [])) as Hp by (unfold evm_poll_flush; by rewrite Htx).
  split; [by rewrite Hp|]. intros Hb. unfold evm_poll_close. rewrite bool_decide_eq_false_2 by done. by rewrite Hp.
Qed.

(** Closing either consumer succeeds while a submission is still in flight. *)
Lemma evm_close_ignores_submission {Item Error} (item : Item) (outcomes : list (result Error unit)) :
  evm_tangle_poll_close (mkSink [] (ProcessingSubmission item)) outcomes
  = (FlushReady (Ok tt), mkSink [] (ProcessingSubmission item), []) ∧
  evm_poll_close (mkEvm [] (EvmProcessing item)) outcomes
  = (Some (FlushReady (Ok tt)), mkEvm [] (EvmProcessing item), []).
Proof. done. Qed.

(** The submission layer forwards the identifiers under the keys of the Tangle
    extractors, and nothing forwards those of the EVM extractors: a result of a
    handler that does not set them itself is dropped by the EVM consumer. *)
Lemma evm_result_dropped {E F} (service : JobCall EvmExt → result F (option (JobResult E))) call m b r :
  service call = Ok (Some (JobOk m b)) → m !! EvmServiceId_KEY = None →
  service call = Ok (Some r) ∨ submission_call service call = Ok (Some r) →
  evm_tangle_start_send r = Ok None.
Proof.
  intros Hs Hm [Hr|Hr].
  - assert (r = JobOk m b) as -> by congruence. unfold evm_tangle_start_send. by rewrite Hm.
  - rewrite submission_call_spec, Hs in Hr. repeat case_match; try done. cbn in Hr. simplify_eq.
    unfold evm_tangle_start_send. cbn. by rewrite !lookup_insert_ne, Hm.
Qed.

Lemma evm_consumer_panics_after_error_witness :
  (evm_poll_flush (Tx := Z) (Error := unit) (mkEvm [] (EvmReturned 1)) [Ok tt]).1.1 = None.
Proof.
  by apply (evm_consumer_panics_after_error (Tx := Z) (Error := unit) (mkEvm [1] EvmWaiting) [Err tt] tt
    (mkEvm [] (EvmReturned 1)) [(1, Err tt)]).
Defined.
