(* ===== verification/X402Config.v ===== *)
(** * Configuration of the payment gateway ([x402/src/config.rs], [settlement.rs], [error.rs])

    Tokens, invocation policies and their validation, and the conversion of
    prices to token amounts.  [DecimalOps] stands for the [rust_decimal] crate,
    whose operations panic ([None]) on overflow; [ParseAddress] for the parser
    of EVM addresses of [alloy].  Texts are those the code formats. *)

From Stdlib Require Import ZArith Lia Ascii.
From stdpp Require Import base gmap sets list sorting strings pretty fin_maps numbers relations.
From S2P Require Import Prelude Text Bytes.

#[local] Open Scope Z_scope.

(** ** Data *)

Inductive X402Error :=
| ConfigError (msg : string)
| QuoteNotFound (msg : string)
| PaymentVerification (msg : string)
| PriceConversion (msg : string)
| JobNotAvailable (service_id job_index : Z)
| X402ServerError (msg : string)
| ProducerChannelClosed
| IoError (msg : string)
| TomlParse (msg : string)
| MppError (msg : string).

(** The [Display] texts derived by [thiserror] *)
Definition display_x402_error (e : X402Error) : string :=
  match e with
  | ConfigError m => "x402 config error: " +:+ m
  | QuoteNotFound m => "quote not found or expired: " +:+ m
  | PaymentVerification m => "payment verification failed: " +:+ m
  | PriceConversion m => "price conversion error: " +:+ m
  | JobNotAvailable sid idx =>
      "job not available: service_id=" +:+ pretty sid +:+ " job_index=" +:+ pretty idx
  | X402ServerError m => "server error: " +:+ m
  | ProducerChannelClosed => "producer channel closed"
  | IoError m | TomlParse m => m
  | MppError m => "mpp error: " +:+ m
  end.

Inductive X402InvocationMode := Disabled | PublicPaid | RestrictedPaid.
Inductive X402CallerAuthMode := PayerIsCaller | DelegatedCallerSignature | PaymentOnly.

#[export] Instance X402InvocationMode_eq_dec : EqDecision X402InvocationMode.
Proof. solve_decision. Defined.
#[export] Instance X402CallerAuthMode_eq_dec : EqDecision X402CallerAuthMode.
Proof. solve_decision. Defined.

Record JobPolicyConfig := mkPolicy {
  jp_service_id : Z;
  jp_job_index : Z;
  invocation_mode : X402InvocationMode;
  auth_mode : X402CallerAuthMode;
  tangle_rpc_url : option string;
  tangle_contract : option string;
}.

Definition policy_key (p : JobPolicyConfig) : Z * Z := (jp_service_id p, jp_job_index p).

Record MppConfig := mkMpp { realm : string; secret_key : string; challenge_ttl_secs : Z }.

Inductive PaymentProtocol := ProtoX402 | ProtoMpp.

#[export] Instance PaymentProtocol_eq_dec : EqDecision PaymentProtocol.
Proof. solve_decision. Defined.

(** [PaymentProtocol::as_str] *)
Definition protocol_as_str (p : PaymentProtocol) : string :=
  match p with ProtoX402 => "x402" | ProtoMpp => "mpp" end.

(** Arithmetic of [rust_decimal] *)
Class DecimalOps := {
  Dec : Type;
  dec_from_str_exact : string → result string Dec;
  dec_from : Z → Dec;
  dec_add : Dec → Dec → option Dec;
  dec_mul : Dec → Dec → option Dec;
  dec_div : Dec → Dec → option Dec;
  dec_floor : Dec → Dec;
  dec_leb : Dec → Dec → bool;
  dec_to_string : Dec → string;
}.

(** [str::parse::<Address>] *)
Class ParseAddress := { parse_address : string → option (list Byte8) }.

Section config.
  Context `{DecimalOps} `{ParseAddress}.

Record AcceptedToken := mkToken {
  network : string;
  asset : string;
  symbol : string;
  decimals : Z;
  pay_to : string;
  rate_per_native_unit : Dec;
  markup_bps : Z;
  transfer_method : string;
  eip3009_name : option string;
  eip3009_version : option string;
}.

Record X402Config := mkX402 {
  bind_address : string;
  facilitator_url : string;
  quote_ttl_secs : Z;
  accepted_tokens : list AcceptedToken;
  default_invocation_mode : X402InvocationMode;
  job_policies : list JobPolicyConfig;
  x_service_id : Z;
  mpp : option MppConfig;
}.

Record SettlementOption := mkSettlement {
  so_protocol : PaymentProtocol;
  so_network : string;
  so_asset : string;
  so_symbol : string;
  so_amount : string;
  so_pay_to : string;
  so_scheme : string;
  so_endpoint : string;
}.

(** ** Prices *)

(** [AcceptedToken::convert_wei_to_amount]; [10u64.pow] wraps around *)
Definition convert_wei_to_amount (t : AcceptedToken) (wei_price : Z) : option (result X402Error string) :=
  match dec_from_str_exact (pretty wei_price) with
  | Err e => Some (Err (PriceConversion ("wei to decimal: " +:+ e)))
  | Ok wei_decimal =>
      native_amount ← dec_div wei_decimal (dec_from (10 ^ 18));
      token_amount ← dec_mul native_amount (rate_per_native_unit t);
      markup ← dec_div (dec_from (markup_bps t)) (dec_from 10000);
      markup_multiplier ← dec_add (dec_from 1) markup;
      final_amount ← dec_mul token_amount markup_multiplier;
      smallest_units ← dec_mul final_amount (dec_from (u64_wrap (10 ^ decimals t)));
      Some (Ok (dec_to_string (dec_floor smallest_units)))
  end.

(** The options for a list of tokens: the first failed conversion wins *)
Fixpoint settlement_options_for (protocol : PaymentProtocol) (scheme endpoint : string) (price_wei : Z)
    (tokens : list AcceptedToken) : option (result X402Error (list SettlementOption)) :=
  match tokens with
  | [] => Some (Ok [])
  | t :: tokens =>
    match convert_wei_to_amount t price_wei with
    | None => None
    | Some (Err e) => Some (Err e)
    | Some (Ok amount) =>
      match settlement_options_for protocol scheme endpoint price_wei tokens with
      | Some (Ok os) =>
          Some (Ok (mkSettlement protocol (network t) (asset t) (symbol t) amount (pay_to t) scheme endpoint :: os))
      | r => r
      end
    end
  end.

(** [X402Gateway::settlement_options] *)
Definition settlement_options (c : X402Config) (service_id job_index price_wei : Z)
    : option (result X402Error (list SettlementOption)) :=
  settlement_options_for ProtoX402 "exact"
    ("http://" +:+ bind_address c +:+ "/x402/jobs/" +:+ pretty service_id +:+ "/" +:+ pretty job_index)
    price_wei (accepted_tokens c).

(** [X402Gateway::mpp_settlement_options] *)
Definition mpp_settlement_options (c : X402Config) (service_id job_index price_wei : Z)
    : option (result X402Error (list SettlementOption)) :=
  settlement_options_for ProtoMpp "charge"
    ("http://" +:+ bind_address c +:+ "/mpp/jobs/" +:+ pretty service_id +:+ "/" +:+ pretty job_index)
    price_wei (accepted_tokens c).

(** ** Validation *)

Definition token_error (t : AcceptedToken) (msg : string) : result X402Error unit :=
  Err (ConfigError ("token " +:+ symbol t +:+ msg)).

(** [AcceptedToken::validate] *)
Definition token_validate (t : AcceptedToken) : result X402Error unit :=
  match strip_prefix "eip155:" (network t) with
  | None => token_error t (": network must start with 'eip155:', got '" +:+ network t +:+ "'")
  | Some chain_str =>
    match parse_u64 chain_str with
    | None => token_error t (": invalid chain ID in network '" +:+ network t +:+ "': '" +:+ chain_str
                               +:+ "' is not a valid u64")
    | Some _ =>
      match parse_address (asset t) with
      | None => token_error t (" on " +:+ network t +:+ ": invalid asset address '" +:+ asset t +:+ "'")
      | Some _ =>
        match parse_address (pay_to t) with
        | None => token_error t (" on " +:+ network t +:+ ": invalid pay_to address '" +:+ pay_to t +:+ "'")
        | Some _ =>
            if dec_leb (rate_per_native_unit t) (dec_from 0)
            then token_error t (" on " +:+ network t +:+ ": rate_per_native_unit must be positive, got "
                                  +:+ dec_to_string (rate_per_native_unit t))
            else Ok tt
        end
      end
    end
  end.

Definition policy_text (p : JobPolicyConfig) : string :=
  "service_id=" +:+ pretty (jp_service_id p) +:+ " job_index=" +:+ pretty (jp_job_index p).

Definition restricted_error (p : JobPolicyConfig) (msg : string) : result X402Error unit :=
  Err (ConfigError ("restricted_paid policy for " +:+ policy_text p +:+ msg)).

(** The checks on a policy that is not a duplicate *)
Definition policy_validate (p : JobPolicyConfig) : result X402Error unit :=
  if negb (bool_decide (invocation_mode p = RestrictedPaid)) then Ok tt
  else if bool_decide (auth_mode p = PaymentOnly) then restricted_error p " cannot use auth_mode=payment_only"
  else match tangle_rpc_url p with
       | None => restricted_error p " requires tangle_rpc_url"
       | Some _ =>
         match tangle_contract p with
         | None => restricted_error p " requires tangle_contract"
         | Some contract =>
           match parse_address contract with
           | None => restricted_error p (" has invalid tangle_contract='" +:+ contract +:+ "'")
           | Some _ => Ok tt
           end
         end
       end.

(** The loop over the policies, with the keys seen so far *)
Fixpoint policies_validate (seen : gset (Z * Z)) (ps : list JobPolicyConfig) : result X402Error unit :=
  match ps with
  | [] => Ok tt
  | p :: ps =>
      if bool_decide (policy_key p ∈ seen)
      then Err (ConfigError ("duplicate job policy for " +:+ policy_text p))
      else _ ← policy_validate p; policies_validate ({[ policy_key p ]} ∪ seen) ps
  end.

Definition MPP_FORBIDDEN_SECRETS : list string :=
  [ "0123456789abcdef0123456789abcdef0123456789abcdef0123456789abcdef";
    "0123456789abcdef0123456789abcdef";
    "deadbeefdeadbeefdeadbeefdeadbeefdeadbeefdeadbeefdeadbeefdeadbeef";
    "cafebabecafebabecafebabecafebabecafebabecafebabecafebabecafebabe" ].

Definition MPP_MIN_UNIQUE_BYTES : Z := 16.

(** The number of distinct bytes *)
Definition unique_byte_count (s : string) : Z := Z.of_nat (length (remove_dups (chars s))).

Definition normalized_secret (m : MppConfig) : string := to_ascii_lowercase (trim (secret_key m)).

(** The checks of the [mpp] section, in their order *)
Definition mpp_validate (quote_ttl : Z) (m : MppConfig) : result X402Error unit :=
  let secret := normalized_secret m in
  let len := Z.of_nat (String.length secret) in
  if bool_decide (trim (realm m) = EmptyString) then Err (ConfigError "mpp.realm must not be empty")
  else if existsb is_control (chars (realm m)) then
    Err (ConfigError "mpp.realm must not contain control characters (CR, LF, NUL, etc.)")
  else if len <? 32 then
    Err (ConfigError ("mpp.secret_key must be at least 32 bytes after trim (got " +:+ pretty len +:+ ")"))
  else if negb (forallb is_hexdigit (chars secret)) then
    Err (ConfigError "mpp.secret_key must be lowercase hex (generate with `openssl rand -hex 32`)")
  else if len <? 64 then
    Err (ConfigError ("mpp.secret_key must be at least 64 hex characters (32 bytes); got " +:+ pretty len))
  else if bool_decide (secret ∈ MPP_FORBIDDEN_SECRETS) then
    Err (ConfigError "mpp.secret_key matches a known example/demo value; generate a fresh key with `openssl rand -hex 32` before going to production")
  else if unique_byte_count secret <? MPP_MIN_UNIQUE_BYTES then
    Err (ConfigError ("mpp.secret_key has insufficient entropy: only " +:+ pretty (unique_byte_count secret)
      +:+ " distinct bytes (need ≥ 16). Generate with `openssl rand -hex 32`."))
  else if challenge_ttl_secs m =? 0 then Err (ConfigError "mpp.challenge_ttl_secs must be > 0")
  else if quote_ttl <? challenge_ttl_secs m then
    Err (ConfigError ("mpp.challenge_ttl_secs (" +:+ pretty (challenge_ttl_secs m)
      +:+ ") must be <= quote_ttl_secs (" +:+ pretty quote_ttl
      +:+ ") so MPP challenges expire before their backing quotes"))
  else Ok tt.

(** [X402Config::validate] *)
Definition config_validate (c : X402Config) : result X402Error unit :=
  _ ← try_fold (λ _ t, token_validate t) tt (accepted_tokens c);
  _ ← policies_validate ∅ (job_policies c);
  match mpp c with None => Ok tt | Some m => mpp_validate (quote_ttl_secs c) m end.

(** [validate_price_tag_amount_bounds]; the map is visited in an arbitrary order *)
Definition amount_bound (key : Z * Z) (price_wei : Z) (t : AcceptedToken) : option (result X402Error unit) :=
  match convert_wei_to_amount t price_wei with
  | None => None
  | Some (Err e) => Some (Err e)
  | Some (Ok amount) =>
      Some (match parse_u64 amount with
            | Some _ => Ok tt
            | None => Err (ConfigError ("price-tag amount overflow for service_id=" +:+ pretty key.1
                +:+ " job_index=" +:+ pretty key.2 +:+ " token=" +:+ symbol t +:+ " network=" +:+ network t
                +:+ " amount=" +:+ amount +:+ " (must fit u64)"))
            end)
  end.

Fixpoint check_all {A} (f : A → option (result X402Error unit)) (l : list A) : option (result X402Error unit) :=
  match l with
  | [] => Some (Ok tt)
  | x :: l => match f x with Some (Ok _) => check_all f l | r => r end
  end.

Definition validate_price_tag_amount_bounds (c : X402Config) (job_pricing : gmap (Z * Z) Z)
    : option (result X402Error unit) :=
  check_all (λ e, check_all (amount_bound e.1 e.2) (accepted_tokens c)) (map_to_list job_pricing).

(** ** What validation accepts *)

Definition token_ok (t : AcceptedToken) : Prop :=
  (∃ chain id, network t = "eip155:" +:+ chain ∧ parse_u64 chain = Some id) ∧
  is_Some (parse_address (asset t)) ∧ is_Some (parse_address (pay_to t)) ∧
  dec_leb (rate_per_native_unit t) (dec_from 0) = false.

Definition policy_ok (p : JobPolicyConfig) : Prop :=
  invocation_mode p = RestrictedPaid →
  auth_mode p ≠ PaymentOnly ∧ is_Some (tangle_rpc_url p) ∧
  ∃ contract, tangle_contract p = Some contract ∧ is_Some (parse_address contract).

(** A secret of at least 64 hexadecimal digits, all sixteen of them used, that
    is not the demo key with that property *)
Definition secret_ok (s : string) : Prop :=
  (64 ≤ String.length s)%nat ∧ Forall (λ a, is_hexdigit a = true) (chars s) ∧
  16 ≤ unique_byte_count s ∧ s ∉ MPP_FORBIDDEN_SECRETS.

Definition mpp_ok (quote_ttl : Z) (m : MppConfig) : Prop :=
  trim (realm m) ≠ EmptyString ∧ Forall (λ a, is_control a = false) (chars (realm m)) ∧
  secret_ok (normalized_secret m) ∧ challenge_ttl_secs m ≠ 0 ∧ challenge_ttl_secs m ≤ quote_ttl.

Lemma token_validate_ok t : token_validate t = Ok tt ↔ token_ok t.
Proof.
  unfold token_validate, token_ok, token_error.
  destruct (strip_prefix "eip155:" (network t)) as [chain|] eqn:Hp.
  - apply strip_prefix_some in Hp.
    destruct (parse_u64 chain) as [id|] eqn:Hc; cycle 1.
    { split; [done|]. intros [(c & id & Hn & Hi) _]. rewrite Hp in Hn. cbn in Hn. simplify_eq. }
    destruct (parse_address (asset t)); [|split; [done|]; by intros (_ & [? ?] & _)].
    destruct (parse_address (pay_to t)); [|split; [done|]; by intros (_ & _ & [? ?] & _)].
    destruct (dec_leb _ _); split; try done; [by intros (_ & _ & _ & ?)|]. intros _. eauto 10.
  - split; [done|]. intros [(c & id & Hn & _) _].
    by rewrite (proj2 (strip_prefix_some _ _ c) Hn) in Hp.
Qed.

Lemma policy_validate_ok p : policy_validate p = Ok tt ↔ policy_ok p.
Proof.
  unfold policy_validate, policy_ok, restricted_error.
  case_bool_decide as Hm; cbn [negb]; [|by split].
  case_bool_decide as Ha; [by split; [|intros Hok; destruct (Hok Hm)]|].
  destruct (tangle_rpc_url p); [|split; [done|]; intros Hok; by destruct (Hok Hm) as (_ & [? ?] & _)].
  destruct (tangle_contract p) as [contract|];
    [|split; [done|]; intros Hok; by destruct (Hok Hm) as (_ & _ & ? & ? & _)].
  destruct (parse_address contract) eqn:Hc; [by split; eauto 10|].
  split; [done|]. intros Hok. destruct (Hok Hm) as (_ & _ & ? & [= <-] & [? ?]). congruence.
Qed.

Lemma policies_validate_ok seen ps :
  policies_validate seen ps = Ok tt ↔
  NoDup (policy_key <$> ps) ∧ Forall policy_ok ps ∧ Forall (λ p, policy_key p ∉ seen) ps.
Proof.
  revert seen. induction ps as [|p ps IH]; intros seen; cbn [policies_validate fmap list_fmap].
  - split; [|done]. intros _. repeat split; constructor.
  - rewrite NoDup_cons, !Forall_cons, list_elem_of_fmap. case_bool_decide as Hin; [split; [done|]; by intros (_ & _ & [? _])|].
    destruct (policy_validate p) as [[]|e] eqn:Hp; cbn [mbind result_bind]; cycle 1.
    { split; [done|]. intros (_ & [Hok%policy_validate_ok _] & _). congruence. }
    apply policy_validate_ok in Hp. rewrite IH, !list.Forall_forall. split.
    + intros (Hnd & Hok & Hs). split; [split; [|done]|split; [done|split; [done|]]].
      * intros (q & Hk & Hq). apply Hs, not_elem_of_union in Hq as [Hq _].
        by rewrite Hk, not_elem_of_singleton in Hq.
      * intros q Hq. by apply Hs, not_elem_of_union in Hq as [_ ?].
    + intros ([Hn Hnd] & [_ Hok] & [_ Hs]). split; [done|split; [done|]]. intros q Hq.
      apply not_elem_of_union. split; [|by apply Hs]. apply not_elem_of_singleton. intros Hk. apply Hn. by exists q.
Qed.

Lemma existsb_false_Forall {A} (f : A → bool) l : existsb f l = false ↔ Forall (λ a, f a = false) l.
Proof.
  induction l as [|a l IH]; cbn; [by split|].
  rewrite orb_false_iff, Forall_cons, IH. done.
Qed.

Lemma forallb_true_Forall {A} (f : A → bool) l : forallb f l = true ↔ Forall (λ a, f a = true) l.
Proof.
  induction l as [|a l IH]; cbn; [by split|].
  rewrite andb_true_iff, Forall_cons, IH. done.
Qed.

Lemma mpp_validate_ok ttl m : mpp_validate ttl m = Ok tt ↔ mpp_ok ttl m.
Proof.
  unfold mpp_validate, mpp_ok, secret_ok. case_bool_decide as Hr; [by split; [|intros [? _]]|].
  rewrite <-existsb_false_Forall, <-forallb_true_Forall.
  destruct (existsb _ _); [by split; [|intros (_ & ? & _)]|].
  destruct (forallb is_hexdigit (chars (normalized_secret m))); cbn [negb];
    [|destruct (_ <? 32); by split; [|intros (_ & _ & (_ & ? & _) & _)]].
  destruct (Z.ltb_spec (Z.of_nat (String.length (normalized_secret m))) 32);
    [split; [done|]; intros (_ & _ & (? & _) & _); lia|].
  destruct (Z.ltb_spec (Z.of_nat (String.length (normalized_secret m))) 64);
    [split; [done|]; intros (_ & _ & (? & _) & _); lia|].
  case_bool_decide as Hf; [by split; [|intros (_ & _ & (_ & _ & _ & ?) & _)]|].
  unfold MPP_MIN_UNIQUE_BYTES. destruct (Z.ltb_spec (unique_byte_count (normalized_secret m)) 16);
    [split; [done|]; intros (_ & _ & (_ & _ & ? & _) & _); lia|].
  destruct (Z.eqb_spec (challenge_ttl_secs m) 0); [by split; [|intros (_ & _ & _ & ? & _)]|].
  destruct (Z.ltb_spec ttl (challenge_ttl_secs m)); split; try done; [intros (_ & _ & _ & _ & ?); lia|].
  intros _. do 2 (split; [done|]). split; [|done]. split; [lia|done].
Qed.

Lemma try_fold_unit {A E} (f : A → result E unit) l :
  try_fold (λ _ a, f a) tt l = Ok tt ↔ Forall (λ a, f a = Ok tt) l.
Proof.
  induction l as [|a l IH]; cbn [try_fold]; [by split|].
  rewrite Forall_cons, <-IH. destruct (f a) as [[]|e]; cbn [mbind result_bind]; naive_solver.
Qed.

(** Validation accepts exactly the configurations whose tokens name an EVM chain
    and well-formed addresses and have a positive rate, whose policies are for
    different jobs, whose restricted policies say how the caller is known and
    which contract is asked, and whose MPP section is safe to use. *)
Lemma config_validate_ok c :
  config_validate c = Ok tt ↔
  Forall token_ok (accepted_tokens c) ∧ NoDup (policy_key <$> job_policies c) ∧
  Forall policy_ok (job_policies c) ∧ (∀ m, mpp c = Some m → mpp_ok (quote_ttl_secs c) m).
Proof.
  unfold config_validate.
  assert (Forall token_ok (accepted_tokens c) ↔ try_fold (λ _ t, token_validate t) tt (accepted_tokens c) = Ok tt)
    as -> by (rewrite try_fold_unit; apply Forall_iff; intros; by rewrite token_validate_ok).
  destruct (try_fold _ _ _) as [[]|e] eqn:Ht; cbn [mbind result_bind]; [|naive_solver].
  assert (NoDup (policy_key <$> job_policies c) ∧ Forall policy_ok (job_policies c) ↔
    policies_validate ∅ (job_policies c) = Ok tt) as Hp.
  { rewrite policies_validate_ok, (list.Forall_forall (λ p, policy_key p ∉ _)). set_solver. }
  destruct (policies_validate ∅ (job_policies c)) as [[]|e]; cbn [mbind result_bind]; [|naive_solver].
  destruct (mpp c) as [m|]; [rewrite mpp_validate_ok|]; naive_solver.
Qed.

End config.
Arguments AcceptedToken : clear implicits.
Arguments AcceptedToken {_}.
Arguments X402Config : clear implicits.
Arguments X402Config {_}.

(** ** The entropy check of the MPP secret *)

Definition hex_digits : list ascii := chars "0123456789abcdef".

Lemma lower_hexdigit a : is_hexdigit (ascii_lower a) = true → ascii_lower a ∈ hex_digits.
Proof.
  intros Ha. apply (bool_decide_eq_true_1 (ascii_lower a ∈ hex_digits)). revert Ha.
  destruct a as [[] [] [] [] [] [] [] []]; vm_compute; congruence.
Qed.

Lemma chars_lower s : chars (to_ascii_lowercase s) = ascii_lower <$> chars s.
Proof. induction s as [|a s IH]; cbn; [done|]. by rewrite IH. Qed.

(** The check that at least sixteen distinct bytes occur looks at the characters
    of the hexadecimal text, of which there are sixteen: an accepted secret uses
    every digit, and a random key that misses one is refused. *)
Lemma secret_uses_every_digit ttl m d :
  mpp_validate ttl m = Ok tt → d ∈ hex_digits → d ∈ chars (normalized_secret m).
Proof.
  intros Hv Hd. apply mpp_validate_ok in Hv as (_ & _ & (_ & Hhex & Hcount & _) & _).
  unfold unique_byte_count, normalized_secret in *. rewrite chars_lower in *.
  set (l := ascii_lower <$> chars (trim (secret_key m))) in *.
  assert (remove_dups l ⊆+ hex_digits) as Hsub.
  { apply NoDup_submseteq; [apply NoDup_remove_dups|]. intros a Ha. rewrite elem_of_remove_dups in Ha.
    rewrite list.Forall_forall in Hhex. pose proof (Hhex a Ha) as Hx.
    unfold l in Ha. apply list_elem_of_fmap in Ha as (b & -> & _). by apply lower_hexdigit. }
  assert (remove_dups l ≡ₚ hex_digits) as Hperm
    by (apply submseteq_length_Permutation; [done|]; change (length hex_digits) with 16%nat; lia).
  rewrite <-elem_of_remove_dups, Hperm. done.
Qed.

(** The secret in the documentation of [X402Config] is refused. *)
Lemma documented_secret_refused ttl ttl' :
  mpp_validate ttl (mkMpp "blueprint.example.com" "0123456789abcdef0123456789abcdef" ttl')
  = Err (ConfigError "mpp.secret_key must be at least 64 hex characters (32 bytes); got 32").
Proof. reflexivity. Qed.
