(* ===== verification/X402Quotes.v ===== *)
(** * Quotes and verified payments ([x402/src/quote_registry.rs], [producer.rs])

    The registry of outstanding quotes, the payment that a paid request becomes,
    and the producer that turns queued payments into job calls.  [Keccak] stands
    for the hash of [alloy]; the clocks are arguments. *)

From Stdlib Require Import ZArith Lia Ascii.
From stdpp Require Import base gmap sets list sorting strings fin_maps numbers relations.
From S2P Require Import Prelude Text Bytes JobCore Hex TangleExtract.

#[local] Open Scope Z_scope.

(** ** The registry *)

Record QuoteEntry := mkQuote {
  q_service_id : Z;
  q_job_index : Z;
  q_price_wei : Z;
  q_created_at : Instant;
  q_expires_at : Instant;
  consumed : bool;
}.

Record QuoteRegistry := mkRegistry {
  q_entries : gmap (list Byte8) QuoteEntry;
  q_default_ttl : Duration;
}.

(** [QuoteRegistry::new], [QuoteRegistry::insert] *)
Definition registry_new (t : Duration) : QuoteRegistry := mkRegistry ∅ t.
Definition quote_insert (digest : list Byte8) (e : QuoteEntry) (r : QuoteRegistry) : QuoteRegistry :=
  mkRegistry (<[digest := e]> (q_entries r)) (q_default_ttl r).

(** The bytes hashed to the digest of a dynamic quote *)
Definition digest_input (service_id job_index price_wei timestamp : Z) : list Byte8 :=
  to_be_bytes 8 service_id ++ to_be_bytes 4 job_index ++ to_be_bytes 32 price_wei ++ to_be_bytes 16 timestamp.

(** [QuoteRegistry::insert_dynamic], given the instant and the wall clock *)
Definition insert_dynamic `{Keccak} (now : Instant) (timestamp service_id job_index price_wei : Z)
    (r : QuoteRegistry) : list Byte8 * QuoteRegistry :=
  let entry := mkQuote service_id job_index price_wei now (now + q_default_ttl r) false in
  let digest := tiny_keccak256 (digest_input service_id job_index price_wei timestamp) in
  (digest, quote_insert digest entry r).

(** A quote that can no longer be used at [now] *)
Definition quote_spent (now : Instant) (e : QuoteEntry) : bool := (q_expires_at e <? now) || consumed e.

Definition mark_consumed (e : QuoteEntry) : QuoteEntry :=
  mkQuote (q_service_id e) (q_job_index e) (q_price_wei e) (q_created_at e) (q_expires_at e) true.

(** [QuoteRegistry::get] *)
Definition quote_get (now : Instant) (digest : list Byte8) (r : QuoteRegistry) : option QuoteEntry :=
  e ← q_entries r !! digest; if quote_spent now e then None else Some e.

(** [QuoteRegistry::consume] *)
Definition quote_consume (now : Instant) (digest : list Byte8) (r : QuoteRegistry)
    : option QuoteEntry * QuoteRegistry :=
  match q_entries r !! digest with
  | None => (None, r)
  | Some e =>
      if quote_spent now e then (None, r)
      else (Some (mark_consumed e), quote_insert digest (mark_consumed e) r)
  end.

(** [QuoteRegistry::gc], [QuoteRegistry::active_count] *)
Definition quote_live (now : Instant) (e : QuoteEntry) : bool := negb (consumed e) && (now <? q_expires_at e).
Definition quote_gc (now : Instant) (r : QuoteRegistry) : QuoteRegistry :=
  mkRegistry (retain (λ _ e, quote_live now e) (q_entries r)) (q_default_ttl r).
Definition active_count (now : Instant) (r : QuoteRegistry) : Z :=
  Z.of_nat (size (retain (λ _ e, quote_live now e) (q_entries r))).

(** *** Runs *)

Inductive QuoteOp :=
| QInsert (digest : list Byte8) (e : QuoteEntry)
| QConsume (now : Instant) (digest : list Byte8)
| QGet (now : Instant) (digest : list Byte8)
| QGc (now : Instant).

(** An operation, with the digest it has consumed and the time of that *)
Definition quote_step (r : QuoteRegistry) (op : QuoteOp) : QuoteRegistry * list (list Byte8 * Instant) :=
  match op with
  | QInsert digest e => (quote_insert digest e r, [])
  | QConsume now digest =>
      match quote_consume now digest r with
      | (Some _, r) => (r, [(digest, now)])
      | (None, r) => (r, [])
      end
  | QGet _ _ => (r, [])
  | QGc now => (quote_gc now r, [])
  end.

Fixpoint quote_run (r : QuoteRegistry) (ops : list QuoteOp) : QuoteRegistry * list (list Byte8 * Instant) :=
  match ops with
  | [] => (r, [])
  | op :: ops =>
      let '(r, c) := quote_step r op in
      let '(r, cs) := quote_run r ops in (r, c ++ cs)
  end.

(** ** Payments *)

Definition X402_QUOTE_DIGEST_KEY : string := "X-X402-QUOTE-DIGEST".
Definition X402_PAYMENT_NETWORK_KEY : string := "X-X402-PAYMENT-NETWORK".
Definition X402_PAYMENT_TOKEN_KEY : string := "X-X402-PAYMENT-TOKEN".
Definition X402_ORIGIN_KEY : string := "X-X402-ORIGIN".
Definition X402_SERVICE_ID_KEY : string := "X-TANGLE-SERVICE-ID".
Definition X402_CALL_ID_KEY : string := "X-TANGLE-CALL-ID".
Definition X402_CALLER_KEY : string := "X-TANGLE-CALLER".

Record VerifiedPayment := mkPayment {
  vp_service_id : Z;
  vp_job_index : Z;
  vp_job_args : list Byte8;
  vp_quote_digest : list Byte8;
  vp_network : string;
  vp_token : string;
  vp_call_id : Z;
  vp_caller : option (list Byte8);
}.

(** [VerifiedPayment::into_job_call] *)
Definition into_job_call (p : VerifiedPayment) : JobCall unit :=
  let m : MetadataMap := ∅ in
  let m := <[X402_ORIGIN_KEY := mv_from_bytes (str_bytes "x402")]> m in
  let m := <[X402_QUOTE_DIGEST_KEY := mv_from_bytes (vp_quote_digest p)]> m in
  let m := <[X402_PAYMENT_NETWORK_KEY := mv_from_bytes (str_bytes (vp_network p))]> m in
  let m := <[X402_PAYMENT_TOKEN_KEY := mv_from_bytes (str_bytes (vp_token p))]> m in
  let m := <[X402_SERVICE_ID_KEY := mv_from_u64 (vp_service_id p)]> m in
  let m := <[X402_CALL_ID_KEY := mv_from_u64 (vp_call_id p)]> m in
  let m := match vp_caller p with Some c => <[X402_CALLER_KEY := mv_from_bytes c]> m | None => m end in
  job_call_from_parts (with_metadata m (mkParts (JobId_from_number (vp_job_index p)) ∅ tt)) (vp_job_args p).

(** [X402Producer::poll_next] over the queue of the channel; [open_] says
    whether a sender is left *)
Inductive ProducerPoll := ProducerReady (call : JobCall unit) | ProducerPending | ProducerEnd.

Definition x402_poll_next (open_ : bool) (queue : list VerifiedPayment) : ProducerPoll * list VerifiedPayment :=
  match queue with
  | p :: queue => (ProducerReady (into_job_call p), queue)
  | [] => (if open_ then ProducerPending else ProducerEnd, [])
  end.

(** ** Quotes: theorems *)

(** Inserting [d] anew *)
Definition inserts (d : list Byte8) (op : QuoteOp) : Prop :=
  match op with QInsert d' _ => d' = d | _ => False end.

(** How often a digest can still be consumed *)
Definition uses_left (d : list Byte8) (r : QuoteRegistry) : nat :=
  match q_entries r !! d with Some e => if consumed e then 0 else 1 | None => 0 end.

Lemma quote_step_uses d r op r' c :
  quote_step r op = (r', c) → ¬ inserts d op →
  (length (filter (λ x, x.1 = d) c) + uses_left d r' ≤ uses_left d r)%nat.
Proof.
  intros Hstep Hop. unfold uses_left. destruct op as [d' e|now d'|now d'|now]; cbn in Hstep, Hop.
  - simplify_eq. cbn. by rewrite lookup_insert_ne.
  - unfold quote_consume in Hstep. destruct (q_entries r !! d') as [e|] eqn:He; [|by simplify_eq].
    destruct (quote_spent now e) eqn:Hs; [by simplify_eq|]. simplify_eq. cbn [q_entries quote_insert].
    apply orb_false_iff in Hs as [_ Hs]. destruct (decide (d' = d)) as [->|Hne].
    + rewrite filter_cons_True by done. by rewrite lookup_insert_eq, He, Hs.
    + rewrite filter_cons_False by done. by rewrite lookup_insert_ne.
  - by simplify_eq.
  - simplify_eq. cbn [q_entries quote_gc]. destruct (retain _ _ !! d) as [e|] eqn:He; [|cbn; lia].
    apply retain_lookup_Some in He as [-> _]. done.
Qed.

Lemma quote_run_uses d r ops r' c :
  quote_run r ops = (r', c) → Forall (λ op, ¬ inserts d op) ops →
  (length (filter (λ x, x.1 = d) c) + uses_left d r' ≤ uses_left d r)%nat.
Proof.
  revert r c. induction ops as [|op ops IH]; intros r c Hrun Hops; cbn in Hrun; [by simplify_eq|].
  destruct (quote_step r op) as [r1 c1] eqn:Hs. destruct (quote_run r1 ops) as [r2 c2] eqn:Hr. simplify_eq.
  apply Forall_cons in Hops as [Hop Hops]. rewrite filter_app, length_app.
  pose proof (quote_step_uses _ _ _ _ _ Hs Hop). pose proof (IH _ _ Hr Hops). lia.
Qed.

(** A quote pays for one request: whatever look-ups, clean-ups and payments
    follow the issue of a quote, it is consumed at most once, as long as its
    digest is not issued again. *)
Lemma quote_paid_once r d e ops r' c :
  quote_run (quote_insert d e r) ops = (r', c) → Forall (λ op, ¬ inserts d op) ops →
  (length (filter (λ x, x.1 = d) c) ≤ 1)%nat.
Proof.
  intros Hrun Hops. pose proof (quote_run_uses _ _ _ _ _ Hrun Hops) as Hle.
  unfold uses_left in Hle. cbn in Hle. rewrite lookup_insert_eq in Hle. destruct (consumed e); lia.
Qed.

(** A quote is consumed right after it was issued, if the clock does not reach
    its end in between. *)
Lemma consume_dynamic `{Keccak} now now' timestamp sid idx price r d r' :
  insert_dynamic now timestamp sid idx price r = (d, r') →
  quote_consume now' d r' =
    if now + q_default_ttl r <? now' then (None, r')
    else let e := mkQuote sid idx price now (now + q_default_ttl r) true in (Some e, quote_insert d e r').
Proof.
  intros [= <- <-]. unfold quote_consume. cbn [q_entries quote_insert]. rewrite lookup_insert_eq.
  unfold quote_spent. cbn. rewrite orb_false_r. by destruct (_ <? _).
Qed.

(** ** Payments: theorems *)

Lemma payment_call_ids p :
  is_u64 (vp_service_id p) → is_u64 (vp_call_id p) →
  ServiceId_try_from (head (into_job_call p)) = Ok (vp_service_id p) ∧
  CallId_try_from (head (into_job_call p)) = Ok (vp_call_id p).
Proof.
  intros Hs Hc. split; (apply extract_u64_inserted; [done|]);
    unfold into_job_call, job_call_from_parts, with_metadata; cbn [head metadata];
    destruct (vp_caller p); rewrite ?(lookup_insert_ne _ X402_CALLER_KEY) by done;
    rewrite ?(lookup_insert_ne _ X402_CALL_ID_KEY X402_SERVICE_ID_KEY) by done; by rewrite lookup_insert_eq.
Qed.

(** A paid call is read back by the extractors of Tangle jobs: the identifiers,
    the arguments and, for restricted jobs, the caller that was authorised. *)
Lemma payment_call_extracts p :
  is_u64 (vp_service_id p) → is_u64 (vp_call_id p) → is_u64 (vp_job_index p) →
  (∀ c, vp_caller p = Some c → length c = 20%nat) →
  let call := into_job_call p in
  ServiceId_try_from (head call) = Ok (vp_service_id p) ∧
  CallId_try_from (head call) = Ok (vp_call_id p) ∧
  Caller_try_from (head call) = ok_or (vp_caller p) MissingMetadata ∧
  number_from_JobId u64_ty (job_id (head call)) = vp_job_index p ∧
  body call = vp_job_args p.
Proof.
  intros Hs Hc Hj Hcaller call. destruct (payment_call_ids p Hs Hc) as [Hsid Hcid].
  split; [done|]. split; [done|]. split_and!.
  - destruct (vp_caller p) as [c|] eqn:Hp.
    + apply extract_array_inserted; [by apply Hcaller|]. unfold call, into_job_call, job_call_from_parts, with_metadata. cbn [head metadata].
      by rewrite Hp, lookup_insert_eq.
    + unfold Caller_try_from, extract_array, call, into_job_call, job_call_from_parts, with_metadata. cbn [head metadata].
      by rewrite Hp, !lookup_insert_ne by done.
  - assert (in_range u64_ty (vp_job_index p)) by (unfold is_u64, u64_max in Hj; cbn; lia).
    change (cast u64_ty (cast u64_ty (vp_job_index p)) = vp_job_index p).
    by rewrite (cast_in_range _ (vp_job_index p)), (cast_in_range _ (vp_job_index p)) by done.
  - done.
Qed.
