(* ===== verification/X402Gateway.v ===== *)
(** * The payment gateway ([x402/src/gateway.rs])

    What happens to a paid request: the policy of its job, the authorisation of
    restricted callers with the replay guard, the quote, and the payment that is
    queued for the producer; the price and dry-run endpoints and the price tags.
    The middleware that verifies and settles payments and the HTTP server are
    not part of the sources.  A paid request changes the state in two parts,
    [paid_authorize], [paid_quote], [paid_consume], [paid_number] and [paid_send], between which it may be suspended; the
    runs of the gateway interleave the parts of any number of requests. *)

From Stdlib Require Import ZArith Lia Ascii.
From stdpp Require Import base gmap sets list sorting strings pretty fin_maps numbers relations.
From S2P Require Import Prelude Text Bytes JobCore Hex TangleExtract X402Config X402Quotes.

#[local] Open Scope Z_scope.

Abbreviation EvmAddress := (list Byte8).

(** ** What comes from other crates *)

(** Signatures of [alloy], and the checksummed text of an address *)
Class DelegatedAuth := {
  AuthSig : Type;
  parse_signature : string → option AuthSig;
  recover_address_from_msg : AuthSig → list Byte8 → option EvmAddress;
  checksum_address : EvmAddress → string;
}.

(** [SettleResponse] of [x402-types] *)
Inductive SettleResponse :=
| SettleSuccess (payer network : string)
| SettleFailure (network : string).

(** The fields of a payment header that are looked at *)
Record PaymentJson := mkPaymentJson {
  pj_network : option string;
  pj_accepted_network : option string;
  pj_asset : option string;
  pj_accepted_asset : option string;
}.

(** Base64 and JSON decoding of header values *)
Class PaymentHeaders := {
  decode_settlement : list Byte8 → option SettleResponse;
  decode_payment : list Byte8 → option PaymentJson;
}.

(** ** Requests and responses *)

Definition HEADER_CALLER : string := "X-TANGLE-CALLER".
Definition HEADER_CALLER_SIG : string := "X-TANGLE-CALLER-SIG".
Definition HEADER_CALLER_NONCE : string := "X-TANGLE-CALLER-NONCE".
Definition HEADER_CALLER_EXPIRY : string := "X-TANGLE-CALLER-EXPIRY".
Definition HEADER_SETTLEMENT : string := "X-Payment-Response".
Definition HEADER_PAYMENT_V1 : string := "X-PAYMENT".
Definition HEADER_PAYMENT_V2 : string := "Payment-Signature".

Abbreviation Headers := (gmap string (list Byte8)).

(** [header_string]: the value, if all of it is visible ASCII *)
Definition header_string (h : Headers) (name : string) : option string :=
  v ← h !! name; if forallb is_visible_ascii v then Some (string_of_bytes v) else None.

Record PolicyRejection := mkRejection { pr_status : Z; pr_code : string; pr_detail : string }.

(** [PolicyRejection::denied], [bad_request], [service_unavailable], [conflict] *)
Definition denied (code detail : string) : PolicyRejection := mkRejection 403 code detail.
Definition bad_request (code detail : string) : PolicyRejection := mkRejection 400 code detail.
Definition service_unavailable (code detail : string) : PolicyRejection := mkRejection 503 code detail.
Definition conflict (code detail : string) : PolicyRejection := mkRejection 409 code detail.

(** [std::time::SystemTimeError], the only clock error *)
Definition clock_error : PolicyRejection :=
  service_unavailable "clock_error" "clock error: second time provided was later than self".

(** [GatewayCounters] *)
Inductive Counter :=
| CAccepted | CMppAccepted | CPolicyDenied | CPolicyError | CReplayDenied | CEnqueueFailed | CJobNotFound
| CQuoteConflict | CDryRunAllowed | CDryRunDenied | CDryRunError | CMppChallengeIssued | CMppVerificationFailed.

#[export] Instance Counter_eq_dec : EqDecision Counter.
Proof. solve_decision. Defined.

Record PaymentAttribution := mkAttribution {
  pa_network : option string;
  pa_token : option string;
  settled_payer : option EvmAddress;
}.

Record SettlementDetails := mkDetails { sd_payer : option EvmAddress; sd_network : option string }.

Record EnqueuedReceipt := mkReceiptOf { er_call_id : Z; er_digest_hex : string }.

(** What the environment answers while a request is handled: the wall clock in
    [verify_delegated_signature] and in [reserve], the permission call for a
    node, contract, service and caller, the clocks of the quote registry *)
Record Readings := mkReadings {
  rd_verify : option Z;
  rd_reserve : option Z;
  rd_permitted : string → EvmAddress → Z → EvmAddress → result string bool;
  rd_insert : Instant;
  rd_timestamp : Z;
  rd_consume : Instant;
}.

Section gateway.
  Context `{DecimalOps} `{ParseAddress} `{Keccak} `{DelegatedAuth} `{PaymentHeaders}.

Record GatewayState := mkGateway {
  gs_config : X402Config;
  gs_pricing : gmap (Z * Z) Z;
  gs_policies : gmap (Z * Z) JobPolicyConfig;
  gs_quotes : QuoteRegistry;
  (** the payments sent to the producer, and whether it still receives *)
  gs_payments : list VerifiedPayment;
  gs_receiving : bool;
  gs_call_id : Z;
  gs_nonces : gmap string Z;
  gs_counters : Counter → Z;
}.

Definition set_nonces (m : gmap string Z) (s : GatewayState) : GatewayState :=
  mkGateway (gs_config s) (gs_pricing s) (gs_policies s) (gs_quotes s) (gs_payments s) (gs_receiving s)
    (gs_call_id s) m (gs_counters s).
Definition set_quotes (q : QuoteRegistry) (s : GatewayState) : GatewayState :=
  mkGateway (gs_config s) (gs_pricing s) (gs_policies s) q (gs_payments s) (gs_receiving s)
    (gs_call_id s) (gs_nonces s) (gs_counters s).

(** [counter.fetch_add(1)] *)
Definition bump (c : Counter) (s : GatewayState) : GatewayState :=
  mkGateway (gs_config s) (gs_pricing s) (gs_policies s) (gs_quotes s) (gs_payments s) (gs_receiving s)
    (gs_call_id s) (gs_nonces s)
    (λ c', if bool_decide (c' = c) then u64_wrap (gs_counters s c' + 1) else gs_counters s c').

Definition next_call_id (s : GatewayState) : GatewayState :=
  mkGateway (gs_config s) (gs_pricing s) (gs_policies s) (gs_quotes s) (gs_payments s) (gs_receiving s)
    (u64_wrap (gs_call_id s + 1)) (gs_nonces s) (gs_counters s).

(** [payment_tx.send(p)], when the producer is still there *)
Definition enqueue (p : VerifiedPayment) (s : GatewayState) : GatewayState :=
  mkGateway (gs_config s) (gs_pricing s) (gs_policies s) (gs_quotes s) (gs_payments s ++ [p]) (gs_receiving s)
    (gs_call_id s) (gs_nonces s) (gs_counters s).

(** [X402Gateway::new] and the state of [build_router]; [mpp_new] stands for
    [MppGatewayState::new], and [None] is a panic of the price conversion *)
Definition gateway_new (mpp_new : MppConfig → result X402Error unit) (c : X402Config)
    (job_pricing : gmap (Z * Z) Z) : option (result X402Error GatewayState) :=
  match config_validate c with
  | Err e => Some (Err e)
  | Ok _ =>
    if bool_decide (length (accepted_tokens c) = 0%nat)
    then Some (Err (ConfigError "at least one accepted_token must be configured"))
    else
      match validate_price_tag_amount_bounds c job_pricing with
      | None => None
      | Some (Err e) => Some (Err e)
      | Some (Ok _) =>
        match match mpp c with Some m => mpp_new m | None => Ok tt end with
        | Err e => Some (Err e)
        | Ok _ =>
            Some (Ok (mkGateway c job_pricing
              (foldl (λ m p, <[policy_key p := p]> m) ∅ (job_policies c))
              (registry_new (from_secs (quote_ttl_secs c))) [] true 1 ∅ (λ _, 0)))
        end
      end
  end.

(** ** The replay guard *)

Definition address_hex (a : EvmAddress) : string := "0x" +:+ hex_encode a.

Definition nonce_key (caller : EvmAddress) (service_id job_index : Z) (nonce : string) : string :=
  address_hex caller +:+ ":" +:+ (pretty service_id +:+ ":" +:+ (pretty job_index +:+ ":" +:+ nonce)).

(** [DelegatedReplayGuard::reserve] *)
Definition reserve (now : option Z) (caller : EvmAddress) (service_id job_index : Z) (nonce : string) (expiry : Z)
    (seen : gmap string Z) : result PolicyRejection unit * gmap string Z :=
  match now with
  | None => (Err clock_error, seen)
  | Some now =>
      let seen := retain (λ _ stored_expiry, now <? stored_expiry) seen in
      let key := nonce_key caller service_id job_index nonce in
      match seen !! key with
      | Some _ =>
          (Err (conflict "signature_replay" "delegated signature nonce already used for this job scope"), seen)
      | None => (Ok tt, <[key := expiry]> seen)
      end
  end.

(** ** Delegated callers *)

Record DelegatedAssertion := mkAssertion { da_caller : EvmAddress; da_nonce : string; da_expiry : Z }.

(** [delegated_auth_payload] *)
Definition delegated_auth_payload (service_id job_index : Z) (body : list Byte8) (nonce : string) (expiry : Z) : string :=
  "x402-authorize:" +:+ (pretty service_id +:+ ":" +:+ (pretty job_index +:+ ":" +:+
    (hex_encode (tiny_keccak256 body) +:+ ":" +:+ (nonce +:+ ":" +:+ pretty expiry)))).

(** [verify_delegated_signature] *)
Definition verify_delegated_signature (now : option Z) (service_id job_index : Z) (body : list Byte8) (h : Headers)
    : result PolicyRejection DelegatedAssertion :=
  caller_raw ← ok_or (header_string h HEADER_CALLER)
    (bad_request "missing_caller" "X-TANGLE-CALLER header is required for delegated signature auth");
  caller ← ok_or (parse_address caller_raw) (bad_request "invalid_caller" "invalid X-TANGLE-CALLER");
  nonce ← ok_or (header_string h HEADER_CALLER_NONCE)
    (bad_request "missing_signature_nonce" "X-TANGLE-CALLER-NONCE header is required for delegated signature auth");
  if bool_decide (trim nonce = EmptyString) || (128 <? Z.of_nat (String.length nonce))
  then Err (bad_request "invalid_signature_nonce" "X-TANGLE-CALLER-NONCE must be non-empty and <= 128 chars")
  else
    sig_raw ← ok_or (header_string h HEADER_CALLER_SIG)
      (bad_request "missing_signature" "X-TANGLE-CALLER-SIG header is required for delegated signature auth");
    signature ← ok_or (parse_signature sig_raw)
      (bad_request "invalid_signature" "invalid X-TANGLE-CALLER-SIG; expected 65-byte hex signature");
    expiry_raw ← ok_or (header_string h HEADER_CALLER_EXPIRY)
      (bad_request "missing_signature_expiry" "X-TANGLE-CALLER-EXPIRY header is required for delegated signature auth");
    expiry ← ok_or (parse_u64 expiry_raw)
      (bad_request "invalid_signature_expiry" "X-TANGLE-CALLER-EXPIRY must be a unix timestamp");
    now ← ok_or now clock_error;
    if expiry <? now then Err (denied "signature_expired" "delegated signature has expired")
    else
      let payload := delegated_auth_payload service_id job_index body nonce expiry in
      recovered ← ok_or (recover_address_from_msg signature (str_bytes payload))
        (bad_request "invalid_signature_recovery" "failed to recover signer from delegated signature");
      if bool_decide (recovered = caller) then Ok (mkAssertion caller nonce expiry)
      else Err (denied "signature_mismatch" "delegated signature does not match X-TANGLE-CALLER").

(** [parse_settlement_details] *)
Definition parse_settlement_details (h : Headers) : option SettlementDetails :=
  raw ← h !! HEADER_SETTLEMENT;
  settlement ← decode_settlement raw;
  Some (match settlement with
        | SettleSuccess payer network => mkDetails (parse_address payer) (Some network)
        | SettleFailure network => mkDetails None (Some network)
        end).

(** ** Authorisation *)

(** [resolve_job_policy] *)
Definition resolve_job_policy (s : GatewayState) (service_id job_index : Z) : JobPolicyConfig :=
  default (mkPolicy service_id job_index (default_invocation_mode (gs_config s)) PaymentOnly None None)
    (gs_policies s !! (service_id, job_index)).

(** The [match] on the authentication mode that determines the caller *)
Definition restricted_caller (rd : Readings) (policy : JobPolicyConfig) (service_id job_index : Z)
    (body : list Byte8) (h : Headers) (payer_override : option EvmAddress) (protocol : PaymentProtocol)
    (enforce_replay_guard : bool) (s : GatewayState) : result PolicyRejection EvmAddress * GatewayState :=
  match auth_mode policy with
  | PayerIsCaller =>
      (match payer_override with
       | Some payer => Ok payer
       | None =>
           if negb (bool_decide (protocol = ProtoX402)) then
             Err (service_unavailable "missing_settled_payer"
               (protocol_as_str protocol +:+ " payer_is_caller requires a verified payer override; refusing to read X-Payment-Response from a non-x402 request"))
           else
             settlement ← ok_or (parse_settlement_details h)
               (bad_request "missing_settlement_context" "X-Payment-Response settlement context is required");
             ok_or (sd_payer settlement)
               (bad_request "missing_settled_payer" "settled payer is required for auth_mode=payer_is_caller")
       end, s)
  | DelegatedCallerSignature =>
      match verify_delegated_signature (rd_verify rd) service_id job_index body h with
      | Err e => (Err e, s)
      | Ok assertion =>
          if enforce_replay_guard then
            match reserve (rd_reserve rd) (da_caller assertion) service_id job_index (da_nonce assertion)
                    (da_expiry assertion) (gs_nonces s) with
            | (Err e, seen) => (Err e, set_nonces seen s)
            | (Ok _, seen) => (Ok (da_caller assertion), set_nonces seen s)
            end
          else (Ok (da_caller assertion), s)
      end
  | PaymentOnly =>
      (Err (service_unavailable "invalid_policy" "restricted_paid cannot use auth_mode=payment_only"), s)
  end.

(** The checks that follow: the policy is complete and the contract permits the caller *)
Definition permission_check (rd : Readings) (policy : JobPolicyConfig) (service_id : Z) (caller : EvmAddress)
    : result PolicyRejection EvmAddress :=
  rpc_url ← ok_or (tangle_rpc_url policy)
    (service_unavailable "invalid_policy" "restricted_paid policy missing tangle_rpc_url");
  raw ← ok_or (tangle_contract policy)
    (service_unavailable "invalid_policy" "restricted_paid policy missing tangle_contract");
  contract ← ok_or (parse_address raw)
    (service_unavailable "invalid_policy" "restricted_paid policy has invalid tangle_contract");
  permitted ← map_err (λ e, service_unavailable "permission_check_failed" ("eth_call isPermittedCaller failed: " +:+ e))
    (rd_permitted rd rpc_url contract service_id caller);
  if negb permitted then
    Err (denied "caller_not_permitted"
      ("caller " +:+ checksum_address caller +:+ " is not permitted for service_id=" +:+ pretty service_id
        +:+ " via on-chain policy"))
  else Ok caller.

(** [authorize_restricted_job_with_payer] *)
Definition authorize_restricted_job_with_payer (rd : Readings) (policy : JobPolicyConfig) (service_id job_index : Z)
    (body : list Byte8) (h : Headers) (payer_override : option EvmAddress) (protocol : PaymentProtocol)
    (enforce_replay_guard : bool) (s : GatewayState) : result PolicyRejection EvmAddress * GatewayState :=
  match restricted_caller rd policy service_id job_index body h payer_override protocol enforce_replay_guard s with
  | (Err e, s) => (Err e, s)
  | (Ok caller, s) => (permission_check rd policy service_id caller, s)
  end.

(** [authorize_restricted_job] *)
Definition authorize_restricted_job (rd : Readings) (policy : JobPolicyConfig) (service_id job_index : Z)
    (body : list Byte8) (h : Headers) (enforce_replay_guard : bool) (s : GatewayState)
    : result PolicyRejection EvmAddress * GatewayState :=
  authorize_restricted_job_with_payer rd policy service_id job_index body h None ProtoX402 enforce_replay_guard s.

(** ** Attribution of payments *)

(** [resolve_token_label] *)
Definition resolve_token_label (c : X402Config) (net asset_ : option string) : option string :=
  match net, asset_ with
  | Some net, Some a =>
      match list_find (λ t, network t = net ∧ to_ascii_lowercase (asset t) = to_ascii_lowercase a)
              (accepted_tokens c) with
      | Some (_, t) => Some (symbol t)
      | None => Some a
      end
  | None, Some a => Some a
  | _, None => None
  end.

(** The loop over the payment headers: the network and the asset found so far *)
Fixpoint attribution_loop (h : Headers) (names : list string) (net asset_ : option string)
    : option string * option string :=
  match names with
  | [] => (net, asset_)
  | name :: names =>
    match h !! name ≫= decode_payment with
    | None => attribution_loop h names net asset_
    | Some json =>
        let net := or_else net (or_else (pj_network json) (pj_accepted_network json)) in
        match or_else (pj_asset json) (pj_accepted_asset json) with
        | Some a => (net, Some a)
        | None => attribution_loop h names net None
        end
    end
  end.

(** [extract_payment_attribution] *)
Definition extract_payment_attribution (h : Headers) (c : X402Config) : PaymentAttribution :=
  let settlement := parse_settlement_details h in
  let '(net, asset_) :=
    attribution_loop h [HEADER_PAYMENT_V1; HEADER_PAYMENT_V2] (settlement ≫= sd_network) None in
  mkAttribution net (resolve_token_label c net asset_) (settlement ≫= sd_payer).

(** [resolved_payment_metadata] *)
Definition resolved_payment_metadata (c : X402Config) (a : PaymentAttribution) : string * string :=
  match pa_network a, pa_token a with
  | Some net, Some tok => (net, tok)
  | _, _ =>
    match accepted_tokens c with
    | [t] => (network t, symbol t)
    | ts => (String.concat "," (network <$> ts), "MULTI"%string)
    end
  end.

(** ** Paid requests *)

(** The counters of a rejected authorisation *)
Definition count_rejection (r : PolicyRejection) (s : GatewayState) : GatewayState :=
  if (pr_status r =? 403) || (pr_status r =? 409) then
    let s := bump CPolicyDenied s in
    if bool_decide (pr_code r = "signature_replay"%string) then bump CReplayDenied s else s
  else bump CPolicyError s.

(** The arguments of a paid request *)
Record PaidRequest := mkPaid {
  rq_service_id : Z;
  rq_job_index : Z;
  rq_body : list Byte8;
  rq_headers : Headers;
  rq_attribution : PaymentAttribution;
  rq_protocol : PaymentProtocol;
}.

(** The first part of [handle_paid_job_inner], up to the registration of a
    quote: the price, and the caller of a restricted job *)
Definition paid_authorize (rd : Readings) (rq : PaidRequest) (s : GatewayState)
    : result PolicyRejection (Z * option EvmAddress) * GatewayState :=
  let service_id := rq_service_id rq in
  let job_index := rq_job_index rq in
  match gs_pricing s !! (service_id, job_index) with
  | None =>
      (Err (mkRejection 404 "job_not_found" ("job not found: service_id=" +:+ pretty service_id
              +:+ " job_index=" +:+ pretty job_index)), bump CJobNotFound s)
  | Some price_wei =>
    let policy := resolve_job_policy s service_id job_index in
    match invocation_mode policy with
    | Disabled => (Err (denied "x402_disabled" "job is not enabled for x402 invocation"), bump CPolicyDenied s)
    | PublicPaid => (Ok (price_wei, None), s)
    | RestrictedPaid =>
        match authorize_restricted_job_with_payer rd policy service_id job_index (rq_body rq) (rq_headers rq)
                (settled_payer (rq_attribution rq)) (rq_protocol rq) true s with
        | (Ok caller, s) => (Ok (price_wei, Some caller), s)
        | (Err rejection, s) => (Err rejection, count_rejection rejection s)
        end
    end
  end.

(** The rest of a request: the registration of a quote, its consumption, the call
    id and the payment with it, and the sending of the payment.  Nothing holds these
    four together, and other requests may come between. *)
Definition paid_quote (rd : Readings) (rq : PaidRequest) (price_wei : Z) (s : GatewayState) : list Byte8 * GatewayState :=
  let '(quote_digest, quotes) :=
    insert_dynamic (rd_insert rd) (rd_timestamp rd) (rq_service_id rq) (rq_job_index rq) price_wei (gs_quotes s) in
  (quote_digest, set_quotes quotes s).

Definition paid_consume (rd : Readings) (quote_digest : list Byte8) (s : GatewayState)
    : result PolicyRejection unit * GatewayState :=
  match quote_consume (rd_consume rd) quote_digest (gs_quotes s) with
  | (None, quotes) =>
      (Err (conflict "quote_conflict" "quote already consumed or expired"),
       bump CQuoteConflict (set_quotes quotes s))
  | (Some _, quotes) => (Ok tt, set_quotes quotes s)
  end.

Definition paid_number (rq : PaidRequest) (caller : option EvmAddress) (quote_digest : list Byte8) (s : GatewayState)
    : VerifiedPayment * GatewayState :=
  let call_id := gs_call_id s in
  let '(payment_network, payment_token) := resolved_payment_metadata (gs_config s) (rq_attribution rq) in
  (mkPayment (rq_service_id rq) (rq_job_index rq) (rq_body rq) quote_digest payment_network payment_token call_id caller,
   next_call_id s).

Definition paid_send (rq : PaidRequest) (payment : VerifiedPayment) (s : GatewayState)
    : result PolicyRejection EnqueuedReceipt * GatewayState :=
  if negb (gs_receiving s) then
    (Err (service_unavailable "shutting_down" "service shutting down"), bump CEnqueueFailed s)
  else
    (Ok (mkReceiptOf (vp_call_id payment) (hex_encode (vp_quote_digest payment))),
     bump (match rq_protocol rq with ProtoX402 => CAccepted | ProtoMpp => CMppAccepted end) (enqueue payment s)).

(** The four in a row *)
Definition paid_enqueue (rd : Readings) (rq : PaidRequest) (price_wei : Z) (caller : option EvmAddress)
    (s : GatewayState) : result PolicyRejection EnqueuedReceipt * GatewayState :=
  let '(quote_digest, s) := paid_quote rd rq price_wei s in
  match paid_consume rd quote_digest s with
  | (Err rejection, s) => (Err rejection, s)
  | (Ok _, s) => let '(payment, s) := paid_number rq caller quote_digest s in paid_send rq payment s
  end.

(** [handle_paid_job_inner] *)
Definition handle_paid_job_inner (rd : Readings) (rq : PaidRequest) (s : GatewayState)
    : result PolicyRejection EnqueuedReceipt * GatewayState :=
  match paid_authorize rd rq s with
  | (Err rejection, s) => (Err rejection, s)
  | (Ok (price_wei, caller), s) => paid_enqueue rd rq price_wei caller s
  end.

(** ** Runs *)

(** A delegated assertion whose nonce was reserved, and when *)
Record Reservation := mkReservation {
  rv_service_id : Z;
  rv_job_index : Z;
  rv_assertion : DelegatedAssertion;
  rv_time : Z;
}.

(** The assertion that authorising a request hands to the replay guard, with
    the time the guard reads *)
Definition guarded (rd : Readings) (rq : PaidRequest) (s : GatewayState) : option (DelegatedAssertion * Z) :=
  let policy := resolve_job_policy s (rq_service_id rq) (rq_job_index rq) in
  if bool_decide (is_Some (gs_pricing s !! (rq_service_id rq, rq_job_index rq)) ∧
                  invocation_mode policy = RestrictedPaid ∧ auth_mode policy = DelegatedCallerSignature) then
    match verify_delegated_signature (rd_verify rd) (rq_service_id rq) (rq_job_index rq) (rq_body rq)
            (rq_headers rq), rd_reserve rd with
    | Ok a, Some now => Some (a, now)
    | _, _ => None
    end
  else None.

(** What the guard answers, and the nonces it then holds *)
Definition guard_answer (rq : PaidRequest) (s : GatewayState) (a : DelegatedAssertion) (now : Z)
    : result PolicyRejection unit * gmap string Z :=
  reserve (Some now) (da_caller a) (rq_service_id rq) (rq_job_index rq) (da_nonce a) (da_expiry a) (gs_nonces s).

(** The reservation that authorising a request makes *)
Definition reservation (rd : Readings) (rq : PaidRequest) (s : GatewayState) : option Reservation :=
  match guarded rd rq s with
  | Some (a, now) =>
      match (guard_answer rq s a now).1 with
      | Ok _ => Some (mkReservation (rq_service_id rq) (rq_job_index rq) a now)
      | Err _ => None
      end
  | None => None
  end.

(** A request that has been authorised: its price and caller, and what the
    environment answered *)
Record Accepted := mkAccepted {
  ac_request : PaidRequest;
  ac_price : Z;
  ac_caller : option EvmAddress;
  ac_readings : Readings;
}.

(** How far an authorised request has come *)
Inductive Stage := Authorized | Quoted (quote_digest : list Byte8) | Consumed (quote_digest : list Byte8) | Numbered (payment : VerifiedPayment).

(** The gateway with the requests under way; what was authorised and reserved so
    far, and the latest reading of the wall clock by the replay guard, are recorded
    for the theorems *)
Record World := mkGatewayWorld {
  gw_state : GatewayState;
  gw_inflight : list (Accepted * Stage);
  gw_accepted : list Accepted;
  gw_reserved : list Reservation;
  gw_clock : Z;
}.

(** The wall clock does not go back between two uses of the replay guard. *)
Definition clock_step (clock : Z) (rd : Readings) (clock' : Z) : Prop :=
  match rd_reserve rd with Some now => clock ≤ now ∧ clock' = now | None => clock' = clock end.

Inductive gateway_step : relation World :=
| step_accept rd rq s s' price caller fl acc rv clock clock' :
    paid_authorize rd rq s = (Ok (price, caller), s') → clock_step clock rd clock' →
    gateway_step (mkGatewayWorld s fl acc rv clock)
      (mkGatewayWorld s' (fl ++ [(mkAccepted rq price caller rd, Authorized)]) (acc ++ [mkAccepted rq price caller rd])
         (rv ++ option_list (reservation rd rq s)) clock')
| step_reject rd rq s s' e fl acc rv clock clock' :
    paid_authorize rd rq s = (Err e, s') → clock_step clock rd clock' →
    gateway_step (mkGatewayWorld s fl acc rv clock)
      (mkGatewayWorld s' fl acc (rv ++ option_list (reservation rd rq s)) clock')
| step_quote rd a s s' digest fl fl' acc rv clock :
    fl ≡ₚ (a, Authorized) :: fl' → paid_quote rd (ac_request a) (ac_price a) s = (digest, s') →
    gateway_step (mkGatewayWorld s fl acc rv clock) (mkGatewayWorld s' ((a, Quoted digest) :: fl') acc rv clock)
| step_consume rd a digest s s' fl fl' acc rv clock :
    fl ≡ₚ (a, Quoted digest) :: fl' → paid_consume rd digest s = (Ok tt, s') →
    gateway_step (mkGatewayWorld s fl acc rv clock) (mkGatewayWorld s' ((a, Consumed digest) :: fl') acc rv clock)
| step_conflict rd a digest e s s' fl fl' acc rv clock :
    fl ≡ₚ (a, Quoted digest) :: fl' → paid_consume rd digest s = (Err e, s') →
    gateway_step (mkGatewayWorld s fl acc rv clock) (mkGatewayWorld s' fl' acc rv clock)
| step_number a digest payment s s' fl fl' acc rv clock :
    fl ≡ₚ (a, Consumed digest) :: fl' → paid_number (ac_request a) (ac_caller a) digest s = (payment, s') →
    gateway_step (mkGatewayWorld s fl acc rv clock) (mkGatewayWorld s' ((a, Numbered payment) :: fl') acc rv clock)
| step_send a payment r s s' fl fl' acc rv clock :
    fl ≡ₚ (a, Numbered payment) :: fl' → paid_send (ac_request a) payment s = (r, s') →
    gateway_step (mkGatewayWorld s fl acc rv clock) (mkGatewayWorld s' fl' acc rv clock)
| step_gc now s fl acc rv clock :
    gateway_step (mkGatewayWorld s fl acc rv clock)
      (mkGatewayWorld (set_quotes (quote_gc now (gs_quotes s)) s) fl acc rv clock)
| step_count c s fl acc rv clock :
    gateway_step (mkGatewayWorld s fl acc rv clock) (mkGatewayWorld (bump c s) fl acc rv clock)
| step_shutdown s fl acc rv clock :
    gateway_step (mkGatewayWorld s fl acc rv clock)
      (mkGatewayWorld (mkGateway (gs_config s) (gs_pricing s) (gs_policies s) (gs_quotes s) (gs_payments s) false
         (gs_call_id s) (gs_nonces s) (gs_counters s)) fl acc rv clock).

Definition gateway_reaches (s0 : GatewayState) (w : World) : Prop :=
  ∃ clock, rtc gateway_step (mkGatewayWorld s0 [] [] [] clock) w.

(** ** What the parts of a request change *)

(** The state apart from nonces and counters *)
Definition same_but_nonces (s s' : GatewayState) : Prop :=
  gs_config s' = gs_config s ∧ gs_pricing s' = gs_pricing s ∧ gs_policies s' = gs_policies s ∧
  gs_quotes s' = gs_quotes s ∧ gs_payments s' = gs_payments s ∧ gs_receiving s' = gs_receiving s ∧
  gs_call_id s' = gs_call_id s.

(** A caller that was authorised for a restricted job *)
Definition caller_proved (policy : JobPolicyConfig) (rd : Readings) (rq : PaidRequest) (c : EvmAddress) : Prop :=
  match auth_mode policy with
  | PayerIsCaller =>
      settled_payer (rq_attribution rq) = Some c ∨
      rq_protocol rq = ProtoX402 ∧ parse_settlement_details (rq_headers rq) ≫= sd_payer = Some c
  | DelegatedCallerSignature =>
      ∃ raw sig nonce expiry now,
        header_string (rq_headers rq) HEADER_CALLER_SIG = Some raw ∧ parse_signature raw = Some sig ∧
        recover_address_from_msg sig (str_bytes
          (delegated_auth_payload (rq_service_id rq) (rq_job_index rq) (rq_body rq) nonce expiry)) = Some c ∧
        header_string (rq_headers rq) HEADER_CALLER_NONCE = Some nonce ∧
        rd_verify rd = Some now ∧ now ≤ expiry
  | PaymentOnly => False
  end.

Definition caller_permitted (policy : JobPolicyConfig) (rd : Readings) (rq : PaidRequest) (c : EvmAddress) : Prop :=
  ∃ url raw contract, tangle_rpc_url policy = Some url ∧ tangle_contract policy = Some raw ∧
    parse_address raw = Some contract ∧ rd_permitted rd url contract (rq_service_id rq) c = Ok true.

(** What an authorised request satisfies *)
Definition authorised (s : GatewayState) (a : Accepted) : Prop :=
  let rq := ac_request a in
  let policy := resolve_job_policy s (rq_service_id rq) (rq_job_index rq) in
  gs_pricing s !! (rq_service_id rq, rq_job_index rq) = Some (ac_price a) ∧
  match invocation_mode policy with
  | Disabled => False
  | PublicPaid => ac_caller a = None
  | RestrictedPaid => ∃ c, ac_caller a = Some c ∧ caller_proved policy (ac_readings a) rq c ∧
                           caller_permitted policy (ac_readings a) rq c
  end.

Lemma verify_delegated_ok now sid idx b h a :
  verify_delegated_signature now sid idx b h = Ok a →
  ∃ raw sig t, header_string h HEADER_CALLER_SIG = Some raw ∧ parse_signature raw = Some sig ∧
    recover_address_from_msg sig (str_bytes (delegated_auth_payload sid idx b (da_nonce a) (da_expiry a)))
      = Some (da_caller a) ∧
    header_string h HEADER_CALLER_NONCE = Some (da_nonce a) ∧ now = Some t ∧ t ≤ da_expiry a ∧
    ∃ cr, parse_address cr = Some (da_caller a).
Proof.
  unfold verify_delegated_signature. intros Hv.
  destruct (header_string h HEADER_CALLER) as [cr|]; [|done]. cbn in Hv.
  destruct (parse_address cr) as [c|] eqn:Hcr; [|done]. cbn in Hv.
  destruct (header_string h HEADER_CALLER_NONCE) as [nonce|]; [|done]. cbn [ok_or mbind result_bind] in Hv.
  destruct (_ || _); [done|].
  destruct (header_string h HEADER_CALLER_SIG) as [raw|] eqn:Hraw; [|done]. cbn in Hv.
  destruct (parse_signature raw) as [sig|] eqn:Hsig; [|done]. cbn in Hv.
  destruct (header_string h HEADER_CALLER_EXPIRY) as [er|]; [|done]. cbn in Hv.
  destruct (parse_u64 er) as [expiry|]; [|done]. cbn [ok_or mbind result_bind] in Hv.
  destruct now as [now|]; [|done]. cbn [ok_or mbind result_bind] in Hv.
  destruct (Z.ltb_spec expiry now) as [|Hle]; [done|].
  destruct (recover_address_from_msg _ _) as [rec|] eqn:Hrec; [|done]. cbn [ok_or mbind result_bind] in Hv.
  case_bool_decide; [|done]. simplify_eq. cbn in *. eauto 14.
Qed.

Lemma permission_check_ok rd policy rq c c' :
  permission_check rd policy (rq_service_id rq) c = Ok c' → c' = c ∧ caller_permitted policy rd rq c.
Proof.
  unfold permission_check, caller_permitted. intros Hp.
  destruct (tangle_rpc_url policy) as [url|]; [|done]. cbn in Hp.
  destruct (tangle_contract policy) as [raw|]; [|done]. cbn in Hp.
  destruct (parse_address raw) as [contract|] eqn:Hraw; [|done]. cbn in Hp.
  destruct (rd_permitted rd url contract (rq_service_id rq) c) as [[]|] eqn:Hperm; cbn in Hp; simplify_eq.
  eauto 10.
Qed.

(** The nonces after the first part of a request *)
Definition nonces_after (rd : Readings) (rq : PaidRequest) (s : GatewayState) : gmap string Z :=
  match guarded rd rq s with Some (a, now) => (guard_answer rq s a now).2 | None => gs_nonces s end.

Lemma same_but_nonces_refl s : same_but_nonces s s.
Proof. done. Qed.

Lemma same_but_nonces_trans s1 s2 s3 : same_but_nonces s1 s2 → same_but_nonces s2 s3 → same_but_nonces s1 s3.
Proof. unfold same_but_nonces. intuition congruence. Qed.

Lemma count_rejection_same e s : same_but_nonces s (count_rejection e s) ∧ gs_nonces (count_rejection e s) = gs_nonces s.
Proof. unfold count_rejection. destruct (_ || _); [case_bool_decide|]; done. Qed.

Lemma restricted_caller_spec rd rq s r s' :
  let policy := resolve_job_policy s (rq_service_id rq) (rq_job_index rq) in
  is_Some (gs_pricing s !! (rq_service_id rq, rq_job_index rq)) → invocation_mode policy = RestrictedPaid →
  restricted_caller rd policy (rq_service_id rq) (rq_job_index rq) (rq_body rq) (rq_headers rq)
    (settled_payer (rq_attribution rq)) (rq_protocol rq) true s = (r, s') →
  same_but_nonces s s' ∧ gs_nonces s' = nonces_after rd rq s ∧ ∀ c, r = Ok c → caller_proved policy rd rq c.
Proof.
  intros policy Hprice Hmode. unfold restricted_caller, nonces_after, guarded, caller_proved.
  fold policy. rewrite Hmode. destruct (auth_mode policy) eqn:Hauth.
  - intros [= <- <-]. rewrite bool_decide_false by naive_solver. split_and!; [done..|]. intros c Hc.
    destruct (settled_payer _); [left; congruence|]. right.
    destruct (rq_protocol rq); [|done]. cbn in Hc. split; [done|].
    destruct (parse_settlement_details _) as [d|]; [|done]. cbn in Hc.
    change (sd_payer d = Some c). rewrite bool_decide_true in Hc by done. destruct (sd_payer d); cbn in Hc; congruence.
  - rewrite bool_decide_true by done. unfold guard_answer.
    destruct (verify_delegated_signature _ _ _ _ _) as [a|e] eqn:Hv; [|by intros [= <- <-]].
    destruct (rd_reserve rd) as [now|]; [|by intros [= <- <-]].
    destruct (reserve _ _ _ _ _ _ _) as [[[]|e] seen]; intros [= <- <-]; split_and!; try done.
    intros c [= <-]. apply verify_delegated_ok in Hv as (raw & sig & t & Hv). exists raw, sig, (da_nonce a), (da_expiry a), t.
    naive_solver.
  - intros [= <- <-]. rewrite bool_decide_false by naive_solver. done.
Qed.

(** The first part of a request changes nonces and counters only, and lets
    through what [authorised] describes. *)
Lemma paid_authorize_spec rd rq s r s' :
  paid_authorize rd rq s = (r, s') →
  same_but_nonces s s' ∧ gs_nonces s' = nonces_after rd rq s ∧
  ∀ price caller, r = Ok (price, caller) → authorised s (mkAccepted rq price caller rd).
Proof.
  unfold paid_authorize, authorised. cbn [ac_request ac_price ac_caller ac_readings].
  pose proof (restricted_caller_spec rd rq s) as Hrc. cbv zeta in Hrc.
  destruct (gs_pricing s !! _) as [price|] eqn:Hp; cycle 1.
  { intros [= <- <-]. unfold nonces_after, guarded. rewrite Hp, bool_decide_false by naive_solver. done. }
  destruct (invocation_mode _) eqn:Hmode.
  - intros [= <- <-]. unfold nonces_after, guarded. rewrite Hmode, bool_decide_false by naive_solver. done.
  - intros [= <- <-]. unfold nonces_after, guarded. rewrite Hmode, bool_decide_false by naive_solver.
    split_and!; [done..|]. by intros ? ? [= <- <-].
  - unfold authorize_restricted_job_with_payer.
    destruct (restricted_caller _ _ _ _ _ _ _ _ _ _) as [[c|e] s1] eqn:Hr;
      destruct (Hrc _ _ ltac:(by eexists) eq_refl eq_refl) as (Hsame & Hn & Hproved); cycle 1.
    { intros [= <- <-]. destruct (count_rejection_same e s1) as [Hc ->]. split_and!; [|done..].
      by eapply same_but_nonces_trans. }
    destruct (permission_check _ _ _ _) as [c'|e] eqn:Hperm; intros [= <- <-]; cycle 1.
    { destruct (count_rejection_same e s1) as [Hc ->]. split_and!; [by eapply same_but_nonces_trans|done..]. }
    split_and!; [done..|]. intros price' caller [= <- <-]. split; [done|].
    apply permission_check_ok in Hperm as [-> Hperm]. exists c. auto.
Qed.

(** A payment is the one of an authorised request. *)
Definition pays (p : VerifiedPayment) (a : Accepted) : Prop :=
  vp_service_id p = rq_service_id (ac_request a) ∧ vp_job_index p = rq_job_index (ac_request a) ∧
  vp_job_args p = rq_body (ac_request a) ∧ vp_caller p = ac_caller a.

(** What a request cannot change *)
Definition same_rules (s s' : GatewayState) : Prop :=
  gs_config s' = gs_config s ∧ gs_pricing s' = gs_pricing s ∧ gs_policies s' = gs_policies s.

(** What the parts after the authorisation leave alone *)
Definition same_but_quotes (s s' : GatewayState) : Prop :=
  same_rules s s' ∧ gs_nonces s' = gs_nonces s ∧ gs_payments s' = gs_payments s ∧ gs_call_id s' = gs_call_id s.

Lemma paid_quote_spec rd rq price s digest s' : paid_quote rd rq price s = (digest, s') → same_but_quotes s s'.
Proof. unfold paid_quote. destruct (insert_dynamic _ _ _ _ _ _). by intros [= _ <-]. Qed.

Lemma paid_consume_spec rd digest s r s' : paid_consume rd digest s = (r, s') → same_but_quotes s s'.
Proof. unfold paid_consume. destruct (quote_consume _ _ _) as [[e|] quotes]; by intros [= _ <-]. Qed.

Lemma paid_number_spec a digest s p s' :
  paid_number (ac_request a) (ac_caller a) digest s = (p, s') →
  same_rules s s' ∧ gs_nonces s' = gs_nonces s ∧ gs_payments s' = gs_payments s ∧
  gs_call_id s' = u64_wrap (gs_call_id s + 1) ∧ pays p a ∧ vp_call_id p = gs_call_id s.
Proof. unfold paid_number. destruct (resolved_payment_metadata _ _). by intros [= <- <-]. Qed.

Lemma paid_send_spec rq p s r s' :
  paid_send rq p s = (r, s') →
  same_rules s s' ∧ gs_nonces s' = gs_nonces s ∧ gs_call_id s' = gs_call_id s ∧
  gs_payments s' = gs_payments s ++ match r with Ok _ => [p] | Err _ => [] end.
Proof. unfold paid_send. destruct (gs_receiving s); intros [= <- <-]; cbn; by rewrite ?app_nil_r. Qed.

(** *** The replay guard over a run *)

Definition rv_key (r : Reservation) : string :=
  nonce_key (da_caller (rv_assertion r)) (rv_service_id r) (rv_job_index r) (da_nonce (rv_assertion r)).

Definition rv_expiry (r : Reservation) : Z := da_expiry (rv_assertion r).

Record replay_inv (seen : gmap string Z) (rs : list Reservation) (clock : Z) : Prop := {
  ri_kept : ∀ r, r ∈ rs → rv_expiry r ≤ clock ∨ seen !! rv_key r = Some (rv_expiry r);
  ri_known : ∀ k e, seen !! k = Some e → ∃ r, r ∈ rs ∧ rv_key r = k ∧ rv_expiry r = e;
  ri_once : ∀ i j a b, (i < j)%nat → rs !! i = Some a → rs !! j = Some b →
              rv_key a = rv_key b → rv_expiry a ≤ rv_time b;
}.

Lemma replay_inv_retain seen rs clock now :
  replay_inv seen rs clock → clock ≤ now → replay_inv (retain (λ _ e, now <? e) seen) rs now.
Proof.
  intros [Hkept Hknown Honce] Hle. split; [|intros k e [Hk _]%retain_lookup_Some; eauto|done].
  intros r Hr. destruct (Hkept r Hr) as [|Hs]; [left; lia|].
  destruct (Z.le_gt_cases (rv_expiry r) now); [by left|]. right.
  apply retain_lookup_Some. split; [done|]. by apply Z.ltb_lt.
Qed.

(** A run of reservations one longer *)
Lemma replay_inv_reserve seen rs clock r :
  replay_inv seen rs clock → rv_time r = clock → seen !! rv_key r = None →
  replay_inv (<[rv_key r := rv_expiry r]> seen) (rs ++ [r]) clock.
Proof.
  intros [Hkept Hknown Honce] Ht Hnone. split.
  - intros q [Hq| ->%list_elem_of_singleton]%elem_of_app; [|right; by rewrite lookup_insert_eq].
    destruct (Hkept q Hq) as [|Hs]; [by left|]. right. rewrite lookup_insert_ne; [done|congruence].
  - intros k e [[<- <-]|[Hne Hk]]%lookup_insert_Some; [exists r; set_solver|].
    destruct (Hknown k e Hk) as (q & Hq & ? & ?). exists q. set_solver.
  - intros i j a b Hij Ha Hb Hkey. apply lookup_app_Some in Hb as [Hb|[Hj Hb]].
    + apply (Honce i j a b Hij); [|done..]. apply lookup_app_Some in Ha as [Ha|[Hi _]]; [done|].
      apply lookup_lt_Some in Hb. lia.
    + apply list_lookup_singleton_Some in Hb as [Hb <-]. rewrite lookup_app_l in Ha by lia.
      destruct (Hkept a (list_elem_of_lookup_2 _ _ _ Ha)) as [|Hs]; [lia|congruence].
Qed.

Lemma replay_inv_authorize rd rq s rs clock clock' :
  replay_inv (gs_nonces s) rs clock → clock_step clock rd clock' →
  replay_inv (nonces_after rd rq s) (rs ++ option_list (reservation rd rq s)) clock'.
Proof.
  intros Hinv Hclock. unfold clock_step in Hclock. unfold nonces_after, reservation.
  assert (∀ a now, guarded rd rq s = Some (a, now) → rd_reserve rd = Some now) as Hg.
  { unfold guarded. intros a now. case_bool_decide; [|done].
    destruct (verify_delegated_signature _ _ _ _ _); [|done]. by destruct (rd_reserve rd) as [t|]; intros [= <- <-]. }
  destruct (guarded rd rq s) as [[a now]|]; cycle 1.
  { cbn. rewrite app_nil_r. destruct (rd_reserve rd) as [now|]; [|by subst]. destruct Hclock as [Hle ->].
    destruct Hinv as [Hkept Hknown Honce]. split; [|done..]. intros r Hr. destruct (Hkept r Hr); [left; lia|by right]. }
  rewrite (Hg a now eq_refl) in Hclock. destruct Hclock as [Hle ->].
  unfold guard_answer, reserve. pose proof (replay_inv_retain _ _ _ _ Hinv Hle) as Hret.
  destruct (retain _ _ !! _) as [e|] eqn:Hkey; cbn [fst snd option_list]; [by rewrite app_nil_r|].
  by apply (replay_inv_reserve _ _ _ (mkReservation (rq_service_id rq) (rq_job_index rq) a now)).
Qed.

(** Both texts say unambiguously what they are about: the key of the replay
    guard the caller, service, job and nonce, and the signed payload the service,
    job, arguments, nonce and end. *)
Lemma address_no_colon a : Forall is_byte a → no_colon (address_hex a).
Proof. intros Ha. do 2 (split; [done|]). by apply hex_encode_no_colon. Qed.

Lemma nonce_key_inj c c' sid sid' idx idx' n n' :
  Forall is_byte c → Forall is_byte c' →
  nonce_key c sid idx n = nonce_key c' sid' idx' n' → c = c' ∧ sid = sid' ∧ idx = idx' ∧ n = n'.
Proof.
  intros Hc Hc' Heq. unfold nonce_key in Heq.
  apply colon_split in Heq as [Ha Heq]; [|by apply address_no_colon..].
  apply colon_split in Heq as [Hs Heq]; [|apply pretty_Z_no_colon..].
  apply colon_split in Heq as [Hi ->]; [|apply pretty_Z_no_colon..].
  apply (inj pretty) in Hs, Hi. apply (inj (String.append "0x")), hex_encode_inj in Ha; naive_solver.
Qed.

Lemma payload_inj sid sid' idx idx' b b' n n' e e' :
  (∀ l, Forall is_byte (tiny_keccak256 l)) →
  delegated_auth_payload sid idx b n e = delegated_auth_payload sid' idx' b' n' e' →
  sid = sid' ∧ idx = idx' ∧ tiny_keccak256 b = tiny_keccak256 b' ∧ n = n' ∧ e = e'.
Proof.
  intros Hk Heq. unfold delegated_auth_payload in Heq. apply (inj (String.append _)) in Heq.
  apply colon_split in Heq as [Hs Heq]; [|apply pretty_Z_no_colon..].
  apply colon_split in Heq as [Hi Heq]; [|apply pretty_Z_no_colon..].
  apply colon_split in Heq as [Hh Heq]; [|by apply hex_encode_no_colon..].
  apply colon_split_last in Heq as [-> He]; [|apply pretty_Z_no_colon..].
  apply (inj pretty) in Hs, Hi, He. by apply hex_encode_inj in Hh.
Qed.

(** *** The invariant of the runs *)



(** The payment that a request under way holds *)
Definition held (x : Accepted * Stage) : option (Accepted * VerifiedPayment) :=
  match x.2 with Numbered p => Some (x.1, p) | _ => None end.

Record world_inv (s0 : GatewayState) (w : World) : Prop := {
  wi_rules : same_rules s0 (gw_state w);
  wi_authorised : Forall (authorised s0) (gw_accepted w);
  wi_paid : ∃ paid, Forall2 pays (gs_payments (gw_state w)) paid ∧ paid ++ (gw_inflight w).*1 ⊆+ gw_accepted w;
  wi_held : Forall (λ x, pays x.2 x.1) (omap held (gw_inflight w));
  wi_ids : ∃ n, 0 ≤ n ∧ gs_call_id (gw_state w) = u64_wrap (1 + n) ∧
             (vp_call_id <$> gs_payments (gw_state w)) ++ (vp_call_id <$> (omap held (gw_inflight w)).*2)
             ⊆+ u64_wrap <$> seqZ 1 n;
  wi_replay : replay_inv (gs_nonces (gw_state w)) (gw_reserved w) (gw_clock w);
}.

Lemma authorised_rules s s' a : same_rules s s' → authorised s' a → authorised s a.
Proof. intros (Hc & Hp & Hj). unfold authorised, resolve_job_policy. by rewrite Hc, Hp, Hj. Qed.

Lemma same_rules_trans s1 s2 s3 : same_rules s1 s2 → same_rules s2 s3 → same_rules s1 s3.
Proof. unfold same_rules. intuition congruence. Qed.

Lemma omap_held_new new : omap held ((λ a, (a, Authorized)) <$> new) = [].
Proof. by induction new. Qed.

Lemma world_inv_authorize s0 rd rq s r s' fl acc rv clock clock' :
  world_inv s0 (mkGatewayWorld s fl acc rv clock) → paid_authorize rd rq s = (r, s') → clock_step clock rd clock' →
  let new := match r with Ok (price, caller) => [mkAccepted rq price caller rd] | Err _ => [] end in
  world_inv s0 (mkGatewayWorld s' (fl ++ ((λ a, (a, Authorized)) <$> new)) (acc ++ new) (rv ++ option_list (reservation rd rq s)) clock').
Proof.
  intros [Hrules Hauth (paid & Hpaid & Hsub) Hheld Hids Hreplay] Hstep Hclock new. cbn in *.
  apply paid_authorize_spec in Hstep as ((Hc & Hp & Hj & _ & Hpay & Hrec & Hid) & Hn & Hok).
  assert (omap held (fl ++ ((λ a, (a, Authorized)) <$> new)) = omap held fl) as Hfl
    by (by rewrite omap_app, omap_held_new, app_nil_r).
  split; cbn.
  - by eapply same_rules_trans.
  - apply Forall_app. split; [done|]. unfold new. destruct r as [[price caller]|]; [|done].
    apply Forall_singleton. apply (authorised_rules _ s); [done|]. by apply Hok.
  - exists paid. rewrite Hpay. split; [done|]. rewrite fmap_app, app_assoc.
    replace ((λ a, (a, Authorized)) <$> new).*1 with new by (unfold new; by destruct r as [[]|]). by apply submseteq_app.
  - by rewrite Hfl.
  - rewrite Hpay, Hid. cbv zeta in Hfl. by rewrite Hfl.
  - rewrite Hn. by eapply replay_inv_authorize.
Qed.

(** A request that goes on, or ends, without a payment *)
Lemma world_inv_move s0 s s' a st fl fl' keep acc rv clock :
  world_inv s0 (mkGatewayWorld s fl acc rv clock) → same_but_quotes s s' → fl ≡ₚ (a, st) :: fl' →
  held (a, st) = None → (keep = [] ∨ ∃ st', keep = [(a, st')] ∧ held (a, st') = None) →
  world_inv s0 (mkGatewayWorld s' (keep ++ fl') acc rv clock).
Proof.
  intros [Hrules Hauth (paid & Hpaid & Hsub) Hheld Hids Hreplay] (Hr & Hn & Hp & Hid) Hfl Hst Hkeep. cbn in *.
  assert (omap held fl ≡ₚ omap held (keep ++ fl')) as Hom.
  { rewrite Hfl. cbn. rewrite Hst. by destruct Hkeep as [->|(st' & -> & Hk)]; cbn; rewrite ?Hk. }
  assert ((keep ++ fl').*1 ⊆+ fl.*1) as Hfst.
  { rewrite Hfl. destruct Hkeep as [->|(st' & -> & _)]; cbn; [by apply submseteq_cons|done]. }
  split; cbn; [by eapply same_rules_trans|done|..|by rewrite Hn].
  - exists paid. rewrite Hp. split; [done|]. etrans; [|done]. by apply submseteq_skips_l.
  - by rewrite <-Hom.
  - destruct Hids as (n & Hn0 & Hc & Hle). exists n. rewrite Hid, Hp. split_and!; [done..|]. by rewrite <-Hom.
Qed.

Lemma world_inv_number s0 a digest p s s' fl fl' acc rv clock :
  world_inv s0 (mkGatewayWorld s fl acc rv clock) → fl ≡ₚ (a, Consumed digest) :: fl' →
  paid_number (ac_request a) (ac_caller a) digest s = (p, s') →
  world_inv s0 (mkGatewayWorld s' ((a, Numbered p) :: fl') acc rv clock).
Proof.
  intros [Hrules Hauth (paid & Hpaid & Hsub) Hheld (n & Hn0 & Hc & Hle) Hreplay] Hfl Hstep. cbn in *.
  apply paid_number_spec in Hstep as (Hr & Hn & Hp & Hid & Hpays & Hcid). rewrite Hfl in Hsub, Hheld, Hle. cbn in Hsub, Hheld, Hle.
  split; cbn; [by eapply same_rules_trans|done|..|by rewrite Hn].
  - exists paid. by rewrite Hp.
  - by constructor.
  - exists (n + 1). rewrite Hid, Hp, Hcid, Hc, u64_wrap_add_l. split_and!; [lia|f_equal; lia|].
    rewrite <-Permutation_middle, Permutation_cons_append, seqZ_app, fmap_app by lia. cbn.
    apply submseteq_app; [done|]. by rewrite seqZ_cons, seqZ_nil by lia.
Qed.

Lemma world_inv_send s0 a p r s s' fl fl' acc rv clock :
  world_inv s0 (mkGatewayWorld s fl acc rv clock) → fl ≡ₚ (a, Numbered p) :: fl' → paid_send (ac_request a) p s = (r, s') →
  world_inv s0 (mkGatewayWorld s' fl' acc rv clock).
Proof.
  intros [Hrules Hauth (paid & Hpaid & Hsub) Hheld (n & Hn0 & Hc & Hle) Hreplay] Hfl Hstep. cbn in *.
  apply paid_send_spec in Hstep as (Hr & Hn & Hid & Hp). rewrite Hfl in Hsub, Hheld, Hle. cbn in Hsub, Hheld, Hle.
  apply Forall_cons in Hheld as [Hpays Hheld].
  split; cbn; [by eapply same_rules_trans|done| |done| |by rewrite Hn].
  - exists (paid ++ match r with Ok _ => [a] | Err _ => [] end). rewrite Hp. split.
    + apply Forall2_app; [done|]. destruct r; [by constructor; [|constructor]|constructor].
    + etrans; [|done]. rewrite <-app_assoc. apply submseteq_skips_l. destruct r; [done|by apply submseteq_cons].
  - exists n. rewrite Hid, Hp. split_and!; [done..|]. etrans; [|done]. rewrite fmap_app, <-app_assoc.
    apply submseteq_skips_l. destruct r; [done|by apply submseteq_cons].
Qed.

Lemma world_inv_step s0 w w' : gateway_step w w' → world_inv s0 w → world_inv s0 w'.
Proof.
  intros Hstep Hinv. destruct Hstep.
  - by apply (world_inv_authorize s0 rd rq s (Ok (price, caller)) s' fl acc rv clock clock').
  - pose proof (world_inv_authorize s0 rd rq s (Err e) s' fl acc rv clock clock') as Hres. cbn in Hres.
    rewrite !app_nil_r in Hres. auto.
  - apply (world_inv_move s0 s s' a Authorized fl fl' [(a, Quoted digest)]); [done|by eapply paid_quote_spec|done|done|right; eauto].
  - apply (world_inv_move s0 s s' a (Quoted digest) fl fl' [(a, Consumed digest)]); [done|by eapply paid_consume_spec|done|done|right; eauto].
  - apply (world_inv_move s0 s s' a (Quoted digest) fl fl' []); [done|by eapply paid_consume_spec|done|done|by left].
  - by eapply world_inv_number.
  - by eapply world_inv_send.
  - destruct Hinv; by split.
  - destruct Hinv; by split.
  - destruct Hinv; by split.
Qed.

(** A gateway that has just been built *)
Definition fresh_gateway (s : GatewayState) : Prop :=
  gs_payments s = [] ∧ gs_call_id s = 1 ∧ gs_nonces s = ∅.

Lemma gateway_new_fresh mpp_new c pricing s :
  gateway_new mpp_new c pricing = Some (Ok s) →
  fresh_gateway s ∧ gs_config s = c ∧ gs_pricing s = pricing ∧ config_validate c = Ok tt ∧
  validate_price_tag_amount_bounds c pricing = Some (Ok tt) ∧
  gs_policies s = foldl (λ m p, <[policy_key p := p]> m) ∅ (job_policies c).
Proof.
  unfold gateway_new. destruct (config_validate c) as [[]|]; [|done]. case_bool_decide; [done|].
  destruct (validate_price_tag_amount_bounds c pricing) as [[[]|]|]; try done.
  destruct (match mpp c with Some m => mpp_new m | None => Ok tt end); [|done]. by intros [= <-].
Qed.

Lemma reachable_inv s0 w : fresh_gateway s0 → gateway_reaches s0 w → world_inv s0 w.
Proof.
  intros (Hp & Hid & Hn) [clock Hreach]. revert Hreach. apply rtc_invariant; [intros v v' Hv Hstep; by apply (world_inv_step s0 v v')|].
  split; cbn; rewrite ?Hp, ?Hid, ?Hn; try done.
  - exists []. by split.
  - by exists 0.
  - split; [|done|done]. intros r Hr. by apply elem_of_nil in Hr.
Qed.

(** The callers of the assertions that were taken are addresses. *)
Lemma reservation_caller rd rq s r :
  reservation rd rq s = Some r → ∃ t, parse_address t = Some (da_caller (rv_assertion r)).
Proof.
  unfold reservation, guarded. case_bool_decide; [|done].
  destruct (verify_delegated_signature _ _ _ _ _) as [a|] eqn:Hv; [|done]. destruct (rd_reserve rd) as [now|]; [|done].
  destruct (guard_answer rq s a now).1; [|done]. intros [= <-]. cbn.
  by apply verify_delegated_ok in Hv as (_ & _ & _ & _ & _ & _ & _ & _ & _ & Hc).
Qed.

Lemma reserved_bytes s0 w :
  (∀ t a, parse_address t = Some a → Forall is_byte a) → gateway_reaches s0 w →
  Forall (λ r, Forall is_byte (da_caller (rv_assertion r))) (gw_reserved w).
Proof.
  intros Hlaw [clock Hreach]. revert Hreach. apply (rtc_invariant _
    (λ w, Forall (λ r, Forall is_byte (da_caller (rv_assertion r))) (gw_reserved w))); [|constructor].
  assert (∀ rd rq s, Forall (λ r, Forall is_byte (da_caller (rv_assertion r))) (option_list (reservation rd rq s))).
  { intros rd rq s. destruct (reservation rd rq s) as [r|] eqn:Hr; [|constructor].
    apply reservation_caller in Hr as [t Ht]. apply Forall_singleton. eauto. }
  intros v v' Hv Hstep. destruct Hstep; cbn in *; rewrite ?Forall_app; auto.
Qed.


(** The replay guard is exact.  Of the assertions whose nonce was taken, two
    for the same caller, service, job and nonce are only there if the first had
    run out when the second was taken; and at any later time a nonce is refused
    exactly if it was taken with an assertion that has not run out. *)
Theorem replay_guard_exact mpp_new c pricing s0 w now caller sid idx nonce expiry :
  gateway_new mpp_new c pricing = Some (Ok s0) → gateway_reaches s0 w →
  (∀ t a, parse_address t = Some a → Forall is_byte a) → gw_clock w ≤ now → Forall is_byte caller →
  (∀ i j a b, (i < j)%nat → gw_reserved w !! i = Some a → gw_reserved w !! j = Some b →
     da_caller (rv_assertion a) = da_caller (rv_assertion b) → rv_service_id a = rv_service_id b →
     rv_job_index a = rv_job_index b → da_nonce (rv_assertion a) = da_nonce (rv_assertion b) →
     da_expiry (rv_assertion a) ≤ rv_time b) ∧
  ((reserve (Some now) caller sid idx nonce expiry (gs_nonces (gw_state w))).1 ≠ Ok tt ↔
   ∃ r, r ∈ gw_reserved w ∧ da_caller (rv_assertion r) = caller ∧ rv_service_id r = sid ∧
        rv_job_index r = idx ∧ da_nonce (rv_assertion r) = nonce ∧ now < da_expiry (rv_assertion r)).
Proof.
  intros Hnew%gateway_new_fresh Hreach Hlaw Hnow Hc. destruct Hnew as [Hfresh _].
  pose proof (reserved_bytes s0 w Hlaw Hreach) as Hbytes.
  destruct (reachable_inv _ _ Hfresh Hreach) as [_ _ _ _ _ [Hkept Hknown Honce]]. split.
  - intros i j a b Hij Ha Hb ? ? ? ?. apply (Honce i j a b Hij Ha Hb). unfold rv_key. congruence.
  - unfold reserve. destruct (retain _ _ !! _) as [e|] eqn:Hkey; cbn [fst]; split; try done.
    + intros _. apply retain_lookup_Some in Hkey as [Hkey Hlt%Z.ltb_lt].
      destruct (Hknown _ _ Hkey) as (r & Hr & Hk & <-). exists r. unfold rv_key in Hk.
      rewrite list.Forall_forall in Hbytes.
      destruct (nonce_key_inj _ _ _ _ _ _ _ _ (Hbytes r Hr) Hc Hk) as (? & ? & ? & ?). split_and!; done.
    + intros (r & Hr & <- & <- & <- & <- & Hlt). exfalso.
      destruct (Hkept r Hr) as [Hle|Hs]; unfold rv_expiry in *; [lia|].
      assert (retain (λ _ e, now <? e) (gs_nonces (gw_state w)) !! rv_key r = Some (da_expiry (rv_assertion r)))
        by (apply retain_lookup_Some; split; [done|by apply Z.ltb_lt]). unfold rv_key in *. congruence.
Qed.

(** ** Behaviour worth knowing *)

(** In the second in which an assertion runs out it is still accepted, and its
    nonce is forgotten at once: it can be used again and again. *)
Lemma replay_in_last_second c sid idx n e seen seen' :
  reserve (Some e) c sid idx n e seen = (Ok tt, seen') →
  (reserve (Some e) c sid idx n e seen').1 = Ok tt.
Proof.
  unfold reserve. destruct (retain _ seen !! _); [done|]. intros [= <-].
  destruct (retain _ (<[_:=_]> _) !! _) as [x|] eqn:Hx; [|done].
  apply retain_lookup_Some in Hx as [Hx Hlt]. rewrite lookup_insert_eq in Hx. simplify_eq. lia.
Qed.

(** A configuration may make [restricted_paid] the default; a job without a
    policy of its own can then never be called, as the default has no way to
    authenticate a caller. *)
Lemma default_restricted_unusable rd rq s price :
  gs_policies s !! (rq_service_id rq, rq_job_index rq) = None →
  default_invocation_mode (gs_config s) = RestrictedPaid →
  gs_pricing s !! (rq_service_id rq, rq_job_index rq) = Some price →
  (handle_paid_job_inner rd rq s).1
  = Err (service_unavailable "invalid_policy" "restricted_paid cannot use auth_mode=payment_only").
Proof.
  intros Hpol Hmode Hprice. unfold handle_paid_job_inner, paid_authorize, resolve_job_policy.
  by rewrite Hprice, Hpol; cbn [default invocation_mode]; rewrite Hmode.
Qed.

End gateway.
Arguments GatewayState : clear implicits.
Arguments GatewayState {_}.
