(* ===== verification/X402Http.v ===== *)
(** * The endpoints of the payment gateway ([x402/src/gateway.rs])

    The handlers of paid requests, prices and dry runs, and the price tags that
    the payment middleware asks for.  A response is a status code and the fields
    of its JSON body. *)

From Stdlib Require Import ZArith Lia Ascii.
From stdpp Require Import base gmap sets list sorting strings pretty fin_maps numbers relations.
From S2P Require Import Prelude Text Bytes JobCore Hex TangleExtract TangleConsumer X402Config X402Quotes X402Gateway.

#[local] Open Scope Z_scope.

(** ** Responses *)

Inductive Json :=
| JStr (s : string)
| JNum (n : Z)
| JBool (b : bool)
| JOptions (os : list SettlementOption).

Record Response := mkResponse { rs_status : Z; rs_json : list (string * Json) }.

(** ** Price tags *)

Inductive AssetTransferMethod := Eip3009 (name version : string) | Permit2.

(** The arguments of [V2Eip155Exact::price_tag] *)
Record PriceTag := mkTag {
  pt_pay_to : EvmAddress;
  pt_chain : Z;
  pt_asset : EvmAddress;
  pt_decimals : Z;
  pt_method : AssetTransferMethod;
  pt_amount : Z;
}.

Section http.
  Context `{DecimalOps} `{ParseAddress} `{Keccak} `{DelegatedAuth} `{PaymentHeaders}.

Definition transfer_method_of (t : AcceptedToken) : AssetTransferMethod :=
  if bool_decide (transfer_method t = "eip3009"%string)
  then Eip3009 (default "USD Coin"%string (eip3009_name t)) (default "2"%string (eip3009_version t))
  else Permit2.

(** The closure of [filter_map]: the outer [None] is a panic of the conversion,
    the inner one a token that is left out *)
Definition price_tag (price_wei : Z) (t : AcceptedToken) : option (option PriceTag) :=
  match convert_wei_to_amount t price_wei with
  | None => None
  | Some (Err _) => Some None
  | Some (Ok amount_str) =>
      Some (chain_str ← strip_prefix "eip155:" (network t);
            chain_id ← parse_u64 chain_str;
            address ← parse_address (asset t);
            payee ← parse_address (pay_to t);
            amount ← parse_u64 amount_str;
            Some (mkTag payee chain_id address (decimals t) (transfer_method_of t) amount))
  end.

Fixpoint price_tags (price_wei : Z) (ts : list AcceptedToken) : option (list PriceTag) :=
  match ts with
  | [] => Some []
  | t :: ts =>
      if negb (String.prefix "eip155:" (network t)) then price_tags price_wei ts
      else tag ← price_tag price_wei t; tags ← price_tags price_wei ts;
           Some (option_list tag ++ tags)
  end.

(** [build_evm_price_tags], from the path of the request *)
Definition build_evm_price_tags (c : X402Config) (job_pricing : gmap (Z * Z) Z) (path : string)
    : option (list PriceTag) :=
  let segments := split_char "/"%char path in
  match segments !! 3%nat ≫= parse_u64, segments !! 4%nat ≫= parse_u32 with
  | Some service_id, Some job_index =>
      match job_pricing !! (service_id, job_index) with
      | Some price_wei => price_tags price_wei (accepted_tokens c)
      | None => Some []
      end
  | _, _ => Some []
  end.

(** ** Handlers *)

(** [PolicyRejection::into_response] *)
Definition into_response (r : PolicyRejection) : Response :=
  mkResponse (pr_status r) [("error"%string, JStr (pr_detail r)); ("code"%string, JStr (pr_code r))].

(** [map_legacy_x402_rejection] *)
Definition map_legacy_x402_rejection (r : PolicyRejection) (service_id job_index : Z) : Response :=
  if bool_decide (pr_code r = "job_not_found"%string) then
    mkResponse 404 [("error"%string, JStr "job not found"); ("service_id"%string, JNum service_id);
                    ("job_index"%string, JNum job_index)]
  else if bool_decide (pr_code r = "quote_conflict"%string) then
    mkResponse 409 [("error"%string, JStr "quote already consumed or expired")]
  else if bool_decide (pr_code r = "shutting_down"%string) then
    mkResponse 503 [("error"%string, JStr "service shutting down")]
  else into_response r.

(** [handle_job_request] *)
Definition handle_job_request (rd : Readings) (service_id job_index : Z) (h : Headers) (body : list Byte8)
    (s : GatewayState) : Response * GatewayState :=
  let attribution := extract_payment_attribution h (gs_config s) in
  match handle_paid_job_inner rd (mkPaid service_id job_index body h attribution ProtoX402) s with
  | (Ok receipt, s) =>
      (mkResponse 202 [("status"%string, JStr "accepted"); ("receipt"%string, JStr (er_digest_hex receipt));
                       ("service_id"%string, JNum service_id); ("job_index"%string, JNum job_index);
                       ("call_id"%string, JNum (er_call_id receipt))], s)
  | (Err rej, s) => (map_legacy_x402_rejection rej service_id job_index, s)
  end.

(** [get_job_price]: [None] is a panic of the conversion *)
Definition get_job_price (service_id job_index : Z) (s : GatewayState)
    : option Response * GatewayState :=
  match gs_pricing s !! (service_id, job_index) with
  | None =>
      (Some (mkResponse 404 [("error"%string, JStr "job not found"); ("service_id"%string, JNum service_id);
                             ("job_index"%string, JNum job_index)]), bump CJobNotFound s)
  | Some price_wei =>
      let policy := resolve_job_policy s service_id job_index in
      if bool_decide (invocation_mode policy = Disabled) then
        (Some (mkResponse 403 [("error"%string, JStr "job is not enabled for x402"); ("code"%string, JStr "x402_disabled");
                               ("service_id"%string, JNum service_id); ("job_index"%string, JNum job_index)]), s)
      else
        (match settlement_options (gs_config s) service_id job_index price_wei with
         | None => None
         | Some (Ok options) =>
             Some (mkResponse 200 [("service_id"%string, JNum service_id); ("job_index"%string, JNum job_index);
                                   ("price_wei"%string, JStr (pretty price_wei));
                                   ("settlement_options"%string, JOptions options)])
         | Some (Err e) => Some (mkResponse 500 [("error"%string, JStr (display_x402_error e))])
         end, s)
  end.

(** [post_auth_dry_run] *)
Definition post_auth_dry_run (rd : Readings) (service_id job_index : Z) (h : Headers) (body : list Byte8)
    (s : GatewayState) : Response * GatewayState :=
  match gs_pricing s !! (service_id, job_index) with
  | None =>
      (mkResponse 404 [("allowed"%string, JBool false); ("error"%string, JStr "job not found");
                       ("service_id"%string, JNum service_id); ("job_index"%string, JNum job_index)], bump CJobNotFound s)
  | Some _ =>
    let policy := resolve_job_policy s service_id job_index in
    match invocation_mode policy with
    | Disabled =>
        (mkResponse 403 [("allowed"%string, JBool false); ("code"%string, JStr "x402_disabled");
                         ("error"%string, JStr "job is not enabled for x402 invocation");
                         ("service_id"%string, JNum service_id); ("job_index"%string, JNum job_index)],
         bump CDryRunDenied s)
    | PublicPaid =>
        (mkResponse 200 [("allowed"%string, JBool true); ("mode"%string, JStr "public_paid");
                         ("service_id"%string, JNum service_id); ("job_index"%string, JNum job_index)],
         bump CDryRunAllowed s)
    | RestrictedPaid =>
        match authorize_restricted_job rd policy service_id job_index body h false s with
        | (Ok caller, s) =>
            (mkResponse 200 [("allowed"%string, JBool true); ("mode"%string, JStr "restricted_paid");
                             ("caller"%string, JStr (address_hex caller));
                             ("service_id"%string, JNum service_id); ("job_index"%string, JNum job_index)],
             bump CDryRunAllowed s)
        | (Err rejection, s) =>
            (into_response rejection,
             if (pr_status rejection =? 403) || (pr_status rejection =? 409)
             then bump CDryRunDenied s else bump CDryRunError s)
        end
    end
  end.

(** ** Price tags: theorems *)

(** The tag of a token: its chain, addresses and the converted price *)
Definition tag_of (price_wei : Z) (t : AcceptedToken) (tag : PriceTag) : Prop :=
  (∃ chain, network t = "eip155:" +:+ chain ∧ parse_u64 chain = Some (pt_chain tag)) ∧
  parse_address (asset t) = Some (pt_asset tag) ∧ parse_address (pay_to t) = Some (pt_pay_to tag) ∧
  pt_decimals tag = decimals t ∧ pt_method tag = transfer_method_of t ∧
  ∃ amount, convert_wei_to_amount t price_wei = Some (Ok amount) ∧ parse_u64 amount = Some (pt_amount tag).

Lemma check_all_ok {A} (f : A → option (result X402Error unit)) l x :
  check_all f l = Some (Ok tt) → x ∈ l → f x = Some (Ok tt).
Proof.
  induction l as [|y l IH]; cbn; [by intros _ ?%elem_of_nil|]. intros Hall Hx.
  destruct (f y) as [[[]|]|] eqn:Hy; [|done..]. apply elem_of_cons in Hx as [->|Hx]; [done|by apply IH].
Qed.

Lemma price_tag_ok price t key :
  token_ok t → amount_bound key price t = Some (Ok tt) → ∃ tag, price_tag price t = Some (Some tag) ∧ tag_of price t tag.
Proof.
  intros [(chain & id & Hn & Hid) ([a Ha] & [p Hp] & _)]. unfold amount_bound, price_tag, tag_of.
  destruct (convert_wei_to_amount t price) as [[amount|]|]; [|done..].
  destruct (parse_u64 amount) as [x|] eqn:Hx; [|done]. intros _.
  rewrite (proj2 (strip_prefix_some _ _ chain) Hn). cbn [mbind option_bind]. rewrite Hid. cbn [mbind option_bind].
  rewrite Ha. cbn [mbind option_bind]. rewrite Hp. cbn [mbind option_bind].
  eexists. split; [done|]. cbn. eauto 12.
Qed.

Lemma prefix_of_append p s : String.prefix p (p +:+ s) = true.
Proof.
  induction p as [|a p IH]; [by destruct s|]. change (String a p +:+ s) with (String a (p +:+ s)). cbn.
  destruct (ascii_dec a a); [done|congruence].
Qed.

Lemma price_tags_ok price key ts :
  Forall token_ok ts → (∀ t, t ∈ ts → amount_bound key price t = Some (Ok tt)) →
  ∃ tags, price_tags price ts = Some tags ∧ Forall2 (tag_of price) ts tags.
Proof.
  induction 1 as [|t ts Ht Hts IH]; intros Hb; cbn; [by exists []|].
  destruct (price_tag_ok price t key Ht) as (tag & Htag & Hof); [apply Hb; set_solver|].
  destruct IH as (tags & Htags & Hall); [intros; apply Hb; set_solver|].
  destruct Ht as [(chain & _ & Hn & _) _]. rewrite Hn, prefix_of_append. cbn [negb].
  rewrite Htag. cbn [mbind option_bind]. rewrite Htags. cbn. eexists. split; [done|]. by constructor.
Qed.

Definition job_path (service_id job_index : Z) : string :=
  "/x402/jobs/" +:+ pretty service_id +:+ "/" +:+ pretty job_index.

Lemma job_path_segments sid idx :
  0 ≤ sid → 0 ≤ idx →
  split_char "/"%char (job_path sid idx) = [""; "x402"; "jobs"; pretty sid; pretty idx]%string.
Proof.
  intros Hs Hi. change (job_path sid idx) with
    ("" +:+ String "/" ("x402" +:+ String "/" ("jobs" +:+ String "/" (pretty sid +:+ String "/" (pretty idx))))).
  rewrite !split_char_app; [|by apply pretty_lacks|by repeat constructor..].
  rewrite split_char_lacks; [done|by apply pretty_lacks].
Qed.

Lemma price_tags_all mpp_new c pricing s sid idx price :
  gateway_new mpp_new c pricing = Some (Ok s) → pricing !! (sid, idx) = Some price →
  is_u64 sid → is_u32 idx →
  ∃ tags, build_evm_price_tags c pricing (job_path sid idx) = Some tags ∧
          Forall2 (tag_of price) (accepted_tokens c) tags.
Proof.
  intros Hnew Hprice Hs Hi. apply gateway_new_fresh in Hnew as (_ & _ & _ & Hval & Hbound & _).
  apply config_validate_ok in Hval as (Htok & _). unfold build_evm_price_tags.
  unfold is_u64, is_u32 in *. rewrite job_path_segments by lia.
  change ([""; "x402"; "jobs"; pretty sid; pretty idx]%string !! 3%nat) with (Some (pretty sid)).
  change ([""; "x402"; "jobs"; pretty sid; pretty idx]%string !! 4%nat) with (Some (pretty idx)).
  cbn [mbind option_bind]. unfold parse_u32.
  rewrite !parse_u64_pretty by (unfold is_u64; lia). cbn [mbind option_bind].
  rewrite (proj2 (Z.leb_le idx u32_max)) by (unfold u32_max; lia). rewrite Hprice.
  apply (price_tags_ok price (sid, idx)); [done|]. intros t Ht.
  assert (((sid, idx), price) ∈ map_to_list pricing) as Hin by (by apply elem_of_map_to_list).
  pose proof (check_all_ok _ _ _ Hbound Hin) as Hall. by apply (check_all_ok _ _ t Hall).
Qed.

(** No payment option is lost: a gateway that starts offers every job with a
    price in every accepted token, each with the addresses and the chain of the
    token and an amount that is the converted price and fits a [u64]. *)
Theorem price_tags_complete mpp_new c pricing s sid idx price :
  gateway_new mpp_new c pricing = Some (Ok s) → pricing !! (sid, idx) = Some price →
  is_u64 sid → is_u32 idx →
  ∃ tags, build_evm_price_tags c pricing (job_path sid idx) = Some tags ∧
          Forall2 (tag_of price) (accepted_tokens c) tags.
Proof. apply price_tags_all. Qed.

(** ** Dry runs: theorems *)

(** The part of the state that only paid requests change *)
Lemma authorize_no_guard rd policy sid idx b h s r s' :
  authorize_restricted_job rd policy sid idx b h false s = (r, s') → s' = s.
Proof.
  unfold authorize_restricted_job, authorize_restricted_job_with_payer, restricted_caller.
  destruct (auth_mode policy).
  - destruct (if negb _ then _ else _); by intros [= _ <-].
  - destruct (verify_delegated_signature _ _ _ _ _); by intros [= _ <-].
  - by intros [= _ <-].
Qed.

(** A rejection is no success. *)
Definition rejects {A} (r : result PolicyRejection A) : Prop := ∀ e, r = Err e → pr_status e ≠ 200.

Lemma rejects_ok {A} (a : A) : rejects (Ok a).
Proof. by intros e. Qed.

Lemma rejects_err {A} e : pr_status e ≠ 200 → rejects (Err e : result _ A).
Proof. by intros ? ? [= <-]. Qed.

Lemma rejects_bind {A B} (o : option A) e (f : A → result PolicyRejection B) :
  pr_status e ≠ 200 → (∀ a, rejects (f a)) → rejects (a ← ok_or o e; f a).
Proof. intros He Hf. destruct o; cbn; [apply Hf|by apply rejects_err]. Qed.

Lemma rejects_if {A} (b : bool) (x y : result PolicyRejection A) :
  rejects x → rejects y → rejects (if b then x else y).
Proof. by destruct b. Qed.

Ltac rejects_tac :=
  cbv zeta;
  lazymatch goal with
  | |- rejects (if _ then _ else _) => apply rejects_if; rejects_tac
  | |- rejects (ok_or _ _ ≫= _) => apply rejects_bind; [done|intros; rejects_tac]
  | |- rejects (Err _) => apply rejects_err; done
  | |- _ => apply rejects_ok
  end.

Lemma verify_rejects now sid idx b h : rejects (verify_delegated_signature now sid idx b h).
Proof. unfold verify_delegated_signature. rejects_tac. Qed.

Lemma permission_rejects rd policy sid c : rejects (permission_check rd policy sid c).
Proof.
  unfold permission_check. do 3 (apply rejects_bind; [done|intros]).
  destruct (rd_permitted _ _ _ _ _) as [[]|]; cbn [map_err mbind result_bind negb]; rejects_tac.
Qed.

Lemma reserve_err now c sid idx n e seen r :
  (reserve now c sid idx n e seen).1 = Err r → r = clock_error ∨ pr_code r = "signature_replay"%string.
Proof.
  unfold reserve. destruct now; [|by intros [= <-]; left]. destruct (_ !! _); [|done].
  intros [= <-]. by right.
Qed.

(** The caller that a dry run and a paid request determine *)
Lemma dry_run_caller rd policy sid idx b h s attribution :
  attribution = extract_payment_attribution h (gs_config s) →
  let dry := (restricted_caller rd policy sid idx b h None ProtoX402 false s).1 in
  let paid := (restricted_caller rd policy sid idx b h (settled_payer attribution) ProtoX402 true s).1 in
  rejects dry ∧ (paid = dry ∨ (∃ c, dry = Ok c) ∧
    ∃ e, paid = Err e ∧ (e = clock_error ∨ pr_code e = "signature_replay"%string)).
Proof.
  intros ->. unfold restricted_caller. destruct (auth_mode policy); cbn [fst].
  - rewrite bool_decide_true by done. cbn [negb].
    assert (settled_payer (extract_payment_attribution h (gs_config s)) = parse_settlement_details h ≫= sd_payer) as ->
      by (unfold extract_payment_attribution; by destruct (attribution_loop _ _ _ _)).
    split; [|left; by destruct (parse_settlement_details h) as [[[p|] ?]|]].
    apply rejects_bind; [done|]. intros d. destruct (sd_payer d); cbn; [apply rejects_ok|by apply rejects_err].
  - pose proof (verify_rejects (rd_verify rd) sid idx b h) as Hv.
    destruct (verify_delegated_signature _ _ _ _ _) as [a|e]; cbn [fst]; [|split; [apply rejects_err, (Hv e eq_refl)|by left]].
    split; [apply rejects_ok|].
    destruct (reserve _ _ _ _ _ _ _) as [[[]|e] seen] eqn:Hr; cbn [fst]; [by left|]. right. split; [eauto|].
    exists e. split; [done|]. eapply reserve_err. by rewrite Hr.
  - split; [by apply rejects_err|by left].
Qed.

(** The dry run is faithful: it changes nothing but counters, it allows every
    request that the paid endpoint would authorise, and a request that it allows
    is authorised when paid for, unless the nonce of its assertion was used or
    the clock cannot be read. *)
Theorem dry_run_agrees rd sid idx h b s resp s1 r s2 :
  post_auth_dry_run rd sid idx h b s = (resp, s1) →
  paid_authorize rd (mkPaid sid idx b h (extract_payment_attribution h (gs_config s)) ProtoX402) s = (r, s2) →
  same_but_nonces s s1 ∧ gs_nonces s1 = gs_nonces s ∧
  (is_Ok r → rs_status resp = 200) ∧
  (rs_status resp = 200 → is_Ok r ∨ ∃ e, r = Err e ∧ (e = clock_error ∨ pr_code e = "signature_replay"%string)).
Proof.
  unfold post_auth_dry_run, paid_authorize. cbn [rq_service_id rq_job_index rq_body rq_headers rq_attribution rq_protocol].
  destruct (gs_pricing s !! (sid, idx)) as [price|]; [|intros [= <- <-] [= <- <-]; split_and!; [done|done|by intros [? ?]|done]].
  destruct (invocation_mode _);
    [intros [= <- <-] [= <- <-]; split_and!; [done|done|by intros [? ?]|done]
    |intros [= <- <-] [= <- <-]; split_and!; [done|done|done|left; by eexists]|].
  set (policy := resolve_job_policy s sid idx).
  destruct (authorize_restricted_job rd policy sid idx b h false s) as [dry s'] eqn:Hdry.
  pose proof (authorize_no_guard _ _ _ _ _ _ _ _ _ Hdry) as ->. revert Hdry.
  unfold authorize_restricted_job, authorize_restricted_job_with_payer.
  pose proof (dry_run_caller rd policy sid idx b h s _ eq_refl) as [Hrej Hcases]. revert Hrej Hcases. cbv zeta.
  destruct (restricted_caller rd policy sid idx b h None _ _ s) as [rd0 sd0].
  destruct (restricted_caller rd policy sid idx b h (settled_payer _) _ _ s) as [rp sp]. cbn [fst].
  intros Hrej Hcases Hdry Hresp Hpaid. pose proof (permission_rejects rd policy sid) as Hperm.
  assert (same_but_nonces s s1 ∧ gs_nonces s1 = gs_nonces s) as [Hs1 Hs2].
  { destruct dry; simplify_eq; [done|]. by destruct (_ || _). }
  split; [done|]. split; [done|].
  destruct rd0 as [c|e]; simplify_eq.
  - specialize (Hperm c). destruct (permission_check rd policy sid c) as [c'|e] eqn:Hp; simplify_eq; cbn.
    + split; [done|]. intros _. destruct Hcases as [->|[_ (e & -> & He)]].
      * rewrite Hp in Hpaid. left. simplify_eq. by eexists.
      * right. simplify_eq. eauto.
    + destruct Hcases as [->|[_ (e' & -> & He)]].
      * rewrite Hp in Hpaid. simplify_eq. split; [by intros [? ?]|]. intros Hst. by destruct (Hperm e).
      * simplify_eq. split; [by intros [? ?]|]. eauto.
  - cbn. destruct Hcases as [->|[[? ?] _]]; [|done]. simplify_eq. split; [by intros [? ?]|].
    intros Hst. by destruct (Hrej e).
Qed.

(** ** Behaviour worth knowing *)

(** A job that is disabled is charged for all the same: the middleware is given
    the price tags of the job and settles the payment before the handler, which
    then answers 403. *)
Lemma disabled_job_charged mpp_new c pricing s rd sid idx price h b :
  gateway_new mpp_new c pricing = Some (Ok s) → pricing !! (sid, idx) = Some price →
  is_u64 sid → is_u32 idx → invocation_mode (resolve_job_policy s sid idx) = Disabled →
  (∃ tags, build_evm_price_tags c pricing (job_path sid idx) = Some tags ∧ length tags = length (accepted_tokens c)) ∧
  rs_status (handle_job_request rd sid idx h b s).1 = 403.
Proof.
  intros Hnew Hprice Hs Hi Hmode. split.
  - destruct (price_tags_all _ _ _ _ _ _ _ Hnew Hprice Hs Hi) as (tags & Htags & Hall).
    exists tags. split; [done|]. symmetry. by eapply Forall2_length.
  - apply gateway_new_fresh in Hnew as (_ & _ & <- & _).
    unfold handle_job_request, handle_paid_job_inner, paid_authorize. cbn [rq_service_id rq_job_index].
    by rewrite Hprice, Hmode.
Qed.

(** The call id of a paid call is a number of the gateway, under the key of the
    call ids of the contract: the result of a paid call that passes the
    submission layer is submitted as the result of the contract's call with that
    number. *)
Lemma paid_result_submitted p E (output : list Byte8) :
  is_u64 (vp_service_id p) → is_u64 (vp_call_id p) →
  ∃ r, submission_call (F := E) (E := E) (λ _, Ok (Some (JobOk ∅ output))) (into_job_call p) = Ok (Some r) ∧
       start_send r = Ok (Some (mkDerived (vp_service_id p) (vp_call_id p) output)).
Proof.
  intros Hs Hc. destruct (payment_call_ids p Hs Hc) as [Hsid Hcid]. unfold submission_call. rewrite Hcid, Hsid.
  eexists. split; [done|]. unfold start_send.
  rewrite lookup_insert_ne, !lookup_insert_eq by done. cbn. by rewrite !mv_u64_round_trip.
Qed.

End http.

(** ** Witnesses *)

(** Integers for decimals, and texts for addresses and signatures: a signature
    is the name of its signer *)
#[local] Instance toy_decimal : DecimalOps := {|
  Dec := Z;
  dec_from_str_exact s := ok_or (parse_u64 s) "not a number"%string;
  dec_from z := z;
  dec_add a b := Some (a + b);
  dec_mul a b := Some (a * b);
  dec_div a b := if b =? 0 then None else Some (a / b);
  dec_floor a := a;
  dec_leb := Z.leb;
  dec_to_string := pretty;
|}.
#[local] Instance toy_addresses : ParseAddress := {| parse_address s := Some (str_bytes s) |}.
#[local] Instance toy_hash : Keccak := {| tiny_keccak256 l := l |}.
#[local] Instance toy_signatures : DelegatedAuth := {|
  AuthSig := string;
  parse_signature := Some;
  recover_address_from_msg s _ := Some (str_bytes s);
  checksum_address := string_of_bytes;
|}.
#[local] Instance toy_headers : PaymentHeaders := {|
  decode_settlement l := Some (SettleSuccess (string_of_bytes l) "eip155:1");
  decode_payment _ := None;
|}.

Lemma toy_address_bytes t a : parse_address t = Some a → Forall is_byte a.
Proof.
  intros [= <-]. induction t as [|c t IH]; [constructor|]. constructor; [|done].
  unfold is_byte. pose proof (N_ascii_bounded c). lia.
Qed.

Definition demo_token : AcceptedToken :=
  mkToken "eip155:8453" "usdc" "USDC" 6 "operator" 3 0 "permit2" None None.
Definition demo_policy : JobPolicyConfig :=
  mkPolicy 1 0 RestrictedPaid DelegatedCallerSignature (Some "http://node"%string) (Some "tangle"%string).
Definition demo_config : X402Config :=
  mkX402 "0.0.0.0:8402" "http://facilitator" 300 [demo_token] PublicPaid [demo_policy] 1 None.
Definition demo_pricing : gmap (Z * Z) Z := {[ (1, 0) := 5 * 10 ^ 18; (1, 1) := 10 ^ 18 ]}.
Definition demo_gateway : GatewayState :=
  mkGateway demo_config demo_pricing (<[(1, 0) := demo_policy]> ∅) (registry_new (from_secs 300)) [] true 1 ∅ (λ _, 0).

Definition demo_readings : Readings := mkReadings (Some 100) (Some 100) (λ _ _ _ _, Ok true) 0 7 0.
Definition demo_headers : Headers :=
  {[ HEADER_CALLER := str_bytes "alice"; HEADER_CALLER_SIG := str_bytes "alice";
     HEADER_CALLER_NONCE := str_bytes "n1"; HEADER_CALLER_EXPIRY := str_bytes "160" ]}.
Definition demo_paid : PaidRequest :=
  mkPaid 1 0 [42] demo_headers (extract_payment_attribution demo_headers demo_config) ProtoX402.
Definition demo_authorized : GatewayState := (paid_authorize demo_readings demo_paid demo_gateway).2.
Definition demo_accepted : Accepted := mkAccepted demo_paid (5 * 10 ^ 18) (Some (str_bytes "alice")) demo_readings.
Definition demo_quoted : list Byte8 * GatewayState := paid_quote demo_readings demo_paid (5 * 10 ^ 18) demo_authorized.
Definition demo_consumed : GatewayState := (paid_consume demo_readings demo_quoted.1 demo_quoted.2).2.
Definition demo_numbered : VerifiedPayment * GatewayState :=
  paid_number demo_paid (Some (str_bytes "alice")) demo_quoted.1 demo_consumed.
Definition demo_enqueued : GatewayState :=
  (paid_enqueue demo_readings demo_paid (5 * 10 ^ 18) (Some (str_bytes "alice")) demo_authorized).2.
Definition demo_world : World :=
  mkGatewayWorld demo_enqueued [] [demo_accepted]
    [mkReservation 1 0 (mkAssertion (str_bytes "alice") "n1" 160) 100] 100.

Lemma demo_gateway_new : gateway_new (λ _, Ok tt) demo_config demo_pricing = Some (Ok demo_gateway).
Proof. vm_compute. reflexivity. Qed.

Lemma demo_reached : gateway_reaches demo_gateway demo_world.
Proof.
  exists 0. eapply rtc_l; [|eapply rtc_l; [|eapply rtc_l; [|eapply rtc_l; [|apply rtc_once]]]].
  - apply (step_accept demo_readings demo_paid demo_gateway demo_authorized (5 * 10 ^ 18) (Some (str_bytes "alice"))
      [] [] [] 0 100); [|by split].
    unfold demo_authorized. rewrite (surjective_pairing (paid_authorize _ _ _)). by f_equal.
  - apply (step_quote demo_readings demo_accepted _ demo_quoted.2 demo_quoted.1 _ []); [reflexivity|]. apply surjective_pairing.
  - apply (step_consume demo_readings demo_accepted demo_quoted.1 _ demo_consumed _ []); [reflexivity|].
    unfold demo_consumed. rewrite (surjective_pairing (paid_consume _ _ _)). by f_equal.
  - apply (step_number demo_accepted demo_quoted.1 demo_numbered.1 _ demo_numbered.2 _ []); [reflexivity|]. apply surjective_pairing.
  - eapply (step_send demo_accepted demo_numbered.1); [reflexivity|].
    rewrite (surjective_pairing (paid_send _ _ _)). by f_equal.
Qed.


Lemma replay_guard_exact_witness :
  (reserve (Some 100) (str_bytes "alice") 1 0 "n1" 160 (gs_nonces demo_enqueued)).1 ≠ Ok tt.
Proof.
  apply (replay_guard_exact (λ _, Ok tt) demo_config demo_pricing demo_gateway demo_world
           100 (str_bytes "alice") 1 0 "n1" 160 demo_gateway_new demo_reached toy_address_bytes).
  - cbn. lia.
  - exact (toy_address_bytes "alice" _ eq_refl).
  - eexists. split; [by apply list_elem_of_singleton|]. cbn. split_and!; [done..|lia].
Defined.

Lemma price_tags_complete_witness :
  ∃ tags, build_evm_price_tags demo_config demo_pricing (job_path 1 0) = Some tags ∧
          Forall2 (tag_of (5 * 10 ^ 18)) [demo_token] tags.
Proof.
  apply (price_tags_complete (λ _, Ok tt) demo_config demo_pricing demo_gateway 1 0 (5 * 10 ^ 18) demo_gateway_new).
  - vm_compute. reflexivity.
  - unfold is_u64. lia.
  - unfold is_u32. lia.
Defined.

Lemma dry_run_agrees_witness :
  rs_status (post_auth_dry_run demo_readings 1 0 demo_headers [42] demo_gateway).1 = 200 ∧
  is_Ok (paid_authorize demo_readings demo_paid demo_gateway).1.
Proof.
  split; [vm_compute; reflexivity|].
  destruct (dry_run_agrees demo_readings 1 0 demo_headers [42] demo_gateway _ _ _ _
    (surjective_pairing _) (surjective_pairing _)) as (_ & _ & _ & Hok).
  destruct Hok as [Hok|(e & He & _)]; [vm_compute; reflexivity|exact Hok|].
  vm_compute in He. discriminate He.
Defined.
