(* ===== verification/AuthTypes.v ===== *)
(** * Credentials of the authentication proxy ([auth/src/types.rs],
      [api_tokens.rs], [api_keys.rs], [auth_token.rs], [validation.rs],
      [request_auth.rs])

    Service identifiers, the three kinds of credentials and how they are
    generated and parsed, the headers a credential carries, and the scopes an
    upstream service reads from them.  The [base64] crate, the hash functions,
    [crc32] and the lower-casing of text that is not ASCII are parameters; random
    bytes and clock readings are arguments. *)

From Stdlib Require Import ZArith Lia Ascii.
From stdpp Require Import base gmap sets list sorting strings pretty fin_maps numbers relations.
From S2P Require Import Prelude Bytes Text JobCore Hex.

#[local] Open Scope Z_scope.

(** ** Text *)

(** [str::split_once] at a character *)
Fixpoint split_once (c : ascii) (s : string) : option (string * string) :=
  match s with
  | EmptyString => None
  | String a s =>
      if bool_decide (a = c) then Some (EmptyString, s)
      else p ← split_once c s; Some (String a p.1, p.2)
  end.

(** [str::matches] of a character, counted *)
Definition count_char (c : ascii) (s : string) : nat := length (filter (λ a, a = c) (chars s)).

Definition is_ascii (a : ascii) : bool := (N_of_ascii a <? 128)%N.
Definition is_ascii_alphanumeric (a : ascii) : bool :=
  let n := N_of_ascii a in
  is_digit a || ((65 <=? n) && (n <=? 90))%N || ((97 <=? n) && (n <=? 122))%N.

(** A string all of whose characters satisfy [f] *)
Definition all_chars (f : ascii → bool) (s : string) : bool := forallb f (chars s).

(** [str::to_lowercase], which agrees with [to_ascii_lowercase] on ASCII *)
Class Lowercase := {
  to_lowercase : string → string;
  to_lowercase_ascii s : all_chars is_ascii s = true → to_lowercase s = to_ascii_lowercase s;
}.

(** The items of a [BTreeMap<String, _>], in the order of the keys *)
Fixpoint insert_item {A} (x : string * A) (l : list (string * A)) : list (string * A) :=
  match l with
  | [] => [x]
  | y :: l => if String.leb x.1 y.1 then x :: y :: l else y :: insert_item x l
  end.
Definition sort_items {A} (l : list (string * A)) : list (string * A) := foldr insert_item [] l.
Definition btree_items {A} (m : gmap string A) : list (string * A) := sort_items (map_to_list m).

(** ** Service identifiers *)

Record ServiceId := mkServiceId { sid_main : Z; sid_sub : Z }.

#[global] Instance ServiceId_eq_dec : EqDecision ServiceId.
Proof. solve_decision. Defined.

(** [ServiceId::new], [with_subservice], [has_sub_id] *)
Definition service_id_new (main : Z) : ServiceId := mkServiceId main 0.
Definition with_subservice (s : ServiceId) (sub : Z) : ServiceId := mkServiceId (sid_main s) sub.
Definition has_sub_id (s : ServiceId) : bool := negb (sid_sub s =? 0).

(** [ServiceId::to_be_bytes], [ServiceId::from_be_bytes] *)
Definition service_to_be_bytes (s : ServiceId) : list Byte8 :=
  to_be_bytes 8 (sid_main s) ++ to_be_bytes 8 (sid_sub s).
Definition service_from_be_bytes (l : list Byte8) : ServiceId :=
  mkServiceId (from_be_bytes (slice l 0 8)) (from_be_bytes (slice l 8 16)).

Inductive ServiceIdParseError := ParseInt | SidMalformed.

(** [ServiceId::from_str] *)
Definition service_from_str (s : string) : result ServiceIdParseError ServiceId :=
  match split_char ":" s with
  | [main_str; sub_str] =>
      main ← ok_or (parse_u64 main_str) ParseInt;
      sub ← ok_or (parse_u64 sub_str) ParseInt;
      Ok (mkServiceId main sub)
  | [main_str] => main ← ok_or (parse_u64 main_str) ParseInt; Ok (service_id_new main)
  | _ => Err SidMalformed
  end.

(** [impl Display for ServiceId] *)
Definition service_display (s : ServiceId) : string :=
  if has_sub_id s then pretty (sid_main s) +:+ ":" +:+ pretty (sid_sub s)
  else pretty (sid_main s) +:+ ":0".

Inductive AuthKeyType := KeyUnknown | KeyEcdsa | KeySr25519 | KeyBn254Bls.

#[global] Instance AuthKeyType_eq_dec : EqDecision AuthKeyType.
Proof. solve_decision. Defined.

(** ** Legacy tokens *)

Record GeneratedApiToken := mkGenToken {
  gt_plaintext : string;
  gt_token : string;
  gt_service_id : ServiceId;
  gt_expires_at : option Z;
  gt_additional_headers : gmap string string;
}.

(** The [base64] engine with the URL-safe alphabet and no padding, the CRC and
    the hash *)
Class AuthCodec := {
  base64_encode : list Byte8 → string;
  crc32 : list Byte8 → Z;
  keccak_v256 : list Byte8 → list Byte8;
}.

Definition is_url_safe (a : ascii) : bool :=
  is_ascii_alphanumeric a || bool_decide (a = "-"%char) || bool_decide (a = "_"%char).

Class AuthCodecLaws (C : AuthCodec) := {
  base64_alphabet l : all_chars is_url_safe (base64_encode l) = true;
  base64_inj l l' : Forall is_byte l → Forall is_byte l' → base64_encode l = base64_encode l' → l = l';
  keccak_v256_bytes m : Forall is_byte (keccak_v256 m) ∧ length (keccak_v256 m) = 32%nat;
}.

Section auth.
  Context `{Lowercase} `{AuthCodec}.

(** The hash of a text, as it is stored *)
Definition hash_text (s : string) : string := base64_encode (keccak_v256 (str_bytes s)).

(** [ApiTokenGenerator::generate_token_with_expiration_and_headers] with the
    given prefix and 40 random bytes *)
Definition generate_token_with_expiration_and_headers (prefix_ : string) (service_id : ServiceId) (expires_at : Z)
    (additional_headers : gmap string string) (token : list Byte8) : GeneratedApiToken :=
  let token := token ++ to_be_bytes 4 (crc32 token) in
  let final_token := prefix_ +:+ base64_encode token in
  mkGenToken final_token (hash_text final_token) service_id
    (if negb (expires_at =? 0) then Some expires_at else None) additional_headers.

(** [GeneratedApiToken::plaintext] *)
Definition token_plaintext (t : GeneratedApiToken) (id : Z) : string := pretty id +:+ "|" +:+ gt_plaintext t.

Record ApiToken := mkApiToken { tok_id : Z; tok_text : string }.

Inductive ParseApiTokenError := MalformedToken | InvalidTokenId.

(** [ApiToken::from_str] *)
Definition api_token_from_str (s : string) : result ParseApiTokenError ApiToken :=
  if 512 <? Z.of_nat (String.length s) then Err MalformedToken
  else if negb (count_char "|" s =? 1)%nat then Err MalformedToken
  else
    let '(id_part, token_part) :=
      match split_once "|" s with Some (a, b) => (a, Some b) | None => (s, None) end in
    if bool_decide (id_part = "") then Err InvalidTokenId
    else
      id ← ok_or (parse_u64 id_part) InvalidTokenId;
      token_part ← ok_or token_part MalformedToken;
      if bool_decide (token_part = "") then Err MalformedToken else Ok (mkApiToken id token_part).

(** [impl Display for ApiToken] *)
Definition api_token_display (t : ApiToken) : string := pretty (tok_id t) +:+ "|" +:+ tok_text t.

(** ** API keys *)

Record GeneratedApiKey := mkGenKey {
  gk_key_id : string;
  gk_full_key : string;
  gk_service_id : ServiceId;
  gk_expires_at : Z;
  gk_default_headers : gmap string string;
}.

(** [ApiKeyGenerator::generate_key] with the given prefix and 32 random bytes *)
Definition generate_key (prefix_ : string) (service_id : ServiceId) (expires_at : Z)
    (default_headers : gmap string string) (secret_bytes : list Byte8) : GeneratedApiKey :=
  let key_id := prefix_ +:+ base64_encode (take 8 secret_bytes) in
  let secret_part := base64_encode (drop 8 secret_bytes) in
  mkGenKey key_id (key_id +:+ "." +:+ secret_part) service_id expires_at default_headers.

(** ** Parsing a bearer credential *)

Inductive AuthTokenError := InvalidFormat | LegacyToken (e : ParseApiTokenError) | MalformedApiKey.
Inductive AuthToken := Legacy (t : ApiToken) | ApiKey (k : string).

(** [AuthToken::parse]; access tokens are left to the caller *)
Definition auth_token_parse (s : string) : result AuthTokenError AuthToken :=
  if String.prefix "v4.local." s then Err InvalidFormat
  else if contains "|" s then map_err LegacyToken (Legacy <$> api_token_from_str s)
  else if contains "." s then Ok (ApiKey s)
  else Err InvalidFormat.

(** ** Headers *)

Definition MAX_HEADERS : Z := 8.
Definition MAX_HEADER_NAME_LEN : Z := 256.
Definition MAX_HEADER_VALUE_LEN : Z := 512.
Definition FORBIDDEN_HEADERS : list string :=
  ["connection"; "keep-alive"; "proxy-authenticate"; "proxy-authorization"; "te"; "trailer";
   "transfer-encoding"; "upgrade"; "host"; "content-length"].

Inductive ValidationError :=
| TooManyHeaders (max provided : Z)
| ForbiddenHeader (header : string)
| HeaderNameTooLong (header : string) (max : Z)
| HeaderValueTooLong (header : string) (max : Z)
| InvalidHeaderName (header : string)
| InvalidHeaderValue (header value : string).

(** [is_valid_header_name], [is_valid_header_value] *)
Definition is_valid_header_name (name : string) : bool :=
  negb (bool_decide (name = "")) &&
  all_chars (λ c, is_ascii_alphanumeric c || bool_decide (c = "-"%char) || bool_decide (c = "_"%char)) name.
Definition is_valid_header_value (value : string) : bool :=
  all_chars (λ c, (is_ascii c && negb (is_control c)) || bool_decide (c = ascii_of_N 9)) value.

(** The checks of the loop of [validate_headers] *)
Definition validate_header (name value : string) : result ValidationError string :=
  let name_lower := to_lowercase name in
  if bool_decide (name_lower ∈ to_lowercase <$> FORBIDDEN_HEADERS) then Err (ForbiddenHeader name)
  else if MAX_HEADER_NAME_LEN <? Z.of_nat (String.length name) then Err (HeaderNameTooLong name MAX_HEADER_NAME_LEN)
  else if MAX_HEADER_VALUE_LEN <? Z.of_nat (String.length value) then
    Err (HeaderValueTooLong name MAX_HEADER_VALUE_LEN)
  else if negb (is_valid_header_name name) then Err (InvalidHeaderName name)
  else if negb (is_valid_header_value value) then Err (InvalidHeaderValue name value)
  else Ok name_lower.

Definition validate_step (acc : gmap string string) (p : string * string)
    : result ValidationError (gmap string string) :=
  name_lower ← validate_header p.1 p.2; Ok (<[name_lower := p.2]> acc).

(** [validate_headers] *)
Definition validate_headers (headers : gmap string string) : result ValidationError (gmap string string) :=
  validated ← try_fold validate_step ∅ (btree_items headers);
  if MAX_HEADERS <? Z.of_nat (size validated) then Err (TooManyHeaders MAX_HEADERS (Z.of_nat (size validated)))
  else Ok validated.

(** [hash_user_id] *)
Definition hash_user_id (user_id : string) : string := hex_encode (take 16 (keccak_v256 (str_bytes user_id))).

(** The value that replaces a header in [process_headers_with_pii_protection] *)
Definition protect_header (name value : string) : string :=
  if bool_decide (name ∈ ["x-user-id"; "x-user-email"; "x-customer-email"]) then hash_user_id value
  else if bool_decide (name = "x-tenant-id") then
    if contains "@" value then hash_user_id value
    else if (String.length value =? 32)%nat && all_chars is_hexdigit value then value
    else hash_user_id value
  else value.

(** [process_headers_with_pii_protection] *)
Definition process_headers_with_pii_protection (headers : gmap string string) : gmap string string :=
  foldl (λ acc '(name, value), <[name := protect_header name value]> acc) ∅ (btree_items headers).

(** ** Scopes, as an upstream service reads them *)

(** [AuthContext::scopes] of the value of [x-scopes] *)
Definition context_scopes (scopes : option string) : list string :=
  match scopes with
  | Some s => to_ascii_lowercase <$> filter (λ p, p ≠ "") (split_char " " s)
  | None => []
  end.

(** [AuthContext::has_scope] *)
Definition has_scope (scopes : option string) (scope : string) : bool :=
  bool_decide (to_ascii_lowercase scope ∈ context_scopes scopes).

(** [AuthContext::has_any_scope] *)
Definition has_any_scope (scopes : option string) (names : list string) : bool :=
  let have := context_scopes scopes in
  existsb (λ n, let n := to_ascii_lowercase n in
    if ends_with ":" n then existsb (String.prefix n) have else bool_decide (n ∈ have)) names.

End auth.

(** ** Texts and characters *)

Lemma lacks_app c a b : lacks c (a +:+ b) ↔ lacks c a ∧ lacks c b.
Proof. unfold lacks. rewrite chars_app. apply Forall_app. Qed.

Lemma all_chars_app f a b : all_chars f (a +:+ b) = all_chars f a && all_chars f b.
Proof. unfold all_chars. rewrite chars_app. apply forallb_app. Qed.

Lemma all_chars_lacks f c s : all_chars f s = true → f c = false → lacks c s.
Proof.
  unfold all_chars, lacks. rewrite forallb_forall. intros Hs Hc. apply list.Forall_forall. intros a Ha%list_elem_of_In ->.
  rewrite Hs in Hc by done. done.
Qed.

Lemma all_chars_impl (f g : ascii → bool) s :
  (∀ a, f a = true → g a = true) → all_chars f s = true → all_chars g s = true.
Proof. unfold all_chars. rewrite !forallb_forall. eauto. Qed.

Lemma split_once_app c a b : lacks c a → split_once c (a +:+ String c b) = Some (a, b).
Proof.
  unfold lacks. induction a as [|x a IH]; intros Hl.
  - change ("" +:+ String c b) with (String c b). cbn. by rewrite bool_decide_true.
  - apply Forall_cons in Hl as [Hx Hl]. change (String x a +:+ String c b) with (String x (a +:+ String c b)).
    cbn. rewrite bool_decide_false by done. by rewrite (IH Hl).
Qed.

Lemma split_once_Some c s a b : split_once c s = Some (a, b) → s = a +:+ String c b ∧ lacks c a.
Proof.
  revert a b. induction s as [|x s IH]; intros a b; cbn; [done|]. case_bool_decide as Hx.
  - intros [= <- <-]. subst x. split; [done|constructor].
  - destruct (split_once c s) as [[a' b']|]; [|done]. cbn. intros [= <- <-].
    destruct (IH a' b' eq_refl) as [-> Hl]. split; [done|]. by apply Forall_cons.
Qed.

Lemma contains_char c s : contains (String c "") s = false ↔ lacks c s.
Proof.
  unfold lacks. induction s as [|x s IH]; cbn; [by split; [constructor|]|].
  rewrite Forall_cons, <-IH. destruct (ascii_dec c x) as [->|Hn]; cbn.
  - destruct s; naive_solver.
  - naive_solver.
Qed.

Lemma count_char_lacks c s : lacks c s → count_char c s = 0%nat.
Proof.
  unfold lacks, count_char. induction 1 as [|a l Ha _ IH]; [done|]. by rewrite filter_cons_False.
Qed.

Lemma count_char_app c a b : count_char c (a +:+ b) = (count_char c a + count_char c b)%nat.
Proof. unfold count_char. by rewrite chars_app, filter_app, length_app. Qed.

Lemma prefix_app p s : String.prefix p s = true → ∃ r, s = p +:+ r.
Proof.
  revert s. induction p as [|x p IH]; intros s; [by exists s|].
  destruct s as [|y s]; cbn; [done|]. destruct (ascii_dec x y) as [->|]; [|done].
  intros (r & ->)%IH. by exists r.
Qed.

(** ** Round trips *)

Definition service_id_wf (s : ServiceId) : Prop := is_u64 (sid_main s) ∧ is_u64 (sid_sub s).

Lemma service_bytes_round_trip s :
  service_id_wf s → service_from_be_bytes (service_to_be_bytes s) = s.
Proof.
  intros [Hm Hs]. unfold service_from_be_bytes, service_to_be_bytes, is_u64 in *.
  assert (∀ x, zlen (to_be_bytes 8 x) = 8) as Hz by (intros; unfold zlen; by rewrite length_to_be_bytes).
  rewrite slice_app_l by done. rewrite slice_app_r by done. rewrite slice_all by (by rewrite Hz).
  rewrite !from_to_be_bytes_small by lia. by destruct s.
Qed.

Lemma service_bytes_inj s s' :
  service_id_wf s → service_id_wf s' → service_to_be_bytes s = service_to_be_bytes s' → s = s'.
Proof. intros Hs Hs' Heq. rewrite <-(service_bytes_round_trip s), <-(service_bytes_round_trip s') by done. by rewrite Heq. Qed.

Lemma service_display_eq s : service_display s = pretty (sid_main s) +:+ String ":" (pretty (sid_sub s)).
Proof. unfold service_display, has_sub_id. destruct (Z.eqb_spec (sid_sub s) 0) as [->|]; done. Qed.

Lemma service_text_round_trip s : service_id_wf s → service_from_str (service_display s) = Ok s.
Proof.
  intros [Hm Hs]. rewrite service_display_eq. unfold service_from_str.
  rewrite split_char_app by (apply pretty_lacks; [unfold is_u64 in Hm; lia|done]).
  rewrite split_char_lacks by (apply pretty_lacks; [unfold is_u64 in Hs; lia|done]).
  rewrite !parse_u64_pretty by done. by destruct s.
Qed.

Section tokens.
  Context `{!Lowercase} `{C : AuthCodec} `{!AuthCodecLaws C}.

(** A printed legacy token is read back. *)
Lemma api_token_round_trip t :
  is_u64 (tok_id t) → lacks "|" (tok_text t) → tok_text t ≠ "" →
  Z.of_nat (String.length (api_token_display t)) ≤ 512 →
  auth_token_parse (api_token_display t) = Ok (Legacy t).
Proof.
  intros Hid Hl Hne Hlen. unfold auth_token_parse.
  assert (lacks "|" (pretty (tok_id t))) as Hp by (apply pretty_lacks; [unfold is_u64 in Hid; lia|done]).
  assert (lacks "." (pretty (tok_id t))) as Hd by (apply pretty_lacks; [unfold is_u64 in Hid; lia|done]).
  assert (String.prefix "v4.local." (api_token_display t) = false) as ->.
  { destruct (String.prefix _ _) eqn:Hpre; [|done]. apply prefix_app in Hpre as [r Hr].
    exfalso. unfold api_token_display in Hr. change ("v4.local." +:+ r) with ("v4" +:+ String "." ("local." +:+ r)) in Hr.
    assert (lacks "v" (pretty (tok_id t))) as Hv by (apply pretty_lacks; [unfold is_u64 in Hid; lia|done]).
    destruct (pretty (tok_id t)) as [|x p]; [done|]. cbn in Hr. injection Hr as -> _.
    apply Forall_cons in Hv as [Hv _]. done. }
  assert (contains "|" (api_token_display t) = true) as ->.
  { apply not_false_is_true. rewrite contains_char. intros (_ & Hc)%lacks_app. change ("|" +:+ tok_text t) with (String "|" (tok_text t)) in Hc. apply Forall_cons in Hc as [? _]. done. }
  unfold api_token_from_str. rewrite (proj2 (Z.ltb_ge _ _)) by lia.
  assert (count_char "|" (api_token_display t) = 1%nat) as ->.
  { unfold api_token_display. rewrite !count_char_app, (count_char_lacks _ (pretty (tok_id t))), (count_char_lacks _ (tok_text t)) by done. done. }
  cbn [Nat.eqb negb]. unfold api_token_display.
  change ("|" +:+ tok_text t) with (String "|" (tok_text t)). rewrite split_once_app by done.
  rewrite bool_decide_false by (intros Heq; pose proof (parse_u64_pretty _ Hid) as Hx; rewrite Heq in Hx; done).
  rewrite parse_u64_pretty by done. cbn. rewrite bool_decide_false by done. by destruct t.
Qed.

Lemma url_safe_lacks c l : is_url_safe c = false → lacks c (base64_encode l).
Proof. intros Hc. eapply all_chars_lacks; [apply base64_alphabet|done]. Qed.

(** A generated key is recognised as one, and splits into its identifier and
    its secret, if the prefix of the service has no separator in it. *)
Lemma generated_key_parses prefix_ sid expires headers secret :
  lacks "." prefix_ → lacks "|" prefix_ →
  let k := generate_key prefix_ sid expires headers secret in
  auth_token_parse (gk_full_key k) = Ok (ApiKey (gk_full_key k)) ∧
  ∃ rest, split_once "." (gk_full_key k) = Some (gk_key_id k, rest).
Proof.
  intros Hd Hb k. set (rest := base64_encode (drop 8 secret)).
  assert (gk_full_key k = gk_key_id k +:+ String "." rest) as Hk by done.
  assert (lacks "." (gk_key_id k)) as Hid by (apply lacks_app; split; [done|by apply url_safe_lacks]).
  assert (lacks "." rest) as Hr by (by apply url_safe_lacks).
  assert (split_once "." (gk_full_key k) = Some (gk_key_id k, rest)) as Hs by (rewrite Hk; by apply split_once_app).
  split; [|by exists rest]. unfold auth_token_parse.
  assert (String.prefix "v4.local." (gk_full_key k) = false) as ->.
  { destruct (String.prefix _ _) eqn:Hpre; [|done]. apply prefix_app in Hpre as [r Hpr]. exfalso.
    rewrite Hpr in Hs. change ("v4.local." +:+ r) with ("v4" +:+ String "." ("local" +:+ String "." r)) in Hs.
    rewrite split_once_app in Hs by (repeat constructor; done). injection Hs as _ <-.
    apply lacks_app in Hr as [_ Hr]. apply Forall_cons in Hr as [? _]. done. }
  assert (contains "|" (gk_full_key k) = false) as ->.
  { apply contains_char. rewrite Hk. apply lacks_app. split; [apply lacks_app; split; [done|by apply url_safe_lacks]|].
    apply Forall_cons. split; [done|]. by apply url_safe_lacks. }
  assert (contains "." (gk_full_key k) = true) as ->; [|done].
  apply not_false_is_true. rewrite contains_char, Hk. intros [_ Hl]%lacks_app. apply Forall_cons in Hl as [? _]. done.
Qed.

End tokens.

(** ** Validated headers *)

Lemma insert_item_perm {A} (x : string * A) l : insert_item x l ≡ₚ x :: l.
Proof.
  induction l as [|y l IH]; cbn; [done|]. destruct (String.leb _ _); [done|]. rewrite IH. apply Permutation_swap.
Qed.

Lemma btree_items_perm {A} (m : gmap string A) : btree_items m ≡ₚ map_to_list m.
Proof.
  unfold btree_items, sort_items. induction (map_to_list m) as [|x l IH]; cbn; [done|]. by rewrite insert_item_perm, IH.
Qed.

Lemma elem_of_btree_items {A} (m : gmap string A) k x : (k, x) ∈ btree_items m ↔ m !! k = Some x.
Proof. rewrite btree_items_perm. apply elem_of_map_to_list. Qed.

Lemma NoDup_btree_items {A} (m : gmap string A) : NoDup (btree_items m).*1.
Proof. rewrite btree_items_perm. apply NoDup_fst_map_to_list. Qed.

(** A map built by inserting distinct keys one after the other *)
Lemma foldl_insert_lookup {A B} (g : string → A → B) (l : list (string * A)) (m0 : gmap string B) k :
  NoDup l.*1 → (∀ k', k' ∈ l.*1 → m0 !! k' = None) →
  foldl (λ acc '(n, v), <[n := g n v]> acc) m0 l !! k
  = match (list_to_map l : gmap string A) !! k with Some x => Some (g k x) | None => m0 !! k end.
Proof.
  revert m0. induction l as [|[n v] l IH]; intros m0 Hnd H0; cbn; [by rewrite lookup_empty|].
  apply NoDup_cons in Hnd as [Hn Hnd]. rewrite IH; [|done|].
  - destruct (decide (k = n)) as [->|Hk].
    + rewrite lookup_insert_eq. assert ((list_to_map l : gmap string A) !! n = None) as ->
        by (by apply not_elem_of_list_to_map_1). by rewrite lookup_insert_eq.
    + by rewrite !lookup_insert_ne by done.
  - intros k' Hk'. rewrite lookup_insert_ne by (intros <-; done). apply H0. by right.
Qed.

Lemma list_to_map_btree_items {A} (m : gmap string A) : (list_to_map (btree_items m) : gmap string A) = m.
Proof.
  transitivity (list_to_map (map_to_list m) : gmap string A); [|apply list_to_map_to_list].
  apply list_to_map_proper; [apply NoDup_btree_items|apply btree_items_perm].
Qed.

Section headers.
  Context `{Lowercase} `{C : AuthCodec}.

(** A header that passes, under its lower-case name *)
Definition header_ok (name value : string) : Prop :=
  is_valid_header_name name = true ∧ is_valid_header_value value = true ∧
  to_ascii_lowercase name ∉ FORBIDDEN_HEADERS ∧
  Z.of_nat (String.length name) ≤ MAX_HEADER_NAME_LEN ∧ Z.of_nat (String.length value) ≤ MAX_HEADER_VALUE_LEN.

Lemma name_char_ascii a :
  is_ascii_alphanumeric a || bool_decide (a = "-"%char) || bool_decide (a = "_"%char) = true → is_ascii a = true.
Proof. destruct a as [[] [] [] [] [] [] [] []]; vm_compute; done. Qed.

Lemma valid_name_ascii name : is_valid_header_name name = true → all_chars is_ascii name = true.
Proof. intros [_ Hn]%andb_prop. revert Hn. apply all_chars_impl, name_char_ascii. Qed.

Lemma forbidden_lower : to_lowercase <$> FORBIDDEN_HEADERS = FORBIDDEN_HEADERS.
Proof. unfold FORBIDDEN_HEADERS. rewrite !fmap_cons, fmap_nil, !to_lowercase_ascii by reflexivity. reflexivity. Qed.

Lemma validate_header_ok name value n :
  validate_header name value = Ok n ↔ n = to_ascii_lowercase name ∧ header_ok name value.
Proof.
  unfold validate_header, header_ok. rewrite forbidden_lower. split.
  - case_bool_decide as Hf; [done|]. destruct (Z.ltb_spec MAX_HEADER_NAME_LEN (Z.of_nat (String.length name))); [done|].
    destruct (Z.ltb_spec MAX_HEADER_VALUE_LEN (Z.of_nat (String.length value))); [done|].
    destruct (is_valid_header_name name) eqn:Hn; [|done]. destruct (is_valid_header_value value) eqn:Hv; [|done].
    intros [= <-]. rewrite to_lowercase_ascii in * by (by apply valid_name_ascii). done.
  - intros (-> & Hn & Hv & Hf & Hl & Hl'). rewrite to_lowercase_ascii by (by apply valid_name_ascii).
    rewrite bool_decide_false by done. rewrite !(proj2 (Z.ltb_ge _ _)) by done. by rewrite Hn, Hv.
Qed.

(** The loop of [validate_headers] *)
Lemma validate_loop l acc v :
  try_fold validate_step acc l = Ok v →
  Forall (λ p, header_ok p.1 p.2) l ∧
  (∀ n x, v !! n = Some x → acc !! n = Some x ∨ ∃ name, (name, x) ∈ l ∧ n = to_ascii_lowercase name).
Proof.
  revert acc. induction l as [|[name value] l IH]; intros acc; cbn [try_fold].
  - intros [= <-]. split; [constructor|]. by left.
  - destruct (validate_step acc (name, value)) as [acc'|e] eqn:Hs; [|done]. unfold validate_step in Hs. cbn in Hs.
    destruct (validate_header name value) as [n|e] eqn:Hh; [|done]. injection Hs as <-.
    apply validate_header_ok in Hh as [-> Hok]. intros (Hl & Hv)%IH. split; [by constructor|].
    intros n x [Hx|(name' & Hin & ->)]%Hv.
    + destruct (decide (n = to_ascii_lowercase name)) as [->|Hne].
      * rewrite lookup_insert_eq in Hx. injection Hx as ->. right. exists name. split; [by left|done].
      * rewrite lookup_insert_ne in Hx by done. by left.
    + right. exists name'. split; [by right|done].
Qed.

Lemma lower_lower s : to_ascii_lowercase (to_ascii_lowercase s) = to_ascii_lowercase s.
Proof.
  induction s as [|a s IH]; [done|]. cbn. rewrite IH. f_equal.
  destruct a as [[] [] [] [] [] [] [] []]; done.
Qed.

Lemma length_lower s : String.length (to_ascii_lowercase s) = String.length s.
Proof. induction s as [|a s IH]; [done|]. cbn. by rewrite IH. Qed.

Lemma valid_name_lower name : is_valid_header_name name = true → is_valid_header_name (to_ascii_lowercase name) = true.
Proof.
  unfold is_valid_header_name. intros [Hne Hn]%andb_prop. apply andb_true_intro. split.
  - by destruct name.
  - clear Hne. unfold all_chars in *. induction name as [|a s IH]; [done|]. cbn in *.
    apply andb_prop in Hn as [Ha Hs]. apply andb_true_intro. split; [|by apply IH].
    revert Ha. destruct a as [[] [] [] [] [] [] [] []]; vm_compute; done.
Qed.

Lemma validate_loop_lower l (acc : gmap string string) :
  NoDup l.*1 → (∀ k', k' ∈ l.*1 → acc !! k' = None) →
  Forall (λ p, header_ok p.1 p.2 ∧ to_ascii_lowercase p.1 = p.1) l →
  try_fold validate_step acc l
  = Ok (foldl (λ acc '(n, v), <[n := v]> acc) acc l).
Proof.
  revert acc. induction l as [|[name value] l IH]; intros acc Hnd H0 Hl; cbn; [done|].
  apply NoDup_cons in Hnd as [Hn Hnd]. apply Forall_cons in Hl as [[Hok Hlow] Hl]. cbn in *.
  assert (validate_step acc (name, value) = Ok (<[name := value]> acc)) as ->.
  { unfold validate_step. cbn. by rewrite (proj2 (validate_header_ok name value _) (conj eq_refl Hok)), Hlow. }
  apply IH; [done| |done].
  intros k' Hk'. rewrite lookup_insert_ne by (intros <-; done). apply H0. by right.
Qed.

(** Every header that [validate_headers] lets through is acceptable, has a
    lower-case name and comes from a given header; there are at most eight; and
    validating them again changes nothing. *)
Lemma validate_headers_spec headers v :
  validate_headers headers = Ok v →
  (∀ n x, v !! n = Some x → header_ok n x ∧ to_ascii_lowercase n = n ∧
     ∃ name, headers !! name = Some x ∧ n = to_ascii_lowercase name) ∧
  Z.of_nat (size v) ≤ MAX_HEADERS ∧ validate_headers v = Ok v.
Proof.
  unfold validate_headers, mbind at 1, result_bind.
  destruct (try_fold _ ∅ (btree_items headers)) as [v'|e] eqn:Hl; [|done].
  destruct (Z.ltb_spec MAX_HEADERS (Z.of_nat (size v'))) as [|Hsz]; [done|]. intros [= <-].
  apply validate_loop in Hl as [Hok Hv].
  assert (∀ n x, v' !! n = Some x → header_ok n x ∧ to_ascii_lowercase n = n ∧
     ∃ name, headers !! name = Some x ∧ n = to_ascii_lowercase name) as Hspec.
  { intros n x [Hx|(name & Hin & ->)]%Hv; [by rewrite lookup_empty in Hx|].
    rewrite list.Forall_forall in Hok. destruct (Hok _ Hin) as (Hn & Hval & Hf & Hl1 & Hl2). cbn in *.
    split; [|split; [apply lower_lower|exists name; by rewrite <-elem_of_btree_items]].
    unfold header_ok. rewrite lower_lower, length_lower. split_and!; try done. by apply valid_name_lower. }
  split; [done|]. split; [done|].
  rewrite validate_loop_lower; [|apply NoDup_btree_items|intros; apply lookup_empty|].
  - assert (foldl (λ acc '(n, v), <[n:=v]> acc) ∅ (btree_items v') = v') as ->.
    { apply map_eq. intros k. rewrite (foldl_insert_lookup (λ _ x, x)); [|apply NoDup_btree_items|intros; apply lookup_empty].
      rewrite list_to_map_btree_items, lookup_empty. by destruct (v' !! k). }
    unfold mbind, result_bind. by rewrite (proj2 (Z.ltb_ge _ _)) by done.
  - apply list.Forall_forall. intros [n x] Hin%elem_of_btree_items. destruct (Hspec n x Hin) as (? & ? & _). done.
Qed.

Lemma process_headers_lookup headers n :
  process_headers_with_pii_protection headers !! n = protect_header n <$> headers !! n.
Proof.
  unfold process_headers_with_pii_protection. rewrite foldl_insert_lookup; [|apply NoDup_btree_items|intros; apply lookup_empty].
  rewrite list_to_map_btree_items, lookup_empty. by destruct (headers !! n).
Qed.

End headers.
