(* ===== verification/AuthStore.v ===== *)
(** * Storage of the authentication proxy ([auth/src/db.rs], [models.rs],
      [api_keys.rs])

    The database is a map from column families and keys to bytes; every call may
    fail, with a kind of error that the code tells apart.  The models of API keys,
    legacy tokens and services are stored in the encoding of [prost], the headers
    of a credential in JSON; both are parameters with their round trips. *)

From Stdlib Require Import ZArith Lia Ascii.
From stdpp Require Import base gmap sets list sorting strings pretty fin_maps numbers relations.
From S2P Require Import Prelude Bytes Text JobCore Hex AuthTypes.

#[local] Open Scope Z_scope.

(** ** The database *)

Inductive Cf :=
| SEQ_CF | TOKENS_OPTS_CF | USER_TOKENS_CF | SERVICES_USER_KEYS_CF | API_KEYS_CF | API_KEYS_BY_ID_CF
| SERVICES_OAUTH_POLICY_CF | OAUTH_JTI_CF | OAUTH_RL_CF | TLS_ASSETS_CF | TLS_CERT_METADATA_CF | TLS_ISSUANCE_LOG_CF.

#[global] Instance Cf_eq_dec : EqDecision Cf.
Proof. solve_decision. Defined.

Definition cf_index (c : Cf) : nat :=
  match c with
  | SEQ_CF => 0 | TOKENS_OPTS_CF => 1 | USER_TOKENS_CF => 2 | SERVICES_USER_KEYS_CF => 3 | API_KEYS_CF => 4
  | API_KEYS_BY_ID_CF => 5 | SERVICES_OAUTH_POLICY_CF => 6 | OAUTH_JTI_CF => 7 | OAUTH_RL_CF => 8
  | TLS_ASSETS_CF => 9 | TLS_CERT_METADATA_CF => 10 | TLS_ISSUANCE_LOG_CF => 11
  end%nat.

#[global] Instance Cf_countable : Countable Cf.
Proof.
  refine (inj_countable cf_index (λ n, [SEQ_CF; TOKENS_OPTS_CF; USER_TOKENS_CF; SERVICES_USER_KEYS_CF; API_KEYS_CF;
    API_KEYS_BY_ID_CF; SERVICES_OAUTH_POLICY_CF; OAUTH_JTI_CF; OAUTH_RL_CF; TLS_ASSETS_CF; TLS_CERT_METADATA_CF;
    TLS_ISSUANCE_LOG_CF] !! n) _). by intros [].
Defined.

Inductive DbErrorKind := Busy | TryAgain | OtherKind.

Inductive AuthError :=
| RocksDB (k : DbErrorKind) | ProtobufDecode | UnknownKeyType | InvalidUri | K256 | Schnorrkel | Bn254Bls.

(** The data, and how the coming calls end *)
Record Db := mkDb {
  db_data : gmap (Cf * list Byte8) (list Byte8);
  db_faults : list (option DbErrorKind);
}.

Definition DbM (A : Type) : Type := Db → result AuthError A * Db.

#[global] Instance DbM_ret : MRet DbM := λ A a db, (Ok a, db).
#[global] Instance DbM_bind : MBind DbM := λ A B f m db,
  match m db with (Ok a, db) => f a db | (Err e, db) => (Err e, db) end.

Definition lift_result {A} (r : result AuthError A) : DbM A := λ db, (r, db).

(** One call, which may fail *)
Definition db_try : DbM unit := λ db,
  match db_faults db with
  | Some k :: fs => (Err (RocksDB k), mkDb (db_data db) fs)
  | None :: fs => (Ok tt, mkDb (db_data db) fs)
  | [] => (Ok tt, db)
  end.

Definition db_update (f : gmap (Cf * list Byte8) (list Byte8) → gmap (Cf * list Byte8) (list Byte8)) : DbM unit :=
  λ db, (Ok tt, mkDb (f (db_data db)) (db_faults db)).

Definition db_read {A} (f : Db → A) : DbM A := λ db, (Ok (f db), db).

Definition get_cf (cf : Cf) (key : list Byte8) : DbM (option (list Byte8)) :=
  _ ← db_try; db_read (λ db, db_data db !! (cf, key)).
Definition put_cf (cf : Cf) (key value : list Byte8) : DbM unit :=
  _ ← db_try; db_update (insert (cf, key) value).
Definition delete_cf (cf : Cf) (key : list Byte8) : DbM unit :=
  _ ← db_try; db_update (delete (cf, key)).

(** [adder_merge_operator] *)
Definition adder_merge_operator (existing_value : option (list Byte8)) (operands : list (list Byte8)) : list Byte8 :=
  let number v := match try_into_array 8 v with Some v => from_be_bytes v | None => 0 end in
  let current_value := match existing_value with Some v => number v | None => 0 end in
  to_be_bytes 8 (foldl (λ sum operand, u64_wrap (sum + number operand)) current_value operands).

Definition merge_cf (key operand : list Byte8) : DbM unit :=
  _ ← db_try;
  db_update (λ d, <[(SEQ_CF, key) := adder_merge_operator (d !! (SEQ_CF, key)) [operand]]> d).

Definition retryable (e : AuthError) : bool :=
  match e with RocksDB Busy | RocksDB TryAgain => true | _ => false end.

(** The loop around [merge_cf]: [attempts] more after this one *)
Fixpoint merge_retry (attempts : nat) (key operand : list Byte8) : DbM unit := λ db,
  match merge_cf key operand db with
  | (Ok _, db) => (Ok tt, db)
  | (Err e, db) =>
      if retryable e then
        match attempts with O => (Err e, db) | S attempts => merge_retry attempts key operand db end
      else (Err e, db)
  end.

(** A transaction: it is committed as a whole or has no effect *)
Definition transaction {A} (m : DbM A) : DbM A := λ db,
  match m db with
  | (Ok a, db') =>
      match db_try db' with
      | (Ok _, db'') => (Ok a, db'')
      | (Err e, db'') => (Err e, mkDb (db_data db) (db_faults db''))
      end
  | (Err e, db') => (Err e, mkDb (db_data db) (db_faults db'))
  end.

(** ** Encodings *)

Class Prost (A : Type) := {
  encode_to_vec : A → list Byte8;
  decode : list Byte8 → option A;
}.
Class ProstLaws (A : Type) (P : Prost A) := {
  prost_round_trip (a : A) : decode (encode_to_vec a) = Some a;
}.
Arguments decode A {_} _.

(** [serde_json] on header maps *)
Class HeaderJson := {
  headers_to_vec : gmap string string → option (list Byte8);
  headers_from_slice : list Byte8 → option (gmap string string);
}.
Class HeaderJsonLaws (J : HeaderJson) := {
  headers_round_trip h : ∃ bs, headers_to_vec h = Some bs ∧ bs ≠ [] ∧ headers_from_slice bs = Some h;
}.

(** ** The models *)

Record ApiKeyModel := mkKeyModel {
  km_id : Z;
  km_key_id : string;
  km_key_hash : string;
  km_service_id : Z;
  km_sub_service_id : Z;
  km_created_at : Z;
  km_last_used : Z;
  km_expires_at : Z;
  km_is_enabled : bool;
  km_default_headers : list Byte8;
  km_description : string;
}.

Record ApiTokenModel := mkTokenModel {
  tm_id : Z;
  tm_token : string;
  tm_service_id : Z;
  tm_sub_service_id : Z;
  tm_expires_at : Z;
  tm_is_enabled : bool;
  tm_additional_headers : list Byte8;
}.

Record TlsProfile := mkTlsProfile {
  tls_enabled : bool;
  require_client_mtls : bool;
  encrypted_server_cert : list Byte8;
  encrypted_server_key : list Byte8;
  encrypted_client_ca_bundle : list Byte8;
  encrypted_upstream_ca_bundle : list Byte8;
  encrypted_upstream_client_cert : list Byte8;
  encrypted_upstream_client_key : list Byte8;
  client_cert_ttl_hours : Z;
  sni : option string;
  subject_alt_name_template : option string;
  allowed_dns_names : list string;
}.

Record ServiceOwnerModel := mkOwner { owner_key_type : Z; owner_key_bytes : list Byte8 }.

#[global] Instance ServiceOwnerModel_eq_dec : EqDecision ServiceOwnerModel.
Proof. solve_decision. Defined.

Record ServiceModel := mkService {
  api_key_prefix : string;
  owners : list ServiceOwnerModel;
  upstream_url : string;
  tls_profile : option TlsProfile;
}.

Definition set_key_id_number (m : ApiKeyModel) (id : Z) : ApiKeyModel :=
  mkKeyModel id (km_key_id m) (km_key_hash m) (km_service_id m) (km_sub_service_id m) (km_created_at m)
    (km_last_used m) (km_expires_at m) (km_is_enabled m) (km_default_headers m) (km_description m).
Definition set_last_used (m : ApiKeyModel) (now : Z) : ApiKeyModel :=
  mkKeyModel (km_id m) (km_key_id m) (km_key_hash m) (km_service_id m) (km_sub_service_id m) (km_created_at m)
    now (km_expires_at m) (km_is_enabled m) (km_default_headers m) (km_description m).
Definition set_token_id_number (m : ApiTokenModel) (id : Z) : ApiTokenModel :=
  mkTokenModel id (tm_token m) (tm_service_id m) (tm_sub_service_id m) (tm_expires_at m) (tm_is_enabled m)
    (tm_additional_headers m).

Section models.
  Context `{C : AuthCodec} `{J : HeaderJson} `{PK : Prost ApiKeyModel} `{PT : Prost ApiTokenModel}
    `{PS : Prost ServiceModel}.

(** Both [get_default_headers] and [get_additional_headers]; both setters *)
Definition stored_headers (bytes : list Byte8) : gmap string string :=
  if bool_decide (bytes = []) then ∅ else default ∅ (headers_from_slice bytes).
Definition headers_to_store (h : gmap string string) : list Byte8 := default [] (headers_to_vec h).

(** *** API keys *)

(** [ApiKeyModel::from] a generated key *)
Definition key_model_of (now : Z) (key : GeneratedApiKey) : ApiKeyModel :=
  mkKeyModel 0 (gk_key_id key) (hash_text (gk_full_key key)) (sid_main (gk_service_id key))
    (sid_sub (gk_service_id key)) now 0 (gk_expires_at key) true (headers_to_store (gk_default_headers key)) "".

(** [ApiKeyModel::find_by_key_id], [ApiKeyModel::find_by_id] *)
Definition find_by_key_id (key_id : string) : DbM (option ApiKeyModel) :=
  v ← get_cf API_KEYS_CF (str_bytes key_id);
  match v with
  | Some bytes => lift_result (Some <$> ok_or (decode ApiKeyModel bytes) ProtobufDecode)
  | None => mret None
  end.
Definition find_by_id (id : Z) : DbM (option ApiKeyModel) :=
  v ← get_cf API_KEYS_BY_ID_CF (to_be_bytes 8 id);
  match v with
  | Some bytes =>
      key_id ← lift_result (ok_or (from_utf8 bytes) UnknownKeyType);
      find_by_key_id (string_of_bytes key_id)
  | None => mret None
  end.

(** [ApiKeyModel::validates_key] *)
Definition validates_key (m : ApiKeyModel) (full_key : string) : bool :=
  match split_once "." full_key with
  | Some (key_id_part, _) =>
      if negb (bool_decide (key_id_part = km_key_id m)) then false
      else bool_decide (km_key_hash m = hash_text full_key)
  | None => false
  end.

(** [ApiKeyModel::is_expired], [service_id], [get_default_headers] *)
Definition key_is_expired (now : Z) (m : ApiKeyModel) : bool := km_expires_at m <=? now.
Definition key_service_id (m : ApiKeyModel) : ServiceId :=
  with_subservice (service_id_new (km_service_id m)) (km_sub_service_id m).
Definition get_default_headers (m : ApiKeyModel) : gmap string string := stored_headers (km_default_headers m).

Definition seq_value (v : option (list Byte8)) (none : Z) : Z :=
  match v with Some v => from_be_bytes v | None => none end.

(** [ApiKeyModel::create] *)
Definition key_create (m : ApiKeyModel) : DbM ApiKeyModel := transaction (
  _ ← merge_retry 9 (str_bytes "api_keys") (to_be_bytes 8 1);
  v ← get_cf SEQ_CF (str_bytes "api_keys");
  let next_id := seq_value v 1 in
  let m := set_key_id_number m next_id in
  _ ← put_cf API_KEYS_CF (str_bytes (km_key_id m)) (encode_to_vec m);
  _ ← put_cf API_KEYS_BY_ID_CF (to_be_bytes 8 next_id) (str_bytes (km_key_id m));
  mret m).

(** [ApiKeyModel::save] *)
Definition key_save (m : ApiKeyModel) : DbM ApiKeyModel :=
  if km_id m =? 0 then key_create m
  else
    _ ← put_cf API_KEYS_CF (str_bytes (km_key_id m)) (encode_to_vec m);
    _ ← put_cf API_KEYS_BY_ID_CF (to_be_bytes 8 (km_id m)) (str_bytes (km_key_id m));
    mret m.

(** [ApiKeyModel::update_last_used], [ApiKeyModel::delete] *)
Definition update_last_used (now : Z) (m : ApiKeyModel) : DbM ApiKeyModel := key_save (set_last_used m now).
Definition key_delete (m : ApiKeyModel) : DbM unit := transaction (
  _ ← delete_cf API_KEYS_CF (str_bytes (km_key_id m));
  delete_cf API_KEYS_BY_ID_CF (to_be_bytes 8 (km_id m))).

(** *** Legacy tokens *)

(** [ApiTokenModel::from] a generated token *)
Definition token_model_of (t : GeneratedApiToken) : ApiTokenModel :=
  mkTokenModel 0 (gt_token t) (sid_main (gt_service_id t)) (sid_sub (gt_service_id t))
    (default 0 (gt_expires_at t)) true (headers_to_store (gt_additional_headers t)).

(** [ApiTokenModel::find_token_id] *)
Definition find_token_id (id : Z) : DbM (option ApiTokenModel) :=
  v ← get_cf TOKENS_OPTS_CF (to_be_bytes 8 id);
  match v with
  | Some bytes => lift_result (Some <$> ok_or (decode ApiTokenModel bytes) ProtobufDecode)
  | None => mret None
  end.

(** [ApiTokenModel::is], [is_expired], [service_id], [get_additional_headers] *)
Definition token_is (m : ApiTokenModel) (plaintext : string) : bool := bool_decide (tm_token m = hash_text plaintext).
Definition token_is_expired (now : Z) (m : ApiTokenModel) : bool :=
  if tm_expires_at m =? 0 then false else tm_expires_at m <? now.
Definition token_service_id (m : ApiTokenModel) : ServiceId :=
  with_subservice (service_id_new (tm_service_id m)) (tm_sub_service_id m).
Definition get_additional_headers (m : ApiTokenModel) : gmap string string := stored_headers (tm_additional_headers m).

(** [ApiTokenModel::create], [ApiTokenModel::save] *)
Definition token_create (m : ApiTokenModel) : DbM ApiTokenModel := transaction (
  _ ← merge_retry 9 (str_bytes "tokens") (to_be_bytes 8 1);
  v ← get_cf SEQ_CF (str_bytes "tokens");
  let next_id := seq_value v 0 in
  let m := set_token_id_number m next_id in
  _ ← put_cf TOKENS_OPTS_CF (to_be_bytes 8 next_id) (encode_to_vec m);
  mret m).
Definition token_save (m : ApiTokenModel) : DbM ApiTokenModel :=
  if negb (tm_id m =? 0) then
    _ ← put_cf TOKENS_OPTS_CF (to_be_bytes 8 (tm_id m)) (encode_to_vec m); mret m
  else token_create m.

(** *** Services *)

Definition key_type_number (k : AuthKeyType) : Z :=
  match k with KeyUnknown => 0 | KeyEcdsa => 1 | KeySr25519 => 2 | KeyBn254Bls => 3 end.

(** [ServiceModel::find_by_id], [save], [save_if_absent], [delete] *)
Definition service_find (id : ServiceId) : DbM (option ServiceModel) :=
  v ← get_cf SERVICES_USER_KEYS_CF (service_to_be_bytes id);
  match v with
  | Some bytes => lift_result (Some <$> ok_or (decode ServiceModel bytes) ProtobufDecode)
  | None => mret None
  end.
Definition service_save (s : ServiceModel) (id : ServiceId) : DbM unit :=
  put_cf SERVICES_USER_KEYS_CF (service_to_be_bytes id) (encode_to_vec s).
Definition save_if_absent (s : ServiceModel) (id : ServiceId) : DbM bool := λ db,
  match get_cf SERVICES_USER_KEYS_CF (service_to_be_bytes id) db with
  | (Ok (Some _), db) => (Ok false, db)
  | (Ok None, db) =>
      transaction (_ ← put_cf SERVICES_USER_KEYS_CF (service_to_be_bytes id) (encode_to_vec s); mret true) db
  | (Err e, db) => (Err e, db)
  end.
Definition service_delete (id : ServiceId) : DbM unit := delete_cf SERVICES_USER_KEYS_CF (service_to_be_bytes id).

(** [ServiceModel::is_owner], [add_owner], [remove_owner] *)
Definition is_owner (s : ServiceModel) (kt : AuthKeyType) (key_bytes : list Byte8) : bool :=
  existsb (λ o, (owner_key_type o =? key_type_number kt) && bool_decide (owner_key_bytes o = key_bytes)) (owners s).
Definition set_owners (s : ServiceModel) (l : list ServiceOwnerModel) : ServiceModel :=
  mkService (api_key_prefix s) l (upstream_url s) (tls_profile s).
Definition add_owner (s : ServiceModel) (kt : AuthKeyType) (key_bytes : list Byte8) : ServiceModel :=
  set_owners s (owners s ++ [mkOwner (key_type_number kt) key_bytes]).
Definition remove_owner (s : ServiceModel) (kt : AuthKeyType) (key_bytes : list Byte8) : ServiceModel :=
  set_owners s (List.filter (λ o, negb ((owner_key_type o =? key_type_number kt)
    && bool_decide (owner_key_bytes o = key_bytes))) (owners s)).

(** [ServiceModel::is_tls_enabled], [requires_client_mtls] *)
Definition is_tls_enabled (s : ServiceModel) : bool := default false (tls_enabled <$> tls_profile s).
Definition requires_client_mtls (s : ServiceModel) : bool := default false (require_client_mtls <$> tls_profile s).

End models.

(** ** What the calls do to the data *)

Lemma DbM_bind_eq {A B} (f : A → DbM B) (m : DbM A) db :
  (m ≫= f) db = match m db with (Ok a, db) => f a db | (Err e, db) => (Err e, db) end.
Proof. done. Qed.

(** Take a sequence of calls apart, one call at a time. *)
Ltac db_step H :=
  match type of H with
  | mbind ?f ?m ?db = _ =>
      let r := fresh "r" in let db' := fresh "db" in let E := fresh "E" in
      rewrite DbM_bind_eq in H; destruct (m db) as [r db'] eqn:E; destruct r; cbn [fst snd] in H
  end.

Lemma db_try_spec db r db' : db_try db = (r, db') → db_data db' = db_data db.
Proof. unfold db_try. destruct (db_faults db) as [|[k|] fs]; by intros [= <- <-]. Qed.

Lemma db_try_no_faults db : db_faults db = [] → db_try db = (Ok tt, db).
Proof. unfold db_try. by intros ->. Qed.

Lemma get_cf_spec cf k db r db' :
  get_cf cf k db = (r, db') →
  db_data db' = db_data db ∧ match r with Ok v => v = db_data db !! (cf, k) | Err e => ∃ kind, e = RocksDB kind end.
Proof.
  unfold get_cf, mbind, DbM_bind, db_read, db_try. destruct (db_faults db) as [|[kind|] fs]; intros [= <- <-]; eauto.
Qed.

Lemma put_cf_spec cf k v db r db' :
  put_cf cf k v db = (r, db') →
  db_data db' = match r with Ok _ => <[(cf, k) := v]> (db_data db) | Err _ => db_data db end.
Proof.
  unfold put_cf, mbind, DbM_bind, db_update, db_try. destruct (db_faults db) as [|[kind|] fs]; by intros [= <- <-].
Qed.

Lemma merge_cf_spec k v db r db' :
  merge_cf k v db = (r, db') →
  db_data db' = match r with
                | Ok _ => <[(SEQ_CF, k) := adder_merge_operator (db_data db !! (SEQ_CF, k)) [v]]> (db_data db)
                | Err _ => db_data db
                end.
Proof.
  unfold merge_cf, mbind, DbM_bind, db_update, db_try. destruct (db_faults db) as [|[kind|] fs]; by intros [= <- <-].
Qed.

Lemma merge_retry_spec n k v db r db' :
  merge_retry n k v db = (r, db') →
  db_data db' = match r with
                | Ok _ => <[(SEQ_CF, k) := adder_merge_operator (db_data db !! (SEQ_CF, k)) [v]]> (db_data db)
                | Err _ => db_data db
                end.
Proof.
  revert db. induction n as [|n IH]; intros db; cbn [merge_retry];
    destruct (merge_cf k v db) as [[[]|e] db1] eqn:Hm; apply merge_cf_spec in Hm.
  1,3: by intros [= <- <-].
  all: destruct (retryable e); [|by intros [= <- <-]].
  - by intros [= <- <-].
  - intros H%IH. by rewrite H, Hm.
Qed.

Lemma transaction_spec {A} (m : DbM A) db r db' :
  transaction m db = (r, db') →
  match r with
  | Ok a => ∃ db1, m db = (Ok a, db1) ∧ db_data db' = db_data db1
  | Err _ => db_data db' = db_data db
  end.
Proof.
  unfold transaction. destruct (m db) as [[a|e] db1] eqn:Hm; [|by intros [= <- <-]].
  destruct (db_try db1) as [[u|e] db2] eqn:Ht; intros [= <- <-]; [|done]. apply db_try_spec in Ht. eauto.
Qed.

Section store_laws.
  Context `{C : AuthCodec} `{J : HeaderJson} `{JL : !HeaderJsonLaws J}
    `{PK : Prost ApiKeyModel} `{PT : Prost ApiTokenModel} `{PS : Prost ServiceModel}
    `{PKL : !ProstLaws ApiKeyModel PK} `{PTL : !ProstLaws ApiTokenModel PT} `{PSL : !ProstLaws ServiceModel PS}.

Lemma stored_headers_round_trip h : stored_headers (headers_to_store h) = h.
Proof.
  unfold stored_headers, headers_to_store. destruct (headers_round_trip h) as (bs & -> & Hne & Hr). cbn.
  by rewrite bool_decide_false, Hr.
Qed.

(** The key stored under an identifier, and the service under another *)
Definition key_at (d : gmap (Cf * list Byte8) (list Byte8)) (key_id : string) : option ApiKeyModel :=
  d !! (API_KEYS_CF, str_bytes key_id) ≫= decode ApiKeyModel.
Definition service_at (d : gmap (Cf * list Byte8) (list Byte8)) (id : ServiceId) : option ServiceModel :=
  d !! (SERVICES_USER_KEYS_CF, service_to_be_bytes id) ≫= decode ServiceModel.
Definition token_at (d : gmap (Cf * list Byte8) (list Byte8)) (id : Z) : option ApiTokenModel :=
  d !! (TOKENS_OPTS_CF, to_be_bytes 8 id) ≫= decode ApiTokenModel.

(** A look-up: the value is read from the data and decoded *)
Lemma find_spec {A} `{P : Prost A} cf k db r db' :
  (v ← get_cf cf k;
   match v with
   | Some bytes => lift_result (Some <$> ok_or (decode A bytes) ProtobufDecode)
   | None => mret None
   end) db = (r, db') →
  db_data db' = db_data db ∧
  ∀ o, r = Ok o → o = db_data db !! (cf, k) ≫= decode A.
Proof.
  intros Hf. db_step Hf; apply get_cf_spec in E as [Hd Hv].
  - subst a. destruct (db_data db !! (cf, k)) as [bytes|] eqn:Hl.
    + cbn in Hf. unfold lift_result in Hf. cbn. destruct (decode A bytes) as [x|] eqn:Hx; cbn in Hf; simplify_eq/=;
        (split; [done|]); intros o Ho; by simplify_eq.
    + cbn in Hf. unfold mret, DbM_ret in Hf. simplify_eq/=. split; [done|]. intros o Ho. by simplify_eq.
  - simplify_eq/=. split; [done|]. done.
Qed.

Lemma find_by_key_id_spec kid db r db' :
  find_by_key_id kid db = (r, db') → db_data db' = db_data db ∧ ∀ o, r = Ok o → o = key_at (db_data db) kid.
Proof. apply find_spec. Qed.
Lemma service_find_spec id db r db' :
  service_find id db = (r, db') → db_data db' = db_data db ∧ ∀ o, r = Ok o → o = service_at (db_data db) id.
Proof. apply find_spec. Qed.
Lemma find_token_id_spec id db r db' :
  find_token_id id db = (r, db') → db_data db' = db_data db ∧ ∀ o, r = Ok o → o = token_at (db_data db) id.
Proof. apply find_spec. Qed.

(** The identifier of a new key is the next of the sequence; the three tables
    change together or not at all. *)
Lemma key_create_spec m db r db' :
  key_create m db = (r, db') →
  match r with
  | Err _ => db_data db' = db_data db
  | Ok m' => ∃ id, m' = set_key_id_number m id ∧
      to_be_bytes 8 id = adder_merge_operator (db_data db !! (SEQ_CF, str_bytes "api_keys")) [to_be_bytes 8 1] ∧
      is_u64 id ∧
      db_data db' = <[(API_KEYS_BY_ID_CF, to_be_bytes 8 id) := str_bytes (km_key_id m)]>
        (<[(API_KEYS_CF, str_bytes (km_key_id m)) := encode_to_vec m']>
        (<[(SEQ_CF, str_bytes "api_keys") := to_be_bytes 8 id]> (db_data db)))
  end.
Proof.
  unfold key_create. intros Ht%transaction_spec. destruct r as [m'|e]; [|done].
  destruct Ht as (db1 & Hb & ->). set (k := str_bytes "api_keys") in *.
  set (v := adder_merge_operator (db_data db !! (SEQ_CF, k)) [to_be_bytes 8 1]).
  assert (Forall is_byte v ∧ length v = 8%nat) as [Hv Hl]
    by (split; [apply to_be_bytes_byte|apply length_to_be_bytes]).
  db_step Hb; [|done]. apply merge_retry_spec in E. db_step Hb; [|done]. apply get_cf_spec in E0 as [Hd Hg].
  rewrite E, lookup_insert_eq in Hg. subst a0. cbn [seq_value] in Hb. fold v in Hb.
  db_step Hb; [|done]. apply put_cf_spec in E0. db_step Hb; [|done]. apply put_cf_spec in E1.
  unfold mret, DbM_ret in Hb. injection Hb as <- <-.
  exists (from_be_bytes v). split; [done|].
  assert (to_be_bytes 8 (from_be_bytes v) = v) as Hrt by (rewrite <-Hl at 1; by apply to_from_be_bytes).
  split; [done|]. split.
  - pose proof (from_be_bytes_bound v Hv) as Hb. unfold zlen in Hb. rewrite Hl in Hb. unfold is_u64. lia.
  - rewrite E1, E0, Hd, E. by rewrite Hrt.
Qed.

Lemma key_save_spec m db r db' :
  km_id m ≠ 0 → key_save m db = (r, db') →
  (∀ cf k, cf ≠ API_KEYS_CF → cf ≠ API_KEYS_BY_ID_CF → db_data db' !! (cf, k) = db_data db !! (cf, k)) ∧
  (∀ kid, str_bytes kid ≠ str_bytes (km_key_id m) → key_at (db_data db') kid = key_at (db_data db) kid) ∧
  (key_at (db_data db') (km_key_id m) = Some m ∨ db_data db' = db_data db).
Proof.
  intros Hid. unfold key_save. rewrite (proj2 (Z.eqb_neq _ _)) by done. intros Hs. db_step Hs.
  - apply put_cf_spec in E. db_step Hs; apply put_cf_spec in E0; [unfold mret, DbM_ret in Hs|]; simplify_eq/=.
    + rewrite E0, E. unfold key_at. split_and!.
      * intros cf k H1 H2. by rewrite !lookup_insert_ne by congruence.
      * intros kid Hk. by rewrite !lookup_insert_ne by congruence.
      * left. rewrite lookup_insert_ne, lookup_insert_eq by done. apply prost_round_trip.
    + rewrite E0, E. unfold key_at. split_and!.
      * intros cf k H1 H2. by rewrite !lookup_insert_ne by congruence.
      * intros kid Hk. by rewrite !lookup_insert_ne by congruence.
      * left. rewrite lookup_insert_eq. apply prost_round_trip.
  - apply put_cf_spec in E. simplify_eq/=. rewrite E. split_and!; [done..|by right].
Qed.

End store_laws.
