(* ===== verification/AuthPaseto.v ===== *)
(** * Access tokens of the authentication proxy ([auth/src/paseto_tokens.rs])

    The claims of a short-lived access token, the binding of a tenant to the key
    it was issued for, and the manager that issues and validates tokens.  The
    [pasetors] library and the JSON form of the claims are parameters. *)

From Stdlib Require Import ZArith Lia Ascii.
From stdpp Require Import base gmap sets list sorting strings pretty fin_maps numbers relations.
From S2P Require Import Prelude Bytes Text JobCore Hex AuthTypes.

#[local] Open Scope Z_scope.

Record AccessTokenClaims := mkClaims {
  cl_service_id : ServiceId;
  cl_tenant_id : option string;
  cl_tenant_binding : option string;
  cl_additional_headers : gmap string string;
  cl_expires_at : Z;
  cl_issued_at : Z;
  cl_key_id : string;
  cl_jti : string;
  cl_scopes : option (list string);
}.

Inductive PasetoError :=
| TokenExpired | InvalidTenantBinding | EncryptionError (e : string) | DecryptionError (e : string)
| SerializationError (e : string) | DeserializationError (e : string).

(** The library: a token made at a time carries a text, and is valid for one
    hour, which is what [Claims::new] sets and the default rules check. *)
Class PasetoLib := {
  PasetoKey : Type;
  claims_to_json : AccessTokenClaims → result string string;
  claims_from_json : string → result string AccessTokenClaims;
  local_encrypt : PasetoKey → Z → list Byte8 → string → result string string;
  local_decrypt : PasetoKey → Z → string → result PasetoError string;
}.

Definition paseto_lifetime : Z := 3600.

Class PasetoLaws (L : PasetoLib) := {
  claims_round_trip c : ∃ s, claims_to_json c = Ok s ∧ claims_from_json s = Ok c;
  paseto_round_trip key now nonce data :
    ∃ token, local_encrypt key now nonce data = Ok token ∧ String.prefix "v4.local." token = true ∧
      (∀ now', now ≤ now' < now + paseto_lifetime → local_decrypt key now' token = Ok data) ∧
      (∀ now', now + paseto_lifetime < now' → ∃ e, local_decrypt key now' token = Err e);
}.

Section paseto.
  Context `{C : AuthCodec} `{L : PasetoLib}.

(** The binding of a tenant to a key *)
Definition tenant_binding_of (key_id tid : string) : string :=
  hex_encode (keccak_v256 (str_bytes key_id ++ str_bytes "::tenant::" ++ str_bytes tid)).

(** [AccessTokenClaims::new] *)
Definition claims_new (now : Z) (jti : string) (service_id : ServiceId) (key_id : string) (ttl : Duration)
    (tenant_id : option string) (additional_headers : gmap string string) (scopes : option (list string))
    : AccessTokenClaims :=
  mkClaims service_id tenant_id (tenant_binding_of key_id <$> tenant_id) additional_headers
    (u64_wrap (now + as_secs ttl)) now key_id jti scopes.

(** [AccessTokenClaims::verify_tenant_binding] *)
Definition verify_tenant_binding (c : AccessTokenClaims) : bool :=
  match cl_tenant_id c, cl_tenant_binding c with
  | None, None => true
  | Some tid, Some binding => bool_decide (tenant_binding_of (cl_key_id c) tid = binding)
  | _, _ => false
  end.

(** [AccessTokenClaims::is_expired], [time_to_expiry] *)
Definition claims_is_expired (now : Z) (c : AccessTokenClaims) : bool := cl_expires_at c <=? now.
Definition time_to_expiry (now : Z) (c : AccessTokenClaims) : option Duration :=
  if cl_expires_at c <=? now then None else Some (from_secs (cl_expires_at c - now)).

Record PasetoTokenManager := mkManager { pm_key : PasetoKey; pm_default_ttl : Duration }.

(** [PasetoTokenManager::generate_token]; the clock is read for the claims and
    again by the library *)
Definition generate_token (now now' : Z) (jti : string) (nonce : list Byte8) (m : PasetoTokenManager)
    (service_id : ServiceId) (key_id : string) (tenant_id : option string)
    (additional_headers : gmap string string) (ttl : option Duration) (scopes : option (list string))
    : result PasetoError string :=
  let claims := claims_new now jti service_id key_id (default (pm_default_ttl m) ttl) tenant_id
    additional_headers scopes in
  custom_json ← map_err SerializationError (claims_to_json claims);
  map_err EncryptionError (local_encrypt (pm_key m) now' nonce custom_json).

(** [PasetoTokenManager::validate_token] *)
Definition validate_token (now now' : Z) (m : PasetoTokenManager) (token : string)
    : result PasetoError AccessTokenClaims :=
  custom_json ← local_decrypt (pm_key m) now token;
  claims ← map_err DeserializationError (claims_from_json custom_json);
  if claims_is_expired now' claims then Err TokenExpired
  else if negb (verify_tenant_binding claims) then Err InvalidTenantBinding
  else Ok claims.

Lemma validate_token_ok now now' m token c :
  validate_token now now' m token = Ok c ↔
  (∃ data, local_decrypt (pm_key m) now token = Ok data ∧ claims_from_json data = Ok c) ∧
  now' < cl_expires_at c ∧ verify_tenant_binding c = true.
Proof.
  unfold validate_token, claims_is_expired. destruct (local_decrypt _ now token) as [data|e]; cbn.
  - destruct (claims_from_json data) as [c'|e] eqn:Hc; cbn.
    + destruct (Z.leb_spec (cl_expires_at c') now').
      * split; [done|]. intros ((d & ? & ?) & ? & ?). assert (c' = c) as -> by congruence. lia.
      * destruct (verify_tenant_binding c') eqn:Hb; cbn; split.
        -- intros [= <-]. eauto 10.
        -- intros ((d & ? & ?) & ? & ?). by assert (c' = c) as -> by congruence.
        -- done.
        -- intros ((d & ? & ?) & ? & ?). assert (c' = c) as -> by congruence. congruence.
    + split; [done|]. intros ((d & ? & ?) & ? & ?). congruence.
  - split; [done|]. intros ((d & ? & ?) & ? & ?). congruence.
Qed.

Lemma claims_new_binding now jti sid kid ttl tenant headers scopes :
  verify_tenant_binding (claims_new now jti sid kid ttl tenant headers scopes) = true.
Proof. unfold verify_tenant_binding, claims_new. cbn. destruct tenant; cbn; [by apply bool_decide_true|done]. Qed.

(** An issued token is valid, with its claims, until it runs out or an hour has
    passed, and not after that. *)
Lemma issued_token_valid `{!PasetoLaws L} now now1 jti nonce m sid kid tenant headers ttl scopes :
  let lifetime := default (pm_default_ttl m) ttl in
  let c := claims_new now jti sid kid lifetime tenant headers scopes in
  ∃ token, generate_token now now1 jti nonce m sid kid tenant headers ttl scopes = Ok token ∧
    String.prefix "v4.local." token = true ∧
    (∀ t t', now1 ≤ t < now1 + paseto_lifetime → t' < cl_expires_at c → validate_token t t' m token = Ok c) ∧
    (∀ t t' c', now1 + paseto_lifetime < t → validate_token t t' m token ≠ Ok c').
Proof.
  intros lifetime c. destruct (claims_round_trip c) as (s & Hs & Hr).
  destruct (paseto_round_trip (pm_key m) now1 nonce s) as (token & He & Hp & Hd & Hx).
  exists token. split_and!.
  - unfold generate_token. fold lifetime. fold c. rewrite Hs. cbn. by rewrite He.
  - done.
  - intros t t' Ht Ht'. apply validate_token_ok. split; [exists s; split; [by apply Hd|done]|].
    split; [done|]. apply claims_new_binding.
  - intros t t' c' Ht. destruct (Hx t Ht) as [e He']. unfold validate_token. by rewrite He'.
Qed.

End paseto.
