(* ===== verification/AuthProxy.v ===== *)
(** * The authentication proxy ([auth/src/proxy.rs], [lib.rs])

    The challenge, verification and exchange endpoints and the proxy itself: how a
    request is authenticated, which headers reach the upstream service and where.
    Signature schemes other than BN254, URIs and the rules of the [http] library
    for header names and values are parameters.  A handler is a function of the
    database that also gives the database it leaves. *)

From Stdlib Require Import ZArith Lia Ascii.
From stdpp Require Import base gmap sets list sorting strings pretty fin_maps numbers relations.
From S2P Require Import Prelude Bytes Text Bn254 JobCore Hex Http AuthTypes AuthStore AuthPaseto.

#[local] Open Scope Z_scope.

(** ** Parameters *)

(** [k256] and [schnorrkel]: a malformed key or signature is an error *)
Class ChallengeSchemes := {
  verify_challenge_ecdsa : list Byte8 → list Byte8 → list Byte8 → result AuthError bool;
  verify_challenge_sr25519 : list Byte8 → list Byte8 → list Byte8 → result AuthError bool;
}.

(** The [http] library; names are kept in lower case *)
Class HttpLib := {
  parse_header_name : string → option string;
  parse_header_value : string → option (list Byte8);
  Uri : Type;
  parse_uri : string → option Uri;
  uri_scheme : Uri → option string;
  uri_authority : Uri → option string;
  build_uri : string → string → string → option string;
}.
Class HttpLaws (L : HttpLib) := {
  header_name_lower s n : parse_header_name s = Some n → n = to_ascii_lowercase s ∧ all_chars is_ascii s = true;
  header_value_bytes s v : parse_header_value s = Some v → v = str_bytes s;
}.

(** ** Header rules *)

Section rules.
  Context `{Lowercase}.

(** [is_forbidden_header] *)
Definition PROXY_FORBIDDEN : list string :=
  ["host"; "content-length"; "transfer-encoding"; "connection"; "upgrade"; "proxy-authorization";
   "proxy-authenticate"; "x-forwarded-host"; "x-real-ip"; "x-forwarded-for"; "x-forwarded-proto"; "forwarded"].
Definition is_forbidden_header (name : string) : bool := bool_decide (to_lowercase name ∈ PROXY_FORBIDDEN).

(** [is_auth_header], [is_grpc_required_header] *)
Definition is_auth_header (name : string) : bool :=
  let lower := to_lowercase name in
  bool_decide (lower = "authorization") || String.prefix "x-tenant-" lower
  || bool_decide (lower = "x-scope") || bool_decide (lower = "x-scopes").
Definition is_grpc_required_header (name : string) : bool :=
  bool_decide (to_lowercase name ∈ ["content-type"; "te"; "grpc-encoding"; "grpc-accept-encoding"]).

(** [is_proxy_injected_header_allowed] *)
Definition is_proxy_injected_header_allowed (name : string) : bool :=
  let lower := to_lowercase name in
  String.prefix "x-tenant-" lower || bool_decide (lower = "x-scope") || bool_decide (lower = "x-scopes")
  || bool_decide (lower = "x-request-id") || bool_decide (lower = "x-trace-id")
  || bool_decide (lower = "user-agent") || String.prefix "grpc-" lower.

Definition has_crlf (value : string) : bool :=
  contains (String (ascii_of_N 13) "") value || contains (String (ascii_of_N 10) "") value.

(** [validate_binary_metadata] with the given size limit *)
Definition validate_binary_metadata (max_size : Z) (name value : string) : bool :=
  let lower := to_lowercase name in
  if negb (ends_with "-bin" lower) then false
  else if max_size <? Z.of_nat (String.length value) then false
  else if has_crlf value then false
  else all_chars (λ c, is_ascii_alphanumeric c || bool_decide (c ∈ ["+"; "/"; "="; "-"; "_"]%char)) value.

(** The decision of [apply_additional_headers] to keep a header *)
Definition injected_allowed (is_grpc : bool) (name : string) : bool :=
  let lower := to_lowercase name in
  let is_tenant_header := String.prefix "x-tenant-" lower in
  let is_scope_header := bool_decide (lower = "x-scope") || bool_decide (lower = "x-scopes") in
  negb (is_auth_header name) || (is_grpc && is_grpc_required_header name) || is_tenant_header || is_scope_header
  || (is_grpc && is_proxy_injected_header_allowed name).

Section http.
  Context `{HL : HttpLib}.

(** One round of the loop of [apply_additional_headers] *)
Definition apply_header (max_size : Z) (is_grpc : bool) (h : HeaderMap) (p : string * string) : HeaderMap :=
  let '(name, value) := p in
  if is_forbidden_header name then h
  else if negb (injected_allowed is_grpc name) then h
  else
    match parse_header_name name with
    | None => h
    | Some n =>
        match parse_header_value value with
        | None => h
        | Some v =>
            if is_grpc && ends_with "-bin" (to_lowercase name) && negb (validate_binary_metadata max_size name value)
            then h
            else if has_crlf value then h
            else <[n := [v]]> h
        end
    end.

(** [apply_additional_headers] *)
Definition apply_additional_headers (max_size : Z) (h : HeaderMap) (additional : gmap string string) (is_grpc : bool)
    : HeaderMap :=
  foldl (apply_header max_size is_grpc) h (btree_items additional).

(** [sanitize_request_headers] *)
Definition sanitize_request_headers (h : HeaderMap) (is_grpc : bool) : HeaderMap :=
  retain (λ name _, negb ((is_auth_header name || is_forbidden_header name)
    && negb (is_grpc && is_grpc_required_header name))) h.

End http.

(** [is_grpc_request] *)
Definition is_grpc_request (h : HeaderMap) (is_http2 : bool) : bool :=
  let text name := header_get h name ≫= header_to_str in
  match text "content-type" with
  | Some ct => String.prefix "application/grpc" (to_lowercase ct)
  | None => false
  end &&
  match text "te" with Some te => bool_decide (to_lowercase te = "trailers") | None => false end &&
  is_http2.

End rules.

(** ** Status codes and messages *)

Definition OK : Z := 200.
Definition CREATED : Z := 201.
Definition BAD_REQUEST : Z := 400.
Definition UNAUTHORIZED : Z := 401.
Definition NOT_FOUND : Z := 404.
Definition PRECONDITION_REQUIRED : Z := 428.
Definition INTERNAL_SERVER_ERROR : Z := 500.

Record ChallengeRequest := mkChallengeRequest { cr_pub_key : list Byte8; cr_key_type : AuthKeyType }.
Record ChallengeResponse := mkChallengeResponse { ch_challenge : list Byte8; ch_expires_at : Z }.
Record VerifyChallengeRequest := mkVerifyRequest {
  vc_request : ChallengeRequest;
  vc_challenge : list Byte8;
  vc_signature : list Byte8;
  vc_expires_at : Z;
  vc_additional_headers : gmap string string;
}.
Inductive VerifyChallengeResponse :=
| Verified (api_key : string) (expires_at : Z)
| VerifyExpired | InvalidSignature | ServiceNotFound | Unauthorized
| UnexpectedError (message : string).

Record TokenExchangeRequest := mkExchange { ex_additional_headers : gmap string string; ex_ttl_seconds : option Z }.
Inductive ExchangeResponse :=
| Exchanged (access_token : string) (expires_at expires_in : Z)
| ExchangeError (error : string).

(** The clocks and random bytes of one request *)
Record AuthReadings := mkReadings {
  ar_now : Z;            (* expiry checks *)
  ar_now_used : Z;       (* last use, creation *)
  ar_now_claims : Z;     (* claims of a token *)
  ar_now_token : Z;      (* the token library *)
  ar_now_response : Z;   (* the expiry that is reported *)
  ar_now_left : Z;       (* the time left that is reported *)
  ar_random : list Byte8;
  ar_jti : string;
}.

Record ClientCertInfo := mkCert { cert_subject : string; cert_issuer : string; cert_serial : string }.

(** What is sent upstream *)
Record Forwarded := mkForwarded {
  fw_service : ServiceId;
  fw_uri : string;
  fw_headers : HeaderMap;
  fw_grpc : bool;
  fw_tls : bool;
}.

Section proxy.
  Context `{LC : Lowercase} `{C : AuthCodec} `{J : HeaderJson} `{PK : Prost ApiKeyModel} `{PT : Prost ApiTokenModel}
    `{PS : Prost ServiceModel} `{L : PasetoLib} `{CS : ChallengeSchemes} `{B : Bn254.Bn254} `{HL : HttpLib}.
  Variable error_text : AuthError → string.
  Variable validation_text : ValidationError → string.

(** [verify_challenge]; [None] is a panic, of the unchecked decoding of points *)
Definition verify_challenge_bn254_bls (challenge signature pub_key : list Byte8) : option (result AuthError bool) :=
  pk ← Bn254.g2_deserialize pub_key;
  s ← Bn254.g1_deserialize signature;
  Some (Ok (bls_verify pk challenge s)).
Definition verify_challenge (challenge signature pub_key : list Byte8) (kt : AuthKeyType)
    : option (result AuthError bool) :=
  match kt with
  | KeyUnknown => Some (Err UnknownKeyType)
  | KeyEcdsa => Some (verify_challenge_ecdsa challenge signature pub_key)
  | KeySr25519 => Some (verify_challenge_sr25519 challenge signature pub_key)
  | KeyBn254Bls => verify_challenge_bn254_bls challenge signature pub_key
  end.

(** The service a request names ([ServiceId::from_request_parts]) *)
Definition service_id_from_headers (h : HeaderMap) : result Z ServiceId :=
  v ← ok_or (header_get h "x-service-id") PRECONDITION_REQUIRED;
  s ← ok_or (header_to_str v) BAD_REQUEST;
  map_err (λ _, BAD_REQUEST) (service_from_str s).

(** [auth_challenge] *)
Definition auth_challenge (rd : AuthReadings) (service_id : ServiceId) (payload : ChallengeRequest) (db : Db)
    : result Z ChallengeResponse * Db :=
  match service_find service_id db with
  | (Err _, db) => (Err INTERNAL_SERVER_ERROR, db)
  | (Ok None, db) => (Err NOT_FOUND, db)
  | (Ok (Some service), db) =>
      if negb (is_owner service (cr_key_type payload) (cr_pub_key payload)) then (Err UNAUTHORIZED, db)
      else (Ok (mkChallengeResponse (take 32 (ar_random rd)) (ar_now rd + 30)), db)
  end.

Definition NINETY_DAYS : Z := 90 * 24 * 60 * 60.

(** [auth_verify] *)
Definition auth_verify (rd : AuthReadings) (service_id : ServiceId) (payload : VerifyChallengeRequest) (db : Db)
    : option (Z * VerifyChallengeResponse) * Db :=
  match service_find service_id db with
  | (Ok None, db) => (Some (NOT_FOUND, UnexpectedError "Service not found"), db)
  | (Err e, db) => (Some (INTERNAL_SERVER_ERROR, UnexpectedError ("Internal server error: " +:+ error_text e)), db)
  | (Ok (Some service), db) =>
      let public_key := cr_pub_key (vc_request payload) in
      let kt := cr_key_type (vc_request payload) in
      if negb (is_owner service kt public_key) then (Some (UNAUTHORIZED, Unauthorized), db)
      else
        match verify_challenge (vc_challenge payload) (vc_signature payload) public_key kt with
        | None => (None, db)
        | Some (Ok false) => (Some (UNAUTHORIZED, InvalidSignature), db)
        | Some (Err e) =>
            (Some (INTERNAL_SERVER_ERROR, UnexpectedError ("Internal server error: " +:+ error_text e)), db)
        | Some (Ok true) =>
            match validate_headers (vc_additional_headers payload) with
            | Err e => (Some (BAD_REQUEST, UnexpectedError ("Invalid headers: " +:+ validation_text e)), db)
            | Ok validated_headers =>
                let protected_headers := process_headers_with_pii_protection validated_headers in
                let expires_at := Z.max (vc_expires_at payload) (u64_wrap (ar_now rd + NINETY_DAYS)) in
                let api_key := generate_key (api_key_prefix service) service_id expires_at protected_headers
                                 (take 32 (ar_random rd)) in
                match key_save (key_model_of (ar_now_used rd) api_key) db with
                | (Err e, db) =>
                    (Some (INTERNAL_SERVER_ERROR, UnexpectedError ("Internal server error: " +:+ error_text e)), db)
                | (Ok _, db) => (Some (CREATED, Verified (gk_full_key api_key) expires_at), db)
                end
            end
        end
  end.

(** The checks that [auth_exchange] and [handle_api_key] share, and the update
    of the time of last use, whose failure is only logged *)
Definition check_api_key (rd : AuthReadings) (api_key : string) (db : Db) : result (Z * string) ApiKeyModel * Db :=
  match split_once "." api_key with
  | None => (Err (BAD_REQUEST, "invalid_api_key_format"), db)
  | Some (key_id, _) =>
      match find_by_key_id key_id db with
      | (Err _, db) => (Err (INTERNAL_SERVER_ERROR, "internal_error"), db)
      | (Ok None, db) => (Err (UNAUTHORIZED, "invalid_api_key"), db)
      | (Ok (Some m), db) =>
          if negb (validates_key m api_key) then (Err (UNAUTHORIZED, "invalid_api_key"), db)
          else if key_is_expired (ar_now rd) m then (Err (UNAUTHORIZED, "expired_api_key"), db)
          else if negb (km_is_enabled m) then (Err (UNAUTHORIZED, "disabled_api_key"), db)
          else (Ok (set_last_used m (ar_now_used rd)), (update_last_used (ar_now_used rd) m db).2)
      end
  end.

(** The credential of a request to [auth_exchange] *)
Definition exchange_credential (h : HeaderMap) : result (Z * string) string :=
  v ← ok_or (header_get h "authorization") (UNAUTHORIZED, "missing_authorization_header");
  s ← ok_or (header_to_str v) (BAD_REQUEST, "invalid_authorization_header");
  ok_or (strip_prefix "Bearer " s) (BAD_REQUEST, "invalid_authorization_header").

(** [auth_exchange] *)
Definition auth_exchange (rd : AuthReadings) (m : PasetoTokenManager) (h : HeaderMap) (payload : TokenExchangeRequest)
    (db : Db) : (Z * ExchangeResponse) * Db :=
  match exchange_credential h with
  | Err (code, e) => ((code, ExchangeError e), db)
  | Ok auth_header =>
      match check_api_key rd auth_header db with
      | (Err (code, e), db) => ((code, ExchangeError e), db)
      | (Ok model, db) =>
          let headers := ex_additional_headers payload ∪ get_default_headers model in
          match validate_headers headers with
          | Err _ => ((BAD_REQUEST, ExchangeError "invalid_headers"), db)
          | Ok validated_headers =>
              let protected_headers := process_headers_with_pii_protection validated_headers in
              let tenant_id := protected_headers !! "X-Tenant-Id" in
              let custom_ttl := from_secs <$> ex_ttl_seconds payload in
              match generate_token (ar_now_claims rd) (ar_now_token rd) (ar_jti rd) (ar_random rd) m
                      (key_service_id model) (km_key_id model) tenant_id protected_headers custom_ttl None with
              | Err _ => ((INTERNAL_SERVER_ERROR, ExchangeError "token_generation_failed"), db)
              | Ok token =>
                  let expires_at := u64_wrap (ar_now_response rd + as_secs (default (pm_default_ttl m) custom_ttl)) in
                  ((OK, Exchanged token expires_at (u64_sat_sub expires_at (ar_now_left rd))), db)
              end
          end
      end
  end.

(** [handle_legacy_token] *)
Definition handle_legacy_token (rd : AuthReadings) (t : ApiToken) (db : Db)
    : result Z (ServiceId * gmap string string) * Db :=
  match find_token_id (tok_id t) db with
  | (Ok (Some m), db) =>
      if token_is m (tok_text t) && negb (token_is_expired (ar_now rd) m) && tm_is_enabled m
      then (Ok (token_service_id m, get_additional_headers m), db)
      else (Err UNAUTHORIZED, db)
  | (Ok None, db) => (Err UNAUTHORIZED, db)
  | (Err _, db) => (Err INTERNAL_SERVER_ERROR, db)
  end.

(** [handle_api_key] *)
Definition handle_api_key (rd : AuthReadings) (api_key : string) (db : Db)
    : result Z (ServiceId * gmap string string) * Db :=
  match check_api_key rd api_key db with
  | (Ok m, db) => (Ok (key_service_id m, get_default_headers m), db)
  | (Err (code, _), db) => (Err code, db)
  end.

(** The scopes of a token as one text: lower case, in order, without
    repetitions *)
Definition scopes_text (scopes : list string) : string :=
  let set := list_to_map ((λ s, (to_lowercase s, tt)) <$> scopes) : gmap string unit in
  String.concat " " ((btree_items set).*1).

(** [handle_paseto_token] *)
Definition handle_paseto_token (rd : AuthReadings) (m : PasetoTokenManager) (token : string)
    : result Z (ServiceId * gmap string string) :=
  match validate_token (ar_now_token rd) (ar_now rd) m token with
  | Err _ => Err UNAUTHORIZED
  | Ok c =>
      let headers := cl_additional_headers c in
      let headers :=
        match cl_scopes c with
        | Some ((_ :: _) as scopes) => <["x-scopes" := scopes_text scopes]> headers
        | _ => headers
        end in
      Ok (cl_service_id c, headers)
  end.

(** [extract_and_validate_auth] *)
Definition bearer (h : HeaderMap) : option string :=
  v ← header_get h "authorization"; s ← header_to_str v; strip_prefix "Bearer " s.
Definition extract_and_validate_auth (rd : AuthReadings) (m : PasetoTokenManager) (h : HeaderMap) (db : Db)
    : result Z (ServiceId * gmap string string) * Db :=
  match bearer h with
  | None => (Err UNAUTHORIZED, db)
  | Some auth_header =>
      match auth_token_parse auth_header with
      | Ok (Legacy t) => handle_legacy_token rd t db
      | Ok (ApiKey k) => handle_api_key rd k db
      | Err _ =>
          if String.prefix "v4.local." auth_header then (handle_paseto_token rd m auth_header, db)
          else (Err UNAUTHORIZED, db)
      end
  end.

(** The headers of a client certificate *)
Definition cert_headers (client_cert : option ClientCertInfo) (additional : gmap string string) : gmap string string :=
  match client_cert with
  | Some cert =>
      <["x-auth-method" := "mtls"]> (<["x-client-cert-serial" := cert_serial cert]>
        (<["x-client-cert-issuer" := cert_issuer cert]> (<["x-client-cert-subject" := cert_subject cert]> additional)))
  | None => additional
  end.

(** [grpc_proxy_with_mtls] and [reverse_proxy_with_mtls] up to the request that
    is sent upstream; [path_query] is the path and query of the request *)
Definition proxy_with_mtls (is_grpc : bool) (max_size : Z) (rd : AuthReadings) (m : PasetoTokenManager)
    (client_cert : option ClientCertInfo) (path_query : string) (h : HeaderMap) (db : Db)
    : result Z Forwarded * Db :=
  match extract_and_validate_auth rd m h db with
  | (Err code, db) => (Err code, db)
  | (Ok (service_id, additional), db) =>
      match service_find service_id db with
      | (Ok None, db) => (Err NOT_FOUND, db)
      | (Err _, db) => (Err INTERNAL_SERVER_ERROR, db)
      | (Ok (Some service), db) =>
          if requires_client_mtls service && bool_decide (client_cert = None) then (Err UNAUTHORIZED, db)
          else
            match parse_uri (upstream_url service) with
            | None => (Err INTERNAL_SERVER_ERROR, db)
            | Some target =>
                match build_uri (default "http" (uri_scheme target)) (default "localhost" (uri_authority target))
                        path_query with
                | None => (Err BAD_REQUEST, db)
                | Some uri =>
                    let h := sanitize_request_headers h is_grpc in
                    let h := apply_additional_headers max_size h (cert_headers client_cert additional) is_grpc in
                    (Ok (mkForwarded service_id uri h is_grpc (bool_decide (uri_scheme target = Some "https"))), db)
                end
            end
      end
  end.

Definition grpc_proxy_with_mtls := proxy_with_mtls true.
Definition reverse_proxy_with_mtls := proxy_with_mtls false.

(** [unified_proxy] *)
Definition unified_proxy (max_size : Z) (rd : AuthReadings) (m : PasetoTokenManager)
    (client_cert : option ClientCertInfo) (is_http2 : bool) (path_query : string) (h : HeaderMap) (db : Db)
    : result Z Forwarded * Db :=
  if is_grpc_request h is_http2 then grpc_proxy_with_mtls max_size rd m client_cert path_query h db
  else reverse_proxy_with_mtls max_size rd m client_cert path_query h db.

Lemma unified_proxy_eq max_size rd m cert http2 path_query h db :
  unified_proxy max_size rd m cert http2 path_query h db
  = proxy_with_mtls (is_grpc_request h http2) max_size rd m cert path_query h db.
Proof. unfold unified_proxy. by destruct (is_grpc_request h http2). Qed.

End proxy.

(** ** Headers that reach the upstream service *)

Lemma is_ascii_lower s : all_chars is_ascii s = true → all_chars is_ascii (to_ascii_lowercase s) = true.
Proof.
  unfold all_chars. induction s as [|a s IH]; [done|]. cbn. intros [Ha Hs]%andb_prop.
  apply andb_true_intro. split; [|by apply IH]. revert Ha. destruct a as [[] [] [] [] [] [] [] []]; vm_compute; done.
Qed.

Section provenance.
  Context `{LC : Lowercase} `{HL : HttpLib} `{!HttpLaws HL}.

(** On names as the library keeps them *)
Lemma to_lowercase_lower s : all_chars is_ascii s = true → to_lowercase (to_ascii_lowercase s) = to_lowercase s.
Proof. intros Hs. rewrite !to_lowercase_ascii by (try apply is_ascii_lower; done). apply lower_lower. Qed.

Lemma injected_not_authorization g name :
  all_chars is_ascii name = true → injected_allowed g name = true → to_ascii_lowercase name ≠ "authorization".
Proof.
  intros Ha Hi Heq. revert Hi. unfold injected_allowed, is_auth_header, is_grpc_required_header,
    is_proxy_injected_header_allowed. rewrite to_lowercase_ascii, Heq by done. by destruct g.
Qed.

Lemma apply_provenance max_size g l h n vs :
  foldl (apply_header max_size g) h l !! n = Some vs →
  (∃ name value, (name, value) ∈ l ∧ n = to_ascii_lowercase name ∧ vs = [str_bytes value] ∧
     is_forbidden_header n = false ∧ n ≠ "authorization") ∨
  h !! n = Some vs.
Proof.
  revert h. induction l as [|[name value] l IH]; intros h; cbn [foldl]; [by right|].
  intros [(name' & value' & Hin & Hrest)|Hh]%IH; [left; exists name', value'; split; [by right|done]|].
  unfold apply_header in Hh. destruct (is_forbidden_header name) eqn:Hf; [by right|].
  destruct (injected_allowed g name) eqn:Hi; [|by right]. cbn in Hh.
  destruct (parse_header_name name) as [n'|] eqn:Hn; [|by right].
  destruct (parse_header_value value) as [v|] eqn:Hv; [|by right].
  destruct (g && _ && _); [by right|]. destruct (has_crlf value); [by right|].
  destruct (decide (n = n')) as [->|Hne]; [|rewrite lookup_insert_ne in Hh by done; by right].
  rewrite lookup_insert_eq in Hh. injection Hh as <-. apply header_name_lower in Hn as [-> Ha].
  apply header_value_bytes in Hv as ->. left. exists name, value. split; [by left|]. split; [done|]. split; [done|].
  unfold is_forbidden_header in *. rewrite to_lowercase_lower by done. split; [done|].
  by apply (injected_not_authorization g).
Qed.

Lemma grpc_required_harmless n :
  is_grpc_required_header n = true → is_auth_header n = false ∧ is_forbidden_header n = false.
Proof.
  unfold is_grpc_required_header, is_auth_header, is_forbidden_header. intros Hr%bool_decide_eq_true_1.
  generalize dependent (to_lowercase n). clear. intros lower Hr. rewrite !elem_of_cons, elem_of_nil in Hr.
  destruct_or!; subst; done.
Qed.

Lemma sanitize_provenance g h n vs :
  sanitize_request_headers h g !! n = Some vs →
  h !! n = Some vs ∧ is_auth_header n = false ∧ is_forbidden_header n = false.
Proof.
  unfold sanitize_request_headers. rewrite retain_lookup_Some. intros [Hn Hk]. split; [done|].
  destruct (is_grpc_required_header n) eqn:Hr; [by apply grpc_required_harmless|].
  rewrite andb_false_r in Hk. cbn in Hk. rewrite andb_true_r in Hk. apply negb_true_iff, orb_false_elim in Hk. done.
Qed.

(** A header sent upstream is one of the given ones, or was in the request and is
    neither forbidden nor reserved for the proxy. *)
Lemma forwarded_provenance max_size g h additional n vs :
  apply_additional_headers max_size (sanitize_request_headers h g) additional g !! n = Some vs →
  is_forbidden_header n = false ∧ n ≠ "authorization" ∧
  ((∃ name value, additional !! name = Some value ∧ n = to_ascii_lowercase name ∧ vs = [str_bytes value]) ∨
   (h !! n = Some vs ∧ is_auth_header n = false)).
Proof.
  unfold apply_additional_headers. intros [(name & value & Hin%elem_of_btree_items & -> & -> & Hf & Ha)|Hh]%apply_provenance.
  - split_and!; [done..|]. left. eauto.
  - apply sanitize_provenance in Hh as (Hh & Ha & Hf). split_and!; [done| |by right].
    intros ->. unfold is_auth_header in Ha. by rewrite to_lowercase_ascii in Ha by done.
Qed.

End provenance.

(** ** Credentials *)

Section credentials.
  Context `{LC : Lowercase} `{C : AuthCodec} `{J : HeaderJson} `{PK : Prost ApiKeyModel} `{PT : Prost ApiTokenModel}
    `{PS : Prost ServiceModel} `{L : PasetoLib} `{HL : HttpLib}
    `{PKL : !ProstLaws ApiKeyModel PK}.

(** An API key that is on record, unexpired and enabled *)
Definition valid_key (now : Z) (d : gmap (Cf * list Byte8) (list Byte8)) (key : string) (model : ApiKeyModel) : Prop :=
  ∃ rest, split_once "." key = Some (km_key_id model, rest) ∧ key_at d (km_key_id model) = Some model ∧
    km_key_hash model = hash_text key ∧ now < km_expires_at model ∧ km_is_enabled model = true.

(** What authenticates a request as one of a service, with which headers *)
Inductive authenticates (rd : AuthReadings) (m : PasetoTokenManager) (d : gmap (Cf * list Byte8) (list Byte8))
    (credential : string) : ServiceId → gmap string string → Prop :=
| auth_legacy t model :
    api_token_from_str credential = Ok t → token_at d (tok_id t) = Some model →
    tm_token model = hash_text (tok_text t) → tm_is_enabled model = true →
    (tm_expires_at model = 0 ∨ ar_now rd ≤ tm_expires_at model) →
    authenticates rd m d credential (token_service_id model) (get_additional_headers model)
| auth_key model :
    valid_key (ar_now rd) d credential model →
    authenticates rd m d credential (key_service_id model) (get_default_headers model)
| auth_access_token claims headers :
    validate_token (ar_now_token rd) (ar_now rd) m credential = Ok claims →
    (∀ n v, headers !! n = Some v →
       cl_additional_headers claims !! n = Some v ∨
       ∃ scopes, n = "x-scopes" ∧ cl_scopes claims = Some scopes ∧ v = scopes_text scopes) →
    authenticates rd m d credential (cl_service_id claims) headers.

Lemma check_api_key_ok rd key db model db' :
  check_api_key rd key db = (Ok model, db') →
  ∃ stored, valid_key (ar_now rd) (db_data db) key stored ∧ model = set_last_used stored (ar_now_used rd) ∧
    ∃ r db1, db_data db1 = db_data db ∧ update_last_used (ar_now_used rd) stored db1 = (r, db').
Proof.
  unfold check_api_key. destruct (split_once "." key) as [[kid rest]|] eqn:Hs; [|done].
  destruct (find_by_key_id kid db) as [[[stored|]|e] db1] eqn:Hf; [|done|done].
  apply find_by_key_id_spec in Hf as [Hd Hk]. specialize (Hk _ eq_refl).
  destruct (validates_key stored key) eqn:Hv; [|done]. cbn [negb].
  unfold key_is_expired. destruct (Z.leb_spec (km_expires_at stored) (ar_now rd)); [done|].
  destruct (km_is_enabled stored) eqn:He; [|done]. cbn [negb]. intros Hok. injection Hok as <- <-.
  unfold validates_key in Hv. rewrite Hs in Hv. case_bool_decide as Hid; [|done]. cbn in Hv.
  apply bool_decide_eq_true_1 in Hv. exists stored. split.
  - exists rest. subst kid. done.
  - split; [done|]. destruct (update_last_used (ar_now_used rd) stored db1) as [r db2] eqn:Hu. exists r, db1. done.
Qed.

(** Saving a key touches no service and no legacy token. *)
Lemma key_save_frame m db r db' :
  key_save m db = (r, db') →
  (∀ id, service_at (db_data db') id = service_at (db_data db) id) ∧
  (∀ id, token_at (db_data db') id = token_at (db_data db) id).
Proof.
  intros Hs. destruct (decide (km_id m = 0)) as [H0|H0].
  - unfold key_save in Hs. rewrite (proj2 (Z.eqb_eq _ _)) in Hs by done. apply key_create_spec in Hs.
    destruct r as [m'|e]; [|by rewrite Hs]. destruct Hs as (id & -> & _ & _ & ->). unfold service_at, token_at.
    split; intros; by rewrite !lookup_insert_ne by done.
  - apply key_save_spec in Hs as [Hs _]; [|done]. unfold service_at, token_at. split; intros; by rewrite Hs by done.
Qed.

Lemma extract_ok rd m h db sid additional db' :
  extract_and_validate_auth rd m h db = (Ok (sid, additional), db') →
  (∃ credential, bearer h = Some credential ∧ authenticates rd m (db_data db) credential sid additional) ∧
  (∀ id, service_at (db_data db') id = service_at (db_data db) id).
Proof.
  unfold extract_and_validate_auth. destruct (bearer h) as [credential|] eqn:Hb; [|done].
  unfold auth_token_parse. destruct (String.prefix "v4.local." credential) eqn:Hp.
  - unfold handle_paseto_token. destruct (validate_token _ _ m credential) as [c|e] eqn:Hv; [|done].
    intros [= <- <- <-]. split; [|done]. exists credential. split; [done|]. eapply auth_access_token; [done|].
    intros n v. destruct (cl_scopes c) as [[|s l]|] eqn:Hs; try (by left).
    destruct (decide (n = "x-scopes")) as [->|Hn].
    + rewrite lookup_insert_eq. intros [= <-]. right. by exists (s :: l).
    + rewrite lookup_insert_ne by done. by left.
  - destruct (contains "|" credential); [destruct (api_token_from_str credential) as [t|e] eqn:Ht; cbn; [|done]|].
    + unfold handle_legacy_token. destruct (find_token_id (tok_id t) db) as [[[model|]|e] db1] eqn:Hf; [|done..].
      apply find_token_id_spec in Hf as [Hd Hk]. specialize (Hk _ eq_refl).
      destruct (token_is model (tok_text t) && _ && _) eqn:Hok; [|done]. intros [= <- <- <-].
      apply andb_prop in Hok as [[Hi Hx]%andb_prop He]. split; [|by rewrite Hd].
      exists credential. split; [done|]. apply (auth_legacy _ _ _ _ t model); [done|done|by apply bool_decide_eq_true_1 in Hi|done|].
      unfold token_is_expired in Hx. destruct (Z.eqb_spec (tm_expires_at model) 0); [by left|].
      apply negb_true_iff, Z.ltb_ge in Hx. by right.
    + destruct (contains "." credential); [|done]. unfold handle_api_key.
      destruct (check_api_key rd credential db) as [[model|[code e]] db1] eqn:Hc; [|done]. intros [= <- <- <-].
      apply check_api_key_ok in Hc as (stored & Hv & -> & r & db0 & Hd & Hu). split.
      * exists credential. split; [done|]. exact (auth_key rd m (db_data db) credential stored Hv).
      * intros id. destruct (key_save_frame _ _ _ _ Hu) as [Hf _]. by rewrite Hf, Hd.
Qed.

Lemma exchange_credential_bearer h key : exchange_credential h = Ok key → bearer h = Some key.
Proof.
  unfold exchange_credential, bearer. generalize "Bearer ". intros bearer_text.
  destruct (header_get h "authorization") as [v|]; [|done]. simpl.
  destruct (header_to_str v) as [s|]; [|done]. simpl. by destruct (strip_prefix bearer_text s); intros [= ->].
Qed.

End credentials.

(** ** Theorems *)

Section theorems.
  Context `{LC : Lowercase} `{C : AuthCodec} `{CL : !AuthCodecLaws C} `{J : HeaderJson} `{JL : !HeaderJsonLaws J}
    `{PK : Prost ApiKeyModel} `{PT : Prost ApiTokenModel} `{PS : Prost ServiceModel}
    `{PKL : !ProstLaws ApiKeyModel PK} `{L : PasetoLib} `{LL : !PasetoLaws L}
    `{CS : ChallengeSchemes} `{B : Bn254.Bn254} `{HL : HttpLib} `{HLL : !HttpLaws HL}.
  Variable error_text : AuthError → string.
  Variable validation_text : ValidationError → string.

(** C8. Only authenticated requests are forwarded, and only with headers that the
    proxy vouches for.  A request that goes upstream carries a credential on
    record that is neither expired nor disabled, or an access token of this proxy;
    it goes to the service of the credential, with a client certificate where the
    service asks for one; and each of its headers either belongs to the credential
    or the certificate, or was in the request and is not one of those by which the
    proxy identifies tenants and scopes.  The credential itself is not passed on. *)
Theorem proxy_authenticated max_size rd m cert http2 path_query h db fw db' :
  unified_proxy max_size rd m cert http2 path_query h db = (Ok fw, db') →
  ∃ credential additional service target,
    bearer h = Some credential ∧
    authenticates rd m (db_data db) credential (fw_service fw) additional ∧
    service_at (db_data db) (fw_service fw) = Some service ∧
    (requires_client_mtls service = true → cert ≠ None) ∧
    parse_uri (upstream_url service) = Some target ∧
    build_uri (default "http" (uri_scheme target)) (default "localhost" (uri_authority target)) path_query
      = Some (fw_uri fw) ∧
    (∀ n vs, fw_headers fw !! n = Some vs →
       is_forbidden_header n = false ∧ n ≠ "authorization" ∧
       ((∃ name value, cert_headers cert additional !! name = Some value ∧
           n = to_ascii_lowercase name ∧ vs = [str_bytes value]) ∨
        (h !! n = Some vs ∧ is_auth_header n = false))).
Proof.
  rewrite unified_proxy_eq. unfold proxy_with_mtls. set (g := is_grpc_request h http2).
  destruct (extract_and_validate_auth rd m h db) as [[[sid additional]|code] db1] eqn:He; [|done].
  apply extract_ok in He as [(credential & Hb & Ha) Hsv].
  destruct (service_find sid db1) as [[[service|]|e] db2] eqn:Hs; [|done..].
  apply service_find_spec in Hs as [_ Hs]. specialize (Hs _ eq_refl). rewrite Hsv in Hs.
  destruct (requires_client_mtls service && _) eqn:Hm; [done|].
  destruct (parse_uri (upstream_url service)) as [target|] eqn:Ht; [|done].
  destruct (build_uri _ _ _) as [uri|] eqn:Hu; [|done]. intros Hok. injection Hok as <- <-. cbn.
  exists credential, additional, service, target. split_and!; try done.
  - intros Hr ->. by rewrite Hr in Hm.
  - intros n vs. apply forwarded_provenance.
Qed.

(** The record of a key, but for the time of its last use *)
Definition same_key (kid : string) (d d' : gmap (Cf * list Byte8) (list Byte8)) : Prop :=
  (λ model, set_last_used model 0) <$> key_at d' kid = (λ model, set_last_used model 0) <$> key_at d kid.

Lemma same_key_model o model :
  (λ model, set_last_used model 0) <$> o = Some (set_last_used model 0) → ∃ t, o = Some (set_last_used model t).
Proof.
  destruct o as [[a b c d e f g h i j k]|]; [|done]. destruct model. cbn. intros [= -> -> -> -> -> -> -> -> -> ->].
  by exists g.
Qed.

(** An API key is issued to an owner of the service who signed the challenge,
    and only to one; it is valid for at least ninety days; and until it runs out,
    as long as its record is kept, a request with that key is authenticated as one
    of the service, with the validated headers the owner gave. *)
Theorem issued_key_works rd sid payload db code key expires db' :
  auth_verify error_text validation_text rd sid payload db = (Some (code, Verified key expires), db') →
  (∀ service, service_at (db_data db) sid = Some service →
     lacks "." (api_key_prefix service) ∧ lacks "|" (api_key_prefix service)) →
  ∃ service headers kid,
    service_at (db_data db) sid = Some service ∧
    is_owner service (cr_key_type (vc_request payload)) (cr_pub_key (vc_request payload)) = true ∧
    verify_challenge (vc_challenge payload) (vc_signature payload) (cr_pub_key (vc_request payload))
      (cr_key_type (vc_request payload)) = Some (Ok true) ∧
    u64_wrap (ar_now rd + NINETY_DAYS) ≤ expires ∧
    validate_headers (vc_additional_headers payload) = Ok headers ∧
    ∀ rd2 m h db2, bearer h = Some key → ar_now rd2 < expires → db_faults db2 = [] →
      same_key kid (db_data db') (db_data db2) →
      (extract_and_validate_auth rd2 m h db2).1 = Ok (sid, process_headers_with_pii_protection headers).
Proof.
  unfold auth_verify. destruct (service_find sid db) as [[[service|]|e] db1] eqn:Hs; [|done..].
  apply service_find_spec in Hs as [Hd1 Hs]. specialize (Hs _ eq_refl).
  destruct (is_owner _ _ _) eqn:Ho; [|done]. cbn [negb].
  destruct (verify_challenge _ _ _ _) as [[[|]|e]|] eqn:Hv; [|done..].
  destruct (validate_headers (vc_additional_headers payload)) as [headers|e] eqn:Hh; [|done].
  set (expires_at := Z.max _ _). set (protected := process_headers_with_pii_protection headers).
  set (k := generate_key (api_key_prefix service) sid expires_at protected (take 32 (ar_random rd))).
  set (model := key_model_of (ar_now_used rd) k).
  destruct (key_save model db1) as [[saved|e] db2'] eqn:Hk; [|done]. intros Hok Hpre. injection Hok as <- <- <- <-.
  unfold key_save in Hk. rewrite (proj2 (Z.eqb_eq (km_id model) 0)) in Hk by done.
  apply key_create_spec in Hk as (id & -> & _ & _ & Hd).
  destruct (Hpre service (eq_sym Hs)) as [Hdot Hbar].
  destruct (generated_key_parses (api_key_prefix service) sid expires_at protected (take 32 (ar_random rd)) Hdot Hbar)
    as [Hparse [rest Hsplit]]. fold k in Hparse, Hsplit.
  exists service, headers, (gk_key_id k). split_and!; try done; [lia|].
  assert (key_at (db_data db2') (gk_key_id k) = Some (set_key_id_number model id)) as Hat.
  { unfold key_at. rewrite Hd, lookup_insert_ne by done.
    change (km_key_id model) with (gk_key_id k). rewrite lookup_insert_eq. apply prost_round_trip. }
  intros rd2 m h db2 Hb Ht Hf Hsame. unfold same_key in Hsame. rewrite Hat in Hsame.
  destruct (same_key_model _ _ Hsame) as [t Hsame']. clear Hsame. rename Hsame' into Hsame.
  unfold extract_and_validate_auth, handle_api_key, check_api_key.
  change (bearer h = Some (gk_full_key k)) in Hb. rewrite Hb, Hparse. cbn [map_err]. rewrite Hsplit.
  assert (find_by_key_id (gk_key_id k) db2 = (Ok (Some (set_last_used (set_key_id_number model id) t)), db2)) as ->.
  { destruct (find_by_key_id (gk_key_id k) db2) as [r db3] eqn:Hfk. revert Hfk. unfold find_by_key_id.
    rewrite DbM_bind_eq. unfold get_cf. rewrite DbM_bind_eq, db_try_no_faults by done. unfold db_read.
    unfold key_at in Hsame. destruct (db_data db2 !! _) as [bytes|]; [|done]. cbn in Hsame |- *.
    unfold lift_result. rewrite Hsame. cbn. by intros [= <- <-]. }
  set (now_model := set_last_used (set_key_id_number model id) t).
  assert (validates_key now_model (gk_full_key k) = true) as Hval.
  { unfold validates_key. rewrite Hsplit. cbn. rewrite bool_decide_true by done. cbn. by apply bool_decide_true. }
  cbn [negb]. rewrite Hval. unfold key_is_expired. cbn. rewrite (proj2 (Z.leb_gt _ _)) by done. cbn. f_equal. f_equal; [by destruct sid|].
  unfold get_default_headers. cbn. apply stored_headers_round_trip.
Qed.

(** Exchanging a key for an access token keeps the identity: only a valid key
    is exchanged, and the token authenticates as the service of the key, with the
    headers of the key and those asked for, until the time it was issued for or
    one hour has passed. *)
Theorem exchange_keeps_identity rd m h payload db token expires left_ db' :
  auth_exchange rd m h payload db = ((OK, Exchanged token expires left_), db') →
  ∃ key model headers,
    bearer h = Some key ∧ valid_key (ar_now rd) (db_data db) key model ∧
    validate_headers (ex_additional_headers payload ∪ get_default_headers model) = Ok headers ∧
    (∀ id, service_at (db_data db') id = service_at (db_data db) id) ∧
    ∀ rd2 db2 h2, bearer h2 = Some token →
      ar_now_token rd ≤ ar_now_token rd2 < ar_now_token rd + paseto_lifetime →
      ar_now rd2 < u64_wrap (ar_now_claims rd + as_secs (default (pm_default_ttl m) (from_secs <$> ex_ttl_seconds payload))) →
      extract_and_validate_auth rd2 m h2 db2
      = (Ok (key_service_id model, process_headers_with_pii_protection headers), db2).
Proof.
  unfold auth_exchange. destruct (exchange_credential h) as [key|[code e]] eqn:Hkey; [|done].
  apply exchange_credential_bearer in Hkey.
  destruct (check_api_key rd key db) as [[model|[code e]] db1] eqn:Hc; [|done].
  apply check_api_key_ok in Hc as (stored & Hvk & -> & r & db0 & Hd0 & Hu).
  change (get_default_headers (set_last_used stored (ar_now_used rd))) with (get_default_headers stored).
  destruct (validate_headers (ex_additional_headers payload ∪ get_default_headers stored)) as [headers|e] eqn:Hh; [|done].
  set (protected := process_headers_with_pii_protection headers).
  destruct (issued_token_valid (ar_now_claims rd) (ar_now_token rd) (ar_jti rd) (ar_random rd) m
    (key_service_id stored) (km_key_id stored) (protected !! "X-Tenant-Id") protected
    (from_secs <$> ex_ttl_seconds payload) None) as (token' & Hgen & Hpre & Hval & _).
  change (key_service_id (set_last_used stored (ar_now_used rd))) with (key_service_id stored).
  change (km_key_id (set_last_used stored (ar_now_used rd))) with (km_key_id stored).
  rewrite Hgen. intros Hok. injection Hok as <- _ _ <-.
  exists key, stored, headers. split_and!.
  - done.
  - done.
  - done.
  - intros id. destruct (key_save_frame _ _ _ _ Hu) as [Hf _]. by rewrite Hf, Hd0.
  - intros rd2 db2 h2 Hb Ht He. unfold extract_and_validate_auth. rewrite Hb.
    unfold auth_token_parse. rewrite Hpre. cbn [map_err]. unfold handle_paseto_token. by rewrite Hval.
Qed.

End theorems.
