(* ===== verification/AuthOauth.v ===== *)
(** * The OAuth token endpoint of the authentication proxy
      ([auth/src/oauth/mod.rs], [auth/src/oauth/token.rs])

    A signed assertion is exchanged for an access token: the policy of the
    service, the checks of the assertion, the record of the assertions that were
    used, and the rate limit.  The JWT and PEM libraries and the JSON of policies
    are parameters. *)

From Stdlib Require Import ZArith Lia Ascii.
From stdpp Require Import base gmap sets list sorting strings pretty fin_maps numbers relations.
From S2P Require Import Prelude Bytes Text Bn254 JobCore Hex Http AuthTypes AuthStore AuthPaseto AuthProxy.

#[local] Open Scope Z_scope.

(** ** Data *)

Record ServiceOAuthPolicy := mkPolicy {
  allowed_issuers : list string;
  required_audiences : list string;
  public_keys_pem : list string;
  allowed_scopes : option (list string);
  require_dpop : bool;
  max_access_token_ttl_secs : Z;
  max_assertion_ttl_secs : Z;
}.

Record AssertionClaims := mkAssertion {
  as_iss : string;
  as_sub : string;
  as_aud : option string;
  as_iat : option Z;
  as_exp : option Z;
  as_jti : option string;
  as_scope : option string;
}.

Record VerifiedAssertion := mkVerified {
  va_issuer : string;
  va_subject : string;
  va_audience : option string;
  va_scopes : option (list string);
}.

Inductive VerificationError :=
| InvalidRequest (e : string) | InvalidGrant (e : string) | PolicyViolation (e : string) | NotConfigured.

(** ** Libraries *)

Inductive JwtAlgorithm := RS256 | ES256 | OtherAlgorithm.
Inductive DecodingKey := FromRsaDer (der : list Byte8) | FromEcDer (der : list Byte8).

(** [Validation]: no audience is checked when there is none *)
Record JwtValidation := mkValidation {
  jv_alg : JwtAlgorithm;
  jv_required : list string;
  jv_audience : option (list string);
}.

Class JwtLib := {
  decode_header : string → result string JwtAlgorithm;
  jwt_decode : Z → string → DecodingKey → JwtValidation → result string AssertionClaims;
  pem_parse : string → option (string * list Byte8);
  policy_to_vec : ServiceOAuthPolicy → option (list Byte8);
  policy_from_slice : list Byte8 → option ServiceOAuthPolicy;
}.

(** The claims of an assertion are those it carries, with whichever key it was
    verified; numbers are of 64 bits. *)
Class JwtLaws (L : JwtLib) := {
  jwt_claims : string → AssertionClaims;
  jwt_decode_claims now jwt k v c : jwt_decode now jwt k v = Ok c → c = jwt_claims jwt;
  jwt_exp_u64 jwt e : as_exp (jwt_claims jwt) = Some e → is_u64 e;
}.

(** ** Operations *)

Section oauth.
  Context `{LC : Lowercase} `{C : AuthCodec} `{L : PasetoLib} `{JW : JwtLib}.
  Variable validation_text : ValidationError → string.

(** A number that is stored as text *)
Definition stored_number (bytes : list Byte8) : option Z :=
  s ← from_utf8 bytes; parse_u64 (string_of_bytes s).

(** [rate_limit_check] *)
Definition rate_limit_ip (h : HeaderMap) : string := default "unknown" (header_get h "forwarded" ≫= header_to_str).
Definition bucket_key (h : HeaderMap) (service_id : ServiceId) (window : Z) : string :=
  "rl:" +:+ service_display service_id +:+ ":" +:+ rate_limit_ip h +:+ ":" +:+ pretty window.
Definition rate_limit_check (now : Z) (h : HeaderMap) (service_id : ServiceId) (window_secs max_requests : Z) (db : Db)
    : result string unit * Db :=
  let key := str_bytes (bucket_key h service_id (now / window_secs)) in
  match get_cf OAUTH_RL_CF key db with
  | (Err _, db) => (Err "rl read error", db)
  | (Ok v, db) =>
      let current := default 0 (v ≫= stored_number) in
      if max_requests <=? current then (Err "rate limit exceeded", db)
      else
        match put_cf OAUTH_RL_CF key (str_bytes (pretty (u64_wrap (current + 1)))) db with
        | (Err _, db) => (Err "rl write error", db)
        | (Ok _, db) => (Ok tt, db)
        end
  end.

(** [ServiceOAuthPolicy::load], [ServiceOAuthPolicy::save] *)
Definition policy_load (service_id : ServiceId) : DbM (option ServiceOAuthPolicy) :=
  v ← get_cf SERVICES_OAUTH_POLICY_CF (service_to_be_bytes service_id);
  match v with
  | Some bytes => lift_result (Some <$> ok_or (policy_from_slice bytes) UnknownKeyType)
  | None => mret None
  end.
Definition policy_save (p : ServiceOAuthPolicy) (service_id : ServiceId) : DbM unit :=
  bytes ← lift_result (ok_or (policy_to_vec p) UnknownKeyType);
  put_cf SERVICES_OAUTH_POLICY_CF (service_to_be_bytes service_id) bytes.

(** [AssertionVerifier::is_replayed], [AssertionVerifier::remember_jti] *)
Definition is_replayed (jti : string) (now_or_exp : Z) (db : Db) : result VerificationError bool * Db :=
  match get_cf OAUTH_JTI_CF (str_bytes jti) db with
  | (Err _, db) => (Err (InvalidRequest "replay read error"), db)
  | (Ok v, db) => (Ok (match v ≫= stored_number with Some stored => now_or_exp <=? stored | None => false end), db)
  end.
Definition remember_jti (jti : string) (exp : Z) (db : Db) : result VerificationError unit * Db :=
  match put_cf OAUTH_JTI_CF (str_bytes jti) (str_bytes (pretty exp)) db with
  | (Err _, db) => (Err (InvalidRequest "replay write error"), db)
  | (Ok _, db) => (Ok tt, db)
  end.

(** The key of a PEM text that fits the algorithm *)
Definition decoding_key (alg : JwtAlgorithm) (pem : string) : option DecodingKey :=
  p ← pem_parse (trim pem);
  match alg, p with
  | RS256, ("PUBLIC KEY", der) | RS256, ("RSA PUBLIC KEY", der) => Some (FromRsaDer der)
  | ES256, ("PUBLIC KEY", der) => Some (FromEcDer der)
  | _, _ => None
  end.

(** The loop over the keys: the first that verifies, or the last error *)
Fixpoint try_keys (now : Z) (jwt : string) (v : JwtValidation) (last_err : option string) (pems : list string)
    : result (option string) AssertionClaims :=
  match pems with
  | [] => Err last_err
  | pem :: pems =>
      match decoding_key (jv_alg v) pem with
      | Some k =>
          match jwt_decode now jwt k v with
          | Ok c => Ok c
          | Err e => try_keys now jwt v (Some e) pems
          end
      | None => try_keys now jwt v last_err pems
      end
  end.

Definition jwt_skew : Z := 60.

(** The checks of [AssertionVerifier::verify] before the replay protection *)
Definition validation_of (alg : JwtAlgorithm) (policy : ServiceOAuthPolicy) : JwtValidation :=
  mkValidation alg ["iss"; "sub"; "exp"; "iat"]
    (match required_audiences policy with [] => None | l => Some l end).
Definition check_times (now : Z) (policy : ServiceOAuthPolicy) (c : AssertionClaims) : result VerificationError unit :=
  let iat := default 0 (as_iat c) in
  let exp := default 0 (as_exp c) in
  if u64_wrap (now + jwt_skew) <? iat then Err (InvalidGrant "token used before issued (iat)")
  else if u64_wrap (exp + jwt_skew) <=? now then Err (InvalidGrant "token expired")
  else if (iat <? exp) && (max_assertion_ttl_secs policy <? exp - iat)
  then Err (InvalidGrant "assertion TTL exceeds policy")
  else Ok tt.
Definition check_assertion (now_jwt now : Z) (jwt : string) (policy : ServiceOAuthPolicy)
    : result VerificationError AssertionClaims :=
  if bool_decide (allowed_issuers policy = []) then Err (PolicyViolation "no issuers configured")
  else
    alg ← map_err (λ e, InvalidRequest ("invalid jwt header: " +:+ e)) (decode_header jwt);
    match alg with
    | OtherAlgorithm => Err (InvalidRequest "unsupported alg")
    | _ =>
        if bool_decide (public_keys_pem policy = []) then Err NotConfigured
        else
          claims ← map_err (λ e, InvalidGrant ("signature verification failed: " +:+ default "unknown" e))
                     (try_keys now_jwt jwt (validation_of alg policy) None (public_keys_pem policy));
          if negb (bool_decide (as_iss claims ∈ allowed_issuers policy)) then Err (InvalidGrant "issuer not allowed")
          else _ ← check_times now policy claims; Ok claims
    end.

(** The scopes an assertion asks for *)
Definition requested_scopes (c : AssertionClaims) : option (list string) :=
  match (λ s, filter (λ t, t ≠ "") (split_char " " s)) <$> as_scope c with
  | Some [] | None => None
  | Some l => Some l
  end.

(** [AssertionVerifier::verify], up to the answer of the replay store; and from
    there.  The store is read and written by two calls, without a lock. *)
Definition verify_unused (now_jwt now : Z) (jwt : string) (policy : ServiceOAuthPolicy) (db : Db)
    : result VerificationError (AssertionClaims * string) * Db :=
  match check_assertion now_jwt now jwt policy with
  | Err e => (Err e, db)
  | Ok claims =>
      match as_jti claims with
      | None => (Err (InvalidRequest "missing jti"), db)
      | Some jti =>
          match is_replayed jti (default 0 (as_exp claims)) db with
          | (Err e, db) => (Err e, db)
          | (Ok true, db) => (Err (InvalidGrant "assertion replayed"), db)
          | (Ok false, db) => (Ok (claims, jti), db)
          end
      end
  end.
Definition verify_record (claims : AssertionClaims) (jti : string) (db : Db)
    : result VerificationError VerifiedAssertion * Db :=
  match remember_jti jti (default 0 (as_exp claims)) db with
  | (Err e, db) => (Err e, db)
  | (Ok _, db) => (Ok (mkVerified (as_iss claims) (as_sub claims) (as_aud claims) (requested_scopes claims)), db)
  end.
(** [AssertionVerifier::verify], undisturbed *)
Definition verify_assertion (now_jwt now : Z) (jwt : string) (policy : ServiceOAuthPolicy) (db : Db)
    : result VerificationError VerifiedAssertion * Db :=
  match verify_unused now_jwt now jwt policy db with
  | (Err e, db) => (Err e, db)
  | (Ok (claims, jti), db) => verify_record claims jti db
  end.

(** The scopes that are granted: those that are allowed, without regard to case *)
Definition granted_scopes (requested allowed : option (list string)) : option (list string) :=
  match requested, allowed with
  | Some req, Some allowed =>
      let allowed_set := to_ascii_lowercase <$> allowed in
      let filtered := list_to_map ((λ s, (s, tt)) <$>
        filter (λ lc, lc ∈ allowed_set) (to_ascii_lowercase <$> req)) : gmap string unit in
      match (btree_items filtered).*1 with [] => None | l => Some l end
  | _, _ => None
  end.

(** The clocks and random values of one request *)
Record OauthReadings := mkOauthReadings {
  or_now_rate : Z;
  or_now_jwt : Z;
  or_now : Z;
  or_auth : AuthReadings;
}.

Record OauthError := mkOauthError { oe_error : string; oe_description : string }.

Definition JWT_BEARER : string := "urn:ietf:params:oauth:grant-type:jwt-bearer".

Definition verification_response (e : VerificationError) : Z * OauthError :=
  match e with
  | NotConfigured => (BAD_REQUEST, mkOauthError "invalid_grant" "JWT bearer assertion verification not configured")
  | PolicyViolation msg => (BAD_REQUEST, mkOauthError "invalid_request" msg)
  | InvalidGrant msg => (BAD_REQUEST, mkOauthError "invalid_grant" msg)
  | InvalidRequest msg => (BAD_REQUEST, mkOauthError "invalid_request" msg)
  end.

(** The last part of [oauth_token]: the access token for a verified assertion *)
Definition oauth_grant (rd : AuthReadings) (m : PasetoTokenManager) (service_id : ServiceId)
    (policy : ServiceOAuthPolicy) (verified : VerifiedAssertion) : result (Z * OauthError) (string * Z * Z) :=
  let scopes := granted_scopes (va_scopes verified) (allowed_scopes policy) in
  let headers_map := {[ "x-tenant-id" := hash_user_id (va_subject verified) ]} : gmap string string in
  validated_headers ← map_err (λ e, (BAD_REQUEST,
      mkOauthError "invalid_request" ("Header validation failed: " +:+ validation_text e)))
    (validate_headers headers_map);
  let protected_headers := process_headers_with_pii_protection validated_headers in
  let ttl := from_secs (Z.max (max_access_token_ttl_secs policy) 60) in
  token ← map_err (λ _, (INTERNAL_SERVER_ERROR, mkOauthError "server_error" "Failed to generate access token"))
    (generate_token (ar_now_claims rd) (ar_now_token rd) (ar_jti rd) (ar_random rd) m service_id "oauth"
       (protected_headers !! "x-tenant-id") protected_headers (Some ttl) scopes);
  let expires_at := u64_wrap (ar_now_response rd + as_secs ttl) in
  Ok (token, expires_at, u64_sat_sub expires_at (ar_now_left rd)).

(** The service the request names *)
Definition oauth_service_id (h : HeaderMap) : option ServiceId :=
  v ← header_get h "x-service-id"; s ← header_to_str v; result_ok (service_from_str s).

(** A request whose assertion was found unused *)
Record Exchanging := mkExchanging {
  xg_service : ServiceId;
  xg_policy : ServiceOAuthPolicy;
  xg_claims : AssertionClaims;
  xg_jti : string;
}.
(** [oauth_token] up to the answer of the replay store *)
Definition oauth_begin (rd : OauthReadings) (h : HeaderMap) (form : gmap string string)
    (db : Db) : result (Z * OauthError) Exchanging * Db :=
  if negb (bool_decide (form !! "grant_type" = Some JWT_BEARER)) then
    (Err (BAD_REQUEST, mkOauthError "unsupported_grant_type" "grant_type must be JWT bearer"), db)
  else
    match form !! "assertion" with
    | None | Some "" => (Err (BAD_REQUEST, mkOauthError "invalid_request" "missing assertion"), db)
    | Some assertion =>
        match oauth_service_id h with
        | None => (Err (PRECONDITION_REQUIRED, mkOauthError "invalid_request" "Missing X-Service-Id header"), db)
        | Some service_id =>
            match policy_load service_id db with
            | (Ok None, db) =>
                (Err (BAD_REQUEST, mkOauthError "invalid_request" "OAuth not enabled for this service"), db)
            | (Err _, db) =>
                (Err (INTERNAL_SERVER_ERROR, mkOauthError "server_error" "Failed to load service policy"), db)
            | (Ok (Some policy), db) =>
                let (_, db) := rate_limit_check (or_now_rate rd) h service_id 60 120 db in
                match verify_unused (or_now_jwt rd) (or_now rd) assertion policy db with
                | (Err e, db) => (Err (verification_response e), db)
                | (Ok (claims, jti), db) => (Ok (mkExchanging service_id policy claims jti), db)
                end
            end
        end
    end.
(** The rest of [oauth_token]: the identifier is stored and the token made *)
Definition oauth_finish (rd : AuthReadings) (m : PasetoTokenManager) (x : Exchanging) (db : Db)
    : result (Z * OauthError) (string * Z * Z) * Db :=
  match verify_record (xg_claims x) (xg_jti x) db with
  | (Err e, db) => (Err (verification_response e), db)
  | (Ok verified, db) => (oauth_grant rd m (xg_service x) (xg_policy x) verified, db)
  end.
(** [oauth_token], undisturbed *)
Definition oauth_token (rd : OauthReadings) (m : PasetoTokenManager) (h : HeaderMap) (form : gmap string string)
    (db : Db) : result (Z * OauthError) (string * Z * Z) * Db :=
  match oauth_begin rd h form db with
  | (Err e, db) => (Err e, db)
  | (Ok x, db) => oauth_finish (or_auth rd) m x db
  end.

End oauth.

(** Closed decidable facts *)
Ltac decide_now := apply (bool_decide_unpack _); vm_compute; exact I.

(** ** Numbers and scopes as text *)

Lemma string_of_str_bytes s : string_of_bytes (str_bytes s) = s.
Proof.
  induction s as [|a s IH]; [done|]. unfold str_bytes in *. cbn. f_equal; [|done].
  unfold byte_ascii. rewrite N2Z.id. apply ascii_N_embedding.
Qed.

Lemma chars_list s : String.list_ascii_of_string s = chars s.
Proof. induction s as [|a s IH]; [done|]. cbn. by rewrite IH. Qed.

Lemma stored_number_pretty x : is_u64 x → stored_number (str_bytes (pretty x)) = Some x.
Proof.
  intros Hx. unfold stored_number, from_utf8. rewrite ascii_utf8.
  - cbn. rewrite string_of_str_bytes. by apply parse_u64_pretty.
  - unfold str_bytes. rewrite chars_list. apply Forall_fmap.
    eapply Forall_impl; [apply pretty_digits; unfold is_u64 in Hx; lia|]. intros a Ha. cbn. revert Ha.
    unfold is_digit. intros [Ha Hb]%andb_prop. apply N.leb_le in Ha, Hb. lia.
Qed.

(** Words that are joined by spaces are found again. *)
Lemma split_concat c l :
  l ≠ [] → Forall (lacks c) l → split_char c (String.concat (String c "") l) = l.
Proof.
  intros Hne Hl. induction Hl as [|s l Hs Hl IH]; [done|]. destruct l as [|s' l].
  - cbn. by apply split_char_lacks.
  - change (String.concat (String c "") (s :: s' :: l)) with (s +:+ String c (String.concat (String c "") (s' :: l))).
    rewrite split_char_app by done. by rewrite IH.
Qed.

Lemma split_char_parts c s : Forall (lacks c) (split_char c s).
Proof.
  induction s as [|a s IH]; cbn; [by repeat constructor|]. case_bool_decide; [by repeat constructor|].
  destruct (split_char c s) as [|p ps]; [by repeat constructor|]. apply Forall_cons in IH as [Hp Hps].
  constructor; [by constructor|done].
Qed.

(** ** The record of used assertions *)

(** The expiry on record for an identifier *)
Definition used (d : gmap (Cf * list Byte8) (list Byte8)) (jti : string) : option Z :=
  d !! (OAUTH_JTI_CF, str_bytes jti) ≫= stored_number.

(** Nothing on record is forgotten. *)
Definition remembers (d d' : gmap (Cf * list Byte8) (list Byte8)) : Prop :=
  ∀ jti x, used d jti = Some x → ∃ y, used d' jti = Some y ∧ x ≤ y.

#[global] Instance remembers_preorder : PreOrder remembers.
Proof.
  split.
  - intros d jti x Hx. by exists x.
  - intros d1 d2 d3 H12 H23 jti x (y & Hy & ?)%H12. destruct (H23 _ _ Hy) as (z & Hz & ?). exists z. split; [done|lia].
Qed.

(** The data outside the given column families *)
Definition same_outside (cfs : list Cf) (d d' : gmap (Cf * list Byte8) (list Byte8)) : Prop :=
  ∀ cf k, cf ∉ cfs → d' !! (cf, k) = d !! (cf, k).

#[global] Instance same_outside_preorder cfs : PreOrder (same_outside cfs).
Proof. split; [by intros d cf k ?|]. intros d1 d2 d3 H12 H23 cf k Hcf. by rewrite H23, H12. Qed.

Lemma same_outside_weaken cfs cfs' d d' : cfs ⊆ cfs' → same_outside cfs d d' → same_outside cfs' d d'.
Proof. intros Hsub Hs cf k Hcf. apply Hs. set_solver. Qed.

Lemma same_outside_insert cfs cf k v d : cf ∈ cfs → same_outside cfs d (<[(cf, k) := v]> d).
Proof. intros Hcf cf' k' Hcf'. rewrite lookup_insert_ne; [done|]. intros Heq. injection Heq as <- <-. done. Qed.

Lemma same_outside_remembers cfs d d' : OAUTH_JTI_CF ∉ cfs → same_outside cfs d d' → remembers d d'.
Proof. intros Hcf Hs jti x Hx. exists x. split; [|done]. unfold used in *. by rewrite Hs. Qed.

Section laws.
  Context `{LC : Lowercase} `{C : AuthCodec} `{CL : !AuthCodecLaws C} `{L : PasetoLib} `{LL : !PasetoLaws L}
    `{JW : JwtLib} `{JWL : !JwtLaws JW}.
  Variable validation_text : ValidationError → string.

Lemma rate_limit_frame now h sid w n db r db' :
  rate_limit_check now h sid w n db = (r, db') → same_outside [OAUTH_RL_CF] (db_data db) (db_data db').
Proof.
  unfold rate_limit_check. destruct (get_cf OAUTH_RL_CF _ db) as [[v|e] db1] eqn:Hg; apply get_cf_spec in Hg as [Hd _].
  - destruct (_ <=? _); [by intros [= <- <-]; rewrite Hd|].
    destruct (put_cf _ _ _ db1) as [[u|e] db2] eqn:Hp; apply put_cf_spec in Hp; intros [= <- <-]; rewrite Hp, Hd;
      [|done]. apply same_outside_insert. set_solver.
  - by intros [= <- <-]; rewrite Hd.
Qed.

Lemma try_keys_ok now jwt v last pems c :
  try_keys now jwt v last pems = Ok c →
  ∃ pem k, pem ∈ pems ∧ decoding_key (jv_alg v) pem = Some k ∧ jwt_decode now jwt k v = Ok c.
Proof.
  revert last. induction pems as [|pem pems IH]; intros last; cbn; [done|].
  destruct (decoding_key (jv_alg v) pem) as [k|] eqn:Hk.
  - destruct (jwt_decode now jwt k v) as [c'|e] eqn:Hd.
    + intros [= <-]. exists pem, k. split; [by left|done].
    + intros (pem' & k' & Hin & Hrest)%IH. exists pem', k'. split; [by right|done].
  - intros (pem' & k' & Hin & Hrest)%IH. exists pem', k'. split; [by right|done].
Qed.

(** What an assertion that passes satisfies *)
Definition good_assertion (now_jwt now : Z) (jwt : string) (policy : ServiceOAuthPolicy) (c : AssertionClaims) : Prop :=
  (∃ alg pem k, decode_header jwt = Ok alg ∧ (alg = RS256 ∨ alg = ES256) ∧ pem ∈ public_keys_pem policy ∧
     decoding_key alg pem = Some k ∧ jwt_decode now_jwt jwt k (validation_of alg policy) = Ok c) ∧
  as_iss c ∈ allowed_issuers policy ∧
  default 0 (as_iat c) ≤ u64_wrap (now + jwt_skew) ∧ now < u64_wrap (default 0 (as_exp c) + jwt_skew) ∧
  default 0 (as_exp c) - default 0 (as_iat c) ≤ Z.max 0 (max_assertion_ttl_secs policy).

Lemma check_assertion_ok now_jwt now jwt policy c :
  check_assertion now_jwt now jwt policy = Ok c → good_assertion now_jwt now jwt policy c.
Proof.
  unfold check_assertion. case_bool_decide; [done|]. destruct (decode_header jwt) as [alg|e] eqn:Ha; [|done]. simpl.
  assert (∀ r, match alg with OtherAlgorithm => Err (InvalidRequest "unsupported alg") | _ => r end = Ok c →
    (alg = RS256 ∨ alg = ES256) ∧ r = Ok c) as Halg by (intros r; destruct alg; auto; done).
  intros [Halg' Hr]%Halg. clear Halg. case_bool_decide; [done|].
  destruct (try_keys _ _ _ _ _) as [c'|e] eqn:Hk; [|done]. simpl in Hr.
  case_bool_decide as Hiss; [|done]. simpl in Hr.
  destruct (check_times now policy c') as [[]|e] eqn:Ht; [|done]. injection Hr as ->.
  apply try_keys_ok in Hk as (pem & k & Hin & Hdk & Hdec). split; [by exists alg, pem, k|]. split; [done|].
  unfold check_times in Ht.
  destruct (Z.ltb_spec (u64_wrap (now + jwt_skew)) (default 0 (as_iat c))); [done|].
  destruct (Z.leb_spec (u64_wrap (default 0 (as_exp c) + jwt_skew)) now); [done|].
  destruct (Z.ltb_spec (default 0 (as_iat c)) (default 0 (as_exp c))); [|lia].
  destruct (Z.ltb_spec (max_assertion_ttl_secs policy) (default 0 (as_exp c) - default 0 (as_iat c))); [done|lia].
Qed.

Lemma good_assertion_claims now_jwt now jwt policy c : good_assertion now_jwt now jwt policy c → c = jwt_claims jwt.
Proof. intros [(alg & pem & k & _ & _ & _ & _ & Hd) _]. by apply jwt_decode_claims in Hd. Qed.

Lemma claims_exp_u64 jwt : is_u64 (default 0 (as_exp (jwt_claims jwt))).
Proof. destruct (as_exp (jwt_claims jwt)) as [e|] eqn:He; [by apply (jwt_exp_u64 jwt)|by vm_compute]. Qed.

(** An assertion that is found unused was not on record when the store was read;
    nothing is written. *)
Lemma verify_unused_spec now_jwt now jwt policy db r db' :
  verify_unused now_jwt now jwt policy db = (r, db') →
  db_data db' = db_data db ∧
  ∀ c jti, r = Ok (c, jti) → check_assertion now_jwt now jwt policy = Ok c ∧ as_jti c = Some jti ∧
    (∀ x, used (db_data db) jti = Some x → x < default 0 (as_exp c)).
Proof.
  unfold verify_unused. destruct (check_assertion _ _ _ _) as [c|e] eqn:Hc; [|by intros [= <- <-]].
  destruct (as_jti c) as [jti|] eqn:Hj; [|by intros [= <- <-]].
  unfold is_replayed. destruct (get_cf OAUTH_JTI_CF _ db) as [[v|e] db1] eqn:Hg; apply get_cf_spec in Hg as [Hd Hv];
    [|by intros [= <- <-]; rewrite Hd]. subst v. fold (used (db_data db) jti).
  destruct (match used (db_data db) jti with Some _ => _ | None => _ end) eqn:Hu; intros [= <- <-]; (split; [done|]); [done|].
  intros c' jti' [= <- <-]. split_and!; try done. intros x Hx. rewrite Hx in Hu. by apply Z.leb_gt in Hu.
Qed.

(** Recording stores the expiry under the identifier, or changes nothing. *)
Lemma verify_record_spec c jti db r db' :
  verify_record c jti db = (r, db') →
  match r with
  | Ok v => db_data db' = <[(OAUTH_JTI_CF, str_bytes jti) := str_bytes (pretty (default 0 (as_exp c)))]> (db_data db) ∧
      v = mkVerified (as_iss c) (as_sub c) (as_aud c) (requested_scopes c)
  | Err _ => db_data db' = db_data db
  end.
Proof.
  unfold verify_record, remember_jti. destruct (put_cf _ _ _ db) as [[u|e] db2] eqn:Hp; apply put_cf_spec in Hp;
    by intros [= <- <-].
Qed.

(** An assertion that is accepted was not on record and is then; otherwise
    nothing changes. *)
Lemma verify_assertion_spec now_jwt now jwt policy db r db' :
  verify_assertion now_jwt now jwt policy db = (r, db') →
  same_outside [OAUTH_JTI_CF] (db_data db) (db_data db') ∧
  match r with
  | Ok v => ∃ c jti, check_assertion now_jwt now jwt policy = Ok c ∧ as_jti c = Some jti ∧
      let exp := default 0 (as_exp c) in
      (∀ x, used (db_data db) jti = Some x → x < exp) ∧
      db_data db' = <[(OAUTH_JTI_CF, str_bytes jti) := str_bytes (pretty exp)]> (db_data db) ∧
      v = mkVerified (as_iss c) (as_sub c) (as_aud c) (requested_scopes c)
  | Err _ => db_data db' = db_data db
  end.
Proof.
  unfold verify_assertion. destruct (verify_unused _ _ _ _ _) as [[[c jti]|e] db1] eqn:Hu;
    apply verify_unused_spec in Hu as [Hd Hu]; [|by intros [= <- <-]; rewrite Hd].
  specialize (Hu c jti eq_refl) as (Hc & Hj & Hx). intros Hr%verify_record_spec. rewrite Hd in Hr.
  destruct r as [v|e]; [|by rewrite Hr]. destruct Hr as [Hr ->]. rewrite Hr.
  split; [apply same_outside_insert; set_solver|]. by exists c, jti.
Qed.

Lemma verify_assertion_remembers now_jwt now jwt policy db r db' :
  verify_assertion now_jwt now jwt policy db = (r, db') → remembers (db_data db) (db_data db').
Proof.
  intros [_ Hv]%verify_assertion_spec. destruct r as [v|e]; [|by rewrite Hv].
  destruct Hv as (c & jti & Hc & Hj & Hu & Hd & _). apply check_assertion_ok, good_assertion_claims in Hc as ->.
  intros jti' x Hx. unfold used. rewrite Hd. destruct (decide (str_bytes jti' = str_bytes jti)) as [Heq|Hne].
  - apply str_bytes_inj in Heq as ->. rewrite lookup_insert_eq. simpl.
    rewrite stored_number_pretty by apply claims_exp_u64. eexists. split; [done|]. apply Z.lt_le_incl. by apply Hu.
  - rewrite lookup_insert_ne by congruence. by exists x.
Qed.

(** ** Granting *)

Lemma hex_encode_hexdigits l :
  Forall is_byte l → all_chars is_hexdigit (hex_encode l) = true ∧ String.length (hex_encode l) = (2 * length l)%nat.
Proof.
  assert (∀ d, 0 ≤ d < 16 → is_hexdigit (byte_ascii (hex_digit d)) = true) as Hd.
  { intros d Hd. assert (d ∈ seqZ 0 16) as Hin by (apply elem_of_seqZ; lia). clear Hd.
    revert d Hin. apply list.Forall_forall. by repeat constructor. }
  induction 1 as [|b l Hb Hl [IH IHl]]; [done|]. rewrite hex_encode_cons. destruct (byte_nibbles b Hb). cbn.
  unfold all_chars in *. cbn. rewrite !Hd by done. rewrite IHl. split; [done|lia].
Qed.

Lemma hash_user_id_text u :
  all_chars is_hexdigit (hash_user_id u) = true ∧ String.length (hash_user_id u) = 32%nat.
Proof.
  unfold hash_user_id. destruct (keccak_v256_bytes (str_bytes u)) as [Hb Hl].
  destruct (hex_encode_hexdigits (take 16 (keccak_v256 (str_bytes u)))) as [Hh Hs]; [by apply Forall_take|].
  split; [done|]. rewrite Hs, length_take, Hl. done.
Qed.

(** A tenant that is derived from the subject is kept as it is. *)
Definition tenant_headers (subject : string) : gmap string string := {[ "x-tenant-id" := hash_user_id subject ]}.

Lemma tenant_headers_valid u : validate_headers (tenant_headers u) = Ok (tenant_headers u).
Proof.
  unfold validate_headers, tenant_headers, btree_items. rewrite map_to_list_singleton. cbn [sort_items foldr insert_item].
  destruct (hash_user_id_text u) as [Hh Hl]. unfold try_fold, validate_step. cbn [fst snd].
  assert (header_ok "x-tenant-id" (hash_user_id u)) as Hok.
  { unfold header_ok. rewrite Hl. split_and!; [done| |decide_now|done|done].
    revert Hh. apply all_chars_impl. intros a. destruct a as [[] [] [] [] [] [] [] []]; vm_compute; done. }
  by rewrite (proj2 (validate_header_ok "x-tenant-id" (hash_user_id u) _) (conj eq_refl Hok)).
Qed.

Lemma tenant_headers_protected u : process_headers_with_pii_protection (tenant_headers u) = tenant_headers u.
Proof.
  apply map_eq. intros n. rewrite process_headers_lookup. unfold tenant_headers.
  destruct (decide (n = "x-tenant-id")) as [->|Hn]; [|by rewrite lookup_singleton_ne].
  rewrite lookup_singleton_eq. cbn [fmap option_fmap option_map]. f_equal.
  destruct (hash_user_id_text u) as [Hh Hl]. unfold protect_header.
  rewrite bool_decide_false by (decide_now). rewrite bool_decide_true by done.
  assert (contains "@" (hash_user_id u) = false) as ->.
  { apply contains_char. by apply (all_chars_lacks is_hexdigit). }
  by rewrite Hl, Hh.
Qed.

(** A verified assertion is always granted a token, for the tenant of its subject. *)
Lemma oauth_grant_ok rd m sid policy v :
  ∃ token, oauth_grant validation_text rd m sid policy v
    = Ok (token, u64_wrap (ar_now_response rd + as_secs (from_secs (Z.max (max_access_token_ttl_secs policy) 60))),
          u64_sat_sub (u64_wrap (ar_now_response rd + as_secs (from_secs (Z.max (max_access_token_ttl_secs policy) 60))))
            (ar_now_left rd)) ∧
    String.prefix "v4.local." token = true ∧
    ∀ t t', ar_now_token rd ≤ t < ar_now_token rd + paseto_lifetime →
      t' < u64_wrap (ar_now_claims rd + as_secs (from_secs (Z.max (max_access_token_ttl_secs policy) 60))) →
      ∃ c, validate_token t t' m token = Ok c ∧ cl_service_id c = sid ∧
        cl_additional_headers c = tenant_headers (va_subject v) ∧
        cl_scopes c = granted_scopes (va_scopes v) (allowed_scopes policy).
Proof.
  set (ttl := from_secs (Z.max (max_access_token_ttl_secs policy) 60)).
  destruct (issued_token_valid (ar_now_claims rd) (ar_now_token rd) (ar_jti rd) (ar_random rd) m sid "oauth"
    (Some (hash_user_id (va_subject v))) (tenant_headers (va_subject v)) (Some ttl)
    (granted_scopes (va_scopes v) (allowed_scopes policy))) as (token & Hgen & Hpre & Hval & _).
  exists token. split_and!; [|done|].
  - unfold oauth_grant. fold (tenant_headers (va_subject v)). rewrite tenant_headers_valid. cbn [map_err mbind result_bind].
    rewrite tenant_headers_protected. fold ttl.
    assert (tenant_headers (va_subject v) !! "x-tenant-id" = Some (hash_user_id (va_subject v))) as ->
      by apply lookup_singleton_eq. by rewrite Hgen.
  - intros t t' Ht Ht'. eexists. split; [by apply Hval|done].
Qed.

(** *** The whole request *)

Definition policy_at (d : gmap (Cf * list Byte8) (list Byte8)) (id : ServiceId) : option ServiceOAuthPolicy :=
  d !! (SERVICES_OAUTH_POLICY_CF, service_to_be_bytes id) ≫= policy_from_slice.

Lemma policy_load_spec id db r db' :
  policy_load id db = (r, db') → db_data db' = db_data db ∧ ∀ o, r = Ok o → o = policy_at (db_data db) id.
Proof.
  unfold policy_load. rewrite DbM_bind_eq. destruct (get_cf _ _ db) as [[v|e] db1] eqn:Hg; apply get_cf_spec in Hg as [Hd Hv].
  - subst v. unfold policy_at. destruct (db_data db !! _) as [bytes|]; cbn; [|by intros [= <- <-]; split; [|by intros o [= <-]]].
    unfold lift_result. destruct (policy_from_slice bytes) as [p|]; cbn; intros [= <- <-]; (split; [done|]); [by intros o [= <-]|done].
  - by intros [= <- <-].
Qed.

(** Why a request is refused *)
Inductive refused (rd : OauthReadings) (h : HeaderMap) (form : gmap string string)
    (d : gmap (Cf * list Byte8) (list Byte8)) : Z → OauthError → Prop :=
| refused_grant_type :
    form !! "grant_type" ≠ Some JWT_BEARER →
    refused rd h form d BAD_REQUEST (mkOauthError "unsupported_grant_type" "grant_type must be JWT bearer")
| refused_no_assertion :
    default "" (form !! "assertion") = "" →
    refused rd h form d BAD_REQUEST (mkOauthError "invalid_request" "missing assertion")
| refused_no_service :
    oauth_service_id h = None →
    refused rd h form d PRECONDITION_REQUIRED (mkOauthError "invalid_request" "Missing X-Service-Id header")
| refused_not_enabled id :
    oauth_service_id h = Some id → policy_at d id = None →
    refused rd h form d BAD_REQUEST (mkOauthError "invalid_request" "OAuth not enabled for this service")
| refused_no_policy :
    refused rd h form d INTERNAL_SERVER_ERROR (mkOauthError "server_error" "Failed to load service policy")
| refused_check id a policy e :
    oauth_service_id h = Some id → form !! "assertion" = Some a → policy_at d id = Some policy →
    check_assertion (or_now_jwt rd) (or_now rd) a policy = Err e →
    refused rd h form d BAD_REQUEST (verification_response e).2
| refused_no_jti a :
    form !! "assertion" = Some a → as_jti (jwt_claims a) = None →
    refused rd h form d BAD_REQUEST (mkOauthError "invalid_request" "missing jti")
| refused_replayed a jti x :
    form !! "assertion" = Some a → as_jti (jwt_claims a) = Some jti → used d jti = Some x →
    default 0 (as_exp (jwt_claims a)) ≤ x →
    refused rd h form d BAD_REQUEST (mkOauthError "invalid_grant" "assertion replayed")
| refused_store e :
    e = "replay read error" ∨ e = "replay write error" →
    refused rd h form d BAD_REQUEST (mkOauthError "invalid_request" e).

Lemma verify_assertion_refused rd h form id a policy db e db' :
  oauth_service_id h = Some id → form !! "assertion" = Some a → policy_at (db_data db) id = Some policy →
  verify_assertion (or_now_jwt rd) (or_now rd) a policy db = (Err e, db') →
  refused rd h form (db_data db) (verification_response e).1 (verification_response e).2.
Proof.
  intros Hid Ha Hp. unfold verify_assertion, verify_unused, verify_record. destruct (check_assertion _ _ _ _) as [c|e'] eqn:Hc.
  - apply check_assertion_ok, good_assertion_claims in Hc as ->.
    destruct (as_jti (jwt_claims a)) as [jti|] eqn:Hj; [|by intros [= <- <-]; apply (refused_no_jti _ _ _ _ a)].
    unfold is_replayed. destruct (get_cf OAUTH_JTI_CF _ db) as [[v|e'] db1] eqn:Hg; apply get_cf_spec in Hg as [Hd Hv];
      [|by intros [= <- <-]; apply refused_store; left].
    subst v. fold (used (db_data db) jti). destruct (used (db_data db) jti) as [x|] eqn:Hu;
      [destruct (Z.leb_spec (default 0 (as_exp (jwt_claims a))) x)|].
    1: by intros [= <- <-]; apply (refused_replayed _ _ _ _ a jti x).
    all: unfold remember_jti; destruct (put_cf _ _ _ db1) as [[u|e'] db2]; intros [= <- <-]; apply refused_store; by right.
  - intros [= <- <-]. replace (verification_response e').1 with BAD_REQUEST by (by destruct e').
    by apply (refused_check _ _ _ _ id a policy e').
Qed.

(** The whole request as one case analysis *)
Lemma oauth_token_eq rd m h form db :
  oauth_token validation_text rd m h form db =
  if negb (bool_decide (form !! "grant_type" = Some JWT_BEARER)) then
    (Err (BAD_REQUEST, mkOauthError "unsupported_grant_type" "grant_type must be JWT bearer"), db)
  else
    match form !! "assertion" with
    | None | Some "" => (Err (BAD_REQUEST, mkOauthError "invalid_request" "missing assertion"), db)
    | Some assertion =>
        match oauth_service_id h with
        | None => (Err (PRECONDITION_REQUIRED, mkOauthError "invalid_request" "Missing X-Service-Id header"), db)
        | Some service_id =>
            match policy_load service_id db with
            | (Ok None, db) =>
                (Err (BAD_REQUEST, mkOauthError "invalid_request" "OAuth not enabled for this service"), db)
            | (Err _, db) =>
                (Err (INTERNAL_SERVER_ERROR, mkOauthError "server_error" "Failed to load service policy"), db)
            | (Ok (Some policy), db) =>
                let (_, db) := rate_limit_check (or_now_rate rd) h service_id 60 120 db in
                match verify_assertion (or_now_jwt rd) (or_now rd) assertion policy db with
                | (Err e, db) => (Err (verification_response e), db)
                | (Ok verified, db) => (oauth_grant validation_text (or_auth rd) m service_id policy verified, db)
                end
            end
        end
    end.
Proof.
  unfold oauth_token, oauth_begin. destruct (negb _); [done|]. destruct (form !! "assertion") as [[|x y]|]; [done| |done].
  destruct (oauth_service_id h) as [id|]; [|done]. destruct (policy_load id db) as [[[policy|]|e] db1]; [|done..].
  destruct (rate_limit_check _ h id 60 120 db1) as [r1 db2]. unfold verify_assertion.
  destruct (verify_unused _ _ _ _ _) as [[[c jti]|e] db3]; done.
Qed.

Lemma oauth_token_spec rd m h form db r db' :
  oauth_token validation_text rd m h form db = (r, db') →
  remembers (db_data db) (db_data db') ∧
  match r with
  | Ok t => same_outside [OAUTH_RL_CF; OAUTH_JTI_CF] (db_data db) (db_data db') ∧
      ∃ id a policy v db1,
      form !! "grant_type" = Some JWT_BEARER ∧ form !! "assertion" = Some a ∧ oauth_service_id h = Some id ∧
      policy_at (db_data db) id = Some policy ∧ same_outside [OAUTH_RL_CF] (db_data db) (db_data db1) ∧
      verify_assertion (or_now_jwt rd) (or_now rd) a policy db1 = (Ok v, db') ∧
      oauth_grant validation_text (or_auth rd) m id policy v = Ok t
  | Err (code, e) => same_outside [OAUTH_RL_CF] (db_data db) (db_data db') ∧ refused rd h form (db_data db) code e
  end.
Proof.
  rewrite oauth_token_eq. case_bool_decide as Hg; cbn [negb]; [|intros [= <- <-]; split_and!; [done..|]; by apply refused_grant_type].
  destruct (form !! "assertion") as [a|] eqn:Ha;
    [|intros [= <- <-]; split_and!; [done..|]; apply refused_no_assertion; by rewrite Ha].
  destruct a as [|x y]; [intros [= <- <-]; split_and!; [done..|]; apply refused_no_assertion; by rewrite Ha|].
  set (a := String x y) in *. destruct (oauth_service_id h) as [id|] eqn:Hid;
    [|intros [= <- <-]; split_and!; [done..|]; by apply refused_no_service].
  destruct (policy_load id db) as [[[policy|]|e] db1] eqn:Hp; apply policy_load_spec in Hp as [Hd Hp];
    [|intros [= <- <-]; rewrite Hd; split_and!; [done..|]; by apply (refused_not_enabled _ _ _ _ id Hid), eq_sym, Hp
     |intros [= <- <-]; rewrite Hd; split_and!; [done..|]; apply refused_no_policy].
  specialize (Hp _ eq_refl). symmetry in Hp.
  destruct (rate_limit_check _ h id 60 120 db1) as [r1 db2] eqn:Hrl. apply rate_limit_frame in Hrl. rewrite Hd in Hrl.
  assert (remembers (db_data db) (db_data db2)) as Hrem
    by (eapply same_outside_remembers, Hrl; decide_now).
  destruct (verify_assertion _ _ a policy db2) as [[v|e] db3] eqn:Hv.
  - destruct (oauth_grant_ok (or_auth rd) m id policy v) as (token & Hok & _). rewrite Hok.
    intros [= <- <-]. split; [etrans; [done|]; by eapply verify_assertion_remembers|]. split.
    + etrans; [eapply same_outside_weaken, Hrl; clear; set_solver|].
      pose proof (verify_assertion_spec _ _ _ _ _ _ _ Hv) as [Hs _]. eapply same_outside_weaken, Hs; clear; set_solver.
    + exists id, a, policy, v, db2. split_and!; [exact Hg|reflexivity|reflexivity|exact Hp|exact Hrl|exact Hv|exact Hok].
  - intros [= <- <-]. pose proof (verify_assertion_spec _ _ _ _ _ _ _ Hv) as [_ Hs]. rewrite Hs. split; [done|].
    assert (policy_at (db_data db2) id = Some policy) as Hp2.
    { unfold policy_at. rewrite Hrl by (decide_now). exact Hp. }
    pose proof (verify_assertion_refused rd h form id a policy db2 e db3 Hid Ha Hp2 Hv) as Href.
    destruct (verification_response e) as [code oe]. split; [done|]. cbn in Href.
    assert (∀ jti, used (db_data db2) jti = used (db_data db) jti) as Hused.
    { intros jti. unfold used. by rewrite Hrl by (decide_now). }
    assert (∀ i, policy_at (db_data db2) i = policy_at (db_data db) i) as Hpol.
    { intros i. unfold policy_at. by rewrite Hrl by (decide_now). }
    destruct Href; [constructor; done|by constructor|by constructor| | | | | |by constructor].
    + rewrite Hpol in *. by eapply refused_not_enabled.
    + by constructor.
    + rewrite Hpol in *. by eapply refused_check.
    + by eapply refused_no_jti.
    + rewrite Hused in *. by eapply refused_replayed.
Qed.

(** *** Scopes *)

Lemma granted_scopes_allowed requested allowed l :
  granted_scopes requested allowed = Some l →
  ∃ req all, requested = Some req ∧ allowed = Some all ∧ l ≠ [] ∧
    ∀ s, s ∈ l → s ∈ (to_ascii_lowercase <$> req) ∧ s ∈ (to_ascii_lowercase <$> all).
Proof.
  unfold granted_scopes. destruct requested as [req|], allowed as [all|]; try done.
  set (kept := filter (λ lc, lc ∈ to_ascii_lowercase <$> all) (to_ascii_lowercase <$> req)).
  set (set := list_to_map ((λ s, (s, tt)) <$> kept) : gmap string unit).
  assert (∀ s, s ∈ (btree_items set).*1 → s ∈ kept) as Hin.
  { intros s ([? []] & -> & Hs%elem_of_btree_items)%list_elem_of_fmap. apply elem_of_list_to_map_2 in Hs.
    apply list_elem_of_fmap in Hs as (s' & Heq & Hs'). by injection Heq as ->. }
  destruct ((btree_items set).*1) as [|s0 l0] eqn:Hl; [done|]. intros [= <-]. exists req, all.
  split_and!; try done. intros s Hs%Hin. unfold kept in Hs. rewrite list_elem_of_filter in Hs. by destruct Hs.
Qed.

Lemma lower_lacks_space s : lacks " " s → lacks " " (to_ascii_lowercase s).
Proof.
  unfold lacks. induction s as [|a s IH]; cbn; [done|]. intros [Ha Hs]%Forall_cons. constructor; [|by apply IH].
  revert Ha. destruct a as [[] [] [] [] [] [] [] []]; vm_compute; auto; done.
Qed.

Lemma lower_nonempty s : s ≠ "" → to_ascii_lowercase s ≠ "".
Proof. by destruct s. Qed.

(** A service reads in [x-scopes] exactly the scopes of the token. *)
Lemma context_scopes_text l :
  l ≠ [] → Forall (λ s, lacks " " s ∧ s ≠ "" ∧ all_chars is_ascii s = true) l →
  ∀ s, s ∈ context_scopes (Some (scopes_text l)) ↔ s ∈ (to_ascii_lowercase <$> l).
Proof.
  intros Hne Hl s. unfold scopes_text. rewrite list.Forall_forall in Hl.
  set (set := list_to_map ((λ s, (to_lowercase s, tt)) <$> l) : gmap string unit).
  assert (∀ s, s ∈ (btree_items set).*1 ↔ s ∈ (to_ascii_lowercase <$> l)) as Hset.
  { intros t. rewrite list_elem_of_fmap. split.
    - intros ([? []] & -> & Ht%elem_of_btree_items). apply elem_of_list_to_map_2 in Ht.
      apply list_elem_of_fmap in Ht as (t' & Heq & Ht'). injection Heq as ->. apply list_elem_of_fmap. exists t'.
      split; [|done]. apply to_lowercase_ascii. by apply Hl.
    - intros (t' & -> & Ht')%list_elem_of_fmap. exists (to_ascii_lowercase t', tt). split; [done|].
      apply elem_of_btree_items. destruct (set !! to_ascii_lowercase t') as [[]|] eqn:Hn; [done|].
      apply not_elem_of_list_to_map in Hn. destruct Hn. rewrite <-list_fmap_compose. apply list_elem_of_fmap.
      exists t'. split; [|done]. symmetry. apply to_lowercase_ascii. by apply Hl. }
  assert (Forall (λ t, lacks " " t ∧ t ≠ "" ∧ to_ascii_lowercase t = t) (btree_items set).*1) as Hwords.
  { apply list.Forall_forall. intros t (t' & -> & (Hlk & Hn & _)%Hl)%Hset%list_elem_of_fmap.
    split_and!; [by apply lower_lacks_space|by apply lower_nonempty|apply lower_lower]. }
  unfold context_scopes. rewrite split_concat.
  - rewrite list.Forall_forall in Hwords. rewrite list_elem_of_fmap. split.
    + intros (t & -> & [_ Ht]%list_elem_of_filter). rewrite <-Hset. by rewrite (proj2 (proj2 (Hwords t Ht))).
    + intros Hs. apply Hset in Hs. exists s. destruct (Hwords s Hs) as (_ & Hn & Hlow). split; [done|].
      by apply list_elem_of_filter.
  - destruct l as [|x l]; [done|]. intros Hnil. pose proof (proj2 (Hset (to_ascii_lowercase x))) as Hx.
    rewrite Hnil in Hx. by apply (not_elem_of_nil (to_ascii_lowercase x)), Hx; left.
  - eapply Forall_impl; [exact Hwords|]. by intros t (? & _).
Qed.

Lemma requested_words c l : requested_scopes c = Some l → Forall (λ s, lacks " " s ∧ s ≠ "") l.
Proof.
  unfold requested_scopes. destruct (as_scope c) as [s|]; [|done]. cbn.
  destruct (filter (λ t, t ≠ "") (split_char " " s)) as [|w ws] eqn:Hf; [done|]. intros [= <-]. rewrite <-Hf.
  apply list.Forall_forall. intros t [Ht Hin]%list_elem_of_filter. split; [|done].
  pose proof (split_char_parts " " s) as Hp. rewrite list.Forall_forall in Hp. by apply Hp.
Qed.

(** The scopes of a granted token, as a service reads them *)
Lemma token_scopes_allowed c u allowed scope :
  Forall (λ s, all_chars is_ascii s = true) (default [] allowed) →
  has_scope (match granted_scopes (requested_scopes c) allowed with
             | Some ((_ :: _) as scopes) => <["x-scopes" := scopes_text scopes]> (tenant_headers u)
             | _ => tenant_headers u
             end !! "x-scopes") scope = true →
  to_ascii_lowercase scope ∈ (to_ascii_lowercase <$> default [] (requested_scopes c)) ∧
  to_ascii_lowercase scope ∈ (to_ascii_lowercase <$> default [] allowed).
Proof.
  intros Hascii. unfold has_scope. rewrite bool_decide_eq_true. destruct (granted_scopes _ _) as [l|] eqn:Hgr.
  - apply granted_scopes_allowed in Hgr as (req & all & Hreq & -> & Hne & Hin). rewrite Hreq.
    change (default [] (Some all)) with all in Hascii |- *. change (default [] (Some req)) with req.
    destruct l as [|s l]; [done|]. rewrite lookup_insert_eq. intros Hs.
    apply requested_words in Hreq. rewrite list.Forall_forall in Hreq, Hascii.
    apply (context_scopes_text (s :: l)) in Hs; [|exact Hne|].
    + apply list_elem_of_fmap in Hs as (t & Ht & [Hr Hal]%Hin). apply list_elem_of_fmap in Hr as (r & -> & Hr).
      rewrite lower_lower in Ht. rewrite Ht. split; [|exact Hal]. apply list_elem_of_fmap. by exists r.
    + apply list.Forall_forall. intros t [Hr Hal]%Hin. apply list_elem_of_fmap in Hr as (r & -> & Hr).
      destruct (Hreq r Hr). split_and!; [by apply lower_lacks_space|by apply lower_nonempty|].
      apply list_elem_of_fmap in Hal as (al & -> & Hal). by apply is_ascii_lower, Hascii.
  - unfold tenant_headers. rewrite lookup_singleton_ne by done. cbn. by intros ?%not_elem_of_nil.
Qed.

End laws.

(** ** The endpoints together *)

Section endpoints.
  Context `{LC : Lowercase} `{C : AuthCodec} `{CL : !AuthCodecLaws C} `{J : HeaderJson}
    `{PK : Prost ApiKeyModel} `{PT : Prost ApiTokenModel} `{PS : Prost ServiceModel} `{PKL : !ProstLaws ApiKeyModel PK}
    `{L : PasetoLib} `{LL : !PasetoLaws L} `{JW : JwtLib} `{JWL : !JwtLaws JW}
    `{CS : ChallengeSchemes} `{B : Bn254.Bn254} `{HL : HttpLib}.
  Variable error_text : AuthError → string.
  Variable validation_text : ValidationError → string.

Definition CREDENTIAL_CFS : list Cf := [SEQ_CF; API_KEYS_CF; API_KEYS_BY_ID_CF].

Lemma key_save_outside m db r db' : key_save m db = (r, db') → same_outside CREDENTIAL_CFS (db_data db) (db_data db').
Proof.
  intros Hs. destruct (decide (km_id m = 0)) as [H0|H0].
  - unfold key_save in Hs. rewrite (proj2 (Z.eqb_eq _ _)) in Hs by done. apply key_create_spec in Hs.
    destruct r as [m'|e]; [|by rewrite Hs]. destruct Hs as (id & -> & _ & _ & ->).
    repeat (etrans; [|apply same_outside_insert; decide_now]). done.
  - apply key_save_spec in Hs as [Hs _]; [|done]. intros cf k Hcf. apply Hs; intros ->; destruct Hcf; decide_now.
Qed.

Lemma check_api_key_outside rd key db r db' :
  check_api_key rd key db = (r, db') → same_outside CREDENTIAL_CFS (db_data db) (db_data db').
Proof.
  unfold check_api_key. destruct (split_once "." key) as [[kid rest]|]; [|by intros [= <- <-]].
  destruct (find_by_key_id kid db) as [[[stored|]|e] db1] eqn:Hf; apply find_by_key_id_spec in Hf as [Hd _]; rewrite <-Hd;
    [|by intros [= <- <-]..].
  destruct (negb _); [by intros [= <- <-]|]. destruct (key_is_expired _ _); [by intros [= <- <-]|].
  destruct (negb _); [by intros [= <- <-]|]. intros Heq. injection Heq as <- <-.
  destruct (update_last_used _ stored db1) as [r' db2] eqn:Hu. by apply key_save_outside in Hu.
Qed.

Lemma extract_outside rd m h db r db' :
  extract_and_validate_auth rd m h db = (r, db') → same_outside CREDENTIAL_CFS (db_data db) (db_data db').
Proof.
  unfold extract_and_validate_auth. destruct (bearer h) as [c|]; [|by intros [= <- <-]].
  destruct (auth_token_parse c) as [[t|k]|e].
  - unfold handle_legacy_token. destruct (find_token_id (tok_id t) db) as [[[model|]|e] db1] eqn:Hf;
      apply find_token_id_spec in Hf as [Hd _]; rewrite <-Hd; [destruct (_ && _)| |]; by intros [= <- <-].
  - unfold handle_api_key. destruct (check_api_key rd k db) as [[model|[code e]] db1] eqn:Hc;
      apply check_api_key_outside in Hc; by intros [= <- <-].
  - destruct (String.prefix _ _); by intros [= <- <-].
Qed.

Lemma proxy_outside max_size rd m cert http2 pq h db :
  same_outside CREDENTIAL_CFS (db_data db) (db_data (unified_proxy max_size rd m cert http2 pq h db).2).
Proof.
  rewrite unified_proxy_eq. unfold proxy_with_mtls. destruct (extract_and_validate_auth rd m h db) as [r db1] eqn:He.
  apply extract_outside in He. destruct r as [[sid add]|code]; [|done].
  destruct (service_find sid db1) as [[[service|]|e] db2] eqn:Hs; apply service_find_spec in Hs as [Hd _];
    [|by cbn; rewrite Hd..]. destruct (_ && _); [by cbn; rewrite Hd|].
  destruct (parse_uri _); [|by cbn; rewrite Hd]. destruct (build_uri _ _ _); cbn; by rewrite Hd.
Qed.

Lemma exchange_outside rd m h payload db :
  same_outside CREDENTIAL_CFS (db_data db) (db_data (auth_exchange rd m h payload db).2).
Proof.
  unfold auth_exchange. destruct (exchange_credential h) as [key|[code e]]; [|done].
  destruct (check_api_key rd key db) as [[model|[code e]] db1] eqn:Hc; apply check_api_key_outside in Hc; [|done].
  destruct (validate_headers _); [|done]. by destruct (generate_token _ _ _ _ _ _ _ _ _ _ _).
Qed.

Lemma challenge_outside rd sid payload db :
  same_outside CREDENTIAL_CFS (db_data db) (db_data (auth_challenge rd sid payload db).2).
Proof.
  unfold auth_challenge. destruct (service_find sid db) as [[[service|]|e] db1] eqn:Hs;
    apply service_find_spec in Hs as [Hd _]; [destruct (negb _)| |]; cbn; by rewrite Hd.
Qed.

Lemma verify_outside rd sid payload db :
  same_outside CREDENTIAL_CFS (db_data db) (db_data (auth_verify error_text validation_text rd sid payload db).2).
Proof.
  unfold auth_verify. destruct (service_find sid db) as [[[service|]|e] db1] eqn:Hs;
    apply service_find_spec in Hs as [Hd _]; [|by cbn; rewrite Hd..]. rewrite <-Hd.
  destruct (negb _); [done|]. destruct (verify_challenge _ _ _ _) as [[[]|e]|]; [|done..].
  destruct (validate_headers _) as [v|e]; [|done].
  destruct (key_save _ db1) as [[saved|e] db2] eqn:Hk; by apply key_save_outside in Hk.
Qed.

(** A request for a token up to the answer of the replay store: it writes the
    rate counters only, and one that goes on carries checked claims whose
    identifier is not on record with their expiry or a later one. *)
Lemma oauth_begin_spec rd h form db r db' :
  oauth_begin rd h form db = (r, db') →
  same_outside [OAUTH_RL_CF] (db_data db) (db_data db') ∧
  ∀ x, r = Ok x → ∃ a, form !! "assertion" = Some a ∧ xg_claims x = jwt_claims a ∧ as_jti (jwt_claims a) = Some (xg_jti x) ∧
    (∀ y, used (db_data db) (xg_jti x) = Some y → y < default 0 (as_exp (xg_claims x))).
Proof.
  unfold oauth_begin. destruct (negb _); [by intros [= <- <-]|].
  destruct (form !! "assertion") as [[|x y]|] eqn:Ha; [by intros [= <- <-]| |by intros [= <- <-]].
  set (a := String x y) in *. destruct (oauth_service_id h) as [id|]; [|by intros [= <- <-]].
  destruct (policy_load id db) as [[[policy|]|e] db1] eqn:Hp; apply policy_load_spec in Hp as [Hd _];
    [|by intros [= <- <-]; rewrite Hd..].
  destruct (rate_limit_check _ h id 60 120 db1) as [r1 db2] eqn:Hrl. apply rate_limit_frame in Hrl. rewrite Hd in Hrl.
  destruct (verify_unused _ _ _ _ _) as [[[c jti]|e] db3] eqn:Hu; apply verify_unused_spec in Hu as [Hd3 Hu];
    intros [= <- <-]; rewrite Hd3; (split; [done|]); [|done].
  intros x' [= <-]. destruct (Hu c jti eq_refl) as (Hc & Hj & Hx). apply check_assertion_ok, good_assertion_claims in Hc as ->.
  exists a. cbn. split_and!; try done. intros z Hz. apply Hx. unfold used in *. by rewrite Hrl by decide_now.
Qed.

Lemma oauth_finish_spec rd m x db r db' :
  oauth_finish validation_text rd m x db = (r, db') →
  match r with
  | Ok _ => db_data db' = <[(OAUTH_JTI_CF, str_bytes (xg_jti x)) := str_bytes (pretty (default 0 (as_exp (xg_claims x))))]> (db_data db)
  | Err _ => db_data db' = db_data db ∨
      db_data db' = <[(OAUTH_JTI_CF, str_bytes (xg_jti x)) := str_bytes (pretty (default 0 (as_exp (xg_claims x))))]> (db_data db)
  end.
Proof.
  unfold oauth_finish. destruct (verify_record _ _ _) as [[v|e] db1] eqn:Hv; apply verify_record_spec in Hv.
  - destruct Hv as [Hv _]. destruct (oauth_grant _ _ _ _ _ _); intros [= <- <-]; [done|by right].
  - intros [= <- <-]. by left.
Qed.

(** The proxy: its database and the token requests between the answer of the replay
    store and the write to it.  Handlers run in parallel, so that any number may be. *)
Record Proxy := mkProxy { px_db : Db; px_exchanging : list Exchanging }.

(** One request to the proxy, whichever it is, a half of a token request, or a change
    of the calls that fail *)
Inductive proxy_step : Proxy → Proxy → Prop :=
| step_challenge rd sid payload db l : proxy_step (mkProxy db l) (mkProxy (auth_challenge rd sid payload db).2 l)
| step_verify rd sid payload db l :
    proxy_step (mkProxy db l) (mkProxy (auth_verify error_text validation_text rd sid payload db).2 l)
| step_exchange rd m h payload db l : proxy_step (mkProxy db l) (mkProxy (auth_exchange rd m h payload db).2 l)
| step_oauth_begin rd h form db l :
    proxy_step (mkProxy db l)
      (mkProxy (oauth_begin rd h form db).2
         (match (oauth_begin rd h form db).1 with Ok x => x :: l | Err _ => l end))
| step_oauth_finish rd m x db l1 l2 :
    proxy_step (mkProxy db (l1 ++ x :: l2)) (mkProxy (oauth_finish validation_text rd m x db).2 (l1 ++ l2))
| step_proxy max_size rd m cert http2 pq h db l :
    proxy_step (mkProxy db l) (mkProxy (unified_proxy max_size rd m cert http2 pq h db).2 l)
| step_faults d f f' l : proxy_step (mkProxy (mkDb d f) l) (mkProxy (mkDb d f') l).

(** The identifier is on record up to [e] at least, and no request under way would
    record less *)
Definition spent (jti : string) (e : Z) (p : Proxy) : Prop :=
  (∃ y, used (db_data (px_db p)) jti = Some y ∧ e ≤ y) ∧
  Forall (λ x, is_u64 (default 0 (as_exp (xg_claims x))) ∧ (xg_jti x = jti → e ≤ default 0 (as_exp (xg_claims x)))) (px_exchanging p).

Lemma spent_outside jti e db db' l cfs :
  OAUTH_JTI_CF ∉ cfs → same_outside cfs (db_data db) (db_data db') → spent jti e (mkProxy db l) → spent jti e (mkProxy db' l).
Proof. intros Hcf Hs [Hu Hl]. split; [|done]. cbn in *. unfold used. by rewrite Hs. Qed.

Lemma used_recorded d jti jti' e :
  is_u64 e → used (<[(OAUTH_JTI_CF, str_bytes jti') := str_bytes (pretty e)]> d) jti = if decide (jti = jti') then Some e else used d jti.
Proof.
  intros He. unfold used. case_decide as Hj.
  - subst. rewrite lookup_insert_eq. by apply stored_number_pretty.
  - rewrite lookup_insert_ne; [done|]. intros [= Hb]. by apply str_bytes_inj in Hb.
Qed.

Lemma spent_finish rd m jti e x db l1 l2 :
  spent jti e (mkProxy db (l1 ++ x :: l2)) → spent jti e (mkProxy (oauth_finish validation_text rd m x db).2 (l1 ++ l2)).
Proof.
  intros [(y & Hy & Hle) Hl]. cbn in *. apply Forall_app in Hl as [H1 [[Hx Hj] H2]%Forall_cons]. split; [|by apply Forall_app]. cbn.
  destruct (oauth_finish validation_text rd m x db) as [r db'] eqn:Hf. apply oauth_finish_spec in Hf. cbn.
  assert (db_data db' = db_data db ∨ db_data db'
    = <[(OAUTH_JTI_CF, str_bytes (xg_jti x)) := str_bytes (pretty (default 0 (as_exp (xg_claims x))))]> (db_data db)) as [->| ->]
    by (destruct r; auto); [by exists y|].
  rewrite used_recorded by done. case_decide as Hd; [|by exists y]. eexists. split; [done|]. apply Hj. done.
Qed.

Lemma proxy_step_spent jti e p p' : proxy_step p p' → spent jti e p → spent jti e p'.
Proof.
  assert (OAUTH_JTI_CF ∉ CREDENTIAL_CFS) as Hcf by decide_now.
  destruct 1; try (eapply spent_outside; [exact Hcf|]; solve
    [auto using challenge_outside, verify_outside, exchange_outside, proxy_outside]); [|by apply spent_finish|done].
  intros Hs. destruct (oauth_begin rd h form db) as [r db'] eqn:Hb. apply oauth_begin_spec in Hb as [Ho Hx]. cbn [fst snd].
  eapply (spent_outside jti e db db' _ [OAUTH_RL_CF]); [decide_now|done|]. destruct r as [x|]; [|done].
  destruct Hs as [(y & Hy & Hle) Hl]. split; [by exists y|]. constructor; [|done].
  destruct (Hx x eq_refl) as (a & _ & Hc & _ & Hlt). split; [rewrite Hc; apply claims_exp_u64|].
  intros <-. specialize (Hlt _ Hy). lia.
Qed.

Lemma proxy_steps_spent jti e p p' : rtc proxy_step p p' → spent jti e p → spent jti e p'.
Proof. induction 1 as [|? ? ? Hs _ IH]; [done|]. intros H. by eapply IH, proxy_step_spent. Qed.

(** A request that finds the identifier spent goes no further. *)
Lemma spent_refused jti p rd h form a :
  spent jti (default 0 (as_exp (jwt_claims a))) p → as_jti (jwt_claims a) = Some jti → form !! "assertion" = Some a →
  ∃ refusal, (oauth_begin rd h form (px_db p)).1 = Err refusal.
Proof.
  intros [(y & Hy & Hle) _] Hj Ha. destruct (oauth_begin rd h form (px_db p)) as [[x|refusal] db'] eqn:Hb; [|by eexists].
  apply oauth_begin_spec in Hb as [_ Hx]. destruct (Hx x eq_refl) as (a' & Ha' & Hc & Hj' & Hlt).
  assert (a' = a) as -> by congruence. assert (xg_jti x = jti) as Hjx by congruence. rewrite Hjx, Hc in Hlt. specialize (Hlt _ Hy). lia.
Qed.

(** A reachable proxy: the requests under way carry claims of assertions, which
    have expiries of 64 bits *)
Definition claims_ok (p : Proxy) : Prop := Forall (λ x, is_u64 (default 0 (as_exp (xg_claims x)))) (px_exchanging p).
Lemma proxy_step_claims p p' : proxy_step p p' → claims_ok p → claims_ok p'.
Proof.
  unfold claims_ok. destruct 1; try done; cbn.
  - intros Hl. destruct (oauth_begin rd h form db) as [[x|] db'] eqn:Hb; [|done]. cbn. constructor; [|done].
    apply oauth_begin_spec in Hb as [_ Hx]. destruct (Hx x eq_refl) as (a & _ & -> & _). apply claims_exp_u64.
  - rewrite !Forall_app, Forall_cons. tauto.
Qed.
Lemma proxy_steps_claims db p : rtc proxy_step (mkProxy db []) p → claims_ok p.
Proof.
  intros Hr. assert (claims_ok (mkProxy db [])) as H0 by constructor. revert H0.
  induction Hr as [|? ? ? Hs _ IH]; [done|]. intros H. by eapply IH, proxy_step_claims.
Qed.

(** C20. An assertion is spent when a token was granted for it.  Token requests run in
    parallel, and the replay store is read and written by separate calls: a step of the
    proxy is a half of a token request, another request, or a change of the database
    calls that fail.  When a token was granted for an assertion, every request with the
    same assertion that asks the replay store afterwards is refused, for every service
    and whatever the proxy did in between.  The condition is on the requests that had
    been answered by the store and not yet written at that time: one with the same
    identifier must carry the same expiry or a later one, as one with the same
    assertion does.  (Such an overlapping request is granted a token too,
    [overlapping_exchanges].) *)
Theorem assertion_used_once rd m x db0 db l1 l2 t db1 assertion p rd' h' form' :
  rtc proxy_step (mkProxy db0 []) (mkProxy db (l1 ++ x :: l2)) →
  xg_claims x = jwt_claims assertion → as_jti (jwt_claims assertion) = Some (xg_jti x) →
  Forall (λ y, xg_jti y = xg_jti x → default 0 (as_exp (xg_claims x)) ≤ default 0 (as_exp (xg_claims y))) (l1 ++ l2) →
  oauth_finish validation_text rd m x db = (Ok t, db1) →
  rtc proxy_step (mkProxy db1 (l1 ++ l2)) p → form' !! "assertion" = Some assertion →
  ∃ refusal, (oauth_begin rd' h' form' (px_db p)).1 = Err refusal.
Proof.
  intros Hreach Hc Hj Hover Hf Hsteps Ha. eapply spent_refused; [|done..]. eapply proxy_steps_spent; [done|].
  apply proxy_steps_claims in Hreach. unfold claims_ok in Hreach. cbn in Hreach.
  apply Forall_app in Hreach as [H1 [Hx H2]%Forall_cons]. apply oauth_finish_spec in Hf. rewrite <-Hc. split; cbn.
  - rewrite Hf, used_recorded, decide_True by done. by eexists.
  - assert (Forall (λ y, is_u64 (default 0 (as_exp (xg_claims y)))) (l1 ++ l2)) as Hu by by apply Forall_app.
    rewrite list.Forall_forall in *. intros y Hy. split; [by apply Hu|by apply Hover].
Qed.

(** An access token is granted for an assertion only if the policy of the
    service allows it: one of its keys verifies the assertion, an allowed issuer
    made it, and it is neither premature nor expired nor too long-lived.  A
    request with the token is authenticated as one of that service, as the tenant
    derived from the subject; and every scope that the service finds in it was
    asked for and is allowed by the policy. *)
Theorem oauth_grants_allowed rd m h form db token expires left_ db' :
  oauth_token validation_text rd m h form db = (Ok (token, expires, left_), db') →
  ∃ id assertion policy c,
    oauth_service_id h = Some id ∧ form !! "assertion" = Some assertion ∧
    policy_at (db_data db) id = Some policy ∧ good_assertion (or_now_jwt rd) (or_now rd) assertion policy c ∧
    ∀ rd2 h2 db2, bearer h2 = Some token →
      ar_now_token (or_auth rd) ≤ ar_now_token rd2 < ar_now_token (or_auth rd) + paseto_lifetime →
      ar_now rd2 < u64_wrap (ar_now_claims (or_auth rd)
        + as_secs (from_secs (Z.max (max_access_token_ttl_secs policy) 60))) →
      ∃ headers, extract_and_validate_auth rd2 m h2 db2 = (Ok (id, headers), db2) ∧
        headers !! "x-tenant-id" = Some (hash_user_id (as_sub c)) ∧
        (Forall (λ s, all_chars is_ascii s = true) (default [] (allowed_scopes policy)) →
         ∀ scope, has_scope (headers !! "x-scopes") scope = true →
           to_ascii_lowercase scope ∈ (to_ascii_lowercase <$> default [] (requested_scopes c)) ∧
           to_ascii_lowercase scope ∈ (to_ascii_lowercase <$> default [] (allowed_scopes policy))).
Proof.
  intros Ho. apply oauth_token_spec in Ho as [_ (_ & id & a & policy & v & dbv & _ & Ha & Hid & Hp & _ & Hv & Hg)].
  apply verify_assertion_spec in Hv as [_ (c & jti & Hc & _ & _ & _ & ->)]. apply check_assertion_ok in Hc.
  exists id, a, policy, c. split_and!; try assumption. intros rd2 h2 db2 Hb Ht He.
  destruct (oauth_grant_ok validation_text (or_auth rd) m id policy
    (mkVerified (as_iss c) (as_sub c) (as_aud c) (requested_scopes c))) as (token' & Hok & Hpre & Hval).
  rewrite Hok in Hg. injection Hg as <- _ _. destruct (Hval _ _ Ht He) as (claims & Hvt & Hsid & Hadd & Hsc).
  cbn in Hadd, Hsc. unfold extract_and_validate_auth. rewrite Hb. unfold auth_token_parse. rewrite Hpre. cbn [map_err].
  unfold handle_paseto_token. rewrite Hvt, Hsid, Hadd, Hsc. eexists. split; [reflexivity|]. split.
  - destruct (granted_scopes _ _) as [[|s l]|]; rewrite ?lookup_insert_ne by done; apply lookup_singleton_eq.
  - intros Hascii scope. by apply token_scopes_allowed.
Qed.


End endpoints.
