(* ===== verification/AuthExamples.v ===== *)
(** * Runs of the authentication proxy

    Concrete instances of the libraries that the proxy calls, with their laws, and
    what the endpoints do on them.  Encodings go through the bits of a number that
    determines the value; the hash is the first 32 bytes of a text; a signature is
    valid when it repeats the challenge. *)

From Stdlib Require Import ZArith Lia Ascii.
From stdpp Require Import base gmap sets list sorting strings pretty fin_maps numbers relations.
From S2P Require Import Prelude Bytes Text Bn254 JobCore Hex Http AuthTypes AuthStore AuthPaseto AuthProxy AuthOauth.

#[local] Open Scope Z_scope.

(** ** Instances *)

(** A number as its bits *)
Fixpoint pos_bits (p : positive) : list bool :=
  match p with xH => [] | xO p => false :: pos_bits p | xI p => true :: pos_bits p end.
Fixpoint bits_pos (l : list bool) : positive :=
  match l with [] => xH | false :: l => xO (bits_pos l) | true :: l => xI (bits_pos l) end.

Lemma bits_pos_bits p : bits_pos (pos_bits p) = p.
Proof. induction p as [p IH|p IH|]; cbn; congruence. Qed.

Definition demo_encode {A} `{Countable A} (a : A) : list Byte8 :=
  1 :: ((λ b : bool, if b then 1 else 0) <$> pos_bits (countable.encode a)).
Definition demo_decode A `{Countable A} (l : list Byte8) : option A :=
  match l with 1 :: l => countable.decode (bits_pos ((λ b, b =? 1) <$> l)) | _ => None end.

Lemma demo_round_trip {A} `{Countable A} (a : A) : demo_decode A (demo_encode a) = Some a.
Proof.
  unfold demo_decode, demo_encode. rewrite <-list_fmap_compose.
  assert (((λ b, b =? 1) ∘ (λ b : bool, if b then 1 else 0)) <$> pos_bits (countable.encode a) = pos_bits (countable.encode a)) as ->.
  { induction (pos_bits (countable.encode a)) as [|[] l IH]; cbn; by f_equal. }
  rewrite bits_pos_bits. apply countable.decode_encode.
Qed.

(** The same as a text *)
Fixpoint bits_text (l : list bool) : string :=
  match l with [] => "" | b :: l => String (if b then "1" else "0")%char (bits_text l) end.
Fixpoint text_bits (s : string) : list bool :=
  match s with "" => [] | String a s => bool_decide (a = "1"%char) :: text_bits s end.
Definition demo_text {A} `{Countable A} (a : A) : string := bits_text (pos_bits (countable.encode a)).
Definition demo_parse A `{Countable A} (s : string) : option A := countable.decode (bits_pos (text_bits s)).

Lemma demo_text_round_trip {A} `{Countable A} (a : A) : demo_parse A (demo_text a) = Some a.
Proof.
  unfold demo_parse, demo_text.
  assert (∀ l, text_bits (bits_text l) = l) as -> by (intros l; induction l as [|[] l IH]; cbn; by rewrite ?IH).
  rewrite bits_pos_bits. apply countable.decode_encode.
Qed.

Lemma demo_text_lacks {A} `{Countable A} (a : A) : lacks "." (demo_text a).
Proof. unfold lacks, demo_text. induction (pos_bits _) as [|[] l IH]; cbn; by constructor. Qed.

#[export] Program Instance demo_lowercase : Lowercase := {| to_lowercase := to_ascii_lowercase |}.
Next Obligation. done. Qed.

#[export] Instance demo_codec : AuthCodec := {|
  base64_encode l := hex_encode ((λ b, b mod 256) <$> l);
  crc32 _ := 7;
  keccak_v256 m := take 32 (((λ b, b mod 256) <$> m) ++ replicate 32 0);
|}.

Lemma demo_bytes l : Forall is_byte ((λ b, b mod 256) <$> l).
Proof. apply Forall_fmap, list.Forall_true. intros b. unfold is_byte. cbn. apply Z.mod_pos_bound. lia. Qed.

#[export] Instance demo_codec_laws : AuthCodecLaws demo_codec.
Proof.
  split.
  - intros l. cbn. destruct (hex_encode_hexdigits _ (demo_bytes l)) as [Hh _]. revert Hh.
    apply all_chars_impl. intros a. destruct a as [[] [] [] [] [] [] [] []]; vm_compute; done.
  - cbn. intros l l' Hl Hl' Heq. apply hex_encode_inj in Heq; [|apply demo_bytes..].
    assert (∀ k, Forall is_byte k → (λ b, b mod 256) <$> k = k) as Hid.
    { intros k. induction 1 as [|b k Hb Hk IH]; [done|]. cbn. rewrite IH. f_equal. apply Z.mod_small. done. }
    by rewrite !Hid in Heq.
  - intros m. cbn [keccak_v256 demo_codec]. split.
    + apply Forall_take, Forall_app. split; [apply demo_bytes|]. apply Forall_replicate. by vm_compute.
    + rewrite length_take, length_app, length_replicate. lia.
Qed.

#[export] Instance demo_json : HeaderJson := {|
  headers_to_vec h := Some (demo_encode h);
  headers_from_slice l := demo_decode (gmap string string) l;
|}.
#[export] Instance demo_json_laws : HeaderJsonLaws demo_json.
Proof. split. intros h. eexists. split; [done|]. split; [done|]. apply demo_round_trip. Qed.

(** The stored records as tuples *)
#[export] Instance ApiKeyModel_eq_dec : EqDecision ApiKeyModel.
Proof. solve_decision. Defined.
#[export] Instance ApiKeyModel_countable : Countable ApiKeyModel.
Proof.
  refine (inj_countable'
    (λ m, (km_id m, km_key_id m, km_key_hash m, km_service_id m, km_sub_service_id m, km_created_at m,
           km_last_used m, km_expires_at m, km_is_enabled m, km_default_headers m, km_description m))
    (λ '(a, b, c, d, e, f, g, h, i, j, k), mkKeyModel a b c d e f g h i j k) _). by intros [].
Defined.
#[export] Instance ApiTokenModel_eq_dec : EqDecision ApiTokenModel.
Proof. solve_decision. Defined.
#[export] Instance ApiTokenModel_countable : Countable ApiTokenModel.
Proof.
  refine (inj_countable'
    (λ m, (tm_id m, tm_token m, tm_service_id m, tm_sub_service_id m, tm_expires_at m, tm_is_enabled m,
           tm_additional_headers m))
    (λ '(a, b, c, d, e, f, g), mkTokenModel a b c d e f g) _). by intros [].
Defined.
#[export] Instance TlsProfile_eq_dec : EqDecision TlsProfile.
Proof. solve_decision. Defined.
#[export] Instance TlsProfile_countable : Countable TlsProfile.
Proof.
  refine (inj_countable'
    (λ t, (tls_enabled t, require_client_mtls t, encrypted_server_cert t, encrypted_server_key t,
           encrypted_client_ca_bundle t, encrypted_upstream_ca_bundle t, encrypted_upstream_client_cert t,
           encrypted_upstream_client_key t, client_cert_ttl_hours t, sni t, subject_alt_name_template t,
           allowed_dns_names t))
    (λ '(a, b, c, d, e, f, g, h, i, j, k, l), mkTlsProfile a b c d e f g h i j k l) _). by intros [].
Defined.
#[export] Instance ServiceOwnerModel_countable : Countable ServiceOwnerModel.
Proof.
  refine (inj_countable' (λ o, (owner_key_type o, owner_key_bytes o)) (λ '(a, b), mkOwner a b) _). by intros [].
Defined.
#[export] Instance ServiceModel_eq_dec : EqDecision ServiceModel.
Proof. solve_decision. Defined.
#[export] Instance ServiceModel_countable : Countable ServiceModel.
Proof.
  refine (inj_countable' (λ s, (api_key_prefix s, owners s, upstream_url s, tls_profile s))
    (λ '(a, b, c, d), mkService a b c d) _). by intros [].
Defined.
#[export] Instance ServiceId_countable : Countable ServiceId.
Proof. refine (inj_countable' (λ s, (sid_main s, sid_sub s)) (λ '(a, b), mkServiceId a b) _). by intros []. Defined.
#[export] Instance AccessTokenClaims_eq_dec : EqDecision AccessTokenClaims.
Proof. solve_decision. Defined.
#[export] Instance AccessTokenClaims_countable : Countable AccessTokenClaims.
Proof.
  refine (inj_countable'
    (λ c, (cl_service_id c, cl_tenant_id c, cl_tenant_binding c, cl_additional_headers c, cl_expires_at c,
           cl_issued_at c, cl_key_id c, cl_jti c, cl_scopes c))
    (λ '(a, b, c, d, e, f, g, h, i), mkClaims a b c d e f g h i) _). by intros [].
Defined.
#[export] Instance ServiceOAuthPolicy_eq_dec : EqDecision ServiceOAuthPolicy.
Proof. solve_decision. Defined.
#[export] Instance ServiceOAuthPolicy_countable : Countable ServiceOAuthPolicy.
Proof.
  refine (inj_countable'
    (λ p, (allowed_issuers p, required_audiences p, public_keys_pem p, allowed_scopes p, require_dpop p,
           max_access_token_ttl_secs p, max_assertion_ttl_secs p))
    (λ '(a, b, c, d, e, f, g), mkPolicy a b c d e f g) _). by intros [].
Defined.
#[export] Instance AssertionClaims_eq_dec : EqDecision AssertionClaims.
Proof. solve_decision. Defined.
#[export] Instance AssertionClaims_countable : Countable AssertionClaims.
Proof.
  refine (inj_countable' (λ c, (as_iss c, as_sub c, as_aud c, as_iat c, as_exp c, as_jti c, as_scope c))
    (λ '(a, b, c, d, e, f, g), mkAssertion a b c d e f g) _). by intros [].
Defined.

#[export] Instance demo_prost {A} `{Countable A} : Prost A := {| encode_to_vec := demo_encode; decode := demo_decode A |}.
#[export] Instance demo_prost_laws {A} `{Countable A} : ProstLaws A demo_prost.
Proof. split. apply demo_round_trip. Qed.

(** A token holds its key, the time it was made and the text. *)
#[export] Instance demo_paseto : PasetoLib := {|
  PasetoKey := Z;
  claims_to_json c := Ok (demo_text c);
  claims_from_json s := ok_or (demo_parse AccessTokenClaims s) "claims";
  local_encrypt key now _ data := Ok ("v4.local." +:+ demo_text (key, now) +:+ String "." data);
  local_decrypt key now token :=
    match strip_prefix "v4.local." token ≫= split_once "." with
    | Some (header, data) =>
        match demo_parse (Z * Z) header with
        | Some (key', made) =>
            if (key' =? key) && (made <=? now) && (now <? made + paseto_lifetime) then Ok data
            else Err (DecryptionError "token")
        | None => Err (DecryptionError "token")
        end
    | None => Err (DecryptionError "token")
    end;
|}.
Lemma prefix_app_self p s : String.prefix p (p +:+ s) = true.
Proof.
  induction p as [|a p IH]; [by destruct s|]. change (String a p +:+ s) with (String a (p +:+ s)). cbn.
  by destruct (Ascii.ascii_dec a a).
Qed.

#[export] Instance demo_paseto_laws : PasetoLaws demo_paseto.
Proof.
  split.
  - intros c. eexists. split; [done|]. cbn [claims_from_json demo_paseto]. by rewrite demo_text_round_trip.
  - intros key now nonce data. eexists. split; [done|].
    assert (∀ t, local_decrypt key t ("v4.local." +:+ demo_text (key, now) +:+ String "." data) =
      if (key =? key) && (now <=? t) && (t <? now + paseto_lifetime) then Ok data else Err (DecryptionError "token")) as Hd.
    { intros t. cbn [local_decrypt demo_paseto]. rewrite (proj2 (strip_prefix_some _ _ _) eq_refl).
      cbn [mbind option_bind]. rewrite split_once_app by apply demo_text_lacks. by rewrite demo_text_round_trip. }
    split_and!; [by apply prefix_app_self| |].
    + intros t Ht. rewrite Hd, Z.eqb_refl, (proj2 (Z.leb_le _ _)), (proj2 (Z.ltb_lt _ _)) by lia. done.
    + intros t Ht. exists (DecryptionError "token").
      rewrite Hd, Z.eqb_refl, (proj2 (Z.leb_le _ _)), (proj2 (Z.ltb_ge _ _)); [done|lia|unfold paseto_lifetime in Ht; lia].
Qed.

(** An assertion is the text of its claims; the one key verifies those with an expiry. *)
Definition demo_jwt (c : AssertionClaims) : string := demo_text c.
Definition demo_claims (jwt : string) : AssertionClaims :=
  match demo_parse AssertionClaims jwt with
  | Some c => if bool_decide (0 <= default 0 (as_exp c) < 2 ^ 64) then c else mkAssertion "" "" None None None None None
  | None => mkAssertion "" "" None None None None None
  end.
#[export] Instance demo_jwt_lib : JwtLib := {|
  decode_header _ := Ok ES256;
  jwt_decode now jwt k _ :=
    match k, as_exp (demo_claims jwt) with FromEcDer [1], Some _ => Ok (demo_claims jwt) | _, _ => Err "signature" end;
  pem_parse s := if bool_decide (s = "key") then Some ("PUBLIC KEY", [1]) else None;
  policy_to_vec p := Some (demo_encode p);
  policy_from_slice l := demo_decode ServiceOAuthPolicy l;
|}.
#[export] Instance demo_jwt_laws : JwtLaws demo_jwt_lib.
Proof.
  refine {| jwt_claims := demo_claims |}.
  - intros now jwt k v c. cbn. destruct k as [d|[|[|[]|] [|]]]; try done. by destruct (as_exp (demo_claims jwt)); intros [= <-].
  - intros jwt e. unfold demo_claims. destruct (demo_parse AssertionClaims jwt) as [c|]; [|done].
    case_bool_decide as Hb; [|done]. intros He. rewrite He in Hb. exact Hb.
Defined.

#[export] Instance demo_schemes : ChallengeSchemes := {|
  verify_challenge_ecdsa challenge signature _ := Ok (bool_decide (signature = challenge));
  verify_challenge_sr25519 challenge signature _ := Ok (bool_decide (signature = challenge));
|}.

#[export] Instance demo_http : HttpLib := {|
  parse_header_name s := if is_valid_header_name s then Some (to_ascii_lowercase s) else None;
  parse_header_value s := Some (str_bytes s);
  Uri := string;
  parse_uri s := strip_prefix "https://" s;
  uri_scheme _ := Some "https";
  uri_authority u := Some u;
  build_uri scheme authority path := Some (scheme +:+ "://" +:+ authority +:+ path);
|}.
#[export] Instance demo_http_laws : HttpLaws demo_http.
Proof.
  split.
  - intros s n. cbn. destruct (is_valid_header_name s) eqn:Hv; [|done]. intros [= <-]. split; [done|by apply valid_name_ascii].
  - by intros s v [= <-].
Qed.

#[local] Existing Instance toy_bn254.

Definition demo_error (e : AuthError) : string := "error".
Definition demo_validation (e : ValidationError) : string := "invalid header".

(** ** A service, its owner and a key *)

Definition demo_sid : ServiceId := mkServiceId 5 0.
Definition demo_service : ServiceModel :=
  mkService "ak_" [mkOwner (key_type_number KeyEcdsa) [2; 3]] "https://upstream" None.
Definition demo_policy : ServiceOAuthPolicy := mkPolicy ["iss"] [] ["key"] (Some ["Read"; "write"]) false 600 900.
Definition demo_db : Db := mkDb
  (<[(SERVICES_OAUTH_POLICY_CF, service_to_be_bytes demo_sid) := demo_encode demo_policy]>
    {[ (SERVICES_USER_KEYS_CF, service_to_be_bytes demo_sid) := demo_encode demo_service ]}) [].
Definition demo_rd (t : Z) : AuthReadings := mkReadings t t t t t t (replicate 32 9) "jti".
Definition demo_manager : PasetoTokenManager := mkManager 77 (from_secs 900).

(** The owner signs a challenge, with the given headers for the key. *)
Definition demo_request (headers : gmap string string) : VerifyChallengeRequest :=
  mkVerifyRequest (mkChallengeRequest [2; 3] KeyEcdsa) [8; 8] [8; 8] 0 headers.
Definition demo_verify (headers : gmap string string) (db : Db) : option (Z * VerifyChallengeResponse) * Db :=
  auth_verify demo_error demo_validation (demo_rd 1000) demo_sid (demo_request headers) db.
Definition demo_key : string :=
  match (demo_verify ∅ demo_db).1 with Some (_, Verified key _) => key | _ => "" end.
Definition bearer_header (s : string) : HeaderMap := {[ "authorization" := [str_bytes ("Bearer " +:+ s)] ]}.

(** A run from its result and the state it leaves *)
Lemma result_pair {A B} (p : A * B) a b : p.1 = a → p.2 = b → p = (a, b).
Proof. destruct p. by intros <- <-. Qed.

Lemma issued_key_works_witness :
  let run := demo_verify ∅ demo_db in
  ∃ expires, run.1 = Some (CREATED, Verified demo_key expires) ∧
    (extract_and_validate_auth (demo_rd 2000) demo_manager (bearer_header demo_key) run.2).1
    = Ok (demo_sid, process_headers_with_pii_protection ∅).
Proof.
  intros run. exists (1000 + NINETY_DAYS). split; [by vm_compute|].
  destruct (issued_key_works demo_error demo_validation (demo_rd 1000) demo_sid (demo_request ∅) demo_db
    CREATED demo_key (1000 + NINETY_DAYS) run.2) as (service & headers & kid & _ & _ & _ & _ & Hh & Hw).
  - apply result_pair; [by vm_compute|done].
  - assert (service_at (db_data demo_db) demo_sid = Some demo_service) as -> by (by vm_compute).
    intros s [= <-]. split; by repeat constructor.
  - assert (validate_headers (vc_additional_headers (demo_request ∅)) = Ok ∅) as He by (by vm_compute).
    rewrite He in Hh. injection Hh as <-. apply Hw; [by vm_compute..|reflexivity].
Defined.

(** The database with the demo key *)
Definition demo_keyed : Db := (demo_verify ∅ demo_db).2.

Lemma proxy_authenticated_witness :
  let run := unified_proxy 16384 (demo_rd 2000) demo_manager None false "/path" (bearer_header demo_key) demo_keyed in
  run.1 = Ok (mkForwarded demo_sid "https://upstream/path" ∅ false true) ∧
  ∃ credential additional, bearer (bearer_header demo_key) = Some credential ∧
    authenticates (demo_rd 2000) demo_manager (db_data demo_keyed) credential demo_sid additional.
Proof.
  intros run. split; [by vm_compute|].
  destruct (proxy_authenticated 16384 (demo_rd 2000) demo_manager None false "/path" (bearer_header demo_key) demo_keyed
    (mkForwarded demo_sid "https://upstream/path" ∅ false true) run.2) as (c & add & _ & _ & Hb & Ha & _).
  - apply result_pair; [by vm_compute|done].
  - by exists c, add.
Defined.

Definition demo_exchange (key : string) (t : Z) (headers : gmap string string) (ttl : option Z) (db : Db)
    : (Z * ExchangeResponse) * Db :=
  auth_exchange (demo_rd t) demo_manager (bearer_header key) (mkExchange headers ttl) db.
Definition exchanged_token (r : Z * ExchangeResponse) : string :=
  match r with (_, Exchanged token _ _) => token | _ => "" end.

Lemma exchange_keeps_identity_witness :
  let run := demo_exchange demo_key 2000 ∅ None demo_keyed in
  ∃ model headers, valid_key 2000 (db_data demo_keyed) demo_key model ∧
    (extract_and_validate_auth (demo_rd 2100) demo_manager (bearer_header (exchanged_token run.1)) demo_db).1
    = Ok (key_service_id model, process_headers_with_pii_protection headers).
Proof.
  intros run.
  destruct (exchange_keeps_identity (demo_rd 2000) demo_manager (bearer_header demo_key) (mkExchange ∅ None) demo_keyed
    (exchanged_token run.1) 2900 900 run.2) as (key & model & headers & Hb & Hv & _ & _ & Hw).
  - apply result_pair; [by vm_compute|done].
  - assert (bearer (bearer_header demo_key) = Some demo_key) as Hd by (by vm_compute).
    rewrite Hd in Hb. injection Hb as <-. exists model, headers. split; [exact Hv|].
    rewrite (Hw (demo_rd 2100) demo_db (bearer_header (exchanged_token run.1))); [done| | |]; by vm_compute.
Defined.

(** *** Assertions *)

Definition demo_assertion (scope : option string) : string :=
  demo_jwt (mkAssertion "iss" "alice" None (Some 900) (Some 1100) (Some "a1") scope).
Definition demo_form (scope : option string) : gmap string string :=
  {[ "grant_type" := JWT_BEARER; "assertion" := demo_assertion scope ]}.
Definition demo_service_header : HeaderMap := {[ "x-service-id" := [str_bytes "5:0"] ]}.
Definition demo_oauth_rd (t : Z) : OauthReadings := mkOauthReadings t t t (demo_rd t).
Definition demo_oauth (t : Z) (scope : option string) (db : Db) : result (Z * OauthError) (string * Z * Z) * Db :=
  oauth_token demo_validation (demo_oauth_rd t) demo_manager demo_service_header (demo_form scope) db.
Definition granted_token {E} (r : result E (string * Z * Z)) : string :=
  match r with Ok (t, _, _) => t | Err _ => "" end.

Lemma granted_token_ok {E} (r : result E (string * Z * Z)) e l :
  match r with Ok (_, e', l') => (e' =? e) && (l' =? l) | Err _ => false end = true → r = Ok (granted_token r, e, l).
Proof. destruct r as [[[t e'] l']|]; [|done]. intros [->%Z.eqb_eq ->%Z.eqb_eq]%andb_prop. done. Qed.

(** The first half of the example's request, and the second *)
Definition demo_begun : result (Z * OauthError) Exchanging * Db :=
  oauth_begin (demo_oauth_rd 1000) demo_service_header (demo_form None) demo_db.
Definition demo_exchanging : Exchanging :=
  mkExchanging demo_sid demo_policy (jwt_claims (demo_assertion None)) "a1".
Definition demo_finished (db : Db) : result (Z * OauthError) (string * Z * Z) * Db :=
  oauth_finish demo_validation (demo_rd 1000) demo_manager demo_exchanging db.
Lemma demo_begun_ok : demo_begun.1 = Ok demo_exchanging.
Proof. by vm_compute. Qed.

Lemma assertion_used_once_witness :
  (demo_finished demo_begun.2).1 = Ok (granted_token (demo_finished demo_begun.2).1, 1600, 600) ∧
  ∃ refusal, (oauth_begin (demo_oauth_rd 1001) demo_service_header (demo_form None) (demo_finished demo_begun.2).2).1 = Err refusal.
Proof.
  assert ((demo_finished demo_begun.2).1 = Ok (granted_token (demo_finished demo_begun.2).1, 1600, 600)) as Hok
    by (apply granted_token_ok; by vm_compute).
  split; [exact Hok|].
  apply (assertion_used_once demo_error demo_validation (demo_rd 1000) demo_manager demo_exchanging demo_db demo_begun.2 [] []
    (granted_token (demo_finished demo_begun.2).1, 1600, 600) (demo_finished demo_begun.2).2 (demo_assertion None)
    (mkProxy (demo_finished demo_begun.2).2 [])).
  - apply rtc_once. pose proof (step_oauth_begin demo_error demo_validation (demo_oauth_rd 1000) demo_service_header
      (demo_form None) demo_db []) as H. fold demo_begun in H. rewrite demo_begun_ok in H. exact H.
  - done.
  - by vm_compute.
  - constructor.
  - apply result_pair; [exact Hok|done].
  - apply rtc_refl.
  - done.
Defined.

(** Two requests with one assertion whose halves overlap are both granted a token. *)
Lemma overlapping_exchanges :
  let second := oauth_begin (demo_oauth_rd 1000) demo_service_header (demo_form None) demo_begun.2 in
  second.1 = Ok demo_exchanging ∧
  is_Ok (demo_finished second.2).1 ∧ is_Ok (demo_finished (demo_finished second.2).2).1.
Proof. cbv zeta. split; [by vm_compute|]. split; eexists; apply (granted_token_ok _ 1600 600); by vm_compute. Qed.

Lemma oauth_grants_allowed_witness :
  let run := demo_oauth 1000 (Some "READ admin") demo_db in
  ∃ headers,
    (extract_and_validate_auth (demo_rd 1100) demo_manager (bearer_header (granted_token run.1)) demo_db).1
    = Ok (demo_sid, headers) ∧ headers !! "x-tenant-id" = Some (hash_user_id "alice").
Proof.
  intros run.
  destruct (oauth_grants_allowed demo_validation (demo_oauth_rd 1000) demo_manager demo_service_header
    (demo_form (Some "READ admin")) demo_db (granted_token run.1) 1600 600 run.2)
    as (id & a & policy & c & Hid & Ha & Hp & Hg & Hw).
  - apply result_pair; [apply granted_token_ok; by vm_compute|done].
  - assert (oauth_service_id demo_service_header = Some demo_sid) as Hid' by (by vm_compute).
    rewrite Hid' in Hid. injection Hid as <-.
    assert (policy_at (db_data demo_db) demo_sid = Some demo_policy) as Hp' by (by vm_compute).
    rewrite Hp' in Hp. injection Hp as <-.
    assert (a = demo_assertion (Some "READ admin")) as -> by (by injection Ha as <-).
    apply good_assertion_claims in Hg.
    assert (as_sub c = "alice") as Hsub by (rewrite Hg; by vm_compute).
    destruct (Hw (demo_rd 1100) (bearer_header (granted_token run.1)) demo_db) as (headers & He & Ht & _);
      [decide_now|by vm_compute|by vm_compute|]. exists headers. rewrite He. split; [reflexivity|].
    rewrite <-Hsub. exact Ht.
Defined.


(** ** Behaviours that the documentation does not lead one to expect *)

(** The tenant of an exchanged token is looked up under a name that validated
    headers never have. *)
Lemma exchange_has_no_tenant `{Lowercase, AuthCodec} headers v :
  validate_headers headers = Ok v → process_headers_with_pii_protection v !! "X-Tenant-Id" = None.
Proof.
  intros [Hv _]%validate_headers_spec. rewrite process_headers_lookup.
  destruct (v !! "X-Tenant-Id") as [x|] eqn:Hx; [|done]. destruct (Hv _ _ Hx) as (_ & Hl & _). done.
Qed.

(** A signature over a challenge that was never issued, used before, is accepted
    again at any time. *)
Lemma challenge_reused :
  (λ r, match r with Some (code, _) => code | None => 0 end)
    (auth_verify demo_error demo_validation (demo_rd 1000000) demo_sid (demo_request ∅) demo_keyed).1 = CREATED.
Proof. by vm_compute. Qed.

(** The owner gives the key a scope by asking for the header. *)
Definition verified_key (r : option (Z * VerifyChallengeResponse)) : string :=
  match r with Some (_, Verified key _) => key | _ => "" end.
Lemma scopes_self_granted :
  let run := demo_verify {[ "x-scopes" := "admin" ]} demo_db in
  (λ fw, fw_headers fw !! "x-scopes") <$>
    (unified_proxy 16384 (demo_rd 2000) demo_manager None false "/" (bearer_header (verified_key run.1)) run.2).1
  = Ok (Some [str_bytes "admin"]).
Proof. by vm_compute. Qed.

(** A user identifier is hashed once more when the key is exchanged. *)
Lemma user_hashed_twice :
  let run := demo_verify {[ "x-user-id" := "alice" ]} demo_db in
  let key := verified_key run.1 in
  let token := exchanged_token (demo_exchange key 2000 ∅ None run.2).1 in
  let user c := (λ p : ServiceId * gmap string string, p.2 !! "x-user-id") <$>
    (extract_and_validate_auth (demo_rd 2000) demo_manager (bearer_header c) run.2).1 in
  user key = Ok (Some (hash_user_id "alice")) ∧ user token = Ok (Some (hash_user_id (hash_user_id "alice"))) ∧
  hash_user_id (hash_user_id "alice") ≠ hash_user_id "alice".
Proof. split_and!; by vm_compute. Qed.

(** Whether a header of the request overrides the one of the key depends on the
    case of its name. *)
Lemma override_depends_on_case :
  let run := demo_verify {[ "x-role" := "reader" ]} demo_db in
  let role headers :=
    let token := exchanged_token (demo_exchange (verified_key run.1) 2000 headers None run.2).1 in
    (λ p : ServiceId * gmap string string, p.2 !! "x-role") <$>
      (extract_and_validate_auth (demo_rd 2000) demo_manager (bearer_header token) run.2).1 in
  role {[ "x-role" := "writer" ]} = Ok (Some "writer") ∧ role {[ "X-Role" := "writer" ]} = Ok (Some "reader").
Proof. split; by vm_compute. Qed.

(** The headers by which a service sees a client certificate pass from a client
    that has none. *)
Lemma certificate_headers_spoofed :
  let h := <["x-auth-method" := [str_bytes "mtls"]]> (<["x-client-cert-subject" := [str_bytes "CN=admin"]]>
    (bearer_header demo_key)) in
  (λ fw, (fw_headers fw !! "x-auth-method", fw_headers fw !! "x-client-cert-subject")) <$>
    (unified_proxy 16384 (demo_rd 2000) demo_manager None false "/" h demo_keyed).1
  = Ok (Some [str_bytes "mtls"], Some [str_bytes "CN=admin"]).
Proof. by vm_compute. Qed.

(** A token that is said to last two hours is refused after one. *)
Lemma long_token_refused :
  let run := demo_exchange demo_key 2000 ∅ (Some 7200) demo_keyed in
  (match run.1 with (_, Exchanged _ e l) => Some (e, l) | _ => None end) = Some (9200, 7200) ∧
  (extract_and_validate_auth (demo_rd 5700) demo_manager (bearer_header (exchanged_token run.1)) run.2).1
  = Err UNAUTHORIZED.
Proof. split; by vm_compute. Qed.

(** A key with a dot in its prefix is issued and never accepted. *)
Lemma dotted_prefix_unusable :
  let db := mkDb {[ (SERVICES_USER_KEYS_CF, service_to_be_bytes demo_sid) := demo_encode
    (mkService "v1.ak_" (owners demo_service) (upstream_url demo_service) None) ]} [] in
  let run := demo_verify ∅ db in
  verified_key run.1 ≠ "" ∧
  (extract_and_validate_auth (demo_rd 2000) demo_manager (bearer_header (verified_key run.1)) run.2).1 = Err UNAUTHORIZED.
Proof. split; by vm_compute. Qed.

(** A key that is deleted between the check and the update of its last use is
    back afterwards. *)
Definition demo_key_id : string := default "" (fst <$> split_once "." demo_key).
Lemma deleted_key_returns :
  match key_at (db_data demo_keyed) demo_key_id with
  | Some m =>
      let deleted := (key_delete m demo_keyed).2 in
      bool_decide (key_at (db_data deleted) demo_key_id = None) = true ∧
      bool_decide (key_at (db_data (update_last_used 2000 m deleted).2) demo_key_id = Some (set_last_used m 2000)) = true
  | None => False
  end.
Proof. vm_compute. done. Qed.

(** A request over the rate limit is served. *)
Lemma rate_limit_not_enforced :
  let key := str_bytes (bucket_key demo_service_header demo_sid (1000 / 60)) in
  let db := mkDb (<[(OAUTH_RL_CF, key) := str_bytes "120"]> (db_data demo_db)) [] in
  (rate_limit_check 1000 demo_service_header demo_sid 60 120 db).1 = Err "rate limit exceeded" ∧
  (match (demo_oauth 1000 None db).1 with Ok _ => true | Err _ => false end) = true.
Proof. split; by vm_compute. Qed.

(** A policy that allows tokens of ten seconds gets tokens of sixty. *)
Lemma short_policy_exceeded :
  let policy := mkPolicy ["iss"] [] ["key"] None false 10 900 in
  let db := mkDb {[ (SERVICES_OAUTH_POLICY_CF, service_to_be_bytes demo_sid) := demo_encode policy ]} [] in
  (match (demo_oauth 1000 None db).1 with Ok (_, e, l) => Some (e, l) | Err _ => None end) = Some (1060, 60).
Proof. by vm_compute. Qed.
