(* ===== verification/Pow.v ===== *)
(** * Proof of work ([pricing-engine/src/pow.rs])

    A client of the pricing engine shows work by a nonce whose hash with the
    challenge starts with a number of zero bits.  SHA-256 and the encoding of
    proofs ([bincode]) are parameters. *)

From Stdlib Require Import ZArith Lia.
From stdpp Require Import base gmap sets list sorting strings pretty fin_maps numbers relations.
From S2P Require Import Prelude Bytes.

#[local] Open Scope Z_scope.

Record Proof_ := mkProof { pf_hash : list Byte8; pf_nonce : Z }.

Class PowLib := {
  sha256 : list Byte8 → list Byte8;
  proof_serialize : Proof_ → result string (list Byte8);
  proof_deserialize : list Byte8 → result string Proof_;
}.
Class PowLaws (L : PowLib) := {
  sha256_bytes m : Forall is_byte (sha256 m) ∧ length (sha256 m) = 32%nat;
  proof_round_trip p : is_u64 (pf_nonce p) → ∃ bs, proof_serialize p = Ok bs ∧ proof_deserialize bs = Ok p;
  proof_nonce_u64 bs p : proof_deserialize bs = Ok p → is_u64 (pf_nonce p);
}.

Definition DEFAULT_POW_DIFFICULTY : Z := 20.

Section pow.
  Context `{L : PowLib}.

(** [calculate_hash], [generate_challenge] *)
Definition calculate_hash (challenge : list Byte8) (nonce : Z) : list Byte8 := sha256 (challenge ++ to_be_bytes 8 nonce).
Definition generate_challenge (blueprint_id timestamp : Z) : list Byte8 :=
  sha256 (to_be_bytes 8 blueprint_id ++ to_be_bytes 8 timestamp).

(** [check_difficulty]: whole bytes, then the bits of the next one; [u8] arithmetic *)
Definition check_difficulty (hash : list Byte8) (difficulty : Z) : bool :=
  let zero_bytes := Z.to_nat (difficulty / 8) in
  let zero_bits := difficulty mod 8 in
  forallb (λ i, match hash !! i with Some b => b =? 0 | None => false end) (seq 0 zero_bytes) &&
  (if 0 <? zero_bits then
     match hash !! zero_bytes with
     | Some b => Z.land b (Z.land (Z.shiftl 255 (8 - zero_bits)) 255) =? 0
     | None => false
     end
   else true).

(** The loop of [generate_proof] from a nonce, for a number of attempts *)
Fixpoint search_proof (fuel : nat) (challenge : list Byte8) (difficulty nonce : Z) : option (result string (list Byte8)) :=
  match fuel with
  | O => None
  | S fuel =>
      let hash := calculate_hash challenge nonce in
      if check_difficulty hash difficulty then Some (proof_serialize (mkProof hash nonce))
      else search_proof fuel challenge difficulty (u64_wrap (nonce + 1))
  end.

(** [generate_proof] *)
Definition generate_proof (fuel : nat) (challenge : list Byte8) (difficulty : Z) : option (result string (list Byte8)) :=
  search_proof fuel challenge difficulty 0.

(** [verify_proof] *)
Definition verify_proof (challenge proof_bytes : list Byte8) (difficulty : Z) : result string bool :=
  proof ← proof_deserialize proof_bytes;
  if negb (check_difficulty (pf_hash proof) difficulty) then Ok false
  else Ok (bool_decide (calculate_hash challenge (pf_nonce proof) = pf_hash proof)).

End pow.

(** ** Difficulty *)

(** The first bits of a string of bytes, the highest of each byte first *)
Definition bit_at (hash : list Byte8) (i : Z) : option bool :=
  b ← hash !! Z.to_nat (i / 8); Some (Z.testbit b (7 - i mod 8)).

Lemma mask_zero b k :
  is_byte b → 0 < k < 8 →
  Z.land b (Z.land (Z.shiftl 255 (8 - k)) 255) = 0 ↔ ∀ j, 0 ≤ j < k → Z.testbit b (7 - j) = false.
Proof.
  intros Hb Hk. assert (∀ i, 0 ≤ i → Z.testbit (Z.land (Z.shiftl 255 (8 - k)) 255) i = (8 - k <=? i) && (i <? 8)) as Hm.
  { intros i Hi. rewrite Z.land_spec, Z.shiftl_spec by done.
    assert (∀ j, Z.testbit 255 j = (0 <=? j) && (j <? 8)) as H255.
    { intros j. destruct (Z.ltb_spec j 0) as [Hj|Hj]; [rewrite Z.testbit_neg_r by done; by destruct (Z.leb_spec 0 j); [lia|]|].
      change 255 with (Z.ones 8). rewrite Z.testbit_ones by lia. done. }
    rewrite !H255. destruct (Z.leb_spec (8 - k) i), (Z.leb_spec 0 (i - (8 - k))), (Z.ltb_spec (i - (8 - k)) 8),
      (Z.leb_spec 0 i), (Z.ltb_spec i 8); try lia; done. }
  split.
  - intros Hz j Hj. pose proof (f_equal (λ z, Z.testbit z (7 - j)) Hz) as Ht. cbn in Ht.
    rewrite Z.land_spec, Hm, Z.testbit_0_l in Ht by lia.
    rewrite (proj2 (Z.leb_le _ _)), (proj2 (Z.ltb_lt _ _)), andb_true_r in Ht by lia. done.
  - intros Hj. apply Z.bits_inj'. intros i Hi. rewrite Z.land_spec, Hm, Z.testbit_0_l by done.
    destruct (Z.leb_spec (8 - k) i) as [H1|H1], (Z.ltb_spec i 8) as [H2|H2]; cbn; rewrite ?andb_false_r; try done.
    specialize (Hj (7 - i)). replace (7 - (7 - i)) with i in Hj by lia. rewrite Hj by lia. done.
Qed.

Lemma byte_zero b : is_byte b → b = 0 ↔ ∀ j, 0 ≤ j < 8 → Z.testbit b (7 - j) = false.
Proof.
  unfold is_byte. intros Hb. split; [intros ->; intros; apply Z.testbit_0_l|]. intros Hj. apply Z.bits_inj'. intros i Hi.
  rewrite Z.testbit_0_l. destruct (Z.ltb_spec i 8).
  - specialize (Hj (7 - i)). replace (7 - (7 - i)) with i in Hj by lia. apply Hj. lia.
  - destruct (decide (b = 0)) as [->|]; [apply Z.testbit_0_l|]. apply Z.bits_above_log2; [lia|].
    apply Z.log2_lt_pow2; [lia|]. assert (2 ^ 8 ≤ 2 ^ i) by (apply Z.pow_le_mono_r; lia). lia.
Qed.

(** The test is exactly that so many leading bits are there and zero. *)
Lemma check_difficulty_spec hash d :
  Forall is_byte hash → 0 ≤ d →
  check_difficulty hash d = true ↔ ∀ i, 0 ≤ i < d → bit_at hash i = Some false.
Proof.
  intros Hb Hd. unfold check_difficulty. rewrite andb_true_iff, forallb_forall.
  pose proof (Z.div_mod d 8 ltac:(lia)) as Hdm. pose proof (Z.mod_pos_bound d 8 ltac:(lia)) as Hm.
  assert (0 ≤ d / 8) as Hq by (apply Z.div_pos; lia).
  assert (∀ k b, hash !! k = Some b → is_byte b) as Hbyte.
  { intros k b Hk. rewrite list.Forall_lookup in Hb. by apply (Hb k). }
  split.
  - intros [Hw Hp] i Hi. unfold bit_at. pose proof (Z.div_mod i 8 ltac:(lia)). pose proof (Z.mod_pos_bound i 8 ltac:(lia)).
    assert (0 ≤ i / 8) by (apply Z.div_pos; lia). destruct (decide (i / 8 < d / 8)) as [Hlt|Hge].
    + specialize (Hw (Z.to_nat (i / 8))). destruct (hash !! Z.to_nat (i / 8)) as [b|] eqn:Hk.
      * assert (b =? 0 = true) as Hzero%Z.eqb_eq by (apply Hw, in_seq; lia). cbn. f_equal.
        apply byte_zero; [by eapply Hbyte|done|lia].
      * assert (false = true) by (apply Hw, in_seq; lia). done.
    + assert (i / 8 = d / 8) as Heq by (assert (i / 8 ≤ d / 8) by (apply Z.div_le_mono; lia); lia). rewrite Heq.
      destruct (Z.ltb_spec 0 (d mod 8)) as [Hpos|]; [|lia].
      destruct (hash !! Z.to_nat (d / 8)) as [b|] eqn:Hk; [|done]. cbn. f_equal.
      apply Z.eqb_eq in Hp. apply (mask_zero b (d mod 8)); [by eapply Hbyte|lia|done|lia].
  - intros Hall. split.
    + intros k Hk%in_seq. assert (∀ j, 0 ≤ j < 8 → bit_at hash (8 * Z.of_nat k + j) = Some false) as Hj
        by (intros j Hj; apply Hall; lia).
      destruct (hash !! k) as [b|] eqn:Hkb.
      * apply Z.eqb_eq, byte_zero; [by eapply Hbyte|]. intros j Hjr. specialize (Hj j Hjr). unfold bit_at in Hj.
        replace ((8 * Z.of_nat k + j) / 8) with (Z.of_nat k) in Hj by div_lia.
        replace ((8 * Z.of_nat k + j) mod 8) with j in Hj by div_lia. rewrite Nat2Z.id, Hkb in Hj. by injection Hj.
      * specialize (Hj 0 ltac:(lia)). unfold bit_at in Hj. replace ((8 * Z.of_nat k + 0) / 8) with (Z.of_nat k) in Hj by div_lia.
        by rewrite Nat2Z.id, Hkb in Hj.
    + destruct (Z.ltb_spec 0 (d mod 8)) as [Hpos|]; [|done].
      assert (∀ j, 0 ≤ j < d mod 8 → bit_at hash (8 * (d / 8) + j) = Some false) as Hj by (intros j Hj; apply Hall; lia).
      destruct (hash !! Z.to_nat (d / 8)) as [b|] eqn:Hkb.
      * apply Z.eqb_eq, mask_zero; [by eapply Hbyte|lia|]. intros j Hjr. specialize (Hj j Hjr). unfold bit_at in Hj.
        replace ((8 * (d / 8) + j) / 8) with (d / 8) in Hj by div_lia.
        replace ((8 * (d / 8) + j) mod 8) with j in Hj by div_lia. rewrite Hkb in Hj. by injection Hj.
      * specialize (Hj 0 ltac:(lia)). unfold bit_at in Hj.
        replace ((8 * (d / 8) + 0) / 8) with (d / 8) in Hj by div_lia. by rewrite Hkb in Hj.
Qed.

(** ** Proofs *)

Section laws.
  Context `{L : PowLib} `{LL : !PowLaws L}.

Lemma verify_proof_ok challenge bytes d :
  verify_proof challenge bytes d = Ok true ↔
  ∃ p, proof_deserialize bytes = Ok p ∧ pf_hash p = calculate_hash challenge (pf_nonce p) ∧
    check_difficulty (pf_hash p) d = true.
Proof.
  unfold verify_proof. destruct (proof_deserialize bytes) as [p|e]; simpl.
  - destruct (check_difficulty (pf_hash p) d) eqn:Hc; simpl.
    + split; [intros [= Hb%bool_decide_eq_true_1]; by exists p|]. intros (p' & [= <-] & Hh & _). f_equal. by apply bool_decide_true.
    + split; [done|]. intros (p' & [= <-] & _ & Hc'). congruence.
  - split; [done|]. by intros (p' & ? & _).
Qed.

Lemma search_proof_finds n fuel challenge d nonce :
  0 ≤ nonce → (n < fuel)%nat → nonce + Z.of_nat n < 2 ^ 64 →
  check_difficulty (calculate_hash challenge (nonce + Z.of_nat n)) d = true →
  ∃ k bytes, nonce ≤ k ≤ nonce + Z.of_nat n ∧ search_proof fuel challenge d nonce = Some (Ok bytes) ∧
    proof_deserialize bytes = Ok (mkProof (calculate_hash challenge k) k) ∧
    check_difficulty (calculate_hash challenge k) d = true ∧
    (∀ j, nonce ≤ j < k → check_difficulty (calculate_hash challenge j) d = false).
Proof.
  revert fuel nonce. induction n as [|n IH]; intros [|fuel] nonce H0 Hf Hr Hc; try lia; cbn [search_proof].
  - replace (nonce + Z.of_nat 0) with nonce in Hc by lia. rewrite Hc.
    destruct (proof_round_trip (mkProof (calculate_hash challenge nonce) nonce)) as (bs & Hs & Hd); [unfold is_u64; cbn; lia|].
    exists nonce, bs. rewrite Hs. split_and!; [lia|lia|done..|]. intros; lia.
  - destruct (check_difficulty (calculate_hash challenge nonce) d) eqn:Hn.
    + destruct (proof_round_trip (mkProof (calculate_hash challenge nonce) nonce)) as (bs & Hs & Hd); [unfold is_u64; cbn; lia|].
      exists nonce, bs. rewrite Hs. split_and!; [lia|lia|done..|]. intros; lia.
    + rewrite u64_wrap_small by (unfold is_u64; lia).
      destruct (IH fuel (nonce + 1)) as (k & bs & Hk & Hs & Hd & Hck & Hmin); [lia|lia|lia| |].
      { replace (nonce + 1 + Z.of_nat n) with (nonce + Z.of_nat (S n)) by lia. done. }
      exists k, bs. split_and!; [lia|lia|done..|]. intros j Hj. destruct (decide (j = nonce)) as [->|]; [done|].
      apply Hmin. lia.
Qed.

Lemma search_proof_det f1 f2 challenge d m b1 b2 :
  search_proof f1 challenge d m = Some (Ok b1) → search_proof f2 challenge d m = Some (Ok b2) → b2 = b1.
Proof.
  revert f2 m. induction f1 as [|f1 IH]; intros [|f2] m; cbn [search_proof]; try done.
  destruct (check_difficulty _ d); [intros; congruence|apply IH].
Qed.

Lemma generate_proof_ends fuel challenge d n :
  0 ≤ n < 2 ^ 64 → (Z.to_nat n < fuel)%nat → check_difficulty (calculate_hash challenge n) d = true →
  ∃ bytes, generate_proof fuel challenge d = Some (Ok bytes).
Proof.
  intros Hn Hf Hc. destruct (search_proof_finds (Z.to_nat n) fuel challenge d 0) as (k & bs & _ & Hs & _);
    [lia|done|lia|by replace (0 + Z.of_nat (Z.to_nat n)) with n by lia|]. by exists bs.
Qed.

(** If some nonce shows enough work, [generate_proof] ends, with the least one,
    and its proof verifies for the challenge; the hash of a proof that verifies
    starts with as many zero bits as the difficulty says. *)
Theorem proof_generated challenge d n :
  0 ≤ n < 2 ^ 64 → check_difficulty (calculate_hash challenge n) d = true →
  ∃ bytes, (∀ fuel, (Z.to_nat n < fuel)%nat → generate_proof fuel challenge d = Some (Ok bytes)) ∧
    verify_proof challenge bytes d = Ok true ∧
    ∃ p, proof_deserialize bytes = Ok p ∧ pf_nonce p ≤ n ∧
      (∀ j, 0 ≤ j < pf_nonce p → check_difficulty (calculate_hash challenge j) d = false) ∧
      (0 ≤ d → ∀ i, 0 ≤ i < d → bit_at (pf_hash p) i = Some false).
Proof.
  intros Hn Hc.
  assert (∀ fuel, (Z.to_nat n < fuel)%nat → ∃ k bytes, 0 ≤ k ≤ n ∧ generate_proof fuel challenge d = Some (Ok bytes) ∧
    proof_deserialize bytes = Ok (mkProof (calculate_hash challenge k) k) ∧
    check_difficulty (calculate_hash challenge k) d = true ∧
    ∀ j, 0 ≤ j < k → check_difficulty (calculate_hash challenge j) d = false) as Hfind.
  { intros fuel Hf. destruct (search_proof_finds (Z.to_nat n) fuel challenge d 0) as (k & bs & Hk & Hrest);
      [lia|done|lia|by replace (0 + Z.of_nat (Z.to_nat n)) with n by lia|]. exists k, bs. split; [lia|done]. }
  destruct (Hfind (S (Z.to_nat n)) ltac:(lia)) as (k & bs & Hk & Hg & Hd & Hck & Hmin).
  exists bs. split_and!.
  - intros fuel Hf. destruct (Hfind fuel Hf) as (k' & bs' & Hk' & Hg' & Hd' & Hck' & Hmin'). rewrite Hg'. f_equal. f_equal.
    assert (k' = k) as ->.
    { destruct (Z.lt_trichotomy k' k) as [Hlt|[?|Hlt]]; [|done|]; [rewrite Hmin in Hck' by lia|rewrite Hmin' in Hck by lia]; done. }
    by eapply search_proof_det.
  - apply verify_proof_ok. eexists. split; [done|]. done.
  - eexists. split; [done|]. cbn. split_and!; [lia|done|]. intros Hd0. apply check_difficulty_spec; [apply sha256_bytes|done|done].
Qed.

End laws.

(** ** A run *)

(** A hash that copies the bytes of the nonce, and proofs as their hash and nonce *)
Definition demo_pow : PowLib := {|
  sha256 m := take 32 (((λ b, b mod 256) <$> reverse m) ++ replicate 32 0);
  proof_serialize p := Ok (pf_nonce p :: pf_hash p);
  proof_deserialize l :=
    match l with
    | n :: h => if bool_decide (0 <= n < 2 ^ 64) then Ok (mkProof h n) else Err "nonce"
    | [] => Err "empty"
    end;
|}.
#[export] Instance demo_pow_laws : PowLaws demo_pow.
Proof.
  split.
  - intros m. cbn [sha256 demo_pow]. split.
    + apply Forall_take, Forall_app. split; [|apply Forall_replicate; by vm_compute].
      apply Forall_fmap, list.Forall_true. intros b. unfold is_byte. cbn. apply Z.mod_pos_bound. lia.
    + rewrite length_take, length_app, length_replicate. lia.
  - intros [h n] Hn. eexists. split; [done|]. cbn [proof_deserialize demo_pow pf_hash pf_nonce]. by rewrite bool_decide_true.
  - intros [|n h] p; cbn [proof_deserialize demo_pow]; [done|]. case_bool_decide as Hn; [|done]. by intros [= <-].
Qed.

Lemma proof_generated_witness :
  ∃ bytes, generate_proof (L := demo_pow) 20 [1; 2] 4 = Some (Ok bytes) ∧
    verify_proof (L := demo_pow) [1; 2] bytes 4 = Ok true.
Proof.
  destruct (proof_generated (L := demo_pow) [1; 2] 4 15) as (bytes & Hg & Hv & _); [lia|by vm_compute|].
  exists bytes. split; [apply Hg; vm_compute; lia|done].
Defined.
