(* ===== verification/JobQuote.v ===== *)
(** * Signed job quotes ([tangle-extra/src/job_quote.rs])

    An operator signs the price of one job for one requester and one input; the
    signed digest follows EIP-712.  Keccak-256 and the ECDSA library are
    parameters. *)

From Stdlib Require Import ZArith Lia.
From stdpp Require Import base gmap sets list sorting strings pretty fin_maps numbers relations.
From S2P Require Import Prelude Bytes EvmLog.

#[local] Open Scope Z_scope.

(** ** Libraries *)

Class K256Lib := {
  K256SigningKey : Type;
  K256VerifyingKey : Type;
  quote_keccak : list Byte8 → list Byte8;
  verifying_key : K256SigningKey → K256VerifyingKey;
  alloy_address : K256SigningKey → result string (list Byte8);
  sign_prehash_recoverable : K256SigningKey → list Byte8 → result string (list Byte8 * Z);
  verify_prehash : K256VerifyingKey → list Byte8 → list Byte8 → bool;
}.

(** A digest of 32 bytes is signed by 64 bytes and a recovery bit, which verify. *)
Class K256Laws (L : K256Lib) := {
  quote_keccak_length m : length (quote_keccak m) = 32%nat;
  sign_prehash_ok k digest : length digest = 32%nat →
    ∃ s r, sign_prehash_recoverable k digest = Ok (s, r) ∧ length s = 64%nat ∧ (r = 0 ∨ r = 1) ∧
      verify_prehash (verifying_key k) digest s = true;
}.

(** ** Data *)

Inductive JobQuoteError := QuoteSigning (e : string).

Inductive Confidentiality := ConfAny | ConfRequired | ConfPreferred.

(** [u8::from], [Confidentiality::try_from] *)
Definition confidentiality_u8 (c : Confidentiality) : Z :=
  match c with ConfAny => 0 | ConfRequired => 1 | ConfPreferred => 2 end.
Definition confidentiality_try_from (value : Z) : result JobQuoteError Confidentiality :=
  if value =? 0 then Ok ConfAny
  else if value =? 1 then Ok ConfRequired
  else if value =? 2 then Ok ConfPreferred
  else Err (QuoteSigning ("invalid confidentiality level: " +:+ pretty value +:+ " (expected 0, 1, or 2)")).

Record JobQuoteDetails := mkJobQuote {
  jq_requester : list Byte8;
  jq_service_id : Z;
  jq_job_index : Z;
  jq_price : Z;
  jq_timestamp : Z;
  jq_expiry : Z;
  jq_confidentiality : Z;
  jq_inputs_hash : list Byte8;
}.

(** [JobQuoteDetails::confidentiality_level] *)
Definition confidentiality_level (d : JobQuoteDetails) : option Confidentiality :=
  result_ok (confidentiality_try_from (jq_confidentiality d)).

Record SignedJobQuote := mkSignedJobQuote {
  sq_details : JobQuoteDetails;
  sq_signature : list Byte8;
  sq_recovery_id : Z;
  sq_operator : list Byte8;
}.

Record QuoteSigningDomain := mkDomain { chain_id : Z; verifying_contract : list Byte8 }.

(** [ITangleTypes::SignedJobQuote], as it is submitted *)
Record OnChainQuote := mkOnChain { oc_details : JobQuoteDetails; oc_signature : list Byte8; oc_operator : list Byte8 }.

Section quote.
  Context `{L : K256Lib}.

(** ** Digests *)

Definition DOMAIN_TYPEHASH_STR : string :=
  "EIP712Domain(string name,string version,uint256 chainId,address verifyingContract)".
Definition JOB_QUOTE_TYPEHASH_STR : string :=
  "JobQuoteDetails(address requester,uint64 serviceId,uint8 jobIndex,uint256 price,uint64 timestamp,uint64 expiry,uint8 confidentiality,bytes32 inputsHash)".

(** What [compute_domain_separator] and [hash_job_quote_details] hash *)
Definition domain_encoding (d : QuoteSigningDomain) : list Byte8 :=
  quote_keccak (str_bytes DOMAIN_TYPEHASH_STR) ++ quote_keccak (str_bytes "TangleQuote") ++ quote_keccak (str_bytes "1")
  ++ word (chain_id d) ++ address_word (verifying_contract d).
Definition details_encoding (d : JobQuoteDetails) : list Byte8 :=
  quote_keccak (str_bytes JOB_QUOTE_TYPEHASH_STR) ++ address_word (jq_requester d) ++ word (jq_service_id d)
  ++ word (jq_job_index d) ++ word (jq_price d) ++ word (jq_timestamp d) ++ word (jq_expiry d)
  ++ word (jq_confidentiality d) ++ jq_inputs_hash d.

(** [compute_domain_separator], [hash_job_quote_details] *)
Definition compute_domain_separator (d : QuoteSigningDomain) : list Byte8 := quote_keccak (domain_encoding d).
Definition hash_job_quote_details (d : JobQuoteDetails) : list Byte8 := quote_keccak (details_encoding d).

(** [job_quote_digest_eip712] *)
Definition digest_payload (d : JobQuoteDetails) (dom : QuoteSigningDomain) : list Byte8 :=
  [25; 1] ++ compute_domain_separator dom ++ hash_job_quote_details d.
Definition job_quote_digest_eip712 (d : JobQuoteDetails) (dom : QuoteSigningDomain) : list Byte8 :=
  quote_keccak (digest_payload d dom).

(** ** Signing *)

Record JobQuoteSigner := mkSigner { qs_keypair : K256SigningKey; qs_operator : list Byte8; qs_domain : QuoteSigningDomain }.

(** [JobQuoteSigner::new], [JobQuoteSigner::sign] *)
Definition job_signer_new (k : K256SigningKey) (dom : QuoteSigningDomain) : result JobQuoteError JobQuoteSigner :=
  operator ← map_err (λ e, QuoteSigning ("Failed to derive operator address: " +:+ e)) (alloy_address k);
  Ok (mkSigner k operator dom).
Definition job_signer_sign (s : JobQuoteSigner) (d : JobQuoteDetails) : result JobQuoteError SignedJobQuote :=
  let digest := job_quote_digest_eip712 d (qs_domain s) in
  p ← map_err (λ e, QuoteSigning ("ECDSA signing failed: " +:+ e)) (sign_prehash_recoverable (qs_keypair s) digest);
  let '(signature, recovery_id) := p in
  Ok (mkSignedJobQuote d signature recovery_id (qs_operator s)).

(** [verify_job_quote] *)
Definition verify_job_quote (q : SignedJobQuote) (public_key : K256VerifyingKey) (dom : QuoteSigningDomain) : bool :=
  verify_prehash public_key (job_quote_digest_eip712 (sq_details q) dom) (sq_signature q).

(** [ITangleTypes::SignedJobQuote::from] *)
Definition on_chain_quote (q : SignedJobQuote) : OnChainQuote :=
  mkOnChain (sq_details q) (sq_signature q ++ [27 + sq_recovery_id q]) (sq_operator q).

(** ** Theorems *)

Definition quote_wf (d : JobQuoteDetails) : Prop :=
  length (jq_requester d) = 20%nat ∧ is_u64 (jq_service_id d) ∧ is_byte (jq_job_index d) ∧
  0 ≤ jq_price d < 2 ^ 256 ∧ is_u64 (jq_timestamp d) ∧ is_u64 (jq_expiry d) ∧ is_byte (jq_confidentiality d) ∧
  length (jq_inputs_hash d) = 32%nat.
Definition domain_wf (d : QuoteSigningDomain) : Prop :=
  is_u64 (chain_id d) ∧ length (verifying_contract d) = 20%nat.

(** Two of the messages that are hashed collide. *)
Definition digest_collision (d d' : JobQuoteDetails) (dom dom' : QuoteSigningDomain) : Prop :=
  ∃ m m', (m, m') ∈ [(digest_payload d dom, digest_payload d' dom'); (domain_encoding dom, domain_encoding dom');
                     (details_encoding d, details_encoding d')] ∧ m ≠ m' ∧ quote_keccak m = quote_keccak m'.

Lemma word_inj x y : 0 ≤ x < 2 ^ 256 → 0 ≤ y < 2 ^ 256 → word x = word y → x = y.
Proof. intros Hx Hy. by apply to_be_bytes_inj. Qed.

Lemma word_app_inj x y l l' :
  0 ≤ x < 2 ^ 256 → 0 ≤ y < 2 ^ 256 → word x ++ l = word y ++ l' → x = y ∧ l = l'.
Proof.
  intros Hx Hy Heq. apply app_inj_1 in Heq as [Hw ->]; [|by unfold word; rewrite !length_to_be_bytes].
  split; [by apply word_inj|done].
Qed.

Lemma address_app_inj a b l l' : length a = length b → address_word a ++ l = address_word b ++ l' → a = b ∧ l = l'.
Proof.
  unfold address_word. rewrite <-!app_assoc. intros Hl Heq. apply app_inv_head in Heq. by apply app_inj_1 in Heq.
Qed.

Lemma details_encoding_inj d d' : quote_wf d → quote_wf d' → details_encoding d = details_encoding d' → d = d'.
Proof.
  assert (∀ x, is_u64 x → 0 ≤ x < 2 ^ 256) as H64 by (unfold is_u64; intros; split; [lia|]; transitivity (2 ^ 64); lia).
  assert (∀ x, is_byte x → 0 ≤ x < 2 ^ 256) as H8 by (unfold is_byte; lia).
  intros (Hr & Hs & Hj & Hp & Ht & He & Hc & Hi) (Hr' & Hs' & Hj' & Hp' & Ht' & He' & Hc' & Hi').
  unfold details_encoding. intros Heq. apply app_inv_head in Heq.
  apply address_app_inj in Heq as [Hq1 Heq]; [|congruence].
  apply word_app_inj in Heq as [Hq2 Heq]; [|auto..]. apply word_app_inj in Heq as [Hq3 Heq]; [|auto..].
  apply word_app_inj in Heq as [Hq4 Heq]; [|auto..]. apply word_app_inj in Heq as [Hq5 Heq]; [|auto..].
  apply word_app_inj in Heq as [Hq6 Heq]; [|auto..]. apply word_app_inj in Heq as [Hq7 Heq]; [|auto..].
  destruct d, d'. cbn in *. congruence.
Qed.

Lemma domain_encoding_inj dom dom' : domain_wf dom → domain_wf dom' → domain_encoding dom = domain_encoding dom' → dom = dom'.
Proof.
  intros (Hc & Hv) (Hc' & Hv'). unfold domain_encoding. intros Heq. do 3 apply app_inv_head in Heq.
  apply word_app_inj in Heq as [Hq Heq]; [|unfold is_u64 in *; split; [lia|transitivity (2 ^ 64); lia]..].
  unfold address_word in Heq. apply app_inv_head in Heq. destruct dom, dom'. cbn in *. congruence.
Qed.

(** The signed digest of a job quote binds all of it: two quotes with the same
    digest agree in the requester, the service, the job, the price, the times, the
    confidentiality, the inputs and the domain, unless the messages that were
    hashed for them are a collision of the hash. *)
Theorem job_quote_digest_binds `{LL : !K256Laws L} d d' dom dom' :
  quote_wf d → quote_wf d' → domain_wf dom → domain_wf dom' →
  job_quote_digest_eip712 d dom = job_quote_digest_eip712 d' dom' →
  (d = d' ∧ dom = dom') ∨ digest_collision d d' dom dom'.
Proof.
  intros Hd Hd' Hm Hm' Heq. unfold digest_collision.
  destruct (decide (digest_payload d dom = digest_payload d' dom')) as [Hp|Hp].
  2: { right. exists (digest_payload d dom), (digest_payload d' dom'). split; [by left|done]. }
  unfold digest_payload in Hp. apply app_inv_head in Hp.
  apply app_inj_1 in Hp as [Hs Hh]; [|unfold compute_domain_separator; by rewrite !quote_keccak_length].
  destruct (decide (domain_encoding dom = domain_encoding dom')) as [He|He].
  2: { right. exists (domain_encoding dom), (domain_encoding dom'). split; [by right; left|done]. }
  destruct (decide (details_encoding d = details_encoding d')) as [Hx|Hx].
  2: { right. exists (details_encoding d), (details_encoding d'). split; [by right; right; left|done]. }
  left. split; [by apply details_encoding_inj|by apply domain_encoding_inj].
Qed.

Lemma job_sign_ok `{LL : !K256Laws L} s d :
  ∃ q, job_signer_sign s d = Ok q ∧ sq_details q = d ∧ sq_operator q = qs_operator s ∧
    verify_job_quote q (verifying_key (qs_keypair s)) (qs_domain s) = true ∧
    length (sq_signature q) = 64%nat ∧ (sq_recovery_id q = 0 ∨ sq_recovery_id q = 1).
Proof.
  unfold job_signer_sign. destruct (sign_prehash_ok (qs_keypair s) (job_quote_digest_eip712 d (qs_domain s)))
    as (sig & r & Hs & Hl & Hr & Hv); [apply quote_keccak_length|]. rewrite Hs. simpl. eexists. split; [done|]. done.
Qed.

(** A signer of job quotes signs every quote; the quote verifies with its key
    and its domain, and is submitted with a signature of 65 bytes that ends in 27
    or 28. *)
Theorem job_quote_verifies `{LL : !K256Laws L} k dom s d :
  job_signer_new k dom = Ok s →
  ∃ q, job_signer_sign s d = Ok q ∧ verify_job_quote q (verifying_key k) dom = true ∧
    oc_details (on_chain_quote q) = d ∧ alloy_address k = Ok (oc_operator (on_chain_quote q)) ∧
    length (oc_signature (on_chain_quote q)) = 65%nat ∧
    (last (oc_signature (on_chain_quote q)) = Some 27 ∨ last (oc_signature (on_chain_quote q)) = Some 28).
Proof.
  unfold job_signer_new. destruct (alloy_address k) as [a|e] eqn:Ha; [|done]. intros Hs. injection Hs as <-.
  destruct (job_sign_ok (mkSigner k a dom) d) as (q & Hq & Hd & Ho & Hv & Hl & Hr). exists q. split_and!; try done.
  - cbn in Ho |- *. by rewrite Ho.
  - cbn. rewrite length_app, Hl. done.
  - cbn. rewrite last_snoc. destruct Hr as [->| ->]; [by left|by right].
Qed.

End quote.

(** [Confidentiality] and its number *)
Lemma confidentiality_round_trip c : confidentiality_try_from (confidentiality_u8 c) = Ok c.
Proof. by destruct c. Qed.

(** ** A run *)

(** The hash keeps 32 bytes; a signature repeats the digest twice. *)
#[export] Instance demo_k256 : K256Lib := {|
  K256SigningKey := Z;
  K256VerifyingKey := Z;
  quote_keccak m := take 32 (m ++ replicate 32 0);
  verifying_key k := k;
  alloy_address k := Ok (to_be_bytes 20 k);
  sign_prehash_recoverable k d := Ok (d ++ d, 1);
  verify_prehash _ d s := bool_decide (s = d ++ d);
|}.
#[export] Instance demo_k256_laws : K256Laws demo_k256.
Proof.
  split.
  - intros m. cbn [quote_keccak demo_k256]. rewrite length_take, length_app, length_replicate. lia.
  - intros k d Hd. exists (d ++ d), 1. split_and!; [done| |by right|by apply bool_decide_true].
    rewrite length_app, Hd. done.
Qed.

Definition demo_quote (price : Z) : JobQuoteDetails :=
  mkJobQuote (to_be_bytes 20 7) 1 0 price 1000 1300 0 (replicate 32 5).
Definition demo_domain : QuoteSigningDomain := mkDomain 31337 (to_be_bytes 20 1).

Definition demo_signer : JobQuoteSigner (L := demo_k256) := mkSigner (L := demo_k256) 9 (to_be_bytes 20 9) demo_domain.

Lemma job_quote_verifies_witness :
  ∃ s q, job_signer_new (L := demo_k256) 9 demo_domain = Ok s ∧ job_signer_sign s (demo_quote 100) = Ok q ∧
    verify_job_quote q (verifying_key (K256Lib := demo_k256) 9) demo_domain = true.
Proof.
  destruct (job_quote_verifies (L := demo_k256) 9 demo_domain demo_signer (demo_quote 100) eq_refl)
    as (q & Hq & Hv & _). exists demo_signer, q. done.
Defined.

(** With this hash the prices 1 and 2 of a quote collide, in the details. *)
Lemma job_quote_digest_binds_witness :
  digest_collision (L := demo_k256) (demo_quote 1) (demo_quote 2) demo_domain demo_domain.
Proof.
  destruct (job_quote_digest_binds (L := demo_k256) (demo_quote 1) (demo_quote 2) demo_domain demo_domain) as [[H _]|H];
    [..|done|exact H]; try by vm_compute.
Defined.
