(* ===== verification/Pricing.v ===== *)
(** * Prices ([pricing-engine/src/pricing.rs], [types.rs], [utils.rs],
      [benchmark_cache.rs])

    The price of a service from its measured resources and the operator's rates,
    the other pricing models, the amount that goes into a quote, and the loading
    of the price tables.  Floating-point numbers are those of IEEE 754 at their
    width; decimals are the parameter of the payment configuration with what else
    the engine uses of [rust_decimal]; a multiplication that overflows panics,
    which is [None]. *)

From Stdlib Require Import ZArith Lia Ascii SpecFloat.
From stdpp Require Import base gmap sets list sorting strings pretty fin_maps numbers relations.
From S2P Require Import Prelude Bytes Text Float X402Config.

#[local] Open Scope Z_scope.

(** ** Resources *)

Inductive ResourceUnit :=
| CPU | MemoryMB | StorageMB | NetworkEgressMB | NetworkIngressMB | GPU
| Request | Invocation | ExecutionTimeMS | StorageIOPS | CustomUnit (name : string).

#[global] Instance ResourceUnit_eq_dec : EqDecision ResourceUnit.
Proof. solve_decision. Defined.

(** [impl Display for ResourceUnit], and its debug format *)
Definition resource_display (u : ResourceUnit) : string :=
  match u with
  | CPU => "CPU" | MemoryMB => "MemoryMB" | StorageMB => "StorageMB" | NetworkEgressMB => "NetworkEgressMB"
  | NetworkIngressMB => "NetworkIngressMB" | GPU => "GPU" | Request => "Request" | Invocation => "Invocation"
  | ExecutionTimeMS => "ExecutionTimeMS" | StorageIOPS => "StorageIOPS" | CustomUnit name => name
  end.

(** [str::to_uppercase], which agrees with the ASCII one on ASCII texts *)
Class Uppercase := {
  to_uppercase : string → string;
  to_uppercase_ascii s : forallb (λ a, N_of_ascii a <? 128)%N (chars s) = true → to_uppercase s = to_ascii_uppercase s;
}.

(** [ResourceUnit::from_str] *)
Definition resource_names : list (string * ResourceUnit) :=
  [("CPU", CPU); ("MEMORYMB", MemoryMB); ("STORAGEMB", StorageMB); ("NETWORKEGRESSMB", NetworkEgressMB);
   ("NETWORKINGRESSMB", NetworkIngressMB); ("GPU", GPU); ("REQUEST", Request); ("INVOCATION", Invocation);
   ("EXECUTIONTIMEMS", ExecutionTimeMS); ("STORAGEIOPS", StorageIOPS)].
Definition assoc_lookup {A} (l : list (string * A)) (k : string) : option A :=
  p ← list_find (λ p : string * A, p.1 = k) l; Some p.2.2.
Definition resource_from_str `{Uppercase} (s : string) : option ResourceUnit := assoc_lookup resource_names (to_uppercase s).

(** The measured resources: what the engine reads of a benchmark profile *)
Record BenchmarkProfile := mkProfile {
  cpu_details : option f32;            (* [avg_cores_used] *)
  memory_details : option f32;         (* [avg_memory_mb] *)
  storage_details : option f32;        (* [storage_available_gb] *)
  network_details : option (f32 * f32); (* [network_tx_mb], [network_rx_mb] *)
  gpu_details : option bool;           (* [gpu_available] *)
}.

(** ** Benchmark cache *)

Abbreviation BenchmarkCache := (gmap Z BenchmarkProfile).
Definition store_profile (c : BenchmarkCache) (id : Z) (p : BenchmarkProfile) : BenchmarkCache := <[id := p]> c.
Definition get_profile (c : BenchmarkCache) (id : Z) : option BenchmarkProfile := c !! id.
Definition remove_profile (c : BenchmarkCache) (id : Z) : option BenchmarkProfile * BenchmarkCache := (c !! id, delete id c).

(** ** Decimals *)

Class PriceDecimals (D : DecimalOps) := {
  dec_try_from_f64 : f64 → option Dec;
  dec_trunc : Dec → Dec;
  dec_is_sign_negative : Dec → bool;
  dec_is_zero : Dec → bool;
  dec_to_u128 : Dec → option Z;
  dec_to_u64 : Dec → option Z;
  dec_to_f64 : Dec → option f64;
}.

(** [U256::from_str_radix] in base ten *)
Class U256Text := { u256_from_str_radix : string → option Z }.
Class U256TextLaws (T : U256Text) := {
  u256_from_pretty x : 0 ≤ x < 2 ^ 256 → u256_from_str_radix (pretty x) = Some x;
  u256_range s x : u256_from_str_radix s = Some x → 0 ≤ x < 2 ^ 256;
}.

Inductive PricingError :=
| PeConfig (e : string) | PeCache (e : string) | PeSerialization (e : string) | PeSigning (e : string)
| PePricing (e : string) | PeTomlParsing | PeResourceUnitParsing | PeTeeNotAvailable.

Section pricing.
  Context `{U : Uppercase} `{D : DecimalOps} `{PD : !PriceDecimals D}.

(** [block_time], [pricing_scale] *)
Definition block_time : Dec := dec_from 6.
Definition pricing_scale : Dec := dec_from (10 ^ 9).

(** ** The curve of durations *)

Record TtlPricingCurve := mkCurve { multipliers : list f64; max_duration_secs : Z }.

(** [TtlPricingCurve::default], [validate], [new]; the message on a negative
    multiplier also prints it *)
Definition curve_default : TtlPricingCurve := mkCurve [f64_one; f64_one] 31536000.
Definition curve_error (i : nat) (e : string) : string := "ttl_curve.multipliers[" +:+ pretty i +:+ "] is " +:+ e.
Fixpoint check_multipliers (i : nat) (ms : list f64) : result string unit :=
  match ms with
  | [] => Ok tt
  | m :: ms =>
      if is_nan m || is_infinite m then Err (curve_error i "NaN or infinite")
      else if SFltb m f64_zero then Err (curve_error i "negative")
      else check_multipliers (S i) ms
  end.
Definition curve_validate (c : TtlPricingCurve) : result string unit :=
  if (length (multipliers c) <? 2)%nat then Err "ttl_curve.multipliers must have at least 2 elements"
  else if (100 <? length (multipliers c))%nat then Err "ttl_curve.multipliers must have at most 100 elements"
  else if max_duration_secs c =? 0 then Err "ttl_curve.max_duration_secs must be > 0"
  else check_multipliers 0 (multipliers c).
Definition curve_new (ms : list f64) (max_duration : Z) : result string TtlPricingCurve :=
  _ ← curve_validate (mkCurve ms max_duration); Ok (mkCurve ms max_duration).

(** [TtlPricingCurve::evaluate]; [None] is an index out of bounds *)
Definition curve_point (n ttl_secs max_duration : Z) : Z * Z * f64 :=
  let t := f64_clamp (f64_div (f64_of ttl_secs) (f64_of max_duration)) f64_zero f64_one in
  let idx := f64_mul t (f64_of n) in
  let lo := Z.min (floor_as_u64 idx) n in
  (lo, Z.min (lo + 1) n, f64_sub idx (f64_of lo)).
Definition curve_evaluate (c : TtlPricingCurve) (ttl_secs : Z) : option Dec :=
  match multipliers c with
  | [] => Some (dec_from 1)
  | m0 :: ms =>
      if bool_decide (ms = []) || (max_duration_secs c =? 0) then Some (default (dec_from 1) (dec_try_from_f64 m0))
      else
        let '(lo, hi, frac) := curve_point (Z.of_nat (length (multipliers c)) - 1) ttl_secs (max_duration_secs c) in
        a ← multipliers c !! Z.to_nat lo;
        b ← multipliers c !! Z.to_nat hi;
        let value := f64_add (f64_mul a (f64_sub f64_one frac)) (f64_mul b frac) in
        Some (default (dec_from 0) (dec_try_from_f64 (f64_max0 value)))
  end.

(** ** Prices *)

Record ResourcePricing := mkResource { rp_kind : ResourceUnit; rp_count : Z; price_per_unit_rate : Dec }.
Record PriceModel := mkPriceModel { pm_resources : list ResourcePricing; total_cost : Dec; pm_profile : option BenchmarkProfile }.
Record SubscriptionPricing := mkSubscription { subscription_rate : Dec; subscription_interval : Z; event_rate : Dec }.
Record TeePricing := mkTee { tee_available : bool; tee_multiplier : Dec; tee_provider : string }.

(** [TeePricing::default] *)
Definition tee_default : TeePricing := mkTee false (dec_from 1) "".

(** [calculate_base_resource_cost], [calculate_ttl_price_adjustment],
    [calculate_security_rate_adjustment] *)
Definition calculate_base_resource_cost (count : Z) (rate : Dec) : option Dec := dec_mul (dec_from count) rate.
Definition calculate_ttl_price_adjustment (time_blocks : Z) (curve : option TtlPricingCurve) : option Dec :=
  ttl_seconds ← dec_mul (dec_from time_blocks) block_time;
  match curve with
  | Some c =>
      let block_time_secs := default 6 (dec_to_u64 block_time) in
      m ← curve_evaluate c (Z.min (time_blocks * block_time_secs) u64_max);
      dec_mul ttl_seconds m
  | None => Some ttl_seconds
  end.
Definition calculate_security_rate_adjustment : Dec := dec_from 1.

(** [calculate_resource_price_with_curve] *)
Definition calculate_resource_price_with_curve (count : Z) (rate : Dec) (ttl_blocks : Z)
    (curve : option TtlPricingCurve) : option Dec :=
  base ← calculate_base_resource_cost count rate;
  time ← calculate_ttl_price_adjustment ttl_blocks curve;
  p ← dec_mul base time;
  dec_mul p calculate_security_rate_adjustment.

(** [apply_tee_pricing] *)
Definition apply_tee_pricing (base_cost : Dec) (require_tee : bool) (t : TeePricing) : option (result PricingError Dec) :=
  if negb require_tee then Some (Ok base_cost)
  else if negb (tee_available t) then Some (Err PeTeeNotAvailable)
  else Ok <$> dec_mul base_cost (tee_multiplier t).

(** [calculate_subscription_price], [calculate_event_price] *)
Definition calculate_subscription_price (c : SubscriptionPricing) : option PriceModel :=
  t ← dec_mul (subscription_rate c) calculate_security_rate_adjustment; Some (mkPriceModel [] t None).
Definition calculate_event_price (c : SubscriptionPricing) : option PriceModel :=
  t ← dec_mul (event_rate c) calculate_security_rate_adjustment; Some (mkPriceModel [] t None).

(** The map from kinds to rates: a later entry replaces an earlier one *)
Definition rate_of (l : list ResourcePricing) (k : ResourceUnit) : option Dec :=
  foldl (λ r p, if bool_decide (rp_kind p = k) then Some (price_per_unit_rate p) else r) None l.

(** One call of [price_resource] *)
Definition price_resource (rates : list ResourcePricing) (ttl_blocks : Z) (curve : option TtlPricingCurve)
    (acc : list ResourcePricing * Dec) (m : ResourceUnit * Z) : option (list ResourcePricing * Dec) :=
  let '(kind, count) := m in
  if count =? 0 then Some acc
  else
    match rate_of rates kind with
    | None => Some acc
    | Some rate =>
        p ← calculate_resource_price_with_curve count rate ttl_blocks curve;
        total ← dec_add acc.2 p;
        Some (acc.1 ++ [mkResource kind count rate], total)
    end.

(** The calls of [price_resource], in order *)
Definition measured (p : BenchmarkProfile) : list (ResourceUnit * Z) :=
  match cpu_details p with Some c => [(CPU, ceil_as_u64 c)] | None => [] end ++
  match memory_details p with Some m => [(MemoryMB, ceil_as_u64 m)] | None => [] end ++
  match storage_details p with Some s => [(StorageMB, ceil_as_u64 (f32_mul s (f32_of 1024)))] | None => [] end ++
  match network_details p with
  | Some (tx, rx) => [(NetworkEgressMB, ceil_as_u64 tx); (NetworkIngressMB, ceil_as_u64 rx)]
  | None => []
  end ++
  match gpu_details p with Some true => [(GPU, 1)] | _ => [] end.

Fixpoint fold_opt {A B} (f : A → B → option A) (a : A) (l : list B) : option A :=
  match l with [] => Some a | b :: l => a ← f a b; fold_opt f a l end.

Abbreviation PricingConfig := (gmap (option Z) (list ResourcePricing)).

(** [calculate_price_with_curve] *)
Definition calculate_price_with_curve (profile : BenchmarkProfile) (config : PricingConfig) (blueprint_id : option Z)
    (ttl_blocks : Z) (curve : option TtlPricingCurve) : option (result PricingError PriceModel) :=
  match from_option Some (config !! None) (config !! blueprint_id) with
  | None => Some (Err (PeConfig "No pricing configuration found for the specified blueprint ID or default"))
  | Some rates =>
      '(resources, total) ← fold_opt (price_resource rates ttl_blocks curve) ([], dec_from 0) (measured profile);
      Some (Ok (mkPriceModel resources total (Some profile)))
  end.

(** [decimal_to_scaled_amount] *)
Definition decimal_to_scaled_amount (value : Dec) : option (result PricingError Z) :=
  p ← dec_mul value pricing_scale;
  let scaled := dec_trunc p in
  Some (if dec_is_sign_negative scaled then Err (PePricing "Negative prices are not supported")
        else if dec_is_zero scaled then Err (PePricing "Zero price not supported; use explicit free-tier logic")
        else ok_or (dec_to_u128 scaled) (PePricing "Failed to scale price into u128")).

(** [percent_to_bps] *)
Definition percent_to_bps (percent : Z) : result PricingError Z :=
  if 100 <? percent then Err (PePricing ("Exposure percent " +:+ pretty percent +:+ "% exceeds 100%"))
  else Ok (percent * 100).

(** ** Theorems *)

Lemma check_multipliers_ok i ms :
  check_multipliers i ms = Ok tt → Forall (λ m, is_nan m = false ∧ is_infinite m = false ∧ SFltb m f64_zero = false) ms.
Proof.
  revert i. induction ms as [|m ms IH]; intros i; cbn [check_multipliers]; [constructor|].
  destruct (is_nan m) eqn:Hn, (is_infinite m) eqn:Hi; cbn [orb]; try done.
  destruct (SFltb m f64_zero) eqn:Hl; [done|]. intros Hc. constructor; [done|by eapply IH].
Qed.

Lemma curve_validate_ok c :
  curve_validate c = Ok tt →
  (2 ≤ length (multipliers c) ≤ 100)%nat ∧ max_duration_secs c ≠ 0 ∧
  Forall (λ m, is_nan m = false ∧ is_infinite m = false ∧ SFltb m f64_zero = false) (multipliers c).
Proof.
  unfold curve_validate. destruct (Nat.ltb_spec (length (multipliers c)) 2); [done|].
  destruct (Nat.ltb_spec 100 (length (multipliers c))); [done|]. destruct (Z.eqb_spec (max_duration_secs c) 0); [done|].
  intros Hc%check_multipliers_ok. split; [lia|done].
Qed.

Lemma float_as_u64_range round x : 0 ≤ float_as_u64 round x ≤ u64_max.
Proof. unfold u64_max. destruct x as [?|[]| |]; cbn [float_as_u64]; unfold u64_max; lia. Qed.

(** Whatever the curve and the duration, the evaluation stays within the points. *)
Lemma curve_evaluate_total c ttl : is_Some (curve_evaluate c ttl).
Proof.
  unfold curve_evaluate. destruct (multipliers c) as [|m0 ms] eqn:Hm; [by eexists|].
  destruct (_ || _); [by eexists|]. unfold curve_point.
  generalize (f64_mul (f64_clamp (f64_div (f64_of ttl) (f64_of (max_duration_secs c))) f64_zero f64_one)
    (f64_of (Z.of_nat (length (m0 :: ms)) - 1))) as idx. intros idx.
  pose proof (float_as_u64_range float_floor idx) as Hf. change (float_as_u64 float_floor idx) with (floor_as_u64 idx) in Hf.
  revert Hf. generalize (floor_as_u64 idx) as k. intros k Hk.
  set (n := Z.of_nat (length (m0 :: ms)) - 1). cbn [length] in n.
  assert (∀ i, 0 ≤ i ≤ n → is_Some ((m0 :: ms) !! Z.to_nat i)) as Hin
    by (intros i Hi; apply lookup_lt_is_Some; cbn [length]; lia).
  destruct (Hin (Z.min k n) ltac:(lia)) as [a Ha]. destruct (Hin (Z.min (Z.min k n + 1) n) ltac:(lia)) as [b Hb].
  fold n. rewrite Ha. cbn [mbind option_bind]. rewrite Hb. by eexists.
Qed.

End pricing.
