(* ===== verification/PricingToml.v ===== *)
(** * Price tables ([load_*_from_toml] of [pricing-engine/src/pricing.rs])

    The loaders work on the parsed value; the TOML parser and the decimal parser
    of 256-bit numbers are parameters. *)

From Stdlib Require Import ZArith Lia Ascii SpecFloat.
From stdpp Require Import base gmap sets list sorting strings pretty fin_maps numbers relations.
From S2P Require Import Prelude Bytes Text Float X402Config Pricing.

#[local] Open Scope Z_scope.

(** ** Values *)

(** [toml::Value]; a table is in the order of its keys *)
Inductive Toml :=
| TString (s : string) | TInteger (n : Z) | TFloat (f : f64) | TBoolean (b : bool) | TDatetime (s : string)
| TArray (l : list Toml) | TTable (l : list (string * Toml)).

Definition as_str (v : Toml) : option string := match v with TString s => Some s | _ => None end.
Definition as_integer (v : Toml) : option Z := match v with TInteger n => Some n | _ => None end.
Definition as_float (v : Toml) : option f64 := match v with TFloat f => Some f | _ => None end.
Definition as_bool (v : Toml) : option bool := match v with TBoolean b => Some b | _ => None end.
Definition as_array (v : Toml) : option (list Toml) := match v with TArray l => Some l | _ => None end.
Definition as_table (v : Toml) : option (list (string * Toml)) := match v with TTable l => Some l | _ => None end.
Definition toml_get (v : Toml) (k : string) : option Toml := t ← as_table v; assoc_lookup t k.

Class TomlLib := { toml_from_str : string → option Toml }.

Section loaders.
  Context `{U : Uppercase} `{D : DecimalOps} `{PD : !PriceDecimals D} `{UT : U256Text} `{TL : TomlLib}.

Abbreviation PricingConfig := (gmap (option Z) (list ResourcePricing)).

Definition parse_toml (content : string) : result PricingError Toml := ok_or (toml_from_str content) PeTomlParsing.
Definition config_err {A} (e : string) : result PricingError A := Err (PeConfig e).

Definition quoted (s : string) : string := String (ascii_of_N 34) "" +:+ s +:+ String (ascii_of_N 34) "".

(** *** Jobs *)

(** The inner and the outer loop of [load_job_pricing_from_toml] *)
Definition load_job_price (service_id : Z) (config : gmap (Z * Z) Z) (e : string * Toml)
    : result PricingError (gmap (Z * Z) Z) :=
  let '(job_key, price_val) := e in
  job_index ← ok_or (parse_u32 job_key)
    (PeConfig ("service " +:+ pretty service_id +:+ ": invalid job index: " +:+ job_key));
  let place := "service " +:+ pretty service_id +:+ " job " +:+ pretty job_index in
  price_str ← ok_or (as_str price_val) (PeConfig (place +:+ ": price must be a string (wei value)"));
  price ← ok_or (u256_from_str_radix price_str) (PeConfig (place +:+ ": invalid wei value: " +:+ price_str));
  Ok (<[(service_id, job_index) := price]> config).
Definition load_service_prices (config : gmap (Z * Z) Z) (e : string * Toml) : result PricingError (gmap (Z * Z) Z) :=
  let '(service_key, jobs) := e in
  service_id ← ok_or (parse_u64 service_key) (PeConfig ("invalid service ID in job pricing: " +:+ service_key));
  jobs_table ← ok_or (as_table jobs)
    (PeConfig ("service " +:+ pretty service_id +:+ ": expected a table of job_index = " +:+ quoted "price_wei"));
  try_fold (load_job_price service_id) config jobs_table.

(** [load_job_pricing_from_toml] *)
Definition load_job_pricing_from_toml (content : string) : result PricingError (gmap (Z * Z) Z) :=
  parsed ← parse_toml content;
  table ← ok_or (as_table parsed) (PeConfig "job pricing TOML must be a table");
  try_fold load_service_prices ∅ table.

(** *** Resources *)

(** A number as a decimal *)
Definition toml_decimal (v : Toml) : option Dec :=
  match as_float v ≫= dec_try_from_f64 with Some d => Some d | None => dec_from <$> as_integer v end.

(** One entry of a [resources] array *)
Definition load_resource (place : string) (acc : list ResourcePricing) (resource : Toml)
    : result PricingError (list ResourcePricing) :=
  match as_table resource with
  | None => Ok acc
  | Some t =>
      match assoc_lookup t "kind" ≫= as_str with
      | None => Ok acc
      | Some kind_str =>
          kind ← ok_or (resource_from_str kind_str) PeResourceUnitParsing;
          let count := default 1 (assoc_lookup t "count" ≫= as_integer) in
          count ← if count <? 0 then config_err ("Negative count " +:+ pretty count +:+ " for resource "
                                        +:+ resource_display kind +:+ place) else Ok count;
          rate ← ok_or (assoc_lookup t "price_per_unit_rate" ≫= toml_decimal)
            (PeConfig ("Missing or invalid price_per_unit_rate for resource " +:+ resource_display kind +:+ place));
          Ok (acc ++ [mkResource kind count rate])
      end
  end.
Definition section_resources (v : Toml) : option (list Toml) := toml_get v "resources" ≫= as_array.

Definition load_section (pricing : PricingConfig) (e : string * Toml) : result PricingError PricingConfig :=
  let '(key, value) := e in
  if bool_decide (key = "default") then Ok pricing
  else
    match parse_u64 key, section_resources value with
    | Some blueprint_id, Some resources =>
        l ← try_fold (load_resource (" in blueprint [" +:+ pretty blueprint_id +:+ "]")) [] resources;
        Ok (<[Some blueprint_id := l]> pricing)
    | _, _ => Ok pricing
    end.

(** [load_pricing_from_toml] *)
Definition load_pricing_from_toml (content : string) : result PricingError PricingConfig :=
  parsed ← parse_toml content;
  pricing ← match toml_get parsed "default" ≫= section_resources with
            | Some resources => l ← try_fold (load_resource "") [] resources; Ok {[ None := l ]}
            | None => Ok ∅
            end;
  try_fold load_section pricing (default [] (as_table parsed)).

(** *** Subscriptions *)

Definition parse_decimal_field (key : string) (section : list (string * Toml)) (field : string)
    : result PricingError (option Dec) :=
  match assoc_lookup section field with
  | None => Ok None
  | Some v =>
      dec ← ok_or (toml_decimal v) (PeConfig ("Missing or invalid " +:+ field +:+ " in section [" +:+ key +:+ "]"));
      if dec_is_sign_negative dec then config_err (field +:+ " cannot be negative in section [" +:+ key +:+ "]")
      else Ok (Some dec)
  end.
Definition parse_u64_field (key : string) (section : list (string * Toml)) (field : string)
    : result PricingError (option Z) :=
  match assoc_lookup section field with
  | None => Ok None
  | Some v =>
      match as_integer v with
      | Some i => if 0 <=? i then Ok (Some i)
                  else config_err ("Missing or invalid " +:+ field +:+ " in section [" +:+ key +:+ "]")
      | None => config_err ("Missing or invalid " +:+ field +:+ " in section [" +:+ key +:+ "]")
      end
  end.

Definition load_subscription (key : string) (section : list (string * Toml)) (model : string)
    : result PricingError SubscriptionPricing :=
  if bool_decide (model = "subscription") then
    r ← parse_decimal_field key section "subscription_rate";
    rate ← ok_or r (PeConfig ("Missing subscription_rate in section [" +:+ key +:+ "] for pricing_model=subscription"));
    _ ← if dec_leb rate (dec_from 0) then config_err ("subscription_rate must be > 0 in section [" +:+ key +:+ "]") else Ok tt;
    i ← parse_u64_field key section "subscription_interval";
    interval ← ok_or i (PeConfig ("Missing subscription_interval in section [" +:+ key +:+ "] for pricing_model=subscription"));
    _ ← if interval =? 0 then config_err ("subscription_interval must be > 0 in section [" +:+ key +:+ "]") else Ok tt;
    e ← parse_decimal_field key section "event_rate";
    Ok (mkSubscription rate interval (default (dec_from 0) e))
  else
    e ← parse_decimal_field key section "event_rate";
    ev ← ok_or e (PeConfig ("Missing event_rate in section [" +:+ key +:+ "] for pricing_model=event_driven"));
    _ ← if dec_leb ev (dec_from 0) then config_err ("event_rate must be > 0 in section [" +:+ key +:+ "]") else Ok tt;
    r ← parse_decimal_field key section "subscription_rate";
    i ← parse_u64_field key section "subscription_interval";
    Ok (mkSubscription (default (dec_from 0) r) (default 0 i) ev).

Abbreviation SubscriptionConfig := (gmap (option Z) SubscriptionPricing).

Definition load_subscription_section (config : SubscriptionConfig) (e : string * Toml)
    : result PricingError SubscriptionConfig :=
  let '(key, value) := e in
  match as_table value with
  | None => Ok config
  | Some section =>
      let model := default "" (assoc_lookup section "pricing_model" ≫= as_str) in
      if negb (bool_decide (model = "subscription")) && negb (bool_decide (model = "event_driven")) then Ok config
      else
        pricing ← load_subscription key section model;
        if bool_decide (key = "default") then Ok (<[None := pricing]> config)
        else match parse_u64 key with Some id => Ok (<[Some id := pricing]> config) | None => Ok config end
  end.

(** [load_subscription_pricing_from_toml] *)
Definition load_subscription_pricing_from_toml (content : string) : result PricingError SubscriptionConfig :=
  parsed ← parse_toml content;
  match as_table parsed with
  | None => Ok ∅
  | Some table => try_fold load_subscription_section ∅ table
  end.

(** *** Trusted execution and durations *)

(** [load_tee_pricing_from_toml] *)
Definition load_tee_pricing_from_toml (content : string) : result PricingError TeePricing :=
  parsed ← parse_toml content;
  match toml_get parsed "tee" ≫= as_table with
  | None => Ok tee_default
  | Some t =>
      let available := default false (assoc_lookup t "available" ≫= as_bool) in
      let multiplier := default (dec_from 1) (assoc_lookup t "multiplier" ≫= toml_decimal) in
      if dec_leb multiplier (dec_from 0) then config_err "TEE multiplier must be positive"
      else Ok (mkTee available multiplier (default "" (assoc_lookup t "provider" ≫= as_str)))
  end.

(** [n as f64] *)
Definition f64_of_i64 (n : Z) : f64 := binary_normalize 53 1024 n 0 (n <? 0).

(** The multipliers of the curve *)
Fixpoint load_multipliers (i : nat) (l : list Toml) : result PricingError (list f64) :=
  match l with
  | [] => Ok []
  | v :: l =>
      m ← ok_or (match as_float v with Some f => Some f | None => f64_of_i64 <$> as_integer v end)
        (PeConfig ("ttl_curve.multipliers[" +:+ pretty i +:+ "] must be a number"));
      ms ← load_multipliers (S i) l; Ok (m :: ms)
  end.

(** [load_ttl_curve_from_toml]; a negative duration is cast to [u64] *)
Definition load_ttl_curve_from_toml (content : string) : result PricingError (option TtlPricingCurve) :=
  parsed ← parse_toml content;
  match toml_get parsed "ttl_curve" ≫= as_table with
  | None => Ok None
  | Some t =>
      let max_duration := default 31536000 (u64_wrap <$> (assoc_lookup t "max_duration_secs" ≫= as_integer)) in
      l ← ok_or (assoc_lookup t "multipliers" ≫= as_array) (PeConfig "ttl_curve requires a 'multipliers' array");
      ms ← load_multipliers 0 l;
      c ← map_err (λ e, PeConfig ("ttl_curve: " +:+ e)) (curve_new ms max_duration);
      Ok (Some c)
  end.

(** ** Theorems *)

(** *** Job prices *)

(** A table of prices as it is written, and what it means: a later entry for a job
    replaces an earlier one *)
Definition JobPrices := list (Z * list (Z * Z)).
Definition service_toml (e : Z * list (Z * Z)) : string * Toml :=
  (pretty e.1, TTable ((λ p, (pretty p.1, TString (pretty p.2))) <$> e.2)).
Definition service_prices (config : gmap (Z * Z) Z) (e : Z * list (Z * Z)) : gmap (Z * Z) Z :=
  foldl (λ m p, <[(e.1, p.1) := p.2]> m) config e.2.
Definition job_prices_wf (l : JobPrices) : Prop :=
  Forall (λ e, is_u64 e.1 ∧ Forall (λ p : Z * Z, is_u32 p.1 ∧ 0 ≤ p.2 < 2 ^ 256) e.2) l.

Lemma parse_u32_pretty x : is_u32 x → parse_u32 (pretty x) = Some x.
Proof.
  unfold is_u32, parse_u32. intros Hx. rewrite parse_u64_pretty by (unfold is_u64; lia). cbn.
  by rewrite (proj2 (Z.leb_le _ _)) by (unfold u32_max; lia).
Qed.

Lemma try_fold_map {E S A B} (f : S → A → result E S) (g : B → A) (h : S → B → S) (P : B → Prop) s l :
  (∀ s b, P b → f s (g b) = Ok (h s b)) → Forall P l → try_fold f s (g <$> l) = Ok (foldl h s l).
Proof.
  intros Hf Hl. revert s. induction Hl as [|b l Hb Hl IH]; intros s; [done|]. cbn. rewrite (Hf _ _ Hb). cbn. apply IH.
Qed.

Lemma load_service_ok `{UTL : !U256TextLaws UT} config e :
  is_u64 e.1 ∧ Forall (λ p : Z * Z, is_u32 p.1 ∧ 0 ≤ p.2 < 2 ^ 256) e.2 →
  load_service_prices config (service_toml e) = Ok (service_prices config e).
Proof.
  intros [Hs Hl]. unfold load_service_prices, service_toml. rewrite (parse_u64_pretty _ Hs). cbn [ok_or mbind result_bind as_table].
  apply (try_fold_map _ _ (λ m p, <[(e.1, p.1) := p.2]> m) (λ p, is_u32 p.1 ∧ 0 ≤ p.2 < 2 ^ 256)); [|done].
  intros m [j p] [Hj Hp]. unfold load_job_price. cbn [fst snd] in *. rewrite (parse_u32_pretty _ Hj). cbn [ok_or mbind result_bind as_str].
  by rewrite (u256_from_pretty _ Hp).
Qed.

(** A table of job prices that is written out as the configuration file has it
    loads as itself: every service, every job and every price up to 2^256 - 1. *)
Theorem job_prices_round_trip `{UTL : !U256TextLaws UT} content l :
  job_prices_wf l → toml_from_str content = Some (TTable (service_toml <$> l)) →
  load_job_pricing_from_toml content = Ok (foldl service_prices ∅ l).
Proof.
  intros Hl Ht. unfold load_job_pricing_from_toml, parse_toml. rewrite Ht. cbn [ok_or mbind result_bind as_table].
  eapply try_fold_map; [|exact Hl]. intros m e He. by apply load_service_ok.
Qed.

Lemma try_fold_inv {E S A} (f : S → A → result E S) (P : S → Prop) s l s' :
  (∀ s a s', P s → f s a = Ok s' → P s') → P s → try_fold f s l = Ok s' → P s'.
Proof.
  intros Hf. revert s. induction l as [|a l IH]; intros s Hs; cbn; [by intros [= <-]|].
  destruct (f s a) as [s1|e] eqn:Hfs; [|done]. cbn. apply IH. by eapply Hf.
Qed.

(** What is loaded fits the widths of the chain's numbers. *)
Lemma loaded_job_prices_fit `{UTL : !U256TextLaws UT} content config :
  load_job_pricing_from_toml content = Ok config → map_Forall (λ _ p, 0 ≤ p < 2 ^ 256) config.
Proof.
  unfold load_job_pricing_from_toml. destruct (parse_toml content) as [parsed|e]; [|done]. cbn [mbind result_bind].
  destruct (as_table parsed) as [table|]; [|done]. cbn [ok_or mbind result_bind].
  apply try_fold_inv; [|apply map_Forall_empty]. intros m [k v] m' Hm. unfold load_service_prices.
  destruct (parse_u64 k) as [sid|]; [|done]. cbn [ok_or mbind result_bind]. destruct (as_table v) as [jobs|]; [|done].
  cbn [ok_or mbind result_bind]. apply try_fold_inv; [|done]. clear -UTL. intros m [k v] m' Hm. unfold load_job_price.
  destruct (parse_u32 k) as [j|]; [|done]. cbn [ok_or mbind result_bind]. destruct (as_str v) as [t|]; [|done].
  cbn [ok_or mbind result_bind]. destruct (u256_from_str_radix t) as [p|] eqn:Hp; [|done]. cbn. intros [= <-].
  apply map_Forall_insert_2; [by eapply u256_range|done].
Qed.

(** *** Subscriptions *)

(** A price that can be charged: a positive rate with a positive interval, or a
    positive rate for each event *)
Definition chargeable (p : SubscriptionPricing) : Prop :=
  (dec_leb (subscription_rate p) (dec_from 0) = false ∧ 0 < subscription_interval p) ∨
  dec_leb (event_rate p) (dec_from 0) = false.

Lemma parse_u64_field_ok key section field i : parse_u64_field key section field = Ok (Some i) → 0 ≤ i.
Proof.
  unfold parse_u64_field. destruct (assoc_lookup section field) as [v|]; [|done]. destruct (as_integer v) as [n|]; [|done].
  destruct (Z.leb_spec 0 n); [|done]. by intros [= <-].
Qed.

Lemma load_subscription_chargeable key section model p : load_subscription key section model = Ok p → chargeable p.
Proof.
  unfold load_subscription, chargeable. destruct (bool_decide _).
  - destruct (parse_decimal_field key section "subscription_rate") as [[rate|]|e]; [|done..]. cbn [ok_or mbind result_bind].
    destruct (dec_leb rate (dec_from 0)) eqn:Hr; [done|]. cbn [mbind result_bind].
    destruct (parse_u64_field key section "subscription_interval") as [[i|]|e] eqn:Hi; [|done..]. cbn [ok_or mbind result_bind].
    apply parse_u64_field_ok in Hi. destruct (Z.eqb_spec i 0); [done|]. cbn [mbind result_bind].
    destruct (parse_decimal_field key section "event_rate") as [ev|e]; [|done]. intros [= <-]. left. cbn. split; [done|lia].
  - destruct (parse_decimal_field key section "event_rate") as [[ev|]|e]; [|done..]. cbn [ok_or mbind result_bind].
    destruct (dec_leb ev (dec_from 0)) eqn:He; [done|]. cbn [mbind result_bind].
    destruct (parse_decimal_field key section "subscription_rate") as [r|e]; [|done]. cbn [mbind result_bind].
    destruct (parse_u64_field key section "subscription_interval") as [i|e]; [|done]. intros [= <-]. by right.
Qed.

Lemma loaded_subscriptions_chargeable content config :
  load_subscription_pricing_from_toml content = Ok config → map_Forall (λ _ p, chargeable p) config.
Proof.
  unfold load_subscription_pricing_from_toml. destruct (parse_toml content) as [parsed|e]; [|done]. cbn [mbind result_bind].
  destruct (as_table parsed) as [table|]; [|intros [= <-]; apply map_Forall_empty].
  apply try_fold_inv; [|apply map_Forall_empty]. intros m [key v] m' Hm. unfold load_subscription_section.
  destruct (as_table v) as [section|]; [|by intros [= <-]]. destruct (negb _ && negb _); [by intros [= <-]|].
  destruct (load_subscription key section _) as [p|e] eqn:Hp; [|done]. cbn [mbind result_bind].
  apply load_subscription_chargeable in Hp.
  destruct (bool_decide (key = "default")); [intros [= <-]; by apply map_Forall_insert_2|].
  destruct (parse_u64 key); intros [= <-]; [by apply map_Forall_insert_2|done].
Qed.

(** *** Trusted execution and durations *)

Lemma loaded_curve_valid content c : load_ttl_curve_from_toml content = Ok (Some c) → curve_validate c = Ok tt.
Proof.
  unfold load_ttl_curve_from_toml. destruct (parse_toml content) as [parsed|e]; [|done]. cbn [mbind result_bind].
  destruct (toml_get parsed "ttl_curve" ≫= as_table) as [t|]; [|done].
  destruct (assoc_lookup t "multipliers" ≫= as_array) as [l|]; [|done]. cbn [ok_or mbind result_bind].
  destruct (load_multipliers 0 l) as [ms|e]; [|done]. cbn [mbind result_bind]. unfold curve_new.
  generalize (default 31536000 (u64_wrap <$> (assoc_lookup t "max_duration_secs" ≫= as_integer))) as d. intros d.
  destruct (curve_validate (mkCurve ms d)) as [[]|e] eqn:Hv; [|done]. cbn. by intros [= <-].
Qed.

(** What the price tables load to can be charged: every subscription has a
    positive rate with a positive interval or a positive rate for each event, the
    premium for trusted execution is positive, and a curve of durations has between
    2 and 100 points, a positive duration, and no multiplier that is negative or
    not a number. *)
Theorem loaded_prices_chargeable subscriptions tee curve table t c :
  load_subscription_pricing_from_toml subscriptions = Ok table → load_tee_pricing_from_toml tee = Ok t →
  load_ttl_curve_from_toml curve = Ok (Some c) → dec_leb (dec_from 1) (dec_from 0) = false →
  map_Forall (λ _ p, chargeable p) table ∧ dec_leb (tee_multiplier t) (dec_from 0) = false ∧
  (2 ≤ length (multipliers c) ≤ 100)%nat ∧ max_duration_secs c ≠ 0 ∧
  Forall (λ m, is_nan m = false ∧ is_infinite m = false ∧ SFltb m f64_zero = false) (multipliers c).
Proof.
  intros Hs Ht Hc H1. split; [by apply loaded_subscriptions_chargeable in Hs|]. split.
  - unfold load_tee_pricing_from_toml in Ht. destruct (parse_toml tee) as [parsed|e]; [|done]. cbn [mbind result_bind] in Ht.
    destruct (toml_get parsed "tee" ≫= as_table) as [tb|]; [|by injection Ht as <-].
    cbv zeta in Ht. destruct (dec_leb _ _) eqn:Hl in Ht; [done|]. injection Ht as <-. exact Hl.
  - apply loaded_curve_valid in Hc. by apply curve_validate_ok.
Qed.

End loaders.
