(* ===== verification/PricingRpc.v ===== *)
(** * The pricing service ([pricing-engine/src/signer.rs],
      [pricing-engine/src/service/rpc/server.rs])

    The two calls by which clients obtain signed quotes: their checks, the price,
    the quote that is signed, and the settlement options.  [None] is a panic of
    decimal arithmetic or a search for a proof of work that has not ended within
    the given number of attempts. *)

From Stdlib Require Import ZArith Lia Ascii SpecFloat.
From stdpp Require Import base gmap sets list sorting strings pretty fin_maps numbers relations.
From S2P Require Import Prelude Bytes Text Float EvmLog X402Config Pow JobQuote Pricing.

#[local] Open Scope Z_scope.

(** ** Messages *)

Inductive AssetType := AssetCustom (bytes : list Byte8) | AssetErc20 (bytes : list Byte8).
Record Asset := mkAsset { asset_type : option AssetType }.
Record AssetSecurityRequirements := mkRequirements {
  sr_asset : option Asset;
  minimum_exposure_percent : Z;
  maximum_exposure_percent : Z;
}.
Record AssetSecurityCommitment := mkCommitment { sc_asset : option Asset; exposure_percent : Z }.
Record ProtoResourcePricing := mkProtoResource { pr_kind : string; pr_count : Z; pr_rate : f64 }.

Record QuoteDetails := mkQuote {
  qd_blueprint_id : Z;
  qd_ttl_blocks : Z;
  qd_total_cost_rate : f64;
  qd_timestamp : Z;
  qd_expiry : Z;
  qd_resources : list ProtoResourcePricing;
  qd_security_commitments : list AssetSecurityCommitment;
  qd_requester : list Byte8;
}.

Record GetPriceRequest := mkPriceRequest {
  gp_blueprint_id : Z;
  gp_ttl_blocks : Z;
  gp_proof_of_work : list Byte8;
  gp_security_requirements : option AssetSecurityRequirements;
  gp_challenge_timestamp : Z;
  gp_pricing_model : Z;
  gp_require_tee : bool;
  gp_requester : list Byte8;
}.
Record GetPriceResponse := mkPriceResponse {
  pr_quote_details : QuoteDetails;
  pr_signature : list Byte8;
  pr_operator_id : list Byte8;
  pr_proof_of_work : list Byte8;
  pr_tee_attested : bool;
  pr_tee_provider : string;
}.

Record ProtoJobQuoteDetails := mkProtoJobQuote {
  pj_service_id : Z;
  pj_job_index : Z;
  pj_price : list Byte8;
  pj_timestamp : Z;
  pj_expiry : Z;
  pj_confidentiality : Z;
  pj_requester : list Byte8;
  pj_inputs_hash : list Byte8;
}.
Record GetJobPriceRequest := mkJobPriceRequest {
  gj_service_id : Z;
  gj_job_index : Z;
  gj_proof_of_work : list Byte8;
  gj_challenge_timestamp : Z;
  gj_require_tee : bool;
  gj_requester : list Byte8;
  gj_inputs_hash : list Byte8;
}.

Record ProtoSettlementOption := mkProtoSettlement {
  ps_network : string;
  ps_asset : string;
  ps_symbol : string;
  ps_amount : string;
  ps_pay_to : string;
  ps_scheme : string;
}.
Record GetJobPriceResponse := mkJobPriceResponse {
  jr_quote_details : ProtoJobQuoteDetails;
  jr_signature : list Byte8;
  jr_operator_id : list Byte8;
  jr_proof_of_work : list Byte8;
  jr_settlement_options : list ProtoSettlementOption;
  jr_x402_endpoint : string;
  jr_tee_attested : bool;
  jr_tee_provider : string;
}.

Inductive Status := InvalidArgument (e : string) | StatusNotFound (e : string) | Internal (e : string) | Unavailable (e : string).

(** ** On-chain quotes *)

Record AbiCommitment := mkAbiCommitment { ac_kind : Z; ac_token : list Byte8; ac_exposure_bps : Z }.
Record AbiResource := mkAbiResource { ar_kind : Z; ar_count : Z }.

(** [ITangleTypes::QuoteDetails] *)
Record AbiQuote := mkAbiQuote {
  aq_requester : list Byte8;
  aq_blueprint_id : Z;
  aq_ttl_blocks : Z;
  aq_total_cost : Z;
  aq_timestamp : Z;
  aq_expiry : Z;
  aq_confidentiality : Z;
  aq_operation : Z;
  aq_service_id : Z;
  aq_security_commitments : list AbiCommitment;
  aq_resource_commitments : list AbiResource;
}.

(** [SolStruct::eip712_signing_hash], of the code that the bindings generate *)
Class QuoteEip712 := { quote_digest_eip712 : AbiQuote → QuoteSigningDomain → list Byte8 }.
Class QuoteEip712Laws (E : QuoteEip712) := { quote_digest_length q d : length (quote_digest_eip712 q d) = 32%nat }.

Section server.
  Context `{U : Uppercase} `{D : DecimalOps} `{PD : !PriceDecimals D} `{UT : U256Text} `{PW : PowLib} `{KL : K256Lib}
    `{E7 : QuoteEip712}.

(** ** The signer *)

Definition signing_err {A} (e : string) : result PricingError A := Err (PeSigning e).

(** [proto_asset_to_abi], [proto_commitment_to_abi] *)
Definition proto_asset_to_abi (a : Asset) : result PricingError (Z * list Byte8) :=
  match asset_type a with
  | None => signing_err "missing asset type"
  | Some (AssetErc20 bytes) =>
      if negb (bool_decide (length bytes = 20%nat))
      then signing_err ("ERC20 address must be 20 bytes, got " +:+ pretty (length bytes))
      else Ok (1, bytes)
  | Some (AssetCustom _) => signing_err "Custom assets are not supported on Tangle EVM"
  end.
Definition proto_commitment_to_abi (c : AssetSecurityCommitment) : result PricingError AbiCommitment :=
  asset ← ok_or (sc_asset c) (PeSigning "Missing commitment asset");
  a ← proto_asset_to_abi asset;
  bps ← percent_to_bps (exposure_percent c);
  Ok (mkAbiCommitment a.1 a.2 bps).

(** [proto_resource_commitment_to_abi] *)
Definition resource_kind_number (u : ResourceUnit) : option Z :=
  match u with
  | CPU => Some 0 | MemoryMB => Some 1 | StorageMB => Some 2 | NetworkEgressMB => Some 3 | NetworkIngressMB => Some 4
  | GPU => Some 5 | _ => None
  end.
Definition proto_resource_commitment_to_abi (r : ProtoResourcePricing) : result PricingError AbiResource :=
  u ← ok_or (resource_from_str (pr_kind r)) (PeSigning ("Invalid resource kind: " +:+ pr_kind r));
  kind ← ok_or (resource_kind_number u)
    (PeSigning ("Unsupported resource kind for tnt-core quote commitments: " +:+ pr_kind r));
  Ok (mkAbiResource kind (pr_count r)).


(** [build_abi_quote_details] *)
Definition build_abi_quote_details (d : QuoteDetails) (total : Dec) (confidentiality : Z) (requester : list Byte8)
    : option (result PricingError AbiQuote) :=
  match traverse proto_commitment_to_abi (qd_security_commitments d) with
  | Err e => Some (Err e)
  | Ok commitments =>
      match traverse proto_resource_commitment_to_abi (qd_resources d) with
      | Err e => Some (Err e)
      | Ok resources =>
          cost ← decimal_to_scaled_amount total;
          Some (cost ← cost;
            Ok (mkAbiQuote requester (qd_blueprint_id d) (qd_ttl_blocks d) cost (qd_timestamp d) (qd_expiry d)
                  confidentiality 0 0 commitments resources))
      end
  end.

Record OperatorSigner := mkOperatorSigner {
  os_keypair : K256SigningKey;
  os_operator_id : list Byte8;
  os_domain : QuoteSigningDomain;
}.

(** [OperatorSigner::new] *)
Definition operator_signer_new (k : K256SigningKey) (dom : QuoteSigningDomain) : result PricingError OperatorSigner :=
  id ← map_err (λ e, PeSigning ("Failed to derive operator address: " +:+ e)) (alloy_address k);
  Ok (mkOperatorSigner k id dom).

(** [OperatorSigner::sign_quote]: the signature, with its recovery byte *)
Definition sign_quote (s : OperatorSigner) (q : AbiQuote) : result PricingError (list Byte8 * Z) :=
  map_err (λ e, PeSigning ("Error signing quote hash: " +:+ e))
    (sign_prehash_recoverable (os_keypair s) (quote_digest_eip712 q (os_domain s))).

(** [verify_quote] *)
Definition verify_quote (q : AbiQuote) (signature : list Byte8) (key : K256VerifyingKey) (dom : QuoteSigningDomain) : bool :=
  verify_prehash key (quote_digest_eip712 q dom) signature.

Definition is_zero_address (a : list Byte8) : bool := forallb (λ b, b =? 0) a.

(** [proto_to_native_job_quote]; [None] is a price that does not fit *)
Definition proto_to_native_job_quote (d : ProtoJobQuoteDetails) : option (result PricingError JobQuoteDetails) :=
  let price := match pj_price d with [] => 0 | bytes => from_be_bytes bytes end in
  if 2 ^ 256 <=? price then None
  else Some (
    if negb ((0 <=? pj_job_index d) && (pj_job_index d <=? 255))
    then signing_err ("job_index " +:+ pretty (pj_job_index d) +:+ " exceeds u8 range (max 255)")
    else if negb (bool_decide (length (pj_requester d) = 20%nat))
    then signing_err ("requester must be 20 bytes, got " +:+ pretty (length (pj_requester d)))
    else if is_zero_address (pj_requester d)
    then signing_err "requester must be non-zero (tnt-core v0.13.0 rejects wildcard quotes)"
    else if negb (bool_decide (length (pj_inputs_hash d) = 32%nat))
    then signing_err ("inputs_hash must be 32 bytes (keccak256 of the job inputs), got "
                      +:+ pretty (length (pj_inputs_hash d)))
    else if negb ((0 <=? pj_confidentiality d) && (pj_confidentiality d <=? 255))
    then signing_err ("confidentiality " +:+ pretty (pj_confidentiality d) +:+ " exceeds u8 range (max 255)")
    else Ok (mkJobQuote (pj_requester d) (pj_service_id d) (pj_job_index d) price (pj_timestamp d) (pj_expiry d)
               (pj_confidentiality d) (pj_inputs_hash d))).

(** [OperatorSigner::sign_job_quote]: the signature, with its recovery byte *)
Definition sign_job_quote (s : OperatorSigner) (d : ProtoJobQuoteDetails) : option (result PricingError (list Byte8 * Z)) :=
  native ← proto_to_native_job_quote d;
  Some (native ← native;
    map_err (λ e, PeSigning ("Error signing job quote: " +:+ e))
      (sign_prehash_recoverable (os_keypair s) (job_quote_digest_eip712 native (os_domain s)))).

(** ** Settlement *)

Record X402AcceptedToken := mkX402Token {
  xt_network : string;
  xt_asset : string;
  xt_symbol : string;
  xt_decimals : Z;
  xt_pay_to : string;
  xt_rate_per_native_unit : Dec;
  xt_markup_bps : Z;
}.
Record X402SettlementConfig := mkX402Settlement { x402_endpoint : string; x402_accepted_tokens : list X402AcceptedToken }.

(** [convert_settlement_token] *)
Definition convert_settlement_token (t : X402AcceptedToken) (price_wei : Z) : option (result string ProtoSettlementOption) :=
  match dec_from_str_exact (pretty price_wei) with
  | Err e => Some (Err ("wei→Decimal: " +:+ e))
  | Ok wei_decimal =>
      native_amount ← dec_div wei_decimal (dec_from (10 ^ 18));
      token_amount ← dec_mul native_amount (xt_rate_per_native_unit t);
      bps ← dec_div (dec_from (xt_markup_bps t)) (dec_from 10000);
      markup ← dec_add (dec_from 1) bps;
      final_amount ← dec_mul token_amount markup;
      smallest ← dec_mul final_amount (dec_from (u64_wrap (10 ^ xt_decimals t)));
      Some (Ok (mkProtoSettlement (xt_network t) (xt_asset t) (xt_symbol t) (dec_to_string (dec_floor smallest))
                  (xt_pay_to t) "exact"))
  end.

(** [compute_settlement_options] *)
Fixpoint compute_settlement_options (tokens : list X402AcceptedToken) (price_wei : Z) : option (list ProtoSettlementOption) :=
  match tokens with
  | [] => Some []
  | t :: tokens =>
      r ← convert_settlement_token t price_wei;
      os ← compute_settlement_options tokens price_wei;
      Some (match r with Ok o => o :: os | Err _ => os end)
  end.

(** ** The service *)

Record PricingEngineService := mkService {
  quote_validity_duration_secs : Z;
  benchmark_cache : gmap Z BenchmarkProfile;
  pricing_config : gmap (option Z) (list ResourcePricing);
  job_pricing_config : gmap (Z * Z) Z;
  subscription_config : gmap (option Z) SubscriptionPricing;
  signer : OperatorSigner;
  pow_difficulty : Z;
  x402_config : option X402SettlementConfig;
  tee_config : TeePricing;
  ttl_curve : option TtlPricingCurve;
}.

(** [PricingEngineService::new_with_configs] and the setters *)
Definition new_with_configs (validity : Z) (cache : gmap Z BenchmarkProfile)
    (pricing : gmap (option Z) (list ResourcePricing)) (jobs : gmap (Z * Z) Z)
    (subscriptions : gmap (option Z) SubscriptionPricing) (s : OperatorSigner) : PricingEngineService :=
  mkService validity cache pricing jobs subscriptions s DEFAULT_POW_DIFFICULTY None tee_default None.
Definition with_tee_pricing (s : PricingEngineService) (t : TeePricing) : PricingEngineService :=
  mkService (quote_validity_duration_secs s) (benchmark_cache s) (pricing_config s) (job_pricing_config s)
    (subscription_config s) (signer s) (pow_difficulty s) (x402_config s) t (ttl_curve s).
Definition with_x402_settlement (s : PricingEngineService) (c : X402SettlementConfig) : PricingEngineService :=
  mkService (quote_validity_duration_secs s) (benchmark_cache s) (pricing_config s) (job_pricing_config s)
    (subscription_config s) (signer s) (pow_difficulty s) (Some c) (tee_config s) (ttl_curve s).
Definition with_ttl_curve (s : PricingEngineService) (c : TtlPricingCurve) : PricingEngineService :=
  mkService (quote_validity_duration_secs s) (benchmark_cache s) (pricing_config s) (job_pricing_config s)
    (subscription_config s) (signer s) (pow_difficulty s) (x402_config s) (tee_config s) (Some c).
Definition with_pow_difficulty (s : PricingEngineService) (d : Z) : PricingEngineService :=
  mkService (quote_validity_duration_secs s) (benchmark_cache s) (pricing_config s) (job_pricing_config s)
    (subscription_config s) (signer s) d (x402_config s) (tee_config s) (ttl_curve s).

Definition CHALLENGE_TIMESTAMP_TOLERANCE_SECS : Z := 30.

(** [parse_requester], [parse_inputs_hash] *)
Definition parse_requester (bytes : list Byte8) : result Status (list Byte8) :=
  if bool_decide (bytes = []) then Err (InvalidArgument "requester required and must be non-zero")
  else if negb (bool_decide (length bytes = 20%nat))
  then Err (InvalidArgument ("requester must be a 20-byte address, got " +:+ pretty (length bytes) +:+ " bytes"))
  else if is_zero_address bytes then Err (InvalidArgument "requester required and must be non-zero")
  else Ok bytes.
Definition parse_inputs_hash (bytes : list Byte8) : result Status (list Byte8) :=
  if bool_decide (bytes = [])
  then Err (InvalidArgument "inputs_hash required: keccak256 of the exact job inputs to be submitted on-chain")
  else if negb (bool_decide (length bytes = 32%nat))
  then Err (InvalidArgument ("inputs_hash must be a 32-byte keccak256 hash, got " +:+ pretty (length bytes) +:+ " bytes"))
  else Ok bytes.

(** The check of the challenge and of the work, which both calls begin with;
    it gives the challenge *)
Definition check_challenge_timestamp (now ts : Z) : result Status Z :=
  if 0 <? ts then
    if ts <? u64_sat_sub now CHALLENGE_TIMESTAMP_TOLERANCE_SECS then Err (InvalidArgument "Challenge timestamp is too old")
    else if u64_wrap (now + CHALLENGE_TIMESTAMP_TOLERANCE_SECS) <? ts
    then Err (InvalidArgument "Challenge timestamp is too far in the future")
    else Ok ts
  else Err (InvalidArgument "Challenge timestamp is missing or invalid").
Definition check_work (s : PricingEngineService) (now id ts : Z) (proof : list Byte8) : result Status (list Byte8) :=
  ts ← check_challenge_timestamp now ts;
  let challenge := generate_challenge id ts in
  ok ← map_err (λ _, InvalidArgument "Invalid proof of work") (verify_proof challenge proof (pow_difficulty s));
  if ok : bool then Ok challenge else Err (InvalidArgument "Invalid proof of work").

(** The clock of one call, and the attempts at a proof of work *)
Record PriceReadings := mkPriceReadings { pr_now : Z; pr_now_expiry : Z; pr_now_quote : Z; pr_fuel : nat }.

(** *** [get_price] *)

Definition lookup_or_default {A} (m : gmap (option Z) A) (id : Z) : option A :=
  match m !! Some id with Some a => Some a | None => m !! None end.

(** The price by the model that is asked for *)
Definition model_price (s : PricingEngineService) (model blueprint_id ttl_blocks : Z) : option (result Status PriceModel) :=
  if model =? 1 then
    match lookup_or_default (subscription_config s) blueprint_id with
    | Some p => Ok <$> calculate_subscription_price p
    | None => Some (Err (StatusNotFound ("No subscription pricing configured for blueprint " +:+ pretty blueprint_id)))
    end
  else if model =? 2 then
    match lookup_or_default (subscription_config s) blueprint_id with
    | Some p => Ok <$> calculate_event_price p
    | None => Some (Err (StatusNotFound ("No event pricing configured for blueprint " +:+ pretty blueprint_id)))
    end
  else if model =? 0 then
    match get_profile (benchmark_cache s) blueprint_id with
    | None => Some (Err (StatusNotFound ("No benchmark profile found for blueprint ID: " +:+ pretty blueprint_id)))
    | Some profile =>
        r ← calculate_price_with_curve profile (pricing_config s) (Some blueprint_id) ttl_blocks (ttl_curve s);
        Some (map_err (λ _, Internal "Failed to calculate price") r)
    end
  else Some (Err (InvalidArgument ("Unknown pricing_model value: " +:+ pretty model
    +:+ ". Expected 0 (PAY_ONCE), 1 (SUBSCRIPTION), or 2 (EVENT_DRIVEN)"))).

(** What is said of the attestation *)
Definition tee_attestation (s : PricingEngineService) (require_tee : bool) : bool * string :=
  if require_tee && tee_available (tee_config s) then (true, tee_provider (tee_config s)) else (false, "").

Definition tee_status (e : PricingError) : Status :=
  match e with
  | PeTeeNotAvailable => Unavailable "TEE execution is not available on this operator"
  | _ => Internal "TEE pricing error"
  end.

Definition proto_resource (r : ResourcePricing) : result Status ProtoResourcePricing :=
  rate ← ok_or (dec_to_f64 (price_per_unit_rate r)) (Internal "Price rate exceeds f64 range");
  Ok (mkProtoResource (resource_display (rp_kind r)) (rp_count r) rate).

(** The signed answer for a price *)
Definition quote_response (s : PricingEngineService) (rd : PriceReadings) (challenge : list Byte8)
    (details : QuoteDetails) (abi : AbiQuote) (attested : bool * string) : option (result Status (GetPriceResponse * AbiQuote)) :=
  pow ← generate_proof (pr_fuel rd) challenge (pow_difficulty s);
  Some (pow ← map_err (λ _, Internal "Failed to generate proof of work") pow;
    p ← map_err (λ _, Internal "Failed to sign price quote") (sign_quote (signer s) abi);
    Ok (mkPriceResponse details (p.1 ++ [27 + p.2]) (os_operator_id (signer s)) pow attested.1 attested.2, abi)).

(** [get_price]; the signed quote goes with the answer *)
Definition get_price (s : PricingEngineService) (rd : PriceReadings) (req : GetPriceRequest)
    : option (result Status (GetPriceResponse * AbiQuote)) :=
  match parse_requester (gp_requester req) with
  | Err e => Some (Err e)
  | Ok requester =>
  match check_work s (pr_now rd) (gp_blueprint_id req) (gp_challenge_timestamp req) (gp_proof_of_work req) with
  | Err e => Some (Err e)
  | Ok challenge =>
  match gp_security_requirements req with
  | None => Some (Err (InvalidArgument "Missing security requirements"))
  | Some requirements =>
  price ← model_price s (gp_pricing_model req) (gp_blueprint_id req) (gp_ttl_blocks req);
  match price with
  | Err e => Some (Err e)
  | Ok model =>
  tee ← apply_tee_pricing (total_cost model) (gp_require_tee req) (tee_config s);
  match map_err tee_status tee with
  | Err e => Some (Err e)
  | Ok total =>
  let attested := tee_attestation s (gp_require_tee req) in
  let commitment := mkCommitment (sr_asset requirements) (minimum_exposure_percent requirements) in
  let expiry := u64_wrap (pr_now_expiry rd + quote_validity_duration_secs s) in
  match traverse proto_resource (pm_resources model) with
  | Err e => Some (Err e)
  | Ok resources =>
  match dec_to_f64 total with
  | None => Some (Err (Internal "Total cost exceeds f64 range"))
  | Some total_f64 =>
  let details := mkQuote (gp_blueprint_id req) (gp_ttl_blocks req) total_f64 (pr_now_quote rd) expiry resources
    [commitment] requester in
  let confidentiality := confidentiality_u8 (if gp_require_tee req then ConfRequired else ConfAny) in
  abi ← build_abi_quote_details details total confidentiality requester;
  match abi with
  | Err _ => Some (Err (Internal "Failed to build signable quote"))
  | Ok abi => quote_response s rd challenge details abi attested
  end end end end end end end end.

(** *** [get_job_price] *)

(** The price with the premium for trusted execution *)
Definition tee_job_price (s : PricingEngineService) (price : Z) : option (result Status Z) :=
  match dec_from_str_exact (pretty price) with
  | Err e => Some (Err (Internal ("price→Decimal: " +:+ e)))
  | Ok d =>
      adjusted ← dec_mul d (tee_multiplier (tee_config s));
      Some (ok_or (u256_from_str_radix (dec_to_string (dec_floor adjusted))) (Internal "Decimal→U256"))
  end.

(** The answer for a price: the quote, the proof of work, the signature and the
    settlement options *)
Definition job_details (s : PricingEngineService) (now : Z) (req : GetJobPriceRequest) (price : Z) : ProtoJobQuoteDetails :=
  mkProtoJobQuote (gj_service_id req) (gj_job_index req) (to_be_bytes 32 price) now
    (u64_wrap (now + quote_validity_duration_secs s)) (if gj_require_tee req then 1 else 0) (gj_requester req)
    (gj_inputs_hash req).
Definition job_settlement (s : PricingEngineService) (price : Z) : option (list ProtoSettlementOption * string) :=
  match x402_config s with
  | Some x => os ← compute_settlement_options (x402_accepted_tokens x) price; Some (os, x402_endpoint x)
  | None => Some ([], "")
  end.
Definition job_answer (s : PricingEngineService) (rd : PriceReadings) (req : GetJobPriceRequest) (challenge : list Byte8)
    (price : Z) : option (result Status GetJobPriceResponse) :=
  let details := job_details s (pr_now rd) req price in
  let attested := tee_attestation s (gj_require_tee req) in
  pow ← generate_proof (pr_fuel rd) challenge (pow_difficulty s);
  match map_err (λ _, Internal "Failed to generate proof of work") pow with
  | Err e => Some (Err e)
  | Ok pow =>
  signed ← sign_job_quote (signer s) details;
  match map_err (λ _, Internal "Failed to sign job price quote") signed with
  | Err e => Some (Err e)
  | Ok (signature, recovery_id) =>
  options ← job_settlement s price;
  Some (Ok (mkJobPriceResponse details (signature ++ [27 + recovery_id]) (os_operator_id (signer s)) pow
              options.1 options.2 attested.1 attested.2))
  end end.

(** [get_job_price] *)
Definition get_job_price (s : PricingEngineService) (rd : PriceReadings) (req : GetJobPriceRequest)
    : option (result Status GetJobPriceResponse) :=
  match parse_requester (gj_requester req) with
  | Err e => Some (Err e)
  | Ok requester =>
  match parse_inputs_hash (gj_inputs_hash req) with
  | Err e => Some (Err e)
  | Ok inputs_hash =>
  match check_work s (pr_now rd) (gj_service_id req) (gj_challenge_timestamp req) (gj_proof_of_work req) with
  | Err e => Some (Err e)
  | Ok challenge =>
  if gj_require_tee req && negb (tee_available (tee_config s))
  then Some (Err (Unavailable "TEE execution is not available on this operator"))
  else
  match job_pricing_config s !! (gj_service_id req, gj_job_index req) with
  | None => Some (Err (StatusNotFound ("No pricing configured for service " +:+ pretty (gj_service_id req)
      +:+ " job index " +:+ pretty (gj_job_index req))))
  | Some base =>
  price ← if gj_require_tee req then tee_job_price s base else Some (Ok base);
  match price with
  | Err e => Some (Err e)
  | Ok price => job_answer s rd req challenge price
  end end end end end.

End server.

(** ** Theorems *)

Section laws.
  Context `{U : Uppercase} `{D : DecimalOps} `{PD : !PriceDecimals D} `{UT : U256Text} `{UTL : !U256TextLaws UT}
    `{PW : PowLib} `{PWL : !PowLaws PW} `{KL : K256Lib} `{KLL : !K256Laws KL} `{E7 : QuoteEip712} `{E7L : !QuoteEip712Laws E7}.

Lemma parse_requester_ok bytes a :
  parse_requester bytes = Ok a ↔ a = bytes ∧ length bytes = 20%nat ∧ is_zero_address bytes = false.
Proof.
  unfold parse_requester. destruct bytes as [|b bytes]; [split; [done|by intros (_ & ? & _)]|].
  rewrite bool_decide_false by done. generalize (b :: bytes) as l. intros l.
  case_bool_decide; simpl; [|split; [done|by intros (_ & ? & _)]].
  destruct (is_zero_address l); (split; [|by intros (-> & _ & ?)]); [done|]. by intros [= <-].
Qed.

Lemma parse_inputs_hash_ok bytes a : parse_inputs_hash bytes = Ok a ↔ a = bytes ∧ length bytes = 32%nat.
Proof.
  unfold parse_inputs_hash. destruct bytes as [|b bytes]; [split; [done|by intros (_ & ?)]|].
  rewrite bool_decide_false by done. generalize (b :: bytes) as l. intros l.
  case_bool_decide; simpl; (split; [|by intros (-> & ?)]); [by intros [= <-]|done].
Qed.

(** The work was done for a time near the present. *)
Definition near (now ts : Z) : Prop :=
  0 < ts ∧ u64_sat_sub now CHALLENGE_TIMESTAMP_TOLERANCE_SECS ≤ ts ≤ u64_wrap (now + CHALLENGE_TIMESTAMP_TOLERANCE_SECS).

Lemma check_work_ok s now id ts proof challenge :
  check_work s now id ts proof = Ok challenge ↔
  challenge = generate_challenge id ts ∧ near now ts ∧ verify_proof challenge proof (pow_difficulty s) = Ok true.
Proof.
  unfold check_work, check_challenge_timestamp, near.
  destruct (Z.ltb_spec 0 ts); [|split; [done|intros (_ & ? & _); lia]].
  destruct (Z.ltb_spec ts (u64_sat_sub now CHALLENGE_TIMESTAMP_TOLERANCE_SECS)); [split; [done|intros (_ & ? & _); lia]|].
  destruct (Z.ltb_spec (u64_wrap (now + CHALLENGE_TIMESTAMP_TOLERANCE_SECS)) ts); [split; [done|intros (_ & ? & _); lia]|].
  simpl. destruct (verify_proof (generate_challenge id ts) proof (pow_difficulty s)) as [[]|e] eqn:Hv; simpl.
  - split; [intros [= <-]; split_and!; done|by intros (-> & _)].
  - split; [done|]. intros (-> & _ & ?). congruence.
  - split; [done|]. intros (-> & _ & ?). congruence.
Qed.

(** Work that was accepted lets the service do its own. *)
Lemma work_feasible challenge proof d :
  verify_proof challenge proof d = Ok true →
  ∃ n, 0 ≤ n < 2 ^ 64 ∧ check_difficulty (calculate_hash challenge n) d = true.
Proof.
  intros (p & Hp & Hh & Hc)%verify_proof_ok. exists (pf_nonce p). split; [by apply (proof_nonce_u64 proof)|]. by rewrite <-Hh.
Qed.

(** *** Signing *)

Lemma sign_job_quote_ok s d native :
  proto_to_native_job_quote d = Some (Ok native) →
  ∃ sig r, sign_job_quote s d = Some (Ok (sig, r)) ∧ length sig = 64%nat ∧ (r = 0 ∨ r = 1) ∧
    verify_prehash (verifying_key (os_keypair s)) (job_quote_digest_eip712 native (os_domain s)) sig = true.
Proof.
  intros Hn. unfold sign_job_quote. rewrite Hn. simpl.
  destruct (sign_prehash_ok (os_keypair s) (job_quote_digest_eip712 native (os_domain s))) as (sig & r & Hs & Hl & Hr & Hv);
    [apply quote_keccak_length|]. rewrite Hs. simpl. exists sig, r. done.
Qed.

Lemma sign_job_quote_err s d e : proto_to_native_job_quote d = Some (Err e) → sign_job_quote s d = Some (Err e).
Proof. intros Hn. unfold sign_job_quote. by rewrite Hn. Qed.

Lemma native_job_quote sid job price ts exp conf req hash :
  0 ≤ price < 2 ^ 256 → 0 ≤ conf ≤ 255 → length req = 20%nat → is_zero_address req = false → length hash = 32%nat →
  proto_to_native_job_quote (mkProtoJobQuote sid job (to_be_bytes 32 price) ts exp conf req hash) =
  Some (if negb ((0 <=? job) && (job <=? 255))
        then signing_err ("job_index " +:+ pretty job +:+ " exceeds u8 range (max 255)")
        else Ok (mkJobQuote req sid job price ts exp conf hash)).
Proof.
  intros Hp Hc Hr Hz Hh. unfold proto_to_native_job_quote. cbn [pj_price pj_job_index pj_requester pj_inputs_hash
    pj_confidentiality pj_service_id pj_timestamp pj_expiry].
  assert (match to_be_bytes 32 price with [] => 0 | bytes => from_be_bytes bytes end = price) as ->.
  { pose proof (length_to_be_bytes 32 price) as Hl. destruct (to_be_bytes 32 price) eqn:He; [done|]. rewrite <-He.
    apply from_to_be_bytes_small. done. }
  rewrite (proj2 (Z.leb_gt _ _)) by lia. rewrite bool_decide_true by done. rewrite Hz.
  rewrite bool_decide_true by done. rewrite (proj2 (Z.leb_le 0 conf)), (proj2 (Z.leb_le conf 255)) by lia.
  by destruct ((0 <=? job) && (job <=? 255)).
Qed.

(** *** Job quotes *)

(** The price of a job for a request *)
Definition job_price (s : PricingEngineService) (req : GetJobPriceRequest) (price : Z) : Prop :=
  ∃ base, job_pricing_config s !! (gj_service_id req, gj_job_index req) = Some base ∧
    if gj_require_tee req
    then tee_available (tee_config s) = true ∧ tee_job_price s base = Some (Ok price)
    else price = base.

(** The quote that answers a request *)
Definition quote_for (s : PricingEngineService) (now : Z) (req : GetJobPriceRequest) (price : Z) : JobQuoteDetails :=
  mkJobQuote (gj_requester req) (gj_service_id req) (gj_job_index req) price now
    (u64_wrap (now + quote_validity_duration_secs s)) (if gj_require_tee req then 1 else 0) (gj_inputs_hash req).

Definition prices_fit (s : PricingEngineService) : Prop :=
  map_Forall (λ _ p, 0 ≤ p < 2 ^ 256) (job_pricing_config s).

Lemma job_price_range s req price : prices_fit s → job_price s req price → 0 ≤ price < 2 ^ 256.
Proof.
  intros Hf (base & Hb & Hp). pose proof (Hf _ _ Hb) as Hr. cbn in Hr. destruct (gj_require_tee req); [|by subst].
  destruct Hp as [_ Hp]. unfold tee_job_price in Hp. destruct (dec_from_str_exact _) as [d|e]; [|done].
  destruct (dec_mul d _) as [a|]; [|done]. simpl in Hp. destruct (u256_from_str_radix _) as [x|] eqn:Hx; [|done].
  simpl in Hp. injection Hp as <-. by apply (u256_range _ _ Hx).
Qed.

(** What a job request must satisfy *)
Definition acceptable (s : PricingEngineService) (now : Z) (req : GetJobPriceRequest) : Prop :=
  length (gj_requester req) = 20%nat ∧ is_zero_address (gj_requester req) = false ∧
  length (gj_inputs_hash req) = 32%nat ∧ near now (gj_challenge_timestamp req) ∧
  verify_proof (generate_challenge (gj_service_id req) (gj_challenge_timestamp req)) (gj_proof_of_work req)
    (pow_difficulty s) = Ok true.

(** What the answer is, for a price *)
Definition answers (s : PricingEngineService) (now : Z) (req : GetJobPriceRequest) (price : Z) (resp : GetJobPriceResponse) : Prop :=
  jr_quote_details resp = job_details s now req price ∧
  (∃ sig r, jr_signature resp = sig ++ [27 + r] ∧ length sig = 64%nat ∧ (r = 0 ∨ r = 1) ∧
     verify_job_quote (mkSignedJobQuote (quote_for s now req price) sig r (jr_operator_id resp))
       (verifying_key (os_keypair (signer s))) (os_domain (signer s)) = true) ∧
  jr_operator_id resp = os_operator_id (signer s) ∧
  verify_proof (generate_challenge (gj_service_id req) (gj_challenge_timestamp req)) (jr_proof_of_work resp)
    (pow_difficulty s) = Ok true ∧
  (jr_tee_attested resp, jr_tee_provider resp) = tee_attestation s (gj_require_tee req) ∧
  job_settlement s price = Some (jr_settlement_options resp, jr_x402_endpoint resp).

Lemma generated_proof_verifies fuel challenge d bytes :
  generate_proof fuel challenge d = Some (Ok bytes) → verify_proof challenge bytes d = Ok true.
Proof.
  unfold generate_proof. intros Hg. assert (is_u64 0) as H0 by (by vm_compute). revert H0 Hg. generalize 0 at 1 2 as n.
  induction fuel as [|fuel IH]; intros n Hn; cbn [search_proof]; [done|].
  destruct (check_difficulty (calculate_hash challenge n) d) eqn:Hc.
  - destruct (proof_round_trip (mkProof (calculate_hash challenge n) n) Hn) as (bs & Hs & Hds). rewrite Hs.
    intros [= <-]. apply verify_proof_ok. by eexists.
  - intros Hg. by apply (IH _ (u64_wrap_is_u64 _)) in Hg.
Qed.

Lemma job_details_native s now req price :
  0 ≤ price < 2 ^ 256 → length (gj_requester req) = 20%nat → is_zero_address (gj_requester req) = false →
  length (gj_inputs_hash req) = 32%nat →
  proto_to_native_job_quote (job_details s now req price) =
  Some (if negb ((0 <=? gj_job_index req) && (gj_job_index req <=? 255))
        then signing_err ("job_index " +:+ pretty (gj_job_index req) +:+ " exceeds u8 range (max 255)")
        else Ok (quote_for s now req price)).
Proof. intros. apply native_job_quote; try done. by destruct (gj_require_tee req). Qed.

Lemma job_answer_inv s rd req challenge price resp :
  job_answer s rd req challenge price = Some (Ok resp) →
  ∃ pow sig r os, generate_proof (pr_fuel rd) challenge (pow_difficulty s) = Some (Ok pow) ∧
    sign_job_quote (signer s) (job_details s (pr_now rd) req price) = Some (Ok (sig, r)) ∧
    job_settlement s price = Some os ∧
    resp = mkJobPriceResponse (job_details s (pr_now rd) req price) (sig ++ [27 + r]) (os_operator_id (signer s)) pow
      os.1 os.2 (tee_attestation s (gj_require_tee req)).1 (tee_attestation s (gj_require_tee req)).2.
Proof.
  unfold job_answer. destruct (generate_proof _ _ _) as [[pow|e]|]; [|done..].
  destruct (sign_job_quote _ _) as [[[sig r]|e]|]; [|done..]. destruct (job_settlement s price) as [os|]; [|done].
  intros [= <-]. by exists pow, sig, r, os.
Qed.

Lemma job_answer_intro s rd req challenge price pow sig r os :
  generate_proof (pr_fuel rd) challenge (pow_difficulty s) = Some (Ok pow) →
  sign_job_quote (signer s) (job_details s (pr_now rd) req price) = Some (Ok (sig, r)) →
  job_settlement s price = Some os →
  ∃ resp, job_answer s rd req challenge price = Some (Ok resp).
Proof.
  unfold job_answer. destruct (generate_proof _ _ _) as [[pow'|e]|]; [|done..]. intros _.
  destruct (sign_job_quote _ _) as [[[sig' r']|e]|]; [|done..]. intros _. destruct (job_settlement s price); [|done].
  intros _. by eexists.
Qed.

Lemma job_answer_ok s rd req price resp :
  0 ≤ price < 2 ^ 256 → acceptable s (pr_now rd) req →
  job_answer s rd req (generate_challenge (gj_service_id req) (gj_challenge_timestamp req)) price = Some (Ok resp) →
  0 ≤ gj_job_index req ≤ 255 ∧ answers s (pr_now rd) req price resp.
Proof.
  intros Hp (Hrl & Hrz & Hil & _) (pow & sig & r & [os ep] & Hpow & Hsign & Ho & ->)%job_answer_inv.
  pose proof (job_details_native s (pr_now rd) req price Hp Hrl Hrz Hil) as Hn. destruct (negb _) eqn:Hj in Hn.
  { rewrite (sign_job_quote_err _ _ _ Hn) in Hsign. by injection Hsign. }
  destruct (sign_job_quote_ok (signer s) _ _ Hn) as (sig' & r' & Hs & Hsl & Hrr & Hver). rewrite Hs in Hsign.
  injection Hsign as -> ->. apply negb_false_iff, andb_prop in Hj as [Hj1%Z.leb_le Hj2%Z.leb_le].
  split; [done|]. split; [reflexivity|]. split; [exists sig, r; by split_and!|]. split; [reflexivity|].
  split; [by apply generated_proof_verifies in Hpow|]. split; [by destruct (tee_attestation s (gj_require_tee req))|exact Ho].
Qed.

(** C9. A signed job quote is what the operator stands for.  It is given only for a
    non-zero requester, an input hash, fresh work and a configured price, with the
    premium where trusted execution was asked for; the signature verifies for
    exactly the requester, the service, the job, the price, the lifetime, the
    confidentiality and the inputs of the request. *)
Theorem job_quote_correct s rd req resp :
  prices_fit s → get_job_price s rd req = Some (Ok resp) →
  acceptable s (pr_now rd) req ∧ 0 ≤ gj_job_index req ≤ 255 ∧
  ∃ price, job_price s req price ∧ answers s (pr_now rd) req price resp.
Proof.
  intros Hfit. unfold get_job_price. destruct (parse_requester _) as [requester|e] eqn:Hr; [|done].
  apply parse_requester_ok in Hr as (-> & Hrl & Hrz).
  destruct (parse_inputs_hash _) as [hash|e] eqn:Hi; [|done]. apply parse_inputs_hash_ok in Hi as (-> & Hil).
  destruct (check_work _ _ _ _ _) as [challenge|e] eqn:Hw; [|done]. apply check_work_ok in Hw as (-> & Hnear & Hv).
  destruct (gj_require_tee req && negb _) eqn:Htee; [done|].
  destruct (job_pricing_config s !! _) as [base|] eqn:Hb; [|done].
  destruct (if gj_require_tee req then tee_job_price s base else Some (Ok base)) as [[price|e]|] eqn:Hp; [|done..].
  assert (job_price s req price) as Hprice.
  { exists base. split; [done|]. destruct (gj_require_tee req); [|by injection Hp]. split; [|done].
    by destruct (tee_available (tee_config s)). }
  cbn [mbind option_bind]. intros Ha. assert (acceptable s (pr_now rd) req) as Hacc by done.
  apply job_answer_ok in Ha as [Hj Ha]; [|by eapply job_price_range|done]. split_and!; [done|lia|lia|]. by exists price.
Qed.

(** A fair request is answered: with a price for the job, and settlement
    amounts that are representable, an acceptable request gets its quote, after a
    finite search for the service's own proof of work. *)
Theorem job_quote_available s now req price :
  prices_fit s → acceptable s now req → 0 ≤ gj_job_index req ≤ 255 → job_price s req price →
  is_Some (job_settlement s price) →
  ∃ fuel, ∀ rd, pr_now rd = now → (fuel ≤ pr_fuel rd)%nat →
    ∃ resp, get_job_price s rd req = Some (Ok resp) ∧ answers s now req price resp.
Proof.
  intros Hfit Hacc Hj Hprice [[os ep] Ho]. pose proof Hacc as (Hrl & Hrz & Hil & Hnear & Hv).
  destruct (work_feasible _ _ _ Hv) as (n & Hn & Hc).
  exists (S (Z.to_nat n)). intros rd <- Hf.
  assert (∃ resp, job_answer s rd req (generate_challenge (gj_service_id req) (gj_challenge_timestamp req)) price
    = Some (Ok resp)) as [resp Hresp].
  { pose proof (job_details_native s (pr_now rd) req price (job_price_range _ _ _ Hfit Hprice) Hrl Hrz Hil) as Hnat.
    rewrite (proj2 (Z.leb_le 0 (gj_job_index req))), (proj2 (Z.leb_le (gj_job_index req) 255)) in Hnat by lia.
    destruct (sign_job_quote_ok (signer s) _ _ Hnat) as (sig & r & Hs & _).
    destruct (generate_proof_ends (pr_fuel rd) _ _ n Hn ltac:(lia) Hc) as [pow Hpow].
    eapply job_answer_intro; [exact Hpow|exact Hs|exact Ho]. }
  exists resp. split; [|by apply job_answer_ok in Hresp as [_ Ha]; [|by eapply job_price_range|]].
  destruct Hprice as (base & Hb & Hp). unfold get_job_price.
  rewrite (proj2 (parse_requester_ok _ _) (conj eq_refl (conj Hrl Hrz))).
  rewrite (proj2 (parse_inputs_hash_ok _ _) (conj eq_refl Hil)).
  rewrite (proj2 (check_work_ok s (pr_now rd) (gj_service_id req) (gj_challenge_timestamp req) (gj_proof_of_work req) _)
    (conj eq_refl (conj Hnear Hv))). rewrite Hb.
  destruct (gj_require_tee req) eqn:Ht.
  - destruct Hp as [Hav Hp]. rewrite Hav, Hp. exact Hresp.
  - subst price. exact Hresp.
Qed.

(** *** Service quotes *)

Lemma resource_round_trip u n : resource_kind_number u = Some n → resource_from_str (resource_display u) = Some u.
Proof.
  intros Hn. unfold resource_from_str. rewrite to_uppercase_ascii; [by destruct u|]. by destruct u.
Qed.

Lemma measured_kinds p : Forall (λ m, is_Some (resource_kind_number m.1)) (measured p).
Proof.
  unfold measured. repeat apply Forall_app_2; repeat case_match; repeat constructor; by eexists.
Qed.

Lemma priced_kinds rates ttl curve l acc r :
  Forall (λ m, is_Some (resource_kind_number m.1)) l →
  Forall (λ p, is_Some (resource_kind_number (rp_kind p))) acc.1 →
  fold_opt (price_resource rates ttl curve) acc l = Some r →
  Forall (λ p, is_Some (resource_kind_number (rp_kind p))) r.1.
Proof.
  intros Hl. revert acc. induction Hl as [|[kind count] l Hk Hl IH]; intros acc Hacc; cbn [fold_opt]; [by intros [= <-]|].
  destruct (price_resource _ _ _ acc (kind, count)) as [acc'|] eqn:Hp; [|done]. cbn [mbind option_bind]. apply IH.
  unfold price_resource in Hp. destruct (count =? 0); [by injection Hp as <-|].
  destruct (rate_of rates kind) as [rate|]; [|by injection Hp as <-].
  destruct (calculate_resource_price_with_curve _ _ _ _) as [p|]; [|done]. cbn [mbind option_bind] in Hp.
  destruct (dec_add acc.2 p) as [total|]; [|done]. injection Hp as <-. cbn. apply Forall_app. split; [done|]. by constructor.
Qed.

Lemma model_price_kinds s model id ttl m :
  model_price s model id ttl = Some (Ok m) → Forall (λ p, is_Some (resource_kind_number (rp_kind p))) (pm_resources m).
Proof.
  unfold model_price. destruct (model =? 1); [|destruct (model =? 2); [|destruct (model =? 0); [|done]]].
  - destruct (lookup_or_default _ id) as [p|]; [|done]. unfold calculate_subscription_price.
    destruct (dec_mul _ _); [|done]. intros [= <-]. constructor.
  - destruct (lookup_or_default _ id) as [p|]; [|done]. unfold calculate_event_price.
    destruct (dec_mul _ _); [|done]. intros [= <-]. constructor.
  - destruct (get_profile _ id) as [profile|]; [|done]. unfold calculate_price_with_curve.
    destruct (from_option _ _ _) as [rates|]; [|done].
    destruct (fold_opt _ _ _) as [[rs total]|] eqn:Hf; [|done]. intros [= <-].
    apply priced_kinds in Hf; [done|apply measured_kinds|constructor].
Qed.

(** The commitments of a quote are the priced resources. *)
Definition abi_resource (r : ResourcePricing) : AbiResource :=
  mkAbiResource (default 0 (resource_kind_number (rp_kind r))) (rp_count r).

Lemma traverse_cons {E A B} (f : A → result E B) a l bs :
  traverse f (a :: l) = Ok bs → ∃ b bs', bs = b :: bs' ∧ f a = Ok b ∧ traverse f l = Ok bs'.
Proof.
  cbn [traverse]. destruct (f a) as [b|e]; [|done]. destruct (traverse f l) as [bs'|e]; [|done].
  intros [= <-]. eauto.
Qed.

Lemma resource_committed r n pr ar :
  resource_kind_number (rp_kind r) = Some n → proto_resource r = Ok pr →
  proto_resource_commitment_to_abi pr = Ok ar → ar = abi_resource r.
Proof.
  intros Hn. unfold proto_resource, proto_resource_commitment_to_abi, abi_resource.
  destruct (dec_to_f64 _) as [rate|]; [|done]. intros [= <-]. cbn [pr_kind pr_count].
  rewrite (resource_round_trip _ _ Hn). cbn [ok_or mbind result_bind]. rewrite Hn. by intros [= <-].
Qed.

Lemma resources_committed rs prs ars :
  Forall (λ p, is_Some (resource_kind_number (rp_kind p))) rs →
  traverse proto_resource rs = Ok prs → traverse proto_resource_commitment_to_abi prs = Ok ars →
  ars = abi_resource <$> rs.
Proof.
  intros Hk. revert prs ars. induction Hk as [|r rs [n Hn] Hk IH]; intros prs ars Hp Ha.
  - injection Hp as <-. by injection Ha as <-.
  - apply traverse_cons in Hp as (pr & prs' & -> & Hr & Hp).
    apply traverse_cons in Ha as (ar & ars' & -> & Har & Ha).
    rewrite (resource_committed _ _ _ _ Hn Hr Har). cbn. f_equal. by eapply IH.
Qed.

Lemma build_abi_ok d total conf requester q :
  build_abi_quote_details d total conf requester = Some (Ok q) →
  traverse proto_commitment_to_abi (qd_security_commitments d) = Ok (aq_security_commitments q) ∧
  traverse proto_resource_commitment_to_abi (qd_resources d) = Ok (aq_resource_commitments q) ∧
  decimal_to_scaled_amount total = Some (Ok (aq_total_cost q)) ∧
  q = mkAbiQuote requester (qd_blueprint_id d) (qd_ttl_blocks d) (aq_total_cost q) (qd_timestamp d) (qd_expiry d) conf 0 0
        (aq_security_commitments q) (aq_resource_commitments q).
Proof.
  unfold build_abi_quote_details. destruct (traverse _ (qd_security_commitments d)) as [cs|e]; [|done].
  destruct (traverse _ (qd_resources d)) as [rs|e]; [|done].
  destruct (decimal_to_scaled_amount total) as [[cost|e]|]; [|done..]. by intros [= <-].
Qed.

Lemma quote_response_ok s rd challenge details abi attested resp q :
  quote_response s rd challenge details abi attested = Some (Ok (resp, q)) →
  q = abi ∧ pr_quote_details resp = details ∧ pr_operator_id resp = os_operator_id (signer s) ∧
  (pr_tee_attested resp, pr_tee_provider resp) = attested ∧
  verify_proof challenge (pr_proof_of_work resp) (pow_difficulty s) = Ok true ∧
  ∃ sig r, pr_signature resp = sig ++ [27 + r] ∧ length sig = 64%nat ∧ (r = 0 ∨ r = 1) ∧
    verify_quote abi sig (verifying_key (os_keypair (signer s))) (os_domain (signer s)) = true.
Proof.
  unfold quote_response. destruct (generate_proof _ _ _) as [[pow|e]|] eqn:Hg; [|done..].
  apply generated_proof_verifies in Hg.
  destruct (sign_prehash_ok (os_keypair (signer s)) (quote_digest_eip712 abi (os_domain (signer s))))
    as (sig & r & Hs & Hl & Hr & Hv); [apply quote_digest_length|].
  unfold sign_quote. destruct (sign_prehash_recoverable _ _) as [p|e]; [|done]. injection Hs as ->.
  intros [= <- <-]. split_and!; try done; [by destruct attested|]. exists sig, r. by split_and!.
Qed.

(** A signed service quote is what the operator stands for: it is given only for
    a non-zero requester, fresh work, stated security requirements and a price by
    the model that was asked for, with the premium for trusted execution; the
    signature verifies for a quote that names the requester, the blueprint, the
    duration, that price in nine decimals, the confidentiality, and as commitments
    the priced resources. *)
Theorem service_quote_correct s rd req resp q :
  get_price s rd req = Some (Ok (resp, q)) →
  length (gp_requester req) = 20%nat ∧ is_zero_address (gp_requester req) = false ∧
  near (pr_now rd) (gp_challenge_timestamp req) ∧
  verify_proof (generate_challenge (gp_blueprint_id req) (gp_challenge_timestamp req)) (gp_proof_of_work req)
    (pow_difficulty s) = Ok true ∧
  ∃ requirements model total,
    gp_security_requirements req = Some requirements ∧
    model_price s (gp_pricing_model req) (gp_blueprint_id req) (gp_ttl_blocks req) = Some (Ok model) ∧
    apply_tee_pricing (total_cost model) (gp_require_tee req) (tee_config s) = Some (Ok total) ∧
    decimal_to_scaled_amount total = Some (Ok (aq_total_cost q)) ∧
    q = mkAbiQuote (gp_requester req) (gp_blueprint_id req) (gp_ttl_blocks req) (aq_total_cost q) (pr_now_quote rd)
          (u64_wrap (pr_now_expiry rd + quote_validity_duration_secs s)) (if gp_require_tee req then 1 else 0) 0 0
          (aq_security_commitments q) (abi_resource <$> pm_resources model) ∧
    traverse proto_commitment_to_abi [mkCommitment (sr_asset requirements) (minimum_exposure_percent requirements)]
      = Ok (aq_security_commitments q) ∧
    (pr_tee_attested resp, pr_tee_provider resp) = tee_attestation s (gp_require_tee req) ∧
    ∃ sig r, pr_signature resp = sig ++ [27 + r] ∧ length sig = 64%nat ∧ (r = 0 ∨ r = 1) ∧
      verify_quote q sig (verifying_key (os_keypair (signer s))) (os_domain (signer s)) = true.
Proof.
  unfold get_price. destruct (parse_requester _) as [requester|e] eqn:Hr; [|done].
  apply parse_requester_ok in Hr as (-> & Hrl & Hrz).
  destruct (check_work _ _ _ _ _) as [challenge|e] eqn:Hw; [|done]. apply check_work_ok in Hw as (-> & Hnear & Hv).
  destruct (gp_security_requirements req) as [reqs|] eqn:Hreq; [|done].
  destruct (model_price _ _ _ _) as [[model|e]|] eqn:Hm; [|done..]. cbn [mbind option_bind].
  destruct (apply_tee_pricing _ _ _) as [[total|e]|] eqn:Ht; [|done..]. cbn [mbind option_bind map_err].
  destruct (traverse proto_resource _) as [rs|e] eqn:Hrs; [|done].
  destruct (dec_to_f64 total) as [tf|]; [|done].
  destruct (build_abi_quote_details _ _ _ _) as [[abi|e]|] eqn:Hb; [|done..]. cbn [mbind option_bind].
  intros (-> & Hd & Hop & Hat & Hpw & Hsig)%quote_response_ok.
  apply build_abi_ok in Hb as (Hc & Hra & Hcost & Habi). cbn [qd_security_commitments qd_resources] in Hc, Hra.
  rewrite (resources_committed _ _ _ (model_price_kinds _ _ _ _ _ Hm) Hrs Hra) in Habi.
  split_and!; [done..|]. exists reqs, model, total. split_and!; try done.
  rewrite Habi at 1. cbn [qd_blueprint_id qd_ttl_blocks qd_timestamp qd_expiry]. by destruct (gp_require_tee req).
Qed.

(** *** Settlement amounts *)

(** A token of the gateway and the engine's copy of it *)
Definition same_token (t : AcceptedToken) (x : X402AcceptedToken) : Prop :=
  xt_network x = network t ∧ xt_asset x = asset t ∧ xt_symbol x = symbol t ∧ xt_decimals x = decimals t ∧
  xt_pay_to x = pay_to t ∧ xt_rate_per_native_unit x = rate_per_native_unit t ∧ xt_markup_bps x = markup_bps t.

Lemma convert_same t x price d :
  same_token t x → dec_from_str_exact (pretty price) = Ok d →
  match convert_wei_to_amount t price with
  | Some (Ok amount) => convert_settlement_token x price
      = Some (Ok (mkProtoSettlement (network t) (asset t) (symbol t) amount (pay_to t) "exact"))
  | Some (Err _) => False
  | None => convert_settlement_token x price = None
  end.
Proof.
  intros (Hn & Ha & Hs & Hd & Hp & Hr & Hm) Hdec. unfold convert_settlement_token, convert_wei_to_amount.
  rewrite Hn, Ha, Hs, Hd, Hp, Hr, Hm, Hdec.
  destruct (dec_div d (dec_from (10 ^ 18))) as [a|]; [|done]. cbn [mbind option_bind].
  destruct (dec_mul a (rate_per_native_unit t)) as [b|]; [|done]. cbn [mbind option_bind].
  destruct (dec_div (dec_from (markup_bps t)) (dec_from 10000)) as [c|]; [|done]. cbn [mbind option_bind].
  destruct (dec_add (dec_from 1) c) as [m|]; [|done]. cbn [mbind option_bind].
  destruct (dec_mul b m) as [f|]; [|done]. cbn [mbind option_bind].
  by destruct (dec_mul f (dec_from (u64_wrap (10 ^ decimals t)))) as [g|].
Qed.

Lemma convertible_options protocol scheme endpoint price d ts e :
  dec_from_str_exact (pretty price) = Ok d →
  settlement_options_for protocol scheme endpoint price ts ≠ Some (Err e).
Proof.
  intros Hdec. induction ts as [|t ts IH]; cbn [settlement_options_for]; [done|].
  pose proof (convert_same t (mkX402Token (network t) (asset t) (symbol t) (decimals t) (pay_to t)
    (rate_per_native_unit t) (markup_bps t)) price d ltac:(done) Hdec) as Hc.
  destruct (convert_wei_to_amount t price) as [[amount|e']|]; [|done|done].
  by destruct (settlement_options_for _ _ _ _ ts) as [[os|e']|].
Qed.

Lemma unconvertible_options tokens price e :
  dec_from_str_exact (pretty price) = Err e → compute_settlement_options tokens price = Some [].
Proof.
  intros He. induction tokens as [|x xs IH]; [done|]. cbn [compute_settlement_options].
  unfold convert_settlement_token. rewrite He. cbn [mbind option_bind]. by rewrite IH.
Qed.

(** C36. The engine and the payment gateway quote the same amounts: for the same
    tokens and a price that the gateway can convert, the options that go out with a
    signed quote are those of the gateway, in the same order; and where the gateway
    refuses the price, the engine offers nothing. *)
Theorem settlement_options_agree config tokens service_id job_index price :
  Forall2 same_token (accepted_tokens config) tokens →
  (∀ os, settlement_options config service_id job_index price = Some (Ok os) →
     compute_settlement_options tokens price
     = Some ((λ o, mkProtoSettlement (so_network o) (so_asset o) (so_symbol o) (so_amount o) (so_pay_to o) (so_scheme o)) <$> os)) ∧
  (∀ e, settlement_options config service_id job_index price = Some (Err e) → compute_settlement_options tokens price = Some []).
Proof.
  intros Htok. destruct (dec_from_str_exact (pretty price)) as [d|e0] eqn:Hdec; unfold settlement_options;
    generalize ("http://" +:+ bind_address config +:+ "/x402/jobs/" +:+ pretty service_id +:+ "/" +:+ pretty job_index)
    as endpoint; intros endpoint.
  - assert (∀ ts e, settlement_options_for ProtoX402 "exact" endpoint price ts = Some (Err e) → False) as Hgw
      by (intros ts e; by apply (convertible_options _ _ _ _ d)).
    induction Htok as [|t x ts xs Htx Hts [IH1 IH2]]; cbn [settlement_options_for compute_settlement_options];
      [split; [by intros os [= <-]|done]|].
    pose proof (convert_same t x price d Htx Hdec) as Hc. destruct (convert_wei_to_amount t price) as [[amount|e]|]; [|done|done].
    rewrite Hc. cbn [mbind option_bind]. destruct (settlement_options_for _ _ _ _ ts) as [[os|e]|] eqn:Hgts; [| |done].
    + split; [|done]. intros os' [= <-]. by rewrite (IH1 _ eq_refl).
    + split; [done|]. intros e' _. destruct (Hgw ts e Hgts).
  - rewrite (unconvertible_options _ _ _ Hdec). split; [|done]. intros os Hos. do 2 f_equal.
    destruct Htok as [|t x ts xs Htx Hts]; [by injection Hos as <-|]. revert Hos. cbn [settlement_options_for].
    unfold convert_wei_to_amount. by rewrite Hdec.
Qed.

End laws.
