(* ===== verification/PricingExamples.v ===== *)
(** * The pricing engine at work

    An operator with whole-number prices, to which the theorems on the engine are
    applied, and the behaviour of the price tables on unexpected values. *)

From Stdlib Require Import ZArith Lia Ascii SpecFloat.
From stdpp Require Import base gmap sets list sorting strings pretty fin_maps numbers relations.
From S2P Require Import Prelude Bytes Text Float EvmLog X402Config Pow JobQuote Pricing PricingToml PricingRpc.

#[local] Open Scope Z_scope.

(** ** Libraries *)

#[local] Instance toy_uppercase : Uppercase := {| to_uppercase := to_ascii_uppercase; to_uppercase_ascii s _ := eq_refl |}.

(** Integers for decimals *)
#[local] Instance toy_prices : DecimalOps := {|
  Dec := Z;
  dec_from_str_exact s := ok_or (parse_u64 s) "not a number"%string;
  dec_from z := z;
  dec_add a b := Some (a + b);
  dec_mul a b := Some (a * b);
  dec_div a b := if b =? 0 then None else Some (a / b);
  dec_floor a := a;
  dec_leb := Z.leb;
  dec_to_string := pretty;
|}.
#[local] Instance toy_price_decimals : PriceDecimals toy_prices := {|
  dec_try_from_f64 x := if is_nan x || is_infinite x then None else Some (floor_as_u64 x);
  dec_trunc a := a;
  dec_is_sign_negative a := a <? 0;
  dec_is_zero a := a =? 0;
  dec_to_u128 a := if a <? 2 ^ 128 then Some a else None;
  dec_to_u64 a := if a <=? u64_max then Some a else None;
  dec_to_f64 a := Some (f64_of a);
|}.
#[local] Instance toy_u256 : U256Text := {| u256_from_str_radix := parse_digits (2 ^ 256 - 1) 0 |}.
#[local] Instance toy_u256_laws : U256TextLaws toy_u256.
Proof.
  split.
  - intros x Hx. apply parse_digits_pretty. lia.
  - intros s x Hs%parse_digits_range; lia.
Qed.
#[local] Existing Instance demo_pow.
#[local] Instance toy_eip712 : QuoteEip712 := {| quote_digest_eip712 q _ := to_be_bytes 32 (aq_total_cost q) |}.
#[local] Instance toy_eip712_laws : QuoteEip712Laws toy_eip712.
Proof. split. intros. apply length_to_be_bytes. Qed.

(** ** An operator *)

Definition demo_profile : BenchmarkProfile := mkProfile (Some (f32_of 2)) (Some (f32_of 512)) None None (Some true).
Definition demo_rates : list ResourcePricing := [mkResource CPU 1 3; mkResource MemoryMB 1 1].
Definition demo_operator : OperatorSigner := mkOperatorSigner (KL := demo_k256) 9 (to_be_bytes 20 9) demo_domain.
Definition demo_x402 : X402SettlementConfig :=
  mkX402Settlement "https://pay" [mkX402Token "eip155:8453" "usdc" "USDC" 6 "operator" 3 0].
Definition demo_engine : PricingEngineService :=
  with_pow_difficulty (with_tee_pricing (with_x402_settlement
    (new_with_configs 300 {[ 1 := demo_profile ]} {[ None := demo_rates ]} {[ (1, 0) := 5 * 10 ^ 18 ]}
       {[ None := mkSubscription 7 30 0 ]} demo_operator) demo_x402) (mkTee true 2 "sgx")) 12.

Definition demo_now : PriceReadings := mkPriceReadings 1010 1011 1012 10.
Definition demo_work (id : Z) : list Byte8 := 0 :: calculate_hash (generate_challenge id 1000) 0.
Definition demo_job_request (tee : bool) : GetJobPriceRequest :=
  mkJobPriceRequest 1 0 (demo_work 1) 1000 tee (to_be_bytes 20 7) (replicate 32 5).
Definition demo_price_request : GetPriceRequest :=
  mkPriceRequest 1 10 (demo_work 1) (Some (mkRequirements (Some (mkAsset (Some (AssetErc20 (to_be_bytes 20 3))))) 10 20))
    1000 0 false (to_be_bytes 20 7).

(** Whether a call ended in an answer *)
Definition is_Ok_some {E A} (r : option (result E A)) : bool := match r with Some (Ok _) => true | _ => false end.

Lemma demo_prices_fit : prices_fit demo_engine.
Proof. apply map_Forall_singleton. lia. Qed.

Lemma demo_acceptable tee : acceptable demo_engine 1010 (demo_job_request tee).
Proof. split_and!; try by vm_compute. Qed.

Lemma job_quote_correct_witness :
  ∃ resp, get_job_price demo_engine demo_now (demo_job_request true) = Some (Ok resp) ∧
    ∃ price, job_price demo_engine (demo_job_request true) price ∧ price = 10 ^ 19 ∧
      answers demo_engine 1010 (demo_job_request true) price resp.
Proof.
  destruct (get_job_price demo_engine demo_now (demo_job_request true)) as [[resp|e]|] eqn:Hg;
    [|vm_compute in Hg; discriminate Hg..].
  exists resp. split; [reflexivity|].
  destruct (job_quote_correct demo_engine demo_now (demo_job_request true) resp demo_prices_fit Hg)
    as (_ & _ & price & Hp & Ha).
  exists price. split; [exact Hp|]. split; [|exact Ha]. destruct Hp as (base & Hb & _ & Hp). vm_compute in Hb.
  injection Hb as <-. vm_compute in Hp. by injection Hp as <-.
Defined.

Lemma job_quote_available_witness :
  ∃ fuel, ∀ rd, pr_now rd = 1010 → (fuel ≤ pr_fuel rd)%nat →
    ∃ resp, get_job_price demo_engine rd (demo_job_request false) = Some (Ok resp) ∧
      answers demo_engine 1010 (demo_job_request false) (5 * 10 ^ 18) resp.
Proof.
  apply (job_quote_available demo_engine 1010 (demo_job_request false) (5 * 10 ^ 18) demo_prices_fit (demo_acceptable false)).
  - cbn. lia.
  - exists (5 * 10 ^ 18). split; [by vm_compute|reflexivity].
  - eexists. vm_compute. reflexivity.
Defined.

(** The commitments for a price *)
Definition committed (r : option (result Status PriceModel)) : list AbiResource :=
  match r with Some (Ok m) => abi_resource <$> pm_resources m | _ => [] end.

Lemma service_quote_correct_witness :
  ∃ resp q, get_price demo_engine demo_now demo_price_request = Some (Ok (resp, q)) ∧
    aq_resource_commitments q = [mkAbiResource 0 2; mkAbiResource 1 512].
Proof.
  destruct (get_price demo_engine demo_now demo_price_request) as [[[resp q]|e]|] eqn:Hg;
    [|vm_compute in Hg; discriminate Hg..].
  exists resp, q. split; [reflexivity|].
  destruct (service_quote_correct demo_engine demo_now demo_price_request resp q Hg)
    as (_ & _ & _ & _ & reqs & model & total & _ & Hm & _ & _ & -> & _).
  transitivity (committed (model_price demo_engine 0 1 10)); [exact (f_equal committed (eq_sym Hm))|vm_compute; reflexivity].
Defined.

Definition demo_gateway_config : X402Config :=
  mkX402 "0.0.0.0:8402" "http://facilitator" 300 [mkToken "eip155:8453" "usdc" "USDC" 6 "operator" 3 0 "permit2" None None]
    PublicPaid [] 1 None.

Definition demo_options : list SettlementOption :=
  [mkSettlement ProtoX402 "eip155:8453" "usdc" "USDC" "15000000" "operator" "exact" "http://0.0.0.0:8402/x402/jobs/1/0"].

Lemma settlement_options_agree_witness :
  compute_settlement_options (x402_accepted_tokens demo_x402) (5 * 10 ^ 18)
  = Some [mkProtoSettlement "eip155:8453" "usdc" "USDC" "15000000" "operator" "exact"].
Proof.
  destruct (settlement_options_agree demo_gateway_config (x402_accepted_tokens demo_x402) 1 0 (5 * 10 ^ 18)) as [Hok _].
  { repeat constructor. }
  assert (settlement_options demo_gateway_config 1 0 (5 * 10 ^ 18) = Some (Ok demo_options)) as Hs by (vm_compute; reflexivity).
  rewrite (Hok demo_options Hs). reflexivity.
Defined.

(** ** Price tables *)

(** A parser that knows three files *)
Definition text_jobs : JobPrices := [(1, [(0, 5 * 10 ^ 18); (7, 2 ^ 256 - 1)]); (2, [(0, 3)])].
Definition text_tables : Toml :=
  TTable [("default", TTable [("event_rate", TInteger 2); ("pricing_model", TString "event_driven")]);
          ("tee", TTable [("available", TBoolean true); ("multiplier", TInteger 2)]);
          ("ttl_curve", TTable [("max_duration_secs", TInteger (-1)); ("multipliers", TArray [TInteger 1; TInteger 2])])].
Definition text_rates : Toml :=
  TTable [("default", TTable [("resources",
    TArray [TTable [("kind", TString "CPU"); ("price_per_unit_rate", TInteger (-5))]])])].
#[local] Instance toy_toml : TomlLib := {|
  toml_from_str s :=
    if bool_decide (s = "jobs") then Some (TTable (service_toml <$> text_jobs))
    else if bool_decide (s = "tables") then Some text_tables
    else if bool_decide (s = "rates") then Some text_rates
    else None;
|}.

Lemma job_prices_round_trip_witness :
  load_job_pricing_from_toml "jobs" = Ok (foldl service_prices ∅ text_jobs) ∧
  foldl service_prices ∅ text_jobs !! (1, 7) = Some (2 ^ 256 - 1).
Proof.
  split; [|vm_compute; reflexivity]. apply job_prices_round_trip; [|reflexivity].
  repeat constructor; cbn; unfold u64_max; try lia.
Defined.

Lemma loaded_prices_chargeable_witness :
  ∃ table t c, load_subscription_pricing_from_toml "tables" = Ok table ∧ load_tee_pricing_from_toml "tables" = Ok t ∧
    load_ttl_curve_from_toml "tables" = Ok (Some c) ∧
    map_Forall (λ _ p, chargeable p) table ∧ dec_leb (tee_multiplier t) (dec_from 0) = false ∧ max_duration_secs c ≠ 0.
Proof.
  assert (load_subscription_pricing_from_toml "tables" = Ok {[ None := mkSubscription 0 0 2 ]}) as Hs by reflexivity.
  assert (load_tee_pricing_from_toml "tables" = Ok (mkTee true 2 "")) as Ht by reflexivity.
  assert (load_ttl_curve_from_toml "tables" = Ok (Some (mkCurve [f64_of 1; f64_of 2] u64_max))) as Hc by reflexivity.
  destruct (loaded_prices_chargeable "tables" "tables" "tables" _ _ _ Hs Ht Hc eq_refl) as (H1 & H2 & _ & H3 & _).
  eexists _, _, _. split_and!; [exact Hs|exact Ht|exact Hc|exact H1|exact H2|exact H3].
Defined.

(** A negative duration of the curve becomes the longest one, so that the curve
    stays at its first multiplier. *)
Lemma negative_duration_accepted :
  load_ttl_curve_from_toml "tables" = Ok (Some (mkCurve [f64_of 1; f64_of 2] u64_max)) ∧
  curve_evaluate (mkCurve [f64_of 1; f64_of 2] u64_max) 31536000 = Some 1.
Proof. split; reflexivity. Qed.

(** A negative rate of a resource is loaded, where a negative count is refused. *)
Lemma negative_rate_accepted : load_pricing_from_toml "rates" = Ok {[ None := [mkResource CPU 1 (-5)] ]}.
Proof. reflexivity. Qed.

(** A request for the subscription model of a blueprint with a price for events
    only is priced at nothing, and fails as an internal error. *)
Definition event_engine : PricingEngineService :=
  with_pow_difficulty (new_with_configs 300 ∅ ∅ ∅ {[ None := mkSubscription 0 0 2 ]} demo_operator) 12.
Lemma wrong_model_internal_error :
  get_price event_engine demo_now
    (mkPriceRequest 1 10 (demo_work 1) (gp_security_requirements demo_price_request) 1000 1 false (to_be_bytes 20 7))
  = Some (Err (Internal "Failed to build signable quote")).
Proof. vm_compute. reflexivity. Qed.

(** Work is not tied to a request: the proof that paid for a job quote of service 1
    also pays for a quote of blueprint 1, and both again while the time is near. *)
Lemma work_paid_once :
  is_Ok_some (get_job_price demo_engine demo_now (demo_job_request false)) = true ∧
  is_Ok_some (get_job_price demo_engine (mkPriceReadings 1030 1030 1030 10) (demo_job_request true)) = true ∧
  is_Ok_some (get_price demo_engine demo_now demo_price_request) = true ∧
  gp_proof_of_work demo_price_request = gj_proof_of_work (demo_job_request false).
Proof. split_and!; vm_compute; reflexivity. Qed.
