(* ===== verification/TeeTypes.v ===== *)
(** * Configuration of trusted execution ([tee/src/config.rs], [tee/src/errors.rs],
      [tee/src/attestation/{report,claims,policy,error,verifier}.rs])

    The modes and policies of trusted execution, the builder of configurations and
    the checks on the ones that are read from a file, and the data of attestations. *)

From Stdlib Require Import ZArith Lia Ascii.
From stdpp Require Import base gmap sets list sorting strings pretty fin_maps numbers relations.
From S2P Require Import Prelude Bytes Text Hex.

#[local] Open Scope Z_scope.

(** ** Errors *)

Inductive TeeError :=
| TeeConfigError (e : string) | AttestationVerification (e : string) | AttestationExpired (issued_at max_age : Z)
| UnsupportedProvider (e : string) | DeploymentFailed (e : string) | RuntimeUnavailable (e : string)
| KeyExchange (e : string) | SealedSecret (e : string) | MeasurementMismatch (expected actual : string)
| PublicKeyBindingError (e : string) | BackendError (e : string) | TeeIo | TeeSerialization (e : string).

Inductive AttestationError :=
| AttFetch (provider reason : string) | AttSignature (provider reason : string) | AttClaim (provider reason : string)
| AttKeys (provider reason : string) | AttUnsatisfiable (provider reason : string) | AttMalformed (provider reason : string).

(** The message of an [AttestationError], and its conversion *)
Definition display_attestation_error (e : AttestationError) : string :=
  match e with
  | AttFetch p r => "attestation fetch failed for " +:+ p +:+ ": " +:+ r
  | AttSignature p r => "attestation signature verification failed for " +:+ p +:+ ": " +:+ r
  | AttClaim p r => "attestation claim rejected for " +:+ p +:+ ": " +:+ r
  | AttKeys p r => "could not obtain signing keys for " +:+ p +:+ ": " +:+ r
  | AttUnsatisfiable p r => "require_tee unsatisfiable for " +:+ p +:+ ": " +:+ r
  | AttMalformed p r => "malformed attestation for " +:+ p +:+ ": " +:+ r
  end.
Definition tee_error_from (e : AttestationError) : TeeError := AttestationVerification (display_attestation_error e).

(** ** Configuration *)

Inductive TeeMode := ModeAuto | ModeDisabled | ModeDirect | ModeRemote | ModeHybrid.
Inductive TeeRequirement := TeePreferred | TeeRequired.
Inductive TeeProvider := AwsNitro | AzureSnp | GcpConfidential | IntelTdx | AmdSevSnp.
Inductive TeeProviderSelector := AnyProvider | AllowList (providers : list TeeProvider).
Inductive RuntimeLifecyclePolicy := Container | CloudManaged.
Inductive SecretInjectionPolicy := EnvOrSealed | SealedOnly.
Inductive TeePublicKeyPolicy := PublicKeyRequired | PublicKeyOptional.
Inductive AttestationFreshnessPolicy := ProvisionTimeOnly.
Inductive HybridRoutingSource := PolicyFile (path : string).

#[export] Instance TeeMode_eq_dec : EqDecision TeeMode.
Proof. solve_decision. Defined.
#[export] Instance TeeRequirement_eq_dec : EqDecision TeeRequirement.
Proof. solve_decision. Defined.
#[export] Instance SecretInjectionPolicy_eq_dec : EqDecision SecretInjectionPolicy.
Proof. solve_decision. Defined.
#[export] Instance TeeProvider_eq_dec : EqDecision TeeProvider.
Proof. solve_decision. Defined.
#[export] Instance TeeProvider_countable : Countable TeeProvider.
Proof.
  apply (inj_countable' (λ p, match p with AwsNitro => 0 | AzureSnp => 1 | GcpConfidential => 2 | IntelTdx => 3 | AmdSevSnp => 4 end)
    (λ n, match n with 0 => AwsNitro | 1 => AzureSnp | 2 => GcpConfidential | 3 => IntelTdx | _ => AmdSevSnp end)).
  by intros [].
Defined.

(** [impl Display for TeeProvider] *)
Definition provider_display (p : TeeProvider) : string :=
  match p with
  | AwsNitro => "aws_nitro" | AzureSnp => "azure_snp" | GcpConfidential => "gcp_confidential" | IntelTdx => "intel_tdx"
  | AmdSevSnp => "amd_sev_snp"
  end.

(** [TeeProviderSelector::accepts] *)
Definition accepts (s : TeeProviderSelector) (p : TeeProvider) : bool :=
  match s with AnyProvider => true | AllowList l => bool_decide (p ∈ l) end.

Record TeeRequirements := mkRequirementsTee {
  tr_requirement : TeeRequirement;
  tr_providers : TeeProviderSelector;
  tr_min_attestation_age_secs : option Z;
}.
(** [TeeRequirements::default], [required], [preferred], [is_required] *)
Definition requirements_default : TeeRequirements := mkRequirementsTee TeePreferred AnyProvider None.
Definition requirements_required : TeeRequirements := mkRequirementsTee TeeRequired AnyProvider None.
Definition is_required (r : TeeRequirements) : bool := bool_decide (tr_requirement r = TeeRequired).

Record TeeKeyExchangeConfig := mkKeyExchange { session_ttl_secs : Z; max_sessions : Z; on_chain_verification : bool }.
(** [TeeKeyExchangeConfig::default] *)
Definition key_exchange_default : TeeKeyExchangeConfig := mkKeyExchange 300 64 true.

Record TeeConfig := mkTeeConfig {
  requirement : TeeRequirement;
  mode : TeeMode;
  provider_selector : TeeProviderSelector;
  key_exchange : TeeKeyExchangeConfig;
  max_attestation_age_secs : Z;
  secret_injection : SecretInjectionPolicy;
  attestation_freshness : AttestationFreshnessPolicy;
  public_key_policy : TeePublicKeyPolicy;
  hybrid_routing_source : HybridRoutingSource;
}.

Definition routing_default : HybridRoutingSource := PolicyFile "/etc/tee/routing.json".
Definition default_max_attestation_age_secs : Z := 3600.

(** [TeeConfig::default] *)
Definition tee_config_default : TeeConfig :=
  mkTeeConfig TeePreferred ModeAuto AnyProvider key_exchange_default default_max_attestation_age_secs EnvOrSealed
    ProvisionTimeOnly PublicKeyRequired routing_default.

(** [TeeConfig::is_enabled], [TeeConfig::lifecycle_policy] *)
Definition is_enabled (c : TeeConfig) : bool := bool_decide (mode c ≠ ModeDisabled).
Definition lifecycle_policy (c : TeeConfig) : RuntimeLifecyclePolicy := if is_enabled c then CloudManaged else Container.

(** [matches!(mode, TeeMode::Disabled | TeeMode::Auto)] *)
Definition unsealed_mode (m : TeeMode) : bool := match m with ModeDisabled | ModeAuto => true | _ => false end.

(** [TeeConfig::validate], which [TryFrom<TeeConfigRaw>] calls on the same fields *)
Definition tee_validate (c : TeeConfig) : result TeeError unit :=
  if bool_decide (requirement c = TeeRequired) && bool_decide (mode c = ModeDisabled)
  then Err (TeeConfigError "TEE requirement is Required but mode is Disabled")
  else if negb (unsealed_mode (mode c)) && negb (bool_decide (secret_injection c = SealedOnly))
  then Err (TeeConfigError "TEE-enabled configs must use SealedOnly secret injection")
  else Ok tt.
Definition tee_try_from (raw : TeeConfig) : result TeeError TeeConfig := _ ← tee_validate raw; Ok raw.

Record TeeConfigBuilder := mkTeeBuilder {
  tb_requirement : option TeeRequirement;
  tb_mode : option TeeMode;
  tb_provider_selector : option TeeProviderSelector;
  tb_key_exchange : option TeeKeyExchangeConfig;
  tb_max_attestation_age_secs : option Z;
  tb_attestation_freshness : option AttestationFreshnessPolicy;
  tb_public_key_policy : option TeePublicKeyPolicy;
  tb_hybrid_routing_source : option HybridRoutingSource;
}.
Definition tee_builder : TeeConfigBuilder := mkTeeBuilder None None None None None None None None.

(** The setters of the builder *)
Inductive TeeSetting :=
| SetRequirement (r : TeeRequirement) | SetMode (m : TeeMode) | SetSelector (s : TeeProviderSelector)
| SetKeyExchange (k : TeeKeyExchangeConfig) | SetMaxAge (secs : Z) | SetFreshness (p : AttestationFreshnessPolicy)
| SetPublicKeyPolicy (p : TeePublicKeyPolicy) | SetRouting (s : HybridRoutingSource).
Definition tee_set (b : TeeConfigBuilder) (s : TeeSetting) : TeeConfigBuilder :=
  let 'mkTeeBuilder r m ps k age f pk h := b in
  match s with
  | SetRequirement r => mkTeeBuilder (Some r) m ps k age f pk h
  | SetMode m => mkTeeBuilder r (Some m) ps k age f pk h
  | SetSelector ps => mkTeeBuilder r m (Some ps) k age f pk h
  | SetKeyExchange k => mkTeeBuilder r m ps (Some k) age f pk h
  | SetMaxAge age => mkTeeBuilder r m ps k (Some age) f pk h
  | SetFreshness f => mkTeeBuilder r m ps k age (Some f) pk h
  | SetPublicKeyPolicy pk => mkTeeBuilder r m ps k age f (Some pk) h
  | SetRouting h => mkTeeBuilder r m ps k age f pk (Some h)
  end.
(** [allow_providers] *)
Definition allow_providers (providers : list TeeProvider) : TeeSetting := SetSelector (AllowList providers).

(** [TeeConfigBuilder::build] *)
Definition tee_build (b : TeeConfigBuilder) : result TeeError TeeConfig :=
  let mode := default ModeAuto (tb_mode b) in
  let requirement := default TeePreferred (tb_requirement b) in
  if bool_decide (requirement = TeeRequired) && bool_decide (mode = ModeDisabled)
  then Err (TeeConfigError "TEE requirement is Required but mode is Disabled")
  else
    let secret_injection := if negb (unsealed_mode mode) then SealedOnly else EnvOrSealed in
    Ok (mkTeeConfig requirement mode (default AnyProvider (tb_provider_selector b))
          (default key_exchange_default (tb_key_exchange b))
          (default default_max_attestation_age_secs (tb_max_attestation_age_secs b)) secret_injection
          (default ProvisionTimeOnly (tb_attestation_freshness b)) (default PublicKeyRequired (tb_public_key_policy b))
          (default routing_default (tb_hybrid_routing_source b))).

(** ** Attestations *)

Record Measurement := mkMeasurement { algorithm : string; digest : string }.
(** [Measurement::new], [sha256], [sha384], [impl Display] *)
Definition measurement_new (algorithm digest : string) : Measurement := mkMeasurement algorithm (to_ascii_lowercase digest).
Definition measurement_sha256 : string → Measurement := measurement_new "sha256".
Definition measurement_sha384 : string → Measurement := measurement_new "sha384".
Definition measurement_display (m : Measurement) : string := algorithm m +:+ ":" +:+ digest m.

Record PublicKeyBinding := mkBinding { pb_public_key : list Byte8; pb_key_type : string; pb_binding_digest : string }.
Inductive AttestationFormat := NitroDocument | TdxQuote | SevSnpReport | AzureMaaToken | GcpConfidentialToken | MockFormat.
#[export] Instance AttestationFormat_eq_dec : EqDecision AttestationFormat.
Proof. solve_decision. Defined.

(** [serde_json::Value] *)
Inductive JsonValue :=
| VNull | VBool (b : bool) | VNumber (n : Z) | VReal (s : string) | VString (s : string)
| VArray (l : list JsonValue) | VObject (m : list (string * JsonValue)).

(** [Value::get], [as_str], [as_bool], [as_u64] *)
Definition object_lookup (m : list (string * JsonValue)) (k : string) : option JsonValue :=
  p ← list_find (λ p : string * JsonValue, p.1 = k) m; Some p.2.2.
Definition json_get (v : JsonValue) (k : string) : option JsonValue :=
  match v with VObject m => object_lookup m k | _ => None end.
Definition json_as_str (v : JsonValue) : option string := match v with VString s => Some s | _ => None end.
Definition json_as_bool (v : JsonValue) : option bool := match v with VBool b => Some b | _ => None end.
Definition json_as_u64 (v : JsonValue) : option Z :=
  match v with VNumber n => if (0 <=? n) && (n <=? u64_max) then Some n else None | _ => None end.
(** [Value::pointer] through objects *)
Definition json_pointer (v : JsonValue) (path : list string) : option JsonValue :=
  foldl (λ v k, v ≫= λ v, json_get v k) (Some v) path.

Record AttestationClaims := mkClaims {
  platform_version : option string;
  debug_mode : bool;
  boot_measurements : list string;
  signer_id : option string;
  product_id : option string;
  user_data : option (list Byte8);
  custom : gmap string JsonValue;
}.
(** [AttestationClaims::new], [with_custom], [get_custom] *)
Definition claims_new : AttestationClaims := mkClaims None false [] None None None ∅.
Definition with_custom (c : AttestationClaims) (key : string) (value : JsonValue) : AttestationClaims :=
  mkClaims (platform_version c) (debug_mode c) (boot_measurements c) (signer_id c) (product_id c) (user_data c)
    (<[key := value]> (custom c)).
Definition get_custom (c : AttestationClaims) (key : string) : option JsonValue := custom c !! key.

Record AttestationReport := mkReport {
  ar_provider : TeeProvider;
  ar_format : AttestationFormat;
  issued_at_unix : Z;
  measurement : Measurement;
  public_key_binding : option PublicKeyBinding;
  ar_claims : AttestationClaims;
  evidence : list Byte8;
}.

(** [Sha256::digest] of the [sha2] crate *)
Class Sha256 := { sha256_digest : list Byte8 → list Byte8 }.

(** [AttestationReport::evidence_digest], [AttestationReport::is_expired] *)
Definition evidence_digest `{Sha256} (r : AttestationReport) : string := hex_encode (sha256_digest (evidence r)).
Definition report_is_expired (now : Z) (r : AttestationReport) (max_age_secs : Z) : bool :=
  max_age_secs <? u64_sat_sub now (issued_at_unix r).

Record VerifiedAttestation := mkVerified { va_report : AttestationReport; verified_by : TeeProvider }.
Inductive VerificationLevel := Structural | Cryptographic.

(** *** Policies *)

Record AttestationPolicy := mkPolicyAtt {
  expected_audience : option string;
  expected_nonce : option string;
  expected_image_digest : option string;
  expected_measurement : option string;
  allow_debug : bool;
  max_age_secs : option Z;
}.
Definition MAX_AGE_CEILING_SECS : Z := 3600.
(** [AttestationPolicy::production] *)
Definition production : AttestationPolicy := mkPolicyAtt None None None None false (Some 600).
(** [with_audience], [with_nonce], [with_image_digest], [with_measurement] *)
Definition with_audience (aud : string) (p : AttestationPolicy) : AttestationPolicy :=
  mkPolicyAtt (Some aud) (expected_nonce p) (expected_image_digest p) (expected_measurement p) (allow_debug p) (max_age_secs p).
Definition with_nonce (nonce : string) (p : AttestationPolicy) : AttestationPolicy :=
  mkPolicyAtt (expected_audience p) (Some nonce) (expected_image_digest p) (expected_measurement p) (allow_debug p) (max_age_secs p).
Definition with_image_digest (d : string) (p : AttestationPolicy) : AttestationPolicy :=
  mkPolicyAtt (expected_audience p) (expected_nonce p) (Some d) (expected_measurement p) (allow_debug p) (max_age_secs p).
Definition with_measurement (m : string) (p : AttestationPolicy) : AttestationPolicy :=
  mkPolicyAtt (expected_audience p) (expected_nonce p) (expected_image_digest p) (Some m) (allow_debug p) (max_age_secs p).
Definition with_allow_debug (b : bool) (p : AttestationPolicy) : AttestationPolicy :=
  mkPolicyAtt (expected_audience p) (expected_nonce p) (expected_image_digest p) (expected_measurement p) b (max_age_secs p).
Definition with_max_age (a : option Z) (p : AttestationPolicy) : AttestationPolicy :=
  mkPolicyAtt (expected_audience p) (expected_nonce p) (expected_image_digest p) (expected_measurement p) (allow_debug p) a.
(** [is_workload_bound] *)
Definition is_workload_bound (p : AttestationPolicy) : bool :=
  bool_decide (is_Some (expected_audience p)) || bool_decide (is_Some (expected_image_digest p)).

(** [str::eq_ignore_ascii_case] *)
Definition eq_ignore_ascii_case (s t : string) : bool := bool_decide (to_ascii_lowercase s = to_ascii_lowercase t).

Definition when_some {A B} (o : option A) (f : A → B → B) (b : B) : B := match o with Some a => f a b | None => b end.

(** [AttestationPolicy::from_custom_config]; [testing] is the build feature *)
Definition from_custom_config (testing : bool) (config : gmap string string) (nonce : string) : AttestationPolicy :=
  let policy := with_nonce nonce production in
  let policy := when_some (config !! "tee_expected_audience") with_audience policy in
  let policy := when_some (config !! "tee_expected_image_digest") with_image_digest policy in
  let policy := when_some (config !! "tee_expected_measurement") with_measurement policy in
  let policy := when_some (config !! "tee_allow_debug")
    (λ v p, if eq_ignore_ascii_case v "true" && testing then with_allow_debug true p else p) policy in
  when_some (config !! "tee_max_age_secs" ≫= parse_u64) (λ secs, with_max_age (Some (Z.min secs MAX_AGE_CEILING_SECS))) policy.

(** ** Theorems *)

(** The invariants a configuration must satisfy *)
Definition tee_config_ok (c : TeeConfig) : Prop :=
  (requirement c = TeeRequired → mode c ≠ ModeDisabled) ∧
  (mode c ≠ ModeDisabled → mode c ≠ ModeAuto → secret_injection c = SealedOnly).

Lemma tee_validate_ok c : tee_validate c = Ok tt ↔ tee_config_ok c.
Proof.
  unfold tee_validate, tee_config_ok. destruct c as [r m ? ? ? s ? ? ?]. cbn.
  destruct r, m, s; cbn; split; intros H; try discriminate H; try reflexivity; try (split; intros; congruence);
    destruct H as [H1 H2]; first [destruct (H1 eq_refl eq_refl) | discriminate H2; congruence].
Qed.

(** What the builder has been told last about the mode and the requirement *)
Definition last_mode (l : list TeeSetting) : TeeMode :=
  foldl (λ m s, match s with SetMode m => m | _ => m end) ModeAuto l.
Definition last_requirement (l : list TeeSetting) : TeeRequirement :=
  foldl (λ r s, match s with SetRequirement r => r | _ => r end) TeePreferred l.

Lemma settings_mode l b : default ModeAuto (tb_mode (foldl tee_set b l))
  = foldl (λ m s, match s with SetMode m => m | _ => m end) (default ModeAuto (tb_mode b)) l.
Proof. revert b. induction l as [|s l IH]; intros b; [done|]. cbn. rewrite IH. by destruct b, s. Qed.
Lemma settings_requirement l b : default TeePreferred (tb_requirement (foldl tee_set b l))
  = foldl (λ r s, match s with SetRequirement r => r | _ => r end) (default TeePreferred (tb_requirement b)) l.
Proof. revert b. induction l as [|s l IH]; intros b; [done|]. cbn. rewrite IH. by destruct b, s. Qed.

(** The two ways to a configuration agree on what is admissible: whatever its
    setters are told, the builder fails exactly when trusted execution is required
    and switched off, every configuration it gives passes the check made on files
    and survives it unchanged, and the check admits exactly the configurations with
    sealed secrets in the modes that need them. *)
Theorem tee_configs_agree settings raw :
  (tee_try_from raw = Ok raw ↔ tee_config_ok raw) ∧
  match tee_build (foldl tee_set tee_builder settings) with
  | Ok c => mode c = last_mode settings ∧ requirement c = last_requirement settings ∧ tee_config_ok c ∧ tee_try_from c = Ok c
  | Err _ => last_requirement settings = TeeRequired ∧ last_mode settings = ModeDisabled
  end.
Proof.
  assert (∀ c, tee_try_from c = Ok c ↔ tee_config_ok c) as Hfrom.
  { intros c. rewrite <-tee_validate_ok. unfold tee_try_from. by destruct (tee_validate c) as [[]|]. }
  split; [apply Hfrom|]. unfold tee_build. rewrite settings_mode, settings_requirement. cbn [tee_builder tb_mode tb_requirement default].
  fold (last_mode settings) (last_requirement settings).
  destruct (last_requirement settings), (last_mode settings); cbn; try (split_and!; done);
    (split; [done|]; split; [done|]; rewrite Hfrom; unfold tee_config_ok; cbn; split_and!; congruence).
Qed.

(** A policy that comes with a deployment keeps the nonce, at most an hour of age
    and, outside of tests, no debug mode. *)
Lemma custom_policy_bounds testing config nonce :
  let p := from_custom_config testing config nonce in
  expected_nonce p = Some nonce ∧ (allow_debug p = true → testing = true) ∧
  ∃ a, max_age_secs p = Some a ∧ a ≤ MAX_AGE_CEILING_SECS.
Proof.
  unfold from_custom_config, when_some, MAX_AGE_CEILING_SECS. cbn zeta.
  destruct (config !! "tee_expected_audience"), (config !! "tee_expected_image_digest"), (config !! "tee_expected_measurement"),
    (config !! "tee_allow_debug") as [v|], (config !! "tee_max_age_secs" ≫= parse_u64) as [secs|]; cbn;
    try (destruct (eq_ignore_ascii_case v "true"), testing); cbn; (split; [done|]); (split; [done|]); eexists; (split; [done|lia]).
Qed.
