(* ===== verification/TeeExchange.v ===== *)
(** * Key exchange with a trusted execution environment
      ([tee/src/exchange/protocol.rs], [tee/src/exchange/service.rs])

    Sessions with ephemeral keys that are used once, and secrets sealed to them.
    The curve, the cipher and the hash are parameters; what the operating system's
    generator and clock give are arguments. *)

From Stdlib Require Import ZArith Lia Ascii.
From stdpp Require Import base gmap sets list sorting strings pretty fin_maps numbers relations.
From S2P Require Import Prelude Bytes Text Hex TeeTypes.

#[local] Open Scope Z_scope.

(** [x25519_dalek] and [chacha20poly1305] *)
Class SealLib := {
  x25519_public : list Byte8 → list Byte8;
  x25519_dh : list Byte8 → list Byte8 → list Byte8;
  aead_encrypt : list Byte8 → list Byte8 → list Byte8 → option (list Byte8);
  aead_decrypt : list Byte8 → list Byte8 → list Byte8 → option (list Byte8);
}.
Class SealLaws (H : Sha256) (L : SealLib) := {
  seal_hash_length m : length (sha256_digest m) = 32%nat;
  x25519_public_length k : length (x25519_public k) = 32%nat;
  x25519_agree a b : x25519_dh a (x25519_public b) = x25519_dh b (x25519_public a);
  aead_round_trip k n p c : aead_encrypt k n p = Some c → aead_decrypt k n c = Some p;
}.

Section exchange.
  Context `{H : Sha256} `{L : SealLib}.

(** ** Sessions *)

Record KeyExchangeSession := mkSession {
  session_id : string;
  public_key : list Byte8;
  private_key : list Byte8;
  created_at : Z;
  ttl_secs : Z;
}.

(** [KeyExchangeSession::new], from a random key and identifier and the time *)
Record SessionDraw := mkDraw { dr_secret : list Byte8; dr_id : list Byte8; dr_now : Z }.
Definition session_new (d : SessionDraw) (ttl_secs : Z) : KeyExchangeSession :=
  mkSession (hex_encode (dr_id d)) (x25519_public (dr_secret d)) (dr_secret d) (dr_now d) ttl_secs.

(** [is_expired], [public_key_digest], [remaining_ttl] in seconds *)
Definition session_is_expired (now : Z) (s : KeyExchangeSession) : bool := ttl_secs s <? u64_sat_sub now (created_at s).
Definition public_key_digest (s : KeyExchangeSession) : string := hex_encode (sha256_digest (public_key s)).
Definition remaining_ttl (now : Z) (s : KeyExchangeSession) : Z := u64_sat_sub (ttl_secs s) (u64_sat_sub now (created_at s)).

(** ** Sealed secrets *)

Record SealedSecretPayload := mkPayload {
  pl_session_id : string;
  ciphertext : list Byte8;
  pl_nonce : option (list Byte8);
  ephemeral_public_key : option (list Byte8);
}.

Definition sealed_err {A} (e : string) : result TeeError A := Err (SealedSecret e).

(** [ChaCha20Poly1305::new_from_slice] takes keys of 32 bytes *)
Definition cipher_new (key : list Byte8) : result TeeError (list Byte8) :=
  if bool_decide (length key = 32%nat) then Ok key else sealed_err "cipher init failed: Invalid Length".

(** [KeyExchangeSession::open] *)
Definition open (s : KeyExchangeSession) (p : SealedSecretPayload) : result TeeError (list Byte8) :=
  client_public ← ok_or (ephemeral_public_key p) (SealedSecret "missing ephemeral public key");
  if negb (bool_decide (length client_public = 32%nat)) then sealed_err "ephemeral public key must be 32 bytes"
  else
    nonce ← ok_or (pl_nonce p) (SealedSecret "missing nonce");
    if negb (bool_decide (length nonce = 12%nat)) then sealed_err "nonce must be 12 bytes"
    else if negb (bool_decide (length (private_key s) = 32%nat)) then sealed_err "invalid private key length"
    else
      key ← cipher_new (sha256_digest (x25519_dh (private_key s) client_public));
      ok_or (aead_decrypt key nonce (ciphertext p)) (SealedSecret "decryption failed: invalid ciphertext or key").

(** [SealedSecretPayload::seal], with the key and the nonce that are drawn *)
Definition seal (client_secret nonce : list Byte8) (session_id : string) (plaintext tee_public_key : list Byte8)
    : result TeeError SealedSecretPayload :=
  if negb (bool_decide (length tee_public_key = 32%nat)) then sealed_err "TEE public key must be 32 bytes"
  else
    key ← cipher_new (sha256_digest (x25519_dh client_secret tee_public_key));
    c ← ok_or (aead_encrypt key nonce plaintext) (SealedSecret "encryption failed");
    Ok (mkPayload session_id c (Some nonce) (Some (x25519_public client_secret))).

(** ** The service *)

Record TeeAuthService := mkTeeAuth {
  tas_config : TeeKeyExchangeConfig;
  sessions : gmap string KeyExchangeSession;
  cleanup_running : bool;
}.

(** [TeeAuthService::new] *)
Definition auth_service_new (config : TeeKeyExchangeConfig) : TeeAuthService := mkTeeAuth config ∅ false.

Definition set_sessions (s : TeeAuthService) (m : gmap string KeyExchangeSession) : TeeAuthService :=
  mkTeeAuth (tas_config s) m (cleanup_running s).

(** [sessions.retain(|_, s| !s.is_expired())]; the clock is read for every session *)
Definition evict (clock : string → Z) (m : gmap string KeyExchangeSession) : gmap string KeyExchangeSession :=
  filter (λ p, session_is_expired (clock p.1) p.2 = false) m.

(** [create_session] *)
Definition create_session (clock : string → Z) (d : SessionDraw) (s : TeeAuthService)
    : result TeeError (string * list Byte8) * TeeAuthService :=
  let m := evict clock (sessions s) in
  if max_sessions (tas_config s) <=? Z.of_nat (size m)
  then (Err (KeyExchange ("maximum session limit reached (" +:+ pretty (max_sessions (tas_config s)) +:+ ")")), set_sessions s m)
  else
    let session := session_new d (session_ttl_secs (tas_config s)) in
    (Ok (session_id session, public_key session), set_sessions s (<[session_id session := session]> m)).

(** [consume_session] *)
Definition consume_session (now : Z) (id : string) (s : TeeAuthService) : result TeeError KeyExchangeSession * TeeAuthService :=
  match sessions s !! id with
  | None => (Err (KeyExchange ("session not found: " +:+ id)), s)
  | Some session =>
      if session_is_expired now session
      then (Err (KeyExchange ("session expired: " +:+ id)), set_sessions s (delete id (sessions s)))
      else (Ok session, set_sessions s (delete id (sessions s)))
  end.

(** [active_session_count] *)
Definition active_session_count (clock : string → Z) (s : TeeAuthService) : nat := size (evict clock (sessions s)).

(** [get_session_public_key] *)
Definition get_session_public_key (now : Z) (id : string) (s : TeeAuthService) : result TeeError (list Byte8) :=
  match sessions s !! id with
  | None => Err (KeyExchange ("session not found: " +:+ id))
  | Some session =>
      if session_is_expired now session then Err (KeyExchange ("session expired: " +:+ id)) else Ok (public_key session)
  end.

(** [start_cleanup_loop], one round of its loop, and [Drop] *)
Definition start_cleanup_loop (s : TeeAuthService) : TeeAuthService := mkTeeAuth (tas_config s) (sessions s) true.
Definition cleanup_period (s : TeeAuthService) : Z := Z.max (session_ttl_secs (tas_config s)) 30.
Definition cleanup_round (clock : string → Z) (s : TeeAuthService) : TeeAuthService := set_sessions s (evict clock (sessions s)).

(** ** Runs *)

(** The service with the sessions it made and the ones it gave away, with the time *)
Record ExchangeWorld := mkExchangeWorld {
  ew_service : TeeAuthService;
  ew_created : list KeyExchangeSession;
  ew_consumed : list (Z * KeyExchangeSession);
}.

Inductive exchange_step : ExchangeWorld → ExchangeWorld → Prop :=
| exchange_create clock d r s s' cs us :
    create_session clock d s = (Ok r, s') →
    exchange_step (mkExchangeWorld s cs us) (mkExchangeWorld s' (session_new d (session_ttl_secs (tas_config s)) :: cs) us)
| exchange_create_fails clock d e s s' cs us :
    create_session clock d s = (Err e, s') → exchange_step (mkExchangeWorld s cs us) (mkExchangeWorld s' cs us)
| exchange_consume now id x s s' cs us :
    consume_session now id s = (Ok x, s') → exchange_step (mkExchangeWorld s cs us) (mkExchangeWorld s' cs ((now, x) :: us))
| exchange_consume_fails now id e s s' cs us :
    consume_session now id s = (Err e, s') → exchange_step (mkExchangeWorld s cs us) (mkExchangeWorld s' cs us)
| exchange_start s cs us : exchange_step (mkExchangeWorld s cs us) (mkExchangeWorld (start_cleanup_loop s) cs us)
| exchange_cleanup clock s cs us :
    exchange_step (mkExchangeWorld s cs us) (mkExchangeWorld (cleanup_round clock s) cs us).

(** ** Theorems *)

Definition values (m : gmap string KeyExchangeSession) : list KeyExchangeSession := (map_to_list m).*2.

Lemma values_delete m id x : m !! id = Some x → values m ≡ₚ x :: values (delete id m).
Proof. intros Hx. unfold values. by rewrite <-(map_to_list_delete m id x Hx). Qed.

Lemma values_delete_sub m id : values (delete id m) ⊆+ values m.
Proof.
  destruct (m !! id) as [x|] eqn:Hx; [rewrite (values_delete m id x Hx); by apply submseteq_cons|]. by rewrite delete_id.
Qed.

Lemma values_insert_sub m id x : values (<[id := x]> m) ⊆+ x :: values m.
Proof.
  rewrite <-insert_delete_eq. unfold values. rewrite map_to_list_insert by apply lookup_delete_eq. cbn.
  apply submseteq_skip, values_delete_sub.
Qed.

Lemma evict_sub clock m : values (evict clock m) ⊆+ values m.
Proof.
  unfold values. apply fmap_submseteq, map_to_list_submseteq, map_filter_subseteq.
Qed.

Lemma evict_size clock m : (size (evict clock m) ≤ size m)%nat.
Proof. apply map_subseteq_size, map_filter_subseteq. Qed.

Record exchange_inv (config : TeeKeyExchangeConfig) (w : ExchangeWorld) : Prop := mkExchangeInv {
  xi_config : tas_config (ew_service w) = config;
  xi_ids : map_Forall (λ id s, session_id s = id) (sessions (ew_service w));
  xi_once : (ew_consumed w).*2 ++ values (sessions (ew_service w)) ⊆+ ew_created w;
  xi_made : Forall (λ s, ∃ d, s = session_new d (session_ttl_secs config)) (ew_created w);
  xi_fresh : Forall (λ p, u64_sat_sub p.1 (created_at p.2) ≤ session_ttl_secs config) (ew_consumed w);
  xi_size : Z.of_nat (size (sessions (ew_service w))) ≤ Z.max 0 (max_sessions config);
}.

Lemma evict_inv config clock w :
  exchange_inv config w →
  exchange_inv config (mkExchangeWorld (set_sessions (ew_service w) (evict clock (sessions (ew_service w)))) (ew_created w) (ew_consumed w)).
Proof.
  intros [Hc Hi Ho Hm Hf Hs]. split; cbn; try done.
  - intros id s [Hl _]%map_lookup_filter_Some. by apply Hi.
  - etrans; [|exact Ho]. by apply submseteq_app, evict_sub.
  - pose proof (evict_size clock (sessions (ew_service w))). lia.
Qed.

Lemma delete_inv config id w :
  exchange_inv config w →
  exchange_inv config (mkExchangeWorld (set_sessions (ew_service w) (delete id (sessions (ew_service w)))) (ew_created w) (ew_consumed w)).
Proof.
  intros [Hc Hi Ho Hm Hf Hs]. split; cbn; try done.
  - by apply map_Forall_delete.
  - etrans; [|exact Ho]. by apply submseteq_app, values_delete_sub.
  - pose proof (map_subseteq_size _ _ (delete_subseteq (sessions (ew_service w)) id)). lia.
Qed.

Lemma create_inv config clock d r s s' cs us :
  create_session clock d s = (Ok r, s') → exchange_inv config (mkExchangeWorld s cs us) →
  exchange_inv config (mkExchangeWorld s' (session_new d (session_ttl_secs (tas_config s)) :: cs) us).
Proof.
  unfold create_session. destruct (Z.leb_spec (max_sessions (tas_config s)) (Z.of_nat (size (evict clock (sessions s)))));
    [done|]. intros [= <- <-] Hinv%(evict_inv config clock). destruct Hinv as [Hc Hi Ho Hm Hf Hs]. cbn in *. subst config.
  set (x := session_new d (session_ttl_secs (tas_config s))). change (session_id (session_new d _)) with (session_id x).
  split; cbn; try done.
  - by apply map_Forall_insert_2.
  - etrans; [apply submseteq_app; [reflexivity|apply values_insert_sub]|]. rewrite <-Permutation_middle. by apply submseteq_skip.
  - constructor; [by exists d|done].
  - rewrite map_size_insert. destruct (evict clock (sessions s) !! _); unfold id; lia.
Qed.

Lemma consume_inv config now id x s s' cs us :
  consume_session now id s = (Ok x, s') → exchange_inv config (mkExchangeWorld s cs us) →
  exchange_inv config (mkExchangeWorld s' cs ((now, x) :: us)).
Proof.
  unfold consume_session. destruct (sessions s !! id) as [y|] eqn:Hy; [|done]. destruct (session_is_expired now y) eqn:He; [done|].
  intros [= <- <-] Hinv. pose proof (delete_inv config id _ Hinv) as [_ Hi Ho Hm Hf Hs]. destruct Hinv as [Hc _ Ho' Hm' _ _].
  cbn in *. split; cbn; try done.
  - etrans; [|exact Ho']. rewrite (values_delete _ _ _ Hy). by rewrite Permutation_middle.
  - constructor; [|done]. cbn. assert (y ∈ cs) as Hin.
    { eapply elem_of_submseteq; [|exact Ho']. apply elem_of_app. right. rewrite (values_delete _ _ _ Hy). by left. }
    rewrite list.Forall_forall in Hm'. destruct (Hm' y Hin) as [d ->]. unfold session_is_expired in He. by apply Z.ltb_ge in He.
Qed.

Lemma exchange_step_inv config w w' : exchange_step w w' → exchange_inv config w → exchange_inv config w'.
Proof.
  intros Hstep Hinv. destruct Hstep as [clock d r s s' cs us Hr|clock d e s s' cs us Hr|now id x s s' cs us Hr|now id e s s' cs us Hr|s cs us|clock s cs us].
  - by eapply create_inv.
  - unfold create_session in Hr. destruct (_ <=? _) in Hr; [|done]. injection Hr as _ <-. by apply (evict_inv config clock (mkExchangeWorld s cs us)).
  - by eapply consume_inv.
  - unfold consume_session in Hr. destruct (sessions s !! id) as [y|]; [|by injection Hr as _ <-].
    destruct (session_is_expired now y); [|done]. injection Hr as _ <-. by apply (delete_inv config id (mkExchangeWorld s cs us)).
  - by destruct Hinv as [Hc Hi Ho Hm Hf Hs].
  - by apply (evict_inv config clock (mkExchangeWorld s cs us)).
Qed.

(** C21. A key-exchange session is used at most once and in time.  Whatever calls are
    made with whatever clocks and draws, every session that was given away is one
    that was made, at most as often as it was made, with an elapsed time within the
    lifetime that was configured; and the service never holds more sessions than
    the limit. *)
Theorem sessions_used_once config w :
  rtc exchange_step (mkExchangeWorld (auth_service_new config) [] []) w →
  (ew_consumed w).*2 ⊆+ ew_created w ∧
  Forall (λ p, ∃ d, p.2 = session_new d (session_ttl_secs config) ∧
                    u64_sat_sub p.1 (dr_now d) ≤ session_ttl_secs config) (ew_consumed w) ∧
  Z.of_nat (size (sessions (ew_service w))) ≤ Z.max 0 (max_sessions config).
Proof.
  intros Hr. assert (exchange_inv config w) as [Hc Hi Ho Hm Hf Hs].
  { revert w Hr. apply rtc_ind_r.
    - split; cbn [sessions ew_service ew_created ew_consumed auth_service_new]; try done. rewrite map_size_empty. lia.
    - intros y z _ Hstep IH. by eapply exchange_step_inv. }
  assert ((ew_consumed w).*2 ⊆+ ew_created w) as Hsub by (etrans; [|exact Ho]; by apply submseteq_inserts_r).
  split_and!; [done| |done].
  apply list.Forall_forall. intros [now x] Hp. pose proof (proj1 (list.Forall_forall _ _) Hf _ Hp) as Hx'. assert (x ∈ ew_created w) as Hx.
  { eapply elem_of_submseteq; [|exact Hsub]. apply list_elem_of_fmap. by exists (now, x). }
  destruct (proj1 (list.Forall_forall _ _) Hm x Hx) as [d ->]. exists d. split; [done|exact Hx'].
Qed.

Lemma create_session_holds clock d s id pk s' :
  create_session clock d s = (Ok (id, pk), s') →
  id = hex_encode (dr_id d) ∧ pk = x25519_public (dr_secret d) ∧
  sessions s' !! id = Some (session_new d (session_ttl_secs (tas_config s))).
Proof.
  unfold create_session. destruct (_ <=? _); [done|]. intros [= <- <- <-]. split_and!; try done. cbn. by rewrite lookup_insert_eq.
Qed.

Lemma open_seal `{LL : !SealLaws H L} d ttl client nonce id plaintext p :
  length (dr_secret d) = 32%nat → length nonce = 12%nat →
  seal client nonce id plaintext (x25519_public (dr_secret d)) = Ok p → open (session_new d ttl) p = Ok plaintext.
Proof.
  intros Hd Hn. unfold seal, open, cipher_new. rewrite x25519_public_length. cbn [bool_decide]. rewrite bool_decide_true by done.
  rewrite bool_decide_true by apply seal_hash_length. cbn [negb mbind result_bind].
  destruct (aead_encrypt _ nonce plaintext) as [c|] eqn:Hc; [|done]. cbn [ok_or mbind result_bind]. intros [= <-].
  cbn [ephemeral_public_key pl_nonce ciphertext ok_or mbind result_bind private_key session_new].
  rewrite x25519_public_length, (bool_decide_true (_ = 32%nat)), Hn by done. cbn [negb]. rewrite (bool_decide_true (_ = 12%nat)) by done.
  rewrite Hd, (bool_decide_true (32%nat = 32%nat)) by done. cbn [negb].
  rewrite bool_decide_true by apply seal_hash_length. cbn [mbind result_bind].
  rewrite x25519_agree in Hc. by rewrite (aead_round_trip _ _ _ _ Hc).
Qed.

(** A secret sealed to a session reaches the environment, once: what a client
    seals to the key of a session that was just made is what the session opens to
    when it is consumed within its lifetime, whatever happens to other sessions in
    between, and the session cannot be consumed again. *)
Theorem sealed_secret_delivered `{LL : !SealLaws H L} clock d s id pk s1 s2 client nonce plaintext p now :
  create_session clock d s = (Ok (id, pk), s1) → sessions s2 !! id = sessions s1 !! id →
  length (dr_secret d) = 32%nat → length nonce = 12%nat →
  seal client nonce id plaintext pk = Ok p → now ≤ dr_now d + session_ttl_secs (tas_config s) →
  0 ≤ session_ttl_secs (tas_config s) →
  ∃ x s3, consume_session now id s2 = (Ok x, s3) ∧ open x p = Ok plaintext ∧
    ∀ now', consume_session now' id s3 = (Err (KeyExchange ("session not found: " +:+ id)), s3).
Proof.
  intros (-> & -> & Hs1)%create_session_holds Hs2 Hd Hn Hseal Hnow Httl. rewrite Hs1 in Hs2.
  unfold consume_session at 1. rewrite Hs2.
  assert (session_is_expired now (session_new d (session_ttl_secs (tas_config s))) = false) as ->.
  { unfold session_is_expired, u64_sat_sub. cbn. apply Z.ltb_ge. lia. }
  eexists _, _. split; [done|]. split; [by eapply open_seal|]. intros now'. unfold consume_session.
  cbn [sessions set_sessions]. by rewrite lookup_delete_eq.
Qed.

End exchange.

(** ** A run *)

(** Keys that agree on their sum, and a cipher that prepends its key *)
Definition toy_sha : Sha256 := {| sha256_digest m := take 32 (m ++ replicate 32 0) |}.
Definition toy_seal : SealLib := {|
  x25519_public k := take 32 (k ++ replicate 32 0);
  x25519_dh a b := zip_with Z.add (take 32 (a ++ replicate 32 0)) (take 32 (b ++ replicate 32 0));
  aead_encrypt k n p := Some (k ++ p);
  aead_decrypt k n c := if bool_decide (take (length k) c = k) then Some (drop (length k) c) else None;
|}.

Lemma pad_length (m : list Z) : length (take 32 (m ++ replicate 32 0)) = 32%nat.
Proof. rewrite length_take, length_app, length_replicate. lia. Qed.
Lemma pad_pad (m : list Z) : take 32 (take 32 (m ++ replicate 32 0) ++ replicate 32 0) = take 32 (m ++ replicate 32 0).
Proof. rewrite take_app_le by (rewrite pad_length; lia). by rewrite take_take. Qed.

Definition toy_seal_laws : SealLaws toy_sha toy_seal.
Proof.
  split.
  - intros m. apply pad_length.
  - intros k. apply pad_length.
  - intros a b. cbn [x25519_dh x25519_public toy_seal]. rewrite !pad_pad. revert a b.
    assert (∀ l k : list Z, zip_with Z.add l k = zip_with Z.add k l) as Hz.
    { induction l as [|x l IH]; intros [|y k]; cbn; [done..|]. by rewrite IH, Z.add_comm. }
    intros a b. apply Hz.
  - intros k n p c [= <-]. cbn. rewrite bool_decide_true by (by rewrite take_app_length). by rewrite drop_app_length.
Qed.

Definition demo_exchange : TeeAuthService := auth_service_new (mkKeyExchange 300 1 true).
Definition demo_draw : SessionDraw := mkDraw (replicate 32 7) [1; 255] 1000.
Definition demo_session : KeyExchangeSession := session_new (L := toy_seal) demo_draw 300.

Lemma sealed_secret_delivered_witness :
  ∃ id pk s1 p x s3, create_session (L := toy_seal) (λ _, 1000) demo_draw demo_exchange = (Ok (id, pk), s1) ∧
    seal (H := toy_sha) (L := toy_seal) [3] (replicate 12 0) id [42] pk = Ok p ∧
    consume_session 1300 id s1 = (Ok x, s3) ∧ open (H := toy_sha) (L := toy_seal) x p = Ok [42].
Proof.
  assert (∃ p, seal (H := toy_sha) (L := toy_seal) [3] (replicate 12 0) "01ff" [42] (public_key demo_session) = Ok p)
    as [p Hp] by (eexists; vm_compute; reflexivity).
  destruct (sealed_secret_delivered (LL := toy_seal_laws) (λ _, 1000) demo_draw demo_exchange "01ff" (public_key demo_session)
    (create_session (L := toy_seal) (λ _, 1000) demo_draw demo_exchange).2
    (create_session (L := toy_seal) (λ _, 1000) demo_draw demo_exchange).2 [3] (replicate 12 0) [42] p 1300)
    as (x & s3 & Hc & Ho & _); [reflexivity|reflexivity|reflexivity|reflexivity|exact Hp|by cbn|by cbn|].
  eexists _, _, _, p, x, s3. split; [reflexivity|]. split; [exact Hp|]. split; [exact Hc|exact Ho].
Defined.

Lemma sessions_used_once_witness :
  let s1 := (create_session (L := toy_seal) (λ _, 1000) demo_draw demo_exchange).2 in
  let w := mkExchangeWorld (consume_session 1300 "01ff" s1).2 [demo_session] [(1300, demo_session)] in
  (ew_consumed w).*2 ⊆+ ew_created w.
Proof.
  apply (sessions_used_once (L := toy_seal) (mkKeyExchange 300 1 true)).
  eapply rtc_l; [|apply rtc_once].
  - apply (exchange_create (λ _, 1000) demo_draw ("01ff"%string, public_key demo_session)). apply surjective_pairing.
  - apply (exchange_consume 1300 "01ff"). reflexivity.
Defined.

(** At the last second of its lifetime a session has none left and is still valid. *)
Lemma last_second_valid : remaining_ttl 1300 demo_session = 0 ∧ session_is_expired 1300 demo_session = false.
Proof. split; reflexivity. Qed.
