(* ===== verification/TeeAttest.v ===== *)
(** * Verification of attestations ([tee/src/attestation/providers])

    The verifiers of the five providers: structural checks of reports, signed
    tokens (Google, Azure) and the signed documents of Nitro enclaves.  The parsers
    and the signature checks of JWT, COSE, CBOR and X.509 are parameters. *)

From Stdlib Require Import ZArith Lia Ascii.
From stdpp Require Import base gmap sets list sorting strings pretty fin_maps numbers relations.
From S2P Require Import Prelude Bytes Text Hex TeeTypes.

#[local] Open Scope Z_scope.

(** ** Structural checks *)

(** What the checks of all verifiers have in common: the messages, the provider,
    whether debugging is allowed, and the measurement *)
Definition structural_check (provider_error debug_error : string) (expected_provider : TeeProvider) (allow_debug : bool)
    (expected : option string) (r : AttestationReport) : result TeeError VerifiedAttestation :=
  if negb (bool_decide (ar_provider r = expected_provider))
  then Err (AttestationVerification ("expected " +:+ provider_error +:+ " provider, got " +:+ provider_display (ar_provider r)))
  else if debug_mode (ar_claims r) && negb allow_debug
  then Err (AttestationVerification (debug_error +:+ " are not permitted"))
  else
    match expected with
    | Some m => if negb (bool_decide (digest (measurement r) = m)) then Err (MeasurementMismatch m (digest (measurement r)))
                else Ok (mkVerified r expected_provider)
    | None => Ok (mkVerified r expected_provider)
    end.

(** *** Native platforms ([native.rs], [tdx.rs], [sev_snp.rs]) *)

Inductive NativePlatform := Tdx (expected_mrtd : option string) | SevSnp (expected_measurement : option string).
Record NativeVerifier := mkNative { nv_platform : NativePlatform; nv_allow_debug : bool }.

(** [NativeVerifier::tdx], [sev_snp], [with_expected_measurement], [with_allow_debug] *)
Definition native_tdx : NativeVerifier := mkNative (Tdx None) false.
Definition native_sev_snp : NativeVerifier := mkNative (SevSnp None) false.
Definition native_with_measurement (v : NativeVerifier) (m : string) : NativeVerifier :=
  mkNative (match nv_platform v with Tdx _ => Tdx (Some m) | SevSnp _ => SevSnp (Some m) end) (nv_allow_debug v).
Definition native_with_debug (v : NativeVerifier) (allow : bool) : NativeVerifier := mkNative (nv_platform v) allow.

Definition native_provider (v : NativeVerifier) : TeeProvider := match nv_platform v with Tdx _ => IntelTdx | SevSnp _ => AmdSevSnp end.
Definition native_expected (v : NativeVerifier) : option string := match nv_platform v with Tdx e | SevSnp e => e end.
Definition platform_name (v : NativeVerifier) : string :=
  match nv_platform v with Tdx _ => "Intel TDX" | SevSnp _ => "AMD SEV-SNP" end.
Definition debug_entity (v : NativeVerifier) : string :=
  match nv_platform v with Tdx _ => "debug mode TDs" | SevSnp _ => "debug mode guests" end.

(** [NativeVerifier::verify] *)
Definition native_verify (v : NativeVerifier) : AttestationReport → result TeeError VerifiedAttestation :=
  structural_check (platform_name v) (debug_entity v) (native_provider v) (nv_allow_debug v) (native_expected v).

(** [TdxVerifier], [SevSnpVerifier]: their fields, [to_native] and [verify] *)
Record PlatformVerifier := mkPlatform { pv_expected : option string; pv_allow_debug : bool }.
Definition platform_to_native (base : NativeVerifier) (v : PlatformVerifier) : NativeVerifier :=
  let n := native_with_debug base (pv_allow_debug v) in
  match pv_expected v with Some m => native_with_measurement n m | None => n end.
Definition tdx_verify (v : PlatformVerifier) : AttestationReport → result TeeError VerifiedAttestation :=
  native_verify (platform_to_native native_tdx v).
Definition sev_snp_verify (v : PlatformVerifier) : AttestationReport → result TeeError VerifiedAttestation :=
  native_verify (platform_to_native native_sev_snp v).

(** ** Tokens ([jwt.rs]) *)

Inductive JwtAlg := HS256 | HS384 | HS512 | ES256 | ES384 | RS256 | RS384 | RS512 | PS256 | PS384 | PS512 | EdDSA.

(** [is_asymmetric] *)
Definition is_asymmetric (alg : JwtAlg) : bool :=
  match alg with HS256 | HS384 | HS512 => false | _ => true end.

(** The debug format of [Algorithm] *)
Definition jwt_alg_debug (alg : JwtAlg) : string :=
  match alg with
  | HS256 => "HS256" | HS384 => "HS384" | HS512 => "HS512" | ES256 => "ES256" | ES384 => "ES384" | RS256 => "RS256"
  | RS384 => "RS384" | RS512 => "RS512" | PS256 => "PS256" | PS384 => "PS384" | PS512 => "PS512" | EdDSA => "EdDSA"
  end.

(** [jsonwebtoken::Validation], as far as it is set *)
Record Validation := mkValidation {
  v_alg : JwtAlg;
  v_exp : bool;
  v_nbf : bool;
  v_leeway : Z;
  v_iss : option (list string);
  v_aud : option (list string);
}.
Inductive JwtErrorKind := InvalidSignature | ExpiredSignature | InvalidAudience | InvalidIssuer | OtherJwtError (e : string).

(** An answer over HTTP: its status, the declared length and the chunks of its
    body, the last of which may fail *)
Record HttpResponse := mkHttp { hr_status : Z; hr_content_length : option Z; hr_chunks : list (result string (list Byte8)) }.

Class JwtLib := {
  JwkSet : Type;
  Jwk : Type;
  DecodingKey : Type;
  decode_header : string → result string (JwtAlg * option string);
  jwks_get : string → result string HttpResponse;
  jwks_parse : list Byte8 → result string JwkSet;
  jwks_find : JwkSet → string → option Jwk;
  key_from_jwk : Jwk → result string DecodingKey;
  jwt_decode : string → DecodingKey → Validation → result JwtErrorKind JsonValue;
}.

Section jwt.
  Context `{L : JwtLib}.

Definition MAX_JWKS_BYTES : Z := 256 * 1024.

Definition is_success (status : Z) : bool := (200 <=? status) && (status <? 300).

(** [read_body_capped]; sums do not overflow [usize] for bodies below the cap *)
Fixpoint read_chunks (max : Z) (make_err : string → AttestationError) (body : list Byte8) (chunks : list (result string (list Byte8)))
    : result AttestationError (list Byte8) :=
  match chunks with
  | [] => Ok body
  | Err e :: _ => Err (make_err ("reading response body failed: " +:+ e))
  | Ok chunk :: chunks =>
      if max <? zlen body + zlen chunk
      then Err (make_err ("response body exceeds " +:+ pretty max +:+ "-byte cap; aborting read"))
      else read_chunks max make_err (body ++ chunk) chunks
  end.
Definition read_body_capped (resp : HttpResponse) (max : Z) (make_err : string → AttestationError) : result AttestationError (list Byte8) :=
  match hr_content_length resp with
  | Some declared =>
      if max <? declared
      then Err (make_err ("response body too large: declared " +:+ pretty declared +:+ " bytes exceeds " +:+ pretty max +:+ " cap"))
      else read_chunks max make_err [] (hr_chunks resp)
  | None => read_chunks max make_err [] (hr_chunks resp)
  end.

(** [fetch_jwks] *)
Definition fetch_jwks (provider : TeeProvider) (url : string) : result AttestationError JwkSet :=
  let name := provider_display provider in
  resp ← map_err (λ e, AttKeys name ("JWKS fetch failed: " +:+ e)) (jwks_get url);
  if negb (is_success (hr_status resp)) then Err (AttKeys name ("JWKS endpoint returned HTTP " +:+ pretty (hr_status resp)))
  else
    body ← read_body_capped resp MAX_JWKS_BYTES (AttKeys name);
    map_err (λ e, AttKeys name ("malformed JWKS document: " +:+ e)) (jwks_parse body).

(** *** Claims *)

(** [eat_nonce_to_string], [claim_nonce] *)
Definition eat_nonce_to_string (v : JsonValue) : option string :=
  match v with
  | VString s => Some s
  | VArray arr => head arr ≫= json_as_str
  | _ => None
  end.
Definition claim_nonce (payload : JsonValue) : option string :=
  match json_get payload "eat_nonce" with
  | Some v => eat_nonce_to_string v
  | None => json_get payload "nonce" ≫= json_as_str
  end.

(** [claim_image_digest], [claim_is_debug], [extract_measurement] *)
Definition claim_image_digest (payload : JsonValue) : option string :=
  match json_pointer payload ["submods"; "container"; "image_digest"] ≫= json_as_str with
  | Some d => Some d
  | None =>
      match json_get payload "image_digest" with
      | Some v => json_as_str v
      | None => json_pointer payload ["x-ms-runtime"; "image_digest"] ≫= json_as_str
      end
  end.
Definition claim_is_debug (payload : JsonValue) : bool :=
  match json_get payload "dbgstat" ≫= json_as_str with
  | Some dbg => negb (bool_decide (dbg = "disabled-since-boot"))
  | None => false
  end ||
  match json_get payload "x-ms-sevsnpvm-is-debuggable" ≫= json_as_bool with Some b => b | None => false end.
Definition extract_measurement (payload : JsonValue) : option string :=
  json_get payload "x-ms-sevsnpvm-launchmeasurement" ≫= json_as_str.

(** [enforce_claim_policy] *)
Definition claim_err {A} (provider : TeeProvider) (reason : string) : result AttestationError A :=
  Err (AttClaim (provider_display provider) reason).
Definition check_nonce (provider : TeeProvider) (payload : JsonValue) (policy : AttestationPolicy) : result AttestationError unit :=
  match expected_nonce policy with
  | None => Ok tt
  | Some expected =>
      match claim_nonce payload with
      | None => claim_err provider "expected a nonce claim but token has none"
      | Some nonce => if bool_decide (nonce = expected) then Ok tt else claim_err provider "attestation nonce mismatch"
      end
  end.
Definition check_text (provider : TeeProvider) (expected actual : option string) (missing mismatch : string)
    : result AttestationError unit :=
  match expected with
  | None => Ok tt
  | Some e =>
      match actual with
      | None => claim_err provider missing
      | Some a => if eq_ignore_ascii_case a e then Ok tt else claim_err provider mismatch
      end
  end.
Definition check_age (now : Z) (provider : TeeProvider) (payload : JsonValue) (policy : AttestationPolicy) : result AttestationError unit :=
  match max_age_secs policy with
  | None => Ok tt
  | Some max_age =>
      match json_get payload "iat" ≫= json_as_u64 with
      | None => claim_err provider "token has no iat; cannot enforce freshness"
      | Some iat => if max_age <? u64_sat_sub now iat then claim_err provider ("attestation older than " +:+ pretty max_age +:+ "s")
                    else Ok tt
      end
  end.
Definition enforce_claim_policy (now : Z) (provider : TeeProvider) (payload : JsonValue) (policy : AttestationPolicy)
    : result AttestationError unit :=
  _ ← check_nonce provider payload policy;
  _ ← if bool_decide (expected_audience policy = None) && negb (bool_decide (is_Some (json_get payload "aud")))
      then claim_err provider "token has no audience claim" else Ok tt;
  _ ← check_text provider (expected_image_digest policy) (claim_image_digest payload)
        "expected an image-digest claim but token has none" "workload image digest mismatch";
  _ ← check_text provider (expected_measurement policy) (extract_measurement payload)
        "expected a launch measurement claim but token has none" "launch measurement mismatch";
  _ ← if negb (allow_debug policy) && claim_is_debug payload
      then claim_err provider "TEE reports debug mode; rejected by policy" else Ok tt;
  check_age now provider payload policy.

(** [claims_from_payload] *)
Definition copied_claims : list string :=
  ["iss"; "sub"; "aud"; "nonce"; "eat_nonce"; "dbgstat"; "swname"; "x-ms-sevsnpvm-is-debuggable"; "x-ms-sevsnpvm-launchmeasurement"].
Definition claims_from_payload (payload : JsonValue) : AttestationClaims :=
  let base := mkClaims None (claim_is_debug payload) [] None None None ∅ in
  let c := foldl (λ c key, match json_get payload key with Some v => with_custom c key v | None => c end) base copied_claims in
  match json_pointer payload ["submods"; "container"; "image_digest"] with
  | Some v => with_custom c "image_digest" v
  | None => c
  end.

(** *** [verify_jwt_attestation] *)

Definition jwt_validation (alg : JwtAlg) (allowed_issuers : list string) (policy : AttestationPolicy) : Validation :=
  mkValidation alg true true (match max_age_secs policy with Some a => Z.min a 300 | None => 60 end)
    (if bool_decide (allowed_issuers = []) then None else Some allowed_issuers) ((λ a, [a]) <$> expected_audience policy).
Definition jwt_error (name : string) (e : JwtErrorKind) : AttestationError :=
  match e with
  | InvalidSignature => AttSignature name "JWT signature does not verify against JWKS"
  | ExpiredSignature => AttClaim name "attestation token expired"
  | InvalidAudience => AttClaim name "attestation token audience mismatch"
  | InvalidIssuer => AttClaim name "attestation token issuer not allowed"
  | OtherJwtError e => AttSignature name ("JWT verification failed: " +:+ e)
  end.
Definition verify_jwt_attestation (now : Z) (provider : TeeProvider) (format : AttestationFormat) (token jwks_url : string)
    (allowed_issuers : list string) (policy : AttestationPolicy) : result AttestationError VerifiedAttestation :=
  let name := provider_display provider in
  header ← map_err (λ e, AttMalformed name ("invalid JWT header: " +:+ e)) (decode_header token);
  kid ← ok_or header.2 (AttMalformed name "JWT header missing `kid`");
  if negb (is_asymmetric header.1) then Err (AttSignature name ("refusing non-asymmetric JWT alg " +:+ jwt_alg_debug header.1))
  else
    jwk_set ← fetch_jwks provider jwks_url;
    jwk ← ok_or (jwks_find jwk_set kid) (AttKeys name ("no JWKS key matches kid `" +:+ kid +:+ "`"));
    key ← map_err (λ e, AttKeys name ("invalid JWK for kid `" +:+ kid +:+ "`: " +:+ e)) (key_from_jwk jwk);
    payload ← map_err (jwt_error name) (jwt_decode token key (jwt_validation header.1 allowed_issuers policy));
    _ ← enforce_claim_policy now provider payload policy;
    let issued_at := default 0 (json_get payload "iat" ≫= json_as_u64) in
    let m := match extract_measurement payload with
             | Some d => measurement_new "provider" d
             | None => measurement_new "unknown" ""
             end in
    Ok (mkVerified (mkReport provider format issued_at m None (claims_from_payload payload) (str_bytes token)) provider).

(** *** Google and Azure ([gcp_confidential.rs], [azure_snp.rs]) *)

Record TokenVerifier := mkTokenVerifier {
  tv_expected : option string;
  tv_allow_debug : bool;
  tv_jwks_url : string;
  tv_allowed_issuers : list string;
}.

(** [GcpConfidentialVerifier::new], [AzureSnpVerifier::for_instance] *)
Definition gcp_verifier_new : TokenVerifier :=
  mkTokenVerifier None false "https://confidentialcomputing.googleapis.com/.well-known/jwks"
    ["https://confidentialcomputing.googleapis.com"].
Definition azure_for_instance (instance_url : string) : TokenVerifier :=
  let instance := trim_end_matches "/"%char instance_url in
  mkTokenVerifier None false (instance +:+ "/certs") [instance].
Definition azure_verifier_new : TokenVerifier := azure_for_instance "https://sharedeus.eus.attest.azure.net".

(** The policy both use, and [verify_token] *)
Definition merged_policy (allow : bool) (expected : option string) (policy : AttestationPolicy) : AttestationPolicy :=
  let policy := if allow then with_allow_debug true policy else policy in
  match expected_measurement policy, expected with
  | None, Some m => with_measurement m policy
  | _, _ => policy
  end.
Definition verify_token (now : Z) (provider : TeeProvider) (format : AttestationFormat) (v : TokenVerifier) (token : string)
    (policy : AttestationPolicy) : result AttestationError VerifiedAttestation :=
  verify_jwt_attestation now provider format token (tv_jwks_url v) (tv_allowed_issuers v)
    (merged_policy (tv_allow_debug v) (tv_expected v) policy).
Definition gcp_verify_token (now : Z) : TokenVerifier → string → AttestationPolicy → result AttestationError VerifiedAttestation :=
  verify_token now GcpConfidential GcpConfidentialToken.
Definition azure_verify_token (now : Z) : TokenVerifier → string → AttestationPolicy → result AttestationError VerifiedAttestation :=
  verify_token now AzureSnp AzureMaaToken.

(** Their structural [verify] *)
Definition gcp_verify (v : TokenVerifier) : AttestationReport → result TeeError VerifiedAttestation :=
  structural_check "GCP Confidential" "debug mode VMs" GcpConfidential (tv_allow_debug v) (tv_expected v).
Definition azure_verify (v : TokenVerifier) : AttestationReport → result TeeError VerifiedAttestation :=
  structural_check "Azure SNP" "debug mode VMs" AzureSnp (tv_allow_debug v) (tv_expected v).

(** ** Theorems *)

(** *** Bodies *)

Lemma read_chunks_ok max make_err body chunks r :
  read_chunks max make_err body chunks = Ok r →
  ∃ l, chunks = Ok <$> l ∧ r = body ++ mjoin l ∧ zlen r ≤ Z.max (zlen body) max.
Proof.
  revert body. induction chunks as [|[chunk|e] chunks IH]; intros body; cbn [read_chunks].
  - intros [= <-]. exists []. cbn. rewrite app_nil_r. split_and!; [done..|lia].
  - destruct (Z.ltb_spec max (zlen body + zlen chunk)) as [|Hm]; [done|]. intros (l & -> & -> & Hl)%IH.
    exists (chunk :: l). split; [done|]. cbn. rewrite app_assoc. split; [done|].
    unfold zlen in *. rewrite !length_app in *. lia.
  - done.
Qed.

(** A body is read whole and within the cap, or not at all. *)
Lemma read_body_capped_ok resp max make_err r :
  0 ≤ max → read_body_capped resp max make_err = Ok r →
  ∃ l, hr_chunks resp = Ok <$> l ∧ r = mjoin l ∧ zlen r ≤ max.
Proof.
  intros Hmax. unfold read_body_capped. intros Hr.
  assert (read_chunks max make_err [] (hr_chunks resp) = Ok r) as (l & Hl & -> & Hs)%read_chunks_ok
    by (destruct (hr_content_length resp) as [d|]; [destruct (_ <? _); [done|]|]; done).
  exists l. split_and!; [done..|]. unfold zlen in *. cbn [length app] in *. lia.
Qed.

(** *** Claims *)

(** What a policy asks of the claims *)
Definition text_met (expected actual : option string) : Prop :=
  ∀ e, expected = Some e → ∃ a, actual = Some a ∧ to_ascii_lowercase a = to_ascii_lowercase e.
Definition policy_met (now : Z) (payload : JsonValue) (policy : AttestationPolicy) : Prop :=
  (∀ n, expected_nonce policy = Some n → claim_nonce payload = Some n) ∧
  (expected_audience policy = None → is_Some (json_get payload "aud")) ∧
  text_met (expected_image_digest policy) (claim_image_digest payload) ∧
  text_met (expected_measurement policy) (extract_measurement payload) ∧
  (allow_debug policy = false → claim_is_debug payload = false) ∧
  (∀ a, max_age_secs policy = Some a → ∃ iat, json_get payload "iat" ≫= json_as_u64 = Some iat ∧ now - iat ≤ Z.max 0 a).

Lemma check_nonce_ok provider payload policy :
  check_nonce provider payload policy = Ok tt ↔ ∀ n, expected_nonce policy = Some n → claim_nonce payload = Some n.
Proof.
  unfold check_nonce. destruct (expected_nonce policy) as [e|]; [|by split].
  destruct (claim_nonce payload) as [n|]; [|split; [done|intros H; discriminate (H e eq_refl)]].
  case_bool_decide as Hn; split; try done.
  - intros _ n' [= <-]. by rewrite Hn.
  - intros H. specialize (H e eq_refl). congruence.
Qed.

Lemma check_text_ok provider expected actual m1 m2 : check_text provider expected actual m1 m2 = Ok tt ↔ text_met expected actual.
Proof.
  unfold check_text, text_met, eq_ignore_ascii_case. destruct expected as [e|]; [|by split].
  destruct actual as [a|]; [|split; [done|intros H; by destruct (H e eq_refl) as (? & ? & _)]].
  case_bool_decide as Ha; split; try done.
  - intros _ e' [= <-]. by exists a.
  - intros H. destruct (H e eq_refl) as (a' & [= <-] & ?). congruence.
Qed.

Lemma check_age_ok now provider payload policy :
  check_age now provider payload policy = Ok tt ↔
  ∀ a, max_age_secs policy = Some a → ∃ iat, json_get payload "iat" ≫= json_as_u64 = Some iat ∧ u64_sat_sub now iat ≤ a.
Proof.
  unfold check_age. destruct (max_age_secs policy) as [a|]; [|by split].
  destruct (json_get payload "iat" ≫= json_as_u64) as [iat|]; [|split; [done|intros H; by destruct (H a eq_refl) as (? & ? & _)]].
  destruct (Z.ltb_spec a (u64_sat_sub now iat)); split; try done.
  - intros H'. destruct (H' a eq_refl) as (? & [= <-] & ?). lia.
  - intros _ a' [= <-]. by exists iat.
Qed.

(** The checks are exactly the policy, save that a negative age is never met. *)
Lemma enforce_claim_policy_ok now provider payload policy :
  enforce_claim_policy now provider payload policy = Ok tt → policy_met now payload policy.
Proof.
  unfold enforce_claim_policy, policy_met.
  destruct (check_nonce provider payload policy) as [[]|e] eqn:Hn; [|done]. cbn [mbind result_bind].
  destruct (bool_decide (expected_audience policy = None) && negb (bool_decide (is_Some (json_get payload "aud")))) eqn:Ha; [done|].
  cbn [mbind result_bind].
  destruct (check_text _ (expected_image_digest policy) _ _ _) as [[]|e] eqn:Hi; [|done]. cbn [mbind result_bind].
  destruct (check_text _ (expected_measurement policy) _ _ _) as [[]|e] eqn:Hm; [|done]. cbn [mbind result_bind].
  destruct (negb (allow_debug policy) && claim_is_debug payload) eqn:Hd; [done|]. cbn [mbind result_bind].
  intros Hage0. pose proof (proj1 (check_age_ok now provider payload policy) Hage0) as Hage. pose proof (proj1 (check_nonce_ok _ _ _) Hn). pose proof (proj1 (check_text_ok _ _ _ _ _) Hi). pose proof (proj1 (check_text_ok _ _ _ _ _) Hm). split_and!; try done.
  - intros Hnone. rewrite (bool_decide_true _ Hnone) in Ha. cbn in Ha. apply negb_false_iff in Ha.
    by apply bool_decide_eq_true_1 in Ha.
  - intros Hallow. by rewrite Hallow in Hd.
  - intros a Hs. destruct (Hage a Hs) as (iat & Hiat & Hle). exists iat. split; [done|]. unfold u64_sat_sub in Hle. lia.
Qed.

End jwt.

(** [decode] gives the claims of a token only if its signature verifies and those
    of the claims [iss] and [aud] that are there are among the ones that were set. *)
Definition claim_among (l : option (list string)) (v : option JsonValue) : Prop :=
  match l, v with
  | Some l, Some (VString s) => s ∈ l
  | Some l, Some (VArray a) => ∃ s, VString s ∈ a ∧ s ∈ l
  | _, _ => True
  end.
Class JwtLaws (L : JwtLib) := {
  jwt_signed : DecodingKey → JwtAlg → string → JsonValue → Prop;
  jwt_decode_sound token key v payload : jwt_decode token key v = Ok payload →
    jwt_signed key (v_alg v) token payload ∧ claim_among (v_iss v) (json_get payload "iss") ∧
    claim_among (v_aud v) (json_get payload "aud");
}.

(** A token is accepted only with a signature by a key of the provider: the key
    that the token names, from the set that was fetched for the provider, of an
    asymmetric algorithm; an issuer or an audience it names is an allowed one, and
    its claims meet the policy with the measurement that the verifier pins: the
    nonce, the image, the measurement, no debug mode, and the age. *)
Theorem token_attestation_trusted `{L : JwtLib} `{LL : !JwtLaws L} now provider format v token policy va :
  verify_token now provider format v token policy = Ok va →
  ∃ alg kid set jwk key payload,
    decode_header token = Ok (alg, Some kid) ∧ is_asymmetric alg = true ∧
    fetch_jwks provider (tv_jwks_url v) = Ok set ∧ jwks_find set kid = Some jwk ∧ key_from_jwk jwk = Ok key ∧
    jwt_signed key alg token payload ∧
    (tv_allowed_issuers v ≠ [] → claim_among (Some (tv_allowed_issuers v)) (json_get payload "iss")) ∧
    (∀ aud, expected_audience policy = Some aud → claim_among (Some [aud]) (json_get payload "aud")) ∧
    policy_met now payload (merged_policy (tv_allow_debug v) (tv_expected v) policy) ∧
    va_report va = mkReport provider format (default 0 (json_get payload "iat" ≫= json_as_u64))
      (measurement (va_report va)) None (claims_from_payload payload) (str_bytes token) ∧ verified_by va = provider.
Proof.
  unfold verify_token, verify_jwt_attestation. set (policy' := merged_policy _ _ policy).
  destruct (decode_header token) as [[alg kid]|e]; [|done]. cbn [map_err mbind result_bind snd fst].
  destruct kid as [kid|]; [|done]. cbn [ok_or mbind result_bind]. destruct (is_asymmetric alg) eqn:Halg; [|done]. cbn [negb].
  destruct (fetch_jwks provider _) as [set|e] eqn:Hset; [|done]. cbn [mbind result_bind].
  destruct (jwks_find set kid) as [jwk|] eqn:Hjwk; [|done]. cbn [ok_or mbind result_bind].
  destruct (key_from_jwk jwk) as [key|e] eqn:Hkey; [|done]. cbn [map_err mbind result_bind].
  destruct (jwt_decode token key _) as [payload|e] eqn:Hdec; [|done]. cbn [map_err mbind result_bind].
  destruct (enforce_claim_policy now provider payload policy') as [[]|e] eqn:Hpol; [|done]. cbn [mbind result_bind].
  intros Hva. injection Hva as <-. apply jwt_decode_sound in Hdec as (Hsig & Hiss & Haud). apply enforce_claim_policy_ok in Hpol.
  assert (expected_audience policy' = expected_audience policy) as Hea.
  { unfold policy', merged_policy. by destruct (tv_allow_debug v), (expected_measurement policy) eqn:?, (tv_expected v); cbn;
      repeat case_match. }
  exists alg, kid, set, jwk, key, payload. split_and!; try done.
  - intros Hne. cbn in Hiss. by rewrite bool_decide_false in Hiss.
  - intros aud Ha. cbn [jwt_validation v_aud] in Haud. by rewrite Hea, Ha in Haud.
Qed.
