(* ===== verification/TeeNitro.v ===== *)
(** * Documents of Nitro enclaves ([tee/src/attestation/providers/aws_nitro.rs])

    A document is a signed message whose payload names the certificate of its
    signer and the certificates between it and a root that the verifier pins.  The
    parsers of COSE, CBOR and X.509 and the signature checks are parameters; what
    the verifier makes of them is not. *)

From Stdlib Require Import ZArith Lia Ascii.
From stdpp Require Import base gmap sets list sorting strings pretty fin_maps numbers relations.
From S2P Require Import Prelude Bytes Text Hex TeeTypes TeeAttest.

#[local] Open Scope Z_scope.

(** [ciborium::value::Value] *)
Inductive Cbor :=
| CbInteger (n : Z) | CbBytes (b : list Byte8) | CbText (s : string) | CbArray (l : list Cbor)
| CbMap (m : list (Cbor * Cbor)) | CbOther.
Definition cbor_as_map (v : Cbor) : option (list (Cbor * Cbor)) := match v with CbMap m => Some m | _ => None end.
Definition cbor_as_text (v : Cbor) : option string := match v with CbText s => Some s | _ => None end.
Definition cbor_as_bytes (v : Cbor) : option (list Byte8) := match v with CbBytes b => Some b | _ => None end.
Definition cbor_as_array (v : Cbor) : option (list Cbor) := match v with CbArray l => Some l | _ => None end.
Definition cbor_as_integer (v : Cbor) : option Z := match v with CbInteger n => Some n | _ => None end.

Class NitroLib := {
  CoseSign1 : Type;
  Certificate : Type;
  P384Key : Type;
  cose_from_tagged_slice : list Byte8 → option CoseSign1;
  cose_from_slice : list Byte8 → result string CoseSign1;
  cose_payload : CoseSign1 → option (list Byte8);
  cbor_from_reader : list Byte8 → result string Cbor;
  parse_x509_pem : string → result string (list Byte8);
  certificate_from_der : list Byte8 → result string Certificate;
  asn1_from_timestamp : Z → result string Z;
  cert_is_valid_at : Certificate → Z → bool;
  cert_issuer : Certificate → string;
  cert_subject : Certificate → string;
  cert_basic_constraints : Certificate → result string (option (bool * option Z)); (* [cA], [pathLenConstraint] *)
  cert_key_usage : Certificate → result string (option bool);                      (* [keyCertSign] *)
  cert_verify_signature : Certificate → option Certificate → result string unit;   (* with the key of the issuer *)
  cert_p384_key : Certificate → result string P384Key;
  cose_verify_signature : CoseSign1 → P384Key → result string unit;
  utf8_lossy : list Byte8 → string;
}.

Section nitro.
  Context `{L : NitroLib}.

Definition PROVIDER : string := "aws_nitro".
Definition malformed {A} (reason : string) : result AttestationError A := Err (AttMalformed PROVIDER reason).
Definition bad_signature {A} (reason : string) : result AttestationError A := Err (AttSignature PROVIDER reason).
Definition bad_claim {A} (reason : string) : result AttestationError A := Err (AttClaim PROVIDER reason).

(** ** Documents *)

Record NitroDoc := mkNitroDoc {
  pcrs : gmap Z (list Byte8);
  certificate : list Byte8;
  cabundle : list (list Byte8);
  nd_nonce : option (list Byte8);
  timestamp_ms : Z;
}.

(** The variables of the loop of [decode_nitro_document] *)
Record PartialDoc := mkPartial {
  pd_pcrs : gmap Z (list Byte8);
  pd_certificate : option (list Byte8);
  pd_cabundle : list (list Byte8);
  pd_nonce : option (list Byte8);
  pd_timestamp : Z;
}.

Definition decode_pcr (m : gmap Z (list Byte8)) (e : Cbor * Cbor) : result AttestationError (gmap Z (list Byte8)) :=
  let index := n ← cbor_as_integer e.1; if (0 <=? n) && (n <=? 255) then Some n else None in
  i ← ok_or index (AttMalformed PROVIDER "PCR index out of range");
  bytes ← ok_or (cbor_as_bytes e.2) (AttMalformed PROVIDER "PCR value is not bytes");
  Ok (<[i := bytes]> m).

Definition decode_field (d : PartialDoc) (e : Cbor * Cbor) : result AttestationError PartialDoc :=
  let 'mkPartial ps c b n t := d in
  match cbor_as_text e.1 with
  | None => Ok d
  | Some key =>
      if bool_decide (key = "pcrs") then
        match cbor_as_map e.2 with
        | Some entries => ps ← try_fold decode_pcr ps entries; Ok (mkPartial ps c b n t)
        | None => Ok d
        end
      else if bool_decide (key = "certificate") then Ok (mkPartial ps (cbor_as_bytes e.2) b n t)
      else if bool_decide (key = "cabundle") then
        match cbor_as_array e.2 with
        | Some arr => Ok (mkPartial ps c (b ++ omap cbor_as_bytes arr) n t)
        | None => Ok d
        end
      else if bool_decide (key = "nonce") then Ok (mkPartial ps c b (cbor_as_bytes e.2) t)
      else if bool_decide (key = "timestamp") then
        let ts := default 0 (n ← cbor_as_integer e.2; if (0 <=? n) && (n <=? u64_max) then Some n else None) in
        Ok (mkPartial ps c b n ts)
      else Ok d
  end.

(** [decode_nitro_document] *)
Definition decode_nitro_document (payload : list Byte8) : result AttestationError NitroDoc :=
  value ← map_err (λ e, AttMalformed PROVIDER ("attestation document is not valid CBOR: " +:+ e)) (cbor_from_reader payload);
  map ← ok_or (cbor_as_map value) (AttMalformed PROVIDER "attestation document is not a CBOR map");
  d ← try_fold decode_field (mkPartial ∅ None [] None 0) map;
  c ← ok_or (pd_certificate d) (AttMalformed PROVIDER "attestation document missing leaf certificate");
  Ok (mkNitroDoc (pd_pcrs d) c (pd_cabundle d) (pd_nonce d) (pd_timestamp d)).

(** ** Certificates *)

(** [enforce_ca_issuer] *)
Definition enforce_ca_issuer (issuer : Certificate) (subordinate_depth issuer_index : nat) : result AttestationError unit :=
  let cert := "cert " +:+ pretty issuer_index in
  bc ← map_err (λ e, AttSignature PROVIDER (cert +:+ " basic-constraints malformed: " +:+ e)) (cert_basic_constraints issuer);
  bc ← ok_or bc (AttSignature PROVIDER (cert +:+ " used as issuer but has no BasicConstraints extension"));
  _ ← if negb bc.1 then bad_signature (cert +:+ " used as issuer but is not a CA (cA=false)") else Ok tt;
  _ ← match bc.2 with
      | Some max =>
          if max <? Z.of_nat subordinate_depth
          then bad_signature (cert +:+ " pathLenConstraint=" +:+ pretty max +:+ " violated at depth " +:+ pretty subordinate_depth)
          else Ok tt
      | None => Ok tt
      end;
  ku ← map_err (λ e, AttSignature PROVIDER (cert +:+ " key-usage malformed: " +:+ e)) (cert_key_usage issuer);
  match ku with
  | Some false => bad_signature (cert +:+ " keyUsage does not permit keyCertSign")
  | _ => Ok tt
  end.

(** The loop over the links of the chain *)
Definition check_link (now : Z) (i : nat) (subject issuer : Certificate) : result AttestationError unit :=
  let link := "cert chain link " +:+ pretty i +:+ " -> " +:+ pretty (S i) in
  _ ← if negb (cert_is_valid_at subject now)
      then bad_claim ("certificate " +:+ pretty i +:+ " in chain is expired or not yet valid") else Ok tt;
  _ ← if negb (bool_decide (cert_issuer subject = cert_subject issuer))
      then bad_signature (link +:+ " broken: issuer/subject DN mismatch") else Ok tt;
  _ ← enforce_ca_issuer issuer i (S i);
  map_err (λ e, AttSignature PROVIDER (link +:+ " failed: " +:+ e)) (cert_verify_signature subject (Some issuer)).
Fixpoint check_links (now : Z) (i : nat) (chain : list Certificate) : result AttestationError unit :=
  match chain with
  | subject :: rest =>
      match rest with
      | issuer :: _ => _ ← check_link now i subject issuer; check_links now (S i) rest
      | [] => Ok tt
      end
  | [] => Ok tt
  end.

(** [parse_root_der] *)
Definition parse_root_der (root_pem : string) : result AttestationError (list Byte8) :=
  map_err (λ e, AttKeys PROVIDER ("pinned root PEM is invalid: " +:+ e)) (parse_x509_pem root_pem).

(** [now as i64] *)
Definition as_i64 (x : Z) : Z := if x <? 2 ^ 63 then x else x - 2 ^ 64.

(** [verify_cert_chain] *)
Definition verify_cert_chain (now : Z) (doc : NitroDoc) (root_pem : string) : result AttestationError unit :=
  root_der ← parse_root_der root_pem;
  let chain_der := certificate doc :: reverse (cabundle doc) ++ [root_der] in
  parsed ← traverse (λ der, map_err (λ e, AttSignature PROVIDER ("certificate in chain is not valid DER: " +:+ e))
    (certificate_from_der der)) chain_der;
  now ← map_err (λ e, AttClaim PROVIDER ("clock error: " +:+ e)) (asn1_from_timestamp (as_i64 now));
  _ ← check_links now 0 parsed;
  match last parsed with
  | None => Ok tt
  | Some root =>
      if negb (cert_is_valid_at root now) then bad_claim "pinned AWS Nitro root certificate is expired"
      else map_err (λ e, AttSignature PROVIDER ("pinned root self-signature invalid: " +:+ e)) (cert_verify_signature root None)
  end.

(** [verify_cose_signature] *)
Definition verify_cose (sign1 : CoseSign1) (leaf_der : list Byte8) : result AttestationError unit :=
  leaf ← map_err (λ e, AttSignature PROVIDER ("leaf certificate is not valid DER: " +:+ e)) (certificate_from_der leaf_der);
  key ← map_err (λ e, AttSignature PROVIDER ("leaf key is not a valid P-384 point: " +:+ e)) (cert_p384_key leaf);
  map_err (λ e, AttSignature PROVIDER ("COSE_Sign1 signature does not verify against leaf key: " +:+ e))
    (cose_verify_signature sign1 key).

(** ** Policy *)

Definition all_zero (b : list Byte8) : bool := forallb (λ x, x =? 0) b.

Definition check_pcr (doc : NitroDoc) (i : Z) (expected : option string) (missing mismatch : string) : result AttestationError unit :=
  match expected with
  | None => Ok tt
  | Some e =>
      match pcrs doc !! i with
      | None => bad_claim missing
      | Some pcr => if eq_ignore_ascii_case (hex_encode pcr) e then Ok tt else bad_claim mismatch
      end
  end.

(** [enforce_pcr_and_nonce_policy] *)
Definition enforce_pcr_and_nonce_policy (doc : NitroDoc) (policy : AttestationPolicy) : result AttestationError unit :=
  _ ← match pcrs doc !! 0 with
      | Some pcr0 => if negb (allow_debug policy) && all_zero pcr0
                     then bad_claim "PCR0 is all-zero (debug-mode enclave); rejected by policy" else Ok tt
      | None => Ok tt
      end;
  _ ← check_pcr doc 0 (expected_measurement policy) "expected a PCR0 measurement but document has none" "PCR0 measurement mismatch";
  _ ← check_pcr doc 8 (expected_image_digest policy) "expected a PCR8 image digest but document has none" "PCR8 image digest mismatch";
  match expected_nonce policy with
  | None => Ok tt
  | Some e =>
      match nd_nonce doc with
      | None => bad_claim "expected a nonce but document has none"
      | Some n => if bool_decide (n = str_bytes e) then Ok tt else bad_claim "Nitro nonce mismatch"
      end
  end.

(** ** The verifier *)

Record NitroVerifier := mkNitroVerifier {
  expected_pcr0 : option string;
  expected_pcr8 : option string;
  nt_allow_debug : bool;
  root_cert_pem : string;
}.

Definition nitro_policy (v : NitroVerifier) (policy : AttestationPolicy) : AttestationPolicy :=
  let policy := merged_policy (nt_allow_debug v) (expected_pcr0 v) policy in
  match expected_image_digest policy, expected_pcr8 v with
  | None, Some d => with_image_digest d policy
  | _, _ => policy
  end.

(** The registers in the order of their numbers *)
Definition pcr_list (m : gmap Z (list Byte8)) : list (Z * list Byte8) := omap (λ i, (λ b, (i, b)) <$> m !! i) (seqZ 0 256).

Definition nitro_claims (doc : NitroDoc) : AttestationClaims :=
  let base := mkClaims None (from_option all_zero false (pcrs doc !! 0))
    ((λ p, "pcr" +:+ pretty p.1 +:+ ":" +:+ hex_encode p.2) <$> pcr_list (pcrs doc)) None None None ∅ in
  let c := foldl (λ c p, with_custom c ("pcr" +:+ pretty p.1) (VString (hex_encode p.2))) base (pcr_list (pcrs doc)) in
  match nd_nonce doc with Some n => with_custom c "nonce" (VString (utf8_lossy n)) | None => c end.

(** [NitroVerifier::verify_document] *)
Definition cose_parse (bytes : list Byte8) : result AttestationError CoseSign1 :=
  match cose_from_tagged_slice bytes with
  | Some s => Ok s
  | None => map_err (λ e, AttMalformed PROVIDER ("not a valid COSE_Sign1: " +:+ e)) (cose_from_slice bytes)
  end.
Definition nitro_report (doc : NitroDoc) (cose_bytes : list Byte8) : AttestationReport :=
  mkReport AwsNitro NitroDocument (timestamp_ms doc / 1000) (measurement_sha384 (from_option hex_encode "" (pcrs doc !! 0)))
    None (nitro_claims doc) cose_bytes.
(** The clock is read for the certificates, at [now], and for the age, at [now']. *)
Definition verify_document (now now' : Z) (v : NitroVerifier) (cose_bytes : list Byte8) (policy : AttestationPolicy)
    : result AttestationError VerifiedAttestation :=
  sign1 ← cose_parse cose_bytes;
  payload ← ok_or (cose_payload sign1) (AttMalformed PROVIDER "COSE_Sign1 has no payload");
  doc ← decode_nitro_document payload;
  _ ← verify_cert_chain now doc (root_cert_pem v);
  _ ← verify_cose sign1 (certificate doc);
  let policy := nitro_policy v policy in
  _ ← enforce_pcr_and_nonce_policy doc policy;
  _ ← match max_age_secs policy with
      | Some max_age =>
          if max_age <? u64_sat_sub now' (timestamp_ms doc / 1000)
          then bad_claim ("Nitro document older than " +:+ pretty max_age +:+ "s") else Ok tt
      | None => Ok tt
      end;
  Ok (mkVerified (nitro_report doc cose_bytes) AwsNitro).

(** [NitroVerifier::verify], [verification_level] *)
Definition nitro_verify (now now' : Z) (v : NitroVerifier) (r : AttestationReport) : result TeeError VerifiedAttestation :=
  if bool_decide (ar_provider r = AwsNitro) && bool_decide (ar_format r = NitroDocument) && negb (bool_decide (evidence r = []))
  then
    let policy := mkPolicyAtt None None (expected_pcr8 v) (expected_pcr0 v) (nt_allow_debug v) (max_age_secs production) in
    map_err tee_error_from (verify_document now now' v (evidence r) policy)
  else structural_check "AWS Nitro" "debug mode enclaves" AwsNitro (nt_allow_debug v) (expected_pcr0 v) r.
Definition nitro_verification_level : VerificationLevel := Cryptographic.

(** ** Theorems *)

(** A certificate may issue the one at a depth below it. *)
Definition may_issue (issuer : Certificate) (depth : nat) : Prop :=
  ∃ path_len, cert_basic_constraints issuer = Ok (Some (true, path_len)) ∧
    (∀ max, path_len = Some max → Z.of_nat depth ≤ max) ∧
    (cert_key_usage issuer = Ok None ∨ cert_key_usage issuer = Ok (Some true)).

(** A chain that leads to its last certificate *)
Definition chain_trusted (now : Z) (chain : list Certificate) : Prop :=
  (∀ i subject issuer, chain !! i = Some subject → chain !! S i = Some issuer →
     cert_is_valid_at subject now = true ∧ cert_issuer subject = cert_subject issuer ∧ may_issue issuer i ∧
     cert_verify_signature subject (Some issuer) = Ok tt) ∧
  ∃ root, last chain = Some root ∧ cert_is_valid_at root now = true ∧ cert_verify_signature root None = Ok tt.

Lemma enforce_ca_issuer_ok issuer depth index : enforce_ca_issuer issuer depth index = Ok tt → may_issue issuer depth.
Proof.
  unfold enforce_ca_issuer, may_issue. destruct (cert_basic_constraints issuer) as [[[ca path]|]|e]; [|done..].
  cbn [map_err ok_or mbind result_bind fst snd]. destruct ca; [|done]. cbn [negb mbind result_bind].
  intros Hrest. exists path. split; [done|]. destruct path as [max|]; cbn [mbind result_bind] in Hrest.
  - destruct (Z.ltb_spec max (Z.of_nat depth)); [done|]. cbn [mbind result_bind] in Hrest. split; [by intros ? [= <-]|].
    destruct (cert_key_usage issuer) as [[[]|]|e]; try done; [by right|by left].
  - split; [done|]. destruct (cert_key_usage issuer) as [[[]|]|e]; try done; [by right|by left].
Qed.

Lemma check_link_ok now i subject issuer :
  check_link now i subject issuer = Ok tt →
  cert_is_valid_at subject now = true ∧ cert_issuer subject = cert_subject issuer ∧ may_issue issuer i ∧
  cert_verify_signature subject (Some issuer) = Ok tt.
Proof.
  unfold check_link. destruct (cert_is_valid_at subject now) eqn:Hv; [|done]. cbn [negb mbind result_bind].
  destruct (bool_decide (cert_issuer subject = cert_subject issuer)) eqn:Hd; [|done]. cbn [negb mbind result_bind].
  destruct (enforce_ca_issuer issuer i (S i)) as [[]|e] eqn:Hc; [|done]. cbn [mbind result_bind].
  destruct (cert_verify_signature subject (Some issuer)) as [[]|e] eqn:Hs; [|done]. intros _.
  apply bool_decide_eq_true_1 in Hd. apply enforce_ca_issuer_ok in Hc. by split_and!.
Qed.

Lemma check_links_ok now k chain :
  check_links now k chain = Ok tt →
  ∀ i subject issuer, chain !! i = Some subject → chain !! S i = Some issuer → check_link now (k + i) subject issuer = Ok tt.
Proof.
  revert k. induction chain as [|c chain IH]; intros k Hc i subject issuer Hs Hi; [done|]. destruct chain as [|c' chain]; [done|].
  cbn [check_links] in Hc. destruct (check_link now k c c') as [[]|e] eqn:Hl; [|done]. cbn [mbind result_bind] in Hc.
  destruct i as [|i].
  - cbn in Hs, Hi. injection Hs as <-. injection Hi as <-. by rewrite Nat.add_0_r.
  - rewrite <-Nat.add_succ_comm. by eapply (IH (S k) Hc i).
Qed.

Lemma verify_cert_chain_ok now doc root_pem :
  verify_cert_chain now doc root_pem = Ok tt →
  ∃ root_der chain t, parse_x509_pem root_pem = Ok root_der ∧
    traverse (λ der, map_err (λ e, AttSignature PROVIDER ("certificate in chain is not valid DER: " +:+ e))
      (certificate_from_der der)) (certificate doc :: reverse (cabundle doc) ++ [root_der]) = Ok chain ∧
    asn1_from_timestamp (as_i64 now) = Ok t ∧ chain_trusted t chain.
Proof.
  unfold verify_cert_chain, parse_root_der. destruct (parse_x509_pem root_pem) as [root_der|e]; [|done]. cbn [map_err mbind result_bind].
  destruct (traverse _ _) as [chain|e] eqn:Ht; [|done]. cbn [mbind result_bind].
  destruct (asn1_from_timestamp (as_i64 now)) as [t|e]; [|done]. cbn [map_err mbind result_bind].
  destruct (check_links t 0 chain) as [[]|e] eqn:Hl; [|done]. cbn [mbind result_bind]. intros Hroot.
  exists root_der, chain, t. split_and!; [done..|]. split.
  - intros i subject issuer Hs Hi. apply check_link_ok. by apply (check_links_ok t 0 chain Hl i).
  - assert (is_Some (last chain)) as [root Hlast].
    { destruct chain as [|c chain]; [|apply last_is_Some; done]. cbn [traverse] in Ht.
      destruct (map_err _ (certificate_from_der (certificate doc))) as [c|e]; [|done]. cbn [mbind result_bind] in Ht.
      by destruct (traverse _ (reverse (cabundle doc) ++ [root_der])). }
    rewrite Hlast in Hroot |- *. exists root. split; [done|]. destruct (cert_is_valid_at root t); [|done]. cbn [negb] in Hroot.
    by destruct (cert_verify_signature root None) as [[]|e].
Qed.

(** What a policy asks of the registers and the nonce *)
Definition pcr_met (doc : NitroDoc) (i : Z) (expected : option string) : Prop :=
  text_met expected (hex_encode <$> pcrs doc !! i).
Definition document_policy_met (now : Z) (doc : NitroDoc) (policy : AttestationPolicy) : Prop :=
  pcr_met doc 0 (expected_measurement policy) ∧ pcr_met doc 8 (expected_image_digest policy) ∧
  (∀ n, expected_nonce policy = Some n → nd_nonce doc = Some (str_bytes n)) ∧
  (allow_debug policy = false → ∀ pcr0, pcrs doc !! 0 = Some pcr0 → all_zero pcr0 = false) ∧
  (∀ a, max_age_secs policy = Some a → now - timestamp_ms doc / 1000 ≤ Z.max 0 a).

Lemma check_pcr_ok doc i expected m1 m2 : check_pcr doc i expected m1 m2 = Ok tt → pcr_met doc i expected.
Proof.
  unfold check_pcr, pcr_met, text_met, eq_ignore_ascii_case. destruct expected as [e|]; [|done].
  destruct (pcrs doc !! i) as [pcr|]; [|done]. case_bool_decide as He; [|done]. intros _ e' [= <-]. by eexists.
Qed.

Lemma enforce_pcr_ok doc policy :
  enforce_pcr_and_nonce_policy doc policy = Ok tt →
  pcr_met doc 0 (expected_measurement policy) ∧ pcr_met doc 8 (expected_image_digest policy) ∧
  (∀ n, expected_nonce policy = Some n → nd_nonce doc = Some (str_bytes n)) ∧
  (allow_debug policy = false → ∀ pcr0, pcrs doc !! 0 = Some pcr0 → all_zero pcr0 = false).
Proof.
  unfold enforce_pcr_and_nonce_policy. intros Hp.
  assert (allow_debug policy = false → ∀ pcr0, pcrs doc !! 0 = Some pcr0 → all_zero pcr0 = false) as Hdebug.
  { intros Ha pcr0 H0. rewrite H0, Ha in Hp. by destruct (all_zero pcr0). }
  destruct (match pcrs doc !! 0 with Some pcr0 => _ | None => _ end) as [[]|e] in Hp; [|done]. cbn [mbind result_bind] in Hp.
  destruct (check_pcr doc 0 _ _ _) as [[]|e] eqn:H0 in Hp; [|done]. cbn [mbind result_bind] in Hp.
  destruct (check_pcr doc 8 _ _ _) as [[]|e] eqn:H8 in Hp; [|done]. cbn [mbind result_bind] in Hp.
  apply check_pcr_ok in H0, H8. split_and!; try done. intros n Hn. rewrite Hn in Hp.
  destruct (nd_nonce doc) as [n'|]; [|done]. case_bool_decide as He; [|done]. by rewrite He.
Qed.

(** C22. A Nitro document is accepted only if it leads to the pinned root: it is
    signed by the key of its certificate; that certificate, the bundle in reverse
    and the root form a chain of valid certificates, each issued by the next, which
    may issue at that depth; and the document meets the policy with what the
    verifier pins: the image register, the image digest, the nonce, no debug mode
    and the age.  The report holds the document's own register and evidence. *)
Theorem nitro_document_trusted now now' v bytes policy va :
  verify_document now now' v bytes policy = Ok va →
  ∃ sign1 payload doc leaf key root_der chain t,
    cose_parse bytes = Ok sign1 ∧ cose_payload sign1 = Some payload ∧ decode_nitro_document payload = Ok doc ∧
    certificate_from_der (certificate doc) = Ok leaf ∧ cert_p384_key leaf = Ok key ∧ cose_verify_signature sign1 key = Ok tt ∧
    parse_x509_pem (root_cert_pem v) = Ok root_der ∧
    traverse (λ der, map_err (λ e, AttSignature PROVIDER ("certificate in chain is not valid DER: " +:+ e))
      (certificate_from_der der)) (certificate doc :: reverse (cabundle doc) ++ [root_der]) = Ok chain ∧
    asn1_from_timestamp (as_i64 now) = Ok t ∧ chain_trusted t chain ∧
    document_policy_met now' doc (nitro_policy v policy) ∧
    va = mkVerified (nitro_report doc bytes) AwsNitro.
Proof.
  unfold verify_document. destruct (cose_parse bytes) as [sign1|e]; [|done]. cbn [mbind result_bind].
  destruct (cose_payload sign1) as [payload|] eqn:Hpay; [|done]. cbn [ok_or mbind result_bind].
  destruct (decode_nitro_document payload) as [doc|e] eqn:Hdoc; [|done]. cbn [mbind result_bind].
  destruct (verify_cert_chain now doc (root_cert_pem v)) as [[]|e] eqn:Hchain; [|done]. cbn [mbind result_bind].
  destruct (verify_cose sign1 (certificate doc)) as [[]|e] eqn:Hcose; [|done]. cbn [mbind result_bind].
  destruct (enforce_pcr_and_nonce_policy doc (nitro_policy v policy)) as [[]|e] eqn:Hpol; [|done]. cbn [mbind result_bind].
  intros Hage. apply verify_cert_chain_ok in Hchain as (root_der & chain & t & Hroot & Hparsed & Ht & Htrust).
  apply enforce_pcr_ok in Hpol as (H0 & H8 & Hn & Hd).
  unfold verify_cose in Hcose. destruct (certificate_from_der (certificate doc)) as [leaf|e] eqn:Hleaf; [|done].
  cbn [map_err mbind result_bind] in Hcose. destruct (cert_p384_key leaf) as [key|e] eqn:Hkey; [|done].
  cbn [map_err mbind result_bind] in Hcose. destruct (cose_verify_signature sign1 key) as [[]|e] eqn:Hsig; [|done].
  exists sign1, payload, doc, leaf, key, root_der, chain, t.
  assert (∀ a, max_age_secs (nitro_policy v policy) = Some a → now' - timestamp_ms doc / 1000 ≤ Z.max 0 a) as Hfresh.
  { intros a Ha. rewrite Ha in Hage. destruct (Z.ltb_spec a (u64_sat_sub now' (timestamp_ms doc / 1000))); [done|].
    unfold u64_sat_sub in *. lia. }
  destruct (match max_age_secs (nitro_policy v policy) with Some _ => _ | None => _ end) as [[]|e] in Hage; [|done].
  injection Hage as <-. by split_and!.
Qed.

End nitro.
