(* ===== verification/TeeRuntime.v ===== *)
(** * Running trusted workloads ([tee/src/runtime], [tee/src/middleware],
      [runner/src/lib.rs])

    The registry of backends and the backend that runs workloads on the host
    itself, the detection of the hardware, the layer that adds the attestation to
    results, and what the runner does about trusted execution when it starts.  The
    cloud backends are a parameter. *)

From Stdlib Require Import ZArith Lia Ascii.
From stdpp Require Import base gmap sets list sorting strings pretty fin_maps numbers relations.
From S2P Require Import Prelude Bytes Text JobCore Hex TeeTypes.

#[local] Open Scope Z_scope.

(** ** Backends ([backend.rs]) *)

Record TeeDeployRequest := mkDeploy {
  dq_image : string;
  dq_env : gmap string string;
  dq_resources : gmap string string;
  preferred_provider : option TeeProvider;
  extra_ports : list Z;
}.
(** [TeeDeployRequest::new], [with_env], [with_provider], [with_extra_ports] *)
Definition deploy_request_new (image : string) : TeeDeployRequest := mkDeploy image ∅ ∅ None [].
Definition with_env (r : TeeDeployRequest) (key value : string) : TeeDeployRequest :=
  mkDeploy (dq_image r) (<[key := value]> (dq_env r)) (dq_resources r) (preferred_provider r) (extra_ports r).
Definition with_provider (r : TeeDeployRequest) (p : TeeProvider) : TeeDeployRequest :=
  mkDeploy (dq_image r) (dq_env r) (dq_resources r) (Some p) (extra_ports r).
Definition with_extra_ports (r : TeeDeployRequest) (ports : list Z) : TeeDeployRequest :=
  mkDeploy (dq_image r) (dq_env r) (dq_resources r) (preferred_provider r) (extra_ports r ++ ports).

Record TeePublicKey := mkTeeKey { tk_key : list Byte8; tk_key_type : string; tk_fingerprint : string }.
Record TeeDeploymentHandle := mkHandle {
  dh_id : string;
  dh_provider : TeeProvider;
  dh_metadata : gmap string string;
  dh_cached_attestation : option AttestationReport;
  port_mapping : gmap Z Z;
  dh_lifecycle_policy : RuntimeLifecyclePolicy;
}.
Inductive TeeDeploymentStatus := Provisioning | Running | Stopping | Stopped | Failed.
#[export] Instance TeeDeploymentStatus_eq_dec : EqDecision TeeDeploymentStatus.
Proof. solve_decision. Defined.

(** ** The direct backend ([direct.rs]) *)

Record DirectBackendConfig := mkDirectConfig {
  dc_provider : TeeProvider;
  device_paths : list string;
  readonly_rootfs : bool;
  memory_limit_bytes : Z;
  cpu_limit : Z;
}.
Record DeploymentState := mkDeployment {
  ds_image : string;
  ds_status : TeeDeploymentStatus;
  ds_cached_attestation : option AttestationReport;
}.
Record DirectBackend := mkDirect {
  db_config : DirectBackendConfig;
  deployments : gmap string DeploymentState;
  next_id : Z;
  key_derivation_secret : list Byte8;
  software_measurement : string;
}.

(** [DirectBackendConfig::default] *)
Definition direct_config (p : TeeProvider) (paths : list string) : DirectBackendConfig := mkDirectConfig p paths true 0 0.
Definition direct_config_default : DirectBackendConfig := direct_config IntelTdx [].

(** [DirectBackend::new], with the random secret and the hash of the running
    program, if it could be read; [tdx], [sev_snp] *)
Definition direct_new (config : DirectBackendConfig) (secret : list Byte8) (measurement : option string) : DirectBackend :=
  mkDirect config ∅ 0 secret (default "" measurement).
Definition direct_tdx : list Byte8 → option string → DirectBackend := direct_new (direct_config IntelTdx ["/dev/tdx_guest"]).
Definition direct_sev_snp : list Byte8 → option string → DirectBackend := direct_new (direct_config AmdSevSnp ["/dev/sev-guest"]).

Definition set_deployments (b : DirectBackend) (m : gmap string DeploymentState) : DirectBackend :=
  mkDirect (db_config b) m (next_id b) (key_derivation_secret b) (software_measurement b).

(** [generate_id] *)
Definition direct_id (n : Z) : string := "direct-" +:+ pretty n.
Definition generate_id (b : DirectBackend) : string * DirectBackend :=
  let n := u64_wrap (next_id b + 1) in
  (direct_id n, mkDirect (db_config b) (deployments b) n (key_derivation_secret b) (software_measurement b)).

(** [deploy] *)
Definition direct_deploy (req : TeeDeployRequest) (b : DirectBackend) : result TeeError TeeDeploymentHandle * DirectBackend :=
  let '(id, b) := generate_id b in
  let ports := foldl (λ m p, <[p := p]> m) ∅ (extra_ports req) in
  let provider := dc_provider (db_config b) in
  let metadata := <["provider" := provider_display provider]> {[ "backend" := "direct" ]} in
  let metadata := if readonly_rootfs (db_config b) then <["readonly_rootfs" := "true"]> metadata else metadata in
  (Ok (mkHandle id provider metadata None ports CloudManaged),
   set_deployments b (<[id := mkDeployment (dq_image req) Running None]> (deployments b))).

Definition not_found {A} (h : TeeDeploymentHandle) : result TeeError A :=
  Err (RuntimeUnavailable ("deployment " +:+ dh_id h +:+ " not found")).

(** [get_attestation] *)
Definition direct_report (now : Z) (b : DirectBackend) : AttestationReport :=
  let p := dc_provider (db_config b) in
  mkReport p (match p with IntelTdx => TdxQuote | AmdSevSnp => SevSnpReport | _ => MockFormat end) now
    (measurement_sha256 (software_measurement b)) None claims_new [].
Definition direct_get_attestation (now : Z) (h : TeeDeploymentHandle) (b : DirectBackend)
    : result TeeError AttestationReport * DirectBackend :=
  if bool_decide (software_measurement b = "")
  then (Err (BackendError "binary measurement unavailable: could not read executable"), b)
  else
    match deployments b !! dh_id h with
    | None => (not_found h, b)
    | Some d =>
        let report := direct_report now b in
        (Ok report, set_deployments b (<[dh_id h := mkDeployment (ds_image d) (ds_status d) (Some report)]> (deployments b)))
    end.

(** [cached_attestation], [status], [stop], [destroy] *)
Definition direct_cached_attestation (h : TeeDeploymentHandle) (b : DirectBackend) : result TeeError (option AttestationReport) :=
  match deployments b !! dh_id h with None => not_found h | Some d => Ok (ds_cached_attestation d) end.
Definition direct_status (h : TeeDeploymentHandle) (b : DirectBackend) : result TeeError TeeDeploymentStatus :=
  match deployments b !! dh_id h with None => not_found h | Some d => Ok (ds_status d) end.
Definition direct_stop (h : TeeDeploymentHandle) (b : DirectBackend) : result TeeError unit * DirectBackend :=
  match deployments b !! dh_id h with
  | None => (not_found h, b)
  | Some d => (Ok tt, set_deployments b (<[dh_id h := mkDeployment (ds_image d) Stopped (ds_cached_attestation d)]> (deployments b)))
  end.
Definition direct_destroy (h : TeeDeploymentHandle) (b : DirectBackend) : result TeeError unit * DirectBackend :=
  (Ok tt, set_deployments b (delete (dh_id h) (deployments b))).

(** [derive_public_key]: the hash of the secret and the identifier *)
Definition direct_derive_public_key `{Sha256} (h : TeeDeploymentHandle) (b : DirectBackend) : result TeeError TeePublicKey :=
  match deployments b !! dh_id h with
  | None => not_found h
  | Some _ =>
      let key := sha256_digest (key_derivation_secret b ++ str_bytes (dh_id h)) in
      Ok (mkTeeKey key "hmac-sha256" (hex_encode (take 8 key)))
  end.

(** ** The registry ([registry.rs]) *)

(** The backends of the clouds, of which those that are compiled in can be made
    from the environment *)
Class CloudBackends := {
  CloudBackend : Type;
  cloud_compiled : TeeProvider → bool;
  cloud_from_env : TeeProvider → result TeeError CloudBackend;
  cloud_deploy : TeeDeployRequest → CloudBackend → result TeeError TeeDeploymentHandle * CloudBackend;
  cloud_get_attestation : TeeDeploymentHandle → CloudBackend → result TeeError AttestationReport * CloudBackend;
  cloud_cached_attestation : TeeDeploymentHandle → CloudBackend → result TeeError (option AttestationReport);
  cloud_derive_public_key : TeeDeploymentHandle → CloudBackend → result TeeError TeePublicKey;
  cloud_status : TeeDeploymentHandle → CloudBackend → result TeeError TeeDeploymentStatus;
  cloud_stop : TeeDeploymentHandle → CloudBackend → result TeeError unit * CloudBackend;
  cloud_destroy : TeeDeploymentHandle → CloudBackend → result TeeError unit * CloudBackend;
}.

Section registry.
  Context `{H : Sha256} `{C : CloudBackends}.

(** [DynBackend] *)
Inductive DynBackend := DirectB (b : DirectBackend) | CloudB (c : CloudBackend).
Abbreviation BackendRegistry := (gmap TeeProvider DynBackend).

(** [BackendRegistry::register], [has_provider], [providers] in their order *)
Definition register (p : TeeProvider) (b : DynBackend) (r : BackendRegistry) : BackendRegistry := <[p := b]> r.
Definition has_provider (p : TeeProvider) (r : BackendRegistry) : bool := bool_decide (is_Some (r !! p)).
Definition providers (r : BackendRegistry) : list TeeProvider :=
  filter (λ p, is_Some (r !! p)) [AwsNitro; AzureSnp; GcpConfidential; IntelTdx; AmdSevSnp].

(** [get_backend], and a call that changes the backend it is dispatched to *)
Definition get_backend (p : TeeProvider) (r : BackendRegistry) : result TeeError DynBackend :=
  ok_or (r !! p) (UnsupportedProvider ("no backend registered for " +:+ provider_display p)).
Definition dispatch {A} (p : TeeProvider) (f : DirectBackend → result TeeError A * DirectBackend)
    (g : CloudBackend → result TeeError A * CloudBackend) (r : BackendRegistry) : result TeeError A * BackendRegistry :=
  match get_backend p r with
  | Err e => (Err e, r)
  | Ok (DirectB b) => let '(a, b') := f b in (a, <[p := DirectB b']> r)
  | Ok (CloudB c) => let '(a, c') := g c in (a, <[p := CloudB c']> r)
  end.
Definition dispatch_read {A} (p : TeeProvider) (f : DirectBackend → result TeeError A) (g : CloudBackend → result TeeError A)
    (r : BackendRegistry) : result TeeError A :=
  b ← get_backend p r; match b with DirectB b => f b | CloudB c => g c end.

(** [deploy], [get_attestation], [cached_attestation], [derive_public_key],
    [status], [stop], [destroy] *)
Definition registry_deploy (p : TeeProvider) (req : TeeDeployRequest) : BackendRegistry → result TeeError TeeDeploymentHandle * BackendRegistry :=
  dispatch p (direct_deploy req) (cloud_deploy req).
Definition registry_get_attestation (now : Z) (h : TeeDeploymentHandle) : BackendRegistry → result TeeError AttestationReport * BackendRegistry :=
  dispatch (dh_provider h) (direct_get_attestation now h) (cloud_get_attestation h).
Definition registry_cached_attestation (h : TeeDeploymentHandle) : BackendRegistry → result TeeError (option AttestationReport) :=
  dispatch_read (dh_provider h) (direct_cached_attestation h) (cloud_cached_attestation h).
Definition registry_derive_public_key (h : TeeDeploymentHandle) : BackendRegistry → result TeeError TeePublicKey :=
  dispatch_read (dh_provider h) (direct_derive_public_key h) (cloud_derive_public_key h).
Definition registry_status (h : TeeDeploymentHandle) : BackendRegistry → result TeeError TeeDeploymentStatus :=
  dispatch_read (dh_provider h) (direct_status h) (cloud_status h).
Definition registry_stop (h : TeeDeploymentHandle) : BackendRegistry → result TeeError unit * BackendRegistry :=
  dispatch (dh_provider h) (direct_stop h) (cloud_stop h).
Definition registry_destroy (h : TeeDeploymentHandle) : BackendRegistry → result TeeError unit * BackendRegistry :=
  dispatch (dh_provider h) (direct_destroy h) (cloud_destroy h).

(** [from_env]: one backend name; the draws are for the direct backends *)
Definition not_compiled (name feature : string) : string :=
  name +:+ " backend requested but the '" +:+ feature +:+ "' feature is not enabled; recompile with --features " +:+ feature.
Definition register_cloud (p : TeeProvider) (name : string) (r : BackendRegistry) : result TeeError BackendRegistry :=
  if cloud_compiled p then b ← cloud_from_env p; Ok (register p (CloudB b) r)
  else Err (UnsupportedProvider (not_compiled name name)).
Definition register_named (secret : list Byte8) (measurement : option string) (r : BackendRegistry) (name : string)
    : result TeeError BackendRegistry :=
  if bool_decide (name = "direct") || bool_decide (name = "direct-tdx")
  then Ok (register IntelTdx (DirectB (direct_tdx secret measurement)) r)
  else if bool_decide (name = "direct-sev-snp") then Ok (register AmdSevSnp (DirectB (direct_sev_snp secret measurement)) r)
  else if bool_decide (name = "aws-nitro") then register_cloud AwsNitro name r
  else if bool_decide (name = "gcp-confidential") then register_cloud GcpConfidential name r
  else if bool_decide (name = "azure-snp") then register_cloud AzureSnp name r
  else Err (TeeConfigError ("unknown TEE_BACKEND value: '" +:+ name +:+
    "'; valid options: direct, direct-tdx, direct-sev-snp, aws-nitro, gcp-confidential, azure-snp")).
Definition from_env (tee_backend : option string) (secret : list Byte8) (measurement : option string)
    : result TeeError BackendRegistry :=
  match tee_backend with
  | None => Ok ∅
  | Some backends => try_fold (register_named secret measurement) ∅ (trim <$> split_char ","%char backends)
  end.

(** ** Theorems *)

(** *** Direct deployments *)

(** The identifiers in use are those given out so far. *)
Definition direct_inv (b : DirectBackend) : Prop :=
  0 ≤ next_id b ∧ map_Forall (λ id _, ∃ n, 0 < n ≤ next_id b ∧ id = direct_id n) (deployments b).

Lemma direct_id_inj n m : direct_id n = direct_id m → n = m.
Proof. intros Heq. apply (inj pretty). unfold direct_id in Heq. by apply (inj (String.append "direct-")) in Heq. Qed.

Lemma direct_new_inv config secret m : direct_inv (direct_new config secret m).
Proof. split; cbn; [lia|apply map_Forall_empty]. Qed.

Lemma direct_deploy_inv req b h b' :
  direct_inv b → next_id b < u64_max → direct_deploy req b = (Ok h, b') →
  direct_inv b' ∧ deployments b !! dh_id h = None ∧ dh_provider h = dc_provider (db_config b) ∧
  dh_lifecycle_policy h = CloudManaged ∧
  deployments b' = <[dh_id h := mkDeployment (dq_image req) Running None]> (deployments b) ∧ db_config b' = db_config b.
Proof.
  intros [Hn Hd] Hmax. unfold direct_deploy, generate_id. rewrite u64_wrap_small by (unfold is_u64, u64_max in *; lia).
  intros Hr. injection Hr as <- <-. unfold direct_inv. cbn [deployments set_deployments next_id dh_id dh_provider dh_lifecycle_policy db_config].
  split_and!; try done; [lia|..].
  - apply map_Forall_insert_2; [exists (next_id b + 1); split; [lia|done]|]. intros id s Hs.
    destruct (Hd id s Hs) as (n & Hr & ->). exists n. split; [lia|done].
  - apply eq_None_not_Some. intros [s Hs]. destruct (Hd _ _ Hs) as (n & Hr & Heq%direct_id_inj). lia.
Qed.

(** The registry as it comes from the environment: a direct backend is registered
    for the provider of its configuration. *)
Definition registry_ok (r : BackendRegistry) : Prop :=
  map_Forall (λ p b, match b with DirectB b => dc_provider (db_config b) = p ∧ direct_inv b | CloudB _ => True end) r.

Lemma from_env_ok var secret m r : from_env var secret m = Ok r → registry_ok r.
Proof.
  unfold from_env. destruct var as [backends|]; [|intros [= <-]; apply map_Forall_empty].
  assert (registry_ok ∅) as H0 by apply map_Forall_empty. revert H0. generalize (∅ : BackendRegistry) as r0.
  induction (trim <$> split_char ","%char backends) as [|name names IH]; intros r0 Hr0; cbn; [by intros [= <-]|].
  destruct (register_named secret m r0 name) as [r1|e] eqn:Hn; [|done]. cbn. apply IH.
  assert (∀ p c r', register_cloud p c r0 = Ok r' → registry_ok r') as Hcloud.
  { intros p c r'. unfold register_cloud. destruct (cloud_compiled p); [|done]. destruct (cloud_from_env p) as [b|e]; [|done].
    cbn. intros [= <-]. by apply map_Forall_insert_2. }
  unfold register_named in Hn. repeat case_match; try (injection Hn as <-); try done; try (by eapply Hcloud);
    (apply map_Forall_insert_2; [split; [done|apply direct_new_inv]|done]).
Qed.

(** What is deployed through the registry is found through it: a deployment on a
    direct backend gets an identifier that no other deployment of the backend has,
    runs, and has a handle that the registry leads back to it; stopping it and
    destroying it change nothing but it; and once it is destroyed, every call for
    it fails. *)
Theorem registry_deployment_lifecycle r p b req h r1 :
  registry_ok r → r !! p = Some (DirectB b) → next_id b < u64_max →
  registry_deploy p req r = (Ok h, r1) →
  dh_provider h = p ∧ deployments b !! dh_id h = None ∧ registry_status h r1 = Ok Running ∧ registry_ok r1 ∧
  (∀ h', dh_provider h' = p → dh_id h' ≠ dh_id h → registry_status h' r1 = registry_status h' r) ∧
  ∃ r2 r3, registry_stop h r1 = (Ok tt, r2) ∧ registry_status h r2 = Ok Stopped ∧
    registry_destroy h r2 = (Ok tt, r3) ∧ registry_status h r3 = not_found h ∧ (registry_stop h r3).1 = not_found h ∧
    registry_cached_attestation h r3 = not_found h ∧ registry_derive_public_key h r3 = not_found h ∧
    (∀ h', dh_provider h' = p → dh_id h' ≠ dh_id h → registry_status h' r3 = registry_status h' r).
Proof.
  intros Hok Hb Hmax. unfold registry_deploy, dispatch, get_backend. rewrite Hb. cbn [ok_or].
  destruct (direct_deploy req b) as [res b1] eqn:Hd. intros [= -> <-].
  destruct (Hok _ _ Hb) as [Hp Hinv]. pose proof (direct_deploy_inv _ _ _ _ Hinv Hmax Hd) as (Hinv1 & Hfresh & Hph & Hlc & Hm & Hc).
  rewrite Hp in Hph.
  assert (∀ b' h', dh_provider h' = p → registry_status h' (<[p := DirectB b']> r) = direct_status h' b') as Hst.
  { intros b' h' Hh'. unfold registry_status, dispatch_read, get_backend. by rewrite Hh', lookup_insert_eq. }
  assert (∀ h', dh_provider h' = p → registry_status h' r = direct_status h' b) as Hst0.
  { intros h' Hh'. unfold registry_status, dispatch_read, get_backend. by rewrite Hh', Hb. }
  split_and!; [done|done| | | |].
  - rewrite Hst by done. unfold direct_status. by rewrite Hm, lookup_insert_eq.
  - apply map_Forall_insert_2; [|done]. by rewrite Hc.
  - intros h' Hh' Hne. rewrite Hst, Hst0 by done. unfold direct_status. by rewrite Hm, lookup_insert_ne.
  - set (b2 := set_deployments b1 (<[dh_id h := mkDeployment (dq_image req) Stopped None]> (deployments b1))).
    set (b3 := set_deployments b2 (delete (dh_id h) (deployments b2))).
    assert (deployments b3 !! dh_id h = None) as Hgone by (cbn; by rewrite lookup_delete_eq).
    exists (<[p := DirectB b2]> r), (<[p := DirectB b3]> r).
    unfold registry_stop, registry_destroy, registry_cached_attestation, registry_derive_public_key, dispatch, dispatch_read, get_backend.
    rewrite Hph, !lookup_insert_eq. cbn [ok_or mbind result_bind].
    split_and!.
    + unfold direct_stop. rewrite Hm, lookup_insert_eq. cbn [ds_image ds_cached_attestation]. rewrite insert_insert_eq, <-Hm. done.
    + rewrite Hst by done. unfold direct_status. cbn. by rewrite lookup_insert_eq.
    + cbn [direct_destroy]. by rewrite insert_insert_eq.
    + rewrite Hst by done. unfold direct_status. by rewrite Hgone.
    + unfold direct_stop. by rewrite Hgone.
    + unfold direct_cached_attestation. by rewrite Hgone.
    + unfold direct_derive_public_key. by rewrite Hgone.
    + intros h' Hh' Hne. rewrite Hst, Hst0 by done. unfold direct_status. cbn.
      by rewrite lookup_delete_ne, lookup_insert_ne, Hm, lookup_insert_ne.
Qed.

End registry.

(** ** Detection of the hardware ([detect.rs]) *)

(** What the probes find: whether a path is a character device (for the first one,
    one that can be opened), whether it exists, whether a variable is set, and the
    text of a file *)
Record HostProbes := mkProbes {
  nsm_device : bool;
  hp_char_device : string → bool;
  hp_exists : string → bool;
  hp_env : string → bool;
  board_vendor : option string;
}.

(** [azure_cvm_detected], [detect_tee_provider] *)
Definition azure_cvm_detected (h : HostProbes) : bool :=
  match board_vendor h with
  | Some v => contains "Microsoft" (trim v) && (hp_exists h "/sys/kernel/mm/sev" || hp_char_device h "/dev/sev-guest")
  | None => false
  end.
Definition detect_tee_provider (h : HostProbes) : option TeeProvider :=
  if nsm_device h then Some AwsNitro
  else if hp_char_device h "/dev/tdx-guest" then Some IntelTdx
  else if hp_char_device h "/dev/tdx_guest" then Some IntelTdx
  else if hp_exists h "/sys/firmware/acpi/tables/TDEL" || hp_exists h "/sys/firmware/acpi/tables/CCEL" then Some IntelTdx
  else if hp_char_device h "/dev/sev-guest" then Some AmdSevSnp
  else if hp_exists h "/run/container_launcher/attestation_verifier_claims_token" then Some GcpConfidential
  else if hp_env h "CONFIDENTIAL_SPACE_VERSION" then Some GcpConfidential
  else if azure_cvm_detected h then Some AzureSnp
  else None.

(** ** The layer ([tee_layer.rs], [tee_context.rs]) *)

Record TeeContext := mkTeeContext {
  tc_attestation : option VerifiedAttestation;
  tc_provider : option TeeProvider;
  tc_deployment_id : option string;
}.
(** [TeeContext::none], [with_attestation], [with_deployment_id], [is_attested],
    [is_tee_active] *)
Definition context_none : TeeContext := mkTeeContext None None None.
Definition context_with_attestation (a : VerifiedAttestation) : TeeContext := mkTeeContext (Some a) (Some (verified_by a)) None.
Definition context_with_deployment (c : TeeContext) (id : string) : TeeContext := mkTeeContext (tc_attestation c) (tc_provider c) (Some id).
Definition is_attested (c : TeeContext) : bool := bool_decide (is_Some (tc_attestation c)).
Definition is_tee_active (c : TeeContext) : bool := bool_decide (is_Some (tc_provider c)).

Definition TEE_ATTESTATION_DIGEST_KEY : string := "tee.attestation.digest".
Definition TEE_PROVIDER_KEY : string := "tee.provider".
Definition TEE_MEASUREMENT_KEY : string := "tee.measurement".

(** [TeeLayer::new], [with_attestation], [set_attestation] *)
Definition tee_layer_new : option AttestationReport := None.
Definition tee_layer_with (r : AttestationReport) : option AttestationReport := Some r.
Definition set_attestation (layer : option AttestationReport) (r : AttestationReport) : option AttestationReport := Some r.

Section layer.
  Context `{H : Sha256} {E F : Type}.

(** [TeeService::call] and its future: the report is the one of the layer at the
    time of the call, or none while the lock is held *)
Definition attestation_metadata (r : AttestationReport) (m : MetadataMap) : MetadataMap :=
  let text s := mv_from_bytes (str_bytes s) in
  <[TEE_MEASUREMENT_KEY := text (measurement_display (measurement r))]>
    (<[TEE_PROVIDER_KEY := text (provider_display (ar_provider r))]>
       (<[TEE_ATTESTATION_DIGEST_KEY := text (evidence_digest r)]> m)).
Definition tee_service_call (layer : option AttestationReport) (locked : bool) (inner : result F (option (JobResult E)))
    : result F (option (JobResult E)) :=
  match inner with
  | Err e => Err e
  | Ok None => Ok None
  | Ok (Some (JobErr e)) => Ok (Some (JobErr e))
  | Ok (Some (JobOk m b)) =>
      match layer with
      | Some r => if locked then Ok (Some (JobOk m b)) else Ok (Some (JobOk (attestation_metadata r m) b))
      | None => Ok (Some (JobOk m b))
      end
  end.

(** The layer touches nothing but its three entries, of results only. *)
Lemma layer_transparent layer locked inner :
  match inner, tee_service_call layer locked inner with
  | Ok (Some (JobOk m b)), Ok (Some (JobOk m' b')) =>
      b' = b ∧ ∀ k, k ≠ TEE_ATTESTATION_DIGEST_KEY → k ≠ TEE_PROVIDER_KEY → k ≠ TEE_MEASUREMENT_KEY → m' !! k = m !! k
  | inner, outer => outer = inner
  end.
Proof.
  destruct inner as [[[m b|e]|]|e]; cbn; try done. destruct layer as [r|], locked; cbn; try done.
  split; [done|]. intros k H1 H2 H3. unfold attestation_metadata. by rewrite !lookup_insert_ne.
Qed.

End layer.

(** ** The runner at start *)

(** [TEE_MODE], in lower case *)
Definition env_tee_mode (var : option string) : option TeeMode :=
  v ← var;
  if bool_decide (v = "auto") then Some ModeAuto
  else if bool_decide (v = "required") then Some ModeDirect
  else if bool_decide (v = "disabled") then Some ModeDisabled
  else None.

(** What the runner does: the configuration it starts the key exchange with, and
    the layer it puts around the routes *)
Record TeeStart := mkTeeStart { ts_config : option TeeConfig; ts_layer : option (option AttestationReport) }.

(** [BlueprintBuilder::tee] is given the explicit configuration; the part of [run]
    that decides.  The variable is in lower case. *)
Definition tee_start (explicit : option TeeConfig) (var : option string) (detected : option TeeProvider) : result string TeeStart :=
  let enabled c := if is_enabled c then Some c else None in
  let configured := explicit ≫= enabled in
  let env_mode := env_tee_mode var in
  let explicitly := bool_decide (is_Some explicit) in
  let should_auto_detect := match env_mode with Some ModeDisabled => false | _ => negb explicitly end in
  if should_auto_detect then
    match detected with
    | Some provider =>
        match tee_build (foldl tee_set tee_builder [SetMode ModeDirect; SetSelector (AllowList [provider])]) with
        | Ok c => Ok (mkTeeStart (enabled c) (Some tee_layer_new))
        | Err _ => Err "auto-detected TEE config must be valid"
        end
    | None =>
        match env_mode with
        | Some ModeDirect => Err "TEE_MODE=required but no TEE hardware detected"
        | _ => Ok (mkTeeStart None None)
        end
    end
  else Ok (mkTeeStart configured None).

(** Detected hardware is used with sealed secrets and for its provider only. *)
Lemma detected_start var p :
  env_tee_mode var ≠ Some ModeDisabled →
  ∃ c, tee_start None var (Some p) = Ok (mkTeeStart (Some c) (Some tee_layer_new)) ∧
    mode c = ModeDirect ∧ secret_injection c = SealedOnly ∧ ∀ q, accepts (provider_selector c) q = bool_decide (q = p).
Proof.
  intros Hv. unfold tee_start. rewrite (bool_decide_false (is_Some None)) by (by intros []). cbn [negb].
  destruct (env_tee_mode var) as [[]|]; try done; cbn; (eexists; split; [done|]; split_and!; [done..|]); intros q; cbn;
    apply bool_decide_ext; rewrite list_elem_of_singleton; done.
Qed.

(** The layer that the runner makes is never given an attestation: it adds nothing. *)
Lemma runner_layer_adds_nothing `{H : Sha256} {E F} locked (inner : result F (option (JobResult E))) :
  tee_service_call tee_layer_new locked inner = inner.
Proof. by destruct inner as [[[]|]|]. Qed.

(** With a configuration of its own the runner does not look at [TEE_MODE]. *)
Lemma required_mode_ignored c detected :
  mode c = ModeDisabled → tee_start (Some c) (Some "required"%string) detected = Ok (mkTeeStart None None).
Proof. intros Hm. unfold tee_start, is_enabled. cbn. by rewrite Hm. Qed.

(** ** A run *)

#[local] Instance demo_sha : Sha256 := {| sha256_digest m := take 32 (m ++ replicate 32 0) |}.
#[local] Instance demo_clouds : CloudBackends := {|
  CloudBackend := unit;
  cloud_compiled _ := false;
  cloud_from_env _ := Ok tt;
  cloud_deploy _ _ := (Err (DeploymentFailed "cloud"), tt);
  cloud_get_attestation _ _ := (Err (BackendError "cloud"), tt);
  cloud_cached_attestation _ _ := Ok None;
  cloud_derive_public_key _ _ := Err (BackendError "cloud");
  cloud_status _ _ := Ok Failed;
  cloud_stop _ _ := (Ok tt, tt);
  cloud_destroy _ _ := (Ok tt, tt);
|}.
Definition demo_direct : DirectBackend := direct_tdx [1; 2] (Some "ABCD"%string).
Definition demo_registry : gmap TeeProvider DynBackend := {[ IntelTdx := DirectB demo_direct ]}.
Definition demo_deploy : TeeDeployRequest := with_extra_ports (deploy_request_new "image") [80].

Lemma demo_registry_from_env : from_env (Some " direct "%string) [1; 2] (Some "ABCD"%string) = Ok demo_registry.
Proof. reflexivity. Qed.

Definition demo_handle : TeeDeploymentHandle :=
  match (registry_deploy IntelTdx demo_deploy demo_registry).1 with Ok h => h | Err _ => mkHandle "" AwsNitro ∅ None ∅ Container end.

Lemma registry_deployment_lifecycle_witness :
  ∃ r2, registry_stop demo_handle (registry_deploy IntelTdx demo_deploy demo_registry).2 = (Ok tt, r2) ∧
    registry_status demo_handle r2 = Ok Stopped.
Proof.
  destruct (registry_deployment_lifecycle demo_registry IntelTdx demo_direct demo_deploy demo_handle
    (registry_deploy IntelTdx demo_deploy demo_registry).2) as (_ & _ & _ & _ & _ & r2 & r3 & Hs & Hst & _).
  - exact (from_env_ok _ _ _ _ demo_registry_from_env).
  - reflexivity.
  - by vm_compute.
  - reflexivity.
  - exists r2. split; [exact Hs|exact Hst].
Defined.

(** A second attestation replaces the cached one of the first. *)
Lemma cached_attestation_replaced :
  let b := (direct_deploy demo_deploy demo_direct).2 in
  let h := demo_handle in
  let b1 := (direct_get_attestation 100 h b).2 in
  let b2 := (direct_get_attestation 200 h b1).2 in
  direct_cached_attestation h b1 = Ok (Some (direct_report 100 b)) ∧
  direct_cached_attestation h b2 = Ok (Some (direct_report 200 b)).
Proof. split; reflexivity. Qed.
