(* ===== verification/TeeExamples.v ===== *)
(** * Attestations at work

    Small libraries for tokens and documents, to which the theorems on verifiers
    are applied, and cases where the verifiers and the configuration do less than
    their comments say. *)

From Stdlib Require Import ZArith Lia Ascii.
From stdpp Require Import base gmap sets list sorting strings pretty fin_maps numbers relations.
From S2P Require Import Prelude Bytes Text Hex TeeTypes TeeAttest TeeNitro.

#[local] Open Scope Z_scope.

(** ** Tokens *)

(** Two tokens: one with an audience and one without *)
Definition token_claims (with_audience : bool) : JsonValue :=
  VObject ([("iss", VString "https://confidentialcomputing.googleapis.com"); ("iat", VNumber 1000);
            ("nonce", VString "n1"); ("dbgstat", VString "disabled-since-boot")]
           ++ (if with_audience then [("aud", VString "me")] else [])).
Definition claims_of (token : string) : JsonValue := token_claims (bool_decide (token = "audience")).

(** The check of a claim that is there *)
Definition claim_among_b (l : option (list string)) (v : option JsonValue) : bool :=
  match l, v with
  | Some l, Some (VString s) => bool_decide (s ∈ l)
  | Some l, Some (VArray _) => false
  | _, _ => true
  end.
Lemma claim_among_sound l v : claim_among_b l v = true → claim_among l v.
Proof. unfold claim_among_b, claim_among. destruct l, v as [[]|]; try done. by intros ?%bool_decide_eq_true_1. Qed.

#[local] Instance toy_jwt : JwtLib := {|
  JwkSet := unit;
  Jwk := unit;
  DecodingKey := unit;
  decode_header _ := Ok (RS256, Some "key-1"%string);
  jwks_get _ := Ok (mkHttp 200 (Some 2) [Ok [1]; Ok [2]]);
  jwks_parse b := if bool_decide (b = [1; 2]) then Ok tt else Err "keys"%string;
  jwks_find _ kid := if bool_decide (kid = "key-1") then Some tt else None;
  key_from_jwk _ := Ok tt;
  jwt_decode token _ v :=
    let payload := claims_of token in
    if negb (claim_among_b (v_iss v) (json_get payload "iss")) then Err InvalidIssuer
    else if negb (claim_among_b (v_aud v) (json_get payload "aud")) then Err InvalidAudience
    else Ok payload;
|}.
#[local] Instance toy_jwt_laws : JwtLaws toy_jwt.
Proof.
  refine {| jwt_signed := λ _ _ token payload, payload = claims_of token |}.
  intros token key v payload. cbn [jwt_decode toy_jwt].
  destruct (claim_among_b (v_iss v) _) eqn:Hi; [|done]. destruct (claim_among_b (v_aud v) _) eqn:Ha; [|done]. cbn [negb].
  intros [= <-]. split_and!; [done|by apply claim_among_sound..].
Defined.

Definition demo_token_policy : AttestationPolicy := with_audience "me" (with_nonce "n1" production).

Lemma token_attestation_trusted_witness :
  ∃ va, gcp_verify_token 1300 gcp_verifier_new "audience" demo_token_policy = Ok va ∧
    policy_met 1300 (claims_of "audience") demo_token_policy.
Proof.
  destruct (verify_token 1300 GcpConfidential GcpConfidentialToken gcp_verifier_new "audience" demo_token_policy)
    as [va|e] eqn:Hv; [|vm_compute in Hv; discriminate Hv].
  exists va. split; [exact Hv|].
  destruct (token_attestation_trusted 1300 GcpConfidential GcpConfidentialToken gcp_verifier_new "audience" demo_token_policy va Hv)
    as (alg & kid & set & jwk & key & payload & _ & _ & _ & _ & _ & Hsig & _ & _ & Hp & _).
  cbn in Hsig. rewrite Hsig in Hp. exact Hp.
Defined.

(** A token without an audience passes a policy that pins one. *)
Lemma pinned_audience_not_required :
  ∃ va, gcp_verify_token 1300 gcp_verifier_new "none" demo_token_policy = Ok va ∧
    expected_audience demo_token_policy = Some "me"%string ∧ json_get (claims_of "none") "aud" = None.
Proof. eexists. split; [vm_compute; reflexivity|]. split; reflexivity. Qed.

(** ** Documents *)

Inductive ToyCert := LeafCert | RootCert.
Definition demo_document : Cbor :=
  CbMap [(CbText "pcrs", CbMap [(CbInteger 0, CbBytes [171; 205])]); (CbText "certificate", CbBytes [1]);
         (CbText "cabundle", CbArray []); (CbText "timestamp", CbInteger 1000000); (CbText "nonce", CbBytes (str_bytes "n1"))].

(** A signed message is its payload; the root issues the leaf. *)
#[local] Instance toy_nitro : NitroLib := {|
  CoseSign1 := list Byte8;
  Certificate := ToyCert;
  P384Key := ToyCert;
  cose_from_tagged_slice b := Some b;
  cose_from_slice b := Ok b;
  cose_payload b := Some b;
  cbor_from_reader _ := Ok demo_document;
  parse_x509_pem s := if bool_decide (s = "root") then Ok [2] else Err "pem"%string;
  certificate_from_der d :=
    if bool_decide (d = [1]) then Ok LeafCert else if bool_decide (d = [2]) then Ok RootCert else Err "der"%string;
  asn1_from_timestamp := Ok;
  cert_is_valid_at _ _ := true;
  cert_issuer _ := "aws"%string;
  cert_subject c := match c with LeafCert => "enclave"%string | RootCert => "aws"%string end;
  cert_basic_constraints c := match c with LeafCert => Ok None | RootCert => Ok (Some (true, Some 0)) end;
  cert_key_usage _ := Ok (Some true);
  cert_verify_signature _ _ := Ok tt;
  cert_p384_key := Ok;
  cose_verify_signature _ k := match k with LeafCert => Ok tt | RootCert => Err "key"%string end;
  utf8_lossy := string_of_bytes;
|}.
Definition demo_nitro : NitroVerifier := mkNitroVerifier (Some "ABCD"%string) None false "root".

Lemma nitro_document_trusted_witness :
  ∃ va doc chain, verify_document 1300 1301 demo_nitro [7] (with_nonce "n1" production) = Ok va ∧
    digest (measurement (va_report va)) = "abcd"%string ∧ chain_trusted 1300 chain ∧
    document_policy_met 1301 doc (nitro_policy demo_nitro (with_nonce "n1" production)).
Proof.
  destruct (verify_document 1300 1301 demo_nitro [7] (with_nonce "n1" production)) as [va|e] eqn:Hv;
    [|vm_compute in Hv; discriminate Hv].
  destruct (nitro_document_trusted 1300 1301 demo_nitro [7] (with_nonce "n1" production) va Hv)
    as (sign1 & payload & doc & leaf & key & root & chain & t & _ & _ & Hd & _ & _ & _ & _ & _ & Ht & Hc & Hp & ->).
  injection Ht as <-. eexists _, doc, chain. split; [reflexivity|]. split; [|split; [exact Hc|exact Hp]].
  assert (from_option hex_encode "" (pcrs doc !! 0) = "abcd"%string) as Hpcr.
  { assert (from_option (λ d, from_option hex_encode "" (pcrs d !! 0)) ""%string
      (result_ok (decode_nitro_document payload)) = "abcd"%string) as Hall by (vm_compute; reflexivity).
    by rewrite Hd in Hall. }
  cbn [va_report nitro_report measurement]. rewrite Hpcr. reflexivity.
Defined.

(** The verifier that calls itself cryptographic accepts a report without evidence. *)
Definition forged_report : AttestationReport := mkReport AwsNitro NitroDocument 0 (measurement_sha384 "ABCD") None claims_new [].
Lemma forged_report_accepted :
  nitro_verification_level = Cryptographic ∧
  nitro_verify 1300 1300 (mkNitroVerifier (Some "abcd"%string) None false "root") forged_report = Ok (mkVerified forged_report AwsNitro).
Proof. split; reflexivity. Qed.

(** A measurement that is pinned in upper case matches no report. *)
Lemma uppercase_measurement_refused :
  native_verify (native_with_measurement native_tdx "ABCD")
    (mkReport IntelTdx TdxQuote 0 (measurement_sha384 "ABCD") None claims_new [])
  = Err (MeasurementMismatch "ABCD" "abcd").
Proof. reflexivity. Qed.

(** ** Configuration *)

(** The default mode counts as enabled and takes secrets from the environment. *)
Lemma auto_mode_unsealed :
  match tee_build tee_builder with
  | Ok c => is_enabled c = true ∧ lifecycle_policy c = CloudManaged ∧ secret_injection c = EnvOrSealed
  | Err _ => False
  end.
Proof. split_and!; reflexivity. Qed.
