(* ===== verification/Webhooks.v ===== *)
(** * The webhook gateway ([webhooks/src/{config,auth,gateway,producer}.rs])

    Requests from outside that start jobs: the configuration of the endpoints, the
    three ways to authenticate a request, and the events that become job calls.
    The message authentication code is a parameter, and so are the environment
    variables that hold secrets. *)

From Stdlib Require Import ZArith Lia Ascii.
From stdpp Require Import base gmap sets list sorting strings pretty fin_maps numbers relations.
From S2P Require Import Prelude Bytes Text JobCore Hex Http.

#[local] Open Scope Z_scope.

Inductive WebhookError :=
| WebhookConfigError (e : string) | AuthFailed (e : string) | WebhookServer (e : string) | ProducerChannelClosed
| WebhookIo | WebhookToml | DeliveryFailed (e : string).

(** ** Configuration *)

Record WebhookEndpoint := mkEndpoint {
  ep_path : string;
  ep_job_id : Z;
  ep_auth : string;
  ep_secret : option string;
  ep_api_key_header : option string;
  ep_name : option string;
}.
Record WebhookConfig := mkWebhook { wc_bind_address : string; endpoints : list WebhookEndpoint; wc_service_id : Z }.

(** [WebhookEndpoint::resolve_secret], [display_name] *)
Definition resolve_secret (env : string → option string) (ep : WebhookEndpoint) : option string :=
  s ← ep_secret ep;
  match strip_prefix "env:" s with Some var => env var | None => Some s end.
Definition display_name (ep : WebhookEndpoint) : string := default (ep_path ep) (ep_name ep).

(** [WebhookConfig::validate] *)
Definition validate_endpoint (ep : WebhookEndpoint) : result WebhookError unit :=
  if negb (String.prefix "/" (ep_path ep))
  then Err (WebhookConfigError ("endpoint path must start with '/': " +:+ ep_path ep))
  else if bool_decide (ep_auth ep = "none") then Ok tt
  else if bool_decide (ep_auth ep ∈ ["bearer"; "hmac-sha256"; "api-key"]) then
    match ep_secret ep with
    | Some _ => Ok tt
    | None => Err (WebhookConfigError ("endpoint " +:+ ep_path ep +:+ " with auth=" +:+ ep_auth ep +:+ " requires a secret"))
    end
  else Err (WebhookConfigError ("endpoint " +:+ ep_path ep +:+ ": unknown auth method '" +:+ ep_auth ep
              +:+ "' (expected: none, bearer, hmac-sha256, api-key)")).
Definition webhook_validate (c : WebhookConfig) : result WebhookError unit :=
  if bool_decide (endpoints c = []) then Err (WebhookConfigError "at least one webhook endpoint must be configured")
  else try_fold (λ _, validate_endpoint) tt (endpoints c).

(** ** Authentication *)

Class HmacLib := { hmac_sha256 : list Byte8 → list Byte8 → list Byte8 }.
Class HmacLaws (L : HmacLib) := { hmac_bytes k m : Forall is_byte (hmac_sha256 k m) }.

(** [HeaderMap::get] with a name of any case, which is a [HeaderName] in lower case *)
Definition header_text (h : HeaderMap) (name : string) : option string :=
  header_get h (to_ascii_lowercase name) ≫= header_to_str.

Section gateway.
  Context `{L : HmacLib} (env : string → option string).

(** [verify_bearer] *)
Definition verify_bearer (ep : WebhookEndpoint) (h : HeaderMap) : result WebhookError unit :=
  expected ← ok_or (resolve_secret env ep) (AuthFailed "bearer secret not configured");
  header ← ok_or (header_text h "authorization") (AuthFailed "missing Authorization header");
  token ← ok_or (strip_prefix "Bearer " header) (AuthFailed "Authorization must be 'Bearer <token>'");
  if bool_decide (str_bytes token = str_bytes expected) then Ok tt else Err (AuthFailed "invalid bearer token").

(** [verify_hmac] *)
Definition signature_headers : list string := ["x-signature-256"; "x-hub-signature-256"; "x-webhook-signature"].
Definition find_header (h : HeaderMap) (names : list string) : option string := list.head (omap (header_text h) names).
Definition verify_hmac (ep : WebhookEndpoint) (h : HeaderMap) (body : list Byte8) : result WebhookError unit :=
  secret ← ok_or (resolve_secret env ep) (AuthFailed "HMAC secret not configured");
  sig_header ← ok_or (find_header h signature_headers)
    (AuthFailed "missing signature header (X-Signature-256, X-Hub-Signature-256, or X-Webhook-Signature)");
  let sig_hex := default sig_header (strip_prefix "sha256=" sig_header) in
  sig_bytes ← ok_or (decode_hex sig_hex) (AuthFailed "signature is not valid hex");
  if bool_decide (hmac_sha256 (str_bytes secret) body = sig_bytes) then Ok tt else Err (AuthFailed "HMAC signature mismatch").

(** [verify_api_key] *)
Definition verify_api_key (ep : WebhookEndpoint) (h : HeaderMap) : result WebhookError unit :=
  expected ← ok_or (resolve_secret env ep) (AuthFailed "API key not configured");
  let header_name := default "x-api-key" (ep_api_key_header ep) in
  provided ← ok_or (header_text h header_name) (AuthFailed ("missing " +:+ header_name +:+ " header"));
  if bool_decide (str_bytes provided = str_bytes expected) then Ok tt else Err (AuthFailed "invalid API key").

(** [verify] *)
Definition webhook_verify (ep : WebhookEndpoint) (h : HeaderMap) (body : list Byte8) : result WebhookError unit :=
  if bool_decide (ep_auth ep = "none") then Ok tt
  else if bool_decide (ep_auth ep = "bearer") then verify_bearer ep h
  else if bool_decide (ep_auth ep = "hmac-sha256") then verify_hmac ep h body
  else if bool_decide (ep_auth ep = "api-key") then verify_api_key ep h
  else Err (AuthFailed ("unknown auth method: " +:+ ep_auth ep)).

(** ** Events *)

Record WebhookEvent := mkWebhookEvent {
  we_service_id : Z;
  we_job_id : Z;
  we_body : list Byte8;
  we_path : string;
  we_name : option string;
  we_call_id : Z;
}.

Definition WEBHOOK_ORIGIN_KEY : string := "X-WEBHOOK-ORIGIN".
Definition WEBHOOK_PATH_KEY : string := "X-WEBHOOK-PATH".
Definition WEBHOOK_NAME_KEY : string := "X-WEBHOOK-NAME".
Definition WEBHOOK_SERVICE_ID_KEY : string := "X-TANGLE-SERVICE-ID".
Definition WEBHOOK_CALL_ID_KEY : string := "X-TANGLE-CALL-ID".

(** [WebhookEvent::into_job_call] *)
Definition into_job_call {Ext} (ext_new : Ext) (e : WebhookEvent) : JobCall Ext :=
  let text s := mv_from_bytes (str_bytes s) in
  let m : MetadataMap := <[WEBHOOK_PATH_KEY := text (we_path e)]> {[ WEBHOOK_ORIGIN_KEY := text "webhook"%string ]} in
  let m := match we_name e with Some n => <[WEBHOOK_NAME_KEY := text n]> m | None => m end in
  let m := <[WEBHOOK_CALL_ID_KEY := mv_from_u64 (we_call_id e)]> (<[WEBHOOK_SERVICE_ID_KEY := mv_from_u64 (we_service_id e)]> m) in
  job_call_from_parts (with_metadata m (parts_new (ext_new := ext_new) (JobId_from_number (we_job_id e)))) (we_body e).

(** ** The gateway *)

(** The shared state: the configuration, the counter, whether the producer still
    listens, and the events sent to it *)
Record WebhookGateway := mkWebhookGateway {
  wg_config : WebhookConfig;
  call_id_counter : Z;
  producer_open : bool;
  wg_events : list WebhookEvent;
}.

(** [WebhookGateway::new] with the state of [build_router] *)
Definition webhook_gateway_new (c : WebhookConfig) : result WebhookError WebhookGateway :=
  if bool_decide (endpoints c = []) then Err (WebhookConfigError "at least one webhook endpoint must be configured")
  else Ok (mkWebhookGateway c 1 true []).

(** The routes of [build_router]: registering the same path twice panics *)
Fixpoint add_routes (routes : gmap string nat) (i : nat) (eps : list WebhookEndpoint) : option (gmap string nat) :=
  match eps with
  | [] => Some routes
  | ep :: eps => match routes !! ep_path ep with Some _ => None | None => add_routes (<[ep_path ep := i]> routes) (S i) eps end
  end.
Definition webhook_routes (c : WebhookConfig) : option (gmap string nat) := add_routes ∅ 0 (endpoints c).

Record WebhookReply := mkWebhookReply { wr_status : Z; wr_error : option string; wr_call_id : option Z }.
Definition webhook_error (status : Z) (e : string) : WebhookReply := mkWebhookReply status (Some e) None.

(** [handle_webhook] *)
Definition handle_webhook (index : nat) (h : HeaderMap) (body : list Byte8) (g : WebhookGateway) : WebhookReply * WebhookGateway :=
  match endpoints (wg_config g) !! index with
  | None => (webhook_error 500 "endpoint configuration missing", g)
  | Some ep =>
      match webhook_verify ep h body with
      | Err _ => (webhook_error 401 "unauthorized", g)
      | Ok _ =>
          let call_id := call_id_counter g in
          let event := mkWebhookEvent (wc_service_id (wg_config g)) (ep_job_id ep) body (ep_path ep) (ep_name ep) call_id in
          let g := mkWebhookGateway (wg_config g) (u64_wrap (call_id + 1)) (producer_open g) (wg_events g) in
          if producer_open g
          then (mkWebhookReply 202 None (Some call_id),
                mkWebhookGateway (wg_config g) (call_id_counter g) true (wg_events g ++ [event]))
          else (webhook_error 503 "service shutting down", g)
      end
  end.

(** A request, and what a sequence of them does *)
Record WebhookRequest := mkWebhookRequest { rq_index : nat; rq_headers : HeaderMap; rq_body : list Byte8 }.
Fixpoint run_webhooks (rs : list WebhookRequest) (g : WebhookGateway) : list WebhookReply * WebhookGateway :=
  match rs with
  | [] => ([], g)
  | r :: rs =>
      let '(a, g) := handle_webhook (rq_index r) (rq_headers r) (rq_body r) g in
      let '(l, g) := run_webhooks rs g in (a :: l, g)
  end.

(** ** Theorems *)

(** What a request must show, for each method *)
Definition authentic (ep : WebhookEndpoint) (h : HeaderMap) (body : list Byte8) : Prop :=
  ep_auth ep = "none" ∨
  ∃ secret, resolve_secret env ep = Some secret ∧
    ((ep_auth ep = "bearer" ∧ header_text h "authorization" = Some ("Bearer " +:+ secret)) ∨
     (ep_auth ep = "api-key" ∧ header_text h (default "x-api-key"%string (ep_api_key_header ep)) = Some secret) ∨
     (ep_auth ep = "hmac-sha256" ∧ ∃ text, find_header h signature_headers = Some text ∧
        decode_hex (default text (strip_prefix "sha256=" text)) = Some (hmac_sha256 (str_bytes secret) body))).

Lemma verify_bearer_ok ep h :
  verify_bearer ep h = Ok tt ↔ ∃ secret, resolve_secret env ep = Some secret ∧ header_text h "authorization" = Some ("Bearer " +:+ secret).
Proof.
  unfold verify_bearer. destruct (resolve_secret env ep) as [secret|]; [|split; [done|by intros (? & ? & _)]].
  cbn [ok_or mbind result_bind]. destruct (header_text h "authorization") as [t|]; [|split; [done|by intros (? & _ & ?)]].
  cbn [ok_or mbind result_bind]. destruct (strip_prefix "Bearer " t) as [token|] eqn:Hs; cbn [ok_or mbind result_bind].
  - apply strip_prefix_some in Hs as ->. case_bool_decide as Hb.
    + apply str_bytes_inj in Hb as ->. split; [intros _; by exists secret|done].
    + split; [done|]. intros (s & [= <-] & Heq). apply (inj Some), (inj (String.append "Bearer ")) in Heq. by subst.
  - split; [done|]. intros (s & [= <-] & [= ->]). assert (strip_prefix "Bearer " ("Bearer " +:+ secret) = Some secret) as Hs'
      by (by apply strip_prefix_some). congruence.
Qed.

Lemma verify_api_key_ok ep h :
  verify_api_key ep h = Ok tt ↔
  ∃ secret, resolve_secret env ep = Some secret ∧ header_text h (default "x-api-key"%string (ep_api_key_header ep)) = Some secret.
Proof.
  unfold verify_api_key. destruct (resolve_secret env ep) as [secret|]; [|split; [done|by intros (? & ? & _)]].
  cbn [ok_or mbind result_bind]. destruct (header_text h _) as [t|]; [|split; [done|by intros (? & _ & ?)]].
  cbn [ok_or mbind result_bind]. case_bool_decide as Hb.
  - apply str_bytes_inj in Hb as ->. split; [intros _; by exists secret|done].
  - split; [done|]. by intros (s & [= <-] & [= ->]).
Qed.

Lemma verify_hmac_ok ep h body :
  verify_hmac ep h body = Ok tt ↔
  ∃ secret text, resolve_secret env ep = Some secret ∧ find_header h signature_headers = Some text ∧
    decode_hex (default text (strip_prefix "sha256=" text)) = Some (hmac_sha256 (str_bytes secret) body).
Proof.
  unfold verify_hmac. destruct (resolve_secret env ep) as [secret|]; [|split; [done|by intros (? & ? & ? & _)]].
  cbn [ok_or mbind result_bind]. destruct (find_header h signature_headers) as [t|]; [|split; [done|by intros (? & ? & _ & ? & _)]].
  cbn [ok_or mbind result_bind]. destruct (decode_hex _) as [sig|] eqn:Hd; cbn [ok_or mbind result_bind].
  - case_bool_decide as Hb; (split; [|intros (s & t' & [= <-] & [= <-] & Heq); congruence]).
    + intros _. exists secret, t. split_and!; [done..|]. by rewrite Hd, Hb.
    + done.
  - split; [done|]. intros (s & t' & [= <-] & [= <-] & Heq). congruence.
Qed.

(** The checks are exactly the methods. *)
Lemma webhook_verify_ok ep h body : webhook_verify ep h body = Ok tt ↔ authentic ep h body.
Proof.
  unfold webhook_verify, authentic. case_bool_decide as H0; [split; [by left|done]|].
  case_bool_decide as H1.
  { rewrite verify_bearer_ok. split; [intros (s & Hs & Ht); right; exists s; auto|].
    intros [?|(s & Hs & [[_ Ht]|[[Hc _]|[Hc _]]])]; [congruence|by exists s|congruence..]. }
  case_bool_decide as H2.
  { rewrite verify_hmac_ok. split; [intros (s & t & Hs & Ht & Hd); right; exists s; split; [done|]; right; right; eauto|].
    intros [?|(s & Hs & [[Hc _]|[[Hc _]|[_ (t & Ht & Hd)]]])]; [congruence..|by exists s, t]. }
  case_bool_decide as H3.
  { rewrite verify_api_key_ok. split; [intros (s & Hs & Ht); right; exists s; auto|].
    intros [?|(s & Hs & [[Hc _]|[[_ Ht]|[Hc _]]])]; [congruence|congruence|by exists s|congruence]. }
  split; [done|]. intros [?|(s & _ & [[? _]|[[? _]|[? _]]])]; congruence.
Qed.

(** An event stands for a request that was authentic for its endpoint. *)
Definition stands_for (c : WebhookConfig) (e : WebhookEvent) (r : WebhookRequest) : Prop :=
  ∃ ep, endpoints c !! rq_index r = Some ep ∧ authentic ep (rq_headers r) (rq_body r) ∧
    we_job_id e = ep_job_id ep ∧ we_body e = rq_body r ∧ we_service_id e = wc_service_id c ∧ we_path e = ep_path ep.

Definition accepted_requests (rs : list WebhookRequest) (replies : list WebhookReply) : list WebhookRequest :=
  (filter (λ p : WebhookRequest * WebhookReply, wr_status p.2 = 202) (zip rs replies)).*1.

Lemma numbered_cons c n :
  c :: ((λ i, c + 1 + i) <$> seqZ 0 (Z.of_nat n)) = (λ i, c + i) <$> seqZ 0 (Z.of_nat (S n)).
Proof.
  rewrite Nat2Z.inj_succ, (seqZ_cons 0 (Z.succ _)), Z.pred_succ, fmap_cons, Z.add_0_r by lia. f_equal.
  change (Z.succ 0) with (1 + 0). rewrite <-(fmap_add_seqZ 1 0), <-list_fmap_compose. apply list_fmap_ext. intros ? ? _. cbn. lia.
Qed.

Lemma run_webhooks_ok rs g replies g' :
  producer_open g = true → 0 < call_id_counter g → call_id_counter g + Z.of_nat (length rs) < 2 ^ 64 →
  run_webhooks rs g = (replies, g') →
  wg_config g' = wg_config g ∧ length replies = length rs ∧
  ∃ es, wg_events g' = wg_events g ++ es ∧ Forall2 (stands_for (wg_config g)) es (accepted_requests rs replies) ∧
    we_call_id <$> es = (λ i, call_id_counter g + i) <$> seqZ 0 (Z.of_nat (length es)) ∧
    call_id_counter g' = call_id_counter g + Z.of_nat (length es) ∧
    omap wr_call_id replies = we_call_id <$> es ∧
    Forall2 (λ r a, wr_status a = 202 ↔ ∃ ep, endpoints (wg_config g) !! rq_index r = Some ep ∧ authentic ep (rq_headers r) (rq_body r)) rs replies.
Proof.
  revert g replies. induction rs as [|[i h body] rs IH]; intros g replies Hopen Hpos Hmax; cbn [run_webhooks rq_index rq_headers rq_body].
  { intros [= <- <-]. split_and!; [done..|]. exists []. cbn. rewrite app_nil_r. split_and!; try done; lia. }
  destruct (handle_webhook i h body g) as [a g1] eqn:Hh. destruct (run_webhooks rs g1) as [l g2] eqn:Hr. intros [= <- <-].
  unfold handle_webhook in Hh. cbn [length] in Hmax.
  destruct (endpoints (wg_config g) !! i) as [ep|] eqn:Hep.
  2: { injection Hh as <- <-. destruct (IH g l Hopen Hpos ltac:(lia) Hr) as (Hc & Hl & es & He & Hs & Hid & Hcnt & Hom & Hst).
       split_and!; [done|by cbn; rewrite Hl|]. exists es. split_and!; try done. constructor; [|done]. cbn. rewrite Hep.
       split; [done|]. by intros (? & ? & _). }
  destruct (webhook_verify ep h body) as [[]|e] eqn:Hv.
  2: { injection Hh as <- <-. destruct (IH g l Hopen Hpos ltac:(lia) Hr) as (Hc & Hl & es & He & Hs & Hid & Hcnt & Hom & Hst).
       split_and!; [done|by cbn; rewrite Hl|]. exists es. split_and!; try done. constructor; [|done]. cbn. rewrite Hep.
       split; [done|]. intros (? & [= <-] & Ha%webhook_verify_ok). congruence. }
  apply webhook_verify_ok in Hv. rewrite Hopen in Hh. cbn [producer_open] in Hh. injection Hh as <- <-.
  rewrite u64_wrap_small in Hr by (unfold is_u64; lia).
  match type of Hr with run_webhooks _ ?g1 = _ => destruct (IH g1 l) as (Hc & Hl & es & He & Hs & Hid & Hcnt & Hom & Hst) end;
    [done|cbn; lia|cbn; lia|exact Hr|]. cbn in Hc, He, Hs, Hid, Hcnt, Hst.
  split_and!; [done|by cbn; rewrite Hl|].
  set (e := mkWebhookEvent (wc_service_id (wg_config g)) (ep_job_id ep) body (ep_path ep) (ep_name ep) (call_id_counter g)).
  exists (e :: es). split_and!.
  - by rewrite He, <-app_assoc.
  - unfold accepted_requests in *. cbn. constructor; [|done]. exists ep. by split_and!.
  - rewrite fmap_cons, Hid, length_cons. apply (numbered_cons (call_id_counter g) (length es)).
  - cbn. lia.
  - rewrite fmap_cons, <-Hom. done.
  - constructor; [|done]. cbn. rewrite Hep. split; [intros _; by exists ep|done].
Qed.

(** The gateway starts exactly the jobs it was validly asked for: of the
    requests to a running gateway those are accepted that show the secret of their
    endpoint; every accepted one makes one event, in order, with the endpoint's job,
    the request's body and a call number of its own, which the answer names; and
    nothing else makes events. *)
Theorem webhook_events_authentic c g rs replies g' :
  webhook_gateway_new c = Ok g → Z.of_nat (length rs) < 2 ^ 64 - 1 → run_webhooks rs g = (replies, g') →
  Forall2 (stands_for c) (wg_events g') (accepted_requests rs replies) ∧
  Forall2 (λ r a, wr_status a = 202 ↔ ∃ ep, endpoints c !! rq_index r = Some ep ∧ authentic ep (rq_headers r) (rq_body r)) rs replies ∧
  NoDup (we_call_id <$> wg_events g') ∧ omap wr_call_id replies = we_call_id <$> wg_events g'.
Proof.
  unfold webhook_gateway_new. destruct (bool_decide (endpoints c = [])); [done|]. intros [= <-] Hl Hr.
  destruct (run_webhooks_ok rs (mkWebhookGateway c 1 true []) replies g' eq_refl ltac:(done) ltac:(cbn; lia) Hr)
    as (_ & _ & es & -> & Hs & Hid & _ & Hom & Hst). cbn in *. split_and!; try done. rewrite Hid.
  apply NoDup_fmap_2; [intros x y; lia|apply NoDup_seqZ].
Qed.

Definition endpoint_ok (ep : WebhookEndpoint) : Prop :=
  String.prefix "/" (ep_path ep) = true ∧
  (ep_auth ep = "none" ∨ (ep_auth ep ∈ ["bearer"; "hmac-sha256"; "api-key"] ∧ is_Some (ep_secret ep))).

Lemma validate_endpoint_ok ep : validate_endpoint ep = Ok tt → endpoint_ok ep.
Proof.
  unfold validate_endpoint, endpoint_ok. destruct (String.prefix "/" (ep_path ep)); [|done]. cbn [negb].
  case_bool_decide; [by split; [|left]|]. case_bool_decide; [|done]. destruct (ep_secret ep) as [s|]; [|done].
  intros _. split; [done|]. right. by split.
Qed.

(** The configuration that passes the check has a secret wherever one is needed,
    as far as the file goes. *)
Lemma webhook_validate_ok c : webhook_validate c = Ok tt → endpoints c ≠ [] ∧ Forall endpoint_ok (endpoints c).
Proof.
  unfold webhook_validate. case_bool_decide as Hne; [done|]. intros Hf. split; [done|]. clear Hne. revert Hf.
  induction (endpoints c) as [|ep eps IH]; [constructor|]. cbn [try_fold].
  destruct (validate_endpoint ep) as [[]|e] eqn:Hv; [|done]. cbn [mbind result_bind]. intros Hf.
  constructor; [by apply validate_endpoint_ok|by apply IH].
Qed.

End gateway.

(** ** A run *)

Definition toy_hmac : HmacLib := {| hmac_sha256 k m := take 32 (k ++ m) |}.
Definition demo_webhooks : WebhookConfig :=
  mkWebhook "0.0.0.0:9090" [mkEndpoint "/hooks/open" 1 "none" None None None;
                            mkEndpoint "/hooks/signed" 2 "hmac-sha256" (Some "env:KEY"%string) None None] 42.
Definition demo_env (s : string) : option string := if bool_decide (s = "KEY") then Some "k"%string else None.
Definition demo_webhook_gateway : WebhookGateway := mkWebhookGateway demo_webhooks 1 true [].
Definition demo_requests : list WebhookRequest :=
  [mkWebhookRequest 1 ∅ [7]; mkWebhookRequest 0 ∅ [8];
   mkWebhookRequest 1 {[ "x-hub-signature-256" := [str_bytes "sha256=6B07"] ]} [7]].

Lemma webhook_events_authentic_witness :
  ∃ replies g', run_webhooks (L := toy_hmac) demo_env demo_requests demo_webhook_gateway = (replies, g') ∧
    Forall2 (stands_for (L := toy_hmac) demo_env demo_webhooks) (wg_events g') (accepted_requests demo_requests replies) ∧
    wr_status <$> replies = [401; 202; 202].
Proof.
  destruct (run_webhooks (L := toy_hmac) demo_env demo_requests demo_webhook_gateway) as [replies g'] eqn:Hr.
  exists replies, g'. split; [reflexivity|].
  destruct (webhook_events_authentic (L := toy_hmac) demo_env demo_webhooks demo_webhook_gateway demo_requests replies g'
    eq_refl ltac:(by vm_compute) Hr) as [Hs _]. split; [exact Hs|].
  apply (f_equal fst) in Hr. cbn [fst] in Hr. rewrite <-Hr. vm_compute. reflexivity.
Defined.

(** Two endpoints with one path pass the check and panic when the routes are made. *)
Lemma duplicate_paths_panic :
  let c := mkWebhook "0.0.0.0:9090" [mkEndpoint "/a" 1 "none" None None None; mkEndpoint "/a" 2 "none" None None None] 1 in
  webhook_validate c = Ok tt ∧ webhook_routes c = None.
Proof. split; reflexivity. Qed.
