(* ===== verification/WebhookNotify.v ===== *)
(** * Notifications about jobs ([webhooks/src/notifier.rs], [webhooks/src/sse.rs])

    The hub through which customers follow their jobs: streams of events, guarded
    by a token for each job, and signed callbacks that are retried and kept for
    inspection when they fail.  The serialisation of events and the outcome of a
    request are parameters; a stream holds what was broadcast to it. *)

From Stdlib Require Import ZArith Lia Ascii.
From stdpp Require Import base gmap sets list sorting strings pretty fin_maps numbers relations.
From S2P Require Import Prelude Bytes Text JobCore Hex Http Webhooks.

#[local] Open Scope Z_scope.

Inductive JobStatus := Queued | Processing | Completed | JobFailed | Cancelled.

(** [impl Display for JobStatus], [is_terminal] *)
Definition job_status_display (s : JobStatus) : string :=
  match s with
  | Queued => "queued" | Processing => "processing" | Completed => "completed" | JobFailed => "failed" | Cancelled => "cancelled"
  end.
Definition is_terminal (s : JobStatus) : bool := match s with Completed | JobFailed | Cancelled => true | _ => false end.

Record JobEvent := mkJobEvent {
  je_status : JobStatus;
  je_progress : option Z;
  je_result : option string;    (* a JSON value, in its text *)
  je_error : option string;
  je_timestamp : Z;
}.
Record NotifierConfig := mkNotifierConfig {
  signing_secret : string;
  max_retries : Z;
  retry_base_ms : Z;
  timeout_secs : Z;
  sse_capacity : Z;
}.
(** [NotifierConfig::default] *)
Definition notifier_config_default : NotifierConfig := mkNotifierConfig "" 3 1000 10 16.

Record FailedDelivery := mkFailed {
  fd_job_id : string;
  fd_url : string;
  fd_attempts : Z;
  fd_last_error : string;
  fd_payload : string;
}.

Definition MAX_DEAD_LETTERS : Z := 1000.
Definition MAX_CHANNELS : Z := 10000.

(** [serde_json::to_string] of a [WebhookPayload] and of an event *)
Class EventJson := {
  payload_json : string → JobEvent → result string string;
  event_json : JobEvent → result string string;
}.

(** ** The hub *)

(** A channel names its receivers; a receiver is what was sent to it. *)
Record JobNotifier := mkNotifier {
  jn_config : NotifierConfig;
  channels : gmap string (list nat);
  receivers : list (list JobEvent);
  dead_letters : list FailedDelivery;
  job_tokens : gmap string string;
}.

(** [JobNotifier::new] *)
Definition notifier_new (c : NotifierConfig) : JobNotifier := mkNotifier c ∅ [] [] ∅.

(** [register_job], with the 32 bytes that are drawn; [validate_job_token] *)
Definition register_job (draw : list Byte8) (job : string) (n : JobNotifier) : string * JobNotifier :=
  let token := hex_encode draw in
  (token, mkNotifier (jn_config n) (channels n) (receivers n) (dead_letters n) (<[job := token]> (job_tokens n))).
Definition validate_job_token (job token : string) (n : JobNotifier) : bool :=
  match job_tokens n !! job with Some e => bool_decide (str_bytes e = str_bytes token) | None => false end.

(** [subscribe]: the number of the receiver *)
Definition subscribe (job : string) (n : JobNotifier) : option nat * JobNotifier :=
  if negb (bool_decide (is_Some (channels n !! job))) && (MAX_CHANNELS <=? Z.of_nat (size (channels n))) then (None, n)
  else
    let id := length (receivers n) in
    let rs := default [] (channels n !! job) ++ [id] in
    (Some id, mkNotifier (jn_config n) (<[job := rs]> (channels n)) (receivers n ++ [[]]) (dead_letters n) (job_tokens n)).

(** [tx.send] to every receiver of a channel *)
Definition broadcast (event : JobEvent) (rs : list nat) (l : list (list JobEvent)) : list (list JobEvent) :=
  imap (λ i es, if bool_decide (i ∈ rs) then es ++ [event] else es) l.

(** [notify], without the delivery, which runs on its own *)
Definition notify (job : string) (event : JobEvent) (n : JobNotifier) : JobNotifier :=
  let rs := default [] (channels n !! job) in
  let n := mkNotifier (jn_config n) (channels n) (broadcast event rs (receivers n)) (dead_letters n) (job_tokens n) in
  if is_terminal (je_status event)
  then mkNotifier (jn_config n) (delete job (channels n)) (receivers n) (dead_letters n) (delete job (job_tokens n))
  else n.

(** [active_channels], [clear_dead_letters] *)
Definition active_channels (n : JobNotifier) : nat := size (channels n).
Definition clear_dead_letters (n : JobNotifier) : JobNotifier :=
  mkNotifier (jn_config n) (channels n) (receivers n) [] (job_tokens n).

(** ** Deliveries *)

Section delivery.
  Context `{L : HmacLib} `{J : EventJson}.

(** [sign_payload_with_timestamp] *)
Definition signed_content (now : Z) (payload : string) : list Byte8 := str_bytes (pretty now) ++ [46] ++ str_bytes payload.
Definition sign_payload_with_timestamp (now : Z) (c : NotifierConfig) (payload : string) : result WebhookError (string * Z) :=
  if bool_decide (signing_secret c = "") then Err (DeliveryFailed "cannot sign webhook: signing_secret is empty")
  else Ok (hex_encode (hmac_sha256 (str_bytes (signing_secret c)) (signed_content now payload)), now).

(** The request of an attempt *)
Record Callback := mkCallback {
  cb_url : string;
  cb_signature : string;    (* [X-Webhook-Signature] *)
  cb_timestamp : string;    (* [X-Webhook-Timestamp] *)
  cb_job_id : string;       (* [X-Job-Id] *)
  cb_body : string;
}.

(** The pause before an attempt, in milliseconds *)
Definition retry_delay (c : NotifierConfig) (attempt : Z) : Z :=
  if 0 <? attempt then u64_wrap (retry_base_ms c * Z.min (2 ^ (attempt - 1)) u64_max) else 0.

(** The attempts: [outcome] gives the status or the error of each.  The answer is
    whether one succeeded, with the requests that were made. *)
Fixpoint attempts (outcome : Z → result string Z) (n : nat) (attempt : Z) (last_error : string) : option string * nat :=
  match n with
  | O => (Some last_error, O)
  | S n =>
      match outcome attempt with
      | Ok status =>
          if (200 <=? status) && (status <? 300) then (None, 1%nat)
          else let '(r, k) := attempts outcome n (attempt + 1) ("HTTP " +:+ pretty status) in (r, S k)
      | Err e => let '(r, k) := attempts outcome n (attempt + 1) e in (r, S k)
      end
  end.

Definition push_dead_letter (d : FailedDelivery) (l : list FailedDelivery) : list FailedDelivery :=
  (if MAX_DEAD_LETTERS <=? Z.of_nat (length l) then tail l else l) ++ [d].

(** [deliver_webhook_inner]: the result, the requests and the dead letters *)
Definition deliver_webhook (now : Z) (outcome : Z → result string Z) (c : NotifierConfig) (job : string) (event : JobEvent) (url : string)
    (dl : list FailedDelivery) : result WebhookError unit * list Callback * list FailedDelivery :=
  match payload_json job event with
  | Err e => (Err (WebhookServer ("serialize: " +:+ e)), [], dl)
  | Ok payload =>
      match sign_payload_with_timestamp now c payload with
      | Err e => (Err e, [], dl)
      | Ok (signature, timestamp) =>
          let request := mkCallback url ("sha256=" +:+ signature) (pretty timestamp) job payload in
          let '(failed, k) := attempts outcome (Z.to_nat (max_retries c + 1)) 0 "" in
          match failed with
          | None => (Ok tt, replicate k request, dl)
          | Some last_error =>
              let n := u32_wrap (max_retries c + 1) in
              (Err (DeliveryFailed ("webhook delivery to " +:+ url +:+ " failed after " +:+ pretty n +:+ " attempts: " +:+ last_error)),
               replicate k request, push_dead_letter (mkFailed job url n last_error payload) dl)
          end
      end
  end.

(** ** Streams ([sse.rs]) *)

Inductive StreamItem := EventItem (name data : string) | LaggedItem (skipped : Z).

(** [next_power_of_two], which a broadcast channel rounds its capacity to *)
Definition next_power_of_two (x : Z) : Z := if x <=? 1 then 1 else 2 ^ Z.log2_up x.

(** The next item of a receiver that has read [pos] of what was sent to it *)
Definition recv (capacity : Z) (sent : list JobEvent) (pos : nat) : option (result Z JobEvent * nat) :=
  let behind := Z.of_nat (length sent) - Z.of_nat pos in
  if next_power_of_two capacity <? behind
  then let skipped := behind - next_power_of_two capacity in Some (Err skipped, (pos + Z.to_nat skipped)%nat)
  else e ← sent !! pos; Some (Ok e, S pos).
Definition stream_item (r : result Z JobEvent) : StreamItem :=
  match r with
  | Ok e => EventItem (job_status_display (je_status e))
              match event_json e with Ok data => data | Err _ => "{'error':'serialize'}" end
  | Err n => LaggedItem n
  end.

(** [extract_bearer_token], [sse_handler]: the status and the receiver *)
Definition extract_bearer_token (h : HeaderMap) : option string := header_text h "authorization" ≫= strip_prefix "Bearer ".
Definition sse_handler (job : string) (h : HeaderMap) (n : JobNotifier) : Z * option nat * JobNotifier :=
  match extract_bearer_token h with
  | None => (401, None, n)
  | Some token =>
      if negb (validate_job_token job token n) then (403, None, n)
      else let '(r, n) := subscribe job n in
           match r with Some id => (200, Some id, n) | None => (503, None, n) end
  end.

(** ** Theorems *)

(** *** Streams *)

(** The events up to the first that ends the job *)
Fixpoint until_terminal (es : list JobEvent) : list JobEvent :=
  match es with [] => [] | e :: es => e :: (if is_terminal (je_status e) then [] else until_terminal es) end.

(** Calls of [notify] for all jobs *)
Definition notify_all (n : JobNotifier) (l : list (string * JobEvent)) : JobNotifier := foldl (λ n p, notify p.1 p.2 n) n l.

(** Every receiver is in at most one channel, and exists. *)
Definition notifier_inv (n : JobNotifier) : Prop :=
  map_Forall (λ _ rs, Forall (λ i, (i < length (receivers n))%nat) rs) (channels n) ∧
  (∀ j j' rs rs' i, channels n !! j = Some rs → channels n !! j' = Some rs' → i ∈ rs → i ∈ rs' → j = j').

Lemma length_broadcast event rs l : length (broadcast event rs l) = length l.
Proof. apply length_imap. Qed.

Lemma notify_channels job event n :
  channels (notify job event n) = if is_terminal (je_status event) then delete job (channels n) else channels n.
Proof. unfold notify. by destruct (is_terminal _). Qed.
Lemma notify_receivers job event n :
  receivers (notify job event n) = broadcast event (default [] (channels n !! job)) (receivers n).
Proof. unfold notify. by destruct (is_terminal _). Qed.

Lemma notify_inv job event n : notifier_inv n → notifier_inv (notify job event n).
Proof.
  intros [H1 H2]. split.
  - intros j rs Hj. rewrite notify_receivers, length_broadcast. rewrite notify_channels in Hj.
    apply (H1 j). destruct (is_terminal _); [by apply lookup_delete_Some in Hj as [_ ?]|done].
  - intros j j' rs rs' i. rewrite notify_channels. destruct (is_terminal _); [|apply H2].
    intros [_ Hj]%lookup_delete_Some [_ Hj']%lookup_delete_Some. by apply (H2 j j' rs rs').
Qed.

Lemma subscribe_inv job n id n' : notifier_inv n → subscribe job n = (Some id, n') →
  notifier_inv n' ∧ id = length (receivers n) ∧ receivers n' = receivers n ++ [[]] ∧
  ∃ rs, channels n' = <[job := rs]> (channels n) ∧ id ∈ rs.
Proof.
  intros [H1 H2]. unfold subscribe. destruct (_ && _); [done|]. intros [= <- <-]. cbn.
  assert (∀ j rs i, channels n !! j = Some rs → i ∈ rs → (i < length (receivers n))%nat) as Hlt.
  { intros j rs i Hj Hi. pose proof (H1 j rs Hj) as Hf. cbn in Hf. rewrite list.Forall_forall in Hf. by apply Hf. }
  split_and!; [|done|done|eexists; split; [done|]; apply elem_of_app; right; by left].
  split; cbn.
  - apply map_Forall_insert_2.
    + rewrite length_app. cbn. apply list.Forall_forall. intros i [Hi| ->%list_elem_of_singleton]%elem_of_app; [|lia].
      destruct (channels n !! job) as [rs|] eqn:Hj; [|by apply elem_of_nil in Hi]. pose proof (Hlt _ _ _ Hj Hi). lia.
    + eapply map_Forall_impl; [exact H1|]. cbn. intros j rs Hf. rewrite length_app. cbn.
      eapply list.Forall_impl; [exact Hf|]. cbn. lia.
  - assert (∀ j rs i, j ≠ job → channels n !! j = Some rs → i ∈ rs → i ∈ default [] (channels n !! job) ++ [length (receivers n)] → False) as Hx.
    { intros j rs i Hne Hj Hi [Hd| ->%list_elem_of_singleton]%elem_of_app.
      - destruct (channels n !! job) as [rs'|] eqn:Hjob; [|by apply elem_of_nil in Hd]. by apply Hne, (H2 j job rs rs' i).
      - pose proof (Hlt _ _ _ Hj Hi). lia. }
    intros j j' rs rs' i Hj Hj' Hi Hi'. destruct (decide (j = job)) as [->|Hne], (decide (j' = job)) as [->|Hne']; try done.
    + rewrite lookup_insert_eq in Hj. injection Hj as <-. rewrite lookup_insert_ne in Hj' by done. destruct (Hx _ _ _ Hne' Hj' Hi' Hi).
    + rewrite lookup_insert_eq in Hj'. injection Hj' as <-. rewrite lookup_insert_ne in Hj by done. destruct (Hx _ _ _ Hne Hj Hi Hi').
    + rewrite lookup_insert_ne in Hj, Hj' by done. by apply (H2 j j' rs rs' i).
Qed.

(** What a receiver holds after further events *)
Lemma receiver_stream l : ∀ n job id rs old,
  notifier_inv n → channels n !! job = Some rs → id ∈ rs → receivers n !! id = Some old →
  receivers (notify_all n l) !! id = Some (old ++ until_terminal (snd <$> filter (λ p, p.1 = job) l)).
Proof.
  assert (∀ l n id old, notifier_inv n → receivers n !! id = Some old → (∀ j rs, channels n !! j = Some rs → id ∉ rs) →
    receivers (notify_all n l) !! id = Some old) as Hdead.
  { clear l. intros l. induction l as [|[j e] l IH]; intros n id old Hinv Ho Hno; [done|]. cbn [notify_all foldl].
    apply IH; [by apply notify_inv| |].
    - rewrite notify_receivers. unfold broadcast. rewrite list_lookup_imap, Ho. cbn. rewrite bool_decide_false; [done|].
      destruct (channels n !! j) as [rs|] eqn:Hj; [by apply (Hno j)|apply not_elem_of_nil].
    - intros j' rs. rewrite notify_channels. destruct (is_terminal _); [intros [_ Hj]%lookup_delete_Some|intros Hj]; by eapply Hno. }
  induction l as [|[j e] l IH]; intros n job id rs old Hinv Hch Hid Ho; [by cbn; rewrite app_nil_r|].
  cbn [notify_all foldl]. destruct (decide (j = job)) as [->|Hne].
  - rewrite filter_cons_True by done. cbn [fmap list_fmap snd until_terminal].
    assert (receivers (notify job e n) !! id = Some (old ++ [e])) as Hr.
    { rewrite notify_receivers, Hch. unfold broadcast. rewrite list_lookup_imap, Ho. cbn. by rewrite bool_decide_true. }
    destruct (is_terminal (je_status e)) eqn:Ht.
    + fold (notify_all (notify job e n) l). rewrite (Hdead l _ id (old ++ [e])); [done|by apply notify_inv|done|].
      intros j' rs'. rewrite notify_channels, Ht. intros [Hne Hj']%lookup_delete_Some Hi.
      destruct Hinv as [_ H2]. by apply Hne, (H2 job j' rs rs' id).
    + fold (notify_all (notify job e n) l). rewrite (IH _ job id rs (old ++ [e])); [by rewrite <-app_assoc|by apply notify_inv| |done|done].
      by rewrite notify_channels, Ht.
  - rewrite filter_cons_False by done. fold (notify_all (notify j e n) l). apply (IH _ job id rs); [by apply notify_inv| |done|].
    + rewrite notify_channels. destruct (is_terminal _); [by rewrite lookup_delete_ne|done].
    + rewrite notify_receivers. unfold broadcast. rewrite list_lookup_imap, Ho. cbn. rewrite bool_decide_false; [done|].
      destruct (channels n !! j) as [rs'|] eqn:Hj; [|apply not_elem_of_nil]. intros Hi. destruct Hinv as [_ H2].
      by apply Hne, (H2 j job rs' rs id).
Qed.

(** A customer who subscribes to a job is sent its events and nothing else: for
    any events of any jobs afterwards, the receiver gets those of its job in order,
    up to and including the first that ends it. *)
Theorem subscriber_sees_job n job id n' l :
  notifier_inv n → subscribe job n = (Some id, n') →
  receivers (notify_all n' l) !! id = Some (until_terminal (snd <$> filter (λ p, p.1 = job) l)).
Proof.
  intros Hinv Hs. destruct (subscribe_inv _ _ _ _ Hinv Hs) as (Hinv' & -> & Hr & rs & Hc & Hid).
  rewrite (receiver_stream l n' job (length (receivers n)) rs []); [done|done| |done|].
  - by rewrite Hc, lookup_insert_eq.
  - rewrite Hr. by rewrite lookup_app_r, Nat.sub_diag by lia.
Qed.

(** A stream is opened only with the token of a job that has not ended. *)
Lemma sse_needs_token job h n status id n' :
  sse_handler job h n = (status, Some id, n') →
  ∃ token, job_tokens n !! job = Some token ∧ header_text h "authorization" = Some ("Bearer " +:+ token).
Proof.
  unfold sse_handler, extract_bearer_token. destruct (header_text h "authorization") as [t|]; [|done]. cbn [mbind option_bind].
  destruct (strip_prefix "Bearer " t) as [token|] eqn:Hs; [|done]. apply strip_prefix_some in Hs as ->.
  unfold validate_job_token. destruct (job_tokens n !! job) as [e|]; [|done]. case_bool_decide as Hb; [|done].
  apply str_bytes_inj in Hb as ->. intros _. by exists token.
Qed.

Lemma ended_job_refused job event n token : is_terminal (je_status event) = true → validate_job_token job token (notify job event n) = false.
Proof. intros Ht. unfold validate_job_token, notify. rewrite Ht. cbn. by rewrite lookup_delete_eq. Qed.

(** *** Deliveries *)

(** Whether an attempt gets a success *)
Definition succeeds (outcome : Z → result string Z) (a : Z) : bool :=
  match outcome a with Ok s => (200 <=? s) && (s <? 300) | Err _ => false end.

Lemma attempts_spec outcome n a e r k :
  attempts outcome n a e = (r, k) →
  let ok i := succeeds outcome (a + Z.of_nat i) in
  match r with
  | None => (1 ≤ k ≤ n)%nat ∧ ok (k - 1)%nat = true ∧ ∀ i, (i < k - 1)%nat → ok i = false
  | Some _ => k = n ∧ ∀ i, (i < n)%nat → ok i = false
  end.
Proof.
  revert a e r k. induction n as [|n IH]; intros a e r k; cbn [attempts].
  { intros [= <- <-]. cbn. split; [done|]. intros i. lia. }
  assert (∀ r k, succeeds outcome a = false →
    (∃ e', attempts outcome n (a + 1) e' = (r, k)) →
    let ok i := succeeds outcome (a + Z.of_nat i) in
    match r with
    | None => (1 ≤ S k ≤ S n)%nat ∧ ok (S k - 1)%nat = true ∧ ∀ i, (i < S k - 1)%nat → ok i = false
    | Some _ => S k = S n ∧ ∀ i, (i < S n)%nat → ok i = false
    end) as Hstep.
  { intros r' k' H0 (e' & Hat). pose proof (IH _ _ _ _ Hat) as Hs. cbn zeta in Hs |- *.
    assert (∀ i, a + 1 + Z.of_nat i = a + Z.of_nat (S i)) as Hshift by lia.
    destruct r' as [err|].
    - destruct Hs as [-> Hs]. split; [done|]. intros [|i] Hi; [by rewrite Z.add_0_r|]. rewrite <-Hshift. apply Hs. lia.
    - destruct Hs as (Hk & Hok & Hs). split; [lia|]. split.
      + replace (S k' - 1)%nat with (S (k' - 1)) by lia. rewrite <-Hshift. done.
      + intros [|i] Hi; [by rewrite Z.add_0_r|]. rewrite <-Hshift. apply Hs. lia. }
  destruct (outcome a) as [s|err] eqn:Ho.
  - destruct ((200 <=? s) && (s <? 300)) eqn:Hok.
    + intros [= <- <-]. cbn. unfold succeeds. rewrite Z.add_0_r, Ho. split_and!; [lia..|done|]. intros i Hi. lia.
    + destruct (attempts outcome n (a + 1) _) as [r' k'] eqn:Hat. intros [= <- <-]. apply Hstep; [by unfold succeeds; rewrite Ho|by eexists].
  - destruct (attempts outcome n (a + 1) err) as [r' k'] eqn:Hat. intros [= <- <-]. apply Hstep; [by unfold succeeds; rewrite Ho|by eexists].
Qed.

(** A callback is tried until it succeeds, at most once more than the retries
    that are configured.  Each request is the same, and its signature verifies for
    its timestamp and its body; it succeeds exactly if one of the attempts does,
    after which there are no more; otherwise it is kept for inspection as the last
    of at most a thousand, with the oldest dropped. *)
Theorem callback_delivered `{LL : !HmacLaws L} now outcome c job event url dl r requests dl' payload :
  0 ≤ max_retries c < 2 ^ 32 - 1 → signing_secret c ≠ "" → payload_json job event = Ok payload →
  Z.of_nat (length dl) ≤ MAX_DEAD_LETTERS →
  deliver_webhook now outcome c job event url dl = (r, requests, dl') →
  let ok i := succeeds outcome (Z.of_nat i) in
  Forall (λ q, cb_url q = url ∧ cb_body q = payload ∧ cb_timestamp q = pretty now ∧
    ∃ text, cb_signature q = "sha256=" +:+ text ∧
      decode_hex text = Some (hmac_sha256 (str_bytes (signing_secret c)) (signed_content now payload))) requests ∧
  (1 ≤ length requests)%nat ∧ Z.of_nat (length requests) ≤ max_retries c + 1 ∧
  (r = Ok tt ↔ ∃ i, Z.of_nat i ≤ max_retries c ∧ ok i = true) ∧
  (r = Ok tt → dl' = dl ∧ ok (length requests - 1)%nat = true ∧ ∀ i, (i < length requests - 1)%nat → ok i = false) ∧
  (r ≠ Ok tt → ∃ kept err, dl' = kept ++ [mkFailed job url (max_retries c + 1) err payload] ∧ kept `suffix_of` dl ∧
     Z.of_nat (length dl') ≤ MAX_DEAD_LETTERS).
Proof.
  intros Hmax Hsec Hpay Hdl. unfold deliver_webhook, sign_payload_with_timestamp. rewrite Hpay, bool_decide_false by done.
  destruct (attempts outcome (Z.to_nat (max_retries c + 1)) 0 "") as [failed k] eqn:Hat.
  apply attempts_spec in Hat. cbn zeta in Hat |- *.
  assert (∀ i, succeeds outcome (0 + Z.of_nat i) = succeeds outcome (Z.of_nat i)) as H0 by done.
  assert (u32_wrap (max_retries c + 1) = max_retries c + 1) as Hwrap by (unfold u32_wrap; apply Z.mod_small; lia).
  set (q := mkCallback _ _ _ _ _). intros Hr.
  assert (requests = replicate k q ∧ (1 ≤ k)%nat ∧ Z.of_nat k ≤ max_retries c + 1) as (-> & Hk1 & Hk2).
  { destruct failed as [err|]; injection Hr as <- <- <-; (split; [done|]).
    - destruct Hat as [-> _]. lia.
    - destruct Hat as [? _]. lia. }
  rewrite length_replicate. split_and!; [|done|done|..].
  - apply Forall_replicate. cbn. split_and!; [done..|]. eexists. split; [done|]. apply decode_hex_encode, hmac_bytes.
  - destruct failed as [err|]; injection Hr as <- <-; (split; [intros Hok; try discriminate Hok|intros Hok; try reflexivity]).
    + destruct Hat as [-> Hno]. destruct Hok as (i & Hi & Hok). by rewrite <-H0, Hno in Hok by lia.
    + destruct Hat as (Hk & Hok' & _). exists (k - 1)%nat. split; [lia|done].
  - intros Hok. destruct failed as [err|]; injection Hr as <- <-; [discriminate Hok|]. by destruct Hat as (_ & ? & ?).
  - intros Hno. destruct failed as [err|]; injection Hr as <- <-; [|done]. unfold push_dead_letter. rewrite Hwrap.
    eexists _, err. split; [done|]. rewrite length_app. cbn [length]. destruct (Z.leb_spec MAX_DEAD_LETTERS (Z.of_nat (length dl))).
    + destruct dl as [|d dl]; [done|]. cbn [tail length] in *. split; [by exists [d]|lia].
    + split; [by exists []|lia].
Qed.

End delivery.

(** ** A run *)

#[local] Instance toy_mac : HmacLib := {| hmac_sha256 k m := (λ b, b mod 256) <$> (k ++ m) |}.
#[local] Instance toy_mac_laws : HmacLaws toy_mac.
Proof. split. intros k m. apply Forall_fmap, list.Forall_true. intros b. apply Z.mod_pos_bound. lia. Qed.
#[local] Instance toy_event_json : EventJson := {| payload_json j _ := Ok j; event_json e := Ok (job_status_display (je_status e)) |}.

Definition demo_event (s : JobStatus) : JobEvent := mkJobEvent s None None None 100.
Definition demo_notifier : JobNotifier := notifier_new (mkNotifierConfig "key" 2 1000 10 16).

Lemma subscriber_sees_job_witness :
  let n := (subscribe "a" demo_notifier).2 in
  receivers (notify_all n [("b"%string, demo_event Completed); ("a"%string, demo_event Processing);
    ("a"%string, demo_event Completed); ("a"%string, demo_event Queued)]) !! 0%nat
  = Some [demo_event Processing; demo_event Completed].
Proof.
  cbv zeta. rewrite (subscriber_sees_job demo_notifier "a" 0 (subscribe "a" demo_notifier).2); [reflexivity| |reflexivity].
  split; [apply map_Forall_empty|]. intros j j' rs rs' i Hj. discriminate Hj.
Defined.

Definition demo_outcome (a : Z) : result string Z := if a =? 0 then Err "refused"%string else if a =? 1 then Ok 500 else Ok 200.

Lemma callback_delivered_witness :
  ∃ requests dl', deliver_webhook 1000 demo_outcome (jn_config demo_notifier) "job" (demo_event Completed) "url" []
    = (Ok tt, requests, dl') ∧ length requests = 3%nat ∧ dl' = [].
Proof.
  destruct (deliver_webhook 1000 demo_outcome (jn_config demo_notifier) "job" (demo_event Completed) "url" [])
    as [[r requests] dl'] eqn:Hd.
  destruct (callback_delivered 1000 demo_outcome (jn_config demo_notifier) "job" (demo_event Completed) "url" [] r requests dl' "job"
    ltac:(by vm_compute) ltac:(done) eq_refl ltac:(by vm_compute) Hd) as (_ & _ & _ & Hr & Hok & _).
  assert (r = Ok tt) as -> by (apply Hr; exists 2%nat; split; [by vm_compute|reflexivity]).
  exists requests, dl'. split; [reflexivity|]. destruct (Hok eq_refl) as (-> & _). split; [|reflexivity].
  apply (f_equal (λ p, length p.1.2)) in Hd. cbn [fst snd] in Hd. rewrite <-Hd. vm_compute. reflexivity.
Defined.

(** The pauses grow until the product leaves 64 bits. *)
Lemma backoff_wraps : retry_delay notifier_config_default 3 = 4000 ∧ retry_delay notifier_config_default 62 = 0.
Proof. split; vm_compute; reflexivity. Qed.

(** A callback of the hub does not verify at a gateway that shares its secret: one
    signs the timestamp and the body, the other the body. *)
Lemma callback_refused_by_gateway :
  let ep := mkEndpoint "/hooks" 1 "hmac-sha256" (Some "key"%string) None None in
  match deliver_webhook 1000 (λ _, Ok 200) (jn_config demo_notifier) "job" (demo_event Completed) "url" [] with
  | (_, [q], _) =>
      webhook_verify (λ _, None) ep {[ "x-webhook-signature" := [str_bytes (cb_signature q)] ]} (str_bytes (cb_body q))
      = Err (AuthFailed "HMAC signature mismatch")
  | _ => False
  end.
Proof. vm_compute. reflexivity. Qed.
