(* ===== verification/LocalDb.v ===== *)
(** * The local database ([stores/local-database/src/lib.rs])

    A map that is kept in a JSON file: every change is written to a temporary file,
    which is renamed over the database, and only then made visible.  The encoding
    of maps is a parameter; writes and renames may fail, and a write that fails may
    leave any part of its text behind. *)

From Stdlib Require Import ZArith Lia Ascii.
From stdpp Require Import base gmap sets list sorting strings pretty fin_maps numbers relations.
From S2P Require Import Prelude Bytes Text.

#[local] Open Scope Z_scope.

Inductive DbError := DbIo (e : string) | DbSerialization (e : string) | Poisoned.

(** ** Paths *)

(** The part of a path up to its last slash, and the file name *)
Fixpoint split_file_name (s : string) : string * string :=
  match s with
  | EmptyString => (EmptyString, EmptyString)
  | String a s =>
      let '(dir, file) := split_file_name s in
      match dir with
      | EmptyString => if bool_decide (a = "/"%char) then (String a EmptyString, file) else (EmptyString, String a file)
      | _ => (String a dir, file)
      end
  end.
(** A name up to its last dot, which is not its first character *)
Fixpoint before_last_dot (s : string) : option string :=
  match s with
  | EmptyString => None
  | String a s =>
      match before_last_dot s with
      | Some stem => Some (String a stem)
      | None => if bool_decide (a = "."%char) then Some EmptyString else None
      end
  end.
Definition file_stem (name : string) : string :=
  match name with
  | EmptyString => EmptyString
  | String a s => match before_last_dot s with Some stem => String a stem | None => name end
  end.
(** [Path::with_extension] of a path to a file *)
Definition with_extension (path ext : string) : string :=
  let '(dir, name) := split_file_name path in dir +:+ file_stem name +:+ "." +:+ ext.

(** ** The database *)

(** [serde_json] on maps with text keys *)
Class DbJson (T : Type) := {
  to_json : gmap string T → result string string;
  from_json : string → option (gmap string T);
}.
Class DbJsonLaws (T : Type) (J : DbJson T) := { json_round_trip m s : to_json m = Ok s → from_json s = Some m }.

Section db.
  Context {T : Type} `{J : DbJson T}.

Abbreviation Disk := (gmap string string).

(** What the file system does to one write: it may fail, with a part of the text
    written or none, and the rename may fail. *)
Inductive Faults := NoFault | WriteFails (left_behind : option string) | RenameFails.

Record LocalDatabase := mkDb { db_path : string; db_data : gmap string T; db_poisoned : bool }.

(** [flush] *)
Definition tmp_path (db : LocalDatabase) : string := with_extension (db_path db) "tmp".
Definition flush (fault : Faults) (db : LocalDatabase) (m : gmap string T) (d : Disk) : result DbError unit * Disk :=
  match to_json m with
  | Err e => (Err (DbSerialization e), d)
  | Ok text =>
      match fault with
      | WriteFails rest => (Err (DbIo "write"), match rest with Some part => <[tmp_path db := part]> d | None => d end)
      | RenameFails => (Err (DbIo "rename"), <[tmp_path db := text]> d)
      | NoFault => (Ok tt, <[db_path db := text]> (delete (tmp_path db) d))
      end
  end.

(** [commit] *)
Definition commit (fault : Faults) (next : gmap string T) (db : LocalDatabase) (d : Disk) : result DbError unit * LocalDatabase * Disk :=
  match flush fault db next d with
  | (Err e, d) => (Err e, db, d)
  | (Ok _, d) => (Ok tt, mkDb (db_path db) next (db_poisoned db), d)
  end.

(** What the file system does to an opening: the parent directory may be missing or
    not creatable, the question whether the file exists may fail, which [exists]
    answers with no, reading it may fail, and so may the first write *)
Record OpenFaults := mkOpenFaults { of_parent : bool; of_stat : bool; of_read : bool; of_write : Faults }.
Definition quiet : OpenFaults := mkOpenFaults false false false NoFault.

(** [open] *)
Definition db_open (fault : OpenFaults) (path : string) (d : Disk) : result DbError LocalDatabase * Disk :=
  if of_parent fault then (Err (DbIo "parent directory not found"), d)
  else
    match (if of_stat fault then None else d !! path) with
    | Some content =>
        if of_read fault then (Err (DbIo "read"), d)
        else (Ok (mkDb path (default ∅ (from_json content)) false), d)
    | None =>
        match to_json ∅ with
        | Err e => (Err (DbSerialization e), d)
        | Ok text =>
            match of_write fault with
            | WriteFails rest => (Err (DbIo "write"), match rest with Some part => <[path := part]> d | None => d end)
            | _ => (Ok (mkDb path ∅ false), <[path := text]> d)
            end
        end
    end.

(** *** Operations *)

(** The operations; the function of an update may panic, which poisons the lock *)
Inductive DbOp :=
| OpSet (key : string) (value : T)
| OpRemove (key : string)
| OpUpdate (key : string) (f : T → option T)
| OpReplace (m : gmap string T).
(** What an operation returns, where it returns *)
Inductive DbReply := RUnit | RRemoved (v : option T) | RUpdated (b : bool).

(** [set], [remove], [update], [replace]; [None] is a panic *)
Definition db_set (fault : Faults) (key : string) (value : T) (db : LocalDatabase) (d : Disk) : result DbError unit * LocalDatabase * Disk :=
  if db_poisoned db then (Err Poisoned, db, d) else commit fault (<[key := value]> (db_data db)) db d.
Definition db_remove (fault : Faults) (key : string) (db : LocalDatabase) (d : Disk) : result DbError (option T) * LocalDatabase * Disk :=
  if db_poisoned db then (Err Poisoned, db, d)
  else
    match db_data db !! key with
    | None => (Ok None, db, d)
    | Some v =>
        match commit fault (delete key (db_data db)) db d with
        | (Ok _, db, d) => (Ok (Some v), db, d)
        | (Err e, db, d) => (Err e, db, d)
        end
    end.
Definition db_update (fault : Faults) (key : string) (f : T → option T) (db : LocalDatabase) (d : Disk)
    : option (result DbError bool) * LocalDatabase * Disk :=
  if db_poisoned db then (Some (Err Poisoned), db, d)
  else
    match db_data db !! key with
    | None => (Some (Ok false), db, d)
    | Some v =>
        match f v with
        | None => (None, mkDb (db_path db) (db_data db) true, d)
        | Some v =>
            match commit fault (<[key := v]> (db_data db)) db d with
            | (Ok _, db, d) => (Some (Ok true), db, d)
            | (Err e, db, d) => (Some (Err e), db, d)
            end
        end
    end.
Definition db_replace (fault : Faults) (m : gmap string T) (db : LocalDatabase) (d : Disk) : result DbError unit * LocalDatabase * Disk :=
  if db_poisoned db then (Err Poisoned, db, d) else commit fault m db d.

(** [get], [len], [is_empty], [contains_key], [entries] and [values] in some order,
    [find] *)
Definition db_read {A} (f : gmap string T → A) (db : LocalDatabase) : result DbError A :=
  if db_poisoned db then Err Poisoned else Ok (f (db_data db)).
Definition db_get (key : string) : LocalDatabase → result DbError (option T) := db_read (λ m, m !! key).
Definition db_len : LocalDatabase → result DbError nat := db_read size.
Definition db_is_empty : LocalDatabase → result DbError bool := db_read (λ m, bool_decide (size m = 0%nat)).
Definition db_contains_key (key : string) : LocalDatabase → result DbError bool := db_read (λ m, bool_decide (is_Some (m !! key))).
Definition db_entries : LocalDatabase → result DbError (list (string * T)) := db_read map_to_list.
Definition db_values : LocalDatabase → result DbError (list T) := db_read (λ m, (map_to_list m).*2).
Definition db_find (predicate : T → bool) : LocalDatabase → result DbError (option T) :=
  db_read (λ m, list.head (filter (λ v, predicate v = true) (map_to_list m).*2)).

Definition reply_of {A} (f : A → DbReply) (r : result DbError A) : result DbError DbReply :=
  match r with Ok a => Ok (f a) | Err e => Err e end.

(** One operation of any kind *)
Definition db_run (fault : Faults) (op : DbOp) (db : LocalDatabase) (d : Disk) : option (result DbError DbReply) * LocalDatabase * Disk :=
  match op with
  | OpSet k v => let '(r, db, d) := db_set fault k v db d in (Some (reply_of (λ _, RUnit) r), db, d)
  | OpRemove k => let '(r, db, d) := db_remove fault k db d in (Some (reply_of RRemoved r), db, d)
  | OpUpdate k f => let '(r, db, d) := db_update fault k f db d in (option_map (reply_of RUpdated) r, db, d)
  | OpReplace m => let '(r, db, d) := db_replace fault m db d in (Some (reply_of (λ _, RUnit) r), db, d)
  end.
Fixpoint db_runs (ops : list (Faults * DbOp)) (db : LocalDatabase) (d : Disk)
    : list (option (result DbError DbReply)) * LocalDatabase * Disk :=
  match ops with
  | [] => ([], db, d)
  | (fault, op) :: ops =>
      let '(r, db, d) := db_run fault op db d in
      let '(rs, db, d) := db_runs ops db d in (r :: rs, db, d)
  end.

(** ** The specification: a map *)

(** What an operation does to the map, and what it returns *)
Definition spec_op (op : DbOp) (m : gmap string T) : DbReply * gmap string T :=
  match op with
  | OpSet k v => (RUnit, <[k := v]> m)
  | OpRemove k => (RRemoved (m !! k), delete k m)
  | OpUpdate k f =>
      match m !! k with
      | None => (RUpdated false, m)
      | Some v => match f v with Some v => (RUpdated true, <[k := v]> m) | None => (RUpdated false, m) end
      end
  | OpReplace m => (RUnit, m)
  end.
(** The map after operations of which some have succeeded *)
Fixpoint spec_runs (ops : list DbOp) (rs : list (option (result DbError DbReply))) (m : gmap string T) : gmap string T :=
  match ops, rs with
  | op :: ops, Some (Ok _) :: rs => spec_runs ops rs (spec_op op m).2
  | _ :: ops, _ :: rs => spec_runs ops rs m
  | _, _ => m
  end.

(** ** Theorems *)

(** Read as a database the file gives what the database holds. *)
Definition coherent (db : LocalDatabase) (d : Disk) : Prop :=
  ∃ text, d !! db_path db = Some text ∧ default ∅ (from_json text) = db_data db.

Lemma commit_spec `{JL : !DbJsonLaws T J} fault next db d r db' d' :
  tmp_path db ≠ db_path db → coherent db d → commit fault next db d = (r, db', d') →
  db_path db' = db_path db ∧ db_poisoned db' = db_poisoned db ∧ coherent db' d' ∧
  match r with Ok _ => db_data db' = next | Err _ => db' = db end.
Proof.
  intros Hne (old & Hold & Hdata). unfold commit, flush. destruct (to_json next) as [text|e] eqn:Ht.
  2: { intros [= <- <- <-]. split_and!; try done. by exists old. }
  destruct fault as [|[part|]|]; intros [= <- <- <-]; split_and!; try done.
  - exists text. cbn. rewrite lookup_insert_eq. split; [done|]. by rewrite (json_round_trip _ _ Ht).
  - exists old. by rewrite lookup_insert_ne.
  - by exists old.
  - exists old. by rewrite lookup_insert_ne.
Qed.

(** One operation succeeds as on the map, or changes neither memory nor the file. *)
Lemma db_run_spec `{JL : !DbJsonLaws T J} fault op db d r db' d' :
  tmp_path db ≠ db_path db → coherent db d → db_run fault op db d = (r, db', d') →
  db_path db' = db_path db ∧ coherent db' d' ∧
  match r with
  | Some (Ok reply) => db_poisoned db = false ∧ db_poisoned db' = false ∧ spec_op op (db_data db) = (reply, db_data db')
  | Some (Err _) => db' = db
  | None => db_data db' = db_data db ∧ db_poisoned db' = true
  end.
Proof.
  intros Hne Hco. destruct op as [k v|k|k f|m]; cbn [db_run spec_op].
  - unfold db_set. destruct (db_poisoned db) eqn:Hp; [by intros [= <- <- <-]|].
    destruct (commit _ _ db d) as [[r0 db0] d0] eqn:Hc. destruct (commit_spec _ _ _ _ _ _ _ Hne Hco Hc) as (Hpath & Hpo & Hco' & Hr).
    intros [= <- <- <-]. split_and!; [done..|]. destruct r0 as [[]|e]; cbn; [|done]. by rewrite Hpo, Hr.
  - unfold db_remove. destruct (db_poisoned db) eqn:Hp; [by intros [= <- <- <-]|].
    destruct (db_data db !! k) as [v|] eqn:Hv.
    2: { intros [= <- <- <-]. split_and!; try done. by rewrite delete_id. }
    destruct (commit _ _ db d) as [[r0 db0] d0] eqn:Hc. destruct (commit_spec _ _ _ _ _ _ _ Hne Hco Hc) as (Hpath & Hpo & Hco' & Hr).
    destruct r0 as [[]|e]; intros [= <- <- <-]; split_and!; first [done|congruence].
  - unfold db_update. destruct (db_poisoned db) eqn:Hp; [by intros [= <- <- <-]|].
    destruct (db_data db !! k) as [v|] eqn:Hv; [|by intros [= <- <- <-]].
    destruct (f v) as [v'|] eqn:Hf.
    2: { intros [= <- <- <-]. split_and!; try done. }
    destruct (commit _ _ db d) as [[r0 db0] d0] eqn:Hc. destruct (commit_spec _ _ _ _ _ _ _ Hne Hco Hc) as (Hpath & Hpo & Hco' & Hr).
    destruct r0 as [[]|e]; intros [= <- <- <-]; split_and!; first [done|congruence].
  - unfold db_replace. destruct (db_poisoned db) eqn:Hp; [by intros [= <- <- <-]|].
    destruct (commit _ _ db d) as [[r0 db0] d0] eqn:Hc. destruct (commit_spec _ _ _ _ _ _ _ Hne Hco Hc) as (Hpath & Hpo & Hco' & Hr).
    intros [= <- <- <-]. split_and!; [done..|]. destruct r0 as [[]|e]; cbn; [|done]. by rewrite Hpo, Hr.
Qed.

(** An opening that succeeds, with an answer to whether the file exists *)
Lemma db_open_coherent `{JL : !DbJsonLaws T J} fault path d db d' :
  of_stat fault = false → db_open fault path d = (Ok db, d') →
  coherent db d' ∧ db_path db = path ∧ db_poisoned db = false ∧ db_data db = default ∅ (d !! path ≫= from_json).
Proof.
  intros Hst. unfold db_open, coherent. rewrite Hst. destruct (of_parent fault); [done|]. destruct (d !! path) as [content|] eqn:Hd.
  - destruct (of_read fault); [done|]. intros [= <- <-]. cbn. split_and!; try done. by exists content.
  - destruct (to_json ∅) as [text|e] eqn:Ht; [|done]. destruct (of_write fault); intros [= <- <-]; cbn; split_and!; try done;
      exists text; (split; [by rewrite lookup_insert_eq|by rewrite (json_round_trip _ _ Ht)]).
Qed.

Lemma coherent_opens db d :
  coherent db d → ∃ db2, db_open quiet (db_path db) d = (Ok db2, d) ∧ db_data db2 = db_data db.
Proof. intros (text & Hd & Hj). unfold db_open. cbn. rewrite Hd. by eexists. Qed.

Lemma db_runs_refine `{JL : !DbJsonLaws T J} ops db d rs db' d' :
  tmp_path db ≠ db_path db → coherent db d → db_runs ops db d = (rs, db', d') →
  db_path db' = db_path db ∧ coherent db' d' ∧
  db_data db' = spec_runs ops.*2 rs (db_data db) ∧
  (∀ i op reply, ops.*2 !! i = Some op → rs !! i = Some (Some (Ok reply)) →
     (spec_op op (spec_runs (take i ops.*2) (take i rs) (db_data db))).1 = reply).
Proof.
  revert db d rs. induction ops as [|[fault op] ops IH]; intros db d rs Hne Hco; [by intros [= <- <- <-]|].
  cbn [db_runs]. destruct (db_run fault op db d) as [[r db1] d1] eqn:Hr. destruct (db_runs ops db1 d1) as [[rs1 db2] d2] eqn:Hrs.
  intros [= <- <- <-]. destruct (db_run_spec _ _ _ _ _ _ _ Hne Hco Hr) as (Hpath & Hco1 & Hspec).
  assert (tmp_path db1 ≠ db_path db1) as Hne1 by (unfold tmp_path in *; by rewrite Hpath).
  destruct (IH db1 d1 rs1 Hne1 Hco1 Hrs) as (Hp2 & Hco2 & Hdata & Hreplies).
  assert (∀ os l, spec_runs (op :: os) (r :: l) (db_data db) = spec_runs os l (db_data db1)) as Hs.
  { intros os l. cbn. destruct r as [[reply|e]|]; [by destruct Hspec as (_ & _ & ->)|by rewrite Hspec|by destruct Hspec as [-> _]]. }
  split_and!; [congruence|done|by rewrite Hdata, <-Hs|]. intros [|i] op' reply Hop Hrep.
  - cbn in Hop, Hrep. injection Hop as <-. injection Hrep as ->. destruct Hspec as (_ & _ & Hs0). cbn. by rewrite Hs0.
  - cbn in Hop, Hrep. rewrite <-(Hreplies i op' reply Hop Hrep). cbn [take fmap list_fmap snd]. by rewrite Hs.
Qed.

(** A panic poisons the lock, and from then on every operation is refused. *)
Lemma db_run_poisoned fault op db d : db_poisoned db = true → db_run fault op db d = (Some (Err Poisoned), db, d).
Proof. intros Hp. destruct op; cbn; unfold db_set, db_remove, db_update, db_replace; by rewrite Hp. Qed.

Lemma db_runs_poisoned ops db d rs db' d' :
  db_runs ops db d = (rs, db', d') → db_poisoned db = true → Forall (eq (Some (Err Poisoned))) rs ∧ db' = db.
Proof.
  revert rs. induction ops as [|[fault op] ops IH]; intros rs; cbn [db_runs]; [by intros [= <- <- <-]|].
  intros Hr Hp. rewrite db_run_poisoned in Hr by done. destruct (db_runs ops db d) as [[rs1 db2] d2] eqn:Hrs.
  injection Hr as <- <- <-. destruct (IH rs1 eq_refl Hp). by split; [constructor|].
Qed.

Lemma db_runs_panics `{JL : !DbJsonLaws T J} ops db d rs db' d' :
  tmp_path db ≠ db_path db → coherent db d → db_runs ops db d = (rs, db', d') → db_poisoned db = false →
  (db_poisoned db' = true ↔ None ∈ rs) ∧
  (∀ i j r, (i < j)%nat → rs !! i = Some None → rs !! j = Some r → r = Some (Err Poisoned)).
Proof.
  revert db d rs. induction ops as [|[fault op] ops IH]; intros db d rs Hne Hco; cbn [db_runs].
  { intros [= <- <- <-] Hp. split; [split; [by rewrite Hp|by intros ?%not_elem_of_nil]|done]. }
  destruct (db_run fault op db d) as [[r db1] d1] eqn:Hr. destruct (db_runs ops db1 d1) as [[rs1 db2] d2] eqn:Hrs.
  intros [= <- <- <-] Hp. destruct (db_run_spec _ _ _ _ _ _ _ Hne Hco Hr) as (Hpath & Hco1 & Hspec).
  assert (tmp_path db1 ≠ db_path db1) as Hne1 by (unfold tmp_path in *; by rewrite Hpath).
  assert (r = None ∧ db_poisoned db1 = true ∨ r ≠ None ∧ db_poisoned db1 = false) as [[-> H1]|[Hr' H1]].
  { destruct r as [[reply|e]|]; [right; by destruct Hspec as (_ & ? & _)|right; by subst|left; by destruct Hspec]. }
  - destruct (db_runs_poisoned _ _ _ _ _ _ Hrs H1) as [Hall ->]. split; [split; [by left|done]|].
    rewrite list.Forall_forall in Hall. intros [|i] [|j] r Hlt Hi Hj; [lia| |lia|].
    + symmetry. apply Hall. by eapply list_elem_of_lookup_2.
    + cbn in Hi. apply list_elem_of_lookup_2 in Hi. by apply Hall in Hi.
  - destruct (IH db1 d1 rs1 Hne1 Hco1 Hrs H1) as [Hiff Hafter]. split.
    + rewrite Hiff, elem_of_cons. split; [by right|]. intros [?|?]; [congruence|done].
    + intros [|i] [|j] r' Hlt Hi Hj; [lia| |lia|].
      * cbn in Hi. congruence.
      * cbn in Hi, Hj. eapply (Hafter i j); [lia|done..].
Qed.

(** C25. The local database is a map that survives its process.  Opened at a path that
    is not its own temporary file (the name does not end in [.tmp]), with an answer to
    whether the file exists, and whatever writes and renames fail afterwards: the
    database holds the map after the operations that returned successfully, starting
    from what the file held (nothing, if it is no database); they return what a map
    returns; those that returned an error change neither the map nor what the file
    holds; and a database opened on the file afterwards, when its file can be read,
    holds the same map.  An update whose function panics changes no data and poisons
    the lock: all later operations are refused. *)
Theorem local_db_refines_map `{JL : !DbJsonLaws T J} fault path d db d0 ops rs db' d' :
  with_extension path "tmp" ≠ path → of_stat fault = false → db_open fault path d = (Ok db, d0) →
  db_runs ops db d0 = (rs, db', d') →
  db_data db' = spec_runs ops.*2 rs (default ∅ (d !! path ≫= from_json)) ∧
  (∀ i op reply, ops.*2 !! i = Some op → rs !! i = Some (Some (Ok reply)) →
     (spec_op op (spec_runs (take i ops.*2) (take i rs) (default ∅ (d !! path ≫= from_json)))).1 = reply) ∧
  (∃ db2, db_open quiet path d' = (Ok db2, d') ∧ db_data db2 = db_data db') ∧
  (db_poisoned db' = true ↔ None ∈ rs) ∧
  (∀ i j r, (i < j)%nat → rs !! i = Some None → rs !! j = Some r → r = Some (Err Poisoned)).
Proof.
  intros Hne Hst Hopen Hrun. destruct (db_open_coherent _ _ _ _ _ Hst Hopen) as (Hco & <- & Hp & Hd).
  destruct (db_runs_refine _ _ _ _ _ _ Hne Hco Hrun) as (Hpath & Hco' & Hdata & Hreplies). rewrite <-Hd.
  destruct (db_runs_panics _ _ _ _ _ _ Hne Hco Hrun Hp) as [Hiff Hafter].
  split_and!; try done; [|apply Hiff..]. rewrite <-Hpath. by apply coherent_opens.
Qed.

End db.

(** ** A run *)

(** Maps in a text of their entries, as numbers in unary *)
Definition toy_encode (m : gmap string Z) : string := pretty (encode (map_to_list m)).
Definition toy_decode (s : string) : option (gmap string Z) :=
  match parse_digits (2 ^ 4096) 0 s with Some (Zpos p) => list_to_map <$> decode p | _ => None end.
#[local] Instance toy_db_json : DbJson Z := {|
  to_json m := if Z.pos (encode (map_to_list m)) <=? 2 ^ 4096 then Ok (toy_encode m) else Err "too long"%string;
  from_json := toy_decode;
|}.
#[local] Instance toy_db_json_laws : DbJsonLaws Z toy_db_json.
Proof.
  split. intros m s. cbn [to_json from_json toy_db_json]. destruct (Z.leb_spec (Z.pos (encode (map_to_list m))) (2 ^ 4096)) as [Hle|]; [|done].
  intros [= <-]. unfold toy_decode, toy_encode. change (pretty (encode (map_to_list m))) with (pretty (Z.pos (encode (map_to_list m)))).
  rewrite parse_digits_pretty by (split; [done|exact Hle]). rewrite decode_encode. cbn. f_equal. apply list_to_map_to_list.
Qed.

Definition demo_disk : gmap string string := {[ "data/db.json" := toy_encode {[ "a" := 1 ]} ]}.
Definition demo_db : LocalDatabase := mkDb "data/db.json" {[ "a" := 1 ]} false.
Definition demo_ops : list (Faults * DbOp) :=
  [(RenameFails, OpSet "b" 2); (NoFault, OpUpdate "a" (λ v, Some (v + 5))); (WriteFails None, OpRemove "a"); (NoFault, OpRemove "z")].

Lemma local_db_refines_map_witness :
  ∃ rs db' d', db_runs demo_ops demo_db demo_disk = (rs, db', d') ∧ db_data db' = {[ "a" := 6 ]}.
Proof.
  destruct (db_runs demo_ops demo_db demo_disk) as [[rs db'] d'] eqn:Hr. exists rs, db', d'. split; [reflexivity|].
  destruct (local_db_refines_map quiet "data/db.json" demo_disk demo_db demo_disk demo_ops rs db' d') as (-> & _);
    [by vm_compute|done| |exact Hr|].
  - unfold db_open. cbn [quiet of_parent of_stat of_read]. unfold demo_disk at 1. rewrite lookup_singleton_eq. cbv iota beta.
    rewrite (json_round_trip {[ "a" := 1 ]} (toy_encode {[ "a" := 1 ]})) by reflexivity. reflexivity.
  - apply (f_equal (λ p, p.1.1)) in Hr. cbn [fst] in Hr.
    assert (rs = [Some (Err (DbIo "rename")); Some (Ok (RUpdated true)); Some (Err (DbIo "write")); Some (Ok (RRemoved None))]) as ->
      by (rewrite <-Hr; vm_compute; reflexivity). vm_compute. reflexivity.
Defined.

(** A database whose own file ends in [.tmp] has no other file to write to: a failed
    write destroys it. *)
Lemma tmp_database_destroyed :
  let db := mkDb "data/db.tmp" {[ "a" := 1 ]} false in
  let d : gmap string string := {[ "data/db.tmp" := toy_encode {[ "a" := 1 ]} ]} in
  tmp_path db = db_path db ∧
  ∃ d', db_set (WriteFails (Some ""%string)) "b" 2 db d = (Err (DbIo "write"), db, d') ∧ d' !! "data/db.tmp"%string = Some ""%string.
Proof. split; [reflexivity|]. eexists. split; [vm_compute; reflexivity|]. reflexivity. Qed.

(** A file that is not a database opens as an empty one, which the next change
    writes over it. *)
Lemma unreadable_database_emptied :
  db_open quiet "db" {[ "db" := "{"%string ]} = (Ok (mkDb "db" (∅ : gmap string Z) false), {[ "db" := "{"%string ]}).
Proof. reflexivity. Qed.

(** A database whose existence cannot be told is opened as an empty one, and its file
    is overwritten at once. *)
Lemma stat_error_empties :
  let d : gmap string string := {[ "db" := toy_encode {[ "a" := 1 ]} ]} in
  db_open (mkOpenFaults false true false NoFault) "db" d
  = (Ok (mkDb "db" (∅ : gmap string Z) false), {[ "db" := toy_encode ∅ ]}).
Proof. vm_compute. reflexivity. Qed.
