(* ===== verification/Shell.v ===== *)
(** * Commands for a shell ([blueprint-remote-providers/src/deployment/secure_commands.rs],
      [secure_ssh.rs])

    Deployments run commands on other machines: texts that a shell there reads, sent by
    a command that a shell here reads.  [sh_parse] is what a POSIX shell makes of a text:
    the words of its simple commands, or nothing where the text has expansions,
    redirections or other syntax.  The builders of commands are compared with it.  The
    [shell_escape] crate is the class [ShellEscape] with its law. *)

From Stdlib Require Import ZArith Lia Ascii SpecFloat.
From stdpp Require Import base gmap sets list sorting strings pretty fin_maps numbers relations.
From S2P Require Import Prelude Bytes Text Float.

#[local] Open Scope Z_scope.

(** ** Reading by a shell *)

Definition is_alnum (a : ascii) : bool :=
  let n := N_of_ascii a in (is_digit a || ((65 <=? n) && (n <=? 90)) || ((97 <=? n) && (n <=? 122)))%N.
Definition one_of (s : string) (a : ascii) : bool := existsb (λ b, bool_decide (a = b)) (chars s).
Definition newline : ascii := ascii_of_N 10.
(** Characters that stand for themselves *)
Definition plain (a : ascii) : bool := is_alnum a || one_of "-_./,:@+%^=" a.
Definition blank (a : ascii) : bool := one_of " " a || bool_decide (a = ascii_of_N 9).
Definition separator (a : ascii) : bool := one_of ";&|" a || bool_decide (a = newline).

(** Words that a shell takes as syntax at the start of a command *)
Definition reserved (w : string) : bool :=
  bool_decide (w ∈ ["if"; "then"; "else"; "elif"; "fi"; "do"; "done"; "case"; "esac"; "while"; "until"; "for"; "in"; "function"; "select"; "time"; "coproc"]%string).

Definition push_word (cur : option string) (words : list string) : list string := words ++ option_list cur.
Definition snoc (s : string) (a : ascii) : string := s +:+ String a EmptyString.
Definition push_command (words : list string) (cmds : list (list string)) : option (list (list string)) :=
  match words with
  | [] => Some cmds
  | w :: _ => if reserved w then None else Some (cmds ++ [words])
  end.

(** The reader: whether it is inside single quotes, the commands and the words read, the
    word at which it is.  An unquoted [=] in the first word is an assignment. *)
Fixpoint sh_read (quoted : bool) (cmds : list (list string)) (words : list string) (cur : option string) (s : string)
    : option (list (list string)) :=
  match s with
  | EmptyString => if quoted then None else push_command (push_word cur words) cmds
  | String a s =>
      if quoted then
        if bool_decide (a = "'"%char) then sh_read false cmds words cur s
        else sh_read true cmds words (Some (snoc (default EmptyString cur) a)) s
      else if blank a then sh_read false cmds (push_word cur words) None s
      else if separator a then
        match push_command (push_word cur words) cmds with Some cmds => sh_read false cmds [] None s | None => None end
      else if bool_decide (a = "'"%char) then sh_read true cmds words (Some (default EmptyString cur)) s
      else if bool_decide (a = "\"%char) then
        match s with
        | EmptyString => None
        | String b s =>
            if bool_decide (b = newline) then sh_read false cmds words cur s
            else sh_read false cmds words (Some (snoc (default EmptyString cur) b)) s
        end
      else if bool_decide (a = "="%char) && bool_decide (words = []) then None
      else if plain a then sh_read false cmds words (Some (snoc (default EmptyString cur) a)) s
      else None
  end.
Definition sh_parse : string → option (list (list string)) := sh_read false [] [] None.

Example sh_quotes : sh_parse "docker run -e K='a b'\''c' img" = Some [["docker"; "run"; "-e"; "K=a b'c"; "img"]]%string.
Proof. reflexivity. Qed.
Example sh_two : sh_parse "docker stop x; rm -r y" = Some [["docker"; "stop"; "x"]; ["rm"; "-r"; "y"]]%string.
Proof. reflexivity. Qed.

(** [shell_escape::escape]: what it makes of a text is read back as that text, whatever
    comes before and after in the word *)
Class ShellEscape := { escape : string → string }.
Class ShellEscapeLaws `{ShellEscape} := {
  escape_read cmds words cur s rest :
    words ≠ [] ∨ lacks "=" s →
    sh_read false cmds words cur (escape s +:+ rest) = sh_read false cmds words (Some (default EmptyString cur +:+ s)) rest;
}.

(** ** Errors *)

(** [core/error.rs], without the errors of the optional cloud libraries *)
Inductive RemoteError :=
| ConfigurationError (e : string) | ClusterNotFound (e : string) | NetworkError (e : string) | RemoteIo (e : string)
| ProviderNotConfigured (provider : string) | SerializationError (e : string) | HttpError (e : string) | RemoteOther (e : string).

(** ** Building container commands *)

Definition starts_with (p s : string) : bool := String.prefix p s.
Definition str_len (s : string) : Z := Z.of_nat (String.length s).

(** [is_valid_image_name], [is_valid_container_id] *)
Definition dangerous_chars : string := ";&|`$(){}[]<>'\".
Definition dangerous (a : ascii) : bool := one_of dangerous_chars a || bool_decide (a = ascii_of_N 34).
Definition is_valid_image_name (image : string) : bool :=
  if bool_decide (image = ""%string) || (255 <? str_len image) then false
  else if existsb dangerous (chars image) then false
  else if starts_with "/" image || starts_with "-" image || starts_with "." image then false
  else forallb (λ a, is_alnum a || one_of "-._/:@" a) (chars image).
Definition is_valid_container_id (id : string) : bool :=
  if bool_decide (id = ""%string) || (64 <? str_len id) then false else forallb is_alnum (chars id).

(** [validate_env_vars] *)
Definition suspicious_patterns : list string :=
  [";"; "&&"; "||"; "|"; "`"; "$("; "${"; ")"; "}"; "curl "; "wget "; "nc "; "netcat"; "/bin/"; "/usr/bin/"; "bash"; "sh "; "exec"; "eval";
   "base64"; "echo '"; "cat "]%string.
Definition validate_env_var (kv : string * string) : result RemoteError unit :=
  let '(key, value) := kv in
  if bool_decide (key = ""%string) || (255 <? str_len key) then Err (ConfigurationError ("Invalid environment variable name length: " +:+ key))
  else if negb (forallb (λ a, is_alnum a || one_of "_" a) (chars key)) then
    Err (ConfigurationError ("Invalid environment variable name: " +:+ key +:+ ". Names must be alphanumeric + underscore."))
  else if 4096 <? str_len value then Err (ConfigurationError ("Environment variable value too long: " +:+ key +:+ " (max 4096 chars)"))
  else match List.find (λ p, contains p value) suspicious_patterns with
       | Some p => Err (ConfigurationError ("Suspicious pattern '" +:+ p +:+ "' detected in environment variable '" +:+ key +:+ "': " +:+ value))
       | None => Ok tt
       end.
Definition validate_env_vars (env : gmap string string) : result RemoteError unit :=
  _ ← traverse validate_env_var (map_to_list env); Ok tt.

(** [validate_resource_limits], [format_cpu_limit]; the value in the message of a wrong
    number of cores is not kept *)
Definition positive_float (x : spec_float) : option (positive * Z) := match x with S754_finite false m e => Some (m, e) | _ => None end.
Definition float_32 : spec_float := S754_finite false 1 5.
Definition validate_resource_limits (cpu_cores : option spec_float) (memory_mb disk_gb : option Z) : result RemoteError unit :=
  _ ← match cpu_cores with
      | Some cpu =>
          if negb (SFltb (S754_zero false) cpu) || SFltb float_32 cpu || negb (match cpu with S754_finite _ _ _ | S754_zero _ => true | _ => false end)
          then Err (ConfigurationError "Invalid CPU limit. Must be between 0.1 and 32.0 cores.") else Ok tt
      | None => Ok tt
      end;
  _ ← match memory_mb with
      | Some memory =>
          if (memory =? 0) || (128 * 1024 <? memory) then Err (ConfigurationError ("Invalid memory limit: " +:+ pretty memory +:+ "MB. Must be between 1MB and 128GB.")) else Ok tt
      | None => Ok tt
      end;
  match disk_gb with
  | Some disk => if (disk =? 0) || (1024 <? disk) then Err (ConfigurationError ("Invalid disk limit: " +:+ pretty disk +:+ "GB. Must be between 1GB and 1TB.")) else Ok tt
  | None => Ok tt
  end.
Definition format_cpu_limit (cpu : spec_float) : result RemoteError string :=
  match positive_float cpu with Some (m, e) => Ok (fixed2 m e) | None => Err (ConfigurationError "Invalid CPU value") end.

(** The fixed options of a container *)
Definition hardening : string :=
  " --user 1000:1000 --read-only --tmpfs /tmp:noexec,nosuid,size=100m --tmpfs /var/run:noexec,nosuid,size=100m --cap-drop ALL --cap-add NET_BIND_SERVICE --security-opt no-new-privileges --pids-limit 256 --ulimit nproc=256 --ulimit nofile=1024 --memory-swappiness=0 -p 127.0.0.1:8080:8080 -p 127.0.0.1:9615:9615 -p 127.0.0.1:9944:9944".

Section commands.
  Context `{SE : ShellEscape}.

(** [build_pull_command] *)
Definition build_pull_command (runtime image : string) : result RemoteError string :=
  if negb (is_valid_image_name image) then
    Err (ConfigurationError ("Invalid image name: " +:+ image +:+ ". Image names must follow Docker naming conventions."))
  else Ok (escape runtime +:+ " pull " +:+ escape image).

(** [build_create_command]; the timestamp is that of the clock *)
Definition env_option (kv : string * string) : string := " -e " +:+ escape kv.1 +:+ "=" +:+ escape kv.2.
Definition build_create_command (now : Z) (runtime image : string) (env : gmap string string) (cpu_cores : option spec_float)
    (memory_mb disk_gb : option Z) : result RemoteError string :=
  if negb (is_valid_image_name image) then Err (ConfigurationError ("Invalid image name: " +:+ image))
  else
    _ ← validate_env_vars env;
    _ ← validate_resource_limits cpu_cores memory_mb disk_gb;
    cpu ← match cpu_cores with Some cpu => t ← format_cpu_limit cpu; Ok (" --cpus=" +:+ t) | None => Ok ""%string end;
    Ok (escape runtime +:+ " create" +:+ cpu
        +:+ match memory_mb with Some mem => " --memory=" +:+ pretty mem +:+ "m" | None => ""%string end
        +:+ match disk_gb with Some disk => " --storage-opt size=" +:+ pretty disk +:+ "G" | None => ""%string end
        +:+ foldr (λ kv s, env_option kv +:+ s) ""%string (map_to_list env)
        +:+ hardening +:+ " --name blueprint-" +:+ pretty now +:+ " " +:+ escape image).

(** [build_container_command] *)
Definition valid_actions : list string := ["start"; "stop"; "logs"; "inspect"; "rm"]%string.
Definition build_container_command (runtime action container_id : string) (follow_logs : option bool) : result RemoteError string :=
  if negb (is_valid_container_id container_id) then
    Err (ConfigurationError ("Invalid container ID: " +:+ container_id +:+ ". Container IDs must be alphanumeric."))
  else if negb (bool_decide (action ∈ valid_actions)) then Err (ConfigurationError ("Invalid container action: " +:+ action))
  else if bool_decide (action = "logs"%string) && default false follow_logs then
    Ok (escape runtime +:+ " " +:+ escape action +:+ " -f " +:+ escape container_id)
  else Ok (escape runtime +:+ " " +:+ escape action +:+ " " +:+ escape container_id).

(** ** The connection *)

Record SecureSshConnection := mkSecureSsh {
  ss_host : string; ss_port : Z; ss_user : string; ss_key_path : option string; ss_jump_host : option string;
  ss_known_hosts : option string; ss_strict : bool;
}.
(** [validate_hostname], [validate_username] *)
Definition ssh_dangerous (a : ascii) : bool := one_of ";&|`$(){}<>'\" a || bool_decide (a = ascii_of_N 34).
Definition validate_hostname (host : string) : result RemoteError unit :=
  if bool_decide (host = ""%string) || (253 <? str_len host) then Err (ConfigurationError "Invalid hostname length")
  else if existsb ssh_dangerous (chars host) then Err (ConfigurationError ("Hostname contains dangerous characters: " +:+ host))
  else if negb (forallb (λ a, is_alnum a || one_of "-._" a) (chars host)) then Err (ConfigurationError ("Invalid hostname format: " +:+ host))
  else Ok tt.
Definition validate_username (user : string) : result RemoteError unit :=
  if bool_decide (user = ""%string) || (32 <? str_len user) then Err (ConfigurationError "Invalid username length")
  else if existsb ssh_dangerous (chars user) then Err (ConfigurationError ("Username contains dangerous characters: " +:+ user))
  else if negb (forallb (λ a, is_alnum a || one_of "-_" a) (chars user)) then Err (ConfigurationError ("Invalid username format: " +:+ user))
  else Ok tt.
(** [validate_key_path]: [exists] is the file system's answer *)
Definition validate_key_path (exists_ : string → bool) (path : string) : result RemoteError unit :=
  if contains "../" path || contains "..\" path then Err (ConfigurationError "Path traversal detected in key path")
  else if negb (exists_ path) then Err (ConfigurationError ("SSH key file does not exist: " +:+ path))
  else Ok tt.

Definition ssh_connection_new (host user : string) : result RemoteError SecureSshConnection :=
  _ ← validate_hostname host; _ ← validate_username user; Ok (mkSecureSsh host 22 user None None None true).
Definition with_port (port : Z) (c : SecureSshConnection) : result RemoteError SecureSshConnection :=
  if port =? 0 then Err (ConfigurationError ("Invalid SSH port: " +:+ pretty port))
  else Ok (mkSecureSsh (ss_host c) port (ss_user c) (ss_key_path c) (ss_jump_host c) (ss_known_hosts c) (ss_strict c)).
Definition with_key_path (exists_ : string → bool) (path : string) (c : SecureSshConnection) : result RemoteError SecureSshConnection :=
  _ ← validate_key_path exists_ path;
  Ok (mkSecureSsh (ss_host c) (ss_port c) (ss_user c) (Some path) (ss_jump_host c) (ss_known_hosts c) (ss_strict c)).
Definition with_jump_host (jump : string) (c : SecureSshConnection) : result RemoteError SecureSshConnection :=
  _ ← validate_hostname jump;
  Ok (mkSecureSsh (ss_host c) (ss_port c) (ss_user c) (ss_key_path c) (Some jump) (ss_known_hosts c) (ss_strict c)).
Definition with_known_hosts (path : string) (c : SecureSshConnection) : SecureSshConnection :=
  mkSecureSsh (ss_host c) (ss_port c) (ss_user c) (ss_key_path c) (ss_jump_host c) (Some path) (ss_strict c).
Definition with_strict_host_checking (strict : bool) (c : SecureSshConnection) : SecureSshConnection :=
  mkSecureSsh (ss_host c) (ss_port c) (ss_user c) (ss_key_path c) (ss_jump_host c) (ss_known_hosts c) strict.

(** [validate_command] *)
Definition ALLOWED_CMD_PREFIXES : list string :=
  ["echo "; "docker "; "podman "; "ctr "; "sudo "; "mkdir "; "chmod "; "systemctl "; "apt-get "; "curl "; "nginx "; "cat "; "tee "; "install ";
   "test "; "ls "; "cp "; "mv "; "rm "; "tar "; "sysctl "; "journalctl "; "grep "; "head "; "tail "; "stat "; "uname "; "whoami"; "id "; "ip ";
   "#"; String newline EmptyString]%string.
Definition command_dangers : list string := ["rm -rf /"; ":(){ :|:& };:"; "dd if=/dev/zero"; "mkfs."; "fdisk"; "parted"]%string.
(** [str::lines]: a carriage return before the end of a line goes with it *)
Fixpoint without_last_empty (l : list string) : list string :=
  match l with [] => [] | [""%string] => [] | x :: l => x :: without_last_empty l end.
Definition without_cr (s : string) : string := if ends_with (String (ascii_of_N 13) EmptyString) s then String.substring 0 (String.length s - 1) s else s.
Definition lines (s : string) : list string := without_cr <$> without_last_empty (split_char newline s).
Definition lines_of (l : list string) : string := foldr (λ x s, x +:+ String newline s) ""%string l.
Definition allowed_line (line : string) : bool :=
  let line := trim line in
  bool_decide (line = ""%string) || starts_with "#" line || existsb (λ p, starts_with p line) ALLOWED_CMD_PREFIXES.
Definition validate_command (command : string) : result RemoteError unit :=
  if bool_decide (command = ""%string) then Err (ConfigurationError "Empty command not allowed")
  else if 8192 <? str_len command then Err (ConfigurationError "Command too long")
  else if existsb (λ a, bool_decide (a = ascii_of_N 0)) (chars command) then Err (ConfigurationError "Command contains null bytes")
  else match List.find (λ l, negb (allowed_line l)) (lines (trim command)) with
       | Some line => Err (ConfigurationError ("Command not in allowlist: " +:+ String.substring 0 80 (trim line)))
       | None =>
           match List.find (λ p, contains p command) command_dangers with
           | Some p => Err (ConfigurationError ("Dangerous command pattern detected: " +:+ p))
           | None => Ok tt
           end
       end.

(** [build_secure_ssh_command], [build_secure_scp_command] *)
Definition host_key_options (c : SecureSshConnection) : string :=
  if ss_strict c then
    " -o StrictHostKeyChecking=yes" +:+ match ss_known_hosts c with Some p => " -o UserKnownHostsFile=" +:+ escape p | None => ""%string end
  else " -o StrictHostKeyChecking=no -o UserKnownHostsFile=/dev/null".
Definition build_secure_ssh_command (c : SecureSshConnection) (command : string) : string :=
  "ssh" +:+ host_key_options c
  +:+ " -o ConnectTimeout=30 -o ServerAliveInterval=60 -o ServerAliveCountMax=3 -o BatchMode=yes"
  +:+ (if ss_port c =? 22 then "" else " -p " +:+ pretty (ss_port c))
  +:+ match ss_key_path c with Some p => " -i " +:+ escape p | None => ""%string end
  +:+ match ss_jump_host c with Some j => " -J " +:+ escape j | None => ""%string end
  +:+ " " +:+ escape (ss_user c) +:+ "@" +:+ escape (ss_host c) +:+ " " +:+ escape command.
Definition build_secure_scp_command (c : SecureSshConnection) (local_path remote_path : string) : string :=
  "scp" +:+ host_key_options c
  +:+ (if ss_port c =? 22 then "" else " -P " +:+ pretty (ss_port c))
  +:+ match ss_key_path c with Some p => " -i " +:+ escape p | None => ""%string end
  +:+ " " +:+ escape local_path +:+ " " +:+ escape (ss_user c) +:+ "@" +:+ escape (ss_host c) +:+ ":" +:+ escape remote_path.

(** [validate_local_path], [validate_remote_path] *)
Definition validate_local_path (exists_ : string → bool) (path : string) : result RemoteError unit :=
  if negb (exists_ path) then Err (ConfigurationError ("Local file does not exist: " +:+ path))
  else if contains "../" path || contains "..\" path then Err (ConfigurationError "Path traversal detected in local path")
  else Ok tt.
Definition remote_dangerous (a : ascii) : bool := one_of ";&|`$(){}<>\" a || bool_decide (a = ascii_of_N 34).
Definition validate_remote_path (path : string) : result RemoteError unit :=
  if bool_decide (path = ""%string) then Err (ConfigurationError "Empty remote path")
  else if 4096 <? str_len path then Err (ConfigurationError "Remote path too long")
  else if existsb remote_dangerous (chars path) then Err (ConfigurationError ("Remote path contains dangerous characters: " +:+ path))
  else Ok tt.

End commands.

(** ** What a shell makes of the commands *)

Lemma snoc_app s a t : snoc s a +:+ t = s +:+ String a t.
Proof. unfold snoc. by rewrite append_assoc. Qed.
Lemma string_app_nil s : s +:+ "" = s.
Proof. induction s as [|a s IH]; [done|]. change (String a s +:+ "") with (String a (s +:+ "")). by rewrite IH. Qed.

Definition plain_word (w : string) : Prop := w ≠ ""%string ∧ Forall (λ a, plain a = true) (chars w).

(** Plain characters are no blanks, separators or quotes. *)
Lemma plain_other a : plain a = true → blank a = false ∧ separator a = false ∧ a ≠ "'"%char ∧ a ≠ "\"%char.
Proof.
  destruct a as [b0 b1 b2 b3 b4 b5 b6 b7].
  destruct b0, b1, b2, b3, b4, b5, b6, b7; vm_compute; intros H; (discriminate H || (split_and!; (reflexivity || discriminate))).
Qed.

Lemma sh_read_plain cmds words cur s rest :
  words ≠ [] ∨ lacks "=" s → Forall (λ a, plain a = true) (chars s) → s ≠ ""%string →
  sh_read false cmds words cur (s +:+ rest) = sh_read false cmds words (Some (default ""%string cur +:+ s)) rest.
Proof.
  revert cur. induction s as [|a s IH]; intros cur Hw Hs Hne; [done|]. cbn [chars] in Hs. inversion_clear Hs as [|? ? Ha Hs'].
  destruct (plain_other a Ha) as (Hb & Hsp & Hq & Hbs). change (String a s +:+ rest) with (String a (s +:+ rest)). cbn [sh_read].
  assert (bool_decide (a = "="%char) && bool_decide (words = []) = false) as ->.
  { destruct Hw as [Hw|Hw]; [by rewrite (bool_decide_eq_false_2 (words = [])), andb_false_r|]. unfold lacks in Hw. cbn [chars] in Hw.
    inversion_clear Hw. by rewrite bool_decide_eq_false_2. }
  rewrite Hb, Hsp, (bool_decide_eq_false_2 (a = "'"%char)), (bool_decide_eq_false_2 (a = "\"%char)), Ha by done.
  destruct s as [|b s]; [done|]. rewrite IH; [|destruct Hw as [Hw|Hw]; [by left|right; by inversion_clear Hw]|done..].
  change (default ""%string (Some ?x)) with x. by rewrite snoc_app.
Qed.

(** A word in parts, literal ones and escaped ones *)
Inductive part := Lit (s : string) | Esc (s : string).
Definition part_text (p : part) : string := match p with Lit s | Esc s => s end.
Definition part_ok (p : part) : Prop := match p with Lit s => plain_word s | Esc _ => True end.
Definition word_text (w : list part) : string := foldr (λ p s, part_text p +:+ s) ""%string w.

Section reading.
  Context `{SE : ShellEscape} `{SL : !ShellEscapeLaws}.

Definition part_render (p : part) : string := match p with Lit s => s | Esc s => escape s end.
Definition word_render (w : list part) : string := foldr (λ p s, part_render p +:+ s) ""%string w.
Definition line_render (l : list (list part)) : string := foldr (λ w s, " " +:+ word_render w +:+ s) ""%string l.
Definition word_ok (w : list part) : Prop := w ≠ [] ∧ Forall part_ok w.

Lemma sh_read_parts cmds words cur w rest :
  words ≠ [] → Forall part_ok w → w ≠ [] →
  sh_read false cmds words cur (word_render w +:+ rest) = sh_read false cmds words (Some (default ""%string cur +:+ word_text w)) rest.
Proof.
  intros Hw. revert cur. induction w as [|p w IH]; intros cur Hp Hne; [done|]. inversion_clear Hp as [|? ? Hp0 Hp'].
  cbn [word_render word_text foldr]. rewrite append_assoc. fold (word_render w) (word_text w).
  assert (Hstep : ∀ r, sh_read false cmds words cur (part_render p +:+ r) = sh_read false cmds words (Some (default ""%string cur +:+ part_text p)) r).
  { intros r. destruct p as [s|s]; cbn in *; [destruct Hp0; apply sh_read_plain; [by left|done..]|apply escape_read; by left]. }
  rewrite Hstep. destruct w as [|q w]; [change (word_text []) with EmptyString; change (word_render [] +:+ rest) with rest; by rewrite string_app_nil|]. rewrite IH by done. change (default ""%string (Some ?x)) with x. by rewrite append_assoc.
Qed.

(** A line of words after an open one *)
Lemma sh_read_line cmds words w l :
  Forall word_ok l →
  sh_read false cmds words (Some w) (line_render l) = push_command (words ++ w :: (word_text <$> l)) cmds.
Proof.
  revert words w. induction l as [|v l IH]; intros words w Hl; [done|]. inversion_clear Hl as [|? ? [Hv Hp] Hl'].
  cbn [line_render foldr]. change (" " +:+ ?x) with (String " " x). cbn [sh_read]. change (blank " ") with true. cbn iota.
  rewrite sh_read_parts by (try done; unfold push_word; by destruct words). cbn [default from_option String.app].
  rewrite IH by done. unfold push_word. cbn [option_list]. by rewrite <- app_assoc.
Qed.

(** The command of a builder *)
Lemma sh_parse_line w l :
  lacks "=" w → reserved w = false → Forall word_ok l → sh_parse (escape w +:+ line_render l) = Some [w :: (word_text <$> l)].
Proof.
  intros Hl Hr Hw. unfold sh_parse. rewrite escape_read by (by right). cbn [default from_option String.app]. rewrite sh_read_line by done.
  change ("" +:+ w) with w. cbn [app push_command]. by rewrite Hr.
Qed.

Lemma line_render_app l k : line_render (l ++ k) = line_render l +:+ line_render k.
Proof. unfold line_render. induction l as [|w l IH]; [done|]. cbn [app foldr]. rewrite IH. by rewrite !append_assoc. Qed.

End reading.

(** Numbers are plain. *)
Lemma digit_plain a : is_digit a = true → plain a = true.
Proof. intros H. unfold plain, is_alnum. by rewrite H. Qed.
Lemma pretty_nonempty x : 0 ≤ x → pretty x ≠ ""%string.
Proof. intros Hx E. pose proof (parse_digits_pretty x x ltac:(lia)) as H. rewrite E in H. cbn in H. by simplify_eq. Qed.
Lemma plain_word_app v w : Forall (λ a, plain a = true) (chars v) → plain_word w → plain_word (v +:+ w).
Proof. intros Hv [Hne Hw]. split; [by destruct v|]. rewrite chars_app. by apply Forall_app. Qed.
Lemma pretty_plain (x : Z) : plain_word (pretty x).
Proof.
  assert (Hpos : ∀ y : Z, 0 ≤ y → plain_word (pretty y)).
  { intros y Hy. split; [by apply pretty_nonempty|]. eapply Forall_impl; [by apply pretty_digits|]. intros. by apply digit_plain. }
  destruct x as [|p|p]; [by apply Hpos|by apply Hpos|]. change (pretty (Z.neg p)) with ("-" +:+ pretty (Z.pos p)).
  apply plain_word_app; [by repeat constructor|by apply Hpos].
Qed.
Lemma fixed2_plain m e : plain_word (fixed2 m e).
Proof.
  unfold fixed2. set (n := if 0 <=? e then _ else _). do 3 (apply plain_word_app; [apply pretty_plain || by repeat constructor|]). apply pretty_plain.
Qed.

Definition plainb (w : string) : bool := negb (bool_decide (w = ""%string)) && forallb plain (chars w).
Lemma plainb_word w : plainb w = true → plain_word w.
Proof. unfold plainb. rewrite andb_true_iff, negb_true_iff, bool_decide_eq_false, forallb_forall. intros [? H]. split; [done|]. by apply List.Forall_forall. Qed.

(** The words of the commands *)
Definition hardening_words : list string :=
  ["--user"; "1000:1000"; "--read-only"; "--tmpfs"; "/tmp:noexec,nosuid,size=100m"; "--tmpfs"; "/var/run:noexec,nosuid,size=100m"; "--cap-drop"; "ALL";
   "--cap-add"; "NET_BIND_SERVICE"; "--security-opt"; "no-new-privileges"; "--pids-limit"; "256"; "--ulimit"; "nproc=256"; "--ulimit"; "nofile=1024";
   "--memory-swappiness=0"; "-p"; "127.0.0.1:8080:8080"; "-p"; "127.0.0.1:9615:9615"; "-p"; "127.0.0.1:9944:9944"]%string.
Definition cpu_text (cpu : spec_float) : string := match positive_float cpu with Some (m, e) => fixed2 m e | None => "" end.
Definition create_argv (now : Z) (runtime image : string) (env : list (string * string)) (cpu_cores : option spec_float) (memory_mb disk_gb : option Z)
    : list string :=
  [runtime; "create"%string]
  ++ match cpu_cores with Some cpu => ["--cpus=" +:+ cpu_text cpu] | None => [] end
  ++ match memory_mb with Some mem => ["--memory=" +:+ pretty mem +:+ "m"] | None => [] end
  ++ match disk_gb with Some disk => ["--storage-opt"%string; "size=" +:+ pretty disk +:+ "G"] | None => [] end
  ++ (env ≫= λ kv, ["-e"%string; kv.1 +:+ "=" +:+ kv.2])
  ++ hardening_words ++ ["--name"%string; "blueprint-" +:+ pretty now; image].

(** ** Commands on the remote host *)

Section exact.
  Context `{SE : ShellEscape} `{SL : !ShellEscapeLaws}.

Definition lits (l : list string) : list (list part) := (λ s, [Lit s]) <$> l.
Lemma lits_ok l : Forall plain_word l → Forall word_ok (lits l).
Proof. intros H. apply Forall_fmap. eapply Forall_impl; [exact H|]. intros s Hs. split; [done|]. by constructor. Qed.
Lemma lits_text l : word_text <$> lits l = l.
Proof. unfold lits. rewrite <- list_fmap_compose. rewrite <- (list_fmap_id l) at 2. apply list_fmap_ext. intros i x _. apply string_app_nil. Qed.

Lemma line_render_cons w l : line_render (w :: l) = String " " (word_render w +:+ line_render l).
Proof. done. Qed.
Lemma word_render_one p : word_render [p] = part_render p.
Proof. apply string_app_nil. Qed.

Lemma word_text_one p : word_text [p] = part_text p.
Proof. apply string_app_nil. Qed.

Definition env_words (env : list (string * string)) : list (list part) := env ≫= λ kv, [[Lit "-e"]; [Esc kv.1; Lit "="; Esc kv.2]].
Lemma env_words_render env : foldr (λ kv s, env_option kv +:+ s) ""%string env = line_render (env_words env).
Proof.
  induction env as [|[k v] env IH]; [done|]. cbn [foldr]. rewrite IH. unfold env_words. rewrite bind_cons.
  cbn [app]. rewrite !line_render_cons, word_render_one. unfold env_option, word_render. cbn [foldr part_render fst snd]. by rewrite string_app_nil, !append_assoc.
Qed.
Lemma env_words_text env : word_text <$> env_words env = env ≫= λ kv, ["-e"%string; kv.1 +:+ "=" +:+ kv.2].
Proof.
  induction env as [|[k v] env IH]; [done|]. unfold env_words in *. rewrite !bind_cons, fmap_app, IH. unfold word_text. cbn [fmap list_fmap foldr part_text fst snd].
  by rewrite !string_app_nil.
Qed.
Lemma env_words_ok env : Forall word_ok (env_words env).
Proof.
  induction env as [|[k v] env IH]; [constructor|]. unfold env_words. rewrite bind_cons. apply Forall_app. split; [|exact IH].
  repeat constructor; (done || by apply plainb_word).
Qed.

Ltac plain_words := repeat constructor; (done || by apply plainb_word).

(** The line of a created container *)
Definition create_line (now : Z) (image : string) (env : list (string * string)) (cpu_cores : option spec_float) (memory_mb disk_gb : option Z)
    : list (list part) :=
  lits ["create"%string]
  ++ lits match cpu_cores with Some cpu => ["--cpus=" +:+ cpu_text cpu] | None => [] end
  ++ lits match memory_mb with Some mem => ["--memory=" +:+ pretty mem +:+ "m"] | None => [] end
  ++ lits match disk_gb with Some disk => ["--storage-opt"%string; "size=" +:+ pretty disk +:+ "G"] | None => [] end
  ++ env_words env ++ lits hardening_words ++ lits ["--name"%string; "blueprint-" +:+ pretty now] ++ [[Esc image]].

Lemma create_line_text now rt image env cpu mem disk :
  rt :: (word_text <$> create_line now image env cpu mem disk) = create_argv now rt image env cpu mem disk.
Proof.
  unfold create_line, create_argv. rewrite !fmap_app, !lits_text, env_words_text. unfold word_text. cbn [fmap list_fmap foldr part_text].
  by rewrite string_app_nil.
Qed.

Lemma create_line_ok now image env cpu mem disk :
  match cpu with Some c => is_Some (positive_float c) | None => True end → Forall word_ok (create_line now image env cpu mem disk).
Proof.
  intros Hc. unfold create_line. repeat (apply Forall_app; split); try apply lits_ok; try apply env_words_ok.
  - plain_words.
  - destruct cpu as [c|]; [|constructor]. destruct Hc as [[m e] Hc]. unfold cpu_text. rewrite Hc. constructor; [|constructor].
    apply plain_word_app; [plain_words|apply fixed2_plain].
  - destruct mem; [|constructor]. constructor; [|constructor]. apply plain_word_app; [plain_words|]. 
    apply plain_word_app; [apply pretty_plain|by apply plainb_word].
  - destruct disk; [|constructor]. constructor; [by apply plainb_word|]. constructor; [|constructor]. apply plain_word_app; [plain_words|].
    apply plain_word_app; [apply pretty_plain|by apply plainb_word].
  - unfold hardening_words. plain_words.
  - constructor; [by apply plainb_word|]. constructor; [|constructor]. apply plain_word_app; [plain_words|apply pretty_plain].
  - plain_words.
Qed.

Lemma lits_render l : line_render (lits l) = foldr (λ w s, " " +:+ w +:+ s) ""%string l.
Proof. induction l as [|w l IH]; [done|]. change (lits (w :: l)) with ([Lit w] :: lits l). by rewrite line_render_cons, word_render_one, IH. Qed.

(** The runtimes are words that a shell takes as commands. *)
Definition command_word (w : string) : Prop := lacks "=" w ∧ reserved w = false.

Lemma limits_positive cpu mem disk u :
  validate_resource_limits cpu mem disk = Ok u → match cpu with Some c => is_Some (positive_float c) | None => True end.
Proof.
  unfold validate_resource_limits. destruct cpu as [[[]|[]| |[] m e]|]; try done; cbn [positive_float]; try (intros _; by eexists).
Qed.

Lemma create_command_read now rt image env cpu mem disk cmd :
  command_word rt → build_create_command now rt image env cpu mem disk = Ok cmd →
  is_valid_image_name image = true ∧ sh_parse cmd = Some [create_argv now rt image (map_to_list env) cpu mem disk].
Proof.
  intros [Hl Hr]. unfold build_create_command. destruct (is_valid_image_name image) eqn:Hi; cbn [negb]; [|done].
  destruct (validate_env_vars env); cbn [mbind result_bind]; [|done].
  destruct (validate_resource_limits cpu mem disk) as [u|] eqn:Hv; cbn [mbind result_bind]; [|done]. apply limits_positive in Hv as Hc.
  destruct (match cpu with Some cpu0 => _ | None => _ end) as [cs|] eqn:Hcs; cbn [mbind result_bind]; [|done]. intros [= <-]. split; [done|].
  rewrite <- (create_line_text now rt), <- sh_parse_line by (done || by apply create_line_ok). f_equal. f_equal.
  unfold create_line. rewrite !line_render_app, !lits_render, <- env_words_render, line_render_cons, word_render_one. cbn [foldr].
  assert (cs = foldr (λ w s, " " +:+ w +:+ s) ""%string match cpu with Some c => ["--cpus=" +:+ cpu_text c] | None => [] end) as ->.
  { destruct cpu as [c|]; [|by simplify_eq]. destruct Hc as [[m e] Hc]. unfold format_cpu_limit in Hcs. rewrite Hc in Hcs. cbn in Hcs. simplify_eq.
    unfold cpu_text. rewrite Hc. cbn [foldr]. by rewrite string_app_nil. }
  destruct mem, disk; cbn [foldr]; unfold part_render; rewrite ?string_app_nil, ?append_assoc; reflexivity.
Qed.

(** Lines whose literal parts are given are checked by evaluation. *)
Definition word_okb (w : list part) : bool :=
  negb (bool_decide (length w = O)) && forallb (λ p, match p with Lit s => plainb s | Esc _ => true end) w.
Lemma line_okb l : forallb word_okb l = true → Forall word_ok l.
Proof.
  intros H. apply List.Forall_forall. intros w Hw. rewrite forallb_forall in H. specialize (H w Hw). unfold word_okb in H.
  apply andb_true_iff in H as [Hne Hp]. apply negb_true_iff, bool_decide_eq_false in Hne. split; [by intros ->|].
  apply List.Forall_forall. intros q Hq. rewrite forallb_forall in Hp. specialize (Hp q Hq). destruct q; [by apply plainb_word|done].
Qed.

(** The other container commands *)
Lemma line_parsed w l words :
  command_word w → Forall word_ok l → (word_text <$> l) = words → sh_parse (escape w +:+ line_render l) = Some [w :: words].
Proof. intros [??] ? <-. by apply sh_parse_line. Qed.
Lemma pull_command_read rt image cmd :
  command_word rt → build_pull_command rt image = Ok cmd → is_valid_image_name image = true ∧ sh_parse cmd = Some [[rt; "pull"; image]]%string.
Proof.
  intros Hrt. unfold build_pull_command. destruct (is_valid_image_name image); cbn [negb]; [|done]. intros [= <-]. split; [done|].
  rewrite <- (line_parsed rt [[Lit "pull"]; [Esc image]]); [|done|by apply line_okb|cbn [fmap list_fmap]; by rewrite !word_text_one].
  unfold line_render. cbn [foldr]. by rewrite !word_render_one, string_app_nil.
Qed.
Lemma container_command_read rt action id follow cmd :
  command_word rt → build_container_command rt action id follow = Ok cmd →
  is_valid_container_id id = true ∧ action ∈ valid_actions ∧
  sh_parse cmd = Some [[rt; action] ++ (if bool_decide (action = "logs"%string) && default false follow then ["-f"%string] else []) ++ [id]].
Proof.
  intros Hrt. unfold build_container_command. destruct (is_valid_container_id id); cbn [negb]; [|done]. case_bool_decide as Ha; cbn [negb]; [|done].
  destruct (bool_decide _ && _); intros [= <-]; (split_and!; [done..|]); cbn [app].
  - rewrite <- (line_parsed rt [[Esc action]; [Lit "-f"]; [Esc id]]); [|done|by apply line_okb|cbn [fmap list_fmap]; by rewrite !word_text_one].
    unfold line_render. cbn [foldr]. by rewrite !word_render_one, string_app_nil.
  - rewrite <- (line_parsed rt [[Esc action]; [Esc id]]); [|done|by apply line_okb|cbn [fmap list_fmap]; by rewrite !word_text_one].
    unfold line_render. cbn [foldr]. by rewrite !word_render_one, string_app_nil.
Qed.

(** ** Commands through the connection *)

Definition host_key_args (c : SecureSshConnection) : list (list part) :=
  if ss_strict c then lits ["-o"; "StrictHostKeyChecking=yes"]%string ++ match ss_known_hosts c with Some p => [[Lit "-o"]; [Lit "UserKnownHostsFile="; Esc p]] | None => [] end
  else lits ["-o"; "StrictHostKeyChecking=no"; "-o"; "UserKnownHostsFile=/dev/null"]%string.
Definition ssh_line (c : SecureSshConnection) (command : string) : list (list part) :=
  host_key_args c
  ++ lits ["-o"; "ConnectTimeout=30"; "-o"; "ServerAliveInterval=60"; "-o"; "ServerAliveCountMax=3"; "-o"; "BatchMode=yes"]%string
  ++ lits (if ss_port c =? 22 then [] else ["-p"%string; pretty (ss_port c)])
  ++ match ss_key_path c with Some p => [[Lit "-i"]; [Esc p]] | None => [] end
  ++ match ss_jump_host c with Some j => [[Lit "-J"]; [Esc j]] | None => [] end
  ++ [[Esc (ss_user c); Lit "@"; Esc (ss_host c)]; [Esc command]].
Definition scp_line (c : SecureSshConnection) (local_path remote_path : string) : list (list part) :=
  host_key_args c ++ lits (if ss_port c =? 22 then [] else ["-P"%string; pretty (ss_port c)])
  ++ match ss_key_path c with Some p => [[Lit "-i"]; [Esc p]] | None => [] end
  ++ [[Esc local_path]; [Esc (ss_user c); Lit "@"; Esc (ss_host c); Lit ":"; Esc remote_path]].

Lemma port_words f (p : Z) : plain_word f → Forall plain_word (if p =? 22 then [] else [f; pretty p]).
Proof. intros Hf. destruct (p =? 22); [constructor|]. constructor; [done|]. constructor; [apply pretty_plain|constructor]. Qed.
Lemma host_key_args_ok c : Forall word_ok (host_key_args c).
Proof. unfold host_key_args. destruct (ss_strict c), (ss_known_hosts c); by apply line_okb. Qed.
Lemma host_key_render c : line_render (host_key_args c) = host_key_options c.
Proof.
  unfold host_key_args, host_key_options. destruct (ss_strict c), (ss_known_hosts c) as [p|]; rewrite ?line_render_app, ?lits_render; try done.
  unfold line_render, word_render. cbn [foldr part_render]. by rewrite !string_app_nil.
Qed.
Lemma option_words_ok f (o : option string) : plain_word f → Forall word_ok match o with Some p => [[Lit f]; [Esc p]] | None => [] end.
Proof.
  intros Hf. destruct o; [|constructor]. constructor; [split; [done|by constructor]|]. by apply line_okb.
Qed.
Lemma ssh_line_ok c command : Forall word_ok (ssh_line c command).
Proof.
  unfold ssh_line. repeat (apply Forall_app; split); try (by apply line_okb); [apply host_key_args_ok|apply lits_ok, port_words|apply option_words_ok..];
    by apply plainb_word.
Qed.
Lemma scp_line_ok c l r : Forall word_ok (scp_line c l r).
Proof.
  unfold scp_line. repeat (apply Forall_app; split); try (by apply line_okb); [apply host_key_args_ok|apply lits_ok, port_words|apply option_words_ok];
    by apply plainb_word.
Qed.
Lemma ssh_line_render c command : build_secure_ssh_command c command = "ssh" +:+ line_render (ssh_line c command).
Proof.
  unfold ssh_line, build_secure_ssh_command. rewrite !line_render_app, !lits_render, host_key_render.
  destruct (ss_port c =? 22), (ss_key_path c), (ss_jump_host c); unfold line_render, word_render; cbn [foldr part_render]; rewrite ?string_app_nil, ?append_assoc; reflexivity.
Qed.
Lemma scp_line_render c l r : build_secure_scp_command c l r = "scp" +:+ line_render (scp_line c l r).
Proof.
  unfold scp_line, build_secure_scp_command. rewrite !line_render_app, !lits_render, host_key_render.
  destruct (ss_port c =? 22), (ss_key_path c); unfold line_render, word_render; cbn [foldr part_render]; rewrite ?string_app_nil, ?append_assoc; reflexivity.
Qed.

(** What the local shell runs: the program, its options and, last, the destination and
    the command *)
Definition ssh_argv (c : SecureSshConnection) (command : string) : list string := "ssh"%string :: (word_text <$> ssh_line c command).
Definition scp_argv (c : SecureSshConnection) (l r : string) : list string := "scp"%string :: (word_text <$> scp_line c l r).
Lemma literal_parsed (w : string) l :
  plain_word w → command_word w → Forall word_ok l → sh_parse (w +:+ line_render l) = Some [w :: (word_text <$> l)].
Proof.
  intros [Hne Hw] [Heq Hr] Hl. unfold sh_parse. rewrite sh_read_plain by (done || by right). cbn [default from_option]. rewrite sh_read_line by done.
  change ("" +:+ w) with w. cbn [app push_command]. by rewrite Hr.
Qed.
Lemma ssh_command_read c command : sh_parse (build_secure_ssh_command c command) = Some [ssh_argv c command].
Proof. rewrite ssh_line_render. apply literal_parsed; [by apply plainb_word|split; [by repeat constructor|done]|apply ssh_line_ok]. Qed.
Lemma scp_command_read c l r : sh_parse (build_secure_scp_command c l r) = Some [scp_argv c l r].
Proof. rewrite scp_line_render. apply literal_parsed; [by apply plainb_word|split; [by repeat constructor|done]|apply scp_line_ok]. Qed.
(** The words between the program and the destination *)
Definition host_key_words (c : SecureSshConnection) : list string :=
  if ss_strict c then ["-o"; "StrictHostKeyChecking=yes"]%string ++ match ss_known_hosts c with Some p => ["-o"%string; "UserKnownHostsFile=" +:+ p] | None => [] end
  else ["-o"; "StrictHostKeyChecking=no"; "-o"; "UserKnownHostsFile=/dev/null"]%string.
Definition ssh_options (c : SecureSshConnection) : list string :=
  host_key_words c
  ++ ["-o"; "ConnectTimeout=30"; "-o"; "ServerAliveInterval=60"; "-o"; "ServerAliveCountMax=3"; "-o"; "BatchMode=yes"]%string
  ++ (if ss_port c =? 22 then [] else ["-p"%string; pretty (ss_port c)])
  ++ match ss_key_path c with Some p => ["-i"%string; p] | None => [] end
  ++ match ss_jump_host c with Some j => ["-J"%string; j] | None => [] end.
Definition scp_options (c : SecureSshConnection) : list string :=
  host_key_words c ++ (if ss_port c =? 22 then [] else ["-P"%string; pretty (ss_port c)])
  ++ match ss_key_path c with Some p => ["-i"%string; p] | None => [] end.
Definition destination (c : SecureSshConnection) : string := ss_user c +:+ "@" +:+ ss_host c.

Lemma host_key_text c : word_text <$> host_key_args c = host_key_words c.
Proof.
  unfold host_key_args, host_key_words. destruct (ss_strict c); [|by rewrite lits_text]. rewrite fmap_app, lits_text. f_equal.
  destruct (ss_known_hosts c); [|done]. cbn [fmap list_fmap]. unfold word_text. cbn [foldr part_text]. by rewrite !string_app_nil.
Qed.
Lemma option_text f (o : option string) :
  word_text <$> match o with Some p => [[Lit f]; [Esc p]] | None => [] end = match o with Some p => [f; p] | None => [] end.
Proof. destruct o; [|done]. cbn [fmap list_fmap]. by rewrite !word_text_one. Qed.
Lemma ssh_argv_words c command : ssh_argv c command = "ssh"%string :: ssh_options c ++ [destination c; command].
Proof.
  unfold ssh_argv, ssh_line, ssh_options. rewrite !fmap_app, !lits_text, !option_text, host_key_text, <- !app_assoc. do 6 f_equal.
  cbn [fmap list_fmap]. rewrite word_text_one. unfold word_text. cbn [foldr part_text]. by rewrite string_app_nil.
Qed.
Lemma scp_argv_words c l r : scp_argv c l r = "scp"%string :: scp_options c ++ [l; destination c +:+ ":" +:+ r].
Proof.
  unfold scp_argv, scp_line, scp_options. rewrite !fmap_app, !lits_text, !option_text, host_key_text, <- !app_assoc. do 4 f_equal.
  cbn [fmap list_fmap]. rewrite word_text_one. unfold word_text, destination. cbn [foldr part_text]. by rewrite string_app_nil, <- !append_assoc.
Qed.
Lemma ssh_argv_last c command :
  ∃ options, ssh_argv c command = options ++ [ss_user c +:+ "@" +:+ ss_host c; command].
Proof. exists ("ssh"%string :: ssh_options c). by rewrite ssh_argv_words. Qed.

(** What is deployed is what was asked for: a container command that passes the
    checks, sent through a connection, is read by the local shell as one [ssh] call whose
    last words are the destination and the command, whole; and the shell of the host
    reads the command as one call of the container runtime with exactly the words that
    were given: the image, the variables with their values, the limits and the hardening
    options.  No value of a variable and no name adds a word or a command. *)
Theorem remote_create_exact c now rt image env cpu mem disk cmd :
  command_word rt → build_create_command now rt image env cpu mem disk = Ok cmd →
  is_valid_image_name image = true ∧
  (∃ options, sh_parse (build_secure_ssh_command c cmd) = Some [options ++ [ss_user c +:+ "@" +:+ ss_host c; cmd]]) ∧
  sh_parse cmd = Some [create_argv now rt image (map_to_list env) cpu mem disk].
Proof.
  intros Hrt Hcmd. destruct (create_command_read _ _ _ _ _ _ _ _ Hrt Hcmd) as [Hi Hp]. split_and!; [done| |done].
  destruct (ssh_argv_last c cmd) as [options Ho]. exists options. by rewrite ssh_command_read, Ho.
Qed.

End exact.

(** ** The escaping of the crate *)

(** The documented behaviour of [shell_escape::unix::escape]: a text of harmless
    characters is kept, another one is put in single quotes, with a quote or an
    exclamation mark out of them after a backslash *)
Definition harmless (a : ascii) : bool := is_alnum a || one_of "-_=/,.+" a.
Fixpoint quote_body (s : string) : string :=
  match s with
  | EmptyString => EmptyString
  | String a s => (if one_of "'!" a then "'\" +:+ String a "'" else String a EmptyString) +:+ quote_body s
  end.
Definition unix_escape (s : string) : string :=
  if negb (bool_decide (s = ""%string)) && forallb harmless (chars s) then s else "'" +:+ quote_body s +:+ "'".
#[export] Instance unix_shell_escape : ShellEscape := {| escape := unix_escape |}.

Lemma harmless_plain a : harmless a = true → plain a = true.
Proof.
  unfold harmless, plain. rewrite !orb_true_iff. intros [?|H]; [by left|right]. unfold one_of in *. apply existsb_exists in H as (b & Hb & ?).
  apply existsb_exists. exists b. split; [|done]. cbn in *. naive_solver.
Qed.
Lemma one_of_quote a : one_of "'!" a = false → a ≠ "'"%char.
Proof. by intros H ->. Qed.
Lemma sh_read_quoted cmds words cur s rest :
  sh_read true cmds words (Some cur) (quote_body s +:+ String "'" rest) = sh_read false cmds words (Some (cur +:+ s)) rest.
Proof.
  revert cur. induction s as [|a s IH]; intros cur; [by rewrite string_app_nil|]. cbn [quote_body]. destruct (one_of "'!" a) eqn:Ha.
  - change ((("'\" +:+ String a "'") +:+ quote_body s) +:+ String "'" rest)
      with (String "'" (String "\" (String a (String "'" (quote_body s +:+ String "'" rest))))).
    assert (Hn : bool_decide (a = newline) = false).
    { apply bool_decide_eq_false. intros ->. discriminate Ha. }
    cbn [sh_read]. change (bool_decide ("'"%char = "'"%char)) with true. cbn iota. change (blank "\") with false. change (separator "\") with false.
    change (bool_decide ("\"%char = "'"%char)) with false. change (bool_decide ("\"%char = "\"%char)) with true. cbn iota. rewrite Hn.
    change (blank "'") with false. change (separator "'") with false. cbn iota. change (default ""%string (Some ?x)) with x. rewrite IH. by rewrite snoc_app.
  - change ((String a "" +:+ quote_body s) +:+ String "'" rest) with (String a (quote_body s +:+ String "'" rest)). cbn [sh_read].
    rewrite bool_decide_eq_false_2 by (by apply one_of_quote). change (default ""%string (Some ?x)) with x. rewrite IH. by rewrite snoc_app.
Qed.
#[export] Instance unix_escape_laws : ShellEscapeLaws.
Proof.
  split. intros cmds words cur s rest Hw. cbn [escape unix_shell_escape]. unfold unix_escape. destruct (negb _ && _) eqn:H.
  - apply andb_true_iff in H as [Hne Hf]. apply negb_true_iff, bool_decide_eq_false in Hne. apply sh_read_plain; [done| |done].
    apply List.Forall_forall. intros a Ha. rewrite forallb_forall in Hf. by apply harmless_plain, Hf.
  - rewrite !append_assoc. change ("'" +:+ (quote_body s +:+ ("'" +:+ rest))) with (String "'" (quote_body s +:+ String "'" rest)). cbn [sh_read].
    change (blank "'") with false. change (separator "'") with false. change (bool_decide ("'"%char = "'"%char)) with true. cbn iota. apply sh_read_quoted.
Qed.

(** ** Instances *)

Definition demo_connection : SecureSshConnection := mkSecureSsh "host-1" 22 "deploy" None None None true.
Lemma remote_create_exact_witness :
  sh_parse "docker create --memory=512m -e GREETING='it'\''s me' --user 1000:1000 --read-only --tmpfs /tmp:noexec,nosuid,size=100m --tmpfs /var/run:noexec,nosuid,size=100m --cap-drop ALL --cap-add NET_BIND_SERVICE --security-opt no-new-privileges --pids-limit 256 --ulimit nproc=256 --ulimit nofile=1024 --memory-swappiness=0 -p 127.0.0.1:8080:8080 -p 127.0.0.1:9615:9615 -p 127.0.0.1:9944:9944 --name blueprint-7 nginx"
  = Some [create_argv 7 "docker" "nginx" [("GREETING", "it's me")]%string None (Some 512) None].
Proof.
  refine (proj2 (proj2 (remote_create_exact demo_connection 7 "docker" "nginx" {["GREETING"%string := "it's me"%string]} None (Some 512) None _ _ _))).
  - split; [repeat constructor; discriminate|reflexivity].
  - vm_compute. reflexivity.
Defined.

(** The allowlist looks at the start of each line: what follows a separator is not
    checked. *)
Theorem allowlist_misses_second : validate_command "echo x; reboot" = Ok tt ∧ sh_parse "echo x; reboot" = Some [["echo"; "x"]; ["reboot"]]%string.
Proof. by vm_compute. Qed.
(** It refuses the scripts that start with [set]. *)
Theorem allowlist_refuses_set : validate_command (lines_of ["set -eu"; "mkdir -p /opt/blueprint"]%string) = Err (ConfigurationError "Command not in allowlist: set -eu").
Proof. by vm_compute. Qed.
(** A user name may start with a hyphen, and the destination is then an option. *)
Theorem user_as_option :
  ∃ c, ssh_connection_new "h" "-v" = Ok c ∧ list.last (removelast (ssh_argv c "ls /")) = Some "-v@h"%string.
Proof. eexists. by split; vm_compute. Qed.
