(* ===== verification/Disk.v ===== *)
(** * The manager's host: files, requests and digests
      ([manager/src/error.rs], [sdk/utils.rs], [blueprint/native.rs], and
      [verify_binary_digest] of [sources/remote.rs])

    The programs that fetch binaries read and write one cache directory and send
    requests.  Their state is the directory's files, how each coming disk call
    fails, if it does, and how many requests were sent; a failed write leaves a
    prefix.  Hash functions, the platform and the network are parameters.  A triple
    of pre- and postcondition is the way to reason about these programs. *)

From Stdlib Require Import ZArith Lia Ascii.
From stdpp Require Import base gmap sets list sorting strings pretty fin_maps numbers relations.
From S2P Require Import Prelude Bytes Text Hex Http.

#[local] Open Scope Z_scope.

Abbreviation B256 := (list Byte8).

(** The errors of the manager that the modelled parts raise *)
Inductive ManagerError :=
| NoFetchers | NoMatchingBinary | HashMismatch (expected actual : string) | DownloadFailed (url reason : string)
| ArchiveTooLarge (url : string) (size max : Z) | MissingIpfsGateway (url : string)
| MgAttestationFailed | NoGithubCli | TeeRuntimeUnavailable (reason : string)
| MgOther (e : string) | MgIo (e : string) | MgWalkDir | MgSerialization | MgRequest (e : string).

(** ** Parameters *)

(** An incremental hash function *)
Record Hasher := mkHasher {
  hs_state : Type;
  hs_new : hs_state;
  hs_update : hs_state → list Byte8 → hs_state;
  hs_finalize : hs_state → B256;
}.
Class Digests := { blake3_hasher : Hasher; sha256_hasher : Hasher }.
(** Hashing by parts is hashing the whole. *)
Class HasherLaws (h : Hasher) := {
  hs_update_nil s : hs_update h s [] = s;
  hs_update_app s a b : hs_update h (hs_update h s a) b = hs_update h s (a ++ b);
}.
Class DigestLaws (D : Digests) := {
  blake3_laws :: HasherLaws (blake3_hasher (Digests := D));
  sha256_laws :: HasherLaws (sha256_hasher (Digests := D));
}.
Definition digest (h : Hasher) (m : list Byte8) : B256 := hs_finalize h (hs_update h (hs_new h) m).

(** [std::env::consts], whether the target is Windows, the environment's variables,
    and the mode of a new file *)
Class Platform := {
  OS : string; ARCH : string; target_windows : bool;
  env_var : string → option string;
  create_mode : Z;
}.

(** The answer to a request: an error, or a status, a declared length and the parts
    of the body *)
Inductive NetAnswer := NetErr (e : string) | NetResp (status : Z) (content_length : option Z) (chunks : list (result string (list Byte8))).
Class Net := {
  client_builds : bool;
  url_parse : string → result string string;
  serve : nat → string → NetAnswer;
}.

(** ** The host *)

Record File := mkFile { f_bytes : list Byte8; f_mode : Z }.
Abbreviation Path := (list string).
Record Host := mkHost { files : gmap Path File; faults : list (option nat); served : nat }.
Definition set_files (f : gmap Path File) (h : Host) : Host := mkHost f (faults h) (served h).

Definition Fetch (E A : Type) : Type := Host → result E A * Host.
#[export] Instance fetch_ret E : MRet (Fetch E) := λ A a h, (Ok a, h).
#[export] Instance fetch_bind E : MBind (Fetch E) := λ A B f m h,
  match m h with (Ok a, h) => f a h | (Err e, h) => (Err e, h) end.
Definition throw {E A} (e : E) : Fetch E A := λ h, (Err e, h).
Definition lift {E A} (r : result E A) : Fetch E A := λ h, (r, h).
Definition mapping {E F A} (f : E → F) (m : Fetch E A) : Fetch F A := λ h, let '(r, h) := m h in (map_err f r, h).
(** The result of a program as a value *)
Definition attempt {E F A} (m : Fetch E A) : Fetch F (result E A) := λ h, let '(r, h) := m h in (Ok r, h).

Definition gets {E A : Type} (f : gmap Path File → A) : Fetch E A := λ h, (Ok (f (files h)), h).

Definition io_error : string := "io".

(** Does the next disk call fail, and after how many bytes? *)
Definition faulty {E A} (k : option nat → Fetch E A) : Fetch E A := λ h,
  match faults h with
  | [] => k None h
  | f :: fs => k f (mkHost (files h) fs (served h))
  end.
Definition checked {A} (k : Fetch string A) : Fetch string A :=
  faulty (λ f, match f with Some _ => throw io_error | None => k end).
Definition io_check : Fetch string unit := checked (mret tt).

(** [fs::create_dir_all], [fs::try_exists], [fs::read], [File::open] *)
Definition fs_create_dir_all : Fetch string unit := io_check.
Definition fs_exists {E} (p : Path) : Fetch E bool := faulty (λ f h,
  (Ok match f with Some _ => false | None => bool_decide (is_Some (files h !! p)) end, h)).
Definition fs_read (p : Path) : Fetch string (list Byte8) := checked (λ h,
  (match files h !! p with Some f => Ok (f_bytes f) | None => Err io_error end, h)).
Definition fs_open (p : Path) : Fetch string File := checked (λ h,
  (match files h !! p with Some f => Ok f | None => Err io_error end, h)).

(** [fs::remove_file], [fs::rename] *)
Definition fs_remove (p : Path) : Fetch string unit := checked (λ h,
  match files h !! p with Some _ => (Ok tt, set_files (delete p (files h)) h) | None => (Err io_error, h) end).
Definition fs_rename (p q : Path) : Fetch string unit := checked (λ h,
  match files h !! p with Some f => (Ok tt, set_files (<[q := f]> (delete p (files h))) h) | None => (Err io_error, h) end).
Definition fs_set_mode (p : Path) (mode : Z) : Fetch string unit := checked (λ h,
  match files h !! p with Some f => (Ok tt, set_files (<[p := mkFile (f_bytes f) mode]> (files h)) h) | None => (Err io_error, h) end).

(** [let _ = m.await] *)
Definition ignore {E F A} (m : Fetch E A) : Fetch F unit := attempt m ≫= λ _, mret tt.

Section platform.
  Context `{P : Platform}.

(** [File::create]: an existing file keeps its mode *)
Definition fs_create (p : Path) : Fetch string unit := checked (λ h,
  (Ok tt, set_files (<[p := mkFile [] (from_option f_mode create_mode (files h !! p))]> (files h)) h)).

(** [write_all] *)
Definition fs_append (p : Path) (b : list Byte8) : Fetch string unit := faulty (λ f h,
  match files h !! p, f with
  | Some x, None => (Ok tt, set_files (<[p := mkFile (f_bytes x ++ b) (f_mode x)]> (files h)) h)
  | Some x, Some n => (Err io_error, set_files (<[p := mkFile (f_bytes x ++ take n b) (f_mode x)]> (files h)) h)
  | None, _ => (Err io_error, h)
  end).
(** [fs::write] *)
Definition fs_write (p : Path) (b : list Byte8) : Fetch string unit := fs_create p ≫= λ _, fs_append p b.

(** [get_formatted_os_string] *)
Definition get_formatted_os_string : string :=
  if bool_decide (OS = "macos"%string) then "apple-darwin"
  else if bool_decide (OS = "windows"%string) then "pc-windows-msvc"
  else if bool_decide (OS = "linux"%string) then "unknown-linux-gnu"
  else OS.

(** [set_extension] and [with_extension] *)
Definition with_extension (ext : string) (p : Path) : Path :=
  match reverse p with
  | [] => p
  | name :: dirs => reverse dirs ++ [from_option fst name (split_extension name) +:+ "." +:+ ext]
  end.
Definition has_extension (p : Path) : bool :=
  match last p with Some name => bool_decide (is_Some (split_extension name)) | None => false end.

(** [make_executable] *)
Definition make_executable_unix (p : Path) : Fetch string unit :=
  f ← fs_open p; _ ← io_check; fs_set_mode p (Z.lor (f_mode f) 73).
Definition make_executable (p : Path) : Fetch ManagerError Path :=
  if target_windows then mret (if has_extension p then p else with_extension "exe" p)
  else mapping (λ e, MgOther ("Failed to make the binary executable: " +:+ e)) (make_executable_unix p) ≫= λ _, mret p.

End platform.

(** [valid_file_exists] *)
Definition valid_file_exists {E} (p : Path) : Fetch E bool :=
  r ← attempt (fs_read p); mret match r with Ok _ => true | Err _ => false end.

(** A request *)
Definition net_get `{N : Net} {E} (url : string) : Fetch E NetAnswer := λ h,
  (Ok (serve (served h) url), mkHost (files h) (faults h) (S (served h))).

(** [normalize_arch], [normalize_os], on ASCII text *)
Definition normalize_arch (value : string) : string :=
  let v := to_ascii_lowercase value in
  if bool_decide (v = "amd"%string) then "x86"
  else if bool_decide (v = "amd64"%string) then "x86_64"
  else if bool_decide (v = "arm64"%string) then "aarch64"
  else v.
Definition normalize_os (value : string) : string :=
  let lower := to_ascii_lowercase value in
  if contains "darwin" lower || contains "macos" lower || bool_decide (lower = "mac"%string) || bool_decide (lower = "osx"%string)
  then "macos"
  else if contains "windows" lower then "windows"
  else if contains "linux" lower then "linux"
  else if contains "bsd" lower then "bsd"
  else if contains "unknown" lower then "unknown"
  else lower.

(** ** Digests *)

(** [verify_binary_digest]: the file goes through both functions a buffer at a time;
    the fuel is one step for each block and one for the end *)
Section digests.
  Context `{D : Digests}.

Definition BUFFER : nat := 8192.
Fixpoint digest_loop (fuel : nat) (rest : list Byte8) (b : hs_state blake3_hasher) (s : hs_state sha256_hasher)
    : Fetch string (hs_state blake3_hasher * hs_state sha256_hasher) :=
  match fuel with
  | O => throw "out of fuel"
  | S fuel =>
      _ ← io_check;
      match rest with
      | [] => mret (b, s)
      | _ => digest_loop fuel (drop BUFFER rest) (hs_update blake3_hasher b (take BUFFER rest))
               (hs_update sha256_hasher s (take BUFFER rest))
      end
  end.
Definition verify_binary_digest (p : Path) (expected_sha256 : B256) (expected_blake3 : option B256) : Fetch ManagerError unit :=
  f ← mapping MgIo (fs_open p);
  '(b, s) ← mapping MgIo (digest_loop (S (length (f_bytes f))) (f_bytes f) (hs_new blake3_hasher) (hs_new sha256_hasher));
  let computed_blake3 := hs_finalize blake3_hasher b in
  _ ← match expected_blake3 with
      | Some expected =>
          if bool_decide (computed_blake3 = expected) then mret tt
          else throw (HashMismatch (hex_encode expected) (hex_encode computed_blake3))
      | None => mret tt
      end;
  let computed_sha := hs_finalize sha256_hasher s in
  if bool_decide (computed_sha = expected_sha256) then mret tt
  else throw (HashMismatch (hex_encode expected_sha256) (hex_encode computed_sha)).

End digests.

(** ** Triples *)

Lemma map_err_Ok {E F A} (f : E → F) (r : result E A) a : map_err f r = Ok a → r = Ok a.
Proof. destruct r; [|discriminate]. by intros [= ->]. Qed.
Lemma ok_or_Ok {E A} (o : option A) (e : E) a : ok_or o e = Ok a → o = Some a.
Proof. destruct o; [|discriminate]. by intros [= ->]. Qed.

(** From files with [P], a program ends in a result and files with [Q], whatever
    the disk and the network do. *)
Definition FilesPred : Type := gmap Path File → Prop.
Definition triple {E A : Type} (P : FilesPred) (m : Fetch E A) (Q : result E A → FilesPred) : Prop :=
  ∀ h, P (files h) → Q (m h).1 (files (m h).2).
(** A postcondition on success only *)
Definition on_ok {E A : Type} (Q : A → FilesPred) (r : result E A) : FilesPred :=
  λ f, match r with Ok a => Q a f | Err _ => True end.

Section triples.
  Context {E A : Type}.
  Implicit Types (P : FilesPred) (m : Fetch E A).

Lemma triple_ret P a (Q : result E A → FilesPred) : (∀ f, P f → Q (Ok a) f) → triple P (mret a) Q.
Proof. intros H h Hp. by apply H. Qed.
Lemma triple_throw P e (Q : result E A → FilesPred) : (∀ f, P f → Q (Err e) f) → triple P (throw e) Q.
Proof. intros H h Hp. by apply H. Qed.
Lemma triple_lift P r (Q : result E A → FilesPred) : (∀ f, P f → Q r f) → triple P (lift r) Q.
Proof. intros H h Hp. by apply H. Qed.
Lemma triple_conseq P P' m (Q Q' : result E A → FilesPred) :
  triple P' m Q' → (∀ f, P f → P' f) → (∀ r f, Q' r f → Q r f) → triple P m Q.
Proof. intros H Hp Hq h Hh. apply Hq, H, Hp, Hh. Qed.
Lemma triple_bind {B} P (m : Fetch E B) (k : B → Fetch E A) (R : B → FilesPred) (Q : A → FilesPred) :
  triple P m (on_ok R) → (∀ b, triple (R b) (k b) (on_ok Q)) → triple P (m ≫= k) (on_ok Q).
Proof.
  intros Hm Hk h Hp. specialize (Hm h Hp). unfold mbind, fetch_bind. destruct (m h) as [[b|e] h']; cbn in *; [|done].
  by apply Hk.
Qed.
Lemma triple_map {F} P (f : F → E) (m : Fetch F A) (Q : A → FilesPred) :
  triple P m (on_ok Q) → triple P (mapping f m) (on_ok Q).
Proof. intros H h Hp. specialize (H h Hp). unfold mapping. by destruct (m h) as [[?|?] h']. Qed.
Lemma triple_attempt {F} P (m : Fetch F A) (Q : result F A → FilesPred) :
  triple P m Q → triple (E := E) P (attempt m) (on_ok Q).
Proof. intros H h Hp. specialize (H h Hp). unfold attempt. by destruct (m h). Qed.
Lemma triple_faulty P (k : option nat → Fetch E A) Q : (∀ f, triple P (k f) Q) → triple P (faulty k) Q.
Proof. intros H h Hp. unfold faulty. destruct (faults h) as [|f fs]; [by apply H|]. by apply (H f (mkHost (files h) fs (served h))). Qed.
Lemma triple_if (b : bool) P m m' Q : (b = true → triple P m Q) → (b = false → triple P m' Q) → triple P (if b then m else m') Q.
Proof. destruct b; auto. Qed.
Lemma triple_lift_bind {B} P (r : result E B) (k : B → Fetch E A) (Q : A → FilesPred) :
  (∀ b, r = Ok b → triple P (k b) (on_ok Q)) → triple P (lift r ≫= k) (on_ok Q).
Proof. intros H. destruct r as [b|e]; [by apply H|by apply triple_throw]. Qed.
Lemma triple_pure (Φ : Prop) P m Q : (Φ → triple P m Q) → triple (λ f, Φ ∧ P f) m Q.
Proof. intros H h [Hf Hp]. by apply H. Qed.
(** What a program leaves may not matter, but what is known before does not change. *)
Lemma triple_any P m (Φ : Prop) : (∀ f, P f → Φ) → triple P m (on_ok (λ _ _, Φ)).
Proof. intros H h Hp. unfold on_ok. destruct (m h).1; [by eapply H|done]. Qed.
End triples.

Lemma triple_ignore {E F A : Type} P (m : Fetch E A) (Q : FilesPred) :
  triple P m (λ _, Q) → triple (E := F) P (ignore m) (on_ok (λ _, Q)).
Proof. intros H h Hp. specialize (H h Hp). unfold ignore, attempt, mbind, fetch_bind. by destruct (m h). Qed.

Lemma triple_checked {A : Type} P (k : Fetch string A) Q :
  (∀ f, P f → Q (Err io_error) f) → triple P k Q → triple P (checked k) Q.
Proof. intros He Hk. apply triple_faulty. intros [n|]; [by apply triple_throw|done]. Qed.

(** The calls *)
Section calls.
  Context `{Pl : Platform}.
  Implicit Types P : FilesPred.

Lemma fs_read_triple P p : triple P (fs_read p) (on_ok (λ b f, P f ∧ ∃ x, f !! p = Some x ∧ f_bytes x = b)).
Proof. apply triple_checked; [done|]. intros h Hp. cbn. destruct (files h !! p) eqn:E; cbn; eauto. Qed.
Lemma fs_open_triple P p : triple P (fs_open p) (on_ok (λ x f, P f ∧ f !! p = Some x)).
Proof. apply triple_checked; [done|]. intros h Hp. cbn. destruct (files h !! p) eqn:E; cbn; eauto. Qed.
Lemma fs_exists_triple {E} P p : triple (E := E) P (fs_exists p) (on_ok (λ _, P)).
Proof. apply triple_faulty. intros f h Hp. done. Qed.
Lemma io_check_triple P : triple P io_check (on_ok (λ _, P)).
Proof. apply triple_checked; [done|]. by apply triple_ret. Qed.
Lemma fs_rename_triple P p q (Q : FilesPred) :
  (∀ f x, P f → f !! p = Some x → Q (<[q := x]> (delete p f))) → triple P (fs_rename p q) (on_ok (λ _, Q)).
Proof. intros H. apply triple_checked; [done|]. intros h Hp. cbn. destruct (files h !! p) eqn:E; cbn; auto. Qed.
Lemma net_get_triple `{N : Net} {E} P url : triple (E := E) P (net_get url) (on_ok (λ _, P)).
Proof. by intros h Hp. Qed.

(** An executable file: the three bits are set and the contents are as they were. *)
Definition executable (x : File) : Prop := Z.land (f_mode x) 73 = 73.
Lemma mode_executable b m : executable (mkFile b (Z.lor m 73)).
Proof.
  apply Z.bits_inj'. intros n Hn. cbn [f_mode]. rewrite Z.land_spec, Z.lor_spec. by destruct (Z.testbit m n), (Z.testbit 73 n).
Qed.
Lemma make_executable_triple P p :
  target_windows = false →
  triple P (make_executable p) (on_ok (λ q f, q = p ∧ ∃ f0 x x', P f0 ∧ f0 !! p = Some x ∧ f = <[p := x']> f0 ∧
    f_bytes x' = f_bytes x ∧ executable x')).
Proof.
  intros Hw. unfold make_executable. rewrite Hw. eapply triple_bind; [|intros ?; apply triple_ret; intros f Hf; split; [done|exact Hf]].
  apply triple_map. unfold make_executable_unix. eapply triple_bind; [apply fs_open_triple|]. intros x.
  eapply triple_bind; [apply io_check_triple|]. intros ?. apply triple_checked; [done|]. intros h [Hp Hx]. cbn. rewrite Hx.
  cbn. exists (files h), x, (mkFile (f_bytes x) (Z.lor (f_mode x) 73)). repeat split; try done. apply mode_executable.
Qed.
End calls.

(** The gate on digests: it reads and writes no file, and passes only on a file with
    the expected digests. *)
Section verify.
  Context `{D : Digests} `{DL : !DigestLaws D}.
  Implicit Types P : FilesPred.

Lemma digest_loop_triple P fuel rest b s :
  triple P (digest_loop fuel rest b s)
    (on_ok (λ r f, P f ∧ r = (hs_update blake3_hasher b rest, hs_update sha256_hasher s rest))).
Proof.
  revert rest b s. induction fuel as [|fuel IH]; intros rest b s; [by apply triple_throw|]. cbn [digest_loop].
  eapply triple_bind; [apply io_check_triple|]. intros ?. destruct rest as [|x rest].
  - apply triple_ret. intros f Hf. by rewrite !hs_update_nil.
  - eapply triple_conseq; [apply IH|done|]. intros [r|e] f; [|done]. cbn [on_ok]. rewrite !hs_update_app, take_drop. done.
Qed.

Lemma verify_binary_digest_triple P p sha blake :
  triple P (verify_binary_digest p sha blake) (on_ok (λ _ f, P f ∧ ∃ x, f !! p = Some x ∧
    digest sha256_hasher (f_bytes x) = sha ∧ from_option (λ e, digest blake3_hasher (f_bytes x) = e) True blake)).
Proof.
  unfold verify_binary_digest. eapply triple_bind; [apply triple_map, fs_open_triple|]. intros x.
  eapply triple_bind; [apply triple_map, digest_loop_triple|]. intros [b s].
  eapply (triple_bind _ _ _ (λ _ f, P f ∧ f !! p = Some x ∧ (b, s) = (hs_update blake3_hasher (hs_new blake3_hasher) (f_bytes x),
      hs_update sha256_hasher (hs_new sha256_hasher) (f_bytes x)) ∧ from_option (λ e, digest blake3_hasher (f_bytes x) = e) True blake)).
  - destruct blake as [e|]; [|apply triple_ret; naive_solver]. case_bool_decide as He; [|by apply triple_throw].
    apply triple_ret. intros f [[Hp Hx] [= -> ->]]. done.
  - intros ?. case_bool_decide as Hs; [|by apply triple_throw]. apply triple_ret. intros f (Hp & Hx & [= -> ->] & He).
    split; [done|]. by exists x.
Qed.

(** On a quiet disk the gate decides: it passes on the right file, and it refuses
    any other with the two digests. *)
Lemma digest_loop_quiet fuel rest b s h :
  faults h = [] → (length rest < fuel)%nat →
  digest_loop fuel rest b s h = (Ok (hs_update blake3_hasher b rest, hs_update sha256_hasher s rest), h).
Proof.
  intros Hh. revert rest b s. induction fuel as [|fuel IH]; intros rest b s Hl; [lia|]. cbn [digest_loop].
  unfold io_check, checked, faulty, mbind, fetch_bind. rewrite Hh. cbn [mret fetch_ret]. destruct rest as [|x rest].
  - by rewrite !hs_update_nil.
  - rewrite IH by (rewrite length_drop; cbn in *; unfold BUFFER; lia). by rewrite !hs_update_app, take_drop.
Qed.

Lemma verify_binary_digest_quiet p sha x h :
  faults h = [] → files h !! p = Some x →
  verify_binary_digest p sha None h =
    (if bool_decide (digest sha256_hasher (f_bytes x) = sha) then Ok tt
     else Err (HashMismatch (hex_encode sha) (hex_encode (digest sha256_hasher (f_bytes x)))), h).
Proof.
  intros Hh Hx. unfold verify_binary_digest, fs_open, checked, faulty, mapping, mbind, fetch_bind. rewrite Hh, Hx. cbn [map_err].
  rewrite digest_loop_quiet by (done || lia). cbn [map_err]. unfold digest. by case_bool_decide.
Qed.
End verify.

(** ** Runs on a quiet disk *)

Section quiet.
  Context `{Pl : Platform}.
  Variables (h : Host) (Hq : faults h = []).

Lemma run_bind {E A B : Type} (m : Fetch E A) (k : A → Fetch E B) g a g' : m g = (Ok a, g') → (m ≫= k) g = k a g'.
Proof. intros H. unfold mbind, fetch_bind. by rewrite H. Qed.
Lemma run_mapping {E F A : Type} (f : E → F) (m : Fetch E A) g a g' : m g = (Ok a, g') → mapping f m g = (Ok a, g').
Proof. intros H. unfold mapping. by rewrite H. Qed.
Lemma run_attempt {E F A : Type} (m : Fetch E A) g r g' : m g = (r, g') → attempt (F := F) m g = (Ok r, g').
Proof. intros H. unfold attempt. by rewrite H. Qed.
Lemma io_check_quiet : io_check h = (Ok tt, h).
Proof. unfold io_check, checked, faulty. by rewrite Hq. Qed.
Lemma fs_exists_quiet {E} p : fs_exists (E := E) p h = (Ok (bool_decide (is_Some (files h !! p))), h).
Proof. unfold fs_exists, faulty. by rewrite Hq. Qed.
Lemma fs_read_quiet p x : files h !! p = Some x → fs_read p h = (Ok (f_bytes x), h).
Proof. intros Hx. unfold fs_read, checked, faulty. by rewrite Hq, Hx. Qed.
Lemma fs_rename_quiet p q x :
  files h !! p = Some x → fs_rename p q h = (Ok tt, set_files (<[q := x]> (delete p (files h))) h).
Proof. intros Hx. unfold fs_rename, checked, faulty. by rewrite Hq, Hx. Qed.
Lemma make_executable_quiet p x :
  target_windows = false → files h !! p = Some x →
  make_executable p h = (Ok p, set_files (<[p := mkFile (f_bytes x) (Z.lor (f_mode x) 73)]> (files h)) h).
Proof.
  intros Hw Hx. unfold make_executable. rewrite Hw. erewrite run_bind; [reflexivity|]. apply run_mapping.
  unfold make_executable_unix. erewrite run_bind; [|unfold fs_open, checked, faulty; by rewrite Hq, Hx].
  erewrite run_bind; [|apply io_check_quiet]. unfold fs_set_mode, checked, faulty. by rewrite Hq, Hx.
Qed.
End quiet.
