(* ===== verification/TlsEnvelope.v ===== *)
(** * Encryption of TLS material at rest ([auth/src/tls_envelope.rs])

    Keys and their texts, the envelope around certificates and private keys, and the
    start-up that finds a key in the environment or on disk, or makes one.  The cipher
    and the [base64] engine are parameters; the nonce of each encryption and the key
    of each generation are arguments.  Files are those of [Disk]. *)

From Stdlib Require Import ZArith Lia Ascii.
From stdpp Require Import base gmap sets list sorting strings pretty fin_maps numbers relations.
From S2P Require Import Prelude Bytes Text JobCore Hex Http Disk.

#[local] Open Scope Z_scope.

Inductive TlsEnvelopeError :=
| InvalidHexFormat | InvalidKeyLength (n : Z) | EncryptionError (e : string) | DecryptionError (e : string)
| InvalidCiphertextFormat (e : string) | Base64Error | Utf8Error | EnvelopeIo (e : string).

(** ** Parameters *)

(** [ChaCha20Poly1305]: a key of 32 bytes and a nonce of 12 *)
Class Chacha := {
  seal : list Byte8 → list Byte8 → list Byte8 → result string (list Byte8);
  unseal : list Byte8 → list Byte8 → list Byte8 → result string (list Byte8);
}.
(** What was sealed opens, and only what was sealed: the tag and the ciphertext are
    functions of key, nonce and plaintext. *)
Class ChachaLaws (C : Chacha) := {
  unseal_seal k n m c : seal k n m = Ok c → unseal k n c = Ok m;
  seal_unseal k n m c : unseal k n c = Ok m → seal k n m = Ok c;
}.
(** The [STANDARD] engine of [base64] *)
Class Base64 := { std_encode : list Byte8 → string; std_decode : string → option (list Byte8) }.
Class Base64Laws (B : Base64) := { std_decode_encode l : Forall is_byte l → std_decode (std_encode l) = Some l }.

(** ** Keys *)

(** [TlsEnvelopeKey]: 32 bytes *)
Abbreviation TlsEnvelopeKey := (list Byte8).
Definition key_ok (k : TlsEnvelopeKey) : Prop := length k = 32%nat ∧ Forall is_byte k.

Definition key_of_bytes (b : list Byte8) : result TlsEnvelopeError TlsEnvelopeKey :=
  if bool_decide (length b = 32%nat) then Ok b else Err (InvalidKeyLength (zlen b)).
(** [as_hex], [from_hex] *)
Definition key_as_hex (k : TlsEnvelopeKey) : string := hex_encode k.
Definition key_from_hex (s : string) : result TlsEnvelopeError TlsEnvelopeKey :=
  match decode_hex s with None => Err InvalidHexFormat | Some b => key_of_bytes b end.

(** ** The envelope *)

Section envelope.
  Context `{C : Chacha} `{B : Base64}.

(** [TlsEnvelope::encrypt], with the nonce it draws *)
Definition tls_encrypt (key nonce plaintext : list Byte8) : result TlsEnvelopeError (list Byte8) :=
  match seal key nonce plaintext with
  | Err e => Err (EncryptionError e)
  | Ok ciphertext => Ok (nonce ++ ciphertext)
  end.

(** [TlsEnvelope::decrypt] *)
Definition tls_decrypt (key data : list Byte8) : result TlsEnvelopeError (list Byte8) :=
  if bool_decide (length data < 12)%nat then Err (InvalidCiphertextFormat "data too short for nonce")
  else map_err DecryptionError (unseal key (take 12 data) (drop 12 data)).

(** [TlsEnvelope::encrypt_string], [TlsEnvelope::decrypt_string] *)
Definition encrypt_string (key nonce : list Byte8) (plaintext : string) : result TlsEnvelopeError string :=
  data ← tls_encrypt key nonce (str_bytes plaintext); Ok (std_encode data).
Definition decrypt_string (key : list Byte8) (encoded : string) : result TlsEnvelopeError string :=
  match std_decode encoded with
  | None => Err Base64Error
  | Some data =>
      plaintext ← tls_decrypt key data;
      match from_utf8 plaintext with Some s => Ok (string_of_bytes s) | None => Err Utf8Error end
  end.

End envelope.

(** ** Keys on disk *)

Section keys.
  Context `{P : Platform}.

Definition path_of (s : string) : Path := split_char "/" s.

(** [load_key_from_file] *)
Definition load_key_from_file (p : Path) : Fetch TlsEnvelopeError TlsEnvelopeKey :=
  mapping EnvelopeIo (fs_open p) ≫= λ _,
  mapping EnvelopeIo (fs_read p) ≫= λ key_bytes, lift (key_of_bytes key_bytes).

(** [OpenOptions::new().write(true).create(true).truncate(true).mode(0o600)]: the mode
    is that of a new file *)
Definition KEY_MODE : Z := 384.
Definition fs_create_private (p : Path) : Fetch string unit := checked (λ h,
  (Ok tt, set_files (<[p := mkFile [] (from_option f_mode (if target_windows then create_mode else KEY_MODE) (files h !! p))]> (files h)) h)).

(** [save_key_to_file] *)
Definition save_key_to_file (key : TlsEnvelopeKey) (p : Path) : Fetch TlsEnvelopeError unit :=
  mapping EnvelopeIo (fs_create_private p) ≫= λ _,
  mapping EnvelopeIo (fs_append p key) ≫= λ _, mapping EnvelopeIo io_check.

Definition default_key_path (db_path : Path) : Path := db_path ++ [".tls_envelope_key"%string].

(** [init_tls_envelope_key]: each place is tried in turn, and a failure at one of them
    is only logged.  [generated] is the key [generate] draws. *)
Definition init_tls_envelope_key (db_path : Path) (generated : TlsEnvelopeKey) : Fetch TlsEnvelopeError TlsEnvelopeKey :=
  let generate := save_key_to_file generated (default_key_path db_path) ≫= λ _, mret generated in
  let from_default :=
    fs_exists (default_key_path db_path) ≫= λ found : bool,
    if found then
      attempt (load_key_from_file (default_key_path db_path)) ≫= λ r : result TlsEnvelopeError TlsEnvelopeKey,
      match r with Ok key => mret key | Err _ => generate end
    else generate in
  let from_path :=
    match env_var "TLS_ENVELOPE_KEY_PATH" with
    | Some s =>
        fs_exists (path_of s) ≫= λ found : bool,
        if found then
          attempt (load_key_from_file (path_of s)) ≫= λ r : result TlsEnvelopeError TlsEnvelopeKey,
          match r with Ok key => mret key | Err _ => from_default end
        else from_default
    | None => from_default
    end in
  match env_var "TLS_ENVELOPE_KEY" with
  | Some s => match key_from_hex s with Ok key => mret key | Err _ => from_path end
  | None => from_path
  end.

End keys.

(** ** Round trips *)

Section laws.
  Context `{CL : ChachaLaws} `{BL : Base64Laws}.

(** The text of a key is read back. *)
Lemma key_hex_round k : key_ok k → key_from_hex (key_as_hex k) = Ok k.
Proof.
  intros [Hl Hb]. unfold key_from_hex, key_as_hex. rewrite decode_hex_encode by done.
  unfold key_of_bytes. by rewrite bool_decide_true.
Qed.

(** Decryption undoes encryption, and what it accepts is an encryption: nobody without
    the key makes data that it opens. *)
Theorem envelope_exact key data m :
  tls_decrypt key data = Ok m ↔ ∃ nonce, length nonce = 12%nat ∧ tls_encrypt key nonce m = Ok data.
Proof.
  unfold tls_decrypt, tls_encrypt. split.
  - case_bool_decide as Hl; [done|]. intros H%map_err_Ok%seal_unseal. exists (take 12 data).
    rewrite length_take, H, take_drop. split; [lia|done].
  - intros (nonce & Hn & H). destruct (seal key nonce m) as [c|e] eqn:Hs; [|done]. injection H as <-.
    rewrite bool_decide_false by (rewrite length_app; lia).
    rewrite take_app_length', drop_app_length' by done. apply unseal_seal in Hs. by rewrite Hs.
Qed.

(** Text goes through encryption and its encoding. *)
Lemma envelope_text_round key nonce s t :
  length nonce = 12%nat → Forall is_byte nonce → from_utf8 (str_bytes s) = Some (str_bytes s) →
  (∀ c, seal key nonce (str_bytes s) = Ok c → Forall is_byte c) →
  encrypt_string key nonce s = Ok t → decrypt_string key t = Ok (string_of_bytes (str_bytes s)).
Proof.
  intros Hn Hb Hu Hc H. unfold encrypt_string in H. destruct (tls_encrypt key nonce (str_bytes s)) as [d|e] eqn:He; [|done].
  injection H as <-. unfold decrypt_string. rewrite std_decode_encode.
  - assert (tls_decrypt key d = Ok (str_bytes s)) as -> by (apply envelope_exact; eauto). cbn. by rewrite Hu.
  - unfold tls_encrypt in He. destruct (seal key nonce (str_bytes s)) as [c|] eqn:Hs; [|done]. injection He as <-.
    apply Forall_app. eauto.
Qed.

End laws.

(** ** The key at start *)

Section persist.
  Context `{P : Platform}.

Lemma load_key_quiet p h : faults h = [] →
  load_key_from_file p h = (match files h !! p with None => Err (EnvelopeIo io_error) | Some x => key_of_bytes (f_bytes x) end, h).
Proof.
  intros Hq. unfold load_key_from_file, fs_open, fs_read, mapping, checked, faulty, mbind, fetch_bind. rewrite Hq.
  destruct (files h !! p) as [x|] eqn:Hp; cbn [map_err]; [|done]. by rewrite Hq.
Qed.

Lemma save_key_quiet key p h : faults h = [] →
  ∃ m, save_key_to_file key p h = (Ok tt, set_files (<[p := mkFile key m]> (files h)) h).
Proof.
  intros Hq. unfold save_key_to_file, fs_create_private, mapping, checked, faulty, mbind, fetch_bind. rewrite Hq.
  cbn [map_err]. unfold fs_append, faulty. cbn [faults set_files files]. rewrite Hq. cbn [files set_files].
  rewrite lookup_insert_eq. cbn [map_err]. unfold io_check, checked, faulty. cbn [faults set_files]. rewrite Hq. cbn [mret fetch_ret map_err].
  eexists. unfold set_files. cbn. rewrite insert_insert_eq. done.
Qed.

(** What [init_tls_envelope_key] finds on a quiet disk *)
Definition stored_key (db_path : Path) (f : gmap Path File) : option TlsEnvelopeKey :=
  let at_path p := f !! p ≫= λ x, result_ok (key_of_bytes (f_bytes x)) in
  match env_var "TLS_ENVELOPE_KEY" ≫= λ s, result_ok (key_from_hex s) with
  | Some k => Some k
  | None =>
      match env_var "TLS_ENVELOPE_KEY_PATH" ≫= λ s, at_path (path_of s) with
      | Some k => Some k
      | None => at_path (default_key_path db_path)
      end
  end.

Lemma init_quiet db g h : faults h = [] →
  match stored_key db (files h) with
  | Some k => init_tls_envelope_key db g h = (Ok k, h)
  | None => ∃ m, init_tls_envelope_key db g h = (Ok g, set_files (<[default_key_path db := mkFile g m]> (files h)) h)
  end.
Proof.
  intros Hq. set (gen := save_key_to_file g (default_key_path db) ≫= λ _, mret g).
  assert (Hgen : ∃ m, gen h = (Ok g, set_files (<[default_key_path db := mkFile g m]> (files h)) h)).
  { destruct (save_key_quiet g (default_key_path db) h Hq) as [m Hm]. exists m. unfold gen. by rewrite (run_bind _ _ _ _ _ Hm). }
  assert (Hat : ∀ p (rest : Fetch TlsEnvelopeError TlsEnvelopeKey),
    (fs_exists p ≫= λ found : bool, if found then attempt (load_key_from_file p) ≫= λ r : result TlsEnvelopeError TlsEnvelopeKey,
       match r with Ok key => mret key | Err _ => rest end else rest) h
    = match files h !! p ≫= λ x, result_ok (key_of_bytes (f_bytes x)) with Some k => (Ok k, h) | None => rest h end).
  { intros p rest. rewrite (run_bind _ _ _ _ _ (fs_exists_quiet h Hq p)). case_bool_decide as He.
    - rewrite (run_bind _ _ _ _ _ (run_attempt _ _ _ _ (load_key_quiet p h Hq))). destruct He as [x ->]. cbn. by destruct (key_of_bytes (f_bytes x)).
    - apply eq_None_not_Some in He. by rewrite He. }
  unfold init_tls_envelope_key, stored_key. fold gen.
  destruct (env_var "TLS_ENVELOPE_KEY") as [s|]; [cbn; destruct (key_from_hex s) as [k|]; [done|]|]; cbn [mbind option_bind result_ok].
  all: destruct (env_var "TLS_ENVELOPE_KEY_PATH") as [s'|]; cbn [mbind option_bind]; rewrite ?Hat; [destruct (_ ≫= _); [done|]|]; rewrite ?Hat; by destruct (_ ≫= _).
Qed.

(** The key survives restarts: on a quiet disk a second start finds the key that the
    first one used, whatever the generator draws, and changes no file. *)
Theorem envelope_key_persists db g g' h :
  faults h = [] → key_ok g →
  ∃ k h', init_tls_envelope_key db g h = (Ok k, h') ∧ init_tls_envelope_key db g' h' = (Ok k, h').
Proof.
  intros Hq [Hg _]. pose proof (init_quiet db g h Hq) as H1. destruct (stored_key db (files h)) as [k|] eqn:Hs.
  - exists k, h. split; [done|]. pose proof (init_quiet db g' h Hq) as H2. by rewrite Hs in H2.
  - destruct H1 as [m H1]. eexists _, _. split; [exact H1|].
    pose proof (init_quiet db g' (set_files (<[default_key_path db := mkFile g m]> (files h)) h) Hq) as H2.
    cbn [files set_files] in H2. assert (stored_key db (<[default_key_path db := mkFile g m]> (files h)) = Some g) as Hst; [|by rewrite Hst in H2].
    revert Hs. unfold stored_key. destruct (env_var "TLS_ENVELOPE_KEY" ≫= _); [done|].
    rewrite lookup_insert_eq. cbn [mbind option_bind f_bytes]. assert (key_of_bytes g = Ok g) as -> by (unfold key_of_bytes; by rewrite bool_decide_true).
    destruct (env_var "TLS_ENVELOPE_KEY_PATH") as [s|]; [|done]. cbn [mbind option_bind].
    destruct (decide (default_key_path db = path_of s)) as [->|Hne].
    + rewrite lookup_insert_eq. cbn. unfold key_of_bytes. by rewrite bool_decide_true.
    + rewrite lookup_insert_ne by done. by destruct (_ ≫= _).
Qed.

End persist.

(** ** What the start does beyond that *)

Section limits.
  Context `{P : Platform}.

(** One failed read of a good key replaces it: the failure is only logged, a new key is
    made and written over the file, and nothing encrypted under the old key opens again. *)
Theorem key_replaced_after_fault db g k mode n served :
  env_var "TLS_ENVELOPE_KEY" = None → env_var "TLS_ENVELOPE_KEY_PATH" = None →
  init_tls_envelope_key db g (mkHost {[default_key_path db := mkFile k mode]} [None; Some n] served)
  = (Ok g, mkHost {[default_key_path db := mkFile g mode]} [] served).
Proof.
  intros He Hp. unfold init_tls_envelope_key. rewrite He, Hp. unfold fs_exists, faulty, mbind, fetch_bind. cbn [faults files].
  rewrite lookup_singleton_eq, bool_decide_true by eauto. unfold attempt, load_key_from_file, fs_open, mapping, checked, faulty, mbind, fetch_bind.
  cbn. unfold save_key_to_file, fs_create_private, mapping, checked, faulty, mbind, fetch_bind. cbn [faults files]. rewrite lookup_singleton_eq.
  cbn. unfold fs_append, faulty. cbn. rewrite lookup_insert_eq. cbn. unfold io_check, checked, faulty. cbn.
  unfold set_files. cbn. by rewrite insert_insert_eq, insert_singleton_eq.
Qed.

(** The private mode is that of a new file only: a file that others may read keeps its
    mode when the key is written to it. *)
Lemma saved_key_keeps_mode g p x h :
  faults h = [] → files h !! p = Some x →
  save_key_to_file g p h = (Ok tt, set_files (<[p := mkFile g (f_mode x)]> (files h)) h).
Proof.
  intros Hq Hx. unfold save_key_to_file, fs_create_private, mapping, checked, faulty, mbind, fetch_bind. rewrite Hq, Hx.
  cbn [map_err]. unfold fs_append, faulty. cbn [faults set_files files]. rewrite Hq. cbn [files set_files].
  rewrite lookup_insert_eq. cbn [map_err]. unfold io_check, checked, faulty. cbn [faults set_files]. rewrite Hq. cbn.
  unfold set_files. cbn. by rewrite insert_insert_eq.
Qed.

End limits.

(** ** Runs *)

#[local] Instance toy_chacha : Chacha := {|
  seal k n m := Ok (k ++ n ++ m);
  unseal k n c := if bool_decide (take (length (k ++ n)) c = k ++ n) then Ok (drop (length (k ++ n)) c) else Err "aead"%string;
|}.
#[local] Instance toy_chacha_laws : ChachaLaws toy_chacha.
Proof.
  split; intros k n m c; cbn.
  - intros [= <-]. by rewrite app_assoc, take_app_length, drop_app_length, bool_decide_true.
  - case_bool_decide as Ht; [|done]. intros [= <-]. by rewrite app_assoc, <- Ht at 1; rewrite take_drop.
Qed.

#[local] Instance bare_platform : Platform :=
  {| OS := "linux"; ARCH := "x86_64"; target_windows := false; env_var _ := None; create_mode := 420 |}.

Lemma envelope_key_persists_witness :
  ∃ k h', init_tls_envelope_key ["data"%string] (replicate 32 7) (mkHost ∅ [] 0) = (Ok k, h') ∧
    init_tls_envelope_key ["data"%string] (replicate 32 9) h' = (Ok k, h').
Proof.
  refine (envelope_key_persists ["data"%string] (replicate 32 7) (replicate 32 9) (mkHost ∅ [] 0) _ _); [reflexivity|].
  split; [reflexivity|]. apply Forall_replicate. unfold is_byte. lia.
Defined.

Lemma key_replaced_after_fault_witness :
  init_tls_envelope_key [] (replicate 32 9) (mkHost {[default_key_path [] := mkFile (replicate 32 7) 384]} [None; Some 0%nat] 0)
  = (Ok (replicate 32 9), mkHost {[default_key_path [] := mkFile (replicate 32 9) 384]} [] 0).
Proof. refine (key_replaced_after_fault [] (replicate 32 9) (replicate 32 7) 384 0 0 _ _); reflexivity. Defined.

Lemma envelope_exact_witness :
  tls_decrypt (C := toy_chacha) [1] ([1; 1; 2; 3; 4; 5; 6; 7; 8; 9; 10; 11] ++ [1] ++ [1; 1; 2; 3; 4; 5; 6; 7; 8; 9; 10; 11] ++ [42]) = Ok [42].
Proof. apply (envelope_exact (C := toy_chacha)). exists [1; 1; 2; 3; 4; 5; 6; 7; 8; 9; 10; 11]. split; reflexivity. Defined.
