(* ===== verification/Sources.v ===== *)
(** * Sources of binaries ([manager/src/sources/types.rs], [manifest.rs], [mod.rs],
      [remote.rs], [github.rs], [container.rs])

    How the manager gets the program of a blueprint: from an archive at a URL, from a
    release on GitHub or from a container registry.  Archives and the tools the code
    runs ([gh], [docker]) are parameters. *)

From Stdlib Require Import ZArith Lia Ascii.
From stdpp Require Import base gmap sets list sorting strings pretty fin_maps numbers relations.
From S2P Require Import Prelude Bytes Text Hex Http Disk.

#[local] Open Scope Z_scope.

(** ** Types *)

Record BlueprintBinary := mkBinary {
  bb_arch : string; bb_os : string; bb_name : string; bb_sha256 : B256; bb_blake3 : option B256;
}.
Record TestFetcher := mkTestFetcher { cargo_package : string; cargo_bin : string; base_path : string }.
Record GithubFetcher := mkGithubFetcher { gf_owner : string; gf_repo : string; gf_tag : string; gf_binaries : list BlueprintBinary }.
Record ImageRegistryFetcher := mkImageFetcher { if_registry : string; if_image : string; if_tag : string }.
Record RemoteFetcher := mkRemoteFetcher { dist_url : string; archive_url : string; rf_binaries : list BlueprintBinary }.
Inductive BlueprintSource :=
| Testing (f : TestFetcher) | Github (f : GithubFetcher) | Container (f : ImageRegistryFetcher) | Remote (f : RemoteFetcher).

(** [BlueprintBinary::matches] *)
Definition binary_matches (b : BlueprintBinary) (target_os target_arch : string) : bool :=
  contains (to_ascii_lowercase target_os) (to_ascii_lowercase (bb_os b)) &&
  contains (to_ascii_lowercase target_arch) (to_ascii_lowercase (bb_arch b)).

(** ** Manifests *)

Definition MANIFEST_SCHEMA_V1 : string := "tangle-binary-manifest/v1".
Record ManifestBinary := mkManifestBinary {
  mb_os : string; mb_arch : string; mb_url : string; mb_sha256 : string; mb_blake3 : option string;
}.
Record BinaryManifest := mkManifest { mf_schema : string; mf_binaries : list ManifestBinary }.
(** [serde_json] on the two kinds of manifest; of the second, whether an artifact is
    a zip of executables and which assets are executables *)
Record DistAsset := mkDistAsset { da_executable : bool; da_name : option string }.
Record DistArtifact := mkDistArtifact { dr_executable_zip : bool; dr_assets : list DistAsset }.
Class ManifestJson := {
  manifest_json : list Byte8 → option BinaryManifest;
  dist_json : list Byte8 → option (list DistArtifact);
}.

(** [decode_hex32], [sha256_bytes], [blake3_bytes] *)
Definition decode_hex32 (value field : string) : result ManagerError B256 :=
  match decode_hex (default value (strip_prefix "0x" value)) with
  | None => Err (MgOther ("manifest `" +:+ field +:+ "` is not valid hex"))
  | Some bytes =>
      if Nat.eqb (length bytes) 32 then Ok bytes
      else Err (MgOther ("manifest `" +:+ field +:+ "` must be 32 bytes, got " +:+ pretty (length bytes)))
  end.
Definition entry_sha256_bytes (e : ManifestBinary) : result ManagerError B256 := decode_hex32 (mb_sha256 e) "sha256".
Definition entry_blake3_bytes (e : ManifestBinary) : result ManagerError (option B256) :=
  match mb_blake3 e with Some hex => b ← decode_hex32 hex "blake3"; Ok (Some b) | None => Ok None end.

(** [uri_looks_like_manifest] *)
Fixpoint before_query (s : string) : string :=
  match s with
  | EmptyString => EmptyString
  | String a s => if bool_decide (a = "?"%char) || bool_decide (a = "#"%char) then EmptyString else String a (before_query s)
  end.
Definition uri_looks_like_manifest (uri : string) : bool :=
  match last (split_char "/" (trim_end_matches "/" (before_query uri))) with
  | Some name => ends_with ".json" (to_ascii_lowercase name)
  | None => false
  end.

Section manifest.
  Context `{J : ManifestJson}.

(** [parse_manifest], [bytes_are_manifest] *)
Definition parse_manifest (bytes : list Byte8) : result ManagerError BinaryManifest :=
  match manifest_json bytes with
  | None => Err MgSerialization
  | Some m =>
      if negb (bool_decide (mf_schema m = MANIFEST_SCHEMA_V1)) then
        Err (MgOther ("unsupported binary manifest schema `" +:+ mf_schema m +:+ "` (expected `" +:+ MANIFEST_SCHEMA_V1 +:+ "`)"))
      else if bool_decide (mf_binaries m = []) then Err (MgOther "binary manifest lists no binaries")
      else Ok m
  end.
Definition bytes_are_manifest (bytes : list Byte8) : bool := match parse_manifest bytes with Ok _ => true | Err _ => false end.
End manifest.

#[export] Instance BlueprintBinary_eq_dec : EqDecision BlueprintBinary.
Proof. solve_decision. Defined.
#[export] Instance ManifestBinary_eq_dec : EqDecision ManifestBinary.
Proof. solve_decision. Defined.

Section platform.
  Context `{Pl : Platform}.

(** [get_blueprint_binary], [select_for_current_platform] *)
Definition host_os : string := normalize_os get_formatted_os_string.
Definition host_arch : string := normalize_arch ARCH.
Definition for_host (os arch : string) : bool :=
  bool_decide (normalize_os os = host_os) && bool_decide (normalize_arch arch = host_arch).
Definition get_blueprint_binary (binaries : list BlueprintBinary) : option BlueprintBinary :=
  List.find (λ b, for_host (bb_os b) (bb_arch b)) binaries.
Definition select_for_current_platform (m : BinaryManifest) : option ManifestBinary :=
  List.find (λ b, for_host (mb_os b) (mb_arch b)) (mf_binaries m).
End platform.

(** ** Archives *)

(** [Path::components] on Unix, of a relative or absolute path *)
Inductive Component := RootDir | CurDir | ParentDir | Normal (name : string).
Definition part_component (first : bool) (part : string) : list Component :=
  if bool_decide (part = ""%string) then []
  else if bool_decide (part = "."%string) then (if first then [CurDir] else [])
  else if bool_decide (part = ".."%string) then [ParentDir]
  else [Normal part].
Definition is_absolute (p : string) : bool := String.prefix "/" p.
Definition components (p : string) : list Component :=
  match split_char "/" p with
  | [] => []
  | first :: rest =>
      (if is_absolute p then [RootDir] else part_component true first) ++ mjoin (part_component false <$> rest)
  end.
(** [is_safe_archive_path] *)
Definition is_safe_archive_path (p : string) : bool :=
  negb (is_absolute p) && forallb (λ c, match c with ParentDir | RootDir => false | _ => true end) (components p).

Inductive EntryType := EtFile | EtDir | EtSymlink | EtHardLink | EtOther.
Record TarEntry := mkTarEntry { te_path : string; te_type : EntryType; te_file : File }.
Class Archives := {
  tar_entries : list Byte8 → result string (list (result string TarEntry));
  unpack_in : TarEntry → gmap Path File → result string bool * gmap Path File;
  walk : gmap Path File → list Path;
}.
(** A walk visits the files. *)
Class ArchivesLaws (A : Archives) := { walk_spec f p : p ∈ walk f ↔ is_Some (f !! p) }.

(** What [gh] and [docker] answer: is there a [gh], does it run, does it accept the
    archive; the exit of a pull *)
Inductive AttestationResult := AttOk | NotMatching | NoCli.
Class Tools := {
  gh_installed : bool;
  gh_verify : string → Path → option bool;
  docker_pull : string → result string Z;
}.

Section archives.
  Context `{A : Archives}.

Definition unpack_one (e : TarEntry) : Fetch ManagerError unit := λ h,
  let '(r, f) := unpack_in e (files h) in
  (match r with
   | Err x => Err (MgIo x)
   | Ok true => Ok tt
   | Ok false => Err (MgOther ("Archive entry escaped destination: " +:+ te_path e))
   end, set_files f h).
(** [unpack_archive_safely] *)
Fixpoint unpack_entries (l : list (result string TarEntry)) : Fetch ManagerError unit :=
  match l with
  | [] => mret tt
  | Err e :: _ => throw (MgIo e)
  | Ok e :: l =>
      if negb (is_safe_archive_path (te_path e)) then throw (MgOther ("Unsafe archive entry path rejected: " +:+ te_path e))
      else match te_type e with
      | EtSymlink | EtHardLink => throw (MgOther ("Archive entry type not allowed for security reasons: " +:+ te_path e))
      | _ => _ ← unpack_one e; unpack_entries l
      end
  end.
Definition unpack_archive_safely (archive : list Byte8) : Fetch ManagerError unit :=
  match tar_entries archive with Err e => throw (MgIo e) | Ok l => unpack_entries l end.

(** [WalkDir] *)
Definition walk_dir : Fetch ManagerError (list Path) := _ ← mapping (λ _, MgWalkDir) io_check; gets walk.
Definition named (name : string) (p : Path) : bool := bool_decide (last p = Some name).
Fixpoint remove_named (name : string) (l : list Path) : Fetch ManagerError unit :=
  match l with
  | [] => mret tt
  | p :: l => if named name p then _ ← ignore (fs_remove p); remove_named name l else remove_named name l
  end.
End archives.

(** ** Archives at a URL *)

Definition DEFAULT_MAX_ARCHIVE_BYTES : Z := 512 * 1024 * 1024.
Definition DOWNLOAD_RETRIES : nat := 3.

Record RemoteBinaryFetcher := mkRemote {
  rb_fetcher : RemoteFetcher;
  rb_blueprint_id : Z;
  rb_blueprint_name : string;
  max_archive_bytes : Z;
  ipfs_gateway : option string;
  target_binary_name : option string;
  selected_binary : option BlueprintBinary;
}.

Section remote.
  Context `{Pl : Platform} `{N : Net} `{D : Digests} `{J : ManifestJson} `{A : Archives}.

(** The limit from the environment *)
Definition max_bytes_of_env : Z :=
  match env_var "MAX_ARCHIVE_BYTES" ≫= parse_u64 with
  | Some v => if 0 <? v then v else DEFAULT_MAX_ARCHIVE_BYTES
  | None => DEFAULT_MAX_ARCHIVE_BYTES
  end.
(** [RemoteBinaryFetcher::new] *)
Definition remote_new (f : RemoteFetcher) (blueprint_id : Z) (name : string) : RemoteBinaryFetcher :=
  mkRemote f blueprint_id name max_bytes_of_env (env_var "IPFS_GATEWAY_URL") None None.

(** [cache_key] *)
Definition cache_key (s : RemoteBinaryFetcher) : string :=
  let st := hs_update blake3_hasher (hs_new blake3_hasher) (str_bytes (dist_url (rb_fetcher s))) in
  let st := hs_update blake3_hasher st (str_bytes (archive_url (rb_fetcher s))) in
  hex_encode (take 8 (hs_finalize blake3_hasher st)).
Definition archive_path_of (s : RemoteBinaryFetcher) : Path := ["remote-archive-" +:+ cache_key s].
Definition manifest_path_of (s : RemoteBinaryFetcher) : Path := ["remote-" +:+ cache_key s +:+ "-dist.json"].

(** The URL of a name on a gateway *)
Definition gateway_url (gateway suffix : string) : string :=
  trim_end_matches "/" gateway +:+ "/" +:+ trim_start_char "/" suffix.
(** [resolve_url] *)
Definition remote_resolve_url (s : RemoteBinaryFetcher) (raw : string) : result ManagerError string :=
  if String.prefix "ipfs://" raw then
    match ipfs_gateway s with
    | None => Err (MissingIpfsGateway raw)
    | Some gateway =>
        map_err (λ err, DownloadFailed raw ("failed to build gateway URL: " +:+ err))
          (url_parse (gateway_url gateway (trim_start_char "/" (trim_start_matches "ipfs://" raw))))
    end
  else map_err (DownloadFailed raw) (url_parse raw).

(** [send_request]: up to four attempts *)
Definition is_success (status : Z) : bool := (200 <=? status) && (status <? 300).
Fixpoint send_attempts (attempts : nat) (url last_error : string) : Fetch ManagerError (option Z * list (result string (list Byte8))) :=
  match attempts with
  | O => throw (DownloadFailed url last_error)
  | S attempts =>
      r ← net_get url;
      match r with
      | NetResp status len chunks =>
          if is_success status then mret (len, chunks) else send_attempts attempts url ("HTTP " +:+ pretty status)
      | NetErr e => send_attempts attempts url e
      end
  end.
Definition send_request (url : string) : Fetch ManagerError (option Z * list (result string (list Byte8))) :=
  send_attempts (S DOWNLOAD_RETRIES) url "".

(** [download_manifest] *)
Definition body_bytes {E} (err : string → E) (chunks : list (result string (list Byte8))) : result E (list Byte8) :=
  match traverse (map_err err) chunks with Ok l => Ok (mjoin l) | Err e => Err e end.
Definition download_manifest (url : string) : Fetch ManagerError (list Byte8) :=
  '(_, chunks) ← send_request url; lift (body_bytes (DownloadFailed url) chunks).

(** The parts of a body into a file, up to a number of bytes *)
Fixpoint copy_chunks {E} (io : string → E) (failed : string → E) (too_large : Z → E)
    (dest : Path) (max downloaded : Z) (chunks : list (result string (list Byte8))) : Fetch E unit :=
  match chunks with
  | [] => mapping io io_check
  | Err e :: _ => throw (failed e)
  | Ok chunk :: chunks =>
      let downloaded := downloaded + zlen chunk in
      if max <? downloaded then _ ← ignore (fs_remove dest); throw (too_large downloaded)
      else _ ← mapping io (fs_append dest chunk); copy_chunks io failed too_large dest max downloaded chunks
  end.

(** [download_archive] *)
Definition download_archive (s : RemoteBinaryFetcher) (url : string) (dest : Path) : Fetch ManagerError unit :=
  '(len, chunks) ← send_request url;
  let total_len := default 0 len in
  if (max_archive_bytes s <? total_len) && (0 <? total_len) then throw (ArchiveTooLarge url total_len (max_archive_bytes s))
  else
    let temp_path := with_extension "part" dest in
    _ ← mapping MgIo (fs_create temp_path);
    _ ← copy_chunks MgIo (DownloadFailed url) (λ size, ArchiveTooLarge url size (max_archive_bytes s))
          temp_path (max_archive_bytes s) 0 chunks;
    mapping MgIo (fs_rename temp_path dest).

(** [ensure_manifest_contains_binary] *)
Definition manifest_has_binary (m : list DistArtifact) (name : string) : bool :=
  existsb (λ a, dr_executable_zip a && existsb (λ x, da_executable x && bool_decide (da_name x = Some name)) (dr_assets a)) m.
Definition ensure_manifest_contains_binary (m : list DistArtifact) (name : string) : result ManagerError unit :=
  if manifest_has_binary m name then Ok tt else Err NoMatchingBinary.

(** [get_binary]: the fetcher remembers the binary for the platform *)
Definition fetch_remote_files (s : RemoteBinaryFetcher) : Fetch ManagerError unit :=
  dist_url ← lift (remote_resolve_url s (dist_url (rb_fetcher s)));
  archive_url ← lift (remote_resolve_url s (archive_url (rb_fetcher s)));
  manifest_bytes ← download_manifest dist_url;
  _ ← mapping MgIo (fs_write (manifest_path_of s) manifest_bytes);
  download_archive s archive_url (archive_path_of s).
Definition remote_get_binary (s : RemoteBinaryFetcher) : RemoteBinaryFetcher * Fetch ManagerError Path :=
  match get_blueprint_binary (rf_binaries (rb_fetcher s)) with
  | None => (s, throw NoMatchingBinary)
  | Some b =>
      let s := mkRemote (rb_fetcher s) (rb_blueprint_id s) (rb_blueprint_name s) (max_archive_bytes s) (ipfs_gateway s)
                 (Some (bb_name b)) (Some b) in
      (s,
       has_archive ← valid_file_exists (archive_path_of s);
       has_manifest ← valid_file_exists (manifest_path_of s);
       _ ← (if has_archive && has_manifest then mret tt
            else
              _ ← (if has_archive || has_manifest
                   then _ ← ignore (fs_remove (archive_path_of s)); ignore (fs_remove (manifest_path_of s))
                   else mret tt);
              fetch_remote_files s);
       manifest_bytes ← mapping MgIo (fs_read (manifest_path_of s));
       manifest ← lift (ok_or (dist_json manifest_bytes) MgSerialization);
       _ ← lift (ensure_manifest_contains_binary manifest (bb_name b));
       mret (archive_path_of s))
  end.

(** [clear_cache] *)
Definition clear_cache {E} (archive_path manifest_path : Path) : Fetch E unit :=
  _ ← ignore (fs_remove archive_path); ignore (fs_remove manifest_path).

(** [unpack_archive], with its gate on digests *)
Definition remote_verify_digest (s : RemoteBinaryFetcher) (p : Path) : Fetch ManagerError unit :=
  b ← lift (ok_or (selected_binary s) NoMatchingBinary);
  verify_binary_digest p (bb_sha256 b) (bb_blake3 b).
Definition unpack_archive (s : RemoteBinaryFetcher) (archive_path : Path) : Fetch ManagerError Path :=
  binary_name ← lift (ok_or (target_binary_name s) NoMatchingBinary);
  before ← walk_dir;
  _ ← remove_named binary_name before;
  archive ← mapping MgIo (fs_open archive_path);
  _ ← unpack_archive_safely (f_bytes archive);
  after ← walk_dir;
  match List.find (named binary_name) after with
  | None => throw NoMatchingBinary
  | Some binary_path => _ ← remote_verify_digest s binary_path; make_executable binary_path
  end.

(** [fetch]: a failed unpacking is tried once more with fresh files *)
Definition remote_fetch (s : RemoteBinaryFetcher) : RemoteBinaryFetcher * Fetch ManagerError Path :=
  let '(s, get) := remote_get_binary s in
  (s,
   archive_path ← get;
   r ← attempt (unpack_archive s archive_path);
   match r with
   | Ok path => mret path
   | Err _ =>
       _ ← clear_cache archive_path (manifest_path_of s);
       archive_path ← (remote_get_binary s).2;
       unpack_archive s archive_path
   end).

End remote.

(** ** Releases on GitHub *)

(** The fetcher; the name of the binary it looks for is always that of the binary
    for the platform when it is read, and is not kept here *)
Record GithubBinaryFetcher := mkGithub {
  gb_fetcher : GithubFetcher;
  gb_blueprint_id : Z;
  gb_blueprint_name : string;
  gb_allow_unchecked : bool;
  resolved_binary_path : option Path;
}.

Section github.
  Context `{Pl : Platform} `{N : Net} `{J : ManifestJson} `{A : Archives} `{T : Tools}.

(** [GithubBinaryFetcher::new] *)
Definition github_new (f : GithubFetcher) (blueprint_id : Z) (name : string) (allow_unchecked : bool) : GithubBinaryFetcher :=
  mkGithub f blueprint_id name allow_unchecked None.

(** [DownloadUrls::new] *)
Definition release_url (f : GithubFetcher) : string :=
  "https://github.com/" +:+ gf_owner f +:+ "/" +:+ gf_repo f +:+ "/releases/download/" +:+ gf_tag f +:+ "/".
Definition binary_archive_url (b : BlueprintBinary) (f : GithubFetcher) : string :=
  release_url f +:+ bb_name b +:+ "-" +:+ to_ascii_lowercase (bb_os b) +:+ "-" +:+ to_ascii_lowercase (bb_arch b) +:+ ".tar.xz".
Definition dist_manifest_url (f : GithubFetcher) : string := release_url f +:+ "dist-manifest.json".

(** [get_binary]: of a response, whatever its status, the body is taken *)
Definition github_archive_path (f : GithubFetcher) : Path := ["archive-" +:+ gf_tag f].
Definition github_download (b : BlueprintBinary) (f : GithubFetcher) : Fetch ManagerError Path :=
  r ← net_get (dist_manifest_url f);
  match r with
  | NetErr _ => throw NoMatchingBinary
  | NetResp _ _ chunks =>
      contents ← lift (body_bytes MgRequest chunks);
      _ ← mapping MgIo (fs_write ["dist.json"] contents);
      manifest ← lift (ok_or (dist_json contents) MgSerialization);
      _ ← lift (ensure_manifest_contains_binary manifest (bb_name b));
      r ← net_get (binary_archive_url b f);
      match r with
      | NetErr e => throw (MgRequest e)
      | NetResp _ _ chunks =>
          archive ← lift (body_bytes MgRequest chunks);
          _ ← mapping MgIo (fs_create (github_archive_path f));
          _ ← mapping MgIo (fs_append (github_archive_path f) archive);
          _ ← mapping MgIo io_check;
          mret (github_archive_path f)
      end
  end.
Definition github_get_binary (f : GithubFetcher) : Fetch ManagerError (Path * string) :=
  match get_blueprint_binary (gf_binaries f) with
  | None => throw NoMatchingBinary
  | Some b =>
      has_archive ← valid_file_exists (github_archive_path f);
      has_manifest ← valid_file_exists ["dist.json"];
      if has_archive && has_manifest then mret (github_archive_path f, bb_name b)
      else
        _ ← (if has_archive || has_manifest
             then _ ← ignore (fs_remove (github_archive_path f)); ignore (fs_remove ["dist.json"])
             else mret tt);
        p ← github_download b f; mret (p, bb_name b)
  end.

(** [verify_attestation] *)
Definition verify_attestation (owner repo : string) (archive : Path) : AttestationResult :=
  if negb gh_installed then NoCli
  else match gh_verify (owner +:+ "/" +:+ repo) archive with
  | Some true => AttOk
  | Some false => NotMatching
  | None => NoCli
  end.

(** [fetch] *)
Definition github_resolve (s : GithubBinaryFetcher) : Fetch ManagerError Path :=
  '(archive_path, name) ← github_get_binary (gb_fetcher s);
  _ ← lift match verify_attestation (gf_owner (gb_fetcher s)) (gf_repo (gb_fetcher s)) archive_path with
      | AttOk => Ok tt
      | NotMatching => if gb_allow_unchecked s then Ok tt else Err MgAttestationFailed
      | NoCli => if gb_allow_unchecked s then Ok tt else Err NoGithubCli
      end;
  archive ← mapping MgIo (fs_open archive_path);
  _ ← unpack_archive_safely (f_bytes archive);
  after ← walk_dir;
  match List.find (named name) after with
  | None => throw NoMatchingBinary
  | Some binary_path => make_executable binary_path
  end.
Definition set_resolved (p : option Path) (s : GithubBinaryFetcher) : GithubBinaryFetcher :=
  mkGithub (gb_fetcher s) (gb_blueprint_id s) (gb_blueprint_name s) (gb_allow_unchecked s) p.
Definition github_refetch (s : GithubBinaryFetcher) : Fetch ManagerError (result ManagerError Path * GithubBinaryFetcher) :=
  r ← attempt (github_resolve s);
  mret (r, match r with Ok p => set_resolved (Some p) s | Err _ => s end).
Definition github_fetch (s : GithubBinaryFetcher) : Fetch ManagerError (result ManagerError Path * GithubBinaryFetcher) :=
  match resolved_binary_path s with
  | Some p => present ← fs_exists p; if (present : bool) then mret (Ok p, s) else github_refetch (set_resolved None s)
  | None => github_refetch s
  end.

End github.

(** ** Images *)

Record ContainerSource := mkContainer { cs_fetcher : ImageRegistryFetcher; resolved_image : option string }.

(** [ContainerSource::fetch] *)
Definition container_fetch `{T : Tools} (s : ContainerSource) : result ManagerError string * ContainerSource :=
  match resolved_image s with
  | Some image => (Ok image, s)
  | None =>
      let f := cs_fetcher s in
      let full := if_registry f +:+ "/" +:+ if_image f +:+ ":" +:+ if_tag f in
      match docker_pull full with
      | Err e => (Err (MgOther e), s)
      | Ok code =>
          if code =? 0 then (Ok full, mkContainer f (Some full))
          else (Err (MgOther ("Docker pull failed for image " +:+ full +:+ " with exit code: Some(" +:+ pretty code +:+ ")")), s)
      end
  end.

(** ** Properties *)

Section proofs.
  Context `{Pl : Platform} `{N : Net} `{D : Digests} `{DL : !DigestLaws D} `{J : ManifestJson} `{A : Archives}.
  Implicit Types P : FilesPred.

(** What [verify_binary_digest] and [make_executable] leave at a path: an executable
    file with the expected digests *)
Definition verified_at (p : Path) (sha : B256) (blake : option B256) (f : gmap Path File) : Prop :=
  ∃ x, f !! p = Some x ∧ executable x ∧ digest sha256_hasher (f_bytes x) = sha ∧
    from_option (λ e, digest blake3_hasher (f_bytes x) = e) True blake.

Lemma verify_then_exec P (p : Path) sha blake :
  target_windows = false →
  triple P (_ ← verify_binary_digest p sha blake; make_executable p) (on_ok (λ q f, q = p ∧ verified_at p sha blake f)).
Proof.
  intros Hw. eapply triple_bind; [apply verify_binary_digest_triple|]. intros ?.
  eapply triple_conseq; [by apply make_executable_triple|exact (λ _ H, H)|].
  intros [q|e] f; [|done]. intros (-> & f0 & x & x' & (_ & x0 & Hx0 & Hs & Hb) & Hx & -> & Hc & He).
  rewrite Hx in Hx0. injection Hx0 as ->. split; [done|]. exists x'. rewrite lookup_insert_eq, Hc. done.
Qed.

Lemma unpack_archive_verified s p0 b P :
  target_windows = false → selected_binary s = Some b → target_binary_name s = Some (bb_name b) →
  triple P (unpack_archive s p0) (on_ok (λ p f, named (bb_name b) p = true ∧ verified_at p (bb_sha256 b) (bb_blake3 b) f)).
Proof.
  intros Hw Hs Hn. unfold unpack_archive. rewrite Hn. cbn [ok_or].
  eapply (triple_bind _ _ _ (λ n _, n = bb_name b)); [by apply triple_lift|]. intros n.
  do 5 (eapply (triple_bind _ _ _ (λ _ _, n = bb_name b)); [intros h Hh; unfold on_ok; by destruct (_ h).1|]; intros ?).
  destruct (List.find (named n) _) as [q|] eqn:Hf; [|by apply triple_throw].
  apply List.find_some in Hf as [_ Hq]. unfold remote_verify_digest. rewrite Hs. intros h ->.
  generalize (verify_then_exec (λ _, True) q (bb_sha256 b) (bb_blake3 b) Hw h I).
  unfold mbind at 1, fetch_bind at 1. unfold mbind, fetch_bind, lift, ok_or. cbv beta.
  destruct (verify_binary_digest _ _ _ h) as [[u|e] h1]; [|done]. destruct (make_executable q h1) as [[p|e] h2]; [|done].
  cbn. intros [-> ?]. done.
Qed.

Lemma remote_get_binary_selects s :
  match get_blueprint_binary (rf_binaries (rb_fetcher s)) with
  | Some b => selected_binary (remote_get_binary s).1 = Some b ∧ target_binary_name (remote_get_binary s).1 = Some (bb_name b)
  | None => (remote_get_binary s).2 = throw NoMatchingBinary
  end.
Proof. unfold remote_get_binary. by destruct (get_blueprint_binary _). Qed.

(** C26. A binary from an archive at a URL is the one that the blueprint registered:
    whatever the servers answer and the disk does, and whatever the cache held, a
    path that [fetch] returns names an executable file of the directory that has the
    name and the digests registered for this platform's binary. *)
Theorem remote_fetch_verified s h p h' :
  target_windows = false → (remote_fetch s).2 h = (Ok p, h') →
  ∃ b, get_blueprint_binary (rf_binaries (rb_fetcher s)) = Some b ∧ for_host (bb_os b) (bb_arch b) = true ∧
    last p = Some (bb_name b) ∧ verified_at p (bb_sha256 b) (bb_blake3 b) (files h').
Proof.
  intros Hw Hf. pose proof (remote_get_binary_selects s) as Hsel. unfold remote_fetch in Hf.
  destruct (get_blueprint_binary (rf_binaries (rb_fetcher s))) as [b|] eqn:Hb.
  2: { destruct (remote_get_binary s) as [s1 get]. cbn in Hsel, Hf. subst get. discriminate Hf. }
  exists b. split; [done|]. split; [by apply List.find_some in Hb as [_ ?]|].
  destruct (remote_get_binary s) as [s1 get]. cbn [fst snd] in Hsel, Hf. destruct Hsel as [Hs Hn].
  assert (Ht : triple (λ _, True) (λ h, ( archive_path ← get;
     r ← attempt (unpack_archive s1 archive_path);
     match r with
     | Ok path => mret path
     | Err _ => _ ← clear_cache archive_path (manifest_path_of s1); archive_path ← (remote_get_binary s1).2; unpack_archive s1 archive_path
     end) h) (on_ok (λ p f, named (bb_name b) p = true ∧ verified_at p (bb_sha256 b) (bb_blake3 b) f))).
  { apply (triple_bind _ _ _ (λ _ _, True)); [intros ??; unfold on_ok; by destruct (_ _).1|]. intros q.
    eapply triple_bind; [apply triple_attempt, (unpack_archive_verified _ _ b); done|]. intros [r|e]; [by apply triple_ret|].
    do 2 (apply (triple_bind _ _ _ (λ _ _, True)); [intros ??; unfold on_ok; by destruct (_ _).1|]; intros ?).
    by apply unpack_archive_verified. }
  specialize (Ht h I). cbv beta in Ht. rewrite Hf in Ht. cbn in Ht. destruct Ht as [H1 H2]. split; [|done].
  unfold named in H1. by case_bool_decide.
Qed.
End proofs.

(** An archive is unpacked to its end only if every entry stays below the directory
    and none is a link. *)
Definition entry_allowed (e : TarEntry) : Prop :=
  is_safe_archive_path (te_path e) = true ∧ te_type e ≠ EtSymlink ∧ te_type e ≠ EtHardLink.
Lemma unpack_entries_allowed `{A : Archives} l h h' :
  unpack_entries l h = (Ok tt, h') → Forall (λ e, ∃ t, e = Ok t ∧ entry_allowed t) l.
Proof.
  revert h. induction l as [|[t|e] l IH]; intros h; cbn [unpack_entries]; [by constructor| |discriminate].
  destruct (is_safe_archive_path (te_path t)) eqn:Hs; cbn [negb]; [|discriminate].
  destruct (te_type t) eqn:Ht; try discriminate; unfold mbind, fetch_bind; destruct (unpack_one t h) as [[[]|e] h1]; try discriminate;
    intros H; constructor; try (by eapply IH); exists t; unfold entry_allowed; rewrite Hs, Ht; done.
Qed.

(** A safe path has no part that leads upwards: it resolves to its own names. *)
Definition resolve_step (acc : option (list string)) (c : Component) : option (list string) :=
  dirs ← acc;
  match c with
  | Normal n => Some (dirs ++ [n])
  | CurDir => Some dirs
  | ParentDir => match reverse dirs with [] => None | _ :: ds => Some (reverse ds) end
  | RootDir => None
  end.
Definition resolves (p : string) : option (list string) := foldl resolve_step (Some []) (components p).
Lemma safe_path_resolves p : is_safe_archive_path p = true → is_Some (resolves p).
Proof.
  intros H. apply andb_true_iff in H as [_ H]. unfold resolves. generalize (@nil string).
  induction (components p) as [|c cs IH]; intros acc; [by eexists|]. cbn in H |- *. apply andb_true_iff in H as [Hc H].
  destruct c; try done; by apply IH.
Qed.

(** A release's binary goes without the gate on digests: what [fetch] does for a
    release is the same whatever digests the blueprint registered for it. *)
Definition set_digests (sha : B256) (f : GithubFetcher) : GithubFetcher :=
  mkGithubFetcher (gf_owner f) (gf_repo f) (gf_tag f)
    ((λ b, mkBinary (bb_arch b) (bb_os b) (bb_name b) sha None) <$> gf_binaries f).
Lemma github_ignores_digests `{Pl : Platform} `{N : Net} `{J : ManifestJson} `{A : Archives} `{T : Tools} s sha h :
  github_resolve (mkGithub (set_digests sha (gb_fetcher s)) (gb_blueprint_id s) (gb_blueprint_name s) (gb_allow_unchecked s)
                    (resolved_binary_path s)) h = github_resolve s h.
Proof.
  destruct s as [[owner repo tag bins] id name unchecked r]. unfold github_resolve. cbn [gb_fetcher gb_allow_unchecked set_digests gf_owner gf_repo].
  assert (Hg : ∀ h, github_get_binary (mkGithubFetcher owner repo tag ((λ b, mkBinary (bb_arch b) (bb_os b) (bb_name b) sha None) <$> bins)) h
    = github_get_binary (mkGithubFetcher owner repo tag bins) h).
  { clear h. intros h. unfold github_get_binary. cbn [gf_binaries].
    assert (Hb : get_blueprint_binary ((λ b, mkBinary (bb_arch b) (bb_os b) (bb_name b) sha None) <$> bins)
      = (λ b, mkBinary (bb_arch b) (bb_os b) (bb_name b) sha None) <$> get_blueprint_binary bins).
    { induction bins as [|b bins IH]; [done|]. cbn. destruct (for_host (bb_os b) (bb_arch b)); [done|exact IH]. }
    rewrite Hb. destruct (get_blueprint_binary bins) as [b|]; done. }
  unfold mbind at 1 8. unfold fetch_bind. cbn [gb_fetcher]. rewrite Hg. reflexivity.
Qed.

(** ** A run *)

#[export] Instance toy_digests : Digests :=
  let h := mkHasher (list Byte8) [] (λ s b, s ++ b) (λ s, take 32 (reverse s ++ replicate 32 0)) in
  {| blake3_hasher := h; sha256_hasher := h |}.
#[export] Instance toy_digest_laws : DigestLaws toy_digests.
Proof. split; (split; [intros s; apply app_nil_r|intros s a b; apply eq_sym, app_assoc]). Qed.
#[export] Instance toy_platform : Platform :=
  {| OS := "linux"; ARCH := "x86_64"; target_windows := false; env_var _ := None; create_mode := 420 |}.
#[export] Instance toy_archives : Archives := {|
  tar_entries b := Ok [Ok (mkTarEntry "bin/demo" EtFile (mkFile b 420))];
  unpack_in e f := (Ok true, <[split_char "/" (te_path e) := te_file e]> f);
  walk f := (map_to_list f).*1;
|}.
#[export] Instance toy_archives_laws : ArchivesLaws toy_archives.
Proof.
  split. intros f p. cbn [walk toy_archives]. rewrite list_elem_of_fmap. split.
  - intros ([q x] & -> & H). apply elem_of_map_to_list in H. by eexists.
  - intros [x Hx]. exists (p, x). split; [done|]. by apply elem_of_map_to_list.
Qed.
Definition demo_asset : list Byte8 := [7; 8; 9].
#[export] Instance toy_manifest_json : ManifestJson := {|
  manifest_json b := if bool_decide (b = [1]) then
    Some (mkManifest MANIFEST_SCHEMA_V1
            [mkManifestBinary "linux" "arm64" "http://x/foreign" "00" None;
             mkManifestBinary "Linux" "AMD64" "http://x/demo" (hex_encode (digest sha256_hasher demo_asset)) None]) else None;
  dist_json _ := Some [mkDistArtifact true [mkDistAsset true (Some "demo"%string)]];
|}.
(** A server that fails once and then serves a manifest and the asset *)
#[export] Instance toy_net : Net := {|
  client_builds := true;
  url_parse s := if bool_decide (s = ""%string) then Err "empty"%string else Ok s;
  serve n url :=
    if Nat.eqb n 0 then NetErr "refused"
    else if ends_with ".json" url then NetResp 200 None [Ok [1]]
    else NetResp 200 (Some 3) [Ok [7]; Ok [8; 9]];
|}.
Definition demo_remote : RemoteBinaryFetcher :=
  remote_new (mkRemoteFetcher "http://x/dist.json" "http://x/demo.tar.xz"
                [mkBinary "aarch64" "linux" "demo" [] None;
                 mkBinary "amd64" "unknown-linux-gnu" "demo" (digest sha256_hasher demo_asset) None]) 1 "demo".
Definition demo_host : Host := mkHost ∅ [] 0.

Lemma remote_fetch_verified_witness :
  ∃ p h', (remote_fetch demo_remote).2 demo_host = (Ok p, h') ∧ last p = Some "demo"%string ∧
    verified_at p (digest sha256_hasher demo_asset) None (files h').
Proof.
  destruct ((remote_fetch demo_remote).2 demo_host) as [r h'] eqn:E.
  assert (Hr : r = Ok ["bin"; "demo"]%string).
  { change r with (fst (r, h')). rewrite <- E. vm_compute. reflexivity. }
  subst r. exists ["bin"; "demo"]%string, h'. split; [done|].
  destruct (remote_fetch_verified demo_remote demo_host _ h' (eq_refl : @target_windows toy_platform = false) E) as (b & Hb & _ & Hn & Hv). split; [done|].
  assert (b = mkBinary "amd64" "unknown-linux-gnu" "demo" (digest sha256_hasher demo_asset) None) as ->; [|exact Hv].
  vm_compute in Hb. injection Hb as <-. vm_compute. reflexivity.
Defined.
