(* ===== verification/Upgrade.v ===== *)
(** * Binary upgrades: versions, policies and local authorisations
      ([manager/src/upgrade/types.rs], [error.rs], [state.rs], [attestation.rs],
      [local_authz.rs])

    What the manager knows of the binaries it runs, the gate on attestations, and
    the store of authorisations that an operator gives without a transaction.  Each
    service has one file in a directory whose calls may fail; its encoding is a
    parameter. *)

From Stdlib Require Import ZArith Lia Ascii.
From stdpp Require Import base gmap sets list sorting strings pretty fin_maps numbers relations.
From S2P Require Import Prelude Bytes Text Hex Http Disk.

#[local] Open Scope Z_scope.

(** ** Versions *)

Inductive UpgradePolicy := Approve | Auto | Manual.
#[export] Instance UpgradePolicy_eq_dec : EqDecision UpgradePolicy.
Proof. solve_decision. Defined.

(** [UpgradePolicy::from_u8], [as_u8], [Display], [FromStr] *)
Definition policy_from_u8 (value : Z) : UpgradePolicy :=
  if value =? 0 then Approve else if value =? 1 then Auto else Manual.
Definition policy_as_u8 (p : UpgradePolicy) : Z := match p with Approve => 0 | Auto => 1 | Manual => 2 end.
Definition policy_display (p : UpgradePolicy) : string :=
  match p with Approve => "APPROVE" | Auto => "AUTO" | Manual => "MANUAL" end.
Definition policy_from_str (s : string) : result string UpgradePolicy :=
  let u := to_ascii_uppercase s in
  if bool_decide (u = "APPROVE"%string) then Ok Approve
  else if bool_decide (u = "AUTO"%string) then Ok Auto
  else if bool_decide (u = "MANUAL"%string) then Ok Manual
  else Err ("invalid UpgradePolicy `" +:+ u +:+ "` (expected APPROVE | AUTO | MANUAL)").

Definition B256_ZERO : B256 := replicate 32 0.

Record BinaryVersionInfo := mkVersion {
  version_id : Z;
  bv_sha256 : B256;
  binary_uri : string;
  attestation_hash : B256;
  published_at : Z;
  deprecated : bool;
}.
(** [BinaryVersionInfo::has_attestation] *)
Definition has_attestation (v : BinaryVersionInfo) : bool := negb (bool_decide (attestation_hash v = B256_ZERO)).

Record RunningBinary := mkRunning { rb_version_id : Z; rb_sha256 : B256 }.

Record PendingUpgrade := mkPending {
  pu_service_id : Z;
  pu_blueprint_id : Z;
  current_version_id : option Z;
  current_sha256 : option B256;
  available_version_id : Z;
  available_sha256 : B256;
  available_uri : string;
  available_attestation_hash : B256;
  pu_policy : UpgradePolicy;
  detected_at : Z;
}.

Inductive UpgradeOutcome := Swapped | OutSha256Mismatch | OutAttestationFailed | OutDownloadFailed | PolicyBlocked.

Record UpgradeHistoryEntry := mkHistory {
  uh_service_id : Z;
  uh_blueprint_id : Z;
  from_version_id : option Z;
  from_sha256 : option B256;
  to_version_id : Z;
  to_sha256 : B256;
  uh_policy : UpgradePolicy;
  completed_at : Z;
  outcome : UpgradeOutcome;
}.

(** The text of a digest: [hex_b256] *)
Definition b256_serialize (h : B256) : string := "0x" +:+ hex_encode h.
Definition b256_deserialize (raw : string) : result string B256 :=
  match decode_hex (trim_start_matches "0x" raw) with
  | None => Err "hex"
  | Some bytes => if Nat.eqb (length bytes) 32 then Ok bytes
                  else Err ("expected 32 bytes, got " +:+ pretty (length bytes))
  end.

(** ** Errors *)

Inductive UpgradeError :=
| NoVersionsPublished (blueprint_id : Z)
| Sha256Mismatch (service_id version_id : Z) (expected actual : string)
| AttestationFailed (service_id version_id : Z) (reason : string)
| ServiceNotTracked (service_id : Z)
| ChainRead (e : string) | ChainWrite (e : string) | UpIo (e : string) | UpManager (e : ManagerError).

(** ** State *)

Definition HISTORY_CAP : nat := 256.

Record UpgradeState := mkUpgradeState {
  us_running : gmap Z RunningBinary;
  us_policies : gmap Z UpgradePolicy;
  us_pending : gmap Z PendingUpgrade;
  us_history : list UpgradeHistoryEntry;
}.

(** [UpgradeState::new] and its operations *)
Definition upgrade_state_new : UpgradeState := mkUpgradeState ∅ ∅ ∅ [].
Definition set_running (id : Z) (r : RunningBinary) (s : UpgradeState) : UpgradeState :=
  mkUpgradeState (<[id := r]> (us_running s)) (us_policies s) (us_pending s) (us_history s).
Definition clear_running (id : Z) (s : UpgradeState) : UpgradeState :=
  mkUpgradeState (delete id (us_running s)) (us_policies s) (delete id (us_pending s)) (us_history s).
Definition set_policy (id : Z) (p : UpgradePolicy) (s : UpgradeState) : UpgradeState :=
  mkUpgradeState (us_running s) (<[id := p]> (us_policies s)) (us_pending s) (us_history s).
Definition state_record_pending (u : PendingUpgrade) (s : UpgradeState) : UpgradeState :=
  mkUpgradeState (us_running s) (us_policies s) (<[pu_service_id u := u]> (us_pending s)) (us_history s).
Definition clear_pending (id : Z) (s : UpgradeState) : UpgradeState :=
  mkUpgradeState (us_running s) (us_policies s) (delete id (us_pending s)) (us_history s).
Definition push_history (e : UpgradeHistoryEntry) (s : UpgradeState) : UpgradeState :=
  mkUpgradeState (us_running s) (us_policies s) (us_pending s)
    ((if (HISTORY_CAP <=? length (us_history s))%nat then drop 1 (us_history s) else us_history s) ++ [e]).

(** ** Attestations *)

(** [AttestationVerifier::verify] *)
Definition attestation_verify (allow_unchecked : bool) (service_id : Z) (v : BinaryVersionInfo) : result UpgradeError unit :=
  if negb (has_attestation v) then Ok tt
  else if allow_unchecked then Ok tt
  else Err (AttestationFailed service_id (version_id v)
              "attestation verification not implemented; pass --allow-unchecked-attestations to override").

(** ** Local authorisations *)

Record LocalAuthz := mkAuthz { whitelisted : gset Z; pinned : option Z; skipped : gmap Z string }.
Definition authz_default : LocalAuthz := mkAuthz ∅ None ∅.

Inductive AuthzDecision := Hold | Swap (clear_pinned : bool) | Skip.

(** [LocalAuthz::decide] *)
Definition authz_decide (a : LocalAuthz) (version : Z) : AuthzDecision :=
  if bool_decide (pinned a = Some version) then Swap true
  else if bool_decide (is_Some (skipped a !! version)) then Skip
  else if bool_decide (version ∈ whitelisted a) then Swap false
  else Hold.

(** [serde_json] on one record *)
Class AuthzJson := {
  authz_to_json : LocalAuthz → string;
  authz_from_json : string → option LocalAuthz;
}.
Class AuthzJsonLaws (J : AuthzJson) := { authz_round_trip a : authz_from_json (authz_to_json a) = Some a }.

(** The store: the records in memory, whether they are kept on disk, and the files
    of its directory *)
Record LocalAuthzStore := mkAuthzStore {
  az_inner : gmap Z LocalAuthz;
  az_persisted : bool;
  az_dir : gmap string string;
}.

Section authz.
  Context `{J : AuthzJson}.

Definition authz_file (service_id : Z) : string := pretty service_id +:+ ".json".

(** [LocalAuthzStore::new_in_memory]; [new_persisted], where making or listing the
    directory or reading a file may fail *)
Definition new_in_memory : LocalAuthzStore := mkAuthzStore ∅ false ∅.
Definition load_authz_file (readable : string → bool) (e : string * string) : option (Z * LocalAuthz) :=
  match split_extension e.1 with
  | Some (stem, "json") =>
      match parse_u64 stem with
      | None => None
      | Some service_id =>
          if readable e.1 then match authz_from_json e.2 with Some a => Some (service_id, a) | None => None end
          else None
      end
  | _ => None
  end.
Definition new_persisted (dir_ok : bool) (readable : string → bool) (dir : gmap string string)
    : result string LocalAuthzStore :=
  if negb dir_ok then Err "local authz I/O"
  else Ok (mkAuthzStore (foldl (λ m p, <[p.1 := p.2]> m) ∅ (omap (load_authz_file readable) (map_to_list dir))) true dir).

(** What [UpgradePipelineBuilder::spawn] uses: a store in memory when the other fails *)
Definition authz_store_of (root : bool) (dir_ok : bool) (readable : string → bool) (dir : gmap string string)
    : LocalAuthzStore :=
  if root then match new_persisted dir_ok readable dir with Ok s => s | Err _ => new_in_memory end else new_in_memory.

(** [get] *)
Definition authz_get (service_id : Z) (s : LocalAuthzStore) : LocalAuthz := default authz_default (az_inner s !! service_id).

Definition set_inner (service_id : Z) (a : LocalAuthz) (s : LocalAuthzStore) : LocalAuthzStore :=
  mkAuthzStore (<[service_id := a]> (az_inner s)) (az_persisted s) (az_dir s).

(** [persist]: the temporary file of a write that fails is removed *)
Definition authz_persist (fails : bool) (service_id : Z) (a : LocalAuthz) (s : LocalAuthzStore)
    : result string unit * LocalAuthzStore :=
  if negb (az_persisted s) then (Ok tt, s)
  else if fails then (Err "local authz I/O", s)
  else (Ok tt, mkAuthzStore (az_inner s) true (<[authz_file service_id := authz_to_json a]> (az_dir s))).

(** [mutate] *)
Definition authz_mutate (fails : bool) (service_id : Z) (f : LocalAuthz → LocalAuthz) (s : LocalAuthzStore)
    : result string LocalAuthz * LocalAuthzStore :=
  let a := f (authz_get service_id s) in
  match authz_persist fails service_id a (set_inner service_id a s) with
  | (Ok _, s) => (Ok a, s)
  | (Err e, s) => (Err e, s)
  end.

(** [set_whitelist], [set_pin], [add_skip], [clear_skip] *)
Definition set_whitelist (fails : bool) (service_id : Z) (versions : gset Z) :
    LocalAuthzStore → result string LocalAuthz * LocalAuthzStore :=
  authz_mutate fails service_id (λ a, mkAuthz versions (pinned a) (skipped a)).
Definition set_pin (fails : bool) (service_id : Z) (version : option Z) :
    LocalAuthzStore → result string LocalAuthz * LocalAuthzStore :=
  authz_mutate fails service_id (λ a, mkAuthz (whitelisted a) version (skipped a)).
Definition add_skip (fails : bool) (service_id version : Z) (reason : string) :
    LocalAuthzStore → result string LocalAuthz * LocalAuthzStore :=
  authz_mutate fails service_id (λ a, mkAuthz (whitelisted a) (pinned a) (<[version := reason]> (skipped a))).
Definition clear_skip (fails : bool) (service_id version : Z) :
    LocalAuthzStore → result string LocalAuthz * LocalAuthzStore :=
  authz_mutate fails service_id (λ a, mkAuthz (whitelisted a) (pinned a) (delete version (skipped a))).

(** [consume_pin_if] *)
Definition consume_pin_if (fails : bool) (service_id version : Z) (s : LocalAuthzStore)
    : result string unit * LocalAuthzStore :=
  let a := authz_get service_id s in
  if bool_decide (pinned a = Some version) then
    let a := mkAuthz (whitelisted a) None (skipped a) in
    authz_persist fails service_id a (set_inner service_id a s)
  else (Ok tt, set_inner service_id a s).

(** ** Restarts *)

(** One operation of any kind, its effect on a record, and whether it is written *)
Inductive AuthzOp :=
| AzWhitelist (versions : gset Z) | AzPin (version : option Z) | AzSkip (version : Z) (reason : string)
| AzClearSkip (version : Z) | AzConsume (version : Z).
Definition discard {A} (p : result string A * LocalAuthzStore) : result string unit * LocalAuthzStore := ((λ _, tt) <$> p.1, p.2).
Definition authz_run (fails : bool) (id : Z) (op : AuthzOp) : LocalAuthzStore → result string unit * LocalAuthzStore :=
  match op with
  | AzWhitelist vs => λ s, discard (set_whitelist fails id vs s)
  | AzPin v => λ s, discard (set_pin fails id v s)
  | AzSkip v r => λ s, discard (add_skip fails id v r s)
  | AzClearSkip v => λ s, discard (clear_skip fails id v s)
  | AzConsume v => consume_pin_if fails id v
  end.
Fixpoint authz_runs (ops : list (bool * Z * AuthzOp)) (s : LocalAuthzStore) : list (result string unit) * LocalAuthzStore :=
  match ops with
  | [] => ([], s)
  | (fails, id, op) :: ops =>
      let '(r, s) := authz_run fails id op s in let '(rs, s) := authz_runs ops s in (r :: rs, s)
  end.

Definition authz_apply (op : AuthzOp) (a : LocalAuthz) : LocalAuthz :=
  match op with
  | AzWhitelist vs => mkAuthz vs (pinned a) (skipped a)
  | AzPin v => mkAuthz (whitelisted a) v (skipped a)
  | AzSkip v r => mkAuthz (whitelisted a) (pinned a) (<[v := r]> (skipped a))
  | AzClearSkip v => mkAuthz (whitelisted a) (pinned a) (delete v (skipped a))
  | AzConsume v => if bool_decide (pinned a = Some v) then mkAuthz (whitelisted a) None (skipped a) else a
  end.
Definition authz_writes (op : AuthzOp) (a : LocalAuthz) : bool :=
  match op with AzConsume v => bool_decide (pinned a = Some v) | _ => true end.

(** What is in force and what a restart finds: the first changes with every call,
    the second with those that succeed *)
Abbreviation AuthzViews := ((Z → LocalAuthz) * (Z → LocalAuthz))%type.
Definition update (f : Z → LocalAuthz) (id : Z) (a : LocalAuthz) : Z → LocalAuthz := λ i, if i =? id then a else f i.
Definition view_step (id : Z) (op : AuthzOp) (ok : bool) (v : AuthzViews) : AuthzViews :=
  let a := authz_apply op (v.1 id) in
  (update v.1 id a, if ok && authz_writes op (v.1 id) then update v.2 id a else v.2).
Definition ok_result (r : result string unit) : bool := match r with Ok _ => true | Err _ => false end.
Fixpoint view_runs (ops : list (bool * Z * AuthzOp)) (rs : list (result string unit)) (v : AuthzViews) : AuthzViews :=
  match ops, rs with
  | (_, id, op) :: ops, r :: rs => view_runs ops rs (view_step id op (ok_result r) v)
  | _, _ => v
  end.

Definition authz_on_disk (s : LocalAuthzStore) (id : Z) : LocalAuthz :=
  default authz_default (az_dir s !! authz_file id ≫= authz_from_json).
(** The files of the directory are the store's own. *)
Definition canonical_dir (dir : gmap string string) : Prop :=
  ∀ name text, dir !! name = Some text → ∃ id, is_u64 id ∧ name = authz_file id ∧ is_Some (authz_from_json text).

Lemma authz_file_split id : is_u64 id → split_extension (authz_file id) = Some (pretty id, "json"%string).
Proof.
  intros H. apply parse_u64_pretty in H. unfold authz_file. destruct (pretty id) as [|a r]; [done|].
  change (String a r +:+ ".json") with (String a (r +:+ String "." "json")). cbn [split_extension].
  rewrite rsplit_once_app by (repeat constructor; done). done.
Qed.

Lemma load_authz_file_own readable id text a :
  is_u64 id → readable (authz_file id) = true → authz_from_json text = Some a →
  load_authz_file readable (authz_file id, text) = Some (id, a).
Proof.
  intros Hid Hr Ha. unfold load_authz_file. cbn [fst snd]. rewrite authz_file_split by done.
  rewrite parse_u64_pretty, Hr, Ha by done. done.
Qed.

Lemma authz_file_inj id id' : is_u64 id → is_u64 id' → authz_file id = authz_file id' → id = id'.
Proof.
  intros H H' E. apply authz_file_split in H as Hs. apply authz_file_split in H' as Hs'. rewrite E, Hs' in Hs.
  injection Hs as Hp. apply parse_u64_pretty in H, H'. rewrite <- Hp, H' in H. by injection H.
Qed.

Lemma load_fold_lookup (l : list (Z * LocalAuthz)) (m : gmap Z LocalAuthz) k :
  NoDup l.*1 →
  foldl (λ m p, <[p.1 := p.2]> m) m l !! k = match list_to_map (M := gmap Z LocalAuthz) l !! k with Some x => Some x | None => m !! k end.
Proof.
  revert m. induction l as [|[k' x] l IH]; intros m; [done|]. intros Hnd. inversion_clear Hnd as [|? ? Hn Hnd'].
  cbn [foldl fst snd list_to_map foldr]. rewrite IH by done. destruct (decide (k = k')) as [->|Hk].
  - rewrite not_elem_of_list_to_map_1 by done. cbn. by rewrite !lookup_insert_eq.
  - cbn. rewrite !lookup_insert_ne by done. done.
Qed.

Lemma new_persisted_lookup dir :
  canonical_dir dir → ∃ s, new_persisted true (λ _, true) dir = Ok s ∧ az_dir s = dir ∧
    ∀ id, is_u64 id → authz_get id s = authz_on_disk s id.
Proof.
  intros Hc. eexists. split; [reflexivity|]. split; [done|]. intros id Hid. unfold authz_get, authz_on_disk.
  cbn [az_inner az_dir]. f_equal.
  set (loaded := omap (load_authz_file (λ _, true)) (map_to_list dir)).
  assert (Hin : ∀ i a, (i, a) ∈ loaded ↔ is_u64 i ∧ ∃ text, dir !! authz_file i = Some text ∧ authz_from_json text = Some a).
  { intros i a. unfold loaded. rewrite list_elem_of_omap. split.
    - intros ([name text] & Hm & Hl). apply elem_of_map_to_list in Hm. destruct (Hc _ _ Hm) as (j & Hj & -> & a' & Ha').
      rewrite (load_authz_file_own _ j text a') in Hl by done. injection Hl as -> ->. eauto.
    - intros (Hi & text & Hm & Ha). exists (authz_file i, text). split; [by apply elem_of_map_to_list|].
      by apply load_authz_file_own. }
  assert (Hnd : NoDup loaded.*1).
  { unfold loaded. assert (Hsub : Forall (λ e, dir !! e.1 = Some e.2) (map_to_list dir)).
    { apply list.Forall_forall. intros [n t] H. by apply elem_of_map_to_list in H. }
    pose proof (NoDup_fst_map_to_list dir) as Hn. revert Hsub Hn. generalize (map_to_list dir). clear Hin.
    intros l. induction l as [|[n t] l IH]; intros Hsub Hn; [constructor|]. inversion_clear Hsub as [|? ? He Hl].
    inversion_clear Hn as [|? ? Hx Hn']. specialize (IH Hl Hn'). cbn in He, Hx. destruct (Hc _ _ He) as (j & Hj & -> & a & Ha).
    cbn [omap list_omap]. rewrite (load_authz_file_own _ j t a) by done. cbn. constructor; [|done].
    intros Hj'. apply list_elem_of_fmap in Hj' as ([j' a'] & E & Hj'). cbn in E. subst j'.
    apply list_elem_of_omap in Hj' as ([n' t'] & Hm & Hl'). rewrite list.Forall_forall in Hl. specialize (Hl _ Hm). cbn in Hl.
    destruct (Hc _ _ Hl) as (j' & Hj2 & -> & a2 & Ha2). rewrite (load_authz_file_own _ j' t' a2) in Hl' by done.
    injection Hl' as -> ->. apply Hx. apply list_elem_of_fmap. by exists (authz_file j, t'). }
  rewrite load_fold_lookup by done. rewrite lookup_empty. destruct (list_to_map loaded !! id) as [a|] eqn:E.
  - apply elem_of_list_to_map in E; [|done]. apply Hin in E as (_ & text & -> & Ha). by cbn.
  - destruct (dir !! authz_file id ≫= authz_from_json) as [a|] eqn:Ea; [|done].
    destruct (dir !! authz_file id) as [text|] eqn:Et; [|done]. cbn in Ea.
    assert (H : (id, a) ∈ loaded) by (apply Hin; eauto). apply elem_of_list_to_map in H; [|done]. congruence.
Qed.

(** One call: the record changes in memory; the file with it, if the call succeeds
    and writes. *)
Lemma authz_run_spec fails id op s r s' :
  az_persisted s = true → authz_run fails id op s = (r, s') →
  let a := authz_apply op (authz_get id s) in
  az_inner s' = <[id := a]> (az_inner s) ∧ az_persisted s' = true ∧
  az_dir s' = if ok_result r && authz_writes op (authz_get id s) then <[authz_file id := authz_to_json a]> (az_dir s) else az_dir s.
Proof.
  intros Hp. destruct op; cbn [authz_run];
    unfold discard, set_whitelist, set_pin, add_skip, clear_skip, consume_pin_if, authz_mutate, authz_persist, set_inner;
    cbn [az_persisted authz_apply authz_writes]; rewrite ?Hp; cbn [negb]; [destruct fails; intros [= <- <-]; by cbn ..|].
  case_bool_decide as Hb; rewrite ?Hp; cbn [negb]; try destruct fails; intros [= <- <-]; cbn; rewrite ?Hp;
    try rewrite (bool_decide_eq_true_2 _ Hb); try rewrite (bool_decide_eq_false_2 _ Hb); done.
Qed.

Lemma authz_run_views `{JL : !AuthzJsonLaws J} fails id op s r s' :
  az_persisted s = true → canonical_dir (az_dir s) → is_u64 id → authz_run fails id op s = (r, s') →
  let v := view_step id op (ok_result r) (λ i, authz_get i s, authz_on_disk s) in
  az_persisted s' = true ∧ canonical_dir (az_dir s') ∧ (∀ i, authz_get i s' = v.1 i) ∧
  (∀ i, is_u64 i → authz_on_disk s' i = v.2 i).
Proof.
  intros Hp Hc Hid Hr. apply authz_run_spec in Hr as (Hi & Hp' & Hd); [|done]. cbn [view_step fst snd].
  split; [done|]. split; [|split].
  - rewrite Hd. case_match; [|done]. intros name text. rewrite lookup_insert_Some. intros [[<- <-]|[_ Hold]]; [|by apply Hc].
    exists id. split; [done|]. split; [done|]. rewrite authz_round_trip. by eexists.
  - intros i. unfold authz_get at 1, update. rewrite Hi. destruct (Z.eqb_spec i id) as [->|Hne].
    + by rewrite lookup_insert_eq.
    + by rewrite lookup_insert_ne.
  - intros i Hi'. unfold authz_on_disk at 1. rewrite Hd. case_match; [|done]. unfold update. destruct (Z.eqb_spec i id) as [->|Hne].
    + rewrite lookup_insert_eq. cbn. by rewrite authz_round_trip.
    + rewrite lookup_insert_ne; [done|]. intros E. by apply authz_file_inj in E.
Qed.

Lemma view_runs_ext ops rs v w :
  (∀ i, v.1 i = w.1 i) → (∀ i, is_u64 i → v.2 i = w.2 i) → Forall (λ o : bool * Z * AuthzOp, is_u64 o.1.2) ops →
  (∀ i, (view_runs ops rs v).1 i = (view_runs ops rs w).1 i) ∧ (∀ i, is_u64 i → (view_runs ops rs v).2 i = (view_runs ops rs w).2 i).
Proof.
  revert rs v w. induction ops as [|[[f id] op] ops IH]; intros [|r rs] v w H1 H2 Hu; try done. cbn [view_runs].
  inversion_clear Hu as [|? ? Hid Hu']. apply IH; [| |done]; intros i; cbn [view_step fst snd]; rewrite (H1 id).
  - unfold update. case_match; [done|]. apply H1.
  - intros Hi. case_match; [|by apply H2]. unfold update. case_match; [done|]. by apply H2.
Qed.

Lemma authz_runs_views `{JL : !AuthzJsonLaws J} ops s rs s' :
  az_persisted s = true → canonical_dir (az_dir s) → Forall (λ o : bool * Z * AuthzOp, is_u64 o.1.2) ops →
  authz_runs ops s = (rs, s') →
  let v := view_runs ops rs (λ i, authz_get i s, authz_on_disk s) in
  canonical_dir (az_dir s') ∧ (∀ i, authz_get i s' = v.1 i) ∧ (∀ i, is_u64 i → authz_on_disk s' i = v.2 i).
Proof.
  revert s rs. induction ops as [|[[f id] op] ops IH]; intros s rs Hp Hc Hu; cbn [authz_runs].
  - intros [= <- <-]. done.
  - inversion_clear Hu as [|? ? Hid Hu']. cbn in Hid. destruct (authz_run f id op s) as [r s1] eqn:E1.
    destruct (authz_runs ops s1) as [rs1 s2] eqn:E2. intros [= <- <-].
    destruct (authz_run_views _ _ _ _ _ _ Hp Hc Hid E1) as (Hp1 & Hc1 & Hm & Hd).
    destruct (IH _ _ Hp1 Hc1 Hu' E2) as (Hc2 & Hm2 & Hd2). split; [done|]. cbn [view_runs].
    destruct (view_runs_ext ops rs1 (λ i, authz_get i s1, authz_on_disk s1)
                (view_step id op (ok_result r) (λ i, authz_get i s, authz_on_disk s)) Hm Hd Hu') as [H1 H2].
    split; intros i; [by rewrite Hm2|]. intros Hi. by rewrite Hd2, H2.
Qed.

Lemma view_runs_agree ops rs v :
  Forall (λ r, ok_result r = true) rs → (∀ i, is_u64 i → v.1 i = v.2 i) → Forall (λ o : bool * Z * AuthzOp, is_u64 o.1.2) ops →
  ∀ i, is_u64 i → (view_runs ops rs v).1 i = (view_runs ops rs v).2 i.
Proof.
  revert rs v. induction ops as [|[[f id] op] ops IH]; intros [|r rs] v Hr Hv Hu; try done. cbn [view_runs].
  inversion_clear Hr as [|? ? Hok Hr']. inversion_clear Hu as [|? ? Hid Hu']. apply IH; [done| |done].
  intros i Hi. cbn [view_step fst snd]. rewrite Hok. cbn [andb]. unfold update.
  destruct (authz_writes op (v.1 id)) eqn:Hw; [destruct (i =? id); auto|]. destruct (Z.eqb_spec i id) as [->|]; [|auto].
  rewrite <- Hv by done. destruct op; cbn in Hw |- *; try done. by rewrite Hw.
Qed.

(** What an operator authorises survives a restart.  For any calls, of which any
    writes may fail: a record changes in memory with every call, and what a restart
    finds changes with exactly the calls that report success; so a restart after
    calls that all succeeded finds every record as it was in force. *)
Theorem authz_survives_restart `{JL : !AuthzJsonLaws J} ops s rs s' :
  az_persisted s = true → canonical_dir (az_dir s) → Forall (λ o : bool * Z * AuthzOp, is_u64 o.1.2) ops →
  authz_runs ops s = (rs, s') →
  let v := view_runs ops rs (λ i, authz_get i s, authz_on_disk s) in
  (∀ i, authz_get i s' = v.1 i) ∧
  ∃ s'', new_persisted true (λ _, true) (az_dir s') = Ok s'' ∧ (∀ i, is_u64 i → authz_get i s'' = v.2 i) ∧
    (Forall (λ r, ok_result r = true) rs → (∀ i, is_u64 i → authz_get i s = authz_on_disk s i) →
     ∀ i, is_u64 i → authz_get i s'' = authz_get i s').
Proof.
  intros Hp Hc Hu Hr. destruct (authz_runs_views _ _ _ _ Hp Hc Hu Hr) as (Hc' & Hm & Hd). split; [done|].
  destruct (new_persisted_lookup _ Hc') as (s'' & Hn & Hdir & Hg). exists s''.
  assert (H2 : ∀ i, is_u64 i → authz_get i s'' = (view_runs ops rs (λ i, authz_get i s, authz_on_disk s)).2 i).
  { intros i Hi. rewrite Hg by done. unfold authz_on_disk. rewrite Hdir. by apply Hd. }
  split; [done|]. split; [done|]. intros Hok Hv i Hi. rewrite H2, Hm by done. symmetry. by apply view_runs_agree.
Qed.

End authz.

Lemma trim_0x_once s : strip_prefix "0x" s = None → trim_start_matches "0x" ("0x" +:+ s) = s.
Proof.
  intros Hs. assert (E : strip_prefix "0x" ("0x" +:+ s) = Some s) by reflexivity. unfold trim_start_matches.
  change (String.length ("0x" +:+ s)) with (S (S (String.length s))). cbn [trim_start_upto]. by rewrite E, Hs.
Qed.

(** The digests in the answers of the local API read back as themselves. *)
Lemma b256_round_trip h : Forall is_byte h → length h = 32%nat → b256_deserialize (b256_serialize h) = Ok h.
Proof.
  intros Hb Hl. unfold b256_deserialize, b256_serialize.
  assert (Hs : strip_prefix "0x" (hex_encode h) = None).
  { destruct h as [|b h]; [done|]. inversion_clear Hb as [|? ? Hb' Hh]. rewrite hex_encode_cons.
    destruct (byte_nibbles b Hb') as [_ Hm]. apply hex_value_digit in Hm. cbn [strip_prefix]. case_bool_decide as E0; [|done].
    case_bool_decide as E; [|done]. rewrite <- E in Hm. discriminate Hm. }
  rewrite trim_0x_once, decode_hex_encode, Hl by done. done.
Qed.

(** The history never holds more than its cap, and ends with the last entry. *)
Lemma push_history_bounded e s :
  (length (us_history s) ≤ HISTORY_CAP)%nat →
  (length (us_history (push_history e s)) ≤ HISTORY_CAP)%nat ∧ last (us_history (push_history e s)) = Some e.
Proof.
  intros H. unfold push_history. cbn [us_history]. split; [|apply last_snoc]. rewrite length_app. cbn [length].
  destruct (Nat.leb_spec HISTORY_CAP (length (us_history s))); [rewrite length_drop|]; unfold HISTORY_CAP in *; lia.
Qed.

(** ** A run *)

(** Records in the binary text of their code *)
Fixpoint authz_text (p : positive) : string :=
  match p with xH => "" | xO p => String "0" (authz_text p) | xI p => String "1" (authz_text p) end.
Fixpoint text_authz (s : string) : positive :=
  match s with EmptyString => xH | String a s => if bool_decide (a = "0"%char) then xO (text_authz s) else xI (text_authz s) end.
Lemma authz_text_round p : text_authz (authz_text p) = p.
Proof. induction p as [p IH|p IH|]; cbn; by rewrite ?IH. Qed.

#[export] Instance toy_authz_json : AuthzJson := {|
  authz_to_json a := authz_text (encode (elements (whitelisted a), pinned a, map_to_list (skipped a)));
  authz_from_json s := '(w, p, k) ← decode (text_authz s); Some (mkAuthz (list_to_set (w : list Z)) p (list_to_map k));
|}.
#[export] Instance toy_authz_json_laws : AuthzJsonLaws toy_authz_json.
Proof.
  split. intros [w p k]. cbn [authz_to_json authz_from_json toy_authz_json whitelisted pinned skipped].
  rewrite authz_text_round, decode_encode. cbn. rewrite list_to_set_elements_L, list_to_map_to_list. done.
Qed.

Definition demo_authz_ops : list (bool * Z * AuthzOp) :=
  [(false, 7, AzWhitelist {[ 2; 3 ]}); (true, 7, AzPin (Some 4)); (false, 8, AzSkip 3 "no"); (false, 7, AzConsume 4)].
Definition demo_authz : LocalAuthzStore := authz_store_of true true (λ _, true) ∅.

Lemma authz_survives_restart_witness :
  ∃ rs s' s'', authz_runs demo_authz_ops demo_authz = (rs, s') ∧ new_persisted true (λ _, true) (az_dir s') = Ok s'' ∧
    authz_get 7 s'' = mkAuthz {[ 2; 3 ]} None ∅.
Proof.
  destruct (authz_runs demo_authz_ops demo_authz) as [rs s'] eqn:Hr. exists rs, s'.
  destruct (authz_survives_restart demo_authz_ops demo_authz rs s') as (_ & s'' & Hn & Hd & _); [done| | |exact Hr|].
  - intros name text H. vm_compute in H. discriminate H.
  - repeat constructor; done.
  - exists s''. split; [reflexivity|]. split; [exact Hn|]. rewrite Hd by done.
    apply (f_equal fst) in Hr. cbn [fst] in Hr.
    assert (rs = [Ok tt; Err "local authz I/O"%string; Ok tt; Ok tt]) as -> by (rewrite <- Hr; vm_compute; reflexivity).
    vm_compute. reflexivity.
Defined.

(** A pin whose write failed is reported as an error and is in force: the next
    reconcile swaps to it. *)
Lemma failed_pin_in_force :
  let '(r, s) := set_pin true 7 (Some 4) demo_authz in
  r = Err "local authz I/O"%string ∧ authz_decide (authz_get 7 s) 4 = Swap true.
Proof. split; reflexivity. Qed.
