(* ===== verification/UpgradeFetch.v ===== *)
(** * Fetching an upgrade ([manager/src/upgrade/swap.rs])

    The download of the binary of a published version into a service's cache
    directory, and its gates: the digest on chain decides on the file, or on the
    manifest that names the file for each platform. *)

From Stdlib Require Import ZArith Lia Ascii.
From stdpp Require Import base gmap sets list sorting strings pretty fin_maps numbers relations.
From S2P Require Import Prelude Bytes Text JobCore Hex Http Disk Sources Upgrade.

#[local] Open Scope Z_scope.

Section swap.
  Context `{Pl : Platform} `{N : Net} `{D : Digests} `{J : ManifestJson}.

(** [map_digest_error] *)
Definition map_digest_error (service_id version : Z) (err : ManagerError) : UpgradeError :=
  match err with
  | HashMismatch expected actual => Sha256Mismatch service_id version expected actual
  | other => UpManager other
  end.

(** [resolve_url] *)
Definition resolve_url (raw : string) : result UpgradeError string :=
  match strip_prefix "ipfs://" raw with
  | Some rest =>
      match env_var "IPFS_GATEWAY_URL" with
      | None => Err (UpManager (MissingIpfsGateway raw))
      | Some gateway =>
          map_err (λ err, UpManager (DownloadFailed raw ("failed to build gateway URL: " +:+ err)))
            (url_parse (gateway_url gateway (trim_start_char "/" rest)))
      end
  | None => map_err (λ err, UpManager (DownloadFailed raw err)) (url_parse raw)
  end.

(** [download]: up to four attempts to get a response; a response is final *)
Definition save_response (url : string) (dest : Path) (max_bytes : Z) (len : option Z) (chunks : list (result string (list Byte8)))
    : Fetch UpgradeError unit :=
  let total_len := default 0 len in
  if (max_bytes <? total_len) && (0 <? total_len) then throw (UpManager (ArchiveTooLarge url total_len max_bytes))
  else
    _ ← mapping UpIo (fs_create dest);
    copy_chunks UpIo (λ err, UpManager (DownloadFailed url err)) (λ size, UpManager (ArchiveTooLarge url size max_bytes))
      dest max_bytes 0 chunks.
Fixpoint download_attempts (attempts : nat) (url : string) (dest : Path) (max_bytes : Z) (last_error : string) : Fetch UpgradeError unit :=
  match attempts with
  | O => throw (UpManager (DownloadFailed url last_error))
  | S attempts =>
      r ← net_get url;
      match r with
      | NetResp status len chunks =>
          if is_success status then save_response url dest max_bytes len chunks
          else download_attempts attempts url dest max_bytes ("HTTP " +:+ pretty status)
      | NetErr e => download_attempts attempts url dest max_bytes e
      end
  end.
Definition download (url : string) (dest : Path) (max_bytes : Z) : Fetch UpgradeError unit :=
  if negb client_builds then throw (ChainRead "http client") else download_attempts (S DOWNLOAD_RETRIES) url dest max_bytes "".

(** [verify_against_onchain] *)
Definition verify_against_onchain (service_id : Z) (v : BinaryVersionInfo) (p : Path) : Fetch UpgradeError unit :=
  r ← attempt (verify_binary_digest p (bv_sha256 v) None);
  match r with
  | Ok _ => mret tt
  | Err err => _ ← ignore (fs_remove p); throw (map_digest_error service_id (version_id v) err)
  end.

(** [swap_via_manifest] *)
Definition no_entry_error (service_id : Z) (v : BinaryVersionInfo) : UpgradeError :=
  UpManager (MgOther ("binary manifest for service " +:+ pretty service_id +:+ " version " +:+ pretty (version_id v) +:+
    " has no entry for " +:+ OS +:+ "/" +:+ ARCH)).
Definition asset_path (v : BinaryVersionInfo) : Path := ["binary-v" +:+ pretty (version_id v) +:+ "-" +:+ ARCH +:+ "-asset.part"].
Definition swap_via_manifest (service_id : Z) (v : BinaryVersionInfo) (manifest_path : Path) (manifest_bytes : list Byte8)
    (dest : Path) (max_bytes : Z) : Fetch UpgradeError Path :=
  _ ← verify_against_onchain service_id v manifest_path;
  manifest ← lift (map_err UpManager (parse_manifest manifest_bytes));
  entry ← lift (ok_or (select_for_current_platform manifest) (no_entry_error service_id v));
  asset_url ← lift (resolve_url (mb_url entry));
  _ ← download asset_url (asset_path v) max_bytes;
  expected_sha ← lift (map_err UpManager (entry_sha256_bytes entry));
  expected_blake3 ← lift (map_err UpManager (entry_blake3_bytes entry));
  r ← attempt (verify_binary_digest (asset_path v) expected_sha expected_blake3);
  match r with
  | Err err => _ ← ignore (fs_remove (asset_path v)); throw (map_digest_error service_id (version_id v) err)
  | Ok _ =>
      _ ← mapping UpIo (fs_rename (asset_path v) dest);
      mapping UpManager (make_executable dest)
  end.

(** [download_and_verify] *)
Definition cache_path (v : BinaryVersionInfo) : Path :=
  ["binary-v" +:+ pretty (version_id v) +:+ "-" +:+ ARCH +:+ "-" +:+ hex_encode (take 8 (bv_sha256 v))].
Definition fetch_version (service_id : Z) (v : BinaryVersionInfo) : Fetch UpgradeError Path :=
  let dest := cache_path v in
  let max_bytes := max_bytes_of_env in
  url ← lift (resolve_url (binary_uri v));
  let temp_path := with_extension "part" dest in
  _ ← download url temp_path max_bytes;
  downloaded ← mapping UpIo (fs_read temp_path);
  if uri_looks_like_manifest (binary_uri v) || bytes_are_manifest downloaded then
    r ← attempt (swap_via_manifest service_id v temp_path downloaded dest max_bytes);
    _ ← ignore (fs_remove temp_path);
    lift r
  else
    _ ← verify_against_onchain service_id v temp_path;
    _ ← mapping UpIo (fs_rename temp_path dest);
    mapping UpManager (make_executable dest).
Definition download_and_verify (service_id : Z) (v : BinaryVersionInfo) : Fetch UpgradeError Path :=
  let dest := cache_path v in
  _ ← mapping UpIo fs_create_dir_all;
  present ← fs_exists dest;
  if (present : bool) then
    ok ← (if uri_looks_like_manifest (binary_uri v) then mret false
          else r ← attempt (verify_binary_digest dest (bv_sha256 v) None); mret match r with Ok _ => true | Err _ => false end);
    if (ok : bool) then mapping UpManager (make_executable dest)
    else _ ← ignore (fs_remove dest); fetch_version service_id v
  else fetch_version service_id v.

End swap.

(** ** What is returned *)

Section proofs.
  Context `{Pl : Platform} `{N : Net} `{D : Digests} `{DL : !DigestLaws D} `{J : ManifestJson}.
  Implicit Types P : FilesPred.

(** Bytes that a version stands for: their digest is the one on chain; or there is a
    manifest with that digest, its first entry for this platform names their digest *)
Definition entry_of (e : ManifestBinary) (b : list Byte8) : Prop :=
  entry_sha256_bytes e = Ok (digest sha256_hasher b) ∧
  (entry_blake3_bytes e = Ok None ∨ entry_blake3_bytes e = Ok (Some (digest blake3_hasher b))).
Definition authentic (v : BinaryVersionInfo) (b : list Byte8) : Prop :=
  (digest sha256_hasher b = bv_sha256 v ∧ uri_looks_like_manifest (binary_uri v) = false) ∨
  ∃ bytes m e, digest sha256_hasher bytes = bv_sha256 v ∧ parse_manifest bytes = Ok m ∧
    select_for_current_platform m = Some e ∧ entry_of e b.
(** An executable file of such bytes at the path *)
Definition authentic_at (v : BinaryVersionInfo) (dest q : Path) (f : gmap Path File) : Prop :=
  q = dest ∧ ∃ x, f !! dest = Some x ∧ executable x ∧ authentic v (f_bytes x).

Lemma install_triple v src dest :
  target_windows = false →
  triple (λ f, ∃ x, f !! src = Some x ∧ authentic v (f_bytes x))
    (_ ← mapping UpIo (fs_rename src dest); mapping UpManager (make_executable dest)) (on_ok (authentic_at v dest)).
Proof.
  intros Hw. apply (triple_bind _ _ _ (λ _ f, ∃ x, f !! dest = Some x ∧ authentic v (f_bytes x))).
  - apply triple_map, fs_rename_triple. intros f x (x' & Hx' & Ha) Hx. exists x. rewrite lookup_insert_eq. naive_solver.
  - intros ?. apply triple_map. eapply triple_conseq; [by apply make_executable_triple|exact (λ _ H, H)|].
    intros [q|e] f; [|done]. intros (-> & f0 & x & x' & (y & Hy & Ha) & Hx & -> & Hc & He). rewrite Hx in Hy. injection Hy as ->.
    split; [done|]. exists x'. rewrite lookup_insert_eq, Hc. done.
Qed.

Lemma verify_against_onchain_triple P sid v p :
  triple P (verify_against_onchain sid v p)
    (on_ok (λ _ f, P f ∧ ∃ x, f !! p = Some x ∧ digest sha256_hasher (f_bytes x) = bv_sha256 v)).
Proof.
  unfold verify_against_onchain. eapply triple_bind; [apply triple_attempt, verify_binary_digest_triple|]. intros [[]|e].
  - apply triple_ret. cbn. naive_solver.
  - intros h _. unfold ignore, attempt, mbind, fetch_bind, throw. by destruct (fs_remove p h).
Qed.

Lemma swap_via_manifest_triple sid v path bytes dest max :
  target_windows = false →
  triple (λ f, ∃ x, f !! path = Some x ∧ f_bytes x = bytes) (swap_via_manifest sid v path bytes dest max) (on_ok (authentic_at v dest)).
Proof.
  intros Hw. unfold swap_via_manifest.
  apply (triple_bind _ _ _ (λ _ _, digest sha256_hasher bytes = bv_sha256 v)).
  { eapply triple_conseq; [apply verify_against_onchain_triple|exact (λ _ H, H)|]. intros [[]|e] f; [|done]. cbn. naive_solver. }
  intros ?. apply triple_lift_bind. intros m Hm. apply triple_lift_bind. intros e He. apply triple_lift_bind. intros url _.
  eapply triple_bind; [apply triple_any; exact (λ _ H, H)|]. intros ?.
  apply triple_lift_bind. intros sha Hsha. apply triple_lift_bind. intros blake Hblake.
  eapply triple_bind; [apply triple_attempt, verify_binary_digest_triple|]. intros [[]|err].
  - eapply triple_conseq; [by apply (install_triple v (asset_path v))| |done]. intros f (Hd & x & Hx & Hs & Hb). exists x. split; [done|].
    apply map_err_Ok in Hm, Hsha, Hblake. apply ok_or_Ok in He. right. exists bytes, m, e. split; [done|]. split; [done|].
    split; [done|]. split; [by rewrite Hsha, Hs|]. destruct blake as [k|]; [|by left]. right. cbn in Hb. by rewrite Hblake, Hb.
  - intros h _. unfold ignore, attempt, mbind, fetch_bind, throw. by destruct (fs_remove _ h).
Qed.

(** The file under download is not the file in the cache. *)
Lemma hex_encode_lacks_t l : Forall is_byte l → Forall (λ a, a ≠ "t"%char) (chars (hex_encode l)).
Proof.
  assert (Hd : ∀ d, 0 ≤ d < 16 → byte_ascii (hex_digit d) ≠ "t"%char).
  { intros d Hd E. apply hex_value_digit in Hd. rewrite E in Hd. discriminate Hd. }
  induction 1 as [|b l Hb Hl IH]; [constructor|]. rewrite hex_encode_cons. destruct (byte_nibbles b Hb).
  cbn [chars]. repeat constructor; auto.
Qed.

Lemma dash_not_part x y z : Forall (λ a, a ≠ "t"%char) (chars y) → x +:+ "-" +:+ y ≠ z +:+ ".part".
Proof.
  intros Hy E. apply (f_equal chars), (f_equal last) in E. rewrite !chars_app in E.
  change (chars "-" ++ chars y) with ("-"%char :: chars y) in E. rewrite last_app_cons in E.
  change (chars ".part") with ([".";"p";"a";"r"]%char ++ ["t"%char]) in E. rewrite app_assoc, last_snoc in E.
  apply last_Some_elem_of, elem_of_cons in E as [E|E]; [discriminate|]. rewrite list.Forall_forall in Hy. by apply (Hy _ E).
Qed.

Lemma part_path_differs v : Forall is_byte (bv_sha256 v) → with_extension "part" (cache_path v) ≠ cache_path v.
Proof.
  intros Hb. unfold with_extension, cache_path. cbn [reverse rev_append app].
  set (pre := "binary-v" +:+ pretty (version_id v) +:+ "-" +:+ ARCH). set (hex := hex_encode _).
  assert (E : "binary-v" +:+ pretty (version_id v) +:+ "-" +:+ ARCH +:+ "-" +:+ hex = pre +:+ "-" +:+ hex)
    by (unfold pre; by rewrite !append_assoc).
  intros [= H]. symmetry in H. revert H. rewrite E. apply dash_not_part, hex_encode_lacks_t. by apply Forall_take.
Qed.

Lemma fs_remove_triple p q x :
  q ≠ p → triple (λ f, f !! q = Some x) (fs_remove p) (λ _ f, f !! q = Some x).
Proof.
  intros Hq. apply triple_checked; [done|]. intros h Hx. cbn. destruct (files h !! p); cbn; [|done]. by rewrite lookup_delete_ne.
Qed.

Lemma fetch_version_triple P sid v :
  target_windows = false → Forall is_byte (bv_sha256 v) → triple P (fetch_version sid v) (on_ok (authentic_at v (cache_path v))).
Proof.
  intros Hw Hb. unfold fetch_version. apply triple_lift_bind. intros url _.
  apply (triple_bind _ _ _ (λ _ _, True)); [by apply triple_any|]. intros ?.
  eapply triple_bind; [apply triple_map, fs_read_triple|]. intros bytes. apply triple_if; intros Hm.
  - apply (triple_bind _ _ _ (λ r, on_ok (authentic_at v (cache_path v)) r)).
    { apply triple_attempt. eapply triple_conseq; [by apply swap_via_manifest_triple|naive_solver|done]. }
    intros r. apply (triple_bind _ _ _ (λ _, on_ok (authentic_at v (cache_path v)) r)); [|by intros ?; apply triple_lift].
    apply triple_ignore. intros h Hh. destruct r as [q|e]; [|done]. cbn in Hh |- *. destruct Hh as (-> & x & Hx & He & Ha). split; [done|].
    exists x. split; [|done]. apply (fs_remove_triple (with_extension "part" (cache_path v))); [|done]. apply not_eq_sym. by apply part_path_differs.
  - apply orb_false_iff in Hm as [Hm _]. eapply triple_bind; [apply verify_against_onchain_triple|]. intros ?.
    eapply triple_conseq; [by apply install_triple| |done]. intros f (_ & x & Hx & Hd). exists x. split; [done|]. by left.
Qed.

Lemma download_and_verify_triple sid v :
  target_windows = false → Forall is_byte (bv_sha256 v) →
  triple (λ _, True) (download_and_verify sid v) (on_ok (authentic_at v (cache_path v))).
Proof.
  intros Hw Hb.
  unfold download_and_verify. apply (triple_bind _ _ _ (λ _ _, True)); [by apply triple_any|]. intros ?.
  apply (triple_bind _ _ _ (λ _ _, True)); [by apply triple_any|]. intros [|]; [|by apply fetch_version_triple].
  apply (triple_bind _ _ _ (λ ok f, ok = true → ∃ x, f !! cache_path v = Some x ∧ authentic v (f_bytes x))).
  { destruct (uri_looks_like_manifest (binary_uri v)) eqn:Hm; [by apply triple_ret|].
    eapply triple_bind; [apply triple_attempt, verify_binary_digest_triple|]. intros [[]|e]; apply triple_ret; [|done].
    intros f (_ & x & Hx & Hd & _) _. exists x. split; [done|]. by left. }
  intros [|]; [|apply (triple_bind _ _ _ (λ _ _, True)); [by apply triple_any|]; intros ?; by apply fetch_version_triple].
  apply triple_map. eapply triple_conseq; [by apply make_executable_triple|exact (λ _ H, H eq_refl)|].
  intros [q|e] f; [|done]. intros (-> & f0 & x & x' & (y & Hy & Ha) & Hx & -> & Hc & He). rewrite Hx in Hy. injection Hy as ->.
  split; [done|]. exists x'. rewrite lookup_insert_eq, Hc. done.
Qed.
Lemma download_authentic sid v h p h' :
  target_windows = false → Forall is_byte (bv_sha256 v) → download_and_verify sid v h = (Ok p, h') →
  authentic_at v (cache_path v) p (files h').
Proof. intros Hw Hb Hr. pose proof (download_and_verify_triple sid v Hw Hb h I) as Ht. by rewrite Hr in Ht. Qed.

(** C10. An upgrade runs only what the chain names.  Whatever the servers answer, the
    disk does and the cache held: a path that the fetch of a version returns names
    an executable file whose digest is the version's on chain; or, through a
    manifest, the digest that the manifest pinned by the chain gives for this
    platform. *)
Theorem download_and_verify_authentic sid v h p h' :
  target_windows = false → Forall is_byte (bv_sha256 v) → download_and_verify sid v h = (Ok p, h') →
  p = cache_path v ∧ ∃ x, files h' !! p = Some x ∧ executable x ∧ authentic v (f_bytes x).
Proof. intros Hw Hb Hr. destruct (download_authentic _ _ _ _ _ Hw Hb Hr) as [-> ?]. done. Qed.

(** ** What is delivered *)

(** On a quiet disk: the bodies that are saved, and the retries *)
Lemma copy_chunks_quiet {E} (io failed : string → E) large dest max done l h x :
  faults h = [] → files h !! dest = Some x → done + zlen (mjoin l) ≤ max →
  copy_chunks io failed large dest max done (Ok <$> l) h
  = (Ok tt, set_files (<[dest := mkFile (f_bytes x ++ mjoin l) (f_mode x)]> (files h)) h).
Proof.
  intros Hh. revert done h x Hh. induction l as [|c l IH]; intros done h x Hh Hx Hl; cbn [copy_chunks fmap list_fmap].
  - unfold mapping, io_check, checked, faulty. rewrite Hh. cbn. rewrite app_nil_r. destruct x as [b m]. rewrite insert_id by done.
    by destruct h.
  - assert (Hz : zlen (mjoin (c :: l)) = zlen c + zlen (mjoin l)) by (change (mjoin (c :: l)) with (c ++ mjoin l); unfold zlen; rewrite length_app; lia).
    assert (0 ≤ zlen (mjoin l)) by (unfold zlen; lia). destruct (Z.ltb_spec max (done + zlen c)); [lia|].
    unfold mbind at 1, fetch_bind at 1, mapping at 1, fs_append, faulty. rewrite Hh, Hx. cbn [map_err].
    rewrite (IH _ _ (mkFile (f_bytes x ++ c) (f_mode x))); [|done|by cbn; rewrite lookup_insert_eq|lia].
    unfold set_files. cbn [files faults served f_bytes f_mode]. rewrite insert_insert_eq. cbn [mjoin list_join foldr].
    by rewrite <- app_assoc.
Qed.

(** A response that fails is one that is tried again. *)
Definition failing (r : NetAnswer) : Prop := match r with NetErr _ => True | NetResp status _ _ => is_success status = false end.

Lemma download_attempts_quiet n k url dest max e len l h :
  faults h = [] → (k < n)%nat → (∀ i, (i < k)%nat → failing (serve (served h + i) url)) →
  serve (served h + k) url = NetResp 200 len (Ok <$> l) → default 0 len ≤ max → zlen (mjoin l) ≤ max →
  download_attempts n url dest max e h
  = (Ok tt, mkHost (<[dest := mkFile (mjoin l) (from_option f_mode create_mode (files h !! dest))]> (files h)) [] (served h + S k)).
Proof.
  revert k e h. induction n as [|n IH]; intros k e h Hh Hk Hf Hs Hlen Hl; [lia|]. cbn [download_attempts].
  unfold mbind at 1, fetch_bind at 1, net_get. destruct k as [|k].
  - rewrite Nat.add_0_r in Hs. rewrite Hs. change (is_success 200) with true. cbv iota beta. unfold save_response.
    destruct (Z.ltb_spec max (default 0 len)); [lia|]. cbn [andb].
    unfold mbind at 1, fetch_bind at 1, mapping at 1, fs_create, checked, faulty. cbn [faults files served]. rewrite Hh. cbn [map_err].
    erewrite copy_chunks_quiet; [|done|by cbn; rewrite lookup_insert_eq|lia].
    unfold set_files. cbn [files faults served f_bytes f_mode app]. by rewrite insert_insert_eq, Nat.add_1_r.
  - assert (Hgo : ∀ e', download_attempts n url dest max e' (mkHost (files h) (faults h) (S (served h)))
      = (Ok tt, mkHost (<[dest := mkFile (mjoin l) (from_option f_mode create_mode (files h !! dest))]> (files h)) [] (served h + S (S k)))).
    { intros e'. rewrite (IH k); cbn [faults files served]; try done; [by rewrite Nat.add_succ_comm|lia| |].
      - intros i Hi. rewrite Nat.add_succ_comm. apply Hf. lia.
      - by rewrite Nat.add_succ_comm. }
    pose proof (Hf 0%nat ltac:(lia)) as H0. rewrite Nat.add_0_r in H0. unfold failing in H0.
    destruct (serve (served h) url) as [x|status ln ch]; [apply Hgo|]. rewrite H0. apply Hgo.
Qed.

(** An available upgrade is fetched: when the disk does not fail and one of the
    first four answers has the version's bytes within the limit, the fetch of an
    uncached version returns and the bytes are executable at the cache path. *)
Theorem download_and_verify_delivers sid v h url k l :
  target_windows = false → client_builds = true → faults h = [] → files h !! cache_path v = None →
  resolve_url (binary_uri v) = Ok url → uri_looks_like_manifest (binary_uri v) = false →
  bytes_are_manifest (mjoin l) = false → digest sha256_hasher (mjoin l) = bv_sha256 v → zlen (mjoin l) ≤ max_bytes_of_env →
  (k ≤ DOWNLOAD_RETRIES)%nat → (∀ i, (i < k)%nat → failing (serve (served h + i) url)) →
  serve (served h + k) url = NetResp 200 (Some (zlen (mjoin l))) (Ok <$> l) →
  ∃ h' x, download_and_verify sid v h = (Ok (cache_path v), h') ∧
    files h' !! cache_path v = Some x ∧ executable x ∧ f_bytes x = mjoin l.
Proof.
  intros Hw Hc Hh Hn Hu Hm Hm' Hd Hl Hk Hf Hs.
  unfold download_and_verify.
  erewrite run_bind; [|by apply run_mapping, io_check_quiet]. erewrite run_bind; [|by apply fs_exists_quiet].
  rewrite Hn, bool_decide_eq_false_2 by (by intros []). unfold fetch_version. rewrite Hu.
  erewrite run_bind; [|reflexivity]. erewrite run_bind; [|unfold download; rewrite Hc; by eapply (download_attempts_quiet _ k); try done; lia].
  erewrite run_bind; [|eapply run_mapping, fs_read_quiet; [done|by cbn; rewrite lookup_insert_eq]]. cbn [f_bytes]. rewrite Hm, Hm'. cbn [orb].
  erewrite run_bind.
  2: { unfold verify_against_onchain. erewrite run_bind; [|apply run_attempt, verify_binary_digest_quiet; [done|by cbn; rewrite lookup_insert_eq]].
       cbn [f_bytes]. rewrite bool_decide_eq_true_2 by done. reflexivity. }
  erewrite run_bind; [|eapply run_mapping, fs_rename_quiet; [done|by cbn; rewrite lookup_insert_eq]].
  erewrite run_mapping; [|eapply make_executable_quiet; [done|done|by cbn; rewrite lookup_insert_eq]].
  do 2 eexists. split; [reflexivity|]. cbn [files set_files]. rewrite lookup_insert_eq. split; [done|]. split; [|done].
  apply mode_executable.
Qed.
End proofs.

(** ** Runs *)

Definition demo_version (uri : string) (bytes : list Byte8) : BinaryVersionInfo :=
  mkVersion 4 (digest sha256_hasher bytes) uri B256_ZERO 0 false.

(** A fetch through a manifest with entries for two platforms *)
Lemma download_and_verify_authentic_witness :
  ∃ h' x, download_and_verify 7 (demo_version "http://x/m.json" [1]) demo_host
            = (Ok (cache_path (demo_version "http://x/m.json" [1])), h') ∧
    files h' !! cache_path (demo_version "http://x/m.json" [1]) = Some x ∧ authentic (demo_version "http://x/m.json" [1]) (f_bytes x).
Proof.
  destruct (download_and_verify 7 (demo_version "http://x/m.json" [1]) demo_host) as [r h'] eqn:E.
  assert (Hr : r = Ok (cache_path (demo_version "http://x/m.json" [1]))).
  { change r with (fst (r, h')). rewrite <- E. vm_compute. reflexivity. }
  subst r. assert (Hb : Forall is_byte (bv_sha256 (demo_version "http://x/m.json" [1]))).
  2: { destruct (download_and_verify_authentic 7 _ demo_host _ h' (eq_refl : @target_windows toy_platform = false) Hb E)
         as (_ & x & Hx & _ & Ha). exists h', x. split; [reflexivity|]. split; [exact Hx|exact Ha]. }
  change (bv_sha256 _) with (1 :: replicate 31 0 : list Byte8). constructor; [unfold is_byte; lia|].
  apply Forall_replicate. unfold is_byte. lia.
Defined.

Lemma download_and_verify_delivers_witness :
  ∃ h' x, download_and_verify 7 (demo_version "http://x/demo" demo_asset) demo_host
            = (Ok (cache_path (demo_version "http://x/demo" demo_asset)), h') ∧
    files h' !! cache_path (demo_version "http://x/demo" demo_asset) = Some x ∧ executable x ∧ f_bytes x = demo_asset.
Proof.
  apply (download_and_verify_delivers 7 (demo_version "http://x/demo" demo_asset) demo_host "http://x/demo" 1 [[7]; [8; 9]]);
    try reflexivity; try (vm_compute; discriminate).
  - vm_compute. lia.
  - intros i Hi. assert (i = 0%nat) as -> by lia. exact I.
Defined.

(** On Windows the path returned is not the file's: an extension is put to the name
    of the path, and the file keeps its own. *)
Lemma make_executable_windows `{Pl : Platform} p h :
  target_windows = true → has_extension p = false → make_executable p h = (Ok (with_extension "exe" p), h).
Proof. intros Hw He. unfold make_executable. by rewrite Hw, He. Qed.
