(* ===== verification/UpgradeChain.v ===== *)
(** * Versions on chain ([manager/src/upgrade/chain.rs], [abi.rs])

    What the manager reads of binary versions, the search for the event that carries
    a version's URI, and the transactions it sends.  The node's answers are data, and
    decoding an event is a parameter. *)

From Stdlib Require Import ZArith Lia Ascii.
From stdpp Require Import base gmap sets list sorting strings pretty fin_maps numbers relations.
From S2P Require Import Prelude Bytes Text EvmLog Hex Http Disk Upgrade.

#[local] Open Scope Z_scope.

(** The version the contract returns: without a URI *)
Record BinaryVersion := mkBinaryVersion {
  sv_version_id : Z; sv_published_at : Z; sv_deprecated : bool; sv_sha256_hash : B256; sv_attestation_hash : B256;
}.

(** The events: their selectors, and the URI of a [BinaryVersionPublished] log *)
Class VersionEvents := {
  sig_published : B256; sig_active_changed : B256; sig_deprecated : B256; sig_acked : B256; sig_policy_set : B256;
  decode_published : Log → option string;
}.
(** [event_selectors::matches_any] *)
Definition matches_any `{V : VersionEvents} (topic0 : B256) : bool :=
  existsb (λ s, bool_decide (s = topic0)) [sig_published; sig_active_changed; sig_deprecated; sig_acked; sig_policy_set].

(** A filter: the contract, the first topics, and the blocks *)
Record LogFilter := mkLogFilter { lf_address : list Byte8; lf_topics : list B256; lf_from : Z; lf_to : Z }.

(** A transaction's course: the wallet, the connection, the estimate of its gas, its
    submission with a gas limit, and the receipt *)
Record TxAnswers := mkTxAnswers {
  tx_wallet : result string unit;
  tx_connect : result string unit;
  tx_estimate : option Z;
  tx_send : Z → result string unit;
  tx_receipt : result string (bool * B256);
}.

(** The answers of a node while one request is served *)
Record ChainView := mkChainView {
  tangle_address : list Byte8;
  ch_policy : Z → result string Z;
  ch_acked : Z → result string Z;
  ch_count : Z → result string Z;
  ch_active : Z → result string Z;
  ch_version : Z → Z → result string BinaryVersion;
  ch_effective : Z → result string BinaryVersion;
  ch_block_number : result string Z;
  ch_logs : LogFilter → result string (list Log);
  ch_ack_tx : Z → Z → TxAnswers;
  ch_policy_tx : Z → Z → TxAnswers;
}.

(** [binary_version_count], [active_binary_version_id], [service_upgrade_policy],
    [service_acked_version_id] *)
Definition binary_version_count (c : ChainView) (blueprint_id : Z) : result UpgradeError Z :=
  map_err (λ e, ChainRead ("getBinaryVersionCount: " +:+ e)) (ch_count c blueprint_id).
Definition active_binary_version_id (c : ChainView) (blueprint_id : Z) : result UpgradeError Z :=
  map_err (λ e, ChainRead ("getActiveBinaryVersionId: " +:+ e)) (ch_active c blueprint_id).
Definition service_upgrade_policy (c : ChainView) (service_id : Z) : result UpgradeError UpgradePolicy :=
  raw ← map_err (λ e, ChainRead ("getServiceUpgradePolicy: " +:+ e)) (ch_policy c service_id); Ok (policy_from_u8 raw).
Definition service_acked_version_id (c : ChainView) (service_id : Z) : result UpgradeError Z :=
  map_err (λ e, ChainRead ("getServiceAckedVersionId: " +:+ e)) (ch_acked c service_id).

(** [u64_topic] *)
Definition u64_topic (value : Z) : B256 := replicate 24 0 ++ to_be_bytes 8 value.

(** ** The search for a URI *)

Definition GETLOGS_WINDOW : Z := 10000.

(** The newest log of a response that decodes *)
Definition newest {A} (pick : Log → option A) (logs : list Log) : option A := list.head (omap pick (reverse logs)).

(** The loop of [binary_uri_from_event] and of [sources_from_event]: windows of blocks,
    newest first; the fuel is one step for each window up to the head, and one that
    runs out counts as nothing found *)
Fixpoint scan_windows {E A} (fuel : nat) (get : Z → Z → result E (list Log)) (pick : Log → option A) (none : E) (to_block : Z) : result E A :=
  match fuel with
  | O => Err none
  | S fuel =>
      let from_block := u64_sat_sub to_block (u64_sat_sub GETLOGS_WINDOW 1) in
      logs ← get from_block to_block;
      match newest pick logs with
      | Some a => Ok a
      | None => if from_block =? 0 then Err none else scan_windows fuel get pick none (u64_sat_sub from_block 1)
      end
  end.
Definition windows_to (head : Z) : nat := Z.to_nat (head / GETLOGS_WINDOW + 1).

Section chain.
  Context `{V : VersionEvents}.

Definition no_event_error (blueprint_id version : Z) : UpgradeError :=
  ChainRead ("no BinaryVersionPublished event for blueprint " +:+ pretty blueprint_id +:+ " version " +:+ pretty version).
(** [binary_uri_from_event] *)
Definition binary_uri_from_event (c : ChainView) (blueprint_id version : Z) : result UpgradeError string :=
  head ← map_err (λ e, ChainRead ("block_number: " +:+ e)) (ch_block_number c);
  scan_windows (windows_to head) (λ from to, map_err (λ e, ChainRead ("BinaryVersionPublished logs: " +:+ e))
      (ch_logs c (mkLogFilter (tangle_address c) [sig_published; u64_topic blueprint_id; u64_topic version] from to)))
    decode_published (no_event_error blueprint_id version) head.

(** [get_binary_version], [effective_binary_version] *)
Definition version_info (v : BinaryVersion) (uri : string) : BinaryVersionInfo :=
  mkVersion (sv_version_id v) (sv_sha256_hash v) uri (sv_attestation_hash v) (sv_published_at v) (sv_deprecated v).
Definition get_binary_version (c : ChainView) (blueprint_id version : Z) : result UpgradeError BinaryVersionInfo :=
  v ← map_err (λ e, ChainRead ("getBinaryVersion: " +:+ e)) (ch_version c blueprint_id version);
  uri ← binary_uri_from_event c blueprint_id (sv_version_id v);
  Ok (version_info v uri).
(** [is_version_not_found] *)
Definition is_version_not_found (err : string) : bool := contains "versionnotfound" (to_ascii_lowercase err).
Definition effective_binary_version (c : ChainView) (service_id blueprint_id : Z) : result UpgradeError BinaryVersionInfo :=
  match ch_effective c service_id with
  | Ok v => uri ← binary_uri_from_event c blueprint_id (sv_version_id v); Ok (version_info v uri)
  | Err err =>
      if is_version_not_found err then Err (NoVersionsPublished blueprint_id)
      else Err (ChainRead ("effectiveBinaryVersion: " +:+ err))
  end.

End chain.

(** ** Transactions *)

Definition MIN_GAS_LIMIT : Z := 200000.
(** [buffered_gas_limit] *)
Definition buffered_gas_limit (estimated min_gas_limit : Z) : Z :=
  Z.max (u64_sat_add estimated (estimated / 10)) min_gas_limit.

(** [send_call] *)
Definition send_call (t : TxAnswers) : result UpgradeError B256 :=
  _ ← map_err (λ e, ChainWrite ("wallet: " +:+ e)) (tx_wallet t);
  _ ← map_err (λ e, ChainWrite ("provider: " +:+ e)) (tx_connect t);
  let gas_limit := match tx_estimate t with Some estimated => buffered_gas_limit estimated MIN_GAS_LIMIT | None => MIN_GAS_LIMIT end in
  _ ← map_err (λ e, ChainWrite ("send: " +:+ e)) (tx_send t gas_limit);
  r ← map_err (λ e, ChainWrite ("receipt: " +:+ e)) (tx_receipt t);
  if negb r.1 then Err (ChainWrite ("tx " +:+ b256_serialize r.2 +:+ " reverted")) else Ok r.2.
(** [ack_binary_version], [set_service_upgrade_policy] *)
Definition ack_binary_version (c : ChainView) (service_id version : Z) : result UpgradeError B256 :=
  send_call (ch_ack_tx c service_id version).
Definition set_service_upgrade_policy (c : ChainView) (service_id : Z) (p : UpgradePolicy) : result UpgradeError B256 :=
  send_call (ch_policy_tx c service_id (policy_as_u8 p)).

(** ** Properties *)

(** A gas limit never under the estimate nor the floor, and in range *)
Lemma buffered_gas_limit_bounds e : is_u64 e → e ≤ buffered_gas_limit e MIN_GAS_LIMIT ∧ MIN_GAS_LIMIT ≤ buffered_gas_limit e MIN_GAS_LIMIT ∧
  is_u64 (buffered_gas_limit e MIN_GAS_LIMIT).
Proof.
  unfold is_u64, buffered_gas_limit, u64_sat_add, u64_max, MIN_GAS_LIMIT. intros H.
  assert (0 ≤ e / 10) by (apply Z.div_pos; lia). lia.
Qed.

(** Topics tell versions apart. *)
Lemma u64_topic_inj x y : is_u64 x → is_u64 y → u64_topic x = u64_topic y → x = y.
Proof.
  intros Hx Hy E. apply app_inv_head in E. apply (f_equal from_be_bytes) in E. unfold is_u64 in *.
  rewrite !from_to_be_bytes_small in E by (simpl; lia). done.
Qed.

(** A node that answers a filter by the chain's logs: those of the contract and the
    topics, in its blocks *)
Definition log_block (l : Log) : Z := default 0 (block_number l).
Definition log_matches (f : LogFilter) (l : Log) : bool :=
  bool_decide (log_address l = lf_address f) && bool_decide (take (length (lf_topics f)) (topics l) = lf_topics f) &&
  (lf_from f <=? log_block l) && (log_block l <=? lf_to f).
Definition honest_node (c : ChainView) (chain : list Log) : Prop :=
  (∀ f, ch_logs c f = Ok (filter (λ l, log_matches f l = true) chain)) ∧
  StronglySorted (λ a b, log_block a ≤ log_block b) chain.

(** The contract's logs with the topics in a range of blocks *)
Definition event_logs (c : ChainView) (chain : list Log) (ts : list B256) (from to : Z) : list Log :=
  filter (λ l, log_matches (mkLogFilter (tangle_address c) ts from to) l = true) chain.

Lemma newest_app {A} (pick : Log → option A) a b :
  newest pick (a ++ b) = match newest pick b with Some u => Some u | None => newest pick a end.
Proof. unfold newest. rewrite reverse_app, omap_app. by destruct (omap pick (reverse b)). Qed.

Lemma filter_none {A} (f : A → bool) l : Forall (λ x, f x = false) l → filter (λ x, f x = true) l = [].
Proof. induction 1 as [|x l Hx Hl IH]; [done|]. by rewrite filter_cons, Hx, decide_False. Qed.

(** A range of blocks is its two parts. *)
Lemma event_logs_split c chain ts from mid to :
  StronglySorted (λ a b, log_block a ≤ log_block b) chain → from ≤ mid ≤ to + 1 →
  event_logs c chain ts from to = event_logs c chain ts from (mid - 1) ++ event_logs c chain ts mid to.
Proof.
  intros Hs Hm. unfold event_logs. set (flt := mkLogFilter (tangle_address c) ts).
  assert (Hf : ∀ a b l, log_matches (flt a b) l = log_matches (flt (log_block l) (log_block l)) l && (a <=? log_block l) && (log_block l <=? b)).
  { intros a b l. unfold log_matches. cbn. by rewrite !Z.leb_refl, !andb_true_r. }
  assert (Hlow : ∀ l, mid ≤ log_block l → log_matches (flt from (mid - 1)) l = false).
  { intros l Hl. rewrite Hf. destruct (Z.leb_spec (log_block l) (mid - 1)); [lia|]. apply andb_false_r. }
  induction Hs as [|l chain Hs IH Hl]; [done|]. rewrite !filter_cons, IH. destruct (Z.lt_ge_cases (log_block l) mid) as [Hlt|Hge].
  - assert (log_matches (flt mid to) l = false) as ->
      by (rewrite Hf; destruct (Z.leb_spec mid (log_block l)); [lia|]; by rewrite andb_false_r).
    assert (log_matches (flt from to) l = log_matches (flt from (mid - 1)) l) as ->
      by (rewrite (Hf from to), (Hf from (mid - 1)); f_equal; destruct (Z.leb_spec (log_block l) to), (Z.leb_spec (log_block l) (mid - 1)); lia).
    rewrite (decide_False (P := false = true)) by done. by destruct (decide _).
  - assert (filter (λ x, log_matches (flt from (mid - 1)) x = true) chain = []) as ->
      by (apply filter_none; eapply Forall_impl; [exact Hl|]; intros x Hx; apply Hlow; cbn in Hx; lia).
    rewrite (Hlow l), (decide_False (P := false = true)) by done. cbn [app].
    assert (log_matches (flt from to) l = log_matches (flt mid to) l) as ->; [|done].
    rewrite (Hf from to), (Hf mid to). do 2 f_equal. destruct (Z.leb_spec from (log_block l)), (Z.leb_spec mid (log_block l)); lia.
Qed.

Lemma scan_windows_newest {E A} c chain ts fuel (get : Z → Z → result E (list Log)) (pick : Log → option A) none to :
  StronglySorted (λ a b, log_block a ≤ log_block b) chain → (∀ a b, get a b = Ok (event_logs c chain ts a b)) →
  0 ≤ to → (windows_to to ≤ fuel)%nat →
  scan_windows fuel get pick none to = match newest pick (event_logs c chain ts 0 to) with Some u => Ok u | None => Err none end.
Proof.
  intros Hs Hget. revert to. unfold windows_to. induction fuel as [|fuel IH]; intros to Hto Hfuel.
  { unfold GETLOGS_WINDOW in Hfuel. assert (0 ≤ to / 10000) by (apply Z.div_pos; lia). lia. }
  cbn [scan_windows]. change (u64_sat_sub GETLOGS_WINDOW 1) with 9999. set (from := u64_sat_sub to 9999).
  assert (Hfe : from = Z.max 0 (to - 9999)) by done. assert (Hfrom : 0 ≤ from ≤ to + 1) by lia.
  rewrite Hget. cbn [mbind result_bind]. rewrite (event_logs_split c chain ts 0 from to) by done. rewrite newest_app.
  destruct (newest pick (event_logs c chain ts from to)) as [u|] eqn:Hu; [done|]. destruct (Z.eqb_spec from 0) as [Hz|Hz].
  - replace (event_logs c chain ts 0 (from - 1)) with (@nil Log); [done|]. symmetry. apply filter_none, list.Forall_forall. intros l _.
    unfold log_matches. cbn. destruct (Z.leb_spec 0 (log_block l)), (Z.leb_spec (log_block l) (from - 1)); try lia; by rewrite ?andb_false_r.
  - unfold u64_sat_sub. rewrite (Z.max_r 0 (from - 1)) by lia. apply IH; [lia|]. unfold GETLOGS_WINDOW in *.
    assert (E0 : to = (to - 10000) + 1 * 10000) by lia. replace (from - 1) with (to - 10000) by lia. rewrite E0 in Hfuel at 1. rewrite Z.div_add in Hfuel by lia.
    assert (0 ≤ (to - 10000) / 10000) by (apply Z.div_pos; lia). lia.
Qed.

(** The search for a version's URI ends, and it finds the newest one: on a node
    that answers from the chain's logs, whatever the head and however many windows
    there are, the result is the URI of the last log of the contract for this
    blueprint and version that decodes, up to the head; without one it is an error. *)
Theorem binary_uri_newest `{V : VersionEvents} c chain bp ver head :
  honest_node c chain → ch_block_number c = Ok head → is_u64 head →
  binary_uri_from_event c bp ver =
    match newest decode_published (event_logs c chain [sig_published; u64_topic bp; u64_topic ver] 0 head) with
    | Some u => Ok u
    | None => Err (no_event_error bp ver)
    end.
Proof.
  intros [Hn Hs] Hb Hh. unfold binary_uri_from_event. rewrite Hb. cbn [map_err mbind result_bind].
  apply scan_windows_newest; [done| |unfold is_u64 in Hh; lia|done]. intros a b. by rewrite Hn.
Qed.

(** ** A run *)

#[export] Instance toy_events : VersionEvents := {|
  sig_published := [1]; sig_active_changed := [2]; sig_deprecated := [3]; sig_acked := [4]; sig_policy_set := [5];
  decode_published l := match log_data l with [] => None | d => Some (string_of_bytes d) end;
|}.
Definition published_log (block bp ver : Z) (uri : list Byte8) (address : list Byte8) : Log :=
  mkLog address [[1]; u64_topic bp; u64_topic ver] uri (Some block) None None None.
(** A chain with an older and a newer log of the version, a log that does not decode,
    and a log of another contract *)
Definition demo_chain : list Log :=
  [published_log 3 5 1 [97] [9]; published_log 10500 5 1 [98] [9]; published_log 20400 5 1 [] [9]; published_log 31000 5 1 [99] [8]].
Definition no_tx : TxAnswers := mkTxAnswers (Err "") (Err "") None (λ _, Err ""%string) (Err "").
Definition demo_view (policy acked : Z) (v : BinaryVersion) : ChainView :=
  mkChainView [9] (λ _, Ok policy) (λ _, Ok acked) (λ _, Ok 2) (λ _, Ok 1) (λ _ _, Ok v) (λ _, Ok v) (Ok 31005)
    (λ f, Ok (filter (λ l, log_matches f l = true) demo_chain)) (λ _ _, no_tx) (λ _ _, no_tx).
Definition demo_onchain : BinaryVersion := mkBinaryVersion 1 100 false [7] B256_ZERO.

Lemma binary_uri_newest_witness : binary_uri_from_event (demo_view 1 0 demo_onchain) 5 1 = Ok "b"%string.
Proof.
  rewrite (binary_uri_newest (demo_view 1 0 demo_onchain) demo_chain 5 1 31005); [vm_compute; reflexivity| |reflexivity|done].
  split; [done|]. unfold demo_chain. repeat constructor; cbn; lia.
Defined.
