(* ===== verification/UpgradeWatch.v ===== *)
(** * The upgrade watcher and its local API ([manager/src/upgrade/watcher.rs],
      [rpc.rs])

    The watcher compares what runs with the version in force on chain, asks the
    policy and the operator's authorisations, fetches the binary and queues a swap.
    The API shows and changes the authorisations. *)

From Stdlib Require Import ZArith Lia Ascii.
From stdpp Require Import base gmap sets list sorting strings pretty fin_maps numbers relations.
From S2P Require Import Prelude Bytes Text EvmLog Hex Http Disk Sources Upgrade UpgradeFetch UpgradeChain.

#[local] Open Scope Z_scope.

(** ** State *)

Record SwapRequest := mkSwap {
  sr_service_id : Z;
  sr_blueprint_id : Z;
  sr_target : BinaryVersionInfo;
  sr_binary_path : Path;
  sr_policy : UpgradePolicy;
  sr_previous : option RunningBinary;
}.

(** What the watcher, the API and the event handler share: the state, the services,
    the authorisations, the queue of swaps and whether it is open, and the cache
    directory of each service *)
Record Watcher := mkWatcher {
  w_state : UpgradeState;
  w_tracked : gset (Z * Z);
  w_authz : LocalAuthzStore;
  w_queue : list SwapRequest;
  w_open : bool;
  w_caches : gmap (Z * Z) Host;
}.
Definition on_state (f : UpgradeState → UpgradeState) (w : Watcher) : Watcher :=
  mkWatcher (f (w_state w)) (w_tracked w) (w_authz w) (w_queue w) (w_open w) (w_caches w).
Definition set_authz (a : LocalAuthzStore) (w : Watcher) : Watcher :=
  mkWatcher (w_state w) (w_tracked w) a (w_queue w) (w_open w) (w_caches w).
Definition set_cache (key : Z * Z) (h : Host) (w : Watcher) : Watcher :=
  mkWatcher (w_state w) (w_tracked w) (w_authz w) (w_queue w) (w_open w) (<[key := h]> (w_caches w)).
Definition empty_host : Host := mkHost ∅ [] 0.
Definition cache_of (w : Watcher) (key : Z * Z) : Host := default empty_host (w_caches w !! key).

(** [TrackedServices::insert], [remove], [snapshot] *)
Definition tracked_insert (blueprint_id service_id : Z) (w : Watcher) : Watcher :=
  mkWatcher (w_state w) ({[ (blueprint_id, service_id) ]} ∪ w_tracked w) (w_authz w) (w_queue w) (w_open w) (w_caches w).
Definition tracked_remove (blueprint_id service_id : Z) (w : Watcher) : Watcher :=
  mkWatcher (w_state w) (w_tracked w ∖ {[ (blueprint_id, service_id) ]}) (w_authz w) (w_queue w) (w_open w) (w_caches w).
Definition tracked_snapshot (w : Watcher) : list (Z * Z) := elements (w_tracked w).

(** [history_entry] *)
Definition history_entry (blueprint_id service_id : Z) (running : option RunningBinary) (target : BinaryVersionInfo)
    (policy : UpgradePolicy) (out : UpgradeOutcome) (now : Z) : UpgradeHistoryEntry :=
  mkHistory service_id blueprint_id (rb_version_id <$> running) (rb_sha256 <$> running) (version_id target) (bv_sha256 target)
    policy now out.

(** [record_pending] *)
Definition record_pending (blueprint_id service_id : Z) (target : BinaryVersionInfo) (policy : UpgradePolicy)
    (running : option RunningBinary) (now : Z) : Watcher → Watcher :=
  on_state (state_record_pending
    (mkPending service_id blueprint_id (rb_version_id <$> running) (rb_sha256 <$> running) (version_id target) (bv_sha256 target)
       (binary_uri target) (attestation_hash target) policy now)).

(** The skipped versions, in their order *)
Definition by_version (p q : Z * string) : Prop := p.1 ≤ q.1.
#[export] Instance by_version_dec p q : Decision (by_version p q).
Proof. unfold by_version. apply _. Defined.
Definition skip_entries (a : LocalAuthz) : list (Z * string) := merge_sort by_version (map_to_list (skipped a)).

(** ** Reconciliation *)

Section watcher.
  Context `{Pl : Platform} `{N : Net} `{D : Digests} `{J : ManifestJson} `{AJ : AuthzJson} `{V : VersionEvents}.

(** [execute_swap] *)
Definition swap_outcome (e : UpgradeError) : UpgradeOutcome :=
  match e with Sha256Mismatch _ _ _ _ => OutSha256Mismatch | _ => OutDownloadFailed end.
Definition enqueue (r : SwapRequest) (w : Watcher) : Watcher :=
  if w_open w then mkWatcher (w_state w) (w_tracked w) (w_authz w) (w_queue w ++ [r]) (w_open w) (w_caches w) else w.
Definition execute_swap (blueprint_id service_id : Z) (target : BinaryVersionInfo) (policy : UpgradePolicy)
    (running : option RunningBinary) (now : Z) (w : Watcher) : result UpgradeError unit * Watcher :=
  let '(r, h) := download_and_verify service_id target (cache_of w (blueprint_id, service_id)) in
  let w := set_cache (blueprint_id, service_id) h w in
  match r with
  | Err err =>
      (Err err, on_state (push_history (history_entry blueprint_id service_id running target policy (swap_outcome err) now)) w)
  | Ok binary_path => (Ok tt, enqueue (mkSwap service_id blueprint_id target binary_path policy running) w)
  end.

(** The inputs of one reconciliation: the override of attestations, the clock, and
    whether the file of authorisations can be written *)
Record Inputs := mkInputs { in_unchecked : bool; in_now : Z; in_persist_fails : bool }.

(** An attestation that blocks a swap *)
Definition attestation_blocked (i : Inputs) (blueprint_id service_id : Z) (target : BinaryVersionInfo) (policy : UpgradePolicy)
    (running : option RunningBinary) (w : Watcher) : Watcher :=
  record_pending blueprint_id service_id target policy running (in_now i)
    (on_state (push_history (history_entry blueprint_id service_id running target policy OutAttestationFailed (in_now i))) w).

(** [reconcile_one], from the policy on *)
Definition needs_swap (running : option RunningBinary) (target : BinaryVersionInfo) : bool :=
  match running with Some r => negb (bool_decide (rb_sha256 r = bv_sha256 target)) | None => true end.
Definition reconcile_manual (i : Inputs) (blueprint_id service_id : Z) (target : BinaryVersionInfo)
    (running : option RunningBinary) (w : Watcher) : result UpgradeError unit * Watcher :=
  match authz_decide (authz_get service_id (w_authz w)) (version_id target) with
  | Swap clear_pinned =>
      match attestation_verify (in_unchecked i) service_id target with
      | Err _ => (Ok tt, attestation_blocked i blueprint_id service_id target Manual running w)
      | Ok _ =>
          let '(r, w) := execute_swap blueprint_id service_id target Manual running (in_now i) w in
          (r, if clear_pinned then set_authz (consume_pin_if (in_persist_fails i) service_id (version_id target) (w_authz w)).2 w else w)
      end
  | Skip => (Ok tt, on_state (clear_pending service_id) w)
  | Hold => (Ok tt, record_pending blueprint_id service_id target Manual running (in_now i) w)
  end.
Definition reconcile_approve (c : ChainView) (i : Inputs) (blueprint_id service_id : Z) (target : BinaryVersionInfo)
    (running : option RunningBinary) (w : Watcher) : result UpgradeError unit * Watcher :=
  match service_acked_version_id c service_id with
  | Err e => (Err e, w)
  | Ok acked =>
      if acked =? version_id target then execute_swap blueprint_id service_id target Approve running (in_now i) w
      else (Ok tt, record_pending blueprint_id service_id target Approve running (in_now i) w)
  end.
Definition reconcile_auto (i : Inputs) (blueprint_id service_id : Z) (target : BinaryVersionInfo)
    (running : option RunningBinary) (w : Watcher) : result UpgradeError unit * Watcher :=
  match attestation_verify (in_unchecked i) service_id target with
  | Err _ => (Ok tt, attestation_blocked i blueprint_id service_id target Auto running w)
  | Ok _ => execute_swap blueprint_id service_id target Auto running (in_now i) w
  end.

(** [reconcile_one] *)
Definition reconcile_one (c : ChainView) (i : Inputs) (blueprint_id service_id : Z) (w : Watcher) : result UpgradeError unit * Watcher :=
  match service_upgrade_policy c service_id with
  | Err e => (Err e, w)
  | Ok policy =>
      let w := on_state (set_policy service_id policy) w in
      match effective_binary_version c service_id blueprint_id with
      | Err (NoVersionsPublished _) => (Ok tt, w)
      | Err err => (Err err, w)
      | Ok target =>
          let running := us_running (w_state w) !! service_id in
          if negb (needs_swap running target) then (Ok tt, on_state (clear_pending service_id) w)
          else match policy with
          | Manual => reconcile_manual i blueprint_id service_id target running w
          | Approve => reconcile_approve c i blueprint_id service_id target running w
          | Auto => reconcile_auto i blueprint_id service_id target running w
          end
      end
  end.

(** [reconcile]: each service of the blueprints, or every one; a failure does not stop
    the others *)
Fixpoint reconcile_services (env : Z * Z → ChainView * Inputs) (blueprints : gset Z) (l : list (Z * Z)) (w : Watcher) : Watcher :=
  match l with
  | [] => w
  | (blueprint_id, service_id) :: l =>
      reconcile_services env blueprints l
        (if negb (bool_decide (blueprints = ∅)) && negb (bool_decide (blueprint_id ∈ blueprints)) then w
         else (reconcile_one (env (blueprint_id, service_id)).1 (env (blueprint_id, service_id)).2 blueprint_id service_id w).2)
  end.
Definition reconcile (env : Z * Z → ChainView * Inputs) (blueprints : gset Z) (w : Watcher) : Watcher :=
  reconcile_services env blueprints (tracked_snapshot w) w.

(** ** The local API *)

Record ApiError := mkApiError { api_status : Z; api_error : string }.
Definition bad_gateway : UpgradeError → ApiError := λ e, mkApiError 502 "chain".
Definition internal : string → ApiError := mkApiError 500.

Record PolicyView := mkPolicyView { pv_service_id : Z; pv_cached : option UpgradePolicy; pv_onchain : UpgradePolicy; pv_acked : Z }.
Record AvailableEntry := mkAvailable {
  av_version_id : Z; av_sha256 : string; av_uri : string; av_attestation : string; av_published_at : Z; av_deprecated : bool; av_running : bool;
}.
Record AvailableList := mkAvailableList { al_service_id : Z; al_blueprint_id : Z; al_active : Z; al_versions : list AvailableEntry }.
Record AuthzView := mkAuthzView {
  vw_service_id : Z; vw_policy : UpgradePolicy; vw_whitelisted : list Z; vw_pinned : option Z; vw_skipped : list (Z * string);
  vw_running : option RunningBinary;
}.
Record PinResult := mkPinResult { pn_status : string; pn_pinned : option Z }.

(** [list_pending], [list_history] *)
Definition list_pending (w : Watcher) : list PendingUpgrade := (map_to_list (us_pending (w_state w))).*2.
Definition list_history (w : Watcher) : list UpgradeHistoryEntry := us_history (w_state w).

(** [get_policy] *)
Definition api_get_policy (c : ChainView) (service_id : Z) (w : Watcher) : result ApiError PolicyView * Watcher :=
  let cached := us_policies (w_state w) !! service_id in
  match service_upgrade_policy c service_id with
  | Err e => (Err (bad_gateway e), w)
  | Ok onchain =>
      let w := on_state (set_policy service_id onchain) w in
      match service_acked_version_id c service_id with
      | Err e => (Err (bad_gateway e), w)
      | Ok acked => (Ok (mkPolicyView service_id cached onchain acked), w)
      end
  end.
(** [set_policy], [submit_ack] *)
Definition api_set_policy (c : ChainView) (service_id : Z) (p : UpgradePolicy) (w : Watcher) : result ApiError string * Watcher :=
  match set_service_upgrade_policy c service_id p with
  | Err e => (Err (bad_gateway e), w)
  | Ok tx => (Ok (b256_serialize tx), on_state (set_policy service_id p) w)
  end.
Definition api_submit_ack (c : ChainView) (service_id version : Z) (w : Watcher) : result ApiError string * Watcher :=
  (map_err bad_gateway (b256_serialize <$> ack_binary_version c service_id version), w).

(** [resolve_blueprint_id] *)
Definition resolve_blueprint_id (service_id : Z) (w : Watcher) : result ApiError Z :=
  match List.find (λ p, p.2 =? service_id) (tracked_snapshot w) with
  | Some (bp, _) => Ok bp
  | None => Err (mkApiError 404 ("service " +:+ pretty service_id +:+ " is not tracked by this manager"))
  end.

(** [list_available] *)
Definition api_list_available (c : ChainView) (service_id : Z) (w : Watcher) : result ApiError AvailableList * Watcher :=
  let running := us_running (w_state w) !! service_id in
  (bp ← resolve_blueprint_id service_id w;
   count ← map_err bad_gateway (binary_version_count c bp);
   active ← map_err bad_gateway (active_binary_version_id c bp);
   versions ← traverse (λ i,
     info ← map_err bad_gateway (get_binary_version c bp i);
     Ok (mkAvailable (version_id info) (b256_serialize (bv_sha256 info)) (binary_uri info) (b256_serialize (attestation_hash info))
           (published_at info) (deprecated info)
           (match running with Some r => bool_decide (rb_sha256 r = bv_sha256 info) | None => false end))) (seqZ 0 count);
   Ok (mkAvailableList service_id bp active versions), w).

(** [get_authz] *)
Definition api_get_authz (c : ChainView) (service_id : Z) (w : Watcher) : result ApiError AuthzView * Watcher :=
  (onchain ← map_err bad_gateway (service_upgrade_policy c service_id);
   let a := authz_get service_id (w_authz w) in
   Ok (mkAuthzView service_id onchain (merge_sort Z.le (elements (whitelisted a))) (pinned a)
         (skip_entries a) (us_running (w_state w) !! service_id)), w).

(** [set_pin] *)
Definition pin_status (c : ChainView) (service_id version : Z) (w : Watcher) : result ApiError string :=
  bp ← resolve_blueprint_id service_id w;
  count ← map_err bad_gateway (binary_version_count c bp);
  if count <=? version then Ok "not_published"%string
  else
    target ← map_err bad_gateway (get_binary_version c bp version);
    Ok (if match us_running (w_state w) !! service_id with Some r => bool_decide (rb_sha256 r = bv_sha256 target) | None => false end
        then "already_running" else "pinned_swap")%string.
Definition api_set_pin (c : ChainView) (fails : bool) (service_id version : Z) (dry_run : bool) (w : Watcher)
    : result ApiError PinResult * Watcher :=
  match pin_status c service_id version w with
  | Err e => (Err e, w)
  | Ok status =>
      if dry_run then (Ok (mkPinResult ("dry_run:" +:+ status) (pinned (authz_get service_id (w_authz w)))), w)
      else
        let '(r, a) := set_pin fails service_id (Some version) (w_authz w) in
        (match r with Ok _ => Ok (mkPinResult status (Some version)) | Err e => Err (internal e) end, set_authz a w)
  end.

(** [set_whitelist], [add_skip] *)
Definition api_set_whitelist (fails : bool) (service_id : Z) (versions : list Z) (w : Watcher) : result ApiError (list Z) * Watcher :=
  let '(r, a) := set_whitelist fails service_id (list_to_set versions) (w_authz w) in
  (match r with Ok z => Ok (merge_sort Z.le (elements (whitelisted z))) | Err e => Err (internal e) end, set_authz a w).
Definition api_add_skip (fails : bool) (service_id version : Z) (reason : string) (w : Watcher) : result ApiError (list (Z * string)) * Watcher :=
  if bool_decide (trim reason = ""%string)
  then (Err (mkApiError 400 "reason must be non-empty (this lands in the operator's audit log)"), w)
  else
    let '(r, a) := add_skip fails service_id version reason (w_authz w) in
    (match r with Ok z => Ok (skip_entries z) | Err e => Err (internal e) end, set_authz a w).

End watcher.

(** ** What may be queued *)

Section proofs.
  Context `{Pl : Platform} `{N : Net} `{D : Digests} `{DL : !DigestLaws D} `{J : ManifestJson} `{AJ : AuthzJson} `{V : VersionEvents}.

(** Who decides on a swap: for [Auto] the attestation gate; for [Approve] an
    acknowledgement on chain of this very version; for [Manual] the operator's local
    authorisation, and then the gate *)
Definition authorised (c : ChainView) (i : Inputs) (a : LocalAuthz) (service_id : Z) (policy : UpgradePolicy) (target : BinaryVersionInfo) : Prop :=
  match policy with
  | Auto => attestation_verify (in_unchecked i) service_id target = Ok tt
  | Approve => service_acked_version_id c service_id = Ok (version_id target)
  | Manual => (∃ b, authz_decide a (version_id target) = Swap b) ∧ attestation_verify (in_unchecked i) service_id target = Ok tt
  end.

(** A swap as it should be: to the version in force on chain, which is not what runs,
    under the policy on chain and with its authorisation, and with a binary that the
    version stands for in the service's directory *)
Definition justified (c : ChainView) (i : Inputs) (w : Watcher) (key : Z * Z) (f : gmap Path File) (r : SwapRequest) : Prop :=
  (sr_blueprint_id r, sr_service_id r) = key ∧
  effective_binary_version c key.2 key.1 = Ok (sr_target r) ∧
  service_upgrade_policy c key.2 = Ok (sr_policy r) ∧
  us_running (w_state w) !! key.2 = sr_previous r ∧ needs_swap (sr_previous r) (sr_target r) = true ∧
  authorised c i (authz_get key.2 (w_authz w)) key.2 (sr_policy r) (sr_target r) ∧
  authentic_at (sr_target r) (cache_path (sr_target r)) (sr_binary_path r) f.

(** Authorisations that lost at most their pin *)
Definition authz_le (a b : LocalAuthz) : Prop :=
  whitelisted a = whitelisted b ∧ skipped a = skipped b ∧ (pinned a = pinned b ∨ pinned a = None).
#[local] Instance authz_le_refl : Reflexive authz_le.
Proof. intros a. split; [|split]; auto. Qed.
#[local] Instance authz_le_trans : Transitive authz_le.
Proof. intros a b c (H1 & H2 & H3) (G1 & G2 & G3). split; [congruence|]. split; [congruence|]. destruct H3, G3; [left|right|right|right]; congruence. Qed.

Lemma authz_le_decide a b v x : authz_le a b → authz_decide a v = Swap x → ∃ y, authz_decide b v = Swap y.
Proof.
  intros (Hw & Hs & Hp). unfold authz_decide. rewrite <- Hs, <- Hw. destruct (decide (pinned b = Some v)) as [Hb|Hb].
  - intros _. rewrite (bool_decide_eq_true_2 _ Hb). eauto.
  - rewrite (bool_decide_eq_false_2 _ Hb), bool_decide_eq_false_2 by (destruct Hp; congruence). eauto.
Qed.
Lemma authorised_le c i a b s p t : authz_le a b → authorised c i a s p t → authorised c i b s p t.
Proof. intros Hl. destruct p; cbn; try done. intros [[x Hx] Ha]. split; [|done]. by eapply authz_le_decide. Qed.

Lemma consume_pin_le fails id v s k : authz_le (authz_get k (consume_pin_if fails id v s).2) (authz_get k s).
Proof.
  unfold consume_pin_if. case_bool_decide as Hp.
  - assert (Hi : az_inner (authz_persist fails id (mkAuthz (whitelisted (authz_get id s)) None (skipped (authz_get id s)))
        (set_inner id (mkAuthz (whitelisted (authz_get id s)) None (skipped (authz_get id s))) s)).2
        = <[id := mkAuthz (whitelisted (authz_get id s)) None (skipped (authz_get id s))]> (az_inner s))
      by (unfold authz_persist; destruct (negb _); [done|]; by destruct fails).
    unfold authz_get at 1. rewrite Hi. destruct (decide (k = id)) as [->|Hk].
    + rewrite lookup_insert_eq. split; [done|]. split; [done|]. by right.
    + by rewrite lookup_insert_ne.
  - unfold authz_get at 1. cbn [snd set_inner az_inner]. destruct (decide (k = id)) as [->|Hk]; [by rewrite lookup_insert_eq|by rewrite lookup_insert_ne].
Qed.

(** What one turn keeps: the running binaries, the authorisations up to a pin, and the
    other services' directories *)
Definition turn_keeps (key : Z * Z) (w w' : Watcher) : Prop :=
  us_running (w_state w') = us_running (w_state w) ∧
  (∀ s, authz_le (authz_get s (w_authz w')) (authz_get s (w_authz w))) ∧
  (∀ k, k ≠ key → cache_of w' k = cache_of w k).
Definition turn (c : ChainView) (i : Inputs) (key : Z * Z) (w w' : Watcher) : Prop :=
  turn_keeps key w w' ∧
  (w_queue w' = w_queue w ∨ ∃ r, w_queue w' = w_queue w ++ [r] ∧ justified c i w key (files (cache_of w' key)) r).

Lemma turn_state c i key w f :
  us_running (f (w_state w)) = us_running (w_state w) → turn c i key w (on_state f w).
Proof. intros H. split; [|by left]. split; [done|]. split; [done|]. done. Qed.

Lemma execute_swap_turn c i bp sid target policy w r w' :
  target_windows = false → Forall is_byte (bv_sha256 target) →
  effective_binary_version c sid bp = Ok target → service_upgrade_policy c sid = Ok policy →
  needs_swap (us_running (w_state w) !! sid) target = true → authorised c i (authz_get sid (w_authz w)) sid policy target →
  execute_swap bp sid target policy (us_running (w_state w) !! sid) (in_now i) w = (r, w') →
  turn c i (bp, sid) w w' ∧ w_authz w' = w_authz w.
Proof.
  intros Hw Hb He Hp Hn Ha. unfold execute_swap. destruct (download_and_verify _ _ _) as [[path|err] h] eqn:Hd; intros [= <- <-].
  - unfold enqueue. destruct (w_open _); (split; [|done]); (split; [split; [done|]; split; [done|]|]);
      try (intros k Hk; unfold cache_of; cbn; by rewrite lookup_insert_ne); [right|by left].
    eexists. split; [reflexivity|]. split; [done|]. cbn [sr_target sr_policy sr_previous sr_binary_path fst snd].
    do 5 (split; [done|]). unfold cache_of. cbn. rewrite lookup_insert_eq. cbn. by eapply download_authentic.
  - split; [|done]. split; [|by left]. split; [done|]. split; [done|]. intros k Hk. unfold cache_of. cbn. by rewrite lookup_insert_ne.
Qed.

Lemma turn_consume c i key fails id v w w' :
  turn c i key w w' → turn c i key w (set_authz (consume_pin_if fails id v (w_authz w')).2 w').
Proof.
  intros [(Hr & Ha & Hc) Hq]. split; [|done]. split; [done|]. split; [|done]. intros s. etrans; [apply consume_pin_le|apply Ha].
Qed.

Lemma reconcile_one_turn c i bp sid w :
  target_windows = false → (∀ t, effective_binary_version c sid bp = Ok t → Forall is_byte (bv_sha256 t)) →
  turn c i (bp, sid) w (reconcile_one c i bp sid w).2.
Proof.
  intros Hw Hb. unfold reconcile_one. destruct (service_upgrade_policy c sid) as [policy|e] eqn:Hp; [|split; [done|by left]].
  set (w1 := on_state (set_policy sid policy) w).
  assert (Hlift : ∀ w', turn c i (bp, sid) w1 w' → turn c i (bp, sid) w w').
  { intros w' [Hk Hq]. split; [exact Hk|]. destruct Hq as [Hq|(r & Hq & Hj)]; [by left|]. right. exists r. split; [exact Hq|exact Hj]. }
  destruct (effective_binary_version c sid bp) as [target|e] eqn:He; [|destruct e; by apply turn_state].
  cbn zeta. destruct (needs_swap _ target) eqn:Hn; cbn [negb]; [|apply Hlift; by apply turn_state].
  specialize (Hb _ eq_refl). apply Hlift. destruct policy.
  - unfold reconcile_approve. destruct (service_acked_version_id c sid) as [acked|e] eqn:Ha; [|split; [done|by left]].
    destruct (Z.eqb_spec acked (version_id target)) as [->|]; [|by apply turn_state].
    destruct (execute_swap _ _ _ _ _ _ _) as [r w'] eqn:Hx. by eapply execute_swap_turn in Hx as [? _].
  - unfold reconcile_auto. destruct (attestation_verify _ _ _) as [[]|e] eqn:Ha; [|by apply (turn_state c i (bp, sid) w1 (λ s, _ (_ s)))].
    destruct (execute_swap _ _ _ _ _ _ _) as [r w'] eqn:Hx. by eapply execute_swap_turn in Hx as [? _].
  - unfold reconcile_manual. destruct (authz_decide _ _) as [|b|] eqn:Hz; [by apply turn_state| |by apply turn_state].
    destruct (attestation_verify _ _ _) as [[]|e] eqn:Ha; [|by apply (turn_state c i (bp, sid) w1 (λ s, _ (_ s)))].
    destruct (execute_swap _ _ _ _ _ _ _) as [r w'] eqn:Hx. eapply execute_swap_turn in Hx as [Ht _]; try done; [|split; eauto].
    cbn [snd]. destruct b; [by apply turn_consume|done].
Qed.

(** A pass over services: the requests it adds, each seen from its start and in the
    directories at its end *)
Definition req_key (r : SwapRequest) : Z * Z := (sr_blueprint_id r, sr_service_id r).
Definition pass_adds (env : Z * Z → ChainView * Inputs) (blueprints : gset Z) (done : list (Z * Z)) (w w' : Watcher) : Prop :=
  us_running (w_state w') = us_running (w_state w) ∧
  (∀ s, authz_le (authz_get s (w_authz w')) (authz_get s (w_authz w))) ∧
  ∃ reqs, w_queue w' = w_queue w ++ reqs ∧ NoDup (req_key <$> reqs) ∧
    Forall (λ r, req_key r ∈ done ∧ (blueprints = ∅ ∨ sr_blueprint_id r ∈ blueprints) ∧
      justified (env (req_key r)).1 (env (req_key r)).2 w (req_key r) (files (cache_of w' (req_key r))) r) reqs.

Lemma pass_adds_skip env bps done k w w' : pass_adds env bps done w w' → pass_adds env bps (done ++ [k]) w w'.
Proof.
  intros (Hr & Ha & reqs & Hq & Hnd & Hf). split; [done|]. split; [done|]. exists reqs. split; [done|]. split; [done|].
  eapply Forall_impl; [exact Hf|]. cbn. intros r (Hd & ?). split; [|done]. apply elem_of_app. by left.
Qed.

Lemma pass_adds_turn env bps done k w w1 w2 :
  k ∉ done → (bps = ∅ ∨ k.1 ∈ bps) → pass_adds env bps done w w1 → turn (env k).1 (env k).2 k w1 w2 → pass_adds env bps (done ++ [k]) w w2.
Proof.
  intros Hk Hb (Hr & Ha & reqs & Hq & Hnd & Hf) [(Hr2 & Ha2 & Hc2) Hq2].
  assert (Hf2 : Forall (λ r, req_key r ∈ done ++ [k] ∧ (bps = ∅ ∨ sr_blueprint_id r ∈ bps) ∧
      justified (env (req_key r)).1 (env (req_key r)).2 w (req_key r) (files (cache_of w2 (req_key r))) r) reqs).
  { eapply Forall_impl; [exact Hf|]. cbn. intros r (Hd & Hb' & Hj). split; [apply elem_of_app; by left|]. split; [done|].
    rewrite Hc2; [exact Hj|]. intros E. apply Hk. by rewrite <- E. }
  split; [congruence|]. split; [intros s; etrans; [apply Ha2|apply Ha]|].
  destruct Hq2 as [Hq2|(r & Hq2 & Hj)]; [exists reqs; split; [congruence|done]|]. exists (reqs ++ [r]).
  destruct Hj as (Hkey & He & Hp & Hrun & Hn & Hau & Hat). split; [rewrite Hq2, Hq; by rewrite app_assoc|]. split.
  - rewrite fmap_app. apply NoDup_app. split; [done|]. split; [|by apply NoDup_singleton]. intros q Hin.
    cbn. rewrite list_elem_of_singleton. intros ->. apply list_elem_of_fmap in Hin as (r' & E & Hr').
    rewrite list.Forall_forall in Hf. apply Hf in Hr' as [Hd _]. apply Hk. unfold req_key in E at 1. rewrite Hkey in E. by rewrite E.
  - apply Forall_app. split; [done|]. apply Forall_singleton. unfold req_key. rewrite Hkey. split; [apply elem_of_app; right; by apply list_elem_of_singleton|].
    split; [by rewrite <- Hkey in Hb|]. split; [done|]. split; [done|]. split; [done|]. split; [congruence|]. split; [done|]. split; [|done].
    eapply authorised_le; [apply Ha|exact Hau].
Qed.

Lemma reconcile_services_adds env bps l done w w1 :
  target_windows = false → (∀ k t, effective_binary_version (env k).1 k.2 k.1 = Ok t → Forall is_byte (bv_sha256 t)) →
  NoDup (done ++ l) → pass_adds env bps done w w1 → pass_adds env bps (done ++ l) w (reconcile_services env bps l w1).
Proof.
  intros Hw Hb. revert done w1. induction l as [|[bp sid] l IH]; intros done w1 Hnd Hp; cbn [reconcile_services].
  { by rewrite app_nil_r. }
  replace (done ++ (bp, sid) :: l) with ((done ++ [(bp, sid)]) ++ l) in * by (by rewrite <- app_assoc). apply IH; [done|].
  destruct (negb (bool_decide (bps = ∅)) && negb (bool_decide (bp ∈ bps))) eqn:E; [by apply pass_adds_skip|].
  apply NoDup_app in Hnd as [Hnd _]. apply NoDup_app in Hnd as (_ & Hk & _).
  eapply pass_adds_turn; [|  |exact Hp|by apply reconcile_one_turn; [|apply (Hb (bp, sid))]].
  - intros Hin. apply (Hk _ Hin). by apply list_elem_of_singleton.
  - cbn. apply andb_false_iff in E as [E|E]; apply negb_false_iff, bool_decide_eq_true in E; auto.
Qed.

(** C11. A pass of the watcher queues only swaps it may make.  Each request it adds is
    for a tracked service of the signalled blueprints, one for each at most; it goes
    to the version in force on chain, which is not what runs; it has the
    authorisation that the policy on chain asks for; and at the end of the pass the
    executable file it names is what that version stands for. *)
Theorem reconcile_justified env bps w :
  target_windows = false → (∀ k t, effective_binary_version (env k).1 k.2 k.1 = Ok t → Forall is_byte (bv_sha256 t)) →
  let w' := reconcile env bps w in
  ∃ reqs, w_queue w' = w_queue w ++ reqs ∧ NoDup (req_key <$> reqs) ∧
    Forall (λ r, req_key r ∈ w_tracked w ∧ (bps = ∅ ∨ sr_blueprint_id r ∈ bps) ∧
      justified (env (req_key r)).1 (env (req_key r)).2 w (req_key r) (files (cache_of w' (req_key r))) r) reqs.
Proof.
  intros Hw Hb w'. destruct (reconcile_services_adds env bps (tracked_snapshot w) [] w w) as (_ & _ & reqs & Hq & Hnd & Hf); [done|done| | |].
  - cbn [app]. unfold tracked_snapshot. apply NoDup_elements.
  - split; [done|]. split; [done|]. exists []. rewrite app_nil_r. split; [done|]. split; [constructor|by constructor].
  - exists reqs. split; [done|]. split; [done|]. eapply Forall_impl; [exact Hf|]. cbn. intros r (Hd & ?). split; [|done].
    by apply elem_of_elements.
Qed.

(** An authorised upgrade is queued: when the version in force is not what runs,
    its policy's authorisation is given, its binary can be fetched and the handler is
    there, a turn of the watcher queues the swap to it. *)
Theorem reconcile_one_delivers c i bp sid w policy target path h :
  service_upgrade_policy c sid = Ok policy → effective_binary_version c sid bp = Ok target →
  needs_swap (us_running (w_state w) !! sid) target = true → authorised c i (authz_get sid (w_authz w)) sid policy target →
  w_open w = true → download_and_verify sid target (cache_of w (bp, sid)) = (Ok path, h) →
  (reconcile_one c i bp sid w).1 = Ok tt ∧
  w_queue (reconcile_one c i bp sid w).2 = w_queue w ++ [mkSwap sid bp target path policy (us_running (w_state w) !! sid)].
Proof.
  intros Hp He Hn Ha Ho Hd. unfold reconcile_one. rewrite Hp, He. cbn [w_state on_state us_running set_policy]. rewrite Hn. cbn [negb].
  assert (Hx : execute_swap bp sid target policy (us_running (w_state w) !! sid) (in_now i) (on_state (set_policy sid policy) w)
    = (Ok tt, enqueue (mkSwap sid bp target path policy (us_running (w_state w) !! sid))
        (set_cache (bp, sid) h (on_state (set_policy sid policy) w)))).
  { unfold execute_swap. change (cache_of (on_state _ w) (bp, sid)) with (cache_of w (bp, sid)). by rewrite Hd. }
  destruct policy; cbn in Ha.
  - unfold reconcile_approve. rewrite Ha, Z.eqb_refl, Hx. unfold enqueue. cbn. by rewrite Ho.
  - unfold reconcile_auto. rewrite Ha, Hx. unfold enqueue. cbn. by rewrite Ho.
  - destruct Ha as [[b Hb] Ha]. unfold reconcile_manual. cbn [w_authz on_state]. rewrite Hb, Ha, Hx. unfold enqueue. cbn.
    rewrite Ho. by destruct b.
Qed.
End proofs.

(** ** Runs *)

Definition demo_target (attestation : B256) : BinaryVersion :=
  mkBinaryVersion 1 100 false (digest sha256_hasher demo_asset) attestation.
Definition demo_watcher : Watcher :=
  mkWatcher upgrade_state_new {[ (5, 7) ]} new_in_memory [] true ∅.
Definition demo_env (policy acked : Z) (attestation : B256) : Z * Z → ChainView * Inputs :=
  λ _, (demo_view policy acked (demo_target attestation), mkInputs false 0 false).

Lemma demo_env_bytes policy acked att k t :
  effective_binary_version (demo_env policy acked att k).1 k.2 k.1 = Ok t → Forall is_byte (bv_sha256 t).
Proof.
  unfold effective_binary_version. cbn [demo_env fst ch_effective demo_view].
  destruct (binary_uri_from_event _ _ _) as [u|e]; [|discriminate]. intros [= <-].
  change (bv_sha256 _) with ([9; 8; 7] ++ replicate 29 0 : list Byte8). apply Forall_app. split.
  - repeat constructor; unfold is_byte; lia.
  - apply Forall_replicate. unfold is_byte. lia.
Qed.

Lemma reconcile_justified_witness :
  ∃ r, w_queue (reconcile (demo_env 1 0 B256_ZERO) ∅ demo_watcher) = [r] ∧ req_key r = (5, 7) ∧ version_id (sr_target r) = 1.
Proof.
  destruct (reconcile_justified (demo_env 1 0 B256_ZERO) ∅ demo_watcher (eq_refl : @target_windows toy_platform = false)
    (demo_env_bytes 1 0 B256_ZERO)) as (reqs & Hq & _ & Hf).
  assert (Hl : length (w_queue (reconcile (demo_env 1 0 B256_ZERO) ∅ demo_watcher)) = 1%nat) by (vm_compute; reflexivity).
  rewrite Hq in Hl. cbn [demo_watcher w_queue app] in Hq, Hl. destruct reqs as [|r [|]]; try discriminate Hl. exists r.
  split; [exact Hq|]. apply Forall_singleton in Hf as (Hk & _ & _ & He & _). split.
  - change (w_tracked demo_watcher) with ({[ (5, 7) ]} : gset (Z * Z)) in Hk. by apply elem_of_singleton in Hk.
  - change (w_tracked demo_watcher) with ({[ (5, 7) ]} : gset (Z * Z)) in Hk. apply elem_of_singleton in Hk. rewrite Hk in He.
    change (version_id (sr_target r)) with (match Ok (sr_target r) : result UpgradeError _ with Ok t => version_id t | Err _ => 0 end).
    rewrite <- He. vm_compute. reflexivity.
Defined.

Lemma reconcile_one_delivers_witness :
  ∃ path, w_queue (reconcile_one (demo_env 1 0 B256_ZERO (5, 7)).1 (mkInputs false 0 false) 5 7 demo_watcher).2
    = [mkSwap 7 5 (version_info (demo_target B256_ZERO) "b") path Auto None].
Proof.
  destruct (download_and_verify 7 (version_info (demo_target B256_ZERO) "b") (cache_of demo_watcher (5, 7))) as [r h] eqn:E.
  assert (Hr : r = Ok (cache_path (version_info (demo_target B256_ZERO) "b"))).
  { change r with (fst (r, h)). rewrite <- E. vm_compute. reflexivity. }
  subst r. eexists.
  refine (proj2 (reconcile_one_delivers (demo_env 1 0 B256_ZERO (5, 7)).1 (mkInputs false 0 false) 5 7 demo_watcher Auto
    (version_info (demo_target B256_ZERO) "b") _ h _ _ _ _ _ E)); vm_compute; reflexivity.
Defined.

(** With [Approve] and an acknowledgement the attestation is not asked for: a version
    whose attestation cannot be verified is queued, and one under [Auto] is not. *)
Lemma approve_skips_attestation :
  attestation_verify false 7 (version_info (demo_target [1]) "b") ≠ Ok tt ∧
  length (w_queue (reconcile (demo_env 0 1 [1]) ∅ demo_watcher)) = 1%nat ∧
  length (w_queue (reconcile (demo_env 1 1 [1]) ∅ demo_watcher)) = 0%nat.
Proof. split; [discriminate|]. split; vm_compute; reflexivity. Qed.

(** A pin that the attestation blocks stays: each reconciliation records the failure
    again. *)
Lemma blocked_pin_kept :
  let w := set_authz (set_pin false 7 (Some 1) (w_authz demo_watcher)).2 demo_watcher in
  let w := reconcile (demo_env 2 0 [1]) ∅ (reconcile (demo_env 2 0 [1]) ∅ w) in
  pinned (authz_get 7 (w_authz w)) = Some 1 ∧ outcome <$> us_history (w_state w) = [OutAttestationFailed; OutAttestationFailed].
Proof. split; vm_compute; reflexivity. Qed.

(** A pin on a published version that is not in force is answered [pinned_swap], and
    no reconciliation swaps to it. *)
Lemma pinned_swap_holds :
  let '(r, w) := api_set_pin (demo_env 2 0 B256_ZERO (5, 7)).1 false 7 0 false demo_watcher in
  r = Ok (mkPinResult "pinned_swap" (Some 0)) ∧ w_queue (reconcile (demo_env 2 0 B256_ZERO) ∅ w) = [].
Proof. split; vm_compute; reflexivity. Qed.

(** The authorisations of a service the manager does not run can be set; its pin
    cannot. *)
Lemma untracked_whitelist_accepted :
  (api_set_whitelist false 99 [3; 1] demo_watcher).1 = Ok [1; 3] ∧
  (api_set_pin (demo_env 2 0 B256_ZERO (5, 7)).1 false 99 1 false demo_watcher).1
    = Err (mkApiError 404 "service 99 is not tracked by this manager").
Proof. split; vm_compute; reflexivity. Qed.
