(* ===== verification/Launch.v ===== *)
(** * Launching a service ([manager/src/protocol/tangle/event_handler.rs],
      [sources/mod.rs], [rt/mod.rs], [rt/service.rs])

    Which of a blueprint's sources are tried and in which order, what a service is
    started with, and when it counts as started.  What a runtime does with an attempt
    is data. *)

From Stdlib Require Import ZArith Lia Ascii.
From stdpp Require Import base gmap sets list sorting strings pretty fin_maps numbers relations.
From S2P Require Import Prelude Bytes Text EvmLog Hex Http Disk Sources.

#[local] Open Scope Z_scope.

(** ** Requirements and limits *)

Inductive ConfidentialityPolicy := CpAny | TeeRequired | StandardRequired | TeePreferred.
Inductive GpuPolicy := GpuNone | GpuRequired | GpuPreferred.
Record GpuRequirements := mkGpu { gpu_req_policy : GpuPolicy; min_count : Z; min_vram_gb : Z }.
Inductive SourceType := StContainer | StNative | StWasm.
#[export] Instance ConfidentialityPolicy_eq_dec : EqDecision ConfidentialityPolicy.
Proof. solve_decision. Defined.
#[export] Instance SourceType_eq_dec : EqDecision SourceType.
Proof. solve_decision. Defined.

Inductive GpuSchedulingPolicy := GsNone | GsRequired | GsPreferred.
Record ResourceLimits := mkLimits {
  storage_space : Z; memory_size : Z; cpu_count : option Z; gpu_count : option Z;
  gpu_policy : GpuSchedulingPolicy; gpu_min_vram_gb : option Z; network_bandwidth : option Z;
}.
Definition limits_default : ResourceLimits :=
  mkLimits (1024 * 1024 * 1024 * 20) (1024 * 1024 * 1024 * 4) (Some 2) None GsNone None None.

(** [apply_gpu_limits] *)
Definition clamp (lo hi x : Z) : Z := Z.max lo (Z.min hi x).
Definition with_gpu (p : GpuSchedulingPolicy) (gpu : GpuRequirements) (l : ResourceLimits) : ResourceLimits :=
  mkLimits (storage_space l) (memory_size l) (cpu_count l) (Some (clamp 1 255 (min_count gpu))) p
    (if 0 <? min_vram_gb gpu then Some (min_vram_gb gpu) else gpu_min_vram_gb l) (network_bandwidth l).
Definition apply_gpu_limits (gpu : GpuRequirements) (l : ResourceLimits) : ResourceLimits :=
  match gpu_req_policy gpu with
  | GpuRequired => with_gpu GsRequired gpu l
  | GpuPreferred => with_gpu GsPreferred gpu l
  | GpuNone => l
  end.

(** ** The order of sources *)

Inductive SourceCategory := ScNative | ScContainer | ScTesting.
Definition source_category (s : BlueprintSource) : SourceCategory :=
  match s with Github _ | Remote _ => ScNative | Container _ => ScContainer | Testing _ => ScTesting end.
Definition source_kind_label (s : BlueprintSource) : string :=
  match s with Github _ => "github" | Remote _ => "remote" | Container _ => "container" | Testing _ => "testing" end.
Definition source_priority (s : BlueprintSource) (preferred : SourceType) : Z :=
  match preferred with
  | StContainer => match source_category s with ScContainer => 0 | ScNative => 1 | ScTesting => 2 end
  | StNative | StWasm => match source_category s with ScNative => 0 | ScContainer => 1 | ScTesting => 2 end
  end.
Definition supports_tee (s : BlueprintSource) : bool := match s with Container _ => true | _ => false end.

(** [ordered_source_indices]: [saturating_add] on [u8] *)
Definition effective_priority (s : BlueprintSource) (preferred : SourceType) (p : ConfidentialityPolicy) : Z :=
  if bool_decide (p = TeePreferred) then
    match source_category s with ScContainer => 0 | _ => Z.min 255 (source_priority s preferred + 1) end
  else source_priority s preferred.
Definition ordered_source_indices (sources : list BlueprintSource) (preferred : SourceType) (p : ConfidentialityPolicy) : list nat :=
  let require_tee := bool_decide (p = TeeRequired) in
  let indexed := imap (λ i s, (i, s)) sources in
  let kept := List.filter (λ x : nat * BlueprintSource, negb require_tee || supports_tee x.2) indexed in
  let ranked := (λ x : nat * BlueprintSource, (x.1, effective_priority x.2 preferred p)) <$> kept in
  (sort_by_key (λ x : nat * Z, (x.2, Z.of_nat x.1)) ranked).*1.

(** ** Arguments and environment *)

Record BlueprintArgs := mkArgs { ba_test_mode : bool; ba_pretty : bool; ba_verbose : Z; ba_dry_run : bool; ba_extra : list (string * string) }.
(** [BlueprintArgs::encode] *)
Fixpoint repeat_char (c : ascii) (n : nat) : string := match n with O => EmptyString | S n => String c (repeat_char c n) end.
Definition args_encode (a : BlueprintArgs) (run : bool) : list string :=
  (if run then ["run"] else []) ++ (if ba_test_mode a then ["--test-mode"] else []) ++ (if ba_pretty a then ["--pretty"] else []) ++
  (if 0 <? ba_verbose a then ["-" +:+ repeat_char "v" (Z.to_nat (ba_verbose a))] else []) ++
  (if ba_dry_run a then ["--dry-run"] else []) ++ mjoin ((λ kv, [kv.1; kv.2]) <$> ba_extra a).

Inductive SupportedChains := LocalTestnet | LocalMainnet | Testnet | Mainnet.
Definition chain_display (c : SupportedChains) : string :=
  match c with LocalTestnet => "local_testnet" | LocalMainnet => "local_mainnet" | Testnet => "testnet" | Mainnet => "mainnet" end.
Definition chain_from_str (s : string) : option SupportedChains :=
  if bool_decide (s = "local_testnet"%string) then Some LocalTestnet
  else if bool_decide (s = "local_mainnet"%string) then Some LocalMainnet
  else if bool_decide (s = "testnet"%string) then Some Testnet
  else if bool_decide (s = "mainnet"%string) then Some Mainnet else None.

Record BlueprintEnvVars := mkEnvVars {
  ev_http : string; ev_ws : string; ev_keystore : string; ev_data_dir : string; ev_blueprint_id : Z; ev_service_id : Z;
  ev_protocol : string; ev_chain : option SupportedChains; ev_bootnodes : string; ev_registration_mode : bool; ev_capture_only : bool;
  ev_bridge : option string; ev_tangle : option string; ev_staking : option string; ev_status_registry : option string;
}.
(** What the manager is run with: the environment of the node and its own directories *)
Record ManagerEnv := mkManagerEnv {
  me_http : string; me_ws : string; me_keystore : string; me_bootnodes : list string; me_bridge : option string;
  me_tangle : option (string * string * string); me_dry_run : bool;
  me_data_dir : string; me_test_mode : bool; me_pretty : bool; me_verbose : Z; me_preferred : SourceType;
  me_var : string → option string; me_cwd : option string;
}.
(** [BlueprintEnvVars::new] *)
Definition env_vars_new (e : ManagerEnv) (blueprint_id service_id : Z) (registration_mode capture_only : bool) (sub_service : string)
    : BlueprintEnvVars :=
  mkEnvVars (me_http e) (me_ws e) (me_keystore e) (me_data_dir e +:+ "/blueprint-" +:+ pretty blueprint_id +:+ "-" +:+ sub_service)
    blueprint_id service_id "tangle" None (foldl (λ acc b, acc +:+ " " +:+ b) "" (me_bootnodes e)) registration_mode capture_only
    (me_bridge e) ((λ t, t.1.1) <$> me_tangle e) ((λ t, t.1.2) <$> me_tangle e) (snd <$> me_tangle e).
(** [BlueprintEnvVars::encode] *)
Definition env_pair (name : string) (v : option string) : list (string * string) := match v with Some x => [(name, x)] | None => [] end.
Definition env_encode (v : BlueprintEnvVars) : list (string * string) :=
  let chain := match ev_chain v with
    | Some c => c
    | None => if contains "127.0.0.1" (ev_http v) || contains "localhost" (ev_http v) then LocalTestnet else Testnet end in
  [("HTTP_RPC_URL", ev_http v); ("WS_RPC_URL", ev_ws v); ("KEYSTORE_URI", ev_keystore v); ("DATA_DIR", ev_data_dir v);
   ("BLUEPRINT_ID", pretty (ev_blueprint_id v)); ("SERVICE_ID", pretty (ev_service_id v)); ("PROTOCOL", ev_protocol v);
   ("CHAIN", chain_display chain); ("BOOTNODES", ev_bootnodes v)]%string ++
  env_pair "TANGLE_CONTRACT" (ev_tangle v) ++ env_pair "STAKING_CONTRACT" (ev_staking v) ++
  env_pair "STATUS_REGISTRY_CONTRACT" (ev_status_registry v) ++ env_pair "BRIDGE_SOCKET_PATH" (ev_bridge v) ++
  (if ev_registration_mode v then
     [("REGISTRATION_MODE_ON", "true"); ("REGISTRATION_OUTPUT_PATH", ev_data_dir v +:+ "/registration_inputs.bin")]%string ++
     (if ev_capture_only v then [("REGISTRATION_CAPTURE_ONLY", "true")]%string else [])
   else []).

(** ** Services *)

Record BlueprintMetadata := mkMetadata {
  md_blueprint_id : Z; md_service_id : Z; md_name : string; md_sources : list BlueprintSource;
  md_confidentiality : ConfidentialityPolicy; md_gpu : GpuRequirements; md_registration_mode : bool; md_capture_only : bool;
}.

(** A service: the source it was made from and what it was made with *)
Record Service := mkService {
  sv_source : BlueprintSource; sv_confidentiality : ConfidentialityPolicy; sv_limits : ResourceLimits;
  sv_args : list string; sv_env : list (string * string);
}.

(** The signal of the bridge: a connection, the loss of its sender, or silence for
    480 seconds *)
Inductive Alive := Connected | SenderLost | Silent.
(** What [Service::start] returns polls to [health] *)
Definition health (a : Alive) : result ManagerError unit :=
  match a with Silent => Err (MgOther "Bridge connection timeout") | _ => Ok tt end.

(** What the host does in one launch: its two directories, and for each attempt the
    spawn, the start (a health check or none) and the bridge *)
Record Launch := mkLaunch {
  la_runtime_dir : result ManagerError unit;
  la_cache_dir : result ManagerError unit;
  la_spawn : nat → BlueprintSource → result ManagerError unit;
  la_start : nat → result ManagerError bool;
  la_alive : nat → Alive;
}.

(** One attempt, as the code treats it: the service runs; the attempt failed and the
    next may do; or the whole launch is abandoned *)
Inductive Attempt := Started (s : Service) | Next (e : ManagerError) | Abandon (e : ManagerError).
Definition make_service (e : ManagerEnv) (m : BlueprintMetadata) (s : BlueprintSource) : Service :=
  mkService s (md_confidentiality m) (apply_gpu_limits (md_gpu m) limits_default)
    (args_encode (mkArgs (me_test_mode e) (me_pretty e) (me_verbose e) (me_dry_run e) []) true)
    (env_encode (env_vars_new e (md_blueprint_id m) (md_service_id m) (md_registration_mode m) (md_capture_only m) (md_name m))).
Definition try_source (e : ManagerEnv) (l : Launch) (m : BlueprintMetadata) (n : nat) (s : BlueprintSource) : Attempt :=
  match la_spawn l n s with
  | Err x => Next x
  | Ok _ =>
      match la_start l n with
      | Err x => Abandon x
      | Ok false => Started (make_service e m s)
      | Ok true => match health (la_alive l n) with Ok _ => Started (make_service e m s) | Err x => Next x end
      end
  end.
Fixpoint try_sources (e : ManagerEnv) (l : Launch) (m : BlueprintMetadata) (n : nat) (sources : list BlueprintSource)
    (last_err : option ManagerError) : result ManagerError (Service + option ManagerError) :=
  match sources with
  | [] => Ok (inr last_err)
  | s :: sources =>
      match try_source e l m n s with
      | Started v => Ok (inl v)
      | Abandon x => Err x
      | Next x => try_sources e l m (S n) sources (Some x)
      end
  end.

(** The local build that a native manager falls back to *)
Definition cargo_fallback (e : ManagerEnv) (m : BlueprintMetadata) : option BlueprintSource :=
  if bool_decide (me_preferred e = StNative) && negb (bool_decide (md_confidentiality m = TeeRequired)) then
    bin ← match me_var e ("BLUEPRINT_CARGO_BIN_" +:+ pretty (md_blueprint_id m)) with
          | Some v => Some v
          | None => me_var e "BLUEPRINT_CARGO_BIN"
          end;
    Some (Testing (mkTestFetcher bin bin (default "."%string (me_cwd e))))
  else None.

(** [ensure_service_running], for a service that is not running: the service that was
    started *)
Definition launch (e : ManagerEnv) (l : Launch) (m : BlueprintMetadata) : result ManagerError Service :=
  if bool_decide (length (md_sources m) = 0%nat) then Err NoFetchers
  else
    _ ← la_runtime_dir l;
    _ ← la_cache_dir l;
    let order := ordered_source_indices (md_sources m) (me_preferred e) (md_confidentiality m) in
    if bool_decide (md_confidentiality m = TeeRequired) && bool_decide (length order = 0%nat) then
      Err (TeeRuntimeUnavailable "Blueprint requires TEE execution but exposes no container source")
    else
      r ← try_sources e l m 0 (omap (λ i, md_sources m !! i) order) None;
      match r with
      | inl v => Ok v
      | inr last_err =>
          match cargo_fallback e m with
          | None => Err (default NoFetchers last_err)
          | Some s =>
              match try_source e l m (length order) s with
              | Started v => Ok v
              | Abandon x => Err x
              | Next x => Err x
              end
          end
      end.

(** ** Properties *)

Section order.
  Variables (sources : list BlueprintSource) (preferred : SourceType) (p : ConfidentialityPolicy).

(** A source the policy admits, and its rank *)
Definition admitted (i : nat) (s : BlueprintSource) : Prop :=
  sources !! i = Some s ∧ (p = TeeRequired → supports_tee s = true).
Definition before (i j : nat) : Prop :=
  ∃ s t, sources !! i = Some s ∧ sources !! j = Some t ∧
    (effective_priority s preferred p < effective_priority t preferred p ∨
     effective_priority s preferred p = effective_priority t preferred p ∧ (i < j)%nat).

Definition ranked : list (nat * Z) :=
  (λ x : nat * BlueprintSource, (x.1, effective_priority x.2 preferred p)) <$>
    List.filter (λ x : nat * BlueprintSource, negb (bool_decide (p = TeeRequired)) || supports_tee x.2) (imap (λ i s, (i, s)) sources).

Lemma elem_of_imap_pairs (l : list BlueprintSource) i s : (i, s) ∈ imap (λ i s, (i, s)) l ↔ l !! i = Some s.
Proof.
  rewrite list_elem_of_lookup. split.
  - intros [k Hk]. rewrite list_lookup_imap in Hk. destruct (l !! k) eqn:E; [|done]. cbn in Hk. by injection Hk as <- <-.
  - intros H. exists i. by rewrite list_lookup_imap, H.
Qed.

Lemma elem_of_ranked i k : (i, k) ∈ ranked ↔ ∃ s, admitted i s ∧ k = effective_priority s preferred p.
Proof.
  unfold ranked. rewrite list_elem_of_fmap. split.
  - intros ([j s] & [= -> ->] & H). apply list_elem_of_In, List.filter_In in H as [H Ha]. apply list_elem_of_In, elem_of_imap_pairs in H.
    exists s. split; [|done]. split; [done|]. intros ->. cbn in Ha. done.
  - intros (s & [Hs Ha] & ->). exists (i, s). split; [done|]. apply list_elem_of_In, List.filter_In. split; [by apply list_elem_of_In, elem_of_imap_pairs|].
    cbn. case_bool_decide; [|done]. cbn. by apply Ha.
Qed.

Lemma NoDup_ranked : NoDup ranked.*1.
Proof.
  unfold ranked. rewrite <- list_fmap_compose. cbn [compose].
  assert (H : NoDup ((imap (λ i s, (i, s)) sources).*1)).
  { apply NoDup_alt. intros i j x. rewrite !list_lookup_fmap, !list_lookup_imap.
    destruct (sources !! i), (sources !! j); cbn; congruence. }
  revert H. generalize (imap (λ i s, (i, s)) sources). intros l. induction l as [|x l IH]; [done|]. intros Hnd. inversion_clear Hnd as [|? ? Hx Hl].
  cbn. destruct (_ || _); [|by apply IH]. cbn. constructor; [|by apply IH]. intros Hin. apply Hx.
  apply list_elem_of_fmap in Hin as (y & E & Hy). apply list_elem_of_In, List.filter_In in Hy as [Hy _]. cbn in E. rewrite E.
  apply list_elem_of_fmap. exists y. split; [done|]. by apply list_elem_of_In.
Qed.

Lemma order_spec :
  NoDup (ordered_source_indices sources preferred p) ∧
  (∀ i, i ∈ ordered_source_indices sources preferred p ↔ ∃ s, admitted i s) ∧
  StronglySorted before (ordered_source_indices sources preferred p).
Proof.
  set (key := λ x : nat * Z, (x.2, Z.of_nat x.1)). change (ordered_source_indices sources preferred p) with ((sort_by_key key ranked).*1).
  pose proof (sort_by_key_perm key ranked) as Hp.
  assert (Hnd : NoDup ((sort_by_key key ranked).*1)) by (rewrite Hp; apply NoDup_ranked).
  split; [done|]. split.
  - intros i. rewrite Hp. split.
    + intros H. apply list_elem_of_fmap in H as ([j k] & -> & H). apply elem_of_ranked in H as (s & Hs & _). eauto.
    + intros [s Hs]. apply list_elem_of_fmap. exists (i, effective_priority s preferred p). split; [done|]. apply elem_of_ranked. eauto.
  - pose proof (sort_by_key_sorted key ranked) as Hs.
    assert (Hin : ∀ x, x ∈ sort_by_key key ranked → x ∈ ranked) by (intros x; by rewrite Hp). clear Hp. revert Hnd Hin.
    induction Hs as [|[i k] l Hs IH Hl]; intros Hnd Hin; cbn; [constructor|]. cbn in Hnd. inversion_clear Hnd as [|? ? Hi Hnd'].
    constructor; [apply IH; [done|]; intros x Hx; apply Hin; by right|]. apply list.Forall_forall. intros j Hj.
    apply list_elem_of_fmap in Hj as ([j' k'] & -> & Hj). rewrite list.Forall_forall in Hl. pose proof (Hl _ Hj) as Hle.
    destruct (proj1 (elem_of_ranked i k) (Hin _ ltac:(left))) as (s & [Hs1 _] & ->).
    destruct (proj1 (elem_of_ranked j' k') (Hin _ ltac:(by right))) as (t & [Ht1 _] & ->). cbn. exists s, t. split; [done|]. split; [done|].
    unfold key_le, key in Hle. rewrite key_leb_spec in Hle. cbn in Hle. destruct Hle as [?|[He Hij]]; [by left|]. right. split; [done|].
    assert (i ≠ j'); [|lia]. intros ->. apply Hi. apply list_elem_of_fmap. by exists (j', effective_priority t preferred p).
Qed.

End order.

(** The sources of a service are tried in a fixed order: each one that its policy
    admits once and no other, by its rank and then as the blueprint lists them; and a
    service that prefers a TEE tries containers before anything else. *)
Theorem source_order sources preferred p :
  let order := ordered_source_indices sources preferred p in
  NoDup order ∧ (∀ i, i ∈ order ↔ ∃ s, sources !! i = Some s ∧ (p = TeeRequired → supports_tee s = true)) ∧
  StronglySorted (before sources preferred p) order ∧
  (p = TeePreferred → ∀ a i b j, order = a ++ i :: b → j ∈ b → (supports_tee <$> sources !! j) = Some true → (supports_tee <$> sources !! i) = Some true).
Proof.
  destruct (order_spec sources preferred p) as (Hn & Hi & Hs). split; [done|]. split; [done|]. split; [done|].
  intros -> a i b j Ho Hj Ht. rewrite Ho in Hs. apply StronglySorted_app in Hs as (_ & _ & Hs).
  apply StronglySorted_cons in Hs as [Hf _]. rewrite list.Forall_forall in Hf. destruct (Hf _ Hj) as (s & t & -> & Ht' & Hle).
  rewrite Ht' in Ht. cbn in Ht |- *. f_equal. unfold effective_priority in Hle.
  rewrite bool_decide_eq_true_2 in Hle by done. destruct s, t; try done; exfalso; destruct preferred; cbn in Hle; lia.
Qed.

(** What a launch starts: the service of one of the admitted sources, or the local
    build; never anything but a container when a TEE is required *)
Lemma try_sources_started e l m n ss le v :
  try_sources e l m n ss le = Ok (inl v) → ∃ s, s ∈ ss ∧ v = make_service e m s.
Proof.
  revert n le. induction ss as [|s ss IH]; intros n le; cbn [try_sources]; [discriminate|].
  destruct (try_source e l m n s) as [v'|x|x] eqn:E; [|intros H; apply IH in H as (s' & ? & ?); exists s'; split; [by right|done]|discriminate].
  intros [= ->]. exists s. split; [left|]. unfold try_source in E. repeat case_match; congruence.
Qed.

Lemma launch_started e l m v :
  launch e l m = Ok v → ∃ s, v = make_service e m s ∧ (s ∈ md_sources m ∨ cargo_fallback e m = Some s) ∧
    (md_confidentiality m = TeeRequired → supports_tee s = true).
Proof.
  unfold launch. case_bool_decide; [discriminate|]. destruct (la_runtime_dir l) as [[]|?]; [|discriminate].
  destruct (la_cache_dir l) as [[]|?]; [|discriminate]. cbn [mbind result_bind].
  destruct (_ && _); [discriminate|]. destruct (try_sources _ _ _ _ _ _) as [[v'|le]|x] eqn:E; cbn; [|  |discriminate].
  - intros [= ->]. apply try_sources_started in E as (s & Hs & ->). exists s. split; [done|].
    apply list_elem_of_omap in Hs as (i & Hi & Hs). destruct (order_spec (md_sources m) (me_preferred e) (md_confidentiality m)) as (_ & Ho & _).
    apply Ho in Hi as (s' & Hs' & Ht). rewrite Hs in Hs'. injection Hs' as <-. split; [left; by eapply list_elem_of_lookup_2|done].
  - destruct (cargo_fallback e m) as [s|] eqn:Hf; [|discriminate]. destruct (try_source _ _ _ _ s) as [v'|x|x] eqn:E'; try discriminate.
    intros [= ->]. exists s. split; [unfold try_source in E'; repeat case_match; congruence|]. split; [by right|].
    intros Hc. unfold cargo_fallback in Hf. rewrite Hc in Hf. by rewrite andb_false_r in Hf.
Qed.

(** A source that starts is used when those before it merely fail. *)
Lemma try_sources_first e l m n pre s post le v :
  (∀ k t, pre !! k = Some t → ∃ x, try_source e l m (n + k) t = Next x) → try_source e l m (n + length pre) s = Started v →
  try_sources e l m n (pre ++ s :: post) le = Ok (inl v).
Proof.
  revert n le. induction pre as [|t pre IH]; intros n le Hp Hs; cbn [try_sources app].
  - cbn in Hs. rewrite Nat.add_0_r in Hs. by rewrite Hs.
  - destruct (Hp 0%nat t eq_refl) as [x Hx]. rewrite Nat.add_0_r in Hx. rewrite Hx. apply IH.
    + intros k u Hk. destruct (Hp (S k) u Hk) as [y Hy]. exists y. by rewrite <- Nat.add_succ_comm in Hy.
    + cbn in Hs. by rewrite <- Nat.add_succ_comm in Hs.
Qed.
