(* ===== verification/RunnerConfig.v ===== *)
(** * The environment of a blueprint ([runner/src/config.rs], [tangle/config.rs])

    The settings a blueprint process reads from its command line and environment, the
    settings of its protocol, the TLS profile it makes of the files it is pointed to,
    and the environment made of them.  The texts of addresses and the parser of the
    command line are parameters: a command line is the flags and values it gives.  The
    manager's side is [Launch]. *)

From Stdlib Require Import ZArith Lia Ascii.
From stdpp Require Import base gmap sets list sorting strings pretty fin_maps numbers relations.
From S2P Require Import Prelude Bytes Text JobCore Hex Http Disk TlsEnvelope AuthTypes AuthStore Launch.

#[local] Open Scope Z_scope.

(** ** Parameters *)

(** Texts of URLs ([url]), of addresses ([alloy]) and of multiaddresses ([libp2p]), and
    what [clap] takes the value of a variable to mean for a flag *)
Class SettingsText := {
  Url : Type; url_text : Url → string; url_from : string → option Url;
  address_text : Z → string; address_from : string → option Z;
  Multiaddr : Type; multiaddr_from : string → option Multiaddr;
  flag_value : string → bool;
}.
(** Printed URLs and addresses are read back.  A multiaddress is empty or starts with a
    slash. *)
Class SettingsTextLaws (T : SettingsText) := {
  url_round u : url_from (url_text u) = Some u;
  address_round a : 0 ≤ a < 2 ^ 160 → address_from (address_text a) = Some a;
  multiaddr_slash a s : multiaddr_from (String a s) ≠ None → a = "/"%char;
}.

(** A command line: its flags, its values, how often [-v] was given *)
Record CommandLine := mkCli { cli_flag : string → bool; cli_values : string → list string; cli_verbose : Z }.

(** ** Protocols *)

Inductive Protocol := Tangle | Symbiotic.
#[export] Instance Protocol_eq_dec : EqDecision Protocol.
Proof. solve_decision. Defined.
(** [Protocol::as_str], and the values of the argument *)
Definition protocol_name (p : Protocol) : string := match p with Tangle => "tangle" | Symbiotic => "symbiotic" end.
Definition protocol_value (s : string) : option Protocol :=
  if bool_decide (s = "tangle"%string) || bool_decide (s = "tangle-evm"%string) then Some Tangle
  else if bool_decide (s = "symbiotic"%string) then Some Symbiotic else None.

Inductive ConfigError :=
| InvalidArgument (e : string) | MissingKeystoreUri | MissingBlueprintId | MissingServiceId | MalformedBlueprintId
| MalformedServiceId | UnsupportedKeystoreUri (s : string) | UnexpectedProtocol (s : string) | NoEcdsaKeypair
| InvalidEcdsaKeypair | TestSetup (s : string) | MissingEigenlayerContractAddresses | MissingSymbioticContractAddresses
| MissingTlsConfig (e : string) | InvalidTlsConfig (e : TlsEnvelopeError) | ConfigIo (e : string)
| EncryptFailed (e : TlsEnvelopeError) | BoxedConfig (e : ConfigError).

Record TangleProtocolSettings := mkTangleSettings {
  tp_blueprint_id : Z; tp_service_id : option Z; tp_tangle_contract : Z; tp_staking_contract : Z; tp_status_registry_contract : Z;
}.
Inductive ProtocolSettings := PsNone | PsTangle (s : TangleProtocolSettings) | PsSymbiotic.

(** [ProtocolSettings::tangle] *)
Definition settings_tangle (s : ProtocolSettings) : result ConfigError TangleProtocolSettings :=
  match s with PsTangle t => Ok t | _ => Err (UnexpectedProtocol "Tangle") end.

Section config.
  Context `{T : SettingsText} `{P : Platform} `{C : Chacha}.

(** [TangleProtocolSettings::load] *)
Definition contract_var (name : string) : Z := default 0 (env_var name ≫= address_from).
Definition tangle_settings_load : result ConfigError TangleProtocolSettings :=
  blueprint_id ← ok_or (env_var "BLUEPRINT_ID" ≫= parse_u64) MissingBlueprintId;
  Ok (mkTangleSettings blueprint_id (env_var "SERVICE_ID" ≫= parse_u64)
        (contract_var "TANGLE_CONTRACT") (contract_var "STAKING_CONTRACT") (contract_var "STATUS_REGISTRY_CONTRACT")).

(** [ProtocolSettings::load] *)
Definition protocol_settings_load (p : option Protocol) : result ConfigError ProtocolSettings :=
  match p with
  | Some Tangle => s ← tangle_settings_load; Ok (PsTangle s)
  | Some Symbiotic => Err (InvalidArgument "Symbiotic protocol is not yet supported")
  | None => Ok PsNone
  end.

(** ** Settings *)

Record BlueprintSettings := mkSettings {
  bs_test_mode : bool; bs_dry_run : bool; bs_http_rpc_url : Url; bs_ws_rpc_url : Url; bs_keystore_uri : string;
  bs_data_dir : string; bs_chain : SupportedChains; bs_verbose : Z; bs_pretty : bool; bs_keystore_password : option string;
  bs_protocol : option Protocol; bs_bridge_socket_path : option string;
  bs_bootnodes : option (list Multiaddr); bs_network_bind_port : option Z; bs_enable_mdns : bool; bs_enable_kademlia : bool;
  bs_target_peer_count : option Z; bs_kms_url : Url;
  bs_tls_enabled : bool; bs_server_cert_path : option string; bs_server_key_path : option string; bs_client_ca_path : option string;
  bs_require_client_mtls : bool; bs_upstream_ca_path : option string; bs_upstream_cert_path : option string;
  bs_upstream_key_path : option string; bs_cert_ttl_hours : Z; bs_sni : option string; bs_san_template : option string;
  bs_dns_names : option (list string);
}.

(** One argument: its values on the command line, or else its variable *)
Definition arg_values (cli : CommandLine) (long var : string) : list string :=
  match cli_values cli long with [] => option_list (env_var var) | l => l end.
(** [#[arg(long, env)]] with a value: the outer option is the refusal of [clap] *)
Definition arg_opt {A} (parse : string → option A) (cli : CommandLine) (long var : string) : option (option A) :=
  match arg_values cli long var with
  | [] => Some None
  | [s] => x ← parse s; Some (Some x)
  | _ => None
  end.
Definition arg_default {A} (parse : string → option A) (d : option A) (cli : CommandLine) (long var : string) : option A :=
  x ← arg_opt parse cli long var; match x with Some a => Some a | None => d end.
Definition arg_many {A} (parse : string → option A) (cli : CommandLine) (long var : string) : option (option (list A)) :=
  match arg_values cli long var with [] => Some None | l => xs ← mapM parse l; Some (Some xs) end.
Definition arg_flag (cli : CommandLine) (long var : string) : bool :=
  cli_flag cli long || match env_var var with Some s => flag_value s | None => false end.
Definition parse_u16 (s : string) : option Z := x ← parse_u64 s; if x <? 65536 then Some x else None.

Definition default_http_rpc_url : option Url := url_from "http://127.0.0.1:9944".
Definition default_ws_rpc_url : option Url := url_from "ws://127.0.0.1:9944".
Definition default_kms_url : option Url := url_from "https://kms.tangle.tools".

(** [ContextConfig::parse]: the attributes of [BlueprintSettings] *)
Definition parse_settings (cli : CommandLine) : option BlueprintSettings :=
  http ← arg_default url_from default_http_rpc_url cli "http-rpc-url" "HTTP_RPC_URL";
  ws ← arg_default url_from default_ws_rpc_url cli "ws-rpc-url" "WS_RPC_URL";
  keystore_uri ← arg_default Some (Some "./keystore"%string) cli "keystore-uri" "KEYSTORE_URI";
  data_dir ← arg_default Some None cli "data-dir" "DATA_DIR";
  chain ← arg_default chain_from_str (Some LocalTestnet) cli "chain" "CHAIN";
  password ← arg_opt Some cli "keystore-password" "KEYSTORE_PASSWORD";
  protocol ← arg_opt protocol_value cli "protocol" "PROTOCOL";
  bridge ← arg_opt Some cli "bridge-socket-path" "BRIDGE_SOCKET_PATH";
  bootnodes ← arg_many multiaddr_from cli "bootnodes" "BOOTNODES";
  port ← arg_opt parse_u16 cli "network-bind-port" "NETWORK_BIND_PORT";
  peers ← arg_opt parse_u32 cli "target-peer-count" "TARGET_PEER_COUNT";
  kms ← arg_default url_from default_kms_url cli "kms-url" "KMS_URL";
  cert ← arg_opt Some cli "tls-server-cert-path" "TLS_SERVER_CERT_PATH";
  key ← arg_opt Some cli "tls-server-key-path" "TLS_SERVER_KEY_PATH";
  ca ← arg_opt Some cli "tls-client-ca-path" "TLS_CLIENT_CA_PATH";
  up_ca ← arg_opt Some cli "tls-upstream-ca-path" "TLS_UPSTREAM_CA_PATH";
  up_cert ← arg_opt Some cli "tls-upstream-client-cert-path" "TLS_UPSTREAM_CLIENT_CERT_PATH";
  up_key ← arg_opt Some cli "tls-upstream-client-key-path" "TLS_UPSTREAM_CLIENT_KEY_PATH";
  ttl ← arg_default parse_u32 (Some 24) cli "tls-client-cert-ttl-hours" "TLS_CLIENT_CERT_TTL_HOURS";
  sni ← arg_opt Some cli "tls-sni" "TLS_SNI";
  san ← arg_opt Some cli "tls-subject-alt-name-template" "TLS_SUBJECT_ALT_NAME_TEMPLATE";
  names ← arg_many (λ s, Some (split_char "," s)) cli "tls-allowed-dns-names" "TLS_ALLOWED_DNS_NAMES";
  Some (mkSettings (arg_flag cli "test-mode" "TEST_MODE") (cli_flag cli "dry-run") http ws keystore_uri data_dir chain
    (cli_verbose cli) (arg_flag cli "pretty" "PRETTY") password protocol bridge bootnodes port
    (arg_flag cli "enable-mdns" "ENABLE_MDNS") (arg_flag cli "enable-kademlia" "ENABLE_KADEMLIA") peers kms
    (arg_flag cli "tls-enabled" "TLS_ENABLED") cert key ca
    (arg_flag cli "tls-require-client-mtls" "TLS_REQUIRE_CLIENT_MTLS") up_ca up_cert up_key ttl sni san (names ≫= λ l, Some (concat l))).

(** [BlueprintSettings::default] *)
Definition settings_default : option BlueprintSettings :=
  http ← default_http_rpc_url; ws ← default_ws_rpc_url; kms ← default_kms_url;
  Some (mkSettings false false http ws "" "" LocalTestnet 0 false None None None None None false false None kms
    false None None None false None None None 24 None None None).

(** [ContextConfig::create_config]; [debug] is [cfg!(debug_assertions)].  The settings of
    the protocol are not used. *)
Definition create_config (debug : bool) (http ws : Url) (keystore_uri : string) (password : option string) (data_dir : string)
    (bridge : option string) (chain : SupportedChains) (protocol : Protocol) (_ : ProtocolSettings) : option BlueprintSettings :=
  kms ← default_kms_url;
  Some (mkSettings false false http ws keystore_uri data_dir chain 3 true password (Some protocol) bridge None None debug (negb debug)
    None kms false None None None false None None None 24 None None None).

(** ** The TLS profile *)

(** [load_tls_envelope] *)
Definition load_tls_envelope (s : BlueprintSettings) : Fetch ConfigError TlsEnvelopeKey :=
  let read_key (p : Path) : Fetch ConfigError TlsEnvelopeKey :=
    mapping ConfigIo (fs_read p) ≫= λ key_bytes, lift (map_err InvalidTlsConfig (key_of_bytes key_bytes)) in
  match env_var "TLS_ENVELOPE_KEY" with
  | Some key_hex => lift (map_err InvalidTlsConfig (key_from_hex key_hex))
  | None =>
      match env_var "TLS_ENVELOPE_KEY_PATH" with
      | Some path => read_key (path_of path)
      | None =>
          let default_path := default_key_path (path_of (bs_data_dir s)) in
          fs_exists default_path ≫= λ found : bool,
          if found then read_key default_path
          else throw (MissingTlsConfig "TLS_ENVELOPE_KEY or TLS_ENVELOPE_KEY_PATH must be set when TLS is enabled")
      end
  end.

(** [encrypt_file], [encrypt_optional_file] *)
Definition encrypt_file (path : string) (key nonce : list Byte8) : Fetch ConfigError (list Byte8) :=
  mapping ConfigIo (fs_read (path_of path)) ≫= λ data, lift (map_err EncryptFailed (tls_encrypt key nonce data)).
Definition encrypt_optional_file (path : option string) (key nonce : list Byte8) : Fetch ConfigError (list Byte8) :=
  match path with Some p => encrypt_file p key nonce | None => mret [] end.

(** [create_tls_profile]; [nonce i] is the nonce of the [i]th asset *)
Definition create_tls_profile (s : BlueprintSettings) (nonce : nat → list Byte8) : Fetch ConfigError (option TlsProfile) :=
  if negb (bs_tls_enabled s) then mret None
  else
    load_tls_envelope s ≫= λ key,
    lift (ok_or (bs_server_cert_path s) (MissingTlsConfig "Server certificate path is required when TLS is enabled")) ≫= λ cert_path,
    encrypt_file cert_path key (nonce 0%nat) ≫= λ cert,
    lift (ok_or (bs_server_key_path s) (MissingTlsConfig "Server key path is required when TLS is enabled")) ≫= λ key_path,
    encrypt_file key_path key (nonce 1%nat) ≫= λ server_key,
    lift (ok_or (bs_client_ca_path s) (MissingTlsConfig "Client CA bundle path is required when TLS is enabled")) ≫= λ ca_path,
    encrypt_file ca_path key (nonce 2%nat) ≫= λ ca,
    encrypt_optional_file (bs_upstream_ca_path s) key (nonce 3%nat) ≫= λ up_ca,
    encrypt_optional_file (bs_upstream_cert_path s) key (nonce 4%nat) ≫= λ up_cert,
    encrypt_optional_file (bs_upstream_key_path s) key (nonce 5%nat) ≫= λ up_key,
    mret (Some (mkTlsProfile true (bs_require_client_mtls s) cert server_key ca up_ca up_cert up_key (bs_cert_ttl_hours s)
      (bs_sni s) (bs_san_template s) (default [] (bs_dns_names s)))).

(** ** The environment *)

Record BlueprintEnvironment := mkEnvironment {
  be_http_rpc_endpoint : Url; be_ws_rpc_endpoint : Url; be_keystore_uri : string; be_data_dir : string;
  be_protocol_settings : ProtocolSettings; be_test_mode : bool; be_dry_run : bool; be_bridge_socket_path : option string;
  be_registration_mode : bool; be_registration_capture_only : bool; be_output_path : option string; be_kms_url : Url;
  be_bootnodes : list Multiaddr; be_network_bind_port : Z; be_enable_mdns : bool; be_enable_kademlia : bool;
  be_target_peer_count : Z; be_tls_profile : option TlsProfile;
}.

(** [BlueprintEnvironment::default] *)
Definition environment_default : option BlueprintEnvironment :=
  http ← default_http_rpc_url; ws ← default_ws_rpc_url; kms ← default_kms_url;
  Some (mkEnvironment http ws "" "" PsNone false false None false false None kms [] 0 false false 0 None).

(** [env_flag] *)
Definition env_flag (name : string) : bool :=
  match env_var name with
  | Some value =>
      let normalized := to_ascii_lowercase (trim value) in
      bool_decide (normalized = "1"%string) || bool_decide (normalized = "true"%string) || bool_decide (normalized = "yes"%string)
  | None => false
  end.

Definition registration_file (data_dir : string) : string := data_dir +:+ "/registration_inputs.bin".
(** [BlueprintEnvironment::registration_output_path] *)
Definition registration_output_path (e : BlueprintEnvironment) : string :=
  default (registration_file (be_data_dir e)) (be_output_path e).

(** [load_inner] *)
Definition load_inner (s : BlueprintSettings) (nonce : nat → list Byte8) : Fetch ConfigError BlueprintEnvironment :=
  let registration_mode := env_flag "REGISTRATION_MODE_ON" in
  let output_path := match env_var "REGISTRATION_OUTPUT_PATH" with
    | Some p => Some p
    | None => if registration_mode then Some (registration_file (bs_data_dir s)) else None end in
  create_tls_profile s nonce ≫= λ tls,
  lift (map_err BoxedConfig (protocol_settings_load (bs_protocol s))) ≫= λ protocol_settings,
  mret (mkEnvironment (bs_http_rpc_url s) (bs_ws_rpc_url s) (bs_keystore_uri s) (bs_data_dir s) protocol_settings
    (bs_test_mode s) (bs_dry_run s) (bs_bridge_socket_path s) registration_mode (env_flag "REGISTRATION_CAPTURE_ONLY") output_path
    (bs_kms_url s) (default [] (bs_bootnodes s)) (default 0 (bs_network_bind_port s)) (bs_enable_mdns s) (bs_enable_kademlia s)
    (default 24 (bs_target_peer_count s)) tls).

(** [resolve_service_id] of [lib.rs] *)
Definition resolve_service_id (e : BlueprintEnvironment) : result ConfigError Z :=
  match settings_tangle (be_protocol_settings e) with
  | Ok settings => ok_or (tp_service_id settings) MissingServiceId
  | Err _ => Err MissingServiceId
  end.

End config.

(** ** What the profile holds *)

Lemma fetch_bind_inv {E A B : Type} (m : Fetch E A) (k : A → Fetch E B) h b h' :
  (m ≫= k) h = (Ok b, h') → ∃ a h1, m h = (Ok a, h1) ∧ k a h1 = (Ok b, h').
Proof. unfold mbind, fetch_bind. destruct (m h) as [[a|e] h1]; [|done]. eauto. Qed.
Lemma lift_inv {E A : Type} (r : result E A) h a h' : lift r h = (Ok a, h') → r = Ok a ∧ h' = h.
Proof. by intros [= -> ->]. Qed.
Lemma fs_read_inv {E} (f : string → E) p h b h' :
  mapping f (fs_read p) h = (Ok b, h') → files h' = files h ∧ ∃ x, files h !! p = Some x ∧ f_bytes x = b.
Proof.
  unfold mapping, fs_read, checked, faulty. destruct (faults h) as [|[n|] fs]; [|done|]; cbn; destruct (files h !! p) as [x|] eqn:Hx; cbn; [|done| |done];
    intros [= <- <-]; cbn; eauto.
Qed.
Lemma fs_exists_inv {E} p h b h' : fs_exists (E := E) p h = (Ok b, h') → files h' = files h.
Proof. unfold fs_exists, faulty. destruct (faults h) as [|f fs]; by intros [= _ <-]. Qed.

Section profile.
  Context `{T : SettingsText} `{P : Platform} `{CL : ChachaLaws}.

(** The text that a path names, sealed under a key; nothing where there is no path *)
Definition sealed_asset (f : gmap Path File) (key : list Byte8) (path : option string) (data : list Byte8) : Prop :=
  match path with
  | None => data = []
  | Some s => ∃ x, f !! path_of s = Some x ∧ tls_decrypt key data = Ok (f_bytes x)
  end.

Lemma encrypt_file_inv path key nonce h d h' :
  length nonce = 12%nat → encrypt_file path key nonce h = (Ok d, h') → files h' = files h ∧ sealed_asset (files h) key (Some path) d.
Proof.
  intros Hn (b & h1 & (Hf & x & Hx & <-)%fs_read_inv & (Hm%map_err_Ok & ->)%lift_inv)%fetch_bind_inv.
  split; [done|]. exists x. split; [done|]. apply envelope_exact. eauto.
Qed.
Lemma encrypt_optional_file_inv path key nonce h d h' :
  length nonce = 12%nat → encrypt_optional_file path key nonce h = (Ok d, h') → files h' = files h ∧ sealed_asset (files h) key path d.
Proof. destruct path; [by apply encrypt_file_inv|]. by intros _ [= <- <-]. Qed.

Lemma load_tls_envelope_inv s h key h' : load_tls_envelope s h = (Ok key, h') → files h' = files h ∧ length key = 32%nat.
Proof.
  assert (Hk : ∀ b, map_err InvalidTlsConfig (key_of_bytes b) = Ok key → length key = 32%nat).
  { intros b H%map_err_Ok. revert H. unfold key_of_bytes. case_bool_decide; [|done]. by intros [= <-]. }
  assert (Hr : ∀ p h, (mapping ConfigIo (fs_read p) ≫= λ b, lift (map_err InvalidTlsConfig (key_of_bytes b))) h = (Ok key, h') →
     files h' = files h ∧ length key = 32%nat).
  { intros p g (b & h1 & (Hf & _)%fs_read_inv & (?%Hk & ->)%lift_inv)%fetch_bind_inv. done. }
  unfold load_tls_envelope. destruct (env_var "TLS_ENVELOPE_KEY") as [hex|].
  - intros [H ->]%lift_inv. split; [done|]. apply map_err_Ok in H. revert H. unfold key_from_hex. destruct (decode_hex hex); [|done].
    intros H. eapply Hk. by rewrite H.
  - destruct (env_var "TLS_ENVELOPE_KEY_PATH"); [apply Hr|]. intros ([] & h1 & <-%fs_exists_inv & H)%fetch_bind_inv; [by apply Hr in H|done].
Qed.

(** A profile is complete and sealed: each asset opens, under one key of 32 bytes, to
    the contents of the file it was made of, and no file is changed. *)
Theorem tls_profile_sealed s nonce h p h' :
  (∀ i, length (nonce i) = 12%nat) → create_tls_profile s nonce h = (Ok (Some p), h') →
  files h' = files h ∧ tls_enabled p = true ∧
  is_Some (bs_server_cert_path s) ∧ is_Some (bs_server_key_path s) ∧ is_Some (bs_client_ca_path s) ∧
  ∃ key, length key = 32%nat ∧
    sealed_asset (files h) key (bs_server_cert_path s) (encrypted_server_cert p) ∧
    sealed_asset (files h) key (bs_server_key_path s) (encrypted_server_key p) ∧
    sealed_asset (files h) key (bs_client_ca_path s) (encrypted_client_ca_bundle p) ∧
    sealed_asset (files h) key (bs_upstream_ca_path s) (encrypted_upstream_ca_bundle p) ∧
    sealed_asset (files h) key (bs_upstream_cert_path s) (encrypted_upstream_client_cert p) ∧
    sealed_asset (files h) key (bs_upstream_key_path s) (encrypted_upstream_client_key p).
Proof.
  intros Hn H. unfold create_tls_profile in H. destruct (bs_tls_enabled s); cbn [negb] in H; [|done].
  apply fetch_bind_inv in H as (key & h0 & [F0 Hk]%load_tls_envelope_inv & H).
  apply fetch_bind_inv in H as (cp & h1 & [E1%ok_or_Ok ->]%lift_inv & H). apply fetch_bind_inv in H as (c1 & h2 & [F1 S1]%encrypt_file_inv & H); [|done].
  apply fetch_bind_inv in H as (kp & h3 & [E2%ok_or_Ok ->]%lift_inv & H). apply fetch_bind_inv in H as (c2 & h4 & [F2 S2]%encrypt_file_inv & H); [|done].
  apply fetch_bind_inv in H as (ap & h5 & [E3%ok_or_Ok ->]%lift_inv & H). apply fetch_bind_inv in H as (c3 & h6 & [F3 S3]%encrypt_file_inv & H); [|done].
  apply fetch_bind_inv in H as (c4 & h7 & [F4 S4]%encrypt_optional_file_inv & H); [|done].
  apply fetch_bind_inv in H as (c5 & h8 & [F5 S5]%encrypt_optional_file_inv & H); [|done].
  apply fetch_bind_inv in H as (c6 & h9 & [F6 S6]%encrypt_optional_file_inv & H); [|done].
  injection H as <- <-. rewrite E1, E2, E3. assert (files h9 = files h) as -> by congruence.
  rewrite ?F5, ?F4, ?F3, ?F2, ?F1, ?F0 in *. split_and!; [done..|]. exists key. by split_and!.
Qed.

End profile.

(** ** From the manager to the blueprint *)

(** A variable of an environment that was passed as a list *)
Fixpoint var_of (l : list (string * string)) (name : string) : option string :=
  match l with
  | [] => None
  | (n, v) :: l => if String.eqb n name then Some v else var_of l name
  end.

Lemma chain_round c : chain_from_str (chain_display c) = Some c.
Proof. by destruct c. Qed.

(** What each variable is in the environment that the manager encodes *)
Definition encoded_var (v : BlueprintEnvVars) (name : string) : option string :=
  if String.eqb "HTTP_RPC_URL" name then Some (ev_http v) else
  if String.eqb "WS_RPC_URL" name then Some (ev_ws v) else
  if String.eqb "KEYSTORE_URI" name then Some (ev_keystore v) else
  if String.eqb "DATA_DIR" name then Some (ev_data_dir v) else
  if String.eqb "BLUEPRINT_ID" name then Some (pretty (ev_blueprint_id v)) else
  if String.eqb "SERVICE_ID" name then Some (pretty (ev_service_id v)) else
  if String.eqb "PROTOCOL" name then Some (ev_protocol v) else
  if String.eqb "BOOTNODES" name then Some (ev_bootnodes v) else
  if String.eqb "TANGLE_CONTRACT" name then ev_tangle v else
  if String.eqb "STAKING_CONTRACT" name then ev_staking v else
  if String.eqb "STATUS_REGISTRY_CONTRACT" name then ev_status_registry v else
  if String.eqb "BRIDGE_SOCKET_PATH" name then ev_bridge v else
  if String.eqb "CHAIN" name then var_of (env_encode v) "CHAIN" else
  if String.eqb "REGISTRATION_MODE_ON" name then if ev_registration_mode v then Some "true"%string else None else
  if String.eqb "REGISTRATION_OUTPUT_PATH" name then if ev_registration_mode v then Some (registration_file (ev_data_dir v)) else None else
  if String.eqb "REGISTRATION_CAPTURE_ONLY" name then if ev_registration_mode v && ev_capture_only v then Some "true"%string else None else None.
Lemma var_of_app l l' n : var_of (l ++ l') n = match var_of l n with Some x => Some x | None => var_of l' n end.
Proof. induction l as [|[m x] l IH]; [done|]. cbn. by destruct (String.eqb m n). Qed.
Lemma var_of_pair m o n : var_of (env_pair m o) n = if String.eqb m n then o else None.
Proof. destruct o; cbn; by destruct (String.eqb m n). Qed.
Lemma var_of_encoded v n : var_of (env_encode v) n = encoded_var v n.
Proof.
  unfold encoded_var. destruct (String.eqb_spec "CHAIN" n) as [<-|Hc]; [by cbn|]. unfold env_encode. rewrite !var_of_app, !var_of_pair.
  assert (Hr : var_of (if ev_registration_mode v then
      [("REGISTRATION_MODE_ON", "true"); ("REGISTRATION_OUTPUT_PATH", ev_data_dir v +:+ "/registration_inputs.bin")]%string ++
      (if ev_capture_only v then [("REGISTRATION_CAPTURE_ONLY", "true")]%string else []) else []) n =
    if String.eqb "REGISTRATION_MODE_ON" n then if ev_registration_mode v then Some "true"%string else None else
    if String.eqb "REGISTRATION_OUTPUT_PATH" n then if ev_registration_mode v then Some (registration_file (ev_data_dir v)) else None else
    if String.eqb "REGISTRATION_CAPTURE_ONLY" n then if ev_registration_mode v && ev_capture_only v then Some "true"%string else None else None).
  { destruct (ev_registration_mode v), (ev_capture_only v); cbn [app var_of andb];
      repeat match goal with |- context [String.eqb ?a n] => destruct (String.eqb a n); try reflexivity end. }
  rewrite Hr. clear Hr. cbn [var_of]. rewrite (proj2 (String.eqb_neq _ _) Hc).
  repeat match goal with |- context [String.eqb ?a n] => destruct (String.eqb_spec a n) as [<-|]; [by destruct (ev_tangle v), (ev_staking v), (ev_status_registry v), (ev_bridge v)|] end. done.
Qed.

Section passed.
  Context `{T : SettingsText} {TL : SettingsTextLaws T} `{P : Platform} `{C : Chacha}.
  Variables (e : ManagerEnv) (bid sid : Z) (reg cap : bool) (sub : string).
Let v := env_vars_new e bid sid reg cap sub.
  Hypothesis Hvars : ∀ n, env_var n = var_of (env_encode v) n.

Lemma passed_settings :
  is_u64 bid → is_u64 sid →
  (∀ t, me_tangle e = Some t → ∃ a b c, t = (address_text a, address_text b, address_text c) ∧
     0 ≤ a < 2 ^ 160 ∧ 0 ≤ b < 2 ^ 160 ∧ 0 ≤ c < 2 ^ 160) →
  ∃ t, protocol_settings_load (Some Tangle) = Ok (PsTangle t) ∧ tp_blueprint_id t = bid ∧ tp_service_id t = Some sid ∧
    ∀ texts, me_tangle e = Some texts →
      texts = (address_text (tp_tangle_contract t), address_text (tp_staking_contract t), address_text (tp_status_registry_contract t)).
Proof.
  intros Hbid Hsid Ht. unfold protocol_settings_load, tangle_settings_load, contract_var. rewrite !Hvars, !var_of_encoded.
  cbn [encoded_var String.eqb Ascii.eqb Bool.eqb mbind option_bind]. change (ev_blueprint_id v) with bid. change (ev_service_id v) with sid.
  rewrite !parse_u64_pretty by done. cbn [mbind option_bind ok_or result_bind]. eexists. split; [reflexivity|]. cbn [tp_blueprint_id tp_service_id].
  split_and!; [done..|]. intros texts Ht'. destruct (Ht _ Ht') as (a & b & c & -> & Ha & Hb & Hc). cbn [v env_vars_new ev_tangle ev_staking ev_status_registry].
  rewrite Ht'. cbn. by rewrite !address_round.
Qed.
Lemma passed_flags : env_flag "REGISTRATION_MODE_ON" = reg ∧ env_flag "REGISTRATION_CAPTURE_ONLY" = reg && cap.
Proof.
  unfold env_flag. rewrite !Hvars, !var_of_encoded. cbn [encoded_var String.eqb Ascii.eqb Bool.eqb].
  change (ev_registration_mode v) with reg. change (ev_capture_only v) with cap. by destruct reg, cap.
Qed.

(** C33. A blueprint reads what the manager wrote: started with the environment that a
    manager without bootnodes encodes, whose endpoints and contract addresses are printed
    URLs and addresses, and with a command line that has flags only and leaves TLS off, it
    gets the endpoints, directories, contracts and identifiers of the manager, and the mode
    of registration it was started for.  (With any bootnode it refuses the environment,
    [bootnodes_refused]; the empty text is taken for an empty address.) *)
Theorem environment_read http ws nowhere cli nonce h :
  me_http e = url_text http → me_ws e = url_text ws → me_bootnodes e = [] → multiaddr_from "" = Some nowhere →
  is_Some default_kms_url → is_u64 bid → is_u64 sid → (∀ n, cli_values cli n = []) → cli_flag cli "tls-enabled" = false →
  (∀ t, me_tangle e = Some t → ∃ a b c, t = (address_text a, address_text b, address_text c) ∧
     0 ≤ a < 2 ^ 160 ∧ 0 ≤ b < 2 ^ 160 ∧ 0 ≤ c < 2 ^ 160) →
  ∃ s env, parse_settings cli = Some s ∧ load_inner s nonce h = (Ok env, h) ∧
    be_http_rpc_endpoint env = http ∧ be_ws_rpc_endpoint env = ws ∧ be_keystore_uri env = me_keystore e ∧
    be_data_dir env = ev_data_dir v ∧ be_bridge_socket_path env = me_bridge e ∧ be_dry_run env = cli_flag cli "dry-run" ∧
    be_registration_mode env = reg ∧ be_registration_capture_only env = reg && cap ∧
    registration_output_path env = registration_file (ev_data_dir v) ∧ be_tls_profile env = None ∧
    ∃ t, be_protocol_settings env = PsTangle t ∧ tp_blueprint_id t = bid ∧ tp_service_id t = Some sid ∧
      ∀ texts, me_tangle e = Some texts →
        texts = (address_text (tp_tangle_contract t), address_text (tp_staking_contract t), address_text (tp_status_registry_contract t)).
Proof.
  intros Hh Hw Hb Hn [kms Hk] Hbid Hsid Hcli Htls Ht.
  assert (Ho : ∀ A (f : string → option A) long var, arg_opt f cli long var
     = match var_of (env_encode v) var with None => Some None | Some s => x ← f s; Some (Some x) end).
  { intros A f long var. unfold arg_opt, arg_values. rewrite Hcli, Hvars. by destruct (var_of _ var). }
  assert (Hm : ∀ A (f : string → option A) long var, arg_many f cli long var
     = match var_of (env_encode v) var with None => Some None | Some s => xs ← mapM f [s]; Some (Some xs) end).
  { intros A f long var. unfold arg_many, arg_values. rewrite Hcli, Hvars. by destruct (var_of _ var). }
  assert (He : ∀ n, var_of (env_encode v) n = encoded_var v n) by apply var_of_encoded.
  destruct (var_of (env_encode v) "CHAIN") as [ch|] eqn:Hch; [|done].
  assert (Hcs : ∃ c, chain_from_str ch = Some c) by (eexists; injection Hch as <-; apply chain_round). destruct Hcs as [c Hcs].
  assert (Hev : ∀ n, env_var n = encoded_var v n) by (intros n; by rewrite Hvars).
  unfold parse_settings, arg_default, arg_flag. rewrite !Ho, !Hm, Hch, !He, !Hev. clear Ho Hm He Hch.
  cbn [encoded_var String.eqb Ascii.eqb Bool.eqb mbind option_bind orb].
  change (ev_http v) with (me_http e). change (ev_ws v) with (me_ws e). change (ev_protocol v) with "tangle"%string.
  assert (ev_bootnodes v = "") as -> by (cbn; by rewrite Hb). rewrite Hh, Hw, !url_round, Hcs, Hk. cbn [mapM]. rewrite Hn.
  change (ev_bridge v) with (me_bridge e).
  assert (match me_bridge e with Some s => x ← Some s; Some (Some x) | None => Some None end = Some (me_bridge e)) as Hbr by (by destruct (me_bridge e)).
  cbn [mbind option_bind] in Hbr |- *. rewrite Hbr. clear Hbr. cbn [mbind option_bind mret option_ret].
  destruct (passed_settings Hbid Hsid Ht) as (t & Hload & Ht'). destruct passed_flags as [Hm1 Hm2].
  eexists _, _. split; [reflexivity|]. unfold load_inner, create_tls_profile. cbn [bs_tls_enabled]. rewrite Htls, Hm1, Hm2. cbn [orb negb].
  change (protocol_value "tangle" ≫= _) with (Some (Some Tangle)). cbn [bs_protocol]. rewrite Hload. split; [reflexivity|].
  cbn [be_http_rpc_endpoint be_ws_rpc_endpoint be_keystore_uri be_data_dir be_bridge_socket_path be_dry_run be_registration_mode
    be_registration_capture_only be_tls_profile be_protocol_settings]. split_and!; try done; [|by exists t].
  unfold registration_output_path. cbn [be_output_path be_data_dir bs_data_dir]. rewrite Hev. cbn [encoded_var String.eqb Ascii.eqb Bool.eqb].
  change (ev_registration_mode v) with reg. by destruct reg.
Qed.
End passed.

(** The manager joins bootnodes with spaces, each with one before it; the blueprint takes
    the whole variable for one address and is refused its settings. *)
Theorem bootnodes_refused `{T : SettingsText} {TL : SettingsTextLaws T} `{P : Platform} e bid sid reg cap sub cli :
  (∀ n, env_var n = var_of (env_encode (env_vars_new e bid sid reg cap sub)) n) →
  (∀ n, cli_values cli n = []) → me_bootnodes e ≠ [] → parse_settings cli = None.
Proof.
  intros Hv Hcli Hb.
  assert (∃ s, ev_bootnodes (env_vars_new e bid sid reg cap sub) = String " " s) as [s Hs].
  { cbn. destruct (me_bootnodes e) as [|b bs]; [done|]. cbn. clear Hb. generalize b as a. induction bs as [|b' bs IH]; intros a; [by eexists|].
    cbn. apply (IH (a +:+ " " +:+ b')%string). }
  assert (Hm : arg_many multiaddr_from cli "bootnodes" "BOOTNODES" = None).
  { unfold arg_many, arg_values. rewrite Hcli, Hv, var_of_encoded. cbn [encoded_var String.eqb Ascii.eqb Bool.eqb]. rewrite Hs. cbn.
    destruct (multiaddr_from (String " " s)) eqn:Hp; [|done]. exfalso. assert (" "%char = "/"%char) by (apply (multiaddr_slash " " s); by rewrite Hp). done. }
  unfold parse_settings. repeat first [rewrite Hm; done|match goal with |- (?m ≫= _) = None => destruct m; [cbn [mbind option_bind]|done] end].
Qed.

(** ** Runs *)

#[export] Instance plain_text : SettingsText := {|
  Url := string; url_text s := s; url_from s := Some s; address_text := pretty; address_from := parse_digits (2 ^ 160 - 1) 0;
  Multiaddr := string; multiaddr_from s := match s with String a _ => if decide (a = "/"%char) then Some s else None | EmptyString => Some s end;
  flag_value s := bool_decide (s = "true"%string);
|}.
#[export] Instance plain_text_laws : SettingsTextLaws plain_text.
Proof.
  split; [done| |].
  - intros a Ha. cbn [address_text address_from plain_text]. apply parse_digits_pretty. lia.
  - intros a s. cbn [multiaddr_from plain_text]. by destruct (decide _).
Qed.

Definition demo_env_of_manager : ManagerEnv :=
  mkManagerEnv "http://node" "ws://node" "/keys" [] (Some "/bridge"%string) (Some (pretty 1, pretty 2, pretty 3)) false "/data" false true 3
    StNative (λ _, None) None.
#[local] Instance passed_platform : Platform := {| OS := "linux"; ARCH := "x86_64"; target_windows := false; create_mode := 420;
  env_var := var_of (env_encode (env_vars_new demo_env_of_manager 7 9 true false "svc")) |}.
#[local] Instance no_cipher : Chacha := {| seal _ _ _ := Err "none"%string; unseal _ _ _ := Err "none"%string |}.
Definition flags_only : CommandLine := mkCli (λ n, String.eqb n "dry-run") (λ _, []) 3.

Lemma environment_read_witness :
  ∃ s env, parse_settings flags_only = Some s ∧ load_inner s (λ _, []) (mkHost ∅ [] 0) = (Ok env, mkHost ∅ [] 0) ∧
    be_registration_mode env = true ∧ be_dry_run env = true ∧ registration_output_path env = "/data/blueprint-7-svc/registration_inputs.bin"%string.
Proof.
  edestruct (environment_read (T := plain_text) (P := passed_platform) (C := no_cipher) demo_env_of_manager 7 9 true false "svc" (λ n, eq_refl) "http://node"%string "ws://node"%string ""%string
    flags_only (λ _, []) (mkHost ∅ [] 0)) as (s & env & Hs & Hl & _ & _ & _ & Hd & _ & Hdry & Hr & _ & Ho & _);
    [reflexivity..|eexists; reflexivity|unfold is_u64; lia|unfold is_u64; lia|reflexivity|reflexivity| |].
  - intros t [= <-]. exists 1, 2, 3. split; [reflexivity|lia].
  - exists s, env. split_and!; [exact Hs|exact Hl|exact Hr|exact Hdry|exact Ho].
Defined.

Definition with_bootnode : ManagerEnv :=
  mkManagerEnv "http://node" "ws://node" "/keys" ["/ip4/10.0.0.1/tcp/1"%string] None None false "/data" false true 3 StNative (λ _, None) None.
Lemma bootnodes_refused_witness :
  parse_settings (P := {| OS := "linux"; ARCH := "x86_64"; target_windows := false; create_mode := 420;
     env_var := var_of (env_encode (env_vars_new with_bootnode 7 9 true false "svc")) |}) flags_only = None.
Proof. apply (bootnodes_refused with_bootnode 7 9 true false "svc"); [intros n; reflexivity|intros n; reflexivity|discriminate]. Defined.
