(* ===== verification/Runner.v ===== *)
(** * The runner ([runner/src/lib.rs], [metrics_server.rs], [tangle/config.rs],
      [blueprint-faas/src/core.rs])

    What a blueprint process does: the builder, registration, the start of background
    services and of the bridge, and the loop that takes job calls from producers, has
    the router or a cloud function run them, and hands what they return to every
    consumer.  The loop is a function of the sequence of events that [tokio::select!]
    takes up; a theorem about all sequences covers every schedule.  Jobs in flight are
    numbered in the order they were taken. *)

From Stdlib Require Import ZArith Lia Ascii.
From stdpp Require Import base gmap sets list sorting strings pretty fin_maps numbers relations.
From S2P Require Import Prelude Bytes Text JobCore Router TangleExtract TangleProducer TangleConsumer TeeTypes TeeAttest TeeRuntime Disk TlsEnvelope AuthStore Launch RunnerConfig.

#[local] Open Scope Z_scope.

(** ** Errors *)

Inductive IoError := NotFound | TimedOut (e : string) | OtherIo (e : string).
Inductive TangleError :=
| NotActiveOperator | TeTransport (e : string) | TeContract (e : string) | TeKeystore (e : string) | DecompressEcdsaKey | NotTangle
| MissingConfig (e : string) | TeTransaction (e : string).
Inductive FaasError :=
| InvocationFailed (e : string) | FaasTimeout (nanos : Z) | FunctionError (e : string) | SerializationError (e : string)
| InfrastructureError (e : string) | ColdStartLatency (nanos : Z) | FaasOther (e : string).
Inductive JoinError := TaskPanicked | TaskCancelled.
(** What a job fails with: the error of a handler or of a cloud function *)
Inductive JobError := HandlerError (e : string) | FaasFailed (e : FaasError).
Inductive JobCallError := JobFailed (e : JobError) | JobDidntFinish (e : JoinError).
Inductive ProducerFailure := ProducerFailed (e : string) | StreamEnded.
Inductive RunnerError :=
| RKeystore (e : string) | RBridge (e : string) | RIo (e : IoError) | RConfig (e : ConfigError) | NoRouter | NoProducers
| RBackgroundService (e : string) | RJobCall (e : JobCallError) | RProducer (e : ProducerFailure) | RConsumer (e : string)
| RTangle (e : TangleError) | ROther (e : string).

(** ** Cloud functions *)

Record FaasPayload := mkPayload { fp_job_id : Z; fp_args : list Byte8 }.
Definition u32_ty : IntTy := mkIntTy 32 false.
Definition faas_job_id {Ext} (c : JobCall Ext) : Z := number_from_JobId u32_ty (job_id (head c)).
(** [FaasPayload::from], [JobResult::from], [FaasResponse::from] *)
Definition payload_of {Ext} (c : JobCall Ext) : FaasPayload := mkPayload (faas_job_id c) (body c).
Definition result_of_response {E} (response : list Byte8) : JobResult E := job_result_new response.
Definition response_of_result {E} (r : JobResult E) : list Byte8 := match r with JobOk _ b => b | JobErr _ => [] end.

(** [FaasRegistry] *)
Abbreviation FaasRegistry X := (gmap Z X).
Definition faas_register {X} (id : Z) (x : X) (r : FaasRegistry X) : FaasRegistry X := <[id := x]> r.
Definition is_faas_job {X} (id : Z) (r : FaasRegistry X) : bool := bool_decide (is_Some (r !! id)).
Definition faas_get {X} (id : Z) (r : FaasRegistry X) : option X := r !! id.

(** ** The loop *)

Definition MAX_CONCURRENT_JOBS : nat := 1024.

(** What a background service left with the runner: nothing (there is none, and a
    future that is ready stands in), a channel whose sender is gone, or an open one *)
Inductive Receiver := NoService | ChannelClosed | ChannelOpen.
(** The future of a receiver, given what is received ([None] when the sender is dropped):
    [receiver.await.map_err(..).and(Ok(()))].  The outer option is that this cannot be. *)
Definition receive (r : Receiver) (message : option (result RunnerError unit)) : option (result RunnerError unit) :=
  match r, message with
  | NoService, _ => Some (Ok tt)
  | _, None => Some (Err (RBackgroundService "channel closed"))
  | ChannelOpen, Some _ => Some (Ok tt)
  | ChannelClosed, Some _ => None
  end.

(** The task that calls the shutdown handler.  It is spawned and never awaited: it
    waits for the channel, is woken when a value was sent or the sender dropped, and
    calls the handler when the executor polls it again. *)
Inductive ShutdownTask := AwaitsSignal | Signalled | HandlerCalled.
Definition shutdown_poll (s : ShutdownTask) : ShutdownTask :=
  match s with AwaitsSignal => AwaitsSignal | Signalled | HandlerCalled => HandlerCalled end.

Section loop.
  Context {Ext Fut E X : Type}.
  Variables (router : JobIdRouter Ext Fut unit) (faas : FaasRegistry X).

(** A spawned job: the futures of the handlers (or the router's refusal), or a call of a
    cloud function *)
Inductive Task := RouteTask (futures : option (list Fut)) | FaasTask (executor : X) (call : JobCall Ext).
(** How a job ends: the handlers' outcomes in the order they finish, the answer of the
    function, or a task that was lost *)
Inductive Done :=
| Ran (complete : list Fut → list (result string (option (JobResult E))))
| Invoked (r : result FaasError (JobResult E))
| Crashed (e : JoinError).
(** How the results are sent: to every consumer in full; or one consumer fails, and each
    has taken so many by then *)
Inductive Broadcast := AllSent | SendFailed (i : nat) (e : string) (taken : list nat).

Inductive LoopEvent :=
| EvProducer (i : nat) (item : option (result string (JobCall Ext)))
| EvJob (id : nat) (done : Done) (sends : Broadcast)
| EvBackground (i : nat) (message : option (result RunnerError unit))
| EvShutdownClosed.

Record Loop := mkLoop {
  lp_producers : list nat;
  lp_next : nat;
  lp_pending : gmap nat Task;
  lp_services : list Receiver;
  lp_sinks : list (list (JobResult E));
  lp_shutdown : ShutdownTask;
}.

(** Taking a job call: [None] is the panic of the router *)
Definition spawn_task (c : JobCall Ext) : option Task :=
  let id := faas_job_id c in
  if is_faas_job id faas then x ← faas_get id faas; Some (FaasTask x c)
  else match call_with_context router c tt with
    | Matched futures => Some (RouteTask (Some futures))
    | NotMatched => Some (RouteTask None)
    | RoutePanic => None
    end.

(** What a finished task returns; the outer option is that it cannot end so *)
Definition task_output (t : Task) (d : Done) : option (result JobCallError (option (list (JobResult E)))) :=
  match t, d with
  | _, Crashed e => Some (Err (JobDidntFinish e))
  | RouteTask None, Ran _ => Some (Ok None)
  | RouteTask (Some futures), Ran complete =>
      Some match collect_results (complete futures) with Ok rs => Ok (Some rs) | Err e => Err (JobFailed (HandlerError e)) end
  | FaasTask _ _, Invoked r => Some match r with Ok res => Ok (Some [res]) | Err e => Err (JobFailed (FaasFailed e)) end
  | _, _ => None
  end.

(** [try_join_all] over the consumers' [send_all] *)
Definition send_to_consumers (sinks : list (list (JobResult E))) (rs : list (JobResult E)) (b : Broadcast)
    : option (list (list (JobResult E)) * result string unit) :=
  match b with
  | AllSent => Some ((λ s, s ++ rs) <$> sinks, Ok tt)
  | SendFailed i e taken =>
      if bool_decide (i < length sinks)%nat && bool_decide (length taken = length sinks)
      then Some (zip_with (λ s n, s ++ take n rs) sinks taken, Err e) else None
  end.

Inductive Turn := Goes (l : Loop) | Ends (r : result RunnerError unit) (l : Loop) | Panics.
(** Every return sends to the shutdown channel or drops its sender: the task that calls
    the handler is woken, and the loop does not wait for it. *)
Definition ends (r : result RunnerError unit) (l : Loop) : Turn :=
  Ends r (mkLoop (lp_producers l) (lp_next l) (lp_pending l) (lp_services l) (lp_sinks l) Signalled).

(** One turn of the loop: [None] is an event that cannot happen *)
Definition loop_turn (l : Loop) (ev : LoopEvent) : option Turn :=
  match ev with
  | EvProducer i item =>
      if bool_decide (i ∈ lp_producers l) && bool_decide (size (lp_pending l) < MAX_CONCURRENT_JOBS)%nat then
        match item with
        | Some (Ok c) =>
            match spawn_task c with
            | Some t => Some (Goes (mkLoop (lp_producers l) (S (lp_next l)) (<[lp_next l := t]> (lp_pending l)) (lp_services l)
                (lp_sinks l) (lp_shutdown l)))
            | None => Some Panics
            end
        | Some (Err e) => Some (ends (Err (RProducer (ProducerFailed e))) l)
        | None =>
            let open := filter (λ j, j ≠ i) (lp_producers l) in
            let l' := mkLoop open (lp_next l) (lp_pending l) (lp_services l) (lp_sinks l) (lp_shutdown l) in
            Some (if bool_decide (open = []) then ends (Err (RProducer StreamEnded)) l' else Goes l')
        end
      else None
  | EvJob id done sends =>
      t ← lp_pending l !! id;
      out ← task_output t done;
      let left_with sinks := mkLoop (lp_producers l) (lp_next l) (delete id (lp_pending l)) (lp_services l) sinks (lp_shutdown l) in
      match out with
      | Ok (Some rs) =>
          '(sinks, sent) ← send_to_consumers (lp_sinks l) rs sends;
          Some match sent with
            | Ok _ => Goes (left_with sinks)
            | Err e => ends (Err (RConsumer e)) (left_with sinks)
            end
      | Ok None => Some (Goes (left_with (lp_sinks l)))
      | Err e => Some (ends (Err (RJobCall e)) (left_with (lp_sinks l)))
      end
  | EvBackground i message =>
      r ← lp_services l !! i;
      res ← receive r message;
      Some match res with
        | Ok _ => Goes (mkLoop (lp_producers l) (lp_next l) (lp_pending l) (delete i (lp_services l)) (lp_sinks l) (lp_shutdown l))
        | Err e => ends (Err e) l
        end
  | EvShutdownClosed =>
      match lp_shutdown l with AwaitsSignal | Signalled => None | HandlerCalled => Some (Ends (Ok tt) l) end
  end.

Fixpoint loop_run (l : Loop) (evs : list LoopEvent) : option Turn :=
  match evs with
  | [] => Some (Goes l)
  | ev :: evs =>
      t ← loop_turn l ev;
      match t with
      | Goes l => loop_run l evs
      | t => match evs with [] => Some t | _ => None end
      end
  end.

(** The loop when it is entered *)
Definition loop_start (producers consumers : nat) (receivers : list Receiver) : Loop :=
  mkLoop (seq 0 producers) 0 ∅ (match receivers with [] => [NoService] | l => l end) (replicate consumers []) AwaitsSignal.

(** ** What a run amounts to *)

(** The calls taken, in order; the jobs that ended, in order; and what they return *)
Definition calls (evs : list LoopEvent) : list (JobCall Ext) :=
  omap (λ ev, match ev with EvProducer _ (Some (Ok c)) => Some c | _ => None end) evs.
Definition finished (evs : list LoopEvent) : list (nat * Done) :=
  omap (λ ev, match ev with EvJob id d _ => Some (id, d) | _ => None end) evs.
Definition job_output (cs : list (JobCall Ext)) (job : nat * Done) : list (JobResult E) :=
  match c ← cs !! job.1; t ← spawn_task c; task_output t job.2 with Some (Ok (Some rs)) => rs | _ => [] end.
Definition outputs (evs : list LoopEvent) : list (JobResult E) := concat (job_output (calls evs) <$> finished evs).

Lemma loop_run_snoc l evs ev :
  loop_run l (evs ++ [ev]) = match loop_run l evs with Some (Goes l') => loop_turn l' ev | _ => None end.
Proof.
  revert l. induction evs as [|x evs IH]; intros l; cbn [app loop_run].
  - destruct (loop_turn l ev) as [[]|]; done.
  - destruct (loop_turn l x) as [[l'| |]|]; cbn; [apply IH|destruct evs; done..|done].
Qed.


(** The loop after some events: every call is in flight or ended once, and every
    consumer has what the ended ones returned, in the order they ended. *)
Record accounted (consumers : nat) (evs : list LoopEvent) (l : Loop) : Prop := {
  ac_next : lp_next l = length (calls evs);
  ac_spawned : Forall (λ c, is_Some (spawn_task c)) (calls evs);
  ac_finished : NoDup (finished evs).*1;
  ac_known id : id ∈ (finished evs).*1 → (id < length (calls evs))%nat;
  ac_pending id : lp_pending l !! id = if decide (id ∈ (finished evs).*1) then None else calls evs !! id ≫= spawn_task;
  ac_sinks : lp_sinks l = replicate consumers (outputs evs);
  ac_shutdown : lp_shutdown l = AwaitsSignal;
  ac_bound : (size (lp_pending l) ≤ MAX_CONCURRENT_JOBS)%nat;
  ac_count : (size (lp_pending l) + length (finished evs) = length (calls evs))%nat;
}.

(** Later calls do not change what earlier jobs returned. *)
Lemma job_output_app cs cs' job : (job.1 < length cs)%nat → job_output (cs ++ cs') job = job_output cs job.
Proof. intros H. unfold job_output. by rewrite lookup_app_l. Qed.
Lemma outputs_call cs cs' jobs : (∀ id, id ∈ jobs.*1 → (id < length cs)%nat) →
  concat (job_output (cs ++ cs') <$> jobs) = concat (job_output cs <$> jobs).
Proof.
  intros H. f_equal. apply list_fmap_ext. intros i job Hj. apply job_output_app, H. apply list_elem_of_fmap. eexists. split; [done|].
  by eapply list_elem_of_lookup_2.
Qed.
Lemma replicate_fmap {A B} (f : A → B) n x : f <$> replicate n x = replicate n (f x).
Proof. induction n; [done|]. cbn. by f_equal. Qed.

Lemma accounted_start p c rs : accounted c [] (loop_start p c rs).
Proof. split; cbn; try done; [by apply NoDup_nil|set_solver|rewrite map_size_empty; apply Nat.le_0_l]. Qed.

Lemma accounted_call n evs l i c t : accounted n evs l →
  (size (lp_pending l) < MAX_CONCURRENT_JOBS)%nat → spawn_task c = Some t →
  accounted n (evs ++ [EvProducer i (Some (Ok c))])
    (mkLoop (lp_producers l) (S (lp_next l)) (<[lp_next l := t]> (lp_pending l)) (lp_services l) (lp_sinks l) (lp_shutdown l)).
Proof.
  intros H Hs Ht. assert (Hnew : lp_pending l !! length (calls evs) = None).
  { rewrite (ac_pending _ _ _ H). case_decide; [done|]. by rewrite lookup_ge_None_2. }
  assert (Hc : calls (evs ++ [EvProducer i (Some (Ok c))]) = calls evs ++ [c]) by (unfold calls; by rewrite omap_app).
  assert (Hf : finished (evs ++ [EvProducer i (Some (Ok c))]) = finished evs) by (unfold finished; by rewrite omap_app, app_nil_r).
  split; cbn; rewrite ?Hc, ?Hf, ?(ac_next _ _ _ H).
  - rewrite length_app. cbn. lia.
  - apply Forall_app. split; [apply H|]. constructor; [by rewrite Ht|constructor].
  - apply H.
  - intros id Hid. rewrite length_app. pose proof (ac_known _ _ _ H id Hid). lia.
  - intros id. destruct (decide (id = length (calls evs))) as [->|Hne].
    + rewrite lookup_insert_eq. rewrite decide_False by (intros Hid%(ac_known _ _ _ H); lia). rewrite lookup_app_r by lia.
      rewrite Nat.sub_diag. cbn. by rewrite Ht.
    + rewrite lookup_insert_ne by done. rewrite (ac_pending _ _ _ H). case_decide; [done|]. destruct (decide (id < length (calls evs))%nat).
      * by rewrite lookup_app_l.
      * rewrite !lookup_ge_None_2 by (rewrite ?length_app; cbn; lia). done.
  - rewrite (ac_sinks _ _ _ H). f_equal. unfold outputs. rewrite Hc, Hf. symmetry. apply outputs_call, H.
  - apply H.
  - rewrite map_size_insert_None by done. lia.
  - rewrite map_size_insert_None by done. rewrite length_app. pose proof (ac_count _ _ _ H). cbn. lia.
Qed.

Lemma outputs_job n evs l id d b t out : accounted n evs l → lp_pending l !! id = Some t → task_output t d = Some out →
  outputs (evs ++ [EvJob id d b]) = outputs evs ++ match out with Ok (Some rs) => rs | _ => [] end.
Proof.
  intros H Hp Ho. pose proof (ac_pending _ _ _ H id) as Hid. rewrite Hp in Hid. case_decide as Hn; [done|].
  unfold outputs, calls, finished. rewrite !omap_app. cbn. rewrite app_nil_r, fmap_app, concat_app. f_equal. cbn. rewrite app_nil_r.
  unfold job_output, calls in *. cbn [fst snd]. destruct (omap _ evs !! id) as [c|]; cbn in Hid |- *; [|done]. rewrite <- Hid. cbn. by rewrite Ho.
Qed.
Lemma outputs_other evs ev :
  (∀ i c, ev ≠ EvProducer i (Some (Ok c))) → (∀ id d b, ev ≠ EvJob id d b) → outputs (evs ++ [ev]) = outputs evs.
Proof.
  intros H1 H2. unfold outputs, calls, finished. rewrite !omap_app.
  destruct ev as [i [[c|]|]|id d b| |]; [by destruct (H1 i c)| | |by destruct (H2 id d b)| |]; cbn; by rewrite !app_nil_r.
Qed.

Lemma accounted_job n evs l id d b t out : accounted n evs l →
  lp_pending l !! id = Some t → task_output t d = Some out →
  accounted n (evs ++ [EvJob id d b])
    (mkLoop (lp_producers l) (lp_next l) (delete id (lp_pending l)) (lp_services l)
       ((λ s, s ++ match out with Ok (Some rs) => rs | _ => [] end) <$> lp_sinks l) (lp_shutdown l)).
Proof.
  intros H Hp Ho. pose proof (ac_pending _ _ _ H id) as Hid. rewrite Hp in Hid. case_decide as Hn; [done|].
  assert (Hc : calls (evs ++ [EvJob id d b]) = calls evs) by (unfold calls; by rewrite omap_app, app_nil_r).
  assert (Hf : finished (evs ++ [EvJob id d b]) = finished evs ++ [(id, d)]) by (unfold finished; by rewrite omap_app).
  assert (Hl : (id < length (calls evs))%nat).
  { destruct (decide (id < length (calls evs))%nat); [done|]. by rewrite lookup_ge_None_2 in Hid by lia. }
  split; cbn; rewrite ?Hc, ?Hf, ?fmap_app; cbn.
  - apply H.
  - apply H.
  - apply NoDup_app. split_and!; [apply H|set_solver|apply NoDup_singleton].
  - intros j [Hj%(ac_known _ _ _ H)| ->%list_elem_of_singleton]%elem_of_app; done.
  - intros j. destruct (decide (j = id)) as [->|Hne].
    + rewrite lookup_delete_eq, decide_True by set_solver. done.
    + rewrite lookup_delete_ne by done. rewrite (ac_pending _ _ _ H). destruct (decide (j ∈ (finished evs).*1)); [by rewrite decide_True by set_solver|].
      rewrite decide_False; [done|]. intros [?|?%list_elem_of_singleton]%elem_of_app; done.
  - rewrite (ac_sinks _ _ _ H), replicate_fmap. f_equal. symmetry. by eapply outputs_job.
  - apply H.
  - rewrite map_size_delete_Some by done. pose proof (ac_bound _ _ _ H). lia.
  - rewrite map_size_delete_Some by done. rewrite length_app. pose proof (ac_count _ _ _ H). cbn.
    assert (size (lp_pending l) ≠ 0%nat) by (intros Hz%map_size_empty_inv; by rewrite Hz, lookup_empty in Hp). lia.
Qed.

Lemma accounted_other n evs l ev producers services : accounted n evs l →
  (∀ i c, ev ≠ EvProducer i (Some (Ok c))) → (∀ id d b, ev ≠ EvJob id d b) →
  accounted n (evs ++ [ev]) (mkLoop producers (lp_next l) (lp_pending l) services (lp_sinks l) (lp_shutdown l)).
Proof.
  intros H Hc Hj.
  assert (Hcs : calls (evs ++ [ev]) = calls evs).
  { unfold calls. rewrite omap_app. destruct ev as [i [[c|]|]| | |]; try by rewrite app_nil_r. by destruct (Hc i c). }
  assert (Hfs : finished (evs ++ [ev]) = finished evs).
  { unfold finished. rewrite omap_app. destruct ev as [|id d b| |]; try by rewrite app_nil_r. by destruct (Hj id d b). }
  destruct H. split; cbn; unfold outputs in *; rewrite ?Hcs, ?Hfs; done.
Qed.

Lemma sent_all sinks rs b sinks' : send_to_consumers sinks rs b = Some (sinks', Ok tt) → sinks' = (λ s, s ++ rs) <$> sinks.
Proof. destruct b; cbn; [by intros [= <-]|]. by destruct (_ && _). Qed.

Lemma accounted_turn n evs l ev l' : accounted n evs l → loop_turn l ev = Some (Goes l') → accounted n (evs ++ [ev]) l'.
Proof.
  intros H Ht. destruct ev as [i item|id d b|i m|]; cbn [loop_turn] in Ht.
  - destruct (bool_decide (i ∈ lp_producers l)); cbn [andb] in Ht; [|done]. case_bool_decide as Hs; [|done].
    destruct item as [[c|e]|]; [|done|].
    + destruct (spawn_task c) as [t|] eqn:Hc; [|done]. injection Ht as <-. by apply accounted_call.
    + case_bool_decide; [done|]. injection Ht as <-. by apply accounted_other.
  - destruct (lp_pending l !! id) as [t|] eqn:Hp; [cbn [mbind option_bind] in Ht|done].
    destruct (task_output t d) as [out|] eqn:Ho; [cbn [mbind option_bind] in Ht|done].
    pose proof (accounted_job n evs l id d b t out H Hp Ho) as Ha. destruct out as [[rs|]|e]; [|injection Ht as <-|done].
    + destruct (send_to_consumers (lp_sinks l) rs b) as [[sinks [[]|e]]|] eqn:Hb; [|done..]. injection Ht as <-. by rewrite (sent_all _ _ _ _ Hb).
    + replace (lp_sinks l) with ((λ s, s ++ []) <$> lp_sinks l); [done|]. rewrite <- list_fmap_id. apply list_fmap_ext. intros. apply app_nil_r.
  - destruct (lp_services l !! i) as [r|]; [cbn [mbind option_bind] in Ht|done]. destruct (receive r m) as [[?|e]|]; [|done..].
    injection Ht as <-. by apply accounted_other.
  - by rewrite (ac_shutdown _ _ _ H) in Ht.
Qed.

Lemma runner_accounts producers consumers receivers evs l :
  loop_run (loop_start producers consumers receivers) evs = Some (Goes l) → accounted consumers evs l.
Proof.
  revert l. induction evs as [|ev evs IH] using rev_ind; intros l; [intros [= <-]; apply accounted_start|].
  rewrite loop_run_snoc. destruct (loop_run _ evs) as [[l0| |]|]; [|done..]. intros Ht. eapply accounted_turn; [by apply IH|done].
Qed.

(** C17. Whatever the schedule, while the runner runs each call that a producer gave is
    either in flight or has ended once; there are never more than 1024 in flight; and
    every consumer has received exactly what the ended jobs returned, in the order in
    which they ended. *)
Theorem runner_delivers producers consumers receivers evs l :
  loop_run (loop_start producers consumers receivers) evs = Some (Goes l) →
  NoDup (finished evs).*1 ∧
  (∀ id, (id < length (calls evs))%nat ↔ id ∈ (finished evs).*1 ∨ is_Some (lp_pending l !! id)) ∧
  (∀ id, id ∈ (finished evs).*1 → lp_pending l !! id = None) ∧
  (size (lp_pending l) ≤ MAX_CONCURRENT_JOBS)%nat ∧
  lp_sinks l = replicate consumers (outputs evs).
Proof.
  intros H%runner_accounts. split_and!; [apply H| | |apply H|apply H].
  - intros id. rewrite (ac_pending _ _ _ H). case_decide as Hf; [split; [by left|intros _; by eapply ac_known]|]. split.
    + intros [c Hc]%lookup_lt_is_Some_2. right. rewrite Hc. cbn. pose proof (ac_spawned _ _ _ H) as Hs. rewrite list.Forall_forall in Hs. apply Hs.
      by eapply list_elem_of_lookup_2.
    + intros [?|[t Ht]]; [done|]. destruct (decide (id < length (calls evs))%nat); [done|]. by rewrite lookup_ge_None_2 in Ht by lia.
  - intros id Hid. rewrite (ac_pending _ _ _ H). by rewrite decide_True.
Qed.

(** Why the runner returned: what its last event was *)
Definition end_reason (ev : LoopEvent) (r : result RunnerError unit) : Prop :=
  match ev, r with
  | EvProducer _ (Some (Err e)), Err (RProducer (ProducerFailed e')) => e' = e
  | EvProducer _ None, Err (RProducer StreamEnded) => True
  | EvJob _ (Crashed e) _, Err (RJobCall (JobDidntFinish e')) => e' = e
  | EvJob _ _ _, Err (RJobCall (JobFailed _)) => True
  | EvJob _ _ (SendFailed _ e _), Err (RConsumer e') => e' = e
  | EvBackground _ None, Err (RBackgroundService _) => True
  | _, _ => False
  end.

Lemma send_failed sinks rs b sinks' e : send_to_consumers sinks rs b = Some (sinks', Err e) →
  ∃ i taken, b = SendFailed i e taken ∧ ∀ o, Forall (eq o) sinks → Forall (λ s, o `prefix_of` s ∧ s `prefix_of` (o ++ rs)) sinks'.
Proof.
  destruct b as [|i e' taken]; cbn; [done|]. destruct (_ && _) eqn:Hb; [|done]. intros [= <- <-]. exists i, taken. split; [done|].
  intros o Ho. clear Hb. revert taken. induction Ho as [|s sinks <- Ho IH]; intros [|k taken]; cbn; constructor; [|apply IH].
  split; [by apply prefix_app_r|]. apply prefix_app. apply prefix_take.
Qed.

Lemma turn_ends n evs l ev r l' : accounted n evs l → loop_turn l ev = Some (Ends r l') →
  end_reason ev r ∧ lp_shutdown l' = Signalled ∧
  Forall (λ s, outputs evs `prefix_of` s ∧ s `prefix_of` outputs (evs ++ [ev])) (lp_sinks l').
Proof.
  intros H Ht.
  assert (Hsame : outputs evs = outputs (evs ++ [ev]) → lp_sinks l' = lp_sinks l →
    Forall (λ s, outputs evs `prefix_of` s ∧ s `prefix_of` outputs (evs ++ [ev])) (lp_sinks l')).
  { intros Ho ->. rewrite (ac_sinks _ _ _ H). apply Forall_replicate. rewrite <- Ho. done. }
  destruct ev as [i item|id d b|i m|]; cbn [loop_turn] in Ht.
  - destruct (_ && _); [|done]. destruct item as [[c|e]|].
    + by destruct (spawn_task c).
    + injection Ht as <- <-. split_and!; [done..|]. apply Hsame; [|done]. symmetry. by apply outputs_other.
    + case_bool_decide; [|done]. injection Ht as <- <-. split_and!; [done..|]. apply Hsame; [|done]. symmetry. by apply outputs_other.
  - destruct (lp_pending l !! id) as [t|] eqn:Hp; [cbn [mbind option_bind] in Ht|done].
    destruct (task_output t d) as [out|] eqn:Ho; [cbn [mbind option_bind] in Ht|done].
    pose proof (outputs_job n evs l id d b t out H Hp Ho) as Hout. destruct out as [[rs|]|e]; [|done|].
    + destruct (send_to_consumers (lp_sinks l) rs b) as [[sinks [[]|e]]|] eqn:Hb; [done| |done]. injection Ht as <- <-.
      apply send_failed in Hb as (j & taken & -> & Hf). split_and!; [|done|]; [by destruct t as [[]|], d|].
      cbn. rewrite Hout. apply Hf. rewrite (ac_sinks _ _ _ H). by apply Forall_replicate.
    + injection Ht as <- <-. split_and!; [|done|apply Hsame; [by rewrite Hout, app_nil_r|done]].
      destruct t as [[fs|]|], d as [f|[]|e']; cbn in Ho; try done; simplify_eq; try by destruct b.
      destruct (collect_results (f fs)); [done|]. injection Ho as <-. by destruct b.
  - destruct (lp_services l !! i) as [rc|]; [cbn [mbind option_bind] in Ht|done]. destruct (receive rc m) as [[?|e]|] eqn:Hr; [done| |done].
    injection Ht as <- <-. split_and!; [|done|apply Hsame; [symmetry; by apply outputs_other|done]].
    destruct rc, m; cbn in Hr; simplify_eq; done.
  - by rewrite (ac_shutdown _ _ _ H) in Ht.
Qed.

Lemma loop_ends producers consumers receivers evs r l :
  loop_run (loop_start producers consumers receivers) evs = Some (Ends r l) →
  ∃ before ev, evs = before ++ [ev] ∧ end_reason ev r ∧ lp_shutdown l = Signalled ∧
    Forall (λ s, outputs before `prefix_of` s ∧ s `prefix_of` outputs evs) (lp_sinks l).
Proof.
  destruct evs as [|ev evs _] using rev_ind; [done|]. rewrite loop_run_snoc.
  destruct (loop_run _ evs) as [[l0| |]|] eqn:Hr; [|done..]. intros Ht. exists evs, ev. split; [done|].
  eapply turn_ends; [by eapply runner_accounts|done].
Qed.

Lemma end_reason_err ev r : end_reason ev r → ∃ e, r = Err e.
Proof. destruct r; [|by eexists]. by destruct ev as [i [[|]|]|id [] []|i []|]. Qed.

End loop.

Arguments Task : clear implicits.
Arguments Done : clear implicits.
Arguments LoopEvent : clear implicits.
Arguments Loop : clear implicits.
Arguments Turn : clear implicits.

(** ** Jobs and the router *)

Section jobs.
  Context {Ext Fut E X : Type}.

(** A job that no cloud function is registered for is the router's: it returns what
    [Router::call] does. *)
Lemma routed_job (router : JobIdRouter Ext Fut unit) (faas : FaasRegistry X) c t complete :
  is_faas_job (faas_job_id c) faas = false → spawn_task router faas c = Some t →
  task_output (E := E) t (Ran complete)
  = match router_call complete router c with
    | Some (Ok o) => Some (Ok o)
    | Some (Err e) => Some (Err (JobFailed (HandlerError e)))
    | None => None
    end.
Proof.
  unfold spawn_task, router_call. intros ->. destruct (call_with_context router c tt) as [fs| |]; [|by intros [= <-]|done].
  intros [= <-]. cbn. by destruct (collect_results (complete fs)).
Qed.

(** A router whose table is consistent never makes the runner panic. *)
Lemma spawn_total (router : JobIdRouter Ext Fut unit) (faas : FaasRegistry X) c : table_ok router → is_Some (spawn_task router faas c).
Proof.
  intros Hr. unfold spawn_task, is_faas_job, faas_get. case_bool_decide as Hf.
  - destruct Hf as [x ->]. by eexists.
  - rewrite (call_reached router c tt Hr). by destruct (reached router _).
Qed.
Theorem runner_never_panics (router : JobIdRouter Ext Fut unit) (faas : FaasRegistry X) l evs :
  table_ok router → loop_run (E := E) router faas l evs ≠ Some Panics.
Proof.
  intros Hr. destruct evs as [|ev evs _] using rev_ind; [done|]. rewrite loop_run_snoc. destruct (loop_run _ _ _ evs) as [[l0| |]|]; [|done..].
  destruct ev as [i item|id d b|i m|]; cbn [loop_turn].
  - destruct (_ && _); [|done]. destruct item as [[c|e]|]; [|done|by case_bool_decide].
    destruct (spawn_total router faas c Hr) as [t ->]. done.
  - destruct (lp_pending l0 !! id) as [t|]; cbn; [|done]. destruct (task_output t d) as [[[rs|]|e]|]; cbn; try done.
    by destruct (send_to_consumers (lp_sinks l0) rs b) as [[sinks [[]|]]|].
  - destruct (lp_services l0 !! i); cbn; [|done]. by destruct (receive _ _) as [[]|].
  - by destruct (lp_shutdown l0).
Qed.

(** ** What the loop does beyond that *)

(** The answer of a cloud function carries no metadata, so the consumer of the chain
    has neither service nor call to submit it for: it drops the result. *)
Theorem faas_result_not_submitted (response : list Byte8) : start_send (E := E) (result_of_response response) = Ok None.
Proof. unfold result_of_response, job_result_new, start_send. by rewrite lookup_empty. Qed.

(** Job identifiers that agree in their last 32 bits are one to the registry of cloud
    functions: the router's job is never called. *)
Theorem faas_takes_wide_ids (router : JobIdRouter Ext Fut unit) (faas : FaasRegistry X) (x : X) (c : JobCall Ext) :
  job_id (head c) = mkJobId 1 2 3 4294967296 → faas !! 0 = Some x → spawn_task router faas c = Some (FaasTask x c).
Proof. intros Hc Hx. unfold spawn_task, is_faas_job, faas_get, faas_job_id. rewrite Hc. change (number_from_JobId _ _) with 0. by rewrite Hx. Qed.

(** A background service that reports an error is taken for one that ended well: the
    runner goes on.  Only a service that drops its channel ends it. *)
Theorem service_error_ignored (router : JobIdRouter Ext Fut unit) (faas : FaasRegistry X) (l : Loop Ext Fut E X) i e :
  lp_services l !! i = Some ChannelOpen →
  loop_turn router faas l (EvBackground i (Some (Err e))) = loop_turn router faas l (EvBackground i (Some (Ok tt))).
Proof. intros Hi. cbn. by rewrite Hi. Qed.

End jobs.

(** ** Before the loop *)

(** The transaction that registers an operator, without inputs and with them *)
Inductive RegisterCall :=
| RegisterOperator1 (blueprint_id : Z) (ecdsa_key : list Byte8) (rpc_address : string)
| RegisterOperator0 (blueprint_id : Z) (ecdsa_key : list Byte8) (rpc_address : string) (inputs : list Byte8).

(** What the runner has done *)
Inductive StartEvent :=
| AskedRegistration | CreatedDir (path : string) | ReadFile (path : string) | Slept (millis : Z)
| Registering (sent : list RegisterCall) | StartedService (i : nat) | SpawnedShutdownTask
| ConnectedBridge | PingedBridge | UpdatedTls (service_id : Z) (profile : TlsProfile).
Abbreviation Past := (list StartEvent).

(** What the host, the keystore and the chain answer *)
Class RunnerWorld := {
  rw_create_dir : Past → string → result IoError unit;
  rw_read : Past → string → result IoError (list Byte8);
  rw_heartbeat : Past → result string unit;
  rw_service : Past → nat → result RunnerError Receiver;
  rw_connect : Past → option string → result string unit;
  rw_ping : Past → result string unit;
  rw_update_tls : Past → Z → TlsProfile → result string unit;
  rw_client : Past → result string unit;
  rw_is_registered : Past → Z → result string bool;
  rw_sole_local : Past → result string (list Byte8);
  rw_secret : Past → list Byte8 → result string (option (list Byte8));
  rw_signer : list Byte8 → result string unit;
  rw_provider : Past → result string unit;
  rw_send : Past → RegisterCall → result string unit;
  rw_receipt : Past → result string bool;
}.

Definition Start (A : Type) : Type := Past → result RunnerError A * Past.
#[export] Instance start_ret : MRet Start := λ A a h, (Ok a, h).
#[export] Instance start_bind : MBind Start := λ A B f m h, match m h with (Ok a, h) => f a h | (Err e, h) => (Err e, h) end.
Definition fails {A} (e : RunnerError) : Start A := λ h, (Err e, h).
Definition pure_of {A} (r : result RunnerError A) : Start A := λ h, (r, h).
(** One action and its answer *)
Definition does {A} (ev : StartEvent) (answer : Past → result RunnerError A) : Start A := λ h, (answer h, h ++ [ev]).

Lemma start_bind_Ok {A B} (m : Start A) (k : A → Start B) h b h' :
  (m ≫= k) h = (Ok b, h') → ∃ a h1, m h = (Ok a, h1) ∧ k a h1 = (Ok b, h').
Proof. unfold mbind, start_bind. destruct (m h) as [[a|e] h1]; [|done]. eauto. Qed.

Section start.
  Context `{T : SettingsText} `{W : RunnerWorld}.

(** The trait [BlueprintConfig]: what [register] sends is part of its answer *)
Class BlueprintConfig (K : Type) := {
  requires_registration : K → BlueprintEnvironment → Past → result RunnerError bool;
  register_operator : K → BlueprintEnvironment → Past → result RunnerError unit * list RegisterCall;
  update_registration_inputs : K → list Byte8 → result RunnerError K;
  should_exit_after_registration : K → bool;
}.
(** [impl BlueprintConfig for ()]: the defaults *)
#[export] Instance unit_config : BlueprintConfig unit := {|
  requires_registration _ _ _ := Ok true; register_operator _ _ _ := (Ok tt, []);
  update_registration_inputs _ _ := Ok tt; should_exit_after_registration _ := true;
|}.

(** [TangleConfig] *)
Record TangleConfig := mkTangleConfig { tc_rpc_address : string; tc_exit_after_register : bool; tc_inputs : list Byte8 }.
Definition tangle_config_new (rpc : string) : TangleConfig := mkTangleConfig rpc true [].
Definition with_exit_after_register (b : bool) (c : TangleConfig) : TangleConfig := mkTangleConfig (tc_rpc_address c) b (tc_inputs c).
Definition set_registration_inputs (i : list Byte8) (c : TangleConfig) : TangleConfig :=
  mkTangleConfig (tc_rpc_address c) (tc_exit_after_register c) i.

(** [requires_registration_impl] *)
Definition requires_registration_impl (env : BlueprintEnvironment) (h : Past) : result RunnerError bool :=
  settings ← map_err RConfig (settings_tangle (be_protocol_settings env));
  _ ← map_err (λ e, RTangle (TeContract e)) (rw_client h);
  registered ← map_err (λ e, RTangle (TeContract e)) (rw_is_registered h (tp_blueprint_id settings));
  Ok (negb registered).

(** [register_impl]: the steps before the transaction, and the transaction *)
Definition register_keys (h : Past) : result RunnerError (list Byte8) :=
  public ← map_err (λ e, RTangle (TeKeystore e)) (rw_sole_local h);
  secret ← map_err (λ e, RTangle (TeKeystore e)) (rw_secret h public);
  secret ← ok_or secret (RTangle (TeKeystore "No ECDSA secret found in keystore"));
  _ ← map_err (λ e, RTangle (TeKeystore ("Failed to create signer: " +:+ e))) (rw_signer secret);
  _ ← map_err (λ e, RTangle (TeContract ("Failed to connect to RPC: " +:+ e))) (rw_provider h);
  Ok public.
Definition register_impl (rpc : string) (inputs : list Byte8) (env : BlueprintEnvironment) (h : Past)
    : result RunnerError unit * list RegisterCall :=
  match map_err RConfig (settings_tangle (be_protocol_settings env)) with
  | Err e => (Err e, [])
  | Ok settings =>
      match register_keys h with
      | Err e => (Err e, [])
      | Ok key =>
          let call := if bool_decide (inputs = []) then RegisterOperator1 (tp_blueprint_id settings) key rpc
                      else RegisterOperator0 (tp_blueprint_id settings) key rpc inputs in
          (_ ← map_err (λ e, RTangle (TeTransaction ("Failed to send transaction: " +:+ e))) (rw_send h call);
           status ← map_err (λ e, RTangle (TeTransaction ("Failed to get receipt: " +:+ e))) (rw_receipt h);
           if status : bool then Ok tt else Err (RTangle (TeTransaction "Transaction reverted")), [call])
      end
  end.
#[export] Instance tangle_blueprint_config : BlueprintConfig TangleConfig := {|
  requires_registration _ := requires_registration_impl;
  register_operator c := register_impl (tc_rpc_address c) (tc_inputs c);
  update_registration_inputs c i := Ok (set_registration_inputs i c);
  should_exit_after_registration := tc_exit_after_register;
|}.

(** [Path::parent] of a file's path *)
Definition path_parent (p : string) : option string :=
  match rsplit_once "/" p with Some (d, _) => Some d | None => if bool_decide (p = "") then None else Some ""%string end.

(** [capture_registration_inputs]: [None] when the model's rounds are used up *)
Definition REGISTRATION_INPUT_TIMEOUT : Z := 300000.
Fixpoint capture_loop (rounds : nat) (path : string) (elapsed : Z) : Start (option (list Byte8)) :=
  match rounds with
  | O => mret None
  | S rounds =>
      does (ReadFile path) (λ h, Ok (rw_read h path)) ≫= λ read : result IoError (list Byte8),
      let wait :=
        if REGISTRATION_INPUT_TIMEOUT <=? elapsed
        then fails (RIo (TimedOut ("Timed out waiting for registration inputs at " +:+ path)))
        else does (Slept 250) (λ _, Ok tt) ≫= λ _, capture_loop rounds path (elapsed + 250) in
      match read with
      | Ok bytes => if bool_decide (bytes = []) then wait else mret (Some bytes)
      | Err NotFound => wait
      | Err e => fails (RIo e)
      end
  end.
Definition CAPTURE_ROUNDS : nat := 1201.
Definition capture_registration_inputs (env : BlueprintEnvironment) : Start (option (list Byte8)) :=
  let path := registration_output_path env in
  match path_parent path with
  | Some parent => does (CreatedDir parent) (λ h, map_err RIo (rw_create_dir h parent))
  | None => mret tt
  end ≫= λ _, capture_loop CAPTURE_ROUNDS path 0.

Section run.
  Context {K : Type} `{B : BlueprintConfig K}.

Definition register_now (k : K) (env : BlueprintEnvironment) : Start unit := λ h,
  let '(r, sent) := register_operator k env h in (r, h ++ [Registering sent]).

(** The registration of [FinalizedBlueprintRunner::run]: whether the runner returns *)
Definition registration (k : K) (env : BlueprintEnvironment) : Start bool :=
  does AskedRegistration (requires_registration k env) ≫= λ needs_registration : bool,
  let skip_registration := be_dry_run env in
  if be_registration_mode env then
    capture_registration_inputs env ≫= λ inputs : option (list Byte8),
    match inputs with Some (b :: bs) => pure_of (update_registration_inputs k (b :: bs)) | _ => mret k end ≫= λ k,
    if be_registration_capture_only env then mret true
    else
      (if needs_registration && negb skip_registration then register_now k env else mret tt) ≫= λ _,
      mret (should_exit_after_registration k)
  else if needs_registration && negb skip_registration then
    register_now k env ≫= λ _, mret (should_exit_after_registration k)
  else mret false.

(** ** Background services *)

Inductive BackgroundService := HeartbeatAdapter | MetricsServerAdapter | QosServiceAdapter | TeeAuthAdapter (c : TeeKeyExchangeConfig) | CustomService (n : nat).

(** [BackgroundService::start].  The adapter of a heartbeat returns a channel whose
    sender it drops; the others keep theirs in a task. *)
Definition service_start (s : BackgroundService) : Past → result RunnerError Receiver := λ h,
  match s with
  | HeartbeatAdapter => match rw_heartbeat h with Ok _ => Ok ChannelClosed | Err e => Err (ROther e) end
  | MetricsServerAdapter | QosServiceAdapter | TeeAuthAdapter _ => Ok ChannelOpen
  | CustomService n => rw_service h n
  end.
Fixpoint start_services (i : nat) (l : list BackgroundService) : Start (list Receiver) :=
  match l with
  | [] => mret []
  | s :: l => does (StartedService i) (service_start s) ≫= λ r, start_services (S i) l ≫= λ rs, mret (r :: rs)
  end.

(** What the tasks of the adapters send: the metrics server is started and polled, the
    quality of service is waited for and its heartbeat started *)
Definition metrics_message (started ready : result string unit) : result RunnerError unit :=
  match started with
  | Err e => Err (ROther ("Failed to start metrics server: " +:+ e))
  | Ok _ => match ready with Err e => Err (ROther ("Metrics server failed to become ready: " +:+ e)) | Ok _ => Ok tt end
  end.
Definition qos_message (notified : bool) (built : option (option (result string unit))) : result RunnerError unit :=
  if negb notified then Err (ROther "QoS service did not initialize (build task may have failed or timed out).")
  else match built with
    | None => Err (ROther "Notified but QoS service is None (build failed).")
    | Some (Some (Err e)) => Err (ROther ("Heartbeat service failed to start: " +:+ e))
    | Some _ => Ok tt
    end.

(** The bridge, and the update of the TLS profile *)
Definition connect_bridge (env : BlueprintEnvironment) : Start bool :=
  if be_test_mode env then mret false
  else
    does ConnectedBridge (λ h, map_err RBridge (rw_connect h (be_bridge_socket_path env))) ≫= λ _,
    does PingedBridge (λ h, map_err RBridge (rw_ping h)) ≫= λ _, mret true.
Definition update_tls (env : BlueprintEnvironment) (bridge : bool) : Start unit :=
  match be_tls_profile env with
  | None => mret tt
  | Some profile =>
      pure_of (map_err RConfig (resolve_service_id env)) ≫= λ service_id,
      if bridge then does (UpdatedTls service_id profile) (λ h, map_err RBridge (rw_update_tls h service_id profile)) else mret tt
  end.

(** [FinalizedBlueprintRunner::run] up to the loop: [None] when it returns before *)
Definition prepare {Ext Fut E X} (k : K) (env : BlueprintEnvironment) (producers consumers : nat) (services : list BackgroundService)
    : Start (option (Loop Ext Fut E X)) :=
  registration k env ≫= λ exit : bool,
  if exit then mret None
  else
    start_services 0 services ≫= λ receivers,
    does SpawnedShutdownTask (λ _, Ok tt) ≫= λ _,
    connect_bridge env ≫= λ bridge,
    update_tls env bridge ≫= λ _,
    mret (Some (loop_start producers consumers receivers)).

(** [FinalizedBlueprintRunner::run], over the events of its loop: what it returns and
    the loop it leaves, if it was entered; [None] while it runs, when an event cannot
    happen, or when the loop panics *)
Definition finalized_run {Ext Fut E X} (router : JobIdRouter Ext Fut unit) (faas : FaasRegistry X) (k : K) (env : BlueprintEnvironment)
    (producers consumers : nat) (services : list BackgroundService) (h : Past) (evs : list (LoopEvent Ext Fut E))
    : option (result RunnerError unit * option (Loop Ext Fut E X)) :=
  match (prepare k env producers consumers services h).1 with
  | Err e => Some (Err e, None)
  | Ok None => Some (Ok tt, None)
  | Ok (Some l) => match loop_run router faas l evs with Some (Ends r l) => Some (r, Some l) | _ => None end
  end.

Lemma prepare_outcome {Ext Fut E X} k env producers consumers services h :
  match (prepare (Ext := Ext) (Fut := Fut) (E := E) (X := X) k env producers consumers services h).1 with
  | Ok None => (registration k env h).1 = Ok true
  | Ok (Some l) => (registration k env h).1 = Ok false ∧ ∃ receivers, l = loop_start producers consumers receivers
  | Err _ => (registration k env h).1 ≠ Ok true
  end.
Proof.
  destruct (prepare k env producers consumers services h) as [[l|e] h'] eqn:Hp; cbn [fst].
  - unfold prepare in Hp. apply start_bind_Ok in Hp as (exit & h1 & -> & Hp). destruct exit; [by injection Hp as <- _|].
    apply start_bind_Ok in Hp as (receivers & h2 & _ & Hp). apply start_bind_Ok in Hp as (? & h3 & _ & Hp).
    apply start_bind_Ok in Hp as (bridge & h4 & _ & Hp). apply start_bind_Ok in Hp as (? & h5 & _ & Hp).
    injection Hp as <- _. by eauto.
  - unfold prepare in Hp. unfold mbind at 1, start_bind at 1 in Hp.
    destruct (registration k env h) as [[[]|] ?]; [by injection Hp|done..].
Qed.

(** C18. What [run] of a runner returns.  It returns [Ok] exactly when the registration
    ends the run (the inputs were only to be captured, or the configuration exits after
    it).  Otherwise it returns an error: that of the registration, of a service's start,
    of the bridge or of the TLS update before the loop; or, from the loop, for one of
    five reasons: a producer failed or all have ended, a job failed or was lost, a
    consumer failed, or a background service dropped its channel.  After the loop each
    consumer has what the jobs before the last returned and a prefix of what the last
    did, and the task of the shutdown handler, which is not awaited, is woken: it has
    not called the handler when the runner returns, and does when it is next polled. *)
Theorem runner_ends {Ext Fut E X} (router : JobIdRouter Ext Fut unit) (faas : FaasRegistry X) k env producers consumers services h
    (evs : list (LoopEvent Ext Fut E)) r left :
  finalized_run router faas k env producers consumers services h evs = Some (r, left) →
  (r = Ok tt ↔ (registration k env h).1 = Ok true) ∧
  match left with
  | None => r = Ok tt ∨ ∃ e, r = Err e ∧ (prepare (Ext := Ext) (Fut := Fut) (E := E) (X := X) k env producers consumers services h).1 = Err e
  | Some l =>
      ∃ before ev, evs = before ++ [ev] ∧ end_reason ev r ∧
        lp_shutdown l = Signalled ∧ shutdown_poll (lp_shutdown l) = HandlerCalled ∧
        Forall (λ s, outputs router faas before `prefix_of` s ∧ s `prefix_of` outputs router faas evs) (lp_sinks l)
  end.
Proof.
  unfold finalized_run. pose proof (prepare_outcome (Ext := Ext) (Fut := Fut) (E := E) (X := X) k env producers consumers services h) as Hp.
  destruct (prepare k env producers consumers services h).1 as [[l0|]|e].
  - destruct Hp as [Hf [receivers ->]]. destruct (loop_run router faas _ evs) as [[| r' l|]|] eqn:Hr; try done. intros [= <- <-].
    apply loop_ends in Hr as (before & ev & He & Hreason & Hs & Hsinks). split.
    + rewrite Hf. apply end_reason_err in Hreason as [e ->]. done.
    + exists before, ev. rewrite Hs. done.
  - intros [= <- <-]. split; [done|by left].
  - intros [= <- <-]. split; [done|]. right. by exists e.
Qed.

End run.
End start.

(** ** The builder *)

Section builder.
  Context `{T : SettingsText} `{W : RunnerWorld} {K : Type} {B : BlueprintConfig K} {Ext Fut E X : Type}.

Record Builder := mkBuilder {
  b_config : K; b_env : BlueprintEnvironment; b_producers : nat; b_consumers : nat; b_router : option (JobIdRouter Ext Fut unit);
  b_services : list BackgroundService; b_faas : FaasRegistry X; b_tee_explicitly_configured : bool;
}.
(** [BlueprintRunner::builder] and the methods of the builder *)
Definition builder_new (k : K) (env : BlueprintEnvironment) : Builder := mkBuilder k env 0 0 None [] ∅ false.
Definition set_router (r : JobIdRouter Ext Fut unit) (b : Builder) : Builder :=
  mkBuilder (b_config b) (b_env b) (b_producers b) (b_consumers b) (Some r) (b_services b) (b_faas b) (b_tee_explicitly_configured b).
Definition add_producer (b : Builder) : Builder :=
  mkBuilder (b_config b) (b_env b) (S (b_producers b)) (b_consumers b) (b_router b) (b_services b) (b_faas b) (b_tee_explicitly_configured b).
Definition add_consumer (b : Builder) : Builder :=
  mkBuilder (b_config b) (b_env b) (b_producers b) (S (b_consumers b)) (b_router b) (b_services b) (b_faas b) (b_tee_explicitly_configured b).
Definition background_service (s : BackgroundService) (b : Builder) : Builder :=
  mkBuilder (b_config b) (b_env b) (b_producers b) (b_consumers b) (b_router b) (b_services b ++ [s]) (b_faas b) (b_tee_explicitly_configured b).
Definition heartbeat_service : Builder → Builder := background_service HeartbeatAdapter.
Definition metrics_server : Builder → Builder := background_service MetricsServerAdapter.
Definition qos_service : Builder → Builder := background_service QosServiceAdapter.
Definition with_faas_executor (id : Z) (x : X) (b : Builder) : Builder :=
  mkBuilder (b_config b) (b_env b) (b_producers b) (b_consumers b) (b_router b) (b_services b) (faas_register id x (b_faas b))
    (b_tee_explicitly_configured b).
(** [BlueprintRunnerBuilder::tee] *)
Definition with_tee (c : TeeConfig) (b : Builder) : Builder :=
  let b := mkBuilder (b_config b) (b_env b) (b_producers b) (b_consumers b) (b_router b) (b_services b) (b_faas b) true in
  if is_enabled c then background_service (TeeAuthAdapter (key_exchange c)) b else b.

(** [BlueprintRunnerBuilder::run] up to the loop: the router, the functions and the loop
    it enters.  [tee_layer] is [TeeLayer::new()] around a route, [var] the variable
    [TEE_MODE] in lower case. *)
Definition run_builder (tee_layer : (JobCall Ext → Fut) → (JobCall Ext → Fut)) (var : option string) (detected : option TeeProvider)
    (b : Builder) : Start (option (JobIdRouter Ext Fut unit * FaasRegistry X * Loop Ext Fut E X)) :=
  match b_router b with
  | None => fails NoRouter
  | Some router =>
      if bool_decide (b_producers b = 0%nat) then fails NoProducers
      else
        let mode := env_tee_mode var in
        let should_auto_detect := match mode with Some ModeDisabled => false | _ => negb (b_tee_explicitly_configured b) end in
        let go b router :=
          prepare (b_config b) (b_env b) (b_producers b) (b_consumers b) (b_services b) ≫= λ l,
          mret ((λ l, (router, b_faas b, l)) <$> l) in
        if should_auto_detect then
          match detected with
          | Some provider =>
              match tee_build (foldl tee_set tee_builder [SetMode ModeDirect; SetSelector (AllowList [provider])]) with
              | Ok c => go (with_tee c b) (layer tee_layer router)
              | Err _ => fails (ROther "auto-detected TEE config must be valid")
              end
          | None =>
              match mode with
              | Some ModeDirect => fails (RBackgroundService "TEE_MODE=required but no TEE hardware detected")
              | _ => go b router
              end
          end
        else go b router
  end.

End builder.

(** ** What comes before the loop *)

Section startup.
  Context `{T : SettingsText} `{W : RunnerWorld}.


(** A program that only adds events of a kind *)
Definition adds {A} (P : StartEvent → Prop) (m : Start A) : Prop := ∀ h, ∃ new, (m h).2 = h ++ new ∧ Forall P new.
Lemma adds_ret {A} P (a : A) : adds P (mret a).
Proof. intros h. exists []. by rewrite app_nil_r. Qed.
Lemma adds_fails {A} P e : adds (A := A) P (fails e).
Proof. intros h. exists []. by rewrite app_nil_r. Qed.
Lemma adds_pure {A} P (r : result RunnerError A) : adds P (pure_of r).
Proof. intros h. exists []. by rewrite app_nil_r. Qed.
Lemma adds_does {A} (P : StartEvent → Prop) ev (f : Past → result RunnerError A) : P ev → adds P (does ev f).
Proof. intros H h. exists [ev]. split; [done|]. by constructor. Qed.
Lemma adds_bind {A C} P (m : Start A) (k : A → Start C) : adds P m → (∀ a, adds P (k a)) → adds P (m ≫= k).
Proof.
  intros Hm Hk h. destruct (Hm h) as (new & Hn & Hp). unfold mbind, start_bind. destruct (m h) as [[a|e] h1]; cbn in Hn; subst h1; [|by exists new].
  destruct (Hk a (h ++ new)) as (new' & Hn' & Hp'). exists (new ++ new'). rewrite Hn', app_assoc. split; [done|]. by apply Forall_app.
Qed.
Lemma adds_mono {A} (P Q : StartEvent → Prop) (m : Start A) : (∀ ev, P ev → Q ev) → adds P m → adds Q m.
Proof. intros H Hm h. destruct (Hm h) as (new & Hn & Hp). exists new. split; [done|]. by eapply Forall_impl. Qed.

(** The wait for inputs *)
Definition waiting (ev : StartEvent) : Prop := match ev with CreatedDir _ | ReadFile _ | Slept _ => True | _ => False end.
Lemma capture_loop_adds rounds path elapsed : adds waiting (capture_loop rounds path elapsed).
Proof.
  revert elapsed. induction rounds as [|rounds IH]; intros elapsed; cbn [capture_loop]; [apply adds_ret|].
  apply adds_bind; [by apply adds_does|]. intros read.
  assert (Hw : adds waiting (if REGISTRATION_INPUT_TIMEOUT <=? elapsed
      then fails (RIo (TimedOut ("Timed out waiting for registration inputs at " +:+ path)))
      else does (Slept 250) (λ _, Ok tt) ≫= λ _, capture_loop rounds path (elapsed + 250))).
  { destruct (_ <=? _); [apply adds_fails|]. apply adds_bind; [by apply adds_does|]. intros _. apply IH. }
  destruct read as [bytes|[]]; [case_bool_decide; [exact Hw|apply adds_ret]|exact Hw|apply adds_fails..].
Qed.
Lemma capture_adds env : adds waiting (capture_registration_inputs env).
Proof.
  unfold capture_registration_inputs. apply adds_bind; [|intros _; apply capture_loop_adds].
  destruct (path_parent _); [by apply adds_does|apply adds_ret].
Qed.

(** The wait ends with the file's contents or fails. *)
Lemma captured rounds path elapsed h r h' :
  0 ≤ elapsed → (0 < rounds)%nat → REGISTRATION_INPUT_TIMEOUT ≤ elapsed + 250 * (Z.of_nat rounds - 1) →
  capture_loop rounds path elapsed h = (Ok r, h') → ∃ bytes past, r = Some bytes ∧ bytes ≠ [] ∧ rw_read past path = Ok bytes.
Proof.
  revert elapsed h. induction rounds as [|rounds IH]; intros elapsed h He Hr Ht; [lia|]. cbn [capture_loop].
  intros (read & h1 & [= <- <-] & H)%start_bind_Ok.
  assert (Hw : (if REGISTRATION_INPUT_TIMEOUT <=? elapsed
      then fails (RIo (TimedOut ("Timed out waiting for registration inputs at " +:+ path)))
      else does (Slept 250) (λ _, Ok tt) ≫= λ _, capture_loop rounds path (elapsed + 250)) (h ++ [ReadFile path]) = (Ok r, h') →
    ∃ bytes past, r = Some bytes ∧ bytes ≠ [] ∧ rw_read past path = Ok bytes).
  { destruct (Z.leb_spec REGISTRATION_INPUT_TIMEOUT elapsed); [done|]. intros ([] & h2 & [= <-] & H2)%start_bind_Ok.
    eapply IH; [| | |exact H2]; lia. }
  destruct (rw_read h path) as [bytes|[]] eqn:Hread; [|by apply Hw|done..].
  revert H. case_bool_decide as Hb; [done|]. intros [= <- _]. eauto.
Qed.

(** The registrations among some events *)
Definition registrations (h : Past) : list (list RegisterCall) := omap (λ ev, match ev with Registering sent => Some sent | _ => None end) h.
Definition no_registration (ev : StartEvent) : Prop := match ev with Registering _ => False | _ => True end.
Lemma none_registered h : Forall no_registration h → registrations h = [].
Proof. induction 1 as [|ev h Hev _ IH]; [done|]. by destruct ev. Qed.
(** Nothing but the registration has happened: no service was started. *)
Definition early (ev : StartEvent) : Prop := match ev with AskedRegistration | CreatedDir _ | ReadFile _ | Slept _ => True | _ => False end.

Lemma start_services_adds i l : adds no_registration (start_services i l).
Proof.
  revert i. induction l as [|s l IH]; intros i; cbn; [apply adds_ret|]. apply adds_bind; [by apply adds_does|]. intros r.
  apply adds_bind; [apply IH|]. intros rs. apply adds_ret.
Qed.
Lemma connect_bridge_adds env : adds no_registration (connect_bridge env).
Proof.
  unfold connect_bridge. destruct (be_test_mode env); [apply adds_ret|]. apply adds_bind; [by apply adds_does|]. intros _.
  apply adds_bind; [by apply adds_does|]. intros _. apply adds_ret.
Qed.
Lemma update_tls_adds env b : adds no_registration (update_tls env b).
Proof.
  unfold update_tls. destruct (be_tls_profile env); [|apply adds_ret]. apply adds_bind; [apply adds_pure|]. intros sid.
  destruct b; [by apply adds_does|apply adds_ret].
Qed.

Section registered.
  Context {K : Type} {B : BlueprintConfig K} {Ext Fut E X : Type}.

(** The registration, when the runner goes on after it *)
Lemma registration_Ok k env h0 exit h : registration k env h0 = (Ok exit, h) →
  ∃ needs, requires_registration k env h0 = Ok needs ∧
  ((∃ new, h = h0 ++ new ∧ Forall early new ∧
      (needs = false ∨ be_dry_run env = true ∨ be_registration_mode env = true ∧ be_registration_capture_only env = true ∧ exit = true)) ∨
   (∃ new k' sent, h = h0 ++ new ++ [Registering sent] ∧ Forall early new ∧ needs = true ∧ be_dry_run env = false ∧
      (be_registration_mode env && be_registration_capture_only env = false) ∧
      register_operator k' env (h0 ++ new) = (Ok tt, sent) ∧ exit = should_exit_after_registration k')).
Proof.
  unfold registration. intros (needs & h1 & [= Hneeds <-] & H)%start_bind_Ok. exists needs. split; [done|].
  assert (Hearly : ∀ new, Forall waiting new → Forall early (AskedRegistration :: new)).
  { intros new Hw. constructor; [done|]. eapply Forall_impl; [done|]. by intros []. }
  assert (Hreg : ∀ k' past r h2, register_now k' env past = (Ok r, h2) → ∃ sent, h2 = past ++ [Registering sent] ∧ register_operator k' env past = (Ok tt, sent)).
  { intros k' past r h2. unfold register_now. destruct (register_operator k' env past) as [[[]|] sent]; [|done]. intros [= _ <-]. eauto. }
  destruct (be_registration_mode env) eqn:Hmode.
  - apply start_bind_Ok in H as (inputs & h2 & Hcap & H). destruct (capture_adds env (h0 ++ [AskedRegistration])) as (new & Hn & Hw).
    rewrite Hcap in Hn. cbn in Hn. subst h2. apply start_bind_Ok in H as (k' & h3 & Hk & H).
    assert (h3 = (h0 ++ [AskedRegistration]) ++ new) as -> by (destruct inputs as [[]|]; by injection Hk).
    destruct (be_registration_capture_only env) eqn:Hcapt.
    + injection H as <- <-. left. exists (AskedRegistration :: new). rewrite <- app_assoc. split; [done|]. split; [auto|]. right. by right.
    + apply start_bind_Ok in H as (? & h4 & Hr & [= <- <-]). rewrite <- app_assoc in Hr. destruct needs; cbn [andb] in Hr; [destruct (be_dry_run env) eqn:Hd; cbn [negb] in Hr|].
      * injection Hr as _ <-. left. exists (AskedRegistration :: new). split; [done|]. auto.
      * apply Hreg in Hr as (sent & -> & Hr). right. exists (AskedRegistration :: new), k', sent. rewrite <- app_assoc. split_and!; auto.
      * injection Hr as _ <-. left. exists (AskedRegistration :: new). split; [done|]. auto.
  - destruct needs; cbn [andb] in H; [destruct (be_dry_run env) eqn:Hd; cbn [negb] in H|].
    + injection H as <- <-. left. exists [AskedRegistration]. split; [done|]. auto.
    + apply start_bind_Ok in H as (? & h2 & Hr & [= <- <-]). apply Hreg in Hr as (sent & -> & Hr). right.
      exists [AskedRegistration], k, sent. rewrite <- app_assoc. split_and!; auto.
    + injection H as <- <-. left. exists [AskedRegistration]. split; [done|]. auto.
Qed.

(** C19. A runner serves jobs only as a registered operator: when it enters its loop,
    either the protocol required no registration, or it is a dry run and nothing was
    sent, or it registered exactly once and with success, before any service started. *)
Theorem serves_registered k env p c services (l : Loop Ext Fut E X) h :
  prepare k env p c services [] = (Ok (Some l), h) →
  ∃ needs, requires_registration k env [] = Ok needs ∧
    ((registrations h = [] ∧ (needs = false ∨ be_dry_run env = true)) ∨
     (be_dry_run env = false ∧ ∃ before sent after k', h = before ++ Registering sent :: after ∧
        Forall early before ∧ registrations after = [] ∧
        register_operator k' env before = (Ok tt, sent) ∧ should_exit_after_registration k' = false)).
Proof.
  unfold prepare. intros (exit & h1 & Hr & H)%start_bind_Ok. destruct exit; [done|].
  assert (Hrest : ∃ after, h = h1 ++ after ∧ registrations after = []).
  { pose proof (adds_bind no_registration _ (λ receivers, does SpawnedShutdownTask (λ _, Ok tt) ≫= λ _,
      connect_bridge env ≫= λ bridge, update_tls env bridge ≫= λ _, mret (Some (loop_start (Ext := Ext) (Fut := Fut) (E := E) (X := X) p c receivers)))
      (start_services_adds 0 services)) as Ha.
    destruct (Ha ltac:(intros rs; apply adds_bind; [by apply adds_does|]; intros _; apply adds_bind; [apply connect_bridge_adds|]; intros br;
      apply adds_bind; [apply update_tls_adds|]; intros _; apply adds_ret) h1) as (after & Hn & Hp). exists after. rewrite H in Hn. cbn in Hn. split; [done|].
    by apply none_registered. }
  destruct Hrest as (after & -> & Hafter). apply registration_Ok in Hr as (needs & Hneeds & Hr). exists needs. split; [done|].
  destruct Hr as [(new & -> & He & Hor)|(new & k' & sent & -> & He & -> & Hd & _ & Hreg & Hexit)].
  - left. cbn [app]. unfold registrations. rewrite omap_app. fold (registrations new) (registrations after). rewrite Hafter, app_nil_r.
    split; [apply none_registered; eapply Forall_impl; [exact He|]; by intros []|]. naive_solver.
  - right. split; [done|]. exists new, sent, after, k'. cbn [app] in *. rewrite <- !app_assoc. by split_and!.
Qed.

(** A heartbeat service ends the runner it is added to: its adapter drops the channel it
    returns, so that the first thing the loop hears of it is a failure. *)
Lemma start_services_nth i l h rs h' : start_services i l h = (Ok rs, h') →
  ∀ j s, l !! j = Some s → ∃ past r, rs !! j = Some r ∧ service_start s past = Ok r.
Proof.
  revert i h rs. induction l as [|s l IH]; intros i h rs; [done|]. cbn [start_services].
  intros (r & h1 & [= Hs <-] & (rs' & h2 & Hrs & [= <- <-])%start_bind_Ok)%start_bind_Ok [|j] s' Hj; cbn in Hj |- *.
  - injection Hj as <-. eauto.
  - by eapply IH.
Qed.
Theorem heartbeat_ends_runner k env p c services (l : Loop Ext Fut E X) h i router (faas : FaasRegistry X) :
  prepare k env p c services [] = (Ok (Some l), h) → services !! i = Some HeartbeatAdapter →
  loop_turn router faas l (EvBackground i None) = Some (ends (Err (RBackgroundService "channel closed")) l) ∧
  ∀ r, loop_turn router faas l (EvBackground i (Some r)) = None.
Proof.
  unfold prepare. intros (exit & h1 & _ & H)%start_bind_Ok Hi. destruct exit; [done|].
  apply start_bind_Ok in H as (rs & h2 & Hs & H). apply start_bind_Ok in H as (? & ? & _ & H). apply start_bind_Ok in H as (? & ? & _ & H).
  apply start_bind_Ok in H as (? & ? & _ & [= <- _]). destruct (start_services_nth _ _ _ _ _ Hs i _ Hi) as (past & r & Hr & Hst).
  cbn in Hst. destruct (rw_heartbeat past); [|done]. injection Hst as <-. destruct rs as [|r0 rs]; [done|]. cbn [loop_turn loop_start lp_services].
  by rewrite Hr.
Qed.

(** A dry run sends no registration, whatever else happens. *)
Theorem dry_run_never_registers k env p c services h :
  be_dry_run env = true → registrations (prepare (Ext := Ext) (Fut := Fut) (E := E) (X := X) k env p c services h).2 = registrations h.
Proof.
  intros Hd.
  assert (Ha : adds no_registration (prepare (Ext := Ext) (Fut := Fut) (E := E) (X := X) k env p c services)).
  { apply adds_bind.
    - unfold registration. rewrite Hd. apply adds_bind; [by apply adds_does|]. intros needs. rewrite andb_false_r. cbn [negb].
      destruct (be_registration_mode env); [|apply adds_ret].
      apply adds_bind; [eapply adds_mono; [|apply capture_adds]; by intros []|]. intros inputs.
      apply adds_bind; [destruct inputs as [[]|]; [apply adds_ret|apply adds_pure|apply adds_ret]|]. intros k'.
      destruct (be_registration_capture_only env); [apply adds_ret|]. apply adds_bind; [apply adds_ret|]. intros _. apply adds_ret.
    - intros []; [apply adds_ret|]. apply adds_bind; [apply start_services_adds|]. intros rs. apply adds_bind; [by apply adds_does|]. intros _.
      apply adds_bind; [apply connect_bridge_adds|]. intros b. apply adds_bind; [apply update_tls_adds|]. intros _. apply adds_ret. }
  destruct (Ha h) as (new & -> & Hn). unfold registrations. rewrite omap_app. fold (registrations new). by rewrite (none_registered _ Hn), app_nil_r.
Qed.

End registered.

(** In registration mode an operator registers with what its blueprint wrote: the
    transaction carries the inputs of the file and the identifier of the blueprint. *)
Theorem registers_with_inputs c env h0 exit h sent :
  be_registration_mode env = true → registration c env h0 = (Ok exit, h) → registrations h0 = [] → sent ∈ registrations h →
  ∃ settings key inputs past, settings_tangle (be_protocol_settings env) = Ok settings ∧
    inputs ≠ [] ∧ rw_read past (registration_output_path env) = Ok inputs ∧
    sent = [RegisterOperator0 (tp_blueprint_id settings) key (tc_rpc_address c) inputs].
Proof.
  intros Hmode H H0 Hin. unfold registration in H. rewrite Hmode in H.
  apply start_bind_Ok in H as (needs & h1 & [= Hneeds <-] & H). apply start_bind_Ok in H as (inputs & h2 & Hcap & H).
  destruct (capture_adds env (h0 ++ [AskedRegistration])) as (new & Hn & Hw). rewrite Hcap in Hn. cbn in Hn. subst h2.
  assert (Hnone : registrations ((h0 ++ [AskedRegistration]) ++ new) = []).
  { unfold registrations. rewrite !omap_app. fold (registrations h0) (registrations new). rewrite H0. apply none_registered. eapply Forall_impl; [exact Hw|]. by intros []. }
  apply start_bind_Ok in Hcap as (? & ? & _ & Hcap).
  apply captured in Hcap as (bytes & past & -> & Hb & Hread);
    [|lia|unfold CAPTURE_ROUNDS; lia|unfold REGISTRATION_INPUT_TIMEOUT, CAPTURE_ROUNDS; lia].
  destruct bytes as [|b bs]; [done|]. apply start_bind_Ok in H as (k' & h3 & [= <- <-] & H).
  destruct (be_registration_capture_only env); [injection H as _ <-; rewrite Hnone in Hin; by apply elem_of_nil in Hin|].
  apply start_bind_Ok in H as (? & h4 & Hr & [= _ <-]). destruct (needs && negb (be_dry_run env)); [|injection Hr as _ <-; rewrite Hnone in Hin; by apply elem_of_nil in Hin].
  unfold register_now in Hr. cbn [register_operator tangle_blueprint_config tc_rpc_address tc_inputs set_registration_inputs] in Hr. unfold register_impl in Hr.
  destruct (settings_tangle (be_protocol_settings env)) as [settings|] eqn:Hst; cbn [map_err] in Hr; [|done].
  destruct (register_keys _) as [key|]; [|done]. injection Hr as _ <-.
  revert Hin. unfold registrations. rewrite omap_app. fold (registrations ((h0 ++ [AskedRegistration]) ++ new)). rewrite Hnone. cbn [app omap list_omap].
  intros ->%list_elem_of_singleton. exists settings, key, (b :: bs), past. done.
Qed.

End startup.

(** ** Runs *)

(** A host where everything succeeds *)
#[local] Instance calm_world : RunnerWorld := {|
  rw_create_dir _ _ := Ok tt; rw_read h _ := if (3 <=? length h)%nat then Ok [1; 2; 3] else Err NotFound;
  rw_heartbeat _ := Ok tt; rw_service _ _ := Ok ChannelOpen; rw_connect _ _ := Ok tt; rw_ping _ := Ok tt; rw_update_tls _ _ _ := Ok tt;
  rw_client _ := Ok tt; rw_is_registered _ _ := Ok false; rw_sole_local _ := Ok [4; 5]; rw_secret _ _ := Ok (Some [6]); rw_signer _ := Ok tt;
  rw_provider _ := Ok tt; rw_send _ _ := Ok tt; rw_receipt _ := Ok true;
|}.
Definition calm_env (mode : bool) : BlueprintEnvironment (T := plain_text) :=
  mkEnvironment "http"%string "ws"%string "keys" "/data" (PsTangle (mkTangleSettings 7 (Some 9) 1 2 3)) false false None mode false None "kms"%string [] 0 false false 24 None.
Definition staying : TangleConfig := with_exit_after_register false (tangle_config_new "rpc").

Abbreviation Outcome := (result string (option (JobResult unit))).
Definition echo_router : JobIdRouter unit Outcome unit :=
  default router_default (build router_default [RRoute (JobId_from_number 0) (λ _ c, Ok (Some (JobOk ∅ (body c))))]).
Definition echo_call (n : Z) : JobCall unit := mkJobCall (mkParts (JobId_from_number 0) ∅ tt) [n].
(** Two calls, of which the second ends first *)
Definition echo_events : list (LoopEvent unit Outcome unit) :=
  [EvProducer 0 (Some (Ok (echo_call 10))); EvProducer 1 (Some (Ok (echo_call 20))); EvJob 1 (Ran (λ fs, fs)) AllSent; EvProducer 1 None;
   EvJob 0 (Ran (λ fs, fs)) AllSent].

Definition failing_events : list (LoopEvent unit Outcome unit) := echo_events ++ [EvProducer 0 (Some (Err "node"%string))].

Lemma runner_delivers_witness :
  match loop_run echo_router (∅ : FaasRegistry unit) (loop_start 2 2 []) echo_events with
  | Some (Goes l) => lp_sinks l = replicate 2 (outputs echo_router (∅ : FaasRegistry unit) echo_events)
  | _ => False
  end.
Proof.
  destruct (loop_run echo_router (∅ : FaasRegistry unit) (loop_start 2 2 []) echo_events) as [[l|r l|]|] eqn:Hr; [|vm_compute in Hr; discriminate..].
  exact (proj2 (proj2 (proj2 (proj2 (runner_delivers echo_router (∅ : FaasRegistry unit) 2 2 [] echo_events l Hr))))).
Defined.
Example echo_outputs : outputs echo_router (∅ : FaasRegistry unit) echo_events = [JobOk ∅ [20]; JobOk ∅ [10]].
Proof. vm_compute. reflexivity. Qed.

Definition served : result RunnerError (option (Loop unit Outcome unit unit)) * Past :=
  prepare (T := plain_text) staying (calm_env true) 1 1 [CustomService 0] [].
Lemma runner_ends_witness :
  match finalized_run (T := plain_text) echo_router (∅ : FaasRegistry unit) staying (calm_env true) 2 2 [CustomService 0] [] failing_events with
  | Some (r, Some l) => shutdown_poll (lp_shutdown l) = HandlerCalled
  | _ => False
  end.
Proof.
  destruct (finalized_run (T := plain_text) echo_router (∅ : FaasRegistry unit) staying (calm_env true) 2 2 [CustomService 0] [] failing_events)
    as [[r [l|]]|] eqn:Hr; [|vm_compute in Hr; discriminate..].
  destruct (runner_ends (T := plain_text) echo_router (∅ : FaasRegistry unit) staying (calm_env true) 2 2 [CustomService 0] [] failing_events r (Some l) Hr)
    as (_ & b & ev & _ & _ & _ & H & _). exact H.
Defined.

Lemma serves_registered_witness :
  ∃ l, served.1 = Ok (Some l) ∧ ∃ before sent after, served.2 = before ++ Registering sent :: after ∧ Forall early before ∧ registrations after = [].
Proof.
  eexists. split; [reflexivity|].
  destruct (serves_registered (T := plain_text) staying (calm_env true) 1 1 [CustomService 0] _ served.2 (eq_refl served))
    as (needs & _ & [[H _]|(_ & before & sent & after & k' & H1 & H2 & H3 & _)]).
  - discriminate H.
  - exists before, sent, after. split_and!; [exact H1|exact H2|exact H3].
Defined.

Lemma registers_with_inputs_witness :
  ∃ settings key inputs past, settings_tangle (be_protocol_settings (calm_env true)) = Ok settings ∧
    inputs ≠ [] ∧ rw_read past (registration_output_path (calm_env true)) = Ok inputs ∧
    [RegisterOperator0 7 [4; 5] "rpc" [1; 2; 3]] = [RegisterOperator0 (tp_blueprint_id settings) key (tc_rpc_address staying) inputs].
Proof.
  refine (registers_with_inputs (T := plain_text) staying (calm_env true) [] false (registration (T := plain_text) staying (calm_env true) []).2 _ _ _ _ _);
    [reflexivity|vm_compute; reflexivity|reflexivity|]. apply list_elem_of_singleton. reflexivity.
Defined.

Lemma heartbeat_ends_runner_witness :
  ∃ l, (prepare (T := plain_text) (Ext := unit) (Fut := Outcome) (E := unit) (X := unit) staying (calm_env false) 1 1 [HeartbeatAdapter] []).1 = Ok (Some l) ∧
    loop_turn echo_router (∅ : FaasRegistry unit) l (EvBackground 0 None) = Some (ends (Err (RBackgroundService "channel closed")) l).
Proof.
  eexists. split; [reflexivity|].
  refine (proj1 (heartbeat_ends_runner (T := plain_text) staying (calm_env false) 1 1 [HeartbeatAdapter] _ _ 0 echo_router (∅ : FaasRegistry unit) _ _)); reflexivity.
Defined.
