(* ===== verification/ExecProfile.v ===== *)
(** * Execution profiles ([clients/tangle/src/blueprint_metadata.rs])

    How a blueprint says in its metadata where it may run: the profile is a member of
    a JSON object beside other data.  Parsing and printing JSON text is a parameter;
    the decoding of values is the derived one. *)

From Stdlib Require Import ZArith Lia Ascii.
From stdpp Require Import base gmap sets list sorting strings pretty fin_maps numbers relations.
From S2P Require Import Prelude Bytes Text TeeTypes Launch.

#[local] Open Scope Z_scope.

Definition METADATA_SCHEMA_V1 : string := "tangle.blueprint.metadata.v1".
Definition EXECUTION_PROFILE_KEY : string := "execution_profile".
Definition JOB_PROFILES_BLOB_KEY : string := "job_profiles_b64_gzip".

Inductive ExecutionProfileError := InvalidJson | MetadataNotObject | ExecutionProfileNotObject | InvalidExecutionProfile.

Record ExecutionProfile := mkProfile { ep_confidentiality : ConfidentialityPolicy; ep_gpu : GpuRequirements }.
Definition gpu_default : GpuRequirements := mkGpu GpuNone 0 0.
(** [GpuRequirements::normalized] *)
Definition gpu_normalized (g : GpuRequirements) : GpuRequirements :=
  match gpu_req_policy g with
  | GpuNone => g
  | p => if min_count g =? 0 then mkGpu p 1 (min_vram_gb g) else g
  end.

(** [tee_required], [tee_supported], [standard_required], [gpu_required],
    [gpu_preferred], [needs_gpu] *)
Definition tee_required (p : ExecutionProfile) : bool := match ep_confidentiality p with TeeRequired => true | _ => false end.
Definition tee_supported (p : ExecutionProfile) : bool := match ep_confidentiality p with StandardRequired => false | _ => true end.
Definition standard_required (p : ExecutionProfile) : bool := match ep_confidentiality p with StandardRequired => true | _ => false end.
Definition gpu_required (p : ExecutionProfile) : bool := match gpu_req_policy (ep_gpu p) with GpuRequired => true | _ => false end.
Definition gpu_preferred (p : ExecutionProfile) : bool := match gpu_req_policy (ep_gpu p) with GpuPreferred => true | _ => false end.
Definition needs_gpu (p : ExecutionProfile) : bool := match gpu_req_policy (ep_gpu p) with GpuNone => false | _ => true end.

(** ** Values *)

Abbreviation JsonMap := (list (string * JsonValue)).
(** [Map::insert] *)
Fixpoint object_insert (k : string) (v : JsonValue) (m : JsonMap) : JsonMap :=
  match m with
  | [] => [(k, v)]
  | (k', v') :: m => if bool_decide (k' = k) then (k, v) :: m else (k', v') :: object_insert k v m
  end.

(** A unit variant: its name, or an object of its name and [null] *)
Definition variant_name (v : JsonValue) : option string :=
  match v with VString s => Some s | VObject [(k, VNull)] => Some k | _ => None end.
Definition confidentiality_name (p : ConfidentialityPolicy) : string :=
  match p with CpAny => "any" | TeeRequired => "tee_required" | StandardRequired => "standard_required" | TeePreferred => "tee_preferred" end.
Definition gpu_policy_name (p : GpuPolicy) : string :=
  match p with GpuNone => "none" | GpuRequired => "required" | GpuPreferred => "preferred" end.
Definition confidentiality_from_json (v : JsonValue) : option ConfidentialityPolicy :=
  n ← variant_name v; List.find (λ p, bool_decide (confidentiality_name p = n)) [CpAny; TeeRequired; StandardRequired; TeePreferred].
Definition gpu_policy_from_json (v : JsonValue) : option GpuPolicy :=
  n ← variant_name v; List.find (λ p, bool_decide (gpu_policy_name p = n)) [GpuNone; GpuRequired; GpuPreferred].
Definition u32_from_json (v : JsonValue) : option Z :=
  match v with VNumber n => if (0 <=? n) && (n <=? u32_max) then Some n else None | _ => None end.

(** A field with a default, an optional field, and no others *)
Definition field {A} (m : JsonMap) (k : string) (d : A) (f : JsonValue → option A) : option A :=
  match object_lookup m k with Some v => f v | None => Some d end.
Definition opt_field {A} (m : JsonMap) (k : string) (f : JsonValue → option A) : option (option A) :=
  match object_lookup m k with Some VNull | None => Some None | Some v => x ← f v; Some (Some x) end.
Definition only_fields (ks : list string) (m : JsonMap) : bool := forallb (λ e : string * JsonValue, bool_decide (e.1 ∈ ks)) m.

Definition gpu_from_json (v : JsonValue) : option GpuRequirements :=
  match v with
  | VObject m =>
      if only_fields ["policy"; "min_count"; "min_vram_gb"]%string m then
        p ← field m "policy" GpuNone gpu_policy_from_json;
        c ← field m "min_count" 0 u32_from_json;
        r ← field m "min_vram_gb" 0 u32_from_json;
        Some (mkGpu p c r)
      else None
  | _ => None
  end.
(** [RawExecutionProfile] *)
Definition raw_profile_from_json (m : JsonMap) : option (option ConfidentialityPolicy * option GpuRequirements) :=
  if only_fields ["confidentiality"; "gpu"]%string m then
    c ← opt_field m "confidentiality" confidentiality_from_json;
    g ← opt_field m "gpu" gpu_from_json;
    Some (c, g)
  else None.

(** [profile_to_value] *)
Definition gpu_to_json (g : GpuRequirements) : JsonValue :=
  VObject [("policy", VString (gpu_policy_name (gpu_req_policy g))); ("min_count", VNumber (min_count g)); ("min_vram_gb", VNumber (min_vram_gb g))]%string.
Definition profile_to_value (p : ExecutionProfile) : JsonValue :=
  VObject (("confidentiality"%string, VString (confidentiality_name (ep_confidentiality p))) ::
           match gpu_req_policy (ep_gpu p) with GpuNone => [] | _ => [("gpu"%string, gpu_to_json (ep_gpu p))] end).

(** ** The payload *)

Class JsonText := { json_parse : string → option JsonValue; json_print : JsonValue → string }.
(** Printed text parses back, and has no space around it. *)
Class JsonTextLaws (T : JsonText) := {
  json_round_trip v : json_parse (json_print v) = Some v;
  json_print_trim v : trim (json_print v) = json_print v;
  json_print_nonempty v : json_print v ≠ ""%string;
}.

Section payload.
  Context `{T : JsonText}.

(** [resolve_execution_profile_from_profiling_data] *)
Definition resolve_execution_profile (profiling_data : string) : result ExecutionProfileError (option ExecutionProfile) :=
  let trimmed := trim profiling_data in
  if bool_decide (trimmed = ""%string) then Ok None
  else match json_parse trimmed with
  | None => Err InvalidJson
  | Some (VObject root) =>
      match object_lookup root EXECUTION_PROFILE_KEY with
      | None => Ok None
      | Some (VObject m) =>
          match raw_profile_from_json m with
          | None => Err InvalidExecutionProfile
          | Some (c, g) => Ok (Some (mkProfile (default CpAny c) (gpu_normalized (default gpu_default g))))
          end
      | Some _ => Err ExecutionProfileNotObject
      end
  | Some _ => Err MetadataNotObject
  end.

(** [resolve_gpu_requirements], [resolve_confidentiality_policy] *)
Definition resolve_gpu_requirements (data : string) : result ExecutionProfileError (option GpuRequirements) :=
  option_map ep_gpu <$> resolve_execution_profile data.
Definition resolve_confidentiality_policy (data : string) : result ExecutionProfileError (option ConfidentialityPolicy) :=
  option_map ep_confidentiality <$> resolve_execution_profile data.

(** [upsert_execution_profile], [default_metadata_payload], [inject_execution_profile] *)
Definition upsert_execution_profile (root : JsonMap) (p : ExecutionProfile) : JsonMap :=
  object_insert EXECUTION_PROFILE_KEY (profile_to_value p) (object_insert "schema" (VString METADATA_SCHEMA_V1) root).
Definition default_metadata_payload (p : ExecutionProfile) : JsonMap :=
  [("schema"%string, VString METADATA_SCHEMA_V1); (EXECUTION_PROFILE_KEY, profile_to_value p)].
Definition wrapped_payload (p : ExecutionProfile) (blob : string) : JsonMap :=
  [("schema"%string, VString METADATA_SCHEMA_V1); (EXECUTION_PROFILE_KEY, profile_to_value p); (JOB_PROFILES_BLOB_KEY, VString blob)].
Definition foreign_schema (root : JsonMap) : bool :=
  match object_lookup root "schema" with Some (VString s) => negb (bool_decide (s = METADATA_SCHEMA_V1)) | _ => false end.
Definition inject_root (profiling_data : string) (p : ExecutionProfile) : JsonMap :=
  let trimmed := trim profiling_data in
  if bool_decide (trimmed = ""%string) then default_metadata_payload p
  else match json_parse trimmed with
  | Some (VObject root) => if foreign_schema root then wrapped_payload p trimmed else upsert_execution_profile root p
  | _ => wrapped_payload p trimmed
  end.
Definition inject_execution_profile (profiling_data : string) (p : ExecutionProfile) : string :=
  json_print (VObject (inject_root profiling_data p)).

(** [extract_job_profiles_blob] *)
Definition extract_job_profiles_blob (profiling_data : string) : option string :=
  let trimmed := trim profiling_data in
  if bool_decide (trimmed = ""%string) then None
  else v ← json_parse trimmed; x ← json_get v JOB_PROFILES_BLOB_KEY; json_as_str x.

End payload.

(** ** Properties *)

Lemma object_lookup_cons k v m k' :
  object_lookup ((k, v) :: m) k' = if decide (k = k') then Some v else object_lookup m k'.
Proof.
  unfold object_lookup. cbn. destruct (decide (k = k')) as [->|Hk]; [done|].
  destruct (list_find (λ p : string * JsonValue, p.1 = k') m) as [[i [k0 v0]]|]; done.
Qed.
Lemma object_lookup_insert k v m k' : object_lookup (object_insert k v m) k' = if decide (k = k') then Some v else object_lookup m k'.
Proof.
  induction m as [|[k0 v0] m IH]; cbn [object_insert]; [apply object_lookup_cons|].
  case_bool_decide as Hk; [subst; rewrite !object_lookup_cons; by destruct (decide _)|]. rewrite !object_lookup_cons, IH.
  destruct (decide (k0 = k')) as [<-|]; [|done]. by rewrite decide_False.
Qed.

Section proofs.
  Context `{T : JsonText} `{TL : !JsonTextLaws T}.

(** What comes back of a profile: requirements without a policy are dropped *)
Definition profile_kept (p : ExecutionProfile) : ExecutionProfile :=
  mkProfile (ep_confidentiality p) (match gpu_req_policy (ep_gpu p) with GpuNone => gpu_default | _ => gpu_normalized (ep_gpu p) end).

Lemma resolve_printed root :
  resolve_execution_profile (json_print (VObject root)) =
    match object_lookup root EXECUTION_PROFILE_KEY with
    | None => Ok None
    | Some (VObject m) =>
        match raw_profile_from_json m with
        | None => Err InvalidExecutionProfile
        | Some (c, g) => Ok (Some (mkProfile (default CpAny c) (gpu_normalized (default gpu_default g))))
        end
    | Some _ => Err ExecutionProfileNotObject
    end.
Proof.
  unfold resolve_execution_profile. rewrite json_print_trim, bool_decide_eq_false_2 by apply json_print_nonempty. by rewrite json_round_trip.
Qed.

Lemma u32_json_round n : is_u32 n → u32_from_json (VNumber n) = Some n.
Proof. unfold is_u32, u32_from_json, u32_max. intros H. by rewrite (proj2 (Z.leb_le _ _)), (proj2 (Z.leb_le _ _)) by lia. Qed.

Lemma confidentiality_json_round c : confidentiality_from_json (VString (confidentiality_name c)) = Some c.
Proof. by destruct c. Qed.

Lemma gpu_json_round g : is_u32 (min_count g) → is_u32 (min_vram_gb g) → gpu_from_json (gpu_to_json g) = Some g.
Proof.
  destruct g as [gp n r]. cbn [min_count min_vram_gb]. intros Hn Hr. unfold gpu_from_json, gpu_to_json. cbn [gpu_req_policy min_count min_vram_gb].
  set (m := [_; _; _] : JsonMap). assert (only_fields ["policy"; "min_count"; "min_vram_gb"]%string m = true) as -> by reflexivity. unfold field.
  assert (object_lookup m "policy" = Some (VString (gpu_policy_name gp))) as -> by reflexivity.
  assert (object_lookup m "min_count" = Some (VNumber n)) as -> by reflexivity.
  assert (object_lookup m "min_vram_gb" = Some (VNumber r)) as -> by reflexivity.
  assert (gpu_policy_from_json (VString (gpu_policy_name gp)) = Some gp) as -> by (by destruct gp).
  by rewrite !u32_json_round.
Qed.

Lemma raw_profile_round p :
  is_u32 (min_count (ep_gpu p)) → is_u32 (min_vram_gb (ep_gpu p)) →
  ∃ m, profile_to_value p = VObject m ∧
    raw_profile_from_json m = Some (Some (ep_confidentiality p), match gpu_req_policy (ep_gpu p) with GpuNone => None | _ => Some (ep_gpu p) end).
Proof.
  intros Hc Hv. unfold profile_to_value. eexists. split; [reflexivity|]. unfold raw_profile_from_json, opt_field.
  pose proof (gpu_json_round (ep_gpu p) Hc Hv) as Hg. destruct (gpu_req_policy (ep_gpu p)).
  - change (only_fields _ _) with true. change (object_lookup _ "confidentiality") with (Some (VString (confidentiality_name (ep_confidentiality p)))).
    change (object_lookup _ "gpu") with (@None JsonValue). cbn iota. by rewrite confidentiality_json_round.
  - change (only_fields _ _) with true. change (object_lookup _ "confidentiality") with (Some (VString (confidentiality_name (ep_confidentiality p)))).
    change (object_lookup _ "gpu") with (Some (gpu_to_json (ep_gpu p))). cbn iota. by rewrite confidentiality_json_round, Hg.
  - change (only_fields _ _) with true. change (object_lookup _ "confidentiality") with (Some (VString (confidentiality_name (ep_confidentiality p)))).
    change (object_lookup _ "gpu") with (Some (gpu_to_json (ep_gpu p))). cbn iota. by rewrite confidentiality_json_round, Hg.
Qed.

Lemma inject_root_profile data p : object_lookup (inject_root data p) EXECUTION_PROFILE_KEY = Some (profile_to_value p).
Proof.
  unfold inject_root. case_bool_decide; [done|]. destruct (json_parse _) as [[]|]; try done.
  destruct (foreign_schema m); [done|]. unfold upsert_execution_profile. by rewrite object_lookup_insert, decide_True.
Qed.

Lemma extract_printed root :
  extract_job_profiles_blob (json_print (VObject root)) = (x ← object_lookup root JOB_PROFILES_BLOB_KEY; json_as_str x).
Proof.
  unfold extract_job_profiles_blob. rewrite json_print_trim, bool_decide_eq_false_2 by apply json_print_nonempty. by rewrite json_round_trip.
Qed.

(** The job profiles that a payload carries, in whichever form *)
Definition carried_profiles (data : string) : option string :=
  if bool_decide (trim data = ""%string) then None
  else match json_parse (trim data) with
  | Some (VObject root) => if foreign_schema root then Some (trim data) else x ← object_lookup root JOB_PROFILES_BLOB_KEY; json_as_str x
  | _ => Some (trim data)
  end.

(** The members a payload has beside the profile and the schema: those of metadata of
    this schema; of anything else, the payload itself as job profiles *)
Definition carried_members (data : string) : JsonMap :=
  if bool_decide (trim data = ""%string) then []
  else match json_parse (trim data) with
  | Some (VObject root) => if foreign_schema root then [(JOB_PROFILES_BLOB_KEY, VString (trim data))] else root
  | _ => [(JOB_PROFILES_BLOB_KEY, VString (trim data))]
  end.

Lemma inject_root_members data p k :
  k ≠ "schema"%string → k ≠ EXECUTION_PROFILE_KEY → object_lookup (inject_root data p) k = object_lookup (carried_members data) k.
Proof.
  intros Hs He. assert (∀ m, object_lookup (("schema"%string, VString METADATA_SCHEMA_V1) :: (EXECUTION_PROFILE_KEY, profile_to_value p) :: m) k = object_lookup m k) as Hm
    by (intros m; by rewrite !object_lookup_cons, !decide_False by congruence).
  unfold inject_root, carried_members. case_bool_decide; [apply Hm|]. destruct (json_parse (trim data)) as [[]|]; try apply Hm.
  destruct (foreign_schema m); [apply Hm|]. unfold upsert_execution_profile. by rewrite !object_lookup_insert, !decide_False by congruence.
Qed.
Lemma inject_root_schema data p : object_lookup (inject_root data p) "schema" = Some (VString METADATA_SCHEMA_V1).
Proof.
  unfold inject_root. case_bool_decide; [done|]. destruct (json_parse _) as [[]|]; try done.
  destruct (foreign_schema m); [done|]. unfold upsert_execution_profile. by rewrite !object_lookup_insert, decide_False, decide_True.
Qed.

(** C32. A profile with 32-bit GPU numbers, put into a blueprint's metadata, whatever that
    held, is read back as [profile_kept]: the same confidentiality and GPU policy, a GPU
    count of 1 where it was 0 and GPUs are asked for, and no GPU numbers where none are.
    The result is metadata of this schema, and every other member of it is as before: all
    members of metadata of this schema are kept, and a payload that is not such is kept
    whole as the job profiles, which can be read. *)
Theorem execution_profile_round_trip data p :
  is_u32 (min_count (ep_gpu p)) → is_u32 (min_vram_gb (ep_gpu p)) →
  resolve_execution_profile (inject_execution_profile data p) = Ok (Some (profile_kept p)) ∧
  extract_job_profiles_blob (inject_execution_profile data p) = carried_profiles data ∧
  ∃ root, json_parse (inject_execution_profile data p) = Some (VObject root) ∧
    object_lookup root "schema" = Some (VString METADATA_SCHEMA_V1) ∧
    (∀ k, k ≠ "schema"%string → k ≠ EXECUTION_PROFILE_KEY → object_lookup root k = object_lookup (carried_members data) k).
Proof.
  intros Hc Hv. unfold inject_execution_profile. split_and!.
  - rewrite resolve_printed, inject_root_profile. destruct (raw_profile_round p Hc Hv) as (m & -> & ->).
    unfold profile_kept. by destruct (gpu_req_policy (ep_gpu p)).
  - rewrite extract_printed. unfold inject_root, carried_profiles. case_bool_decide; [done|].
    destruct (json_parse (trim data)) as [[]|]; try done. destruct (foreign_schema m); [done|].
    unfold upsert_execution_profile. by rewrite !object_lookup_insert, !decide_False.
  - eexists. rewrite json_round_trip. split; [reflexivity|]. split; [apply inject_root_schema|]. intros k. apply inject_root_members.
Qed.

(** Metadata that is there but cannot be understood is an error: a blueprint's
    requirement is never taken for none. *)
Lemma unreadable_profile_refused data :
  trim data ≠ ""%string → json_parse (trim data) = None → resolve_execution_profile data = Err InvalidJson.
Proof. intros He Hp. unfold resolve_execution_profile. by rewrite bool_decide_eq_false_2, Hp. Qed.

End proofs.

(** ** A run *)

(** A printer of values that can be read back: the binary text of the code of a tree *)
Fixpoint json_tree (v : JsonValue) : gen_tree (bool + Z + string) :=
  match v with
  | VNull => GenNode 0 []
  | VBool b => GenLeaf (inl (inl b))
  | VNumber n => GenLeaf (inl (inr n))
  | VString s => GenLeaf (inr s)
  | VReal s => GenNode 1 [GenLeaf (inr s)]
  | VArray l => GenNode 2 (map json_tree l)
  | VObject m => GenNode 3 (map (λ kv, GenNode 4 [GenLeaf (inr kv.1); json_tree kv.2]) m)
  end.
Fixpoint tree_json (t : gen_tree (bool + Z + string)) : JsonValue :=
  match t with
  | GenLeaf (inl (inl b)) => VBool b
  | GenLeaf (inl (inr n)) => VNumber n
  | GenLeaf (inr s) => VString s
  | GenNode 1 [GenLeaf (inr s)] => VReal s
  | GenNode 2 l => VArray (map tree_json l)
  | GenNode 3 l => VObject (map (λ t, match t with GenNode _ [GenLeaf (inr k); v] => (k, tree_json v) | _ => (EmptyString, VNull) end) l)
  | _ => VNull
  end.
Lemma tree_json_tree v : tree_json (json_tree v) = v.
Proof.
  revert v. fix IH 1. intros [| | | | |l|m]; try reflexivity; cbn [json_tree tree_json]; f_equal.
  - induction l as [|x l IHl]; [reflexivity|]. cbn. rewrite IH, IHl. reflexivity.
  - induction m as [|[k x] m IHm]; [reflexivity|]. cbn. rewrite IH, IHm. reflexivity.
Qed.
Fixpoint bits_text (p : positive) : string :=
  match p with xH => "." | xO p => String "0" (bits_text p) | xI p => String "1" (bits_text p) end.
Fixpoint text_bits (s : string) : option positive :=
  match s with
  | EmptyString => None
  | String a s => if bool_decide (a = "."%char) then Some xH else if bool_decide (a = "0"%char) then xO <$> text_bits s else xI <$> text_bits s
  end.
Lemma text_bits_text p : text_bits (bits_text p) = Some p.
Proof. induction p as [p IH|p IH|]; cbn; by rewrite ?IH. Qed.
Lemma trim_bits_text p : trim (bits_text p) = bits_text p.
Proof.
  unfold trim. assert (Ht : trim_end (bits_text p) = bits_text p ∧ bits_text p ≠ ""%string).
  { induction p as [p [IH Hn]|p [IH Hn]|]; [| |done]; (split; [|done]); cbn; rewrite IH; by destruct (bits_text p). }
  assert (trim_start (bits_text p) = bits_text p) as -> by (by destruct p). apply Ht.
Qed.
#[export] Instance toy_json_text : JsonText := {|
  json_parse s := p ← text_bits s; t ← decode p; Some (tree_json t);
  json_print v := bits_text (encode (json_tree v));
|}.
#[export] Instance toy_json_text_laws : JsonTextLaws toy_json_text.
Proof.
  split; intros v; cbn [json_parse json_print toy_json_text].
  - rewrite text_bits_text. cbn [mbind option_bind]. rewrite decode_encode. cbn. by rewrite tree_json_tree.
  - apply trim_bits_text.
  - by destruct (encode (json_tree v)).
Qed.

Lemma execution_profile_round_trip_witness :
  resolve_execution_profile (inject_execution_profile "H4sIAAAA" (mkProfile TeeRequired (mkGpu GpuRequired 0 24)))
    = Ok (Some (mkProfile TeeRequired (mkGpu GpuRequired 1 24))) ∧
  extract_job_profiles_blob (inject_execution_profile "H4sIAAAA" (mkProfile TeeRequired (mkGpu GpuRequired 0 24))) = Some "H4sIAAAA"%string.
Proof.
  destruct (execution_profile_round_trip "H4sIAAAA" (mkProfile TeeRequired (mkGpu GpuRequired 0 24))) as (H1 & H2 & _); [done|done|].
  split; [exact H1|]. rewrite H2. vm_compute. reflexivity.
Defined.
