(* ===== verification/SshDeploy.v ===== *)
(** * Deployment over SSH ([blueprint-remote-providers/src/deployment/ssh],
      [secure_ssh.rs], [secure_commands.rs])

    The client of a host: every operation is a sequence of commands that the local shell
    runs.  The history of what was run is the state; the class [RemoteWorld] is the
    world that answers, with an answer that may depend on the whole history. *)

From Stdlib Require Import ZArith Lia Ascii SpecFloat.
From stdpp Require Import base gmap sets list sorting strings pretty fin_maps numbers relations.
From S2P Require Import Prelude Bytes Text Float Shell TeeTypes ExecProfile.

#[local] Open Scope Z_scope.

(** ** Data *)

(** [core/resources.rs]: the parts of a specification that deployments use *)
Record ResourceSpec := mkSpec { rs_cpu : f32; rs_memory_gb : f32; rs_storage_gb : f32; rs_gpu_count : option Z; rs_allow_spot : bool }.
Definition spec_basic : ResourceSpec := mkSpec (f32_of 2) (f32_of 4) (f32_of 20) None false.
(** [ssh/types.rs] *)
Record SshConnection := mkConnection {
  sc_host : string; sc_port : Z; sc_user : string; sc_key_path : option string; sc_password : option string; sc_jump_host : option string;
}.
Inductive ContainerRuntime := Docker | Podman | Containerd.
#[export] Instance ContainerRuntime_eq_dec : EqDecision ContainerRuntime.
Proof. solve_decision. Defined.
Inductive RestartPolicy := Always | OnFailure | Never.
Record HealthCheck := mkHealthCheck { hc_command : string; hc_interval : Z; hc_timeout : Z; hc_retries : Z }.
Record DeploymentConfig := mkDeployConfig {
  dc_name : string; dc_namespace : string; dc_restart_policy : RestartPolicy; dc_health_check : option HealthCheck;
}.
Record ResourceLimits := mkLimits { rl_cpu_cores : option f64; rl_memory_mb : option Z; rl_disk_gb : option f64; rl_network_bandwidth_mbps : option Z }.
(** [ResourceLimits::from_spec]; a number of 32 bits is one of 64 bits as it is *)
Definition trunc_as_u64 (x : spec_float) : Z := float_as_u64 (λ s m e, if s then 0 else float_floor s m e) x.
Definition limits_from_spec (spec : ResourceSpec) : ResourceLimits :=
  mkLimits (Some (rs_cpu spec)) (Some (trunc_as_u64 (f32_mul (rs_memory_gb spec) (f32_of 1024)))) (Some (rs_storage_gb spec)) (Some 1000).
Record ContainerDetails := mkDetails { cd_status : string; cd_ports : gmap string string }.
Record RemoteDeployment := mkRemoteDeployment {
  rd_host : string; rd_container_id : string; rd_runtime : ContainerRuntime; rd_status : string; rd_ports : gmap string string;
  rd_resource_limits : ResourceLimits;
}.
Record NativeDeployment := mkNative { nd_host : string; nd_service_name : string; nd_config_path : string; nd_status : string }.
(** [monitoring/health.rs] *)
Inductive HealthStatus := Healthy | Degraded | Unhealthy | HealthUnknown.
#[export] Instance HealthStatus_eq_dec : EqDecision HealthStatus.
Proof. solve_decision. Defined.

Record SshDeploymentClient := mkClient {
  cl_ssh : SecureSshConnection; cl_connection : SshConnection; cl_runtime : ContainerRuntime; cl_config : DeploymentConfig;
}.

(** ** The world *)

(** What was run on this machine: texts for the shell, a configuration file written and
    copied, requests to a health endpoint *)
Inductive Event := ShRun (text : string) | WroteTemp (content : string) | SudoCp (target : string) | HttpGet (url : string).
Record ShOutput := mkShOutput { so_success : bool; so_stdout : string; so_stderr : string }.
Class RemoteWorld := {
  sh_answer : list Event → string → result string ShOutput;
  file_exists : list Event → string → bool;
  write_answer : list Event → string → result string unit;
  cp_answer : list Event → string → result string ShOutput;
  http_answer : list Event → string → option Z;
  utc_seconds : list Event → Z;
  utc_text : list Event → string;
}.
(** Printing and parsing of numbers and times by the standard library and [chrono] *)
Class NumberText := { show_float : f32 → string; read_f64 : string → option f64; json_real : f64 → string; read_rfc3339 : string → option Z }.

Definition Remote (A : Type) : Type := list Event → result RemoteError A * list Event.
#[export] Instance remote_ret : MRet Remote := λ A a h, (Ok a, h).
#[export] Instance remote_bind : MBind Remote := λ A B f m h, let '(r, h) := m h in match r with Ok a => f a h | Err e => (Err e, h) end.
Definition fails {A} (e : RemoteError) : Remote A := λ h, (Err e, h).
Definition pure_of {A} (r : result RemoteError A) : Remote A := λ h, (r, h).
(** A result that is looked at *)
Definition try_of {A} (m : Remote A) : Remote (result RemoteError A) := λ h, let '(r, h) := m h in (Ok r, h).
Definition asks {A} (f : list Event → A) : Remote A := λ h, (Ok (f h), h).

(** ** Texts *)

(** [str::replace] *)
Fixpoint replace_upto (fuel : nat) (p r s : string) : string :=
  match fuel with
  | O => s
  | S fuel =>
      match strip_prefix p s with
      | Some rest => r +:+ replace_upto fuel p r rest
      | None => match s with EmptyString => EmptyString | String a s => String a (replace_upto fuel p r s) end
      end
  end.
Definition replace (p r s : string) : string := replace_upto (String.length s) p r s.
Definition q : string := String (ascii_of_N 34) EmptyString.
(** The lines of a text with their line breaks between them *)
Fixpoint script (l : list string) : string :=
  match l with [] => EmptyString | [x] => x | x :: l => x +:+ String newline (script l) end.

(** *** The scripts of the client *)

Definition docker_script : string := script
  ["";
   "                # Add Docker's official GPG key and repository";
   "                sudo apt-get update";
   "                sudo apt-get install -y ca-certificates curl gnupg";
   "                sudo install -m 0755 -d /etc/apt/keyrings";
   "                curl -fsSL https://download.docker.com/linux/ubuntu/gpg | sudo gpg --dearmor -o /etc/apt/keyrings/docker.gpg";
   "                sudo chmod a+r /etc/apt/keyrings/docker.gpg";
   "";
   "                # Add Docker repository";
   "                echo \";
   "                  " +:+ q +:+ "deb [arch=$(dpkg --print-architecture) signed-by=/etc/apt/keyrings/docker.gpg] https://download.docker.com/linux/ubuntu \";
   "                  $(. /etc/os-release && echo " +:+ q +:+ "$VERSION_CODENAME" +:+ q +:+ ") stable" +:+ q +:+ " | \";
   "                  sudo tee /etc/apt/sources.list.d/docker.list > /dev/null";
   "";
   "                # Install Docker from official repository";
   "                sudo apt-get update";
   "                sudo apt-get install -y docker-ce docker-ce-cli containerd.io docker-buildx-plugin docker-compose-plugin";
   "                sudo usermod -aG docker $USER";
   "                sudo systemctl enable docker";
   "                sudo systemctl start docker";
   "                "]%string.

Definition podman_script : string := script
  ["";
   "                sudo apt-get update";
   "                sudo apt-get install -y podman";
   "                "]%string.

Definition containerd_script : string := script
  ["";
   "                sudo apt-get update";
   "                sudo apt-get install -y containerd";
   "                sudo systemctl enable containerd";
   "                sudo systemctl start containerd";
   "                "]%string.

Definition runtime_script : string := script
  ["";
   "        # Download binary and checksum";
   "        curl -L https://github.com/tangle-network/blueprint/releases/latest/download/blueprint-runtime -o /tmp/blueprint-runtime";
   "        curl -L https://github.com/tangle-network/blueprint/releases/latest/download/blueprint-runtime.sha256 -o /tmp/blueprint-runtime.sha256";
   "";
   "        # Verify SHA256 checksum";
   "        cd /tmp";
   "        if ! sha256sum -c blueprint-runtime.sha256 2>/dev/null; then";
   "            echo " +:+ q +:+ "ERROR: Checksum verification failed for blueprint-runtime" +:+ q +:+ " >&2";
   "            rm -f blueprint-runtime blueprint-runtime.sha256";
   "            exit 1";
   "        fi";
   "";
   "        # Install verified binary";
   "        chmod +x /tmp/blueprint-runtime";
   "        sudo mv /tmp/blueprint-runtime /opt/blueprint/bin/";
   "        rm -f /tmp/blueprint-runtime.sha256";
   "";
   "        # Create systemd service";
   "        sudo tee /etc/systemd/system/blueprint-runtime.service > /dev/null <<EOF";
   "        [Unit]";
   "        Description=Blueprint Runtime";
   "        After=network.target";
   "";
   "        [Service]";
   "        Type=simple";
   "        User=blueprint";
   "        WorkingDirectory=/opt/blueprint";
   "        ExecStart=/opt/blueprint/bin/blueprint-runtime";
   "        Restart=always";
   "        RestartSec=10";
   "";
   "        [Install]";
   "        WantedBy=multi-user.target";
   "        EOF";
   "";
   "        # Create blueprint user";
   "        sudo useradd -r -s /bin/false blueprint || true";
   "        sudo chown -R blueprint:blueprint /opt/blueprint";
   "";
   "        # Enable and start service";
   "        sudo systemctl daemon-reload";
   "        sudo systemctl enable blueprint-runtime";
   "        sudo systemctl start blueprint-runtime";
   "        "]%string.

Definition github_script (archive_url sha binary_name env_file cpu_quota mem_mb : string) : string := script
  ["";
   "set -eu";
   "sudo mkdir -p /opt/blueprint/bin /opt/blueprint/config /opt/blueprint/data /opt/blueprint/logs";
   "";
   "# Download archive and verify checksum BEFORE extraction.";
   "cd /tmp";
   "sudo rm -f blueprint-archive";
   "curl -sSL -o blueprint-archive '" +:+ archive_url +:+ "'";
   "ACTUAL_SHA=$(sha256sum blueprint-archive | awk '{print $1}')";
   "if [ " +:+ q +:+ "$ACTUAL_SHA" +:+ q +:+ " != " +:+ q +:+ sha +:+ q +:+ " ]; then";
   "    echo " +:+ q +:+ "ERROR: sha256 mismatch: got $ACTUAL_SHA expected " +:+ sha +:+ q +:+ " >&2";
   "    sudo rm -f blueprint-archive";
   "    exit 1";
   "fi";
   "";
   "# Extract — support tar.xz, tar.gz, zip, or raw binary.";
   "case " +:+ q +:+ archive_url +:+ q +:+ " in";
   "    *.tar.xz) sudo tar -xJf blueprint-archive -C /tmp ;;";
   "    *.tar.gz|*.tgz) sudo tar -xzf blueprint-archive -C /tmp ;;";
   "    *.zip) sudo unzip -o blueprint-archive -d /tmp ;;";
   "    *) sudo cp blueprint-archive /tmp/" +:+ binary_name +:+ " ;;";
   "esac";
   "";
   "# Locate the binary within extracted files.";
   "BINARY_PATH=$(find /tmp -name '" +:+ binary_name +:+ "' -type f -executable -print -quit 2>/dev/null || find /tmp -name '" +:+ binary_name +:+ "' -type f -print -quit)";
   "if [ -z " +:+ q +:+ "$BINARY_PATH" +:+ q +:+ " ]; then";
   "    echo " +:+ q +:+ "ERROR: binary '" +:+ binary_name +:+ "' not found after extraction" +:+ q +:+ " >&2";
   "    exit 1";
   "fi";
   "";
   "sudo install -m 0755 " +:+ q +:+ "$BINARY_PATH" +:+ q +:+ " /opt/blueprint/bin/" +:+ binary_name;
   "sudo rm -rf /tmp/blueprint-archive";
   "";
   "# Write environment file.";
   "sudo tee /opt/blueprint/config/blueprint.env > /dev/null <<'ENVEOF'";
   env_file;
   "ENVEOF";
   "sudo chmod 0600 /opt/blueprint/config/blueprint.env";
   "";
   "# Create blueprint user (idempotent).";
   "sudo useradd -r -s /bin/false -d /opt/blueprint blueprint 2>/dev/null || true";
   "sudo chown -R blueprint:blueprint /opt/blueprint";
   "";
   "# Write systemd unit.";
   "sudo tee /etc/systemd/system/blueprint-runtime.service > /dev/null <<'UNITEOF'";
   "[Unit]";
   "Description=Tangle Blueprint Runtime (" +:+ binary_name +:+ ")";
   "After=network-online.target";
   "Wants=network-online.target";
   "";
   "[Service]";
   "Type=simple";
   "User=blueprint";
   "WorkingDirectory=/opt/blueprint";
   "EnvironmentFile=/opt/blueprint/config/blueprint.env";
   "ExecStart=/opt/blueprint/bin/" +:+ binary_name +:+ " run";
   "Restart=always";
   "RestartSec=5";
   "CPUQuota=" +:+ cpu_quota +:+ "%";
   "MemoryMax=" +:+ mem_mb +:+ "M";
   "StandardOutput=append:/opt/blueprint/logs/stdout.log";
   "StandardError=append:/opt/blueprint/logs/stderr.log";
   "";
   "[Install]";
   "WantedBy=multi-user.target";
   "UNITEOF";
   "";
   "sudo systemctl daemon-reload";
   "sudo systemctl enable blueprint-runtime";
   "sudo systemctl restart blueprint-runtime";
   "sleep 2";
   "sudo systemctl is-active blueprint-runtime";
   ""]%string.

Definition limits_script (cpu_quota mem_mb : string) : string := script
  ["";
   "            sudo mkdir -p /etc/systemd/system/blueprint-runtime.service.d";
   "            sudo tee /etc/systemd/system/blueprint-runtime.service.d/limits.conf > /dev/null <<EOF";
   "            [Service]";
   "            CPUQuota=" +:+ cpu_quota +:+ "%";
   "            MemoryMax=" +:+ mem_mb +:+ "M";
   "            TasksMax=" +:+ "1000";
   "            EOF";
   "            "]%string.

Definition nginx_config (new_container_name : string) : string := script
  ["";
   "upstream backend {";
   "    server " +:+ new_container_name +:+ ":8080;";
   "}";
   "";
   "server {";
   "    listen 80;";
   "    location / {";
   "        proxy_pass http://backend;";
   "        proxy_set_header Host $host;";
   "        proxy_set_header X-Real-IP $remote_addr;";
   "    }";
   "}";
   ""]%string.

Definition service_unit (service_name remote_binary_path env_section : string) : string := script
  ["";
   "[Unit]";
   "Description=Blueprint Service: " +:+ service_name;
   "After=network.target";
   "";
   "[Service]";
   "Type=simple";
   "ExecStart=" +:+ remote_binary_path;
   "Restart=always";
   "RestartSec=10";
   "User=blueprint";
   "Group=blueprint";
   "WorkingDirectory=/opt/blueprint";
   env_section;
   "";
   "[Install]";
   "WantedBy=multi-user.target";
   ""]%string.

Definition limited_unit (service_name remote_path env_section cpu_quota mem_mb : string) : string := script
  ["";
   "[Unit]";
   "Description=Blueprint Service: " +:+ service_name;
   "After=network.target";
   "";
   "[Service]";
   "Type=simple";
   "ExecStart=" +:+ remote_path;
   "Restart=always";
   "RestartSec=10";
   "User=blueprint";
   "Group=blueprint";
   "WorkingDirectory=/opt/blueprint";
   env_section;
   "CPUQuota=" +:+ cpu_quota +:+ "%";
   "MemoryMax=" +:+ mem_mb +:+ "M";
   "TasksMax=1000";
   "";
   "[Install]";
   "WantedBy=multi-user.target";
   ""]%string.

(** ** The client *)

Section client.
  Context `{SE : ShellEscape} `{W : RemoteWorld} `{NT : NumberText} `{JT : JsonText}.

(** [SecureSshClient::run_remote_command], [copy_files] *)
Definition sh_run (text : string) : Remote (result string ShOutput) := λ h, (Ok (sh_answer h text), h ++ [ShRun text]).
Definition ssh_run (c : SecureSshConnection) (command : string) : Remote string :=
  pure_of (validate_command command) ≫= λ _,
  sh_run (build_secure_ssh_command c command) ≫= λ r,
  match r with
  | Err e => fails (ConfigurationError ("SSH command failed: " +:+ e))
  | Ok o => if so_success o then mret (so_stdout o) else fails (ConfigurationError ("Remote command failed: " +:+ so_stderr o))
  end.
Definition ssh_copy (c : SecureSshConnection) (local_path remote_path : string) : Remote unit :=
  asks (λ h, file_exists h) ≫= λ ex,
  pure_of (validate_local_path ex local_path) ≫= λ _,
  pure_of (validate_remote_path remote_path) ≫= λ _,
  sh_run (build_secure_scp_command c local_path remote_path) ≫= λ r,
  match r with
  | Err e => fails (ConfigurationError ("SCP failed: " +:+ e))
  | Ok o => if so_success o then mret tt else fails (ConfigurationError ("File copy failed: " +:+ so_stderr o))
  end.

(** [SshDeploymentClient]'s own *)
Definition run_remote_command (cl : SshDeploymentClient) (command : string) : Remote string := ssh_run (cl_ssh cl) command.
Definition copy_files (cl : SshDeploymentClient) (local_path remote_path : string) : Remote unit := ssh_copy (cl_ssh cl) local_path remote_path.
Definition runtime_str (rt : ContainerRuntime) : string := match rt with Docker => "docker" | Podman => "podman" | Containerd => "ctr" end.

(** [install_runtime], [verify_runtime], [test_connection] *)
Definition install_runtime (cl : SshDeploymentClient) : Remote unit :=
  run_remote_command cl match cl_runtime cl with Docker => docker_script | Podman => podman_script | Containerd => containerd_script end ≫= λ _, mret tt.
Definition verify_runtime (cl : SshDeploymentClient) : Remote unit :=
  try_of (run_remote_command cl match cl_runtime cl with Docker => "docker --version" | Podman => "podman --version" | Containerd => "ctr version" end) ≫= λ r,
  match r with Ok _ => mret tt | Err _ => install_runtime cl end.
Definition test_connection (cl : SshDeploymentClient) : Remote unit :=
  run_remote_command cl "echo 'Connection test'" ≫= λ output,
  if contains "Connection test" output then mret tt else fails (ConfigurationError "Failed to establish SSH connection").

(** [SshDeploymentClient::new], [reconnect] *)
Definition secure_connection (connection : SshConnection) : Remote SecureSshConnection :=
  asks (λ h, file_exists h) ≫= λ ex,
  pure_of (ssh_connection_new (sc_host connection) (sc_user connection)) ≫= λ c,
  pure_of (with_port (sc_port connection) c) ≫= λ c,
  let c := with_strict_host_checking false c in
  pure_of match sc_key_path connection with Some p => with_key_path ex p c | None => Ok c end ≫= λ c,
  pure_of match sc_jump_host connection with Some j => with_jump_host j c | None => Ok c end.
Definition ssh_client_new (connection : SshConnection) (runtime : ContainerRuntime) (config : DeploymentConfig) : Remote SshDeploymentClient :=
  secure_connection connection ≫= λ c,
  let cl := mkClient c connection runtime config in
  test_connection cl ≫= λ _, verify_runtime cl ≫= λ _, mret cl.
(** The connection is replaced before it is tested: the client, and what [reconnect] returns *)
Definition reconnect (cl : SshDeploymentClient) : Remote (SshDeploymentClient * result RemoteError unit) :=
  try_of (secure_connection (cl_connection cl)) ≫= λ c,
  match c with
  | Err e => mret (cl, Err e)
  | Ok c =>
      let cl := mkClient c (cl_connection cl) (cl_runtime cl) (cl_config cl) in
      try_of (test_connection cl) ≫= λ r, mret (cl, r)
  end.
(** [localhost] *)
Definition client_localhost : SshDeploymentClient :=
  mkClient (mkSecureSsh "localhost" 22 "root" (Some "~/.ssh/id_rsa"%string) None None false)
    (mkConnection "localhost" 22 "root" (Some "~/.ssh/id_rsa"%string) None None) Docker (mkDeployConfig "default" "blueprint" Always None).

(** [pull_image], [create_container], [create_container_with_config], [start_container] *)
Definition pull_image (cl : SshDeploymentClient) (image : string) : Remote unit :=
  pure_of (build_pull_command (runtime_str (cl_runtime cl)) image) ≫= λ cmd, run_remote_command cl cmd ≫= λ _, mret tt.
Definition first_line (output : string) : result RemoteError string :=
  match lines output with l :: _ => Ok (trim l) | [] => Err (ConfigurationError "Failed to get container ID") end.
(** Casts to 32 bits: a cast of an integer keeps its low bits *)
Definition create_command (rt : ContainerRuntime) (now : Z) (image : string) (spec : ResourceSpec) (env : gmap string string) : result RemoteError string :=
  let limits := limits_from_spec spec in
  build_create_command now (runtime_str rt) image env (rl_cpu_cores limits) (u32_wrap <$> rl_memory_mb limits) (float_as_u32 <$> rl_disk_gb limits).
Definition create_container (cl : SshDeploymentClient) (image : string) (spec : ResourceSpec) (env : gmap string string) : Remote string :=
  asks utc_seconds ≫= λ now,
  pure_of (create_command (cl_runtime cl) now image spec env) ≫= λ cmd,
  run_remote_command cl cmd ≫= λ output, pure_of (first_line output).
Definition restart_name (p : RestartPolicy) : string := match p with Always => "Always" | OnFailure => "OnFailure" | Never => "Never" end.
Definition config_env (config : DeploymentConfig) (env : gmap string string) : gmap string string :=
  <["BLUEPRINT_RESTART_POLICY"%string := restart_name (dc_restart_policy config)]>
    (<["BLUEPRINT_NAMESPACE"%string := dc_namespace config]> (<["BLUEPRINT_DEPLOYMENT_NAME"%string := dc_name config]> env)).
Definition restart_flag (p : RestartPolicy) : string :=
  match p with Always => "--restart=always" | OnFailure => "--restart=on-failure" | Never => "--restart=no" end.
Definition container_name (config : DeploymentConfig) : string := dc_name config +:+ "-" +:+ dc_namespace config.
Definition with_restart (cl : SshDeploymentClient) (cmd : string) : string :=
  if bool_decide (runtime_str (cl_runtime cl) = "ctr"%string) then cmd
  else replace "run -d" ("run -d --name " +:+ container_name (cl_config cl) +:+ " " +:+ restart_flag (dc_restart_policy (cl_config cl))) cmd.
Definition with_health (cl : SshDeploymentClient) (cmd : string) : string :=
  match dc_health_check (cl_config cl) with
  | Some hc =>
      if bool_decide (runtime_str (cl_runtime cl) = "docker"%string) then
        replace "run -d" ("run -d --health-cmd='" +:+ hc_command hc +:+ "' --health-interval=" +:+ pretty (hc_interval hc) +:+ "s --health-timeout="
          +:+ pretty (hc_timeout hc) +:+ "s --health-retries=" +:+ pretty (hc_retries hc)) cmd
      else cmd
  | None => cmd
  end.
Definition create_container_with_config (cl : SshDeploymentClient) (image : string) (spec : ResourceSpec) (env : gmap string string) : Remote string :=
  asks utc_seconds ≫= λ now,
  pure_of (create_command (cl_runtime cl) now image spec (config_env (cl_config cl) env)) ≫= λ cmd,
  run_remote_command cl (with_health cl (with_restart cl cmd)) ≫= λ output, pure_of (first_line output).
Definition start_container (cl : SshDeploymentClient) (container_id : string) : Remote unit :=
  match cl_runtime cl with
  | Containerd => mret tt
  | rt => pure_of (build_container_command (runtime_str rt) "start" container_id None) ≫= λ cmd, run_remote_command cl cmd ≫= λ _, mret tt
  end.

(** [get_container_details]: an index that is not there is [Null] *)
Definition json_index (v : JsonValue) (k : string) : JsonValue := default VNull (json_get v k).
Definition json_at (v : JsonValue) (i : nat) : JsonValue := match v with VArray l => default VNull (l !! i) | _ => VNull end.
Definition port_binding (kv : string * JsonValue) : option (string * string) :=
  p ← json_as_str (json_index (json_at kv.2 0) "HostPort"); Some (kv.1, p).
Definition inspect_command (rt : ContainerRuntime) (id : string) : string :=
  match rt with Docker => "docker inspect " +:+ id | Podman => "podman inspect " +:+ id | Containerd => "ctr container info " +:+ id end.
Definition details_of (rt : ContainerRuntime) (json : JsonValue) : ContainerDetails :=
  match rt with
  | Containerd => mkDetails (default "unknown"%string (json_as_str (json_index json "Status"))) ∅
  | _ =>
      mkDetails (default "unknown"%string (json_as_str (json_index (json_index (json_at json 0) "State") "Status")))
        match json_index (json_index (json_at json 0) "NetworkSettings") "Ports" with
        | VObject ports => foldl (λ m kv, <[kv.1 := kv.2]> m) ∅ (omap port_binding ports)
        | _ => ∅
        end
  end.
Definition get_container_details (cl : SshDeploymentClient) (container_id : string) : Remote ContainerDetails :=
  run_remote_command cl (inspect_command (cl_runtime cl) container_id) ≫= λ output,
  match json_parse output with
  | None => fails (ConfigurationError "Failed to parse container info")
  | Some json => mret (details_of (cl_runtime cl) json)
  end.

(** [deploy_blueprint], [deploy_container] *)
Definition deploy_blueprint (cl : SshDeploymentClient) (image : string) (spec : ResourceSpec) (env : gmap string string) : Remote RemoteDeployment :=
  pull_image cl image ≫= λ _,
  create_container_with_config cl image spec env ≫= λ id,
  start_container cl id ≫= λ _,
  get_container_details cl id ≫= λ details,
  mret (mkRemoteDeployment (sc_host (cl_connection cl)) id (cl_runtime cl) (cd_status details) (cd_ports details) (limits_from_spec spec)).
Definition deploy_container (cl : SshDeploymentClient) (image : string) (env : gmap string string) : Remote string :=
  create_container_with_config cl image spec_basic env.

(** [install_blueprint_runtime] *)
Definition install_blueprint_runtime (cl : SshDeploymentClient) : Remote unit :=
  run_remote_command cl "mkdir -p /opt/blueprint/{bin,config,data,logs}" ≫= λ _,
  run_remote_command cl runtime_script ≫= λ _,
  run_remote_command cl "sudo systemctl status blueprint-runtime" ≫= λ status,
  if contains "active (running)" status then mret tt else fails (ConfigurationError "Blueprint runtime installation failed").

(** [deploy_github_binary]; the names of variables are of ASCII characters *)
Definition github_env_line (kv : string * string) : string :=
  (if forallb (λ a, is_alnum a || one_of "_" a) (chars kv.1) then kv.1 else "INVALID") +:+ "='" +:+ replace "'" "'\''" kv.2 +:+ "'".
Definition percent (x : f32) : string := pretty (float_as_u32 (f32_mul x (f32_of 100))).
Definition megabytes (x : f32) : string := pretty (float_as_u32 (f32_mul x (f32_of 1024))).
Definition deploy_github_binary (cl : SshDeploymentClient) (archive_url sha256_hex binary_name : string) (spec : ResourceSpec)
    (env : gmap string string) : Remote NativeDeployment :=
  let env_file := script (github_env_line <$> map_to_list env) in
  let sha := to_ascii_lowercase (trim_start_matches "0x" sha256_hex) in
  if negb (str_len sha =? 64) || negb (forallb is_hexdigit (chars sha)) then
    fails (ConfigurationError ("invalid sha256: expected 64 hex chars, got " +:+ pretty (str_len sha)))
  else
    run_remote_command cl (github_script archive_url sha binary_name env_file (percent (rs_cpu spec)) (megabytes (rs_memory_gb spec))) ≫= λ _,
    mret (mkNative (sc_host (cl_connection cl)) "blueprint-runtime" "/opt/blueprint/config/blueprint.env" "running").

(** [SecureConfigManager::write_config_file] *)
Definition config_patterns : list string :=
  ["';"; q +:+ ";"; "`;"; "&&"; "||"; "|"; "$("; "${"; "`"; "/bin/"; "/usr/bin/"; "bash"; "sh "; "curl "; "wget "; "nc "; "netcat"; "exec"; "eval";
   "system"; "base64"]%string.
Definition validate_config_content (content : string) : result RemoteError unit :=
  match json_parse content with
  | None => Err (ConfigurationError "Invalid JSON config")
  | Some _ =>
      match List.find (λ p, contains p content) config_patterns with
      | Some p => Err (ConfigurationError ("Suspicious pattern '" +:+ p +:+ "' detected in configuration"))
      | None => Ok tt
      end
  end.
Definition write_config_file (content target : string) : Remote unit :=
  pure_of (validate_config_content content) ≫= λ _,
  (λ h, (Ok (write_answer h content), h ++ [WroteTemp content])) ≫= λ r : result string unit,
  match r with
  | Err e => fails (ConfigurationError ("Failed to write temp config: " +:+ e))
  | Ok _ =>
      (λ h, (Ok (cp_answer h target), h ++ [SudoCp target])) ≫= λ r : result string ShOutput,
      match r with
      | Err e => fails (ConfigurationError ("Failed to copy config: " +:+ e))
      | Ok o => if so_success o then mret tt else fails (ConfigurationError ("Config copy failed: " +:+ so_stderr o))
      end
  end.
(** [deploy_native_blueprint]; a map of texts prints as an object *)
Definition deploy_native_blueprint (cl : SshDeploymentClient) (blueprint_path : string) (spec : ResourceSpec) (config : gmap string string)
    : Remote NativeDeployment :=
  copy_files cl blueprint_path "/opt/blueprint/bin/" ≫= λ _,
  write_config_file (json_print (VObject ((λ kv, (kv.1, VString kv.2)) <$> map_to_list config))) "/opt/blueprint/config/blueprint.json" ≫= λ _,
  run_remote_command cl (limits_script (percent (rs_cpu spec)) (megabytes (rs_memory_gb spec))) ≫= λ _,
  run_remote_command cl "sudo systemctl daemon-reload && sudo systemctl restart blueprint-runtime" ≫= λ _,
  mret (mkNative (sc_host (cl_connection cl)) "blueprint-runtime" "/opt/blueprint/config/blueprint.json" "running").

(** [stream_logs], [get_container_status], [stop_container], [cleanup_deployment], [remove_container] *)
Definition stream_logs (cl : SshDeploymentClient) (container_id : string) (follow : bool) : Remote string :=
  match cl_runtime cl with
  | Containerd => fails (ConfigurationError "Log streaming not supported for containerd")
  | rt => pure_of (build_container_command (runtime_str rt) "logs" container_id (Some follow)) ≫= λ cmd, run_remote_command cl cmd
  end.
Definition status_command (rt : ContainerRuntime) (id : string) : string :=
  match rt with
  | Docker => "docker ps -a --filter id=" +:+ id +:+ " --format '{{.Status}}'"
  | Podman => "podman ps -a --filter id=" +:+ id +:+ " --format '{{.Status}}'"
  | Containerd => "ctr container info " +:+ id +:+ " | grep Status"
  end.
Definition get_container_status (cl : SshDeploymentClient) (container_id : string) : Remote string :=
  run_remote_command cl (status_command (cl_runtime cl) container_id) ≫= λ output,
  if bool_decide (trim output = ""%string) then fails (ConfigurationError ("Container " +:+ container_id +:+ " not found")) else mret (trim output).
Definition stop_container (cl : SshDeploymentClient) (id : string) : Remote unit :=
  run_remote_command cl match cl_runtime cl with Docker => "docker stop " +:+ id | Podman => "podman stop " +:+ id | Containerd => "ctr task kill " +:+ id end
  ≫= λ _, mret tt.
Definition cleanup_command (rt : ContainerRuntime) (id : string) : string :=
  match rt with
  | Docker => "docker stop " +:+ id +:+ " && docker rm " +:+ id
  | Podman => "podman stop " +:+ id +:+ " && podman rm " +:+ id
  | Containerd => "ctr task kill " +:+ id +:+ " && ctr container rm " +:+ id
  end.
Definition ssh_cleanup_deployment (cl : SshDeploymentClient) (id : string) : Remote unit :=
  run_remote_command cl (cleanup_command (cl_runtime cl) id) ≫= λ _, mret tt.
Definition remove_container (cl : SshDeploymentClient) (id : string) : Remote unit :=
  run_remote_command cl match cl_runtime cl with Docker => "docker rm -f " +:+ id | Podman => "podman rm -f " +:+ id | Containerd => "ctr container rm " +:+ id end
  ≫= λ _, mret tt.

(** [deploy_container_with_resources], [deploy_container_with_name], [update_container_with_resources], [update_container] *)
Definition resource_options (rt : ContainerRuntime) (spec : ResourceSpec) : string :=
  match rt with
  | Containerd =>
      (if SFltb f64_zero (rs_cpu spec) then " --cpu-quota=" +:+ pretty (trunc_as_u64 (f32_mul (rs_cpu spec) (f32_of 100000))) else "")
      +:+ (if SFltb f64_zero (rs_memory_gb spec) then " --memory-limit=" +:+ show_float (rs_memory_gb spec) +:+ "g" else "")
  | _ =>
      " --cpus=" +:+ show_float (rs_cpu spec) +:+ " --memory=" +:+ show_float (rs_memory_gb spec) +:+ "g"
      +:+ match rs_gpu_count spec with Some n => if 0 <? n then " --gpus=" +:+ pretty n else "" | None => ""%string end
  end.
Definition run_command (rt : ContainerRuntime) (image name : string) (env : gmap string string) (spec : option ResourceSpec) : string :=
  runtime_str rt +:+ " run -d --name " +:+ name +:+ match spec with Some s => resource_options rt s | None => ""%string end
  +:+ foldr (λ kv s, " -e " +:+ kv.1 +:+ "=" +:+ kv.2 +:+ s) ""%string (map_to_list env) +:+ " " +:+ image.
Definition deploy_container_with_resources (cl : SshDeploymentClient) (image name : string) (env : gmap string string) (spec : option ResourceSpec)
    : Remote string :=
  run_remote_command cl (run_command (cl_runtime cl) image name env spec) ≫= λ output, pure_of (first_line output).
Definition deploy_container_with_name (cl : SshDeploymentClient) (image name : string) (env : gmap string string) : Remote string :=
  deploy_container_with_resources cl image name env None.
Definition update_container_with_resources (cl : SshDeploymentClient) (new_image : string) (env : gmap string string) (spec : option ResourceSpec)
    : Remote string :=
  let name := container_name (cl_config cl) in
  try_of (run_remote_command cl (cleanup_command (cl_runtime cl) name)) ≫= λ _,
  deploy_container_with_resources cl new_image name env spec.
Definition update_container (cl : SshDeploymentClient) (new_image : string) (env : gmap string string) : Remote string :=
  update_container_with_resources cl new_image env None.

(** [health_check_container] *)
Definition exec_command (rt : ContainerRuntime) (id : string) : string :=
  match rt with
  | Docker => "docker exec " +:+ id +:+ " echo ok" | Podman => "podman exec " +:+ id +:+ " echo ok" | Containerd => "ctr task exec " +:+ id +:+ " echo ok"
  end.
Definition health_check_container (cl : SshDeploymentClient) (id : string) : Remote bool :=
  get_container_status cl id ≫= λ status,
  if negb (contains "Up" status) && negb (contains "running" status) then mret false
  else
    (if bool_decide (cl_runtime cl = Docker) then
       try_of (run_remote_command cl ("docker inspect --format='{{.State.Health.Status}}' " +:+ id)) ≫= λ r,
       mret match r with
            | Ok health => if bool_decide (trim health = "healthy"%string) then Some true else if bool_decide (trim health = "unhealthy"%string) then Some false else None
            | Err _ => None
            end
     else mret None) ≫= λ known : option bool,
    match known with
    | Some b => mret b
    | None =>
        try_of (run_remote_command cl (exec_command (cl_runtime cl) id)) ≫= λ r,
        mret match r with Ok output => bool_decide (trim output = "ok"%string) | Err _ => false end
    end.

(** [switch_traffic_to] *)
Definition switch_traffic_to (cl : SshDeploymentClient) (new_container_name : string) : Remote unit :=
  run_remote_command cl ("echo '" +:+ nginx_config new_container_name +:+ "' | sudo tee /etc/nginx/sites-available/blueprint") ≫= λ _,
  run_remote_command cl "sudo nginx -s reload" ≫= λ _, mret tt.

(** [deploy], [deploy_binary_as_service]: both end with the steps of [start_service] *)
Definition environment_lines (env : gmap string string) : string := script ((λ kv, "Environment=" +:+ kv.1 +:+ "=" +:+ kv.2) <$> map_to_list env).
Definition start_service (cl : SshDeploymentClient) (service_name unit_text failure : string) : Remote unit :=
  run_remote_command cl ("sudo tee /etc/systemd/system/blueprint-" +:+ service_name +:+ ".service > /dev/null << 'EOF'"
    +:+ String newline (unit_text +:+ String newline "EOF")) ≫= λ _,
  run_remote_command cl "sudo systemctl daemon-reload" ≫= λ _,
  run_remote_command cl ("sudo systemctl enable blueprint-" +:+ service_name) ≫= λ _,
  run_remote_command cl ("sudo systemctl start blueprint-" +:+ service_name) ≫= λ _,
  run_remote_command cl ("sudo systemctl is-active blueprint-" +:+ service_name) ≫= λ status,
  if bool_decide (trim status = "active"%string) then mret tt else fails (ConfigurationError (failure +:+ status)).
Definition deploy (cl : SshDeploymentClient) (host_ip binary_path service_name : string) (env : gmap string string) (arguments : list string) : Remote unit :=
  if negb (bool_decide (sc_host (cl_connection cl) = host_ip)) then
    fails (ConfigurationError ("Host mismatch: expected " +:+ sc_host (cl_connection cl) +:+ ", got " +:+ host_ip))
  else
    let remote_binary_path := "/opt/blueprint/bin/" +:+ service_name in
    copy_files cl binary_path remote_binary_path ≫= λ _,
    run_remote_command cl ("chmod +x " +:+ remote_binary_path) ≫= λ _,
    let env := foldl (λ m ia, <["ARG_" +:+ pretty (Z.of_nat ia.1) := ia.2]> m) env (imap (λ i a, (i, a)) arguments) in
    start_service cl service_name (service_unit service_name remote_binary_path (environment_lines env)) "Failed to start blueprint service: ".
Definition deploy_binary_as_service (cl : SshDeploymentClient) (binary_path service_name : string) (env : gmap string string) (spec : ResourceSpec) : Remote unit :=
  let remote_path := "/opt/blueprint/bin/" +:+ service_name in
  copy_files cl binary_path remote_path ≫= λ _,
  run_remote_command cl ("chmod +x " +:+ remote_path) ≫= λ _,
  start_service cl service_name (limited_unit service_name remote_path (environment_lines env) (percent (rs_cpu spec)) (megabytes (rs_memory_gb spec)))
    "Failed to start service: ".

(** [parse_docker_log_timestamp], [stream_container_logs]: the task polls, and moves a
    mark past the seconds of the lines that it forwards; [listening] says whether the
    receiver is still there after the lines that it got *)
Fixpoint until_white (s : string) : string :=
  match s with EmptyString => EmptyString | String a s => if is_whitespace a then EmptyString else String a (until_white s) end.
Definition first_token (line : string) : option string :=
  match until_white (trim_start line) with EmptyString => None | t => Some t end.
Definition parse_docker_log_timestamp (line : string) : option Z :=
  token ← first_token line; t ← read_rfc3339 token; if 0 <=? t then Some t else None.
Definition advance (since : Z) (line : string) : Z :=
  match parse_docker_log_timestamp line with Some ts => if since <=? ts then ts + 1 else since | None => since end.
Fixpoint forward (listening : list string → bool) (since : Z) (sent ls : list string) : option Z * list string :=
  match ls with
  | [] => (Some since, sent)
  | l :: ls => let since := advance since l in if listening sent then forward listening since (sent ++ [l]) ls else (None, sent)
  end.
Definition logs_command (rt : ContainerRuntime) (since : Z) (container : string) : string :=
  runtime_str rt +:+ " logs --timestamps --since " +:+ pretty since +:+ " " +:+ container.
Fixpoint log_turns (turns : nat) (cl : SshDeploymentClient) (container : string) (listening : list string → bool) (since : Z) (sent : list string)
    : Remote (list string) :=
  match turns with
  | O => mret sent
  | S turns =>
      try_of (run_remote_command cl (logs_command (cl_runtime cl) since container)) ≫= λ r,
      match r with
      | Err _ => mret sent
      | Ok logs =>
          match forward listening since sent (lines logs) with
          | (Some since, sent) => log_turns turns cl container listening since sent
          | (None, sent) => mret sent
          end
      end
  end.
Definition stream_container_logs (turns : nat) (cl : SshDeploymentClient) (container : string) (listening : list string → bool) : Remote (list string) :=
  match cl_runtime cl with
  | Containerd => fails (ConfigurationError "Log streaming not supported for containerd")
  | _ => asks utc_seconds ≫= λ since, log_turns turns cl container listening since []
  end.

(** [parse_memory_usage], [collect_container_metrics] *)
Definition unit_of_memory (used suffix : string) : f64 := default f64_zero (read_f64 (trim (replace suffix "" used))).
Definition parse_memory_usage (mem_str : string) : f64 :=
  match split_char "/" mem_str with
  | used :: _ =>
      let used := trim used in
      if ends_with "GiB" used then f64_mul (unit_of_memory used "GiB") (f64_of 1024)
      else if ends_with "MiB" used then unit_of_memory used "MiB"
      else if ends_with "KiB" used then f64_div (unit_of_memory used "KiB") (f64_of 1024)
      else f64_zero
  | [] => f64_zero
  end.
Definition stat_text (stats : JsonValue) (k d : string) : string := default d (json_as_str (json_index stats k)).
Definition collect_container_metrics (cl : SshDeploymentClient) (id : string) : Remote JsonValue :=
  match cl_runtime cl with
  | Containerd => fails (ConfigurationError "Metrics collection not supported for containerd")
  | rt =>
      run_remote_command cl (runtime_str rt +:+ " stats " +:+ id +:+ " --no-stream --format json") ≫= λ output,
      match json_parse output with
      | None => fails (ConfigurationError "Failed to parse stats")
      | Some stats =>
          asks utc_text ≫= λ now,
          mret (VObject [("cpu_usage_percent", VString (replace "%" "" (stat_text stats "CPUPerc" "0%")));
                         ("memory_usage_mb", VReal (json_real (parse_memory_usage (stat_text stats "MemUsage" "0MiB"))));
                         ("network_io", VString (stat_text stats "NetIO" "0B / 0B")); ("block_io", VString (stat_text stats "BlockIO" "0B / 0B"));
                         ("pids", VString (stat_text stats "PIDs" "0")); ("timestamp", VString now)]%string)
      end
  end.

(** [ApplicationHealthChecker::check_http], [check_blueprint_health] *)
Definition check_http (url : string) : Remote HealthStatus := λ h,
  (Ok match http_answer h url with
      | Some code => if (200 <=? code) && (code <? 300) then Healthy else if (500 <=? code) && (code <? 600) then Degraded else Unhealthy
      | None => Unhealthy
      end, h ++ [HttpGet url]).
Definition check_blueprint_health (cl : SshDeploymentClient) (id : string) : Remote HealthStatus :=
  health_check_container cl id ≫= λ healthy,
  if negb healthy then mret Unhealthy
  else match cl_runtime cl with
  | Containerd => mret HealthUnknown
  | rt =>
      run_remote_command cl (runtime_str rt +:+ " inspect -f '{{.NetworkSettings.IPAddress}}' " +:+ id) ≫= λ output,
      let ip := trim output in
      if bool_decide (ip = ""%string) || bool_decide (ip = "<no value>"%string) then mret HealthUnknown
      else
        check_http ("http://" +:+ ip +:+ ":8080/health") ≫= λ status,
        match status with
        | Healthy =>
            check_http ("http://" +:+ ip +:+ ":9615/metrics") ≫= λ metrics,
            mret match metrics with Healthy => Healthy | _ => Degraded end
        | status => mret status
        end
  end.

(** [BareMetalFleet]: the clients of the hosts run side by side, each with the history of
    its own host *)
Record BareMetalFleet := mkFleet { bf_hosts : list SshConnection; bf_deployments : list RemoteDeployment }.
Definition fleet_new (hosts : list SshConnection) : BareMetalFleet := mkFleet hosts [].
Definition deploy_to_host (image : string) (spec : ResourceSpec) (env : gmap string string) (rt : ContainerRuntime) (host : SshConnection) : Remote RemoteDeployment :=
  ssh_client_new host rt (mkDeployConfig "blueprint" "default" Always None) ≫= λ cl, deploy_blueprint cl image spec env.
Definition deploy_to_fleet (image : string) (spec : ResourceSpec) (env : gmap string string) (rt : ContainerRuntime) (histories : nat → list Event)
    (f : BareMetalFleet) : list RemoteDeployment * BareMetalFleet :=
  let results := imap (λ i host, (deploy_to_host image spec env rt host (histories i)).1) (bf_hosts f) in
  let all := bf_deployments f ++ omap result_ok results in
  (all, mkFleet (bf_hosts f) all).
Definition get_fleet_status (f : BareMetalFleet) : gmap string string := foldl (λ m d, <[rd_host d := rd_status d]> m) ∅ (bf_deployments f).

End client.

(** ** What the operations run *)

Section emits.
  Context (P : Event → Prop).

(** What an operation adds to the history satisfies [P]. *)
Definition emits {A} (m : Remote A) : Prop := ∀ h, ∃ new, (m h).2 = h ++ new ∧ Forall P new.
Lemma remote_emits_ret {A} (a : A) : emits (mret a).
Proof. intros h. exists []. by rewrite app_nil_r. Qed.
Lemma emits_fails {A} e : emits (fails (A := A) e).
Proof. intros h. exists []. by rewrite app_nil_r. Qed.
Lemma emits_pure_of {A} (r : result RemoteError A) : emits (pure_of r).
Proof. intros h. exists []. by rewrite app_nil_r. Qed.
Lemma emits_asks {A} (f : list Event → A) : emits (asks f).
Proof. intros h. exists []. by rewrite app_nil_r. Qed.
Lemma emits_try_of {A} (m : Remote A) : emits m → emits (try_of m).
Proof. intros H h. destruct (H h) as (new & Hn & ?). exists new. unfold try_of. by destruct (m h). Qed.
Lemma remote_emits_bind {A B} (m : Remote A) (k : A → Remote B) : emits m → (∀ a, emits (k a)) → emits (m ≫= k).
Proof.
  intros Hm Hk h. destruct (Hm h) as (new & Hn & HP). unfold mbind, remote_bind. destruct (m h) as [[a|e] h1]; cbn in Hn; subst; [|by exists new].
  destruct (Hk a (h ++ new)) as (new' & -> & HP'). exists (new ++ new'). by rewrite app_assoc, Forall_app.
Qed.
Lemma emits_checked {A B} (r : result RemoteError A) (k : A → Remote B) : (∀ a, r = Ok a → emits (k a)) → emits (pure_of r ≫= k).
Proof. intros Hk. destruct r as [a|e]; [by apply Hk|apply (emits_fails e)]. Qed.
Lemma emits_event {A} (f : list Event → A) e : P e → emits (λ h, (Ok (f h), h ++ [e])).
Proof. intros He h. exists [e]. by repeat constructor. Qed.

End emits.

Create HintDb emits.
#[export] Hint Resolve remote_emits_ret emits_fails emits_pure_of emits_asks emits_try_of : emits.
Ltac emits :=
  repeat first [solve [auto with emits] | apply emits_try_of | apply remote_emits_bind; [|intros] | progress case_match].

Section checked.
  Context `{SE : ShellEscape} `{SL : !ShellEscapeLaws} `{W : RemoteWorld} `{NT : NumberText} `{JT : JsonText}.

(** The connection that [new] and [reconnect] make from the settings *)
Definition secure_of (s : SshConnection) : SecureSshConnection :=
  mkSecureSsh (sc_host s) (sc_port s) (sc_user s) (sc_key_path s) (sc_jump_host s) None false.
Lemma secure_connection_of s h c h' : secure_connection s h = (Ok c, h') → c = secure_of s ∧ h' = h.
Proof.
  unfold secure_connection, mbind, remote_bind, asks, pure_of, ssh_connection_new, with_port, with_key_path, with_jump_host, with_strict_host_checking.
  destruct (validate_hostname (sc_host s)) as [[]|]; [|done]. destruct (validate_username (sc_user s)) as [[]|]; [|done]. cbn.
  destruct (sc_port s =? 0); [done|]. unfold secure_of.
  destruct (sc_key_path s) as [p|]; [destruct (validate_key_path _ p) as [?|]; [|done]|]; cbn;
    (destruct (sc_jump_host s) as [j|]; [destruct (validate_hostname j) as [?|]; [|done]|]); cbn; intros [= <- <-]; done.
Qed.

(** A text that was checked before it was given to the shell *)
Definition sanctioned (c : SecureSshConnection) (e : Event) : Prop :=
  match e with
  | ShRun text =>
      (∃ command, text = build_secure_ssh_command c command ∧ validate_command command = Ok tt) ∨
      (∃ l r, text = build_secure_scp_command c l r ∧ validate_remote_path r = Ok tt ∧ contains "../" l = false)
  | _ => True
  end.

Lemma ssh_run_emits c command : emits (sanctioned c) (ssh_run c command).
Proof.
  unfold ssh_run. apply emits_checked. intros [] Hv. apply remote_emits_bind; [apply emits_event; left; by eexists|]. intros r. emits.
Qed.
Lemma local_path_checked ex l u : validate_local_path ex l = Ok u → contains "../" l = false.
Proof. unfold validate_local_path. destruct (negb _); [done|]. by destruct (contains "../" l). Qed.
Lemma ssh_copy_emits c l r : emits (sanctioned c) (ssh_copy c l r).
Proof.
  unfold ssh_copy. apply remote_emits_bind; [apply emits_asks|]. intros ex. apply emits_checked. intros u Hl%local_path_checked. apply emits_checked. intros [] Hr.
  apply remote_emits_bind; [apply emits_event; right; by exists l, r|]. intros o. emits.
Qed.
Lemma run_emits cl command : emits (sanctioned (cl_ssh cl)) (run_remote_command cl command).
Proof. apply ssh_run_emits. Qed.
Lemma copy_emits cl l r : emits (sanctioned (cl_ssh cl)) (copy_files cl l r).
Proof. apply ssh_copy_emits. Qed.
Lemma write_config_emits c content target : emits (sanctioned c) (write_config_file content target).
Proof. unfold write_config_file. emits; by apply emits_event. Qed.
Lemma check_http_emits c url : emits (sanctioned c) (check_http url).
Proof. by apply emits_event. Qed.
#[local] Hint Resolve run_emits copy_emits write_config_emits check_http_emits : emits.

(** The operations of a client *)
Inductive SshOp :=
| OpTest | OpVerify | OpDeployBlueprint (image : string) (spec : ResourceSpec) (env : gmap string string)
| OpCreate (image : string) (spec : ResourceSpec) (env : gmap string string)
| OpDeployContainer (image : string) (env : gmap string string) | OpInstallRuntime | OpCopy (local_path remote_path : string)
| OpGithub (url sha name : string) (spec : ResourceSpec) (env : gmap string string)
| OpNative (path : string) (spec : ResourceSpec) (config : gmap string string) | OpLogs (id : string) (follow : bool) | OpStatus (id : string)
| OpStop (id : string) | OpCleanup (id : string) | OpRun (image name : string) (env : gmap string string) (spec : option ResourceSpec)
| OpUpdate (image : string) (env : gmap string string) (spec : option ResourceSpec) | OpRemove (id : string) | OpHealth (id : string)
| OpSwitch (name : string) | OpDeploy (host path service : string) (env : gmap string string) (arguments : list string)
| OpStream (turns : nat) (id : string) (listening : list string → bool) | OpMetrics (id : string) | OpBlueprintHealth (id : string)
| OpService (path service : string) (env : gmap string string) (spec : ResourceSpec) | OpReconnect.
Definition done_with {A} (m : Remote A) : Remote unit := m ≫= λ _, mret tt.
Definition run_op (cl : SshDeploymentClient) (o : SshOp) : Remote unit :=
  match o with
  | OpTest => test_connection cl | OpVerify => verify_runtime cl
  | OpDeployBlueprint image spec env => done_with (deploy_blueprint cl image spec env)
  | OpCreate image spec env => done_with (create_container cl image spec env)
  | OpDeployContainer image env => done_with (deploy_container cl image env)
  | OpInstallRuntime => install_blueprint_runtime cl | OpCopy l r => copy_files cl l r
  | OpGithub url sha name spec env => done_with (deploy_github_binary cl url sha name spec env)
  | OpNative path spec config => done_with (deploy_native_blueprint cl path spec config)
  | OpLogs id follow => done_with (stream_logs cl id follow) | OpStatus id => done_with (get_container_status cl id)
  | OpStop id => stop_container cl id | OpCleanup id => ssh_cleanup_deployment cl id
  | OpRun image name env spec => done_with (deploy_container_with_resources cl image name env spec)
  | OpUpdate image env spec => done_with (update_container_with_resources cl image env spec)
  | OpRemove id => remove_container cl id | OpHealth id => done_with (health_check_container cl id) | OpSwitch name => switch_traffic_to cl name
  | OpDeploy host path service env arguments => deploy cl host path service env arguments
  | OpStream turns id listening => done_with (stream_container_logs turns cl id listening)
  | OpMetrics id => done_with (collect_container_metrics cl id) | OpBlueprintHealth id => done_with (check_blueprint_health cl id)
  | OpService path service env spec => deploy_binary_as_service cl path service env spec
  | OpReconnect => reconnect cl ≫= λ x, pure_of x.2
  end.
(** The client after an operation: only a reconnection changes it *)
Definition op_client (cl : SshDeploymentClient) (o : SshOp) (h : list Event) : SshDeploymentClient :=
  match o with
  | OpReconnect => match (reconnect cl h).1 with Ok x => x.1 | Err _ => cl end
  | _ => cl
  end.
(** Operations one after the other, whatever they give *)
Definition run_ops (cl : SshDeploymentClient) (l : list SshOp) (h : list Event) : SshDeploymentClient * list Event :=
  foldl (λ st o, (op_client st.1 o st.2, (run_op st.1 o st.2).2)) (cl, h) l.

Lemma log_turns_emits turns cl id listening since sent : emits (sanctioned (cl_ssh cl)) (log_turns turns cl id listening since sent).
Proof. revert since sent. induction turns as [|turns IH]; intros since sent; cbn [log_turns]; emits. Qed.
Lemma container_status_emits cl id : emits (sanctioned (cl_ssh cl)) (get_container_status cl id).
Proof. unfold get_container_status. emits. Qed.
Lemma health_emits cl id : emits (sanctioned (cl_ssh cl)) (health_check_container cl id).
Proof. unfold health_check_container. apply remote_emits_bind; [apply container_status_emits|]. intros st. emits. Qed.
Lemma start_service_emits cl name text failure : emits (sanctioned (cl_ssh cl)) (start_service cl name text failure).
Proof. unfold start_service. emits. Qed.
#[local] Hint Resolve log_turns_emits container_status_emits health_emits start_service_emits : emits.

(** The connections a client may use: the one it has and the one its settings make *)
Definition own_connection (cl : SshDeploymentClient) (c : SecureSshConnection) : Prop := c = cl_ssh cl ∨ c = secure_of (cl_connection cl).
Definition own_event (cl : SshDeploymentClient) (e : Event) : Prop := ∃ c, own_connection cl c ∧ sanctioned c e.

Lemma emits_impl (P Q : Event → Prop) {A} (m : Remote A) : (∀ e, P e → Q e) → emits P m → emits Q m.
Proof. intros HPQ Hm h. destruct (Hm h) as (new & Hn & HP). exists new. split; [done|]. by eapply Forall_impl. Qed.
Lemma emits_own cl c {A} (m : Remote A) : own_connection cl c → emits (sanctioned c) m → emits (own_event cl) m.
Proof. intros Hc. apply emits_impl. intros e He. by exists c. Qed.

Lemma reconnect_eq cl h :
  reconnect cl h =
  match secure_connection (cl_connection cl) h with
  | (Err e, h) => (Ok (cl, Err e), h)
  | (Ok c, h) =>
      let cl' := mkClient c (cl_connection cl) (cl_runtime cl) (cl_config cl) in
      (Ok (cl', (test_connection cl' h).1), (test_connection cl' h).2)
  end.
Proof.
  unfold reconnect. unfold mbind, remote_bind, try_of. destruct (secure_connection (cl_connection cl) h) as [[c|e] h1]; [|done]. cbn zeta.
  by destruct (test_connection _ h1).
Qed.

Lemma reconnect_spec cl h :
  ∃ new, (reconnect cl h).2 = h ++ new ∧ Forall (own_event cl) new ∧
  ∃ x, (reconnect cl h).1 = Ok x ∧ cl_connection x.1 = cl_connection cl ∧ own_connection cl (cl_ssh x.1).
Proof.
  rewrite reconnect_eq. destruct (secure_connection (cl_connection cl) h) as [[c|e] h1] eqn:Hs.
  - apply secure_connection_of in Hs as [-> ->]. cbn zeta. set (cl' := mkClient _ _ _ _).
    assert (emits (own_event cl) (test_connection cl')) as Ht
      by (apply (emits_own cl (cl_ssh cl')); [by right|]; unfold test_connection; emits).
    destruct (Ht h) as (new & Hn & HP). exists new. split; [done|]. split; [done|]. eexists. split; [reflexivity|]. split; [done|by right].
  - assert (h1 = h) as ->.
    { revert Hs. unfold secure_connection, mbind, remote_bind, asks, pure_of. repeat case_match; congruence. }
    exists []. rewrite app_nil_r. split; [done|]. split; [done|]. eexists. split; [reflexivity|]. split; [done|by left].
Qed.

Lemma run_op_emits cl o : emits (own_event cl) (run_op cl o).
Proof.
  destruct o; cbn [run_op]; try (apply (emits_own cl (cl_ssh cl)); [by left|]; solve
    [unfold done_with, test_connection, verify_runtime, install_runtime, deploy_blueprint, pull_image, create_container,
    create_container_with_config, start_container, get_container_details, deploy_container, install_blueprint_runtime, deploy_github_binary, deploy_native_blueprint,
    stream_logs, stop_container, ssh_cleanup_deployment, deploy_container_with_resources, update_container_with_resources, remove_container,
    switch_traffic_to, deploy, stream_container_logs, collect_container_metrics, check_blueprint_health, deploy_binary_as_service, create_container_with_config; emits]).
  apply remote_emits_bind; [|intros; apply emits_pure_of]. intros h. destruct (reconnect_spec cl h) as (new & Hn & HP & _). by exists new.
Qed.

Lemma own_client cl o h :
  cl_connection (op_client cl o h) = cl_connection cl ∧ own_connection cl (cl_ssh (op_client cl o h)).
Proof.
  destruct o; try (split; [done|by left]). cbn [op_client]. destruct (reconnect_spec cl h) as (_ & _ & _ & x & -> & Hc & Ho). done.
Qed.
Lemma own_event_trans cl cl' e :
  cl_connection cl' = cl_connection cl → own_connection cl (cl_ssh cl') → own_event cl' e → own_event cl e.
Proof. intros Hc Ho (c & [->| ->] & Hs); [by exists (cl_ssh cl')|]. rewrite Hc in Hs. eexists. split; [by right|done]. Qed.

Lemma run_ops_emits cl l h : ∃ new, (run_ops cl l h).2 = h ++ new ∧ Forall (own_event cl) new.
Proof.
  unfold run_ops. revert cl h. induction l as [|o l IH]; intros cl h; [exists []; by rewrite app_nil_r|]. cbn [foldl fst snd].
  destruct (run_op_emits cl o h) as (new & -> & Hn). destruct (own_client cl o h) as [Hc Ho].
  destruct (IH (op_client cl o h) (h ++ new)) as (new' & -> & Hn'). exists (new ++ new'). rewrite app_assoc, Forall_app. split; [done|]. split; [done|].
  eapply Forall_impl; [exact Hn'|]. intros e. by apply own_event_trans.
Qed.

(** What the check of a command guarantees *)
Lemma validate_command_lines command :
  validate_command command = Ok tt → Forall (λ l, allowed_line l = true) (lines (trim command)).
Proof.
  unfold validate_command. repeat (case_match; [done|]). destruct (List.find _ _) as [l|] eqn:Hf; [done|]. intros _.
  apply List.Forall_forall. intros l Hl. pose proof (List.find_none _ _ Hf l Hl) as H'. by apply negb_false_iff in H'.
Qed.

(** C27. Whatever operations a client is asked for, reconnections included, and whatever
    the world answers, the local shell runs nothing but calls of [ssh] and [scp]: every
    text it was given is read as one command.  It is [ssh] with the options of the client's
    connection, its destination and the remote command, whole, all of whose lines start
    with an allowed word; or it is [scp] with the options of the connection, a local path
    that goes up nowhere, and a checked path at the destination.  The connection is the
    one the client has, or the one that its settings make when it reconnects. *)
Theorem client_runs_checked cl l h text :
  ShRun text ∈ (run_ops cl l h).2 → ShRun text ∉ h →
  ∃ c, (c = cl_ssh cl ∨ c = secure_of (cl_connection cl)) ∧
  ((∃ command, sh_parse text = Some ["ssh"%string :: ssh_options c ++ [destination c; command]] ∧
      Forall (λ l, allowed_line l = true) (lines (trim command))) ∨
   (∃ local_path remote_path,
      sh_parse text = Some ["scp"%string :: scp_options c ++ [local_path; destination c +:+ ":" +:+ remote_path]] ∧
      contains "../" local_path = false ∧ validate_remote_path remote_path = Ok tt)).
Proof.
  intros Hin Hnot. destruct (run_ops_emits cl l h) as (new & Hr & Hn). rewrite Hr in Hin. apply elem_of_app in Hin as [?|Hin]; [done|].
  rewrite list.Forall_forall in Hn. destruct (Hn _ Hin) as (c & Hc & [(command & -> & Hv)|(lp & r & -> & Hrp & Hl)]); exists c; (split; [exact Hc|]).
  - left. exists command. rewrite ssh_command_read, ssh_argv_words. split; [done|]. by apply validate_command_lines.
  - right. exists lp, r. by rewrite scp_command_read, scp_argv_words.
Qed.

End checked.
