(* ===== verification/SshExact.v ===== *)
(** * Deployments over SSH: what runs on the host

    A container deployment runs exactly its four commands, with the words it was given;
    the log stream forwards no line twice; the scripts that the client builds for native
    deployments are refused by its own check. *)

From Stdlib Require Import ZArith Lia Ascii SpecFloat.
From stdpp Require Import base gmap sets list sorting strings pretty fin_maps numbers relations.
From S2P Require Import Prelude Bytes Text Float Shell TeeTypes ExecProfile SshDeploy.

#[local] Open Scope Z_scope.

Lemma remote_bind_Ok {A B} (m : Remote A) (k : A → Remote B) h b h' :
  (m ≫= k) h = (Ok b, h') → ∃ a h1, m h = (Ok a, h1) ∧ k a h1 = (Ok b, h').
Proof. unfold mbind, remote_bind. destruct (m h) as [[a|e] h1]; [|done]. intros H. by exists a, h1. Qed.
Lemma pure_bind_Ok {A B} (r : result RemoteError A) (k : A → Remote B) h b h' :
  (pure_of r ≫= k) h = (Ok b, h') → ∃ a, r = Ok a ∧ k a h = (Ok b, h').
Proof. intros (a & h1 & Ha & Hk)%remote_bind_Ok. unfold pure_of in Ha. injection Ha as -> <-. by exists a. Qed.

(** A text in which the pattern does not occur is kept. *)
Lemma strip_prefix_prefix p s r : strip_prefix p s = Some r → String.prefix p s = true.
Proof.
  revert s. induction p as [|a p IH]; intros s H; [by destruct s|]. destruct s as [|b s]; [done|]. cbn in H. case_bool_decide; [subst|done].
  cbn. destruct (ascii_dec b b); [by apply IH|done].
Qed.
Lemma replace_absent p r s : contains p s = false → replace p r s = s.
Proof.
  unfold replace. generalize (String.length s) as n. intros n. revert s. induction n as [|n IH]; intros s Hc; [done|]. cbn [replace_upto].
  destruct (strip_prefix p s) as [rest|] eqn:Hp.
  - apply strip_prefix_prefix in Hp. destruct s; cbn [contains] in Hc; by rewrite Hp in Hc.
  - destruct s as [|a s]; [done|]. cbn [contains] in Hc. apply orb_false_iff in Hc as [_ Hc]. by rewrite IH.
Qed.

Section exact.
  Context `{SE : ShellEscape} `{SL : !ShellEscapeLaws} `{W : RemoteWorld} `{NT : NumberText} `{JT : JsonText}.

Lemma run_Ok cl command h output h' :
  run_remote_command cl command h = (Ok output, h') → h' = h ++ [ShRun (build_secure_ssh_command (cl_ssh cl) command)].
Proof.
  unfold run_remote_command, ssh_run. intros ([] & _ & H)%pure_bind_Ok. apply remote_bind_Ok in H as (r & h1 & Hr & H). injection Hr as _ <-.
  destruct r as [o|e]; [|done]. destruct (so_success o); [|done]. by injection H as _ <-.
Qed.

Lemma runtime_word rt : command_word (runtime_str rt).
Proof. split; destruct rt; (reflexivity || by repeat constructor). Qed.
Lemma alnum_plain a : is_alnum a = true → plain a = true.
Proof. intros H. unfold plain. by rewrite H. Qed.
Lemma container_id_plain id : is_valid_container_id id = true → plain_word id.
Proof.
  unfold is_valid_container_id. destruct (bool_decide _) eqn:Hb; cbn [orb]; [done|]. destruct (64 <? str_len id); [done|]. intros H.
  split; [by apply bool_decide_eq_false in Hb|]. apply List.Forall_forall. intros a Ha. rewrite forallb_forall in H. by apply alnum_plain, H.
Qed.

(** The command of an inspection *)
Lemma inspect_read rt id :
  rt ≠ Containerd → is_valid_container_id id = true → sh_parse (inspect_command rt id) = Some [[runtime_str rt; "inspect"%string; id]].
Proof.
  intros Hrt Hid%container_id_plain.
  assert (inspect_command rt id = runtime_str rt +:+ line_render (lits ["inspect"%string; id])) as ->.
  { rewrite lits_render. cbn [foldr]. rewrite string_app_nil. by destruct rt. }
  rewrite literal_parsed; [by rewrite lits_text| |apply runtime_word|].
  - destruct rt; by apply plainb_word.
  - apply lits_ok. by repeat constructor; [apply plainb_word|destruct Hid..].
Qed.

Lemma options_absent cl cmd : contains "run -d" cmd = false → with_health cl (with_restart cl cmd) = cmd.
Proof.
  intros Hc. assert (with_restart cl cmd = cmd) as -> by (unfold with_restart; case_bool_decide; [done|by apply replace_absent]).
  unfold with_health. case_match; [|done]. case_bool_decide; [by apply replace_absent|done].
Qed.

(** The four steps of a deployment *)
Lemma pull_Ok cl image h u h' :
  pull_image cl image h = (Ok u, h') →
  ∃ cmd, h' = h ++ [ShRun (build_secure_ssh_command (cl_ssh cl) cmd)] ∧ sh_parse cmd = Some [[runtime_str (cl_runtime cl); "pull"%string; image]].
Proof.
  unfold pull_image. intros (cmd & Hcmd & H)%pure_bind_Ok. apply remote_bind_Ok in H as (out & h1 & Hr%run_Ok & H). injection H as _ <-.
  exists cmd. split; [done|]. by apply pull_command_read in Hcmd as [_ ?]; [|apply runtime_word].
Qed.
Lemma start_Ok cl id h u h' :
  cl_runtime cl ≠ Containerd → start_container cl id h = (Ok u, h') →
  is_valid_container_id id = true ∧
  ∃ cmd, h' = h ++ [ShRun (build_secure_ssh_command (cl_ssh cl) cmd)] ∧ sh_parse cmd = Some [[runtime_str (cl_runtime cl); "start"%string; id]].
Proof.
  intros Hrt H. assert (∃ cmd, build_container_command (runtime_str (cl_runtime cl)) "start" id None = Ok cmd ∧
    h' = h ++ [ShRun (build_secure_ssh_command (cl_ssh cl) cmd)]) as (cmd & Hcmd & ->).
  { unfold start_container in H. destruct (cl_runtime cl); [..|done]; apply pure_bind_Ok in H as (cmd & Hcmd & H);
      apply remote_bind_Ok in H as (out & h1 & Hr%run_Ok & H); injection H as _ <-; by exists cmd. }
  apply container_command_read in Hcmd as (Hid & _ & Hp); [|apply runtime_word]. split; [done|]. by exists cmd.
Qed.
Lemma create_Ok cl image spec env h id h' :
  create_container_with_config cl image spec env h = (Ok id, h') →
  ∃ cmd, create_command (cl_runtime cl) (utc_seconds h) image spec (config_env (cl_config cl) env) = Ok cmd ∧
    h' = h ++ [ShRun (build_secure_ssh_command (cl_ssh cl) (with_health cl (with_restart cl cmd)))].
Proof.
  unfold create_container_with_config. intros (now & h1 & Hn & H)%remote_bind_Ok. injection Hn as <- <-.
  apply pure_bind_Ok in H as (cmd & Hcmd & H). apply remote_bind_Ok in H as (out & h1 & Hr%run_Ok & H). injection H as _ <-. by exists cmd.
Qed.
Lemma details_Ok cl id h d h' :
  get_container_details cl id h = (Ok d, h') → h' = h ++ [ShRun (build_secure_ssh_command (cl_ssh cl) (inspect_command (cl_runtime cl) id))].
Proof.
  unfold get_container_details. intros (out & h1 & Hr%run_Ok & H)%remote_bind_Ok. destruct (json_parse out); [|done]. by injection H as _ <-.
Qed.

(** The words of a created container, with the variables of the configuration *)
Definition deployed_argv (cl : SshDeploymentClient) (now : Z) (image : string) (spec : ResourceSpec) (env : gmap string string) : list string :=
  let limits := limits_from_spec spec in
  create_argv now (runtime_str (cl_runtime cl)) image (map_to_list (config_env (cl_config cl) env))
    (rl_cpu_cores limits) (u32_wrap <$> rl_memory_mb limits) (float_as_u32 <$> rl_disk_gb limits).

(** C28. What a successful container deployment ran, for a runtime other than containerd
    and a create text in which [run -d] does not occur: four commands went to the host, and
    its shell reads them as the pull of the image; the creation of a container with the
    given variables and three of the configuration's, the limits and the hardening options,
    under a name made from the clock; its start; and its inspection.  The runtime is given
    neither the configured name and restart policy (they are variables only) nor the health
    check: the client puts these options in place of [run -d], which the create text does
    not have ([restart_policy_dropped]). *)
Theorem deployment_exact cl image spec env h d h' :
  cl_runtime cl ≠ Containerd →
  (∀ h cmd, create_command (cl_runtime cl) (utc_seconds h) image spec (config_env (cl_config cl) env) = Ok cmd → contains "run -d" cmd = false) →
  deploy_blueprint cl image spec env h = (Ok d, h') →
  ∃ now pull create start inspect,
    h' = h ++ (ShRun ∘ build_secure_ssh_command (cl_ssh cl) <$> [pull; create; start; inspect]) ∧
    sh_parse pull = Some [[runtime_str (cl_runtime cl); "pull"%string; image]] ∧
    sh_parse create = Some [deployed_argv cl now image spec env] ∧
    sh_parse start = Some [[runtime_str (cl_runtime cl); "start"%string; rd_container_id d]] ∧
    sh_parse inspect = Some [[runtime_str (cl_runtime cl); "inspect"%string; rd_container_id d]].
Proof.
  intros Hrt Hnone. unfold deploy_blueprint. intros (u & h1 & (pull & -> & Hpull)%pull_Ok & H)%remote_bind_Ok.
  apply remote_bind_Ok in H as (id & h2 & Hcreate & H). apply create_Ok in Hcreate as (cmd & Hcmd & ->).
  apply remote_bind_Ok in H as (u' & h3 & Hstart & H). apply start_Ok in Hstart as (Hid & start & -> & Hstart); [|done].
  apply remote_bind_Ok in H as (details & h4 & ->%details_Ok & H). injection H as <- <-. cbn [rd_container_id].
  exists (utc_seconds (h ++ [ShRun (build_secure_ssh_command (cl_ssh cl) pull)])), pull, cmd, start, (inspect_command (cl_runtime cl) id).
  split_and!; [|done| |done|by apply inspect_read].
  - rewrite (options_absent cl cmd) by (by eapply Hnone). cbn [fmap list_fmap]. by rewrite <- !app_assoc.
  - apply create_command_read in Hcmd as [_ ?]; [done|apply runtime_word].
Qed.

End exact.

(** ** Scripts that the check refuses *)

Lemma trim_commute s : trim_end (trim_start s) = trim_start (trim_end s).
Proof.
  induction s as [|a s IH]; [done|]. cbn [trim_start trim_end]. destruct (is_whitespace a) eqn:Ha.
  - rewrite IH. destruct (trim_end s); cbn [trim_start]; by rewrite ?Ha.
  - cbn [trim_end]. destruct (trim_end s); cbn [trim_start]; by rewrite ?Ha.
Qed.
Lemma trim_end_idem s : trim_end (trim_end s) = trim_end s.
Proof.
  induction s as [|a s IH]; [done|]. cbn [trim_end]. destruct (trim_end s) as [|b t] eqn:E.
  - destruct (is_whitespace a) eqn:Ha; [done|]. cbn. by rewrite Ha.
  - cbn [trim_end] in IH |- *. by rewrite IH.
Qed.

(** Only what is left of a line by trimming its end counts. *)
Lemma allowed_line_end p p' : trim_end p = trim_end p' → allowed_line p = allowed_line p'.
Proof. intros H. unfold allowed_line, trim. by rewrite !trim_commute, H. Qed.
Lemma allowed_line_white a p : is_whitespace a = true → allowed_line (String a p) = allowed_line p.
Proof. intros Ha. unfold allowed_line, trim. cbn [trim_start]. by rewrite Ha. Qed.
Lemma allowed_line_blank p : trim_end p = ""%string → allowed_line p = true.
Proof. intros H. rewrite (allowed_line_end p ""); done. Qed.

Definition bad_line (ls : list string) : Prop := Exists (λ l, allowed_line l = false) ls.
Lemma split_newline_nonempty s : split_char newline s ≠ [].
Proof. destruct s as [|a s]; [done|]. cbn. case_bool_decide; [done|]. by case_match. Qed.

Lemma bad_trim_start s : bad_line (split_char newline s) → bad_line (split_char newline (trim_start s)).
Proof.
  induction s as [|a s IH]; [done|]. cbn [trim_start split_char]. destruct (is_whitespace a) eqn:Ha; [|done]. intros H. apply IH.
  case_bool_decide; [by apply Exists_cons in H as [H|H]|].
  pose proof (split_newline_nonempty s). destruct (split_char newline s) as [|p ps]; [done|]. apply Exists_cons in H as [H|H]; [|by apply Exists_cons; right].
  apply Exists_cons. left. by rewrite (allowed_line_white a) in H.
Qed.

(** The lines of a text and of the text without the white space at its end *)
Lemma split_trim_end s :
  ∃ same blank, split_char newline s = same ++ blank ∧ Forall2 (λ p p', trim_end p = trim_end p') same (split_char newline (trim_end s)) ∧
    Forall (λ p, trim_end p = ""%string) blank.
Proof.
  induction s as [|a s (same & blank & Hs & Hsame & Hblank)]; [exists [""%string], []; by repeat constructor|].
  cbn [split_char trim_end]. destruct (trim_end s) as [|b t] eqn:E.
  - cbn [split_char] in Hsame. apply Forall2_cons_inv_r in Hsame as (p & l & Hp & Hl & ->). apply Forall2_nil_inv_r in Hl as ->.
    rewrite Hs. cbn [app]. destruct (is_whitespace a) eqn:Ha.
    + case_bool_decide; [exists [""%string], (p :: blank)|exists [String a p], blank]; cbn [app split_char]; (split_and!; [done| |by repeat constructor]).
      * by repeat constructor.
      * constructor; [|constructor]. cbn [trim_end]. change (trim_end "") with ""%string in Hp. by rewrite Hp, Ha.
    + rewrite bool_decide_eq_false_2 by (intros ->; discriminate Ha). exists [String a p], blank. split_and!; [done| |done].
      assert (split_char newline (String a "") = [String a ""]) as ->. { cbn. by rewrite bool_decide_eq_false_2 by (intros ->; discriminate Ha). }
      constructor; [|constructor]. cbn [trim_end]. change (trim_end "") with ""%string in Hp. by rewrite Hp.
  - cbn [split_char]. fold (split_char newline (String b t)). change (if bool_decide (b = newline) then _ else _) with (split_char newline (String b t)).
    case_bool_decide.
    + exists (""%string :: same), blank. rewrite Hs. split_and!; [done| |done]. by constructor.
    + pose proof (split_newline_nonempty (String b t)). destruct (split_char newline (String b t)) as [|p' ps']; [done|].
      apply Forall2_cons_inv_r in Hsame as (p & l & Hp & Hl & ->). rewrite Hs. cbn [app]. exists (String a p :: l), blank.
      split_and!; [done| |done]. constructor; [|done]. cbn [trim_end]. by rewrite Hp.
Qed.
Lemma bad_trim_end s : bad_line (split_char newline s) → bad_line (split_char newline (trim_end s)).
Proof.
  destruct (split_trim_end s) as (same & blank & -> & Hsame & Hblank). intros [H|H]%Exists_app.
  - induction Hsame as [|p p' l l' Hp _ IH]; [by inversion H|]. apply Exists_cons. apply Exists_cons in H as [H|H]; [left|right; by apply IH].
    by rewrite <- (allowed_line_end p).
  - exfalso. apply Exists_exists in H as (p & Hp & Hb). rewrite list.Forall_forall in Hblank. rewrite allowed_line_blank in Hb; [done|by apply Hblank].
Qed.

Lemma bad_without_last ls : bad_line ls → bad_line (without_last_empty ls).
Proof.
  induction ls as [|x ls IH]; [done|]. intros [H|H]%Exists_cons.
  - assert (without_last_empty (x :: ls) = x :: without_last_empty ls) as -> by (by destruct x, ls). by apply Exists_cons; left.
  - assert (without_last_empty (x :: ls) = x :: without_last_empty ls) as ->; [destruct x, ls; try done; by inversion H|].
    apply Exists_cons. right. by apply IH.
Qed.
Lemma substring_all t : String.substring 0 (String.length t) t = t.
Proof. induction t as [|a t IH]; [done|]. cbn. by f_equal. Qed.
Lemma substring_tail n m s : (n + m = String.length s)%nat → String.substring 0 n s +:+ String.substring n m s = s.
Proof.
  revert s. induction n as [|n IH]; intros s H.
  - cbn in H. subst m. rewrite substring_all. by destruct s.
  - destruct s as [|a s]; [done|]. apply (f_equal (String a) (IH s ltac:(cbn in H; lia))).
Qed.
Lemma trim_end_cr s : trim_end (s +:+ String (ascii_of_N 13) "") = trim_end s.
Proof. induction s as [|a s IH]; [done|]. change (String a s +:+ ?t) with (String a (s +:+ t)). cbn [trim_end]. by rewrite IH. Qed.
Lemma without_cr_end s : trim_end (without_cr s) = trim_end s.
Proof.
  unfold without_cr. destruct (ends_with _ s) eqn:H; [|done]. unfold ends_with in H. apply andb_true_iff in H as [Hl He].
  apply bool_decide_eq_true in He. apply Nat.leb_le in Hl. cbn [String.length] in *.
  pose proof (substring_tail (String.length s - 1) 1 s ltac:(lia)) as E. rewrite He in E. set (t := String.substring 0 _ s) in *. by rewrite <- (trim_end_cr t), E.
Qed.

(** A text with a line that is not allowed is refused. *)
Lemma bad_line_refused s : bad_line (split_char newline s) → ∃ e, validate_command s = Err e.
Proof.
  intros H. apply bad_trim_start, bad_trim_end, bad_without_last in H. unfold validate_command. do 3 (case_match; [by eexists|]).
  destruct (List.find _ _) as [l|] eqn:Hf; [by eexists|]. exfalso. apply Exists_exists in H as (l & Hl & Hb).
  pose proof (List.find_none _ _ Hf (without_cr l)) as Hn. cbn beta in Hn. rewrite (allowed_line_end _ l), Hb in Hn by apply without_cr_end.
  assert (In (without_cr l) (lines (trim s))) as Hin by (apply list_elem_of_In, list_elem_of_fmap; by exists l). by specialize (Hn Hin).
Qed.

(** Where a line comes between two line breaks *)
Lemma split_line a l b :
  lacks newline l → ∃ p ps, split_char newline (a +:+ String newline (l +:+ String newline b)) = p :: ps ∧ l ∈ ps.
Proof.
  intros Hl. induction a as [|x a (p & ps & IH & Hin)].
  - change ("" +:+ ?t) with t. cbn [split_char]. rewrite bool_decide_eq_true_2 by done. rewrite split_char_app by done. eexists _, _. split; [done|]. by left.
  - change (String x a +:+ ?t) with (String x (a +:+ t)). cbn [split_char]. rewrite IH. case_bool_decide; (eexists _, _; split; [done|]); [by right|done].
Qed.
Lemma line_refused a l b :
  lacks newline l → allowed_line l = false → ∃ e, validate_command (a +:+ String newline (l +:+ String newline b)) = Err e.
Proof.
  intros Hl Hb. apply bad_line_refused. destruct (split_line a l b Hl) as (p & ps & -> & Hin). apply Exists_exists. exists l. split; [by right|done].
Qed.

Lemma script_cons x y l : script (x :: y :: l) = x +:+ String newline (script (y :: l)).
Proof. done. Qed.
Lemma lacks_newline_dec l : forallb (λ a, negb (bool_decide (a = newline))) (chars l) = true → lacks newline l.
Proof.
  intros H. apply List.Forall_forall. intros a Ha. rewrite forallb_forall in H. specialize (H a Ha). by apply negb_true_iff, bool_decide_eq_false in H.
Qed.

(** The scripts with parameters *)
Lemma github_refused url sha name env cpu mem : ∃ e, validate_command (github_script url sha name env cpu mem) = Err e.
Proof. unfold github_script. rewrite !script_cons. by apply (line_refused "" "set -eu"); [apply lacks_newline_dec|]. Qed.
Lemma limits_refused cpu mem : ∃ e, validate_command (limits_script cpu mem) = Err e.
Proof.
  unfold limits_script. do 3 rewrite script_cons.
  apply (line_refused (script ["";
   "            sudo mkdir -p /etc/systemd/system/blueprint-runtime.service.d";
   "            sudo tee /etc/systemd/system/blueprint-runtime.service.d/limits.conf > /dev/null <<EOF"]%string) "            [Service]"); [by apply lacks_newline_dec|done].
Qed.
Lemma nginx_refused name tail : ∃ e, validate_command ("echo '" +:+ nginx_config name +:+ tail) = Err e.
Proof.
  unfold nginx_config. do 2 rewrite script_cons. change ("" +:+ ?t) with t. change (String newline ?t +:+ tail) with (String newline (t +:+ tail)).
  rewrite append_assoc. apply (line_refused "echo '" "upstream backend {"); [by apply lacks_newline_dec|done].
Qed.
Lemma unit_refused pre l rest tail :
  ∃ e, validate_command (pre +:+ String newline (script (""%string :: "[Unit]"%string :: l :: rest) +:+ tail)) = Err e.
Proof.
  do 2 rewrite script_cons. change ("" +:+ ?t) with t. change (String newline ?t +:+ tail) with (String newline (t +:+ tail)). rewrite append_assoc.
  change (String newline ?t +:+ tail) with (String newline (t +:+ tail)).
  replace (pre +:+ String newline (String newline ("[Unit]" +:+ String newline (script (l :: rest) +:+ tail))))
    with ((pre +:+ String newline "") +:+ String newline ("[Unit]" +:+ String newline (script (l :: rest) +:+ tail))) by (by rewrite append_assoc).
  apply line_refused; [by apply lacks_newline_dec|done].
Qed.

Section refused.
  Context `{SE : ShellEscape} `{W : RemoteWorld} `{NT : NumberText} `{JT : JsonText}.

(** An operation that gives no result *)
Definition fruitless {A} (m : Remote A) : Prop := ∀ h, ∃ e, (m h).1 = Err e.
Lemma fruitless_fails {A} e : fruitless (fails (A := A) e).
Proof. intros h. by exists e. Qed.
Lemma fruitless_bind {A B} (m : Remote A) (k : A → Remote B) : fruitless m → fruitless (m ≫= k).
Proof. intros H h. destruct (H h) as [e He]. exists e. unfold mbind, remote_bind. destruct (m h) as [r h1]. cbn in He. by subst r. Qed.
Lemma fruitless_after {A B} (m : Remote A) (k : A → Remote B) : (∀ a, fruitless (k a)) → fruitless (m ≫= k).
Proof. intros H h. unfold mbind, remote_bind. destruct (m h) as [[a|e] h1]; [apply H|by exists e]. Qed.
Lemma fruitless_run cl s : (∃ e, validate_command s = Err e) → fruitless (run_remote_command cl s).
Proof. intros [e He] h. exists e. unfold run_remote_command, ssh_run. by rewrite He. Qed.
Lemma fruitless_service cl name l rest failure : fruitless (start_service cl name (script (""%string :: "[Unit]"%string :: l :: rest)) failure).
Proof.
  unfold start_service. apply fruitless_bind, fruitless_run. set (t := script _).
  replace ("sudo tee /etc/systemd/system/blueprint-" +:+ name +:+ ".service > /dev/null << 'EOF'" +:+ String newline (t +:+ String newline "EOF"))
    with (("sudo tee /etc/systemd/system/blueprint-" +:+ name +:+ ".service > /dev/null << 'EOF'") +:+ String newline (t +:+ String newline "EOF"))
    by (by rewrite !append_assoc).
  apply unit_refused.
Qed.

(** The deployments without containers never succeed: the client's own check refuses
    the scripts that it builds (they have lines such as [set -eu] or [[Unit]] that start
    with no allowed word), whatever the arguments and whatever the host answers; and so
    for the installation of the runtime, of Docker, and for the switch of traffic between
    containers. *)
Theorem native_deployments_refused cl :
  (∀ url sha name spec env, fruitless (deploy_github_binary cl url sha name spec env)) ∧
  (∀ path spec config, fruitless (deploy_native_blueprint cl path spec config)) ∧
  (∀ host path service env arguments, fruitless (deploy cl host path service env arguments)) ∧
  (∀ path service env spec, fruitless (deploy_binary_as_service cl path service env spec)) ∧
  fruitless (install_blueprint_runtime cl) ∧
  (cl_runtime cl = Docker → fruitless (install_runtime cl)) ∧
  (∀ name, fruitless (switch_traffic_to cl name)).
Proof.
  split_and!.
  - intros. unfold deploy_github_binary. destruct (_ || _); [apply fruitless_fails|]. apply fruitless_bind, fruitless_run, github_refused.
  - intros. unfold deploy_native_blueprint. apply fruitless_after. intros _. apply fruitless_after. intros _. apply fruitless_bind, fruitless_run, limits_refused.
  - intros. unfold deploy. destruct (negb _); [apply fruitless_fails|]. do 2 (apply fruitless_after; intros _). apply fruitless_service.
  - intros. unfold deploy_binary_as_service. do 2 (apply fruitless_after; intros _). apply fruitless_service.
  - unfold install_blueprint_runtime. apply fruitless_after. intros _. apply fruitless_bind, fruitless_run. eexists. vm_compute. reflexivity.
  - intros Hd. unfold install_runtime. rewrite Hd. apply fruitless_bind, fruitless_run. eexists. vm_compute. reflexivity.
  - intros. unfold switch_traffic_to. apply fruitless_bind, fruitless_run, nginx_refused.
Qed.

End refused.

(** ** The log stream *)

Section logs.
  Context `{SE : ShellEscape} `{W : RemoteWorld} `{NT : NumberText}.

(** The seconds of a line *)
Definition stamped (since : Z) (l : string) : Prop := ∃ ts, parse_docker_log_timestamp l = Some ts ∧ since ≤ ts.
(** The lines sent are older than the mark. *)
Definition before (since : Z) (l : string) : Prop := ∃ ts, parse_docker_log_timestamp l = Some ts ∧ ts < since.

Lemma advance_le since l : since ≤ advance since l.
Proof. unfold advance. case_match; [|lia]. case_match eqn:E; [apply Z.leb_le in E|]; lia. Qed.
Lemma advance_before since l : is_Some (parse_docker_log_timestamp l) → before (advance since l) l.
Proof. intros (ts & Hts). exists ts. split; [done|]. unfold advance. rewrite Hts. destruct (Z.leb_spec since ts); lia. Qed.
Lemma before_le since since' l : since ≤ since' → before since l → before since' l.
Proof. intros Hle (ts & ? & ?). exists ts. split; [done|lia]. Qed.

(** One answer: what is sent of it is in it, after what was sent *)
Lemma forward_spec listening since sent ls r sent' :
  forward listening since sent ls = (r, sent') → Forall (λ l, is_Some (parse_docker_log_timestamp l)) ls →
  ∃ k, sent' = sent ++ take k ls ∧ match r with Some since' => since ≤ since' ∧ Forall (before since') ls | None => True end.
Proof.
  revert since sent. induction ls as [|l ls IH]; intros since sent; cbn [forward].
  - intros [= <- <-] _. exists O. by rewrite take_nil, app_nil_r.
  - destruct (listening sent); [|intros [= <- <-] _; exists O; by rewrite take_0, app_nil_r]. intros H [Hl Hls]%Forall_cons.
    apply IH in H as (k & -> & Hr); [|done]. exists (S k). cbn [take]. split; [by rewrite <- app_assoc|]. destruct r as [since'|]; [|done].
    destruct Hr as [Hle Hall]. pose proof (advance_le since l). split; [lia|]. constructor; [|done]. eapply before_le; [done|]. by apply advance_before.
Qed.
Lemma stamped_not_before since l : stamped since l → before since l → False.
Proof. intros (ts & ? & ?) (ts' & ? & ?). simplify_eq. lia. Qed.

Context (cl : SshDeploymentClient) (container : string).
(** What [logs --since] of the runtime promises: the lines of the answer have their time
    in front, and it is not before the second that was given; no line comes twice. *)
Definition since_respected : Prop :=
  ∀ h since o, sh_answer h (build_secure_ssh_command (cl_ssh cl) (logs_command (cl_runtime cl) since container)) = Ok o →
    NoDup (lines (so_stdout o)) ∧ Forall (stamped since) (lines (so_stdout o)).

Lemma ssh_run_output c command h output h' :
  ssh_run c command h = (Ok output, h') → ∃ o, sh_answer h (build_secure_ssh_command c command) = Ok o ∧ so_stdout o = output.
Proof.
  unfold ssh_run. intros ([] & _ & H)%pure_bind_Ok. apply remote_bind_Ok in H as (r & h1 & Hr & H). injection Hr as <- <-.
  destruct (sh_answer h _) as [o|e]; [|done]. exists o. split; [done|]. destruct (so_success o); [|done]. by injection H.
Qed.
Lemma log_turns_once turns listening since sent h r h' :
  since_respected → NoDup sent → Forall (before since) sent →
  log_turns turns cl container listening since sent h = (Ok r, h') → NoDup r.
Proof.
  intros Hs. revert since sent h. induction turns as [|turns IH]; intros since sent h Hnd Hb; cbn [log_turns]; [by intros [= <- _]|].
  intros (o & h1 & Hr & H)%remote_bind_Ok. unfold try_of in Hr. destruct (run_remote_command _ _ h) as [[out|e] h2] eqn:Hrun; injection Hr as <- <-;
    [|by injection H as <- _].
  apply ssh_run_output in Hrun as (o & Ho & <-). destruct (Hs _ _ _ Ho) as [Hnd' Hst].
  destruct (forward listening since sent (lines (so_stdout o))) as [r' sent'] eqn:Hf. apply forward_spec in Hf as (k & -> & Hr').
  2: { eapply Forall_impl; [exact Hst|]. intros l (ts & -> & _). by eexists. }
  assert (NoDup (sent ++ take k (lines (so_stdout o)))) as Hnew.
  { apply NoDup_app. split_and!; [done| |]. 2: { rewrite <- (take_drop k) in Hnd'. by apply NoDup_app in Hnd' as [? _]. }
    intros l Hl Hl'. apply elem_of_take in Hl' as (i & Hi%list_elem_of_lookup_2 & _). rewrite list.Forall_forall in Hb, Hst.
    by eapply stamped_not_before; [apply Hst|apply Hb]. }
  destruct r' as [since'|]; [|by injection H as <- _]. destruct Hr' as [Hle Hall]. eapply IH; [exact Hnew| |exact H].
  apply Forall_app. split; [eapply Forall_impl; [exact Hb|]; intros; by eapply before_le|]. by apply Forall_take.
Qed.

(** However long the log of a container is streamed, no line is forwarded twice. *)
Theorem log_lines_once turns listening h r h' :
  since_respected → stream_container_logs turns cl container listening h = (Ok r, h') → NoDup r.
Proof.
  intros Hs. unfold stream_container_logs. intros H.
  assert (∃ since h1, log_turns turns cl container listening since [] h1 = (Ok r, h')) as (since & h1 & H').
  { destruct (cl_runtime cl); [..|done]; apply remote_bind_Ok in H as (since & h1 & _ & H); by exists since, h1. }
  eapply log_turns_once; [done|constructor|constructor|exact H'].
Qed.

End logs.

(** ** Instances *)

Definition demo_numbers : NumberText :=
  {| show_float := λ _, "1"%string; read_f64 := λ _, None; json_real := λ _, "0"%string; read_rfc3339 := λ s, parse_u64 (trim_end_matches "Z" s) |}.
Definition demo_json : JsonText := {| json_parse := λ _, Some (VArray []); json_print := λ _, "[]"%string |}.
(** A host that answers everything with an identifier, at the same second *)
Definition demo_world : RemoteWorld :=
  {| sh_answer := λ _ _, Ok (mkShOutput true "abc123" ""); file_exists := λ _ _, true; write_answer := λ _ _, Ok tt;
     cp_answer := λ _ _, Ok (mkShOutput true "" ""); http_answer := λ _ _, Some 200; utc_seconds := λ _, 7; utc_text := λ _, "now"%string |}.
Definition demo_client : SshDeploymentClient :=
  mkClient demo_connection (mkConnection "host-1" 22 "deploy" None None None) Docker
    (mkDeployConfig "app" "prod" Always (Some (mkHealthCheck "true" 1 1 1))).
Definition demo_env : gmap string string := {["MODE"%string := "it's on"%string]}.

Definition demo_stop_text : string :=
  "ssh -o StrictHostKeyChecking=yes -o ConnectTimeout=30 -o ServerAliveInterval=60 -o ServerAliveCountMax=3 -o BatchMode=yes deploy@host-1 'docker stop x'".
Lemma client_runs_checked_witness :
  ∃ c, (c = cl_ssh demo_client ∨ c = secure_of (cl_connection demo_client)) ∧
  ((∃ command, sh_parse demo_stop_text = Some ["ssh"%string :: ssh_options c ++ [destination c; command]] ∧
      Forall (λ l, allowed_line l = true) (lines (trim command))) ∨
   (∃ local_path remote_path,
      sh_parse demo_stop_text = Some ["scp"%string :: scp_options c ++ [local_path; destination c +:+ ":" +:+ remote_path]] ∧
      contains "../" local_path = false ∧ validate_remote_path remote_path = Ok tt)).
Proof.
  refine (client_runs_checked (W := demo_world) (NT := demo_numbers) (JT := demo_json) demo_client [OpStop "x"; OpReconnect] [] demo_stop_text _ _).
  - vm_compute. by left.
  - intros H. inversion H.
Defined.
(** A reconnection runs the connection's test, without a check of the host's key. *)
Example reconnection_text :
  (run_ops (W := demo_world) (NT := demo_numbers) (JT := demo_json) demo_client [OpReconnect] []).2 =
    [ShRun (build_secure_ssh_command (secure_of (cl_connection demo_client)) "echo 'Connection test'")].
Proof. vm_compute. reflexivity. Qed.

Lemma deployment_exact_witness :
  ∃ now pull create start inspect,
    (deploy_blueprint (W := demo_world) (JT := demo_json) demo_client "nginx" spec_basic demo_env []).2
      = [] ++ (ShRun ∘ build_secure_ssh_command demo_connection <$> [pull; create; start; inspect]) ∧
    sh_parse pull = Some [["docker"; "pull"; "nginx"]]%string ∧ sh_parse create = Some [deployed_argv demo_client now "nginx" spec_basic demo_env] ∧
    sh_parse start = Some [["docker"; "start"; "abc123"]]%string ∧ sh_parse inspect = Some [["docker"; "inspect"; "abc123"]]%string.
Proof.
  refine (deployment_exact (W := demo_world) (JT := demo_json) demo_client "nginx" spec_basic demo_env []
    (mkRemoteDeployment "host-1" "abc123" Docker "unknown" ∅ (limits_from_spec spec_basic)) _ _ _ _).
  - discriminate.
  - intros h cmd. vm_compute. intros [= <-]. reflexivity.
  - vm_compute. reflexivity.
Defined.

Lemma native_deployments_refused_witness :
  fruitless (install_runtime (W := demo_world) demo_client).
Proof.
  refine (proj1 (proj2 (proj2 (proj2 (proj2 (proj2 (native_deployments_refused (W := demo_world) (JT := demo_json) demo_client)))))) _). reflexivity.
Defined.

(** A container whose log grows: each line with its second, and how many there are at
    each poll *)
Definition demo_log : list (Z * string) := [(7, "7Z a"); (7, "7Z b"); (9, "9Z c")]%string.
Definition asked_since (text : string) : Z := default 0 (List.find (λ k, contains (" --since " +:+ pretty k +:+ " ") text) [7; 8; 9; 10]).
Definition log_world : RemoteWorld :=
  {| sh_answer := λ h text,
       Ok (mkShOutput true (lines_of (snd <$> List.filter (λ l, asked_since text <=? l.1) (take (S (2 * length h)) demo_log))) "");
     file_exists := λ _ _, true; write_answer := λ _ _, Ok tt; cp_answer := λ _ _, Ok (mkShOutput true "" ""); http_answer := λ _ _, None;
     utc_seconds := λ _, 7; utc_text := λ _, "now"%string |}.
(** A line that comes after a poll, in the second of the last line of that poll, is never
    forwarded. *)
Theorem log_line_lost :
  (stream_container_logs (W := log_world) (NT := demo_numbers) 3 demo_client "web" (λ _, true) []).1 = Ok ["7Z a"; "9Z c"]%string.
Proof. vm_compute. reflexivity. Qed.

(** A container that has two lines when it is asked from the seventh second on *)
Definition once_answer (text : string) : string :=
  if bool_decide (text = build_secure_ssh_command demo_connection (logs_command Docker 7 "web")) then lines_of ["7Z a"; "8Z b"]%string else "".
Definition once_world : RemoteWorld :=
  {| sh_answer := λ h text, Ok (mkShOutput true (once_answer text) "");
     file_exists := λ _ _, true; write_answer := λ _ _, Ok tt; cp_answer := λ _ _, Ok (mkShOutput true "" ""); http_answer := λ _ _, None;
     utc_seconds := λ _, 7; utc_text := λ _, "now"%string |}.
Lemma chars_inj s t : chars s = chars t → s = t.
Proof. revert t. induction s as [|a s IH]; intros [|b t]; try done. cbn. intros [= -> H]. by rewrite (IH t). Qed.
Lemma ssh_command_inj c s t : build_secure_ssh_command c s = build_secure_ssh_command c t → s = t.
Proof.
  intros H. pose proof (ssh_command_read c s) as Hs. rewrite H, ssh_command_read in Hs. injection Hs as Hs. unfold ssh_line in Hs.
  rewrite !fmap_app in Hs. repeat apply app_inv_head in Hs. cbn [fmap list_fmap] in Hs. rewrite !word_text_one in Hs. by injection Hs.
Qed.
Lemma logs_command_inj rt since since' c : logs_command rt since c = logs_command rt since' c → since = since'.
Proof.
  intros H%(f_equal chars). unfold logs_command in H. rewrite !chars_app in H. repeat apply app_inv_head in H.
  apply app_inv_tail, chars_inj in H. by apply (inj pretty).
Qed.
Lemma once_world_since : since_respected (W := once_world) (NT := demo_numbers) demo_client "web".
Proof.
  intros h since o Ho. assert (so_stdout o = once_answer (build_secure_ssh_command demo_connection (logs_command Docker since "web"))) as ->.
  { cbn [sh_answer once_world] in Ho. by inversion Ho. }
  unfold once_answer. case_bool_decide as H; [|split; constructor].
  apply ssh_command_inj, logs_command_inj in H as ->. change (lines _) with ["7Z a"; "8Z b"]%string. split; [by repeat constructor; set_solver|].
  repeat constructor; eexists; (split; [vm_compute; reflexivity|lia]).
Qed.
Lemma log_lines_once_witness : NoDup ["7Z a"; "8Z b"]%string.
Proof.
  refine (log_lines_once (W := once_world) (NT := demo_numbers) demo_client "web" 3 (λ _, true) [] _ _ once_world_since _). vm_compute. reflexivity.
Defined.

(** The restart policy and the health check are not part of the command: they are put in
    place of [run -d], which a command to create has not. *)
Theorem restart_policy_dropped :
  match create_command Docker 7 "nginx" spec_basic (config_env (cl_config demo_client) ∅) with
  | Ok cmd => with_health demo_client (with_restart demo_client cmd) = cmd ∧ contains "--restart" cmd = false ∧ contains "--health-cmd" cmd = false
  | Err _ => False
  end.
Proof. vm_compute. done. Qed.
(** A value that has [run -d] in it is changed. *)
Theorem value_rewritten :
  match create_command Docker 7 "nginx" spec_basic {["A"%string := "run -d"%string]} with
  | Ok cmd => ∃ words, sh_parse (with_restart demo_client cmd) = Some [words] ∧ "A=run -d --name app-prod --restart=always"%string ∈ words
  | Err _ => False
  end.
Proof. vm_compute. eexists. split; [reflexivity|]. by repeat (left + right). Qed.
(** A container with a name gets its variables as they are: a value can end the command. *)
Theorem named_container_unescaped :
  let cmd := run_command (NT := demo_numbers) Docker "nginx" "web" {["A"%string := "x; reboot;"%string]} None in
  validate_command cmd = Ok tt ∧ sh_parse cmd = Some [["docker"; "run"; "-d"; "--name"; "web"; "-e"; "A=x"]; ["reboot"]; ["nginx"]]%string.
Proof. vm_compute. done. Qed.
