(* ===== verification/Infra.v ===== *)
(** * Infrastructure ([blueprint-remote-providers/src/infra])

    The providers of machines: which type of instance a specification is mapped to, and
    the provisioner, which asks a provider's adapter for an instance and retries, and
    which terminates one and waits for it to be gone.  The adapters call the interfaces
    of the clouds; they are the class [CloudAdapter], whose answers may depend on all the
    calls before. *)

From Stdlib Require Import ZArith Lia Ascii SpecFloat.
From stdpp Require Import base gmap sets list sorting strings pretty fin_maps numbers relations.
From S2P Require Import Prelude Bytes Text Float Shell SshDeploy.

#[local] Open Scope Z_scope.

(** ** Data *)

(** [pricing-engine/src/types.rs] *)
Inductive CloudProvider :=
| AWS | GCP | Azure | DigitalOcean | Vultr | Linode | LambdaLabs | RunPod | VastAi | CoreWeave | Paperspace | Fluidstack | TensorDock | Akash | IoNet
| PrimeIntellect | Render | BittensorLium | Hetzner | Crusoe | Generic | DockerLocal | DockerRemote (host : string) | BareMetal (hosts : list string).
#[export] Instance CloudProvider_eq_dec : EqDecision CloudProvider.
Proof. solve_decision. Defined.
(** [CloudProviderExt] *)
Definition to_service_type (p : CloudProvider) : string :=
  match p with AWS | Azure | DigitalOcean | Vultr | Linode => "LoadBalancer" | _ => "ClusterIP" end.
Definition requires_tunnel (p : CloudProvider) : bool := match p with Generic | BareMetal _ | DockerLocal => true | _ => false end.

(** [infra/types.rs], [infra/traits.rs] *)
Inductive InstanceStatus := Starting | Running | Stopping | Stopped | Terminated | StatusUnknown.
#[export] Instance InstanceStatus_eq_dec : EqDecision InstanceStatus.
Proof. solve_decision. Defined.
Record ProvisionedInstance := mkInstance {
  pi_id : string; pi_provider : CloudProvider; pi_instance_type : string; pi_region : string;
  pi_public_ip : option string; pi_private_ip : option string; pi_status : InstanceStatus;
}.
Record BlueprintDeploymentResult := mkDeployResult {
  bd_instance : ProvisionedInstance; bd_blueprint_id : string; bd_port_mappings : gmap Z Z; bd_metadata : gmap string string;
}.
Definition qos_metrics_port (d : BlueprintDeploymentResult) : option Z := bd_port_mappings d !! 9615.
Definition rpc_port (d : BlueprintDeploymentResult) : option Z := bd_port_mappings d !! 9944.
Definition qos_grpc_endpoint (d : BlueprintDeploymentResult) : option string :=
  match qos_metrics_port d, pi_public_ip (bd_instance d) with
  | Some port, Some ip => Some ("http://" +:+ ip +:+ ":" +:+ pretty port)
  | _, _ => None
  end.
(** [RetryPolicy]; durations in seconds.  A power above 32 bits panics. *)
Record RetryPolicy := mkRetry { rp_max_retries : nat; rp_base_delay : Z; rp_max_delay : Z }.
Definition retry_default : RetryPolicy := mkRetry 3 1 30.
Definition delay_for_attempt (p : RetryPolicy) (attempt : nat) : option Z :=
  let factor := 2 ^ Z.of_nat attempt in
  if factor <=? u32_max then Some (Z.min (rp_base_delay p * factor) (rp_max_delay p)) else None.

(** ** Types of instances ([infra/mapper.rs]) *)

Record InstanceSelection := mkSelection { is_instance_type : string; is_spot_capable : bool; is_estimated_hourly_cost : f64 }.
(** A decimal literal: the nearest number to [n / 10 ^ k] *)
Definition decimal (n k : Z) : f64 := f64_div (f64_of n) (f64_of (10 ^ k)).
Definition half32 : f32 := binary_normalize 24 128 1 (-1) false.
(** [cpu <= c && mem <= m] *)
Definition spec_within (spec : ResourceSpec) (c m : f32) : bool := SFleb (rs_cpu spec) c && SFleb (rs_memory_gb spec) m.
Definition spec_fits (spec : ResourceSpec) (c m : Z) : bool := spec_within spec (f32_of c) (f32_of m).
Definition gpus_at_least (spec : ResourceSpec) (n : Z) : bool := match rs_gpu_count spec with Some k => n <=? k | None => false end.
Definition memory_heavy (spec : ResourceSpec) : bool := SFltb (f32_mul (rs_cpu spec) (f32_of 8)) (rs_memory_gb spec).

(** [map_aws_instance] and the like *)
Definition map_aws_instance_type (spec : ResourceSpec) : string :=
  if gpus_at_least spec 8 then "p4d.24xlarge" else if gpus_at_least spec 4 then "p3.8xlarge" else if gpus_at_least spec 1 then "g4dn.xlarge"
  else if spec_within spec half32 (f32_of 1) then "t3.micro" else if spec_fits spec 1 2 then "t3.small" else if spec_fits spec 2 4 then "t3.medium"
  else if spec_fits spec 2 8 then "t3.large" else if spec_fits spec 4 16 then "m6i.xlarge" else if spec_fits spec 8 32 then "m6i.2xlarge"
  else if spec_fits spec 16 64 then "m6i.4xlarge" else if spec_fits spec 32 128 then "m6i.8xlarge"
  else if memory_heavy spec then "r6i.2xlarge" else if SFltb (f32_of 48) (rs_cpu spec) then "c6i.12xlarge" else "m6i.large".
Definition map_gcp_instance_type (spec : ResourceSpec) : string :=
  if gpus_at_least spec 1 then "n1-standard-4-nvidia-t4"
  else if spec_within spec half32 (f32_of 2) then "e2-micro" else if spec_fits spec 1 4 then "e2-small" else if spec_fits spec 2 8 then "e2-medium"
  else if spec_fits spec 4 16 then "n2-standard-4" else if spec_fits spec 8 32 then "n2-standard-8" else if spec_fits spec 16 64 then "n2-standard-16"
  else if memory_heavy spec then "n2-highmem-4" else "e2-standard-2".
Definition map_azure_instance_type (spec : ResourceSpec) : string :=
  match rs_gpu_count spec with
  | Some _ => "Standard_NC6s_v3"
  | None =>
      if spec_fits spec 1 2 then "Standard_B1s" else if spec_fits spec 2 4 then "Standard_B2s" else if spec_fits spec 4 16 then "Standard_D4s_v5"
      else if spec_fits spec 8 32 then "Standard_D8s_v5" else "Standard_D2s_v5"
  end.
Definition map_do_instance_type (spec : ResourceSpec) : string :=
  if spec_fits spec 1 1 then "s-1vcpu-1gb" else if spec_fits spec 1 2 then "s-1vcpu-2gb" else if spec_fits spec 2 4 then "s-2vcpu-4gb"
  else if spec_fits spec 4 8 then "s-4vcpu-8gb" else if spec_fits spec 8 16 then "s-8vcpu-16gb" else "s-2vcpu-2gb".
Definition map_vultr_instance_type (spec : ResourceSpec) : string :=
  if spec_fits spec 1 1 then "vc2-1c-1gb" else if spec_fits spec 2 4 then "vc2-2c-4gb" else if spec_fits spec 4 8 then "vc2-4c-8gb"
  else if spec_fits spec 8 16 then "vc2-8c-16gb" else "vc2-2c-2gb".
Definition map_aws_tee_instance_type (spec : ResourceSpec) : string :=
  match rs_gpu_count spec with
  | Some _ => "g5.xlarge"
  | None => if spec_fits spec 2 8 then "m6i.large" else if spec_fits spec 4 16 then "m6i.xlarge" else if spec_fits spec 8 32 then "m6i.2xlarge" else "c6i.4xlarge"
  end.
Definition map_gcp_tee_instance_type (spec : ResourceSpec) : string :=
  match rs_gpu_count spec with
  | Some _ => "n2d-standard-8"
  | None => if spec_fits spec 2 8 then "n2d-standard-2" else if spec_fits spec 4 16 then "n2d-standard-4" else if spec_fits spec 8 32 then "n2d-standard-8" else "n2d-standard-16"
  end.
Definition map_azure_tee_instance_type (spec : ResourceSpec) : string :=
  match rs_gpu_count spec with
  | Some _ => "Standard_DC8as_v5"
  | None =>
      if spec_fits spec 2 8 then "Standard_DC2as_v5" else if spec_fits spec 4 16 then "Standard_DC4as_v5" else if spec_fits spec 8 32 then "Standard_DC8as_v5"
      else "Standard_DC16as_v5"
  end.

(** The estimates of costs *)
Definition price_of (prices : list (string * f64)) (other : f64) (ty : string) : f64 :=
  match List.find (λ p, bool_decide (p.1 = ty)) prices with Some p => p.2 | None => other end.
Definition estimate_aws_cost : string → f64 :=
  price_of [("t3.micro", decimal 104 4); ("t3.small", decimal 208 4); ("t3.medium", decimal 416 4); ("t3.large", decimal 832 4); ("m6i.xlarge", decimal 192 3);
            ("m6i.2xlarge", decimal 384 3); ("m6i.4xlarge", decimal 768 3); ("g4dn.xlarge", decimal 526 3); ("p3.8xlarge", decimal 1224 2)]%string (decimal 10 2).
Definition estimate_gcp_cost : string → f64 :=
  price_of [("e2-micro", decimal 8 3); ("e2-small", decimal 17 3); ("e2-medium", decimal 34 3); ("n2-standard-4", decimal 17 2); ("n2-standard-8", decimal 34 2)]%string
    (decimal 10 2).
Definition estimate_azure_cost : string → f64 :=
  price_of [("Standard_B1s", decimal 12 3); ("Standard_B2s", decimal 48 3); ("Standard_D2s_v5", decimal 96 3); ("Standard_D4s_v5", decimal 192 3)]%string
    (decimal 10 2).
Definition estimate_do_cost : string → f64 :=
  price_of [("s-1vcpu-1gb", decimal 9 3); ("s-1vcpu-2gb", decimal 18 3); ("s-2vcpu-4gb", decimal 36 3); ("s-4vcpu-8gb", decimal 72 3)]%string (decimal 5 2).
Definition estimate_vultr_cost : string → f64 :=
  price_of [("vc2-1c-1gb", decimal 7 3); ("vc2-2c-4gb", decimal 24 3); ("vc2-4c-8gb", decimal 48 3)]%string (decimal 5 2).

Section mapper.
  Context `{NT : NumberText}.
  (** The mappers of the GPU clouds ([providers/*/instance_mapper.rs]) *)
  Context (gpu_cloud_map : CloudProvider → ResourceSpec → InstanceSelection).

(** [map_generic_instance]: a product of 32 bits, then a number of 64 *)
Definition tenths32 (n k : Z) : f32 := SFdiv 24 128 (f32_of n) (f32_of (10 ^ k)).
Definition map_generic_instance (spec : ResourceSpec) : InstanceSelection :=
  mkSelection (show_float (rs_cpu spec) +:+ "cpu-" +:+ show_float (rs_memory_gb spec) +:+ "gb") false
    (SFadd 24 128 (f32_mul (rs_cpu spec) (tenths32 5 2)) (f32_mul (rs_memory_gb spec) (tenths32 1 2))).
Definition map_tee_instance (spec : ResourceSpec) (p : CloudProvider) : InstanceSelection :=
  match p with
  | AWS => let t := map_aws_tee_instance_type spec in mkSelection t false (estimate_aws_cost t)
  | GCP => let t := map_gcp_tee_instance_type spec in mkSelection t false (estimate_gcp_cost t)
  | Azure => let t := map_azure_tee_instance_type spec in mkSelection t false (estimate_azure_cost t)
  | _ => let g := map_generic_instance spec in mkSelection (is_instance_type g) false (is_estimated_hourly_cost g)
  end.
(** [map_to_instance_type_with_requirements] *)
Definition map_to_instance_type (spec : ResourceSpec) (p : CloudProvider) (require_tee : bool) : InstanceSelection :=
  if require_tee then map_tee_instance spec p
  else match p with
  | AWS => let t := map_aws_instance_type spec in mkSelection t (rs_allow_spot spec && negb (starts_with "p" t)) (estimate_aws_cost t)
  | GCP => let t := map_gcp_instance_type spec in mkSelection t (rs_allow_spot spec) (estimate_gcp_cost t)
  | Azure => let t := map_azure_instance_type spec in mkSelection t (rs_allow_spot spec) (estimate_azure_cost t)
  | DigitalOcean => let t := map_do_instance_type spec in mkSelection t false (estimate_do_cost t)
  | Vultr => let t := map_vultr_instance_type spec in mkSelection t false (estimate_vultr_cost t)
  | LambdaLabs | RunPod | VastAi | CoreWeave | Paperspace | Fluidstack | TensorDock | Akash | IoNet | PrimeIntellect | Render | BittensorLium | Hetzner | Crusoe =>
      gpu_cloud_map p spec
  | _ => map_generic_instance spec
  end.
End mapper.

(** ** The provisioner ([infra/provisioner.rs]) *)

(** The calls of adapters, with their answers *)
Inductive CloudCall :=
| Provisioned (p : CloudProvider) (ty region : string) (tee : bool) (r : result RemoteError ProvisionedInstance)
| AskedTermination (p : CloudProvider) (id : string) (r : result RemoteError unit)
| AskedStatus (p : CloudProvider) (id : string) (r : result RemoteError InstanceStatus).
Class CloudAdapter := {
  provider_configured : CloudProvider → bool;
  provision_answer : list CloudCall → CloudProvider → string → string → bool → result RemoteError ProvisionedInstance;
  terminate_answer : list CloudCall → CloudProvider → string → result RemoteError unit;
  status_answer : list CloudCall → CloudProvider → string → result RemoteError InstanceStatus;
}.
(** [Debug] of a provider, in messages *)
Definition provider_name (p : CloudProvider) : string :=
  match p with
  | AWS => "AWS" | GCP => "GCP" | Azure => "Azure" | DigitalOcean => "DigitalOcean" | Vultr => "Vultr" | Linode => "Linode" | LambdaLabs => "LambdaLabs"
  | RunPod => "RunPod" | VastAi => "VastAi" | CoreWeave => "CoreWeave" | Paperspace => "Paperspace" | Fluidstack => "Fluidstack" | TensorDock => "TensorDock"
  | Akash => "Akash" | IoNet => "IoNet" | PrimeIntellect => "PrimeIntellect" | Render => "Render" | BittensorLium => "BittensorLium" | Hetzner => "Hetzner"
  | Crusoe => "Crusoe" | Generic => "Generic" | DockerLocal => "DockerLocal"
  | DockerRemote h => "DockerRemote(" +:+ q +:+ h +:+ q +:+ ")"
  | BareMetal hosts => "BareMetal([" +:+ String.concat ", " ((λ h, q +:+ h +:+ q) <$> hosts) +:+ "])"
  end.

Section provisioner.
  Context `{CA : CloudAdapter} `{NT : NumberText} (gpu_cloud_map : CloudProvider → ResourceSpec → InstanceSelection).

(** [provision_with_requirements]; [more] tries are left after a failure *)
Definition tee_capable (p : CloudProvider) : bool := match p with AWS | GCP | Azure => true | _ => false end.
Fixpoint provision_tries (more : nat) (p : CloudProvider) (ty region : string) (tee : bool) (h : list CloudCall)
    : result RemoteError ProvisionedInstance * list CloudCall :=
  let r := provision_answer h p ty region tee in
  let h := h ++ [Provisioned p ty region tee r] in
  match r, more with
  | Ok i, _ => (Ok i, h)
  | Err _, S more => provision_tries more p ty region tee h
  | Err e, O => (Err e, h)
  end.
Definition provision_with_requirements (p : CloudProvider) (spec : ResourceSpec) (region : string) (tee : bool) (h : list CloudCall)
    : result RemoteError ProvisionedInstance * list CloudCall :=
  if negb (provider_configured p) then (Err (ProviderNotConfigured (provider_name p)), h)
  else if tee && negb (tee_capable p) then
    (Err (ConfigurationError ("Provider " +:+ provider_name p +:+ " does not support confidential-compute provisioning")), h)
  else provision_tries (rp_max_retries retry_default) p (is_instance_type (map_to_instance_type gpu_cloud_map spec p tee)) region tee h.
Definition provision (p : CloudProvider) (spec : ResourceSpec) (region : string) : list CloudCall → result RemoteError ProvisionedInstance * list CloudCall :=
  provision_with_requirements p spec region false.

(** [is_not_found_error], [terminate], [get_status] *)
Definition is_not_found_error (e : RemoteError) : bool :=
  match e with
  | ConfigurationError m | NetworkError m | SerializationError m | HttpError m | RemoteOther m =>
      contains "404" m || contains "not found" (to_ascii_lowercase m) || contains "does not exist" (to_ascii_lowercase m)
  | _ => false
  end.
Fixpoint verify_terminated (more : nat) (p : CloudProvider) (id : string) (h : list CloudCall) : result RemoteError unit * list CloudCall :=
  match more with
  | O => (Err (RemoteOther "Instance termination verification timeout"), h)
  | S more =>
      let r := status_answer h p id in
      let h := h ++ [AskedStatus p id r] in
      match r with
      | Ok Terminated => (Ok tt, h)
      | Ok _ => verify_terminated more p id h
      | Err e => if is_not_found_error e then (Ok tt, h) else verify_terminated more p id h
      end
  end.
Definition terminate (p : CloudProvider) (id : string) (h : list CloudCall) : result RemoteError unit * list CloudCall :=
  if negb (provider_configured p) then (Err (ProviderNotConfigured (provider_name p)), h)
  else
    let r := terminate_answer h p id in
    let h := h ++ [AskedTermination p id r] in
    match r with Err e => (Err e, h) | Ok _ => verify_terminated 10 p id h end.
Definition get_status (p : CloudProvider) (id : string) (h : list CloudCall) : result RemoteError InstanceStatus * list CloudCall :=
  if negb (provider_configured p) then (Err (ProviderNotConfigured (provider_name p)), h)
  else let r := status_answer h p id in (r, h ++ [AskedStatus p id r]).

(** *** What the provisioner does *)

Lemma provision_tries_spec more p ty region tee h r h' :
  provision_tries more p ty region tee h = (r, h') →
  ∃ failed last, h' = h ++ (Provisioned p ty region tee ∘ Err <$> failed) ++ [Provisioned p ty region tee last] ∧ last = r ∧
    (length failed ≤ more)%nat ∧ (∀ e, r = Err e → length failed = more).
Proof.
  revert h. induction more as [|more IH]; intros h; cbn [provision_tries]; destruct (provision_answer h p ty region tee) as [i|e].
  - intros [= <- <-]. exists [], (Ok i). split_and!; [done|done|cbn; lia|done].
  - intros [= <- <-]. exists [], (Err e). split_and!; [done|done|cbn; lia|done].
  - intros [= <- <-]. exists [], (Ok i). split_and!; [done|done|cbn; lia|done].
  - intros (failed & last & -> & -> & Hl & He)%IH. exists (e :: failed), r. cbn [fmap list_fmap length]. split_and!; [by rewrite <- app_assoc|done|lia|].
    intros e' Hr. by rewrite (He e').
Qed.

(** An instance that is given was provisioned by the last call and no other: before
    it at most three tries failed, all for the same type and region; an error means that
    four tries failed.  A machine for confidential computing is asked only of the clouds
    that have one, and of the type that the mapping gives. *)
Theorem provision_exact p spec region tee h r h' :
  provision_with_requirements p spec region tee h = (r, h') →
  (∃ e, r = Err e ∧ h' = h ∧ (provider_configured p = false ∨ (tee = true ∧ tee_capable p = false))) ∨
  let ty := is_instance_type (map_to_instance_type gpu_cloud_map spec p tee) in
  ∃ failed, h' = h ++ (Provisioned p ty region tee ∘ Err <$> failed) ++ [Provisioned p ty region tee r] ∧ (length failed ≤ 3)%nat ∧
    (∀ e, r = Err e → length failed = 3%nat) ∧ (tee = true → tee_capable p = true).
Proof.
  unfold provision_with_requirements. destruct (provider_configured p); cbn [negb]; [|intros [= <- <-]; left; eexists; by split_and!; [..|left]].
  destruct (tee && negb (tee_capable p)) eqn:Ht.
  { apply andb_true_iff in Ht as [-> Ht%negb_true_iff]. intros [= <- <-]. left. eexists. by split_and!; [..|right]. }
  intros (failed & last & -> & -> & Hl & He)%provision_tries_spec. right. exists failed. split_and!; [done|done|done|].
  intros ->. destruct (tee_capable p); [done|discriminate Ht].
Qed.

(** An instance that was terminated was asked to, and then seen gone. *)
Definition seen_gone (p : CloudProvider) (id : string) (c : CloudCall) : Prop :=
  c = AskedStatus p id (Ok Terminated) ∨ ∃ e, c = AskedStatus p id (Err e) ∧ is_not_found_error e = true.
Lemma verify_terminated_spec more p id h h' :
  verify_terminated more p id h = (Ok tt, h') → ∃ mid c, h' = h ++ mid ++ [c] ∧ seen_gone p id c ∧ (length mid < more)%nat.
Proof.
  revert h. induction more as [|more IH]; intros h; cbn [verify_terminated]; [done|].
  assert (Hlater : ∀ r, verify_terminated more p id (h ++ [AskedStatus p id r]) = (Ok tt, h') →
    ∃ mid c, h' = h ++ mid ++ [c] ∧ seen_gone p id c ∧ (length mid < S more)%nat).
  { intros r (mid & c & -> & Hc & Hl)%IH. exists (AskedStatus p id r :: mid), c. cbn [app length]. split_and!; [by rewrite <- app_assoc|done|lia]. }
  destruct (status_answer h p id) as [[]|e]; try apply Hlater.
  - intros [= <-]. exists [], (AskedStatus p id (Ok Terminated)). split_and!; [done|by left|cbn; lia].
  - destruct (is_not_found_error e) eqn:He; [|apply Hlater]. intros [= <-]. exists [], (AskedStatus p id (Err e)). split_and!; [done|right; by exists e|cbn; lia].
Qed.
Lemma terminate_spec p id h h' :
  terminate p id h = (Ok tt, h') →
  ∃ mid c, h' = h ++ AskedTermination p id (Ok tt) :: mid ++ [c] ∧ seen_gone p id c ∧ (length mid < 10)%nat.
Proof.
  unfold terminate. destruct (negb _); [done|]. destruct (terminate_answer h p id) as [[]|e]; [|done]. intros (mid & c & -> & Hc & Hl)%verify_terminated_spec.
  exists mid, c. split_and!; [by rewrite <- app_assoc|done|done].
Qed.

End provisioner.

(** ** Droplets ([map_do_instance]) *)

(** What the name of a droplet says that it has *)
Definition droplet_size (ty : string) : option (Z * Z) :=
  match List.find (λ p, bool_decide (p.1 = ty))
    [("s-1vcpu-1gb", (1, 1)); ("s-1vcpu-2gb", (1, 2)); ("s-2vcpu-4gb", (2, 4)); ("s-4vcpu-8gb", (4, 8)); ("s-8vcpu-16gb", (8, 16)); ("s-2vcpu-2gb", (2, 2))]%string
  with Some p => Some p.2 | None => None end.
(** A specification of up to eight processors and 16 gigabytes gets a droplet that has as
    much. *)
Theorem droplet_large_enough spec :
  spec_fits spec 8 16 = true → ∃ c m, droplet_size (map_do_instance_type spec) = Some (c, m) ∧ spec_fits spec c m = true.
Proof.
  intros H. unfold map_do_instance_type. rewrite H.
  destruct (spec_fits spec 1 1) eqn:?, (spec_fits spec 1 2) eqn:?, (spec_fits spec 2 4) eqn:?, (spec_fits spec 4 8) eqn:?; eexists _, _; (split; [vm_compute; reflexivity|done]).
Qed.
(** A larger one gets the default, which is smaller; so with the other clouds. *)
Theorem large_spec_small_instance :
  map_do_instance_type (mkSpec (f32_of 12) (f32_of 24) (f32_of 10) None false) = "s-2vcpu-2gb"%string ∧
  map_vultr_instance_type (mkSpec (f32_of 12) (f32_of 24) (f32_of 10) None false) = "vc2-2c-2gb"%string ∧
  map_aws_instance_type (mkSpec (f32_of 40) (f32_of 160) (f32_of 10) None false) = "m6i.large"%string ∧
  map_gcp_instance_type (mkSpec (f32_of 32) (f32_of 128) (f32_of 10) None false) = "e2-standard-2"%string ∧
  map_azure_instance_type (mkSpec (f32_of 16) (f32_of 64) (f32_of 10) None false) = "Standard_D2s_v5"%string.
Proof. vm_compute. done. Qed.

(** ** An instance *)

Definition demo_instance : ProvisionedInstance := mkInstance "i-1" AWS "t3.medium" "us-east-1" None None Starting.
(** A cloud that fails twice and then provides *)
Definition demo_adapter : CloudAdapter :=
  {| provider_configured := λ p, bool_decide (p = AWS);
     provision_answer := λ h _ _ _ _, if (2 <=? length h)%nat then Ok demo_instance else Err (HttpError "busy");
     terminate_answer := λ _ _ _, Ok tt; status_answer := λ _ _ _, Ok Terminated |}.
Lemma provision_exact_witness :
  let '(r, h) := provision_with_requirements (CA := demo_adapter) (NT := {| show_float := λ _, ""%string; read_f64 := λ _, None; json_real := λ _, ""%string; read_rfc3339 := λ _, None |})
    (λ _ _, mkSelection "" false f64_zero) AWS spec_basic "us-east-1" false [] in
  (∃ e, r = Err e ∧ h = [] ∧ (provider_configured (CloudAdapter := demo_adapter) AWS = false ∨ (false = true ∧ tee_capable AWS = false))) ∨
  ∃ failed, h = [] ++ (Provisioned AWS "t3.medium" "us-east-1" false ∘ Err <$> failed) ++ [Provisioned AWS "t3.medium" "us-east-1" false r] ∧
    (length failed ≤ 3)%nat ∧ (∀ e, r = Err e → length failed = 3%nat) ∧ (false = true → tee_capable AWS = true).
Proof.
  refine (provision_exact (CA := demo_adapter) (NT := {| show_float := λ _, ""%string; read_f64 := λ _, None; json_real := λ _, ""%string; read_rfc3339 := λ _, None |})
    (λ _ _, mkSelection "" false f64_zero) AWS spec_basic "us-east-1" false [] _ _ _). vm_compute. reflexivity.
Defined.
