(* ===== verification/DeployTracker.v ===== *)
(** * The tracker of deployments ([blueprint-remote-providers/src/deployment/tracker],
      [monitoring/health.rs])

    Which deployment a blueprint has, kept in memory and in a file, and the operations
    that end deployments: terminations, time limits and the recovery of the health
    monitor.  The cleanup handlers of the deployment types are the class [CleanupWorld]. *)

From Stdlib Require Import ZArith Lia Ascii SpecFloat.
From stdpp Require Import base gmap sets list sorting strings pretty fin_maps numbers relations.
From S2P Require Import Prelude Bytes Text Float AggPersist LocalDb Shell SshDeploy Infra.

#[local] Open Scope Z_scope.

(** ** Data ([tracker/types.rs]) *)

Inductive DeploymentType :=
| LocalDocker | LocalKubernetes | LocalHypervisor | AwsEc2 | GcpGce | AzureVm | DigitalOceanDroplet | VultrInstance
| AwsEks | GcpGke | AzureAks | DigitalOceanDoks | VultrVke
| LambdaLabsInstance | RunPodInstance | VastAiInstance | CoreWeaveWorkload | PaperspaceMachine | FluidstackServer | TensorDockServer | AkashLease
| IoNetCluster | PrimeIntellectPod | RenderDispersedNode | BittensorLiumMiner | HetznerServer | CrusoeVm | SshRemote | BareMetalHost.
#[export] Instance DeploymentType_eq_dec : EqDecision DeploymentType.
Proof. solve_decision. Defined.
Inductive DeploymentStatus := DsActive | DsTerminating | DsTerminated | DsFailed | DsUnknown.
#[export] Instance DeploymentStatus_eq_dec : EqDecision DeploymentStatus.
Proof. solve_decision. Defined.
Record DeploymentRecord := mkRecord {
  dr_id : string; dr_blueprint_id : string; dr_deployment_type : DeploymentType; dr_provider : option CloudProvider; dr_region : option string;
  dr_resource_spec : ResourceSpec; dr_resource_ids : gmap string string; dr_deployed_at : Z; dr_ttl_seconds : option Z; dr_expires_at : option Z;
  dr_status : DeploymentStatus; dr_cleanup_webhook : option string; dr_metadata : gmap string string;
}.
Definition set_resource_ids (ids : gmap string string) (r : DeploymentRecord) : DeploymentRecord :=
  mkRecord (dr_id r) (dr_blueprint_id r) (dr_deployment_type r) (dr_provider r) (dr_region r) (dr_resource_spec r) ids (dr_deployed_at r) (dr_ttl_seconds r)
    (dr_expires_at r) (dr_status r) (dr_cleanup_webhook r) (dr_metadata r).
(** [DeploymentRecord::new], at a second and with a fresh identifier; [add_resource],
    [set_cloud_info] *)
Definition record_new (now : Z) (uuid blueprint_id : string) (ty : DeploymentType) (spec : ResourceSpec) (ttl : option Z) : DeploymentRecord :=
  mkRecord ("dep-" +:+ uuid) blueprint_id ty None None spec ∅ now ttl ((λ t, now + cast (mkIntTy 64 true) t) <$> ttl) DsActive None ∅.
Definition add_resource (ty id : string) (r : DeploymentRecord) : DeploymentRecord := set_resource_ids (<[ty := id]> (dr_resource_ids r)) r.
Definition set_cloud_info (p : CloudProvider) (region : string) (r : DeploymentRecord) : DeploymentRecord :=
  mkRecord (dr_id r) (dr_blueprint_id r) (dr_deployment_type r) (Some p) (Some region) (dr_resource_spec r) (dr_resource_ids r) (dr_deployed_at r)
    (dr_ttl_seconds r) (dr_expires_at r) (dr_status r) (dr_cleanup_webhook r) (dr_metadata r).

(** ** The tracker *)

(** What was done outside: cleanups with their outcome, notifications *)
Inductive TrackerEvent := CleanedUp (r : DeploymentRecord) (outcome : result RemoteError unit) | Notified (url blueprint_id status : string).
(** The tracker with its file and what was done.  The text of the file, when there is one *)
Record Tracker := mkTracker { tk_deployments : gmap string DeploymentRecord; tk_file : option string; tk_events : list TrackerEvent }.
Definition set_deployments (m : gmap string DeploymentRecord) (t : Tracker) : Tracker := mkTracker m (tk_file t) (tk_events t).
Definition record_event (e : TrackerEvent) (t : Tracker) : Tracker := mkTracker (tk_deployments t) (tk_file t) (tk_events t ++ [e]).

Class CleanupWorld := {
  cleanup_answer : list TrackerEvent → DeploymentRecord → result RemoteError unit;
  save_answer : list TrackerEvent → result string unit;
}.

(** [register_default_handlers] *)
Definition has_handler (ty : DeploymentType) : bool :=
  match ty with
  | LocalDocker | LocalKubernetes | LocalHypervisor | AwsEc2 | GcpGce | AzureVm | DigitalOceanDroplet | VultrInstance | AwsEks | GcpGke | AzureAks | SshRemote => true
  | _ => false
  end.

Section tracker.
  Context `{J : DbJson DeploymentRecord} `{CW : CleanupWorld}.

(** [load_state], [DeploymentTracker::new] *)
Definition load_state (text : string) : result RemoteError (gmap string DeploymentRecord) :=
  match from_json text with Some m => Ok m | None => Err (ConfigurationError "Failed to parse state") end.
Definition tracker_new (file : option string) (events : list TrackerEvent) : result RemoteError Tracker :=
  match file with
  | Some text => m ← load_state text; Ok (mkTracker m file events)
  | None => Ok (mkTracker ∅ file events)
  end.

(** [save_state] *)
Definition save_state (t : Tracker) : result RemoteError unit * Tracker :=
  match to_json (tk_deployments t) with
  | Err e => (Err (ConfigurationError ("Failed to serialize state: " +:+ e)), t)
  | Ok text =>
      match save_answer (tk_events t) with
      | Err e => (Err (ConfigurationError ("Failed to write state: " +:+ e)), t)
      | Ok _ => (Ok tt, mkTracker (tk_deployments t) (Some text) (tk_events t))
      end
  end.

(** [register_deployment]: the task that it may schedule is a later [handle_ttl_expiry] *)
Definition register_deployment (blueprint_id : string) (r : DeploymentRecord) (t : Tracker) : result RemoteError unit * Tracker :=
  save_state (set_deployments (<[blueprint_id := r]> (tk_deployments t)) t).

(** [cleanup_deployment]: three attempts *)
Definition notify_cleanup (blueprint_id status : string) (r : DeploymentRecord) (t : Tracker) : Tracker :=
  match dr_cleanup_webhook r with Some url => record_event (Notified url blueprint_id status) t | None => t end.
Fixpoint cleanup_attempts (more : nat) (blueprint_id : string) (r : DeploymentRecord) (t : Tracker) : result RemoteError unit * Tracker :=
  let a := cleanup_answer (tk_events t) r in
  let t := record_event (CleanedUp r a) t in
  match a, more with
  | Ok _, _ => (Ok tt, notify_cleanup blueprint_id "success" r t)
  | Err _, S more => cleanup_attempts more blueprint_id r t
  | Err e, O => (Err e, notify_cleanup blueprint_id "failed" r t)
  end.
Definition cleanup_deployment (blueprint_id : string) (r : DeploymentRecord) (t : Tracker) : result RemoteError unit * Tracker :=
  if has_handler (dr_deployment_type r) then cleanup_attempts 2 blueprint_id r t else (Err (ConfigurationError "No handler"), t).

(** [handle_termination], [handle_ttl_expiry], [check_all_ttls] *)
Definition handle_termination (blueprint_id : string) (t : Tracker) : result RemoteError unit * Tracker :=
  match tk_deployments t !! blueprint_id with
  | None => (Err (ConfigurationError ("No deployment found for " +:+ blueprint_id)), t)
  | Some r =>
      match cleanup_deployment blueprint_id r t with
      | (Err e, t) => (Err e, t)
      | (Ok _, t) => save_state (set_deployments (delete blueprint_id (tk_deployments t)) t)
      end
  end.
Definition expired (now : Z) (r : DeploymentRecord) : bool := match dr_expires_at r with Some e => e <=? now | None => false end.
Definition handle_ttl_expiry (now : Z) (blueprint_id : string) (t : Tracker) : result RemoteError unit * Tracker :=
  match tk_deployments t !! blueprint_id with
  | Some r => if expired now r then handle_termination blueprint_id t else (Ok tt, t)
  | None => (Ok tt, t)
  end.
Definition check_all_ttls (now : Z) (t : Tracker) : Tracker :=
  foldl (λ t k, (handle_ttl_expiry now k t).2) t (fst <$> List.filter (λ kr, expired now kr.2) (map_to_list (tk_deployments t))).

(** The queries: [get_deployment_status], [list_active], [get_by_instance_id] *)
Definition get_deployment_status (blueprint_id : string) (t : Tracker) : option DeploymentStatus := dr_status <$> tk_deployments t !! blueprint_id.
Definition list_active (t : Tracker) : list DeploymentRecord :=
  List.filter (λ r, bool_decide (dr_status r = DsActive)) (snd <$> map_to_list (tk_deployments t)).
Definition find_instance (instance_id : string) (t : Tracker) : option (string * DeploymentRecord) :=
  List.find (λ kr, bool_decide (dr_id kr.2 = instance_id)) (map_to_list (tk_deployments t)).
Definition get_by_instance_id (instance_id : string) (t : Tracker) : option DeploymentRecord := snd <$> find_instance instance_id t.

(** [remove_by_instance_id], [update_instance_id] *)
Definition remove_by_instance_id (instance_id : string) (t : Tracker) : result RemoteError unit * Tracker :=
  match find_instance instance_id t with
  | Some (k, _) => save_state (set_deployments (delete k (tk_deployments t)) t)
  | None => (Ok tt, t)
  end.
Definition update_instance_id (old_id new_id : string) (t : Tracker) : result RemoteError unit * Tracker :=
  match tk_deployments t !! old_id with
  | Some r => save_state (set_deployments (<[new_id := add_resource "instance_id" new_id r]> (delete old_id (tk_deployments t))) t)
  | None => (Ok tt, t)
  end.

(** The operations of the tracker, the ones that end deployments first *)
Inductive TrackerOp :=
| OpTermination (blueprint_id : string) | OpTtl (now : Z) (blueprint_id : string) | OpCheckAll (now : Z)
| OpRegister (blueprint_id : string) (r : DeploymentRecord) | OpRemoveInstance (instance_id : string) | OpUpdateInstance (old_id new_id : string).
Definition tracker_op (o : TrackerOp) (t : Tracker) : Tracker :=
  match o with
  | OpTermination k => (handle_termination k t).2 | OpTtl now k => (handle_ttl_expiry now k t).2 | OpCheckAll now => check_all_ttls now t
  | OpRegister k r => (register_deployment k r t).2 | OpRemoveInstance i => (remove_by_instance_id i t).2 | OpUpdateInstance o n => (update_instance_id o n t).2
  end.

(** *** What the operations do *)

Lemma save_state_keeps t : tk_deployments (save_state t).2 = tk_deployments t ∧ tk_events (save_state t).2 = tk_events t.
Proof. unfold save_state. repeat case_match; done. Qed.
Lemma notify_cleanup_keeps k s r t : tk_deployments (notify_cleanup k s r t) = tk_deployments t ∧ tk_file (notify_cleanup k s r t) = tk_file t ∧ ∃ l, tk_events (notify_cleanup k s r t) = tk_events t ++ l.
Proof. unfold notify_cleanup. case_match; (split_and!; [done|done|]); [by eexists|exists []; by rewrite app_nil_r]. Qed.

(** The attempts of a cleanup change no record; when they succeed, the cleanup did. *)
Lemma cleanup_attempts_spec more k r t res t' :
  cleanup_attempts more k r t = (res, t') →
  tk_deployments t' = tk_deployments t ∧ tk_file t' = tk_file t ∧ ∃ l, tk_events t' = tk_events t ++ l ∧ (is_Ok res → CleanedUp r (Ok tt) ∈ l).
Proof.
  revert t. induction more as [|more IH]; intros t; cbn [cleanup_attempts]; destruct (cleanup_answer (tk_events t) r) as [[]|e].
  1,2,3: intros [= <- <-];
    match goal with |- context [notify_cleanup ?k' ?s' ?r' ?t'] => destruct (notify_cleanup_keeps k' s' r' t') as (-> & -> & l & ->) end;
    (split_and!; [done|done|]); eexists; (split; [cbn [tk_events record_event]; by rewrite <- app_assoc|]); (by left || by intros [? ?]).
  intros (Hd & Hf & l & Hl & Hok)%IH. cbn [record_event tk_deployments tk_file tk_events] in *. split_and!; [done|done|].
  eexists. split; [rewrite Hl, <- app_assoc; reflexivity|]. intros H. right. by apply Hok.
Qed.

Lemma cleanup_deployment_spec k r t res t' :
  cleanup_deployment k r t = (res, t') →
  tk_deployments t' = tk_deployments t ∧ tk_file t' = tk_file t ∧ ∃ l, tk_events t' = tk_events t ++ l ∧ (is_Ok res → CleanedUp r (Ok tt) ∈ l).
Proof.
  unfold cleanup_deployment. destruct (has_handler _); [apply cleanup_attempts_spec|]. intros [= <- <-]. split_and!; [done|done|]. exists [].
  split; [by rewrite app_nil_r|]. by intros [? ?].
Qed.

(** How one operation changes the records: [ends] says what holds of one that is gone *)
Definition only_ends (t t' : Tracker) : Prop :=
  (∃ l, tk_events t' = tk_events t ++ l) ∧
  ∀ k r, tk_deployments t !! k = Some r → tk_deployments t' !! k = Some r ∨ (tk_deployments t' !! k = None ∧ CleanedUp r (Ok tt) ∈ tk_events t').
Definition no_more (t t' : Tracker) : Prop := ∀ k, tk_deployments t !! k = None → tk_deployments t' !! k = None.
Lemma no_more_refl t : no_more t t.
Proof. by intros k H. Qed.
Lemma only_ends_refl t : only_ends t t.
Proof. split; [exists []; by rewrite app_nil_r|]. intros. by left. Qed.
Lemma only_ends_trans t t1 t2 : only_ends t t1 → only_ends t1 t2 → no_more t1 t2 → only_ends t t2.
Proof.
  intros [[l1 H1] E1] [[l2 H2] E2] Hno. split; [exists (l1 ++ l2); by rewrite H2, H1, app_assoc|]. intros k r Hk.
  destruct (E1 k r Hk) as [Hk1|[Hk1 Hc]]; [by apply E2|]. right. split; [by apply Hno|]. rewrite H2. apply elem_of_app. by left.
Qed.

Lemma termination_ends k t : only_ends t (handle_termination k t).2 ∧ no_more t (handle_termination k t).2.
Proof.
  unfold handle_termination. destruct (tk_deployments t !! k) as [r|] eqn:Hk; [|split; [apply only_ends_refl|apply no_more_refl]].
  destruct (cleanup_deployment k r t) as [[[]|e] t1] eqn:Hc; apply cleanup_deployment_spec in Hc as (Hd & Hf & l & Hl & Hok).
  2: { cbn [snd]. split; [split; [by exists l|]; intros k' r' Hk'; left; by rewrite Hd|]. intros k' Hk'. by rewrite Hd. }
  destruct (save_state_keeps (set_deployments (delete k (tk_deployments t1)) t1)) as [Hs He]. cbn [set_deployments tk_deployments tk_events] in Hs, He.
  split.
  - split; [exists l; by rewrite He|]. intros k' r' Hk'. rewrite Hs, He, Hd. destruct (decide (k' = k)) as [->|Hne].
    + right. rewrite lookup_delete_eq. split; [done|]. simplify_eq. rewrite Hl. apply elem_of_app. right. apply Hok. by eexists.
    + left. by rewrite lookup_delete_ne.
  - intros k' Hk'. rewrite Hs, Hd. apply lookup_delete_None. by right.
Qed.
Lemma ttl_ends now k t : only_ends t (handle_ttl_expiry now k t).2 ∧ no_more t (handle_ttl_expiry now k t).2.
Proof.
  unfold handle_ttl_expiry. case_match; [case_match; [apply termination_ends|]|]; (split; [apply only_ends_refl|apply no_more_refl]).
Qed.
Lemma check_all_ends now t : only_ends t (check_all_ttls now t) ∧ no_more t (check_all_ttls now t).
Proof.
  unfold check_all_ttls. generalize (fst <$> List.filter (λ kr, expired now kr.2) (map_to_list (tk_deployments t))). intros l. revert t.
  induction l as [|k l IH]; intros t; [split; [apply only_ends_refl|apply no_more_refl]|]. cbn [foldl]. destruct (ttl_ends now k t) as [H1 N1]. destruct (IH (handle_ttl_expiry now k t).2) as [H2 N2].
  split; [by eapply only_ends_trans|]. intros k' Hk'. by apply N2, N1.
Qed.

(** The operations that do not touch the record of a blueprint themselves *)
Definition spares (k : string) (o : TrackerOp) : Prop :=
  match o with OpTermination _ | OpTtl _ _ | OpCheckAll _ => True | OpRegister k' _ => k' ≠ k | _ => False end.
Definition kept_or_cleaned (k : string) (r : DeploymentRecord) (t : Tracker) : Prop :=
  tk_deployments t !! k = Some r ∨ (tk_deployments t !! k = None ∧ CleanedUp r (Ok tt) ∈ tk_events t).
Lemma spared_step k r o t : spares k o → kept_or_cleaned k r t → kept_or_cleaned k r (tracker_op o t).
Proof.
  intros Ho H.
  assert (Hend : only_ends t (tracker_op o t) ∧ no_more t (tracker_op o t) → kept_or_cleaned k r (tracker_op o t)).
  { intros [[[l Hl] He] Hno]. destruct H as [H|[H Hc]]; [by apply He|]. right. split; [by apply Hno|]. rewrite Hl. apply elem_of_app. by left. }
  destruct o; cbn [spares tracker_op] in *; try done; [apply Hend, termination_ends|apply Hend, ttl_ends|apply Hend, check_all_ends|].
  unfold register_deployment, kept_or_cleaned. destruct (save_state_keeps (set_deployments (<[blueprint_id:=r0]> (tk_deployments t)) t)) as [-> ->].
  cbn [set_deployments tk_deployments tk_events]. by rewrite lookup_insert_ne.
Qed.

(** A deployment is forgotten only once it is cleaned up: as terminations and time
    limits are handled, in any order and with cleanups and writes that may fail, the
    record of a blueprint stays until the handler of its type has cleaned it up. *)
Theorem record_ends_cleaned k r ops t :
  Forall (spares k) ops → tk_deployments t !! k = Some r →
  let t' := foldl (λ t o, tracker_op o t) t ops in
  tk_deployments t' !! k = Some r ∨ (tk_deployments t' !! k = None ∧ CleanedUp r (Ok tt) ∈ tk_events t').
Proof.
  intros Ho Hk. assert (H : kept_or_cleaned k r t) by (by left). clear Hk. revert t H.
  induction Ho as [|o ops Ho _ IH]; intros t H; [exact H|]. cbn [foldl]. apply IH. by apply spared_step.
Qed.

(** A type without a handler is never cleaned up. *)
Lemma unhandled_stays k r t :
  tk_deployments t !! k = Some r → has_handler (dr_deployment_type r) = false → (∃ e, (handle_termination k t).1 = Err e) ∧ (handle_termination k t).2 = t.
Proof. intros Hk Hh. unfold handle_termination. rewrite Hk. unfold cleanup_deployment. rewrite Hh. split; [by eexists|done]. Qed.

(** *** The file *)

Section saved.
  Context `{L : !DbJsonLaws DeploymentRecord J}.
  Context (json_total : ∀ m, is_Ok (to_json (T := DeploymentRecord) m)) (writes : ∀ l, save_answer l = Ok tt).

(** What is in the file is what is in memory. *)
Definition on_file (t : Tracker) : Prop :=
  match tk_file t with Some text => from_json text = Some (tk_deployments t) | None => tk_deployments t = ∅ end.
Lemma saved_on_file t : on_file (save_state t).2.
Proof.
  unfold save_state, on_file. destruct (json_total (tk_deployments t)) as [text Ht]. rewrite Ht, writes. cbn [snd tk_file tk_deployments].
  by apply json_round_trip.
Qed.
Lemma termination_on_file k t : on_file t → on_file (handle_termination k t).2.
Proof.
  intros H. unfold handle_termination. destruct (tk_deployments t !! k) as [r|]; [|done].
  destruct (cleanup_deployment k r t) as [[[]|e] t1] eqn:Hc; [apply saved_on_file|].
  apply cleanup_deployment_spec in Hc as (Hd & Hf & _). unfold on_file in *. cbn [snd]. by rewrite Hd, Hf.
Qed.
Lemma ttl_on_file now k t : on_file t → on_file (handle_ttl_expiry now k t).2.
Proof. intros H. unfold handle_ttl_expiry. case_match; [case_match; [by apply termination_on_file|done]|done]. Qed.
Lemma tracker_op_on_file o t : on_file t → on_file (tracker_op o t).
Proof.
  intros H. destruct o; cbn [tracker_op].
  - by apply termination_on_file.
  - by apply ttl_on_file.
  - unfold check_all_ttls. generalize (fst <$> List.filter (λ kr, expired now kr.2) (map_to_list (tk_deployments t))). intros l. revert t H.
    induction l as [|k l IH]; intros t H; [done|]. cbn [foldl]. by apply IH, ttl_on_file.
  - apply saved_on_file.
  - unfold remove_by_instance_id. destruct (find_instance _ _) as [[k r]|]; [apply saved_on_file|done].
  - unfold update_instance_id. destruct (tk_deployments t !! old_id); [apply saved_on_file|done].
Qed.

(** The tracker survives a restart: whatever operations it did, a new tracker on its
    file has the same records, so no machine that is still there is forgotten. *)
Theorem tracker_survives_restart ops t0 :
  tracker_new None [] = Ok t0 →
  let t := foldl (λ t o, tracker_op o t) t0 ops in
  ∃ t', tracker_new (tk_file t) (tk_events t) = Ok t' ∧ tk_deployments t' = tk_deployments t.
Proof.
  intros [= <-]. assert (H : on_file (mkTracker ∅ None [])) by done. revert H. generalize (mkTracker ∅ None []).
  induction ops as [|o ops IH]; intros t H; [|cbn [foldl]; by apply IH, tracker_op_on_file].
  cbn [foldl]. unfold on_file in H. unfold tracker_new. destruct (tk_file t) as [text|]; [|by eexists].
  unfold load_state. rewrite H. by eexists.
Qed.

End saved.

(** ** The health monitor ([monitoring/health.rs]) *)

Context `{CA : CloudAdapter} `{NT : NumberText} (gpu_cloud_map : CloudProvider → ResourceSpec → InstanceSelection).

(** [DeploymentType::as_provider] *)
Definition as_provider (ty : DeploymentType) : CloudProvider :=
  match ty with
  | AwsEc2 | AwsEks => AWS | GcpGce | GcpGke => GCP | AzureVm | AzureAks => Azure | DigitalOceanDroplet | DigitalOceanDoks => DigitalOcean
  | VultrInstance | VultrVke => Vultr | _ => AWS
  end.
(** The state of the monitor's loop: the tracker, the calls and the counts *)
Record Monitor := mkMonitor { mo_tracker : Tracker; mo_calls : list CloudCall; mo_failures : gmap string Z }.
(** [check_deployment_health] *)
Definition check_deployment_health (r : DeploymentRecord) (calls : list CloudCall) : HealthStatus * list CloudCall :=
  let '(s, calls) := get_status (as_provider (dr_deployment_type r)) (dr_id r) calls in
  (match s with
   | Err _ => HealthUnknown
   | Ok Running => Healthy | Ok Starting => Degraded | Ok Stopping | Ok Stopped | Ok Terminated => Unhealthy | Ok StatusUnknown => HealthUnknown
   end, calls).
(** [attempt_recovery] *)
Definition attempt_recovery (r : DeploymentRecord) (m : Monitor) : result RemoteError unit * Monitor :=
  let p := as_provider (dr_deployment_type r) in
  let '(_, calls) := terminate p (dr_id r) (mo_calls m) in
  let '(res, calls) := provision gpu_cloud_map p (dr_resource_spec r) (default "us-east-1"%string (dr_region r)) calls in
  match res with
  | Ok i => let '(res, t) := update_instance_id (dr_id r) (pi_id i) (mo_tracker m) in (res, mkMonitor t calls (mo_failures m))
  | Err e => (Err e, mkMonitor (mo_tracker m) calls (mo_failures m))
  end.
(** One round of [start_monitoring] *)
Definition bump_failures (id : string) (f : gmap string Z) : gmap string Z := <[id := u32_wrap (default 0 (f !! id) + 1)]> f.
Definition monitor_one (max_failures : Z) (auto_recover : bool) (m : Monitor) (r : DeploymentRecord) : Monitor :=
  let '(s, calls) := check_deployment_health r (mo_calls m) in
  match s with
  | Healthy => mkMonitor (mo_tracker m) calls (delete (dr_id r) (mo_failures m))
  | Degraded => mkMonitor (mo_tracker m) calls (bump_failures (dr_id r) (mo_failures m))
  | Unhealthy =>
      let m := mkMonitor (mo_tracker m) calls (bump_failures (dr_id r) (mo_failures m)) in
      if (max_failures <=? default 0 (mo_failures m !! dr_id r)) && auto_recover then (attempt_recovery r m).2 else m
  | HealthUnknown => mkMonitor (mo_tracker m) calls (mo_failures m)
  end.
Definition monitor_round (max_failures : Z) (auto_recover : bool) (m : Monitor) : Monitor :=
  foldl (monitor_one max_failures auto_recover) m (list_active (mo_tracker m)).

(** The replacement of a machine is not recorded: the record is looked for by its own
    identifier, while it is kept by that of the blueprint. *)
Lemma replacement_not_recorded r m :
  tk_deployments (mo_tracker m) !! dr_id r = None → mo_tracker (attempt_recovery r m).2 = mo_tracker m.
Proof.
  intros H. unfold attempt_recovery. destruct (terminate _ _ _) as [? calls]. destruct (provision _ _ _ _ _) as [[i|e] calls2]; [|done].
  unfold update_instance_id. by rewrite H.
Qed.

End tracker.

(** ** Instances *)

Definition demo_record : DeploymentRecord := record_new 100 "1" "bp-1" AwsEc2 spec_basic (Some 60).
Definition demo_cleanup : CleanupWorld :=
  {| cleanup_answer := λ l _, if (1 <=? length l)%nat then Ok tt else Err (HttpError "busy"); save_answer := λ _, Ok tt |}.

(** Records in the binary text of their code *)
#[export] Instance spec_float_eq_dec : EqDecision spec_float.
Proof. solve_decision. Defined.
#[export] Instance spec_float_countable : Countable spec_float.
Proof.
  refine (inj_countable'
    (λ x, match x with S754_zero s => inl s | S754_infinity s => inr (inl s) | S754_nan => inr (inr (inl tt)) | S754_finite s m e => inr (inr (inr (s, m, e))) end)
    (λ y, match y with inl s => S754_zero s | inr (inl s) => S754_infinity s | inr (inr (inl _)) => S754_nan | inr (inr (inr (s, m, e))) => S754_finite s m e end) _).
  by intros [].
Defined.
Definition position {A} `{EqDecision A} (l : list A) (x : A) : nat := default 0%nat (fst <$> list_find (x =.) l).
Definition plain_providers : list CloudProvider :=
  [AWS; GCP; Azure; DigitalOcean; Vultr; Linode; LambdaLabs; RunPod; VastAi; CoreWeave; Paperspace; Fluidstack; TensorDock; Akash; IoNet; PrimeIntellect; Render;
   BittensorLium; Hetzner; Crusoe; Generic; DockerLocal].
#[export] Instance CloudProvider_countable : Countable CloudProvider.
Proof.
  refine (inj_countable'
    (λ p, match p with DockerRemote h => inr (inl h) | BareMetal l => inr (inr l) | p => inl (position plain_providers p) end)
    (λ y, match y with inl n => default AWS (plain_providers !! n) | inr (inl h) => DockerRemote h | inr (inr l) => BareMetal l end) _).
  by intros [].
Defined.
Definition deployment_types : list DeploymentType :=
  [LocalDocker; LocalKubernetes; LocalHypervisor; AwsEc2; GcpGce; AzureVm; DigitalOceanDroplet; VultrInstance; AwsEks; GcpGke; AzureAks; DigitalOceanDoks; VultrVke;
   LambdaLabsInstance; RunPodInstance; VastAiInstance; CoreWeaveWorkload; PaperspaceMachine; FluidstackServer; TensorDockServer; AkashLease; IoNetCluster;
   PrimeIntellectPod; RenderDispersedNode; BittensorLiumMiner; HetznerServer; CrusoeVm; SshRemote; BareMetalHost].
#[export] Instance DeploymentType_countable : Countable DeploymentType.
Proof. refine (inj_countable' (position deployment_types) (λ n, default LocalDocker (deployment_types !! n)) _). by intros []. Defined.
Definition deployment_statuses : list DeploymentStatus := [DsActive; DsTerminating; DsTerminated; DsFailed; DsUnknown].
#[export] Instance DeploymentStatus_countable : Countable DeploymentStatus.
Proof. refine (inj_countable' (position deployment_statuses) (λ n, default DsActive (deployment_statuses !! n)) _). by intros []. Defined.
#[export] Instance ResourceSpec_eq_dec : EqDecision ResourceSpec.
Proof. solve_decision. Defined.
#[export] Instance ResourceSpec_countable : Countable ResourceSpec.
Proof.
  refine (inj_countable' (λ s, (rs_cpu s, rs_memory_gb s, rs_storage_gb s, rs_gpu_count s, rs_allow_spot s)) (λ '(c, m, d, g, a), mkSpec c m d g a) _). by intros [].
Defined.
#[export] Instance DeploymentRecord_eq_dec : EqDecision DeploymentRecord.
Proof. solve_decision. Defined.
#[export] Instance DeploymentRecord_countable : Countable DeploymentRecord.
Proof.
  refine (inj_countable'
    (λ r, (dr_id r, dr_blueprint_id r, dr_deployment_type r, dr_provider r, dr_region r, dr_resource_spec r, dr_resource_ids r, dr_deployed_at r, dr_ttl_seconds r,
           dr_expires_at r, dr_status r, dr_cleanup_webhook r, dr_metadata r))
    (λ '(a, b, c, d, e, f, g, h, i, j, k, l, m), mkRecord a b c d e f g h i j k l m) _). by intros [].
Defined.
#[export] Instance toy_tracker_json : DbJson DeploymentRecord :=
  {| to_json := λ m, Ok (pos_text (encode m)); from_json := λ s, text_pos s ≫= decode |}.
#[export] Instance toy_tracker_json_laws : DbJsonLaws DeploymentRecord toy_tracker_json.
Proof. split. intros m s [= <-]. cbn. rewrite text_pos_text. cbn. apply decode_encode. Qed.

Lemma record_ends_cleaned_witness :
  let t' := foldl (λ t o, tracker_op (CW := demo_cleanup) o t) (mkTracker {["bp-1"%string := demo_record]} None []) [OpCheckAll 120; OpCheckAll 160] in
  tk_deployments t' !! "bp-1"%string = Some demo_record ∨ (tk_deployments t' !! "bp-1"%string = None ∧ CleanedUp demo_record (Ok tt) ∈ tk_events t').
Proof.
  apply (record_ends_cleaned (CW := demo_cleanup) "bp-1" demo_record).
  - by repeat constructor.
  - reflexivity.
Defined.

Lemma tracker_survives_restart_witness :
  let t := foldl (λ t o, tracker_op (CW := demo_cleanup) o t) (mkTracker ∅ None []) [OpRegister "bp-1" demo_record; OpRegister "bp-2" demo_record; OpTermination "bp-1"] in
  ∃ t', tracker_new (tk_file t) (tk_events t) = Ok t' ∧ tk_deployments t' = tk_deployments t.
Proof.
  apply (tracker_survives_restart (CW := demo_cleanup)).
  - intros m. by eexists.
  - done.
  - reflexivity.
Defined.

(** A machine that stopped is replaced in every round: the record keeps its old identifier
    and its count, and the replacements are in no record. *)
Definition stopped_cloud : CloudAdapter :=
  {| provider_configured := λ _, true; provision_answer := λ h _ _ _ _, Ok (mkInstance ("i-" +:+ pretty (Z.of_nat (length h))) AWS "t3.medium" "us-east-1" None None Starting);
     terminate_answer := λ _ _ _, Ok tt; status_answer := λ _ _ _, Ok Terminated |}.
Definition provisioned (l : list CloudCall) : nat := length (List.filter (λ c, match c with Provisioned _ _ _ _ (Ok _) => true | _ => false end) l).
Definition monitored (rounds : nat) : Monitor :=
  Nat.iter rounds (monitor_round (CA := stopped_cloud) (CW := demo_cleanup) (NT := {| show_float := λ _, ""%string; read_f64 := λ _, None; json_real := λ _, ""%string; read_rfc3339 := λ _, None |})
    (λ _ _, mkSelection "" false f64_zero) 3 true) (mkMonitor (mkTracker {["bp-1"%string := demo_record]} None []) [] ∅).
Theorem replaced_every_round :
  provisioned (mo_calls (monitored 2)) = 0%nat ∧ provisioned (mo_calls (monitored 3)) = 1%nat ∧ provisioned (mo_calls (monitored 6)) = 4%nat ∧
  mo_tracker (monitored 6) = mo_tracker (monitored 0).
Proof. vm_compute. done. Qed.
(** A second deployment of a blueprint replaces the record of the first, which nothing
    cleans up. *)
Theorem registered_over :
  let t := tracker_op (CW := demo_cleanup) (OpRegister "bp-1" (record_new 200 "2" "bp-1" AwsEc2 spec_basic None)) (mkTracker {["bp-1"%string := demo_record]} None []) in
  get_by_instance_id "dep-1" t = None ∧ tk_events t = [].
Proof. vm_compute. done. Qed.
