(* ===== verification/DeployUpdate.v ===== *)
(** * Updates of deployments ([blueprint-remote-providers/src/deployment/update_manager.rs],
      [error_recovery.rs])

    The update manager replaces the running deployment of a blueprint by a new version,
    by one of four strategies, and rolls back to an old one.  The adapter of the provider
    is the class [UpdateAdapter]: it answers deployments, health checks and cleanups, and
    every answer may depend on all the calls before. *)

From Stdlib Require Import ZArith Lia Ascii SpecFloat.
From stdpp Require Import base gmap sets list sorting strings pretty fin_maps numbers relations.
From S2P Require Import Prelude Bytes Text Float Shell TeeTypes ExecProfile SshDeploy SshExact Infra.

#[local] Open Scope Z_scope.

(** ** Data *)

Definition MAX_VERSION_HISTORY : nat := 10.
(** Durations are not kept: whether a time is over is an answer of the world. *)
Inductive UpdateStrategy := RollingUpdate (max_unavailable max_surge : Z) | BlueGreen | Canary (initial_percentage increment : Z) | Recreate.
Inductive VersionStatus := VActive | VInactive | VFailed | VRolledBack | VStaging.
#[export] Instance VersionStatus_eq_dec : EqDecision VersionStatus.
Proof. solve_decision. Defined.
Record DeploymentVersion := mkVersion {
  dv_version : string; dv_blueprint_image : string; dv_resource_spec : ResourceSpec; dv_env_vars : gmap string string; dv_deployment_time : Z;
  dv_status : VersionStatus; dv_metadata : gmap string string; dv_container_id : option string;
}.
Definition set_status (s : VersionStatus) (v : DeploymentVersion) : DeploymentVersion :=
  mkVersion (dv_version v) (dv_blueprint_image v) (dv_resource_spec v) (dv_env_vars v) (dv_deployment_time v) s (dv_metadata v) (dv_container_id v).
Record UpdateManager := mkManager { um_versions : list DeploymentVersion; um_active_version : option string; um_strategy : UpdateStrategy }.
Definition update_manager_new (s : UpdateStrategy) : UpdateManager := mkManager [] None s.

(** [add_version], [get_version], [active_version], [get_history] *)
Definition add_version (v : DeploymentVersion) (m : UpdateManager) : UpdateManager :=
  let vs := if (MAX_VERSION_HISTORY <=? length (um_versions m))%nat then drop 1 (um_versions m) else um_versions m in
  mkManager (vs ++ [v]) (um_active_version m) (um_strategy m).
Definition get_version (name : string) (m : UpdateManager) : option DeploymentVersion :=
  List.find (λ v, bool_decide (dv_version v = name)) (um_versions m).
Definition active_version (m : UpdateManager) : option DeploymentVersion := um_active_version m ≫= λ name, get_version name m.
Definition get_history (limit : nat) (m : UpdateManager) : list DeploymentVersion := take limit (rev (um_versions m)).
(** The first version of a name is the one that is marked. *)
Fixpoint mark_first (name : string) (s : VersionStatus) (l : list DeploymentVersion) : list DeploymentVersion :=
  match l with [] => [] | v :: l => if bool_decide (dv_version v = name) then set_status s v :: l else v :: mark_first name s l end.
Definition mark (name : string) (s : VersionStatus) (m : UpdateManager) : UpdateManager :=
  mkManager (mark_first name s (um_versions m)) (um_active_version m) (um_strategy m).
Definition mark_active (s : VersionStatus) (m : UpdateManager) : UpdateManager :=
  match um_active_version m with Some name => mark name s m | None => m end.
Definition activate (name : string) (m : UpdateManager) : UpdateManager := mkManager (um_versions m) (Some name) (um_strategy m).

(** ** The adapter *)

Inductive UpdateCall :=
| UDeployed (image : string) (spec : ResourceSpec) (env : gmap string string) (r : result RemoteError BlueprintDeploymentResult)
| UHealth (d : BlueprintDeploymentResult) (r : result RemoteError bool)
| UCleaned (d : BlueprintDeploymentResult) (r : result RemoteError unit).
Class UpdateAdapter := {
  deploy_answer : list UpdateCall → string → ResourceSpec → gmap string string → result RemoteError BlueprintDeploymentResult;
  health_answer : list UpdateCall → BlueprintDeploymentResult → result RemoteError bool;
  clean_answer : list UpdateCall → BlueprintDeploymentResult → result RemoteError unit;
  (** the time for the health checks is over; the clock *)
  health_time_over : list UpdateCall → bool;
  update_seconds : list UpdateCall → Z;
}.
Record US := mkUS { us_manager : UpdateManager; us_calls : list UpdateCall }.
Definition Upd (A : Type) : Type := US → result RemoteError A * US.
#[export] Instance upd_ret : MRet Upd := λ A a s, (Ok a, s).
#[export] Instance upd_bind : MBind Upd := λ A B f m s, let '(r, s) := m s in match r with Ok a => f a s | Err e => (Err e, s) end.
Definition upd_fails {A} (e : RemoteError) : Upd A := λ s, (Err e, s).
Definition upd_try {A} (m : Upd A) : Upd (result RemoteError A) := λ s, let '(r, s) := m s in (Ok r, s).
Definition modify (f : UpdateManager → UpdateManager) : Upd unit := λ s, (Ok tt, mkUS (f (us_manager s)) (us_calls s)).
Definition gets_manager {A} (f : UpdateManager → A) : Upd A := λ s, (Ok (f (us_manager s)), s).

Section updates.
  Context `{UA : UpdateAdapter}.

Definition call_deploy (image : string) (spec : ResourceSpec) (env : gmap string string) : Upd BlueprintDeploymentResult := λ s,
  let r := deploy_answer (us_calls s) image spec env in (r, mkUS (us_manager s) (us_calls s ++ [UDeployed image spec env r])).
Definition call_health (d : BlueprintDeploymentResult) : Upd bool := λ s,
  let r := health_answer (us_calls s) d in (r, mkUS (us_manager s) (us_calls s ++ [UHealth d r])).
Definition call_cleanup (d : BlueprintDeploymentResult) : Upd unit := λ s,
  let r := clean_answer (us_calls s) d in (r, mkUS (us_manager s) (us_calls s ++ [UCleaned d r])).
Definition now_seconds : Upd Z := λ s, (Ok (update_seconds (us_calls s)), s).

(** [wait_for_healthy]: thirty attempts; under [timeout] there is no answer when the time
    is over *)
Fixpoint wait_for_healthy (attempts : nat) (d : BlueprintDeploymentResult) : Upd bool :=
  match attempts with
  | O => mret false
  | S attempts => upd_try (call_health d) ≫= λ r, match r with Ok true => mret true | _ => wait_for_healthy attempts d end
  end.
Fixpoint wait_within (attempts : nat) (d : BlueprintDeploymentResult) : Upd (option bool) := λ s,
  if health_time_over (us_calls s) then (Ok None, s)
  else match attempts with
  | O => (Ok (Some false), s)
  | S attempts => (upd_try (call_health d) ≫= λ r, match r with Ok true => mret (Some true) | _ => wait_within attempts d end) s
  end.

Definition version_of (version image : string) (spec : ResourceSpec) (env : gmap string string) (now : Z) (s : VersionStatus) (d : BlueprintDeploymentResult)
    : DeploymentVersion := mkVersion version image spec env now s (bd_metadata d) (Some (bd_blueprint_id d)).

(** [blue_green_update]; [switch_traffic] waits and succeeds *)
Definition switch_traffic : Upd unit := mret tt.
Definition blue_green_update (version image : string) (spec : ResourceSpec) (env : gmap string string) (cur : BlueprintDeploymentResult)
    : Upd BlueprintDeploymentResult :=
  let env := <["DEPLOYMENT_COLOR"%string := "green"%string]> (<["DEPLOYMENT_VERSION"%string := version]> env) in
  call_deploy image spec env ≫= λ green,
  now_seconds ≫= λ now,
  modify (add_version (version_of version image spec env now VStaging green)) ≫= λ _,
  wait_within 30 green ≫= λ healthy,
  match healthy with
  | Some true =>
      upd_try switch_traffic ≫= λ r,
      match r with
      | Err e => call_cleanup green ≫= λ _, upd_fails e
      | Ok _ =>
          modify (mark version VActive) ≫= λ _,
          modify (mark_active VInactive) ≫= λ _,
          modify (activate version) ≫= λ _,
          upd_try (call_cleanup cur) ≫= λ _, mret green
      end
  | _ =>
      modify (mark version VFailed) ≫= λ _,
      call_cleanup green ≫= λ _, upd_fails (RemoteOther "Green deployment health check failed")
  end.

(** [rolling_update] *)
Definition rolling_update (version image : string) (spec : ResourceSpec) (env : gmap string string) (cur : BlueprintDeploymentResult)
    : Upd BlueprintDeploymentResult :=
  let env := <["DEPLOYMENT_VERSION"%string := version]> env in
  call_deploy image spec env ≫= λ d,
  wait_for_healthy 30 d ≫= λ healthy,
  if negb healthy then call_cleanup d ≫= λ _, upd_fails (RemoteOther "New deployment failed health check")
  else
    call_cleanup cur ≫= λ _,
    now_seconds ≫= λ now,
    modify (add_version (version_of version image spec env now VActive d)) ≫= λ _,
    modify (activate version) ≫= λ _, mret d.

(** [canary_update]: an addition of 8 bits wraps.  [None]: the loop goes on after [fuel]
    rounds. *)
Definition next_percentage (current increment : Z) : Z := Z.min ((current + increment) mod 256) 100.
Fixpoint canary_loop (fuel : nat) (current increment : Z) (canary : BlueprintDeploymentResult) : Upd (option unit) :=
  if 100 <=? current then mret (Some tt)
  else match fuel with
  | O => mret None
  | S fuel =>
      call_health canary ≫= λ healthy,
      if negb healthy then call_cleanup canary ≫= λ _, upd_fails (RemoteOther ("Canary failed at " +:+ pretty current +:+ "%"))
      else canary_loop fuel (next_percentage current increment) increment canary
  end.
Definition canary_update (fuel : nat) (version image : string) (spec : ResourceSpec) (env : gmap string string) (initial increment : Z)
    (cur : BlueprintDeploymentResult) : Upd (option BlueprintDeploymentResult) :=
  let env := <["DEPLOYMENT_TYPE"%string := "canary"%string]> (<["DEPLOYMENT_VERSION"%string := version]> env) in
  call_deploy image spec env ≫= λ canary,
  canary_loop fuel initial increment canary ≫= λ ended,
  match ended with
  | None => mret None
  | Some _ =>
      call_cleanup cur ≫= λ _,
      now_seconds ≫= λ now,
      modify (add_version (version_of version image spec env now VActive canary)) ≫= λ _,
      modify (activate version) ≫= λ _, mret (Some canary)
  end.

(** [recreate_update] *)
Definition recreate_update (version image : string) (spec : ResourceSpec) (env : gmap string string) (cur : BlueprintDeploymentResult)
    : Upd BlueprintDeploymentResult :=
  call_cleanup cur ≫= λ _,
  let env := <["DEPLOYMENT_VERSION"%string := version]> env in
  call_deploy image spec env ≫= λ d,
  now_seconds ≫= λ now,
  modify (add_version (version_of version image spec env now VActive d)) ≫= λ _,
  modify (activate version) ≫= λ _, mret d.

(** [generate_version], [update_blueprint] *)
Definition generate_version : Upd string := now_seconds ≫= λ now, mret ("v" +:+ pretty now).
Definition CANARY_FUEL : nat := 101.
Definition update_blueprint (image : string) (spec : ResourceSpec) (env : gmap string string) (cur : BlueprintDeploymentResult)
    : Upd (option BlueprintDeploymentResult) :=
  generate_version ≫= λ version,
  gets_manager um_strategy ≫= λ strategy,
  match strategy with
  | BlueGreen => blue_green_update version image spec env cur ≫= λ d, mret (Some d)
  | RollingUpdate _ _ => rolling_update version image spec env cur ≫= λ d, mret (Some d)
  | Canary initial increment => canary_update CANARY_FUEL version image spec env initial increment cur
  | Recreate => recreate_update version image spec env cur ≫= λ d, mret (Some d)
  end.

(** [rollback] *)
Definition rollback (target : string) (cur : BlueprintDeploymentResult) : Upd BlueprintDeploymentResult :=
  gets_manager (get_version target) ≫= λ v,
  match v with
  | None => upd_fails (RemoteOther ("Version " +:+ target +:+ " not found"))
  | Some v =>
      if bool_decide (dv_status v = VFailed) then upd_fails (RemoteOther "Cannot rollback to a failed version")
      else
        call_deploy (dv_blueprint_image v) (dv_resource_spec v) (dv_env_vars v) ≫= λ d,
        wait_for_healthy 30 d ≫= λ healthy,
        if negb healthy then call_cleanup d ≫= λ _, upd_fails (RemoteOther "Rollback failed health check")
        else
          call_cleanup cur ≫= λ _,
          modify (mark_active VRolledBack) ≫= λ _,
          modify (mark target VActive) ≫= λ _,
          modify (activate target) ≫= λ _, mret d
  end.

(** [cleanup_old_versions]: the deployment that is cleaned has the identifier of the
    container and an instance made up *)
Definition dummy_deployment (uuid container : string) (metadata : gmap string string) : BlueprintDeploymentResult :=
  mkDeployResult (mkInstance ("update-cleanup-" +:+ uuid) Generic "unknown" "unknown" None None StatusUnknown) container ∅ metadata.
Definition cleanup_version (uuid : string) (v : DeploymentVersion) : Upd unit :=
  match dv_container_id v with Some c => upd_try (call_cleanup (dummy_deployment uuid c (dv_metadata v))) ≫= λ _, mret tt | None => mret tt end ≫= λ _,
  modify (λ m, mkManager (List.filter (λ w, negb (bool_decide (dv_version w = dv_version v))) (um_versions m)) (um_active_version m) (um_strategy m)).
Definition cleanup_old_versions (uuids : nat → string) (keep_count : nat) : Upd unit :=
  gets_manager (λ m, drop keep_count (List.filter (λ v, bool_decide (dv_status v = VInactive)) (um_versions m))) ≫= λ vs,
  foldl (λ acc iv, acc ≫= λ _, cleanup_version (uuids iv.1) iv.2) (mret tt) (imap (λ i v, (i, v)) vs).

(** ** The service stays up *)

(** Whenever the old deployment was cleaned up, another one had been found healthy. *)
Definition safe (cur : BlueprintDeploymentResult) (l : list UpdateCall) : Prop :=
  ∀ l1 r l2, l = l1 ++ UCleaned cur r :: l2 → ∃ d, d ≠ cur ∧ UHealth d (Ok true) ∈ l1.
Definition leaves_alone (cur : BlueprintDeploymentResult) (l : list UpdateCall) : Prop := ∀ r, UCleaned cur r ∉ l.

Lemma alone_safe cur l : leaves_alone cur l → safe cur l.
Proof. intros H l1 r l2 ->. exfalso. apply (H r). apply elem_of_app. right. by left. Qed.
Lemma healthy_safe cur d l1 l2 : leaves_alone cur l1 → d ≠ cur → UHealth d (Ok true) ∈ l1 → safe cur (l1 ++ l2).
Proof.
  intros Ha Hd Hin m1 r m2 Heq. exists d. split; [done|].
  destruct (decide (length l1 ≤ length m1)%nat) as [Hle|Hgt].
  - assert (E : l1 = take (length l1) m1).
    { apply (f_equal (take (length l1))) in Heq. by rewrite take_app_length, take_app_le in Heq by done. }
    rewrite E in Hin. by apply elem_of_take in Hin as (i & Hi%list_elem_of_lookup_2 & _).
  - exfalso. apply (Ha r). apply (f_equal (take (length l1))) in Heq. rewrite take_app_length, take_app_ge in Heq by lia. rewrite Heq.
    apply elem_of_app. right. replace (length l1 - length m1)%nat with (S (length l1 - length m1 - 1)) by lia. cbn [take]. by left.
Qed.

(** What waiting adds to the calls *)
Definition checks (d : BlueprintDeploymentResult) (l : list UpdateCall) : Prop := Forall (λ c, ∃ r, c = UHealth d r) l.
Lemma checks_alone cur d l : checks d l → leaves_alone cur l.
Proof. intros H r Hin. unfold checks in H. rewrite list.Forall_forall in H. by destruct (H _ Hin) as [? [=]]. Qed.
Lemma wait_spec n d s : ∃ b w, wait_for_healthy n d s = (Ok b, mkUS (us_manager s) (us_calls s ++ w)) ∧ checks d w ∧ (b = true → UHealth d (Ok true) ∈ w).
Proof.
  revert s. induction n as [|n IH]; intros s; cbn [wait_for_healthy].
  - exists false, []. rewrite app_nil_r. destruct s. split_and!; [done|constructor|done].
  - unfold mbind, upd_bind, upd_try, call_health. set (r := health_answer _ _). set (s1 := mkUS _ _).
    destruct (IH s1) as (b & w & Hw & Hc & Hb). assert (Hrest : ∃ b w0, wait_for_healthy n d s1 = (Ok b, mkUS (us_manager s) (us_calls s ++ w0)) ∧ checks d w0 ∧ (b = true → UHealth d (Ok true) ∈ w0)).
    { exists b, (UHealth d r :: w). split_and!; [rewrite Hw; cbn [us_calls us_manager s1]; by rewrite <- app_assoc|constructor; [by eexists|done]|]. intros ?. right. by apply Hb. }
    destruct r as [[]|e] eqn:Hr; try exact Hrest. exists true, [UHealth d (Ok true)]. split_and!; [done|repeat constructor; by eexists|]. intros _. by left.
Qed.
Lemma wait_within_spec n d s :
  ∃ b w, wait_within n d s = (Ok b, mkUS (us_manager s) (us_calls s ++ w)) ∧ checks d w ∧ (b = Some true → UHealth d (Ok true) ∈ w).
Proof.
  revert s. induction n as [|n IH]; intros s; cbn [wait_within]; destruct (health_time_over (us_calls s)).
  1,3: exists None, []; rewrite app_nil_r; destruct s; (split_and!; [done|constructor|done]).
  - exists (Some false), []. rewrite app_nil_r. destruct s. split_and!; [done|constructor|done].
  - unfold mbind, upd_bind, upd_try, call_health. set (r := health_answer _ _). set (s1 := mkUS _ _).
    destruct (IH s1) as (b & w & Hw & Hc & Hb). assert (Hrest : ∃ b w0, wait_within n d s1 = (Ok b, mkUS (us_manager s) (us_calls s ++ w0)) ∧ checks d w0 ∧ (b = Some true → UHealth d (Ok true) ∈ w0)).
    { exists b, (UHealth d r :: w). split_and!; [rewrite Hw; cbn [us_calls us_manager s1]; by rewrite <- app_assoc|constructor; [by eexists|done]|]. intros ?. right. by apply Hb. }
    destruct r as [[]|e] eqn:Hr; try exact Hrest. exists (Some true), [UHealth d (Ok true)]. split_and!; [done|repeat constructor; by eexists|]. intros _. by left.
Qed.

(** An operation that adds calls which keep the service up, and which leaves the old
    deployment when it fails *)
Definition keeps_up {A} (cur : BlueprintDeploymentResult) (m : Upd A) : Prop :=
  ∀ s r s', m s = (r, s') → ∃ new, us_calls s' = us_calls s ++ new ∧ safe cur new ∧ (∀ e, r = Err e → UCleaned cur (Ok tt) ∉ new).

(** The new deployment is another one: the adapter deploys beside the old. *)
Context (cur : BlueprintDeploymentResult).
Definition deploys_beside : Prop := ∀ l image spec env d, deploy_answer l image spec env = Ok d → d ≠ cur.

Lemma deployed_alone image spec env r : leaves_alone cur [UDeployed image spec env r].
Proof. intros r' H. apply list_elem_of_singleton in H. done. Qed.
Lemma alone_app l k : leaves_alone cur l → leaves_alone cur k → leaves_alone cur (l ++ k).
Proof. intros H K r [Hl|Hk]%elem_of_app; [by apply (H r)|by apply (K r)]. Qed.
Lemma cleaned_alone d r : d ≠ cur → leaves_alone cur [UCleaned d r].
Proof. intros Hd r' H. apply list_elem_of_singleton in H. by simplify_eq. Qed.

(** After a deployment and its health checks: the tails of the strategies *)
Lemma keeps_failed d0 w tail :
  leaves_alone cur d0 → leaves_alone cur w → leaves_alone cur tail → safe cur (d0 ++ w ++ tail) ∧ UCleaned cur (Ok tt) ∉ d0 ++ w ++ tail.
Proof. intros H1 H2 H3. assert (H : leaves_alone cur (d0 ++ w ++ tail)) by (by repeat apply alone_app). split; [by apply alone_safe|apply H]. Qed.
Lemma keeps_healthy d0 w d tail : leaves_alone cur d0 → leaves_alone cur w → d ≠ cur → UHealth d (Ok true) ∈ w → safe cur (d0 ++ w ++ tail).
Proof. intros H1 H2 Hd Hin. rewrite app_assoc. apply (healthy_safe cur d); [by apply alone_app|done|]. apply elem_of_app. by right. Qed.

(** *** Inversion of the steps *)

Lemma upd_bind_inv {A B} (m : Upd A) (k : A → Upd B) s r s' :
  (m ≫= k) s = (r, s') → (∃ e, m s = (Err e, s') ∧ r = Err e) ∨ (∃ a s1, m s = (Ok a, s1) ∧ k a s1 = (r, s')).
Proof. unfold mbind, upd_bind. destruct (m s) as [[a|e] s1]; [by right; exists a, s1|]. intros [= <- <-]. left. by exists e. Qed.
(** Steps that call nothing and do not fail *)
Definition quiet {A} (m : Upd A) : Prop := ∀ s r s', m s = (r, s') → us_calls s' = us_calls s ∧ is_Ok r.
Lemma quiet_ret {A} (a : A) : quiet (mret a).
Proof. intros s r s' [= <- <-]. split; [done|by eexists]. Qed.
Lemma quiet_modify f : quiet (modify f).
Proof. intros s r s' [= <- <-]. split; [done|by eexists]. Qed.
Lemma quiet_now : quiet now_seconds.
Proof. intros s r s' [= <- <-]. split; [done|by eexists]. Qed.
Lemma quiet_bind {A B} (m : Upd A) (k : A → Upd B) : quiet m → (∀ a, quiet (k a)) → quiet (m ≫= k).
Proof.
  intros Hm Hk s r s' [(e & He & _)|(a & s1 & H1 & H2)]%upd_bind_inv; [by apply Hm in He as [_ [? ?]]|].
  apply Hm in H1 as [H1 _]. apply Hk in H2 as [H2 ?]. by rewrite H2, H1.
Qed.

(** A deployment that is given up: it is cleaned up, and the operation fails. *)
Lemma give_up_inv {A} d e s r s' :
  (call_cleanup d ≫= λ _, upd_fails (A := A) e) s = (r, s') → ∃ c, us_calls s' = us_calls s ++ [UCleaned d c].
Proof.
  intros [(e' & H & _)|(a & s1 & H & H')]%upd_bind_inv; injection H as _ <-; [by eexists|]. injection H' as _ <-. by eexists.
Qed.
(** The old deployment is cleaned up, and the rest does not fail. *)
Lemma hand_over_inv {A} (k : Upd A) s r s' :
  quiet k → (call_cleanup cur ≫= λ _, k) s = (r, s') → ∃ c, us_calls s' = us_calls s ++ [UCleaned cur c] ∧ (∀ e, r = Err e → c ≠ Ok tt).
Proof.
  intros Hk [(e & H & ->)|([] & s1 & H & H')]%upd_bind_inv.
  - injection H as Hc <-. eexists. split; [done|]. intros e' _. by rewrite Hc.
  - apply Hk in H' as [-> [a ->]]. injection H as _ <-. eexists. by split.
Qed.

(** *** The strategies *)

(** A deployment, checks of it that end in [healthy], and what follows *)
Lemma replaced_keeps {A} image spec env (W : BlueprintDeploymentResult → Upd A) (ok : A → Prop) {B} (K : BlueprintDeploymentResult → A → Upd B) :
  deploys_beside →
  (∀ d s r s', d ≠ cur → W d s = (r, s') → ∃ w, us_calls s' = us_calls s ++ w ∧ leaves_alone cur w ∧ ∀ a, r = Ok a → ok a → UHealth d (Ok true) ∈ w) →
  (∀ d a s r s', d ≠ cur → K d a s = (r, s') →
    ∃ tail, us_calls s' = us_calls s ++ tail ∧ (ok a ∨ leaves_alone cur tail) ∧ (∀ e, r = Err e → UCleaned cur (Ok tt) ∉ tail)) →
  keeps_up cur (call_deploy image spec env ≫= λ d, W d ≫= K d).
Proof.
  intros Hd HW HK s r s' [(e & H & ->)|(d & s1 & H & H')]%upd_bind_inv; injection H as Hr <-.
  { eexists. split_and!; [done|apply alone_safe, deployed_alone|]. intros e' _. apply deployed_alone. }
  apply Hd in Hr as Hne. apply upd_bind_inv in H' as [(e & Hw & ->)|(a & s2 & Hw & Hk)]; destruct (HW d _ _ _ Hne Hw) as (w & Hc & Ha & Hok); cbn [us_calls] in Hc.
  - destruct (keeps_failed [UDeployed image spec env (deploy_answer (us_calls s) image spec env)] w []) as [Hs Hn]; [apply deployed_alone|done|by intros ? ?%elem_of_nil|].
    eexists. rewrite Hc, <- app_assoc. rewrite app_nil_r in Hs, Hn. by split_and!.
  - apply HK in Hk as (tail & Ht & Hcase & He); [|done]. eexists. rewrite Ht, Hc, <- !app_assoc. split_and!; [done| |].
    + destruct Hcase as [Hk|Hk]; [eapply keeps_healthy; [apply deployed_alone|done|done|by eapply Hok]|]. apply keeps_failed; [apply deployed_alone|done..].
    + intros e Hre Hin. rewrite app_assoc in Hin. apply elem_of_app in Hin as [Hin|Hin]; [|by eapply He].
      eapply (alone_app _ _ (deployed_alone image spec env _) Ha). exact Hin.
Qed.
Lemma wait_keeps n d s r s' :
  wait_for_healthy n d s = (r, s') → ∃ w, us_calls s' = us_calls s ++ w ∧ leaves_alone cur w ∧ ∀ a, r = Ok a → a = true → UHealth d (Ok true) ∈ w.
Proof.
  destruct (wait_spec n d s) as (b & w & -> & Hc & Hb). intros [= <- <-]. exists w. split_and!; [done|by eapply checks_alone|]. intros a [= <-]. done.
Qed.
Lemma given_up_tail {A} d e s r s' :
  d ≠ cur → (call_cleanup d ≫= λ _, upd_fails (A := A) e) s = (r, s') →
  ∃ tail, us_calls s' = us_calls s ++ tail ∧ leaves_alone cur tail.
Proof. intros Hd (c & Hc)%give_up_inv. exists [UCleaned d c]. split; [done|by apply cleaned_alone]. Qed.

Lemma checked_keeps {B} image spec env e (K : BlueprintDeploymentResult → Upd B) :
  deploys_beside → (∀ d, quiet (K d)) →
  keeps_up cur (call_deploy image spec env ≫= λ d, wait_for_healthy 30 d ≫= λ healthy,
    if negb healthy then call_cleanup d ≫= λ _, upd_fails e else call_cleanup cur ≫= λ _, K d).
Proof.
  intros Hd HK. apply (replaced_keeps image spec env (wait_for_healthy 30) (λ b, b = true)); [done|intros; by eapply wait_keeps|].
  intros d [] s r s' Hne; cbn [negb].
  - intros (c & Hc & He)%hand_over_inv; [|apply HK]. exists [UCleaned cur c]. split_and!; [done|by left|]. intros e' Hr Hin%list_elem_of_singleton.
    injection Hin as Hin. by apply (He e').
  - intros (tail & Ht & Ha)%given_up_tail; [|done]. exists tail. split_and!; [done|by right|]. intros _ _. apply Ha.
Qed.
Lemma rolling_keeps version image spec env : deploys_beside → keeps_up cur (rolling_update version image spec env cur).
Proof. intros Hd. apply checked_keeps; [done|]. intros d. repeat (apply quiet_bind; [apply quiet_now || apply quiet_modify|intros]). apply quiet_ret. Qed.

Lemma keeps_up_ext {A} (m m' : Upd A) : (∀ s, m' s = m s) → keeps_up cur m → keeps_up cur m'.
Proof. intros E H s r s' Hm. rewrite E in Hm. by apply H. Qed.
Lemma upd_bind_assoc {A B C} (m : Upd A) (k : A → Upd B) (f : B → Upd C) s : (m ≫= λ a, k a ≫= f) s = ((m ≫= k) ≫= f) s.
Proof. unfold mbind, upd_bind. by destruct (m s) as [[a|e] s1]. Qed.
Lemma upd_bind_ext {A B} (m : Upd A) (k k' : A → Upd B) s : (∀ a s, k a s = k' a s) → (m ≫= k) s = (m ≫= k') s.
Proof. intros H. unfold mbind, upd_bind. destruct (m s) as [[a|e] s1]; [apply H|done]. Qed.

(** What follows the checks of the green deployment *)
Definition green_end (version : string) (green : BlueprintDeploymentResult) (healthy : option bool) : Upd BlueprintDeploymentResult :=
  match healthy with
  | Some true =>
      upd_try switch_traffic ≫= λ r,
      match r with
      | Err e => call_cleanup green ≫= λ _, upd_fails e
      | Ok _ =>
          modify (mark version VActive) ≫= λ _, modify (mark_active VInactive) ≫= λ _, modify (activate version) ≫= λ _,
          upd_try (call_cleanup cur) ≫= λ _, mret green
      end
  | _ => modify (mark version VFailed) ≫= λ _, call_cleanup green ≫= λ _, upd_fails (RemoteOther "Green deployment health check failed")
  end.
Lemma green_end_spec version green healthy s r s' :
  green ≠ cur → green_end version green healthy s = (r, s') →
  ∃ tail, us_calls s' = us_calls s ++ tail ∧ (healthy = Some true ∨ leaves_alone cur tail) ∧ (∀ e, r = Err e → UCleaned cur (Ok tt) ∉ tail).
Proof.
  intros Hne. unfold green_end.
  assert (Hfail : ∀ s, (modify (mark version VFailed) ≫= λ _, call_cleanup green ≫= λ _, upd_fails (A := BlueprintDeploymentResult) (RemoteOther "Green deployment health check failed")) s = (r, s') →
    ∃ tail, us_calls s' = us_calls s ++ tail ∧ (healthy = Some true ∨ leaves_alone cur tail) ∧ (∀ e, r = Err e → UCleaned cur (Ok tt) ∉ tail)).
  { intros s0 [(e & H & _)|(a & s1 & H & H')]%upd_bind_inv; [done|]. injection H as _ <-. apply given_up_tail in H' as (tail & Ht & Ha); [|done].
    exists tail. split_and!; [done|by right|]. intros _ _. apply Ha. }
  destruct healthy as [[]|]; [|apply Hfail..]. intros H. cbn in H. injection H as <- <-. eexists. split_and!; [reflexivity|by left|done].
Qed.
Lemma staged_spec version image spec env d s r s' :
  (now_seconds ≫= λ now, modify (add_version (version_of version image spec env now VStaging d)) ≫= λ _, wait_within 30 d) s = (r, s') →
  ∃ w, us_calls s' = us_calls s ++ w ∧ leaves_alone cur w ∧ ∀ a, r = Ok a → a = Some true → UHealth d (Ok true) ∈ w.
Proof.
  intros [(e & H & _)|(now & s1 & H & H')]%upd_bind_inv; [done|]. injection H as _ <-. apply upd_bind_inv in H' as [(e & H & _)|(a & s2 & H & H')]; [done|].
  injection H as _ <-. match type of H' with wait_within 30 d ?s0 = _ => destruct (wait_within_spec 30 d s0) as (b & w & Hw & Hc & Hb) end.
  rewrite Hw in H'. injection H' as <- <-. cbn [us_calls]. exists w. split_and!; [done|by eapply checks_alone|]. intros b' [= <-]. done.
Qed.
Lemma blue_green_keeps version image spec env : deploys_beside → keeps_up cur (blue_green_update version image spec env cur).
Proof.
  intros Hd. set (env' := <["DEPLOYMENT_COLOR"%string := "green"%string]> (<["DEPLOYMENT_VERSION"%string := version]> env)).
  apply (keeps_up_ext (call_deploy image spec env' ≫= λ green,
    (now_seconds ≫= λ now, modify (add_version (version_of version image spec env' now VStaging green)) ≫= λ _, wait_within 30 green) ≫= green_end version green)).
  - intros s. apply upd_bind_ext. intros green s1. rewrite <- upd_bind_assoc. apply upd_bind_ext. intros now s2. apply upd_bind_assoc.
  - apply (replaced_keeps image spec env' _ (λ b, b = Some true)); [done| |].
    + intros d s r s' _. apply staged_spec.
    + intros d a s r s' Hne. by apply green_end_spec.
Qed.

(** The rounds of a canary *)
Lemma canary_loop_keeps fuel current increment d s r s' :
  d ≠ cur → canary_loop fuel current increment d s = (r, s') →
  ∃ w, us_calls s' = us_calls s ++ w ∧ leaves_alone cur w ∧ (current < 100 → r = Ok (Some tt) → UHealth d (Ok true) ∈ w).
Proof.
  intros Hne. revert current s. induction fuel as [|fuel IH]; intros current s; cbn [canary_loop]; destruct (Z.leb_spec 100 current) as [Hge|Hlt].
  1,3: intros [= <- <-]; exists []; rewrite app_nil_r; (split_and!; [done|by intros ? ?%elem_of_nil|lia]).
  - intros [= <- <-]. exists []. rewrite app_nil_r. split_and!; [done|by intros ? ?%elem_of_nil|done].
  - assert (Hone : ∀ r, leaves_alone cur [UHealth d r]). { intros r0 r1 H%list_elem_of_singleton. done. }
    intros [(e & H & ->)|([] & s1 & H & H')]%upd_bind_inv; injection H as Hr <-.
    + eexists. split_and!; [done|apply Hone|done].
    + cbn [negb] in H'. apply IH in H' as (w & Hw & Ha & _). cbn [us_calls] in Hw. exists (UHealth d (Ok true) :: w). rewrite Hw, Hr, <- app_assoc.
      split_and!; [done|by apply (alone_app [_])|]. intros _ _. by left.
    + cbn [negb] in H'. assert (∃ e, r = Err e) as [e ->]. { apply upd_bind_inv in H' as [(e & _ & ->)|(? & ? & _ & [= <- _])]; by eexists. }
      apply given_up_tail in H' as (tail & Ht & Ha); [|done]. cbn [us_calls] in Ht. eexists. rewrite Ht, <- app_assoc. split_and!; [done|by apply alone_app|done].
Qed.
Lemma canary_keeps fuel version image spec env initial increment :
  deploys_beside → initial < 100 → keeps_up cur (canary_update fuel version image spec env initial increment cur).
Proof.
  intros Hd Hi. apply (replaced_keeps image spec _ (canary_loop fuel initial increment) (λ b, b = Some tt)); [done| |].
  - intros d s r s' Hne (w & Hw & Ha & Hok)%canary_loop_keeps; [|done]. exists w. split_and!; [done|done|]. intros a -> ->. by apply Hok.
  - intros d [[]|] s r s' Hne.
    + intros (c & Hc & He)%hand_over_inv. 2: { repeat (apply quiet_bind; [apply quiet_now || apply quiet_modify|intros]). apply quiet_ret. }
      exists [UCleaned cur c]. split_and!; [done|by left|]. intros e' Hr Hin%list_elem_of_singleton. injection Hin as Hin. by apply (He e').
    + intros [= <- <-]. exists []. rewrite app_nil_r. split_and!; [done|right; by intros ? ?%elem_of_nil|done].
Qed.
Lemma rollback_keeps target : deploys_beside → keeps_up cur (rollback target cur).
Proof.
  intros Hd s r s'. unfold rollback.
  assert (Hnone : ∀ e, keeps_up cur (upd_fails (A := BlueprintDeploymentResult) e)).
  { intros e s0 r0 s1 [= <- <-]. exists []. rewrite app_nil_r. split_and!; [done|apply alone_safe; by intros ? ?%elem_of_nil|by intros ? _ ?%elem_of_nil]. }
  intros [(e & H & _)|(v & s1 & H & H')]%upd_bind_inv; [done|]. injection H as Hv <-. destruct v as [v|]; [|by eapply Hnone].
  case_bool_decide; [by eapply Hnone|]. eapply checked_keeps; [done| |exact H']. intros d.
  repeat (apply quiet_bind; [apply quiet_modify|intros]). apply quiet_ret.
Qed.

(** The strategies that keep the old deployment until the new one runs *)
Definition careful (s : UpdateStrategy) : Prop := match s with Recreate => False | Canary initial _ => initial < 100 | _ => True end.

(** C29. The service stays up through updates and rollbacks.  For rollbacks, and for
    updates with every strategy but [Recreate] and a canary that starts at 100 percent or
    above, and with an adapter that deploys beside the old deployment ([deploys_beside]),
    whatever the provider answers: a cleanup of the old deployment is only ever tried after
    a new one was found healthy, and when the operation returns an error no cleanup of the
    old deployment has succeeded (one that was tried and failed may be the reason). *)
Theorem update_keeps_service (image : string) (spec : ResourceSpec) (env : gmap string string) (target : string) (rolling_back : bool) s r s' :
  deploys_beside → (rolling_back = false → careful (um_strategy (us_manager s))) →
  (if rolling_back then rollback target cur ≫= λ d, mret (Some d) else update_blueprint image spec env cur) s = (r, s') →
  ∃ new, us_calls s' = us_calls s ++ new ∧
    (∀ l1 c l2, new = l1 ++ UCleaned cur c :: l2 → ∃ d, d ≠ cur ∧ UHealth d (Ok true) ∈ l1) ∧ (∀ e, r = Err e → UCleaned cur (Ok tt) ∉ new).
Proof.
  intros Hd Hs. assert (Hmap : ∀ m : Upd BlueprintDeploymentResult, keeps_up cur m → keeps_up cur (m ≫= λ d, mret (Some d))).
  { intros m Hm s0 r0 s1 [(e & H & ->)|(a & s2 & H & H')]%upd_bind_inv; apply Hm in H as (new & Hc & Hsafe & He); [by exists new; split_and!; [..|intros e' _; by eapply He]|].
    injection H' as <- <-. exists new. by split_and!. }
  destruct rolling_back; [apply Hmap, rollback_keeps, Hd|]. specialize (Hs eq_refl). unfold update_blueprint.
  intros [(e & H & _)|(version & s1 & H & H')]%upd_bind_inv; [done|]. injection H as _ <-. apply upd_bind_inv in H' as [(e & H & _)|(st & s2 & H & H')]; [done|].
  injection H as <- <-. destruct (um_strategy (us_manager s)); cbn [careful] in Hs; [|..].
  - revert H'. by apply Hmap, rolling_keeps.
  - revert H'. by apply Hmap, blue_green_keeps.
  - revert H'. by apply canary_keeps.
  - done.
Qed.

(** *** A canary ends *)

(** What is left: going up by a small step, or down by one that wraps *)
Definition canary_left (current increment : Z) : Z := if increment <? 100 then 100 - current else current + 1.
Lemma next_percentage_left current increment :
  0 ≤ current < 100 → 0 < increment < 256 →
  100 ≤ next_percentage current increment ∨
  (0 ≤ next_percentage current increment < 100 ∧ canary_left (next_percentage current increment) increment < canary_left current increment).
Proof.
  intros Hc Hi. unfold next_percentage, canary_left. destruct (Z.ltb_spec increment 100) as [Hs|Hl].
  - rewrite Z.mod_small by lia. lia.
  - destruct (decide (current + increment < 256)); [rewrite Z.mod_small by lia; lia|].
    assert ((current + increment) mod 256 = current + increment - 256) as ->; [|lia].
    rewrite <- (Z.mod_small (current + increment - 256) 256) by lia. rewrite <- (Z.mod_add (current + increment - 256) 1 256) by lia. f_equal. lia.
Qed.
(** C40. A canary with an increment comes to an end, even with one that overflows: a
    hundred rounds of its loop are enough, whatever the percentage it starts with and
    whatever the health checks answer. *)
Theorem canary_ends fuel current increment canary s r s' :
  0 ≤ current ≤ 255 → 0 < increment < 256 → (100 ≤ fuel)%nat →
  canary_loop fuel current increment canary s = (r, s') → r ≠ Ok None.
Proof.
  intros Hc Hi Hf. destruct (Z.leb_spec 100 current) as [Hge|Hlt].
  { destruct fuel; cbn [canary_loop]; destruct (Z.leb_spec 100 current); try lia; by intros [= <- _]. }
  assert (Hm : canary_left current increment ≤ Z.of_nat fuel) by (unfold canary_left; destruct (increment <? 100); lia).
  clear Hf. assert (Hb : 100 ≤ current ∨ (0 ≤ current < 100 ∧ canary_left current increment ≤ Z.of_nat fuel)) by lia. clear Hc Hlt Hm.
  revert current s Hb. induction fuel as [|fuel IH]; intros current s Hb; cbn [canary_loop]; destruct (Z.leb_spec 100 current); [by intros [= <- _]| |by intros [= <- _]|].
  - destruct Hb as [?|[? Hl]]; [lia|]. unfold canary_left in Hl. destruct (increment <? 100); lia.
  - intros [(e & _ & ->)|([] & s1 & _ & H')]%upd_bind_inv; [done| |]; cbn [negb] in H'.
    + eapply IH; [|exact H']. destruct Hb as [?|[? Hl]]; [lia|]. destruct (next_percentage_left current increment) as [?|[? ?]]; [done..|by left|right; lia].
    + apply upd_bind_inv in H' as [(e & _ & ->)|(? & ? & _ & [= <- _])]; done.
Qed.

End updates.

(** ** Updates over SSH *)

Section ssh.
  Context `{SE : ShellEscape} `{W : RemoteWorld} `{NT : NumberText} `{JT : JsonText}.

(** [update_via_ssh], [rollback_via_ssh]; the manager changes only when they succeed *)
Definition update_via_ssh (m : UpdateManager) (cl : SshDeploymentClient) (image : string) (spec : ResourceSpec) (env : gmap string string)
    : Remote (string * UpdateManager) :=
  asks utc_seconds ≫= λ now,
  let version := "v" +:+ pretty now in
  match um_strategy m with
  | BlueGreen =>
      let name := "blueprint-" +:+ version in
      deploy_container_with_resources cl image name env (Some spec) ≫= λ id,
      health_check_container cl id ≫= λ healthy : bool,
      if healthy then
        switch_traffic_to cl name ≫= λ _,
        match um_active_version m with Some old => stop_container cl ("blueprint-" +:+ old) | None => mret tt end ≫= λ _,
        mret (id, activate version m)
      else remove_container cl id ≫= λ _, fails (RemoteOther "New container health check failed")
  | _ => update_container_with_resources cl image env (Some spec) ≫= λ id, mret (id, activate version m)
  end.
Definition rollback_via_ssh (m : UpdateManager) (cl : SshDeploymentClient) (target : string) : Remote UpdateManager :=
  match get_version target m with
  | None => fails (RemoteOther ("Version " +:+ target +:+ " not found"))
  | Some v => deploy_container cl (dv_blueprint_image v) (dv_env_vars v) ≫= λ _, mret (activate target m)
  end.

(** A blue-green update over SSH never succeeds: the client refuses its own
    configuration of the proxy. *)
Lemma ssh_blue_green_refused m cl image spec env : um_strategy m = BlueGreen → fruitless (update_via_ssh m cl image spec env).
Proof.
  intros Hs. unfold update_via_ssh. rewrite Hs. apply fruitless_after. intros now. do 2 (apply fruitless_after; intros ?).
  case_match; [|apply fruitless_after; intros _; apply fruitless_fails]. apply fruitless_bind, fruitless_bind, fruitless_run, nginx_refused.
Qed.

(** ** Recovery ([error_recovery.rs]) *)

(** [ErrorRecovery::execute_with_recovery].  The delays between the tries are not kept. *)
Inductive CheckpointState := PreDeployment | ContainerCreated | ContainerStarted | HealthCheckPassed | Completed.
Record DeploymentCheckpoint := mkCheckpoint { cp_container_id : option string; cp_state : CheckpointState }.
Inductive RecoveryStrategy := Retry (max_attempts : nat) | Rollback (checkpoint : DeploymentCheckpoint) | FailFast | Fallback (alternative : RecoveryStrategy).
Definition recovery_default : RecoveryStrategy := Retry 3.
Fixpoint retry_with_backoff {A} (max_attempts attempt : nat) (more : nat) (operation : Remote A) : Remote A := λ h,
  match operation h with
  | (Ok a, h) => (Ok a, h)
  | (Err e, h) =>
      if (max_attempts <=? S attempt)%nat then (Err e, h)
      else match more with S more => retry_with_backoff max_attempts (S attempt) more operation h | O => (Err e, h) end
  end.
(** [rollback_to_checkpoint] only logs *)
Definition rollback_to_checkpoint (c : DeploymentCheckpoint) : Remote unit := mret tt.
Fixpoint execute_with_recovery {A} (s : RecoveryStrategy) (operation : Remote A) : Remote A := λ h,
  match s with
  | Retry max_attempts => retry_with_backoff max_attempts 0 max_attempts operation h
  | FailFast => operation h
  | Rollback c =>
      match operation h with
      | (Ok a, h) => (Ok a, h)
      | (Err e, h) => (rollback_to_checkpoint c ≫= λ _, fails e) h
      end
  | Fallback alternative => match operation h with (Ok a, h) => (Ok a, h) | (Err _, h) => execute_with_recovery alternative operation h end
  end.

(** The runs of an operation one after the other, the last of them with its result *)
Inductive tried {A} (operation : Remote A) : nat → list Event → result RemoteError A → list Event → Prop :=
| tried_last h r h' : operation h = (r, h') → tried operation 1 h r h'
| tried_again n h e h1 r h' : operation h = (Err e, h1) → tried operation n h1 r h' → tried operation (S n) h r h'.
Lemma retry_tried {A} (operation : Remote A) max_attempts more attempt h r h' :
  (max_attempts ≤ attempt + more + 1)%nat → retry_with_backoff max_attempts attempt more operation h = (r, h') →
  ∃ n, tried operation n h r h' ∧ (n + attempt ≤ max_attempts `max` (S attempt))%nat ∧ (is_Ok r ∨ (max_attempts ≤ n + attempt)%nat).
Proof.
  revert attempt h. induction more as [|more IH]; intros attempt h Hm; cbn [retry_with_backoff]; destruct (operation h) as [[a|e] h1] eqn:Ho.
  1,3: intros [= <- <-]; exists 1%nat; (split_and!; [by apply tried_last|lia|left; by eexists]).
  - intros H. assert (r = Err e ∧ h' = h1) as [-> ->] by (by destruct (_ <=? _)%nat; injection H as <- <-).
    exists 1%nat. split_and!; [by apply tried_last|lia|right; lia].
  - destruct (Nat.leb_spec max_attempts (S attempt)); [intros [= <- <-]; exists 1%nat; split_and!; [by apply tried_last|lia|right; lia]|].
    intros (n & Hn & Hle & Hr)%IH; [|lia]. exists (S n). split_and!; [by eapply tried_again|lia|]. destruct Hr as [?|?]; [by left|right; lia].
Qed.

(** [SshConnectionRecovery::reconnect]: five attempts; [execute_with_reconnect] *)
Fixpoint reconnect_attempts (more : nat) (cl : SshDeploymentClient) : Remote SshDeploymentClient :=
  match more with
  | O => fails (RemoteOther "Failed to reconnect after 5 attempts")
  | S more => reconnect cl ≫= λ x, match x.2 with Ok _ => mret x.1 | Err _ => reconnect_attempts more x.1 end
  end.
Definition execute_with_reconnect {A} (cl : SshDeploymentClient) (operation : SshDeploymentClient → Remote A) : Remote A :=
  try_of (operation cl) ≫= λ r,
  match r with Ok a => mret a | Err _ => reconnect_attempts 5 cl ≫= λ cl, operation cl end.

(** [DeploymentTransaction]: the operations are only logged *)
Inductive DeploymentOperation :=
| CreateContainer (image name : string) | StartContainer (id : string) | StopContainer (id : string) | RemoveContainer (id : string) | ExecuteCommand (command : string) (critical : bool).
Record DeploymentTransaction := mkTransaction { dt_operations : list DeploymentOperation; dt_completed : list nat; dt_checkpoints : list DeploymentCheckpoint }.
Definition execute_operation (o : DeploymentOperation) : Remote unit := mret tt.
Definition operation_to_checkpoint_state (o : DeploymentOperation) : CheckpointState :=
  match o with CreateContainer _ _ => ContainerCreated | StartContainer _ => ContainerStarted | _ => PreDeployment end.
Definition rollback_operation (o : DeploymentOperation) : Remote unit := mret tt.
Fixpoint rollback_all (ops : list DeploymentOperation) (completed : list nat) : Remote unit :=
  match completed with
  | [] => mret tt
  | i :: completed => match ops !! i with Some o => rollback_operation o | None => mret tt end ≫= λ _, rollback_all ops completed
  end.
Fixpoint execute_from (index : nat) (rest : list DeploymentOperation) (t : DeploymentTransaction) : Remote DeploymentTransaction :=
  match rest with
  | [] => mret t
  | o :: rest =>
      try_of (execute_operation o) ≫= λ r,
      match r with
      | Ok _ => execute_from (S index) rest (mkTransaction (dt_operations t) (dt_completed t ++ [index]) (dt_checkpoints t ++ [mkCheckpoint None (operation_to_checkpoint_state o)]))
      | Err e => rollback_all (dt_operations t) (rev (dt_completed t)) ≫= λ _, fails e
      end
  end.
Definition execute (t : DeploymentTransaction) : Remote DeploymentTransaction := execute_from 0 (dt_operations t) t.

(** A transaction succeeds, with all of its operations completed, and runs none of them. *)
Lemma transaction_runs_nothing t h :
  dt_completed t = [] → ∃ t', execute t h = (Ok t', h) ∧ dt_completed t' = seq 0 (length (dt_operations t)).
Proof.
  intros Hc. unfold execute.
  assert (H : ∀ rest index t, ∃ t', execute_from index rest t h = (Ok t', h) ∧ dt_completed t' = dt_completed t ++ seq index (length rest)).
  { induction rest as [|o rest IH]; intros index t0; [exists t0; split; [done|by rewrite app_nil_r]|].
    destruct (IH (S index) (mkTransaction (dt_operations t0) (dt_completed t0 ++ [index]) (dt_checkpoints t0 ++ [mkCheckpoint None (operation_to_checkpoint_state o)])))
      as (t' & Ht & Hc'). exists t'. split; [exact Ht|]. rewrite Hc'. cbn [dt_completed length seq]. by rewrite <- app_assoc. }
  destruct (H (dt_operations t) 0%nat t) as (t' & Ht & Hd). exists t'. split; [done|]. by rewrite Hd, Hc.
Qed.

(** An operation under a retry is run until it succeeds, and at most as often as
    asked (once at least); an error is that of the last of all these runs. *)
Theorem retry_exact {A} (operation : Remote A) max_attempts h r h' :
  execute_with_recovery (Retry max_attempts) operation h = (r, h') →
  ∃ n, tried operation n h r h' ∧ (n ≤ max_attempts `max` 1)%nat ∧ (is_Ok r ∨ (max_attempts ≤ n)%nat).
Proof.
  intros H. cbn [execute_with_recovery] in H. apply retry_tried in H as (n & Hn & Hle & Hr); [|lia]. exists n. rewrite Nat.add_0_r in *. by split_and!.
Qed.

End ssh.

(** ** Instances *)

Definition place (id : string) : BlueprintDeploymentResult := mkDeployResult (mkInstance id AWS "t3.medium" "us-east-1" None None Running) id ∅ ∅.
(** A provider on which deployments are healthy at the second check *)
Definition steady : UpdateAdapter :=
  {| deploy_answer := λ l _ _ _, Ok (place ("new-" +:+ pretty (Z.of_nat (length l)))); health_answer := λ l _, Ok (2 <=? length l)%nat; clean_answer := λ _ _, Ok tt;
     health_time_over := λ _, false; update_seconds := λ l, Z.of_nat (length l) |}.
Lemma steady_beside : deploys_beside (UA := steady) (place "old").
Proof. intros l image spec env d [= <-] H. injection H as H _. cbn in H. discriminate H. Qed.

Lemma update_keeps_service_witness :
  ∃ new, us_calls (update_blueprint (UA := steady) "nginx" spec_basic ∅ (place "old") (mkUS (update_manager_new BlueGreen) [])).2 = [] ++ new ∧
    (∀ l1 c l2, new = l1 ++ UCleaned (place "old") c :: l2 → ∃ d, d ≠ place "old" ∧ UHealth d (Ok true) ∈ l1) ∧
    (∀ e, (update_blueprint (UA := steady) "nginx" spec_basic ∅ (place "old") (mkUS (update_manager_new BlueGreen) [])).1 = Err e → UCleaned (place "old") (Ok tt) ∉ new).
Proof.
  refine (update_keeps_service (UA := steady) (place "old") "nginx" spec_basic ∅ "" false (mkUS (update_manager_new BlueGreen) []) _ _ steady_beside (λ _, I) _).
  apply surjective_pairing.
Defined.

Lemma canary_ends_witness : (canary_loop (UA := steady) 100 90 200 (place "new") (mkUS (update_manager_new Recreate) [])).1 ≠ Ok None.
Proof.
  refine (canary_ends (UA := steady) 100 90 200 (place "new") (mkUS (update_manager_new Recreate) []) _ _ _ _ _ _).
  - lia.
  - lia.
  - apply le_n.
  - apply surjective_pairing.
Defined.

Definition flaky : Remote nat := λ h, if (2 <=? length h)%nat then (Ok (length h), h) else (Err (HttpError "busy"), h ++ [HttpGet "x"]).
Lemma retry_exact_witness :
  ∃ n, tried flaky n [] (Ok 2%nat) [HttpGet "x"; HttpGet "x"] ∧ (n ≤ 3 `max` 1)%nat ∧ (is_Ok (E := RemoteError) (Ok 2%nat) ∨ (3 ≤ n)%nat).
Proof. refine (retry_exact flaky 3 [] (Ok 2%nat) [HttpGet "x"; HttpGet "x"] _). reflexivity. Defined.

(** A canary that starts at the whole traffic is not checked: the old deployment goes
    although the new one never was healthy. *)
Definition sick : UpdateAdapter :=
  {| deploy_answer := λ _ _ _ _, Ok (place "new"); health_answer := λ _ _, Ok false; clean_answer := λ _ _, Ok tt; health_time_over := λ _, false;
     update_seconds := λ _, 1 |}.
Theorem full_canary_unchecked :
  us_calls (update_blueprint (UA := sick) "nginx" spec_basic ∅ (place "old") (mkUS (update_manager_new (Canary 100 10)) [])).2
  = [UDeployed "nginx" spec_basic (<["DEPLOYMENT_TYPE"%string := "canary"%string]> (<["DEPLOYMENT_VERSION"%string := "v1"%string]> ∅)) (Ok (place "new"));
     UCleaned (place "old") (Ok tt)].
Proof. vm_compute. reflexivity. Qed.
(** A canary without an increment does not end. *)
Definition well : UpdateAdapter :=
  {| deploy_answer := λ _ _ _ _, Ok (place "new"); health_answer := λ _ _, Ok true; clean_answer := λ _ _, Ok tt; health_time_over := λ _, false;
     update_seconds := λ _, 1 |}.
Theorem canary_without_increment fuel s : (canary_loop (UA := well) fuel 10 0 (place "new") s).1 = Ok None.
Proof. revert s. induction fuel as [|fuel IH]; intros s; [done|]. cbn [canary_loop]. change (100 <=? 10) with false. cbn iota. apply (IH _). Qed.
(** A canary whose check fails with an error is left running. *)
Definition broken : UpdateAdapter :=
  {| deploy_answer := λ _ _ _ _, Ok (place "new"); health_answer := λ _ _, Err (HttpError "timeout"); clean_answer := λ _ _, Ok tt; health_time_over := λ _, false;
     update_seconds := λ _, 1 |}.
Theorem canary_left_running :
  let '(r, s) := update_blueprint (UA := broken) "nginx" spec_basic ∅ (place "old") (mkUS (update_manager_new (Canary 10 10)) []) in
  r = Err (HttpError "timeout") ∧ List.filter (λ c, match c with UCleaned _ _ => true | _ => false end) (us_calls s) = [].
Proof. vm_compute. done. Qed.

(** Rolling updates leave the versions before as active; two updates in a second have one
    name. *)
Definition two_updates (a : UpdateAdapter) (strategy : UpdateStrategy) : UpdateManager :=
  us_manager (update_blueprint (UA := a) "b" spec_basic ∅ (place "n1") (update_blueprint (UA := a) "a" spec_basic ∅ (place "n0") (mkUS (update_manager_new strategy) [])).2).2.
Theorem two_active_versions : dv_status <$> um_versions (two_updates steady (RollingUpdate 1 1)) = [VActive; VActive].
Proof. vm_compute. reflexivity. Qed.
Theorem same_second_versions :
  (λ v, (dv_version v, dv_blueprint_image v, dv_status v)) <$> um_versions (two_updates well BlueGreen) = [("v1", "a", VInactive); ("v1", "b", VStaging)]%string.
Proof. vm_compute. reflexivity. Qed.

(** After ten failed updates the active version is out of the history: nothing to go back
    to. *)
Definition failed_updates (n : nat) (m : UpdateManager) : UpdateManager :=
  us_manager (Nat.iter n (λ s, (update_blueprint (UA := sick) "b" spec_basic ∅ (place "old") s).2) (mkUS m [])).
Theorem active_version_forgotten :
  let m := us_manager (update_blueprint (UA := well) "a" spec_basic ∅ (place "n0") (mkUS (update_manager_new BlueGreen) [])).2 in
  is_Some (active_version m) ∧ um_active_version (failed_updates 10 m) = Some "v1"%string ∧ length (um_versions (failed_updates 10 m)) = 10%nat ∧
  List.filter (λ v, bool_decide (dv_blueprint_image v = "a"%string)) (um_versions (failed_updates 10 m)) = [].
Proof. vm_compute. split_and!; [by eexists|done..]. Qed.

(** The versions that are kept are the oldest ones. *)
Definition inactive (name : string) : DeploymentVersion := mkVersion name "i" spec_basic ∅ 0 VInactive ∅ None.
Theorem oldest_versions_kept :
  dv_version <$> um_versions (us_manager (cleanup_old_versions (UA := well) (λ _, ""%string) 1 (mkUS (mkManager [inactive "v1"; inactive "v2"; inactive "v3"] None Recreate) [])).2)
  = ["v1"%string].
Proof. vm_compute. reflexivity. Qed.
