(* ===== verification/Metadata.v ===== *)
(** * Blueprint metadata ([manager/src/protocol/tangle/metadata.rs])

    From what a blueprint registered on chain to what the manager launches: the
    sources, read from the contract or from the event anchored by their hash, their
    conversion, and the policies of execution.  The ABI of the sources, the hash and
    the JSON of artifact descriptions are parameters. *)

From Stdlib Require Import ZArith Lia Ascii.
From stdpp Require Import base gmap sets list sorting strings pretty fin_maps numbers relations.
From S2P Require Import Prelude Bytes Text EvmLog Hex Http TeeTypes Disk Sources Upgrade UpgradeChain Launch ExecProfile.

#[local] Open Scope Z_scope.

(** ** On chain *)

Record OnChainBinary := mkOcBinary { oc_arch : Z; oc_os : Z; oc_name : string; oc_sha256 : B256 }.
Record OnChainImage := mkOcImage { oc_registry : string; oc_image : string; oc_tag : string }.
Record OnChainWasm := mkOcWasm { oc_runtime : Z; oc_wasm_fetcher : Z; oc_wasm_uri : string; oc_wasm_entrypoint : string }.
Record OnChainNative := mkOcNative { oc_fetcher : Z; oc_artifact_uri : string; oc_entrypoint : string }.
Record OnChainTesting := mkOcTesting { oc_cargo_package : string; oc_cargo_bin : string; oc_base_path : string }.
Record OnChainSource := mkOcSource {
  oc_kind : Z; oc_container : OnChainImage; oc_wasm : OnChainWasm; oc_native : OnChainNative; oc_testing : OnChainTesting; oc_binaries : list OnChainBinary;
}.
Definition SOURCE_KIND_CONTAINER : Z := 0.
Definition SOURCE_KIND_WASM : Z := 1.
Definition SOURCE_KIND_NATIVE : Z := 2.
Definition FETCHER_KIND_NONE : Z := 0.
Definition FETCHER_KIND_IPFS : Z := 1.
Definition FETCHER_KIND_HTTP : Z := 2.
Definition FETCHER_KIND_GITHUB : Z := 3.

(** The description of an artifact *)
Record ArtifactBinary := mkArtifact { ab_name : string; ab_arch : string; ab_os : string; ab_sha256 : string; ab_blake3 : option string }.
Record GithubArtifact := mkGithubArtifact { ga_owner : string; ga_repo : string; ga_tag : string; ga_binaries : list ArtifactBinary }.
Record RemoteArtifact := mkRemoteArtifact { ra_dist_url : string; ra_archive_url : string; ra_binaries : list ArtifactBinary }.
Class ArtifactJson := {
  github_artifact : string → option GithubArtifact;
  remote_artifact : string → option RemoteArtifact;
}.
Class SourcesAbi := {
  abi_decode_sources : list Byte8 → option (list OnChainSource);
  abi_encode_sources : list OnChainSource → list Byte8;
  keccak256_of : list Byte8 → B256;
  sig_sources_recorded : B256;
}.

(** ** Binaries *)

(** [architecture_label], [operating_system_label], [convert_binary],
    [convert_binaries] *)
Definition architecture_label (value : Z) : option string :=
  ["wasm32"; "wasm64"; "wasi32"; "wasi64"; "amd32"; "amd64"; "arm32"; "arm64"; "riscv32"; "riscv64"]%string !! Z.to_nat value.
Definition operating_system_label (value : Z) : option string := ["unknown"; "linux"; "windows"; "macos"; "bsd"]%string !! Z.to_nat value.
Definition convert_binary (e : OnChainBinary) : option BlueprintBinary :=
  arch ← architecture_label (oc_arch e);
  os ← operating_system_label (oc_os e);
  Some (mkBinary arch os (oc_name e) (oc_sha256 e) None).
Definition convert_binaries (l : list OnChainBinary) : list BlueprintBinary := omap convert_binary l.

(** [parse_digest] and [TryFrom<GithubArtifactBinary>] *)
Definition parse_digest (value label : string) : result string B256 :=
  match decode_hex (trim_start_matches "0x" (trim value)) with
  | None => Err ("invalid " +:+ label)
  | Some bytes => if negb (Nat.eqb (length bytes) 32) then Err (label +:+ " digest must be 32 bytes") else Ok bytes
  end.
Definition is_blank (s : string) : bool := bool_decide (trim s = ""%string).
Definition artifact_try_into (v : ArtifactBinary) : result string BlueprintBinary :=
  if is_blank (ab_name v) then Err "binary entry missing name"
  else if is_blank (ab_arch v) || is_blank (ab_os v) then Err "binary entry missing arch/os"
  else
    sha ← parse_digest (ab_sha256 v) "sha256";
    blake ← match ab_blake3 v with Some d => b ← parse_digest d "blake3"; Ok (Some b) | None => Ok None end;
    Ok (mkBinary (ab_arch v) (ab_os v) (ab_name v) sha blake).
(** [select_binaries] *)
Definition select_binaries (onchain : list BlueprintBinary) (described : list ArtifactBinary) : list BlueprintBinary :=
  if negb (bool_decide (onchain = [])) then onchain else omap (λ b, result_ok (artifact_try_into b)) described.

(** ** Sources *)

(** [convert_container_source] *)
Definition has_whitespace (s : string) : bool := existsb is_whitespace (chars s).
Definition convert_container_source (s : OnChainImage) : option ImageRegistryFetcher :=
  let registry := trim (oc_registry s) in
  let image := trim (oc_image s) in
  let tag := trim (oc_tag s) in
  if bool_decide (registry = ""%string) || bool_decide (image = ""%string) || bool_decide (tag = ""%string) || contains "://" registry
     || has_whitespace registry || has_whitespace image || has_whitespace tag
  then None
  else Some (mkImageFetcher registry image tag).
(** [convert_testing_source] *)
Definition convert_testing_source (s : OnChainTesting) : option TestFetcher :=
  let package := trim (oc_cargo_package s) in
  let bin := trim (oc_cargo_bin s) in
  let base := trim (oc_base_path s) in
  if bool_decide (package = ""%string) && bool_decide (bin = ""%string) && bool_decide (base = ""%string) then None
  else Some (mkTestFetcher package bin base).

Section metadata.
  Context `{AJ : ArtifactJson} `{SA : SourcesAbi} `{JT : JsonText}.

(** [build_github_fetcher], [build_remote_fetcher], [convert_native_source] *)
Definition build_github_fetcher (payload : string) (onchain : list BlueprintBinary) : option GithubFetcher :=
  if is_blank payload then None
  else
    m ← github_artifact payload;
    let binaries := select_binaries onchain (ga_binaries m) in
    if bool_decide (binaries = []) then None else Some (mkGithubFetcher (ga_owner m) (ga_repo m) (ga_tag m) binaries).
Definition build_remote_fetcher (payload : string) (onchain : list BlueprintBinary) : option RemoteFetcher :=
  if is_blank payload then None
  else
    m ← remote_artifact payload;
    let binaries := select_binaries onchain (ra_binaries m) in
    if bool_decide (binaries = []) then None else Some (mkRemoteFetcher (ra_dist_url m) (ra_archive_url m) binaries).
Definition convert_native_source (s : OnChainNative) (binaries : list BlueprintBinary) : option BlueprintSource :=
  if oc_fetcher s =? FETCHER_KIND_GITHUB then Github <$> build_github_fetcher (oc_artifact_uri s) binaries
  else if (oc_fetcher s =? FETCHER_KIND_HTTP) || (oc_fetcher s =? FETCHER_KIND_IPFS) then Remote <$> build_remote_fetcher (oc_artifact_uri s) binaries
  else None.
(** [convert_sources] *)
Definition convert_source (s : OnChainSource) : list BlueprintSource :=
  option_list (
    if oc_kind s =? SOURCE_KIND_CONTAINER then Container <$> convert_container_source (oc_container s)
    else if oc_kind s =? SOURCE_KIND_NATIVE then convert_native_source (oc_native s) (convert_binaries (oc_binaries s))
    else None) ++ option_list (Testing <$> convert_testing_source (oc_testing s)).
Definition convert_sources (l : list OnChainSource) : list BlueprintSource := mjoin (convert_source <$> l).

(** ** Metadata *)

(** What the contract answers *)
Record Definitions := mkDefinitions {
  df_definition : Z → result string (string * string * list OnChainSource);
  df_sources_hash : Z → result string B256;
  df_blueprint_of : Z → result string Z;
}.

(** [sources_from_event] *)
Definition pick_sources (expected : B256) (l : Log) : option (list OnChainSource) :=
  sources ← abi_decode_sources (log_data l);
  if bool_decide (keccak256_of (abi_encode_sources sources) = expected) then Some sources else None.
Definition no_sources_error (blueprint_id : Z) : ManagerError :=
  MgOther ("no BlueprintSourcesRecorded event matching anchored sourcesHash for blueprint " +:+ pretty blueprint_id).
Definition sources_from_event (d : Definitions) (c : ChainView) (blueprint_id : Z) : result ManagerError (list OnChainSource) :=
  expected ← map_err (λ e, MgOther ("failed to read blueprintSourcesHash(" +:+ pretty blueprint_id +:+ "): " +:+ e)) (df_sources_hash d blueprint_id);
  head ← map_err (λ e, MgOther ("block_number: " +:+ e)) (ch_block_number c);
  scan_windows (windows_to head) (λ from to, map_err (λ e, MgOther ("BlueprintSourcesRecorded logs: " +:+ e))
      (ch_logs c (mkLogFilter (tangle_address c) [sig_sources_recorded; u64_topic blueprint_id] from to)))
    (pick_sources expected) (no_sources_error blueprint_id) head.

(** [resolve_execution_policies]; the parser's own message, at the end of the error, is
    not kept *)
Definition resolve_execution_policies (profiling_data : string) : result ManagerError (ConfidentialityPolicy * GpuRequirements) :=
  match resolve_execution_profile profiling_data with
  | Err _ => Err (MgOther "invalid profilingData for execution profile")
  | Ok (Some p) => Ok (ep_confidentiality p, ep_gpu p)
  | Ok None => Ok (CpAny, gpu_default)
  end.

(** [load_blueprint_sources], [build_metadata], [resolve_service],
    [resolve_registration] *)
Definition load_blueprint_sources (d : Definitions) (c : ChainView) (blueprint_id : Z)
    : result ManagerError (option (string * list BlueprintSource * ConfidentialityPolicy * GpuRequirements)) :=
  def ← map_err (λ e, MgOther ("failed to fetch blueprint definition " +:+ pretty blueprint_id +:+ ": " +:+ e)) (df_definition d blueprint_id);
  let '(name, profiling_data, view_sources) := def in
  policies ← resolve_execution_policies profiling_data;
  onchain ← (match view_sources with [] => sources_from_event d c blueprint_id | l => Ok l end);
  let sources := convert_sources onchain in
  if Nat.eqb (length sources) 0 then Ok None else Ok (Some (name, sources, policies.1, policies.2)).
Definition build_metadata (d : Definitions) (c : ChainView) (blueprint_id service_id : Z) (registration_mode : bool)
    : result ManagerError (option BlueprintMetadata) :=
  r ← load_blueprint_sources d c blueprint_id;
  Ok match r with
     | Some (name, sources, conf, gpu) => Some (mkMetadata blueprint_id service_id name sources conf gpu registration_mode false)
     | None => None
     end.
Definition resolve_service (d : Definitions) (c : ChainView) (service_id : Z) : result ManagerError (option BlueprintMetadata) :=
  bp ← map_err MgOther (df_blueprint_of d service_id); build_metadata d c bp service_id false.
Definition resolve_registration (d : Definitions) (c : ChainView) (blueprint_id : Z) : result ManagerError (option BlueprintMetadata) :=
  build_metadata d c blueprint_id 0 true.

(** ** Anchored sources *)

(** Whatever the node answers, the scan only returns what a log was picked for. *)
Lemma newest_picked {A} (pick : Log → option A) logs a : newest pick logs = Some a → ∃ l, l ∈ logs ∧ pick l = Some a.
Proof.
  unfold newest. intros H. apply head_Some_elem_of, list_elem_of_omap in H as (l & Hl & Hp). exists l. split; [by apply elem_of_reverse|done].
Qed.
Lemma scan_windows_picked {E A} fuel (get : Z → Z → result E (list Log)) (pick : Log → option A) none to a :
  scan_windows fuel get pick none to = Ok a → ∃ f t logs l, get f t = Ok logs ∧ l ∈ logs ∧ pick l = Some a.
Proof.
  revert to. induction fuel as [|fuel IH]; intros to; cbn [scan_windows]; [done|].
  destruct (get _ to) as [logs|e] eqn:Hg; cbn [mbind result_bind]; [|done].
  destruct (newest pick logs) as [b|] eqn:Hn; [intros [= ->]; apply newest_picked in Hn as (l & ? & ?); eauto 7|].
  case_match; [done|apply IH].
Qed.

(** A log that is accepted decodes to sources with the anchored hash. *)
Lemma pick_sources_hash expected l sources :
  pick_sources expected l = Some sources → abi_decode_sources (log_data l) = Some sources ∧ keccak256_of (abi_encode_sources sources) = expected.
Proof. unfold pick_sources. intros H. apply bind_Some in H as (s & Hd & H). case_bool_decide; by simplify_eq. Qed.

Lemma sources_from_event_hash d c bp sources :
  sources_from_event d c bp = Ok sources → df_sources_hash d bp = Ok (keccak256_of (abi_encode_sources sources)).
Proof.
  unfold sources_from_event. destruct (df_sources_hash d bp) as [expected|e]; cbn [map_err mbind result_bind]; [|done].
  destruct (ch_block_number c); cbn [map_err mbind result_bind]; [|done].
  intros (f & t & logs & l & _ & _ & Hp)%scan_windows_picked. by apply pick_sources_hash in Hp as [_ <-].
Qed.

(** C30. What is launched is what the contract anchors, whatever the node that serves the
    logs answers: metadata that is resolved has the name of the definition, and its
    sources are the conversion of the view's sources or, when the view has none, of a
    list whose ABI encoding hashes to the anchor read from the contract; there is at
    least one, and the policies are those of the profile. *)
Theorem metadata_anchored d c bp service_id mode m :
  build_metadata d c bp service_id mode = Ok (Some m) →
  ∃ name profiling view onchain,
    df_definition d bp = Ok (name, profiling, view) ∧
    resolve_execution_policies profiling = Ok (md_confidentiality m, md_gpu m) ∧
    (match view with [] => df_sources_hash d bp = Ok (keccak256_of (abi_encode_sources onchain)) | _ => onchain = view end) ∧
    md_name m = name ∧ md_sources m = convert_sources onchain ∧ md_sources m ≠ [] ∧
    md_blueprint_id m = bp ∧ md_service_id m = service_id.
Proof.
  unfold build_metadata, load_blueprint_sources. destruct (df_definition d bp) as [[[name profiling] view]|e]; cbn [map_err mbind result_bind]; [|done].
  destruct (resolve_execution_policies profiling) as [[conf gpu]|e] eqn:Hp; cbn [mbind result_bind]; [|done].
  destruct (match view with [] => sources_from_event d c bp | _ => Ok view end) as [onchain|e] eqn:Ho; cbn [mbind result_bind]; [|done].
  destruct (Nat.eqb_spec (length (convert_sources onchain)) 0) as [Hz|Hz]; cbn; [done|]. intros [= <-].
  exists name, profiling, view, onchain. cbn. split_and!; try done; [|by intros E; rewrite E in Hz].
  destruct view; [by apply sources_from_event_hash in Ho|by simplify_eq].
Qed.

(** On a node that answers from the chain, the sources are those of the newest log of the
    contract that hashes to the anchor, however far back it is. *)
Lemma sources_from_event_newest d c chain bp head expected :
  honest_node c chain → ch_block_number c = Ok head → is_u64 head → df_sources_hash d bp = Ok expected →
  sources_from_event d c bp =
    match newest (pick_sources expected) (event_logs c chain [sig_sources_recorded; u64_topic bp] 0 head) with
    | Some s => Ok s
    | None => Err (no_sources_error bp)
    end.
Proof.
  intros [Hn Hs] Hb Hh Hd. unfold sources_from_event. rewrite Hb, Hd. cbn [map_err mbind result_bind].
  apply scan_windows_newest; [done| |unfold is_u64 in Hh; lia|done]. intros a b. by rewrite Hn.
Qed.

(** Digests on chain win: a native source with binaries on chain is fetched against
    those digests, whatever the description says. *)
Lemma onchain_binaries_win s binaries src :
  binaries ≠ [] → convert_native_source s binaries = Some src →
  match src with Github f => gf_binaries f = binaries | Remote f => rf_binaries f = binaries | _ => False end.
Proof.
  intros Hne. unfold convert_native_source, build_github_fetcher, build_remote_fetcher.
  assert (Hsel : ∀ l, select_binaries binaries l = binaries) by (intros l; unfold select_binaries; by rewrite bool_decide_eq_false_2).
  destruct (is_blank (oc_artifact_uri s)), (oc_fetcher s =? FETCHER_KIND_GITHUB), ((oc_fetcher s =? FETCHER_KIND_HTTP) || (oc_fetcher s =? FETCHER_KIND_IPFS)); try done; intros (f & H & ->)%fmap_Some;
    apply bind_Some in H as (a & _ & H); rewrite Hsel, bool_decide_eq_false_2 in H by done; by simplify_eq.
Qed.

End metadata.

(** A 32-bit host of x86 or ARM never selects a binary described on chain for it: the
    labels [amd32] and [arm32] are not normalized to the names of the host. *)
Lemma labels_32bit_unmatched :
  normalize_arch "amd32" ≠ normalize_arch "x86" ∧ normalize_arch "arm32" ≠ normalize_arch "arm".
Proof. done. Qed.


(** ** A run *)

#[export] Instance toy_artifact_json : ArtifactJson := {|
  github_artifact _ := None;
  remote_artifact s := if bool_decide (s = "demo"%string) then Some (mkRemoteArtifact "https://x/dist.json" "https://x/a.tar.xz" []) else None;
|}.
(** The blueprint's sources: a native one fetched over HTTP, with a digest on chain *)
Definition demo_sources : list OnChainSource :=
  [mkOcSource 2 (mkOcImage "" "" "") (mkOcWasm 0 0 "" "") (mkOcNative 2 "demo" "./demo") (mkOcTesting "" "" "")
     [mkOcBinary 5 1 "demo" (replicate 32 17)]].
(** Encodings of lists of sources by their length, hashes by the first byte *)
#[export] Instance toy_sources_abi : SourcesAbi := {|
  abi_decode_sources d := match d with [1] => Some demo_sources | [0] => Some [] | _ => None end;
  abi_encode_sources l := [Z.of_nat (length l)];
  keccak256_of d := replicate 32 (default 0 (list.head d));
  sig_sources_recorded := [6];
|}.
Definition sources_log (block : Z) (data : list Byte8) : Log := mkLog [9] [[6]; u64_topic 5] data (Some block) None None None.
Definition metadata_view : ChainView :=
  mkChainView [9] (λ _, Ok 0) (λ _, Ok 0) (λ _, Ok 2) (λ _, Ok 1) (λ _ _, Ok demo_onchain) (λ _, Ok demo_onchain) (Ok 31005)
    (λ f, Ok (filter (λ l, log_matches f l = true) [sources_log 3 [1]; sources_log 12000 [0]; sources_log 12001 [7]]))
    (λ _ _, no_tx) (λ _ _, no_tx).
Definition demo_definitions : Definitions := mkDefinitions (λ _, Ok ("demo"%string, ""%string, [])) (λ _, Ok (replicate 32 1)) (λ _, Ok 5).
Definition demo_metadata : BlueprintMetadata :=
  mkMetadata 5 8 "demo" [Remote (mkRemoteFetcher "https://x/dist.json" "https://x/a.tar.xz" [mkBinary "amd64" "linux" "demo" (replicate 32 17) None])]
    CpAny gpu_default false false.

(** The anchored log is four windows back, behind two that do not hash to the anchor. *)
Lemma metadata_anchored_witness :
  build_metadata demo_definitions metadata_view 5 8 false = Ok (Some demo_metadata) ∧
  ∃ onchain, md_sources demo_metadata = convert_sources onchain ∧ df_sources_hash demo_definitions 5 = Ok (keccak256_of (abi_encode_sources onchain)).
Proof.
  assert (H : build_metadata demo_definitions metadata_view 5 8 false = Ok (Some demo_metadata)) by (vm_compute; reflexivity).
  split; [exact H|]. destruct (metadata_anchored _ _ _ _ _ _ H) as (name & prof & view & onchain & Hd & _ & Hv & _ & Hs & _).
  exists onchain. split; [exact Hs|]. injection Hd as <- <- <-. exact Hv.
Defined.
