(* ===== verification/ManagerHandler.v ===== *)
(** * The manager's event handler ([manager/src/protocol/tangle/event_handler.rs])

    From the blocks of the chain to running services: activations and terminations,
    the start-up scan, the signals to the upgrade watcher and the swaps it asks for.
    The metadata of services and what the host does are data of each block. *)

From Stdlib Require Import ZArith Lia Ascii.
From stdpp Require Import base gmap sets list sorting strings pretty fin_maps numbers relations.
From S2P Require Import Prelude Bytes Text EvmLog Hex Http Disk Sources Upgrade UpgradeFetch UpgradeChain UpgradeWatch Launch.

#[local] Open Scope Z_scope.

Create HintDb manager.

Definition REGISTRATION_SERVICE_ID : Z := 0.

(** The services that run, the upgrade pipeline, and the signals for its watcher *)
Record Handler := mkHandler {
  hd_active : gmap Z (gmap Z Service);
  hd_upgrade : option Watcher;
  hd_signals : list (gset Z);
}.
Definition active (h : Handler) (blueprint_id service_id : Z) : option Service :=
  services ← hd_active h !! blueprint_id; services !! service_id.
Definition set_active (a : gmap Z (gmap Z Service)) (h : Handler) : Handler := mkHandler a (hd_upgrade h) (hd_signals h).
Definition on_watcher (f : Watcher → Watcher) (h : Handler) : Handler := mkHandler (hd_active h) (f <$> hd_upgrade h) (hd_signals h).

(** [active_blueprints.entry(..).or_default().insert(..)] *)
Definition insert_service (blueprint_id service_id : Z) (s : Service) (h : Handler) : Handler :=
  set_active (<[blueprint_id := <[service_id := s]> (default ∅ (hd_active h !! blueprint_id))]> (hd_active h)) h.
Definition drop_empty (blueprint_id : Z) (a : gmap Z (gmap Z Service)) : gmap Z (gmap Z Service) :=
  match a !! blueprint_id with Some s => if bool_decide (s = ∅) then delete blueprint_id a else a | None => a end.

Class ServiceEvents := {
  decode_activated : Log → option Z;
  decode_terminated : Log → option Z;
  decode_preregistered : Log → option Z;
}.

(** What the world answers while one block is handled: the metadata of services and
    of registrations, the blueprint of a service, the chain, each launch, the end of
    a service, and the clock *)
Record World := mkWorld {
  wd_env : ManagerEnv;
  wd_service : Z → result ManagerError (option BlueprintMetadata);
  wd_registration : Z → result ManagerError (option BlueprintMetadata);
  wd_blueprint_of : Z → option Z;
  wd_chain : ChainView;
  wd_launch : nat → Launch;
  wd_shutdown : Z → Z → result ManagerError unit;
  wd_now : Z;
}.

Section handler.
  Context `{V : VersionEvents} `{SE : ServiceEvents}.

(** [on_service_started], [on_service_stopped] *)
Definition on_service_started (c : ChainView) (blueprint_id service_id : Z) : Handler → Handler :=
  on_watcher (λ w,
    let w := tracked_insert blueprint_id service_id w in
    let w := match effective_binary_version c service_id blueprint_id with
             | Ok v => on_state (set_running service_id (mkRunning (version_id v) (bv_sha256 v))) w
             | Err _ => w
             end in
    match service_upgrade_policy c service_id with Ok p => on_state (set_policy service_id p) w | Err _ => w end).
Definition on_service_stopped (blueprint_id service_id : Z) : Handler → Handler :=
  on_watcher (λ w, on_state (clear_running service_id) (tracked_remove blueprint_id service_id w)).

(** [ensure_service_running] *)
Definition ensure_service_running (wd : World) (n : nat) (m : BlueprintMetadata) (h : Handler) : result ManagerError unit * Handler :=
  match active h (md_blueprint_id m) (md_service_id m) with
  | Some _ => (Ok tt, h)
  | None =>
      match launch (wd_env wd) (wd_launch wd n) m with
      | Err e => (Err e, h)
      | Ok s =>
          (Ok tt, on_service_started (wd_chain wd) (md_blueprint_id m) (md_service_id m)
                    (insert_service (md_blueprint_id m) (md_service_id m) s h))
      end
  end.

(** [stop_service]: an error of the shutdown ends it after the service was taken out *)
Definition stop_service (wd : World) (blueprint_id service_id : Z) (h : Handler) : result ManagerError unit * Handler :=
  match hd_active h !! blueprint_id with
  | None => (Ok tt, on_service_stopped blueprint_id service_id h)
  | Some services =>
      let taken := set_active (<[blueprint_id := delete service_id services]> (hd_active h)) h in
      match (if bool_decide (is_Some (services !! service_id)) then wd_shutdown wd blueprint_id service_id else Ok tt) with
      | Err e => (Err e, taken)
      | Ok _ => (Ok tt, on_service_stopped blueprint_id service_id (set_active (drop_empty blueprint_id (hd_active taken)) taken))
      end
  end.

(** [maybe_notify_upgrade_watcher]: a full channel drops a signal for blueprints; the
    signal for all waits *)
Definition SIGNALS : nat := 64.
Definition topic_u64 (t : B256) : Z := from_be_bytes (take 8 (drop 24 t)).
Definition scan_log (acc : gset Z * bool) (l : Log) : gset Z * bool :=
  match topics l with
  | [] => acc
  | t0 :: rest =>
      if bool_decide (t0 = sig_published) || bool_decide (t0 = sig_active_changed) || bool_decide (t0 = sig_deprecated) then
        match rest with bp :: _ => ({[ topic_u64 bp ]} ∪ acc.1, acc.2) | [] => acc end
      else if bool_decide (t0 = sig_acked) || bool_decide (t0 = sig_policy_set) then (acc.1, true)
      else acc
  end.
Definition send_signal (waits : bool) (s : gset Z) (h : Handler) : Handler :=
  if waits || (length (hd_signals h) <? SIGNALS)%nat then mkHandler (hd_active h) (hd_upgrade h) (hd_signals h ++ [s]) else h.
Definition maybe_notify_upgrade_watcher (logs : list Log) (h : Handler) : Handler :=
  match hd_upgrade h with
  | None => h
  | Some _ =>
      let '(blueprints, policy_changed) := foldl scan_log (∅, false) logs in
      if policy_changed then send_signal true ∅ h
      else if bool_decide (blueprints = ∅) then h else send_signal false blueprints h
  end.

(** [apply_swap] *)
Definition apply_swap (wd : World) (r : SwapRequest) (h : Handler) : Handler :=
  let bp := sr_blueprint_id r in
  let sid := sr_service_id r in
  match active h bp sid with
  | None => h
  | Some _ =>
      let a := <[bp := delete sid (default ∅ (hd_active h !! bp))]> (hd_active h) in
      on_watcher (λ w,
        on_state (λ st,
          push_history
            (mkHistory sid bp (rb_version_id <$> sr_previous r) (rb_sha256 <$> sr_previous r) (version_id (sr_target r))
               (bv_sha256 (sr_target r)) (sr_policy r) (wd_now wd) Swapped)
            (clear_pending sid (set_running sid (mkRunning (version_id (sr_target r)) (bv_sha256 (sr_target r))) st))) w)
        (set_active (drop_empty bp a) h)
  end.
(** [drain_pending_swaps] *)
Definition take_queue (w : Watcher) : Watcher :=
  mkWatcher (w_state w) (w_tracked w) (w_authz w) [] (w_open w) (w_caches w).
Definition drain_pending_swaps (wd : World) (h : Handler) : Handler :=
  match hd_upgrade h with
  | None => h
  | Some w => foldl (λ h r, apply_swap wd r h) (on_watcher take_queue h) (w_queue w)
  end.

(** [handle_event] *)
Definition handle_log (wd : World) (n : nat) (l : Log) (h : Handler) : result ManagerError unit * Handler :=
  match decode_activated l with
  | Some service_id =>
      match wd_service wd service_id with
      | Err e => (Err e, h)
      | Ok None => (Ok tt, h)
      | Ok (Some m) => (Ok tt, (ensure_service_running wd n m h).2)
      end
  | None =>
      match decode_terminated l with
      | Some service_id =>
          match wd_blueprint_of wd service_id with Some bp => stop_service wd bp service_id h | None => (Ok tt, h) end
      | None =>
          match decode_preregistered l with
          | Some blueprint_id =>
              match wd_registration wd blueprint_id with
              | Err e => (Err e, h)
              | Ok None => (Ok tt, h)
              | Ok (Some m) => ensure_service_running wd n m h
              end
          | None => (Ok tt, h)
          end
      end
  end.
Fixpoint handle_logs (wd : World) (n : nat) (logs : list Log) (h : Handler) : result ManagerError unit * Handler :=
  match logs with
  | [] => (Ok tt, h)
  | l :: logs =>
      match handle_log wd n l h with
      | (Err e, h) => (Err e, h)
      | (Ok _, h) => handle_logs wd (n + 1) logs h
      end
  end.
Definition handle_event (wd : World) (logs : list Log) (h : Handler) : result ManagerError unit * Handler :=
  match handle_logs wd 0 logs h with
  | (Err e, h) => (Err e, h)
  | (Ok _, h) => (Ok tt, drain_pending_swaps wd (maybe_notify_upgrade_watcher logs h))
  end.

(** [initialize]: a registration run, or the replay of the latest block and the scan of
    all services of the operator *)
Record Init := mkInit {
  in_registration : option Z;
  in_capture_only : bool;
  in_latest : option (list Log);
  in_count : option Z;
  in_member : Z → result ManagerError bool;
}.
(** [metadata.registration_capture_only = ..] *)
Definition with_capture (capture_only : bool) (m : BlueprintMetadata) : BlueprintMetadata :=
  mkMetadata (md_blueprint_id m) (md_service_id m) (md_name m) (md_sources m) (md_confidentiality m) (md_gpu m)
    (md_registration_mode m) capture_only.
Definition scan_service (i : Init) (wd : World) (h : Handler) (service_id : Z) : Handler :=
  match in_member i service_id with
  | Ok true =>
      match wd_service wd service_id with
      | Ok (Some m) => (ensure_service_running wd (Z.to_nat service_id) m h).2
      | _ => h
      end
  | _ => h
  end.
Definition initialize (i : Init) (wd : World) (h : Handler) : result ManagerError unit * Handler :=
  match in_registration i with
  | Some blueprint_id =>
      match wd_registration wd blueprint_id with
      | Err e => (Err e, h)
      | Ok None => (Ok tt, h)
      | Ok (Some m) =>
          ensure_service_running wd 0 (with_capture (in_capture_only i) m) h
      end
  | None =>
      let h := match in_latest i with Some logs => (handle_event wd logs h).2 | None => h end in
      (Ok tt, foldl (scan_service i wd) h (seqZ 0 (default 0 (in_count i))))
  end.

End handler.

(** ** Which services run *)

Lemma active_insert bp sid s h bp' sid' :
  active (insert_service bp sid s h) bp' sid' = if decide ((bp', sid') = (bp, sid)) then Some s else active h bp' sid'.
Proof.
  unfold active, insert_service. cbn [hd_active set_active]. destruct (decide (bp' = bp)) as [->|Hb].
  - rewrite lookup_insert_eq. cbn. destruct (decide (sid' = sid)) as [->|Hs].
    + rewrite lookup_insert_eq. by rewrite decide_True.
    + rewrite lookup_insert_ne, decide_False by congruence. by destruct (hd_active h !! bp).
  - rewrite lookup_insert_ne, decide_False by congruence. done.
Qed.
Lemma active_on_watcher f h bp sid : active (on_watcher f h) bp sid = active h bp sid.
Proof. done. Qed.
Lemma lookup_drop_empty (a : gmap Z (gmap Z Service)) bp bp' sid' :
  (drop_empty bp a !! bp' ≫= λ s, s !! sid') = (a !! bp' ≫= λ s, s !! sid').
Proof.
  unfold drop_empty. destruct (a !! bp) as [s|] eqn:E; [|done]. case_bool_decide as Hs; [|done]. destruct (decide (bp' = bp)) as [->|Hb].
  - rewrite lookup_delete_eq, E. cbn. by rewrite Hs, lookup_empty.
  - by rewrite lookup_delete_ne.
Qed.
Lemma lookup_remove (a : gmap Z (gmap Z Service)) bp sid bp' sid' :
  (<[bp := delete sid (default ∅ (a !! bp))]> a !! bp' ≫= λ s, s !! sid')
  = if decide ((bp', sid') = (bp, sid)) then None else a !! bp' ≫= λ s, s !! sid'.
Proof.
  destruct (decide (bp' = bp)) as [->|Hb].
  - rewrite lookup_insert_eq. cbn. destruct (decide (sid' = sid)) as [->|Hs].
    + rewrite lookup_delete_eq. by rewrite decide_True.
    + rewrite lookup_delete_ne, decide_False by congruence. by destruct (a !! bp).
  - rewrite lookup_insert_ne, decide_False by congruence. done.
Qed.

Section proofs.
  Context `{V : VersionEvents} `{SE : ServiceEvents}.

Lemma active_apply_swap wd r h bp sid :
  active (apply_swap wd r h) bp sid = if decide ((bp, sid) = req_key r) then None else active h bp sid.
Proof.
  unfold apply_swap. destruct (active h (sr_blueprint_id r) (sr_service_id r)) eqn:E.
  - rewrite active_on_watcher. unfold active at 1. cbn [hd_active set_active]. rewrite lookup_drop_empty, lookup_remove. done.
  - destruct (decide _) as [Hk|]; [|done]. injection Hk as -> ->. done.
Qed.

Lemma stop_service_active wd bp sid h bp' sid' :
  active (stop_service wd bp sid h).2 bp' sid' = if decide ((bp', sid') = (bp, sid)) then None else active h bp' sid'.
Proof.
  unfold stop_service. destruct (hd_active h !! bp) as [services|] eqn:E.
  - assert (Hs : services = default ∅ (hd_active h !! bp)) by (by rewrite E).
    destruct (if bool_decide _ then _ else _); unfold active; cbn [snd hd_active set_active on_service_stopped on_watcher];
      rewrite ?lookup_drop_empty, Hs; apply lookup_remove.
  - cbn [snd]. unfold on_service_stopped. rewrite active_on_watcher. destruct (decide _) as [Hk|]; [|done]. injection Hk as -> ->.
    unfold active. by rewrite E.
Qed.

Lemma ensure_active wd n m h bp sid :
  active (ensure_service_running wd n m h).2 bp sid =
    if decide ((bp, sid) = (md_blueprint_id m, md_service_id m))
    then match active h bp sid with Some s => Some s | None => result_ok (launch (wd_env wd) (wd_launch wd n) m) end
    else active h bp sid.
Proof.
  unfold ensure_service_running. destruct (active h (md_blueprint_id m) (md_service_id m)) as [s|] eqn:E.
  - cbn. destruct (decide _) as [Hk|]; [|done]. injection Hk as -> ->. by rewrite E.
  - destruct (launch _ _ _) as [s|e]; cbn [snd result_ok].
    + unfold on_service_started. rewrite active_on_watcher, active_insert. destruct (decide _) as [Hk|]; [|done]. injection Hk as -> ->. by rewrite E.
    + destruct (decide _) as [Hk|]; [|done]. injection Hk as -> ->. by rewrite E.
Qed.

(** ** The invariant *)

(** The metadata the handler is given: what it was answered for a service or for
    a registration; the first registration sets how it is captured *)
Definition resolved (wd : World) (m : BlueprintMetadata) : Prop :=
  (∃ service_id, wd_service wd service_id = Ok (Some m)) ∨
  (∃ blueprint_id m0, wd_registration wd blueprint_id = Ok (Some m0) ∧ (m = m0 ∨ ∃ c, m = with_capture c m0)).

(** A service as it should be, [wds] the worlds its blocks were handled in: one of
    them answered with metadata for this blueprint and service, the launch from it
    succeeded there, and the source is one of this metadata, or the local build,
    and a container if it must be in a TEE *)
Definition launched (wds : list World) (bp sid : Z) (v : Service) : Prop :=
  ∃ wd n m, wd ∈ wds ∧ resolved wd m ∧ md_blueprint_id m = bp ∧ md_service_id m = sid ∧
    launch (wd_env wd) (wd_launch wd n) m = Ok v ∧ v = make_service (wd_env wd) m (sv_source v) ∧
    (sv_source v ∈ md_sources m ∨ cargo_fallback (wd_env wd) m = Some (sv_source v)) ∧
    (md_confidentiality m = TeeRequired → supports_tee (sv_source v) = true).
Definition sound (wds : list World) (h : Handler) : Prop :=
  ∀ bp sid v, active h bp sid = Some v →
    launched wds bp sid v ∧ (∀ w, hd_upgrade h = Some w → (bp, sid) ∈ w_tracked w).

Lemma launched_mono wds wds' bp sid v : wds ⊆ wds' → launched wds bp sid v → launched wds' bp sid v.
Proof. intros Hs (wd & n & m & Hw & H). exists wd, n, m. split; [by apply Hs|done]. Qed.
Lemma sound_mono wds wds' h : wds ⊆ wds' → sound wds h → sound wds' h.
Proof. intros Hs Hh bp sid v Hv. destruct (Hh bp sid v Hv). split; [by eapply launched_mono|done]. Qed.
Lemma resolved_service wd sid m : wd_service wd sid = Ok (Some m) → resolved wd m.
Proof. left. by exists sid. Qed.
Lemma resolved_registration wd bp m : wd_registration wd bp = Ok (Some m) → resolved wd m.
Proof. right. exists bp, m. auto. Qed.
Lemma resolved_captured wd bp m c : wd_registration wd bp = Ok (Some m) → resolved wd (with_capture c m).
Proof. right. exists bp, m. eauto. Qed.
#[local] Hint Resolve resolved_service resolved_registration resolved_captured : manager.

Section worlds.
  Variable wds : list World.

(** A change of the pipeline that keeps what is tracked *)
Lemma sound_on_watcher f h : (∀ w, w_tracked (f w) = w_tracked w) → sound wds h → sound wds (on_watcher f h).
Proof.
  intros Hf Hs bp sid v Hv. destruct (Hs bp sid v Hv) as [Hl Ht]. split; [done|]. intros w Hw. cbn in Hw.
  destruct (hd_upgrade h) as [w0|]; [|done]. injection Hw as <-. rewrite Hf. by apply Ht.
Qed.

Lemma ensure_sound wd n m h : wd ∈ wds → resolved wd m → sound wds h → sound wds (ensure_service_running wd n m h).2.
Proof.
  intros Hin Hres Hs bp sid v. rewrite ensure_active. unfold ensure_service_running.
  destruct (active h (md_blueprint_id m) (md_service_id m)) as [s0|] eqn:E.
  { cbn [snd]. destruct (decide _) as [Hk|]; [|apply Hs]. destruct (active h bp sid) eqn:E'; [|congruence]. intros [= <-]. by apply Hs. }
  destruct (launch _ _ m) as [s|e] eqn:El; cbn [snd result_ok].
  - destruct (launch_started _ _ _ _ El) as (src & -> & Hsrc). assert (Hup : ∀ w, hd_upgrade (on_service_started (wd_chain wd) (md_blueprint_id m)
        (md_service_id m) (insert_service (md_blueprint_id m) (md_service_id m) (make_service (wd_env wd) m src) h)) = Some w →
        ∃ w0, hd_upgrade h = Some w0 ∧ w_tracked w = {[ (md_blueprint_id m, md_service_id m) ]} ∪ w_tracked w0).
    { intros w. cbn. destruct (hd_upgrade h) as [w0|]; [|done]. intros [= <-]. exists w0. split; [done|]. by repeat case_match. }
    destruct (decide _) as [Hk|Hk].
    + injection Hk as -> ->. rewrite E. intros [= <-]. split; [by exists wd, n, m|]. intros w Hw.
      destruct (Hup w Hw) as (w0 & _ & ->). set_solver.
    + intros Hv. destruct (Hs _ _ _ Hv) as [Hl Ht]. split; [done|]. intros w Hw. destruct (Hup w Hw) as (w0 & H0 & ->).
      apply elem_of_union. right. by apply Ht.
  - destruct (decide _) as [Hk|]; [|apply Hs]. injection Hk as -> ->. by rewrite E.
Qed.

Lemma stop_sound wd bp sid h : sound wds h → sound wds (stop_service wd bp sid h).2.
Proof.
  intros Hs bp' sid' v. rewrite stop_service_active. destruct (decide _) as [|Hk]; [done|]. intros Hv. destruct (Hs _ _ _ Hv) as [Hl Ht].
  split; [done|]. intros w. unfold stop_service.
  assert (Hst : ∀ h0, hd_upgrade h0 = hd_upgrade h → hd_upgrade (on_service_stopped bp sid h0) = Some w → (bp', sid') ∈ w_tracked w).
  { intros h0 E. cbn. rewrite E. destruct (hd_upgrade h) as [w0|]; [|done]. intros [= <-]. cbn. specialize (Ht w0 eq_refl). set_solver. }
  destruct (hd_active h !! bp) as [services|]; [|by apply Hst]. destruct (if bool_decide _ then _ else _); [by apply Hst|by apply Ht].
Qed.

Lemma apply_swap_sound wd r h : sound wds h → sound wds (apply_swap wd r h).
Proof.
  intros Hs bp sid v. rewrite active_apply_swap. destruct (decide _) as [|Hk]; [done|]. intros Hv. destruct (Hs _ _ _ Hv) as [Hl Ht].
  split; [done|]. intros w. unfold apply_swap. destruct (active h (sr_blueprint_id r) (sr_service_id r)); [|apply Ht]. cbn. destruct (hd_upgrade h) as [w0|]; [|done].
  intros [= <-]. exact (Ht w0 eq_refl).
Qed.

Lemma handle_logs_sound wd n logs h : wd ∈ wds → sound wds h → sound wds (handle_logs wd n logs h).2.
Proof.
  intros Hin. revert n h. induction logs as [|l logs IH]; intros n h Hs; cbn [handle_logs]; [done|].
  assert (H1 : sound wds (handle_log wd n l h).2).
  { unfold handle_log. destruct (decode_activated l); [destruct (wd_service wd _) as [[m|]|] eqn:Ew; try done; eauto using ensure_sound with manager|].
    destruct (decode_terminated l); [destruct (wd_blueprint_of wd _); [by apply stop_sound|done]|].
    destruct (decode_preregistered l); [|done]. destruct (wd_registration wd _) as [[m|]|] eqn:Ew; try done. eauto using ensure_sound with manager. }
  destruct (handle_log wd n l h) as [[[]|e] h1]; [by apply IH|done].
Qed.

Lemma send_signal_sound b s h : sound wds h → sound wds (send_signal b s h).
Proof. intros H. unfold send_signal. by destruct (_ || _). Qed.

Lemma handle_event_sound wd logs h : wd ∈ wds → sound wds h → sound wds (handle_event wd logs h).2.
Proof.
  intros Hin Hs. unfold handle_event. pose proof (handle_logs_sound wd 0 logs h Hin Hs) as H1.
  destruct (handle_logs wd 0 logs h) as [[[]|e] h1]; [|done]. cbn [snd] in *.
  assert (H2 : sound wds (maybe_notify_upgrade_watcher logs h1)).
  { unfold maybe_notify_upgrade_watcher. destruct (hd_upgrade h1); [|done]. destruct (foldl scan_log _ logs) as [bps [|]]; [by apply send_signal_sound|].
    case_bool_decide; [done|by apply send_signal_sound]. }
  unfold drain_pending_swaps. destruct (hd_upgrade (maybe_notify_upgrade_watcher logs h1)) as [w|]; [|done].
  assert (H3 : sound wds (on_watcher take_queue (maybe_notify_upgrade_watcher logs h1))) by (by apply sound_on_watcher). revert H3.
  generalize (on_watcher take_queue (maybe_notify_upgrade_watcher logs h1)). induction (w_queue w) as [|r q IH]; intros h2 H2'; [done|].
  cbn. by apply IH, apply_swap_sound.
Qed.

Lemma initialize_sound i wd h : wd ∈ wds → sound wds h → sound wds (initialize i wd h).2.
Proof.
  intros Hin Hs. unfold initialize. destruct (in_registration i).
  - destruct (wd_registration wd _) as [[m|]|] eqn:Ew; try done. eauto using ensure_sound with manager.
  - cbn [snd]. assert (H1 : sound wds (match in_latest i with Some logs => (handle_event wd logs h).2 | None => h end))
      by (destruct (in_latest i); [by apply handle_event_sound|done]).
    revert H1. generalize (match in_latest i with Some logs => (handle_event wd logs h).2 | None => h end).
    induction (seqZ 0 (default 0 (in_count i))) as [|sid l IH]; intros h1 H1; [done|]. cbn. apply IH. unfold scan_service.
    destruct (in_member i sid) as [[|]|]; try done. destruct (wd_service wd sid) as [[m|]|] eqn:Ew; try done. eauto using ensure_sound with manager.
Qed.

End worlds.
End proofs.

(** ** The manager as a whole *)

Section system.
  Context `{Pl : Platform} `{N : Net} `{D : Digests} `{J : ManifestJson} `{AJ : AuthzJson} `{V : VersionEvents} `{SE : ServiceEvents}.

(** Calls of the local API *)
Inductive ApiCall :=
| CallGetPolicy (service_id : Z) | CallSetPolicy (service_id : Z) (p : UpgradePolicy)
| CallPin (fails : bool) (service_id version : Z) (dry_run : bool) | CallWhitelist (fails : bool) (service_id : Z) (versions : list Z)
| CallSkip (fails : bool) (service_id version : Z) (reason : string).
Definition api_run (c : ChainView) (call : ApiCall) (w : Watcher) : Watcher :=
  match call with
  | CallGetPolicy sid => (api_get_policy c sid w).2
  | CallSetPolicy sid p => (api_set_policy c sid p w).2
  | CallPin fails sid v dry => (api_set_pin c fails sid v dry w).2
  | CallWhitelist fails sid vs => (api_set_whitelist fails sid vs w).2
  | CallSkip fails sid v reason => (api_add_skip fails sid v reason w).2
  end.

(** The steps: the start, a block, a signal taken by the watcher, a call of the API;
    with the worlds that answered in it *)
Inductive sys_step : list World → Handler → Handler → Prop :=
| step_init i wd h : sys_step [wd] h (initialize i wd h).2
| step_block wd logs h : sys_step [wd] h (handle_event wd logs h).2
| step_watch env s rest h w :
    hd_upgrade h = Some w → hd_signals h = s :: rest →
    sys_step [] h (mkHandler (hd_active h) (Some (reconcile env s w)) rest)
| step_api c call h : sys_step [] h (on_watcher (api_run c call) h).
Inductive sys_run : list World → Handler → Handler → Prop :=
| run_start h : sys_run [] h h
| run_step wds1 wds2 h1 h2 h3 : sys_step wds1 h1 h2 → sys_run wds2 h2 h3 → sys_run (wds1 ++ wds2) h1 h3.

Lemma execute_swap_tracked bp sid t p r now w : w_tracked (execute_swap bp sid t p r now w).2 = w_tracked w.
Proof. unfold execute_swap, enqueue. destruct (download_and_verify _ _ _) as [[?|?] ?]; [|done]. cbn. by destruct (w_open w). Qed.

Lemma reconcile_one_tracked c i bp sid w : w_tracked (reconcile_one c i bp sid w).2 = w_tracked w.
Proof.
  unfold reconcile_one. destruct (service_upgrade_policy c sid) as [p|]; [|done].
  destruct (effective_binary_version c sid bp) as [t|e]; [|by destruct e]. cbn zeta. destruct (negb _); [done|]. destruct p.
  - unfold reconcile_approve. destruct (service_acked_version_id c sid); [|done]. destruct (_ =? _); [|done]. by rewrite execute_swap_tracked.
  - unfold reconcile_auto. destruct (attestation_verify _ _ _); [|done]. by rewrite execute_swap_tracked.
  - unfold reconcile_manual. destruct (authz_decide _ _) as [|b|]; try done. destruct (attestation_verify _ _ _); [|done].
    pose proof (execute_swap_tracked bp sid t Manual (us_running (w_state (on_state (set_policy sid Manual) w)) !! sid) (in_now i)
      (on_state (set_policy sid Manual) w)) as H. destruct (execute_swap _ _ _ _ _ _ _) as [r w1]. by destruct b.
Qed.

Lemma reconcile_tracked env bps w : w_tracked (reconcile env bps w) = w_tracked w.
Proof.
  unfold reconcile. generalize (tracked_snapshot w). intros l. revert w.
  induction l as [|[bp sid] l IH]; intros w; [done|]. cbn [reconcile_services]. rewrite IH. destruct (_ && _); [done|]. apply reconcile_one_tracked.
Qed.

Lemma api_run_tracked c call w : w_tracked (api_run c call w) = w_tracked w.
Proof.
  destruct call; cbn [api_run]; unfold api_get_policy, api_set_policy, api_set_pin, api_set_whitelist, api_add_skip;
    repeat case_match; done.
Qed.

Lemma step_sound all wds h h' : sys_step wds h h' → wds ⊆ all → sound all h → sound all h'.
Proof.
  intros [i wd h0|wd logs h0|env s rest h0 w Hw Hs|c call h0] Hall Hsound.
  - apply initialize_sound; [set_solver|done].
  - apply handle_event_sound; [set_solver|done].
  - intros bp sid v Hv. destruct (Hsound bp sid v Hv) as [Hl Ht]. split; [done|]. cbn. intros w' [= <-]. rewrite reconcile_tracked. by apply Ht.
  - apply sound_on_watcher; [|done]. apply api_run_tracked.
Qed.

Lemma run_sound all wds h h' : sys_run wds h h' → wds ⊆ all → sound all h → sound all h'.
Proof. induction 1 as [|wds1 wds2 h1 h2 h3 Hstep _ IH]; [done|]. intros Hall Hs. apply IH; [set_solver|]. eapply step_sound; [done|set_solver|done]. Qed.

(** C12. Whatever the blocks, the signals, the calls of the API and the host do, and in
    whatever order: for every service that runs, the manager was answered, in one of
    the worlds of the run, with metadata for this blueprint and service, and the launch
    from this metadata succeeded there; the service's source is one of the sources of
    that metadata, or, for a native manager with a local build configured and a
    blueprint that does not require a TEE, this build; it is a container if the
    blueprint requires a TEE; and the upgrade watcher, if there is one, follows it. *)
Theorem running_services_sound up wds h :
  sys_run wds (mkHandler ∅ up []) h →
  ∀ bp sid v, active h bp sid = Some v →
    (∃ wd n m, wd ∈ wds ∧ resolved wd m ∧ md_blueprint_id m = bp ∧ md_service_id m = sid ∧
       launch (wd_env wd) (wd_launch wd n) m = Ok v ∧ v = make_service (wd_env wd) m (sv_source v) ∧
       (sv_source v ∈ md_sources m ∨ cargo_fallback (wd_env wd) m = Some (sv_source v)) ∧
       (md_confidentiality m = TeeRequired → supports_tee (sv_source v) = true)) ∧
    (∀ w, hd_upgrade h = Some w → (bp, sid) ∈ w_tracked w).
Proof.
  intros Hr. apply (run_sound wds wds _ h Hr); [done|].
  intros bp sid v. unfold active. cbn. by rewrite lookup_empty.
Qed.

(** ** Start-up *)

Lemma ensure_keeps wd n m h bp sid : is_Some (active h bp sid) → is_Some (active (ensure_service_running wd n m h).2 bp sid).
Proof. intros [v Hv]. rewrite ensure_active, Hv. destruct (decide _); eauto. Qed.
Lemma scan_keeps i wd l h bp sid : is_Some (active h bp sid) → is_Some (active (foldl (scan_service i wd) h l) bp sid).
Proof.
  revert h. induction l as [|x l IH]; intros h Hv; [done|]. cbn. apply IH. unfold scan_service.
  destruct (in_member i x) as [[|]|]; try done. destruct (wd_service wd x) as [[m|]|]; try done. by apply ensure_keeps.
Qed.

(** After the start every service of the operator runs that can be launched,
    whatever becomes of the others and of the replay of the latest block. *)
Theorem initialize_runs_services i wd h sid count m :
  in_registration i = None → in_count i = Some count → 0 ≤ sid < count → in_member i sid = Ok true →
  wd_service wd sid = Ok (Some m) → is_Ok (launch (wd_env wd) (wd_launch wd (Z.to_nat sid)) m) →
  is_Some (active (initialize i wd h).2 (md_blueprint_id m) (md_service_id m)).
Proof.
  intros Hr Hc Hsid Hm Hs [v Hv]. unfold initialize. rewrite Hr, Hc. cbn [snd]. change (default 0 (Some count)) with count.
  assert (Hin : sid ∈ seqZ 0 count) by (apply elem_of_seqZ; lia). apply list_elem_of_split in Hin as (l1 & l2 & ->).
  rewrite foldl_app. cbn [foldl]. apply scan_keeps. unfold scan_service at 1. rewrite Hm, Hs.
  rewrite ensure_active, decide_True by done. destruct (active _ _ _); [by eexists|]. rewrite Hv. by eexists.
Qed.

(** ** Ends *)

(** A service that ended without an error neither runs nor is followed, and what ran
    is forgotten; after an error it does not run, and the watcher follows it still. *)
Lemma stop_service_ends wd bp sid h :
  active (stop_service wd bp sid h).2 bp sid = None ∧
  match (stop_service wd bp sid h).1 with
  | Ok _ => ∀ w, hd_upgrade (stop_service wd bp sid h).2 = Some w → (bp, sid) ∉ w_tracked w ∧ us_running (w_state w) !! sid = None
  | Err _ => hd_upgrade (stop_service wd bp sid h).2 = hd_upgrade h
  end.
Proof.
  split; [by rewrite stop_service_active, decide_True|]. unfold stop_service.
  assert (Hst : ∀ h0 w, hd_upgrade (on_service_stopped bp sid h0) = Some w → (bp, sid) ∉ w_tracked w ∧ us_running (w_state w) !! sid = None).
  { intros h0 w. cbn. destruct (hd_upgrade h0) as [w0|]; [|done]. intros [= <-]. cbn. split; [set_solver|by rewrite lookup_delete_eq]. }
  destruct (hd_active h !! bp) as [services|]; [|exact (Hst h)]. destruct (if bool_decide _ then _ else _); [|done]. exact (Hst _).
Qed.

(** ** Swaps *)

(** A swap takes the service down and records it as running: it is off, the watcher
    follows it, and takes the target for what runs. *)
Lemma apply_swap_takes_down wd r h w :
  hd_upgrade h = Some w → is_Some (active h (sr_blueprint_id r) (sr_service_id r)) →
  active (apply_swap wd r h) (sr_blueprint_id r) (sr_service_id r) = None ∧
  ∃ w', hd_upgrade (apply_swap wd r h) = Some w' ∧ w_tracked w' = w_tracked w ∧
    us_running (w_state w') !! sr_service_id r = Some (mkRunning (version_id (sr_target r)) (bv_sha256 (sr_target r))) ∧
    outcome <$> last (us_history (w_state w')) = Some Swapped.
Proof.
  intros Hw [v Hv]. split; [by rewrite active_apply_swap, decide_True|]. unfold apply_swap. rewrite Hv. cbn. rewrite Hw. cbn.
  eexists. split; [reflexivity|]. split; [done|]. cbn. rewrite lookup_insert_eq, last_snoc. done.
Qed.

(** Only an activation or a registration starts a service: other blocks leave a
    service that is off, such as a swapped one, off. *)
Lemma down_stays_down wd logs h bp sid :
  Forall (λ l, decode_activated l = None ∧ decode_preregistered l = None) logs → active h bp sid = None →
  active (handle_event wd logs h).2 bp sid = None.
Proof.
  intros Hl Hv. unfold handle_event.
  assert (H1 : ∀ n h, active h bp sid = None → active (handle_logs wd n logs h).2 bp sid = None).
  { clear h Hv. induction Hl as [|l logs [Ha Hp] Hl IH]; intros n h Hv; [done|]. cbn [handle_logs].
    assert (H1 : active (handle_log wd n l h).2 bp sid = None).
    { unfold handle_log. rewrite Ha, Hp. destruct (decode_terminated l); [|done]. destruct (wd_blueprint_of wd _); [|done].
      rewrite stop_service_active. by destruct (decide _). }
    destruct (handle_log wd n l h) as [[[]|e] h1]; [by apply IH|done]. }
  specialize (H1 0%nat h Hv). destruct (handle_logs wd 0 logs h) as [[[]|e] h1]; [|done]. cbn [snd] in *. unfold drain_pending_swaps.
  assert (H2 : active (maybe_notify_upgrade_watcher logs h1) bp sid = None).
  { rewrite <- H1. unfold maybe_notify_upgrade_watcher, send_signal. destruct (hd_upgrade h1); [|done].
    destruct (foldl scan_log _ logs) as [bps [|]]; [done|]. case_bool_decide; [done|]. by destruct (_ || _). }
  destruct (hd_upgrade (maybe_notify_upgrade_watcher logs h1)) as [w|]; [|done].
  assert (H3 : active (on_watcher take_queue (maybe_notify_upgrade_watcher logs h1)) bp sid = None) by exact H2. revert H3.
  generalize (on_watcher take_queue (maybe_notify_upgrade_watcher logs h1)). induction (w_queue w) as [|r q IH]; intros h2 H3; [done|].
  cbn. apply IH. rewrite active_apply_swap. by destruct (decide _).
Qed.

(** And the watcher asks for nothing: the version in force is what it takes to run. *)
Lemma swapped_not_reconciled c i bp sid w target policy :
  service_upgrade_policy c sid = Ok policy → effective_binary_version c sid bp = Ok target →
  us_running (w_state w) !! sid = Some (mkRunning (version_id target) (bv_sha256 target)) →
  w_queue (reconcile_one c i bp sid w).2 = w_queue w.
Proof.
  intros Hp He Hr. unfold reconcile_one. rewrite Hp, He. cbn [w_state on_state us_running set_policy]. rewrite Hr. unfold needs_swap. cbn [rb_sha256].
  by rewrite bool_decide_eq_true_2.
Qed.

End system.

(** ** Failures *)

(** Metadata that cannot be read ends the handling of the block: its later logs, the
    signal to the watcher and the queued swaps are left. *)
Lemma metadata_error_drops_block `{V : VersionEvents} `{SE : ServiceEvents} wd l logs h sid e :
  decode_activated l = Some sid → wd_service wd sid = Err e → handle_event wd (l :: logs) h = (Err e, h).
Proof. intros Hd Hs. unfold handle_event. cbn [handle_logs]. unfold handle_log. by rewrite Hd, Hs. Qed.

(** A registration run has the number of service 0: while that service of the
    blueprint runs, a registration starts nothing. *)
Lemma registration_shadowed `{V : VersionEvents} `{SE : ServiceEvents} wd l h bp m v :
  decode_activated l = None → decode_terminated l = None → decode_preregistered l = Some bp →
  wd_registration wd bp = Ok (Some m) → md_blueprint_id m = bp → md_service_id m = REGISTRATION_SERVICE_ID →
  active h bp REGISTRATION_SERVICE_ID = Some v → handle_log wd 0 l h = (Ok tt, h).
Proof.
  intros H1 H2 H3 Hr Hb Hs Hv. unfold handle_log. rewrite H1, H2, H3, Hr. unfold ensure_service_running. by rewrite Hb, Hs, Hv.
Qed.

(** The data directory a service gets is its blueprint's: services of one blueprint
    share it. *)
Lemma data_dir_shared e bp sid sid' r c r' c' name :
  ev_data_dir (env_vars_new e bp sid r c name) = ev_data_dir (env_vars_new e bp sid' r' c' name).
Proof. done. Qed.

(** ** A run *)

#[export] Instance toy_service_events : ServiceEvents := {|
  decode_activated l := match topics l with [[10]; s] => Some (from_be_bytes s) | _ => None end;
  decode_terminated l := match topics l with [[11]; s] => Some (from_be_bytes s) | _ => None end;
  decode_preregistered l := match topics l with [[12]; s] => Some (from_be_bytes s) | _ => None end;
|}.
Definition demo_manager_env : ManagerEnv :=
  mkManagerEnv "http://localhost:8545/" "ws://localhost:8546/" "keystore" ["/ip4/1"; "/ip4/2"]%string None (Some ("0x1", "0x2", "0x3")%string) false
    "data" false true 2 StNative (λ _, None) None.
Definition demo_metadata : BlueprintMetadata :=
  mkMetadata 5 7 "demo" [Github (mkGithubFetcher "o" "r" "t" []); Container (mkImageFetcher "ghcr.io" "demo" "1")]
    TeeRequired (mkGpu GpuNone 0 0) false false.
Definition launch_ok : Launch := mkLaunch (Ok tt) (Ok tt) (λ _ _, Ok tt) (λ _, Ok true) (λ _, Connected).
Definition demo_world : World :=
  mkWorld demo_manager_env (λ s, Ok (if s =? 7 then Some demo_metadata else None)) (λ _, Ok None) (λ _, Some 5)
    (demo_view 1 0 (demo_target B256_ZERO)) (λ _, launch_ok) (λ _ _, Ok tt) 0.
Definition event_log (kind id : Z) : Log := mkLog [9] [[kind]; [id]] [] (Some 1) None None None.
Definition fresh_watcher : Watcher := mkWatcher upgrade_state_new ∅ new_in_memory [] true ∅.
Definition demo_handler : Handler := mkHandler ∅ (Some fresh_watcher) [].

Lemma running_services_sound_witness :
  ∃ h v, sys_run [demo_world] demo_handler h ∧ active h 5 7 = Some v ∧ (∃ s, sv_source v = Container s) ∧
    (∀ w, hd_upgrade h = Some w → (5, 7) ∈ w_tracked w).
Proof.
  set (h := (handle_event demo_world [event_log 10 7] demo_handler).2).
  assert (Hr : sys_run [demo_world] (mkHandler ∅ (Some fresh_watcher) []) h)
    by (apply (run_step [_] [] _ h); [apply step_block|apply run_start]).
  assert (Hv : ∃ v, active h 5 7 = Some v ∧ ∃ s, sv_source v = Container s) by (eexists; split; [vm_compute; reflexivity|by eexists]).
  destruct Hv as (v & Hv & Hc). exists h, v. split; [exact Hr|]. split; [exact Hv|]. split; [exact Hc|].
  exact (proj2 (running_services_sound (Some fresh_watcher) [demo_world] h Hr 5 7 v Hv)).
Defined.

Lemma initialize_runs_services_witness :
  is_Some (active (initialize (mkInit None false None (Some 9) (λ _, Ok true)) demo_world demo_handler).2 5 7).
Proof.
  apply (initialize_runs_services (mkInit None false None (Some 9) (λ _, Ok true)) demo_world demo_handler 7 9 demo_metadata);
    try reflexivity; [lia|]. eexists. vm_compute. reflexivity.
Defined.

(** The whole course of an upgrade: the service runs, the watcher asks for the swap,
    the next block applies it, and the service is off from then on. *)
Lemma upgrade_ends_down :
  let h := (handle_event demo_world [event_log 10 7] (mkHandler ∅ (Some fresh_watcher) [])).2 in
  let old := on_watcher (on_state (set_running 7 (mkRunning 0 [1]))) h in
  let signalled := (handle_event demo_world [mkLog [9] [[5]] [] (Some 2) None None None] old).2 in
  let asked := mkHandler (hd_active signalled) (reconcile (demo_env 1 0 B256_ZERO) ∅ <$> hd_upgrade signalled) [] in
  let done := (handle_event demo_world [] asked).2 in
  is_Some (active asked 5 7) ∧ active done 5 7 = None ∧
  ((λ w, w_queue (reconcile (demo_env 1 0 B256_ZERO) ∅ w)) <$> hd_upgrade done) = Some [].
Proof. split; [vm_compute; by eexists|]. split; vm_compute; reflexivity. Qed.

(** A start that fails ends the launch, and the other sources are not tried. *)
Lemma start_error_abandons :
  let l ok0 := mkLaunch (Ok tt) (Ok tt) (λ _ _, Ok tt) (λ n, if Nat.eqb n 0 then ok0 else Ok true) (λ n, if Nat.eqb n 0 then Silent else Connected) in
  let m := mkMetadata 5 7 "demo" [Container (mkImageFetcher "a" "b" "1"); Container (mkImageFetcher "a" "b" "2")] CpAny (mkGpu GpuNone 0 0) false false in
  launch demo_manager_env (l (Err (MgIo "exec"))) m = Err (MgIo "exec") ∧ is_Ok (launch demo_manager_env (l (Ok true)) m).
Proof. split; [vm_compute; reflexivity|]. eexists. vm_compute. reflexivity. Qed.
