(* ===== verification/UpgradeChannels.v ===== *)
(** * The channels between the event handler and the upgrade watcher
      ([manager/src/upgrade/watcher.rs], [mod.rs], [protocol/tangle/event_handler.rs])

    Two tasks and two bounded channels: the handler sends signals and takes swaps, the
    watcher takes signals and sends swaps.  A send into a full channel waits, except
    the signal for single blueprints.  Only the lengths of the channels matter. *)

From Stdlib Require Import ZArith Lia.
From stdpp Require Import base list relations.
From S2P Require Import Prelude.

(** [mpsc::channel(64)] in [UpgradeWatcher::spawn], [mpsc::channel(32)] in
    [UpgradePipelineBuilder::spawn] *)
Definition SIGNAL_CAP : nat := 64.
Definition SWAP_CAP : nat := 32.

(** The handler waits for a block, waits for room for a signal, or takes swaps; the
    watcher waits for a signal, or is in a pass with swaps still to send *)
Inductive HandlerAt := HWaiting | HSending | HDraining.
Inductive WatcherAt := WWaiting | WPass (left : nat).
Record Channels := mkChannels { signals : nat; swaps : nat; handler_at : HandlerAt; watcher_at : WatcherAt }.
Definition channels_init : Channels := mkChannels 0 0 HWaiting WWaiting.

(** The steps, when a pass sends at most [max] swaps *)
Inductive chan_step (max : nat) : Channels → Channels → Prop :=
(* a block with a policy or acknowledgement event: [notify_reconcile_all] *)
| cs_policy_block s q w : chan_step max (mkChannels s q HWaiting w) (mkChannels s q HSending w)
| cs_sent s q w : s < SIGNAL_CAP → chan_step max (mkChannels s q HSending w) (mkChannels (S s) q HDraining w)
(* a block with version events: [notify_block], [try_send] *)
| cs_version_block s q w :
    chan_step max (mkChannels s q HWaiting w) (mkChannels (if s <? SIGNAL_CAP then S s else s) q HDraining w)
(* any other block *)
| cs_other_block s q w : chan_step max (mkChannels s q HWaiting w) (mkChannels s q HDraining w)
(* [drain_pending_swaps] *)
| cs_take s q w : chan_step max (mkChannels s (S q) HDraining w) (mkChannels s q HDraining w)
| cs_drained s w : chan_step max (mkChannels s 0 HDraining w) (mkChannels s 0 HWaiting w)
(* the watcher: [rx.recv], [swap_tx.send], the end of a pass *)
| cs_recv s q h n : n ≤ max → chan_step max (mkChannels (S s) q h WWaiting) (mkChannels s q h (WPass n))
| cs_swap s q h n : q < SWAP_CAP → chan_step max (mkChannels s q h (WPass (S n))) (mkChannels s (S q) h (WPass n))
| cs_done s q h : chan_step max (mkChannels s q h (WPass 0)) (mkChannels s q h WWaiting).

(** A state in which neither task moves although there is work *)
Definition stuck (max : nat) (c : Channels) : Prop := handler_at c ≠ HWaiting ∧ ∀ c', ¬ chan_step max c c'.

(** While the channel of signals is full and the handler is not taking swaps, what the
    watcher still has to send fits. *)
Definition fits (max : nat) (c : Channels) : Prop :=
  signals c ≤ SIGNAL_CAP ∧ (∀ n, watcher_at c = WPass n → n ≤ max) ∧
  (handler_at c ≠ HDraining → signals c = SIGNAL_CAP → ∀ n, watcher_at c = WPass n → swaps c + n ≤ SWAP_CAP).

Lemma fits_step max c c' : max ≤ SWAP_CAP → chan_step max c c' → fits max c → fits max c'.
Proof.
  unfold fits, SIGNAL_CAP, SWAP_CAP. intros Hm Hs (H1 & H2 & H3).
  destruct Hs; cbn [signals swaps handler_at watcher_at] in *; (split; [|split]); intros; unfold SIGNAL_CAP, SWAP_CAP in *; simplify_eq;
    try match goal with H : context [_ <? _] |- _ => destruct (Nat.ltb_spec s 64) | |- context [_ <? _] => destruct (Nat.ltb_spec s 64) end;
    try (specialize (H2 _ eq_refl)); try (specialize (H3 ltac:(first [discriminate|assumption]) ltac:(lia) _ eq_refl)); lia.
Qed.

Lemma fits_moves max c : max ≤ SWAP_CAP → fits max c → handler_at c ≠ HWaiting → ∃ c', chan_step max c c'.
Proof.
  intros Hm (H1 & H2 & H3) Hh. destruct c as [s q [| |] w]; cbn in *; [done| |].
  - destruct (decide (s < SIGNAL_CAP)) as [Hs|Hs]; [eexists; by apply cs_sent|]. assert (s = SIGNAL_CAP) as -> by lia.
    destruct w as [|[|n]]; [exists (mkChannels 63 q HSending (WPass 0)); apply (cs_recv max 63 q HSending 0); lia|eexists; apply cs_done|].
    eexists. apply cs_swap. specialize (H3 ltac:(done) eq_refl _ eq_refl). unfold SWAP_CAP in *. lia.
  - destruct q; eexists; [apply cs_drained|apply cs_take].
Qed.

(** C31. The two tasks never block each other as long as one pass of the watcher has at
    most as many swaps to send as their channel holds: whatever the blocks and the
    speed of either task, a handler that is not waiting for a block can go on, or the
    watcher can. *)
Theorem handler_never_stuck max c :
  max ≤ SWAP_CAP → rtc (chan_step max) channels_init c → ¬ stuck max c.
Proof.
  intros Hm Hr [Hh Hn]. assert (Hf : fits max c).
  { assert (H0 : fits max channels_init) by (split; [cbn; unfold SIGNAL_CAP; lia|]; split; intros; discriminate).
    revert H0. induction Hr as [|x y z Hs _ IH]; [done|]. intros H0. apply IH; [done..|]. by eapply fits_step. }
  destruct (fits_moves max c Hm Hf Hh) as [c' Hc]. by apply (Hn c').
Qed.

(** ** With one swap more *)

Lemma fill_signals max n s w : n + s ≤ SIGNAL_CAP →
  rtc (chan_step max) (mkChannels s 0 HWaiting w) (mkChannels (n + s) 0 HWaiting w).
Proof.
  revert s. induction n as [|n IH]; intros s Hs; [done|]. eapply rtc_l; [apply cs_policy_block|]. eapply rtc_l; [apply cs_sent; lia|].
  eapply rtc_l; [apply cs_drained|]. replace (S n + s) with (n + S s) by lia. apply IH. lia.
Qed.
Lemma fill_swaps max n q s h k : n + q ≤ SWAP_CAP →
  rtc (chan_step max) (mkChannels s q h (WPass (n + k))) (mkChannels s (n + q) h (WPass k)).
Proof.
  revert q. induction n as [|n IH]; intros q Hq; [done|]. eapply rtc_l; [apply cs_swap; lia|].
  replace (S n + q) with (n + S q) by lia. apply IH. lia.
Qed.

(** A pass with one swap more than the channel holds can leave both tasks waiting for
    each other for ever: the handler to signal, the watcher to hand over a swap. *)
Lemma both_tasks_stuck : ∃ c, rtc (chan_step (S SWAP_CAP)) channels_init c ∧ stuck (S SWAP_CAP) c.
Proof.
  exists (mkChannels SIGNAL_CAP SWAP_CAP HSending (WPass 1)). split.
  - etrans; [apply (fill_signals _ 1 0); unfold SIGNAL_CAP; lia|]. eapply rtc_l; [apply (cs_recv _ 0 0 HWaiting (S SWAP_CAP)); lia|].
    etrans; [apply (fill_signals _ SIGNAL_CAP 0); unfold SIGNAL_CAP; lia|]. rewrite Nat.add_0_r.
    etrans; [apply (fill_swaps _ SWAP_CAP 0 SIGNAL_CAP HWaiting 1); unfold SWAP_CAP; lia|]. rewrite Nat.add_0_r.
    apply rtc_once, cs_policy_block.
  - split; [done|]. intros c' Hs. inversion Hs; subst; unfold SIGNAL_CAP, SWAP_CAP in *; lia.
Qed.

Lemma handler_never_stuck_witness :
  rtc (chan_step 2) channels_init (mkChannels 0 2 HSending (WPass 0)) ∧ ¬ stuck 2 (mkChannels 0 2 HSending (WPass 0)).
Proof.
  assert (Hr : rtc (chan_step 2) channels_init (mkChannels 0 2 HSending (WPass 0))).
  { etrans; [apply (fill_signals _ 1 0); unfold SIGNAL_CAP; lia|]. eapply rtc_l; [apply (cs_recv _ 0 0 HWaiting 2); lia|].
    etrans; [apply (fill_swaps _ 2 0 0 HWaiting 0); unfold SWAP_CAP; lia|]. apply rtc_once, cs_policy_block. }
  split; [exact Hr|]. apply (handler_never_stuck 2); [unfold SWAP_CAP; lia|exact Hr].
Defined.
